(* ===== verification/_CoqProject ===== *)
-Q . S2P
Prelude.v
Bitmap.v
Block.v
Cache.v
CString.v
Arithmetic.v
CStdlib.v
Stdio.v
StdioSpec.v
Ustar.v
UstarSpec.v
Partition.v
PartitionSpec.v
Intq.v
IntqSpec.v
Serial.v
SerialSpec.v
Kbd.v
KbdSpec.v
Rtc.v
Vga.v
VgaSpec.v
Random.v
Shell.v
ShellSpec.v
Boot.v
BootSpec.v
KList.v
ListFamily.v
HashTable.v
HashSpec.v
Palloc.v
Malloc.v
MallocSpec.v
Pagedir.v
PagedirSpec.v
Paging.v
Descriptors.v
DescriptorsSpec.v
Ide.v
IdeSpec.v
Process.v
UserMemory.v
StackSpec.v
LoadSpec.v
CommandLine.v
Inode.v
InodeSpec.v
Growth.v
FileContents.v
CreateOpen.v
Directory.v
DirectorySpec.v
ProcessFiles.v
Syscall.v
SyscallSpec.v
FsUtil.v
FsUtilSpec.v
Threads.v
Pit.v
ThreadInv.v
Scheduling.v
Lifecycle.v
