(* ===== verification/Prelude.v ===== *)
(** * Verification of the PlNT (Pintos) kernel sources

    The program is a small operating system for 32-bit x86 in C, under
    src/src: devices/ (drivers), threads/ (kernel core), userprog/ (processes
    and system calls), filesys/ (file system), lib/ (C library).  This library
    translates its own logic into executable functions and proves the
    properties that make the parts correct.

    ** How the parts interact

    A system call (userprog/syscall.c) checks pointers through the page tables
    (userprog/pagedir.c), looks up the process's descriptor table and calls the
    file system (filesys/filesys.c, directory.c, file.c, inode.c), which goes
    through a write-back cache (cache.c) to a block device (devices/block.c),
    a disk or a partition of one.  Processes are threads with an address space:
    process.c loads an ELF file into pages of the page allocator
    (threads/palloc.c) and talks to its parent through semaphores
    (threads/synch.c), which block threads in the scheduler (threads/thread.c).
    Key strokes enter by an interrupt handler (devices/kbd.c) through a ring
    (devices/intq.c), text leaves by the console (lib/kernel/console.c) to the
    display (devices/vga.c).  At the start threads/init.c maps the memory,
    reads the command line and runs its actions or a shell.

    ** How code becomes definitions

    - Results: [res], a value or an error: a failed assertion, a panic, an
      access outside an object, or too little fuel.  State: the monad [stM].
    - Integers are [Z]; every place where C wraps has [u8], [u32], [i32], ...
    - Memory: a list of bytes with bounds-checked access for the C library and
      what is built on it (CString.v); a total function from addresses for the
      page allocator and the page tables; a finite map of linked cells for
      kernel lists; sectors of 512 bytes for disks.
    - Code that is not in the repository (the disk hardware, allocation
      outcomes, the linker's addresses, clock registers) is a parameter or an
      interface: [BlockOps] with [BlockLaws] (Block.v) between devices and the
      cache, [SectorStore] with [SectorStoreLaws] (Cache.v) between the cache
      and inodes, [Files] (Process.v) with [FilesLaws] (LoadSpec.v, discharged
      by ProcessFiles.v) between the loader and the file system, and the
      [Allocator] of HashTable.v.
    - Interleaving: the threads are a step relation ([exec] in Threads.v) whose
      states hold a stack of continuations for every thread; interrupts may
      come between any two steps with interrupts on.  Intq.v cuts the calls on
      a queue where a thread can block.

    ** Files and sources

    - Prelude.v: results, monads, machine integers, byte lists, tactics and
      hints; lib/round.h.
    - Bitmap.v: lib/kernel/bitmap.c.  KList.v, ListFamily.v: lib/kernel/list.c.
      HashTable.v, HashSpec.v: lib/kernel/hash.c.
    - CString.v: lib/string.c.  CStdlib.v: lib/stdlib.c and ctype.h.
      Arithmetic.v: lib/arithmetic.c.  Random.v: lib/random.c.
    - Stdio.v, StdioSpec.v: lib/stdio.c and lib/kernel/console.c.
    - Ustar.v, UstarSpec.v: lib/ustar.c.
    - Block.v: devices/block.c.  Partition.v, PartitionSpec.v:
      devices/partition.c.  Intq.v, IntqSpec.v: devices/intq.c and input.c.
      Kbd.v, KbdSpec.v: devices/kbd.c.  Rtc.v: devices/rtc.c.  Vga.v,
      VgaSpec.v: devices/vga.c.
    - Palloc.v: threads/palloc.c and vaddr.h.  Malloc.v, MallocSpec.v:
      threads/malloc.c.  Pagedir.v, PagedirSpec.v: threads/pte.h and
      userprog/pagedir.c.  Paging.v: [paging_init] of threads/init.c.
    - Shell.v, ShellSpec.v: the interactive shell of threads/init.c.  Boot.v,
      BootSpec.v: its command line, options, actions and block devices.
    - Descriptors.v, DescriptorsSpec.v: the descriptor tables of
      threads/interrupt.c and userprog/gdt.c, tss.c and the registration of
      handlers by exception.c, syscall.c, timer.c, kbd.c, serial.c and ide.c.
    - Ide.v, IdeSpec.v: devices/ide.c.  FsUtil.v, FsUtilSpec.v:
      filesys/fsutil.c.
    - Serial.v, SerialSpec.v: devices/serial.c.  Pit.v: devices/pit.c, speaker.c
      and the calibration and delays of timer.c.
    - Cache.v: filesys/cache.c.  Inode.v: inode.c, free-map.c, file.c, with
      InodeSpec.v (reading and writing), Growth.v (allocation), FileContents.v
      and CreateOpen.v (whole operations).  Directory.v, DirectorySpec.v:
      directory.c and filesys.c.
    - Process.v: userprog/process.c, with UserMemory.v (address spaces),
      StackSpec.v (arguments), LoadSpec.v (the loader), CommandLine.v (words of
      a command), ProcessFiles.v (over the file system).  Syscall.v,
      SyscallSpec.v: userprog/syscall.c.
    - Threads.v: threads/thread.c, synch.c, interrupt.c, devices/timer.c and
      the hand-shakes of process.c and syscall.c; ThreadInv.v (invariant),
      Scheduling.v (promises), Lifecycle.v (exit, wait, kill).

    ** What the theorems show

    - Storage: the cache behaves like the disk; a written file reads back and
      other files keep their bytes, through growth, indirect blocks and the
      free map; directories resolve exactly the names that were added and not
      removed; what happens on a full disk.  Partitions are disjoint windows, found from their table.
    - Memory: blocks of malloc, calloc and realloc never overlap; page tables translate what they
      were told; the kernel's own mapping is exact and closed to user programs.
    - Processes: the loader ends on every file and puts every segment and
      argument in place; descriptors stay sound under every system call; bytes
      go from user memory to a file and back.
    - Threads: in every reachable state a thread is on at most one list,
      sleepers wake on time, ready threads run.
    - Library: families of lists, hash tables, sorting and formatted output agree with their
      mathematical counterparts.
    - Devices: over a controller that follows the ATA protocol the disk driver
      is two arrays of sectors; what is appended to an archive on the scratch
      device is extracted again; over a port that loses what is written while
      it is busy the serial driver sends what was written, in order.
    - Input, display, start: text typed on a US keyboard is read, the display shows the end of
      what was written, the shell, whichever allocations fail, and the command
      line do what a definition on lists does.
    - Errors: theorems that exhibit a defect in the code as it is (a full disk,
      two readers of a queue, an extended partition, the shell, the end of an
      archive, the semaphore of [process_wait], a page fault with the file lock
      held, the option [-rs], requests to malloc near 2^32); the manifest lists
      the others as findings.

    ** Bounds and fuel

    A loop with a counter is a recursion on what is left of it.  Other loops
    have fuel: [walk m], one more than the size of the memory, for loops that
    move a pointer up; the number of entries for loops over tables, lists and
    queues; two rounds of the cache for the clock hand; the number of keys left
    for the shell; the number of devices for reads through partitions.  The
    theorems about results show that these never run out; where the code itself
    does not end ([read_partition_table] on an extended partition) the theorem
    says so for every fuel.

    ** Not modelled

    Assembly (loader.S, start.S, switch.S, intr-stubs.S); shutdown.c but for
    [shutdown] itself, and the beep of speaker.c; stack traces (debug.c); vm/, whose
    files are empty; programs that run in user mode (lib/user, examples/), tests
    and host tools (tests/, utils/).  Printing of statistics is left out
    throughout. *)

From stdpp Require Export prelude gmap list fin_maps.
From Stdlib Require Export ZArith Lia.

#[export] Set Default Goal Selector "!".
Open Scope Z_scope.

(** ** Results of C code

    A C function either returns a value or stops the kernel.  [EAssert] is a
    failed [ASSERT], [EPanic] a [PANIC] or a trap, [EFault] an access outside
    the object it is made through (undefined behaviour in C), and [EFuel] says
    that the model's iteration bound was too small; theorems that claim a
    result show that the last never happens. *)

Inductive err := EAssert | EPanic | EFault | EFuel.

#[export] Instance err_eq_dec : EqDecision err.
Proof. solve_decision. Defined.

Inductive res (A : Type) : Type :=
| Ok (a : A)
| Err (e : err).
Arguments Ok {A} a.
Arguments Err {A} e.

#[export] Instance res_ret : MRet res := @Ok.
#[export] Instance res_bind : MBind res := fun A B f m =>
  match m with Ok a => f a | Err e => Err e end.

(** [ASSERT (b)] of lib/debug.h. *)
Definition assert (b : bool) : res unit := if b then Ok tt else Err EAssert.

(** An access that must be in bounds. *)
Definition deref {A} (o : option A) : res A :=
  match o with Some a => Ok a | None => Err EFault end.

Lemma res_bind_ok {A B} (m : res A) (f : A → res B) b :
  m ≫= f = Ok b ↔ ∃ a, m = Ok a ∧ f a = Ok b.
Proof. destruct m; simpl; split; [eauto| |done|]; intros (? & [=] & ?); by subst. Qed.

Lemma assert_ok b u : assert b = Ok u ↔ b = true.
Proof. destruct b, u; split; naive_solver. Qed.

Lemma assert_true b : b = true → assert b = Ok tt.
Proof. by intros ->. Qed.

Lemma deref_ok {A} (o : option A) a : deref o = Ok a ↔ o = Some a.
Proof. destruct o; split; naive_solver. Qed.

(** ** Stateful C code: a state and error monad *)

Definition stM (S A : Type) : Type := S → res (A * S).

#[export] Instance stM_ret {S} : MRet (stM S) := fun A a s => Ok (a, s).
#[export] Instance stM_bind {S} : MBind (stM S) := fun A B f m s =>
  match m s with Ok (a, s') => f a s' | Err e => Err e end.

Definition sget {S} : stM S S := fun s => Ok (s, s).
Definition sput {S} (s : S) : stM S unit := fun _ => Ok (tt, s).
Definition smod {S} (f : S → S) : stM S unit := fun s => Ok (tt, f s).
Definition sread {S A} (f : S → A) : stM S A := fun s => Ok (f s, s).
Definition slift {S A} (m : res A) : stM S A := fun s =>
  match m with Ok a => Ok (a, s) | Err e => Err e end.
Definition sassert {S} (b : bool) : stM S unit := slift (assert b).
Definition serr {S A} (e : err) : stM S A := fun _ => Err e.

Lemma stM_bind_eq {S A B} (m : stM S A) (f : A → stM S B) s :
  (m ≫= f) s = match m s with Ok (a, s') => f a s' | Err e => Err e end.
Proof. done. Qed.

(** If a step is known to return, continue with what it returns. *)
Lemma stM_bind_run {S A B} (m : stM S A) (f : A → stM S B) s a s' :
  m s = Ok (a, s') → (m ≫= f) s = f a s'.
Proof. intros H. by rewrite stM_bind_eq, H. Qed.

Lemma stM_bind_inv {S A B} (m : stM S A) (f : A → stM S B) s b s2 :
  (m ≫= f) s = Ok (b, s2) → ∃ a s1, m s = Ok (a, s1) ∧ f a s1 = Ok (b, s2).
Proof. rewrite stM_bind_eq. destruct (m s) as [[a s1]|]; [|done]. eauto. Qed.

(** ** Machine integers

    An [w]-bit C integer is a [Z] with the wrap-around written out. *)

Abbreviation W8 := 256.
Abbreviation W16 := 65536.
Abbreviation W31 := 2147483648.
Abbreviation W32 := 4294967296.
Abbreviation W63 := 9223372036854775808.
Abbreviation W64 := 18446744073709551616.

Definition u8 (z : Z) : Z := z mod W8.
Definition u16 (z : Z) : Z := z mod W16.
Definition u32 (z : Z) : Z := z mod W32.
Definition u64 (z : Z) : Z := z mod W64.
Definition i32 (z : Z) : Z := (z + W31) mod W32 - W31.
Definition i64 (z : Z) : Z := (z + W63) mod W64 - W63.

(** [lia] after turning [/] and [mod] into their defining equations. *)
Ltac dlia := Z.to_euclidean_division_equations; lia.

Definition in_u8 (z : Z) : Prop := 0 ≤ z < W8.
Definition in_u32 (z : Z) : Prop := 0 ≤ z < W32.
Definition in_u64 (z : Z) : Prop := 0 ≤ z < W64.
Definition in_i32 (z : Z) : Prop := - W31 ≤ z < W31.
Definition in_i64 (z : Z) : Prop := - W63 ≤ z < W63.

Lemma u8_range z : in_u8 (u8 z).
Proof. unfold in_u8, u8. dlia. Qed.
Lemma u32_range z : in_u32 (u32 z).
Proof. unfold in_u32, u32. dlia. Qed.
Lemma u64_range z : in_u64 (u64 z).
Proof. unfold in_u64, u64. dlia. Qed.
Lemma i32_range z : in_i32 (i32 z).
Proof. unfold in_i32, i32. dlia. Qed.
Lemma i64_range z : in_i64 (i64 z).
Proof. unfold in_i64, i64. dlia. Qed.

Lemma u8_small z : in_u8 z → u8 z = z.
Proof. unfold in_u8, u8. dlia. Qed.
Lemma u32_small z : in_u32 z → u32 z = z.
Proof. unfold in_u32, u32. dlia. Qed.
Lemma u64_small z : in_u64 z → u64 z = z.
Proof. unfold in_u64, u64. dlia. Qed.
Lemma i32_small z : in_i32 z → i32 z = z.
Proof. unfold in_i32, i32. dlia. Qed.
Lemma i64_small z : in_i64 z → i64 z = z.
Proof. unfold in_i64, i64. dlia. Qed.

Create HintDb pintos.
#[export] Hint Resolve u8_range u32_range u64_range i32_range i64_range : pintos.

(** Removes the wrap-around of every machine integer whose value is in range;
    the range goals are left to [lia]. *)
Ltac unwrap_ints :=
  repeat match goal with
  | |- context [u8 ?z] => rewrite (u8_small z) by (unfold in_u8; lia)
  | |- context [u32 ?z] => rewrite (u32_small z) by (unfold in_u32; lia)
  | |- context [u64 ?z] => rewrite (u64_small z) by (unfold in_u64; lia)
  | |- context [i32 ?z] => rewrite (i32_small z) by (unfold in_i32; lia)
  | |- context [i64 ?z] => rewrite (i64_small z) by (unfold in_i64; lia)
  end.

(** Unfolds every machine-integer definition for [lia]. *)
Ltac mach_lia :=
  unfold in_u8, in_u32, in_u64, in_i32, in_i64, u8, u16, u32, u64, i32, i64 in *; dlia.

(** Splits the boolean tests of the C conditions into propositions. *)
Ltac bool_props :=
  repeat match goal with
  | H : andb _ _ = true |- _ => apply andb_true_iff in H as [? ?]
  | H : orb _ _ = false |- _ => apply orb_false_iff in H as [? ?]
  | H : negb _ = true |- _ => apply negb_true_iff in H
  | H : negb _ = false |- _ => apply negb_false_iff in H
  | H : (_ <? _) = true |- _ => apply Z.ltb_lt in H
  | H : (_ <? _) = false |- _ => apply Z.ltb_ge in H
  | H : (_ <=? _) = true |- _ => apply Z.leb_le in H
  | H : (_ <=? _) = false |- _ => apply Z.leb_gt in H
  | H : (_ =? _) = true |- _ => apply Z.eqb_eq in H
  | H : (_ =? _) = false |- _ => apply Z.eqb_neq in H
  end.

(** lib/round.h. *)
Definition ROUND_UP (x step : Z) : Z := (x + step - 1) / step * step.
Definition DIV_ROUND_UP (x step : Z) : Z := (x + step - 1) / step.
Definition ROUND_DOWN (x step : Z) : Z := x / step * step.

Lemma div_round_up_bounds x step :
  0 < step → x ≤ step * DIV_ROUND_UP x step < x + step.
Proof.
  intros. unfold DIV_ROUND_UP.
  pose proof (Z.div_mod (x + step - 1) step ltac:(lia)).
  pose proof (Z.mod_pos_bound (x + step - 1) step ltac:(lia)). lia.
Qed.

(** ** Byte buffers

    [slice ofs n l] is the [n] bytes at [ofs]; [splice ofs src l] overwrites
    the bytes at [ofs] with [src]: what [memcpy] reads and writes. *)

Definition slice {A} (ofs n : nat) (l : list A) : list A := take n (drop ofs l).
Definition splice {A} (ofs : nat) (src l : list A) : list A :=
  take ofs l ++ src ++ drop (ofs + length src) l.

Section buffers.
Context {A : Type}.
Implicit Types l src : list A.

Lemma length_slice ofs n l :
  (ofs + n ≤ length l)%nat → length (slice ofs n l) = n.
Proof. intros. unfold slice. rewrite length_take, length_drop. lia. Qed.

Lemma length_splice ofs src l :
  (ofs + length src ≤ length l)%nat → length (splice ofs src l) = length l.
Proof.
  intros. unfold splice. rewrite !length_app, length_take, length_drop. lia.
Qed.

Lemma lookup_slice ofs n l i :
  (i < n)%nat → slice ofs n l !! i = l !! (ofs + i)%nat.
Proof. intros. unfold slice. rewrite lookup_take_lt by lia. apply lookup_drop. Qed.

Lemma lookup_slice_ge ofs n l i :
  (n ≤ i)%nat → slice ofs n l !! i = None.
Proof. intros. unfold slice. apply lookup_take_ge. lia. Qed.

Lemma lookup_splice_l ofs src l i :
  (ofs ≤ length l)%nat → (i < ofs)%nat → splice ofs src l !! i = l !! i.
Proof.
  intros. unfold splice. rewrite lookup_app_l by (rewrite length_take; lia).
  by rewrite lookup_take_lt.
Qed.

Lemma lookup_splice_m ofs src l i :
  (ofs ≤ length l)%nat → (ofs ≤ i < ofs + length src)%nat →
  splice ofs src l !! i = src !! (i - ofs)%nat.
Proof.
  intros. unfold splice. rewrite lookup_app_r by (rewrite length_take; lia).
  rewrite length_take, Nat.min_l, lookup_app_l by lia. done.
Qed.

Lemma lookup_splice_r ofs src l i :
  (ofs ≤ length l)%nat → (ofs + length src ≤ i)%nat →
  splice ofs src l !! i = l !! i.
Proof.
  intros. unfold splice. rewrite lookup_app_r by (rewrite length_take; lia).
  rewrite length_take, Nat.min_l, lookup_app_r by lia.
  rewrite lookup_drop. f_equal. lia.
Qed.

(** Reading back what was written. *)
Lemma slice_splice_same ofs src l :
  (ofs + length src ≤ length l)%nat →
  slice ofs (length src) (splice ofs src l) = src.
Proof.
  intros H. apply list_eq. intros i.
  destruct (decide (i < length src)%nat).
  - rewrite lookup_slice, lookup_splice_m by lia. f_equal. lia.
  - rewrite lookup_slice_ge by lia. symmetry. apply lookup_ge_None. lia.
Qed.

(** A read that does not meet the written range. *)
Lemma slice_splice_disjoint ofs src l o n :
  (ofs + length src ≤ length l)%nat →
  (o + n ≤ ofs ∨ ofs + length src ≤ o)%nat →
  slice o n (splice ofs src l) = slice o n l.
Proof.
  intros H Hd. apply list_eq. intros i.
  destruct (decide (i < n)%nat).
  - rewrite !lookup_slice by lia. destruct Hd.
    + by rewrite lookup_splice_l by lia.
    + by rewrite lookup_splice_r by lia.
  - by rewrite !lookup_slice_ge by lia.
Qed.

Lemma splice_full l src : length src = length l → splice 0 src l = src.
Proof.
  intros H. unfold splice. rewrite take_0, drop_ge by (simpl; lia).
  simpl. apply app_nil_r.
Qed.

Lemma slice_full l n : n = length l → slice 0 n l = l.
Proof. intros ->. unfold slice. rewrite drop_0. by apply take_ge. Qed.

Lemma slice_replicate ofs n m (x : A) :
  (ofs + n ≤ m)%nat → slice ofs n (replicate m x) = replicate n x.
Proof.
  intros. unfold slice. rewrite drop_replicate, take_replicate. f_equal. lia.
Qed.

Lemma slice_app_l ofs n l1 l2 :
  (ofs + n ≤ length l1)%nat → slice ofs n (l1 ++ l2) = slice ofs n l1.
Proof.
  intros. unfold slice. rewrite drop_app_le by lia.
  apply take_app_le. rewrite length_drop. lia.
Qed.

Lemma Forall_slice (P : A → Prop) ofs n l : Forall P l → Forall P (slice ofs n l).
Proof. intros. by apply Forall_take, Forall_drop. Qed.

Lemma Forall_splice (P : A → Prop) ofs src l :
  Forall P src → Forall P l → Forall P (splice ofs src l).
Proof.
  intros. unfold splice. rewrite !Forall_app.
  split_and!; [by apply Forall_take|done|by apply Forall_drop].
Qed.

Lemma slice_add o m1 m2 l : slice o (m1 + m2) l = slice o m1 l ++ slice (o + m1) m2 l.
Proof.
  unfold slice. rewrite <- (take_take_drop (drop o l) m1 m2), drop_drop. done.
Qed.

Lemma splice_app o s1 s2 l :
  (o + length s1 + length s2 ≤ length l)%nat →
  splice (o + length s1) s2 (splice o s1 l) = splice o (s1 ++ s2) l.
Proof.
  intros. apply list_eq. intros i.
  assert (length (splice o s1 l) = length l) by (apply length_splice; lia).
  destruct (decide (i < o)%nat); [|destruct (decide (i < o + length s1)%nat);
    [|destruct (decide (i < o + length s1 + length s2)%nat)]].
  - rewrite !lookup_splice_l by lia. done.
  - rewrite lookup_splice_l, !lookup_splice_m, lookup_app_l by (rewrite ?length_app; lia). done.
  - rewrite !lookup_splice_m, lookup_app_r by (rewrite ?length_app; lia). f_equal. lia.
  - rewrite !lookup_splice_r by (rewrite ?length_app; lia). done.
Qed.

Lemma slice_take o m k l : (o + m ≤ k)%nat → slice o m (take k l) = slice o m l.
Proof.
  intros. unfold slice.
  apply list_eq. intros i. destruct (decide (i < m)%nat).
  - rewrite !lookup_take_lt, !lookup_drop, lookup_take_lt by lia. done.
  - rewrite !lookup_take_ge by lia. done.
Qed.

Lemma splice_take o s k l :
  (o + length s ≤ k ≤ length l)%nat → splice o s (take k l) = take k (splice o s l).
Proof.
  intros. apply list_eq. intros i. destruct (decide (i < k)%nat).
  - rewrite (lookup_take_lt (splice _ _ _)) by lia.
    assert (k ≤ length (take k l))%nat by (rewrite length_take; lia).
    destruct (decide (i < o)%nat); [|destruct (decide (i < o + length s)%nat)].
    + rewrite !lookup_splice_l, lookup_take_lt by lia. done.
    + rewrite !lookup_splice_m by lia. done.
    + rewrite !lookup_splice_r, lookup_take_lt by lia. done.
  - rewrite lookup_take_ge by lia. apply lookup_ge_None.
    rewrite length_splice; rewrite length_take; lia.
Qed.

(** A buffer made of blocks of [n] bytes each. *)
Lemma length_concat_blocks n (bs : list (list A)) :
  Forall (λ b, length b = n) bs → length (concat bs) = (length bs * n)%nat.
Proof. induction 1; [done|]. simpl. rewrite length_app. lia. Qed.

Lemma slice_concat n (bs : list (list A)) k b o m :
  Forall (λ b, length b = n) bs → bs !! k = Some b → (o + m ≤ n)%nat →
  slice (k * n + o) m (concat bs) = slice o m b.
Proof.
  intros Hf. revert k. induction Hf as [|c bs Hc Hf IH]; intros k Hk Hm; [done|].
  destruct k as [|k]; simplify_eq/=.
  - by rewrite slice_app_l by lia.
  - rewrite <- (IH k) by done. unfold slice. rewrite drop_app_ge by lia.
    do 2 f_equal. lia.
Qed.

Lemma splice_concat n (bs : list (list A)) k b o s :
  Forall (λ b, length b = n) bs → bs !! k = Some b → (o + length s ≤ n)%nat →
  splice (k * n + o) s (concat bs) = concat (<[k := splice o s b]> bs).
Proof.
  intros Hf. revert k. induction Hf as [|c bs Hc Hf IH]; intros k Hk Hm; [done|].
  destruct k as [|k]; simplify_eq/=.
  - unfold splice. rewrite take_app_le, drop_app_le, <- !app_assoc by lia. done.
  - rewrite <- (IH k) by done. unfold splice.
    rewrite take_app_ge, drop_app_ge, <- app_assoc by lia.
    do 2 f_equal; [f_equal; lia|]. f_equal. f_equal. lia.
Qed.
End buffers.

(** ** Little-endian encoding of C integers *)

Fixpoint le_bytes (n : nat) (z : Z) : list Z :=
  match n with
  | O => []
  | S n => z mod W8 :: le_bytes n (z / W8)
  end.

Fixpoint le_Z (l : list Z) : Z :=
  match l with
  | [] => 0
  | b :: l => b + W8 * le_Z l
  end.

Lemma length_le_bytes n z : length (le_bytes n z) = n.
Proof. revert z. induction n as [|n IH]; intros z; simpl; [done|]. by rewrite IH. Qed.

Lemma le_bytes_u8 n z : Forall in_u8 (le_bytes n z).
Proof.
  revert z. induction n as [|n IH]; intros z; simpl; constructor; [|done].
  unfold in_u8. dlia.
Qed.

(** Encoding then decoding gives the value modulo the width. *)
Lemma le_Z_bytes n z : le_Z (le_bytes n z) = z mod (W8 ^ Z.of_nat n).
Proof.
  revert z. induction n as [|n IH]; intros z; cbn [le_bytes le_Z].
  { change (W8 ^ Z.of_nat 0) with 1. by rewrite Z.mod_1_r. }
  rewrite IH, Nat2Z.inj_succ, Z.pow_succ_r by lia.
  by rewrite Z.rem_mul_r by lia.
Qed.

Lemma le_Z_range l : Forall in_u8 l → 0 ≤ le_Z l < W8 ^ Z.of_nat (length l).
Proof.
  induction 1 as [|b l Hb _ IH]; cbn [le_Z length]; [done|].
  rewrite Nat2Z.inj_succ, Z.pow_succ_r by lia. unfold in_u8 in Hb. lia.
Qed.

(** Decoding then encoding gives the bytes back. *)
Lemma le_bytes_Z l : Forall in_u8 l → le_bytes (length l) (le_Z l) = l.
Proof.
  induction 1 as [|b l Hb _ IH]; simpl; [done|]. unfold in_u8 in Hb.
  f_equal.
  - dlia.
  - replace ((b + W8 * le_Z l) / W8) with (le_Z l) by dlia. done.
Qed.

Create Rewrite HintDb buf.
#[export] Hint Rewrite @length_slice @length_splice length_le_bytes using lia : buf.

(** Searching a C array from the front: the index of the first hit. *)
Fixpoint find_index {A} (f : A → bool) (l : list A) : option nat :=
  match l with
  | [] => None
  | x :: l => if f x then Some 0%nat else S <$> find_index f l
  end.

Section find_index.
Context {A : Type} (f : A → bool).

Lemma find_index_Some l i :
  find_index f l = Some i →
  ∃ x, l !! i = Some x ∧ f x = true ∧
       ∀ j y, (j < i)%nat → l !! j = Some y → f y = false.
Proof.
  revert i. induction l as [|x l IH]; intros i; simpl; [done|].
  destruct (f x) eqn:E.
  - intros [= <-]. exists x. split_and!; [done..|]. intros. lia.
  - intros (i' & Hi & ->)%fmap_Some. destruct (IH _ Hi) as (y & ? & ? & Hlt).
    exists y. split_and!; [done..|]. intros [|j] z ?; [naive_solver|].
    simpl. apply Hlt. lia.
Qed.

Lemma find_index_None l :
  find_index f l = None ↔ ∀ i x, l !! i = Some x → f x = false.
Proof.
  induction l as [|x l IH]; simpl; [naive_solver|]. split.
  - destruct (f x) eqn:E; [done|]. intros Hn%fmap_None [|i] y; simpl; [naive_solver|].
    by apply IH.
  - intros H. rewrite (H 0%nat x eq_refl), fmap_None. apply IH.
    intros i y. apply (H (S i)).
Qed.

Lemma find_index_lt l i : find_index f l = Some i → (i < length l)%nat.
Proof. intros (x & ? & _)%find_index_Some. by eapply lookup_lt_Some. Qed.
End find_index.

(** Altering a present entry is inserting it. *)
Lemma alter_insert_Some {A} (f : A → A) (p : Z) (a : A) (m : gmap Z A) :
  m !! p = Some a → alter f p m = <[p := f a]> m.
Proof.
  intros Hp. apply map_eq. intros q. destruct (decide (q = p)) as [->|].
  - by rewrite lookup_alter_eq, Hp, lookup_insert_eq.
  - by rewrite lookup_alter_ne, lookup_insert_ne.
Qed.
