(* ===== verification/Bitmap.v ===== *)
(** * lib/kernel/bitmap.c: packed bit arrays

    A bitmap is an array of 32-bit words ([elem_type] is [unsigned long] on
    the i386 target) that represents an array of bits.  The operations are
    modelled on the words, with the masks and word indexes of the source;
    [bit] is the abstract view as an array of booleans that the theorems are
    stated against. *)

From Stdlib Require Import Btauto.
From S2P Require Import Prelude.

Module Bitmap.

Definition ELEM_BITS : Z := 32.
Definition BITMAP_ERROR : Z := W32 - 1.

Record bitmap := mk_bitmap { bit_cnt : Z; bits : list Z }.

Definition elem_idx (bit_idx : Z) : Z := bit_idx / ELEM_BITS.
Definition bit_mask (bit_idx : Z) : Z := u32 (Z.shiftl 1 (bit_idx mod ELEM_BITS)).
Definition elem_cnt (bit_cnt : Z) : Z := u32 (bit_cnt + ELEM_BITS - 1) / ELEM_BITS.
Definition byte_cnt (bit_cnt : Z) : Z := u32 (4 * elem_cnt bit_cnt).

Definition last_mask (b : bitmap) : Z :=
  let last_bits := bit_cnt b mod ELEM_BITS in
  if last_bits =? 0 then W32 - 1 else u32 (u32 (Z.shiftl 1 last_bits) - 1).

Definition bitmap_buf_size (bit_cnt : Z) : Z := u32 (8 + byte_cnt bit_cnt).
Definition bitmap_size (b : bitmap) : Z := bit_cnt b.

(** Rewrites word [idx] in place; a word outside the array faults. *)
Definition update_word (b : bitmap) (idx : Z) (f : Z → Z) : res bitmap :=
  w ← deref (bits b !! Z.to_nat idx);
  Ok (mk_bitmap (bit_cnt b) (<[Z.to_nat idx := f w]> (bits b))).

Definition bitmap_mark (b : bitmap) (bit_idx : Z) : res bitmap :=
  update_word b (elem_idx bit_idx) (λ w, Z.lor w (bit_mask bit_idx)).

Definition bitmap_reset (b : bitmap) (bit_idx : Z) : res bitmap :=
  update_word b (elem_idx bit_idx) (λ w, Z.land w (u32 (Z.lnot (bit_mask bit_idx)))).

Definition bitmap_flip (b : bitmap) (bit_idx : Z) : res bitmap :=
  update_word b (elem_idx bit_idx) (λ w, Z.lxor w (bit_mask bit_idx)).

Definition bitmap_set (b : bitmap) (idx : Z) (value : bool) : res bitmap :=
  assert (idx <? bit_cnt b);;
  if value then bitmap_mark b idx else bitmap_reset b idx.

Definition bitmap_test (b : bitmap) (idx : Z) : res bool :=
  assert (idx <? bit_cnt b);;
  w ← deref (bits b !! Z.to_nat (elem_idx idx));
  Ok (negb (Z.land w (bit_mask idx) =? 0)).

(** [for (i = 0; i < cnt; i++) bitmap_set (b, start + i, value)]: [n]
    iterations are left and [i] is the loop counter. *)
Fixpoint set_multiple_loop (n : nat) (b : bitmap) (start i : Z) (value : bool) : res bitmap :=
  match n with
  | O => Ok b
  | S n =>
      b' ← bitmap_set b (u32 (start + i)) value;
      set_multiple_loop n b' start (i + 1) value
  end.

Definition bitmap_set_multiple (b : bitmap) (start cnt : Z) (value : bool) : res bitmap :=
  assert (start <=? bit_cnt b);;
  assert (u32 (start + cnt) <=? bit_cnt b);;
  set_multiple_loop (Z.to_nat cnt) b start 0 value.

Definition bitmap_set_all (b : bitmap) (value : bool) : res bitmap :=
  bitmap_set_multiple b 0 (bitmap_size b) value.

(** [b_ok] says whether the allocation of the struct succeeds and [storage] is
    the (uninitialised) array the second allocation returns. *)
Definition bitmap_create (b_ok : bool) (storage : option (list Z)) (bit_cnt : Z)
    : res (option bitmap) :=
  if b_ok then
    if (match storage with Some _ => true | None => false end) || (bit_cnt =? 0) then
      b ← bitmap_set_all (mk_bitmap bit_cnt (default [] storage)) false;
      Ok (Some b)
    else Ok None
  else Ok None.

Definition bitmap_create_in_buf (bit_cnt : Z) (block : list Z) (block_size : Z) : res bitmap :=
  assert (bitmap_buf_size bit_cnt <=? block_size);;
  bitmap_set_all (mk_bitmap bit_cnt block) false.

Fixpoint count_loop (n : nat) (b : bitmap) (start i : Z) (value : bool) (value_cnt : Z) : res Z :=
  match n with
  | O => Ok value_cnt
  | S n =>
      t ← bitmap_test b (u32 (start + i));
      count_loop n b start (i + 1) value
        (if Bool.eqb t value then u32 (value_cnt + 1) else value_cnt)
  end.

Definition bitmap_count (b : bitmap) (start cnt : Z) (value : bool) : res Z :=
  assert (start <=? bit_cnt b);;
  assert (u32 (start + cnt) <=? bit_cnt b);;
  count_loop (Z.to_nat cnt) b start 0 value 0.

Fixpoint contains_loop (n : nat) (b : bitmap) (start i : Z) (value : bool) : res bool :=
  match n with
  | O => Ok false
  | S n =>
      t ← bitmap_test b (u32 (start + i));
      if Bool.eqb t value then Ok true else contains_loop n b start (i + 1) value
  end.

Definition bitmap_contains (b : bitmap) (start cnt : Z) (value : bool) : res bool :=
  assert (start <=? bit_cnt b);;
  assert (u32 (start + cnt) <=? bit_cnt b);;
  contains_loop (Z.to_nat cnt) b start 0 value.

Definition bitmap_any (b : bitmap) (start cnt : Z) : res bool :=
  bitmap_contains b start cnt true.
Definition bitmap_none (b : bitmap) (start cnt : Z) : res bool :=
  r ← bitmap_contains b start cnt true; Ok (negb r).
Definition bitmap_all (b : bitmap) (start cnt : Z) : res bool :=
  r ← bitmap_contains b start cnt false; Ok (negb r).

(** [for (i = start; i <= last; i++)]: [n] values of [i] are left to try. *)
Fixpoint scan_loop (n : nat) (b : bitmap) (i cnt : Z) (value : bool) : res Z :=
  match n with
  | O => Ok BITMAP_ERROR
  | S n =>
      c ← bitmap_contains b i cnt (negb value);
      if (c : bool) then scan_loop n b (i + 1) cnt value else Ok i
  end.

Definition bitmap_scan (b : bitmap) (start cnt : Z) (value : bool) : res Z :=
  assert (start <=? bit_cnt b);;
  if cnt <=? bit_cnt b then
    let last := bit_cnt b - cnt in
    scan_loop (Z.to_nat (last - start + 1)) b start cnt value
  else Ok BITMAP_ERROR.

Definition bitmap_scan_and_flip (b : bitmap) (start cnt : Z) (value : bool) : res (Z * bitmap) :=
  idx ← bitmap_scan b start cnt value;
  if idx =? BITMAP_ERROR then Ok (idx, b)
  else b' ← bitmap_set_multiple b idx cnt (negb value); Ok (idx, b').

(** The array of words as the bytes [file_write_at] sees, and back. *)
Definition bits_bytes (ws : list Z) : list Z := concat (le_bytes 4 <$> ws).
Fixpoint bytes_words (n : nat) (l : list Z) : list Z :=
  match n with
  | O => []
  | S n => le_Z (take 4 l) :: bytes_words n (drop 4 l)
  end.

Definition bitmap_file_size (b : bitmap) : Z := byte_cnt (bit_cnt b).

(** [file_read_at] returns the number of bytes it stored and those bytes,
    which overwrite the front of [b->bits]. *)
Definition bitmap_read {S} (file_read_at : Z → Z → stM S (Z * list Z)) (b : bitmap)
    : stM S (bool * bitmap) :=
  if 0 <? bit_cnt b then
    let size := i32 (byte_cnt (bit_cnt b)) in
    '(n, data) ← file_read_at size 0;
    let ws := bytes_words (length (bits b)) (splice 0 data (bits_bytes (bits b))) in
    b' ← slift (update_word (mk_bitmap (bit_cnt b) ws) (elem_cnt (bit_cnt b) - 1)
                  (λ w, Z.land w (last_mask b)));
    mret (n =? size, b')
  else mret (true, b).

Definition bitmap_write {S} (file_write_at : list Z → Z → Z → stM S Z) (b : bitmap)
    : stM S bool :=
  let size := i32 (byte_cnt (bit_cnt b)) in
  n ← file_write_at (bits_bytes (bits b)) size 0;
  mret (n =? size).

(** ** The abstract view *)

(** Bit [i] of the bitmap. *)
Definition bit (b : bitmap) (i : Z) : bool :=
  Z.testbit (default 0 (bits b !! Z.to_nat (i / ELEM_BITS))) (i mod ELEM_BITS).

(** The representation invariant: as many words as the bits need, each a
    32-bit value. *)
Definition wf (b : bitmap) : Prop :=
  0 ≤ bit_cnt b ≤ W32 - 32 ∧
  length (bits b) = Z.to_nat (elem_cnt (bit_cnt b)) ∧
  Forall in_u32 (bits b).

(** The [cnt] bits from [i] on all have value [v]. *)
Definition run (b : bitmap) (i cnt : Z) (v : bool) : Prop :=
  ∀ j, i ≤ j < i + cnt → bit b j = v.

Lemma elem_cnt_eq n : 0 ≤ n ≤ W32 - 32 → elem_cnt n = (n + 31) / 32.
Proof. intros. unfold elem_cnt, ELEM_BITS, u32. dlia. Qed.

Lemma wf_word b i : wf b → 0 ≤ i < bit_cnt b →
  ∃ w, bits b !! Z.to_nat (i / 32) = Some w ∧ in_u32 w.
Proof.
  intros (Hb & Hl & Hf) Hi. destruct (lookup_lt_is_Some_2 (bits b) (Z.to_nat (i / 32))) as [w Hw].
  { rewrite Hl, elem_cnt_eq by lia. dlia. }
  exists w. split; [done|]. eapply Forall_lookup_1; eauto.
Qed.

Lemma bit_mask_eq i : 0 ≤ i → bit_mask i = 2 ^ (i mod 32).
Proof.
  intros. unfold bit_mask, ELEM_BITS. rewrite Z.shiftl_1_l. apply u32_small.
  pose proof (Z.mod_pos_bound i 32). split; [lia|].
  change W32 with (2 ^ 32). apply Z.pow_lt_mono_r; lia.
Qed.

(** The bits of a bitmap in which bit [i] has changed from [x] to [v x]. *)
Definition upd_bit (b b' : bitmap) (i : Z) (v : bool → bool) : Prop :=
  wf b' ∧ bit_cnt b' = bit_cnt b ∧
  ∀ j, 0 ≤ j → bit b' j = if decide (j = i) then v (bit b i) else bit b j.

(** What one word update does to every bit, from what it does to the bits of
    the word. *)
Lemma update_word_spec b i f v :
  wf b → 0 ≤ i < bit_cnt b →
  (∀ w, in_u32 w → in_u32 (f w)) →
  (∀ w k, in_u32 w → 0 ≤ k < 32 →
     Z.testbit (f w) k = if decide (k = i mod 32) then v (Z.testbit w k) else Z.testbit w k) →
  ∃ b', update_word b (elem_idx i) f = Ok b' ∧ upd_bit b b' i v.
Proof.
  intros Hwf Hi Hr Hf. destruct (wf_word b i Hwf Hi) as (w & Hw & Hww).
  destruct Hwf as (Hb & Hl & Hall).
  unfold update_word, elem_idx, ELEM_BITS. rewrite Hw. simpl.
  eexists. split; [reflexivity|]. split_and!; simpl; [|done|].
  { split_and!; simpl; [lia|lia|by rewrite length_insert|].
    apply Forall_insert; auto. }
  intros j Hj. unfold bit, ELEM_BITS. simpl.
  pose proof (Z.mod_pos_bound j 32).
  destruct (decide (j / 32 = i / 32)) as [Heq|Hne].
  - rewrite Heq, list_lookup_insert_eq, Hw by (by eapply lookup_lt_Some). simpl.
    rewrite Hf by (done || lia). repeat case_decide; subst; try done; exfalso; dlia.
  - rewrite list_lookup_insert_ne by dlia.
    rewrite decide_False by (intros ->; lia). done.
Qed.

Lemma in_u32_bits z : 0 ≤ z → (∀ k, 32 ≤ k → Z.testbit z k = false) → in_u32 z.
Proof.
  intros Hz Hk. split; [done|]. destruct (decide (z = 0)) as [->|]; [lia|].
  change W32 with (2 ^ 32). apply Z.log2_lt_pow2; [lia|].
  destruct (Z.lt_ge_cases (Z.log2 z) 32); [done|].
  specialize (Hk _ H). rewrite Z.bit_log2 in Hk by lia. done.
Qed.

Lemma bits_in_u32 z k : in_u32 z → 32 ≤ k → Z.testbit z k = false.
Proof.
  intros [? Hz] Hk. apply Z.bits_above_log2; [done|].
  destruct (decide (z = 0)) as [->|]; [simpl; lia|].
  change W32 with (2 ^ 32) in Hz. apply Z.log2_lt_pow2 in Hz; lia.
Qed.

Lemma bitop_u32 (op : Z → Z → Z) (bop : bool → bool → bool) w m :
  (∀ a b k, Z.testbit (op a b) k = bop (Z.testbit a k) (Z.testbit b k)) →
  (∀ a b, 0 ≤ a → 0 ≤ b → 0 ≤ op a b) → bop false false = false →
  in_u32 w → in_u32 m → in_u32 (op w m).
Proof.
  intros Hop Hn H0 Hw Hm. apply in_u32_bits; [apply Hn; [apply Hw|apply Hm]|].
  intros k Hk. by rewrite Hop, !bits_in_u32.
Qed.

Lemma in_u32_mask i : 0 ≤ i → in_u32 (bit_mask i).
Proof. intros. unfold bit_mask. apply u32_range. Qed.

Lemma bit_mask_testbit i k :
  0 ≤ i → 0 ≤ k → Z.testbit (bit_mask i) k = bool_decide (k = i mod 32).
Proof.
  intros. rewrite bit_mask_eq by done. pose proof (Z.mod_pos_bound i 32).
  rewrite Z.pow2_bits_eqb by lia. case_bool_decide; [subst; apply Z.eqb_refl|].
  apply Z.eqb_neq. lia.
Qed.

Lemma u32_lnot_testbit m k :
  in_u32 m → 0 ≤ k < 32 → Z.testbit (u32 (Z.lnot m)) k = negb (Z.testbit m k).
Proof.
  intros Hm Hk. unfold u32. change W32 with (2 ^ 32).
  rewrite Z.mod_pow2_bits_low by lia. apply Z.lnot_spec. lia.
Qed.

Lemma bitmap_mark_spec b i :
  wf b → 0 ≤ i < bit_cnt b → ∃ b', bitmap_mark b i = Ok b' ∧ upd_bit b b' i (λ _, true).
Proof.
  intros Hwf Hi. apply update_word_spec; [done..| |].
  - intros w Hw. apply (bitop_u32 Z.lor orb); try done.
    + apply Z.lor_spec.
    + intros. by apply Z.lor_nonneg.
    + apply in_u32_mask; lia.
  - intros w k Hw Hk. rewrite Z.lor_spec, bit_mask_testbit by lia.
    case_bool_decide; case_decide; try done; btauto.
Qed.

Lemma bitmap_reset_spec b i :
  wf b → 0 ≤ i < bit_cnt b → ∃ b', bitmap_reset b i = Ok b' ∧ upd_bit b b' i (λ _, false).
Proof.
  intros Hwf Hi. apply update_word_spec; [done..| |].
  - intros w Hw. apply (bitop_u32 Z.land andb); try done.
    + apply Z.land_spec.
    + intros. apply Z.land_nonneg. by left.
    + apply u32_range.
  - intros w k Hw Hk. rewrite Z.land_spec, u32_lnot_testbit, bit_mask_testbit
      by (try apply in_u32_mask; lia).
    case_bool_decide; case_decide; try done; btauto.
Qed.

Lemma bitmap_flip_spec b i :
  wf b → 0 ≤ i < bit_cnt b → ∃ b', bitmap_flip b i = Ok b' ∧ upd_bit b b' i negb.
Proof.
  intros Hwf Hi. apply update_word_spec; [done..| |].
  - intros w Hw. apply (bitop_u32 Z.lxor xorb); try done.
    + apply Z.lxor_spec.
    + intros. by apply Z.lxor_nonneg.
    + apply in_u32_mask; lia.
  - intros w k Hw Hk. rewrite Z.lxor_spec, bit_mask_testbit by lia.
    case_bool_decide; case_decide; try done; btauto.
Qed.

Lemma bitmap_set_spec b i v :
  wf b → 0 ≤ i < bit_cnt b → ∃ b', bitmap_set b i v = Ok b' ∧ upd_bit b b' i (λ _, v).
Proof.
  intros. unfold bitmap_set. rewrite assert_true by (apply Z.ltb_lt; lia).
  destruct v; [by apply bitmap_mark_spec|by apply bitmap_reset_spec].
Qed.

Lemma land_pow2_eqb w k : 0 ≤ k → negb (Z.land w (2 ^ k) =? 0) = Z.testbit w k.
Proof.
  intros. destruct (Z.testbit w k) eqn:E; [apply negb_true_iff|apply negb_false_iff].
  - apply Z.eqb_neq. intros H0. apply (f_equal (λ z, Z.testbit z k)) in H0.
    rewrite Z.land_spec, E, Z.pow2_bits_true, Z.bits_0 in H0 by done. done.
  - apply Z.eqb_eq, Z.bits_inj'. intros n Hn. rewrite Z.land_spec, Z.bits_0.
    destruct (decide (n = k)) as [->|]; [by rewrite E|].
    rewrite Z.pow2_bits_false by lia. btauto.
Qed.

Lemma bitmap_test_spec b i : wf b → 0 ≤ i < bit_cnt b → bitmap_test b i = Ok (bit b i).
Proof.
  intros Hwf Hi. unfold bitmap_test. rewrite assert_true by (apply Z.ltb_lt; lia). simpl.
  destruct (wf_word b i Hwf Hi) as (w & Hw & _). unfold elem_idx, bit, ELEM_BITS.
  rewrite Hw. simpl. rewrite bit_mask_eq by lia.
  pose proof (Z.mod_pos_bound i 32). by rewrite land_pow2_eqb by lia.
Qed.

(** ** Ranges of bits *)

(** The bits of [b'] are those of [b], but [cnt] bits from [start] on are [v]. *)
Definition set_range (b b' : bitmap) (start cnt : Z) (v : bool) : Prop :=
  wf b' ∧ bit_cnt b' = bit_cnt b ∧
  ∀ j, 0 ≤ j → bit b' j = if decide (start ≤ j < start + cnt) then v else bit b j.

Lemma set_multiple_loop_spec n b start i v :
  wf b → 0 ≤ start → 0 ≤ i → start + i + Z.of_nat n ≤ bit_cnt b →
  ∃ b', set_multiple_loop n b start i v = Ok b' ∧ set_range b b' (start + i) (Z.of_nat n) v.
Proof.
  revert b i. induction n as [|n IH]; intros b i Hwf Hs Hi Hn; cbn [set_multiple_loop].
  { exists b. split; [done|]. split; [done|]. split; [done|].
    intros j _. rewrite decide_False by lia. done. }
  destruct Hwf as (Hb & Hwf'). rewrite u32_small by (unfold in_u32; lia).
  destruct (bitmap_set_spec b (start + i) v) as (b1 & -> & Hwf1 & Hc1 & Hb1);
    [done|lia|]. simpl.
  destruct (IH b1 (i + 1)) as (b2 & -> & Hwf2 & Hc2 & Hb2); [done|lia..|].
  exists b2. split; [done|]. split; [done|]. split; [congruence|].
  intros j Hj. rewrite Hb2, Hb1 by done.
  repeat case_decide; try done; lia.
Qed.

Lemma bitmap_set_multiple_spec b start cnt v :
  wf b → 0 ≤ start → 0 ≤ cnt → start + cnt ≤ bit_cnt b →
  ∃ b', bitmap_set_multiple b start cnt v = Ok b' ∧ set_range b b' start cnt v.
Proof.
  intros Hwf Hs Hc Hsc. pose proof Hwf as (Hb & _). unfold bitmap_set_multiple.
  rewrite u32_small, !assert_true by (unfold in_u32; lia || apply Z.leb_le; lia). simpl.
  destruct (set_multiple_loop_spec (Z.to_nat cnt) b start 0 v) as (b' & -> & Hr); [done|lia..|].
  exists b'. split; [done|]. by rewrite Z.add_0_r, Z2Nat.id in Hr.
Qed.

Lemma contains_loop_spec n b start i v :
  wf b → 0 ≤ start → 0 ≤ i → start + i + Z.of_nat n ≤ bit_cnt b →
  ∃ r, contains_loop n b start i v = Ok r ∧
    (r = false ↔ run b (start + i) (Z.of_nat n) (negb v)).
Proof.
  revert i. induction n as [|n IH]; intros i Hwf Hs Hi Hn; cbn [contains_loop].
  { exists false. split_and!; [done..|]. unfold run. split; [intros; lia|done]. }
  pose proof Hwf as (Hb & _). rewrite u32_small by (unfold in_u32; lia).
  rewrite bitmap_test_spec by (done || lia). simpl.
  destruct (Bool.eqb (bit b (start + i)) v) eqn:E.
  - apply eqb_prop in E. exists true. split; [done|]. split; [done|]. intros Hr.
    rewrite (Hr (start + i)) in E by lia. by destruct v.
  - apply eqb_false_iff in E.
    destruct (IH (i + 1)) as (r & -> & Hr); [done|lia..|]. exists r. split; [done|].
    rewrite Hr. unfold run. split; intros H j Hj; [|apply H; lia].
    destruct (decide (j = start + i)) as [->|]; [|apply H; lia].
    destruct (bit b (start + i)), v; done.
Qed.

Lemma bitmap_contains_spec b start cnt v :
  wf b → 0 ≤ start → 0 ≤ cnt → start + cnt ≤ bit_cnt b →
  ∃ r, bitmap_contains b start cnt v = Ok r ∧ (r = false ↔ run b start cnt (negb v)).
Proof.
  intros Hwf Hs Hc Hsc. pose proof Hwf as (Hb & _). unfold bitmap_contains.
  rewrite u32_small, !assert_true by (unfold in_u32; lia || apply Z.leb_le; lia). simpl.
  destruct (contains_loop_spec (Z.to_nat cnt) b start 0 v) as (r & -> & Hr); [done|lia..|].
  exists r. split; [done|]. by rewrite Z.add_0_r, Z2Nat.id in Hr.
Qed.

Lemma bitmap_all_spec b start cnt :
  wf b → 0 ≤ start → 0 ≤ cnt → start + cnt ≤ bit_cnt b →
  ∃ r, bitmap_all b start cnt = Ok r ∧ (r = true ↔ run b start cnt true).
Proof.
  intros. unfold bitmap_all.
  destruct (bitmap_contains_spec b start cnt false) as (r & -> & Hr); [done..|].
  exists (negb r). split; [done|]. simpl in Hr. rewrite <- Hr. by destruct r.
Qed.

(** The result of a scan: the first group at or after [start], or none. *)
Definition scan_result (b : bitmap) (start cnt : Z) (v : bool) (r : Z) : Prop :=
  (r = BITMAP_ERROR ∧ ∀ i, start ≤ i → i + cnt ≤ bit_cnt b → ¬ run b i cnt v) ∨
  (start ≤ r ∧ r + cnt ≤ bit_cnt b ∧ run b r cnt v ∧ ∀ i, start ≤ i < r → ¬ run b i cnt v).

Lemma scan_loop_spec n b i cnt v :
  wf b → 0 ≤ i → 0 ≤ cnt → Z.of_nat n = 0 ∨ i + Z.of_nat n - 1 + cnt = bit_cnt b →
  i + Z.of_nat n + cnt > bit_cnt b →
  ∃ r, scan_loop n b i cnt v = Ok r ∧ scan_result b i cnt v r.
Proof.
  revert i. induction n as [|n IH]; intros i Hwf Hi Hc Hn Hlast; cbn [scan_loop].
  { exists BITMAP_ERROR. split; [done|]. left. split; [done|]. intros; lia. }
  destruct (bitmap_contains_spec b i cnt (negb v)) as (c & -> & Hcr); [done|lia..|].
  rewrite negb_involutive in Hcr. simpl. destruct c.
  - assert (¬ run b i cnt v) as Hni by (intros ?%Hcr; done).
    destruct (IH (i + 1)) as (r & -> & Hr); [done|lia..|]. exists r. split; [done|].
    destruct Hr as [[-> Hno]|(? & ? & ? & Hno)]; [left|right]; split_and!; try done; try lia.
    + intros j Hj ?. destruct (decide (j = i)) as [->|]; [done|]. apply Hno; lia.
    + intros j Hj. destruct (decide (j = i)) as [->|]; [done|]. apply Hno; lia.
  - exists i. split; [done|]. right. split_and!; [lia|lia|by apply Hcr|]. intros; lia.
Qed.

(** [bitmap_scan] finds the first group of [cnt] equal bits. *)
Lemma bitmap_scan_spec b start cnt v :
  wf b → 0 ≤ start ≤ bit_cnt b → 0 ≤ cnt →
  ∃ r, bitmap_scan b start cnt v = Ok r ∧ scan_result b start cnt v r.
Proof.
  intros Hwf Hs Hc. unfold bitmap_scan.
  rewrite assert_true by (apply Z.leb_le; lia). simpl.
  destruct (cnt <=? bit_cnt b) eqn:E; bool_props.
  - apply scan_loop_spec; [done|lia..].
  - exists BITMAP_ERROR. split; [done|]. left. split; [done|]. intros; lia.
Qed.

Lemma bitmap_scan_and_flip_spec b start cnt v :
  wf b → 0 ≤ start ≤ bit_cnt b → 0 ≤ cnt →
  ∃ r b', bitmap_scan_and_flip b start cnt v = Ok (r, b') ∧ scan_result b start cnt v r ∧
    (r = BITMAP_ERROR ∧ b' = b ∨
     r < BITMAP_ERROR ∧ start ≤ r ∧ r + cnt ≤ bit_cnt b ∧ run b r cnt v ∧
     set_range b b' r cnt (negb v)).
Proof.
  intros Hwf Hs Hc. unfold bitmap_scan_and_flip. pose proof Hwf as (Hb & _).
  destruct (bitmap_scan_spec b start cnt v) as (r & -> & Hr); [done..|]. simpl.
  destruct (Z.eqb_spec r BITMAP_ERROR) as [->|Hne]; [by eauto 10|].
  pose proof Hr as [[]|(? & ? & ? & _)]; [done|].
  destruct (bitmap_set_multiple_spec b r cnt (negb v)) as (b' & -> & Hset); [done|lia..|].
  exists r, b'. split; [done|]. split; [done|]. right. unfold BITMAP_ERROR in *.
  split_and!; done || lia.
Qed.

(** A freshly created bitmap is well formed and all its bits are false,
    whatever the storage held. *)
Lemma bitmap_set_all_spec b v :
  wf b → ∃ b', bitmap_set_all b v = Ok b' ∧ set_range b b' 0 (bit_cnt b) v.
Proof.
  intros Hwf. pose proof Hwf as (? & _). apply bitmap_set_multiple_spec; [done|lia..].
Qed.

Lemma bitmap_create_spec storage n :
  0 ≤ n ≤ W32 - 32 → length storage = Z.to_nat (elem_cnt n) → Forall in_u32 storage →
  ∃ b, bitmap_create true (Some storage) n = Ok (Some b) ∧ wf b ∧ bit_cnt b = n ∧
    ∀ j, 0 ≤ j < n → bit b j = false.
Proof.
  intros Hn Hl Hf. unfold bitmap_create. simpl.
  destruct (bitmap_set_all_spec (mk_bitmap n storage) false) as (b & -> & Hw & Hc & Hb); [done|].
  exists b. split_and!; [done..|]. intros j Hj. rewrite Hb by lia.
  simpl in *. rewrite decide_True by lia. done.
Qed.

(** ** Storing a bitmap as bytes *)

Lemma length_bits_bytes ws : length (bits_bytes ws) = (4 * length ws)%nat.
Proof.
  unfold bits_bytes. induction ws as [|w ws IH]; [done|].
  rewrite fmap_cons. cbn [concat]. rewrite length_app, IH, length_le_bytes. simpl. lia.
Qed.

Lemma bits_bytes_u8 ws : Forall in_u8 (bits_bytes ws).
Proof.
  unfold bits_bytes. induction ws as [|w ws IH]; [constructor|].
  rewrite fmap_cons. cbn [concat]. apply Forall_app. split; [apply le_bytes_u8|done].
Qed.

Lemma bytes_words_bits ws :
  Forall in_u32 ws → bytes_words (length ws) (bits_bytes ws) = ws.
Proof.
  induction 1 as [|w ws Hw _ IH]; [done|]. cbn [length bytes_words].
  unfold bits_bytes in *. rewrite fmap_cons. cbn [concat].
  rewrite take_app_length', drop_app_length' by (by rewrite length_le_bytes).
  rewrite IH, le_Z_bytes. f_equal. by apply u32_small.
Qed.

Lemma wf_byte_cnt b : wf b → Z.of_nat (length (bits_bytes (bits b))) = byte_cnt (bit_cnt b).
Proof.
  intros (Hb & Hl & _). rewrite length_bits_bytes, Hl. unfold byte_cnt.
  rewrite elem_cnt_eq by done. rewrite u32_small by (unfold in_u32; dlia). dlia.
Qed.

Lemma last_mask_testbit b k :
  0 ≤ bit_cnt b → 0 ≤ k < 32 →
  Z.testbit (last_mask b) k = bool_decide (bit_cnt b mod 32 = 0 ∨ k < bit_cnt b mod 32).
Proof.
  intros Hb Hk. unfold last_mask, ELEM_BITS.
  pose proof (Z.mod_pos_bound (bit_cnt b) 32 ltac:(lia)).
  destruct (Z.eqb_spec (bit_cnt b mod 32) 0) as [E|E].
  - change (W32 - 1) with (Z.ones 32). rewrite Z.ones_spec_low by lia.
    rewrite bool_decide_eq_true_2 by auto. done.
  - rewrite Z.shiftl_1_l. set (n := bit_cnt b mod 32) in *.
    assert (0 < 2 ^ n < W32) by (split; [lia|change W32 with (2 ^ 32); apply Z.pow_lt_mono_r; lia]).
    rewrite !u32_small by (unfold in_u32; rewrite ?u32_small by (unfold in_u32; lia); lia).
    replace (2 ^ n - 1) with (Z.ones n) by (rewrite Z.ones_equiv; lia).
    rewrite Z.testbit_ones_nonneg by lia.
    destruct (Z.ltb_spec k n); case_bool_decide; try done; lia.
Qed.

Lemma last_mask_u32 b : 0 ≤ bit_cnt b → in_u32 (last_mask b).
Proof. intros. unfold last_mask. case_match; [done|apply u32_range]. Qed.

(** Masking the last word, as [bitmap_read] does, keeps every bit of the map. *)
Lemma mask_last_word b :
  wf b → 0 < bit_cnt b →
  ∃ b', update_word b (elem_cnt (bit_cnt b) - 1) (λ w, Z.land w (last_mask b)) = Ok b' ∧
    wf b' ∧ bit_cnt b' = bit_cnt b ∧ ∀ j, 0 ≤ j < bit_cnt b → bit b' j = bit b j.
Proof.
  intros Hwf H0. pose proof Hwf as (Hb & Hl & Hall).
  set (last := bit_cnt b - 1).
  assert (elem_cnt (bit_cnt b) - 1 = last / 32) as Hlast by (rewrite elem_cnt_eq by lia; subst last; dlia).
  destruct (wf_word b last Hwf ltac:(lia)) as (w & Hw & Hww).
  unfold update_word. rewrite Hlast, Hw. simpl. eexists. split; [reflexivity|]. split_and!.
  - split_and!; simpl; [lia|lia|by rewrite length_insert|]. apply Forall_insert; [done|].
    apply (bitop_u32 Z.land andb); [apply Z.land_spec| |done|done|apply last_mask_u32; lia].
    intros. apply Z.land_nonneg. by left.
  - done.
  - intros j Hj. unfold bit, ELEM_BITS. simpl. pose proof (Z.mod_pos_bound j 32 ltac:(lia)).
    destruct (decide (j / 32 = last / 32)) as [Heq|Hne].
    + rewrite Heq, list_lookup_insert_eq, Hw by (by eapply lookup_lt_Some). simpl.
      rewrite Z.land_spec, last_mask_testbit by lia.
      rewrite bool_decide_eq_true_2; [btauto|]. subst last. dlia.
    + rewrite list_lookup_insert_ne by (subst last; dlia). done.
Qed.

(** ** Properties *)

(** [bitmap_scan_and_flip] is a first-fit allocator.  On a well-formed
    bitmap it always returns; when it returns an index, the group it returns
    is the first group of [cnt] bits equal to [v] at or after [start], exactly
    these bits are flipped and every other bit is kept; it returns
    [BITMAP_ERROR], leaving the map alone, only if there is no such group. *)
Lemma bitmap_scan_and_flip_first_fit b start cnt v :
  wf b → 0 ≤ start ≤ bit_cnt b → 0 ≤ cnt →
  ∃ r b', bitmap_scan_and_flip b start cnt v = Ok (r, b') ∧
    (r = BITMAP_ERROR ∧ b' = b ∧
       (∀ i, start ≤ i → i + cnt ≤ bit_cnt b → ¬ run b i cnt v) ∨
     r < BITMAP_ERROR ∧ start ≤ r ∧ r + cnt ≤ bit_cnt b ∧ run b r cnt v ∧
       (∀ i, start ≤ i < r → ¬ run b i cnt v) ∧ set_range b b' r cnt (negb v)).
Proof.
  intros Hwf Hs Hc.
  destruct (bitmap_scan_and_flip_spec b start cnt v Hwf Hs Hc) as (r & b' & Heq & Hr & Hb).
  exists r, b'. split; [done|].
  destruct Hb as [[-> ->]|(? & ? & ? & ? & ?)], Hr as [[? ?]|(? & ? & ? & ?)];
    unfold BITMAP_ERROR in *; [left|pose proof Hwf as (? & _); lia|lia|right]; auto 10.
Qed.

Definition sample : bitmap := mk_bitmap 40 [7; 0].

Lemma sample_wf : wf sample.
Proof. split_and!; [done..|]. repeat apply Forall_cons_2; done. Qed.

(** Storing a bitmap in a file and loading it gives the same bits back.
    If [file_read_at] delivers the bytes [bitmap_write] hands to
    [file_write_at], then [bitmap_read] into any bitmap of the same size
    reports success and restores every bit, and the last word's unused bits
    are cleared without touching a used one. *)
Lemma bitmap_read_restores {S} (file_read_at : Z → Z → stM S (Z * list Z)) (s s' : S) b b0 :
  wf b → wf b0 → bit_cnt b0 = bit_cnt b → 0 < bit_cnt b → byte_cnt (bit_cnt b) < W31 →
  file_read_at (byte_cnt (bit_cnt b)) 0 s = Ok ((byte_cnt (bit_cnt b), bits_bytes (bits b)), s') →
  ∃ b1, bitmap_read file_read_at b0 s = Ok ((true, b1), s') ∧ wf b1 ∧ bit_cnt b1 = bit_cnt b ∧
    ∀ j, 0 ≤ j < bit_cnt b → bit b1 j = bit b j.
Proof.
  intros Hwf Hwf0 Hcnt H0 H31 Hread. pose proof Hwf as (Hb & Hl & Hall).
  pose proof Hwf0 as (_ & Hl0 & _). pose proof (wf_byte_cnt b Hwf) as Hbc.
  unfold bitmap_read. rewrite Hcnt. rewrite (proj2 (Z.ltb_lt _ _) H0).
  rewrite i32_small by (unfold in_i32; lia).
  rewrite stM_bind_eq, Hread, stM_bind_eq.
  assert (length (bits b0) = length (bits b)) as Hlen by congruence.
  rewrite splice_full by (rewrite !length_bits_bytes; lia).
  rewrite Hlen, bytes_words_bits by done.
  replace (last_mask b0) with (last_mask b) by (unfold last_mask; by rewrite Hcnt).
  destruct b as [n ws]. simpl in *.
  destruct (mask_last_word (mk_bitmap n ws) Hwf H0) as (b1 & Hup & ? & ? & ?).
  simpl in Hup. rewrite Hup. simpl. exists b1. split_and!; try done.
  unfold mret, stM_ret. by rewrite Z.eqb_refl.
Qed.

End Bitmap.
