(* ===== verification/Block.v ===== *)
(** * devices/block.c: block devices

    A block device is a struct of statistics and a pointer to the operations
    of a driver (the IDE driver, a partition).  The driver is hardware-facing
    code: it is the parameter [D] of the model, with the operations [op_read]
    and [op_write] of [struct block_operations] and the laws of a disk that
    the file system relies on: a sector read returns what was last written to
    it, and other sectors are not disturbed. *)

From S2P Require Import Prelude.

Definition BLOCK_SECTOR_SIZE : Z := 512.
Definition SECTOR_BYTES : nat := 512%nat.

(** [struct block_operations]: [aux] is the driver's state. *)
Class BlockOps (D : Type) := {
  op_read : D → Z → list Z;
  op_write : D → Z → list Z → D;
}.

(** What a driver promises to block.c's clients. *)
Class BlockLaws (D : Type) `{BlockOps D} := {
  op_read_length : ∀ d s, length (op_read d s) = SECTOR_BYTES;
  op_read_write : ∀ d s b, length b = SECTOR_BYTES → op_read (op_write d s b) s = b;
  op_read_write_ne : ∀ d s s' b, s ≠ s' → op_read (op_write d s b) s' = op_read d s';
}.

(** A RAM disk: a driver that satisfies the laws. *)
Definition ramdisk : Type := gmap Z (list Z).

#[export] Instance ramdisk_ops : BlockOps ramdisk := {|
  op_read d s := match (d : gmap Z (list Z)) !! s with
                 | Some b => if decide (length b = SECTOR_BYTES) then b
                             else replicate SECTOR_BYTES 0
                 | None => replicate SECTOR_BYTES 0 end;
  op_write d s b := <[s := b]> (d : gmap Z (list Z));
|}.

#[export] Instance ramdisk_laws : BlockLaws ramdisk.
Proof.
  split; unfold op_read, op_write; simpl.
  - intros d s. repeat case_match; try done; apply length_replicate.
  - intros d s b Hb. by rewrite lookup_insert_eq, decide_True.
  - intros d s s' b Hne. by rewrite lookup_insert_ne.
Qed.

Module Block.

Inductive block_type :=
| BLOCK_KERNEL | BLOCK_FILESYS | BLOCK_SCRATCH | BLOCK_SWAP
| BLOCK_RAW | BLOCK_FOREIGN.

#[export] Instance block_type_eq_dec : EqDecision block_type.
Proof. solve_decision. Defined.

(** The numbers of the enumeration; [BLOCK_ROLE_CNT] is 4. *)
Definition block_type_no (t : block_type) : Z :=
  match t with
  | BLOCK_KERNEL => 0 | BLOCK_FILESYS => 1 | BLOCK_SCRATCH => 2
  | BLOCK_SWAP => 3 | BLOCK_RAW => 4 | BLOCK_FOREIGN => 5
  end.
Definition BLOCK_ROLE_CNT : Z := 4.

Section block.
Context {D : Type} `{BlockOps D}.

Record block := mk_block {
  name : list Z;
  type : block_type;
  size : Z;
  aux : D;
  read_cnt : Z;
  write_cnt : Z;
}.

Definition check_sector (b : block) (sector : Z) : res unit :=
  if size b <=? sector then Err EPanic else Ok tt.

Definition block_read (b : block) (sector : Z) : res (list Z * block) :=
  check_sector b sector;;
  let buffer := op_read (aux b) sector in
  Ok (buffer,
      mk_block (name b) (type b) (size b) (aux b) (u64 (read_cnt b + 1)) (write_cnt b)).

Definition block_write (b : block) (sector : Z) (buffer : list Z) : res block :=
  check_sector b sector;;
  assert (negb (bool_decide (type b = BLOCK_FOREIGN)));;
  Ok (mk_block (name b) (type b) (size b) (op_write (aux b) sector buffer)
        (read_cnt b) (u64 (write_cnt b + 1))).

Definition block_size (b : block) : Z := size b.
Definition block_name (b : block) : list Z := name b.

(** ** The registry of devices: the list in probe order and the roles *)

Record registry := mk_registry {
  all_blocks : list block;
  block_by_role : gmap Z nat;
}.

Definition block_get_role (r : registry) (role : block_type) : res (option nat) :=
  assert (block_type_no role <? BLOCK_ROLE_CNT);;
  Ok (block_by_role r !! block_type_no role).

Definition block_set_role (r : registry) (role : block_type) (b : nat) : res registry :=
  assert (block_type_no role <? BLOCK_ROLE_CNT);;
  Ok (mk_registry (all_blocks r) (<[block_type_no role := b]> (block_by_role r))).

(** A device is named by its place in [all_blocks]; the list end is [None]. *)
Definition list_elem_to_block (r : registry) (i : nat) : option nat :=
  if decide (i = length (all_blocks r)) then None else Some i.

Definition block_first (r : registry) : option nat := list_elem_to_block r 0.
Definition block_next (r : registry) (b : nat) : option nat := list_elem_to_block r (S b).

Definition block_get_by_name (r : registry) (n : list Z) : option nat :=
  find_index (λ b, bool_decide (n = name b)) (all_blocks r).

(** [malloc_ok] is the outcome of the allocation; the name is cut to the 15
    characters that fit the array. *)
Definition block_register (malloc_ok : bool) (r : registry) (n : list Z) (t : block_type)
    (sz : Z) (driver : D) : res (nat * registry) :=
  if malloc_ok then
    let b := mk_block (take 15 n) t sz driver 0 0 in
    Ok (length (all_blocks r), mk_registry (all_blocks r ++ [b]) (block_by_role r))
  else Err EPanic.

(** Following [block_next] from [block_first] visits every device in
    registration order. *)
Fixpoint probe (fuel : nat) (r : registry) (b : option nat) : list nat :=
  match fuel, b with
  | S fuel, Some i => i :: probe fuel r (block_next r i)
  | _, _ => []
  end.

Lemma probe_all r k :
  (k ≤ length (all_blocks r))%nat →
  probe k r (list_elem_to_block r (length (all_blocks r) - k)) =
  seq (length (all_blocks r) - k) k.
Proof.
  induction k as [|k IH]; intros Hk; [done|simpl].
  unfold list_elem_to_block at 1. rewrite decide_False by lia.
  f_equal. unfold block_next.
  replace (S (length (all_blocks r) - S k)) with (length (all_blocks r) - k)%nat by lia.
  apply IH. lia.
Qed.

Lemma probe_order r :
  probe (length (all_blocks r)) r (block_first r) = seq 0 (length (all_blocks r)).
Proof.
  pose proof (probe_all r (length (all_blocks r)) ltac:(lia)) as Hp.
  by rewrite Nat.sub_diag in Hp.
Qed.

Lemma block_read_ok b s :
  0 ≤ s < size b →
  block_read b s = Ok (op_read (aux b) s,
    mk_block (name b) (type b) (size b) (aux b) (u64 (read_cnt b + 1)) (write_cnt b)).
Proof.
  intros. unfold block_read, check_sector.
  destruct (Z.leb_spec (size b) s); [lia|]. done.
Qed.

Lemma block_write_ok b s buf :
  0 ≤ s < size b → type b ≠ BLOCK_FOREIGN →
  block_write b s buf = Ok (mk_block (name b) (type b) (size b) (op_write (aux b) s buf)
        (read_cnt b) (u64 (write_cnt b + 1))).
Proof.
  intros. unfold block_write, check_sector.
  destruct (Z.leb_spec (size b) s); [lia|]. simpl.
  by rewrite bool_decide_eq_false_2.
Qed.

End block.
Arguments block D : clear implicits.
Arguments registry D : clear implicits.

End Block.
