(* ===== verification/Cache.v ===== *)
(** * filesys/cache.c: the write-back buffer cache

    [cache_list] is the list of [NUM_SECTORS] buffer blocks in the order of
    the C list (the list never changes after initialisation, so an entry is
    named by its position).  [buffer_cache_lock] is the flag [locked]: an
    operation acquires it on entry and releases it on exit, so operations are
    atomic with respect to each other and the model runs each as a whole.

    The abstract view of the cache is the disk its clients see ([view]); the
    theorems state that reads, writes, evictions and flushes implement that
    disk, whatever the replacement algorithm does underneath. *)

From S2P Require Import Prelude Block.
Import Block.

Module BufferCache.

Definition NUM_SECTORS : nat := 128%nat.

(** The sector number [(block_sector_t) -1] of an entry that holds nothing. *)
Definition NO_SECTOR : Z := W32 - 1.

Record buffer_block := mk_buffer_block {
  dirty : bool;
  used : bool;
  accessed : bool;
  sector : Z;
  buf : list Z;
}.

Definition set_dirty (v : bool) (e : buffer_block) : buffer_block :=
  mk_buffer_block v (used e) (accessed e) (sector e) (buf e).
Definition set_used (v : bool) (e : buffer_block) : buffer_block :=
  mk_buffer_block (dirty e) v (accessed e) (sector e) (buf e).
Definition set_accessed (v : bool) (e : buffer_block) : buffer_block :=
  mk_buffer_block (dirty e) (used e) v (sector e) (buf e).
Definition set_sector (v : Z) (e : buffer_block) : buffer_block :=
  mk_buffer_block (dirty e) (used e) (accessed e) v (buf e).
Definition set_buf (v : list Z) (e : buffer_block) : buffer_block :=
  mk_buffer_block (dirty e) (used e) (accessed e) (sector e) v.

Section cache.
Context {D : Type} `{BlockOps D}.

Record cache := mk_cache {
  fs_device : block D;
  cache_list : list buffer_block;
  locked : bool;
}.

Definition set_list (l : list buffer_block) (s : cache) : cache :=
  mk_cache (fs_device s) l (locked s).
Definition set_device (d : block D) (s : cache) : cache :=
  mk_cache d (cache_list s) (locked s).
Definition set_locked (v : bool) (s : cache) : cache :=
  mk_cache (fs_device s) (cache_list s) v.

(** [lock_acquire] and [lock_release] on [buffer_cache_lock], by the thread
    that runs the operation. *)
Definition lock_acquire : stM cache unit := λ s,
  if locked s then Err EAssert else Ok (tt, set_locked true s).
Definition lock_release : stM cache unit := λ s,
  if locked s then Ok (tt, set_locked false s) else Err EAssert.

Definition entry (i : nat) : stM cache buffer_block := λ s,
  match cache_list s !! i with Some e => Ok (e, s) | None => Err EFault end.
Definition set_entry (i : nat) (f : buffer_block → buffer_block) : stM cache unit :=
  smod (λ s, set_list (alter f i (cache_list s)) s).

(** [allocs] holds the results of the two [malloc] calls of each iteration
    (none left: out of memory); the contents of a fresh block are the garbage
    [init_buf]. *)
Fixpoint buffer_cache_init_loop (n : nat) (allocs : list (bool * bool * list Z))
    (l : list buffer_block) : res (list buffer_block) :=
  match n, allocs with
  | O, _ => Ok l
  | S n, [] => Err EPanic
  | S n, ((entry_malloc, vaddr_malloc), init_buf) :: allocs =>
      if entry_malloc then
        if vaddr_malloc then
          buffer_cache_init_loop n allocs
            (l ++ [mk_buffer_block false false false NO_SECTOR init_buf])
        else Err EPanic
      else Err EPanic
  end.

Definition buffer_cache_init (dev : block D) (allocs : list (bool * bool * list Z)) : res cache :=
  l ← buffer_cache_init_loop NUM_SECTORS allocs [];
  Ok (mk_cache dev l false).

Definition buffer_cache_find (sec : Z) : stM cache (option nat) :=
  sread (λ s, find_index (λ e, sector e =? sec) (cache_list s)).

(** [block_write (fs_device, entry->sector, entry->buf)]. *)
Definition dev_write (sec : Z) (b : list Z) : stM cache unit := λ s,
  match block_write (fs_device s) sec b with
  | Ok d => Ok (tt, set_device d s)
  | Err e => Err e
  end.

Definition dev_read (sec : Z) : stM cache (list Z) := λ s,
  match block_read (fs_device s) sec with
  | Ok (b, d) => Ok (b, set_device d s)
  | Err e => Err e
  end.

Definition buffer_cache_flush (i : nat) : stM cache unit :=
  e ← entry i;
  if dirty e then
    dev_write (sector e) (buf e);;
    set_entry i (set_dirty false)
  else mret tt.

(** The second-chance loop of [buffer_cache_evict], at position [i]. *)
Fixpoint evict_loop (fuel : nat) (i : nat) : stM cache nat :=
  match fuel with
  | O => serr EFuel
  | S fuel =>
      e ← entry i;
      if negb (used e) then
        (if dirty e then buffer_cache_flush i else mret tt);;
        set_entry i (set_sector NO_SECTOR);;
        mret i
      else
        set_entry i (set_used false);;
        n ← sread (λ s, length (cache_list s));
        evict_loop fuel (if decide (S i = n) then 0%nat else S i)
  end.

Definition buffer_cache_evict : stM cache nat := λ s,
  evict_loop (S (length (cache_list s))) 0 s.

Fixpoint close_loop (n i : nat) : stM cache unit :=
  match n with
  | O => mret tt
  | S n =>
      e ← entry i;
      (if sector e =? NO_SECTOR then mret tt else buffer_cache_flush i);;
      close_loop n (S i)
  end.

Definition buffer_cache_close : stM cache unit := λ s,
  close_loop (length (cache_list s)) 0 s.

(** [memcpy] out of and into the 512 bytes of [entry->buf]; a negative size is
    a huge [size_t]. *)
Definition memcpy_from (b : list Z) (ofs size : Z) : res (list Z) :=
  if (0 <=? ofs) && (0 <=? size) && (ofs + size <=? BLOCK_SECTOR_SIZE)
  then Ok (slice (Z.to_nat ofs) (Z.to_nat size) b) else Err EFault.

Definition memcpy_into (b : list Z) (ofs : Z) (src : list Z) (size : Z) : res (list Z) :=
  if (0 <=? ofs) && (0 <=? size) && (ofs + size <=? BLOCK_SECTOR_SIZE)
     && (size <=? Z.of_nat (length src))
  then Ok (splice (Z.to_nat ofs) (take (Z.to_nat size) src) b) else Err EFault.

Definition buffer_cache_read (sec sector_ofs chunk_size : Z) : stM cache (list Z) :=
  lock_acquire;;
  found ← buffer_cache_find sec;
  i ← (match found with
       | Some i => mret i
       | None =>
           i ← buffer_cache_evict;
           b ← dev_read sec;
           set_entry i (set_buf b);;
           set_entry i (set_sector sec);;
           set_entry i (set_dirty false);;
           mret i
       end);
  set_entry i (set_used true);;
  set_entry i (set_accessed true);;
  e ← entry i;
  target ← slift (memcpy_from (buf e) sector_ofs chunk_size);
  lock_release;;
  mret target.

Definition buffer_cache_write (sec : Z) (source : list Z) (sector_ofs chunk_size : Z)
    : stM cache unit :=
  lock_acquire;;
  found ← buffer_cache_find sec;
  i ← (match found with
       | Some i => mret i
       | None =>
           i ← buffer_cache_evict;
           e ← entry i;
           if negb (used e) || negb (sector e =? sec) then
             b ← dev_read sec;
             set_entry i (set_buf b);;
             set_entry i (set_sector sec);;
             set_entry i (set_dirty false);;
             mret i
           else mret i
       end);
  set_entry i (set_used true);;
  set_entry i (set_accessed true);;
  set_entry i (set_dirty true);;
  e ← entry i;
  b ← slift (memcpy_into (buf e) sector_ofs source chunk_size);
  set_entry i (set_buf b);;
  lock_release.

(** ** The disk the cache implements *)

Definition has_sector (sec : Z) (e : buffer_block) : bool := sector e =? sec.

(** The contents of sector [sec] as the clients of the cache see it: the
    cached copy if there is one, else what the device holds. *)
Definition view (s : cache) (sec : Z) : list Z :=
  match find_index (has_sector sec) (cache_list s) with
  | Some i => match cache_list s !! i with Some e => buf e | None => [] end
  | None => op_read (aux (fs_device s)) sec
  end.

Definition valid_sector (s : cache) (sec : Z) : Prop := 0 ≤ sec < size (fs_device s).

Definition entry_ok (d : block D) (e : buffer_block) : Prop :=
  length (buf e) = SECTOR_BYTES ∧
  (sector e = NO_SECTOR ∧ dirty e = false ∨
   0 ≤ sector e < size d ∧ (dirty e = false → buf e = op_read (aux d) (sector e))).

(** A sector is cached at most once. *)
Definition distinct (l : list buffer_block) : Prop :=
  ∀ i j e e', l !! i = Some e → l !! j = Some e' →
    sector e = sector e' → sector e ≠ NO_SECTOR → i = j.

Record cache_inv (s : cache) : Prop := {
  inv_size : size (fs_device s) ≤ NO_SECTOR;
  inv_type : type (fs_device s) ≠ BLOCK_FOREIGN;
  inv_nonempty : (0 < length (cache_list s))%nat;
  inv_entries : ∀ i e, cache_list s !! i = Some e → entry_ok (fs_device s) e;
  inv_distinct : distinct (cache_list s);
}.

Definition absent (s : cache) (sec : Z) : Prop :=
  ∀ i e, cache_list s !! i = Some e → sector e ≠ sec.

(** [s'] differs from [s] in nothing a client sees. *)
Record keeps (s s' : cache) : Prop := {
  keeps_inv : cache_inv s';
  keeps_locked : locked s' = locked s;
  keeps_size : size (fs_device s') = size (fs_device s);
  keeps_length : length (cache_list s') = length (cache_list s);
  keeps_view : ∀ sec, valid_sector s sec → view s' sec = view s sec;
  keeps_absent : ∀ sec, sec ≠ NO_SECTOR → absent s sec → absent s' sec;
}.

Lemma keeps_refl s : cache_inv s → keeps s s.
Proof. by split. Qed.

Lemma keeps_trans s1 s2 s3 : keeps s1 s2 → keeps s2 s3 → keeps s1 s3.
Proof.
  intros [? ? Hs ? Hv Ha] [? ? Hs' ? Hv' Ha']. split; try congruence; try done.
  - intros sec Hsec. rewrite Hv' by (unfold valid_sector in *; lia). auto.
  - auto.
Qed.

Context `{!BlockLaws D}.

Lemma has_sector_spec sec e : has_sector sec e = true ↔ sector e = sec.
Proof. apply Z.eqb_eq. Qed.

Lemma view_hit s i e :
  distinct (cache_list s) → cache_list s !! i = Some e → sector e ≠ NO_SECTOR →
  view s (sector e) = buf e.
Proof.
  intros Hd Hi Hn. unfold view.
  destruct (find_index _ _) as [j|] eqn:E.
  - apply find_index_Some in E as (e' & Hj & He' & _). apply has_sector_spec in He'.
    assert (i = j) as <- by (eapply Hd; eauto). by rewrite Hi.
  - apply (proj1 (find_index_None _ _)) with i e in E; [|done].
    unfold has_sector in E. by rewrite Z.eqb_refl in E.
Qed.

Lemma view_miss s sec : absent s sec → view s sec = op_read (aux (fs_device s)) sec.
Proof.
  intros Ha. unfold view.
  destruct (find_index _ _) as [j|] eqn:E; [|done].
  apply find_index_Some in E as (e' & Hj & He' & _). apply has_sector_spec in He'.
  by destruct (Ha _ _ Hj).
Qed.

Lemma absent_or_hit s sec :
  absent s sec ∨ ∃ i e, cache_list s !! i = Some e ∧ sector e = sec.
Proof.
  destruct (find_index (has_sector sec) (cache_list s)) as [i|] eqn:E.
  - right. apply find_index_Some in E as (e & ? & ?%has_sector_spec & _). eauto.
  - left. intros i e Hi He. apply (proj1 (find_index_None _ _)) with i e in E; [|done].
    rewrite <- He in E. unfold has_sector in E. by rewrite Z.eqb_refl in E.
Qed.

(** The lemma behind every step on one entry: if the new entry is consistent
    with the device and its sector is nowhere else in the cache, then the
    invariant holds again and the view changes at most at the new sector and
    at the one that left the cache. *)
Lemma update_entry s i e e' :
  cache_inv s → cache_list s !! i = Some e → entry_ok (fs_device s) e' →
  (∀ j x, j ≠ i → cache_list s !! j = Some x → sector e' ≠ NO_SECTOR → sector x ≠ sector e') →
  let s' := set_list (<[i := e']> (cache_list s)) s in
  cache_inv s' ∧
  (sector e' ≠ NO_SECTOR → view s' (sector e') = buf e') ∧
  (∀ sec, sec ≠ NO_SECTOR → sec ≠ sector e' → sec ≠ sector e → view s' sec = view s sec) ∧
  (sector e ≠ sector e' → sector e ≠ NO_SECTOR →
     view s' (sector e) = op_read (aux (fs_device s)) (sector e)).
Proof.
  intros [? ? ? He Hd] Hi Hok Huniq s'.
  assert (∀ j x, cache_list s' !! j = Some x →
            j = i ∧ x = e' ∨ j ≠ i ∧ cache_list s !! j = Some x) as Hlk.
  { intros j x [(-> & -> & _)|[? ?]]%list_lookup_insert_Some; auto. }
  assert (cache_list s' !! i = Some e') as Hi'.
  { simpl. apply list_lookup_insert_eq. by eapply lookup_lt_Some. }
  assert (distinct (cache_list s')) as Hd'.
  { intros j k x y Hj Hk Hs Hn.
    destruct (Hlk _ _ Hj) as [[-> ->]|[Hji Hj']], (Hlk _ _ Hk) as [[-> ->]|[Hki Hk']]; try done.
    - exfalso. by apply (Huniq k y).
    - exfalso. apply (Huniq j x); congruence.
    - by eapply Hd. }
  split_and!.
  - split; simpl; [done|done| | |].
    + by rewrite length_insert.
    + intros j x Hj. destruct (Hlk _ _ Hj) as [[-> ->]|[_ Hj']]; eauto.
    + done.
  - intros Hn. by eapply view_hit.
  - intros sec Hsn Hse' Hse.
    destruct (absent_or_hit s sec) as [Ha|(j & x & Hj & <-)].
    + rewrite !view_miss; [done|done|].
      intros j x Hj. destruct (Hlk _ _ Hj) as [[-> ->]|[_ Hj']]; eauto.
    + assert (j ≠ i) by (intros ->; congruence).
      rewrite (view_hit s j x) by done. apply (view_hit s' j x); [done| |done].
      simpl. by rewrite list_lookup_insert_ne.
  - intros Hne Hn. rewrite view_miss; [done|].
    intros j x Hj. destruct (Hlk _ _ Hj) as [[-> ->]|[Hji Hj']]; [done|].
    intros Heq. apply Hji. apply (Hd j i x e); congruence.
Qed.

Lemma set_entry_run s i e f :
  cache_list s !! i = Some e →
  set_entry i f s = Ok (tt, set_list (<[i := f e]> (cache_list s)) s).
Proof.
  intros Hi. unfold set_entry, smod. do 3 f_equal.
  apply list_eq. intros j. destruct (decide (i = j)) as [<-|Hne].
  - rewrite list_lookup_alter_eq, Hi, list_lookup_insert_eq; [done|].
    by eapply lookup_lt_Some.
  - by rewrite list_lookup_alter_ne, list_lookup_insert_ne.
Qed.

Lemma entry_run s i e : cache_list s !! i = Some e → entry i s = Ok (e, s).
Proof. intros Hi. unfold entry. by rewrite Hi. Qed.

Lemma lookup_set_list s i e e' :
  cache_list s !! i = Some e →
  cache_list (set_list (<[i := e']> (cache_list s)) s) !! i = Some e'.
Proof. intros Hi. apply list_lookup_insert_eq. by eapply lookup_lt_Some. Qed.

Lemma set_list_twice s i a b :
  set_list (<[i := a]> (cache_list (set_list (<[i := b]> (cache_list s)) s)))
    (set_list (<[i := b]> (cache_list s)) s) = set_list (<[i := a]> (cache_list s)) s.
Proof. unfold set_list. simpl. by rewrite list_insert_insert_eq. Qed.

(** Changing only the [used] and [accessed] flags of an entry. *)
Lemma keeps_flags s i e e' :
  cache_inv s → cache_list s !! i = Some e →
  sector e' = sector e → dirty e' = dirty e → buf e' = buf e →
  keeps s (set_list (<[i := e']> (cache_list s)) s).
Proof.
  intros Hinv Hi Hs Hdi Hb. pose proof Hinv as [? ? ? He Hd].
  destruct (update_entry s i e e') as (Hinv' & Hv1 & Hv2 & _); [done..| | |].
  { unfold entry_ok. rewrite Hs, Hdi, Hb. apply (He _ _ Hi). }
  { rewrite Hs. intros j x Hji Hj Hn Heq. apply Hji. apply (Hd j i x e); congruence. }
  split; simpl; [done..| | |].
  - by rewrite length_insert.
  - intros sec Hsec. assert (sec ≠ NO_SECTOR) by (unfold valid_sector in *; lia).
    destruct (decide (sec = sector e')) as [->|].
    + rewrite Hv1 by done. rewrite Hs in *. symmetry. rewrite Hb. by apply view_hit with i.
    + apply Hv2; congruence.
  - intros sec Hn Ha j x Hj. apply list_lookup_insert_Some in Hj
      as [(-> & -> & _)|[_ Hj]]; [rewrite Hs|]; eauto.
Qed.

(** Writing a dirty entry back. *)
Lemma flush_spec s i e :
  cache_inv s → cache_list s !! i = Some e →
  ∃ s' e', buffer_cache_flush i s = Ok (tt, s') ∧ keeps s s' ∧
    cache_list s' !! i = Some e' ∧ e' = set_dirty false e ∧
    (∀ j x, j ≠ i → cache_list s' !! j = Some x ↔ cache_list s !! j = Some x).
Proof.
  intros Hinv Hi. pose proof Hinv as [Hsz Hty Hne He Hd].
  unfold buffer_cache_flush. rewrite (stM_bind_run _ _ _ e s) by (by apply entry_run).
  destruct (dirty e) eqn:Edirty.
  2:{ exists s, e. split_and!; [done|by apply keeps_refl|done| |done].
      destruct e; simpl in *. by subst. }
  destruct (He _ _ Hi) as [Hlen [[_ ?]|[Hsec _]]]; [congruence|].
  assert (sector e ≠ NO_SECTOR) as Hsn by lia.
  rewrite stM_bind_eq. unfold dev_write. rewrite block_write_ok by done.
  set (d' := mk_block _ _ _ _ _ _). set (s1 := set_device d' s).
  rewrite (set_entry_run s1 i e) by done.
  assert (∀ j x, j ≠ i → cache_list s !! j = Some x → sector x ≠ sector e) as Hoth.
  { intros j x Hji Hj Heq. apply Hji. eapply (Hd j i); eauto. congruence. }
  assert (∀ sec, sec ≠ sector e → op_read (aux d') sec = op_read (aux (fs_device s)) sec) as Hop
    by (intros; by apply op_read_write_ne).
  assert (op_read (aux d') (sector e) = buf e) as Hop1 by (by apply op_read_write).
  assert (size d' = size (fs_device s)) as Hsz' by done.
  assert (type d' = type (fs_device s)) as Hty' by done.
  clearbody d'.
  eexists _, _. split; [reflexivity|]. split; [|split; [|split; [reflexivity|]]].
  2:{ by apply (lookup_set_list s1 i e). }
  2:{ intros j x Hji. simpl. by rewrite list_lookup_insert_ne by done. }
  assert (∀ j x, <[i := set_dirty false e]> (cache_list s) !! j = Some x →
     ∃ y, cache_list s !! j = Some y ∧ sector x = sector y ∧ buf x = buf y ∧
       (j = i ∧ y = e ∧ x = set_dirty false e ∨ j ≠ i ∧ x = y)) as Hlk.
  { intros j x [(<- & <- & _)|[Hji Hj]]%list_lookup_insert_Some; [|by eauto 10].
    exists e. split_and!; auto. }
  split; simpl; [|done|done|by rewrite length_insert| |].
  - split; simpl; [congruence|congruence|by rewrite length_insert| |].
    + intros j x Hj. destruct (Hlk _ _ Hj) as (y & Hy & Hs & Hb & Hc).
      destruct (He _ _ Hy) as [Hly Hoky]. split; [by rewrite Hb|]. rewrite Hsz'.
      destruct Hc as [(-> & -> & ->)|[Hji ->]]; simpl.
      * right. split; [done|]. intros _. by rewrite Hop1.
      * destruct Hoky as [?|[? Hc]]; [by left|right]. split; [done|].
        intros Hdy. rewrite Hop; [auto|]. by eapply Hoth.
    + intros j k x y Hj Hk Hxy Hn.
      destruct (Hlk _ _ Hj) as (x' & Hx' & Hsx & _), (Hlk _ _ Hk) as (y' & Hy' & Hsy & _).
      eapply Hd; [exact Hx'|exact Hy'|congruence|congruence].
  - intros sec Hvs. assert (sec ≠ NO_SECTOR) by (unfold valid_sector in *; lia).
    set (s2 := set_list _ _).
    assert (distinct (cache_list s2)) as Hd2.
    { intros j k x y Hj Hk Hxy Hn.
      destruct (Hlk _ _ Hj) as (x' & Hx' & Hsx & _), (Hlk _ _ Hk) as (y' & Hy' & Hsy & _).
      eapply Hd; [exact Hx'|exact Hy'|congruence|congruence]. }
    destruct (absent_or_hit s2 sec) as [Ha|(j & x & Hj & <-)].
    + rewrite !view_miss; [| |done].
      * apply Hop. intros ->. eapply (Ha i); [by apply (lookup_set_list s1 i e)|done].
      * intros j y Hy Heq. destruct (decide (j = i)) as [->|Hji].
        { eapply (Ha i); [by apply (lookup_set_list s1 i e)|]. simpl. congruence. }
        eapply (Ha j y); [|done]. simpl. by rewrite list_lookup_insert_ne.
    + destruct (Hlk _ _ Hj) as (y & Hy & Hs & Hb & _).
      rewrite (view_hit s2 j x) by done. rewrite Hs, Hb in *. symmetry. by eapply view_hit.
  - intros sec Hn Ha j x Hj. destruct (Hlk _ _ Hj) as (y & Hy & Hs & _). rewrite Hs. eauto.
Qed.

(** Forgetting a clean entry. *)
Lemma drop_entry s i e :
  cache_inv s → cache_list s !! i = Some e → dirty e = false →
  keeps s (set_list (<[i := set_sector NO_SECTOR e]> (cache_list s)) s).
Proof.
  intros Hinv Hi Hcl. pose proof Hinv as [? ? ? He Hd].
  destruct (He _ _ Hi) as [Hlen Hok].
  destruct (update_entry s i e (set_sector NO_SECTOR e)) as (Hinv' & _ & Hv2 & Hv3); [done..| | |].
  { split; [done|]. by left. }
  { done. }
  split; simpl; [done..| | |].
  - by rewrite length_insert.
  - intros sec Hsec. assert (sec ≠ NO_SECTOR) by (unfold valid_sector in *; lia).
    destruct (decide (sec = sector e)) as [->|].
    + rewrite Hv3 by done. rewrite (view_hit s i e) by done.
      destruct Hok as [[? _]|[_ Hb]]; [done|]. by rewrite Hb.
    + by apply Hv2.
  - intros sec Hn Ha j x [(_ & <- & _)|[_ Hj]]%list_lookup_insert_Some; simpl; eauto.
Qed.

(** What [buffer_cache_evict] hands out: an entry that holds nothing. *)
Definition evicted (s : cache) (i : nat) : Prop :=
  ∃ e, cache_list s !! i = Some e ∧ used e = false ∧ dirty e = false ∧ sector e = NO_SECTOR.

(** One lap clears every reference bit, so the loop ends at the latest when it
    meets the first entry again. *)
Lemma evict_loop_spec fuel i s :
  cache_inv s → (i < length (cache_list s))%nat →
  ((∀ j e, (j < i)%nat → cache_list s !! j = Some e → used e = false) ∧
     (length (cache_list s) - i < fuel)%nat) ∨
  (i = 0%nat ∧ (0 < fuel)%nat ∧ (∀ j e, cache_list s !! j = Some e → used e = false)) →
  ∃ k s', evict_loop fuel i s = Ok (k, s') ∧ keeps s s' ∧ evicted s' k.
Proof.
  revert i s. induction fuel as [|fuel IH]; intros i s Hinv Hi Hf; [lia|].
  cbn [evict_loop]. destruct (lookup_lt_is_Some_2 _ _ Hi) as [e He].
  rewrite (stM_bind_run _ _ _ e s) by (by apply entry_run).
  destruct (used e) eqn:Eu; cbn [negb].
  - rewrite (stM_bind_run _ _ _ tt _ (set_entry_run s i e _ He)).
    set (s1 := set_list _ _).
    assert (keeps s s1) as Hk by (by eapply keeps_flags).
    pose proof (keeps_inv _ _ Hk) as Hinv1. pose proof (keeps_length _ _ Hk) as Hlen.
    rewrite stM_bind_eq. unfold sread.
    assert (∀ j x, cache_list s1 !! j = Some x →
              j = i ∧ used x = false ∨ j ≠ i ∧ cache_list s !! j = Some x) as Hlk.
    { intros j x [(<- & <- & _)|[? ?]]%list_lookup_insert_Some; auto. }
    destruct Hf as [[Hlt Hfu]|(-> & _ & Hall)].
    2:{ apply Hall in He. congruence. }
    edestruct (IH (if decide (S i = length (cache_list s1)) then 0%nat else S i) s1)
      as (k & s' & Heq & Hk' & Hev); [done| | |].
    + case_decide; lia.
    + case_decide as Hd.
      * right. split_and!; [done|lia|]. intros j x Hj.
        destruct (Hlk _ _ Hj) as [[_ ?]|[? Hj']]; [done|].
        apply (Hlt j); [|done]. apply lookup_lt_Some in Hj'. lia.
      * left. split; [|lia]. intros j x Hji Hj.
        destruct (Hlk _ _ Hj) as [[_ ?]|[? Hj']]; [done|]. apply (Hlt j); [lia|done].
    + exists k, s'. split_and!; [exact Heq|by eapply keeps_trans|done].
  - assert (∃ s1 e1, (if dirty e then buffer_cache_flush i else mret tt) s = Ok (tt, s1) ∧
      keeps s s1 ∧ cache_list s1 !! i = Some e1 ∧ used e1 = false ∧ dirty e1 = false)
      as (s1 & e1 & Hrun & Hk1 & He1 & Hu1 & Hd1).
    { destruct (dirty e) eqn:Ed.
      - destruct (flush_spec s i e Hinv He) as (s1 & e1 & ? & ? & ? & -> & _). eauto 10.
      - exists s, e. split_and!; auto. by apply keeps_refl. }
    rewrite (stM_bind_run _ _ _ tt s1 Hrun).
    rewrite (stM_bind_run _ _ _ tt _ (set_entry_run s1 i e1 _ He1)).
    eexists i, _. split; [reflexivity|]. split.
    + eapply keeps_trans; [exact Hk1|]. apply drop_entry; [|done..]. apply Hk1.
    + exists (set_sector NO_SECTOR e1). split_and!; [|done..]. by apply lookup_set_list with e1.
Qed.

Lemma evict_spec s :
  cache_inv s → ∃ k s', buffer_cache_evict s = Ok (k, s') ∧ keeps s s' ∧ evicted s' k.
Proof.
  intros Hinv. pose proof Hinv as [_ _ Hne _ _]. unfold buffer_cache_evict.
  apply evict_loop_spec; [done|lia|]. left. split; [intros; lia|lia].
Qed.

(** Loading a sector that is not cached into an evicted entry. *)
Lemma load_entry s i sec e d' :
  cache_inv s → cache_list s !! i = Some e → sector e = NO_SECTOR →
  valid_sector s sec → absent s sec →
  size d' = size (fs_device s) → type d' = type (fs_device s) → aux d' = aux (fs_device s) →
  let e' := mk_buffer_block false (used e) (accessed e) sec (op_read (aux (fs_device s)) sec) in
  let s' := set_list (<[i := e']> (cache_list s)) (set_device d' s) in
  cache_inv s' ∧ size (fs_device s') = size (fs_device s) ∧
  (∀ x, valid_sector s x → view s' x = view s x).
Proof.
  intros Hinv Hi Hno Hv Ha Hsz Hty Haux e' s'. pose proof Hinv as [Hs0 Ht0 ? He Hd].
  assert (sec ≠ NO_SECTOR) as Hsn by (unfold valid_sector in *; lia).
  assert (cache_inv (set_device d' s)) as Hinv1.
  { split; simpl; [congruence|congruence|done| |done].
    intros j x Hj. destruct (He _ _ Hj) as [Hl Hok]. split; [done|]. by rewrite Hsz, Haux. }
  assert (∀ x, view (set_device d' s) x = view s x) as Hview.
  { intros x. unfold view. simpl. by rewrite Haux. }
  destruct (update_entry (set_device d' s) i e e') as (Hinv' & Hv1 & Hv2 & _); [done..| | |].
  { split; simpl; [apply op_read_length|]. right. rewrite Hsz, Haux. split; [apply Hv|done]. }
  { intros j x Hji Hj _. simpl. by eapply Ha. }
  split; [done|]. split; [done|]. intros x Hx.
  assert (x ≠ NO_SECTOR) by (unfold valid_sector in *; lia).
  destruct (decide (x = sec)) as [->|].
  - rewrite (view_miss s) by done. by apply Hv1.
  - rewrite <- Hview. apply Hv2; simpl; congruence.
Qed.

(** [s'] is [s] after an operation that the client sees as a no-op. *)
Record same_disk (s s' : cache) : Prop := {
  sd_inv : cache_inv s';
  sd_locked : locked s' = locked s;
  sd_size : size (fs_device s') = size (fs_device s);
  sd_view : ∀ sec, valid_sector s sec → view s' sec = view s sec;
}.

Lemma keeps_same_disk s s' : keeps s s' → same_disk s s'.
Proof. intros []. by split. Qed.

Lemma same_disk_trans s1 s2 s3 : same_disk s1 s2 → same_disk s2 s3 → same_disk s1 s3.
Proof.
  intros [? ? Hs Hv] [? ? Hs' Hv']. split; try congruence; try done.
  intros sec Hsec. rewrite Hv' by (unfold valid_sector in *; lia). auto.
Qed.

Lemma same_disk_valid s s' sec : same_disk s s' → valid_sector s sec → valid_sector s' sec.
Proof. intros [_ _ Hs _] Hv. unfold valid_sector in *. by rewrite Hs. Qed.

(** Reading the sector into the evicted entry, in the three assignments of the
    source. *)
Lemma miss_fill s i sec :
  cache_inv s → evicted s i → valid_sector s sec → absent s sec →
  ∃ e' s', (b ← dev_read sec;
            set_entry i (set_buf b);;
            set_entry i (set_sector sec);;
            set_entry i (set_dirty false);;
            mret i) s = Ok (i, s') ∧ same_disk s s' ∧
    cache_list s' !! i = Some e' ∧ sector e' = sec ∧ dirty e' = false.
Proof.
  intros Hinv (e & He & Hu & Hd & Hno) Hv Ha.
  rewrite stM_bind_eq. unfold dev_read. rewrite block_read_ok by done.
  set (d' := mk_block _ _ _ _ _ _).
  rewrite (stM_bind_run _ _ _ tt _ (set_entry_run (set_device d' s) i e _ He)).
  set (s1 := set_list _ _).
  assert (cache_list s1 !! i = Some (set_buf (op_read (aux (fs_device s)) sec) e)) as H1
    by (by apply (lookup_set_list (set_device d' s) i e)).
  rewrite (stM_bind_run _ _ _ tt _ (set_entry_run s1 i _ _ H1)). subst s1.
  rewrite set_list_twice. set (s2 := set_list _ _).
  assert (cache_list s2 !! i =
          Some (set_sector sec (set_buf (op_read (aux (fs_device s)) sec) e))) as H2
    by (by apply (lookup_set_list (set_device d' s) i e)).
  rewrite (stM_bind_run _ _ _ tt _ (set_entry_run s2 i _ _ H2)). subst s2.
  rewrite set_list_twice.
  destruct (load_entry s i sec e d') as (Hinv' & Hsz & Hvw); [done..|].
  eexists _, _. split; [reflexivity|]. split; [by split|].
  split; [by apply (lookup_set_list (set_device d' s) i e)|done].
Qed.

(** After the lookup, on a hit as on a miss, the entry holds the sector. *)
Lemma fetch_read s sec (k : nat → stM cache (list Z)) :
  cache_inv s → valid_sector s sec →
  ∃ i e s', cache_list s' !! i = Some e ∧ sector e = sec ∧ same_disk s s' ∧
    (found ← buffer_cache_find sec;
     i ← (match found with
          | Some i => mret i
          | None =>
              i ← buffer_cache_evict;
              b ← dev_read sec;
              set_entry i (set_buf b);;
              set_entry i (set_sector sec);;
              set_entry i (set_dirty false);;
              mret i
          end); k i) s = k i s'.
Proof.
  intros Hinv Hv. rewrite stM_bind_eq. unfold buffer_cache_find, sread.
  destruct (find_index _ _) as [i|] eqn:E.
  - apply find_index_Some in E as (e & Hi & Hs & _). apply has_sector_spec in Hs.
    exists i, e, s. split_and!; [done..| |done]. by apply keeps_same_disk, keeps_refl.
  - assert (absent s sec) as Ha.
    { intros i e Hi He. apply (proj1 (find_index_None _ _)) with i e in E; [|done].
      rewrite He, Z.eqb_refl in E. done. }
    assert (sec ≠ NO_SECTOR) by (destruct Hinv; unfold valid_sector in *; lia).
    destruct (evict_spec s Hinv) as (i & s1 & Hev & Hk & Hevd).
    destruct (miss_fill s1 i sec) as (e' & s2 & Hrun & Hsd & He' & Hse & _);
      [apply Hk|done| |by apply Hk|].
    { eapply same_disk_valid; [by apply keeps_same_disk|done]. }
    exists i, e', s2. split_and!; [done..| |].
    + eapply same_disk_trans; [by apply keeps_same_disk|done].
    + rewrite stM_bind_eq, (stM_bind_run _ _ _ i s1 Hev), Hrun. done.
Qed.

(** The same for [buffer_cache_write], whose test on the evicted entry always
    succeeds. *)
Lemma fetch_write s sec (k : nat → stM cache unit) :
  cache_inv s → valid_sector s sec →
  ∃ i e s', cache_list s' !! i = Some e ∧ sector e = sec ∧ same_disk s s' ∧
    (found ← buffer_cache_find sec;
     i ← (match found with
          | Some i => mret i
          | None =>
              i ← buffer_cache_evict;
              e ← entry i;
              if negb (used e) || negb (sector e =? sec) then
                b ← dev_read sec;
                set_entry i (set_buf b);;
                set_entry i (set_sector sec);;
                set_entry i (set_dirty false);;
                mret i
              else mret i
          end); k i) s = k i s'.
Proof.
  intros Hinv Hv. rewrite stM_bind_eq. unfold buffer_cache_find, sread.
  destruct (find_index _ _) as [i|] eqn:E.
  - apply find_index_Some in E as (e & Hi & Hs & _). apply has_sector_spec in Hs.
    exists i, e, s. split_and!; [done..| |done]. by apply keeps_same_disk, keeps_refl.
  - assert (absent s sec) as Ha.
    { intros i e Hi He. apply (proj1 (find_index_None _ _)) with i e in E; [|done].
      rewrite He, Z.eqb_refl in E. done. }
    assert (sec ≠ NO_SECTOR) by (destruct Hinv; unfold valid_sector in *; lia).
    destruct (evict_spec s Hinv) as (i & s1 & Hev & Hk & Hevd).
    pose proof Hevd as (e & He & Hu & _).
    destruct (miss_fill s1 i sec) as (e' & s2 & Hrun & Hsd & He' & Hse & _);
      [apply Hk|done| |by apply Hk|].
    { eapply same_disk_valid; [by apply keeps_same_disk|done]. }
    exists i, e', s2. split_and!; [done..| |].
    + eapply same_disk_trans; [by apply keeps_same_disk|done].
    + rewrite stM_bind_eq, (stM_bind_run _ _ _ i s1 Hev).
      rewrite (stM_bind_run _ _ _ e s1 (entry_run _ _ _ He)), Hu. cbn [negb orb].
      by rewrite Hrun.
Qed.

Lemma same_disk_lock s v : cache_inv s → cache_inv (set_locked v s).
Proof. by intros []. Qed.

(** Setting [used] and [accessed] after the lookup. *)
Lemma touch_entry {A} s i e (k : stM cache A) :
  cache_inv s → cache_list s !! i = Some e →
  ∃ s' e', same_disk s s' ∧ cache_list s' !! i = Some e' ∧ sector e' = sector e ∧ buf e' = buf e ∧
    (set_entry i (set_used true);; set_entry i (set_accessed true);; k) s = k s'.
Proof.
  intros Hinv He.
  rewrite (stM_bind_run _ _ _ tt _ (set_entry_run s i e _ He)). set (s1 := set_list _ _).
  assert (cache_list s1 !! i = Some (set_used true e)) as H1 by (by apply (lookup_set_list s i e)).
  rewrite (stM_bind_run _ _ _ tt _ (set_entry_run s1 i _ _ H1)). subst s1.
  rewrite set_list_twice.
  eexists _, (set_accessed true (set_used true e)).
  split; [|split; [|split; [|split; [|reflexivity]]]]; [|by apply (lookup_set_list s i e)|done..].
  by apply keeps_same_disk, keeps_flags with e.
Qed.

Lemma read_spec s sec ofs n :
  cache_inv s → locked s = false → valid_sector s sec →
  0 ≤ ofs → 0 ≤ n → ofs + n ≤ BLOCK_SECTOR_SIZE →
  ∃ s', buffer_cache_read sec ofs n s =
        Ok (slice (Z.to_nat ofs) (Z.to_nat n) (view s sec), s') ∧ same_disk s s'.
Proof.
  intros Hinv Hlk Hv Ho Hn Hon. unfold buffer_cache_read.
  rewrite stM_bind_eq. unfold lock_acquire. rewrite Hlk.
  set (s0 := set_locked true s).
  edestruct (fetch_read s0 sec) as (i & e & s1 & He & Hse & Hsd1 & ->);
    [by apply same_disk_lock|done|].
  edestruct (@touch_entry (list Z) s1 i e) as (s2 & e2 & Hsd2 & He2 & Hse2 & Hb2 & ->); [apply Hsd1|done|].
  rewrite (stM_bind_run _ _ _ e2 s2 (entry_run _ _ _ He2)).
  unfold memcpy_from. rewrite !(proj2 (Z.leb_le _ _)) by lia. cbn [andb].
  assert (same_disk s0 s2) as Hsd by (by eapply same_disk_trans).
  unfold slift. rewrite !stM_bind_eq. unfold lock_release.
  rewrite (sd_locked _ _ Hsd). cbn [locked s0 set_locked].
  assert (sec ≠ NO_SECTOR) by (destruct Hinv; unfold valid_sector in *; lia).
  assert (buf e2 = view s sec) as Hbuf.
  { rewrite <- Hse, <- Hse2. rewrite <- (view_hit s2 i e2); [|apply Hsd|done|congruence].
    rewrite (sd_view _ _ Hsd) by (by rewrite Hse2, Hse). done. }
  rewrite Hbuf. eexists. split; [reflexivity|].
  destruct Hsd as [Hi2 _ Hs2 Hv2]. split; [by apply same_disk_lock|by rewrite Hlk|exact Hs2|].
  intros x Hx. by apply Hv2.
Qed.

(** [s'] is [s] after an operation that wrote [b] to sector [sec]. *)
Record writes_disk (s s' : cache) (sec : Z) (b : list Z) : Prop := {
  wd_inv : cache_inv s';
  wd_locked : locked s' = locked s;
  wd_size : size (fs_device s') = size (fs_device s);
  wd_view : view s' sec = b;
  wd_view_ne : ∀ x, valid_sector s x → x ≠ sec → view s' x = view s x;
}.

Lemma view_length s sec : cache_inv s → length (view s sec) = SECTOR_BYTES.
Proof.
  intros [_ _ _ He _]. unfold view. destruct (find_index _ _) as [i|] eqn:E.
  - apply find_index_Some in E as (e & Hi & _). rewrite Hi. by destruct (He _ _ Hi).
  - apply op_read_length.
Qed.

(** The assignments that end [buffer_cache_write], on the entry of the sector. *)
Lemma overwrite_entry s i e src ofs n :
  cache_inv s → cache_list s !! i = Some e → valid_sector s (sector e) →
  0 ≤ ofs → 0 ≤ n → ofs + n ≤ BLOCK_SECTOR_SIZE → n ≤ Z.of_nat (length src) →
  ∃ s', writes_disk s s' (sector e)
          (splice (Z.to_nat ofs) (take (Z.to_nat n) src) (view s (sector e))) ∧
    (set_entry i (set_dirty true);;
     e ← entry i;
     b ← slift (memcpy_into (buf e) ofs src n);
     set_entry i (set_buf b);;
     lock_release) s = lock_release s'.
Proof.
  intros Hinv He Hv Ho Hn Hon Hsrc.
  assert (sector e ≠ NO_SECTOR) as Hsn by (destruct Hinv; unfold valid_sector in *; lia).
  rewrite (stM_bind_run _ _ _ tt _ (set_entry_run s i e _ He)). set (s1 := set_list _ _).
  assert (cache_list s1 !! i = Some (set_dirty true e)) as H1 by (by apply (lookup_set_list s i e)).
  rewrite (stM_bind_run _ _ _ _ s1 (entry_run _ _ _ H1)).
  unfold memcpy_into. rewrite !(proj2 (Z.leb_le _ _)) by lia. cbn [andb buf set_dirty].
  rewrite (view_hit s i e) by (done || apply Hinv).
  set (b := splice _ _ _). unfold slift. rewrite stM_bind_eq.
  rewrite (stM_bind_run _ _ _ tt _ (set_entry_run s1 i _ _ H1)). subst s1. rewrite set_list_twice.
  eexists. split; [|reflexivity].
  destruct (update_entry s i e (set_buf b (set_dirty true e))) as (Hinv' & Hv1 & Hv2 & _); [done..| | |].
  { destruct Hinv as [_ _ _ Hen _]. destruct (Hen _ _ He) as [Hl _]. split; simpl.
    - subst b. rewrite length_splice; [done|]. rewrite length_take, Hl.
      unfold BLOCK_SECTOR_SIZE, SECTOR_BYTES in *. lia.
    - right. split; [apply Hv|done]. }
  { simpl. intros j x Hji Hj _ Heq. apply Hji.
    destruct Hinv as [_ _ _ _ Hd]. apply (Hd j i x e); congruence. }
  split; [done..| |].
  - by apply Hv1.
  - intros x Hx Hne. apply Hv2; [|done..]. destruct Hinv; unfold valid_sector in *; lia.
Qed.

Lemma write_spec s sec src ofs n :
  cache_inv s → locked s = false → valid_sector s sec →
  0 ≤ ofs → 0 ≤ n → ofs + n ≤ BLOCK_SECTOR_SIZE → n ≤ Z.of_nat (length src) →
  ∃ s', buffer_cache_write sec src ofs n s = Ok (tt, s') ∧
        writes_disk s s' sec (splice (Z.to_nat ofs) (take (Z.to_nat n) src) (view s sec)).
Proof.
  intros Hinv Hlk Hv Ho Hn Hon Hsrc. unfold buffer_cache_write.
  rewrite stM_bind_eq. unfold lock_acquire at 1. rewrite Hlk.
  set (s0 := set_locked true s).
  edestruct (fetch_write s0 sec) as (i & e & s1 & He & Hse & Hsd1 & ->);
    [by apply same_disk_lock|done|].
  edestruct (@touch_entry unit s1 i e) as (s2 & e2 & Hsd2 & He2 & Hse2 & _ & ->); [apply Hsd1|done|].
  assert (same_disk s0 s2) as Hsd by (by eapply same_disk_trans).
  rewrite Hse in Hse2.
  destruct (overwrite_entry s2 i e2 src ofs n) as (s3 & Hw & ->); try done; [apply Hsd| |].
  { rewrite Hse2. by eapply same_disk_valid. }
  rewrite Hse2 in Hw. destruct Hsd as [_ Hlk2 Hsz2 Hv2], Hw as [Hi3 Hlk3 Hsz3 Hv3 Hvn3].
  unfold lock_release. rewrite Hlk3, Hlk2. cbn [locked s0 set_locked].
  eexists. split; [reflexivity|]. split; [by apply same_disk_lock|by rewrite Hlk| | |].
  - exact (eq_trans Hsz3 Hsz2).
  - change (view s3 sec = splice (Z.to_nat ofs) (take (Z.to_nat n) src) (view s sec)).
    rewrite Hv3, Hv2 by done. done.
  - intros x Hx Hne. change (view s3 x = view s x).
    rewrite Hvn3 by (unfold valid_sector in *; rewrite ?Hsz2; done). by rewrite Hv2.
Qed.

(** ** Flushing everything *)

Lemma close_loop_spec n i s :
  cache_inv s → (i + n = length (cache_list s))%nat →
  (∀ j e, (j < i)%nat → cache_list s !! j = Some e → dirty e = false) →
  ∃ s', close_loop n i s = Ok (tt, s') ∧ keeps s s' ∧
    ∀ j e, cache_list s' !! j = Some e → dirty e = false.
Proof.
  revert i s. induction n as [|n IH]; intros i s Hinv Hlen Hcl; cbn [close_loop].
  { exists s. split_and!; [done|by apply keeps_refl|]. intros j e Hj. apply (Hcl j); [|done].
    apply lookup_lt_Some in Hj. lia. }
  destruct (lookup_lt_is_Some_2 (cache_list s) i) as [e He]; [lia|].
  rewrite (stM_bind_run _ _ _ e s (entry_run _ _ _ He)).
  assert (∃ s1, (if sector e =? NO_SECTOR then mret tt else buffer_cache_flush i) s = Ok (tt, s1) ∧
     keeps s s1 ∧ ∀ j x, (j < S i)%nat → cache_list s1 !! j = Some x → dirty x = false)
    as (s1 & Hrun & Hk & Hcl1).
  { pose proof Hinv as [_ _ _ Hen _]. destruct (Z.eqb_spec (sector e) NO_SECTOR) as [Hno|Hno].
    - exists s. split_and!; [done|by apply keeps_refl|]. intros j x Hj Hx.
      destruct (decide (j = i)) as [->|]; [|apply (Hcl j); [lia|done]].
      destruct (Hen _ _ He) as [_ [[_ ?]|[? _]]]; [congruence|]. destruct Hinv; lia.
    - destruct (flush_spec s i e Hinv He) as (s1 & e1 & ? & ? & He1 & -> & Hoth).
      exists s1. split_and!; [done..|]. intros j x Hj Hx.
      destruct (decide (j = i)) as [->|]; [by simplify_eq|].
      apply (Hcl j); [lia|]. by apply Hoth. }
  rewrite (stM_bind_run _ _ _ tt s1 Hrun).
  destruct (IH (S i) s1) as (s2 & Hrun2 & Hk2 & Hcl2);
    [apply Hk|rewrite (keeps_length _ _ Hk); lia|done|].
  exists s2. split_and!; [done|by eapply keeps_trans|done].
Qed.

Lemma close_spec s :
  cache_inv s →
  ∃ s', buffer_cache_close s = Ok (tt, s') ∧ same_disk s s' ∧
    ∀ sec, valid_sector s sec → op_read (aux (fs_device s')) sec = view s sec.
Proof.
  intros Hinv. unfold buffer_cache_close.
  destruct (close_loop_spec (length (cache_list s)) 0 s Hinv) as (s' & Hrun & Hk & Hcl);
    [lia|intros; lia|].
  exists s'. split; [done|]. split; [by apply keeps_same_disk|].
  intros sec Hv. rewrite <- (keeps_view _ _ Hk sec Hv).
  destruct (absent_or_hit s' sec) as [Ha|(i & e & Hi & <-)]; [by rewrite view_miss|].
  pose proof (keeps_inv _ _ Hk) as [Hsz _ _ Hen Hd].
  rewrite (view_hit s' i e) by (done || rewrite (keeps_size _ _ Hk) in Hsz;
                                unfold valid_sector in *; lia).
  destruct (Hen _ _ Hi) as [_ [[? _]|[_ Hb]]].
  - rewrite (keeps_size _ _ Hk) in Hsz. unfold valid_sector in *. lia.
  - symmetry. apply Hb. by eapply Hcl.
Qed.

(** ** Initialisation *)

Lemma init_loop_spec n allocs l :
  (n ≤ length allocs)%nat →
  Forall (λ a, a.1.1 = true ∧ a.1.2 = true ∧ length a.2 = SECTOR_BYTES) allocs →
  ∃ l', buffer_cache_init_loop n allocs l = Ok (l ++ l') ∧ length l' = n ∧
    Forall (λ e, length (buf e) = SECTOR_BYTES ∧ sector e = NO_SECTOR ∧ dirty e = false) l'.
Proof.
  revert allocs l. induction n as [|n IH]; intros allocs l Hn Hall; simpl.
  { exists []. by rewrite app_nil_r. }
  destruct allocs as [|[[a1 a2] b] allocs]; simpl in *; [lia|].
  apply Forall_cons in Hall as [(Ha1 & Ha2 & Hb) Hall]. simpl in *. subst a1 a2.
  destruct (IH allocs (l ++ [mk_buffer_block false false false NO_SECTOR b]))
    as (l' & -> & Hl & Hf); [lia|done|].
  exists (mk_buffer_block false false false NO_SECTOR b :: l').
  rewrite <- app_assoc. split_and!; [done|simpl; lia|]. by constructor.
Qed.

Lemma init_spec dev allocs :
  size dev ≤ NO_SECTOR → type dev ≠ BLOCK_FOREIGN → (NUM_SECTORS ≤ length allocs)%nat →
  Forall (λ a, a.1.1 = true ∧ a.1.2 = true ∧ length a.2 = SECTOR_BYTES) allocs →
  ∃ s, buffer_cache_init dev allocs = Ok s ∧ cache_inv s ∧ locked s = false ∧
    fs_device s = dev ∧ ∀ sec, valid_sector s sec → view s sec = op_read (aux dev) sec.
Proof.
  intros Hsz Hty Hn Hall. unfold buffer_cache_init.
  destruct (init_loop_spec NUM_SECTORS allocs [] Hn Hall) as (l & -> & Hl & Hf). simpl.
  eexists. split; [reflexivity|]. rewrite Forall_lookup in Hf.
  split_and!; [|done|done|].
  - split; simpl; [done..| | |].
    + rewrite Hl. unfold NUM_SECTORS. lia.
    + intros i e Hi. destruct (Hf _ _ Hi) as (? & ? & ?). split; [done|]. by left.
    + intros i j e e' Hi _ _ Hno. by destruct (Hf _ _ Hi) as (_ & ? & _).
  - intros sec Hsec. apply view_miss. intros i e Hi. simpl in Hi.
    destruct (Hf _ _ Hi) as (_ & -> & _). unfold valid_sector in Hsec. simpl in Hsec. lia.
Qed.

(** ** Refinement: a run of cache operations is a run on the disk *)

Inductive cop :=
| CRead (sec ofs n : Z)
| CWrite (sec : Z) (src : list Z) (ofs n : Z)
| CClose.

Definition cop_ok (sz : Z) (o : cop) : Prop :=
  match o with
  | CRead sec ofs n => 0 ≤ sec < sz ∧ 0 ≤ ofs ∧ 0 ≤ n ∧ ofs + n ≤ BLOCK_SECTOR_SIZE
  | CWrite sec src ofs n => 0 ≤ sec < sz ∧ 0 ≤ ofs ∧ 0 ≤ n ∧ ofs + n ≤ BLOCK_SECTOR_SIZE ∧
                            n ≤ Z.of_nat (length src)
  | CClose => True
  end.

(** The operation on the cache: the bytes it returns. *)
Definition run_cop (o : cop) : stM cache (list Z) :=
  match o with
  | CRead sec ofs n => buffer_cache_read sec ofs n
  | CWrite sec src ofs n => buffer_cache_write sec src ofs n;; mret []
  | CClose => buffer_cache_close;; mret []
  end.

(** The operation on a plain disk of sectors. *)
Definition disk_cop (d : Z → list Z) (o : cop) : list Z * (Z → list Z) :=
  match o with
  | CRead sec ofs n => (slice (Z.to_nat ofs) (Z.to_nat n) (d sec), d)
  | CWrite sec src ofs n =>
      ([], λ x, if decide (x = sec)
                then splice (Z.to_nat ofs) (take (Z.to_nat n) src) (d sec) else d x)
  | CClose => ([], d)
  end.

Fixpoint run_cops (os : list cop) : stM cache (list (list Z)) :=
  match os with
  | [] => mret []
  | o :: os => r ← run_cop o; rs ← run_cops os; mret (r :: rs)
  end.

Fixpoint disk_cops (d : Z → list Z) (os : list cop) : list (list Z) * (Z → list Z) :=
  match os with
  | [] => ([], d)
  | o :: os => let '(r, d1) := disk_cop d o in
               let '(rs, d2) := disk_cops d1 os in (r :: rs, d2)
  end.

(** The simulation relation: a quiescent cache that presents disk [d]. *)
Definition presents (s : cache) (d : Z → list Z) : Prop :=
  cache_inv s ∧ locked s = false ∧ ∀ sec, valid_sector s sec → view s sec = d sec.

Lemma run_cop_sim s d o :
  presents s d → cop_ok (size (fs_device s)) o →
  ∃ s', run_cop o s = Ok ((disk_cop d o).1, s') ∧ presents s' (disk_cop d o).2 ∧
        size (fs_device s') = size (fs_device s).
Proof.
  intros (Hinv & Hlk & Hd) Hok. destruct o as [sec ofs n|sec src ofs n|]; simpl in Hok |- *.
  - destruct Hok as (Hs & ? & ? & ?).
    destruct (read_spec s sec ofs n) as (s' & -> & [? ? Hsz Hv]); [done..|].
    exists s'. rewrite Hd by done. split_and!; [done|split_and!|done]; [done|congruence|].
    intros x Hx. unfold valid_sector in *. rewrite Hsz in Hx. by rewrite Hv, Hd.
  - destruct Hok as (Hs & ? & ? & ? & ?).
    destruct (write_spec s sec src ofs n) as (s' & Hrun & [? ? Hsz Hv Hvn]); [done..|].
    rewrite (stM_bind_run _ _ _ tt s' Hrun). exists s'.
    split_and!; [done|split_and!|done]; [done|congruence|].
    intros x Hx. unfold valid_sector in *. rewrite Hsz in Hx.
    case_decide as Hxs; [subst x; by rewrite Hv, Hd|]. by rewrite Hvn, Hd.
  - destruct (close_spec s Hinv) as (s' & Hrun & [? ? Hsz Hv] & _).
    rewrite (stM_bind_run _ _ _ tt s' Hrun). exists s'.
    split_and!; [done|split_and!|done]; [done|congruence|].
    intros x Hx. unfold valid_sector in *. rewrite Hsz in Hx. by rewrite Hv, Hd.
Qed.

Lemma run_cops_sim os s d :
  presents s d → Forall (cop_ok (size (fs_device s))) os →
  ∃ s', run_cops os s = Ok ((disk_cops d os).1, s') ∧ presents s' (disk_cops d os).2.
Proof.
  revert s d. induction os as [|o os IH]; intros s d Hp Hall; simpl; [by exists s|].
  apply Forall_cons in Hall as [Ho Hall].
  destruct (run_cop_sim s d o Hp Ho) as (s1 & Hrun & Hp1 & Hsz).
  rewrite (stM_bind_run _ _ _ _ s1 Hrun).
  destruct (disk_cop d o) as [r d1]. simpl in *. rewrite <- Hsz in Hall.
  destruct (IH s1 d1 Hp1 Hall) as (s2 & Hrun2 & Hp2).
  rewrite (stM_bind_run _ _ _ _ s2 Hrun2). destruct (disk_cops d1 os) as [rs d2]. eauto.
Qed.

(** ** Properties *)

(** C2: refinement of the buffer cache.  Any sequence of
    [buffer_cache_read], [buffer_cache_write] and [buffer_cache_close] calls
    with in-range arguments, on a cache that [buffer_cache_init] has set up,
    returns, and returns exactly the bytes a plain disk with the device's
    contents returns; eviction, write-back and the reference bits are
    invisible. *)
Theorem cache_refines_disk dev allocs s0 os :
  size dev ≤ NO_SECTOR → type dev ≠ BLOCK_FOREIGN → (NUM_SECTORS ≤ length allocs)%nat →
  Forall (λ a, a.1.1 = true ∧ a.1.2 = true ∧ length a.2 = SECTOR_BYTES) allocs →
  buffer_cache_init dev allocs = Ok s0 →
  Forall (cop_ok (size dev)) os →
  ∃ s', run_cops os s0 = Ok ((disk_cops (op_read (aux dev)) os).1, s') ∧
    cache_inv s' ∧ locked s' = false ∧
    ∀ sec, 0 ≤ sec < size (fs_device s') →
      view s' sec = (disk_cops (op_read (aux dev)) os).2 sec.
Proof.
  intros Hsz Hty Hn Hall Hinit Hos.
  destruct (init_spec dev allocs Hsz Hty Hn Hall) as (s & Hs & Hinv & Hlk & Hdev & Hv).
  rewrite Hinit in Hs. injection Hs as <-. subst dev.
  destruct (run_cops_sim os s0 (op_read (aux (fs_device s0)))) as (s' & Hrun & Hp); [done..|].
  exists s'. split; [exact Hrun|]. exact Hp.
Qed.

(** After [buffer_cache_close] the device itself holds, in every sector,
    what the clients of the cache last wrote there, and the cache still
    presents the same contents. *)
Lemma buffer_cache_close_durable s :
  cache_inv s →
  ∃ s', buffer_cache_close s = Ok (tt, s') ∧ cache_inv s' ∧
    ∀ sec, valid_sector s sec →
      op_read (aux (fs_device s')) sec = view s sec ∧ view s' sec = view s sec.
Proof.
  intros Hinv. destruct (close_spec s Hinv) as (s' & Hrun & [? _ _ Hv] & Hop).
  exists s'. split_and!; [done..|]. auto.
Qed.

(** C30: the second-chance loop of [buffer_cache_evict] ends: within one more
    iteration than there are entries it returns an entry that holds no
    sector, is clean and unreferenced, and no client sees a change. *)
Theorem buffer_cache_evict_terminates s :
  cache_inv s →
  ∃ k s', evict_loop (S (length (cache_list s))) 0 s = Ok (k, s') ∧ evicted s' k ∧
    cache_inv s' ∧ ∀ sec, valid_sector s sec → view s' sec = view s sec.
Proof.
  intros Hinv. destruct (evict_spec s Hinv) as (k & s' & Hrun & [? ? ? ? Hv _] & Hev).
  exists k, s'. by split_and!.
Qed.

End cache.
Arguments cache D : clear implicits.

(** *** Witnesses: a RAM disk of three sectors *)

Definition sample_dev : block ramdisk :=
  mk_block [104; 100; 97] BLOCK_FILESYS 3 (<[1 := replicate SECTOR_BYTES 7]> ∅) 0 0.
Definition sample_allocs : list (bool * bool * list Z) :=
  replicate NUM_SECTORS (true, true, replicate SECTOR_BYTES 204).
Definition sample_ops : list cop := [CWrite 1 [1; 2] 4 2; CRead 1 3 4; CClose; CRead 1 4 1].

Lemma sample_allocs_ok :
  Forall (λ a : bool * bool * list Z,
            a.1.1 = true ∧ a.1.2 = true ∧ length a.2 = SECTOR_BYTES) sample_allocs.
Proof. apply Forall_replicate. split_and!; vm_compute; reflexivity. Qed.

Lemma cache_refines_disk_witness :
  ∃ s0 s', buffer_cache_init sample_dev sample_allocs = Ok s0 ∧
    run_cops sample_ops s0 = Ok ([[]; [7; 1; 2; 7]; []; [1]], s').
Proof.
  destruct (buffer_cache_init sample_dev sample_allocs) as [s0|] eqn:E; [|by vm_compute in E].
  destruct (cache_refines_disk sample_dev sample_allocs s0 sample_ops) as (s' & H & _).
  - vm_compute. congruence.
  - discriminate.
  - vm_compute. repeat constructor.
  - exact sample_allocs_ok.
  - exact E.
  - repeat constructor; vm_compute; congruence.
  - exists s0, s'. split; [done|]. rewrite H. do 2 f_equal. 
Defined.

(** A cache with one entry, dirty and referenced. *)
Definition sample_cache : cache ramdisk :=
  mk_cache sample_dev [mk_buffer_block true true true 1 (replicate SECTOR_BYTES 9)] false.

Lemma sample_cache_inv : cache_inv sample_cache.
Proof.
  split.
  - vm_compute. congruence.
  - discriminate.
  - simpl. lia.
  - intros [|[|i]] e; simpl; [|done..]. intros [= <-]. split; [vm_compute; reflexivity|].
    right. split; [vm_compute; split; congruence|done].
  - intros [|[|i]] [|[|j]] e e'; simpl; congruence.
Qed.

Lemma buffer_cache_evict_terminates_witness :
  ∃ k s', evict_loop 2 0 sample_cache = Ok (k, s') ∧ evicted s' k.
Proof.
  destruct (buffer_cache_evict_terminates sample_cache sample_cache_inv)
    as (k & s' & H & Hev & _).
  exists k, s'. split; [exact H|exact Hev].
Defined.

End BufferCache.

(** * What the cache promises to the rest of the file system

    The file system above the cache is written, and proved, against this
    interface: a store of 512-byte sectors with a quiescence condition. *)

Class SectorStore (S : Type) := {
  buffer_cache_read : Z → Z → Z → stM S (list Z);
  buffer_cache_write : Z → list Z → Z → Z → stM S unit;
  buffer_cache_close : stM S unit;
  dev_size : S → Z;
  disk : S → Z → list Z;
  store_ok : S → Prop;
}.

Definition on_disk {S} `{SectorStore S} (s : S) (sec : Z) : Prop := 0 ≤ sec < dev_size s.

(** [s'] presents the same disk as [s]. *)
Definition disk_eq {S} `{SectorStore S} (s s' : S) : Prop :=
  store_ok s' ∧ dev_size s' = dev_size s ∧ ∀ x, on_disk s x → disk s' x = disk s x.

(** [s'] presents the disk of [s] with sector [sec] replaced by [b]. *)
Definition disk_upd {S} `{SectorStore S} (s s' : S) (sec : Z) (b : list Z) : Prop :=
  store_ok s' ∧ dev_size s' = dev_size s ∧ disk s' sec = b ∧
  ∀ x, on_disk s x → x ≠ sec → disk s' x = disk s x.

Class SectorStoreLaws (S : Type) `{SectorStore S} := {
  store_size : ∀ s, store_ok s → dev_size s ≤ W32 - 1;
  disk_length : ∀ s x, store_ok s → length (disk s x) = SECTOR_BYTES;
  store_read : ∀ s sec ofs n,
    store_ok s → on_disk s sec → 0 ≤ ofs → 0 ≤ n → ofs + n ≤ BLOCK_SECTOR_SIZE →
    ∃ s', buffer_cache_read sec ofs n s =
          Ok (slice (Z.to_nat ofs) (Z.to_nat n) (disk s sec), s') ∧ disk_eq s s';
  store_write : ∀ s sec src ofs n,
    store_ok s → on_disk s sec → 0 ≤ ofs → 0 ≤ n → ofs + n ≤ BLOCK_SECTOR_SIZE →
    n ≤ Z.of_nat (length src) →
    ∃ s', buffer_cache_write sec src ofs n s = Ok (tt, s') ∧
          disk_upd s s' sec (splice (Z.to_nat ofs) (take (Z.to_nat n) src) (disk s sec));
  store_close : ∀ s, store_ok s → ∃ s', buffer_cache_close s = Ok (tt, s') ∧ disk_eq s s';
}.

#[export] Instance cache_store {D} `{BlockOps D} : SectorStore (BufferCache.cache D) := {|
  buffer_cache_read := BufferCache.buffer_cache_read;
  buffer_cache_write := BufferCache.buffer_cache_write;
  buffer_cache_close := BufferCache.buffer_cache_close;
  dev_size s := Block.size (BufferCache.fs_device s);
  disk := BufferCache.view;
  store_ok s := BufferCache.cache_inv s ∧ BufferCache.locked s = false;
|}.

#[export] Instance cache_store_laws {D} `{BlockLaws D} : SectorStoreLaws (BufferCache.cache D).
Proof.
  split; unfold on_disk, disk_eq, disk_upd; simpl.
  - intros s [[] _]. done.
  - intros s x [? _]. by apply BufferCache.view_length.
  - intros s sec ofs n [? ?] ? ? ? ?.
    destruct (BufferCache.read_spec s sec ofs n) as (s' & ? & []); [done..|].
    exists s'. split_and!; [done|done|congruence|done|done].
  - intros s sec src ofs n [? ?] ? ? ? ? ?.
    destruct (BufferCache.write_spec s sec src ofs n) as (s' & ? & []); [done..|].
    exists s'. split_and!; [done|done|congruence|done..].
  - intros s [? ?]. destruct (BufferCache.close_spec s) as (s' & ? & [] & _); [done|].
    exists s'. split_and!; [done|done|congruence|done|done].
Qed.

(** The reference implementation of the interface: an array of sectors. *)
Definition sectors : Type := list (list Z).
Definition zero_sector : list Z := replicate SECTOR_BYTES 0.

#[export] Instance array_store : SectorStore sectors := {|
  buffer_cache_read sec ofs n l :=
    match l !! Z.to_nat sec with
    | Some b => Ok (slice (Z.to_nat ofs) (Z.to_nat n) b, l)
    | None => Err EFault
    end;
  buffer_cache_write sec src ofs n l :=
    match l !! Z.to_nat sec with
    | Some b => Ok (tt, <[Z.to_nat sec := splice (Z.to_nat ofs) (take (Z.to_nat n) src) b]> l)
    | None => Err EFault
    end;
  buffer_cache_close l := Ok (tt, l);
  dev_size l := Z.of_nat (length l);
  disk l x := default zero_sector (l !! Z.to_nat x);
  store_ok l := Z.of_nat (length l) ≤ W32 - 1 ∧ Forall (λ b, length b = SECTOR_BYTES) l;
|}.

#[export] Instance array_store_laws : SectorStoreLaws sectors.
Proof.
  split; unfold on_disk, disk_eq, disk_upd, sectors; simpl.
  - tauto.
  - intros l x [_ Hl].
    destruct (l !! Z.to_nat x) as [b|] eqn:E; simpl; [|done].
    by eapply Forall_lookup_1 in Hl.
  - intros l sec ofs n Hl Hs ? ? ?.
    destruct (lookup_lt_is_Some_2 l (Z.to_nat sec)) as [b ->]; [lia|]. by exists l.
  - intros l sec src ofs n [Hn Hl] Hs ? ? Hofs ?.
    destruct (lookup_lt_is_Some_2 l (Z.to_nat sec)) as [b Hb]; [lia|]. rewrite Hb.
    eexists. split; [done|]. rewrite length_insert, list_lookup_insert_eq by lia. split_and!; try done.
    + apply Forall_insert; [done|]. eapply Forall_lookup_1 in Hl; [|done].
      unfold BLOCK_SECTOR_SIZE, SECTOR_BYTES in *. rewrite length_splice; [done|]. rewrite length_take. lia.
    + intros x [? ?] Hne. by rewrite list_lookup_insert_ne by lia.
  - intros l Hl. by exists l.
Qed.
