(* ===== verification/CString.v ===== *)
(** * lib/string.c and lib/ctype.h

    Memory is a list of bytes indexed by address, so that source and
    destination may overlap; address 0 is the null pointer.  An access outside
    the memory is [EFault].  Loops over strings run on fuel one more than the
    memory's size, which they cannot use up: every pass reads the next
    address. *)

From S2P Require Import Prelude.

Module CString.

Abbreviation mem := (list Z).
Definition NULL : Z := 0.

Definition load (m : mem) (a : Z) : res Z :=
  if a <? 0 then Err EFault else deref (m !! Z.to_nat a).
Definition poke (m : mem) (a v : Z) : res mem :=
  _ ← load m a; Ok (<[Z.to_nat a := u8 v]> m).

(** The fuel of a loop that walks through the memory. *)
Definition walk (m : mem) : nat := S (length m).

(** [dst != NULL || size == 0] *)
Definition valid (p size : Z) : bool := negb (p =? NULL) || (size =? 0).

Fixpoint copy_up (n : nat) (m : mem) (dst src : Z) : res mem :=
  match n with
  | O => Ok m
  | S n => c ← load m src; m ← poke m dst c; copy_up n m (dst + 1) (src + 1)
  end.

(** [*--dst = *--src], [n] times. *)
Fixpoint copy_down (n : nat) (m : mem) (dst src : Z) : res mem :=
  match n with
  | O => Ok m
  | S n => c ← load m (src - 1); m ← poke m (dst - 1) c; copy_down n m (dst - 1) (src - 1)
  end.

Definition memcpy (m : mem) (dst src size : Z) : res (Z * mem) :=
  assert (valid dst size);; assert (valid src size);;
  m ← copy_up (Z.to_nat size) m dst src; Ok (dst, m).

(** Returns where the local [dst] ends up. *)
Definition memmove (m : mem) (dst src size : Z) : res (Z * mem) :=
  assert (valid dst size);; assert (valid src size);;
  if dst <? src
  then m ← copy_up (Z.to_nat size) m dst src; Ok (dst + size, m)
  else m ← copy_down (Z.to_nat size) m (dst + size) (src + size); Ok (dst, m).

Fixpoint memcmp_loop (n : nat) (m : mem) (a b : Z) : res Z :=
  match n with
  | O => Ok 0
  | S n =>
      x ← load m a; y ← load m b;
      if negb (x =? y) then Ok (if y <? x then 1 else -1)
      else memcmp_loop n m (a + 1) (b + 1)
  end.

Definition memcmp (m : mem) (a b size : Z) : res Z :=
  assert (valid a size);; assert (valid b size);; memcmp_loop (Z.to_nat size) m a b.

Fixpoint strcmp_loop (fuel : nat) (m : mem) (a b : Z) : res Z :=
  match fuel with
  | O => Err EFuel
  | S fuel =>
      x ← load m a; y ← load m b;
      if negb (x =? 0) && (x =? y) then strcmp_loop fuel m (a + 1) (b + 1)
      else Ok (if x <? y then -1 else if y <? x then 1 else 0)
  end.

Definition strcmp (m : mem) (a b : Z) : res Z :=
  assert (negb (a =? NULL));; assert (negb (b =? NULL));; strcmp_loop (walk m) m a b.

Fixpoint memchr_loop (n : nat) (m : mem) (block ch : Z) : res Z :=
  match n with
  | O => Ok NULL
  | S n => c ← load m block; if c =? ch then Ok block else memchr_loop n m (block + 1) ch
  end.

Definition memchr (m : mem) (block ch size : Z) : res Z :=
  assert (valid block size);; memchr_loop (Z.to_nat size) m block (u8 ch).

Fixpoint strchr_loop (fuel : nat) (m : mem) (string c : Z) : res Z :=
  match fuel with
  | O => Err EFuel
  | S fuel =>
      x ← load m string;
      if x =? c then Ok string
      else if x =? 0 then Ok NULL
      else strchr_loop fuel m (string + 1) c
  end.

Definition strchr (m : mem) (string c : Z) : res Z :=
  assert (negb (string =? NULL));; strchr_loop (walk m) m string (u8 c).

(** The common loop of [strcspn] ([hit = true]: stop at a character of the
    set) and [strspn] ([hit = false]: stop at a character outside it). *)
Fixpoint span_loop (fuel : nat) (m : mem) (string len set : Z) (hit : bool) : res Z :=
  match fuel with
  | O => Err EFuel
  | S fuel =>
      c ← load m (string + len);
      if c =? 0 then Ok len
      else
        p ← strchr m set c;
        if Bool.eqb (negb (p =? NULL)) hit then Ok len
        else span_loop fuel m string (len + 1) set hit
  end.

Definition strcspn (m : mem) (string stop : Z) : res Z := span_loop (walk m) m string 0 stop true.
Definition strspn (m : mem) (string skip : Z) : res Z := span_loop (walk m) m string 0 skip false.

Fixpoint strpbrk_loop (fuel : nat) (m : mem) (string stop : Z) : res Z :=
  match fuel with
  | O => Err EFuel
  | S fuel =>
      c ← load m string;
      if c =? 0 then Ok NULL
      else
        p ← strchr m stop c;
        if negb (p =? NULL) then Ok string else strpbrk_loop fuel m (string + 1) stop
  end.

Definition strpbrk (m : mem) (string stop : Z) : res Z := strpbrk_loop (walk m) m string stop.

Fixpoint strrchr_loop (fuel : nat) (m : mem) (string c p : Z) : res Z :=
  match fuel with
  | O => Err EFuel
  | S fuel =>
      x ← load m string;
      if x =? 0 then Ok p
      else strrchr_loop fuel m (string + 1) c (if x =? c then string else p)
  end.

Definition strrchr (m : mem) (string c : Z) : res Z := strrchr_loop (walk m) m string (u8 c) NULL.

Fixpoint strlen_loop (fuel : nat) (m : mem) (p : Z) : res Z :=
  match fuel with
  | O => Err EFuel
  | S fuel => c ← load m p; if c =? 0 then Ok p else strlen_loop fuel m (p + 1)
  end.

Definition strlen (m : mem) (string : Z) : res Z :=
  assert (negb (string =? NULL));; p ← strlen_loop (walk m) m string; Ok (p - string).

Fixpoint strnlen_loop (fuel : nat) (m : mem) (string len maxlen : Z) : res Z :=
  match fuel with
  | O => Err EFuel
  | S fuel =>
      c ← load m (string + len);
      if negb (c =? 0) && (len <? maxlen) then strnlen_loop fuel m string (len + 1) maxlen
      else Ok len
  end.

Definition strnlen (m : mem) (string maxlen : Z) : res Z :=
  strnlen_loop (walk m) m string 0 maxlen.

(** [n] candidate positions from [i] on. *)
Fixpoint strstr_loop (n : nat) (m : mem) (haystack needle needle_len i : Z) : res Z :=
  match n with
  | O => Ok NULL
  | S n =>
      c ← memcmp m (haystack + i) needle needle_len;
      if c =? 0 then Ok (haystack + i) else strstr_loop n m haystack needle needle_len (i + 1)
  end.

Definition strstr (m : mem) (haystack needle : Z) : res Z :=
  haystack_len ← strlen m haystack;
  needle_len ← strlen m needle;
  if needle_len <=? haystack_len
  then strstr_loop (Z.to_nat (haystack_len - needle_len + 1)) m haystack needle needle_len 0
  else Ok NULL.

(** Skips the delimiters at [s]; [None] when the string ends there. *)
Fixpoint skip_delims (fuel : nat) (m : mem) (s delims : Z) : res (option Z * Z) :=
  match fuel with
  | O => Err EFuel
  | S fuel =>
      c ← load m s;
      p ← strchr m delims c;
      if p =? NULL then Ok (Some s, s)
      else if c =? 0 then Ok (None, s)
      else skip_delims fuel m (s + 1) delims
  end.

Fixpoint skip_token (fuel : nat) (m : mem) (s delims : Z) : res Z :=
  match fuel with
  | O => Err EFuel
  | S fuel =>
      c ← load m s;
      p ← strchr m delims c;
      if p =? NULL then skip_token fuel m (s + 1) delims else Ok s
  end.

(** Returns the token, the new [*save_ptr] and the memory. *)
Definition strtok_r (m : mem) (s delims save_ptr : Z) : res (Z * Z * mem) :=
  assert (negb (delims =? NULL));;
  let s := if s =? NULL then save_ptr else s in
  assert (negb (s =? NULL));;
  '(start, s) ← skip_delims (walk m) m s delims;
  match start with
  | None => Ok ((NULL, s), m)
  | Some token =>
      s ← skip_token (walk m) m s delims;
      c ← load m s;
      if negb (c =? 0) then m ← poke m s 0; Ok ((token, s + 1), m)
      else Ok ((token, s), m)
  end.

Fixpoint set_loop (n : nat) (m : mem) (dst value : Z) : res mem :=
  match n with
  | O => Ok m
  | S n => m ← poke m dst value; set_loop n m (dst + 1) value
  end.

Definition memset (m : mem) (dst value size : Z) : res (Z * mem) :=
  assert (valid dst size);; m ← set_loop (Z.to_nat size) m dst value; Ok (dst, m).

Definition strlcpy (m : mem) (dst src size : Z) : res (Z * mem) :=
  assert (negb (dst =? NULL));; assert (negb (src =? NULL));;
  src_len ← strlen m src;
  if 0 <? size then
    let dst_len := if src_len <? size - 1 then src_len else size - 1 in
    '(_, m) ← memcpy m dst src dst_len;
    m ← poke m (dst + dst_len) 0; Ok (src_len, m)
  else Ok (src_len, m).

Definition strlcat (m : mem) (dst src size : Z) : res (Z * mem) :=
  assert (negb (dst =? NULL));; assert (negb (src =? NULL));;
  src_len ← strlen m src;
  dst_len ← strlen m dst;
  if (0 <? size) && (dst_len <? size) then
    let copy_cnt := if src_len <? size - dst_len - 1 then src_len else size - dst_len - 1 in
    '(_, m) ← memcpy m (dst + dst_len) src copy_cnt;
    m ← poke m (dst + dst_len + copy_cnt) 0; Ok (u32 (src_len + dst_len), m)
  else Ok (u32 (src_len + dst_len), m).

(** ** Blocks of memory *)

(** Runs the monad's bind and assertions without unfolding the loops. *)
Ltac run := cbn [mbind res_bind assert negb andb orb].

Lemma load_of_nat m (a : nat) c : m !! a = Some c → load m (Z.of_nat a) = Ok c.
Proof.
  intros Ha. unfold load. rewrite (proj2 (Z.ltb_ge _ _)) by lia.
  by rewrite Nat2Z.id, Ha.
Qed.

Lemma load_ok m a c : load m a = Ok c ↔ 0 ≤ a ∧ m !! Z.to_nat a = Some c.
Proof.
  unfold load. destruct (Z.ltb_spec a 0); [split; [done|lia]|]. rewrite deref_ok. naive_solver lia.
Qed.

Lemma poke_of_nat m (a : nat) v :
  (a < length m)%nat → in_u8 v → poke m (Z.of_nat a) v = Ok (<[a := v]> m).
Proof.
  intros Ha Hv. destruct (lookup_lt_is_Some_2 m a Ha) as [c Hc].
  unfold poke. rewrite (load_of_nat _ _ _ Hc), u8_small, Nat2Z.id by done. done.
Qed.

Lemma insert_splice_front (m : mem) d c (X : list Z) :
  (d + S (length X) ≤ length m)%nat → splice (S d) X (<[d := c]> m) = splice d (c :: X) m.
Proof.
  intros Hl. apply list_eq. intros i.
  assert (length (<[d := c]> m) = length m) by apply length_insert.
  destruct (decide (i < d)%nat); [|destruct (decide (i = d)) as [->|];
    [|destruct (decide (i < d + S (length X))%nat)]].
  - rewrite !lookup_splice_l, list_lookup_insert_ne by lia. done.
  - rewrite lookup_splice_l, list_lookup_insert_eq, lookup_splice_m, Nat.sub_diag by (simpl; lia). done.
  - rewrite !lookup_splice_m by (simpl; lia).
    replace (i - d)%nat with (S (i - S d)) by lia. done.
  - rewrite !lookup_splice_r, list_lookup_insert_ne by (simpl; lia). done.
Qed.

Lemma insert_splice_back (m : mem) d c (X : list Z) :
  (d + S (length X) ≤ length m)%nat →
  splice d X (<[d + length X := c]> m)%nat = splice d (X ++ [c]) m.
Proof.
  intros Hl. apply list_eq. intros i.
  assert (length (<[d + length X := c]> m)%nat = length m) by apply length_insert.
  destruct (decide (i < d)%nat); [|destruct (decide (i < d + length X)%nat);
    [|destruct (decide (i = d + length X)%nat) as [->|]]].
  - rewrite !lookup_splice_l, list_lookup_insert_ne by lia. done.
  - rewrite !lookup_splice_m, lookup_app_l by (rewrite ?length_app; simpl; lia). done.
  - rewrite lookup_splice_r, list_lookup_insert_eq, lookup_splice_m, lookup_app_r
      by (rewrite ?length_app; simpl; lia).
    by replace (d + length X - d - length X)%nat with 0%nat by lia.
  - rewrite !lookup_splice_r, list_lookup_insert_ne by (rewrite ?length_app; simpl; lia). done.
Qed.

Lemma slice_insert_ne (m : mem) i c o n :
  (i < o ∨ o + n ≤ i)%nat → slice o n (<[i := c]> m) = slice o n m.
Proof.
  intros Hi. apply list_eq. intros j. destruct (decide (j < n)%nat).
  - rewrite !lookup_slice, list_lookup_insert_ne by lia. done.
  - rewrite !lookup_slice_ge by lia. done.
Qed.

Lemma slice_cons (m : mem) o n c : m !! o = Some c → slice o (S n) m = c :: slice (S o) n m.
Proof. intros Hc. unfold slice. by rewrite (drop_S m c o Hc). Qed.

Lemma slice_snoc (m : mem) o n c : m !! (o + n)%nat = Some c → slice o (S n) m = slice o n m ++ [c].
Proof. intros Hc. unfold slice. apply take_S_r. by rewrite lookup_drop. Qed.

(** Copying upwards is right when the destination is not inside the source
    above its start. *)
Lemma copy_up_spec n m (d s : nat) :
  Forall in_u8 m → (d + n ≤ length m)%nat → (s + n ≤ length m)%nat → (d ≤ s ∨ s + n ≤ d)%nat →
  copy_up n m (Z.of_nat d) (Z.of_nat s) = Ok (splice d (slice s n m) m).
Proof.
  revert m d s. induction n as [|n IH]; intros m d s Hm Hd Hs Hds; cbn [copy_up].
  { unfold splice, slice. simpl. by rewrite Nat.add_0_r, take_drop. }
  destruct (lookup_lt_is_Some_2 m s) as [c Hc]; [lia|].
  assert (in_u8 c) by by eapply Forall_lookup_1 in Hm.
  rewrite (load_of_nat _ _ _ Hc). simpl. rewrite poke_of_nat by (done || lia). simpl.
  replace (Z.of_nat d + 1) with (Z.of_nat (S d)) by lia.
  replace (Z.of_nat s + 1) with (Z.of_nat (S s)) by lia.
  rewrite IH; [|by apply Forall_insert|rewrite length_insert; lia..|lia].
  rewrite slice_insert_ne by lia. rewrite (slice_cons m s n c) by done.
  rewrite insert_splice_front; [done|]. rewrite length_slice by lia. lia.
Qed.

(** Copying downwards is right when the destination is not inside the source
    below its end. *)
Lemma copy_down_spec n m (d s : nat) :
  Forall in_u8 m → (d + n ≤ length m)%nat → (s + n ≤ length m)%nat → (s ≤ d ∨ d + n ≤ s)%nat →
  copy_down n m (Z.of_nat (d + n)) (Z.of_nat (s + n)) = Ok (splice d (slice s n m) m).
Proof.
  revert m d s. induction n as [|n IH]; intros m d s Hm Hd Hs Hds; cbn [copy_down].
  { unfold splice, slice. simpl. by rewrite Nat.add_0_r, take_drop. }
  destruct (lookup_lt_is_Some_2 m (s + n)%nat) as [c Hc]; [lia|].
  assert (in_u8 c) by by eapply Forall_lookup_1 in Hm.
  replace (Z.of_nat (s + S n) - 1) with (Z.of_nat (s + n)) by lia.
  replace (Z.of_nat (d + S n) - 1) with (Z.of_nat (d + n)) by lia.
  rewrite (load_of_nat _ _ _ Hc). simpl. rewrite poke_of_nat by (done || lia). simpl.
  rewrite IH; [|by apply Forall_insert|rewrite length_insert; lia..|lia].
  rewrite slice_insert_ne by lia. rewrite (slice_snoc m s n c) by done.
  assert (length (slice s n m) = n) as Hl by (apply length_slice; lia).
  rewrite <- Hl at 2. rewrite insert_splice_back; [done|]. lia.
Qed.

(** ** Null-terminated strings *)

(** The string [s] is at address [a]. *)
Definition cstr (m : mem) (a : Z) (s : list Z) : Prop :=
  0 < a ∧ Forall (λ c, c ≠ 0) s ∧ ∀ i c, (s ++ [0]) !! i = Some c → load m (a + Z.of_nat i) = Ok c.

Lemma cstr_nil m a : cstr m a [] → load m a = Ok 0.
Proof. intros (_ & _ & Hl). rewrite <- (Z.add_0_r a). by apply (Hl 0%nat). Qed.

Lemma cstr_cons m a c s : cstr m a (c :: s) → load m a = Ok c ∧ c ≠ 0 ∧ cstr m (a + 1) s.
Proof.
  intros (Ha & Hf & Hl). apply Forall_cons in Hf as [Hc Hf]. split; [|split; [done|split; [lia|split; [done|]]]].
  - rewrite <- (Z.add_0_r a). by apply (Hl 0%nat).
  - intros i x Hi. replace (a + 1 + Z.of_nat i) with (a + Z.of_nat (S i)) by lia. by apply Hl.
Qed.

Lemma cstr_end m a s : cstr m a s → load m (a + Z.of_nat (length s)) = Ok 0.
Proof.
  intros (_ & _ & Hl). apply Hl. rewrite lookup_app_r by lia. by rewrite Nat.sub_diag.
Qed.

Lemma cstr_walk m a s : cstr m a s → (length s < walk m)%nat ∧ a + Z.of_nat (length s) < Z.of_nat (length m).
Proof.
  intros Hs. pose proof (cstr_end _ _ _ Hs) as [H0 He%lookup_lt_Some]%load_ok.
  destruct Hs as [? _]. unfold walk. lia.
Qed.

Lemma cstr_app m a s1 s2 : cstr m a (s1 ++ s2) → cstr m (a + Z.of_nat (length s1)) s2.
Proof.
  revert a. induction s1 as [|c s1 IH]; intros a Hs; simpl in *; [by rewrite Z.add_0_r|].
  apply cstr_cons in Hs as (_ & _ & Hs). apply IH in Hs.
  by replace (a + Z.of_nat (S (length s1))) with (a + 1 + Z.of_nat (length s1)) by lia.
Qed.

Lemma cstr_valid m a s : cstr m a s → (a =? NULL) = false.
Proof. intros [? _]. apply Z.eqb_neq. unfold NULL. lia. Qed.

Lemma strlen_loop_spec fuel m a s :
  cstr m a s → (length s < fuel)%nat → strlen_loop fuel m a = Ok (a + Z.of_nat (length s)).
Proof.
  revert a s. induction fuel as [|fuel IH]; intros a s Hs Hf; [lia|]. cbn [strlen_loop].
  destruct s as [|c s].
  - rewrite (cstr_nil _ _ Hs). simpl. by rewrite Z.add_0_r.
  - apply cstr_cons in Hs as (-> & Hc & Hs). simpl in *.
    rewrite (proj2 (Z.eqb_neq c 0)), (IH _ s) by (done || lia). f_equal. lia.
Qed.

Lemma strlen_spec m a s : cstr m a s → strlen m a = Ok (Z.of_nat (length s)).
Proof.
  intros Hs. unfold strlen. rewrite (cstr_valid _ _ _ Hs). run.
  rewrite (strlen_loop_spec _ _ _ s); [|done|by apply (cstr_walk m a s)]. run. f_equal. lia.
Qed.

(** Searching for one character. *)
Definition chr_result (a : Z) (s : list Z) (c : Z) : Z :=
  match find_index (λ x, x =? c) (s ++ [0]) with Some i => a + Z.of_nat i | None => NULL end.

Lemma strchr_loop_spec fuel m a s c :
  cstr m a s → (length s < fuel)%nat → strchr_loop fuel m a c = Ok (chr_result a s c).
Proof.
  unfold chr_result. revert a s. induction fuel as [|fuel IH]; intros a s Hs Hf; [lia|].
  cbn [strchr_loop]. destruct s as [|x s].
  - rewrite (cstr_nil _ _ Hs). cbn [mbind res_bind app find_index].
    destruct (Z.eqb_spec 0 c); [by rewrite Z.add_0_r|done].
  - apply cstr_cons in Hs as (-> & Hx & Hs). cbn [mbind res_bind app find_index length] in *.
    destruct (Z.eqb_spec x c); [by rewrite Z.add_0_r|].
    rewrite (proj2 (Z.eqb_neq x 0)), (IH _ s) by (done || lia). f_equal.
    destruct (find_index _ (s ++ [0])); simpl; [lia|done].
Qed.

Lemma strchr_spec m a s c : cstr m a s → in_u8 c → strchr m a c = Ok (chr_result a s c).
Proof.
  intros Hs Hc. unfold strchr. rewrite (cstr_valid _ _ _ Hs), u8_small by done. run.
  apply strchr_loop_spec; [done|]. by apply (cstr_walk m a s).
Qed.

(** [strchr] as a membership test. *)
Lemma strchr_mem m a s c :
  cstr m a s → in_u8 c →
  ∃ p, strchr m a c = Ok p ∧ (p =? NULL) = negb (bool_decide (c ∈ s) || (c =? 0)).
Proof.
  intros Hs Hc. eexists. split; [by apply strchr_spec|]. unfold chr_result.
  pose proof Hs as (Ha & Hf & _).
  destruct (find_index _ (s ++ [0])) as [i|] eqn:E.
  - rewrite (proj2 (Z.eqb_neq _ _)) by (unfold NULL; lia). symmetry. apply negb_false_iff.
    apply find_index_Some in E as (x & Hx & ->%Z.eqb_eq & _).
    apply list_elem_of_lookup_2 in Hx. apply elem_of_app in Hx as [Hx| ->%list_elem_of_singleton].
    + by rewrite bool_decide_eq_true_2.
    + by rewrite orb_true_r.
  - rewrite Z.eqb_refl. symmetry. apply negb_true_iff, orb_false_iff. rewrite find_index_None in E. split.
    + apply bool_decide_eq_false. intros [i Hi]%list_elem_of_lookup_1. specialize (E i c).
      rewrite lookup_app_l, Z.eqb_refl in E by by eapply lookup_lt_Some. by apply E in Hi.
    + rewrite Z.eqb_sym. apply (E (length s) 0). rewrite lookup_app_r by lia. by rewrite Nat.sub_diag.
Qed.

(** Lexicographic comparison, as [strcmp] reports it. *)
Fixpoint str_order (s t : list Z) : Z :=
  match s, t with
  | [], [] => 0
  | [], _ => -1
  | _, [] => 1
  | x :: s, y :: t => if x <? y then -1 else if y <? x then 1 else str_order s t
  end.

Lemma load_u8 m a c : Forall in_u8 m → load m a = Ok c → in_u8 c.
Proof. intros Hm [_ Hc]%load_ok. by eapply Forall_lookup_1 in Hm. Qed.

Lemma strcmp_loop_spec fuel m a b s t :
  Forall in_u8 m → cstr m a s → cstr m b t → (length s < fuel)%nat →
  strcmp_loop fuel m a b = Ok (str_order s t).
Proof.
  intros Hm. revert a b s t. induction fuel as [|fuel IH]; intros a b s t Hs Ht Hf; [lia|].
  cbn [strcmp_loop]. destruct s as [|x s], t as [|y t].
  - rewrite (cstr_nil _ _ Hs), (cstr_nil _ _ Ht). done.
  - apply cstr_cons in Ht as (Hl & Hy & Ht). rewrite (cstr_nil _ _ Hs), Hl. run.
    apply load_u8 in Hl as [??]; [|done].
    rewrite (proj2 (Z.ltb_lt 0 y)) by lia. done.
  - apply cstr_cons in Hs as (Hl & Hx & Hs). rewrite (cstr_nil _ _ Ht), Hl. run.
    apply load_u8 in Hl as [??]; [|done]. rewrite (proj2 (Z.eqb_neq x 0)) by lia. run.
    rewrite (proj2 (Z.ltb_ge x 0)), (proj2 (Z.ltb_lt 0 x)) by lia. done.
  - apply cstr_cons in Hs as (-> & Hx & Hs). apply cstr_cons in Ht as (-> & Hy & Ht). run.
    rewrite (proj2 (Z.eqb_neq x 0)) by lia. run. simpl in *.
    destruct (Z.eqb_spec x y) as [->|].
    + rewrite Z.ltb_irrefl. apply IH; [done..|lia].
    + repeat case_match; bool_props; done || lia.
Qed.

Lemma str_order_eq s t : str_order s t = 0 ↔ s = t.
Proof.
  split; [|intros ->; induction t; simpl; rewrite ?Z.ltb_irrefl; done].
  revert t. induction s as [|x s IH]; intros [|y t]; try done. simpl.
  repeat case_match; bool_props; try done. intros Hs%IH. subst. f_equal. lia.
Qed.

Lemma str_order_antisym s t : str_order t s = - str_order s t.
Proof.
  revert t. induction s as [|x s IH]; intros [|y t]; try done. simpl.
  repeat case_match; bool_props; try done; lia.
Qed.

Lemma str_order_lt s t : str_order s t = -1 ↔
  ∃ p, (∃ y u, s = p ∧ t = p ++ y :: u) ∨ (∃ x y u v, s = p ++ x :: u ∧ t = p ++ y :: v ∧ x < y).
Proof.
  split.
  - revert t. induction s as [|x s IH]; intros [|y t]; try done.
    + intros _. exists []. left. eauto.
    + simpl. destruct (Z.ltb_spec x y); [intros _; exists []; right; eauto 10|].
      destruct (Z.ltb_spec y x); [done|]. intros (p & Hp)%IH. exists (x :: p).
      assert (x = y) as <- by lia.
      destruct Hp as [(z & u & -> & ->)|(z & w & u & v & -> & -> & ?)]; [left|right]; eauto 10.
  - intros (p & Hp). revert s t Hp. induction p as [|c p IH]; intros s t Hp.
    + destruct Hp as [(z & u & -> & ->)|(z & w & u & v & -> & -> & ?)]; [done|].
      simpl. by rewrite (proj2 (Z.ltb_lt z w)).
    + destruct Hp as [(z & u & -> & ->)|(z & w & u & v & -> & -> & ?)]; simpl;
        rewrite Z.ltb_irrefl; apply IH; [left|right]; eauto 10.
Qed.

(** [strcmp] orders strings lexicographically by unsigned character: zero for
    equal strings, -1 exactly when the first is a proper prefix of the second
    or has the smaller character where they first differ, and 1 otherwise. *)
Lemma strcmp_lexicographic m a b s t :
  Forall in_u8 m → cstr m a s → cstr m b t →
  ∃ r, strcmp m a b = Ok r ∧ (r = 0 ↔ s = t) ∧
    (r = -1 ↔ ∃ p, (∃ y u, s = p ∧ t = p ++ y :: u) ∨
                   (∃ x y u v, s = p ++ x :: u ∧ t = p ++ y :: v ∧ x < y)) ∧
    strcmp m b a = Ok (- r).
Proof.
  intros Hm Hs Ht. exists (str_order s t). rewrite <- str_order_antisym. unfold strcmp.
  rewrite (cstr_valid _ _ _ Hs), (cstr_valid _ _ _ Ht). run.
  pose proof (cstr_walk _ _ _ Hs) as [? _]. pose proof (cstr_walk _ _ _ Ht) as [? _].
  rewrite (strcmp_loop_spec _ _ _ _ s t), (strcmp_loop_spec _ _ _ _ t s) by done.
  split_and!; [done|apply str_order_eq|apply str_order_lt|done].
Qed.

(** ** Copying strings *)

Lemma cstr_lookup m a s i c :
  cstr m a s → (s ++ [0]) !! i = Some c → m !! (Z.to_nat a + i)%nat = Some c.
Proof.
  intros (Ha & _ & Hl) Hi. apply Hl, load_ok in Hi as [_ Hi].
  by replace (Z.to_nat a + i)%nat with (Z.to_nat (a + Z.of_nat i)) by lia.
Qed.

Lemma cstr_slice m a s n :
  cstr m a s → (n ≤ length s)%nat → slice (Z.to_nat a) n m = take n s.
Proof.
  intros Hs Hn. apply list_eq. intros i. destruct (decide (i < n)%nat).
  - rewrite lookup_slice, lookup_take_lt by lia.
    destruct (lookup_lt_is_Some_2 s i) as [c Hc]; [lia|]. rewrite Hc.
    eapply cstr_lookup; [done|]. rewrite lookup_app_l by lia. done.
  - rewrite lookup_slice_ge, lookup_take_ge by lia. done.
Qed.

(** A string that was written into memory is there. *)
Lemma cstr_splice m (d : nat) s :
  (0 < d)%nat → Forall (λ c, c ≠ 0) s → (d + S (length s) ≤ length m)%nat →
  cstr (splice d (s ++ [0]) m) (Z.of_nat d) s.
Proof.
  intros Hd Hs Hl. split_and!; [lia|done|]. intros i c Hi.
  assert (i < S (length s))%nat by (apply lookup_lt_Some in Hi; rewrite length_app in Hi; simpl in *; lia).
  replace (Z.of_nat d + Z.of_nat i) with (Z.of_nat (d + i)) by lia.
  apply load_of_nat. rewrite lookup_splice_m by (rewrite ?length_app; simpl; lia).
  by replace (d + i - d)%nat with i by lia.
Qed.

Lemma memcpy_poke m (d s n : nat) :
  Forall in_u8 m → (0 < d)%nat → (0 < s)%nat → (d + S n ≤ length m)%nat → (s + n ≤ length m)%nat →
  (d ≤ s ∨ s + n ≤ d)%nat →
  ∃ m1, memcpy m (Z.of_nat d) (Z.of_nat s) (Z.of_nat n) = Ok (Z.of_nat d, m1) ∧
    poke m1 (Z.of_nat d + Z.of_nat n) 0 = Ok (splice d (slice s n m ++ [0]) m).
Proof.
  intros Hm Hd0 Hs0 Hd Hs Hds. unfold memcpy, valid, NULL.
  rewrite (proj2 (Z.eqb_neq (Z.of_nat d) 0)), (proj2 (Z.eqb_neq (Z.of_nat s) 0)) by lia. run.
  rewrite Nat2Z.id, copy_up_spec by (done || lia). run. eexists. split; [done|].
  assert (length (slice s n m) = n) as Hl by (apply length_slice; lia).
  replace (Z.of_nat d + Z.of_nat n) with (Z.of_nat (d + n)) by lia.
  rewrite poke_of_nat by (rewrite ?length_splice by lia; done || lia). f_equal.
  rewrite <- splice_app by (simpl; lia). rewrite Hl. apply list_eq. intros i.
  assert (length (splice d (slice s n m) m) = length m) by (apply length_splice; lia).
  destruct (decide (i = d + n)%nat) as [->|].
  - rewrite list_lookup_insert_eq, lookup_splice_m, Nat.sub_diag by (simpl; lia). done.
  - rewrite list_lookup_insert_ne by lia. destruct (decide (i < d + n)%nat).
    + by rewrite (lookup_splice_l (d + n)) by lia.
    + by rewrite (lookup_splice_r (d + n)) by (simpl; lia).
Qed.

(** [strlcpy] copies the string cut to [size - 1] characters, terminates it,
    changes no other byte, and returns the length of the source; with [size]
    zero it writes nothing. *)
Lemma strlcpy_spec m (dst src : nat) s size :
  Forall in_u8 m → (0 < dst)%nat → cstr m (Z.of_nat src) s → 0 ≤ size →
  (dst + Nat.min (S (length s)) (Z.to_nat size) ≤ length m)%nat →
  (dst ≤ src ∨ src + length s < dst)%nat →
  strlcpy m (Z.of_nat dst) (Z.of_nat src) size =
    Ok (Z.of_nat (length s),
        if 0 <? size then splice dst (take (Z.to_nat size - 1) s ++ [0]) m else m).
Proof.
  intros Hm Hd Hs Hsz Hl Hds. pose proof Hs as (Hs0 & _). unfold strlcpy.
  rewrite (proj2 (Z.eqb_neq (Z.of_nat dst) NULL)) by (unfold NULL; lia).
  rewrite (cstr_valid _ _ _ Hs). run. rewrite (strlen_spec _ _ _ Hs). run.
  destruct (Z.ltb_spec 0 size); [|done].
  set (n := Nat.min (Z.to_nat size - 1) (length s)).
  replace (if Z.of_nat (length s) <? size - 1 then _ else _) with (Z.of_nat n)
    by (unfold n; case_match; bool_props; lia).
  pose proof (cstr_walk _ _ _ Hs) as [_ Hw].
  destruct (memcpy_poke m dst src n) as (m1 & -> & Hp); [done|lia..|].
  run. rewrite Hp. run. do 4 f_equal.
  rewrite <- (Nat2Z.id src), (cstr_slice m (Z.of_nat src) s n) by (done || lia).
  unfold n. destruct (decide (Z.to_nat size - 1 ≤ length s)%nat).
  - by rewrite Nat.min_l by lia.
  - rewrite Nat.min_r, !take_ge by lia. done.
Qed.

(** [memmove] copies the block as it was, however source and destination
    overlap, and changes nothing else; what it returns is the end of the
    destination when it copied upwards, not its start. *)
Lemma memmove_overlap m (dst src n : nat) :
  Forall in_u8 m → (0 < dst)%nat → (0 < src)%nat →
  (dst + n ≤ length m)%nat → (src + n ≤ length m)%nat →
  memmove m (Z.of_nat dst) (Z.of_nat src) (Z.of_nat n) =
    Ok (if (dst <? src)%nat then Z.of_nat (dst + n) else Z.of_nat dst,
        splice dst (slice src n m) m).
Proof.
  intros Hm Hd Hs Hdl Hsl. unfold memmove, valid, NULL.
  rewrite (proj2 (Z.eqb_neq (Z.of_nat dst) 0)), (proj2 (Z.eqb_neq (Z.of_nat src) 0)) by lia. run.
  rewrite Nat2Z.id. destruct (Z.ltb_spec (Z.of_nat dst) (Z.of_nat src)), (Nat.ltb_spec dst src); try lia.
  - rewrite copy_up_spec by (done || lia). run. do 2 f_equal. lia.
  - rewrite <- !Nat2Z.inj_add, copy_down_spec by (done || lia). done.
Qed.

(** ** Searching a string in a string *)

Lemma memcmp_loop_spec n m (a b : nat) :
  (a + n ≤ length m)%nat → (b + n ≤ length m)%nat →
  ∃ r, memcmp_loop n m (Z.of_nat a) (Z.of_nat b) = Ok r ∧ (r = 0 ↔ slice a n m = slice b n m).
Proof.
  revert a b. induction n as [|n IH]; intros a b Ha Hb; cbn [memcmp_loop]; [by exists 0|].
  destruct (lookup_lt_is_Some_2 m a) as [x Hx]; [lia|].
  destruct (lookup_lt_is_Some_2 m b) as [y Hy]; [lia|].
  rewrite (load_of_nat _ _ _ Hx), (load_of_nat _ _ _ Hy), (slice_cons _ _ _ x), (slice_cons _ _ _ y) by done.
  run. destruct (Z.eqb_spec x y) as [->|].
  - run. replace (Z.of_nat a + 1) with (Z.of_nat (S a)) by lia.
    replace (Z.of_nat b + 1) with (Z.of_nat (S b)) by lia.
    destruct (IH (S a) (S b)) as (r & -> & Hr); [lia..|]. exists r. split; [done|].
    rewrite Hr. split; [by intros ->|by intros [= ->]].
  - run. eexists. split; [done|]. case_match; (split; [done|by intros [= ?]]).
Qed.

(** [t] occurs in [s] at position [i]. *)
Definition occurs (s t : list Z) (i : nat) : Prop := (i + length t ≤ length s)%nat ∧ slice i (length t) s = t.

Lemma slice_cstr m (a : nat) s i n :
  cstr m (Z.of_nat a) s → (i + n ≤ length s)%nat → slice (a + i) n m = slice i n s.
Proof.
  intros Hs Hl. apply list_eq. intros j. destruct (decide (j < n)%nat).
  - rewrite !lookup_slice by lia. destruct (lookup_lt_is_Some_2 s (i + j)%nat) as [c Hc]; [lia|].
    rewrite Hc. rewrite <- (Nat2Z.id a), <- Nat.add_assoc. eapply cstr_lookup; [done|].
    rewrite lookup_app_l by lia. done.
  - rewrite !lookup_slice_ge by lia. done.
Qed.

Lemma strstr_loop_spec n m (h d : nat) s t i :
  cstr m (Z.of_nat h) s → cstr m (Z.of_nat d) t → (i + n + length t = S (length s))%nat →
  ∃ p, strstr_loop n m (Z.of_nat h) (Z.of_nat d) (Z.of_nat (length t)) (Z.of_nat i) = Ok p ∧
    ((p = NULL ∧ ∀ j, (i ≤ j)%nat → ¬ occurs s t j) ∨
     (∃ j, p = Z.of_nat (h + j) ∧ occurs s t j ∧ ∀ k, (i ≤ k < j)%nat → ¬ occurs s t k)).
Proof.
  intros Hs Ht. revert i. induction n as [|n IH]; intros i Hn; cbn [strstr_loop].
  { exists NULL. split; [done|]. left. split; [done|]. intros j Hj [? _]. lia. }
  pose proof (cstr_walk _ _ _ Hs) as [_ Hws]. pose proof (cstr_walk _ _ _ Ht) as [_ Hwt].
  destruct Hs as (Hh & Hs'). destruct Ht as (Hd & Ht').
  destruct (memcmp_loop_spec (length t) m (h + i) d) as (r & Hr & Hz); [lia..|].
  unfold memcmp, valid, NULL.
  rewrite (proj2 (Z.eqb_neq (Z.of_nat h + _) 0)), (proj2 (Z.eqb_neq (Z.of_nat d) 0)) by lia. run.
  rewrite Nat2Z.id, <- Nat2Z.inj_add, Hr. run.
  rewrite (slice_cstr m h s i), <- (Nat.add_0_r d), (slice_cstr m d t 0), slice_full in Hz
    by (done || lia).
  destruct (Z.eqb_spec r 0) as [->|Hne].
  - exists (Z.of_nat (h + i)). split; [done|]. right. exists i. split; [done|].
    split; [split; [lia|by apply Hz]|]. intros; lia.
  - replace (Z.of_nat i + 1) with (Z.of_nat (S i)) by lia.
    destruct (IH (S i)) as (p & Hp & Hcase); [lia|]. exists p. split; [exact Hp|].
    assert (¬ occurs s t i) as Hni by (intros [_ Ho]; by apply Hne, Hz).
    destruct Hcase as [[-> Hno]|(j & -> & Ho & Hno)]; [left|right].
    + split; [done|]. intros j Hj. destruct (decide (j = i)) as [->|]; [done|]. apply Hno. lia.
    + exists j. split; [done|]. split; [done|]. intros k Hk.
      destruct (decide (k = i)) as [->|]; [done|]. apply Hno. lia.
Qed.

(** [strstr] finds the first place where the needle occurs in the haystack,
    and returns null exactly when there is none. *)
Lemma strstr_first m (haystack needle : nat) s t :
  cstr m (Z.of_nat haystack) s → cstr m (Z.of_nat needle) t →
  ∃ p, strstr m (Z.of_nat haystack) (Z.of_nat needle) = Ok p ∧
    ((p = NULL ∧ ∀ j, ¬ occurs s t j) ∨
     (∃ j, p = Z.of_nat (haystack + j) ∧ occurs s t j ∧ ∀ k, (k < j)%nat → ¬ occurs s t k)).
Proof.
  intros Hs Ht. unfold strstr. rewrite (strlen_spec _ _ _ Hs), (strlen_spec _ _ _ Ht). run.
  destruct (Z.leb_spec (Z.of_nat (length t)) (Z.of_nat (length s))).
  - destruct (strstr_loop_spec (Z.to_nat (Z.of_nat (length s) - Z.of_nat (length t) + 1)) m
      haystack needle s t 0) as (p & Hp & Hc); [done..|lia|].
    exists p. split; [exact Hp|]. destruct Hc as [[? Hno]|(j & ? & ? & Hno)]; [left|right].
    + split; [done|]. intros j. apply Hno. lia.
    + exists j. split; [done|]. split; [done|]. intros k Hk. apply Hno. lia.
  - exists NULL. split; [done|]. left. split; [done|]. intros j [? _]. lia.
Qed.

(** ** Tokens *)

Fixpoint lstrip (ds s : list Z) : list Z :=
  match s with [] => [] | c :: s' => if decide (c ∈ ds) then lstrip ds s' else s end.
Fixpoint tok (ds s : list Z) : list Z :=
  match s with [] => [] | c :: s => if decide (c ∈ ds) then [] else c :: tok ds s end.

(** The fields of a string between delimiters, and those that are not
    empty. *)
Fixpoint split_on (ds s : list Z) : list (list Z) :=
  match s with
  | [] => [[]]
  | c :: s =>
      if decide (c ∈ ds) then [] :: split_on ds s
      else match split_on ds s with f :: fs => (c :: f) :: fs | [] => [[c]] end
  end.
Definition tokens (ds s : list Z) : list (list Z) := filter (λ f, f ≠ []) (split_on ds s).

Lemma tokens_lstrip ds s : tokens ds (lstrip ds s) = tokens ds s.
Proof.
  induction s as [|c s IH]; [done|]. cbn [lstrip]. case_decide; [|done].
  rewrite IH. unfold tokens. simpl. by rewrite decide_True.
Qed.

Lemma split_on_tok ds s : split_on ds s = tok ds s ::
  match drop (length (tok ds s)) s with [] => [] | _ :: rest => split_on ds rest end.
Proof.
  induction s as [|c s IH]; [done|]. simpl. case_decide; [done|]. by rewrite IH.
Qed.

Lemma tokens_step ds s :
  tokens ds s = match lstrip ds s with
                | [] => []
                | _ => tok ds (lstrip ds s) ::
                       match drop (length (tok ds (lstrip ds s))) (lstrip ds s) with
                       | [] => [] | _ :: rest => tokens ds rest end
                end.
Proof.
  rewrite <- tokens_lstrip. destruct (lstrip ds s) as [|c r] eqn:E; [done|].
  assert (c ∉ ds) as Hc.
  { clear -E. revert E. induction s as [|x s IH]; simpl; [done|]. case_decide; [auto|].
    by intros [= -> ->]. }
  unfold tokens at 1. rewrite split_on_tok. simpl. rewrite decide_False by done.
  rewrite filter_cons_True by done. f_equal. simpl. by destruct (drop _ r).
Qed.

Lemma tok_split ds s : s = tok ds s ++ drop (length (tok ds s)) s.
Proof. induction s as [|c s IH]; simpl; [done|]. case_decide; [done|]. simpl. by f_equal. Qed.
Lemma lstrip_suffix ds s : ∃ p, s = p ++ lstrip ds s.
Proof.
  induction s as [|c s [p Hp]]; simpl; [by exists []|]. case_decide; [|by exists []].
  exists (c :: p). simpl. by f_equal.
Qed.

Section strtok.
Context (d : Z) (ds : list Z).

Lemma skip_delims_spec fuel m a s :
  Forall in_u8 m → cstr m d ds → cstr m a s → (length s < fuel)%nat →
  let r := lstrip ds s in let b := a + Z.of_nat (length s - length r) in
  skip_delims fuel m a d = Ok (match r with [] => None | _ => Some b end, b).
Proof.
  intros Hm Hd. revert a s. induction fuel as [|fuel IH]; intros a s Hs Hf; [lia|].
  cbn [skip_delims]. destruct s as [|c s].
  - rewrite (cstr_nil _ _ Hs). run.
    destruct (strchr_mem m d ds 0) as (p & -> & Hp); [done|unfold in_u8; lia|].
    rewrite orb_true_r in Hp. run. rewrite Hp. simpl. by rewrite Z.add_0_r.
  - apply cstr_cons in Hs as (Hl & Hc & Hs). rewrite Hl. run.
    destruct (strchr_mem m d ds c) as (p & -> & Hp); [done|by eapply load_u8|].
    rewrite (proj2 (Z.eqb_neq c 0)), orb_false_r in Hp by done. run. rewrite Hp. simpl.
    destruct (lstrip_suffix ds s) as [q Hq].
    case_decide as Hin.
    + rewrite bool_decide_eq_true_2 by done. run. rewrite (proj2 (Z.eqb_neq c 0)) by done.
      simpl in Hf. rewrite (IH (a + 1) s) by (done || lia).
      assert (length (lstrip ds s) ≤ length s)%nat by (rewrite Hq at 2; rewrite length_app; lia).
      replace (a + 1 + _) with (a + Z.of_nat (S (length s) - length (lstrip ds s))) by lia. done.
    + rewrite bool_decide_eq_false_2 by done. run. simpl. rewrite Nat.sub_diag, Z.add_0_r. done.
Qed.

Lemma skip_token_spec fuel m a s :
  Forall in_u8 m → cstr m d ds → cstr m a s → (length s < fuel)%nat →
  skip_token fuel m a d = Ok (a + Z.of_nat (length (tok ds s))).
Proof.
  intros Hm Hd. revert a s. induction fuel as [|fuel IH]; intros a s Hs Hf; [lia|].
  cbn [skip_token]. destruct s as [|c s].
  - rewrite (cstr_nil _ _ Hs). run.
    destruct (strchr_mem m d ds 0) as (p & -> & Hp); [done|unfold in_u8; lia|].
    rewrite orb_true_r in Hp. run. rewrite Hp. simpl. by rewrite Z.add_0_r.
  - apply cstr_cons in Hs as (Hl & Hc & Hs). rewrite Hl. run.
    destruct (strchr_mem m d ds c) as (p & -> & Hp); [done|by eapply load_u8|].
    rewrite (proj2 (Z.eqb_neq c 0)), orb_false_r in Hp by done. run. rewrite Hp. simpl. case_decide.
    + rewrite bool_decide_eq_true_2 by done. simpl. by rewrite Z.add_0_r.
    + rewrite bool_decide_eq_false_2 by done. simpl in *. rewrite (IH (a + 1) s) by (done || lia).
      f_equal. lia.
Qed.
End strtok.

(** The use of [strtok_r] the sources make: the string first, then a null
    pointer until no token is left. *)
Fixpoint tok_all (n : nat) (m : mem) (s delims save_ptr : Z) : res (list Z * mem) :=
  match n with
  | O => Err EFuel
  | S n =>
      '(r, m) ← strtok_r m s delims save_ptr;
      let '(token, save_ptr) := (r : Z * Z) in
      if token =? NULL then Ok ([], m)
      else '(l, m) ← tok_all n m NULL delims save_ptr; Ok (token :: l, m)
  end.

(** [m'] differs from [m] at most in the addresses from [a] to before [b]. *)
Definition same_outside (m m' : mem) (a b : Z) : Prop :=
  length m' = length m ∧ Forall in_u8 m' ∧ ∀ x, x < a ∨ b ≤ x → load m' x = load m x.

Lemma cstr_same m m' a b p s :
  same_outside m m' a b → cstr m p s →
  (∀ i, (i ≤ length s)%nat → p + Z.of_nat i < a ∨ b ≤ p + Z.of_nat i) → cstr m' p s.
Proof.
  intros (_ & _ & Hx) (Hp & Hf & Hl) Hd. split_and!; [done..|]. intros i c Hi.
  rewrite Hx; [by apply Hl|]. apply lookup_lt_Some in Hi. rewrite length_app in Hi. simpl in Hi.
  apply Hd. lia.
Qed.

Lemma poke_same m p c :
  Forall in_u8 m → load m p = Ok c →
  ∃ m', poke m p 0 = Ok m' ∧ same_outside m m' p (p + 1) ∧ load m' p = Ok 0.
Proof.
  intros Hm Hl. pose proof Hl as [H0 Hp]%load_ok. unfold poke. rewrite Hl. run.
  eexists. split; [done|]. split; [split; [apply length_insert|split]|].
  - apply Forall_insert; [done|]. apply u8_range.
  - intros x Hx. unfold load. destruct (Z.ltb_spec x 0); [done|].
    by rewrite list_lookup_insert_ne by lia.
  - apply load_ok. split; [done|]. rewrite list_lookup_insert_eq; [done|]. by eapply lookup_lt_Some.
Qed.

(** One call that finds a token. *)
Lemma strtok_r_spec m s save d ds str r :
  Forall in_u8 m → cstr m d ds → (let p := if s =? NULL then save else s in cstr m p str) →
  r = lstrip ds str → r ≠ [] →
  let p := if s =? NULL then save else s in
  let a := p + Z.of_nat (length str - length r) in
  let e := a + Z.of_nat (length (tok ds r)) in
  ∃ m', strtok_r m s d save =
      Ok ((a, match drop (length (tok ds r)) r with [] => e | _ => e + 1 end), m') ∧
    same_outside m m' e (e + 1) ∧ cstr m' a (tok ds r) ∧ cstr m a r ∧ a + Z.of_nat (length r) = p + Z.of_nat (length str).
Proof.
  intros Hm Hd Hp Er Hr p a e. simpl in Hp. fold p in Hp.
  destruct (lstrip_suffix ds str) as [q Hq]. rewrite <- Er in Hq.
  assert (length str - length r = length q)%nat as Hql by (rewrite Hq, length_app; lia).
  assert (length r ≤ length str)%nat as Hrl by (rewrite Hq, length_app; lia).
  assert (cstr m a r) as Ha by (unfold a; rewrite Hql; rewrite Hq in Hp; by apply cstr_app).
  pose proof (cstr_walk _ _ _ Hp) as [Hw _]. pose proof (cstr_walk _ _ _ Ha) as [Hwa _].
  unfold strtok_r. rewrite (cstr_valid _ _ _ Hd). fold p. rewrite (cstr_valid _ _ _ Hp). run.
  rewrite (skip_delims_spec d ds (walk m) m p str) by done. rewrite <- Er. run. fold a.
  replace (match r with [] => None | _ :: _ => Some a end) with (Some a) by by destruct r.
  rewrite (skip_token_spec d ds (walk m) m a r) by done. run. fold e.
  pose proof (tok_split ds r) as Hsplit. set (t := tok ds r) in *.
  set (rest := drop (length t) r) in *.
  assert (cstr m a (t ++ rest)) as Ha2 by (by rewrite <- Hsplit).
  pose proof (cstr_app _ _ _ _ Ha2) as He. fold e in He.
  assert (Forall (λ c, c ≠ 0) t) as Hft.
  { destruct Ha as (_ & Hf & _). rewrite Hsplit in Hf. by apply Forall_app in Hf as [? _]. }
  assert (∀ i c, t !! i = Some c → load m (a + Z.of_nat i) = Ok c) as Hlt.
  { intros i c Hi. destruct Ha as (_ & _ & Hl). apply Hl.
    assert (i < length t)%nat by by eapply lookup_lt_Some.
    rewrite Hsplit, <- app_assoc, lookup_app_l by done. done. }
  destruct rest as [|c rest'].
  - rewrite (cstr_nil _ _ He). run. exists m. split; [reflexivity|].
    split; [by split_and!|]. rewrite app_nil_r in Ha2. split; [done|]. split; [done|]. unfold a. lia.
  - apply cstr_cons in He as (Hl & Hc & _). rewrite Hl. run.
    rewrite (proj2 (Z.eqb_neq c 0)) by done. run.
    fold e in Hl |- *. destruct (poke_same m e c Hm Hl) as (m' & Hpk & Hso & Hz).
    fold e in Hpk. rewrite Hpk. run. exists m'. split; [reflexivity|].
    split; [done|]. split; [|split; [done|unfold a; lia]].
    split_and!; [apply Ha|done|]. intros i x Hi.
    destruct (decide (i < length t)%nat).
    + rewrite lookup_app_l in Hi by done. destruct Hso as (_ & _ & Hx). rewrite Hx by (unfold e; lia). auto.
    + rewrite lookup_app_r in Hi by lia. destruct (i - length t)%nat eqn:Ei; [|done].
      injection Hi as <-. replace (a + Z.of_nat i) with e by (unfold e; lia). done.
Qed.

Lemma strtok_r_none m s save d ds str :
  Forall in_u8 m → cstr m d ds → (let p := if s =? NULL then save else s in cstr m p str) →
  lstrip ds str = [] →
  ∃ e, strtok_r m s d save = Ok ((NULL, e), m).
Proof.
  intros Hm Hd Hp Er. simpl in Hp. set (p := if s =? NULL then save else s) in *.
  unfold strtok_r. rewrite (cstr_valid _ _ _ Hd). fold p. rewrite (cstr_valid _ _ _ Hp). run.
  pose proof (cstr_walk _ _ _ Hp) as [Hw _].
  rewrite (skip_delims_spec d ds (walk m) m p str) by done. rewrite Er. run. eauto.
Qed.

(** A call either finds no token, or the first one, and leaves the rest of the
    string to the next call; it writes at most behind the token. *)
Lemma strtok_r_step m s save d ds str :
  Forall in_u8 m → cstr m d ds →
  let p := if s =? NULL then save else s in
  cstr m p str → d + Z.of_nat (length ds) < p ∨ p + Z.of_nat (length str) < d →
  (tokens ds str = [] ∧ ∃ e, strtok_r m s d save = Ok ((NULL, e), m)) ∨
  ∃ t ts a save' str' m', tokens ds str = t :: ts ∧ strtok_r m s d save = Ok ((a, save'), m') ∧
    cstr m' a t ∧ cstr m' d ds ∧ cstr m' save' str' ∧ tokens ds str' = ts ∧ p ≤ a ∧
    (a + Z.of_nat (length t) = save' ∧ str' = [] ∨ a + Z.of_nat (length t) < save') ∧
    save' + Z.of_nat (length str') = p + Z.of_nat (length str) ∧ (length str' < length str)%nat ∧
    a = p + Z.of_nat (length str - length (lstrip ds str)) ∧ same_outside m m' (a + Z.of_nat (length t)) save'.
Proof.
  intros Hm Hd p Hp Hsep. rewrite tokens_step. destruct (lstrip ds str) as [|c0 r0] eqn:Er.
  { left. split; [done|]. by apply (strtok_r_none m s save d ds str). }
  right. rewrite <- Er. set (r := lstrip ds str) in *.
  destruct (strtok_r_spec m s save d ds str r) as (m1 & Hrun & Hso & Ht & Ha & Hend);
    [done..|by rewrite Er|].
  fold p in Hrun, Hso, Ht, Ha, Hend.
  set (a := p + Z.of_nat (length str - length r)) in *.
  set (t := tok ds r) in *. set (e := a + Z.of_nat (length t)) in *.
  pose proof (tok_split ds r) as Hsplit. fold t in Hsplit.
  assert (length r = length t + length (drop (length t) r))%nat as Hrl
    by (rewrite Hsplit at 1; by rewrite length_app).
  assert (1 ≤ length t)%nat as Ht1.
  { unfold t. rewrite Er. simpl. rewrite decide_False; [simpl; lia|].
    clear -Er. subst r. revert Er. induction str as [|x s IH]; simpl; [done|]. case_decide; [auto|].
    by intros [= -> ->]. }
  assert (p ≤ a) by (unfold a; lia).
  assert (cstr m1 d ds) as Hd1 by (eapply cstr_same; [done..|unfold e; intros; lia]).
  assert (0 < e) as He0 by (destruct Ha; unfold e; lia).
  assert (cstr m e (drop (length t) r)) as Hrest by (apply cstr_app; by rewrite <- Hsplit).
  exists t, (match drop (length t) r with [] => [] | _ :: rest => tokens ds rest end), a.
  destruct (drop (length t) r) as [|c rest]; simpl in *.
  - exists e, [], m1. cbn [length]. split_and!; try done; try (by left); try (unfold e in *; lia).
    + split_and!; [done|done|]. intros [|i] x; simpl; [|done]. intros [= <-]. rewrite Z.add_0_r. by apply cstr_end in Ht.
    + destruct Hso as (HL & H8 & Hx). split_and!; [done|done|]. intros x _. destruct (decide (x = e)) as [->|]; [|apply Hx; lia].
      rewrite (cstr_nil _ _ Hrest). exact (cstr_end _ _ _ Ht).
  - apply cstr_cons in Hrest as (_ & _ & Hrest). exists (e + 1), rest, m1.
    split_and!; try done; try (right; unfold e; lia); try (unfold e in *; lia).
    eapply cstr_same; [done..|intros; lia].
Qed.

Lemma tok_all_spec n m s save d ds str :
  (length str < n)%nat → Forall in_u8 m → cstr m d ds →
  let p := if s =? NULL then save else s in
  cstr m p str → d + Z.of_nat (length ds) < p ∨ p + Z.of_nat (length str) < d →
  ∃ l m', tok_all n m s d save = Ok (l, m') ∧ Forall2 (cstr m') l (tokens ds str) ∧
    same_outside m m' p (p + Z.of_nat (length str)).
Proof.
  revert m s save str. induction n as [|n IH]; intros m s save str Hn Hm Hd p Hp Hsep; [lia|].
  cbn [tok_all]. destruct (strtok_r_step m s save d ds str) as
    [[-> (e & ->)]|(t & ts & a & save' & str' & m1 & -> & -> & Ht & Hd1 & Hs' & Htok & Hpa & Hsv & Hlen & Hlt & _ & Hso)]; [done..| |].
  { run. exists [], m. split; [done|]. split; [constructor|]. by split_and!. }
  fold p in Hpa, Hlen. run. rewrite (cstr_valid _ _ _ Ht).
  destruct (IH m1 NULL save' str') as (l & m2 & -> & Hl & Hso2); [lia|apply Hso|done|done|simpl; lia|].
  run. exists (a :: l), m2. split; [done|]. cbn [Z.eqb NULL] in *. split.
  - rewrite <- Htok. constructor; [|done]. eapply cstr_same; [exact Hso2|done|]. intros i Hi.
    destruct Hsv as [[<- ->]|?]; simpl; lia.
  - destruct Hso as (HL1 & _ & Hx1), Hso2 as (HL2 & Hm2 & Hx2). split_and!; [congruence|done|].
    intros x Hx. rewrite Hx2, Hx1; [done|lia|]. destruct Hsv as [[<- ->]|?]; simpl in *; lia.
Qed.

(** Walking a string with [strtok_r] yields, as strings in the modified
    memory, exactly its non-empty fields between delimiters, in order, and
    writes nothing outside the string. *)
Lemma strtok_r_tokens m s d ds str :
  Forall in_u8 m → cstr m s str → cstr m d ds →
  d + Z.of_nat (length ds) < s ∨ s + Z.of_nat (length str) < d →
  ∃ l m', tok_all (S (length str)) m s d NULL = Ok (l, m') ∧ Forall2 (cstr m') l (tokens ds str) ∧
    same_outside m m' s (s + Z.of_nat (length str)).
Proof.
  intros Hm Hs Hd Hsep. pose proof (tok_all_spec (S (length str)) m s NULL d ds str) as Hall.
  rewrite (cstr_valid _ _ _ Hs) in Hall. apply Hall; done || lia.
Qed.

(** ** Witnesses *)

(** ["/usr//bin"] at 1, ["/"] at 20, ["usr"] at 30. *)
Definition sample_mem : mem :=
  [0; 47; 117; 115; 114; 47; 47; 98; 105; 110; 0; 0; 0; 0; 0; 0; 0; 0; 0; 0;
   47; 0; 0; 0; 0; 0; 0; 0; 0; 0; 117; 115; 114; 0; 0; 0].

Lemma sample_mem_u8 : Forall in_u8 sample_mem.
Proof. unfold sample_mem. repeat (constructor; [unfold in_u8; lia|]). constructor. Qed.

Lemma cstr_intro m a s :
  0 < a → Forall (λ c, c ≠ 0) s → slice (Z.to_nat a) (S (length s)) m = s ++ [0] → cstr m a s.
Proof.
  intros Ha Hs Hl. split_and!; [done..|]. intros i c Hi.
  assert (i < S (length s))%nat by (apply lookup_lt_Some in Hi; rewrite length_app in Hi; simpl in Hi; lia).
  rewrite <- Hl, lookup_slice in Hi by done. apply load_ok. split; [lia|].
  by replace (Z.to_nat (a + Z.of_nat i)) with (Z.to_nat a + i)%nat by lia.
Qed.

(** Finds a string in a concrete memory. *)
Ltac find_cstr :=
  apply cstr_intro; [lia|repeat (constructor; [lia|]); constructor|reflexivity].

End CString.
