(* ===== verification/Arithmetic.v ===== *)
(** * lib/arithmetic.c

    64-bit division built from the x86 [divl] instruction, which divides a
    64-bit number by a 32-bit one and traps ([EFault]) when the divisor is zero
    or the quotient does not fit 32 bits. *)

From S2P Require Import Prelude.

Module Arithmetic.

Definition divl (n d : Z) : res Z :=
  if (d =? 0) || (W32 <=? n / d) then Err EFault else Ok (n / d).

(** One step of the binary search for the leading one. *)
Definition nlz_step (limit k : Z) (nx : Z * Z) : Z * Z :=
  let '(n, x) := nx in if x <=? limit then (n + k, u32 (Z.shiftl x k)) else (n, x).

Definition nlz (x : Z) : Z :=
  let '(n, x) :=
    nlz_step 1073741823 2 (nlz_step 268435455 4
      (nlz_step 16777215 8 (nlz_step 65535 16 (0, x)))) in
  if x <=? 2147483647 then n + 1 else n.

Definition udiv64 (n d : Z) : res Z :=
  if Z.shiftr d 32 =? 0 then
    let n1 := u32 (Z.shiftr n 32) in
    let n0 := u32 n in
    let d0 := u32 d in
    if d0 =? 0 then Err EFault
    else
      q ← divl (u64 (u64 (W32 * (n1 mod d0)) + n0)) d0;
      Ok (u64 (q + u64 (W32 * (n1 / d0))))
  else if n <? d then Ok 0
  else
    let d1 := u32 (Z.shiftr d 32) in
    let s := nlz d1 in
    q ← divl (Z.shiftr n 1) (u32 (Z.shiftr (u64 (Z.shiftl d s)) 32));
    let q := Z.shiftr q (31 - s) in
    Ok (if u64 (n - u64 (u64 (q - 1) * d)) <? d then u64 (q - 1) else q).

Definition umod64 (n d : Z) : res Z :=
  q ← udiv64 n d; Ok (u32 (u64 (n - u64 (d * q)))).

Definition sdiv64 (n d : Z) : res Z :=
  let n_abs := if 0 <=? n then u64 n else u64 (- u64 n) in
  let d_abs := if 0 <=? d then u64 d else u64 (- u64 d) in
  q_abs ← udiv64 n_abs d_abs;
  Ok (if Bool.eqb (n <? 0) (d <? 0) then i64 q_abs else i64 (- i64 q_abs)).

Definition smod64 (n d : Z) : res Z :=
  q ← sdiv64 n d; Ok (i32 (i64 (n - i64 (d * q)))).

Definition divdi3 (n d : Z) : res Z := sdiv64 n d.
Definition moddi3 (n d : Z) : res Z := smod64 n d.
Definition udivdi3 (n d : Z) : res Z := udiv64 n d.
Definition umoddi3 (n d : Z) : res Z := umod64 n d.

(** ** Counting leading zeros *)

Lemma nlz_step_spec limit k n x :
  0 < k → 0 ≤ n → 0 < x < W32 → (limit + 1) * 2 ^ k = W32 → limit < x * 2 ^ k →
  ∃ j, (j = 0 ∨ j = k) ∧ nlz_step limit k (n, x) = (n + j, x * 2 ^ j) ∧ limit < x * 2 ^ j < W32.
Proof.
  intros Hk Hn Hx Hl Hlo. unfold nlz_step. destruct (Z.leb_spec x limit).
  - exists k. split; [by right|]. rewrite Z.shiftl_mul_pow2, u32_small by (unfold in_u32; nia).
    split; [done|]. split; [done|]. assert (0 < 2 ^ k) by lia. nia.
  - exists 0. split; [by left|]. rewrite Z.add_0_r, Z.pow_0_r, Z.mul_1_r. split; [done|lia].
Qed.

Lemma nlz_spec x : 0 < x < W32 → 0 ≤ nlz x ≤ 31 ∧ W31 ≤ x * 2 ^ nlz x < W32.
Proof.
  intros Hx. unfold nlz.
  destruct (nlz_step_spec 65535 16 0 x) as (j1 & Hj1 & -> & ?); [lia..|].
  destruct (nlz_step_spec 16777215 8 (0 + j1) (x * 2 ^ j1)) as (j2 & Hj2 & -> & ?); [lia..|].
  destruct (nlz_step_spec 268435455 4 (0 + j1 + j2) (x * 2 ^ j1 * 2 ^ j2)) as (j3 & Hj3 & -> & ?); [lia..|].
  destruct (nlz_step_spec 1073741823 2 (0 + j1 + j2 + j3) (x * 2 ^ j1 * 2 ^ j2 * 2 ^ j3))
    as (j4 & Hj4 & -> & ?); [lia..|].
  assert (0 ≤ j1 + j2 + j3 + j4 ≤ 30) by lia.
  assert (x * 2 ^ j1 * 2 ^ j2 * 2 ^ j3 * 2 ^ j4 = x * 2 ^ (j1 + j2 + j3 + j4)) as E.
  { rewrite !Z.pow_add_r by lia. ring. }
  rewrite E in *. rewrite Z.add_0_l. destruct (Z.leb_spec (x * 2 ^ (j1 + j2 + j3 + j4)) 2147483647).
  - split; [lia|]. rewrite Z.pow_add_r by lia. change (2 ^ 1) with 2. nia.
  - split; [lia|]. nia.
Qed.

(** ** Division *)

Lemma divl_ok n d : 0 < d → n / d < W32 → divl n d = Ok (n / d).
Proof.
  intros Hd Hq. unfold divl. rewrite (proj2 (Z.eqb_neq d 0)), (proj2 (Z.leb_gt _ _)) by lia. done.
Qed.

(** The divisor fits 32 bits. *)
Lemma udiv64_short n d : in_u64 n → 0 < d < W32 → udiv64 n d = Ok (n / d).
Proof.
  intros Hn Hd. unfold udiv64, in_u64 in *. rewrite !Z.shiftr_div_pow2 by lia.
  change (2 ^ 32) with W32.
  rewrite (Z.div_small d) by lia. cbn [Z.eqb].
  rewrite (u32_small d), (u32_small (n / W32)) by (unfold in_u32; dlia).
  rewrite (proj2 (Z.eqb_neq d 0)) by lia. unfold u32.
  set (n1 := n / W32). set (n0 := n mod W32).
  assert (n = W32 * n1 + n0 ∧ 0 ≤ n0 < W32 ∧ 0 ≤ n1 < W32) as (En & ? & ?) by (unfold n1, n0; dlia).
  pose proof (Z.mod_pos_bound n1 d ltac:(lia)). pose proof (Z.div_mod n1 d ltac:(lia)) as E1.
  assert (0 ≤ n1 / d < W32) by (split; [apply Z.div_pos; lia|]; apply Z.div_lt_upper_bound; nia).
  rewrite (u64_small (W32 * (n1 mod d))) by (unfold in_u64; lia).
  rewrite (u64_small (W32 * (n1 mod d) + n0)) by (unfold in_u64; lia).
  assert ((W32 * (n1 mod d) + n0) / d < W32) as Hq by (apply Z.div_lt_upper_bound; nia).
  rewrite divl_ok by (done || lia). simpl.
  assert (0 ≤ (W32 * (n1 mod d) + n0) / d) by (apply Z.div_pos; lia).
  rewrite (u64_small (W32 * (n1 / d))) by (unfold in_u64; lia).
  assert (n / d = (W32 * (n1 mod d) + n0) / d + W32 * (n1 / d)) as ->.
  { rewrite En. rewrite E1 at 1.
    replace (W32 * (d * (n1 / d) + n1 mod d) + n0)
      with (W32 * (n1 mod d) + n0 + (W32 * (n1 / d)) * d) by ring.
    rewrite Z.div_add by lia. ring. }
  rewrite u64_small; [done|]. unfold in_u64. nia.
Qed.

(** The estimate of the quotient by the leading 32 bits of the divisor is at
    most one too large: [A] is [2^s], [B] is [2^(31-s)]. *)
Lemma quotient_estimate n d A B :
  0 ≤ n < W64 → 0 < A → 0 < B → A * B = W31 → W63 ≤ d * A < W64 →
  let dd := d * A / W32 in
  W31 ≤ dd < W32 ∧ n / d ≤ n / (dd * (2 * B)) ≤ n / d + 1.
Proof.
  intros Hn HA HB HAB Hd dd.
  assert (W31 ≤ dd < W32) as Hdd.
  { unfold dd. split; [apply Z.div_le_lower_bound; lia|apply Z.div_lt_upper_bound; lia]. }
  split; [done|].
  pose proof (Z.div_mod (d * A) W32 ltac:(lia)) as E. fold dd in E.
  pose proof (Z.mod_pos_bound (d * A) W32 ltac:(lia)) as Hr. set (r := d * A mod W32) in *.
  set (D := dd * (2 * B)).
  assert (D * A = W32 * dd) as HDA by (unfold D; nia).
  assert (D ≤ d) as HDd by nia.
  set (e := d - D). assert (e * A = r) as Her by (unfold e; nia).
  assert (0 ≤ e) by (unfold e; lia). assert (e ≤ 2 * B - 1) as He.
  { assert (e * A < 2 * B * A) by nia. nia. }
  assert (0 < d) by nia. assert (0 < D) by nia.
  pose proof (Z.div_mod n d ltac:(lia)) as En. pose proof (Z.mod_pos_bound n d ltac:(lia)).
  set (q := n / d) in *. assert (0 ≤ q) by (apply Z.div_pos; lia).
  assert (q + 1 ≤ 2 * A) as Hq.
  { assert (q * d < W64) by nia. assert (q * (d * A) < W64 * A) by nia. nia. }
  split.
  - apply Z.div_le_lower_bound; [done|]. nia.
  - apply Z.lt_succ_r. apply Z.div_lt_upper_bound; [done|].
    assert (A ≤ W31) by nia.
    assert ((q + 1) * e ≤ D).
    { assert ((q + 1) * e ≤ 2 * A * (2 * B - 1)) by (apply Z.mul_le_mono_nonneg; lia).
      assert (2 * A * (2 * B - 1) = 2 * W32 - 2 * A) as E2 by lia.
      assert (W63 ≤ D * A) by lia.
      pose proof (Z.square_nonneg (A - W31)).
      assert ((2 * W32 - 2 * A) * A ≤ D * A) as Hmul by lia.
      apply Z.mul_le_mono_pos_r in Hmul; lia. }
    unfold e in *. lia.
Qed.

(** The divisor needs more than 32 bits. *)
Lemma udiv64_long n d : in_u64 n → W32 ≤ d < W64 → udiv64 n d = Ok (n / d).
Proof.
  intros Hn Hd. unfold udiv64, in_u64 in *. rewrite !Z.shiftr_div_pow2 by lia.
  change (2 ^ 32) with W32. change (2 ^ 1) with 2.
  assert (0 < d / W32 < W32) as Hd1 by dlia.
  rewrite (proj2 (Z.eqb_neq (d / W32) 0)) by lia.
  destruct (Z.ltb_spec n d); [by rewrite Z.div_small by lia|].
  rewrite (u32_small (d / W32)) by (unfold in_u32; lia).
  set (d1 := d / W32) in *. destruct (nlz_spec d1 Hd1) as [Hs HA]. set (s := nlz d1) in *.
  assert (0 < 2 ^ s) by lia. assert (0 < 2 ^ (31 - s)) by lia.
  assert (2 ^ s * 2 ^ (31 - s) = W31) as HAB.
  { rewrite <- Z.pow_add_r by lia. by replace (s + (31 - s)) with 31 by lia. }
  assert (W63 ≤ d * 2 ^ s < W64) as HdA.
  { assert (W32 * d1 ≤ d < W32 * (d1 + 1)) by (unfold d1; dlia).
    assert (d1 < 2 * 2 ^ (31 - s)) by nia.
    assert ((d1 + 1) * 2 ^ s ≤ W32) by nia. nia. }
  rewrite Z.shiftl_mul_pow2, u64_small by (unfold in_u64; lia).
  destruct (quotient_estimate n d (2 ^ s) (2 ^ (31 - s))) as [Hdd Hq]; [lia..|].
  set (dd := d * 2 ^ s / W32) in *.
  rewrite (u32_small dd) by (unfold in_u32; lia).
  rewrite divl_ok; [|lia|apply Z.div_lt_upper_bound; dlia]. simpl.
  rewrite Z.shiftr_div_pow2 by lia.
  assert (n / 2 / dd / 2 ^ (31 - s) = n / (dd * (2 * 2 ^ (31 - s)))) as ->.
  { rewrite !Z.div_div by lia. f_equal. ring. }
  set (q := n / (dd * (2 * 2 ^ (31 - s)))) in *.
  pose proof (Z.div_mod n d ltac:(lia)) as E. pose proof (Z.mod_pos_bound n d ltac:(lia)).
  set (q0 := n / d) in *. assert (1 ≤ q0) by (apply Z.div_le_lower_bound; lia).
  assert (q0 < W32) by (apply Z.div_lt_upper_bound; nia).
  rewrite (u64_small (q - 1)) by (unfold in_u64; lia).
  rewrite (u64_small ((q - 1) * d)) by (unfold in_u64; nia).
  rewrite u64_small by (unfold in_u64; nia).
  f_equal. destruct (Z.ltb_spec (n - (q - 1) * d) d); nia.
Qed.

Lemma udiv64_spec n d : in_u64 n → 0 < d < W64 → udiv64 n d = Ok (n / d).
Proof.
  intros Hn Hd. destruct (decide (d < W32)); [apply udiv64_short|apply udiv64_long]; done || lia.
Qed.

Lemma abs_u64 n : in_i64 n → (if 0 <=? n then u64 n else u64 (- u64 n)) = Z.abs n.
Proof.
  unfold in_i64. intros Hn. destruct (Z.leb_spec 0 n).
  - rewrite u64_small by (unfold in_u64; lia). lia.
  - unfold u64. rewrite <- Z.sub_0_l, Zminus_mod_idemp_r, Z.sub_0_l, Z.mod_small; lia.
Qed.

Lemma sdiv64_spec n d : in_i64 n → in_i64 d → d ≠ 0 → sdiv64 n d = Ok (i64 (Z.quot n d)).
Proof.
  intros Hn Hd H0. unfold sdiv64. rewrite !abs_u64 by done.
  rewrite udiv64_spec by (unfold in_u64, in_i64 in *; lia). simpl. f_equal.
  rewrite <- Z.quot_div_nonneg by lia.
  destruct (Z.ltb_spec n 0), (Z.ltb_spec d 0); cbn [Bool.eqb].
  - rewrite !Z.abs_neq, Z.quot_opp_opp by lia. done.
  - rewrite Z.abs_neq, Z.abs_eq, Z.quot_opp_l by lia.
    unfold i64. dlia.
  - rewrite Z.abs_eq, Z.abs_neq, Z.quot_opp_r by lia. unfold i64. dlia.
  - rewrite !Z.abs_eq by lia. done.
Qed.

Lemma i64_wrap x : ∃ k, i64 x = x + k * W64.
Proof. exists (- ((x + W63) / W64)). unfold i64. dlia. Qed.
Lemma i64_add x k : i64 (x + k * W64) = i64 x.
Proof.
  unfold i64. replace (x + k * W64 + W63) with (x + W63 + k * W64) by lia.
  by rewrite Z.mod_add.
Qed.

(** The 64-bit division routines compute truncating division for every
    nonzero divisor: unsigned division is exact, signed division is exact up
    to the one overflowing case, which wraps; none of them traps. *)
Lemma division_correct n d :
  (in_u64 n → 0 < d < W64 → udivdi3 n d = Ok (n / d)) ∧
  (in_i64 n → in_i64 d → d ≠ 0 →
   divdi3 n d = Ok (if decide (n = - W63 ∧ d = -1) then - W63 else Z.quot n d)).
Proof.
  split; [by apply udiv64_spec|]. intros Hn Hd H0. unfold divdi3. rewrite sdiv64_spec by done. f_equal.
  unfold in_i64 in *. case_decide as Hc; [by destruct Hc as [-> ->]|].
  apply i64_small. unfold in_i64.
  pose proof (Z.quot_rem n d H0). pose proof (Z.rem_bound_abs n d H0).
  assert (n = - W63 → d ≠ -1) by naive_solver.
  assert (Z.abs (Z.quot n d) * Z.abs d ≤ Z.abs n).
  { rewrite <- Z.quot_abs by done. rewrite Z.mul_comm. apply Z.mul_quot_le; lia. }
  destruct (decide (Z.abs d = 1)); [|nia].
  assert (d = 1 ∨ d = -1) as [-> | ->] by lia; [rewrite Z.quot_1_r; lia|].
  change (-1) with (- (1)). rewrite Z.quot_opp_r, Z.quot_1_r by lia. lia.
Qed.

(** The remainder routines return only the low 32 bits of the remainder:
    they are right exactly when it fits. *)
Lemma remainder_truncated n d :
  (in_u64 n → 0 < d < W64 → umoddi3 n d = Ok (u32 (n mod d))) ∧
  (in_i64 n → in_i64 d → d ≠ 0 → moddi3 n d = Ok (i32 (Z.rem n d))).
Proof.
  split.
  - intros Hn Hd. unfold umoddi3, umod64. rewrite udiv64_spec by done. simpl. f_equal.
    pose proof (Z.div_mod n d ltac:(lia)). pose proof (Z.mod_pos_bound n d ltac:(lia)).
    unfold in_u64 in *. assert (0 ≤ n / d) by (apply Z.div_pos; lia).
    rewrite (u64_small (d * (n / d))) by (unfold in_u64; nia).
    rewrite u64_small by (unfold in_u64; lia). f_equal. lia.
  - intros Hn Hd H0. unfold moddi3, smod64. rewrite sdiv64_spec by done. simpl. f_equal. f_equal.
    pose proof (Z.quot_rem n d H0). pose proof (Z.rem_bound_abs n d H0).
    assert (i64 (n - i64 (d * i64 (Z.quot n d))) = i64 (Z.rem n d)) as ->.
    { destruct (i64_wrap (Z.quot n d)) as [k1 ->].
      destruct (i64_wrap (d * (Z.quot n d + k1 * W64))) as [k2 ->].
      replace (n - (d * (Z.quot n d + k1 * W64) + k2 * W64)) with (Z.rem n d + (- d * k1 - k2) * W64) by lia.
      apply i64_add. }
    apply i64_small. unfold in_i64 in *. lia.
Qed.

End Arithmetic.
