(* ===== verification/CStdlib.v ===== *)
(** * lib/stdlib.c

    Arrays are byte lists; an element is the block of [size] bytes at its
    1-based index.  The comparison callback is a function of two blocks.  The
    loops of [heapify] and [binary_search] run on the number of elements as
    fuel: the index grows, respectively the range shrinks, with every pass. *)

From S2P Require Import Prelude CString.
Import CString.

Module CStdlib.

(** ** atoi *)

Definition isdigit (c : Z) : bool := (48 <=? c) && (c <=? 57).
Definition isspace (c : Z) : bool :=
  (c =? 32) || (c =? 12) || (c =? 10) || (c =? 13) || (c =? 9) || (c =? 11).

Fixpoint skip_space (fuel : nat) (m : mem) (s : Z) : res Z :=
  match fuel with
  | O => Err EFuel
  | S fuel => c ← load m s; if isspace c then skip_space fuel m (s + 1) else Ok s
  end.

Fixpoint parse_digits (fuel : nat) (m : mem) (s value : Z) : res Z :=
  match fuel with
  | O => Err EFuel
  | S fuel =>
      c ← load m s;
      if isdigit c then parse_digits fuel m (s + 1) (i32 (i32 (value * 10) - (c - 48)))
      else Ok value
  end.

Definition atoi (m : mem) (s : Z) : res Z :=
  assert (negb (s =? NULL));;
  s ← skip_space (walk m) m s;
  c ← load m s;
  let '(negative, s) := if c =? 43 then (false, s + 1) else if c =? 45 then (true, s + 1) else (false, s) in
  value ← parse_digits (walk m) m s 0;
  Ok (if negative then value else i32 (- value)).

(** ** Sorting *)

Section sort.
Variable compare : list Z → list Z → Z.
Variable size : nat.

(** The block with 1-based index [idx]. *)
Definition block_at (array : list Z) (idx : Z) : res (list Z) :=
  if (idx <? 1) || (Z.of_nat (length array) <? idx * Z.of_nat size) then Err EFault
  else Ok (slice (Z.to_nat (idx - 1) * size) size array).

Fixpoint swap_bytes (n : nat) (array : list Z) (a b : nat) : res (list Z) :=
  match n with
  | O => Ok array
  | S n =>
      t ← deref (array !! a);
      u ← deref (array !! b);
      swap_bytes n (<[b := t]> (<[a := u]> array)) (S a) (S b)
  end.

Definition do_swap (array : list Z) (a_idx b_idx : Z) : res (list Z) :=
  swap_bytes size array (Z.to_nat (a_idx - 1) * size) (Z.to_nat (b_idx - 1) * size).

Definition do_compare (array : list Z) (a_idx b_idx : Z) : res Z :=
  a ← block_at array a_idx; b ← block_at array b_idx; Ok (compare a b).

(** [max], or [child] when it is in the heap and larger. *)
Definition larger (array : list Z) (child max cnt : Z) : res Z :=
  if child <=? cnt then
    c ← do_compare array child max; Ok (if 0 <? c then child else max)
  else Ok max.

Fixpoint heapify (fuel : nat) (array : list Z) (i cnt : Z) : res (list Z) :=
  match fuel with
  | O => Err EFuel
  | S fuel =>
      let left := u32 (2 * i) in
      let right := u32 (2 * i + 1) in
      max ← larger array left i cnt;
      max ← larger array right max cnt;
      if max =? i then Ok array
      else array ← do_swap array i max; heapify fuel array max cnt
  end.

(** [for (i = n; i > 0; i--) heapify (array, i, cnt)] *)
Fixpoint build_heap (n : nat) (array : list Z) (cnt : Z) : res (list Z) :=
  match n with
  | O => Ok array
  | S n' => array ← heapify (S (Z.to_nat cnt)) array (Z.of_nat n) cnt; build_heap n' array cnt
  end.

(** [for (i = n; i > 1; i--)] swap the maximum to the end. *)
Fixpoint sort_heap (n : nat) (array : list Z) : res (list Z) :=
  match n with
  | O | S O => Ok array
  | S n' =>
      array ← do_swap array 1 (Z.of_nat n);
      array ← heapify (S n) array 1 (Z.of_nat n');
      sort_heap n' array
  end.

Definition sort (array : list Z) (cnt : Z) : res (list Z) :=
  assert (0 <? Z.of_nat size);;
  array ← build_heap (Z.to_nat (cnt / 2)) array cnt;
  sort_heap (Z.to_nat cnt) array.

(** [qsort] and [bsearch] pass [compare_thunk], which calls [compare]. *)
Definition compare_thunk (a b : list Z) : Z := compare a b.

(** ** Searching *)

Fixpoint search_loop (fuel : nat) (key array : list Z) (first last : Z) : res (option Z) :=
  if first <? last then
    match fuel with
    | O => Err EFuel
    | S fuel =>
        let range := (last - first) / Z.of_nat size in
        let middle := first + range / 2 * Z.of_nat size in
        let cmp := compare key (slice (Z.to_nat middle) size array) in
        if cmp <? 0 then search_loop fuel key array first middle
        else if 0 <? cmp then search_loop fuel key array (middle + Z.of_nat size) last
        else Ok (Some middle)
    end
  else Ok None.

(** The offset of the match in the array. *)
Definition binary_search (key array : list Z) (cnt : Z) : res (option Z) :=
  search_loop (Z.to_nat cnt) key array 0 (Z.of_nat size * cnt).

End sort.

Definition qsort (compare : list Z → list Z → Z) (size : nat) (array : list Z) (cnt : Z) : res (list Z) :=
  sort (compare_thunk compare) size array cnt.
Definition bsearch (compare : list Z → list Z → Z) (size : nat) (key array : list Z) (cnt : Z)
    : res (option Z) :=
  binary_search (compare_thunk compare) size key array cnt.

(** ** The array as a list of elements *)

Lemma swap_bytes_spec n array a b :
  (a + n ≤ length array)%nat → (b + n ≤ length array)%nat → (a + n ≤ b ∨ b + n ≤ a)%nat →
  ∃ array', swap_bytes n array a b = Ok array' ∧ length array' = length array ∧
    ∀ i, array' !! i = if decide (a ≤ i < a + n)%nat then array !! (b + (i - a))%nat
                       else if decide (b ≤ i < b + n)%nat then array !! (a + (i - b))%nat
                       else array !! i.
Proof.
  revert array a b. induction n as [|n IH]; intros array a b Ha Hb Hd; cbn [swap_bytes].
  { exists array. split_and!; [done..|]. intros i. rewrite !decide_False by lia. done. }
  destruct (lookup_lt_is_Some_2 array a) as [t Ht]; [lia|].
  destruct (lookup_lt_is_Some_2 array b) as [u Hu]; [lia|]. rewrite Ht, Hu. simpl.
  destruct (IH (<[b := t]> (<[a := u]> array)) (S a) (S b)) as (array' & -> & Hl & Hx);
    rewrite ?length_insert; try lia.
  exists array'. rewrite !length_insert in Hl. split_and!; [done..|]. intros i. rewrite Hx.
  repeat case_decide; try lia.
  all: try (rewrite !list_lookup_insert_ne by lia; f_equal; lia).
  - assert (i = a) as -> by lia. rewrite list_lookup_insert_ne, list_lookup_insert_eq by lia.
    rewrite Nat.sub_diag, Nat.add_0_r. done.
  - assert (i = b) as -> by lia. rewrite list_lookup_insert_eq by (rewrite length_insert; lia).
    rewrite Nat.sub_diag, Nat.add_0_r. done.
Qed.

Section elements.
Variable size : nat.
Hypothesis size_pos : (0 < size)%nat.
Implicit Types els : list (list Z).

(** The elements of the array, each of [size] bytes. *)
Definition elements (array : list Z) els : Prop :=
  Forall (λ e, length e = size) els ∧ array = concat els.

(** The element with 1-based index [k]. *)
Definition el els (k : nat) : list Z := default [] (els !! (k - 1)%nat).
Definition exch els (i j : nat) : list (list Z) :=
  <[(j - 1)%nat := el els i]> (<[(i - 1)%nat := el els j]> els).

Lemma el_lookup els k : (1 ≤ k ≤ length els)%nat → els !! (k - 1)%nat = Some (el els k).
Proof.
  intros Hk. unfold el. destruct (lookup_lt_is_Some_2 els (k - 1)%nat) as [e ->]; [lia|]. done.
Qed.

Lemma el_exch els i j k :
  (1 ≤ i ≤ length els)%nat → (1 ≤ j ≤ length els)%nat → (1 ≤ k)%nat →
  el (exch els i j) k = if decide (k = j) then el els i else if decide (k = i) then el els j else el els k.
Proof.
  intros Hi Hj Hk. unfold exch. unfold el at 1. repeat case_decide; subst.
  - rewrite list_lookup_insert_eq by (rewrite length_insert; lia). done.
  - rewrite list_lookup_insert_ne, list_lookup_insert_eq by lia. done.
  - rewrite !list_lookup_insert_ne by lia. done.
Qed.

Lemma length_exch els i j : length (exch els i j) = length els.
Proof. unfold exch. by rewrite !length_insert. Qed.

Lemma exch_Permutation els i j :
  (1 ≤ i ≤ length els)%nat → (1 ≤ j ≤ length els)%nat → exch els i j ≡ₚ els.
Proof. intros Hi Hj. unfold exch. apply Permutation_insert_swap; by apply el_lookup. Qed.

Lemma elements_length array els : elements array els → length array = (length els * size)%nat.
Proof. intros [Hf ->]. by apply length_concat_blocks. Qed.

Lemma block_at_spec array els k :
  elements array els → (1 ≤ k ≤ length els)%nat → block_at size array (Z.of_nat k) = Ok (el els k).
Proof.
  intros He Hk. pose proof (elements_length _ _ He) as Hl. destruct He as [Hf ->]. unfold block_at.
  rewrite (proj2 (Z.ltb_ge (Z.of_nat k) 1)), (proj2 (Z.ltb_ge _ _)) by nia. simpl. f_equal.
  replace (Z.to_nat (Z.of_nat k - 1)) with (k - 1)%nat by lia.
  rewrite <- (Nat.add_0_r (_ * size)), (slice_concat size els (k - 1) (el els k)); [|done|by apply el_lookup|lia].
  apply slice_full. symmetry. eapply (Forall_lookup_1 _ _ _ _ Hf). by apply el_lookup.
Qed.

(** Byte [o] of element [k]. *)
Lemma concat_lookup els k o :
  Forall (λ e, length e = size) els → (o < size)%nat →
  concat els !! (k * size + o)%nat = els !! k ≫= λ e, e !! o.
Proof.
  intros Hf Ho. revert k. induction Hf as [|e els He Hf IH]; intros k; [done|].
  destruct k as [|k]; simpl.
  - by rewrite lookup_app_l by lia.
  - rewrite lookup_app_r by lia. rewrite <- IH. f_equal. lia.
Qed.

Lemma exch_elements els i j :
  Forall (λ e, length e = size) els → (1 ≤ i ≤ length els)%nat → (1 ≤ j ≤ length els)%nat →
  Forall (λ e, length e = size) (exch els i j).
Proof.
  intros Hf Hi Hj. unfold exch.
  apply Forall_insert; [apply Forall_insert; [done|]|];
    eapply (Forall_lookup_1 _ _ _ _ Hf); by apply el_lookup.
Qed.

Lemma do_swap_spec array els i j :
  elements array els → (1 ≤ i ≤ length els)%nat → (1 ≤ j ≤ length els)%nat → i ≠ j →
  ∃ array', do_swap size array (Z.of_nat i) (Z.of_nat j) = Ok array' ∧ elements array' (exch els i j).
Proof.
  intros He Hi Hj Hij. pose proof (elements_length _ _ He) as Hl. destruct He as [Hf ->].
  unfold do_swap. replace (Z.to_nat (Z.of_nat i - 1)) with (i - 1)%nat by lia.
  replace (Z.to_nat (Z.of_nat j - 1)) with (j - 1)%nat by lia.
  destruct (swap_bytes_spec size (concat els) ((i - 1) * size) ((j - 1) * size)) as (array' & -> & Hl' & Hx);
    [nia..|].
  exists array'. split; [done|]. pose proof (exch_elements els i j Hf Hi Hj) as Hf'.
  split; [done|]. apply list_eq. intros x. rewrite Hx.
  assert (∃ k o, x = k * size + o ∧ o < size)%nat as (k & o & -> & Ho).
  { exists (x / size)%nat, (x mod size)%nat. split; [|apply Nat.mod_upper_bound; lia].
    pose proof (Nat.div_mod x size ltac:(lia)). lia. }
  rewrite (concat_lookup (exch els i j) k o) by done. unfold exch.
  destruct (decide (k = i - 1)%nat) as [->|].
  { rewrite decide_True by lia. rewrite list_lookup_insert_ne, list_lookup_insert_eq by lia.
    replace (_ + (_ + o - _))%nat with ((j - 1) * size + o)%nat by lia.
    by rewrite concat_lookup, el_lookup by done. }
  rewrite decide_False by nia. destruct (decide (k = j - 1)%nat) as [->|].
  { rewrite decide_True by lia. rewrite list_lookup_insert_eq by (rewrite length_insert; lia).
    replace (_ + (_ + o - _))%nat with ((i - 1) * size + o)%nat by lia.
    by rewrite concat_lookup, el_lookup by done. }
  rewrite decide_False by nia. by rewrite (concat_lookup els k o), !list_lookup_insert_ne by (done || lia).
Qed.

(** ** Heaps *)

Variable compare : list Z → list Z → Z.

(** What the callback must satisfy: a strcmp-type result for a total
    preorder. *)
Hypothesis compare_sym : ∀ a b, Z.sgn (compare b a) = - Z.sgn (compare a b).
Hypothesis compare_trans : ∀ a b c, compare a b ≤ 0 → compare b c ≤ 0 → compare a c ≤ 0.

Definition le (a b : list Z) : Prop := compare a b ≤ 0.

Lemma le_refl a : le a a.
Proof. unfold le. pose proof (compare_sym a a). lia. Qed.
Lemma gt_le a b : 0 < compare a b → le b a.
Proof. unfold le. intros. pose proof (compare_sym a b). lia. Qed.
Lemma not_gt_le a b : compare a b ≤ 0 → le a b.
Proof. done. Qed.

(** The children of [p] that lie in the heap of [cnt] elements do not exceed
    it. *)
Definition child (p c cnt : nat) : Prop := (c = 2 * p ∨ c = 2 * p + 1)%nat ∧ (c ≤ cnt)%nat.
Definition heap_at els (cnt p : nat) : Prop := ∀ c, child p c cnt → le (el els c) (el els p).

Lemma larger_spec array els c m cnt :
  elements array els → (1 ≤ m ≤ cnt)%nat → (1 ≤ c)%nat → (cnt ≤ length els)%nat →
  ∃ r : nat, larger compare size array (Z.of_nat c) (Z.of_nat m) (Z.of_nat cnt) = Ok (Z.of_nat r) ∧
    (r = m ∨ r = c ∧ c ≤ cnt)%nat ∧ le (el els m) (el els r) ∧ ((c ≤ cnt)%nat → le (el els c) (el els r)).
Proof.
  intros He Hm Hc Hcnt. unfold larger. destruct (Z.leb_spec (Z.of_nat c) (Z.of_nat cnt)).
  - unfold do_compare. rewrite !(block_at_spec array els) by (done || lia). simpl.
    destruct (Z.ltb_spec 0 (compare (el els c) (el els m))).
    + exists c. split; [done|]. split; [lia|]. split; [by apply gt_le|]. intros. apply le_refl.
    + exists m. split; [done|]. split; [lia|]. split; [apply le_refl|]. done.
  - exists m. split; [done|]. split; [lia|]. split; [apply le_refl|]. lia.
Qed.

(** The elements before [i] and after [cnt] stay, the others are permuted. *)
Definition permutes els els' (lo cnt : nat) : Prop :=
  els' ≡ₚ els ∧ ∀ k, (1 ≤ k)%nat → (k < lo ∨ cnt < k)%nat → el els' k = el els k.

Lemma permutes_refl els lo cnt : permutes els els lo cnt.
Proof. by split. Qed.
Lemma permutes_trans els1 els2 els3 lo cnt :
  permutes els1 els2 lo cnt → permutes els2 els3 lo cnt → permutes els1 els3 lo cnt.
Proof. intros [H1 H2] [H3 H4]. split; [by etrans|]. intros k ? ?. rewrite H4 by done. auto. Qed.
Lemma permutes_exch els i j lo cnt :
  (lo ≤ i ≤ cnt)%nat → (lo ≤ j ≤ cnt)%nat → (1 ≤ lo)%nat → (cnt ≤ length els)%nat →
  permutes els (exch els i j) lo cnt.
Proof.
  intros Hi Hj Hlo Hc. split; [apply exch_Permutation; lia|].
  intros k Hk Hd. rewrite el_exch by lia. rewrite !decide_False by lia. done.
Qed.

(** Floating the element at [i] down, in a heap rooted at [lo] that is in order
    except possibly at [i]. *)
Lemma heapify_spec fuel array els i lo cnt :
  elements array els → (1 ≤ lo ≤ i)%nat → (i ≤ cnt ≤ length els)%nat → Z.of_nat cnt < W31 →
  (cnt - i < fuel)%nat →
  (∀ p, (lo ≤ p)%nat → p ≠ i → heap_at els cnt p) →
  (∀ p, (lo ≤ p)%nat → (i = 2 * p ∨ i = 2 * p + 1)%nat → ∀ c, child i c cnt → le (el els c) (el els p)) →
  ∃ array' els', heapify compare size fuel array (Z.of_nat i) (Z.of_nat cnt) = Ok array' ∧
    elements array' els' ∧ permutes els els' lo cnt ∧ ∀ p, (lo ≤ p)%nat → heap_at els' cnt p.
Proof.
  revert array els i. induction fuel as [|fuel IH]; intros array els i He Hlo Hi Hcnt Hf Hheap Hup; [lia|].
  cbn [heapify]. rewrite !u32_small by (unfold in_u32; lia).
  replace (2 * Z.of_nat i + 1) with (Z.of_nat (2 * i + 1)) by lia.
  replace (2 * Z.of_nat i) with (Z.of_nat (2 * i)) by lia.
  destruct (larger_spec array els (2 * i) i cnt) as (m1 & -> & Hm1 & Hge1 & Hc1); [done|lia..|].
  cbn [mbind res_bind].
  destruct (larger_spec array els (2 * i + 1) m1 cnt) as (m2 & -> & Hm2 & Hge2 & Hc2); [done|lia..|].
  cbn [mbind res_bind].
  assert (le (el els i) (el els m2)) as Hi2 by by eapply compare_trans.
  assert (∀ c, child i c cnt → le (el els c) (el els m2)) as Hch.
  { intros c [[-> | ->] Hc]; [|by apply Hc2]. eapply compare_trans; [by apply Hc1|done]. }
  destruct (Z.eqb_spec (Z.of_nat m2) (Z.of_nat i)) as [Heq|Hne].
  { exists array, els. split_and!; [done..|apply permutes_refl|]. intros p Hp.
    destruct (decide (p = i)) as [->|]; [|by apply Hheap].
    assert (m2 = i) as -> by lia. intros c Hc. by apply Hch. }
  assert (child i m2 cnt) as Hm by (unfold child; lia).
  destruct (do_swap_spec array els i m2 He) as (array1 & -> & He1); [lia..|]. cbn [mbind res_bind].
  assert (∀ k, (1 ≤ k)%nat → el (exch els i m2) k =
    if decide (k = m2) then el els i else if decide (k = i) then el els m2 else el els k) as Hel.
  { intros k Hk. apply el_exch; unfold child in *; lia. }
  destruct (IH array1 (exch els i m2) m2) as (array' & els' & Hr & He' & Hperm & Hheap');
    rewrite ?length_exch; try done; unfold child in Hm; try lia.
  - intros p Hp Hpm c [Hc Hcc]. rewrite !Hel by lia. rewrite (decide_False (P := p = m2)) by done.
    destruct (decide (p = i)) as [->|Hpi].
    + repeat case_decide; subst; try lia; [done|]. apply Hch. by split.
    + destruct (decide (c = m2)) as [->|]; [lia|]. destruct (decide (c = i)) as [->|].
      * apply (Hup p Hp); [lia|]. unfold child. lia.
      * apply (Hheap p Hp Hpi). by split.
  - intros p Hp Hmp c [Hc Hcc]. assert (p = i) as -> by lia. rewrite !Hel by lia.
    rewrite !decide_False by lia. rewrite (decide_True (P := i = i)) by done.
    apply (Hheap m2); [lia..|]. by split.
  - exists array', els'. split; [done|]. split; [done|]. split; [|done]. split.
    + etrans; [apply Hperm|]. apply exch_Permutation; lia.
    + intros k Hk Hd. destruct Hperm as [_ Hs]. rewrite Hs by done. rewrite Hel by done.
      rewrite !decide_False by lia. done.
Qed.

Lemma build_heap_spec n array els cnt :
  elements array els → (n ≤ cnt)%nat → (cnt ≤ length els)%nat → Z.of_nat cnt < W31 →
  (∀ p, (n < p)%nat → heap_at els cnt p) →
  ∃ array' els', build_heap compare size n array (Z.of_nat cnt) = Ok array' ∧ elements array' els' ∧
    els' ≡ₚ els ∧ ∀ p, (1 ≤ p)%nat → heap_at els' cnt p.
Proof.
  revert array els. induction n as [|n IH]; intros array els He Hn Hc Hcnt Hheap; cbn [build_heap].
  { exists array, els. split_and!; [done..|]. intros p Hp. apply Hheap. lia. }
  destruct (heapify_spec (S (Z.to_nat (Z.of_nat cnt))) array els (S n) (S n) cnt)
    as (array1 & els1 & -> & He1 & [Hp1 _] & Hh1); try done; try lia.
  { intros p Hp Hne. apply Hheap. lia. }
  cbn [mbind res_bind]. pose proof (Permutation_length Hp1).
  destruct (IH array1 els1) as (array' & els' & -> & He' & Hp' & Hh'); try done; try lia.
  exists array', els'. split_and!; [done..|by etrans|done].
Qed.

Lemma heap_root els cnt k :
  (∀ p, (1 ≤ p)%nat → heap_at els cnt p) → (1 ≤ k ≤ cnt)%nat → le (el els k) (el els 1).
Proof.
  intros Hh. induction (lt_wf k) as [k _ IH]. intros Hk. destruct (decide (k = 1%nat)) as [->|].
  { apply le_refl. }
  set (p := (k / 2)%nat). assert (k = 2 * p ∨ k = 2 * p + 1)%nat as Hp.
  { pose proof (Nat.div_mod k 2 ltac:(lia)). pose proof (Nat.mod_upper_bound k 2 ltac:(lia)). lia. }
  eapply compare_trans; [apply (Hh p); [lia|split; lia]|]. apply IH; lia.
Qed.

Lemma permutes_Forall (P : list Z → Prop) els els' cnt :
  permutes els els' 1 cnt → (cnt ≤ length els)%nat →
  (∀ j, (1 ≤ j ≤ cnt)%nat → P (el els j)) → ∀ j, (1 ≤ j ≤ cnt)%nat → P (el els' j).
Proof.
  intros [Hp Hs] Hc HP j Hj. pose proof (Permutation_length Hp) as Hl.
  assert (drop cnt els' = drop cnt els) as Hd.
  { apply list_eq. intros i. rewrite !lookup_drop.
    destruct (decide (cnt + i < length els)%nat).
    - specialize (Hs (cnt + i + 1)%nat). pose proof (el_lookup els (cnt + i + 1)) as E1.
      pose proof (el_lookup els' (cnt + i + 1)) as E2.
      replace (cnt + i + 1 - 1)%nat with (cnt + i)%nat in * by lia.
      rewrite E1, E2, Hs by lia. done.
    - rewrite !lookup_ge_None_2 by lia. done. }
  rewrite <- (take_drop cnt els), <- (take_drop cnt els'), Hd in Hp.
  apply Permutation_app_inv_r in Hp.
  assert (Forall P (take cnt els)) as Hf.
  { apply Forall_lookup. intros i x Hi. apply lookup_take_Some in Hi as [Hi Hlt].
    specialize (HP (S i)). unfold el in HP. rewrite Nat.sub_succ, Nat.sub_0_r, Hi in HP. apply HP. lia. }
  rewrite <- Hp in Hf. eapply (Forall_lookup_1 _ _ (j - 1) _ Hf).
  rewrite lookup_take_lt by lia. apply el_lookup. lia.
Qed.

Lemma sort_heap_step n array :
  sort_heap compare size (S (S n)) array =
  (array ← do_swap size array 1 (Z.of_nat (S (S n)));
   array ← heapify compare size (S (S (S n))) array 1 (Z.of_nat (S n));
   sort_heap compare size (S n) array).
Proof. done. Qed.

Lemma sort_heap_spec n array els :
  elements array els → (n ≤ length els)%nat → Z.of_nat n < W31 →
  (∀ p, (1 ≤ p)%nat → heap_at els n p) →
  (∀ j k, (n < j < k)%nat → (k ≤ length els)%nat → le (el els j) (el els k)) →
  (∀ j k, (1 ≤ j ≤ n)%nat → (n < k ≤ length els)%nat → le (el els j) (el els k)) →
  ∃ array' els', sort_heap compare size n array = Ok array' ∧ elements array' els' ∧ els' ≡ₚ els ∧
    ∀ j k, (1 ≤ j < k)%nat → (k ≤ length els)%nat → le (el els' j) (el els' k).
Proof.
  revert array els. induction n as [|n IH]; intros array els He Hn Hcnt Hheap Hsorted Hbound.
  { exists array, els. split_and!; [done..|]. intros j k Hj Hk. apply Hsorted; lia. }
  destruct n as [|n].
  { exists array, els. split_and!; [done..|]. intros j k Hj Hk.
    destruct (decide (j = 1%nat)) as [->|]; [apply Hbound; lia|apply Hsorted; lia]. }
  rewrite sort_heap_step. remember (S n) as m eqn:Em.
  destruct (do_swap_spec array els 1 (S m)) as (array1 & Hsw & He1); [done|lia..|].
  change (Z.of_nat 1) with 1 in Hsw. rewrite Hsw. cbn [mbind res_bind].
  assert (∀ k, (1 ≤ k)%nat → el (exch els 1 (S m)) k =
    if decide (k = S m) then el els 1 else if decide (k = 1%nat) then el els (S m) else el els k) as Hel.
  { intros k Hk. apply el_exch; lia. }
  set (els1 := exch els 1 (S m)) in *.
  assert (length els1 = length els) as Hl1 by apply length_exch.
  destruct (heapify_spec (S (S m)) array1 els1 1 1 m) as (array2 & els2 & Hhp & He2 & Hp2 & Hh2);
    try done; try lia.
  { intros p Hp Hne c [Hc Hcm]. rewrite !Hel by lia. rewrite !decide_False by lia.
    apply (Hheap p Hp). split; lia. }
  change (Z.of_nat 1) with 1 in Hhp. rewrite Hhp. cbn [mbind res_bind].
  pose proof Hp2 as [Hperm Hfix]. pose proof (Permutation_length Hperm) as Hl2.
  assert (∀ j, (1 ≤ j ≤ m)%nat → ∀ k, (m < k ≤ length els)%nat → le (el els2 j) (el els2 k)) as Hb2.
  { intros j Hj k Hk. rewrite (Hfix k) by lia. revert j Hj.
    apply (permutes_Forall (λ x, le x (el els1 k)) els1 els2 m); [done|lia|]. intros j Hj.
    rewrite !Hel by lia. destruct (decide (k = S m)) as [->|].
    - repeat case_decide; try lia; [apply heap_root with (cnt := S m)|]; try done; try lia.
      apply heap_root with (cnt := S m); [done|lia].
    - repeat case_decide; try lia; apply Hbound; lia. }
  destruct (IH array2 els2) as (array' & els' & Hr & He' & Hp' & Hs'); try done; try lia.
  { intros j k Hj Hk. rewrite !Hfix by lia. rewrite !Hel by lia. repeat case_decide; try lia.
    - apply Hbound; lia.
    - apply Hsorted; lia. }
  { intros j k Hj Hk. apply Hb2; lia. }
  exists array', els'. split_and!; [done..| |].
  - rewrite Hp', Hperm. apply exch_Permutation; lia.
  - intros j k Hj Hk. apply Hs'; lia.
Qed.

End elements.

(** C4: [qsort] sorts in place: for a comparison that is a total preorder, the
    array afterwards holds a permutation of its elements, each unchanged byte
    for byte, in non-descending order. *)
Theorem qsort_sorts compare size array els :
  (0 < size)%nat →
  (∀ a b, Z.sgn (compare b a) = - Z.sgn (compare a b)) →
  (∀ a b c, compare a b ≤ 0 → compare b c ≤ 0 → compare a c ≤ 0) →
  elements size array els → Z.of_nat (length els) < W31 →
  ∃ array' els', qsort compare size array (Z.of_nat (length els)) = Ok array' ∧
    elements size array' els' ∧ els' ≡ₚ els ∧
    ∀ i j x y, (i < j)%nat → els' !! i = Some x → els' !! j = Some y → compare x y ≤ 0.
Proof.
  intros Hsz Hsym Htr He Hlen. unfold qsort. change (compare_thunk compare) with compare. unfold sort.
  rewrite (proj2 (Z.ltb_lt 0 (Z.of_nat size))) by lia. cbn [mbind res_bind assert].
  destruct (build_heap_spec size Hsz compare Hsym Htr (Z.to_nat (Z.of_nat (length els) / 2)) array els
    (length els)) as (array1 & els1 & -> & He1 & Hp1 & Hh1); try done; try dlia.
  { intros p Hp c [Hc Hcl]. exfalso. dlia. }
  cbn [mbind res_bind]. rewrite Nat2Z.id. pose proof (Permutation_length Hp1) as Hl1.
  destruct (sort_heap_spec size Hsz compare Hsym Htr (length els) array1 els1)
    as (array' & els' & -> & He' & Hp' & Hs'); try done; try lia; [intros; lia..|].
  exists array', els'. split_and!; [done..|by etrans|]. pose proof (Permutation_length Hp') as Hl'.
  intros i j x y Hij Hx Hy. specialize (Hs' (S i) (S j)). unfold el, le in Hs'.
  rewrite !Nat.sub_succ, !Nat.sub_0_r, Hx, Hy in Hs'. apply lookup_lt_Some in Hy. apply Hs'; lia.
Qed.

(** ** Binary search *)

Section search.
Context (compare : list Z → list Z → Z) (size : nat) (key array : list Z) (els : list (list Z)).
Hypothesis size_pos : (0 < size)%nat.
Hypothesis compare_sym : ∀ a b, Z.sgn (compare b a) = - Z.sgn (compare a b).
Hypothesis compare_trans : ∀ a b c, compare a b ≤ 0 → compare b c ≤ 0 → compare a c ≤ 0.
Hypothesis Hels : elements size array els.
Hypothesis sorted : ∀ i j x y, (i < j)%nat → els !! i = Some x → els !! j = Some y → compare x y ≤ 0.

Lemma search_loop_spec fuel (f l : nat) :
  (l - f ≤ fuel)%nat → (l ≤ length els)%nat →
  ∃ r, search_loop compare size fuel key array (Z.of_nat (f * size)) (Z.of_nat (l * size)) = Ok r ∧
    match r with
    | Some ofs => ∃ k e, ofs = Z.of_nat (k * size) ∧ els !! k = Some e ∧ compare key e = 0
    | None => ∀ k e, (f ≤ k < l)%nat → els !! k = Some e → compare key e ≠ 0
    end.
Proof.
  revert f l. induction fuel as [|fuel IH]; intros f l Hf Hl; cbn [search_loop];
    destruct (Z.ltb_spec (Z.of_nat (f * size)) (Z.of_nat (l * size))) as [Hlt|Hge]; try nia.
  1,3: exists None; (split; [done|]); intros; nia.
  set (h := ((l - f) / 2)%nat). assert (f + h < l)%nat as Hh.
  { pose proof (Nat.div_lt (l - f) 2). unfold h. nia. }
  assert (Z.of_nat (f * size) + (Z.of_nat (l * size) - Z.of_nat (f * size)) / Z.of_nat size / 2 * Z.of_nat size =
    Z.of_nat ((f + h) * size)) as ->.
  { replace (Z.of_nat (l * size) - Z.of_nat (f * size)) with (Z.of_nat (l - f) * Z.of_nat size) by nia.
    rewrite Z.div_mul by lia. unfold h. pose proof (Nat2Z.inj_div (l - f) 2) as E.
    change (Z.of_nat 2) with 2 in E. rewrite <- E. lia. }
  destruct (lookup_lt_is_Some_2 els (f + h)%nat) as [e He]; [lia|].
  assert (slice (Z.to_nat (Z.of_nat ((f + h) * size))) size array = e) as ->.
  { destruct Hels as [Hfa ->]. rewrite Nat2Z.id, <- (Nat.add_0_r (_ * size)).
    rewrite (slice_concat size els (f + h) e) by (done || lia). apply slice_full.
    symmetry. exact (Forall_lookup_1 _ _ _ _ Hfa He). }
  destruct (Z.ltb_spec (compare key e) 0); [|destruct (Z.ltb_spec 0 (compare key e))].
  - destruct (IH f (f + h)%nat) as (r & -> & Hr); [lia..|]. exists r. split; [done|].
    destruct r; [done|]. intros k x Hk Hx. destruct (decide (k < f + h)%nat); [by apply (Hr k); [lia|]|].
    intros Hz. assert (compare e x ≤ 0).
    { destruct (decide (k = f + h)%nat) as [->|]; [|by apply (sorted (f + h) k); [lia|..]].
      simplify_eq. pose proof (compare_sym e e). lia. }
    pose proof (compare_sym key x). pose proof (compare_sym key e).
    pose proof (compare_trans e x key). lia.
  - replace (Z.of_nat ((f + h) * size) + Z.of_nat size) with (Z.of_nat ((f + h + 1) * size)) by lia.
    destruct (IH (f + h + 1)%nat l) as (r & -> & Hr); [lia..|]. exists r. split; [done|].
    destruct r; [done|]. intros k x Hk Hx. destruct (decide (f + h < k)%nat); [by apply (Hr k); [lia|]|].
    intros Hz. assert (compare x e ≤ 0).
    { destruct (decide (k = f + h)%nat) as [->|]; [|by apply (sorted k (f + h)); [lia|..]].
      simplify_eq. pose proof (compare_sym e e). lia. }
    pose proof (compare_sym key x). pose proof (compare_trans key x e). lia.
  - exists (Some (Z.of_nat ((f + h) * size))). split; [done|]. exists (f + h)%nat, e. split_and!; [done..|lia].
Qed.
End search.

(** On a sorted array [bsearch] always terminates; it returns the offset of
    an element that compares equal to the key, and null exactly when there is
    none. *)
Lemma bsearch_finds compare size key array els :
  (0 < size)%nat →
  (∀ a b, Z.sgn (compare b a) = - Z.sgn (compare a b)) →
  (∀ a b c, compare a b ≤ 0 → compare b c ≤ 0 → compare a c ≤ 0) →
  elements size array els →
  (∀ i j x y, (i < j)%nat → els !! i = Some x → els !! j = Some y → compare x y ≤ 0) →
  ∃ r, bsearch compare size key array (Z.of_nat (length els)) = Ok r ∧
    match r with
    | Some ofs => ∃ k e, ofs = Z.of_nat (k * size) ∧ els !! k = Some e ∧ compare key e = 0
    | None => ∀ e, e ∈ els → compare key e ≠ 0
    end.
Proof.
  intros Hsz Hsym Htr He Hso. unfold bsearch, binary_search. rewrite Nat2Z.id.
  replace (Z.of_nat size * Z.of_nat (length els)) with (Z.of_nat (length els * size)) by lia.
  destruct (search_loop_spec compare size key array els Hsz Hsym Htr He Hso (length els) 0 (length els))
    as (r & Hr & Hc); [lia..|].
  exists r. split; [exact Hr|]. destruct r; [done|].
  intros e [k Hk]%list_elem_of_lookup_1. apply (Hc k); [|done]. apply lookup_lt_Some in Hk. lia.
Qed.

(** ** atoi *)

(** The number a list of digits denotes. *)
Definition dec (ds : list Z) : Z := fold_left (λ v c, v * 10 + (c - 48)) ds 0.

Lemma i32_wrap x : ∃ k, i32 x = x + k * W32.
Proof. exists (- ((x + W31) / W32)). unfold i32. dlia. Qed.
Lemma i32_add x k : i32 (x + k * W32) = i32 x.
Proof.
  unfold i32. replace (x + k * W32 + W31) with (x + W31 + k * W32) by lia. by rewrite Z.mod_add.
Qed.

Lemma parse_digits_spec fuel m s v ds tl :
  cstr m s (ds ++ tl) → Forall (λ c, isdigit c = true) ds →
  (∀ c, head tl = Some c → isdigit c = false) → (length (ds ++ tl) < fuel)%nat →
  parse_digits fuel m s (i32 v) = Ok (i32 (fold_left (λ v c, v * 10 - (c - 48)) ds v)).
Proof.
  revert s v ds. induction fuel as [|fuel IH]; intros s v ds Hs Hd Ht Hf; [lia|]. cbn [parse_digits].
  destruct ds as [|c ds]; simpl in *.
  - destruct tl as [|c tl].
    + rewrite (cstr_nil _ _ Hs). done.
    + apply cstr_cons in Hs as (-> & _ & _). simpl. by rewrite (Ht c).
  - apply cstr_cons in Hs as (-> & Hc & Hs). apply Forall_cons in Hd as [Hd Hds]. simpl. rewrite Hd.
    rewrite <- (IH (s + 1) (v * 10 - (c - 48)) ds) by (done || lia). f_equal.
    destruct (i32_wrap v) as [k1 ->]. destruct (i32_wrap ((v + k1 * W32) * 10)) as [k2 ->].
    replace ((v + k1 * W32) * 10 + k2 * W32 - (c - 48)) with (v * 10 - (c - 48) + (10 * k1 + k2) * W32) by lia.
    apply i32_add.
Qed.

Lemma fold_dec ds v : fold_left (λ v c, v * 10 - (c - 48)) ds (- v) = - fold_left (λ v c, v * 10 + (c - 48)) ds v.
Proof.
  revert v. induction ds as [|c ds IH]; intros v; simpl; [done|]. rewrite <- IH. f_equal. lia.
Qed.

Lemma skip_space_spec fuel m s ws str :
  cstr m s (ws ++ str) → Forall (λ c, isspace c = true) ws →
  (∀ c, head (str ++ [0]) = Some c → isspace c = false) → (length ws < fuel)%nat →
  skip_space fuel m s = Ok (s + Z.of_nat (length ws)).
Proof.
  revert s ws. induction fuel as [|fuel IH]; intros s ws Hs Hw Hh Hf; [lia|]. cbn [skip_space].
  destruct ws as [|c ws]; simpl in *.
  - rewrite Z.add_0_r. destruct str as [|c str].
    + by rewrite (cstr_nil _ _ Hs).
    + apply cstr_cons in Hs as (-> & _ & _). simpl. by rewrite (Hh c).
  - apply cstr_cons in Hs as (-> & _ & Hs). apply Forall_cons in Hw as [Hc Hw]. simpl. rewrite Hc.
    rewrite (IH (s + 1) ws) by (done || lia). f_equal. lia.
Qed.

(** [atoi] of white space, an optional sign, digits and anything that does
    not go on with a digit is the number denoted, wrapped to 32 bits; in
    particular every value of an [int] is parsed exactly, the least one
    included. *)
Lemma atoi_spec m s ws sg ds tl :
  cstr m s (ws ++ sg ++ ds ++ tl) → Forall (λ c, isspace c = true) ws →
  sg ∈ [[]; [43]; [45]] → ds ≠ [] → Forall (λ c, isdigit c = true) ds →
  (∀ c, head tl = Some c → isdigit c = false) →
  atoi m s = Ok (i32 (if decide (sg = [45]) then - dec ds else dec ds)).
Proof.
  intros Hs Hw Hsg Hds Hd Ht. destruct ds as [|d0 ds']; [done|]. set (ds := d0 :: ds') in *.
  assert (isdigit d0 = true) as Hd0 by by apply Forall_cons in Hd as [? _].
  pose proof (cstr_walk _ _ _ Hs) as [Hwk _]. unfold walk in Hwk. rewrite !length_app in Hwk.
  unfold atoi. rewrite (cstr_valid _ _ _ Hs). run.
  rewrite (skip_space_spec _ m s ws (sg ++ ds ++ tl)); [|done..| |unfold walk; lia]; last first.
  { intros c Hc. unfold isdigit in Hd0. bool_props. unfold isspace.
    assert (c = d0 ∨ c = 43 ∨ c = 45) as Hc'.
    { apply elem_of_cons in Hsg as [->|[->|[->|Hsg%elem_of_nil]%elem_of_cons]%elem_of_cons];
        simpl in Hc; simplify_eq; auto; done. }
    destruct Hc' as [->|[-> | ->]]; [|done..].
    repeat (rewrite (proj2 (Z.eqb_neq d0 _)) by lia). done. }
  run. apply cstr_app in Hs. set (p := s + Z.of_nat (length ws)) in *.
  assert (∃ c, load m p = Ok c ∧ (if c =? 43 then (false, p + 1) else if c =? 45 then (true, p + 1) else (false, p)) =
    (bool_decide (sg = [45]), p + Z.of_nat (length sg)) ∧ cstr m (p + Z.of_nat (length sg)) (ds ++ tl))
    as (c & -> & Hsign & Hs2).
  { pose proof (cstr_app _ _ _ _ Hs) as Hs2.
    apply elem_of_cons in Hsg as [->|[->|[->|Hsg%elem_of_nil]%elem_of_cons]%elem_of_cons]; [..|done].
    - apply cstr_cons in Hs as (Hl & _ & _). exists d0. split; [done|]. split; [|done].
      unfold isdigit in Hd0. bool_props. rewrite !(proj2 (Z.eqb_neq d0 _)) by lia. simpl. by rewrite Z.add_0_r.
    - apply cstr_cons in Hs as (Hl & _ & _). by exists 43.
    - apply cstr_cons in Hs as (Hl & _ & _). by exists 45. }
  run. rewrite Hsign. change 0 with (i32 0) at 1.
  rewrite (parse_digits_spec _ m _ 0 ds tl); try done; [|rewrite length_app; unfold walk; lia].
  run. change 0 with (- 0). rewrite fold_dec. fold (dec ds). f_equal.
  case_decide; [by rewrite bool_decide_eq_true_2|]. rewrite bool_decide_eq_false_2 by done.
  destruct (i32_wrap (- dec ds)) as [k ->].
  replace (- (- dec ds + k * W32)) with (dec ds + (- k) * W32) by lia. apply i32_add.
Qed.

(** ** Witnesses *)

(** Two-byte elements compared by their first byte. *)
Definition first_byte (a b : list Z) : Z := nth 0 a 0 - nth 0 b 0.
Definition sample_els : list (list Z) := [[5; 1]; [9; 2]; [3; 3]; [5; 4]].

Lemma first_byte_sym a b : Z.sgn (first_byte b a) = - Z.sgn (first_byte a b).
Proof. unfold first_byte. lia. Qed.
Lemma first_byte_trans a b c : first_byte a b ≤ 0 → first_byte b c ≤ 0 → first_byte a c ≤ 0.
Proof. unfold first_byte. lia. Qed.

Lemma qsort_sorts_witness :
  ∃ els', qsort first_byte 2 [5; 1; 9; 2; 3; 3; 5; 4] 4 = Ok (concat els') ∧ els' ≡ₚ sample_els ∧
    els' !! 0%nat = Some [3; 3].
Proof.
  destruct (qsort_sorts first_byte 2 [5; 1; 9; 2; 3; 3; 5; 4] sample_els)
    as (array' & els' & Hr & [Hf Ec] & Hp & _).
  - lia.
  - apply first_byte_sym.
  - apply first_byte_trans.
  - split; [repeat constructor|reflexivity].
  - simpl. lia.
  - exists els'. rewrite <- Ec. split; [exact Hr|]. split; [exact Hp|].
    assert (array' = [3; 3; 5; 1; 5; 4; 9; 2]) as -> by (vm_compute in Hr; congruence).
    destruct els' as [|[|x [|y [|z e]]] els']; simpl in *; try (apply Forall_cons in Hf as [Hl _]; done);
      [|by simplify_eq].
    by apply Permutation_nil_l in Hp.
Defined.

End CStdlib.
