(* ===== verification/Stdio.v ===== *)
(** * lib/stdio.c and lib/kernel/console.c: formatted output

    A format is an object of its own, its characters and the terminator, and
    [pos] is the pointer into it; strings to print are in the memory of
    CString.v.  A [va_list] is what the calling convention makes of it: the
    words on the stack, where a 64-bit argument takes two.  The callback
    [output (ch, aux)] is any operation on the state, so that the same code
    prints to the console and into a buffer.

    [__vprintf] calls itself on a fixed format when it meets a conversion it
    does not know; that format has none, so that two levels are enough. *)

From S2P Require Import Prelude CString CStdlib.

Module Stdio.
Import CString.

(** ** Flags, bases and conversions *)

Definition MINUS : Z := 1.
Definition PLUS : Z := 2.
Definition SPACE : Z := 4.
Definition POUND : Z := 8.
Definition ZERO : Z := 16.
Definition GROUP : Z := 32.
Definition has (flags f : Z) : bool := negb (Z.land flags f =? 0).
Definition clear (flags f : Z) : Z := Z.land flags (Z.lnot f).

Inductive arg_type := CHAR | SHORT | INT | INTMAX | LONG | LONGLONG | PTRDIFFT | SIZET.

Record printf_conversion := mk_conv { flags : Z; width : Z; precision : Z; ctype : arg_type }.
Record integer_base := mk_base { base : Z; digits : list Z; base_x_char : Z; group : Z }.

Definition lower_digits : list Z := [48; 49; 50; 51; 52; 53; 54; 55; 56; 57; 97; 98; 99; 100; 101; 102].
Definition upper_digits : list Z := [48; 49; 50; 51; 52; 53; 54; 55; 56; 57; 65; 66; 67; 68; 69; 70].
Definition base_d : integer_base := mk_base 10 (take 10 lower_digits) 0 3.
Definition base_o : integer_base := mk_base 8 (take 8 lower_digits) 0 3.
Definition base_x : integer_base := mk_base 16 lower_digits 120 4.
Definition base_X : integer_base := mk_base 16 upper_digits 88 4.

(** ** Variable arguments *)

Definition i8 (z : Z) : Z := (z + 128) mod W8 - 128.
Definition i16 (z : Z) : Z := (z + 32768) mod W16 - 32768.

Abbreviation va_list := (list Z).
Definition va_word (args : va_list) : res (Z * va_list) :=
  match args with w :: args => Ok (u32 w, args) | [] => Err EFault end.
Definition va_wide (args : va_list) : res (Z * va_list) :=
  '(lo, args) ← va_word args; '(hi, args) ← va_word args; Ok (lo + W32 * hi, args).

(** The value of a signed and of an unsigned conversion. *)
Definition signed_arg (t : arg_type) (args : va_list) : res (Z * va_list) :=
  match t with
  | CHAR => '(w, args) ← va_word args; Ok (i8 w, args)
  | SHORT => '(w, args) ← va_word args; Ok (i16 w, args)
  | INT | LONG | PTRDIFFT => '(w, args) ← va_word args; Ok (i32 w, args)
  | INTMAX | LONGLONG => '(w, args) ← va_wide args; Ok (i64 w, args)
  | SIZET => '(w, args) ← va_word args; Ok (if W31 - 1 <? w then w - W32 else w, args)
  end.
Definition unsigned_arg (t : arg_type) (args : va_list) : res (Z * va_list) :=
  match t with
  | CHAR => '(w, args) ← va_word args; Ok (u8 w, args)
  | SHORT => '(w, args) ← va_word args; Ok (u16 w, args)
  | INT | LONG | SIZET => va_word args
  | INTMAX | LONGLONG => va_wide args
  | PTRDIFFT => '(w, args) ← va_word args; Ok (Z.land (u64 (i32 w)) (W32 - 1), args)
  end.

(** ** [parse_conversion] *)

Definition char_at (fmt : list Z) (pos : nat) : res Z := deref (fmt !! pos).

Definition flag_of (c : Z) : option Z :=
  if c =? 45 then Some MINUS else if c =? 43 then Some PLUS else if c =? 32 then Some SPACE
  else if c =? 35 then Some POUND else if c =? 48 then Some ZERO else if c =? 39 then Some GROUP else None.

Fixpoint parse_flags (fuel : nat) (fmt : list Z) (pos : nat) (fl : Z) : res (Z * nat) :=
  match fuel with
  | O => Err EFuel
  | S fuel =>
      c ← char_at fmt pos;
      match flag_of c with
      | Some f => parse_flags fuel fmt (S pos) (Z.lor fl f)
      | None => Ok (fl, pos)
      end
  end.

Fixpoint parse_number (fuel : nat) (fmt : list Z) (pos : nat) (n : Z) : res (Z * nat) :=
  match fuel with
  | O => Err EFuel
  | S fuel =>
      c ← char_at fmt pos;
      if CStdlib.isdigit c then parse_number fuel fmt (S pos) (i32 (n * 10 + c - 48)) else Ok (n, pos)
  end.

Definition parse_type (fmt : list Z) (pos : nat) : res (arg_type * nat) :=
  c ← char_at fmt pos;
  if c =? 104 then c ← char_at fmt (S pos); Ok (if c =? 104 then (CHAR, S (S pos)) else (SHORT, S pos))
  else if c =? 106 then Ok (INTMAX, S pos)
  else if c =? 108 then c ← char_at fmt (S pos); Ok (if c =? 108 then (LONGLONG, S (S pos)) else (LONG, S pos))
  else if c =? 116 then Ok (PTRDIFFT, S pos)
  else if c =? 122 then Ok (SIZET, S pos)
  else Ok (INT, pos).

(** The width, whether it was negative, the position and the arguments left. *)
Definition parse_width (fmt : list Z) (pos : nat) (args : va_list) : res (Z * nat * va_list) :=
  c ← char_at fmt pos;
  if c =? 42 then '(w, args) ← va_word args; Ok (i32 w, S pos, args)
  else '(n, pos) ← parse_number (S (length fmt)) fmt pos 0; Ok (n, pos, args).

Definition parse_precision (fmt : list Z) (pos : nat) (args : va_list) : res (Z * nat * va_list) :=
  c ← char_at fmt pos;
  if c =? 46 then
    '(r, args) ← parse_width fmt (S pos) args;
    let '(p, pos) := (r : Z * nat) in Ok (if p <? 0 then -1 else p, pos, args)
  else Ok (-1, pos, args).

Definition parse_conversion (fmt : list Z) (pos : nat) (args : va_list) : res (printf_conversion * nat * va_list) :=
  '(fl, pos) ← parse_flags (S (length fmt)) fmt pos 0;
  let fl := if has fl MINUS then clear fl ZERO else fl in
  let fl := if has fl PLUS then clear fl SPACE else fl in
  '(r, args) ← parse_width fmt pos args;
  let '(w, pos) := (r : Z * nat) in
  let fl := if w <? 0 then Z.lor fl MINUS else fl in
  let w := if w <? 0 then i32 (- w) else w in
  '(r, args) ← parse_precision fmt pos args;
  let '(p, pos) := (r : Z * nat) in
  let fl := if 0 <=? p then clear fl ZERO else fl in
  '(t, pos) ← parse_type fmt pos;
  Ok (mk_conv fl w p t, pos, args).

(** ** Integers *)

(** [char buf[64]] with the last character written at the front, so that the
    list is what is printed. *)
Definition BUF_SIZE : nat := 64.
Definition push (c : Z) (buf : list Z) : res (list Z) :=
  if Nat.ltb (length buf) BUF_SIZE then Ok (c :: buf) else Err EFault.

Fixpoint digit_loop (fuel : nat) (value : Z) (b : integer_base) (fl : Z) (digit_cnt : Z) (buf : list Z) : res (list Z) :=
  if 0 <? value then
    match fuel with
    | O => Err EFuel
    | S fuel =>
        buf ← (if has fl GROUP && (0 <? digit_cnt) && (digit_cnt mod group b =? 0) then push 44 buf else Ok buf);
        d ← deref (digits b !! Z.to_nat (value mod base b));
        buf ← push d buf;
        digit_loop fuel (value / base b) b fl (digit_cnt + 1) buf
    end
  else Ok buf.

Fixpoint zero_loop (fuel : nat) (precision : Z) (buf : list Z) : res (list Z) :=
  if (Z.of_nat (length buf) <? precision) && Nat.ltb (length buf) (BUF_SIZE - 1) then
    match fuel with
    | O => Err EFuel
    | S fuel => buf ← push 48 buf; zero_loop fuel precision buf
    end
  else Ok buf.

Definition sign_char (fl : Z) (is_signed negative : bool) : Z :=
  if is_signed then
    if has fl PLUS then if negative then 45 else 43
    else if has fl SPACE then if negative then 45 else 32
    else if negative then 45 else 0
  else 0.

Definition integer_digits (value : Z) (b : integer_base) (c : printf_conversion) : res (list Z) :=
  buf ← digit_loop BUF_SIZE value b (flags c) 0 [];
  buf ← zero_loop BUF_SIZE (if precision c <? 0 then 1 else precision c) buf;
  if has (flags c) POUND && (base b =? 8) && negb (bool_decide (head buf = Some 48)) then push 48 buf else Ok buf.

Section output.
Context {S : Type} (mem_of : S → mem) (output : Z → stM S unit).

Fixpoint output_list (l : list Z) : stM S unit :=
  match l with [] => mret tt | c :: l => output c;; output_list l end.
Definition output_dup (ch cnt : Z) : stM S unit := output_list (replicate (Z.to_nat cnt) ch).

Definition format_integer (value : Z) (is_signed negative : bool) (b : integer_base) (c : printf_conversion) : stM S unit :=
  let sign := sign_char (flags c) is_signed negative in
  let x := if has (flags c) POUND && negb (value =? 0) then base_x_char b else 0 in
  buf ← slift (integer_digits value b c);
  let pad_cnt := i32 (width c - Z.of_nat (length buf) - (if x =? 0 then 0 else 2) - (if sign =? 0 then 0 else 1)) in
  let pad_cnt := if pad_cnt <? 0 then 0 else pad_cnt in
  (if Z.land (flags c) (Z.lor MINUS ZERO) =? 0 then output_dup 32 pad_cnt else mret tt);;
  (if sign =? 0 then mret tt else output sign);;
  (if x =? 0 then mret tt else output 48;; output x);;
  (if has (flags c) ZERO then output_dup 48 pad_cnt else mret tt);;
  output_list buf;;
  (if has (flags c) MINUS then output_dup 32 pad_cnt else mret tt).

(** [length] characters, which are [string]. *)
Definition format_string (string : list Z) (c : printf_conversion) : stM S unit :=
  let length := Z.of_nat (length string) in
  (if (length <? width c) && negb (has (flags c) MINUS) then output_dup 32 (width c - length) else mret tt);;
  output_list string;;
  (if (length <? width c) && has (flags c) MINUS then output_dup 32 (width c - length) else mret tt).

(** [s[0]] to [s[n - 1]]. *)
Fixpoint read_chars (n : nat) (m : mem) (s : Z) : res (list Z) :=
  match n with O => Ok [] | Datatypes.S n => c ← load m s; l ← read_chars n m (s + 1); Ok (c :: l) end.

Definition null_string : list Z := [40; 110; 117; 108; 108; 41].
Definition string_arg (m : mem) (s precision : Z) : res (list Z) :=
  if s =? NULL then Ok (take (Z.to_nat (if precision <? 0 then 6 else precision)) null_string)
  else n ← strnlen m s (u32 precision); read_chars (Z.to_nat n) m s.

(** [<<no %%%c in kernel>>] and [<<no %%%c conversion>>] *)
Definition no_in_kernel : list Z :=
  [60; 60; 110; 111; 32; 37; 37; 37; 99; 32; 105; 110; 32; 107; 101; 114; 110; 101; 108; 62; 62; 0].
Definition no_conversion : list Z :=
  [60; 60; 110; 111; 32; 37; 37; 37; 99; 32; 99; 111; 110; 118; 101; 114; 115; 105; 111; 110; 62; 62; 0].

(** [__printf] of a fixed format is a parameter here, see below. *)
Definition do_conversion (nested : list Z → va_list → stM S unit) (ch : Z) (c : printf_conversion) (args : va_list) : stM S va_list :=
  if (ch =? 100) || (ch =? 105) then
    '(value, args) ← slift (signed_arg (ctype c) args);
    format_integer (u64 (if value <? 0 then - value else value)) true (value <? 0) base_d c;; mret args
  else if (ch =? 111) || (ch =? 117) || (ch =? 120) || (ch =? 88) then
    '(value, args) ← slift (unsigned_arg (ctype c) args);
    let b := if ch =? 111 then base_o else if ch =? 117 then base_d else if ch =? 120 then base_x else base_X in
    format_integer value false false b c;; mret args
  else if ch =? 99 then
    '(w, args) ← slift (va_word args);
    format_string [u8 w] c;; mret args
  else if ch =? 115 then
    '(s, args) ← slift (va_word args);
    m ← sread mem_of;
    string ← slift (string_arg m s (precision c));
    format_string string c;; mret args
  else if ch =? 112 then
    '(p, args) ← slift (va_word args);
    format_integer p false false base_x (mk_conv POUND (width c) (precision c) (ctype c));; mret args
  else
    let kernel := (ch =? 102) || (ch =? 101) || (ch =? 69) || (ch =? 103) || (ch =? 71) || (ch =? 110) in
    nested (if kernel then no_in_kernel else no_conversion) [ch];; mret args.

Fixpoint vprintf_loop (nested : list Z → va_list → stM S unit) (fuel : nat) (fmt : list Z) (pos : nat) (args : va_list) : stM S unit :=
  match fuel with
  | O => serr EFuel
  | Datatypes.S fuel =>
      ch ← slift (char_at fmt pos);
      if ch =? 0 then mret tt
      else if negb (ch =? 37) then output ch;; vprintf_loop nested fuel fmt (Datatypes.S pos) args
      else
        ch ← slift (char_at fmt (Datatypes.S pos));
        if ch =? 37 then output 37;; vprintf_loop nested fuel fmt (pos + 2) args
        else
          '(r, args) ← slift (parse_conversion fmt (Datatypes.S pos) args);
          let '(c, pos) := (r : printf_conversion * nat) in
          ch ← slift (char_at fmt pos);
          args ← do_conversion nested ch c args;
          vprintf_loop nested fuel fmt (Datatypes.S pos) args
  end.

Definition vprintf_fixed (fmt : list Z) (args : va_list) : stM S unit :=
  vprintf_loop (λ _ _, serr EFuel) (Datatypes.S (length fmt)) fmt 0 args.
Definition __vprintf (fmt : list Z) (args : va_list) : stM S unit :=
  vprintf_loop vprintf_fixed (Datatypes.S (length fmt)) fmt 0 args.
Definition __printf := __vprintf.

End output.

(** ** Printing into a buffer *)

Record vsnprintf_aux := mk_aux { aux_p : Z; aux_length : Z; max_length : Z }.
Record buffer := mk_buffer { bmem : mem; aux : vsnprintf_aux }.

Definition vsnprintf_helper (ch : Z) : stM buffer unit := λ s,
  let a := aux s in
  if aux_length a <? max_length a then
    m ← poke (bmem s) (aux_p a) ch; Ok (tt, mk_buffer m (mk_aux (aux_p a + 1) (i32 (aux_length a + 1)) (max_length a)))
  else Ok (tt, mk_buffer (bmem s) (mk_aux (aux_p a) (i32 (aux_length a + 1)) (max_length a))).

Definition vsnprintf (m : mem) (buf buf_size : Z) (fmt : list Z) (args : va_list) : res (Z * mem) :=
  '(_, s) ← __vprintf bmem vsnprintf_helper fmt args (mk_buffer m (mk_aux buf 0 (i32 (if 0 <? buf_size then buf_size - 1 else 0))));
  m ← (if 0 <? buf_size then poke (bmem s) (aux_p (aux s)) 0 else Ok (bmem s));
  Ok (aux_length (aux s), m).
Definition snprintf := vsnprintf.

(** ** The console *)

(** [lock_depth] is [None] when no thread has the console lock; otherwise the
    running thread has it, [console_lock_depth] times more than once.  What is
    written to the serial port and the display is [out], latest first. *)
Record console := mk_console {
  use_console_lock : bool; in_intr : bool; lock_depth : option Z; write_cnt : Z; char_cnt : Z; cmem : mem; out : list Z }.

Definition console_init : stM console unit :=
  smod (λ s, mk_console true (in_intr s) None (write_cnt s) (char_cnt s) (cmem s) (out s)).
Definition console_panic : stM console unit :=
  smod (λ s, mk_console false (in_intr s) (lock_depth s) (write_cnt s) (char_cnt s) (cmem s) (out s)).
Definition set_depth (d : option Z) : stM console unit :=
  smod (λ s, mk_console (use_console_lock s) (in_intr s) d (write_cnt s) (char_cnt s) (cmem s) (out s)).

Definition acquire_console : stM console unit :=
  s ← sget;
  if negb (in_intr s) && use_console_lock s then
    set_depth (Some (match lock_depth s with Some d => d + 1 | None => 0 end))
  else mret tt.
Definition release_console : stM console unit :=
  s ← sget;
  if negb (in_intr s) && use_console_lock s then
    match lock_depth s with
    | Some d => set_depth (if 0 <? d then Some (d - 1) else None)
    | None => serr EAssert
    end
  else mret tt.
Definition console_locked_by_current_thread (s : console) : bool :=
  in_intr s || negb (use_console_lock s) || bool_decide (is_Some (lock_depth s)).

Definition putchar_have_lock (c : Z) : stM console unit :=
  s ← sget;
  sassert (console_locked_by_current_thread s);;
  smod (λ s, mk_console (use_console_lock s) (in_intr s) (lock_depth s) (i64 (write_cnt s + 1)) (char_cnt s) (cmem s) (u8 c :: out s)).
Definition vprintf_helper (c : Z) : stM console unit :=
  smod (λ s, mk_console (use_console_lock s) (in_intr s) (lock_depth s) (write_cnt s) (i32 (char_cnt s + 1)) (cmem s) (out s));;
  putchar_have_lock c.

Definition vprintf (fmt : list Z) (args : va_list) : stM console Z :=
  smod (λ s, mk_console (use_console_lock s) (in_intr s) (lock_depth s) (write_cnt s) 0 (cmem s) (out s));;
  acquire_console;;
  __vprintf cmem vprintf_helper fmt args;;
  release_console;;
  sread char_cnt.
Definition printf := vprintf.

Fixpoint put_loop (n : nat) (s : Z) : stM console unit :=
  match n with
  | O => mret tt
  | S n => m ← sread cmem; c ← slift (load m s); putchar_have_lock c;; put_loop n (s + 1)
  end.
Fixpoint puts_loop (fuel : nat) (s : Z) : stM console unit :=
  match fuel with
  | O => serr EFuel
  | S fuel =>
      m ← sread cmem; c ← slift (load m s);
      if c =? 0 then mret tt else putchar_have_lock c;; puts_loop fuel (s + 1)
  end.
Definition puts (s : Z) : stM console Z :=
  acquire_console;;
  m ← sread cmem; puts_loop (walk m) s;;
  putchar_have_lock 10;;
  release_console;; mret 0.
Definition putbuf (buffer n : Z) : stM console unit :=
  acquire_console;; put_loop (Z.to_nat n) buffer;; release_console.
Definition putchar (c : Z) : stM console Z :=
  acquire_console;; putchar_have_lock c;; release_console;; mret c.

(** [printf ("Console: %lld characters output\n", write_cnt)] *)
Definition console_print_stats : stM console unit :=
  n ← sread write_cnt;
  _ ← printf [67; 111; 110; 115; 111; 108; 101; 58; 32; 37; 108; 108; 100; 32; 99; 104; 97; 114; 97; 99; 116; 101; 114; 115; 32;
              111; 117; 116; 112; 117; 116; 10; 0] [u32 n; u32 (n / W32)];
  mret tt.

(** ** Dumps and sizes *)

Definition isprint (c : Z) : bool := (32 <=? c) && (c <? 127).

Definition fmt_offset : list Z := [37; 48; 56; 106; 120; 32; 32; 0].   (* %08jx and two spaces *)
Definition fmt_byte : list Z := [37; 48; 50; 104; 104; 120; 37; 99; 0]. (* %02hhx%c *)
Definition fmt_char : list Z := [37; 99; 0].                            (* %c *)
Definition spaces3 : list Z := [32; 32; 32; 0].
Definition space1 : list Z := [32; 0].
Definition bar : list Z := [124; 0].
Definition newline : list Z := [10; 0].

Fixpoint times (n : nat) (m : stM console unit) : stM console unit :=
  match n with O => mret tt | S n => m;; times n m end.
Definition print (fmt : list Z) (args : va_list) : stM console unit := _ ← printf fmt args; mret tt.

Fixpoint dump_bytes (n : nat) (i buf : Z) : stM console unit :=
  match n with
  | O => mret tt
  | S n =>
      m ← sread cmem; c ← slift (load m buf);
      print fmt_byte [c; if i =? 7 then 45 else 32];;
      dump_bytes n (i + 1) (buf + 1)
  end.
Fixpoint dump_chars (n : nat) (buf : Z) : stM console unit :=
  match n with
  | O => mret tt
  | S n =>
      m ← sread cmem; c ← slift (load m buf);
      print fmt_char [if isprint c then c else 46];;
      dump_chars n (buf + 1)
  end.

(** Every line but the first starts at a multiple of 16. *)
Fixpoint hex_dump_loop (fuel : nat) (ofs buf size : Z) (ascii : bool) : stM console unit :=
  if 0 <? size then
    match fuel with
    | O => serr EFuel
    | S fuel =>
        let start := ofs mod 16 in
        let stop := if size <? 16 - start then start + size else 16 in
        let n := stop - start in
        print fmt_offset [u32 (ofs - ofs mod 16); 0];;
        times (Z.to_nat start) (print spaces3 []);;
        dump_bytes (Z.to_nat n) start buf;;
        (if ascii then
           times (Z.to_nat (16 - stop)) (print spaces3 []);;
           print bar [];;
           times (Z.to_nat start) (print space1 []);;
           dump_chars (Z.to_nat n) buf;;
           times (Z.to_nat (16 - stop)) (print space1 []);;
           print bar []
         else mret tt);;
        print newline [];;
        hex_dump_loop fuel (u32 (ofs + n)) (buf + n) (size - n) ascii
    end
  else mret tt.
Definition hex_dump (ofs buf size : Z) (ascii : bool) : stM console unit :=
  hex_dump_loop (S (Z.to_nat size)) ofs buf size ascii.

(** The unit's index among bytes, kB, MB, GB and TB. *)
Fixpoint size_loop (units : nat) (size : Z) (i : nat) : Z * nat :=
  match units with
  | O => (size, i)
  | S units => if 1024 <=? size then size_loop units (size / 1024) (S i) else (size, i)
  end.
(** [printf] of a size and the unit, with the unit's string in the format. *)
Definition factors : list (list Z) :=
  [[98; 121; 116; 101; 115]; [107; 66]; [77; 66]; [71; 66]; [84; 66]].
Definition print_human_readable_size (size : Z) : stM console unit :=
  if size =? 1 then print [49; 32; 98; 121; 116; 101; 0] []
  else
    let '(size, i) := size_loop 4 size 0 in
    print ([37; 108; 108; 117; 32] ++ nth i factors [] ++ [0]) [u32 size; u32 (size / W32)].

End Stdio.
