(* ===== verification/StdioSpec.v ===== *)
(** * What formatted output prints

    [render] is the text of a format as a pure function; [__vprintf] outputs
    exactly that text, whatever the output function does with it.  From this
    follow what reaches the console and what reaches a buffer. *)

From S2P Require Import Prelude CString Arithmetic CStdlib Stdio.
Import CString Arithmetic Stdio.

(** ** The text *)

Definition dup (ch cnt : Z) : list Z := replicate (Z.to_nat cnt) ch.

Definition integer_text (value : Z) (is_signed negative : bool) (b : integer_base) (c : printf_conversion) : res (list Z) :=
  let sign := sign_char (flags c) is_signed negative in
  let x := if has (flags c) POUND && negb (value =? 0) then base_x_char b else 0 in
  buf ← integer_digits value b c;
  let pad_cnt := i32 (width c - Z.of_nat (length buf) - (if x =? 0 then 0 else 2) - (if sign =? 0 then 0 else 1)) in
  let pad_cnt := if pad_cnt <? 0 then 0 else pad_cnt in
  Ok ((if Z.land (flags c) (Z.lor MINUS ZERO) =? 0 then dup 32 pad_cnt else []) ++
      (if sign =? 0 then [] else [sign]) ++ (if x =? 0 then [] else [48; x]) ++
      (if has (flags c) ZERO then dup 48 pad_cnt else []) ++ buf ++
      (if has (flags c) MINUS then dup 32 pad_cnt else [])).

Definition string_text (string : list Z) (c : printf_conversion) : list Z :=
  let length := Z.of_nat (length string) in
  (if (length <? width c) && negb (has (flags c) MINUS) then dup 32 (width c - length) else []) ++ string ++
  (if (length <? width c) && has (flags c) MINUS then dup 32 (width c - length) else []).

Definition conversion_text (nested : list Z → va_list → res (list Z)) (str_of : Z → Z → res (list Z)) (ch : Z) (c : printf_conversion) (args : va_list) :
    res (list Z * va_list) :=
  if (ch =? 100) || (ch =? 105) then
    '(value, args) ← signed_arg (ctype c) args;
    t ← integer_text (u64 (if value <? 0 then - value else value)) true (value <? 0) base_d c; Ok (t, args)
  else if (ch =? 111) || (ch =? 117) || (ch =? 120) || (ch =? 88) then
    '(value, args) ← unsigned_arg (ctype c) args;
    t ← integer_text value false false (if ch =? 111 then base_o else if ch =? 117 then base_d else if ch =? 120 then base_x else base_X) c;
    Ok (t, args)
  else if ch =? 99 then '(w, args) ← va_word args; Ok (string_text [u8 w] c, args)
  else if ch =? 115 then '(s, args) ← va_word args; str ← str_of s (precision c); Ok (string_text str c, args)
  else if ch =? 112 then
    '(p, args) ← va_word args;
    t ← integer_text p false false base_x (mk_conv POUND (width c) (precision c) (ctype c)); Ok (t, args)
  else
    let kernel := (ch =? 102) || (ch =? 101) || (ch =? 69) || (ch =? 103) || (ch =? 71) || (ch =? 110) in
    t ← nested (if kernel then no_in_kernel else no_conversion) [ch]; Ok (t, args).

Fixpoint render_loop (nested : list Z → va_list → res (list Z)) (str_of : Z → Z → res (list Z)) (fuel : nat) (fmt : list Z) (pos : nat) (args : va_list) : res (list Z) :=
  match fuel with
  | O => Err EFuel
  | S fuel =>
      ch ← char_at fmt pos;
      if ch =? 0 then Ok []
      else if negb (ch =? 37) then t ← render_loop nested str_of fuel fmt (S pos) args; Ok (ch :: t)
      else
        ch ← char_at fmt (S pos);
        if ch =? 37 then t ← render_loop nested str_of fuel fmt (pos + 2) args; Ok (37 :: t)
        else
          '(r, args) ← parse_conversion fmt (S pos) args;
          let '(c, pos) := (r : printf_conversion * nat) in
          ch ← char_at fmt pos;
          '(t, args) ← conversion_text nested str_of ch c args;
          t' ← render_loop nested str_of fuel fmt (S pos) args;
          Ok (t ++ t')
  end.

Definition render (str_of : Z → Z → res (list Z)) (fmt : list Z) (args : va_list) : res (list Z) :=
  render_loop (λ fmt args, render_loop (λ _ _, Err EFuel) str_of (S (length fmt)) fmt 0 args) str_of (S (length fmt)) fmt 0 args.

(** More strings do not change the text. *)
Definition below {A} (x y : res A) : Prop := ∀ a, x = Ok a → y = Ok a.
Lemma below_refl {A} (x : res A) : below x x.
Proof. by intros a. Qed.
Lemma below_bind {A B} (x y : res A) (f g : A → res B) : below x y → (∀ a, below (f a) (g a)) → below (x ≫= f) (y ≫= g).
Proof. intros Hxy Hfg b. destruct x as [a|]; [|done]. rewrite (Hxy a eq_refl). apply Hfg. Qed.
#[local] Hint Resolve below_refl below_bind : core.

Section mono.
Context (nested nested' : list Z → va_list → res (list Z)) (f g : Z → Z → res (list Z)).
Context (Hnested : ∀ fmt args, below (nested fmt args) (nested' fmt args)) (Hfg : ∀ w p, below (f w p) (g w p)).

Lemma conversion_text_mono ch c args : below (conversion_text nested f ch c args) (conversion_text nested' g ch c args).
Proof. unfold conversion_text. repeat case_match; auto; apply below_bind; auto; intros []; auto. Qed.
Lemma render_loop_mono fuel fmt pos args : below (render_loop nested f fuel fmt pos args) (render_loop nested' g fuel fmt pos args).
Proof.
  revert pos args. induction fuel as [|fuel IH]; intros pos args; [done|]. cbn [render_loop].
  apply below_bind; [done|]. intros ch. repeat case_match; auto. apply below_bind; [done|]. intros ch'. case_match; auto.
  apply below_bind; [done|]. intros [[c pos'] args1]. apply below_bind; [done|]. intros ch2.
  apply below_bind; [apply conversion_text_mono|]. intros []; auto.
Qed.
End mono.

Lemma render_mono (f g : Z → Z → res (list Z)) fmt args :
  (∀ w p, below (f w p) (g w p)) → below (render f fmt args) (render g fmt args).
Proof. intros Hfg. apply render_loop_mono; [|done]. intros fmt' args'. by apply render_loop_mono. Qed.

(** ** [__vprintf] outputs the text *)

(** The branches of a chain of conditionals, [tac] in each but the last. *)
Ltac conversion_cases tac :=
  match goal with |- (if ?b then _ else _) = _ → _ => destruct b; [tac | try conversion_cases tac] end.

Section outputs.
Context {S : Type} (mem_of : S → mem) (output : Z → stM S unit) (str_of : Z → Z → res (list Z)).

(** The strings that [str_of] gives are in memory, and are there all the time
    that [l] is output from [s]. *)
Definition holds_strings (s : S) : Prop := ∀ w p str, str_of w p = Ok str → string_arg (mem_of s) w p = Ok str.
Definition stable (l : list Z) (s : S) : Prop :=
  ∀ l1 s', l1 `prefix_of` l → output_list output l1 s = Ok (tt, s') → holds_strings s'.

Lemma output_app l1 l2 s : output_list output (l1 ++ l2) s = (output_list output l1;; output_list output l2) s.
Proof.
  revert s. induction l1 as [|c l1 IH]; intros s; [done|]. cbn [app output_list]. rewrite !stM_bind_eq.
  destruct (output c s) as [[[] s1]|e]; [|done]. apply IH.
Qed.

Lemma stable_app l1 l2 s s' : stable (l1 ++ l2) s → output_list output l1 s = Ok (tt, s') → stable l2 s'.
Proof.
  intros Hs H1 l s2 Hl H2. apply (Hs (l1 ++ l)); [by apply prefix_app|]. by rewrite output_app, stM_bind_eq, H1.
Qed.
Lemma stable_now l s : stable l s → holds_strings s.
Proof. intros Hs. apply (Hs []); [apply prefix_nil|done]. Qed.
Lemma stable_cons c l s s' : stable (c :: l) s → output c s = Ok (tt, s') → stable l s'.
Proof. intros Hs H1. apply (stable_app [c] l s); [done|]. cbn [output_list]. by rewrite stM_bind_eq, H1. Qed.

(** Outputting a list in parts. *)
Lemma output_seq l1 l2 (p1 p2 : stM S unit) :
  (∀ s, p1 s = output_list output l1 s) → (∀ s, p2 s = output_list output l2 s) → ∀ s, (p1;; p2) s = output_list output (l1 ++ l2) s.
Proof.
  intros H1 H2 s. rewrite output_app, !stM_bind_eq, H1. destruct (output_list output l1 s) as [[[] s1]|]; [|done]. apply H2.
Qed.
Lemma output_one c s : output c s = output_list output [c] s.
Proof. cbn [output_list]. rewrite stM_bind_eq. by destruct (output c s) as [[[] s1]|]. Qed.
Lemma output_if (b : bool) l (p : stM S unit) :
  (∀ s, p s = output_list output l s) → ∀ s, (if b then p else mret tt) s = output_list output (if b then l else []) s.
Proof. by destruct b. Qed.
Lemma output_unless (b : bool) l (p : stM S unit) :
  (∀ s, p s = output_list output l s) → ∀ s, (if b then mret tt else p) s = output_list output (if b then [] else l) s.
Proof. by destruct b. Qed.

Lemma format_integer_outputs v sg ng b c t s :
  integer_text v sg ng b c = Ok t → format_integer output v sg ng b c s = output_list output t s.
Proof.
  unfold integer_text, format_integer. rewrite stM_bind_eq.
  destruct (integer_digits v b c) as [buf|]; [|done]. cbn [slift]. intros [= <-]. revert s.
  repeat apply output_seq; try (apply output_if || apply output_unless); try done; try apply output_one.
  by apply (output_seq [48]); apply output_one.
Qed.

Lemma format_string_outputs str c s : format_string output str c s = output_list output (string_text str c) s.
Proof. revert s. unfold format_string, string_text. repeat apply output_seq; try apply output_if; done. Qed.

(** The formats [__vprintf] calls itself with. *)
Lemma vprintf_fixed_outputs fmt w t s :
  fmt = no_in_kernel ∨ fmt = no_conversion →
  render_loop (λ _ _, Err EFuel) str_of (Datatypes.S (length fmt)) fmt 0 [w] = Ok t →
  vprintf_fixed mem_of output fmt [w] s = output_list output t s.
Proof.
  intros [-> | ->] Ht; cbv -[u8 u32] in Ht; injection Ht as <-; cbv -[u8 u32];
    repeat match goal with |- context [output ?c ?s] => destruct (output c s) as [[[] ?]|]; [|reflexivity] end; reflexivity.
Qed.

Lemma do_conversion_outputs ch c args args' t s :
  holds_strings s →
  conversion_text (λ fmt args, render_loop (λ _ _, Err EFuel) str_of (Datatypes.S (length fmt)) fmt 0 args) str_of ch c args = Ok (t, args') →
  do_conversion mem_of output (vprintf_fixed mem_of output) ch c args s = (output_list output t;; mret args') s.
Proof.
  intros Hs. unfold conversion_text, do_conversion.
  conversion_cases ltac:(rewrite stM_bind_eq).
  - destruct (signed_arg (ctype c) args) as [[v args1]|]; [|done]. cbn [slift mbind res_bind].
    destruct (integer_text _ _ _ _ _) as [t1|] eqn:Et; [|done]. intros [= -> ->].
    by rewrite !stM_bind_eq, (format_integer_outputs _ _ _ _ _ _ _ Et).
  - destruct (unsigned_arg (ctype c) args) as [[v args1]|]; [|done]. cbn [slift mbind res_bind].
    destruct (integer_text _ _ _ _ _) as [t1|] eqn:Et; [|done]. intros [= -> ->].
    by rewrite !stM_bind_eq, (format_integer_outputs _ _ _ _ _ _ _ Et).
  - destruct (va_word args) as [[v args1]|]; [|done]. intros [= <- <-]. cbn [slift].
    by rewrite !stM_bind_eq, format_string_outputs.
  - destruct (va_word args) as [[v args1]|]; [|done]. cbn [slift mbind res_bind]. unfold sread. rewrite !stM_bind_eq.
    destruct (str_of v (precision c)) as [str|] eqn:Es; [|done]. intros [= <- <-]. rewrite (Hs _ _ _ Es).
    cbn [slift]. by rewrite !stM_bind_eq, format_string_outputs.
  - destruct (va_word args) as [[v args1]|]; [|done]. cbn [slift mbind res_bind].
    destruct (integer_text _ _ _ _ _) as [t1|] eqn:Et; [|done]. intros [= -> ->].
    by rewrite !stM_bind_eq, (format_integer_outputs _ _ _ _ _ _ _ Et).
  - destruct (render_loop _ _ _ _ _ _) as [t1|] eqn:Et; [|done]. intros [= -> ->].
    rewrite !stM_bind_eq, (vprintf_fixed_outputs _ _ t); [done| |done]. case_match; auto.
Qed.

Lemma vprintf_loop_outputs fuel fmt pos args t s :
  stable t s →
  render_loop (λ fmt args, render_loop (λ _ _, Err EFuel) str_of (Datatypes.S (length fmt)) fmt 0 args) str_of fuel fmt pos args = Ok t →
  vprintf_loop mem_of output (vprintf_fixed mem_of output) fuel fmt pos args s = output_list output t s.
Proof.
  revert pos args t s. induction fuel as [|fuel IH]; intros pos args t s; [done|].
  cbn [render_loop vprintf_loop]. rewrite stM_bind_eq. destruct (char_at fmt pos) as [ch|]; [|done]. cbn [mbind res_bind slift].
  destruct (ch =? 0); [by intros Hs [= <-]|]. destruct (negb (ch =? 37)).
  { destruct (render_loop _ _ _ _ _ _) as [t1|] eqn:E; [|done]. intros Hs [= <-]. cbn [output_list]. rewrite !stM_bind_eq.
    destruct (output ch s) as [[[] s1]|] eqn:Eo; [|done]. eapply IH; [|done]. by eapply stable_cons. }
  rewrite stM_bind_eq. destruct (char_at fmt (Datatypes.S pos)) as [ch'|]; [|done]. cbn [mbind res_bind slift].
  destruct (ch' =? 37).
  { destruct (render_loop _ _ _ _ _ _) as [t1|] eqn:E; [|done]. intros Hs [= <-]. cbn [output_list]. rewrite !stM_bind_eq.
    destruct (output 37 s) as [[[] s1]|] eqn:Eo; [|done]. eapply IH; [|done]. by eapply stable_cons. }
  rewrite stM_bind_eq. destruct (parse_conversion _ _ _) as [[[c pos'] args1]|] eqn:Ep; [|done]. cbn [mbind res_bind slift].
  rewrite stM_bind_eq. destruct (char_at fmt pos') as [ch2|]; [|done]. cbn [mbind res_bind slift].
  destruct (conversion_text _ _ _ _ _) as [[t1 args2]|] eqn:Et; [|done]. cbn [mbind res_bind].
  destruct (render_loop _ _ _ _ _ _) as [t2|] eqn:Er; [|done]. intros Hs [= <-].
  rewrite stM_bind_eq, (do_conversion_outputs _ _ _ _ _ _ (stable_now _ _ Hs) Et), output_app, !stM_bind_eq.
  destruct (output_list output t1 s) as [[[] s1]|] eqn:Eo; [|done]. eapply IH; [|done].
  by eapply stable_app.
Qed.

Lemma vprintf_outputs fmt args t s :
  stable t s → render str_of fmt args = Ok t → __vprintf mem_of output fmt args s = output_list output t s.
Proof. apply vprintf_loop_outputs. Qed.
End outputs.

(** ** Into a buffer *)

(** The state after [l] was put into the [k + 1] bytes at [b]. *)
Definition buffer_after (m : mem) (b k : nat) (l : list Z) : buffer :=
  mk_buffer (splice b (map u8 (take k l)) m) (mk_aux (Z.of_nat (b + length (take k l))) (Z.of_nat (length l)) (Z.of_nat k)).

Lemma splice_nil (m : mem) b : splice b [] m = m.
Proof. unfold splice. simpl. by rewrite Nat.add_0_r, take_drop. Qed.
Lemma poke_splice (m : mem) b l c :
  (b + length l < length m)%nat → poke (splice b l m) (Z.of_nat (b + length l)) c = Ok (splice b (l ++ [u8 c]) m).
Proof.
  intros Hb. destruct (lookup_lt_is_Some_2 (splice b l m) (b + length l)%nat) as [x Hx]; [rewrite length_splice; lia|].
  unfold poke. rewrite (load_of_nat _ _ _ Hx), Nat2Z.id. cbn [mbind res_bind]. f_equal.
  rewrite <- splice_app by (simpl; lia).
  by rewrite <- insert_splice_front, splice_nil by (rewrite length_splice; simpl; lia).
Qed.

Lemma helper_step m b k l c :
  (b + k ≤ length m)%nat → Z.of_nat (length l) + 1 < W31 →
  vsnprintf_helper c (buffer_after m b k l) = Ok (tt, buffer_after m b k (l ++ [c])).
Proof.
  intros Hb Hl. unfold vsnprintf_helper, buffer_after. cbn [aux aux_length max_length aux_p bmem].
  rewrite i32_small by (unfold in_i32; lia). rewrite length_app. cbn [length].
  replace (Z.of_nat (length l + 1)) with (Z.of_nat (length l) + 1) by lia.
  destruct (Z.ltb_spec (Z.of_nat (length l)) (Z.of_nat k)) as [Hk|Hk].
  - rewrite (take_ge l) by lia. rewrite (take_ge (l ++ [c])) by (rewrite length_app; simpl; lia).
    pose proof (poke_splice m b (map u8 l) c) as Hp. rewrite length_map in Hp. rewrite Hp by lia. cbn [mbind res_bind]. do 3 f_equal.
    + by rewrite map_app.
    + rewrite length_app. simpl. f_equal; lia.
  - by rewrite !(take_app_le l) by lia.
Qed.

Lemma helper_outputs m b k l1 l2 :
  (b + k ≤ length m)%nat → Z.of_nat (length l1 + length l2) < W31 →
  output_list vsnprintf_helper l2 (buffer_after m b k l1) = Ok (tt, buffer_after m b k (l1 ++ l2)).
Proof.
  revert l1. induction l2 as [|c l2 IH]; intros l1 Hb Hl; cbn [output_list]; [by rewrite app_nil_r|].
  cbn [length] in Hl. rewrite stM_bind_eq, helper_step by lia. rewrite IH by (rewrite ?length_app; simpl; lia).
  by rewrite <- app_assoc.
Qed.

Lemma stable_buffer str_of m b k t :
  (b + k ≤ length m)%nat → Z.of_nat (length t) < W31 →
  (∀ l, (length l ≤ k)%nat → Forall in_u8 l → holds_strings (λ m, m) str_of (splice b l m)) →
  stable bmem vsnprintf_helper str_of t (buffer_after m b k []).
Proof.
  intros Hb Ht Hs l s' [l2 ->] Hl. rewrite length_app in Ht. rewrite helper_outputs in Hl by (simpl; lia).
  injection Hl as <-. apply Hs.
  - rewrite length_map, length_take. lia.
  - apply Forall_map, Forall_true. intros x. apply u8_range.
Qed.

Lemma snprintf_writes str_of m b (size : nat) fmt args t :
  (b + size ≤ length m)%nat → Z.of_nat size < W31 → Z.of_nat (length t) < W31 →
  (∀ l, (length l ≤ size)%nat → Forall in_u8 l → holds_strings (λ m, m) str_of (splice b l m)) →
  render str_of fmt args = Ok t →
  snprintf m (Z.of_nat b) (Z.of_nat size) fmt args =
    Ok (Z.of_nat (length t), if decide (size = 0%nat) then m else splice b (map u8 (take (size - 1) t) ++ [0]) m).
Proof.
  intros Hb Hsz Ht Hs Hr. unfold snprintf, vsnprintf.
  set (k := (size - 1)%nat).
  assert (mk_buffer m (mk_aux (Z.of_nat b) 0 (i32 (if 0 <? Z.of_nat size then Z.of_nat size - 1 else 0))) = buffer_after m b k []) as ->.
  { unfold buffer_after. rewrite take_nil, splice_nil. do 2 f_equal; [simpl; lia|].
    rewrite i32_small by (unfold in_i32; case_match; lia). case_match; lia. }
  rewrite (vprintf_outputs bmem vsnprintf_helper str_of fmt args t); [|apply stable_buffer; try lia|done].
  2:{ intros l Hl. apply Hs. lia. }
  rewrite helper_outputs by (simpl; lia). rewrite app_nil_l. cbn [mbind res_bind].
  unfold buffer_after. cbn [bmem aux aux_p aux_length]. case_decide as Hz.
  - subst k. subst size. rewrite take_0. simpl. by rewrite splice_nil.
  - rewrite (proj2 (Z.ltb_lt _ _)) by lia.
    pose proof (poke_splice m b (map u8 (take k t)) 0) as Hp. rewrite length_map in Hp.
    by rewrite Hp by (rewrite length_take; lia).
Qed.

(** A string that lies apart from the [size] bytes at [b]. *)
Definition apart (m : mem) (b size : nat) (w p : Z) : res (list Z) :=
  str ← string_arg m w p;
  assert ((w =? NULL) || (w + Z.of_nat (length str) <? Z.of_nat b) || (Z.of_nat (b + size) <=? w));; Ok str.

Lemma read_chars_length n m s l : read_chars n m s = Ok l → length l = n.
Proof.
  revert s l. induction n as [|n IH]; intros s l; cbn [read_chars]; [by intros [= <-]|].
  destruct (load m s); [|done]. cbn [mbind res_bind]. destruct (read_chars n m (s + 1)) eqn:E; [|done].
  intros [= <-]. cbn [length]. f_equal. by eapply IH.
Qed.
Lemma read_chars_agree n m m' s :
  (∀ x, s ≤ x < s + Z.of_nat n → load m' x = load m x) → read_chars n m' s = read_chars n m s.
Proof.
  revert s. induction n as [|n IH]; intros s Hx; [done|]. cbn [read_chars]. rewrite Hx by lia.
  rewrite IH; [done|]. intros x ?. apply Hx. lia.
Qed.
Lemma strnlen_loop_agree fuel m m' s len max n :
  strnlen_loop fuel m s len max = Ok n → (∀ x, s + len ≤ x ≤ s + n → load m' x = load m x) →
  len ≤ n ∧ strnlen_loop fuel m' s len max = Ok n.
Proof.
  revert len. induction fuel as [|fuel IH]; intros len; [done|]. cbn [strnlen_loop].
  destruct (load m (s + len)) as [c|] eqn:E; [|done]. cbn [mbind res_bind]. case_match eqn:Hc.
  - intros Hn Hx. destruct (IH _ Hn) as [Hle Hm]; [intros x ?; apply Hx; lia|].
    rewrite Hx, E by lia. cbn [mbind res_bind]. rewrite Hc. split; [lia|done].
  - intros [= <-] Hx. rewrite Hx, E by lia. cbn [mbind res_bind]. by rewrite Hc.
Qed.

Lemma load_splice_outside m b l x :
  (b + length l ≤ length m)%nat → x < Z.of_nat b ∨ Z.of_nat (b + length l) ≤ x → load (splice b l m) x = load m x.
Proof.
  intros Hb Hx. unfold load. case_match; [done|]. f_equal.
  destruct Hx; [rewrite lookup_splice_l by lia|rewrite lookup_splice_r by lia]; done.
Qed.

Lemma apart_holds m b size l :
  (b + size ≤ length m)%nat → (length l ≤ size)%nat → holds_strings (λ m, m) (apart m b size) (splice b l m).
Proof.
  intros Hb Hl w p str. unfold apart, string_arg. destruct (w =? NULL) eqn:Hw; [done|].
  destruct (strnlen m w (u32 p)) as [n|] eqn:En; [|done]. cbn [mbind res_bind].
  destruct (read_chars (Z.to_nat n) m w) as [str'|] eqn:Er; [|done]. cbn [mbind res_bind orb].
  destruct (_ || _) eqn:Ha; [|done]. intros [= ->]. rewrite orb_true_iff, Z.ltb_lt, Z.leb_le in Ha.
  pose proof (read_chars_length _ _ _ _ Er) as Hstr.
  assert (∀ x, w ≤ x ≤ w + n → load (splice b l m) x = load m x) as Hx.
  { intros x Hx. apply load_splice_outside; [lia|]. lia. }
  unfold strnlen. assert (walk (splice b l m) = walk m) as -> by (unfold walk; by rewrite length_splice by lia).
  destruct (strnlen_loop_agree _ m (splice b l m) _ _ _ _ En) as [Hn ->]; [intros; apply Hx; lia|].
  cbn [mbind res_bind]. rewrite (read_chars_agree _ m); [done|]. intros x ?. apply Hx. lia.
Qed.

(** ** To the console *)

(** The lock is not held more times than it counts. *)
Definition depth_ok (s : console) : Prop := ∀ d, lock_depth s = Some d → 0 ≤ d.

(** [s'] is [s] but for [l] having been written. *)
Definition wrote (l : list Z) (s s' : console) : Prop :=
  out s' = reverse (map u8 l) ++ out s ∧ lock_depth s' = lock_depth s ∧ use_console_lock s' = use_console_lock s ∧
  in_intr s' = in_intr s ∧ cmem s' = cmem s ∧ i64 (write_cnt s') = i64 (write_cnt s + Z.of_nat (length l)).

Lemma console_outputs l s :
  console_locked_by_current_thread s = true → 0 ≤ char_cnt s → char_cnt s + Z.of_nat (length l) < W31 →
  ∃ s', output_list vprintf_helper l s = Ok (tt, s') ∧ wrote l s s' ∧ char_cnt s' = char_cnt s + Z.of_nat (length l).
Proof.
  revert s. induction l as [|c l IH]; intros s Hl Hc Hn; cbn [output_list length] in *.
  { exists s. split; [done|]. split; [|lia]. split_and!; try done. f_equal. simpl. lia. }
  set (s1 := mk_console (use_console_lock s) (in_intr s) (lock_depth s) (i64 (write_cnt s + 1)) (i32 (char_cnt s + 1)) (cmem s) (u8 c :: out s)).
  assert (vprintf_helper c s = Ok (tt, s1)) as Hs1.
  { unfold vprintf_helper, putchar_have_lock. rewrite !stM_bind_eq. cbn [smod]. rewrite !stM_bind_eq. cbn [sget].
    rewrite stM_bind_eq. change (console_locked_by_current_thread _) with (console_locked_by_current_thread s). by rewrite Hl. }
  assert (char_cnt s1 = char_cnt s + 1) as Hc1 by (cbn [s1 char_cnt]; apply i32_small; unfold in_i32; lia).
  destruct (IH s1) as (s' & Ho & (H1 & H2 & H3 & H4 & H5 & H6) & Hcc); [done|lia..|].
  exists s'. rewrite (stM_bind_run _ _ _ _ _ Hs1). split; [done|]. split; [|lia]. split_and!; try done.
  - rewrite H1. cbn [map]. by rewrite reverse_cons, <- app_assoc.
  - rewrite H6. cbn [s1 write_cnt]. destruct (i64_wrap (write_cnt s + 1)) as [k ->].
    rewrite <- (i64_add (write_cnt s + _) k). f_equal. cbn [length]. lia.
Qed.

Lemma stable_console t s : stable cmem vprintf_helper (string_arg (cmem s)) t s.
Proof.
  intros l s' _ Hl w p str. assert (cmem s' = cmem s) as ->; [|done]. revert s Hl.
  induction l as [|c l IH]; intros s; cbn [output_list]; [by intros [= <-]|].
  intros ([] & s1 & H1 & Hl)%stM_bind_inv. rewrite (IH s1 Hl). revert H1. unfold vprintf_helper, putchar_have_lock.
  rewrite !stM_bind_eq. cbn [smod]. rewrite !stM_bind_eq. cbn [sget]. rewrite stM_bind_eq.
  unfold sassert. destruct (console_locked_by_current_thread _); [|done]. by intros [= <-].
Qed.

Lemma printf_writes fmt args t s :
  depth_ok s → Z.of_nat (length t) < W31 → render (string_arg (cmem s)) fmt args = Ok t →
  ∃ s', printf fmt args s = Ok (Z.of_nat (length t), s') ∧ wrote t s s'.
Proof.
  intros Hd Ht Hr. unfold printf, vprintf.
  set (s0 := mk_console (use_console_lock s) (in_intr s) (lock_depth s) (write_cnt s) 0 (cmem s) (out s)).
  rewrite (stM_bind_run _ _ _ tt s0) by done.
  set (locking := negb (in_intr s) && use_console_lock s).
  set (d1 := if locking then Some (match lock_depth s with Some d => d + 1 | None => 0 end) else lock_depth s).
  set (s1 := mk_console (use_console_lock s) (in_intr s) d1 (write_cnt s) 0 (cmem s) (out s)).
  rewrite (stM_bind_run _ _ s0 tt s1).
  2:{ unfold acquire_console. rewrite stM_bind_eq. cbn [sget]. unfold s1, d1, locking. by destruct (negb _ && _). }
  destruct (console_outputs t s1) as (s2 & Ho & (H1 & H2 & H3 & H4 & H5 & H6) & Hc); [|done|done|].
  { unfold console_locked_by_current_thread, s1, d1, locking. cbn. by destruct (in_intr s), (use_console_lock s). }
  rewrite (stM_bind_run _ _ s1 tt s2).
  2:{ rewrite (vprintf_outputs _ _ (string_arg (cmem s1)) _ _ t); [done|apply stable_console|done]. }
  set (s3 := mk_console (use_console_lock s2) (in_intr s2) (lock_depth s) (write_cnt s2) (char_cnt s2) (cmem s2) (out s2)).
  rewrite (stM_bind_run _ _ s2 tt s3).
  - exists s3. unfold sread. cbn [s3 char_cnt]. rewrite Hc. split; [done|]. by split_and!.
  - unfold release_console. rewrite stM_bind_eq. cbn [sget]. rewrite H3, H4, H2.
    change (negb (in_intr s1) && use_console_lock s1) with locking. cbn [s1 lock_depth]. unfold d1 in *. destruct locking.
    + unfold set_depth, smod, s3. destruct (lock_depth s) as [d|] eqn:Ed; [|done]. specialize (Hd d Ed).
      rewrite (proj2 (Z.ltb_lt _ _)) by lia. by replace (d + 1 - 1) with d by lia.
    + unfold s3. destruct s2. cbn in *. by subst.
Qed.

(** C13: [printf] and [snprintf] agree.  Let [t] be the text that the format
    and the arguments denote, where the strings to print lie apart from the
    buffer.  [printf] writes exactly [t] to the console, whose lock it leaves
    as it was; [snprintf] puts as much of [t] as fits into the buffer, always
    with a terminator unless the buffer is empty, writes nothing else, and
    both return the length of [t]. *)
Theorem snprintf_printf s b (size : nat) fmt args t :
  (b + size ≤ length (cmem s))%nat → Z.of_nat size < W31 → Z.of_nat (length t) < W31 → depth_ok s →
  render (apart (cmem s) b size) fmt args = Ok t →
  (∃ s', printf fmt args s = Ok (Z.of_nat (length t), s') ∧ wrote t s s') ∧
  snprintf (cmem s) (Z.of_nat b) (Z.of_nat size) fmt args =
    Ok (Z.of_nat (length t), if decide (size = 0%nat) then cmem s else splice b (map u8 (take (size - 1) t) ++ [0]) (cmem s)).
Proof.
  intros Hb Hsz Ht Hd Hr. split; [apply printf_writes; [done..|]|].
  - eapply render_mono, Hr. intros w p str. unfold apart.
    destruct (string_arg _ _ _); [|done]. cbn [mbind res_bind]. by destruct (_ || _).
  - eapply snprintf_writes; try done. intros l Hl _. by apply apart_holds.
Qed.

(** ** The digits *)

Definition digit_of (c : Z) : Z := if c <=? 57 then c - 48 else if c <=? 70 then c - 55 else c - 87.
(** The number that digits with commas between them denote. *)
Definition denote_from (base v : Z) (l : list Z) : Z :=
  fold_left (λ v c, if c =? 44 then v else v * base + digit_of c) l v.
Definition denotes (base : Z) (l : list Z) : Z := denote_from base 0 l.
Definition digit_cnt (l : list Z) : Z := Z.of_nat (length (filter (λ c, c ≠ 44) l)).

Lemma denote_from_eq base v l : denote_from base v l = v * base ^ digit_cnt l + denotes base l.
Proof.
  unfold denotes. revert v. induction l as [|c l IH]; intros v; [unfold denote_from, digit_cnt; simpl; lia|].
  unfold digit_cnt. rewrite filter_cons. unfold denote_from in *. cbn [fold_left]. destruct (Z.eqb_spec c 44) as [->|Hc].
  - rewrite decide_False by auto. apply IH.
  - rewrite decide_True by done. cbn [length]. rewrite IH, (IH (0 * base + _)). unfold digit_cnt.
    rewrite Nat2Z.inj_succ, Z.pow_succ_r by lia. lia.
Qed.

Lemma denotes_cons base c l :
  denotes base (c :: l) = (if c =? 44 then 0 else digit_of c) * base ^ digit_cnt l + denotes base l.
Proof.
  change (denotes base (c :: l)) with (denote_from base (if c =? 44 then 0 else 0 * base + digit_of c) l).
  rewrite denote_from_eq. f_equal.
Qed.

Definition bases : list integer_base := [base_d; base_o; base_x; base_X].
Lemma bases_cases b : b ∈ bases → b = base_d ∨ b = base_o ∨ b = base_x ∨ b = base_X.
Proof. unfold bases. set_solver. Qed.
Lemma bases_digits b d :
  b ∈ bases → 0 ≤ d < base b → ∃ c, digits b !! Z.to_nat d = Some c ∧ c ∈ digits b ∧ digit_of c = d ∧ c ≠ 44.
Proof.
  intros Hb Hd. apply bases_cases in Hb.
  assert (∀ n, (n < Z.to_nat (base b))%nat → ∃ c, digits b !! n = Some c ∧ digit_of c = Z.of_nat n ∧ c ≠ 44) as Hn.
  { intros n Hn. destruct_or! Hb; subst b; cbn in Hn; do 16 (destruct n as [|n]; [(by eexists) || (exfalso; lia)|]); lia. }
  destruct (Hn (Z.to_nat d)) as (c & Hc & Hv & Hne); [lia|]. exists c. split_and!; [done| |lia|done].
  by eapply list_elem_of_lookup_2.
Qed.

(** Every character is a digit, or a comma when groups are asked for. *)
Definition digit_ok (b : integer_base) (fl c : Z) : Prop := c ∈ digits b ∨ c = 44 ∧ has fl GROUP = true.

Lemma push_ok c l : (length l < BUF_SIZE)%nat → push c l = Ok (c :: l).
Proof. intros Hl. unfold push. by rewrite (proj2 (Nat.ltb_lt _ _)). Qed.

Lemma digit_loop_spec k fuel value b fl cnt l :
  b ∈ bases → 0 ≤ value < base b ^ Z.of_nat k → (k ≤ fuel)%nat → (length l + 2 * k ≤ BUF_SIZE)%nat → Forall (digit_ok b fl) l →
  ∃ l', digit_loop fuel value b fl cnt l = Ok l' ∧ (length l' ≤ length l + 2 * k)%nat ∧ Forall (digit_ok b fl) l' ∧
    denotes (base b) l' = value * base b ^ digit_cnt l + denotes (base b) l.
Proof.
  intros Hb. assert (8 ≤ base b) as Hbase by (by apply bases_cases in Hb; destruct_or! Hb; subst b; cbn).
  revert fuel value cnt l. induction k as [|k IH]; intros fuel value cnt l Hv Hf Hl Hok.
  { exists l. assert (value = 0) as -> by (rewrite Z.pow_0_r in Hv; lia). split_and!; [by destruct fuel|lia|done|lia]. }
  destruct fuel as [|fuel]; [lia|]. cbn [digit_loop]. destruct (Z.ltb_spec 0 value) as [Hpos|].
  2:{ exists l. split_and!; [done|lia|done|]. replace value with 0 by lia. lia. }
  assert (∃ l1, (if has fl GROUP && (0 <? cnt) && (cnt mod group b =? 0) then push 44 l else Ok l) = Ok l1 ∧
    (length l1 ≤ S (length l))%nat ∧ Forall (digit_ok b fl) l1 ∧ digit_cnt l1 = digit_cnt l ∧ denotes (base b) l1 = denotes (base b) l)
    as (l1 & -> & Hl1 & Hok1 & Hc1 & Hd1).
  { case_match eqn:Hg; [|exists l; split_and!; done || lia]. rewrite push_ok by lia. exists (44 :: l). split_and!; try done.
    constructor; [|done]. right. by destruct (has fl GROUP). }
  cbn [mbind res_bind]. pose proof (Z.mod_pos_bound value (base b)) as Hm.
  destruct (bases_digits b (value mod base b) Hb) as (c & -> & Hin & Hdig & Hne); [lia|]. cbn [mbind res_bind deref].
  rewrite push_ok by (unfold BUF_SIZE in *; lia). cbn [mbind res_bind].
  destruct (IH fuel (value / base b) (cnt + 1) (c :: l1)) as (l' & -> & Hl' & Hok' & Hd'); [|lia|simpl; lia|by constructor; [left|]|].
  { rewrite Nat2Z.inj_succ, Z.pow_succ_r in Hv by lia. split; [apply Z.div_pos; lia|]. apply Z.div_lt_upper_bound; lia. }
  exists l'. split_and!; [done|simpl in Hl'; lia|done|]. rewrite Hd', denotes_cons, Hdig, Hc1, Hd1.
  rewrite (proj2 (Z.eqb_neq c 44)) by done.
  assert (digit_cnt (c :: l1) = digit_cnt l + 1) as ->.
  { unfold digit_cnt in *. rewrite filter_cons_True by done. cbn [length]. lia. }
  rewrite Z.pow_add_r by (unfold digit_cnt; lia). rewrite Z.pow_1_r.
  rewrite (Z.div_mod value (base b)) at 3 by lia. lia.
Qed.

Lemma zero_loop_spec fuel p l :
  (BUF_SIZE - 1 ≤ length l + fuel)%nat →
  ∃ n, zero_loop fuel p l = Ok (replicate n 48 ++ l) ∧ (n + length l ≤ Nat.max (length l) (BUF_SIZE - 1))%nat ∧
    Z.min p (Z.of_nat BUF_SIZE - 1) ≤ Z.of_nat (n + length l).
Proof.
  revert l. induction fuel as [|fuel IH]; intros l Hf; cbn [zero_loop];
    destruct (Z.ltb_spec (Z.of_nat (length l)) p); destruct (Nat.ltb_spec (length l) (BUF_SIZE - 1)); cbn [andb];
    try (exfalso; lia); try (exists 0%nat; split_and!; [done|simpl; lia|simpl; lia]).
  rewrite push_ok by (unfold BUF_SIZE in *; lia). cbn [mbind res_bind].
  destruct (IH (48 :: l)) as (n & -> & Hn & Hp); [cbn [length]; lia|]. exists (S n). cbn [length] in *. split_and!; [|lia..].
  rewrite replicate_S_end, <- app_assoc. done.
Qed.

Lemma denotes_zeros base n l : denotes base (replicate n 48 ++ l) = denotes base l.
Proof. induction n as [|n IH]; [done|]. cbn [replicate app]. rewrite denotes_cons, IH. change (if 48 =? 44 then 0 else digit_of 48) with 0. lia. Qed.

Lemma integer_digits_spec value b c :
  b ∈ bases → in_u64 value →
  ∃ l, integer_digits value b c = Ok l ∧ (length l ≤ BUF_SIZE)%nat ∧ Forall (digit_ok b (flags c)) l ∧
    denotes (base b) l = value ∧ Z.min (if precision c <? 0 then 1 else precision c) (Z.of_nat BUF_SIZE - 1) ≤ Z.of_nat (length l).
Proof.
  intros Hb Hv. assert (8 ≤ base b) as Hbase by (by apply bases_cases in Hb; destruct_or! Hb; subst b; cbn).
  assert (value < base b ^ Z.of_nat 22) as Hlt.
  { apply Z.lt_le_trans with (8 ^ 22); [unfold in_u64 in Hv; lia|]. apply Z.pow_le_mono_l. lia. }
  unfold integer_digits.
  destruct (digit_loop_spec 22 BUF_SIZE value b (flags c) 0 []) as (l & -> & Hl & Hok & Hd);
    [done|unfold in_u64 in Hv; lia|unfold BUF_SIZE; lia|unfold BUF_SIZE; simpl; lia|constructor|].
  cbn [mbind res_bind length] in *. set (p := if precision c <? 0 then 1 else precision c).
  destruct (zero_loop_spec BUF_SIZE p l) as (n & -> & Hn & Hp); [lia|]. cbn [mbind res_bind].
  assert (48 ∈ digits b) as H48 by (apply bases_cases in Hb; destruct_or! Hb; subst b; set_solver).
  assert (Forall (digit_ok b (flags c)) (replicate n 48 ++ l)) as Hok'.
  { apply Forall_app. split; [|done]. apply Forall_replicate. by left. }
  assert (denotes (base b) (replicate n 48 ++ l) = value) as Hd'.
  { rewrite denotes_zeros, Hd. unfold digit_cnt, denotes, denote_from. simpl. lia. }
  case_match.
  - rewrite push_ok by (rewrite length_app, length_replicate; unfold BUF_SIZE in *; lia).
    eexists. split_and!; [done|..]; rewrite ?length_cons, ?length_app, ?length_replicate.
    + unfold BUF_SIZE in *. lia.
    + by constructor; [left|].
    + change (48 :: replicate n 48 ++ l) with (replicate (S n) 48 ++ l). by rewrite denotes_zeros, <- (denotes_zeros _ n).
    + lia.
  - eexists. split_and!; [done|..|done|]; rewrite ?length_app, ?length_replicate; unfold BUF_SIZE in *; try lia; done.
Qed.

Lemma length_dup c n : 0 ≤ n → Z.of_nat (length (dup c n)) = n.
Proof. intros Hn. unfold dup. rewrite length_replicate. lia. Qed.

(** C32: Whatever value of 64 bits is printed in base 8, 10 or 16, and with
    whatever flags, width and precision, [format_integer] prints it: the digits
    fit the 64 characters of [buf], commas between groups included; they are
    digits of the base that denote the value, as many as the precision asks for
    up to 63; and the text printed is padded to the field's width. *)
Theorem format_integer_prints {S} (output : Z → stM S unit) value is_signed negative b c s :
  b ∈ bases → in_u64 value → in_i32 (width c) → 0 ≤ width c →
  ∃ l t, integer_digits value b c = Ok l ∧ (length l ≤ BUF_SIZE)%nat ∧ Forall (digit_ok b (flags c)) l ∧
    denotes (base b) l = value ∧ Z.min (if precision c <? 0 then 1 else precision c) 63 ≤ Z.of_nat (length l) ∧
    format_integer output value is_signed negative b c s = output_list output t s ∧
    l `sublist_of` t ∧ width c ≤ Z.of_nat (length t).
Proof.
  intros Hb Hv Hw Hw0. destruct (integer_digits_spec value b c Hb Hv) as (l & Hl & Hlen & Hok & Hd & Hp).
  exists l. destruct (integer_text value is_signed negative b c) as [t|] eqn:Et.
  2:{ unfold integer_text in Et. by rewrite Hl in Et. }
  exists t. split_and!; [done..|by apply format_integer_outputs| |].
  - unfold integer_text in Et. rewrite Hl in Et. injection Et as <-.
    do 4 apply sublist_inserts_l. by apply sublist_inserts_r.
  - unfold integer_text in Et. rewrite Hl in Et. cbn [mbind res_bind] in Et. injection Et as <-.
    set (x := if has (flags c) POUND && negb (value =? 0) then base_x_char b else 0).
    set (sign := sign_char (flags c) is_signed negative).
    rewrite i32_small by (unfold in_i32, BUF_SIZE in *; repeat case_match; lia).
    set (pad := if _ <? 0 then 0 else _).
    assert (width c ≤ pad + Z.of_nat (length l) + (if x =? 0 then 0 else 2) + (if sign =? 0 then 0 else 1) ∧ 0 ≤ pad) as [Hpad Hpad0].
    { unfold pad. match goal with |- context [?a <? 0] => destruct (Z.ltb_spec a 0) end; lia. }
    rewrite !length_app.
    assert (pad ≤ Z.of_nat (length (if Z.land (flags c) (Z.lor MINUS ZERO) =? 0 then dup 32 pad else [])) +
      Z.of_nat (length (if has (flags c) ZERO then dup 48 pad else [])) + Z.of_nat (length (if has (flags c) MINUS then dup 32 pad else []))).
    { unfold has. destruct (Z.eqb_spec (Z.land (flags c) (Z.lor MINUS ZERO)) 0) as [|Hne].
      - rewrite length_dup by done. lia.
      - destruct (Z.eqb_spec (Z.land (flags c) ZERO) 0) as [Hz|]; [|cbn [negb]; rewrite (length_dup 48) by done; lia].
        destruct (Z.eqb_spec (Z.land (flags c) MINUS) 0) as [Hm|]; [|cbn [negb]; rewrite (length_dup 32) by done; lia].
        destruct Hne. by rewrite Z.land_lor_distr_r, Hz, Hm. }
    repeat case_match; cbn [length] in *; lia.
Qed.

(** ** Printing a number and reading it back *)

Lemma i32_u32 n : in_i32 n → i32 (u32 (u32 n)) = n.
Proof. unfold in_i32, i32, u32. intros Hn. dlia. Qed.

Lemma denotes_dec l : Forall (λ c, CStdlib.isdigit c = true) l → denotes 10 l = CStdlib.dec l.
Proof.
  unfold denotes, denote_from, CStdlib.dec. generalize 0. induction l as [|c l IH]; intros v Hl; [done|].
  apply Forall_cons in Hl as [Hc Hl]. cbn [fold_left]. rewrite <- IH by done. unfold CStdlib.isdigit in Hc. bool_props.
  rewrite (proj2 (Z.eqb_neq c 44)) by lia. unfold digit_of. by rewrite (proj2 (Z.leb_le c 57)) by lia.
Qed.

Definition fmt_d : list Z := [37; 100; 0].

Lemma render_d f n :
  in_i32 n →
  ∃ ds, render f fmt_d [u32 n] = Ok ((if n <? 0 then [45] else []) ++ ds) ∧ ds ≠ [] ∧ (length ds ≤ BUF_SIZE)%nat ∧
    Forall (λ c, CStdlib.isdigit c = true) ds ∧ CStdlib.dec ds = Z.abs n.
Proof.
  intros Hn. set (c := mk_conv 0 0 (-1) INT). set (v := u64 (if n <? 0 then - n else n)).
  assert (v = Z.abs n) as Hv.
  { unfold v. rewrite u64_small by (unfold in_u64, in_i32 in *; case_match; lia). destruct (Z.ltb_spec n 0); lia. }
  destruct (integer_digits_spec v base_d c) as (ds & Hds & Hlen & Hok & Hd & Hp);
    [unfold bases; set_solver|rewrite Hv; unfold in_u64, in_i32 in *; lia|].
  assert (Forall (λ c, CStdlib.isdigit c = true) ds) as Hdig.
  { eapply Forall_impl; [done|]. intros x [Hx|[_ ?]]; [|done].
    assert (Forall (λ x, CStdlib.isdigit x = true) (digits base_d)) as Hall by by repeat constructor.
    by eapply Forall_forall in Hall. }
  exists ds. split_and!; [|by intros ->|done..|by rewrite <- denotes_dec, <- Hv by done].
  assert (integer_text v true (n <? 0) base_d c = Ok ((if n <? 0 then [45] else []) ++ ds)) as Ht.
  { unfold integer_text. rewrite Hds. cbn [mbind res_bind c flags width]. f_equal.
    change (has 0 POUND && _) with false. change (Z.land 0 _ =? 0) with true. change (has 0 ZERO) with false.
    change (has 0 MINUS) with false. rewrite i32_small by (unfold in_i32, BUF_SIZE in *; repeat case_match; lia).
    match goal with |- context [?a <? 0] => rewrite (proj2 (Z.ltb_lt a 0)) end.
    - cbn [dup]. rewrite app_nil_r. by destruct (n <? 0).
    - destruct ds; [done|]. repeat case_match; cbn [length]; lia. }
  enough (∀ N, render_loop N f 4 fmt_d 0 [u32 n] = Ok ((if n <? 0 then [45] else []) ++ ds)) as HN by apply HN.
  intros N. cbn [fmt_d render_loop]. change (char_at _ 0) with (Ok 37 : res Z). cbn [mbind res_bind].
  change (37 =? 0) with false. change (37 =? 37) with true. cbn [negb]. change (char_at _ 1) with (Ok 100 : res Z). cbn [mbind res_bind].
  change (100 =? 37) with false. change (parse_conversion _ 1 _) with (Ok (c, 1%nat, [u32 n])). cbn [mbind res_bind].
  change (char_at _ 1) with (Ok 100 : res Z). cbn [mbind res_bind]. unfold conversion_text.
  change ((100 =? 100) || _) with true. cbn [signed_arg ctype c va_word mbind res_bind]. rewrite (i32_u32 n Hn). fold v c.
  rewrite Ht. cbn [mbind res_bind]. change (char_at _ 2) with (Ok 0 : res Z). cbn [mbind res_bind].
  change (0 =? 0) with true. cbn [mbind res_bind]. by rewrite app_nil_r.
Qed.

(** Numbers survive printing and parsing: for every [int], [snprintf] of
    ["%d"] into a buffer returns, and when the length it returns says that the
    text fitted, [atoi] of the buffer is the number. *)
Lemma snprintf_atoi m (b size : nat) n :
  Forall in_u8 m → (0 < b)%nat → (b + size ≤ length m)%nat → Z.of_nat size < W31 → in_i32 n →
  ∃ len m', snprintf m (Z.of_nat b) (Z.of_nat size) fmt_d [u32 n] = Ok (len, m') ∧ 0 < len ≤ 65 ∧
    (len < Z.of_nat size → CStdlib.atoi m' (Z.of_nat b) = Ok n).
Proof.
  intros Hm Hb0 Hb Hsz Hn. destruct (render_d (apart m b size) n Hn) as (ds & Hr & Hne & Hlen & Hdig & Hdec).
  set (sg := if n <? 0 then [45] else []) in *.
  assert (length sg ≤ 1)%nat as Hsg by (unfold sg; case_match; simpl; lia).
  assert (0 < length ds)%nat as Hpos by (destruct ds; simpl; [done|lia]).
  eexists _, _. split; [eapply snprintf_writes, Hr; try done|split].
  - rewrite length_app. unfold BUF_SIZE in Hlen. lia.
  - intros l Hl _. by apply apart_holds.
  - rewrite length_app. unfold BUF_SIZE in Hlen. lia.
  - intros Hfit. rewrite decide_False by lia.
    assert (Forall (λ c, c ≠ 0 ∧ in_u8 c) (sg ++ ds)) as Hstr.
    { apply Forall_app. split; [unfold sg; case_match; by repeat constructor|]. eapply Forall_impl; [done|].
      intros c Hc. unfold CStdlib.isdigit in Hc. bool_props. unfold in_u8. lia. }
    rewrite take_ge by lia. assert (map u8 (sg ++ ds) = sg ++ ds) as ->.
    { rewrite <- (map_id (sg ++ ds)) at 2. apply map_ext_Forall. eapply Forall_impl; [done|]. intros c [_ ?]. by apply u8_small. }
    rewrite (CStdlib.atoi_spec _ _ [] sg ds []); try done.
    + f_equal. rewrite Hdec. unfold sg. destruct (Z.ltb_spec n 0).
      * rewrite decide_True by done. rewrite i32_small by (unfold in_i32 in *; lia). lia.
      * rewrite decide_False by done. rewrite i32_small by (unfold in_i32 in *; lia). lia.
    + rewrite app_nil_l, app_nil_r. apply cstr_splice; [done| |lia]. eapply Forall_impl; [done|]. by intros c [].
    + unfold sg. case_match; set_solver.
Qed.

(** ** Examples *)

Definition sample_console : console := mk_console true false (Some 0) 7 0 (replicate 30 120 ++ [104; 105; 0; 120]) [10].
(** ["%-4d%s"] *)
Definition sample_fmt : list Z := [37; 45; 52; 100; 37; 115; 0].

Lemma snprintf_printf_witness :
  render (apart (cmem sample_console) 2 6) sample_fmt [u32 (- 7); 30] = Ok [45; 55; 32; 32; 104; 105] ∧
  snprintf (cmem sample_console) 2 6 sample_fmt [u32 (- 7); 30] =
    Ok (6, replicate 2 120 ++ [45; 55; 32; 32; 104; 0] ++ replicate 22 120 ++ [104; 105; 0; 120]).
Proof.
  split; [reflexivity|].
  pose proof (snprintf_printf sample_console 2 6 sample_fmt [u32 (- 7); 30] [45; 55; 32; 32; 104; 105]) as H.
  destruct H as [_ H]; [cbn; lia|lia|cbn; lia|intros d [= <-]; lia|reflexivity|exact H].
Defined.

Lemma format_integer_prints_witness :
  ∃ l, integer_digits (W64 - 1) base_o (mk_conv (Z.lor POUND GROUP) 8 63 INT) = Ok l ∧ (length l ≤ BUF_SIZE)%nat ∧ denotes 8 l = W64 - 1.
Proof.
  destruct (format_integer_prints (λ c (s : list Z), Ok (tt, c :: s)) (W64 - 1) false false base_o
    (mk_conv (Z.lor POUND GROUP) 8 63 INT) []) as (l & t & H1 & H2 & _ & H3 & _);
    [unfold bases; set_solver|unfold in_u64; lia|cbn; unfold in_i32; lia|cbn; lia|].
  exists l. split; [exact H1|]. split; [exact H2|exact H3].
Defined.

