(* ===== verification/Ustar.v ===== *)
(** * lib/ustar.c: headers of ustar archives

    The header is 512 bytes of the memory of CString.v, at address [h]; the
    string literals of the file have addresses of their own, a [rodata].
    [ustar_make_header] writes with the routines of string.c and [snprintf],
    and reports a name that is too long on the console, so that it is an
    operation on the console's state, whose memory is the one it writes. *)

From S2P Require Import Prelude CString CStdlib Stdio StdioSpec.

Module Ustar.
Import CString Stdio.

(** ** The header *)

Definition USTAR_HEADER_SIZE : Z := 512.
Definition HEADER_BYTES : nat := 512.

(** Offsets and sizes of the fields of [struct ustar_header]. *)
Record field := mk_field { ofs : nat; len : nat }.
Definition f_name : field := mk_field 0 100.
Definition f_mode : field := mk_field 100 8.
Definition f_uid : field := mk_field 108 8.
Definition f_gid : field := mk_field 116 8.
Definition f_size : field := mk_field 124 12.
Definition f_mtime : field := mk_field 136 12.
Definition f_chksum : field := mk_field 148 8.
Definition f_typeflag : field := mk_field 156 1.
Definition f_magic : field := mk_field 257 6.
Definition f_version : field := mk_field 263 2.
Definition f_uname : field := mk_field 265 32.
Definition f_gname : field := mk_field 297 32.
Definition f_prefix : field := mk_field 345 155.

(** [&h->f] and [sizeof h->f] *)
Definition at_ (h : Z) (f : field) : Z := h + Z.of_nat (ofs f).
Definition size_of (f : field) : Z := Z.of_nat (len f).

Inductive ustar_type := USTAR_REGULAR | USTAR_DIRECTORY | USTAR_EOF.
#[export] Instance ustar_type_eq_dec : EqDecision ustar_type.
Proof. solve_decision. Defined.
Definition type_no (t : ustar_type) : Z :=
  match t with USTAR_REGULAR => 48 | USTAR_DIRECTORY => 53 | USTAR_EOF => -1 end.

(** Where the string literals are. *)
Record rodata := mk_rodata {
  ro_dot : Z; ro_dotdot : Z; ro_dotslash : Z; ro_dotdotslash : Z; ro_zeros : Z; ro_ustar : Z; ro_root : Z }.

(** ** Checksum *)

Fixpoint chksum_loop (n : nat) (m : mem) (h i chksum : Z) : res Z :=
  match n with
  | O => Ok chksum
  | S n =>
      c ← load m (h + i);
      let start := Z.of_nat (ofs f_chksum) in
      let in_chksum_field := (start <=? i) && (i <? start + size_of f_chksum) in
      chksum_loop n m h (i + 1) (u32 (chksum + if in_chksum_field then 32 else c))
  end.
Definition calculate_chksum (m : mem) (h : Z) : res Z := chksum_loop HEADER_BYTES m h 0 0.

(** ** File names *)

(** [*file_name == '/' || !memcmp (file_name, "./", 2) || !memcmp (file_name, "../", 3)] *)
Definition antisocial (ro : rodata) (m : mem) (file_name : Z) : res bool :=
  c ← load m file_name;
  if c =? 47 then Ok true
  else
    r ← memcmp m file_name (ro_dotslash ro) 2;
    if r =? 0 then Ok true else r ← memcmp m file_name (ro_dotdotslash ro) 3; Ok (r =? 0).

(** Every turn moves the pointer up; the fuel is more than the memory's size. *)
Fixpoint strip_loop (fuel : nat) (ro : rodata) (m : mem) (file_name : Z) : res Z :=
  match fuel with
  | O => Err EFuel
  | S fuel =>
      b ← antisocial ro m file_name;
      if (b : bool) then p ← strchr m file_name 47; strip_loop fuel ro m (p + 1) else Ok file_name
  end.

Definition strip_antisocial_prefixes (ro : rodata) (m : mem) (file_name : Z) : res Z :=
  file_name ← strip_loop (walk m) ro m file_name;
  c ← load m file_name;
  if c =? 0 then Ok (ro_dot ro)
  else r ← strcmp m file_name (ro_dotdot ro); Ok (if r =? 0 then ro_dot ro else file_name).

(** ** Making a header *)

(** An operation on the memory that the console prints from. *)
Definition on_mem {A} (f : mem → res (A * mem)) : stM console A := λ s,
  '(a, m) ← f (cmem s);
  Ok (a, mk_console (use_console_lock s) (in_intr s) (lock_depth s) (write_cnt s) (char_cnt s) m (out s)).
Definition query {A} (f : mem → res A) : stM console A := λ s, a ← f (cmem s); Ok (a, s).
Definition store (m : mem) (a v : Z) : res (unit * mem) := m ← poke m a v; Ok (tt, m).

Definition fmt_octal7 : list Z := [37; 48; 55; 111; 0].          (* %07o *)
Definition fmt_octal11 : list Z := [37; 48; 49; 49; 111; 0].     (* %011o *)
(** [%s: file name too long] and a newline *)
Definition fmt_too_long : list Z :=
  [37; 115; 58; 32; 102; 105; 108; 101; 32; 110; 97; 109; 101; 32; 116; 111; 111; 32; 108; 111; 110; 103; 10; 0].
Definition MTIME : Z := 1136102400.

(** Everything but the checksum. *)
Definition fill_header (ro : rodata) (file_name : Z) (type : ustar_type) (size h : Z) (m : mem) : res mem :=
  '(_, m) ← memset m h 0 USTAR_HEADER_SIZE;
  '(_, m) ← strlcpy m (at_ h f_name) file_name (size_of f_name);
  '(_, m) ← snprintf m (at_ h f_mode) (size_of f_mode) fmt_octal7 [if decide (type = USTAR_REGULAR) then 420 else 493];
  '(_, m) ← strlcpy m (at_ h f_uid) (ro_zeros ro) (size_of f_uid);
  '(_, m) ← strlcpy m (at_ h f_gid) (ro_zeros ro) (size_of f_gid);
  '(_, m) ← snprintf m (at_ h f_size) (size_of f_size) fmt_octal11 [u32 size];
  '(_, m) ← snprintf m (at_ h f_mtime) (size_of f_size) fmt_octal11 [MTIME];
  m ← poke m (at_ h f_typeflag) (type_no type);
  '(_, m) ← strlcpy m (at_ h f_magic) (ro_ustar ro) (size_of f_magic);
  m ← poke m (at_ h f_version + 1) 48;
  m ← poke m (at_ h f_version) 48;
  '(_, m) ← strlcpy m (at_ h f_gname) (ro_root ro) (size_of f_gname);
  '(_, m) ← strlcpy m (at_ h f_uname) (ro_root ro) (size_of f_uname);
  Ok m.

Definition write_header (ro : rodata) (file_name : Z) (type : ustar_type) (size h : Z) (m : mem) : res (unit * mem) :=
  m ← fill_header ro file_name type size h m;
  c ← calculate_chksum m h;
  '(_, m) ← snprintf m (at_ h f_chksum) (size_of f_chksum) fmt_octal7 [c];
  Ok (tt, m).

Definition ustar_make_header (ro : rodata) (file_name : Z) (type : ustar_type) (size h : Z) : stM console bool :=
  sassert (bool_decide (type = USTAR_REGULAR) || bool_decide (type = USTAR_DIRECTORY));;
  file_name ← query (λ m, strip_antisocial_prefixes ro m file_name);
  n ← query (λ m, strlen m file_name);
  if 99 <? n then _ ← printf fmt_too_long [file_name]; mret false
  else on_mem (write_header ro file_name type size h);; mret true.

(** ** Parsing a header *)

(** [None] is the result false. *)
Fixpoint octal_loop (n : nat) (m : mem) (s ofs value : Z) : res (option Z) :=
  match n with
  | O => Ok None
  | S n =>
      c ← load m (s + ofs);
      if (48 <=? c) && (c <=? 55) then
        if (W32 - 1) / 8 <? value then Ok None
        else octal_loop n m s (ofs + 1) (u32 (c - 48 + value * 8))
      else if (c =? 32) || (c =? 0) then Ok (if 0 <? ofs then Some value else None)
      else Ok None
  end.
Definition parse_octal_field (m : mem) (s size : Z) : res (option Z) := octal_loop (Z.to_nat size) m s 0 0.

Fixpoint is_all_zeros (cnt : nat) (m : mem) (block : Z) : res bool :=
  match cnt with
  | O => Ok true
  | S cnt => c ← load m block; if negb (c =? 0) then Ok false else is_all_zeros cnt m (block + 1)
  end.

(** The messages, and what is stored through the pointers. *)
Inductive ustar_error :=
| NotUstar | InvalidVersion | CorruptChksum | ChksumMismatch | FileNameTooLong | UnimplementedType | CorruptSize | FileTooLarge.
Inductive parsed := Bad (e : ustar_error) | Good (file_name : Z) (type : ustar_type) (size : Z).

(** The size of a regular file. *)
Definition parse_size (m : mem) (h : Z) : res (ustar_error + Z) :=
  v ← parse_octal_field m (at_ h f_size) (size_of f_size);
  Ok match v with
     | None => inl CorruptSize
     | Some size_ul => if W31 - 1 <? size_ul then inl FileTooLarge else inr size_ul
     end.

Definition parse_rest (ro : rodata) (m : mem) (h : Z) : res parsed :=
  typeflag ← load m (at_ h f_typeflag);
  if negb (typeflag =? type_no USTAR_REGULAR) && negb (typeflag =? type_no USTAR_DIRECTORY) then Ok (Bad UnimplementedType)
  else
    let regular := typeflag =? type_no USTAR_REGULAR in
    size ← (if regular then parse_size m h else Ok (inr 0));
    match size with
    | inl e => Ok (Bad e)
    | inr size_ul =>
        file_name ← strip_antisocial_prefixes ro m (at_ h f_name);
        Ok (Good file_name (if regular then USTAR_REGULAR else USTAR_DIRECTORY) (i32 size_ul))
    end.

Definition ustar_parse_header (ro : rodata) (m : mem) (h : Z) : res parsed :=
  z ← is_all_zeros HEADER_BYTES m h;
  if (z : bool) then Ok (Good NULL USTAR_EOF 0)
  else
    r ← memcmp m (at_ h f_magic) (ro_ustar ro) 6;
    if negb (r =? 0) then Ok (Bad NotUstar)
    else
      v0 ← load m (at_ h f_version); v1 ← load m (at_ h f_version + 1);
      if negb (v0 =? 48) || negb (v1 =? 48) then Ok (Bad InvalidVersion)
      else
        chksum ← parse_octal_field m (at_ h f_chksum) (size_of f_chksum);
        match chksum with
        | None => Ok (Bad CorruptChksum)
        | Some chksum =>
            c ← calculate_chksum m h;
            if negb (chksum =? c) then Ok (Bad ChksumMismatch)
            else
              l ← load m (at_ h f_name + size_of f_name - 1); p ← load m (at_ h f_prefix);
              if negb (l =? 0) || negb (p =? 0) then Ok (Bad FileNameTooLong) else parse_rest ro m h
        end.

End Ustar.
