(* ===== verification/UstarSpec.v ===== *)
(** * Archive headers: making and parsing

    A header that [ustar_make_header] writes is parsed back by
    [ustar_parse_header]; parsing is safe on any 512 bytes, and a name that it
    returns never leads out of the directory it is extracted into by a leading
    slash or dots. *)

From S2P Require Import Prelude CString CStdlib Stdio StdioSpec Ustar.
Import CString Stdio Ustar.

(** ** Names without dangerous prefixes *)

Definition bad_prefix (s : list Z) : bool :=
  bool_decide ([47] `prefix_of` s) || bool_decide ([46; 47] `prefix_of` s) || bool_decide ([46; 46; 47] `prefix_of` s).

(** Drops up to a slash as long as there is a prefix to drop. *)
Fixpoint strip (skip : bool) (s : list Z) : list Z :=
  match s with
  | [] => []
  | c :: r => if skip then strip (negb (c =? 47)) r else if bad_prefix s then strip (negb (c =? 47)) r else s
  end.
Definition safe_name (s : list Z) : list Z :=
  let t := strip false s in if decide (t = [] ∨ t = [46; 46]) then [46] else t.

Definition sociable (s : list Z) : Prop := s ≠ [] ∧ s ≠ [46; 46] ∧ bad_prefix s = false.

Lemma bad_prefix_cases s :
  bad_prefix s = true → ∃ p r, s = p ++ 47 :: r ∧ 47 ∉ p ∧ strip false s = strip false r.
Proof.
  unfold bad_prefix. rewrite !orb_true_iff, !bool_decide_eq_true. intros [[[r ->]|[r ->]]|[r ->]].
  - exists [], r. split_and!; [done|set_solver|done].
  - exists [46], r. split_and!; [done|set_solver|]. cbn [strip app]. unfold bad_prefix.
    by rewrite (bool_decide_eq_true_2 ([46; 47] `prefix_of` 46 :: 47 :: r) ltac:(by exists r)), orb_true_r.
  - exists [46; 46], r. split_and!; [done|set_solver|]. cbn [strip app]. unfold bad_prefix.
    by rewrite (bool_decide_eq_true_2 ([46; 46; 47] `prefix_of` 46 :: 46 :: 47 :: r) ltac:(by exists r)), orb_true_r.
Qed.

Lemma strip_id s : bad_prefix s = false → strip false s = s.
Proof. destruct s; [done|]. cbn [strip]. by intros ->. Qed.

Lemma strip_good n s : (length s ≤ n)%nat → bad_prefix (strip false s) = false.
Proof.
  revert s. induction n as [|n IH]; intros s Hn; [destruct s; [done|simpl in Hn; lia]|].
  destruct (bad_prefix s) eqn:E; [|by rewrite strip_id].
  destruct (bad_prefix_cases s E) as (p & r & -> & _ & ->). apply IH. rewrite length_app in Hn. simpl in Hn. lia.
Qed.

Lemma safe_sociable s : sociable (safe_name s).
Proof.
  unfold safe_name, sociable. case_decide as Hd; [done|].
  split_and!; [naive_solver..|]. by apply (strip_good (length s)).
Qed.

Lemma safe_again s : sociable s → safe_name s = s.
Proof. intros (? & ? & Hb). unfold safe_name. rewrite (strip_id _ Hb), decide_False; [done|]. naive_solver. Qed.

Lemma memcmp_prefix_loop m a b s t :
  cstr m a s → cstr m b t → ∃ r, memcmp_loop (length t) m a b = Ok r ∧ (r = 0 ↔ t `prefix_of` s).
Proof.
  revert a b s. induction t as [|y t IH]; intros a b s Hs Ht; cbn [memcmp_loop length].
  { exists 0. split; [done|]. split; [intros; apply prefix_nil|done]. }
  apply cstr_cons in Ht as (Hy & Hy0 & Ht). destruct s as [|x s].
  - rewrite (cstr_nil _ _ Hs), Hy. cbn [mbind res_bind]. rewrite (proj2 (Z.eqb_neq 0 y)) by done. cbn [negb].
    eexists. split; [done|]. split; [by case_match|by intros ?%prefix_nil_not].
  - apply cstr_cons in Hs as (Hx & _ & Hs). rewrite Hx, Hy. cbn [mbind res_bind]. destruct (Z.eqb_spec x y) as [->|Hne]; cbn [negb].
    + destruct (IH _ _ _ Hs Ht) as (r & Hr & Hp). exists r. split; [done|]. rewrite Hp.
      split; [apply prefix_cons|apply prefix_cons_inv_2].
    + eexists. split; [done|]. split; [by case_match|]. intros ->%prefix_cons_inv_1. done.
Qed.

Lemma memcmp_prefix m a b s t :
  cstr m a s → cstr m b t → ∃ r, memcmp m a b (Z.of_nat (length t)) = Ok r ∧ (r =? 0) = bool_decide (t `prefix_of` s).
Proof.
  intros Hs Ht. destruct (memcmp_prefix_loop m a b s t Hs Ht) as (r & Hr & Hp). exists r. unfold memcmp, valid.
  rewrite (cstr_valid _ _ _ Hs), (cstr_valid _ _ _ Ht), Nat2Z.id. split; [done|].
  destruct (Z.eqb_spec r 0); [rewrite bool_decide_eq_true_2|rewrite bool_decide_eq_false_2]; naive_solver.
Qed.

(** ** The literals *)

(** Neither the string nor its terminator meets the header at [h]. *)
Definition outside (h : nat) (a : Z) (s : list Z) : Prop := a + Z.of_nat (length s) < Z.of_nat h ∨ Z.of_nat (h + HEADER_BYTES) ≤ a.
Definition literal (m : mem) (h : nat) (a : Z) (s : list Z) : Prop := cstr m a s ∧ outside h a s.

Record rodata_ok (m : mem) (h : nat) (ro : rodata) : Prop := {
  rok_dot : literal m h (ro_dot ro) [46];
  rok_dotdot : literal m h (ro_dotdot ro) [46; 46];
  rok_dotslash : literal m h (ro_dotslash ro) [46; 47];
  rok_dotdotslash : literal m h (ro_dotdotslash ro) [46; 46; 47];
  rok_zeros : literal m h (ro_zeros ro) (replicate 7 48);
  rok_ustar : literal m h (ro_ustar ro) [117; 115; 116; 97; 114];
  rok_root : literal m h (ro_root ro) [114; 111; 111; 116] }.

Section names.
Context (m : mem) (h : nat) (ro : rodata) (Hm : Forall in_u8 m) (Hro : rodata_ok m h ro).

Lemma antisocial_spec a s : cstr m a s → antisocial ro m a = Ok (bad_prefix s).
Proof.
  intros Hs. unfold antisocial, bad_prefix. destruct Hro as [_ _ [H2 _] [H3 _] _ _ _].
  destruct (memcmp_prefix m a _ s _ Hs H2) as (r2 & Hr2 & Hp2). destruct (memcmp_prefix m a _ s _ Hs H3) as (r3 & Hr3 & Hp3).
  cbn [length] in Hr2, Hr3. change (Z.of_nat 2) with 2 in Hr2. change (Z.of_nat 3) with 3 in Hr3.
  assert (∃ c, load m a = Ok c ∧ (c =? 47) = bool_decide ([47] `prefix_of` s)) as (c & -> & Hc).
  { destruct s as [|x s]; [exists 0; split; [by apply cstr_nil|done]|]. apply cstr_cons in Hs as (Hx & _ & _). exists x. split; [done|].
    destruct (Z.eqb_spec x 47) as [->|]; [rewrite bool_decide_eq_true_2; [done|]; by exists s|].
    rewrite bool_decide_eq_false_2; [done|]. by intros ?%prefix_cons_inv_1. }
  cbn [mbind res_bind]. rewrite Hc. destruct (bool_decide ([47] `prefix_of` s)); [done|]. rewrite Hr2. cbn [mbind res_bind].
  rewrite Hp2. destruct (bool_decide ([46; 47] `prefix_of` s)); [done|]. rewrite Hr3. cbn [mbind res_bind orb]. by rewrite Hp3.
Qed.

Lemma find_slash p r : 47 ∉ p → find_index (λ x, x =? 47) (p ++ 47 :: r) = Some (length p).
Proof.
  induction p as [|c p IH]; intros Hp; [done|]. cbn [app find_index length]. apply not_elem_of_cons in Hp as [Hc Hp].
  rewrite (proj2 (Z.eqb_neq c 47)) by done. by rewrite IH.
Qed.

Lemma strip_loop_spec fuel a s :
  cstr m a s → (length s < fuel)%nat →
  ∃ k, (k ≤ length s)%nat ∧ strip_loop fuel ro m a = Ok (a + Z.of_nat k) ∧ drop k s = strip false s.
Proof.
  revert a s. induction fuel as [|fuel IH]; intros a s Hs Hf; [lia|]. cbn [strip_loop].
  rewrite (antisocial_spec a s Hs). cbn [mbind res_bind]. destruct (bad_prefix s) eqn:Hb.
  - destruct (bad_prefix_cases s Hb) as (p & r & -> & Hp & Hstrip).
    rewrite (strchr_spec m a _ 47 Hs) by (unfold in_u8; lia). unfold chr_result.
    rewrite <- app_assoc. cbn [app]. rewrite find_slash by done. cbn [mbind res_bind].
    assert (cstr m (a + Z.of_nat (length p) + 1) r) as Hr.
    { apply cstr_app in Hs. by apply cstr_cons in Hs as (_ & _ & Hs). }
    rewrite length_app in Hf. simpl in Hf. destruct (IH _ r Hr) as (k & Hk & -> & Hd); [lia|].
    exists (length p + S k)%nat. split_and!; [rewrite length_app; simpl; lia|f_equal; lia|].
    rewrite Hstrip, <- Hd, <- drop_drop, drop_app_length. done.
  - exists 0%nat. split_and!; [lia|f_equal; lia|]. by rewrite strip_id.
Qed.

Lemma cstr_drop a s k : cstr m a s → (k ≤ length s)%nat → cstr m (a + Z.of_nat k) (drop k s).
Proof.
  intros Hs Hk. rewrite <- (take_drop k s) in Hs. apply cstr_app in Hs. by rewrite length_take, Nat.min_l in Hs.
Qed.

Lemma strcmp_zero a b s t : cstr m a s → cstr m b t → ∃ r, strcmp m a b = Ok r ∧ (r =? 0) = bool_decide (s = t).
Proof.
  intros Hs Ht. destruct (strcmp_lexicographic m a b s t Hm Hs Ht) as (r & Hr & Heq & _). exists r. split; [done|].
  destruct (Z.eqb_spec r 0); [rewrite bool_decide_eq_true_2|rewrite bool_decide_eq_false_2]; naive_solver.
Qed.

Lemma strip_antisocial_spec a s :
  cstr m a s →
  ∃ p, strip_antisocial_prefixes ro m a = Ok p ∧ cstr m p (safe_name s) ∧ (outside h a s → outside h p (safe_name s)) ∧
    (p = ro_dot ro ∨ a ≤ p).
Proof.
  intros Hs. unfold strip_antisocial_prefixes.
  destruct (strip_loop_spec (walk m) a s Hs) as (k & Hk & -> & Hd); [by apply (cstr_walk m a s)|]. cbn [mbind res_bind].
  pose proof (cstr_drop a s k Hs Hk) as Ht. unfold safe_name. rewrite <- Hd. destruct Hro as [[Hdot Hdo] [Hdd _] _ _ _ _ _].
  destruct (drop k s) as [|c t] eqn:Et.
  { rewrite (cstr_nil _ _ Ht). exists (ro_dot ro). rewrite decide_True by auto. split_and!; auto. }
  destruct (cstr_cons _ _ _ _ Ht) as (-> & Hc & _). cbn [mbind res_bind]. rewrite (proj2 (Z.eqb_neq c 0)) by done.
  destruct (strcmp_zero _ _ _ _ Ht Hdd) as (r & -> & Hr). cbn [mbind res_bind]. rewrite Hr. case_bool_decide as Heq.
  - exists (ro_dot ro). rewrite decide_True by auto. split_and!; auto.
  - exists (a + Z.of_nat k). rewrite decide_False by naive_solver. split_and!; [done..| |lia].
    apply (f_equal length) in Et. rewrite length_drop in Et. unfold outside. lia.
Qed.
End names.

(** ** Parsing octal fields *)

Definition octal (c : Z) : Prop := 48 ≤ c ≤ 55.
Lemma octal_digit c : octal c → digit_of c = c - 48 ∧ (c =? 44) = false ∧ c ≠ 0.
Proof. unfold octal, digit_of. intros. rewrite (proj2 (Z.leb_le c 57)), (proj2 (Z.eqb_neq c 44)) by lia. lia. Qed.

Lemma denote_mono v l : 0 ≤ v → Forall octal l → v ≤ denote_from 8 v l.
Proof.
  revert v. induction l as [|c l IH]; intros v Hv Hl; [done|]. apply Forall_cons in Hl as [Hc Hl].
  destruct (octal_digit c Hc) as (Hd & H44 & _). unfold denote_from in *. cbn [fold_left]. rewrite H44, Hd.
  unfold octal in Hc. etransitivity; [|apply IH; [lia|done]]. lia.
Qed.

Lemma octal_loop_spec t n m s o v :
  cstr m (s + o) t → Forall octal t → (length t < n)%nat → 0 ≤ o → 0 < o + Z.of_nat (length t) → 0 ≤ v →
  denote_from 8 v t < W32 → octal_loop n m s o v = Ok (Some (denote_from 8 v t)).
Proof.
  revert n o v. induction t as [|c t IH]; intros [|n] o v Hs Ht Hn Ho Hpos Hv Hlt; cbn [length] in *; try lia; cbn [octal_loop].
  - rewrite (cstr_nil _ _ Hs). cbn. by rewrite (proj2 (Z.ltb_lt 0 o)) by lia.
  - apply cstr_cons in Hs as (-> & _ & Hs). apply Forall_cons in Ht as [Hc Ht].
    destruct (octal_digit c Hc) as (Hd & H44 & _). unfold octal in Hc. cbn [mbind res_bind].
    rewrite (proj2 (Z.leb_le 48 c)), (proj2 (Z.leb_le c 55)) by lia. cbn [andb].
    assert (denote_from 8 v (c :: t) = denote_from 8 (v * 8 + (c - 48)) t) as Heq.
    { unfold denote_from. cbn [fold_left]. by rewrite H44, Hd. }
    rewrite Heq in *. pose proof (denote_mono (v * 8 + (c - 48)) t ltac:(lia) Ht).
    rewrite (proj2 (Z.ltb_ge _ v)) by (change ((W32 - 1) / 8) with 536870911; lia).
    rewrite u32_small by (unfold in_u32; lia). replace (c - 48 + v * 8) with (v * 8 + (c - 48)) by lia.
    apply IH; try done; try lia. by rewrite Z.add_assoc.
Qed.

Lemma octal_loop_total n m (s : nat) o v :
  0 ≤ o → (s + Z.to_nat o + n ≤ length m)%nat → in_u32 v →
  ∃ r, octal_loop n m (Z.of_nat s) o v = Ok r ∧ ∀ x, r = Some x → in_u32 x.
Proof.
  revert o v. induction n as [|n IH]; intros o v Ho Hn Hv; cbn [octal_loop]; [by exists None|].
  destruct (lookup_lt_is_Some_2 m (s + Z.to_nat o)) as [c Hc]; [lia|].
  replace (Z.of_nat s + o) with (Z.of_nat (s + Z.to_nat o)) by lia. rewrite (load_of_nat _ _ _ Hc). cbn [mbind res_bind].
  case_match; [case_match; [by exists None|]|case_match; [|by exists None]].
  - apply IH; [lia..|auto with pintos].
  - eexists. split; [done|]. intros x. case_match; naive_solver.
Qed.

(** ** Printing octal fields *)

Lemma digit_loop_short k fuel v b fl cnt l l' :
  b ∈ bases → has fl GROUP = false → 0 ≤ v < base b ^ Z.of_nat k → digit_loop fuel v b fl cnt l = Ok l' →
  (length l' ≤ length l + k)%nat.
Proof.
  intros Hb Hg. assert (8 ≤ base b) as Hbase by (by apply bases_cases in Hb; destruct_or! Hb; subst b; cbn).
  revert fuel v cnt l. induction k as [|k IH]; intros fuel v cnt l Hv.
  { change (base b ^ Z.of_nat 0) with 1 in Hv. assert (v = 0) as -> by lia. destruct fuel; intros [= <-]; lia. }
  destruct fuel as [|fuel]; cbn [digit_loop]; destruct (Z.ltb_spec 0 v); try done; try (intros [= <-]; lia).
  rewrite Hg. cbn [andb]. cbn [mbind res_bind]. destruct (deref _) as [d|]; [|done]. cbn [mbind res_bind].
  unfold push. case_match; [|done]. cbn [mbind res_bind]. intros Hl. apply IH in Hl; [cbn [length] in Hl; lia|].
  rewrite Nat2Z.inj_succ, Z.pow_succ_r in Hv by lia. split; [apply Z.div_pos; lia|]. apply Z.div_lt_upper_bound; lia.
Qed.

Lemma octal_digits_spec w v c :
  flags c = ZERO → precision c = -1 → (1 ≤ w)%nat → 0 ≤ v < 8 ^ Z.of_nat w → v < W64 →
  ∃ l, integer_digits v base_o c = Ok l ∧ (length l ≤ w)%nat ∧ Forall octal l ∧ denotes 8 l = v.
Proof.
  intros Hf Hp Hw Hv Hv64. assert (base_o ∈ bases) as Hb by (unfold bases; set_solver).
  destruct (integer_digits_spec v base_o c Hb) as (l & Hl & _ & Hok & Hd & _); [unfold in_u64; lia|].
  exists l. split_and!; [done| | |done].
  - revert Hl. unfold integer_digits. rewrite Hf, Hp. destruct (digit_loop BUF_SIZE v base_o ZERO 0 []) as [l1|] eqn:E; [|done].
    apply (digit_loop_short w) in E; [|done..]. cbn [length] in E. cbn [mbind res_bind].
    change (if -1 <? 0 then 1 else -1) with 1. destruct (zero_loop BUF_SIZE 1 l1) as [l2|] eqn:E2; [|done].
    change (has ZERO POUND) with false. cbn [andb mbind res_bind]. intros [= <-].
    destruct l1 as [|d l1]; [vm_compute in E2; injection E2 as <-; simpl; lia|].
    cbv [zero_loop BUF_SIZE] in E2. rewrite (proj2 (Z.ltb_ge (Z.of_nat (length (d :: l1))) 1)) in E2 by (simpl; lia). by injection E2 as <-.
  - eapply Forall_impl; [done|]. rewrite Hf. intros x [Hx|[_ ?]]; [|done]. unfold octal.
    assert (Forall (λ x, 48 ≤ x ≤ 55) (digits base_o)) as Hall by (repeat (constructor; [lia|]); constructor).
    by eapply Forall_forall in Hall.
Qed.

(** The format [%0wo] prints [w] digits. *)
Lemma octal_text w v c :
  c = mk_conv ZERO (Z.of_nat w) (-1) INT → (1 ≤ w ≤ 20)%nat → 0 ≤ v < 8 ^ Z.of_nat w → v < W64 →
  ∃ t, integer_text v false false base_o c = Ok t ∧ length t = w ∧ Forall octal t ∧ denotes 8 t = v.
Proof.
  intros -> Hw Hv Hv64. destruct (octal_digits_spec w v (mk_conv ZERO (Z.of_nat w) (-1) INT)) as (l & Hl & Hlen & Ho & Hd); [done..|lia|done|done|].
  exists (replicate (w - length l) 48 ++ l). unfold integer_text. rewrite Hl. cbn [mbind res_bind flags width].
  change (has ZERO POUND && _) with false. change (sign_char ZERO false false) with 0. change (0 =? 0) with true.
  change (Z.land ZERO (Z.lor MINUS ZERO) =? 0) with false. change (has ZERO ZERO) with true. change (has ZERO MINUS) with false.
  cbn iota. rewrite !Z.sub_0_r. rewrite i32_small by (unfold in_i32; lia). rewrite (proj2 (Z.ltb_ge _ 0)) by lia.
  unfold dup. replace (Z.to_nat (Z.of_nat w - Z.of_nat (length l))) with (w - length l)%nat by lia. cbn [app]. rewrite app_nil_r.
  split_and!; [done|rewrite length_app, length_replicate; lia| |by rewrite denotes_zeros].
  apply Forall_app. split; [|done]. apply Forall_replicate. unfold octal. lia.
Qed.

Definition no_strings (_ _ : Z) : res (list Z) := Err EFault.

Lemma render_octal fmt w v :
  fmt = fmt_octal7 ∧ w = 7%nat ∨ fmt = fmt_octal11 ∧ w = 11%nat → 0 ≤ v < 8 ^ Z.of_nat w → v < W32 →
  ∃ t, render no_strings fmt [v] = Ok t ∧ length t = w ∧ Forall octal t ∧ denotes 8 t = v.
Proof.
  intros Hfmt Hv H32. assert (1 ≤ w ≤ 20)%nat as Hw by lia.
  destruct (octal_text w v _ eq_refl Hw Hv ltac:(lia)) as (t & Ht & Hlen & Ho & Hd). exists t. split_and!; try done.
  assert (∀ pos N fuel, fmt !! 0%nat = Some 37 → fmt !! 1%nat = Some 48 →
    parse_conversion fmt 1 [v] = Ok (mk_conv ZERO (Z.of_nat w) (-1) INT, pos, [v]) → fmt !! pos = Some 111 → fmt !! S pos = Some 0 →
    render_loop N no_strings (S (S fuel)) fmt 0 [v] = Ok t) as Hgo.
  { intros pos N fuel H0 H1 Hp H2 H3. cbn [render_loop]. unfold char_at. rewrite H0. cbn [deref mbind res_bind].
    change (37 =? 0) with false. change (37 =? 37) with true. cbn [negb]. rewrite H1. cbn [deref mbind res_bind].
    change (48 =? 37) with false. rewrite Hp. cbn [mbind res_bind]. rewrite H2. cbn [deref mbind res_bind].
    unfold conversion_text. change ((111 =? 100) || _) with false. change ((111 =? 111) || _ || _ || _) with true. cbn iota.
    cbn [unsigned_arg ctype va_word mbind res_bind]. rewrite u32_small by (unfold in_u32; lia). change (111 =? 111) with true. cbn iota.
    rewrite Ht. cbn [mbind res_bind]. rewrite H3. cbn [deref mbind res_bind]. change (0 =? 0) with true. cbn [mbind res_bind].
    by rewrite app_nil_r. }
  destruct Hfmt as [[-> ->]|[-> ->]]; [apply (Hgo 3%nat)|apply (Hgo 4%nat)]; reflexivity.
Qed.

Lemma octal_u8 t : Forall octal t → map u8 t = t.
Proof.
  intros Ht. rewrite <- (map_id t) at 2. apply map_ext_Forall. eapply Forall_impl; [done|]. intros c ?. apply u8_small.
  unfold octal, in_u8 in *. lia.
Qed.

Lemma snprintf_octal fmt w v m (b : nat) :
  fmt = fmt_octal7 ∧ w = 7%nat ∨ fmt = fmt_octal11 ∧ w = 11%nat → 0 ≤ v < 8 ^ Z.of_nat w → v < W32 → (b + S w ≤ length m)%nat →
  ∃ t, snprintf m (Z.of_nat b) (Z.of_nat (S w)) fmt [v] = Ok (Z.of_nat w, splice b (t ++ [0]) m) ∧
    length t = w ∧ Forall octal t ∧ denotes 8 t = v.
Proof.
  intros Hfmt Hv H32 Hb. destruct (render_octal fmt w v Hfmt Hv H32) as (t & Hr & Hlen & Ho & Hd). exists t. split_and!; try done.
  rewrite (snprintf_writes no_strings m b (S w) fmt [v] t); [|lia..| |done].
  - rewrite decide_False by lia. do 2 f_equal; [lia|]. do 2 f_equal. replace (S w - 1)%nat with w by lia.
    rewrite <- Hlen, take_ge by lia. by apply octal_u8.
  - intros l _ _ x p str. by unfold no_strings.
Qed.

(** ** A header in memory *)

Definition header_ok (hdr : list Z) : Prop := length hdr = HEADER_BYTES ∧ Forall in_u8 hdr.
Lemma header_splice hdr o x : header_ok hdr → (o + length x ≤ HEADER_BYTES)%nat → Forall in_u8 x → header_ok (splice o x hdr).
Proof. intros [Hl Hu] Ho Hx. split; [rewrite length_splice; lia|by apply Forall_splice]. Qed.

Section header.
Context (m : mem) (h : nat) (Hm : Forall in_u8 m) (Hh0 : (0 < h)%nat) (Hh : (h + HEADER_BYTES ≤ length m)%nat).
Implicit Types hdr : list Z.

(** A header of 512 bytes, [hdr], in place. *)
Definition put (hdr : list Z) : mem := splice h hdr m.

Lemma put_length hdr : header_ok hdr → length (put hdr) = length m.
Proof. intros [Hl _]. unfold put. rewrite length_splice; lia. Qed.
Lemma put_u8 hdr : header_ok hdr → Forall in_u8 (put hdr).
Proof. intros [_ Hu]. by apply Forall_splice. Qed.
Lemma put_splice hdr o x :
  header_ok hdr → (o + length x ≤ HEADER_BYTES)%nat → splice (h + o) x (put hdr) = put (splice o x hdr).
Proof.
  intros [Hl Hu] Ho. unfold put. apply list_eq. intros i.
  assert (length (splice h hdr m) = length m) by (rewrite length_splice; lia).
  assert (length (splice o x hdr) = length hdr) by (rewrite length_splice; lia).
  destruct (decide (i < h)%nat); [by rewrite !lookup_splice_l by lia|].
  destruct (decide (h + HEADER_BYTES ≤ i)%nat); [by rewrite !lookup_splice_r by lia|].
  rewrite (lookup_splice_m h) by lia. destruct (decide (i < h + o)%nat).
  - rewrite (lookup_splice_l (h + o)), (lookup_splice_m h), lookup_splice_l by lia. done.
  - destruct (decide (i < h + o + length x)%nat).
    + rewrite !lookup_splice_m by lia. f_equal. lia.
    + rewrite (lookup_splice_r (h + o)), (lookup_splice_m h), lookup_splice_r by lia. done.
Qed.

Lemma slice_put hdr o n : header_ok hdr → (o + n ≤ HEADER_BYTES)%nat → slice (h + o) n (put hdr) = slice o n hdr.
Proof.
  intros [Hl _] Ho. apply list_eq. intros i. destruct (decide (i < n)%nat).
  - rewrite !lookup_slice by lia. unfold put. rewrite lookup_splice_m by lia. f_equal. lia.
  - by rewrite !lookup_slice_ge by lia.
Qed.

Lemma load_put hdr o c : header_ok hdr → hdr !! o = Some c → load (put hdr) (Z.of_nat (h + o)) = Ok c.
Proof.
  intros [Hl _] Ho. pose proof (lookup_lt_Some _ _ _ Ho). apply load_of_nat. unfold put. rewrite lookup_splice_m by lia.
  by replace (h + o - h)%nat with o by lia.
Qed.

Lemma cstr_put hdr a s : header_ok hdr → cstr m a s → outside h a s → cstr (put hdr) a s.
Proof.
  intros [Hl _] (Ha & Hs & Hc) Ho. split_and!; [done..|]. intros i c Hi. rewrite <- (Hc i c Hi).
  apply lookup_lt_Some in Hi. rewrite length_app in Hi. simpl in Hi.
  apply load_splice_outside; [lia|]. rewrite Hl. unfold outside in Ho. lia.
Qed.

(** What the writing routines do to the header. *)
Lemma set_loop_spec n b v m1 :
  (b + n ≤ length m1)%nat → set_loop n m1 (Z.of_nat b) v = Ok (splice b (replicate n (u8 v)) m1).
Proof.
  revert b m1. induction n as [|n IH]; intros b m1 Hb; cbn [set_loop replicate]; [by rewrite splice_nil|].
  pose proof (poke_splice m1 b [] v) as Hp. cbn [length app] in Hp. rewrite splice_nil, Nat.add_0_r in Hp. rewrite Hp by lia.
  cbn [mbind res_bind]. replace (Z.of_nat b + 1) with (Z.of_nat (b + 1)) by lia. rewrite IH by (rewrite length_splice; simpl; lia).
  f_equal. apply (splice_app b [u8 v]). rewrite length_replicate. simpl. lia.
Qed.

Lemma clear_header : memset m (Z.of_nat h) 0 USTAR_HEADER_SIZE = Ok (Z.of_nat h, put (replicate HEADER_BYTES 0)).
Proof.
  unfold memset, valid, NULL. rewrite (proj2 (Z.eqb_neq (Z.of_nat h) 0)) by lia. cbn [negb orb assert].
  change (Z.to_nat USTAR_HEADER_SIZE) with HEADER_BYTES. rewrite set_loop_spec by done. done.
Qed.

Lemma poke_header hdr o v :
  header_ok hdr → (o < HEADER_BYTES)%nat → poke (put hdr) (Z.of_nat (h + o)) v = Ok (put (splice o [u8 v] hdr)).
Proof.
  intros Hok Ho. pose proof (poke_splice (put hdr) (h + o) [] v) as Hp. cbn [length app] in Hp.
  rewrite splice_nil, Nat.add_0_r in Hp. rewrite Hp by (rewrite put_length by done; lia). f_equal. apply put_splice; [done|simpl; lia].
Qed.

Lemma strlcpy_header hdr o size a s :
  header_ok hdr → cstr m a s → outside h a s → (length s < size)%nat → (o + size ≤ HEADER_BYTES)%nat →
  strlcpy (put hdr) (Z.of_nat (h + o)) a (Z.of_nat size) = Ok (Z.of_nat (length s), put (splice o (s ++ [0]) hdr)).
Proof.
  intros Hok Hs Ho Hlen Hsz. pose proof (cstr_put hdr a s Hok Hs Ho) as Hs'. pose proof Hs as (Ha & _).
  replace a with (Z.of_nat (Z.to_nat a)) in * by lia.
  rewrite (strlcpy_spec _ (h + o) (Z.to_nat a) s); [|by apply put_u8|lia|done|lia|rewrite put_length by done; lia|unfold outside in Ho; lia].
  rewrite (proj2 (Z.ltb_lt 0 _)), Nat2Z.id, take_ge by lia. do 2 f_equal. apply put_splice; [done|]. rewrite length_app. simpl. lia.
Qed.

Lemma snprintf_header hdr o fmt w v :
  header_ok hdr → (o + S w ≤ HEADER_BYTES)%nat → fmt = fmt_octal7 ∧ w = 7%nat ∨ fmt = fmt_octal11 ∧ w = 11%nat →
  0 ≤ v < 8 ^ Z.of_nat w → v < W32 →
  ∃ t, snprintf (put hdr) (Z.of_nat (h + o)) (Z.of_nat (S w)) fmt [v] = Ok (Z.of_nat w, put (splice o (t ++ [0]) hdr)) ∧
    length t = w ∧ Forall octal t ∧ denotes 8 t = v.
Proof.
  intros Hok Ho Hfmt Hv H32. destruct (snprintf_octal fmt w v (put hdr) (h + o) Hfmt Hv H32) as (t & Hr & Hlen & Ht);
    [rewrite put_length by done; lia|]. exists t. split; [|done]. rewrite Hr. do 2 f_equal. apply put_splice; [done|].
  rewrite length_app. simpl. lia.
Qed.
End header.

(** ** The checksum *)

Definition zsum (l : list Z) : Z := foldr Z.add 0 l.
(** The header with spaces for the checksum. *)
Definition masked (hdr : list Z) : list Z := splice 148 (replicate 8 32) hdr.
Definition chksum_of (hdr : list Z) : Z := zsum (masked hdr).

Lemma zsum_app l1 l2 : zsum (l1 ++ l2) = zsum l1 + zsum l2.
Proof. unfold zsum. induction l1 as [|c l1 IH]; simpl; lia. Qed.
Lemma zsum_bound l : Forall in_u8 l → 0 ≤ zsum l ≤ 255 * Z.of_nat (length l).
Proof. induction 1 as [|c l Hc _ IH]; [simpl; lia|]. unfold in_u8, zsum in *. cbn [foldr length]. lia. Qed.

Lemma masked_splice hdr x : header_ok hdr → length x = 8%nat → masked (splice 148 x hdr) = masked hdr.
Proof.
  intros [Hl _] Hx. unfold masked, HEADER_BYTES in *. apply list_eq. intros i.
  assert (length (splice 148 x hdr) = length hdr) by (rewrite length_splice; lia).
  destruct (decide (i < 148)%nat); [by rewrite !lookup_splice_l by lia|].
  destruct (decide (i < 156)%nat); [by rewrite !lookup_splice_m by (simpl; lia)|].
  by rewrite !lookup_splice_r by (simpl; lia).
Qed.

Lemma chksum_bound hdr : header_ok hdr → 0 ≤ chksum_of hdr < 131072.
Proof.
  intros [Hl Hu]. unfold HEADER_BYTES in Hl. unfold chksum_of. assert (length (masked hdr) = 512%nat) as Hml by (unfold masked; rewrite length_splice; simpl; lia).
  pose proof (zsum_bound (masked hdr)) as Hz. rewrite Hml in Hz. enough (Forall in_u8 (masked hdr)) by (specialize (Hz H); lia).
  apply Forall_splice; [|done]. apply Forall_replicate. unfold in_u8. lia.
Qed.
Section checksum.
Context (m : mem) (h : nat) (Hh0 : (0 < h)%nat) (Hh : (h + HEADER_BYTES ≤ length m)%nat).

Lemma chksum_loop_spec hdr n i acc :
  header_ok hdr → (i + n ≤ HEADER_BYTES)%nat → 0 ≤ acc ≤ 255 * Z.of_nat i →
  chksum_loop n (put m h hdr) (Z.of_nat h) (Z.of_nat i) acc = Ok (acc + zsum (slice i n (masked hdr))).
Proof.
  intros Hok. pose proof Hok as [Hl Hu]. assert (header_ok (masked hdr)) as [Hml Hmu].
  { apply header_splice; [done|unfold HEADER_BYTES; simpl; lia|]. apply Forall_replicate. unfold in_u8. lia. }
  revert i acc. induction n as [|n IH]; intros i acc Hi Hacc; cbn [chksum_loop]; [unfold slice; simpl; f_equal; lia|].
  destruct (lookup_lt_is_Some_2 (masked hdr) i) as [c Hc]; [lia|].
  destruct (lookup_lt_is_Some_2 hdr i) as [c0 Hc0]; [lia|].
  rewrite <- Nat2Z.inj_add, (slice_cons _ _ _ c Hc).
  assert (load (put m h hdr) (Z.of_nat (h + i)) = Ok c0) as -> by (by apply load_put). cbn [mbind res_bind].
  assert (in_u8 c) as Hc8 by (by eapply Forall_lookup_1 in Hmu). unfold in_u8 in Hc8.
  replace (if _ && _ then 32 else c0) with c.
  - unfold HEADER_BYTES in Hi. rewrite u32_small by (unfold in_u32; lia).
    replace (Z.of_nat i + 1) with (Z.of_nat (S i)) by lia. rewrite IH by (unfold HEADER_BYTES; lia). unfold zsum. cbn [foldr]. f_equal. lia.
  - change (Z.of_nat (ofs f_chksum)) with 148. change (148 + size_of f_chksum) with 156. unfold masked in Hc. unfold HEADER_BYTES in *.
    destruct (Z.leb_spec 148 (Z.of_nat i)), (Z.ltb_spec (Z.of_nat i) 156); cbn [andb].
    + rewrite lookup_splice_m in Hc by (simpl; lia). by apply lookup_replicate in Hc as [-> _].
    + rewrite lookup_splice_r in Hc by (simpl; lia). congruence.
    + rewrite lookup_splice_l in Hc by lia. congruence.
    + lia.
Qed.

Lemma calculate_chksum_spec hdr : header_ok hdr → calculate_chksum (put m h hdr) (Z.of_nat h) = Ok (chksum_of hdr).
Proof.
  intros Hok. unfold calculate_chksum. etransitivity; [apply (chksum_loop_spec hdr HEADER_BYTES 0 0 Hok); lia|].
  rewrite slice_full; [done|]. unfold masked. destruct Hok as [Hl _]. rewrite length_splice; [done|]. unfold HEADER_BYTES in Hl. simpl. lia.
Qed.

End checksum.

(** ** The header that is made *)

(** Writes to parts of a buffer, the latest first. *)
Definition writes (ws : list (nat * list Z)) (l : list Z) : list Z := foldr (λ w, splice w.1 w.2) l ws.

Section writes.
Context (l : list Z).
Definition in_range (w : nat * list Z) : Prop := (w.1 + length w.2 ≤ length l)%nat.
Definition apart_from (o n : nat) (w : nat * list Z) : Prop := (o + n ≤ w.1 ∨ w.1 + length w.2 ≤ o)%nat.

Lemma length_writes ws : Forall in_range ws → length (writes ws l) = length l.
Proof. induction 1 as [|w ws Hw _ IH]; [done|]. cbn [writes foldr]. unfold in_range in Hw. rewrite length_splice; fold (writes ws l); lia. Qed.

Lemma slice_writes_skip o n ws ws' :
  Forall in_range (ws ++ ws') → Forall (apart_from o n) ws → slice o n (writes (ws ++ ws') l) = slice o n (writes ws' l).
Proof.
  induction ws as [|w ws IH]; intros Hr Ha; [done|]. rewrite <- app_comm_cons in Hr.
  apply Forall_cons in Hr as [Hw Hr], Ha as [Hwa Ha].
  change (writes ((w :: ws) ++ ws') l) with (splice w.1 w.2 (writes (ws ++ ws') l)).
  pose proof (length_writes _ Hr) as Hl. unfold in_range in Hw.
  rewrite slice_splice_disjoint; [by apply IH|lia|]. unfold apart_from in Hwa. lia.
Qed.

(** The latest write to a place is what is there. *)
Lemma slice_writes ws o x ws' :
  Forall in_range (ws ++ (o, x) :: ws') → Forall (apart_from o (length x)) ws →
  slice o (length x) (writes (ws ++ (o, x) :: ws') l) = x.
Proof.
  intros Hr Ha. rewrite slice_writes_skip by done. apply Forall_app in Hr as [_ [Hx Hr]%Forall_cons].
  change (writes ((o, x) :: ws') l) with (splice o x (writes ws' l)). apply slice_splice_same. pose proof (length_writes _ Hr). unfold in_range in Hx. simpl in *. lia.
Qed.
End writes.

(** The fields after [strlcpy] and [snprintf]: [nm], octal [mode], [sz] and
    [mtime], the type's character and the constants. *)
Definition blank_writes (nm mode sz mtime : list Z) (type : ustar_type) : list (nat * list Z) :=
  [(265%nat, [114; 111; 111; 116; 0]); (297%nat, [114; 111; 111; 116; 0]); (263%nat, [48]); (264%nat, [48]); (257%nat, [117; 115; 116; 97; 114; 0]);
   (156%nat, [u8 (type_no type)]); (136%nat, mtime ++ [0]); (124%nat, sz ++ [0]); (116%nat, replicate 7 48 ++ [0]); (108%nat, replicate 7 48 ++ [0]);
   (100%nat, mode ++ [0]); (0%nat, nm ++ [0])].
Definition blank_header (nm mode sz mtime : list Z) (type : ustar_type) : list Z :=
  writes (blank_writes nm mode sz mtime type) (replicate HEADER_BYTES 0).
Definition made_header (nm mode sz mtime ck : list Z) (type : ustar_type) : list Z :=
  writes ((148%nat, ck ++ [0]) :: blank_writes nm mode sz mtime type) (replicate HEADER_BYTES 0).

Lemma made_blank nm mode sz mtime ck type :
  made_header nm mode sz mtime ck type = splice 148 (ck ++ [0]) (blank_header nm mode sz mtime type).
Proof. reflexivity. Qed.

(** A list of bytes for a field of the header. *)
Ltac field_u8 := repeat (apply Forall_cons; split; [first [apply u8_range|unfold in_u8; lia]|]); apply Forall_nil; exact I.

Lemma octals_u8 t : Forall octal t → Forall in_u8 t.
Proof. intros Ht. eapply Forall_impl; [done|]. unfold octal, in_u8. lia. Qed.

Lemma snoc_u8 t : Forall in_u8 t → Forall in_u8 (t ++ [0]).
Proof. intros Ht. apply Forall_app. split; [done|]. field_u8. Qed.

Lemma zero_ok : header_ok (replicate HEADER_BYTES 0).
Proof. split; [by rewrite length_replicate|]. apply Forall_replicate. unfold in_u8. lia. Qed.

(** The fields of the finished header. *)
Section fields.
Context (nm mode sz mtime ck : list Z) (type : ustar_type).
Context (Hnm : (length nm ≤ 99)%nat) (Hmode : length mode = 7%nat) (Hsz : length sz = 11%nat)
  (Hmt : length mtime = 11%nat) (Hck : length ck = 7%nat).
Let H := made_header nm mode sz mtime ck type.

(** Every part is within the 512 bytes, and apart from the others. *)
Ltac parts := repeat (apply Forall_cons; split; [unfold in_range, apart_from; cbn [fst snd]; rewrite ?length_app, ?length_replicate; unfold HEADER_BYTES; simpl; lia|]); apply Forall_nil; exact I.

Lemma made_range : Forall (in_range (replicate HEADER_BYTES 0)) ((148%nat, ck ++ [0]) :: blank_writes nm mode sz mtime type).
Proof. unfold blank_writes. parts. Qed.

Lemma made_field k o x :
  ((148%nat, ck ++ [0]) :: blank_writes nm mode sz mtime type) !! k = Some (o, x) →
  Forall (apart_from o (length x)) (take k ((148%nat, ck ++ [0]) :: blank_writes nm mode sz mtime type)) →
  slice o (length x) H = x.
Proof.
  intros Hk Ha. pose proof made_range as Hr. unfold H, made_header. rewrite <- (take_drop_middle _ _ _ Hk) in Hr |- *.
  by apply slice_writes.
Qed.

Lemma made_name : slice 0 (S (length nm)) H = nm ++ [0].
Proof. pose proof (made_field 12 0 (nm ++ [0]) eq_refl) as Hf. rewrite length_app, Nat.add_1_r in Hf. apply Hf. cbn [take blank_writes]. parts. Qed.
Lemma made_size : slice 124 (S (length sz)) H = sz ++ [0].
Proof. pose proof (made_field 8 124 (sz ++ [0]) eq_refl) as Hf. rewrite length_app, Nat.add_1_r in Hf. apply Hf. cbn [take blank_writes]. parts. Qed.
Lemma made_chksum : slice 148 (S (length ck)) H = ck ++ [0].
Proof. pose proof (made_field 0 148 (ck ++ [0]) eq_refl) as Hf. rewrite length_app, Nat.add_1_r in Hf. apply Hf. cbn [take]. apply Forall_nil. exact I. Qed.
Lemma made_magic : slice 257 6 H = [117; 115; 116; 97; 114; 0].
Proof. apply (made_field 5 257 [117; 115; 116; 97; 114; 0] eq_refl). cbn [take blank_writes]. parts. Qed.

Lemma slice_one (l : list Z) o c : slice o 1 l = [c] → l !! o = Some c.
Proof. intros Hs. apply (f_equal (lookup 0%nat)) in Hs. rewrite lookup_slice, Nat.add_0_r in Hs by lia. done. Qed.

Lemma made_bytes :
  H !! 263%nat = Some 48 ∧ H !! 264%nat = Some 48 ∧ H !! 156%nat = Some (u8 (type_no type)) ∧ H !! 99%nat = Some 0 ∧ H !! 345%nat = Some 0.
Proof.
  split_and!.
  - apply slice_one, (made_field 3 263 [48] eq_refl). cbn [take blank_writes]. parts.
  - apply slice_one, (made_field 4 264 [48] eq_refl). cbn [take blank_writes]. parts.
  - apply slice_one, (made_field 6 156 [u8 (type_no type)] eq_refl). cbn [take blank_writes]. parts.
  - destruct (decide (length nm = 99%nat)) as [H99|].
    + rewrite <- H99. pose proof made_name as Hn. apply (f_equal (lookup (length nm))) in Hn.
      rewrite lookup_slice, lookup_app_r, Nat.sub_diag in Hn by lia. done.
    + apply slice_one. pose proof made_range as Hr. unfold H, made_header. rewrite <- (app_nil_r (_ :: _)) in Hr |- *.
      rewrite slice_writes_skip; [|done|unfold blank_writes; parts]. cbn [writes foldr]. by rewrite slice_replicate by (unfold HEADER_BYTES; lia).
  - apply slice_one. pose proof made_range as Hr. unfold H, made_header. rewrite <- (app_nil_r (_ :: _)) in Hr |- *.
    rewrite slice_writes_skip; [|done|unfold blank_writes; parts]. cbn [writes foldr]. by rewrite slice_replicate by (unfold HEADER_BYTES; lia).
Qed.
End fields.

Lemma at_nat (h : nat) f : at_ (Z.of_nat h) f = Z.of_nat (h + ofs f).
Proof. unfold at_. lia. Qed.

Lemma is_all_zeros_spec n b m1 : (b + n ≤ length m1)%nat → is_all_zeros n m1 (Z.of_nat b) = Ok (bool_decide (slice b n m1 = replicate n 0)).
Proof.
  revert b. induction n as [|n IH]; intros b Hb; cbn [is_all_zeros]; [by rewrite bool_decide_eq_true_2|].
  destruct (lookup_lt_is_Some_2 m1 b) as [c Hc]; [lia|]. rewrite (load_of_nat _ _ _ Hc), (slice_cons _ _ _ c Hc). cbn [mbind res_bind replicate].
  destruct (Z.eqb_spec c 0) as [->|]; cbn [negb].
  - replace (Z.of_nat b + 1) with (Z.of_nat (S b)) by lia. rewrite IH by lia. f_equal. apply bool_decide_ext. split; [by intros ->|by intros [= ->]].
  - rewrite bool_decide_eq_false_2; [done|]. by intros [= ? _].
Qed.

Section round_trip.
Context (m : mem) (h : nat) (ro : rodata).
Context (Hm : Forall in_u8 m) (Hh0 : (0 < h)%nat) (Hh : (h + HEADER_BYTES ≤ length m)%nat) (Hro : rodata_ok m h ro).

Lemma cstr_u8 a s : cstr m a s → Forall in_u8 s.
Proof.
  intros (_ & _ & Hl). apply Forall_lookup_2. intros i c Hi. eapply load_u8; [done|]. apply (Hl i).
  by apply lookup_app_l_Some.
Qed.

(** One assignment to a field each: what it does, and that a header remains. *)
Lemma strlcpy_field hdr f a s :
  header_ok hdr → literal m h a s → (length s < len f)%nat → (ofs f + len f ≤ HEADER_BYTES)%nat →
  strlcpy (put m h hdr) (at_ (Z.of_nat h) f) a (size_of f) = Ok (Z.of_nat (length s), put m h (splice (ofs f) (s ++ [0]) hdr)) ∧
  header_ok (splice (ofs f) (s ++ [0]) hdr).
Proof.
  intros Hok [Hs Ho] Hl Hf. rewrite at_nat. split; [by apply strlcpy_header|].
  apply header_splice; [done|rewrite length_app; simpl; lia|]. by eapply snoc_u8, cstr_u8.
Qed.

Lemma poke_field hdr o v :
  header_ok hdr → (o < HEADER_BYTES)%nat →
  poke (put m h hdr) (Z.of_nat h + Z.of_nat o) v = Ok (put m h (splice o [u8 v] hdr)) ∧ header_ok (splice o [u8 v] hdr).
Proof.
  intros Hok Ho. rewrite <- Nat2Z.inj_add. split; [by apply poke_header|]. apply header_splice; [done|simpl; lia|field_u8].
Qed.

Lemma snprintf_field hdr f w v :
  header_ok hdr → len f = S w → (ofs f + len f ≤ HEADER_BYTES)%nat → w = 7%nat ∨ w = 11%nat → 0 ≤ v < 8 ^ Z.of_nat w → v < W32 →
  ∃ t, snprintf (put m h hdr) (at_ (Z.of_nat h) f) (size_of f) (if decide (w = 7%nat) then fmt_octal7 else fmt_octal11) [v] =
      Ok (Z.of_nat w, put m h (splice (ofs f) (t ++ [0]) hdr)) ∧
    header_ok (splice (ofs f) (t ++ [0]) hdr) ∧ length t = w ∧ Forall octal t ∧ denotes 8 t = v.
Proof.
  intros Hok Hl Hf Hw Hv H32. rewrite at_nat. unfold size_of. rewrite Hl.
  destruct (snprintf_octal (if decide (w = 7%nat) then fmt_octal7 else fmt_octal11) w v (put m h hdr) (h + ofs f))
    as (t & -> & Htl & Hto & Htd); [case_decide; [by left|right; split; [done|lia]]|done..|rewrite put_length by done; lia|].
  exists t. assert (ofs f + length (t ++ [0%Z]) ≤ HEADER_BYTES)%nat by (rewrite length_app; simpl; lia).
  split_and!; try done; [by rewrite put_splice|]. apply header_splice; [done..|]. by apply snoc_u8, octals_u8.
Qed.

Lemma fill_header_spec a nm type size :
  literal m h a nm → (length nm ≤ 99)%nat → 0 ≤ size < W31 →
  ∃ mode sz mtime, fill_header ro a type size (Z.of_nat h) m = Ok (put m h (blank_header nm mode sz mtime type)) ∧
    header_ok (blank_header nm mode sz mtime type) ∧
    length mode = 7%nat ∧ length sz = 11%nat ∧ Forall octal sz ∧ denotes 8 sz = size ∧ length mtime = 11%nat.
Proof.
  intros Hn Hlen Hsize. unfold fill_header. rewrite clear_header by done. cbn [mbind res_bind].
  destruct (strlcpy_field _ f_name a nm zero_ok Hn) as [-> H1]; [simpl; unfold HEADER_BYTES; lia..|]. cbn [mbind res_bind].
  destruct (snprintf_field _ f_mode 7 (if decide (type = USTAR_REGULAR) then 420 else 493) H1) as (mode & Hs1 & H2 & Hmode & _);
    [done|unfold HEADER_BYTES; simpl; lia|auto|case_decide; simpl; lia|case_decide; lia|].
  rewrite decide_True in Hs1 by done. rewrite Hs1. cbn [mbind res_bind].
  destruct (strlcpy_field _ f_uid _ _ H2 (rok_zeros _ _ _ Hro)) as [-> H3]; [simpl; unfold HEADER_BYTES; lia..|]. cbn [mbind res_bind].
  destruct (strlcpy_field _ f_gid _ _ H3 (rok_zeros _ _ _ Hro)) as [-> H4]; [simpl; unfold HEADER_BYTES; lia..|]. cbn [mbind res_bind].
  rewrite u32_small by (unfold in_u32; lia).
  destruct (snprintf_field _ f_size 11 size H4) as (sz & Hs2 & H5 & Hsz); [done|unfold HEADER_BYTES; simpl; lia|auto|simpl; lia|lia|].
  rewrite decide_False in Hs2 by done. rewrite Hs2. cbn [mbind res_bind].
  destruct (snprintf_field _ f_mtime 11 MTIME H5) as (mt & Hs3 & H6 & Hmt & _);
    [done|unfold HEADER_BYTES; simpl; lia|auto|unfold MTIME; simpl; lia|unfold MTIME; lia|].
  rewrite decide_False in Hs3 by done. change (size_of f_size) with (size_of f_mtime). rewrite Hs3. cbn [mbind res_bind].
  destruct (poke_field _ (ofs f_typeflag) (type_no type) H6) as [Hp7 H7]; [unfold HEADER_BYTES; simpl; lia|].
  rewrite (Hp7 : poke _ (at_ (Z.of_nat h) f_typeflag) _ = _). cbn [mbind res_bind].
  destruct (strlcpy_field _ f_magic _ _ H7 (rok_ustar _ _ _ Hro)) as [-> H8]; [simpl; unfold HEADER_BYTES; lia..|]. cbn [mbind res_bind].
  destruct (poke_field _ 264 48 H8) as [Hp9 H9]; [unfold HEADER_BYTES; lia|].
  replace (at_ (Z.of_nat h) f_version + 1) with (Z.of_nat h + Z.of_nat 264) by (unfold at_; simpl; lia). rewrite Hp9. cbn [mbind res_bind].
  destruct (poke_field _ (ofs f_version) 48 H9) as [Hp10 H10]; [unfold HEADER_BYTES; simpl; lia|]. rewrite (Hp10 : poke _ (at_ (Z.of_nat h) f_version) _ = _). cbn [mbind res_bind].
  destruct (strlcpy_field _ f_gname _ _ H10 (rok_root _ _ _ Hro)) as [-> H11]; [simpl; unfold HEADER_BYTES; lia..|]. cbn [mbind res_bind].
  destruct (strlcpy_field _ f_uname _ _ H11 (rok_root _ _ _ Hro)) as [-> H12]; [simpl; unfold HEADER_BYTES; lia..|].
  destruct Hsz as (? & ? & ?). exists mode, sz, mt. unfold blank_header, blank_writes, writes. cbn [foldr fst snd].
  split_and!; first [assumption|reflexivity].
Qed.


Lemma write_header_fill hdr a type size :
  fill_header ro a type size (Z.of_nat h) m = Ok (put m h hdr) → header_ok hdr →
  ∃ ck, let H := splice 148 (ck ++ [0]) hdr in
    write_header ro a type size (Z.of_nat h) m = Ok (tt, put m h H) ∧ header_ok H ∧
    length ck = 7%nat ∧ Forall octal ck ∧ denotes 8 ck = chksum_of H.
Proof.
  intros Hf Hb. pose proof (chksum_bound _ Hb) as Hc.
  destruct (snprintf_field _ f_chksum 7 (chksum_of hdr) Hb) as (ck & Hs & Hok & Hcl & Hco & Hcd);
    [done|unfold HEADER_BYTES; simpl; lia|auto|change (8 ^ Z.of_nat 7) with 2097152; lia|lia|].
  rewrite decide_True in Hs by done. exists ck. cbn zeta. change (ofs f_chksum) with 148%nat in *. split_and!; try assumption.
  - unfold write_header. rewrite Hf. cbn [mbind res_bind]. rewrite calculate_chksum_spec by done. cbn [mbind res_bind].
    rewrite Hs. reflexivity.
  - rewrite Hcd. unfold chksum_of. rewrite masked_splice; [done..|]. by rewrite length_app, Hcl.
Qed.

Lemma write_header_spec a nm type size :
  literal m h a nm → (length nm ≤ 99)%nat → 0 ≤ size < W31 →
  ∃ mode sz mtime ck, let H := made_header nm mode sz mtime ck type in
    write_header ro a type size (Z.of_nat h) m = Ok (tt, put m h H) ∧ header_ok H ∧
    length mode = 7%nat ∧ length sz = 11%nat ∧ Forall octal sz ∧ denotes 8 sz = size ∧ length mtime = 11%nat ∧
    length ck = 7%nat ∧ Forall octal ck ∧ denotes 8 ck = chksum_of H.
Proof.
  intros Hn Hlen Hsize. destruct (fill_header_spec a nm type size Hn Hlen Hsize) as (mode & sz & mt & Hf & Hb & ? & ? & ? & ? & ?).
  destruct (write_header_fill _ a type size Hf Hb) as (ck & Hw). cbn zeta in Hw. rewrite <- made_blank in Hw.
  exists mode, sz, mt, ck. cbn zeta. destruct Hw as (? & ? & ? & ? & ?). split_and!; assumption.
Qed.

(** ** Parsing *)

Lemma cstr_field hdr o s :
  header_ok hdr → (o + S (length s) ≤ HEADER_BYTES)%nat → slice o (S (length s)) hdr = s ++ [0] → Forall (λ c, c ≠ 0) s →
  cstr (put m h hdr) (Z.of_nat h + Z.of_nat o) s.
Proof.
  intros Hok Ho Hs H0. apply cstr_intro; [lia|done|]. replace (Z.to_nat _) with (h + o)%nat by lia. by rewrite slice_put.
Qed.

Lemma literal_put hdr a s : header_ok hdr → literal m h a s → literal (put m h hdr) h a s.
Proof. intros Hok [Hs Ho]. split; [by apply cstr_put|done]. Qed.
Lemma rodata_put hdr : header_ok hdr → rodata_ok (put m h hdr) h ro.
Proof. intros Hok. destruct Hro. split; by apply literal_put. Qed.

Lemma magic_spec hdr :
  header_ok hdr →
  ∃ r, memcmp (put m h hdr) (at_ (Z.of_nat h) f_magic) (ro_ustar ro) 6 = Ok r ∧ (r = 0 ↔ slice 257 6 hdr = [117; 115; 116; 97; 114; 0]).
Proof.
  intros Hok. destruct (literal_put _ _ _ Hok (rok_ustar _ _ _ Hro)) as [Hu _]. pose proof Hu as (Ha & _).
  pose proof (cstr_walk _ _ _ Hu) as [_ Hw]. rewrite put_length in Hw by done. simpl in Hw.
  assert (slice (Z.to_nat (ro_ustar ro)) 6 (put m h hdr) = [117; 115; 116; 97; 114; 0]) as Hsl.
  { apply list_eq. intros i. destruct (decide (i < 6)%nat).
    - rewrite lookup_slice by done. destruct (lookup_lt_is_Some_2 ([117; 115; 116; 97; 114] ++ [0]) i) as [c Hc]; [simpl; lia|].
      rewrite (cstr_lookup _ _ _ _ _ Hu Hc). by rewrite <- Hc.
    - rewrite lookup_slice_ge by lia. symmetry. apply lookup_ge_None. simpl. lia. }
  unfold memcmp, valid. rewrite (cstr_valid _ _ _ Hu), at_nat. rewrite (proj2 (Z.eqb_neq (Z.of_nat (h + ofs f_magic)) NULL)) by (unfold NULL; simpl; lia).
  cbn [negb orb assert mbind res_bind]. change (Z.to_nat 6) with 6%nat.
  destruct (memcmp_loop_spec 6 (put m h hdr) (h + ofs f_magic) (Z.to_nat (ro_ustar ro))) as (r & Hr & Heq);
    [rewrite put_length by done; unfold HEADER_BYTES in Hh; simpl; lia..|].
  rewrite Z2Nat.id in Hr by lia. exists r. split; [done|]. rewrite Heq, Hsl. change (ofs f_magic) with 257%nat.
  rewrite slice_put by (done || unfold HEADER_BYTES; lia). done.
Qed.

(** What the parser looks at. *)
Record holds (hdr nm sz ck : list Z) (type : ustar_type) : Prop := {
  h_name : slice 0 (S (length nm)) hdr = nm ++ [0]; h_size : slice 124 (S (length sz)) hdr = sz ++ [0];
  h_chksum : slice 148 (S (length ck)) hdr = ck ++ [0]; h_magic : slice 257 6 hdr = [117; 115; 116; 97; 114; 0];
  h_bytes : hdr !! 263%nat = Some 48 ∧ hdr !! 264%nat = Some 48 ∧ hdr !! 156%nat = Some (u8 (type_no type)) ∧
    hdr !! 99%nat = Some 0 ∧ hdr !! 345%nat = Some 0;
  h_sz : length sz = 11%nat ∧ Forall octal sz; h_ck : length ck = 7%nat ∧ Forall octal ck ∧ denotes 8 ck = chksum_of hdr }.

Lemma octal_nonzero s : Forall octal s → Forall (λ c, c ≠ 0) s.
Proof. intros Hs. eapply Forall_impl; [done|]. unfold octal. lia. Qed.

Lemma parse_field hdr f s :
  header_ok hdr → (ofs f + len f ≤ HEADER_BYTES)%nat → slice (ofs f) (S (length s)) hdr = s ++ [0] → Forall octal s →
  len f = S (length s) → (0 < length s)%nat → denotes 8 s < W32 →
  parse_octal_field (put m h hdr) (at_ (Z.of_nat h) f) (size_of f) = Ok (Some (denotes 8 s)).
Proof.
  intros Hok Hf Hs Ho Hl Hpos Hlt. unfold parse_octal_field, size_of. rewrite Nat2Z.id.
  apply octal_loop_spec; [|done|lia..|done|done]. rewrite Z.add_0_r. apply cstr_field; [done|lia|done|by apply octal_nonzero].
Qed.

Lemma load_field hdr o c : header_ok hdr → hdr !! o = Some c → load (put m h hdr) (Z.of_nat h + Z.of_nat o) = Ok c.
Proof. intros Hok Ho. rewrite <- Nat2Z.inj_add. by apply load_put. Qed.

Lemma parse_rest_made hdr nm sz ck type :
  header_ok hdr → holds hdr nm sz ck type → type ≠ USTAR_EOF → cstr (put m h hdr) (Z.of_nat h) nm → denotes 8 sz < W31 → 0 ≤ denotes 8 sz →
  ∃ p, parse_rest ro (put m h hdr) (Z.of_nat h) = Ok (Good p type (if decide (type = USTAR_REGULAR) then denotes 8 sz else 0)) ∧
    cstr (put m h hdr) p (safe_name nm).
Proof.
  intros Hok Hd Ht Hn Hlt H0. destruct Hd as [_ Hs _ _ (_ & _ & Hty & _) [Hsl Hso] _].
  pose proof (rodata_put hdr Hok) as Hro'. assert (Forall in_u8 (put m h hdr)) as Hm' by (by apply put_u8).
  destruct (strip_antisocial_spec _ h ro Hm' Hro' (Z.of_nat h) nm Hn) as (p & Hp & Hpn & _). exists p. split; [|done].
  unfold parse_rest. assert (load (put m h hdr) (at_ (Z.of_nat h) f_typeflag) = Ok (type_no type)) as ->.
  { unfold at_. rewrite (load_field hdr (ofs f_typeflag) _ Hok Hty). by destruct type. }
  cbn [mbind res_bind]. replace (at_ (Z.of_nat h) f_name) with (Z.of_nat h) by (unfold at_; simpl; lia). rewrite Hp.
  destruct type; [|cbn; by rewrite i32_small|done]. cbn [type_no]. change (48 =? 48) with true. cbn [negb andb].
  unfold parse_size. rewrite (parse_field hdr f_size sz Hok); [|unfold HEADER_BYTES; simpl; lia|done|done|by rewrite Hsl|lia|lia].
  cbn [mbind res_bind]. rewrite (proj2 (Z.ltb_ge _ (denotes 8 sz))) by lia. cbn [mbind res_bind].
  rewrite decide_True by done. by rewrite i32_small by (unfold in_i32; lia).
Qed.

Lemma parse_made hdr nm sz ck type :
  header_ok hdr → holds hdr nm sz ck type → type ≠ USTAR_EOF → (length nm ≤ 99)%nat → Forall (λ c, c ≠ 0) nm →
  0 ≤ denotes 8 sz < W31 →
  ∃ p, ustar_parse_header ro (put m h hdr) (Z.of_nat h) = Ok (Good p type (if decide (type = USTAR_REGULAR) then denotes 8 sz else 0)) ∧
    cstr (put m h hdr) p (safe_name nm).
Proof.
  intros Hok Hd Ht Hnl Hn0 Hsz. assert (cstr (put m h hdr) (Z.of_nat h) nm) as Hn.
  { rewrite <- (Z.add_0_r (Z.of_nat h)). apply (cstr_field hdr 0); [done|unfold HEADER_BYTES; lia|apply Hd|done]. }
  destruct (parse_rest_made hdr nm sz ck type Hok Hd Ht Hn) as (p & Hp & Hpn); [lia..|]. exists p. split; [|done].
  destruct Hd as [_ _ Hck Hmag (Hv0 & Hv1 & _ & H99 & H345) _ (Hcl & Hco & Hcd)].
  unfold ustar_parse_header. rewrite is_all_zeros_spec by (rewrite put_length by done; lia).
  assert (slice (h + 0) HEADER_BYTES (put m h hdr) = slice 0 HEADER_BYTES hdr) as Hsl by (by apply slice_put). rewrite Nat.add_0_r in Hsl. rewrite Hsl.
  rewrite bool_decide_eq_false_2; [|intros Hz; rewrite slice_full in Hz by (symmetry; apply Hok);
    rewrite Hz, lookup_replicate_2 in Hv0 by (unfold HEADER_BYTES; lia); done].
  cbn [mbind res_bind]. destruct (magic_spec hdr Hok) as (r & -> & Hr). cbn [mbind res_bind].
  rewrite (proj2 (Z.eqb_eq r 0)) by (by apply Hr). cbn [negb].
  rewrite (load_field hdr (ofs f_version) 48 Hok Hv0 : load _ (at_ _ f_version) = _). cbn [mbind res_bind].
  replace (at_ (Z.of_nat h) f_version + 1) with (Z.of_nat h + Z.of_nat 264) by (unfold at_; simpl; lia).
  rewrite (load_field hdr 264 48 Hok Hv1). cbn [mbind res_bind]. change (48 =? 48) with true. cbn [negb orb].
  pose proof (chksum_bound hdr Hok) as Hb.
  rewrite (parse_field hdr f_chksum ck Hok); [|unfold HEADER_BYTES; simpl; lia|done|done|by rewrite Hcl|lia|lia].
  cbn [mbind res_bind]. rewrite calculate_chksum_spec by done. cbn [mbind res_bind]. rewrite Hcd, Z.eqb_refl. cbn [negb].
  replace (at_ (Z.of_nat h) f_name + size_of f_name - 1) with (Z.of_nat h + Z.of_nat 99) by (unfold at_, size_of; simpl; lia).
  rewrite (load_field hdr 99 0 Hok H99). cbn [mbind res_bind].
  rewrite (load_field hdr (ofs f_prefix) 0 Hok H345 : load _ (at_ _ f_prefix) = _). cbn [mbind res_bind]. exact Hp.
Qed.
End round_trip.

(** ** Making and parsing *)

(** [hdr] is a header that parses as [nm], [type] and [size], wherever it is
    in memory. *)
Definition describes (hdr nm : list Z) (type : ustar_type) (size : Z) : Prop :=
  header_ok hdr ∧ ∀ ro m h, Forall in_u8 m → (0 < h)%nat → (h + HEADER_BYTES ≤ length m)%nat → rodata_ok m h ro →
    ∃ p, ustar_parse_header ro (put m h hdr) (Z.of_nat h) = Ok (Good p type (if decide (type = USTAR_REGULAR) then size else 0)) ∧
      cstr (put m h hdr) p nm.

Lemma make_header_spec ro s (h : nat) a name type size :
  Forall in_u8 (cmem s) → (0 < h)%nat → (h + HEADER_BYTES ≤ length (cmem s))%nat → rodata_ok (cmem s) h ro →
  literal (cmem s) h a name → (length (safe_name name) ≤ 99)%nat → type ≠ USTAR_EOF → 0 ≤ size < W31 →
  ∃ hdr, describes hdr (safe_name name) type size ∧
    ustar_make_header ro a type size (Z.of_nat h) s =
      Ok (true, mk_console (use_console_lock s) (in_intr s) (lock_depth s) (write_cnt s) (char_cnt s) (put (cmem s) h hdr) (out s)).
Proof.
  intros Hm Hh0 Hh Hro [Ha Hao] Hlen Ht Hsize.
  destruct (strip_antisocial_spec _ h ro Hm Hro a name Ha) as (q & Hq & Hqn & Hqo & _).
  pose proof (Hqo Hao) as Hqo'. pose proof Hqn as (_ & Hq0 & _).
  destruct (write_header_spec _ h ro Hm Hh0 Hh Hro q (safe_name name) type size (conj Hqn Hqo') Hlen Hsize)
    as (mode & sz & mt & ck & Hw & Hok & Hmode & Hszl & Hszo & Hszd & Hmt & Hck). cbn zeta in *.
  exists (made_header (safe_name name) mode sz mt ck type). split.
  - split; [done|]. intros ro' m' h' Hm' Hh0' Hh' Hro'.
    destruct (parse_made m' h' ro' Hm' Hh0' Hh' Hro' _ (safe_name name) sz ck type Hok) as (p & Hp & Hpn); [|done|done|done|lia|].
    { destruct Hck as (? & ? & ?). split; [by apply made_name|by apply made_size|by apply made_chksum|by apply made_magic|by apply made_bytes|done|done]. }
    rewrite (safe_again (safe_name name)) in Hpn by apply safe_sociable. rewrite Hszd in Hp. eauto.
  - unfold ustar_make_header.
    assert (bool_decide (type = USTAR_REGULAR) || bool_decide (type = USTAR_DIRECTORY) = true) as -> by (by destruct type).
    rewrite stM_bind_eq. cbn [sassert slift assert]. rewrite stM_bind_eq. unfold query at 1. rewrite Hq. cbn [mbind res_bind].
    rewrite stM_bind_eq. unfold query. rewrite (strlen_spec _ _ _ Hqn). cbn [mbind res_bind].
    rewrite (proj2 (Z.ltb_ge 99 _)) by lia. rewrite stM_bind_eq. unfold on_mem. rewrite Hw. reflexivity.
Qed.

Lemma take_put (m : mem) (h : nat) hdr : (h ≤ length m)%nat → take h (put m h hdr) = take h m.
Proof. intros. unfold put, splice. rewrite take_app_le, take_take by (rewrite length_take; lia). by rewrite Nat.min_id. Qed.
Lemma drop_put (m : mem) (h : nat) hdr :
  header_ok hdr → (h + HEADER_BYTES ≤ length m)%nat → drop (h + HEADER_BYTES) (put m h hdr) = drop (h + HEADER_BYTES) m.
Proof.
  intros [Hl _] Hh. unfold put, splice. rewrite drop_app_ge by (rewrite length_take; lia).
  rewrite drop_app_ge by (rewrite length_take; lia). rewrite drop_drop, length_take, Hl. f_equal. lia.
Qed.

(** A header survives the round trip: for a regular file or a directory
    whose name, less dangerous prefixes, has at most 99 characters,
    [ustar_make_header] succeeds, prints nothing and writes only the 512 bytes
    of the header; [ustar_parse_header] accepts them, checksum included, and
    gives back that name, the type and, for a file, the size. *)
Lemma ustar_round_trip ro s (h : nat) a name type size :
  Forall in_u8 (cmem s) → (0 < h)%nat → (h + HEADER_BYTES ≤ length (cmem s))%nat → rodata_ok (cmem s) h ro →
  literal (cmem s) h a name → (length (safe_name name) ≤ 99)%nat → type ≠ USTAR_EOF → 0 ≤ size < W31 →
  ∃ s' p, ustar_make_header ro a type size (Z.of_nat h) s = Ok (true, s') ∧ out s' = out s ∧
    take h (cmem s') = take h (cmem s) ∧ drop (h + HEADER_BYTES) (cmem s') = drop (h + HEADER_BYTES) (cmem s) ∧
    ustar_parse_header ro (cmem s') (Z.of_nat h) =
      Ok (Good p type (if decide (type = USTAR_REGULAR) then size else 0)) ∧
    cstr (cmem s') p (safe_name name).
Proof.
  intros Hm Hh0 Hh Hro Ha Hlen Ht Hsize.
  destruct (make_header_spec ro s h a name type size) as (hdr & [Hok Hp] & Hmk); [done..|].
  destruct (Hp ro (cmem s) h) as (p & Hparse & Hn); [done..|].
  eexists _, p. split_and!; [exact Hmk|done|apply take_put; lia|by apply drop_put|done|done].
Qed.

(** The name field as a string. *)
Lemma name_string (m : mem) (h n : nat) :
  (0 < h)%nat → load m (Z.of_nat (h + n)) = Ok 0 → ∃ nm, cstr m (Z.of_nat h) nm ∧ (length nm ≤ n)%nat.
Proof.
  intros Hh [_ Hn]%load_ok. rewrite Nat2Z.id in Hn. revert h Hh Hn. induction n as [|n IH]; intros h Hh Hn.
  - rewrite Nat.add_0_r in Hn. exists []. split; [|done]. split_and!; [lia|constructor|]. intros [|i] c; [|done]. intros [= <-].
    rewrite Z.add_0_r. by apply load_of_nat.
  - destruct (lookup_lt_is_Some_2 m h) as [c Hc]; [apply lookup_lt_Some in Hn; lia|]. destruct (decide (c = 0)) as [->|Hc0].
    + exists []. split; [|simpl; lia]. split_and!; [lia|constructor|]. intros [|i] c; [|done]. intros [= <-].
      rewrite Z.add_0_r. by apply load_of_nat.
    + destruct (IH (S h)) as (nm & (_ & Hnz & Hl) & Hlen); [lia|by replace (S h + n)%nat with (h + S n)%nat by lia|].
      exists (c :: nm). split; [|simpl; lia]. split_and!; [lia|by constructor|]. intros [|i] x Hi.
      * injection Hi as <-. rewrite Z.add_0_r. by apply load_of_nat.
      * rewrite <- (Hl i x Hi). f_equal. lia.
Qed.

(** What a header may be parsed to. *)
Definition parse_safe (m : mem) (h : nat) (r : parsed) : Prop :=
  match r with
  | Bad _ => True
  | Good p USTAR_EOF n => p = NULL ∧ n = 0 ∧ slice h HEADER_BYTES m = replicate HEADER_BYTES 0
  | Good p _ n => 0 ≤ n < W31 ∧ ∃ name, cstr m p name ∧ (length name ≤ 99)%nat ∧ sociable name
  end.

Lemma strip_length s : (length (strip false s) ≤ length s)%nat.
Proof.
  generalize false. induction s as [|c s IH]; intros b; [done|]. cbn [strip length]. repeat case_match; cbn [length]; try lia;
    match goal with |- context [strip ?b s] => specialize (IH b) end; lia.
Qed.

Section any_header.
Context (m : mem) (h : nat) (ro : rodata).
Context (Hm : Forall in_u8 m) (Hh0 : (0 < h)%nat) (Hh : (h + HEADER_BYTES ≤ length m)%nat) (Hro : rodata_ok m h ro).

Definition header_of : list Z := slice h HEADER_BYTES m.
Lemma header_of_ok : header_ok header_of.
Proof. split; [by apply length_slice|by apply Forall_slice]. Qed.
Lemma put_header_of : put m h header_of = m.
Proof.
  unfold put, header_of, splice. rewrite length_slice by done. unfold slice. rewrite <- (drop_drop m HEADER_BYTES h), take_drop. apply take_drop.
Qed.

Lemma load_any o : (o < HEADER_BYTES)%nat → ∃ c, load m (Z.of_nat h + Z.of_nat o) = Ok c.
Proof.
  intros Ho. destruct (lookup_lt_is_Some_2 m (h + o)) as [c Hc]; [lia|]. exists c. rewrite <- Nat2Z.inj_add. by apply load_of_nat.
Qed.

Lemma parse_any f : (ofs f + len f ≤ HEADER_BYTES)%nat → ∃ r, parse_octal_field m (at_ (Z.of_nat h) f) (size_of f) = Ok r ∧ ∀ x, r = Some x → in_u32 x.
Proof.
  intros Hf. unfold parse_octal_field, size_of. rewrite Nat2Z.id, at_nat. apply octal_loop_total; [done|simpl; lia|]. unfold in_u32. lia.
Qed.

Lemma parse_rest_safe :
  (∃ nm, cstr m (Z.of_nat h) nm ∧ (length nm ≤ 99)%nat) → ∃ r, parse_rest ro m (Z.of_nat h) = Ok r ∧ parse_safe m h r.
Proof.
  intros (nm & Hn & Hlen). unfold parse_rest. destruct (load_any (ofs f_typeflag)) as [c Hc]; [unfold HEADER_BYTES; simpl; lia|].
  rewrite (Hc : load m (at_ (Z.of_nat h) f_typeflag) = Ok c). cbn [mbind res_bind]. case_match eqn:Hty; [by eexists|].
  destruct (strip_antisocial_spec m h ro Hm Hro (Z.of_nat h) nm Hn) as (p & Hp & Hpn & _).
  replace (at_ (Z.of_nat h) f_name) with (Z.of_nat h) by (unfold at_; simpl; lia). rewrite Hp.
  assert (∃ name, cstr m p name ∧ (length name ≤ 99)%nat ∧ sociable name) as Hname.
  { exists (safe_name nm). split_and!; [done| |apply safe_sociable]. pose proof (strip_length nm). unfold safe_name. case_decide; simpl; lia. }
  destruct (c =? type_no USTAR_REGULAR).
  - unfold parse_size. destruct (parse_any f_size) as (v & -> & Hv); [unfold HEADER_BYTES; simpl; lia|]. cbn [mbind res_bind].
    destruct v as [v|]; [|by eexists]. specialize (Hv v eq_refl). unfold in_u32 in Hv. destruct (Z.ltb_spec (W31 - 1) v); [by eexists|].
    cbn [mbind res_bind]. rewrite i32_small by (unfold in_i32; lia). eexists. split; [done|]. cbn [parse_safe]. split; [lia|done].
  - cbn [mbind res_bind]. rewrite i32_small by (unfold in_i32; lia). eexists. split; [done|]. cbn [parse_safe]. split; [lia|done].
Qed.
End any_header.

(** C23: Whatever the 512 bytes of a header are, [ustar_parse_header] ends
    without a fault: it rejects the header, or reports the end of the archive
    for a block of zeros, or gives a size within an [int] and a name of at most
    99 characters that is neither empty nor [..] and does not start with a
    slash, [./] or [../]. *)
Theorem ustar_parse_total ro (m : mem) (h : nat) :
  Forall in_u8 m → (0 < h)%nat → (h + HEADER_BYTES ≤ length m)%nat → rodata_ok m h ro →
  ∃ r, ustar_parse_header ro m (Z.of_nat h) = Ok r ∧ parse_safe m h r.
Proof.
  intros Hm Hh0 Hh Hro. unfold ustar_parse_header. rewrite is_all_zeros_spec by done. cbn [mbind res_bind].
  case_bool_decide as Hz; [by eexists|].
  assert (∃ r, memcmp m (at_ (Z.of_nat h) f_magic) (ro_ustar ro) 6 = Ok r) as (r & ->).
  { destruct (magic_spec m h ro Hh0 Hh Hro _ (header_of_ok m h Hm Hh)) as (r & Hr & _). rewrite put_header_of in Hr by done. by eexists. }
  cbn [mbind res_bind]. case_match; [by eexists|].
  destruct (load_any m h Hh0 Hh (ofs f_version)) as [v0 Hv0]; [unfold HEADER_BYTES; simpl; lia|].
  destruct (load_any m h Hh0 Hh 264) as [v1 Hv1]; [unfold HEADER_BYTES; lia|].
  rewrite (Hv0 : load m (at_ (Z.of_nat h) f_version) = _). cbn [mbind res_bind].
  replace (at_ (Z.of_nat h) f_version + 1) with (Z.of_nat h + Z.of_nat 264) by (unfold at_; simpl; lia). rewrite Hv1. cbn [mbind res_bind].
  case_match; [by eexists|].
  destruct (parse_any m h Hh0 Hh f_chksum) as (ck & -> & _); [unfold HEADER_BYTES; simpl; lia|]. cbn [mbind res_bind]. destruct ck as [ck|]; [|by eexists].
  assert (calculate_chksum m (Z.of_nat h) = Ok (chksum_of (header_of m h))) as ->.
  { rewrite <- (put_header_of m h Hh) at 1. apply calculate_chksum_spec; [done..|by apply header_of_ok]. }
  cbn [mbind res_bind]. case_match; [by eexists|].
  replace (at_ (Z.of_nat h) f_name + size_of f_name - 1) with (Z.of_nat (h + 99)) by (unfold at_, size_of; simpl; lia).
  destruct (load_any m h Hh0 Hh 99) as [c Hc]; [unfold HEADER_BYTES; lia|]. rewrite <- Nat2Z.inj_add in Hc. rewrite Hc. cbn [mbind res_bind].
  destruct (load_any m h Hh0 Hh (ofs f_prefix)) as [c' Hc']; [unfold HEADER_BYTES; simpl; lia|].
  rewrite (Hc' : load m (at_ (Z.of_nat h) f_prefix) = _). cbn [mbind res_bind]. destruct (Z.eqb_spec c 0) as [->|]; [|by eexists].
  cbn [negb orb]. case_match; [by eexists|]. apply parse_rest_safe; try done. by eapply name_string.
Qed.

(** ** Examples *)

(** The literals, the name [..//ab] at 32, and room for a header at 40. *)
Definition sample_rodata : rodata := mk_rodata 1 3 6 9 13 21 27.
Definition sample_memory : mem :=
  [0; 46; 0; 46; 46; 0; 46; 47; 0; 46; 46; 47; 0; 48; 48; 48; 48; 48; 48; 48; 0; 117; 115; 116; 97; 114; 0; 114; 111; 111; 116; 0;
   46; 46; 47; 47; 97; 98; 0; 7] ++ replicate 512 9.
Definition sample_state : console := mk_console true false None 0 0 sample_memory [].

Lemma sample_rodata_ok : rodata_ok sample_memory 40 sample_rodata.
Proof.
  split; cbn [sample_rodata ro_dot ro_dotdot ro_dotslash ro_dotdotslash ro_zeros ro_ustar ro_root];
    (split; [find_cstr|left; simpl; lia]).
Qed.
Lemma sample_memory_u8 : Forall in_u8 sample_memory.
Proof. apply Forall_app. split; [|apply Forall_replicate; unfold in_u8; lia]. field_u8. Qed.

Lemma ustar_parse_total_witness :
  ustar_parse_header sample_rodata sample_memory (Z.of_nat 40) = Ok (Bad NotUstar) ∧
  ∃ r, ustar_parse_header sample_rodata sample_memory (Z.of_nat 40) = Ok r ∧ parse_safe sample_memory 40 r.
Proof.
  split; [vm_compute; reflexivity|]. apply (ustar_parse_total sample_rodata sample_memory 40).
  - apply sample_memory_u8.
  - lia.
  - unfold sample_memory. rewrite length_app, length_replicate. unfold HEADER_BYTES. simpl. lia.
  - apply sample_rodata_ok.
Defined.
