(* ===== verification/Partition.v ===== *)
(** * devices/partition.c: partitions of a block device

    A device is a disk behind a driver or a partition, which passes reads and
    writes on to another device at an offset; [block_read] and [block_write]
    dispatch through [ops] and so may go through several devices.  A partition
    is registered after the device it is on, so that the number of devices
    bounds the depth.

    What is printed is kept as a list of messages.  [malloc] takes its outcome
    from a list; it succeeds when the list is used up. *)

From Stdlib Require Import String.
From S2P Require Import Prelude Block Stdio.

Module Partition.
Import Block.

Record partition := mk_partition { p_block : nat; p_start : Z }.
Inductive driver (D : Type) := Disk (d : D) | Part (p : partition).
Arguments Disk {D} d.
Arguments Part {D} p.

Inductive message :=
| NoPartitions | TablePastEnd (sector : Z) | InvalidSignature | InvalidExtended (sector : Z) | ExtendedIn (sector : Z)
| StartsPastEnd (part_nr start : Z) | EndPastEnd (part_nr last size : Z)
| Registered (name : list Z) (size : Z) (extra_info : string * Z).

(** ** The partition table *)

Record partition_table_entry := mk_entry {
  bootable : Z; start_chs : list Z; e_type : Z; end_chs : list Z; e_offset : Z; e_size : Z }.
Record partition_table := mk_table { loader : list Z; partitions : list partition_table_entry; signature : Z }.

Definition read_entry (l : list Z) : partition_table_entry :=
  mk_entry (le_Z (slice 0 1 l)) (slice 1 3 l) (le_Z (slice 4 1 l)) (slice 5 3 l) (le_Z (slice 8 4 l)) (le_Z (slice 12 4 l)).
Definition read_table (l : list Z) : partition_table :=
  mk_table (slice 0 446 l) (map (λ i, read_entry (slice (446 + 16 * i) 16 l)) [0; 1; 2; 3]%nat) (le_Z (slice 510 2 l)).

Definition is_extended (t : Z) : bool := (t =? 5) || (t =? 15) || (t =? 133) || (t =? 197).

Definition type_names : list (Z * string) :=
  [(0, "Empty"); (1, "FAT12"); (2, "XENIX root"); (3, "XENIX usr"); (4, "FAT16 <32M"); (5, "Extended"); (6, "FAT16");
   (7, "HPFS/NTFS"); (8, "AIX"); (9, "AIX bootable"); (10, "OS/2 Boot Manager"); (11, "W95 FAT32");
   (12, "W95 FAT32 (LBA)"); (14, "W95 FAT16 (LBA)"); (15, "W95 Ext'd (LBA)"); (16, "OPUS"); (17, "Hidden FAT12");
   (18, "Compaq diagnostics"); (20, "Hidden FAT16 <32M"); (22, "Hidden FAT16"); (23, "Hidden HPFS/NTFS");
   (24, "AST SmartSleep"); (27, "Hidden W95 FAT32"); (28, "Hidden W95 FAT32 (LBA)"); (30, "Hidden W95 FAT16 (LBA)");
   (32, "Pintos OS kernel"); (33, "Pintos file system"); (34, "Pintos scratch"); (35, "Pintos swap"); (36, "NEC DOS");
   (57, "Plan 9"); (60, "PartitionMagic recovery"); (64, "Venix 80286"); (65, "PPC PReP Boot"); (66, "SFS");
   (77, "QNX4.x"); (78, "QNX4.x 2nd part"); (79, "QNX4.x 3rd part"); (80, "OnTrack DM"); (81, "OnTrack DM6 Aux1");
   (82, "CP/M"); (83, "OnTrack DM6 Aux3"); (84, "OnTrackDM6"); (85, "EZ-Drive"); (86, "Golden Bow");
   (92, "Priam Edisk"); (97, "SpeedStor"); (99, "GNU HURD or SysV"); (100, "Novell Netware 286");
   (101, "Novell Netware 386"); (112, "DiskSecure Multi-Boot"); (117, "PC/IX"); (128, "Old Minix");
   (129, "Minix / old Linux"); (130, "Linux swap / Solaris"); (131, "Linux"); (132, "OS/2 hidden C: drive");
   (133, "Linux extended"); (134, "NTFS volume set"); (135, "NTFS volume set"); (136, "Linux plaintext");
   (142, "Linux LVM"); (147, "Amoeba"); (148, "Amoeba BBT"); (159, "BSD/OS"); (160, "IBM Thinkpad hibernation");
   (165, "FreeBSD"); (166, "OpenBSD"); (167, "NeXTSTEP"); (168, "Darwin UFS"); (169, "NetBSD"); (171, "Darwin boot");
   (183, "BSDI fs"); (184, "BSDI swap"); (187, "Boot Wizard hidden"); (190, "Solaris boot"); (191, "Solaris");
   (193, "DRDOS/sec (FAT-12)"); (196, "DRDOS/sec (FAT-16 < 32M)"); (198, "DRDOS/sec (FAT-16)"); (199, "Syrinx");
   (218, "Non-FS data"); (219, "CP/M / CTOS / ..."); (222, "Dell Utility"); (223, "BootIt"); (225, "DOS access");
   (227, "DOS R/O"); (228, "SpeedStor"); (235, "BeOS fs"); (238, "EFI GPT"); (239, "EFI (FAT-12/16/32)");
   (240, "Linux/PA-RISC boot"); (241, "SpeedStor"); (244, "SpeedStor"); (242, "DOS secondary");
   (253, "Linux raid autodetect"); (254, "LANstep"); (255, "BBT")]%string.

Definition partition_type_name (type : Z) : string :=
  match find_index (λ e, e.1 =? type) type_names with
  | Some i => match type_names !! i with Some e => e.2 | None => "Unknown"%string end
  | None => "Unknown"%string
  end.

Section partition.
Context {D : Type} `{BlockOps D}.
Abbreviation registry := (registry (driver D)).
Abbreviation block := (block (driver D)).

Definition set_block (r : registry) (i : nat) (b : block) : registry := mk_registry (<[i := b]> (all_blocks r)) (block_by_role r).
Definition count_read (b : block) : block :=
  mk_block (name b) (type b) (size b) (aux b) (u64 (read_cnt b + 1)) (write_cnt b).
Definition count_write (b : block) : block :=
  mk_block (name b) (type b) (size b) (aux b) (read_cnt b) (u64 (write_cnt b + 1)).
Definition set_aux (d : driver D) (b : block) : block := mk_block (name b) (type b) (size b) d (read_cnt b) (write_cnt b).

(** ** Reading and writing through the driver *)

Fixpoint block_read (fuel : nat) (r : registry) (i : nat) (sector : Z) : res (list Z * registry) :=
  match fuel with
  | O => Err EFuel
  | S fuel =>
      b ← deref (all_blocks r !! i);
      check_sector b sector;;
      '(buffer, r) ← match aux b with
        | Disk d => Ok (op_read d sector, r)
        | Part p => block_read fuel r (p_block p) (u32 (p_start p + sector))
        end;
      b ← deref (all_blocks r !! i);
      Ok (buffer, set_block r i (count_read b))
  end.
Definition partition_read (fuel : nat) (r : registry) (p : partition) (sector : Z) : res (list Z * registry) :=
  block_read fuel r (p_block p) (u32 (p_start p + sector)).

Fixpoint block_write (fuel : nat) (r : registry) (i : nat) (sector : Z) (buffer : list Z) : res registry :=
  match fuel with
  | O => Err EFuel
  | S fuel =>
      b ← deref (all_blocks r !! i);
      check_sector b sector;;
      assert (negb (bool_decide (type b = BLOCK_FOREIGN)));;
      r ← match aux b with
        | Disk d => Ok (set_block r i (set_aux (Disk (op_write d sector buffer)) b))
        | Part p => block_write fuel r (p_block p) (u32 (p_start p + sector)) buffer
        end;
      b ← deref (all_blocks r !! i);
      Ok (set_block r i (count_write b))
  end.
Definition partition_write (fuel : nat) (r : registry) (p : partition) (sector : Z) (buffer : list Z) : res registry :=
  block_write fuel r (p_block p) (u32 (p_start p + sector)) buffer.

Definition depth (r : registry) : nat := S (length (all_blocks r)).

(** ** Scanning *)

Record scan := mk_scan { reg : registry; part_nr : Z; log : list message; allocs : list bool }.

Definition print (x : message) : stM scan unit := smod (λ s, mk_scan (reg s) (part_nr s) (log s ++ [x]) (allocs s)).
Definition malloc : stM scan bool := λ s,
  match allocs s with
  | [] => Ok (true, s)
  | ok :: l => Ok (ok, mk_scan (reg s) (part_nr s) (log s) l)
  end.
Definition get_block (i : nat) : stM scan block := λ s, b ← deref (all_blocks (reg s) !! i); Ok (b, s).
Definition read_sector (i : nat) (sector : Z) : stM scan (list Z) := λ s,
  '(buf, r) ← block_read (depth (reg s)) (reg s) i sector; Ok (buf, mk_scan r (part_nr s) (log s) (allocs s)).
Definition register (n : list Z) (t : block_type) (extra : string * Z) (sz : Z) (p : partition) : stM scan unit :=
  ok ← malloc;
  s ← sget;
  '(_, r) ← slift (block_register ok (reg s) n t sz (Part p));
  sput (mk_scan r (part_nr s) (log s) (allocs s));;
  print (Registered (take 15 n) sz extra).

(** [snprintf (name, sizeof name, "%s%d", block_name (block), part_nr)] *)
Definition partition_name (disk : list Z) (nr : Z) : res (list Z) :=
  digits ← Stdio.integer_digits (Z.abs nr) Stdio.base_d (Stdio.mk_conv 0 0 (-1) Stdio.INT);
  Ok (take 15 (disk ++ (if nr <? 0 then [45] else []) ++ digits)).

Definition partition_role (part_type : Z) : block_type :=
  if part_type =? 32 then BLOCK_KERNEL else if part_type =? 33 then BLOCK_FILESYS
  else if part_type =? 34 then BLOCK_SCRATCH else if part_type =? 35 then BLOCK_SWAP else BLOCK_FOREIGN.

Definition found_partition (i : nat) (part_type start sz nr : Z) : stM scan unit :=
  b ← get_block i;
  if size b <=? start then print (StartsPastEnd nr start)
  else if (u32 (start + sz) <? start) || (size b <? u32 (start + sz)) then print (EndPastEnd nr (u32 (start + sz)) (size b))
  else
    ok ← malloc;
    if negb (ok : bool) then serr EPanic
    else
      n ← slift (partition_name (name b) nr);
      register n (partition_role part_type) (partition_type_name part_type, part_type) sz (mk_partition i start).

(** One turn of the loop; [again] is the recursive call. *)
Definition parse_entry (again : Z → Z → stM scan unit) (i : nat) (sector primary : Z) (e : partition_table_entry) : stM scan unit :=
  if (e_size e =? 0) || (e_type e =? 0) then mret tt
  else if is_extended (e_type e) then
    print (ExtendedIn sector);;
    if sector =? 0 then again (e_offset e) (e_offset e) else again (u32 (e_offset e + primary)) primary
  else
    smod (λ s, mk_scan (reg s) (i32 (part_nr s + 1)) (log s) (allocs s));;
    nr ← sread part_nr;
    found_partition i (e_type e) (u32 (e_offset e + sector)) (e_size e) nr.
Fixpoint parse_loop (again : Z → Z → stM scan unit) (i : nat) (sector primary : Z) (es : list partition_table_entry) : stM scan unit :=
  match es with
  | [] => mret tt
  | e :: es => parse_entry again i sector primary e;; parse_loop again i sector primary es
  end.

(** The fuel bounds the depth of the recursion; the code has no bound. *)
Fixpoint read_partition_table (fuel : nat) (i : nat) (sector primary : Z) : stM scan unit :=
  match fuel with
  | O => serr EFuel
  | S fuel =>
      b ← get_block i;
      if size b <=? sector then print (TablePastEnd sector)
      else
        ok ← malloc;
        if negb (ok : bool) then serr EPanic
        else
          buf ← read_sector i 0;
          let pt := read_table buf in
          if negb (signature pt =? 43605) then
            if primary =? 0 then print InvalidSignature else print (InvalidExtended sector)
          else parse_loop (read_partition_table fuel i) i sector primary (partitions pt)
  end.

Definition partition_scan (fuel : nat) (r : registry) (allocs : list bool) (i : nat) : res (unit * scan) :=
  (read_partition_table fuel i 0 0;;
   nr ← sread part_nr;
   if nr =? 0 then print NoPartitions else mret tt) (mk_scan r 0 [] allocs).

End partition.
End Partition.
