(* ===== verification/PartitionSpec.v ===== *)
(** * Partitions: what a scan registers, and where partitions read and write

    Devices are compared by their [shape], which leaves out the counters of
    transfers. *)

From Stdlib Require Import String.
From S2P Require Import Prelude Block Stdio StdioSpec Partition.
Import Block Partition.

Section spec.
Context {D : Type} `{BlockLaws D}.
Abbreviation registry := (Block.registry (driver D)).
Abbreviation block := (Block.block (driver D)).
Implicit Types (r : registry) (b : block).

Definition shape b : list Z * block_type * Z * driver D := (name b, type b, size b, aux b).
Definition shapes r : list (list Z * block_type * Z * driver D) := map shape (all_blocks r).

Lemma shapes_lookup r i x : shapes r !! i = Some x → ∃ b, all_blocks r !! i = Some b ∧ shape b = x.
Proof. unfold shapes. intros (b & -> & ?)%list_lookup_fmap_Some. by exists b. Qed.
Lemma shapes_set r i b : shapes (set_block r i b) = <[i := shape b]> (shapes r).
Proof. unfold shapes, set_block. apply list_fmap_insert. Qed.
Lemma shapes_same r i b b' : all_blocks r !! i = Some b → shape b' = shape b → shapes (set_block r i b') = shapes r.
Proof. intros Hb Hs. rewrite shapes_set, Hs. apply list_insert_id. unfold shapes. by rewrite list_lookup_fmap, Hb. Qed.

(** ** Reading and writing *)

Lemma block_read_S fuel r i s :
  block_read (S fuel) r i s =
    (b ← deref (all_blocks r !! i); check_sector b s;;
     '(buffer, r) ← match aux b with
       | Disk d => Ok (op_read d s, r)
       | Part p => block_read fuel r (p_block p) (u32 (p_start p + s))
       end;
     b ← deref (all_blocks r !! i); Ok (buffer, set_block r i (count_read b))).
Proof. done. Qed.
Lemma block_write_S fuel r i s buf :
  block_write (S fuel) r i s buf =
    (b ← deref (all_blocks r !! i); check_sector b s;;
     assert (negb (bool_decide (type b = BLOCK_FOREIGN)));;
     r ← match aux b with
       | Disk d => Ok (set_block r i (set_aux (Disk (op_write d s buf)) b))
       | Part p => block_write fuel r (p_block p) (u32 (p_start p + s)) buf
       end;
     b ← deref (all_blocks r !! i); Ok (set_block r i (count_write b))).
Proof. done. Qed.

Lemma read_disk fuel r i nm t n d s :
  shapes r !! i = Some (nm, t, n, Disk d) → s < n → ∃ r', block_read (S fuel) r i s = Ok (op_read d s, r') ∧ shapes r' = shapes r.
Proof.
  intros (b & Hb & [= _ _ Hn Hd])%shapes_lookup Hs. rewrite block_read_S, Hb. cbn [deref mbind res_bind]. unfold check_sector.
  rewrite (proj2 (Z.leb_gt (size b) s)) by lia. cbn [mbind res_bind]. rewrite Hd. cbn [mbind res_bind]. rewrite Hb. cbn [deref mbind res_bind].
  eexists. split; [done|]. by eapply shapes_same.
Qed.

Lemma write_disk fuel r i nm t n d s buf :
  shapes r !! i = Some (nm, t, n, Disk d) → s < n → t ≠ BLOCK_FOREIGN →
  ∃ r', block_write (S fuel) r i s buf = Ok r' ∧ shapes r' = <[i := (nm, t, n, Disk (op_write d s buf))]> (shapes r).
Proof.
  intros (b & Hb & [= <- <- <- Hd])%shapes_lookup Hs Ht. rewrite block_write_S, Hb. cbn [deref mbind res_bind]. unfold check_sector.
  rewrite (proj2 (Z.leb_gt (size b) s)), bool_decide_eq_false_2 by (done || lia). cbn [mbind res_bind negb assert]. rewrite Hd. cbn [mbind res_bind].
  assert (i < length (all_blocks r))%nat by by eapply lookup_lt_Some.
  assert (∀ c, all_blocks (set_block r i c) !! i = Some c) as Hset by (intros c; by apply list_lookup_insert_eq).
  rewrite Hset. cbn [deref mbind res_bind].
  eexists. split; [done|]. rewrite !shapes_set, list_insert_insert_eq. done.
Qed.

(** A partition [p] of [n] sectors within the disk [d]. *)
Record part_of r (j : nat) (p : partition) (n : Z) (d : D) : Prop := {
  po_part : ∃ nm t, shapes r !! j = Some (nm, t, n, Part p) ∧ t ≠ BLOCK_FOREIGN;
  po_disk : ∃ nm t N, shapes r !! p_block p = Some (nm, t, N, Disk d) ∧ t ≠ BLOCK_FOREIGN ∧ 0 ≤ p_start p ∧ p_start p + n ≤ N ∧ N < W32 }.

Lemma part_sector r j p n d s : part_of r j p n d → 0 ≤ s < n → u32 (p_start p + s) = p_start p + s.
Proof. intros [_ (nm & t & N & _ & _ & ? & ? & ?)] Hs. apply u32_small. unfold in_u32. lia. Qed.

Lemma part_read fuel r j p n d s :
  part_of r j p n d → 0 ≤ s < n → ∃ r', block_read (S (S fuel)) r j s = Ok (op_read d (p_start p + s), r') ∧ shapes r' = shapes r.
Proof.
  intros Hp Hs. pose proof (part_sector _ _ _ _ _ _ Hp Hs) as Hu. destruct Hp as [(nm & t & Hj & _) (nm' & t' & N & Hi & _ & ? & ? & ?)].
  pose proof Hj as (b & Hb & [= _ _ Hn Hd])%shapes_lookup.
  destruct (read_disk fuel r (p_block p) _ _ _ d (p_start p + s) Hi) as (r1 & Hr1 & Hs1); [lia|].
  rewrite block_read_S, Hb. cbn [deref mbind res_bind]. unfold check_sector. rewrite (proj2 (Z.leb_gt (size b) s)) by lia.
  cbn [mbind res_bind]. rewrite Hd, Hu, Hr1. cbn [mbind res_bind].
  rewrite <- Hs1 in Hj. apply shapes_lookup in Hj as (b1 & Hb1 & Hsh). rewrite Hb1. cbn [deref mbind res_bind].
  eexists. split; [done|]. rewrite <- Hs1. by eapply shapes_same.
Qed.

Lemma part_write fuel r j p n d s buf :
  part_of r j p n d → 0 ≤ s < n →
  ∃ r', block_write (S (S fuel)) r j s buf = Ok r' ∧ part_of r' j p n (op_write d (p_start p + s) buf) ∧
    ∀ k q m, part_of r k q m d → p_block q = p_block p → part_of r' k q m (op_write d (p_start p + s) buf).
Proof.
  intros Hp Hs. pose proof Hp as Hp0. pose proof (part_sector _ _ _ _ _ _ Hp Hs) as Hu. destruct Hp as [(nm & t & Hj & Ht) (nm' & t' & N & Hi & Ht' & ? & ? & ?)].
  pose proof Hj as (b & Hb & [= _ Hbt Hn Hd])%shapes_lookup.
  destruct (write_disk fuel r (p_block p) _ _ _ d (p_start p + s) buf Hi) as (r1 & Hr1 & Hs1); [lia|done|].
  assert (p_block p ≠ j) as Hne by (intros Heq; rewrite Heq in Hi; congruence).
  assert (shapes r1 !! j = Some (nm, t, n, Part p)) as Hj1 by (by rewrite Hs1, list_lookup_insert_ne).
  pose proof Hj1 as (b1 & Hb1 & Hsh)%shapes_lookup.
  exists (set_block r1 j (count_write b1)).
  assert (shapes (set_block r1 j (count_write b1)) = shapes r1) as Hsame by by eapply shapes_same.
  assert (∀ k q m, part_of r k q m d → p_block q = p_block p → part_of (set_block r1 j (count_write b1)) k q m (op_write d (p_start p + s) buf)) as Hall.
  { intros k q m [(nk & tk & Hk & Htk) (nk' & tk' & M & Hki & Htk' & Hrest)] Hq. rewrite Hq in Hki. rewrite Hi in Hki. injection Hki as <- <- <-.
    split; rewrite Hsame, Hs1.
    - exists nk, tk. split; [|done]. rewrite list_lookup_insert_ne; [done|]. intros Heq. rewrite Heq in Hi. congruence.
    - exists nm', t', N. rewrite Hq. split_and!; [|done|apply Hrest..]. apply list_lookup_insert_eq. apply lookup_lt_Some in Hi. done. }
  split_and!; [|by apply Hall|done].
  rewrite block_write_S, Hb. cbn [deref mbind res_bind]. unfold check_sector.
  rewrite (proj2 (Z.leb_gt (size b) s)), bool_decide_eq_false_2 by (congruence || lia).
  cbn [mbind res_bind negb assert]. rewrite Hd, Hu, Hr1. cbn [mbind res_bind]. by rewrite Hb1.
Qed.

(** Partitions are windows onto their disk: writing a sector of one
    succeeds, reading it back gives what was written, and every other sector of
    it and every sector of a partition of the same disk that does not overlap
    it reads as before. *)
Lemma partition_io r j k p q n m d s s' buf :
  part_of r j p n d → part_of r k q m d → p_block q = p_block p → 0 ≤ s < n → 0 ≤ s' < m → length buf = SECTOR_BYTES →
  (q = p ∧ s' ≠ s ∨ p_start p + n ≤ p_start q ∨ p_start q + m ≤ p_start p) →
  ∃ r' r1 r2 r3 old, block_write (depth r) r j s buf = Ok r' ∧
    block_read (depth r') r' j s = Ok (buf, r1) ∧
    block_read (depth r) r k s' = Ok (old, r2) ∧ block_read (depth r') r' k s' = Ok (old, r3).
Proof.
  intros Hj Hk Hq Hs Hs' Hbuf Hdis.
  assert (∀ r k q m d, part_of r k q m d → ∃ f, depth r = S (S f)) as Hdepth.
  { intros r0 k0 q0 m0 d0 [(nm & t & Hl & _) _]. apply lookup_lt_Some in Hl. unfold shapes in Hl. rewrite length_map in Hl.
    unfold depth. destruct (all_blocks r0); [simpl in Hl; lia|]. by eexists. }
  destruct (Hdepth _ _ _ _ _ Hj) as (f & Hf). destruct (part_write f r j p n d s buf Hj Hs) as (r' & Hw & Hj' & Hall).
  pose proof (Hall k q m Hk Hq) as Hk'. destruct (Hdepth _ _ _ _ _ Hj') as (f' & Hf').
  destruct (part_read f' r' j p n _ s Hj' Hs) as (r1 & Hr1 & _). destruct (part_read f r k q m d s' Hk Hs') as (r2 & Hr2 & _).
  destruct (part_read f' r' k q m _ s' Hk' Hs') as (r3 & Hr3 & _).
  exists r', r1, r2, r3, (op_read d (p_start q + s')). rewrite Hf, Hf'. split_and!; [done| |done|].
  - rewrite Hr1. by rewrite op_read_write.
  - rewrite Hr3, op_read_write_ne; [done|]. destruct Hdis as [[-> ?]|?]; lia.
Qed.

(** ** Scanning *)

Section scanning.
Context (i : nat) (nm : list Z) (t : block_type) (N : Z) (d : D).
Abbreviation disk := (nm, t, N, Disk d).
Abbreviation table := (read_table (op_read d 0)).
Context (HN : 0 < N < W32) (Hsig : signature table = 43605).

(** The state between two entries. *)
Record scanning (s : scan) : Prop := { sc_disk : shapes (reg s) !! i = Some disk; sc_allocs : allocs s = []; sc_nr : in_i32 (part_nr s) }.

Lemma get_disk s : scanning s → ∃ b, get_block i s = Ok (b, s) ∧ shape b = disk.
Proof. intros [(b & Hb & Hs)%shapes_lookup _ _]. exists b. unfold get_block. by rewrite Hb. Qed.

Lemma table_step fuel sector primary s :
  scanning s → sector < N →
  ∃ s', read_partition_table (S fuel) i sector primary s = parse_loop (read_partition_table fuel i) i sector primary (partitions table) s' ∧
    scanning s' ∧ shapes (reg s') = shapes (reg s) ∧ part_nr s' = part_nr s.
Proof.
  intros Hs Hlt. destruct (get_disk s Hs) as (b & Hb & [= _ _ Hn _]). cbn [read_partition_table]. rewrite stM_bind_eq, Hb, Hn.
  rewrite (proj2 (Z.leb_gt N sector)) by lia. destruct Hs as [Hd Ha Hnr]. rewrite stM_bind_eq. unfold malloc at 1. rewrite Ha. cbn [negb].
  destruct (read_disk (length (all_blocks (reg s))) (reg s) i nm t N d 0 Hd) as (r1 & Hr1 & Hs1); [lia|].
  rewrite stM_bind_eq. unfold read_sector, depth. rewrite Hr1. cbn [mbind res_bind]. rewrite Hsig. cbn [negb].
  eexists. split; [done|]. split; [|done]. split; cbn [reg allocs part_nr]; [by rewrite Hs1|done|done].
Qed.

Lemma partition_name_ok n : in_i32 n → ∃ x, partition_name nm n = Ok x ∧ (length x ≤ 15)%nat.
Proof.
  intros Hn. unfold partition_name. destruct (integer_digits_spec (Z.abs n) Stdio.base_d (Stdio.mk_conv 0 0 (-1) Stdio.INT)) as (l & -> & _);
    [unfold bases; set_solver|unfold in_u64, in_i32 in *; lia|]. cbn [mbind res_bind]. eexists. split; [done|]. rewrite length_take. lia.
Qed.

(** Whether a partition lies within the disk. *)
Definition fits (start sz : Z) : bool := (start <? N) && (start + sz <=? N).

Lemma found_spec ty start sz nr s :
  scanning s → in_u32 start → in_u32 sz → in_i32 nr →
  ∃ s' x, found_partition i ty start sz nr s = Ok (tt, s') ∧ scanning s' ∧ part_nr s' = part_nr s ∧ partition_name nm nr = Ok x ∧
    shapes (reg s') = shapes (reg s) ++ (if fits start sz then [(x, partition_role ty, sz, Part (mk_partition i start))] else []).
Proof.
  intros Hs Hst Hsz Hnr. destruct (partition_name_ok nr Hnr) as (x & Hx & Hlen). unfold in_u32 in *.
  destruct (get_disk s Hs) as (b & Hb & [= Hbn _ Hn _]). unfold found_partition. rewrite stM_bind_eq, Hb, Hn. destruct Hs as [Hd Ha Hns].
  unfold fits. destruct (Z.leb_spec N start).
  { rewrite (proj2 (Z.ltb_ge start N)) by lia. eexists _, x. split; [done|]. cbn [andb reg part_nr]. rewrite app_nil_r. by split_and!. }
  rewrite (proj2 (Z.ltb_lt start N)) by lia. cbn [andb]. destruct (Z.leb_spec (start + sz) N).
  - rewrite u32_small by (unfold in_u32; lia). rewrite (proj2 (Z.ltb_ge (start + sz) start)), (proj2 (Z.ltb_ge N (start + sz))) by lia. cbn [orb].
    rewrite stM_bind_eq. unfold malloc at 1. rewrite Ha. cbn [negb]. rewrite Hbn, stM_bind_eq, Hx. cbn [slift].
    unfold register. rewrite stM_bind_eq. unfold malloc at 1. rewrite Ha. rewrite stM_bind_eq. cbn [sget]. rewrite stM_bind_eq.
    cbn [block_register slift]. rewrite stM_bind_eq. cbn [sput]. eexists _, x. split; [done|]. cbn [reg part_nr allocs].
    assert (∀ r c, shapes (mk_registry (all_blocks r ++ [c]) (block_by_role r)) = shapes r ++ [shape c]) as Happ
      by (intros r c; unfold shapes; cbn [all_blocks]; by rewrite map_app).
    split_and!; [|done|done|].
    + split; cbn [reg allocs part_nr]; [|done|done]. rewrite Happ. by apply lookup_app_l_Some.
    + rewrite Happ. unfold shape. cbn [name type size aux]. by rewrite take_ge.
  - replace ((u32 (start + sz) <? start) || (N <? u32 (start + sz))) with true.
    2:{ symmetry. apply orb_true_iff. rewrite !Z.ltb_lt. destruct (decide (start + sz < W32)); [right; rewrite u32_small; unfold in_u32; lia|].
        left. unfold u32. replace (start + sz) with (start + sz - W32 + 1 * W32) by lia. rewrite Z_mod_plus_full, Z.mod_small; lia. }
    eexists _, x. split; [done|]. cbn [reg part_nr]. rewrite app_nil_r. by split_and!.
Qed.

(** ** Tables without extended partitions *)

Definition empty_entry (e : partition_table_entry) : bool := (e_size e =? 0) || (e_type e =? 0).
Definition plain (e : partition_table_entry) : Prop := empty_entry e = true ∨ is_extended (e_type e) = false.

Lemma parse_empty again sector primary e (s : @scan D) : empty_entry e = true → parse_entry again i sector primary e s = Ok (tt, s).
Proof. unfold empty_entry, parse_entry. by intros ->. Qed.

Lemma parse_plain again sector primary e s :
  scanning s → empty_entry e = false → is_extended (e_type e) = false → in_u32 (e_size e) →
  let nr := i32 (part_nr s + 1) in let start := u32 (e_offset e + sector) in
  ∃ s' x, parse_entry again i sector primary e s = Ok (tt, s') ∧ scanning s' ∧ part_nr s' = nr ∧ partition_name nm nr = Ok x ∧
    shapes (reg s') = shapes (reg s) ++ (if fits start (e_size e) then [(x, partition_role (e_type e), e_size e, Part (mk_partition i start))] else []).
Proof.
  intros [Hd Ha Hn] He Hx Hsz nr start. unfold empty_entry in He. unfold parse_entry. rewrite He, Hx.
  rewrite stM_bind_eq. cbn [smod]. rewrite stM_bind_eq. cbn [sread part_nr].
  destruct (found_spec (e_type e) start (e_size e) nr (mk_scan (reg s) nr (log s) (allocs s))) as (s' & x & Hr & Hs' & Hnr & Hrest);
    [by split; try apply i32_range|apply u32_range|done|apply i32_range|]. by exists s', x.
Qed.

Lemma parse_plain_all again sector primary es s :
  scanning s → Forall plain es → Forall (λ e, in_u32 (e_size e)) es → ∃ s', parse_loop again i sector primary es s = Ok (tt, s') ∧ scanning s'.
Proof.
  intros Hs Hp. revert s Hs. induction Hp as [|e es He Hp IH]; intros s Hs Hf; cbn [parse_loop]; [by exists s|].
  apply Forall_cons in Hf as [Hf0 Hf]. rewrite stM_bind_eq. destruct (empty_entry e) eqn:Ee.
  - rewrite parse_empty by done. by apply IH.
  - destruct He as [?|Hx]; [congruence|]. destruct (parse_plain again sector primary e s Hs Ee Hx Hf0) as (s1 & x & -> & Hs1 & _). by apply IH.
Qed.



End scanning.


Lemma le_u32 l : Forall in_u8 l → (length l ≤ 4)%nat → in_u32 (le_Z l).
Proof.
  intros Hl Hn. pose proof (le_Z_range l Hl) as [? Hlt]. unfold in_u32. split; [done|]. eapply Z.lt_le_trans; [done|].
  change W32 with (W8 ^ 4). apply Z.pow_le_mono_r; lia.
Qed.

Lemma table_u32 l :
  Forall in_u8 l → Forall (λ e, in_u32 (e_offset e) ∧ in_u32 (e_size e)) (partitions (read_table l)).
Proof.
  intros Hl. apply Forall_forall. intros e (k & -> & _)%list_elem_of_fmap. cbn [read_entry e_offset e_size].
  split; apply le_u32; [by do 2 apply Forall_slice|unfold slice; rewrite length_take; lia|by do 2 apply Forall_slice|unfold slice; rewrite length_take; lia].
Qed.


(** C38: A disk whose partition table has an extended partition makes the scan
    call itself without end, whatever stack it has: every level reads sector 0
    again, finds the same entry and goes on to the sector it names, or to
    twice that, as long as these are within the disk. *)
Theorem extended_partition_diverges fuel r i nm t N d pre e post :
  shapes r !! i = Some (nm, t, N, Disk d) → 0 < N < W32 → Forall in_u8 (op_read d 0) →
  signature (read_table (op_read d 0)) = 43605 → partitions (read_table (op_read d 0)) = pre ++ e :: post → Forall plain pre →
  empty_entry e = false → is_extended (e_type e) = true → e_offset e < N → u32 (e_offset e + e_offset e) < N →
  partition_scan fuel r [] i = Err EFuel.
Proof.
  intros Hd HN Hu Hsig Hes Hpl Hne Hx Ho1 Ho2. pose proof (table_u32 _ Hu) as Hf. rewrite Hes in Hf. apply Forall_app in Hf as [Hfp [[He _] _]%Forall_cons].
  set (o := e_offset e) in *.
  assert (∀ sector primary s, scanning i nm t N d s → (sector, primary) ∈ [(0, 0); (o, o); (u32 (o + o), o)] →
    read_partition_table fuel i sector primary s = Err EFuel) as Hdiv.
  { induction fuel as [|fuel IH]; intros sector primary s Hs Hin; [done|].
    assert (sector < N) as Hlt by (rewrite !elem_of_cons in Hin; destruct Hin as [[= -> ->]|[[= -> ->]|[[= -> ->]|[]%elem_of_nil]]]; lia).
    destruct (table_step i nm t N d HN Hsig fuel sector primary s Hs Hlt) as (s1 & -> & Hs1 & _ & _). rewrite Hes.
    assert (∀ es1 es2 s, parse_loop (read_partition_table fuel i) i sector primary (es1 ++ es2) s =
      (parse_loop (read_partition_table fuel i) i sector primary es1;; parse_loop (read_partition_table fuel i) i sector primary es2) s) as Happ.
    { intros es1 es2. induction es1 as [|e' es1 IHe]; intros s0; [done|]. cbn [app parse_loop]. rewrite !stM_bind_eq.
      destruct (parse_entry _ i sector primary e' s0) as [[[] s']|]; [|done]. rewrite IHe. by rewrite stM_bind_eq. }
    destruct (parse_plain_all i nm t N d HN Hsig (read_partition_table fuel i) sector primary pre s1 Hs1 Hpl) as (s2 & Hr2 & Hs2);
      [eapply Forall_impl; [done|]; by intros ? []|].
    rewrite Happ, stM_bind_eq, Hr2. cbn [parse_loop]. rewrite stM_bind_eq. unfold parse_entry. unfold empty_entry in Hne. rewrite Hne, Hx.
    rewrite stM_bind_eq. cbn [print smod]. fold o.
    assert (scanning i nm t N d (mk_scan (reg s2) (part_nr s2) (log s2 ++ [ExtendedIn sector]) (allocs s2))) as Hs3 by (by destruct Hs2).
    rewrite !elem_of_cons in Hin. destruct (Z.eqb_spec sector 0) as [->|]; (rewrite IH; [done|done|]); [set_solver|].
    destruct Hin as [[= -> ->]|[[= -> ->]|[[= -> ->]|[]%elem_of_nil]]]; [done|set_solver..]. }
  unfold partition_scan. rewrite stM_bind_eq, (Hdiv 0 0); [done|by split|set_solver].
Qed.
End spec.

(** ** Examples *)

Definition entry_bytes (ty start sz : Z) : list Z := [0; 0; 0; 0; ty; 0; 0; 0] ++ le_bytes 4 start ++ le_bytes 4 sz.
(** A file system partition of 3 sectors and one of [ty] of 4. *)
Definition sample_table (ty : Z) : list Z :=
  replicate 446 0 ++ entry_bytes 33 2 3 ++ entry_bytes ty 3 4 ++ entry_bytes 0 0 0 ++ entry_bytes 0 0 0 ++ [85; 170].
Definition sample_disk (ty : Z) : ramdisk := {[ 0 := sample_table ty ]}.
Definition sample_registry (ty : Z) : Block.registry (driver ramdisk) :=
  mk_registry [mk_block [104; 100; 97] BLOCK_RAW 10 (Disk (sample_disk ty)) 0 0] ∅.

Lemma sample_table_u8 ty : in_u8 ty → Forall in_u8 (op_read (sample_disk ty) 0).
Proof.
  intros Hty. change (op_read (sample_disk ty) 0) with (sample_table ty). unfold sample_table, entry_bytes.
  repeat (apply Forall_app; split); try (apply Forall_replicate; unfold in_u8; lia); try apply le_bytes_u8;
    repeat (apply Forall_cons; split; [first [done|unfold in_u8; lia]|]); apply Forall_nil; exact I.
Qed.


Lemma extended_partition_diverges_witness : partition_scan 100 (sample_registry 5) [] 0 = Err EFuel.
Proof.
  apply (extended_partition_diverges 100 (sample_registry 5) 0 [104; 100; 97] BLOCK_RAW 10 (sample_disk 5)
    (take 1 (partitions (read_table (sample_table 5)))) (read_entry (entry_bytes 5 3 4)) (drop 2 (partitions (read_table (sample_table 5))))).
  - reflexivity.
  - lia.
  - apply sample_table_u8. unfold in_u8. lia.
  - vm_compute. reflexivity.
  - vm_compute. reflexivity.
  - apply Forall_cons. split; [right; vm_compute; reflexivity|apply Forall_nil; exact I].
  - vm_compute. reflexivity.
  - vm_compute. reflexivity.
  - vm_compute. reflexivity.
  - vm_compute. reflexivity.
Defined.

(** The disk and two partitions of it. *)
Definition sample_devices : Block.registry (driver ramdisk) :=
  mk_registry [mk_block [104] BLOCK_RAW 10 (Disk (∅ : ramdisk)) 0 0;
               mk_block [49] BLOCK_FILESYS 3 (Part (mk_partition 0 2)) 0 0;
               mk_block [50] BLOCK_SCRATCH 4 (Part (mk_partition 0 5)) 0 0] ∅.
Lemma sample_part j p n t nm :
  shapes sample_devices !! j = Some (nm, t, n, Part p) → t ≠ BLOCK_FOREIGN → p_block p = 0%nat → 0 ≤ p_start p → p_start p + n ≤ 10 →
  part_of sample_devices j p n (∅ : ramdisk).
Proof.
  intros Hj Ht Hp H0 Hn. split; [by exists nm, t|]. rewrite Hp. exists [104], BLOCK_RAW, 10. split_and!; [reflexivity|discriminate|lia..].
Qed.

