(* ===== verification/Intq.v ===== *)
(** * devices/intq.c and devices/input.c: interrupt queues

    A queue is a ring of 64 bytes with a lock and two places for a waiting
    thread.  The functions run with interrupts off, so that a call is cut only
    where its thread blocks: on the queue's lock or in [wait].  Of the
    scheduler the model keeps which threads are blocked there, and at which
    [point] they go on; the lock is a holder and a semaphore as in synch.c.
    [serial_notify] only tells the serial port about the change. *)

From S2P Require Import Prelude.

Module Intq.

Definition INTQ_BUFSIZE : Z := 64.
Definition NULL : Z := 0.

(** A waiting thread is [NULL] or the address of its [struct thread]. *)
Record intq := mk_intq {
  holder : Z; sema_value : Z; sema_waiters : list Z;
  not_full : Z; not_empty : Z; buf : list Z; head : Z; tail : Z }.

(** What a call does, and where it can be blocked. *)
Inductive op := Get | Put (byte : Z).
Inductive point := AtLock (o : op) | AtWait (o : op).
#[export] Instance op_eq_dec : EqDecision op.
Proof. solve_decision. Defined.
#[export] Instance point_eq_dec : EqDecision point.
Proof. solve_decision. Defined.

(** A thread in [sleepers] is blocked, one in [woken] will go on from there.
    [cur] is the running thread; [got] and [put] record the bytes that were
    taken out and stored, in order. *)
Record state := mk_state {
  q : intq; sleepers : gmap Z point; woken : gmap Z point;
  cur : Z; intr_off : bool; in_intr : bool; got : list Z; put : list Z }.
Abbreviation qM := (stM state).

Definition set_q (f : intq → intq) : qM unit :=
  smod (λ s, mk_state (f (q s)) (sleepers s) (woken s) (cur s) (intr_off s) (in_intr s) (got s) (put s)).
Definition set_level (off : bool) : qM unit :=
  smod (λ s, mk_state (q s) (sleepers s) (woken s) (cur s) off (in_intr s) (got s) (put s)).
Definition assert_off : qM unit := s ← sget; sassert (intr_off s).
Definition assert_thread : qM unit := s ← sget; sassert (negb (in_intr s)).

Definition set_lock (h v : Z) (w : list Z) (x : intq) : intq := mk_intq h v w (not_full x) (not_empty x) (buf x) (head x) (tail x).
Definition set_waiters (nf ne : Z) (x : intq) : intq :=
  mk_intq (holder x) (sema_value x) (sema_waiters x) nf ne (buf x) (head x) (tail x).
Definition set_ring (b : list Z) (h t : Z) (x : intq) : intq :=
  mk_intq (holder x) (sema_value x) (sema_waiters x) (not_full x) (not_empty x) b h t.

(** The record of the bytes is no part of the code. *)
Definition set_logs (f g : list Z → list Z) : qM unit :=
  smod (λ s, mk_state (q s) (sleepers s) (woken s) (cur s) (intr_off s) (in_intr s) (f (got s)) (g (put s))).

(** ** The scheduler, as seen from here *)

(** The running thread goes to sleep at [p]. *)
Definition thread_block (p : point) : qM unit :=
  assert_thread;; assert_off;;
  smod (λ s, mk_state (q s) (<[cur s := p]> (sleepers s)) (woken s) (cur s) (intr_off s) (in_intr s) (got s) (put s)).
Definition thread_unblock (t : Z) : qM unit := λ s,
  match sleepers s !! t with
  | None => Err EAssert
  | Some p => Ok (tt, mk_state (q s) (delete t (sleepers s)) (<[t := p]> (woken s)) (cur s) (intr_off s) (in_intr s) (got s) (put s))
  end.

(** ** intq.c *)

Definition intq_init : intq := mk_intq NULL 1 [] NULL NULL (replicate 64 0) 0 0.

Definition next (pos : Z) : Z := Z.rem (pos + 1) INTQ_BUFSIZE.

Definition is_empty (x : intq) : bool := head x =? tail x.
Definition is_full (x : intq) : bool := next (head x) =? tail x.
Definition intq_empty : qM bool := assert_off;; s ← sget; mret (is_empty (q s)).
Definition intq_full : qM bool := assert_off;; s ← sget; mret (is_full (q s)).

(** [wait (q, &q->not_empty)] of a reader and [wait (q, &q->not_full)] of a writer *)
Definition wait (o : op) : qM unit :=
  assert_thread;; assert_off;;
  c ← match o with Get => intq_empty | Put _ => intq_full end;
  sassert c;;
  s ← sget;
  set_q (λ x, match o with Get => set_waiters (not_full x) (cur s) x | Put _ => set_waiters (cur s) (not_empty x) x end);;
  thread_block (AtWait o).

(** [signal] of the waiter that a call of kind [o] may have let go on. *)
Definition signal (o : op) : qM unit :=
  assert_off;;
  c ← match o with Put _ => intq_empty | Get => intq_full end;
  sassert (negb c);;
  s ← sget;
  let waiter := match o with Put _ => not_empty (q s) | Get => not_full (q s) end in
  if waiter =? NULL then mret tt
  else
    thread_unblock waiter;;
    set_q (λ x, match o with Put _ => set_waiters (not_full x) NULL x | Get => set_waiters NULL (not_empty x) x end).

(** The rest of [lock_acquire] from the loop of [sema_down], and [wait]. *)
Definition acquired (o : op) : qM unit :=
  s ← sget;
  if sema_value (q s) =? 0 then
    set_q (λ x, set_lock (holder x) (sema_value x) (sema_waiters x ++ [cur s]) x);;
    thread_block (AtLock o)
  else
    set_q (λ x, set_lock (cur s) (u32 (sema_value x - 1)) (sema_waiters x) x);;
    wait o.
Definition lock_acquire (o : op) : qM unit :=
  assert_thread;; s ← sget; sassert (negb (holder (q s) =? cur s));; acquired o.

Definition lock_release : qM unit :=
  s ← sget; sassert (holder (q s) =? cur s);;
  set_q (λ x, set_lock NULL (sema_value x) (sema_waiters x) x);;
  (match sema_waiters (q s) with
   | [] => mret tt
   | t :: w => set_q (λ x, set_lock (holder x) (sema_value x) w x);; thread_unblock t
   end);;
  set_q (λ x, set_lock (holder x) (u32 (sema_value x + 1)) (sema_waiters x) x).

(** The ends of [intq_getc] and [intq_putc]. *)
Definition take_byte : qM Z :=
  s ← sget;
  byte ← slift (deref (buf (q s) !! Z.to_nat (tail (q s))));
  set_q (λ x, set_ring (buf x) (head x) (next (tail x)) x);;
  set_logs (λ g, g ++ [byte]) id;;
  signal Get;;
  mret byte.
Definition store_byte (byte : Z) : qM unit :=
  s ← sget;
  _ ← slift (deref (buf (q s) !! Z.to_nat (head (q s))));
  set_q (λ x, set_ring (<[Z.to_nat (head x) := byte]> (buf x)) (next (head x)) (tail x) x);;
  set_logs id (λ p, p ++ [byte]);;
  signal (Put byte).

(** One pass of the loop and what follows it: the byte, or [None] when the
    thread has gone to sleep. *)
Definition intq_getc : qM (option Z) :=
  assert_off;;
  e ← intq_empty;
  if (e : bool) then assert_thread;; lock_acquire Get;; mret None
  else b ← take_byte; mret (Some b).
Definition intq_putc (byte : Z) : qM bool :=
  assert_off;;
  f ← intq_full;
  if (f : bool) then assert_thread;; lock_acquire (Put byte);; mret false
  else store_byte byte;; mret true.

(** ** input.c *)

Definition input_full : qM bool := assert_off;; intq_full.
Definition input_putc (key : Z) : qM bool :=
  assert_off;; f ← intq_full; sassert (negb f);; intq_putc key.
(** [input_getc] up to where it returns or its thread goes to sleep. *)
Definition input_getc : qM (option Z) := set_level true;; intq_getc.

(** ** Runs *)

(** A thread calls a function of the queue or goes on after it was woken; an
    interrupt handler gets or puts a byte if that needs no waiting. *)
Inductive event := Call (t : Z) (o : op) | Resume (t : Z) | Handler (o : op).

Definition run_op (o : op) : qM unit :=
  match o with Get => _ ← intq_getc; mret tt | Put b => _ ← intq_putc b; mret tt end.

Definition enter (t : Z) (handler : bool) : qM unit :=
  smod (λ s, mk_state (q s) (sleepers s) (woken s) t true handler (got s) (put s)).

Definition step (e : event) : qM unit :=
  match e with
  | Call t o =>
      s ← sget;
      if bool_decide (t = NULL) || bool_decide (is_Some (sleepers s !! t)) || bool_decide (is_Some (woken s !! t)) then mret tt
      else enter t false;; run_op o
  | Resume t =>
      s ← sget;
      match woken s !! t with
      | None => mret tt
      | Some p =>
          enter t false;;
          smod (λ s, mk_state (q s) (sleepers s) (delete t (woken s)) (cur s) (intr_off s) (in_intr s) (got s) (put s));;
          match p with
          | AtLock o => acquired o
          | AtWait o => lock_release;; run_op o
          end
      end
  | Handler o =>
      s ← sget;
      if match o with Get => is_empty (q s) | Put _ => is_full (q s) end then mret tt
      else enter (cur s) true;; run_op o
  end.

Fixpoint run (es : list event) : qM unit :=
  match es with [] => mret tt | e :: es => step e;; run es end.

Definition init : state := mk_state intq_init ∅ ∅ NULL true false [] [].

End Intq.
