(* ===== verification/IntqSpec.v ===== *)
(** * Interrupt queues: bytes come out as they went in *)

From S2P Require Import Prelude Intq.
Import Intq.

(** ** The ring as a list *)

Definition slot (x : intq) (k : nat) : Z := buf x !!! Z.to_nat ((tail x + Z.of_nat k) mod 64).
Definition count (x : intq) : nat := Z.to_nat ((head x - tail x) mod 64).
Definition contents (x : intq) : list Z := slot x <$> seq 0 (count x).

Record ring_ok (x : intq) : Prop := { rk_buf : length (buf x) = 64%nat; rk_head : 0 ≤ head x < 64; rk_tail : 0 ≤ tail x < 64 }.

Lemma next_mod p : 0 ≤ p → next p = (p + 1) mod 64.
Proof. intros Hp. unfold next, INTQ_BUFSIZE. apply Z.rem_mod_nonneg; lia. Qed.

Lemma count_bound x : (count x ≤ 63)%nat.
Proof. unfold count. pose proof (Z.mod_pos_bound (head x - tail x) 64). lia. Qed.

Lemma empty_contents x : ring_ok x → is_empty x = true ↔ contents x = [].
Proof.
  intros [_ Hh Ht]. unfold is_empty, contents, count. rewrite Z.eqb_eq. split.
  - intros ->. by rewrite Z.sub_diag.
  - destruct (Z.to_nat ((head x - tail x) mod 64)) eqn:E; [|done]. intros _. dlia.
Qed.
Lemma full_count x : ring_ok x → is_full x = true ↔ count x = 63%nat.
Proof. intros [_ Hh Ht]. unfold is_full, count. rewrite Z.eqb_eq, next_mod by lia. dlia. Qed.

Lemma take_contents x :
  ring_ok x → is_empty x = false →
  let y := set_ring (buf x) (head x) (next (tail x)) x in
  ∃ b, buf x !! Z.to_nat (tail x) = Some b ∧ contents x = b :: contents y ∧ ring_ok y ∧ is_full y = false.
Proof.
  intros Hr He y. pose proof Hr as [Hb Hh Ht]. unfold is_empty in He. apply Z.eqb_neq in He.
  destruct (lookup_lt_is_Some_2 (buf x) (Z.to_nat (tail x))) as [b Hl]; [lia|]. exists b.
  assert (ring_ok y) as Hy by (split; cbn; [done|lia|rewrite next_mod by lia; apply Z.mod_pos_bound; lia]).
  assert (count x = S (count y)) as Hc by (unfold count; cbn [y set_ring head tail]; rewrite next_mod by lia; dlia).
  split_and!; [done| |done|].
  - unfold contents. rewrite Hc. cbn [seq]. rewrite fmap_cons. f_equal.
    + unfold slot. rewrite Z.add_0_r, Z.mod_small by lia. by apply list_lookup_total_correct.
    + rewrite <- fmap_S_seq, <- list_fmap_compose. apply list_fmap_ext. intros ? k _. unfold slot. cbn [compose y set_ring buf tail].
      rewrite next_mod, Zplus_mod_idemp_l by lia. do 3 f_equal. lia.
  - apply not_true_iff_false. rewrite full_count by done. pose proof (count_bound x). lia.
Qed.

Lemma store_contents x b :
  ring_ok x → is_full x = false →
  let y := set_ring (<[Z.to_nat (head x) := b]> (buf x)) (next (head x)) (tail x) x in
  is_Some (buf x !! Z.to_nat (head x)) ∧ contents y = contents x ++ [b] ∧ ring_ok y ∧ is_empty y = false.
Proof.
  intros Hr Hf y. pose proof Hr as [Hb Hh Ht]. apply not_true_iff_false in Hf. rewrite full_count in Hf by done.
  pose proof (count_bound x) as Hcb.
  assert (ring_ok y) as Hy by (split; cbn; [by rewrite length_insert|rewrite next_mod by lia; apply Z.mod_pos_bound; lia|lia]).
  assert (count y = S (count x)) as Hc by (unfold count in *; cbn [y set_ring head tail]; rewrite next_mod by lia; dlia).
  assert (contents y = contents x ++ [b]) as Hco.
  { unfold contents. rewrite Hc, seq_S, fmap_app. cbn [Nat.add]. f_equal.
    - apply list_fmap_ext. intros k j Hk. apply lookup_seq in Hk as [-> Hk]. unfold slot. cbn [y set_ring buf tail Nat.add].
      rewrite list_lookup_total_insert_ne; [done|]. unfold count in Hk. dlia.
    - cbn [fmap list_fmap]. f_equal. unfold slot. cbn [y set_ring buf tail].
      replace (Z.to_nat ((tail x + Z.of_nat (count x)) mod 64)) with (Z.to_nat (head x)) by (unfold count; dlia).
      apply list_lookup_total_insert_eq. lia. }
  split_and!; [apply lookup_lt_is_Some_2; lia|done|done|].
  apply not_true_iff_false. rewrite empty_contents by done. rewrite Hco. by destruct (contents x).
Qed.

(** ** One reader, and a handler that writes

    The keyboard's use of the queue: the interrupt handler puts bytes when
    there is room, one thread at a time gets them. *)

Inductive phase := Idle | Asleep | Woken.

(** The lock, the waiting threads and the reader agree. *)
Definition agree (t : Z) (ph : phase) (s : state) : Prop :=
  match ph with
  | Idle => sleepers s = ∅ ∧ woken s = ∅ ∧ holder (q s) = NULL ∧ sema_value (q s) = 1 ∧ not_empty (q s) = NULL
  | Asleep => sleepers s = {[t := AtWait Get]} ∧ woken s = ∅ ∧ holder (q s) = t ∧ sema_value (q s) = 0 ∧ not_empty (q s) = t ∧
      is_empty (q s) = true
  | Woken => sleepers s = ∅ ∧ woken s = {[t := AtWait Get]} ∧ holder (q s) = t ∧ sema_value (q s) = 0 ∧ not_empty (q s) = NULL
  end.

Record inv (t : Z) (ph : phase) (s : state) : Prop := {
  inv_ring : ring_ok (q s); inv_fifo : got s ++ contents (q s) = put s; inv_full : not_full (q s) = NULL;
  inv_waiters : sema_waiters (q s) = []; inv_agree : agree t ph s }.

(** ** What the functions return *)

Section runs.
Implicit Types s : state.

Lemma assert_off_run s : intr_off s = true → assert_off s = Ok (tt, s).
Proof. intros Hi. unfold assert_off. rewrite stM_bind_eq. cbn [sget]. by rewrite Hi. Qed.
Lemma assert_thread_run s : in_intr s = false → assert_thread s = Ok (tt, s).
Proof. intros Hi. unfold assert_thread. rewrite stM_bind_eq. cbn [sget]. by rewrite Hi. Qed.
Lemma intq_empty_run s : intr_off s = true → intq_empty s = Ok (is_empty (q s), s).
Proof. intros Hi. unfold intq_empty. by rewrite (stM_bind_run _ _ _ _ _ (assert_off_run s Hi)). Qed.
Lemma intq_full_run s : intr_off s = true → intq_full s = Ok (is_full (q s), s).
Proof. intros Hi. unfold intq_full. by rewrite (stM_bind_run _ _ _ _ _ (assert_off_run s Hi)). Qed.

Definition waiter (o : op) (x : intq) : Z := match o with Put _ => not_empty x | Get => not_full x end.
Definition stuck (o : op) (x : intq) : bool := match o with Put _ => is_empty x | Get => is_full x end.
Definition with_log (x : intq) (g p : list Z) s : state := mk_state x (sleepers s) (woken s) (cur s) (intr_off s) (in_intr s) g p.
Definition no_waiter (o : op) (x : intq) : intq :=
  match o with Put _ => set_waiters (not_full x) NULL x | Get => set_waiters NULL (not_empty x) x end.

Lemma signal_run o s :
  intr_off s = true → stuck o (q s) = false →
  signal o s = (if waiter o (q s) =? NULL then mret tt else thread_unblock (waiter o (q s));; set_q (no_waiter o)) s.
Proof.
  intros Hi Hs. unfold signal. rewrite (stM_bind_run _ _ _ _ _ (assert_off_run s Hi)).
  destruct o; cbn [stuck] in Hs; [rewrite (stM_bind_run _ _ _ _ _ (intq_full_run s Hi))|rewrite (stM_bind_run _ _ _ _ _ (intq_empty_run s Hi))];
    rewrite Hs; reflexivity.
Qed.

Lemma take_byte_run s :
  ring_ok (q s) → is_empty (q s) = false → not_full (q s) = NULL → intr_off s = true →
  ∃ b x, take_byte s = Ok (b, with_log x (got s ++ [b]) (put s) s) ∧ x = set_ring (buf x) (head x) (tail x) (q s) ∧ contents (q s) = b :: contents x ∧ ring_ok x.
Proof.
  intros Hr He Hn Hi. destruct (take_contents (q s) Hr He) as (b & Hb & Hc & Hr' & Hf). exists b, (set_ring (buf (q s)) (head (q s)) (next (tail (q s))) (q s)).
  split_and!; [|reflexivity|exact Hc|exact Hr'].
  unfold take_byte. rewrite stM_bind_eq. cbn [sget]. rewrite stM_bind_eq, Hb. cbn [slift deref]. rewrite stM_bind_eq. cbn [set_q smod].
  rewrite stM_bind_eq. cbn [set_logs smod]. rewrite stM_bind_eq, signal_run; [|done|exact Hf]. cbn [waiter q set_ring not_full]. rewrite Hn. reflexivity.
Qed.

Lemma store_byte_run b s :
  ring_ok (q s) → is_full (q s) = false → intr_off s = true →
  ∃ x, x = set_ring (buf x) (head x) (tail x) (q s) ∧ contents x = contents (q s) ++ [b] ∧ ring_ok x ∧
    store_byte b s = (if not_empty (q s) =? NULL then mret tt else thread_unblock (not_empty (q s));; set_q (no_waiter (Put b))) (with_log x (got s) (put s ++ [b]) s).
Proof.
  intros Hr Hf Hi. destruct (store_contents (q s) b Hr Hf) as ([c Hb] & Hc & Hr' & He). 
  exists (set_ring (<[Z.to_nat (head (q s)) := b]> (buf (q s))) (next (head (q s))) (tail (q s)) (q s)).
  split_and!; [reflexivity|exact Hc|exact Hr'|].
  unfold store_byte. rewrite stM_bind_eq. cbn [sget]. rewrite stM_bind_eq, Hb. cbn [slift deref]. rewrite stM_bind_eq. cbn [set_q smod].
  rewrite stM_bind_eq. cbn [set_logs smod]. rewrite signal_run; [|done|exact He]. reflexivity.
Qed.
End runs.

Section reader.
Context (t : Z) (Ht : t ≠ NULL).

(** A reader finds the queue empty and the lock free, and goes to sleep. *)
Lemma get_sleeps s :
  inv t Idle s → cur s = t → intr_off s = true → in_intr s = false → is_empty (q s) = true →
  ∃ s', run_op Get s = Ok (tt, s') ∧ inv t Asleep s' ∧ put s' = put s ∧ got s' = got s.
Proof.
  intros [Hr Hfi Hnf Hw (Hsl & Hwk & Hh & Hv & Hne)] Hc Hi Hii He. cbn [run_op]. unfold intq_getc.
  rewrite stM_bind_eq, (stM_bind_run _ _ _ _ _ (assert_off_run s Hi)), (stM_bind_run _ _ _ _ _ (intq_empty_run s Hi)), He.
  rewrite (stM_bind_run _ _ _ _ _ (assert_thread_run s Hii)). rewrite stM_bind_eq. unfold lock_acquire.
  rewrite (stM_bind_run _ _ _ _ _ (assert_thread_run s Hii)). rewrite stM_bind_eq. cbn [sget]. rewrite Hh, Hc, stM_bind_eq.
  rewrite (proj2 (Z.eqb_neq NULL t)) by done. cbn [negb sassert slift assert]. unfold acquired. rewrite stM_bind_eq. cbn [sget]. rewrite Hv. cbn [Z.eqb].
  rewrite stM_bind_eq. cbn [set_q smod]. rewrite Hc. set (s1 := mk_state _ _ _ _ _ _ _ _). unfold wait.
  rewrite (stM_bind_run _ _ _ _ _ (assert_thread_run s1 Hii)), (stM_bind_run _ _ _ _ _ (assert_off_run s1 Hi)), (stM_bind_run _ _ _ _ _ (intq_empty_run s1 Hi)).
  change (is_empty (q s1)) with (is_empty (q s)). rewrite He, stM_bind_eq. cbn [sassert slift assert]. rewrite stM_bind_eq. cbn [sget].
  rewrite stM_bind_eq. cbn [set_q smod]. set (s2 := mk_state _ _ _ _ _ _ _ _). unfold thread_block.
  rewrite (stM_bind_run _ _ _ _ _ (assert_thread_run s2 Hii)), (stM_bind_run _ _ _ _ _ (assert_off_run s2 Hi)). cbn [smod mret stM_ret].
  eexists. split; [reflexivity|]. split; [|done]. split; [by destruct Hr|exact Hfi|exact Hnf|exact Hw|].
  cbn. rewrite Hsl, Hwk, Hv. split_and!; try done.
Qed.

(** A reader that starts, or starts again with the lock free. *)
Lemma get_run s :
  inv t Idle s → cur s = t → intr_off s = true → in_intr s = false → ∃ s' ph, run_op Get s = Ok (tt, s') ∧ inv t ph s' ∧ put s' = put s.
Proof.
  intros Hs Hc Hi Hii. destruct (is_empty (q s)) eqn:He.
  { destruct (get_sleeps s Hs Hc Hi Hii He) as (s' & ? & ? & ? & _). by exists s', Asleep. }
  destruct Hs as [Hr Hfi Hnf Hw (Hsl & Hwk & Hh & Hv & Hne)]. cbn [run_op]. unfold intq_getc.
  rewrite stM_bind_eq, (stM_bind_run _ _ _ _ _ (assert_off_run s Hi)), (stM_bind_run _ _ _ _ _ (intq_empty_run s Hi)), He.
  rewrite stM_bind_eq. destruct (take_byte_run s Hr He Hnf Hi) as (b & x & -> & Hx & Hco & Hrx). cbn [mret stM_ret].
  eexists _, Idle. split; [reflexivity|]. split; [|done]. split; cbn [with_log q got put agree].
  - done.
  - by rewrite <- Hfi, Hco, <- app_assoc.
  - by rewrite Hx.
  - by rewrite Hx.
  - rewrite Hx. by split_and!.
Qed.

(** Storing a byte wakes a reader that sleeps. *)
Lemma putc_run ph b s :
  inv t ph s → is_full (q s) = false → intr_off s = true →
  ∃ s' ph', intq_putc b s = Ok (true, s') ∧ inv t ph' s' ∧ put s' = put s ++ [b] ∧ intr_off s' = true ∧ in_intr s' = in_intr s.
Proof.
  intros [Hr Hfi Hnf Hw Hag] Hf Hi. unfold intq_putc.
  rewrite (stM_bind_run _ _ _ _ _ (assert_off_run s Hi)), (stM_bind_run _ _ _ _ _ (intq_full_run s Hi)), Hf. cbn iota.
  destruct (store_byte_run b s Hr Hf Hi) as (x & Hx & Hco & Hrx & Hst). rewrite stM_bind_eq, Hst.
  assert (got s ++ contents x = put s ++ [b]) as Hfifo by (by rewrite Hco, app_assoc, Hfi).
  destruct ph; cbn [agree] in Hag.
  - destruct Hag as (Hsl & Hwk & Hh & Hv & Hne). rewrite Hne. eexists _, Idle. split_and!; [reflexivity| |done..].
    split; cbn [with_log q got put]; [done|done|by rewrite Hx..|]. cbn. rewrite Hx. by split_and!.
  - destruct Hag as (Hsl & Hwk & Hh & Hv & Hne & _). rewrite Hne, (proj2 (Z.eqb_neq t NULL)) by done.
    rewrite stM_bind_eq. unfold thread_unblock. cbn [with_log sleepers]. rewrite Hsl, lookup_singleton_eq.
    eexists _, Woken. split_and!; [reflexivity| |done..].
    split; cbn; [by destruct Hrx|done|by rewrite Hx..|]. rewrite Hwk, delete_singleton_eq, insert_empty, Hx. by split_and!.
  - destruct Hag as (Hsl & Hwk & Hh & Hv & Hne). rewrite Hne. eexists _, Woken. split_and!; [reflexivity| |done..].
    split; cbn [with_log q got put]; [done|done|by rewrite Hx..|]. cbn. rewrite Hx. by split_and!.
Qed.

Lemma enter_inv ph s c b : inv t ph s → inv t ph (mk_state (q s) (sleepers s) (woken s) c true b (got s) (put s)).
Proof. intros [Hr Hfi Hnf Hw Hag]. split; [exact Hr|exact Hfi|exact Hnf|exact Hw|]. by destruct ph. Qed.

Lemma put_run ph b s : inv t ph s → ∃ s' ph', step (Handler (Put b)) s = Ok (tt, s') ∧ inv t ph' s'.
Proof.
  intros Hs. cbn [step]. rewrite stM_bind_eq. cbn [sget]. destruct (is_full (q s)) eqn:Hf; [by exists s, ph|].
  rewrite stM_bind_eq. cbn [enter smod run_op].
  destruct (putc_run ph b (mk_state (q s) (sleepers s) (woken s) (cur s) true true (got s) (put s))) as (s' & ph' & Hp & Hs' & _);
    [by apply enter_inv|done|done|].
  exists s', ph'. by rewrite (stM_bind_run _ _ _ _ _ Hp).
Qed.

(** A reader that was woken gives the lock back and starts again. *)
Lemma resume_run ph s : inv t ph s → ∃ s' ph', step (Resume t) s = Ok (tt, s') ∧ inv t ph' s' ∧ put s' = put s.
Proof.
  intros Hs. pose proof Hs as [Hr Hfi Hnf Hw Hag]. cbn [step]. rewrite stM_bind_eq. cbn [sget].
  destruct ph; cbn [agree] in Hag; destruct Hag as (Hsl & Hwk & Hh & Hv & Hne); rewrite Hwk; [by exists s, Idle|by exists s, Asleep|].
  rewrite lookup_singleton_eq. rewrite stM_bind_eq. cbn [enter smod]. rewrite stM_bind_eq. cbn [smod]. rewrite stM_bind_eq. unfold lock_release.
  rewrite stM_bind_eq. cbn [sget q cur]. rewrite Hh, Z.eqb_refl, stM_bind_eq. cbn [sassert slift assert]. rewrite stM_bind_eq. cbn [set_q smod].
  rewrite stM_bind_eq, Hw. cbn [mret stM_ret set_q smod q sleepers woken cur intr_off in_intr got put].
  match goal with |- context [run_op Get ?s1] => destruct (get_run s1) as (s' & ph' & H1 & H2 & H3) end; [|done..|by exists s', ph'].
  split; cbn; [by destruct Hr|done|done|done|]. rewrite Hwk, delete_singleton_eq, Hv. by split_and!.
Qed.

Lemma call_run ph s : inv t ph s → ∃ s' ph', step (Call t Get) s = Ok (tt, s') ∧ inv t ph' s' ∧ put s' = put s.
Proof.
  intros Hs. pose proof Hs as [Hr Hfi Hnf Hw Hag]. cbn [step]. rewrite stM_bind_eq. cbn [sget]. rewrite bool_decide_eq_false_2 by done. cbn [orb].
  destruct ph; cbn [agree] in Hag.
  - destruct Hag as (Hsl & Hwk & Hh & Hv & Hne). rewrite Hsl, Hwk, lookup_empty. rewrite !bool_decide_eq_false_2 by (by intros []). cbn [orb].
    rewrite stM_bind_eq. cbn [enter smod].
    match goal with |- context [run_op Get ?s1] => destruct (get_run s1) as (s' & ph' & H1 & H2 & H3) end; [|done..|by exists s', ph'].
    split; cbn; [by destruct Hr|done|done|done|]. by split_and!.
  - destruct Hag as (-> & _). rewrite lookup_singleton_eq, bool_decide_eq_true_2 by (by eexists). cbn [orb]. by exists s, Asleep.
  - destruct Hag as (Hsl & -> & _). rewrite lookup_singleton_eq, (bool_decide_eq_true_2 (is_Some (Some _))) by (by eexists). rewrite orb_true_r. by exists s, Woken.
Qed.

Lemma init_inv : inv t Idle init.
Proof. split; cbn; done. Qed.

(** The events of one reader and the keyboard's handler. *)
Definition reader_event (e : event) : Prop := e = Call t Get ∨ e = Resume t ∨ ∃ b, e = Handler (Put b).

Lemma reader_step e ph s : reader_event e → inv t ph s → ∃ s' ph', step e s = Ok (tt, s') ∧ inv t ph' s'.
Proof. intros [->|[->|[b ->]]] Hs; [destruct (call_run ph s Hs) as (s' & ph' & ? & ? & _)|destruct (resume_run ph s Hs) as (s' & ph' & ? & ? & _)|by eapply put_run]; by exists s', ph'. Qed.

Lemma reader_run es ph s : Forall reader_event es → inv t ph s → ∃ s' ph', run es s = Ok (tt, s') ∧ inv t ph' s'.
Proof.
  intros Hes. revert ph s. induction Hes as [|e es He _ IH]; intros ph s Hs; cbn [run]; [by exists s, ph|].
  destruct (reader_step e ph s He Hs) as (s1 & ph1 & H1 & Hs1). rewrite (stM_bind_run _ _ _ _ _ H1). by eapply IH.
Qed.
End reader.

(** With one reading thread, in every sequence of its calls, wake-ups and
    interrupts that put bytes while there is room, no assertion of the queue
    fails; the bytes the reader got and those still in the ring are exactly the
    bytes put, in order; at most 63 are held; the reader sleeps only while the
    ring is empty, and whenever the ring is not empty it has been woken or is
    not waiting. *)
Lemma intq_single_reader t es :
  t ≠ NULL → Forall (reader_event t) es →
  ∃ s, run es init = Ok (tt, s) ∧ got s ++ contents (q s) = put s ∧ (length (contents (q s)) ≤ 63)%nat ∧
    (is_Some (sleepers s !! t) → contents (q s) = [] ∧ not_empty (q s) = t).
Proof.
  intros Ht Hes. destruct (reader_run t Ht es Idle init Hes (init_inv t)) as (s & ph & Hr & [Hring Hfi _ _ Hag]).
  exists s. split_and!; [done..| |].
  - unfold contents. rewrite length_fmap, length_seq. apply count_bound.
  - destruct ph; cbn [agree] in Hag; [destruct Hag as (-> & _); by intros []| |destruct Hag as (-> & _); by intros []].
    destruct Hag as (_ & _ & _ & _ & Hne & He). intros _. split; [by apply empty_contents|done].
Qed.

(** ** Two readers *)

Section two_readers.
Context (t1 t2 : Z) (H1 : t1 ≠ NULL) (H2 : t2 ≠ NULL) (H12 : t1 ≠ t2).

(** The first reader waits for a byte or was woken, the second waits for the
    lock, and [cs] are the bytes in the ring. *)
Record contended (up : bool) (cs : list Z) (s : state) : Prop := {
  cn_ring : ring_ok (q s); cn_contents : contents (q s) = cs;
  cn_sleepers : sleepers s = (if up then {[t2 := AtLock Get]} else {[t1 := AtWait Get; t2 := AtLock Get]});
  cn_woken : woken s = (if up then {[t1 := AtWait Get]} else ∅);
  cn_lock : holder (q s) = t1 ∧ sema_value (q s) = 0 ∧ sema_waiters (q s) = [t2];
  cn_waiters : not_empty (q s) = (if up then NULL else t1) ∧ not_full (q s) = NULL }.

Lemma second_blocks s : inv t1 Asleep s → ∃ s', step (Call t2 Get) s = Ok (tt, s') ∧ contended false [] s' ∧ got s' = got s.
Proof.
  intros [Hr Hfi Hnf Hw (Hsl & Hwk & Hh & Hv & Hne & He)]. cbn [step]. rewrite stM_bind_eq. cbn [sget].
  rewrite Hsl, Hwk, lookup_empty, lookup_singleton_ne by done. rewrite !bool_decide_eq_false_2 by (done || by intros []). cbn [orb].
  rewrite stM_bind_eq. cbn [enter smod]. rewrite Hsl, Hwk. set (s1 := mk_state _ _ _ t2 true false _ _). cbn [run_op]. unfold intq_getc.
  rewrite stM_bind_eq, (stM_bind_run _ _ _ _ _ (assert_off_run s1 eq_refl)), (stM_bind_run _ _ _ _ _ (intq_empty_run s1 eq_refl)).
  change (is_empty (q s1)) with (is_empty (q s)). rewrite He. rewrite (stM_bind_run _ _ _ _ _ (assert_thread_run s1 eq_refl)).
  rewrite stM_bind_eq. unfold lock_acquire. rewrite (stM_bind_run _ _ _ _ _ (assert_thread_run s1 eq_refl)). rewrite stM_bind_eq. cbn [sget].
  change (holder (q s1)) with (holder (q s)). rewrite Hh, stM_bind_eq. change (cur s1) with t2. rewrite (proj2 (Z.eqb_neq t1 t2)) by done.
  cbn [negb sassert slift assert]. unfold acquired. rewrite stM_bind_eq. cbn [sget]. change (sema_value (q s1)) with (sema_value (q s)). rewrite Hv.
  change (0 =? 0) with true. cbn iota. rewrite stM_bind_eq. cbn [set_q smod]. set (s2 := mk_state _ _ _ _ _ _ _ _). unfold thread_block.
  rewrite (stM_bind_run _ _ _ _ _ (assert_thread_run s2 eq_refl)), (stM_bind_run _ _ _ _ _ (assert_off_run s2 eq_refl)). cbn [smod mret stM_ret].
  eexists. split; [reflexivity|]. split; [|done]. split; cbn; try done.
  - by destruct Hr.
  - change (contents (q s) = []). by apply empty_contents.
  - apply (insert_insert_ne ∅ t2 t1). by apply not_eq_sym.
  - by rewrite Hw.
Qed.

Lemma put_contended up cs b s :
  contended up cs s → (length cs < 63)%nat → ∃ s', step (Handler (Put b)) s = Ok (tt, s') ∧ contended true (cs ++ [b]) s' ∧ got s' = got s.
Proof.
  intros [Hr Hc Hsl Hwk (Hh & Hv & Hw) (Hne & Hnf)] Hlen. cbn [step]. rewrite stM_bind_eq. cbn [sget].
  assert (is_full (q s) = false) as Hf.
  { apply not_true_iff_false. rewrite full_count by done. apply (f_equal length) in Hc. unfold contents in Hc. rewrite length_fmap, length_seq in Hc. lia. }
  rewrite Hf, stM_bind_eq. cbn [enter smod run_op]. set (s1 := mk_state _ _ _ _ true true _ _). unfold intq_putc.
  rewrite stM_bind_eq, (stM_bind_run _ _ _ _ _ (assert_off_run s1 eq_refl)), (stM_bind_run _ _ _ _ _ (intq_full_run s1 eq_refl)).
  change (is_full (q s1)) with (is_full (q s)). rewrite Hf. destruct (store_byte_run b s1 Hr Hf eq_refl) as (x & Hx & Hco & Hrx & Hst).
  rewrite stM_bind_eq, Hst. change (not_empty (q s1)) with (not_empty (q s)). rewrite Hne.
  change (contents (q s1)) with (contents (q s)) in Hco. rewrite Hc in Hco. destruct up.
  - eexists. split; [reflexivity|]. split; [|done]. split; cbn; try done; rewrite Hx; by split_and!.
  - rewrite (proj2 (Z.eqb_neq t1 NULL)) by done. rewrite stM_bind_eq. unfold thread_unblock. cbn [with_log s1 sleepers woken]. rewrite Hsl, lookup_insert_eq.
    eexists. split; [reflexivity|]. split; [|done]. split; cbn; try done.
    + by destruct Hrx.
    + rewrite delete_insert_id by (by rewrite lookup_singleton_ne). done.
    + by rewrite Hwk.
    + rewrite Hx. by split_and!.
    + rewrite Hx. by split_and!.
Qed.

Lemma puts_contended bs up cs s :
  contended up cs s → (length cs + length bs ≤ 63)%nat → bs ≠ [] →
  ∃ s', run (map (λ b, Handler (Put b)) bs) s = Ok (tt, s') ∧ contended true (cs ++ bs) s' ∧ got s' = got s.
Proof.
  revert up cs s. induction bs as [|b bs IH]; intros up cs s Hs Hlen Hne; [done|]. cbn [map run]. simpl in Hlen.
  destruct (put_contended up cs b s Hs) as (s1 & E1 & Hs1 & Hg1); [lia|]. rewrite (stM_bind_run _ _ _ _ _ E1).
  destruct bs as [|b2 bs]; [by exists s1|]. destruct (IH true (cs ++ [b]) s1 Hs1) as (s2 & E2 & Hs2 & Hg2); [rewrite length_app; simpl in *; lia|done|].
  exists s2. split; [exact E2|]. rewrite <- app_assoc in Hs2. split; [exact Hs2|congruence].
Qed.

(** The first reader gives the lock to the second and takes a byte. *)
Lemma first_resumes b cs s :
  contended true (b :: cs) s →
  ∃ s', step (Resume t1) s = Ok (tt, s') ∧ got s' = got s ++ [b] ∧ contents (q s') = cs ∧ ring_ok (q s') ∧
    woken s' !! t2 = Some (AtLock Get) ∧ sema_value (q s') = 1.
Proof.
  intros [Hr Hc Hsl Hwk (Hh & Hv & Hw) (Hne & Hnf)]. cbn [step]. rewrite stM_bind_eq. cbn [sget]. rewrite Hwk, lookup_singleton_eq.
  rewrite stM_bind_eq. cbn [enter smod]. rewrite stM_bind_eq. cbn [smod]. rewrite stM_bind_eq. unfold lock_release.
  rewrite stM_bind_eq. cbn [sget q cur]. rewrite Hh, Z.eqb_refl, stM_bind_eq. cbn [sassert slift assert]. rewrite stM_bind_eq. cbn [set_q smod].
  rewrite stM_bind_eq, Hw. cbn [set_q smod q sleepers woken cur intr_off in_intr got put]. rewrite stM_bind_eq.
  cbn [set_q smod q sleepers woken cur intr_off in_intr got put]. unfold thread_unblock. cbn [sleepers woken]. rewrite Hsl, lookup_singleton_eq.
  cbn [set_q smod q sleepers woken cur intr_off in_intr got put]. set (s1 := mk_state _ _ _ _ _ _ _ _). cbn [run_op]. unfold intq_getc.
  rewrite stM_bind_eq, (stM_bind_run _ _ _ _ _ (assert_off_run s1 eq_refl)), (stM_bind_run _ _ _ _ _ (intq_empty_run s1 eq_refl)).
  assert (is_empty (q s1) = false) as He by (apply not_true_iff_false; change (is_empty (q s1)) with (is_empty (q s)); rewrite empty_contents by done; by rewrite Hc).
  rewrite He, stM_bind_eq. assert (ring_ok (q s1)) as Hr1 by (by destruct Hr).
  destruct (take_byte_run s1 Hr1 He Hnf eq_refl) as (b' & x & -> & Hx & Hco & Hrx). change (contents (q s1)) with (contents (q s)) in Hco.
  rewrite Hc in Hco. injection Hco as <- Hco. eexists. split; [reflexivity|]. cbn. split_and!; [done|by symmetry|done| |].
  - by rewrite lookup_insert_eq.
  - rewrite Hx. cbn. by rewrite Hv.
Qed.

Lemma second_asserts s :
  ring_ok (q s) → contents (q s) ≠ [] → woken s !! t2 = Some (AtLock Get) → sema_value (q s) = 1 → step (Resume t2) s = Err EAssert.
Proof.
  intros Hr Hc Hwk Hv. cbn [step]. rewrite stM_bind_eq. cbn [sget]. rewrite Hwk. rewrite stM_bind_eq. cbn [enter smod]. rewrite stM_bind_eq. cbn [smod].
  unfold acquired. rewrite stM_bind_eq. cbn [sget q]. rewrite Hv. change (1 =? 0) with false. cbn iota. rewrite stM_bind_eq. cbn [set_q smod q sleepers woken cur intr_off in_intr got put].
  set (s1 := mk_state _ _ _ _ _ _ _ _). unfold wait.
  rewrite (stM_bind_run _ _ _ _ _ (assert_thread_run s1 eq_refl)), (stM_bind_run _ _ _ _ _ (assert_off_run s1 eq_refl)), (stM_bind_run _ _ _ _ _ (intq_empty_run s1 eq_refl)).
  assert (is_empty (q s1) = false) as -> by (apply not_true_iff_false; change (is_empty (q s1)) with (is_empty (q s)); by rewrite empty_contents by done).
  done.
Qed.

Lemma run_app es1 es2 s s' : run es1 s = Ok (tt, s') → run (es1 ++ es2) s = run es2 s'.
Proof.
  revert s. induction es1 as [|e es1 IH]; intros s; cbn [run app]; [by intros [= <-]|].
  intros ([] & s1 & E1 & E2)%stM_bind_inv. rewrite (stM_bind_run _ _ _ _ _ E1). by apply IH.
Qed.
End two_readers.

(** C37: Two readers can panic the kernel, wherever the ring stands: of two
    threads that read an empty queue the first waits for a byte and the second
    for the queue's lock; two to 63 bytes arrive; the first reader releases the lock and takes one byte; the second
    gets the lock and asserts in [wait] that the queue is empty, which it is
    not. *)
Theorem intq_two_readers t1 t2 s b bs :
  t1 ≠ NULL → t2 ≠ NULL → t1 ≠ t2 → inv t1 Idle s → is_empty (q s) = true → bs ≠ [] → (length bs ≤ 62)%nat →
  ∃ s', run ([Call t1 Get; Call t2 Get] ++ map (λ b, Handler (Put b)) (b :: bs) ++ [Resume t1]) s = Ok (tt, s') ∧
    got s' = got s ++ [b] ∧ contents (q s') = bs ∧ step (Resume t2) s' = Err EAssert.
Proof.
  intros H1 H2 H12 Hs He Hbs Hlen. pose proof Hs as [Hr _ _ _ (Hsl & Hwk & _)].
  assert (∃ s1, step (Call t1 Get) s = Ok (tt, s1) ∧ inv t1 Asleep s1 ∧ got s1 = got s) as (s1 & E1 & Hs1 & Hg1).
  { cbn [step]. rewrite stM_bind_eq. cbn [sget]. rewrite Hsl, Hwk, lookup_empty, !bool_decide_eq_false_2 by (done || by intros []). cbn [orb].
    rewrite stM_bind_eq. cbn [enter smod].
    match goal with |- context [run_op Get ?x] => destruct (get_sleeps t1 H1 x) as (s' & E & Hi & _ & Hg) end; [by apply enter_inv|done..|by exists s']. }
  destruct (second_blocks t1 t2 H2 H12 s1 Hs1) as (s2 & E2 & Hs2 & Hg2).
  destruct (puts_contended t1 t2 H1 H2 H12 (b :: bs) false [] s2 Hs2) as (s3 & E3 & Hs3 & Hg3); [simpl; lia|done|].
  destruct (first_resumes t1 t2 b bs s3 Hs3) as (s4 & E4 & Hg4 & Hc4 & Hr4 & Hw4 & Hv4).
  exists s4. split_and!; [|by rewrite Hg4, Hg3, Hg2, Hg1|done|by apply second_asserts; rewrite ?Hc4].
  cbn [app run]. rewrite (stM_bind_run _ _ _ _ _ E1), (stM_bind_run _ _ _ _ _ E2), (run_app _ _ _ _ E3). cbn [run].
  by rewrite (stM_bind_run _ _ _ _ _ E4).
Qed.

(** The bytes [a] and [b]. *)
Lemma intq_two_readers_witness :
  ∃ s', run [Call 4096 Get; Call 8192 Get; Handler (Put 97); Handler (Put 98); Resume 4096] init = Ok (tt, s') ∧ got s' = [97] ∧
    step (Resume 8192) s' = Err EAssert.
Proof.
  destruct (intq_two_readers 4096 8192 init 97 [98]) as (s' & Hr & Hg & _ & Hx).
  - discriminate.
  - discriminate.
  - discriminate.
  - exact (init_inv 4096).
  - reflexivity.
  - discriminate.
  - cbn. lia.
  - exists s'. split; [exact Hr|]. split; [exact Hg|exact Hx].
Defined.
