(* ===== verification/Serial.v ===== *)
(** * devices/serial.c: the serial port

    The port is a parameter [U] with its registers; the transmit queue and the
    input buffer are interrupt queues.  [polls] bounds how often [putc_poll]
    asks whether the port is ready.  The registration of the interrupt handler
    is that of Descriptors.v. *)

From S2P Require Import Prelude Intq.

Module Serial.

Class Uart (U : Type) := { outb : Z → Z → U → U; inb : Z → U → Z * U }.

Definition IO_BASE : Z := 1016.
Definition RBR_REG : Z := IO_BASE + 0.
Definition THR_REG : Z := IO_BASE + 0.
Definition IER_REG : Z := IO_BASE + 1.
Definition LS_REG : Z := IO_BASE + 0.
Definition MS_REG : Z := IO_BASE + 1.
Definition IIR_REG : Z := IO_BASE + 2.
Definition FCR_REG : Z := IO_BASE + 2.
Definition LCR_REG : Z := IO_BASE + 3.
Definition MCR_REG : Z := IO_BASE + 4.
Definition LSR_REG : Z := IO_BASE + 5.
Definition IER_RECV : Z := 1.
Definition IER_XMIT : Z := 2.
Definition LCR_N81 : Z := 3.
Definition LCR_DLAB : Z := 128.
Definition MCR_OUT2 : Z := 8.
Definition LSR_DR : Z := 1.
Definition LSR_THRE : Z := 32.

Inductive mode := UNINIT | POLL | QUEUE.
#[export] Instance mode_eq_dec : EqDecision mode.
Proof. solve_decision. Defined.

Section serial.
Context {U : Type} `{Uart U} (polls : nat).

Record serial := mk_serial { uart : U; smode : mode; txq : Intq.state; inq : Intq.state; level_on : bool; handling : bool }.
Abbreviation M := (stM serial).

Definition out (p v : Z) : M unit := smod (λ s, mk_serial (outb p v (uart s)) (smode s) (txq s) (inq s) (level_on s) (handling s)).
Definition in_ (p : Z) : M Z := λ s,
  Ok ((inb p (uart s)).1, mk_serial (inb p (uart s)).2 (smode s) (txq s) (inq s) (level_on s) (handling s)).
Definition set_mode (m : mode) : M unit := smod (λ s, mk_serial (uart s) m (txq s) (inq s) (level_on s) (handling s)).
Definition set_level (on : bool) : M unit := smod (λ s, mk_serial (uart s) (smode s) (txq s) (inq s) on (handling s)).
Definition intr_disable : M bool := s ← sget; set_level false;; mret (level_on s).

(** A queue sees the processor's interrupt level. *)
Definition seen (s : serial) (x : Intq.state) : Intq.state :=
  Intq.mk_state (Intq.q x) (Intq.sleepers x) (Intq.woken x) (Intq.cur x) (negb (level_on s)) (handling s) (Intq.got x) (Intq.put x).
Definition on_txq {A} (m : stM Intq.state A) : M A := λ s,
  '(a, x) ← m (seen s (txq s)); Ok (a, mk_serial (uart s) (smode s) x (inq s) (level_on s) (handling s)).
Definition on_inq {A} (m : stM Intq.state A) : M A := λ s,
  '(a, x) ← m (seen s (inq s)); Ok (a, mk_serial (uart s) (smode s) (txq s) x (level_on s) (handling s)).

Definition assert_off : M unit := s ← sget; sassert (negb (level_on s)).

Definition set_serial (bps : Z) : M unit :=
  let base_rate := 1843200 / 16 in
  let divisor := u16 (base_rate / bps) in
  sassert ((300 <=? bps) && (bps <=? 115200));;
  out LCR_REG (Z.lor LCR_N81 LCR_DLAB);;
  out LS_REG (Z.land divisor 255);;
  out MS_REG (Z.shiftr divisor 8);;
  out LCR_REG LCR_N81.

Definition init_poll : M unit :=
  s ← sget; sassert (bool_decide (smode s = UNINIT));;
  out IER_REG 0;;
  out FCR_REG 0;;
  set_serial 9600;;
  out MCR_REG MCR_OUT2;;
  smod (λ s, mk_serial (uart s) (smode s) Intq.init (inq s) (level_on s) (handling s));;
  set_mode POLL.

Definition write_ier : M unit :=
  assert_off;;
  e ← on_txq Intq.intq_empty;
  let ier := if (e : bool) then 0 else IER_XMIT in
  f ← on_inq Intq.input_full;
  out IER_REG (if (f : bool) then ier else Z.lor ier IER_RECV).

Fixpoint poll_loop (n : nat) (byte : Z) : M unit :=
  match n with
  | O => serr EFuel
  | S n => v ← in_ LSR_REG; if Z.land v LSR_THRE =? 0 then poll_loop n byte else out THR_REG byte
  end.
Definition putc_poll (byte : Z) : M unit := assert_off;; poll_loop polls byte.

Definition serial_init_queue : M unit :=
  s ← sget;
  (if bool_decide (smode s = UNINIT) then init_poll else mret tt);;
  s ← sget; sassert (bool_decide (smode s = POLL));;
  set_mode QUEUE;;
  old_level ← intr_disable;
  write_ier;;
  set_level old_level.

(** [putc_poll (intq_getc (&txq))]; the queue is not empty, so that nothing
    waits. *)
Definition poll_queued : M unit :=
  b ← on_txq Intq.intq_getc;
  match b with Some b => putc_poll b | None => serr EFuel end.

(** [false] when the thread has gone to sleep in [intq_putc]. *)
Definition serial_putc (byte : Z) : M bool :=
  old_level ← intr_disable;
  s ← sget;
  done ← (if negb (bool_decide (smode s = QUEUE)) then
      (if bool_decide (smode s = UNINIT) then init_poll else mret tt);; putc_poll byte;; mret true
    else
      f ← (if negb old_level then on_txq Intq.intq_full else mret false);
      (if (f : bool) then poll_queued else mret tt);;
      b ← on_txq (Intq.intq_putc byte);
      (if (b : bool) then write_ier else mret tt);; mret b);
  (if (done : bool) then set_level old_level else mret tt);;
  mret done.

(** The queue holds at most 63 bytes. *)
Fixpoint flush_loop (n : nat) : M unit :=
  match n with
  | O => serr EFuel
  | S n => e ← on_txq Intq.intq_empty; if (e : bool) then mret tt else poll_queued;; flush_loop n
  end.
Definition serial_flush : M unit := old_level ← intr_disable; flush_loop 64;; set_level old_level.

Definition serial_notify : M unit := assert_off;; s ← sget; if bool_decide (smode s = QUEUE) then write_ier else mret tt.

(** Both queues have 63 places. *)
Fixpoint recv_loop (n : nat) : M unit :=
  match n with
  | O => serr EFuel
  | S n =>
      f ← on_inq Intq.input_full;
      if (f : bool) then mret tt
      else
        v ← in_ LSR_REG;
        if Z.land v LSR_DR =? 0 then mret tt
        else b ← in_ RBR_REG; _ ← on_inq (Intq.input_putc b); serial_notify;; recv_loop n
  end.
Fixpoint xmit_loop (n : nat) : M unit :=
  match n with
  | O => serr EFuel
  | S n =>
      e ← on_txq Intq.intq_empty;
      if (e : bool) then mret tt
      else
        v ← in_ LSR_REG;
        if Z.land v LSR_THRE =? 0 then mret tt
        else b ← on_txq Intq.intq_getc; match b with Some b => out THR_REG b;; xmit_loop n | None => serr EFuel end
  end.
Definition serial_interrupt : M unit :=
  _ ← in_ IIR_REG; recv_loop 64;; xmit_loop 64;; write_ier.

(** The processor takes an interrupt: off, in a handler, and back. *)
Definition take_interrupt : M unit :=
  s ← sget;
  smod (λ s, mk_serial (uart s) (smode s) (txq s) (inq s) false true);;
  serial_interrupt;;
  smod (λ s', mk_serial (uart s') (smode s') (txq s') (inq s') (level_on s) (handling s)).
End serial.

End Serial.
