(* ===== verification/SerialSpec.v ===== *)
(** * The serial port sends what it is given

    Bytes leave the port in the order in which they were written, through the
    queue, by polling or by interrupts, and the transmit interrupt is enabled
    whenever bytes wait. *)

From S2P Require Import Prelude Intq IntqSpec Serial.
Import Serial.

(** After [k] more reads of the line status the transmitter is ready. *)
Fixpoint ready_after {U} `{Uart U} (k : nat) (u : U) : Prop :=
  match k with O => Z.land (inb LSR_REG u).1 LSR_THRE ≠ 0 | S k => ready_after k (inb LSR_REG u).2 end.

(** A port with the divisor latch closed: what it has sent, whether its holding
    register is empty and its interrupt enable register.  The line status says
    when the holding register is empty; only then does a byte written to it go
    out, and nothing is known of the port after a byte was written to a full
    one. *)
Class UartLaws (U : Type) `{Uart U} (polls : nat) := {
  normal : U → Prop; sent : U → list Z; thre : U → Prop; ier : U → Z;
  lsr_law u : normal u → Z.land (inb LSR_REG u).1 LSR_THRE ≠ 0 → thre (inb LSR_REG u).2;
  thr_law u v : normal u → thre u → normal (outb THR_REG v u) ∧ sent (outb THR_REG v u) = sent u ++ [v] ∧ ier (outb THR_REG v u) = ier u;
  ier_law u v : normal u → normal (outb IER_REG v u) ∧ sent (outb IER_REG v u) = sent u ∧ ier (outb IER_REG v u) = v;
  in_law u p : normal u → normal (inb p u).2 ∧ sent (inb p u).2 = sent u ∧ ier (inb p u).2 = ier u;
  ready_law u : normal u → ∃ k, (k < polls)%nat ∧ ready_after k u;
}.

Section spec.
Context {U : Type} {polls : nat} `{UartLaws U polls} (t : Z) (Ht : t ≠ Intq.NULL).
Abbreviation serial := (serial (U:=U)).
Implicit Types s : serial.

(** In queue mode, with interrupts [lv] and in a handler or not [hd]: the bytes
    [B] are sent or in the queue; [t] is the thread that reads the input. *)
Record good (lv hd : bool) (B : list Z) (s : serial) : Prop := {
  g_mode : smode s = QUEUE; g_level : level_on s = lv; g_hand : handling s = hd; g_normal : normal (uart s);
  g_ring : ring_ok (Intq.q (txq s)); g_nf : Intq.not_full (Intq.q (txq s)) = Intq.NULL; g_ne : Intq.not_empty (Intq.q (txq s)) = Intq.NULL;
  g_in : ∃ ph, inv t ph (inq s);
  g_bytes : sent (uart s) ++ contents (Intq.q (txq s)) = B }.

(** The transmit interrupt is enabled when bytes wait. *)
Definition armed s : Prop := contents (Intq.q (txq s)) ≠ [] → Z.land (ier (uart s)) IER_XMIT ≠ 0.

Definition with_uart (u : U) s : serial := mk_serial u (smode s) (txq s) (inq s) (level_on s) (handling s).

Lemma good_uart lv hd B s u : good lv hd B s → normal u → sent u = sent (uart s) → good lv hd B (with_uart u s).
Proof. intros [] ? Hs. split; cbn; try done. by rewrite Hs. Qed.

Lemma in_run p s lv hd B : good lv hd B s → in_ p s = Ok ((inb p (uart s)).1, with_uart (inb p (uart s)).2 s) ∧ good lv hd B (with_uart (inb p (uart s)).2 s).
Proof. intros Hg. split; [done|]. destruct (in_law (uart s) p) as (Hn & Hs & _); [apply Hg|]. by apply good_uart. Qed.

Lemma empty_run s hd B : good false hd B s →
  ∃ s', on_txq Intq.intq_empty s = Ok (Intq.is_empty (Intq.q (txq s)), s') ∧ good false hd B s' ∧ uart s' = uart s ∧ Intq.q (txq s') = Intq.q (txq s) ∧ inq s' = inq s.
Proof.
  intros Hg. pose proof Hg as [? Hl Hh ? Hr ? ? ? ?]. eexists. unfold on_txq. rewrite intq_empty_run by (cbn; by rewrite Hl). by split_and!.
Qed.

Lemma full_run s hd B : good false hd B s →
  ∃ s', on_txq Intq.intq_full s = Ok (Intq.is_full (Intq.q (txq s)), s') ∧ good false hd B s' ∧ uart s' = uart s ∧ Intq.q (txq s') = Intq.q (txq s).
Proof.
  intros Hg. pose proof Hg as [? Hl Hh ? Hr ? ? ? ?]. eexists. unfold on_txq. rewrite intq_full_run by (cbn; by rewrite Hl). by split_and!.
Qed.

Lemma input_full_run s hd B : good false hd B s →
  ∃ s', on_inq Intq.input_full s = Ok (Intq.is_full (Intq.q (inq s)), s') ∧ good false hd B s' ∧ uart s' = uart s ∧ txq s' = txq s ∧ Intq.q (inq s') = Intq.q (inq s).
Proof.
  intros Hg. pose proof Hg as [? Hl Hh ? Hr ? ? [ph Hin] ?]. eexists. unfold on_inq, Intq.input_full.
  rewrite (stM_bind_run _ _ _ _ _ (assert_off_run (seen s (inq s)) ltac:(cbn; by rewrite Hl))), intq_full_run by (cbn; by rewrite Hl).
  cbn [mbind res_bind]. split_and!; [reflexivity| |done..]. split; try done. exists ph. change (inv t ph (seen s (inq s))). unfold seen. rewrite Hl. by apply enter_inv.
Qed.

Lemma write_ier_run s hd B : good false hd B s →
  ∃ s', write_ier s = Ok (tt, s') ∧ good false hd B s' ∧ armed s' ∧ Intq.q (txq s') = Intq.q (txq s) ∧ Intq.q (inq s') = Intq.q (inq s).
Proof.
  intros Hg. unfold write_ier. assert (assert_off s = Ok (tt, s)) as Ha by (unfold assert_off; rewrite stM_bind_eq; cbn [sget]; by rewrite (g_level _ _ _ _ Hg)).
  rewrite (stM_bind_run _ _ _ _ _ Ha). destruct (empty_run s hd B Hg) as (s1 & E1 & Hg1 & Hu1 & Hq1 & Hi1). rewrite (stM_bind_run _ _ _ _ _ E1).
  destruct (input_full_run s1 hd B Hg1) as (s2 & E2 & Hg2 & Hu2 & Ht2 & Hq2). cbv zeta. rewrite (stM_bind_run _ _ _ _ _ E2).
  set (v := if Intq.is_full (Intq.q (inq s1)) then _ else _). destruct (ier_law (uart s2) v) as (Hn & Hs & Hi); [apply Hg2|].
  exists (with_uart (outb IER_REG v (uart s2)) s2). split_and!; [done|by apply good_uart| |cbn; congruence|cbn; congruence].
  unfold armed. cbn [with_uart uart txq]. rewrite Hi, Ht2, Hq1. rewrite <- (empty_contents _ (g_ring _ _ _ _ Hg)). unfold v.
  by destruct (Intq.is_empty (Intq.q (txq s))), (Intq.is_full (Intq.q (inq s1))).
Qed.

Lemma poll_run k n b s hd B :
  good false hd B s → ready_after k (uart s) → (k < n)%nat →
  ∃ u, poll_loop n b s = Ok (tt, with_uart u s) ∧ normal u ∧ sent u = sent (uart s) ++ [b].
Proof.
  intros Hg Hk Hn. revert n s Hg Hk Hn. induction k as [|k IH]; intros [|n] s Hg Hk Hn; try lia; cbn [poll_loop ready_after] in *.
  all: destruct (in_run LSR_REG s false hd B Hg) as [E Hg1]; rewrite (stM_bind_run _ _ _ _ _ E).
  - rewrite (proj2 (Z.eqb_neq _ _)) by done. destruct (thr_law (inb LSR_REG (uart s)).2 b) as (Hn' & Hs & _); [apply Hg1|by apply lsr_law; [apply Hg|]|].
    exists (outb THR_REG b (inb LSR_REG (uart s)).2). split; [reflexivity|]. split; [done|]. rewrite Hs. f_equal. by apply in_law, Hg.
  - destruct (Z.land _ LSR_THRE =? 0) eqn:Hz.
    + destruct (IH n _ Hg1 Hk ltac:(lia)) as (u & E2 & Hu & Hs). exists u. split_and!; [exact E2|done|]. rewrite Hs. f_equal. by apply in_law, Hg.
    + apply Z.eqb_neq in Hz. destruct (thr_law (inb LSR_REG (uart s)).2 b) as (Hn' & Hs & _); [apply Hg1|by apply lsr_law; [apply Hg|]|].
      exists (outb THR_REG b (inb LSR_REG (uart s)).2). split; [reflexivity|]. split; [done|]. rewrite Hs. f_equal. by apply in_law, Hg.
Qed.

(** A byte is taken out of the queue. *)
Lemma getc_run s hd B : good false hd B s → Intq.is_empty (Intq.q (txq s)) = false →
  ∃ b s' B', on_txq Intq.intq_getc s = Ok (Some b, s') ∧ good false hd B' s' ∧ uart s' = uart s ∧ inq s' = inq s ∧
    contents (Intq.q (txq s)) = b :: contents (Intq.q (txq s')).
Proof.
  intros Hg He. pose proof Hg as [? Hl Hh ? Hr Hnf Hne ? ?]. unfold on_txq, Intq.intq_getc.
  assert (Intq.intr_off (seen s (txq s)) = true) as Ho by (cbn; by rewrite Hl).
  rewrite (stM_bind_run _ _ _ _ _ (assert_off_run _ Ho)), (stM_bind_run _ _ _ _ _ (intq_empty_run _ Ho)). cbn [seen Intq.q]. rewrite He.
  destruct (take_byte_run (seen s (txq s)) Hr He Hnf Ho) as (b & x & E & Hx & Hc & Hrx). rewrite (stM_bind_run _ _ _ _ _ E).
  eexists b, _, _. split_and!; [reflexivity| |done|done|exact Hc]. split; cbn; try done; by rewrite Hx.
Qed.

Lemma poll_queued_run s hd B : good false hd B s → Intq.is_empty (Intq.q (txq s)) = false →
  ∃ s', poll_queued polls s = Ok (tt, s') ∧ good false hd B s' ∧ count (Intq.q (txq s)) = S (count (Intq.q (txq s'))).
Proof.
  intros Hg He. destruct (getc_run s hd B Hg He) as (b & s1 & B1 & E1 & Hg1 & Hu1 & Hi1 & Hc). unfold poll_queued. rewrite (stM_bind_run _ _ _ _ _ E1).
  unfold putc_poll. assert (assert_off s1 = Ok (tt, s1)) as Ha by (unfold assert_off; rewrite stM_bind_eq; cbn [sget]; by rewrite (g_level _ _ _ _ Hg1)).
  rewrite (stM_bind_run _ _ _ _ _ Ha). destruct (ready_law (uart s1)) as (k & Hk & Hr); [apply Hg1|].
  destruct (poll_run k polls b s1 hd B1 Hg1 Hr Hk) as (u & E2 & Hn & Hs). exists (with_uart u s1). split_and!; [exact E2| |].
  - destruct Hg1. split; cbn; try done. rewrite Hs, Hu1, <- (g_bytes _ _ _ _ Hg), Hc, <- app_assoc. done.
  - cbn [with_uart txq]. apply (f_equal length) in Hc. unfold contents in Hc. cbn [length] in Hc. by rewrite !length_fmap, !length_seq in Hc.
Qed.

Lemma txputc_run s hd B b : good false hd B s → Intq.is_full (Intq.q (txq s)) = false →
  ∃ s', on_txq (Intq.intq_putc b) s = Ok (true, s') ∧ good false hd (B ++ [b]) s'.
Proof.
  intros Hg Hf. pose proof Hg as [? Hl Hh ? Hr Hnf Hne ? HB]. unfold on_txq, Intq.intq_putc.
  assert (Intq.intr_off (seen s (txq s)) = true) as Ho by (cbn; by rewrite Hl).
  rewrite (stM_bind_run _ _ _ _ _ (assert_off_run _ Ho)), (stM_bind_run _ _ _ _ _ (intq_full_run _ Ho)). cbn [seen Intq.q]. rewrite Hf.
  destruct (store_byte_run b (seen s (txq s)) Hr Hf Ho) as (x & Hx & Hc & Hrx & E). cbn [seen Intq.q] in E. rewrite Hne in E.
  rewrite (stM_bind_run _ _ _ _ _ E). eexists. split; [reflexivity|]. split; cbn; try done; try (by rewrite Hx).
  cbn in Hc. by rewrite Hc, app_assoc, HB.
Qed.

Lemma full_not_empty s hd B : good false hd B s → Intq.is_full (Intq.q (txq s)) = true → Intq.is_empty (Intq.q (txq s)) = false.
Proof.
  intros Hg Hf. pose proof (g_ring _ _ _ _ Hg) as Hr. apply (full_count _ Hr) in Hf. apply not_true_iff_false. rewrite (empty_contents _ Hr).
  unfold contents. rewrite Hf. done.
Qed.

Definition room s : Prop := Intq.is_full (Intq.q (txq s)) = false.

Lemma level_run lv s on B : good lv false B s → armed s → good on false B (mk_serial (uart s) (smode s) (txq s) (inq s) on (handling s)) ∧
  armed (mk_serial (uart s) (smode s) (txq s) (inq s) on (handling s)).
Proof. intros [] Ha. by split. Qed.

(** [serial_putc] of a thread that need not wait. *)
Lemma serial_putc_run on b s B : good on false B s → on = false ∨ room s →
  ∃ s', serial_putc polls b s = Ok (true, s') ∧ good on false (B ++ [b]) s' ∧ armed s'.
Proof.
  intros Hg Hroom. unfold serial_putc, intr_disable. rewrite stM_bind_eq, stM_bind_eq. cbn [sget]. rewrite stM_bind_eq. cbn [set_level smod mret stM_ret].
  set (s0 := mk_serial _ _ _ _ false _). assert (good false false B s0) as Hg0 by (destruct Hg; by split).
  rewrite stM_bind_eq. cbn [sget]. rewrite (g_level _ _ _ _ Hg). rewrite (g_mode _ _ _ _ Hg0). rewrite bool_decide_eq_true_2 by done. cbn [negb].
  assert (∃ f sA s1, (if negb on then on_txq Intq.intq_full else mret false) s0 = Ok (f, sA) ∧
    (if (f : bool) then poll_queued polls else mret tt) sA = Ok (tt, s1) ∧ good false false B s1 ∧ room s1) as (f & sA & s1 & EA & E1 & Hg1 & Hr1).
  { destruct on; cbn [negb]; [destruct Hroom as [?|Hroom]; [done|]; by exists false, s0, s0|].
    destruct (full_run s0 false B Hg0) as (sA & EA & HgA & HuA & HqA). exists (Intq.is_full (Intq.q (txq s0))), sA.
    destruct (Intq.is_full (Intq.q (txq s0))) eqn:Hf; [|exists sA; split_and!; [done|done|done|]; unfold room; by rewrite HqA].
    destruct (poll_queued_run sA false B HgA) as (s2 & E2 & Hg2 & Hc); [eapply full_not_empty; [exact HgA|by rewrite HqA]|]. exists s2. split_and!; [done|done|done|].
    unfold room. apply not_true_iff_false. rewrite (full_count _ (g_ring _ _ _ _ Hg2)). pose proof (count_bound (Intq.q (txq sA))). lia. }
  destruct (txputc_run s1 false B b Hg1 Hr1) as (s2 & E2 & Hg2). destruct (write_ier_run s2 false _ Hg2) as (s3 & E3 & Hg3 & Ha3 & _ & _).
  rewrite stM_bind_eq. rewrite (stM_bind_run _ _ _ _ _ EA), (stM_bind_run _ _ _ _ _ E1), (stM_bind_run _ _ _ _ _ E2), (stM_bind_run _ _ _ _ _ E3).
  eexists. split; [reflexivity|]. by apply (level_run false).
Qed.

Lemma flush_run n s B : good false false B s → (count (Intq.q (txq s)) < n)%nat →
  ∃ s', flush_loop polls n s = Ok (tt, s') ∧ good false false B s' ∧ contents (Intq.q (txq s')) = [].
Proof.
  revert s. induction n as [|n IH]; intros s Hg Hc; [lia|]. cbn [flush_loop].
  destruct (empty_run s false B Hg) as (s1 & E1 & Hg1 & Hu1 & Hq1 & _). rewrite (stM_bind_run _ _ _ _ _ E1).
  destruct (Intq.is_empty (Intq.q (txq s))) eqn:He.
  { exists s1. split_and!; [done|done|]. rewrite Hq1. by apply (empty_contents _ (g_ring _ _ _ _ Hg)). }
  destruct (poll_queued_run s1 false B Hg1) as (s2 & E2 & Hg2 & Hc2); [by rewrite Hq1|]. rewrite (stM_bind_run _ _ _ _ _ E2).
  apply IH; [done|]. rewrite Hq1 in Hc2. lia.
Qed.

(** ** The interrupt *)

Lemma putc_count b (x : Intq.state) r x' :
  ring_ok (Intq.q x) → Intq.is_full (Intq.q x) = false → Intq.intr_off x = true → Intq.intq_putc b x = Ok (r, x') → count (Intq.q x') = S (count (Intq.q x)).
Proof.
  intros Hr Hf Ho E. unfold Intq.intq_putc in E. rewrite (stM_bind_run _ _ _ _ _ (assert_off_run _ Ho)), (stM_bind_run _ _ _ _ _ (intq_full_run _ Ho)), Hf in E.
  destruct (store_byte_run b x Hr Hf Ho) as (y & Hy & Hc & Hry & Es). apply stM_bind_inv in E as (? & x1 & E1 & [= _ <-]). rewrite Es in E1.
  assert (count y = S (count (Intq.q x))) as Hcount.
  { apply (f_equal length) in Hc. unfold contents in Hc. rewrite length_app in Hc. rewrite !length_fmap, !length_seq in Hc. cbn in Hc. lia. }
  destruct (Intq.not_empty (Intq.q x) =? Intq.NULL); [by injection E1 as _ <-|].
  apply stM_bind_inv in E1 as (? & x2 & E1 & [= _ <-]). unfold Intq.thread_unblock in E1. cbn [with_log Intq.sleepers] in E1.
  destruct (Intq.sleepers x !! Intq.not_empty (Intq.q x)); [|done]. injection E1 as _ <-. exact Hcount.
Qed.

Lemma recv_run n s B : good false true B s → (63 - count (Intq.q (inq s)) < n)%nat →
  ∃ s', recv_loop n s = Ok (tt, s') ∧ good false true B s'.
Proof.
  revert s. induction n as [|n IH]; intros s Hg Hc; [lia|]. cbn [recv_loop].
  destruct (input_full_run s true B Hg) as (s1 & E1 & Hg1 & Hu1 & Ht1 & Hq1). rewrite (stM_bind_run _ _ _ _ _ E1).
  destruct (Intq.is_full (Intq.q (inq s))) eqn:Hf; [by exists s1|].
  destruct (in_run LSR_REG s1 _ _ _ Hg1) as [E2 Hg2]. rewrite (stM_bind_run _ _ _ _ _ E2). destruct (Z.land _ LSR_DR =? 0); [by eexists|].
  set (s2 := with_uart _ s1) in *. destruct (in_run RBR_REG s2 _ _ _ Hg2) as [E3 Hg3]. rewrite (stM_bind_run _ _ _ _ _ E3).
  set (b := (inb RBR_REG (uart s2)).1). set (s3 := with_uart _ s2) in *. assert (Intq.q (inq s3) = Intq.q (inq s)) as Hq3 by exact Hq1.
  pose proof Hg3 as [? Hl Hh ? ? ? ? [ph Hin] ?].
  assert (inv t ph (seen s3 (inq s3))) as Hin' by (unfold seen; rewrite Hl; by apply enter_inv).
  destruct (putc_run t Ht ph b (seen s3 (inq s3)) Hin') as (x & ph' & Ex & Hinx & Hpx & Hox & _); [change (Intq.is_full (Intq.q (inq s3)) = false); by rewrite Hq3|change (negb (level_on s3) = true); by rewrite Hl|].
  assert (on_inq (Intq.input_putc b) s3 = Ok (true, mk_serial (uart s3) (smode s3) (txq s3) x (level_on s3) (handling s3))) as E4.
  { unfold on_inq, Intq.input_putc. assert (Intq.intr_off (seen s3 (inq s3)) = true) as Ho by (change (negb (level_on s3) = true); by rewrite Hl).
    rewrite (stM_bind_run _ _ _ _ _ (assert_off_run _ Ho)), (stM_bind_run _ _ _ _ _ (intq_full_run _ Ho)). change (Intq.q (seen s3 (inq s3))) with (Intq.q (inq s3)).
    rewrite Hq3, Hf. rewrite stM_bind_eq. cbn [sassert slift assert negb]. by rewrite Ex. }
  rewrite (stM_bind_run _ _ _ _ _ E4). set (s4 := mk_serial _ _ _ x _ _). assert (good false true B s4) as Hg4 by (split; try done; by exists ph').
  unfold serial_notify. assert (assert_off s4 = Ok (tt, s4)) as Ha by (unfold assert_off; rewrite stM_bind_eq; cbn [sget]; by rewrite (g_level _ _ _ _ Hg4)).
  rewrite stM_bind_eq. rewrite (stM_bind_run _ _ _ _ _ Ha). rewrite stM_bind_eq. cbn [sget]. rewrite (g_mode _ _ _ _ Hg4), bool_decide_eq_true_2 by done.
  destruct (write_ier_run s4 true B Hg4) as (s5 & E5 & Hg5 & _ & _ & Hq5). rewrite E5. apply IH; [done|]. rewrite Hq5.
  change (inq s4) with x. rewrite (putc_count b (seen s3 (inq s3)) true x); [|apply Hin'|change (Intq.is_full (Intq.q (inq s3)) = false); by rewrite Hq3|change (negb (level_on s3) = true); by rewrite Hl|done].
  change (Intq.q (seen s3 (inq s3))) with (Intq.q (inq s3)). rewrite Hq3. pose proof (inv_ring _ _ _ Hin) as Hri. rewrite Hq3 in Hri.
  assert (count (Intq.q (inq s)) ≠ 63)%nat by (rewrite <- (full_count _ Hri); by rewrite Hf). pose proof (count_bound (Intq.q (inq s))). lia.
Qed.

Lemma xmit_run n s B : good false true B s → (count (Intq.q (txq s)) < n)%nat → ∃ s', xmit_loop n s = Ok (tt, s') ∧ good false true B s'.
Proof.
  revert s. induction n as [|n IH]; intros s Hg Hc; [lia|]. cbn [xmit_loop].
  destruct (empty_run s true B Hg) as (s1 & E1 & Hg1 & Hu1 & Hq1 & _). rewrite (stM_bind_run _ _ _ _ _ E1).
  destruct (Intq.is_empty (Intq.q (txq s))) eqn:He; [by exists s1|].
  destruct (in_run LSR_REG s1 _ _ _ Hg1) as [E2 Hg2]. rewrite (stM_bind_run _ _ _ _ _ E2). destruct (Z.land _ LSR_THRE =? 0) eqn:Hz; [by eexists|]. apply Z.eqb_neq in Hz.
  assert (thre (inb LSR_REG (uart s1)).2) as Hthre by (apply lsr_law; [apply Hg1|done]).
  set (s2 := with_uart _ s1) in *. destruct (getc_run s2 true B Hg2) as (b & s3 & B3 & E3 & Hg3 & Hu3 & Hi3 & Hc3); [change (Intq.is_empty (Intq.q (txq s1)) = false); by rewrite Hq1|].
  rewrite (stM_bind_run _ _ _ _ _ E3). destruct (thr_law (uart s3) b) as (Hn & Hs & _); [apply Hg3|by rewrite Hu3|]. rewrite stM_bind_eq. cbn [out smod].
  apply (IH (with_uart (outb THR_REG b (uart s3)) s3)).
  - destruct Hg3. split; cbn; try done. rewrite Hs, Hu3, <- (g_bytes _ _ _ _ Hg2), Hc3, <- app_assoc. done.
  - cbn [with_uart txq]. apply (f_equal length) in Hc3. unfold contents in Hc3. cbn [length] in Hc3. rewrite !length_fmap, !length_seq in Hc3.
    change (txq s2) with (txq s1) in Hc3. rewrite Hq1 in Hc3. lia.
Qed.

Lemma take_interrupt_run s B : good true false B s → ∃ s', take_interrupt s = Ok (tt, s') ∧ good true false B s' ∧ armed s'.
Proof.
  intros Hg. unfold take_interrupt. rewrite stM_bind_eq. cbn [sget]. rewrite stM_bind_eq. cbn [smod]. set (s0 := mk_serial _ _ _ _ false true).
  assert (good false true B s0) as Hg0 by (destruct Hg; by split). rewrite stM_bind_eq. unfold serial_interrupt.
  destruct (in_run IIR_REG s0 _ _ _ Hg0) as [E1 Hg1]. rewrite (stM_bind_run _ _ _ _ _ E1).
  destruct (recv_run 64 _ B Hg1) as (s2 & E2 & Hg2); [lia|]. rewrite (stM_bind_run _ _ _ _ _ E2).
  destruct (xmit_run 64 s2 B Hg2) as (s3 & E3 & Hg3); [pose proof (count_bound (Intq.q (txq s2))); lia|]. rewrite (stM_bind_run _ _ _ _ _ E3).
  destruct (write_ier_run s3 true B Hg3) as (s4 & E4 & Hg4 & Ha4 & _). rewrite E4.
  eexists. split; [reflexivity|]. rewrite (g_level _ _ _ _ Hg), (g_hand _ _ _ _ Hg). destruct Hg4. by split.
Qed.

(** ** Any interleaving *)

(** A thread writes a byte, with interrupts on or off; the port interrupts; a
    thread flushes. *)
Inductive event := Write (off : bool) (byte : Z) | Interrupt | Flush.

(** A thread that would wait for room does so: nothing happens until an
    interrupt has made some. *)
Definition happen (e : event) : stM serial unit :=
  match e with
  | Write off b => s ← sget;
      if negb off && Intq.is_full (Intq.q (txq s)) then mret tt
      else set_level (negb off);; _ ← serial_putc polls b; set_level true
  | Interrupt => take_interrupt
  | Flush => serial_flush polls
  end.
Fixpoint run_events (es : list event) : stM serial unit :=
  match es with [] => mret tt | e :: es => happen e;; run_events es end.
(** The bytes of the writes that were not held back. *)
Fixpoint written (es : list event) (s : serial) : list Z :=
  match es with
  | [] => []
  | e :: es =>
      let rest := match happen e s with Ok (_, s') => written es s' | Err _ => [] end in
      match e with Write off b => if negb off && Intq.is_full (Intq.q (txq s)) then rest else b :: rest | _ => rest end
  end.

Lemma flush_all s B : good true false B s → armed s →
  ∃ s', serial_flush polls s = Ok (tt, s') ∧ good true false B s' ∧ armed s' ∧ sent (uart s') = B.
Proof.
  intros Hg Ha. unfold serial_flush, intr_disable. rewrite stM_bind_eq, stM_bind_eq. cbn [sget]. rewrite stM_bind_eq. cbn [set_level smod mret stM_ret].
  destruct (level_run true s false B Hg Ha) as [Hg0 _]. set (s0 := mk_serial _ _ _ _ false _) in *.
  destruct (flush_run 64 s0 B Hg0) as (s1 & E1 & Hg1 & Hc1); [pose proof (count_bound (Intq.q (txq s0))); lia|].
  rewrite (stM_bind_run _ _ _ _ _ E1). rewrite (g_level _ _ _ _ Hg). destruct (level_run false s1 true B Hg1) as [Hg2 Ha2]; [by intros ?|].
  eexists. split_and!; [reflexivity|done|done|]. cbn [uart]. pose proof (g_bytes _ _ _ _ Hg1) as Hb. by rewrite Hc1, app_nil_r in Hb.
Qed.

Lemma happen_run e s B : good true false B s → armed s →
  ∃ s', happen e s = Ok (tt, s') ∧ armed s' ∧
    good true false (B ++ match e with Write off b => if negb off && Intq.is_full (Intq.q (txq s)) then [] else [b] | _ => [] end) s'.
Proof.
  intros Hg Ha. destruct e as [off b| |]; cbn [happen].
  - rewrite stM_bind_eq. cbn [sget]. destruct (negb off && Intq.is_full (Intq.q (txq s))) eqn:Hf; [exists s; by rewrite app_nil_r|].
    rewrite stM_bind_eq. cbn [set_level smod]. destruct (level_run true s (negb off) B Hg Ha) as [Hg0 _]. set (s0 := mk_serial _ _ _ _ _ _) in *.
    destruct (serial_putc_run (negb off) b s0 B Hg0) as (s1 & E1 & Hg1 & Ha1); [destruct off; [by left|right; exact Hf]|].
    rewrite (stM_bind_run _ _ _ _ _ E1). eexists. split; [reflexivity|]. destruct (level_run (negb off) s1 true _ Hg1 Ha1) as [Hg2 Ha2]. by split.
  - destruct (take_interrupt_run s B Hg) as (s1 & E1 & Hg1 & Ha1). exists s1. by rewrite app_nil_r.
  - destruct (flush_all s B Hg Ha) as (s1 & E1 & Hg1 & Ha1 & _). exists s1. by rewrite app_nil_r.
Qed.

Lemma run_events_run es s B : good true false B s → armed s →
  ∃ s', run_events es s = Ok (tt, s') ∧ armed s' ∧ good true false (B ++ written es s) s'.
Proof.
  revert s B. induction es as [|e es IH]; intros s B Hg Ha; cbn [run_events written]; [exists s; by rewrite app_nil_r|].
  destruct (happen_run e s B Hg Ha) as (s1 & E1 & Ha1 & Hg1). rewrite (stM_bind_run _ _ _ _ _ E1), E1.
  destruct (IH s1 _ Hg1 Ha1) as (s2 & E2 & Ha2 & Hg2). exists s2. split_and!; [done|done|]. destruct e as [off b| |]; rewrite <- app_assoc in Hg2; [|done|done].
  by destruct (negb off && Intq.is_full (Intq.q (txq s))).
Qed.
End spec.

(** C20: The serial port in queue mode loses no byte and keeps the order,
    over any port that sends a byte when its line status has announced an empty
    holding register and may lose it otherwise.  However writes by threads with interrupts on or off, interrupts of the port
    and flushes interleave, every call ends, and what the port has sent
    followed by what is in the queue is exactly what was written, in order;
    while bytes wait the transmit interrupt is enabled; and a flush then sends
    all of them. *)
Theorem serial_sends_in_order {U polls} `{UartLaws U polls} t es (s : serial (U:=U)) B :
  t ≠ Intq.NULL → good t true false B s → armed s →
  ∃ s' s'', run_events (polls:=polls) es s = Ok (tt, s') ∧
    sent (uart s') ++ contents (Intq.q (txq s')) = B ++ written (polls:=polls) es s ∧
    (contents (Intq.q (txq s')) ≠ [] → Z.land (ier (uart s')) IER_XMIT ≠ 0) ∧
    serial_flush polls s' = Ok (tt, s'') ∧ sent (uart s'') = B ++ written (polls:=polls) es s.
Proof.
  intros Ht Hg Ha. destruct (run_events_run t Ht es s B Hg Ha) as (s' & E & Ha' & Hg').
  destruct (flush_all t s' _ Hg' Ha') as (s'' & E2 & _ & _ & Hs). exists s', s''. split_and!; [done|apply Hg'|done|done|done].
Qed.

(** A port that is busy for two polls after every byte and loses bytes written
    meanwhile: what it sent, its register and the polls left. *)
Definition port_sim : Type := list Z * Z * nat.
#[local] Instance port_sim_uart : Uart port_sim := {|
  outb p v '(l, i, k) :=
    if p =? THR_REG then match k with O => (l ++ [v], i, 2%nat) | S _ => (l, i, k) end else if p =? IER_REG then (l, v, k) else (l, i, k);
  inb p '(l, i, k) := if p =? LSR_REG then match k with O => (LSR_THRE, (l, i, O)) | S k => (0, (l, i, k)) end else (0, (l, i, k)) |}.
#[local] Program Instance port_sim_laws : UartLaws port_sim 3 :=
  {| normal u := (u.2 ≤ 2)%nat; sent u := u.1.1; thre u := u.2 = O; ier u := u.1.2 |}.
Next Obligation. by intros [[l i] [|k]] _. Qed.
Next Obligation. intros [[l i] k] v _ Hk. cbn in Hk. subst. by split_and!. Qed.
Next Obligation. by intros [[l i] k] v Hk. Qed.
Next Obligation. intros [[l i] k] p Hk. cbn in *. destruct (p =? LSR_REG); [|done]. destruct k; split_and!; cbn; lia || done. Qed.
Next Obligation.
  intros [[l i] k] Hk. cbn in Hk. exists k. split; [lia|]. clear Hk. revert l i. induction k as [|k IH]; intros l i; [done|]. apply (IH l i).
Qed.

Definition port_sim_start : serial (U:=port_sim) := mk_serial ([], 0, 0%nat) QUEUE Intq.init Intq.init true false.

Lemma serial_sends_in_order_witness :
  written (polls:=3) [Write false 72; Interrupt; Write true 105; Write false 10] port_sim_start = [72; 105; 10] ∧
  ∃ s' s'', run_events (polls:=3) [Write false 72; Interrupt; Write true 105; Write false 10] port_sim_start = Ok (tt, s') ∧
    serial_flush 3 s' = Ok (tt, s'') ∧ (uart s'').1.1 = [72; 105; 10].
Proof.
  assert (written (polls:=3) [Write false 72; Interrupt; Write true 105; Write false 10] port_sim_start = [72; 105; 10]) as Hw by (vm_compute; reflexivity).
  split; [exact Hw|].
  destruct (serial_sends_in_order (polls:=3) 1 [Write false 72; Interrupt; Write true 105; Write false 10] port_sim_start []) as (s' & s'' & E & _ & _ & Ef & Hs).
  - discriminate.
  - split; [reflexivity|reflexivity|reflexivity|cbn; lia|exact (inv_ring _ _ _ (init_inv 1))|reflexivity|reflexivity|exists Idle; exact (init_inv 1)|vm_compute; reflexivity].
  - intros Hc. exfalso. apply Hc. vm_compute. reflexivity.
  - exists s', s''. split; [exact E|]. split; [exact Ef|]. rewrite Hw in Hs. exact Hs.
Defined.
