(* ===== verification/Kbd.v ===== *)
(** * devices/kbd.c: the keyboard

    [keyboard_interrupt] reads a scan code from the data port, keeps track of
    the modifier keys and appends characters to the input buffer of Intq.v.
    The bytes it reads are an argument, in the order the port delivers them. *)

From S2P Require Import Prelude Intq.

Module Kbd.
Import Intq.

Record kbd := mk_kbd {
  left_shift : bool; right_shift : bool; left_alt : bool; right_alt : bool; left_ctrl : bool; right_ctrl : bool;
  caps_lock : bool; key_cnt : Z }.

(** [first_scancode] and [chars]; a table ends where the C table has its zero. *)
Abbreviation keymap := (list (Z * list Z)).

Definition invariant_keymap : keymap :=
  [(1, [27]); (14, [8]);
   (15, [9; 81; 87; 69; 82; 84; 89; 85; 73; 79; 80]);     (* \tQWERTYUIOP *)
   (28, [13]);
   (30, [65; 83; 68; 70; 71; 72; 74; 75; 76]);            (* ASDFGHJKL *)
   (44, [90; 88; 67; 86; 66; 78; 77]);                    (* ZXCVBNM *)
   (55, [42]); (57, [32]); (83, [127])].
Definition unshifted_keymap : keymap :=
  [(2, [49; 50; 51; 52; 53; 54; 55; 56; 57; 48; 45; 61]); (* 1234567890-= *)
   (26, [91; 93]); (39, [59; 39; 96]); (43, [92]); (51, [44; 46; 47])].
Definition shifted_keymap : keymap :=
  [(2, [33; 64; 35; 36; 37; 94; 38; 42; 40; 41; 95; 43]); (* the same keys with shift *)
   (26, [123; 125]); (39, [58; 34; 126]); (43, [124]); (51, [60; 62; 63])].

Fixpoint map_key (k : keymap) (scancode : Z) : option Z :=
  match k with
  | [] => None
  | (first_scancode, chars) :: k =>
      if (first_scancode <=? scancode) && (scancode <? first_scancode + Z.of_nat (length chars))
      then chars !! Z.to_nat (scancode - first_scancode)
      else map_key k scancode
  end.

(** lib/ctype.h *)
Definition isupper (c : Z) : bool := (65 <=? c) && (c <=? 90).
Definition tolower (c : Z) : Z := if isupper c then c - 65 + 97 else c.

(** [code] with the prefix and the release bit taken apart. *)
Definition read_code (port : list Z) : res (Z * list Z) :=
  match port with
  | [] => Err EFault
  | c :: port =>
      if c =? 224 then match port with [] => Err EFault | d :: port => Ok (Z.lor (Z.shiftl c 8) d, port) end
      else Ok (c, port)
  end.

(** The table of shift keys: the state variable that [code] sets. *)
Definition shift_key (k : kbd) (code : Z) (v : bool) : kbd :=
  if code =? 42 then mk_kbd v (right_shift k) (left_alt k) (right_alt k) (left_ctrl k) (right_ctrl k) (caps_lock k) (key_cnt k)
  else if code =? 54 then mk_kbd (left_shift k) v (left_alt k) (right_alt k) (left_ctrl k) (right_ctrl k) (caps_lock k) (key_cnt k)
  else if code =? 56 then mk_kbd (left_shift k) (right_shift k) v (right_alt k) (left_ctrl k) (right_ctrl k) (caps_lock k) (key_cnt k)
  else if code =? 57400 then mk_kbd (left_shift k) (right_shift k) (left_alt k) v (left_ctrl k) (right_ctrl k) (caps_lock k) (key_cnt k)
  else if code =? 29 then mk_kbd (left_shift k) (right_shift k) (left_alt k) (right_alt k) v (right_ctrl k) (caps_lock k) (key_cnt k)
  else if code =? 57373 then mk_kbd (left_shift k) (right_shift k) (left_alt k) (right_alt k) (left_ctrl k) v (caps_lock k) (key_cnt k)
  else k.
Definition toggle_caps (k : kbd) : kbd :=
  mk_kbd (left_shift k) (right_shift k) (left_alt k) (right_alt k) (left_ctrl k) (right_ctrl k) (negb (caps_lock k)) (key_cnt k).
Definition count_key (k : kbd) : kbd :=
  mk_kbd (left_shift k) (right_shift k) (left_alt k) (right_alt k) (left_ctrl k) (right_ctrl k) (caps_lock k) (i64 (key_cnt k + 1)).

(** The character for [code] with Shift up or down. *)
Definition find_char (shift : bool) (code : Z) : option Z :=
  match map_key invariant_keymap code with
  | Some c => Some c
  | None => map_key (if shift then shifted_keymap else unshifted_keymap) code
  end.
(** Ctrl, the case of letters, and Alt. *)
Definition modify (shift ctrl alt caps : bool) (c : Z) : Z :=
  let c := if ctrl && (64 <=? c) && (c <? 96) then c - 64 else if Bool.eqb shift caps then tolower c else c in
  if alt then u8 (c + 128) else c.

Record machine := mk_machine { keys : kbd; input : state }.

Definition set_keys (f : kbd → kbd) : stM machine unit := smod (λ s, mk_machine (f (keys s)) (input s)).
Definition on_input {A} (f : qM A) : stM machine A := λ s, '(a, i) ← f (input s); Ok (a, mk_machine (keys s) i).

(** An ordinary key was pressed; [true] when the machine is rebooted. *)
Definition press (c : Z) : stM machine bool :=
  s ← sget;
  let shift := left_shift (keys s) || right_shift (keys s) in
  let alt := left_alt (keys s) || right_alt (keys s) in
  let ctrl := left_ctrl (keys s) || right_ctrl (keys s) in
  if (c =? 127) && ctrl && alt then mret true
  else
    let c := modify shift ctrl alt (caps_lock (keys s)) c in
    full ← on_input input_full;
    if (full : bool) then mret false
    else set_keys count_key;; _ ← on_input (input_putc c); mret false.

Definition keyboard_interrupt (port : list Z) : stM machine bool :=
  s ← sget;
  let shift := left_shift (keys s) || right_shift (keys s) in
  '(code, _) ← slift (read_code port);
  let release := negb (Z.land code 128 =? 0) in
  let code := Z.land code (Z.lnot 128) in
  if code =? 58 then (if release then mret tt else set_keys toggle_caps);; mret false
  else
    match find_char shift code with
    | Some c => if release then mret false else press c
    | None => set_keys (λ k, shift_key k code (negb release));; mret false
    end.

(** As [intr_handler] calls it: with interrupts off, in interrupt context. *)
Definition keyboard_handler (port : list Z) : stM machine bool :=
  on_input (s ← sget; enter (cur s) true);; keyboard_interrupt port.

Definition kbd_reset : kbd := mk_kbd false false false false false false false 0.

End Kbd.
