(* ===== verification/KbdSpec.v ===== *)
(** * The keyboard: what is typed is what is read

    The layout of the keys is written down here key by key, apart from the
    tables of the driver: the scan code, and the characters without and with
    Shift.  A typist who wants a character presses the keys that this layout
    asks for. *)

From S2P Require Import Prelude Intq IntqSpec Kbd.
From Stdlib Require Import Ascii.
Import Intq Kbd.

(** ** The American keyboard *)

Definition code_of (c : ascii) : Z := Z.of_N (N_of_ascii c).
Definition key (scan : Z) (plain shifted : ascii) : Z * Z * Z := (scan, code_of plain, code_of shifted).
Definition us_layout : list (Z * Z * Z) :=
  [key 2 "1" "!"; key 3 "2" "@"; key 4 "3" "#"; key 5 "4" "$"; key 6 "5" "%"; key 7 "6" "^"; key 8 "7" "&";
   key 9 "8" "*"; key 10 "9" "("; key 11 "0" ")"; key 12 "-" "_"; key 13 "=" "+"; key 16 "q" "Q";
   key 17 "w" "W"; key 18 "e" "E"; key 19 "r" "R"; key 20 "t" "T"; key 21 "y" "Y"; key 22 "u" "U";
   key 23 "i" "I"; key 24 "o" "O"; key 25 "p" "P"; key 26 "[" "{"; key 27 "]" "}"; key 30 "a" "A";
   key 31 "s" "S"; key 32 "d" "D"; key 33 "f" "F"; key 34 "g" "G"; key 35 "h" "H"; key 36 "j" "J";
   key 37 "k" "K"; key 38 "l" "L"; key 39 ";" ":"; (40, 39, 34); key 41 "`" "~"; key 43 "\" "|";
   key 44 "z" "Z"; key 45 "x" "X"; key 46 "c" "C"; key 47 "v" "V"; key 48 "b" "B"; key 49 "n" "N";
   key 50 "m" "M"; key 51 "," "<"; key 52 "." ">"; key 53 "/" "?"; key 57 " " " "]%char.

Definition is_letter (c : Z) : bool := ((65 <=? c) && (c <=? 90)) || ((97 <=? c) && (c <=? 122)).

(** The key for a character and whether Shift must be down.  Caps Lock turns the
    rule around for letters, and only for letters. *)
Definition key_for (caps : bool) (c : Z) : option (bool * Z) :=
  let wants shifted := if is_letter c then xorb shifted caps else shifted in
  match list_find (λ k, k.1.2 = c) us_layout with
  | Some (_, (scan, _, _)) => Some (wants false, scan)
  | None => match list_find (λ k, k.2 = c) us_layout with Some (_, (scan, _, _)) => Some (wants true, scan) | None => None end
  end.

(** What a typist does: types a character with the left or the right Shift key
    where one is needed, types it with Alt, types a letter of the alphabet with
    Ctrl, or presses Caps Lock. *)
Inductive stroke := Char (rs : bool) (c : Z) | Meta (rs : bool) (c : Z) | Control (n : Z) | Caps.

Definition holding (scan : Z) (l : list (list Z)) : list (list Z) := [[scan]] ++ l ++ [[scan + 128]].
Definition tap (scan : Z) : list (list Z) := [[scan]; [scan + 128]].
(** The scan codes, those of one interrupt each. *)
Definition char_strokes (caps rs : bool) (c : Z) : list (list Z) :=
  match key_for caps c with
  | None => []
  | Some (false, k) => tap k
  | Some (true, k) => holding (if rs then 54 else 42) (tap k)
  end.
Definition strokes (caps : bool) (s : stroke) : list (list Z) :=
  match s with
  | Char rs c => char_strokes caps rs c
  | Meta rs c => holding 56 (char_strokes caps rs c)
  | Control n => match key_for false (96 + n) with Some (_, k) => holding 29 (tap k) | None => [] end
  | Caps => tap 58
  end.
(** The text that is meant: Alt sets the highest bit, Ctrl with the [n]-th letter is [n]. *)
Definition meant (s : stroke) : list Z :=
  match s with Char _ c => [c] | Meta _ c => [c + 128] | Control n => [n] | Caps => [] end.
Definition stroke_ok (s : stroke) : Prop :=
  match s with Char _ c | Meta _ c => 32 ≤ c ≤ 126 | Control n => 1 ≤ n ≤ 26 | Caps => True end.
Definition caps_after (caps : bool) (s : stroke) : bool := match s with Caps => negb caps | _ => caps end.

(** ** What the driver makes of the keys *)

(** A key that is no modifier, with the modifiers down: what the driver's
    tables give for it. *)
Record key_ok (shift ctrl alt caps : bool) (k c : Z) : Prop := {
  ko_code : read_code [k] = Ok (k, []) ∧ Z.land k 128 = 0 ∧ Z.land k (Z.lnot 128) = k;
  ko_release : read_code [k + 128] = Ok (k + 128, []) ∧ Z.land (k + 128) 128 ≠ 0 ∧ Z.land (k + 128) (Z.lnot 128) = k;
  ko_caps : k ≠ 58;
  ko_char : ∃ c0, find_char shift k = Some c0 ∧ c0 ≠ 127 ∧ modify shift ctrl alt caps c0 = c }.

Definition key_check (shift ctrl alt caps : bool) (k c : Z) : bool :=
  negb (k =? 224) && (Z.land k 128 =? 0) && (Z.land k (Z.lnot 128) =? k) && negb (k + 128 =? 224) && negb (Z.land (k + 128) 128 =? 0) &&
  (Z.land (k + 128) (Z.lnot 128) =? k) && negb (k =? 58) &&
  match find_char shift k with Some c0 => negb (c0 =? 127) && (modify shift ctrl alt caps c0 =? c) | None => false end.
Lemma key_check_ok shift ctrl alt caps k c : key_check shift ctrl alt caps k c = true → key_ok shift ctrl alt caps k c.
Proof.
  unfold key_check. destruct (find_char shift k) as [c0|] eqn:Hf; [|by rewrite andb_false_r].
  intros. bool_props. split; [| |done|by exists c0].
  - unfold read_code. by rewrite (proj2 (Z.eqb_neq k 224)).
  - unfold read_code. by rewrite (proj2 (Z.eqb_neq (k + 128) 224)).
Qed.

(** The layout agrees with the driver's tables, for every printable character. *)
Lemma layout_chars :
  forallb (λ c, forallb (λ caps, forallb (λ alt : bool,
    match key_for caps c with Some (shift, k) => key_check shift false alt caps k (if alt then c + 128 else c) | None => false end)
    [false; true]) [false; true]) (seqZ 32 95) = true.
Proof. vm_compute. reflexivity. Qed.
Lemma layout_letters :
  forallb (λ n, forallb (λ caps,
    match key_for false (96 + n) with Some (shift, k) => negb shift && key_check false true false caps k n | None => false end)
    [false; true]) (seqZ 1 26) = true.
Proof. vm_compute. reflexivity. Qed.

Lemma bool_in (b : bool) : In b [false; true].
Proof. destruct b; simpl; auto. Qed.
Lemma char_key caps alt c :
  32 ≤ c ≤ 126 → ∃ shift k, key_for caps c = Some (shift, k) ∧ key_ok shift false alt caps k (if alt then c + 128 else c).
Proof.
  intros Hc. pose proof layout_chars as Hall. rewrite forallb_forall in Hall. specialize (Hall c). rewrite forallb_forall in Hall.
  assert (In c (seqZ 32 95)) as Hin by (apply list_elem_of_In, elem_of_seqZ; lia).
  specialize (Hall Hin caps (bool_in caps)). rewrite forallb_forall in Hall. specialize (Hall alt (bool_in alt)).
  destruct (key_for caps c) as [[shift k]|]; [|done]. exists shift, k. split; [done|]. by apply key_check_ok.
Qed.
Lemma letter_key caps n : 1 ≤ n ≤ 26 → ∃ k, key_for false (96 + n) = Some (false, k) ∧ key_ok false true false caps k n.
Proof.
  intros Hn. pose proof layout_letters as Hall. rewrite forallb_forall in Hall. specialize (Hall n). rewrite forallb_forall in Hall.
  assert (In n (seqZ 1 26)) as Hin by (apply list_elem_of_In, elem_of_seqZ; lia). specialize (Hall Hin caps (bool_in caps)).
  destruct (key_for false (96 + n)) as [[shift k]|]; [|done]. apply andb_true_iff in Hall as [?%negb_true_iff Hk]. subst.
  exists k. split; [done|]. by apply key_check_ok.
Qed.

(** ** Strokes *)

(** The modifier keys that are down. *)
Record mods := mk_mods { m_left : bool; m_right : bool; m_alt : bool; m_ctrl : bool; m_caps : bool }.
Definition held (f : mods) (k : kbd) : Prop :=
  left_shift k = m_left f ∧ right_shift k = m_right f ∧ left_alt k = m_alt f ∧ right_alt k = false ∧ left_ctrl k = m_ctrl f ∧ right_ctrl k = false ∧
  caps_lock k = m_caps f.
Definition shifted (f : mods) : bool := m_left f || m_right f.

(** The modifier with scan code [scan] goes down or up. *)
Definition set_mod (scan : Z) (v : bool) (f : mods) : mods :=
  if scan =? 42 then mk_mods v (m_right f) (m_alt f) (m_ctrl f) (m_caps f)
  else if scan =? 54 then mk_mods (m_left f) v (m_alt f) (m_ctrl f) (m_caps f)
  else if scan =? 56 then mk_mods (m_left f) (m_right f) v (m_ctrl f) (m_caps f)
  else mk_mods (m_left f) (m_right f) (m_alt f) v (m_caps f).
Definition is_mod (scan : Z) : Prop := scan = 42 ∨ scan = 54 ∨ scan = 56 ∨ scan = 29.

Section typing.
Context (t : Z) (Ht : t ≠ NULL).

(** The handler sees the queue with interrupts off. *)
Definition entered (i : state) : state := mk_state (q i) (sleepers i) (woken i) (cur i) true true (got i) (put i).

Lemma handler_eq port m : keyboard_handler port m = keyboard_interrupt port (mk_machine (keys m) (entered (input m))).
Proof. reflexivity. Qed.

Lemma mod_stroke scan v f m :
  is_mod scan → held f (keys m) →
  ∃ m', keyboard_handler [if (v : bool) then scan else scan + 128] m = Ok (false, m') ∧ held (set_mod scan v f) (keys m') ∧ input m' = entered (input m).
Proof.
  intros Hs Hh. rewrite handler_eq. unfold keyboard_interrupt. rewrite stM_bind_eq. cbn [sget keys].
  destruct (left_shift (keys m) || right_shift (keys m)), Hs as [-> | [-> | [-> | ->]]], v; rewrite stM_bind_eq;
    (eexists; split; [reflexivity|]); (split; [|reflexivity]); destruct Hh as (Hl & Hr & Ha & Ha' & Hc & Hc' & Hcaps);
    unfold held; cbn; split_and!; done.
Qed.

Lemma caps_stroke f m :
  held f (keys m) → ∃ m', keyboard_handler [58] m = Ok (false, m') ∧ held (mk_mods (m_left f) (m_right f) (m_alt f) (m_ctrl f) (negb (m_caps f))) (keys m') ∧
    input m' = entered (input m).
Proof.
  intros (Hl & Hr & Ha & Ha' & Hc & Hc' & Hcaps). rewrite handler_eq. unfold keyboard_interrupt. rewrite stM_bind_eq. cbn [sget keys].
  rewrite stM_bind_eq. eexists. split; [reflexivity|]. split; [|done]. unfold held. cbn. rewrite Hcaps. by split_and!.
Qed.
Lemma caps_release m : keyboard_handler [186] m = Ok (false, mk_machine (keys m) (entered (input m))).
Proof. rewrite handler_eq. unfold keyboard_interrupt. rewrite stM_bind_eq. cbn [sget keys]. by rewrite stM_bind_eq. Qed.

Lemma release_stroke f k c m :
  key_ok (shifted f) (m_ctrl f) (m_alt f) (m_caps f) k c → held f (keys m) →
  keyboard_handler [k + 128] m = Ok (false, mk_machine (keys m) (entered (input m))).
Proof.
  intros [_ (Hc & Hr & Hk) Hcaps (c0 & Hf & _)] (Hl & Hrs & _). rewrite handler_eq. unfold keyboard_interrupt. rewrite stM_bind_eq. cbn [sget keys].
  rewrite stM_bind_eq, Hc. cbn [slift]. rewrite (proj2 (Z.eqb_neq _ 0) Hr), Hk, (proj2 (Z.eqb_neq k 58)) by done. cbn [negb].
  rewrite Hl, Hrs. unfold shifted in Hf. by rewrite Hf.
Qed.

Lemma press_stroke f k c m ph :
  key_ok (shifted f) (m_ctrl f) (m_alt f) (m_caps f) k c → held f (keys m) → inv t ph (input m) → is_full (q (input m)) = false →
  ∃ m' ph', keyboard_handler [k] m = Ok (false, m') ∧ held f (keys m') ∧ inv t ph' (input m') ∧ put (input m') = put (input m) ++ [c].
Proof.
  intros [(Hc & Hr & Hk) _ Hcaps (c0 & Hf & H127 & Hmod)] Hheld Hinv Hfull. pose proof Hheld as (Hl & Hrs & Ha & Ha' & Hct & Hct' & Hca).
  rewrite handler_eq. unfold keyboard_interrupt. rewrite stM_bind_eq. cbn [sget keys].
  rewrite stM_bind_eq, Hc. cbn [slift]. rewrite Hr, Hk, (proj2 (Z.eqb_neq k 58)) by done. change (0 =? 0) with true. cbn [negb].
  rewrite Hl, Hrs. fold (shifted f). rewrite Hf. unfold press. rewrite stM_bind_eq. cbn [sget keys]. rewrite Ha, Ha', Hct, Hct', Hl, Hrs, Hca, !orb_false_r.
  fold (shifted f). rewrite (proj2 (Z.eqb_neq c0 127)), Hmod by done. cbn [andb].
  assert (inv t ph (entered (input m))) as Hinv' by (by apply enter_inv).
  rewrite stM_bind_eq. unfold on_input at 1. cbn [input]. unfold input_full.
  rewrite (stM_bind_run _ _ _ _ _ (assert_off_run (entered (input m)) eq_refl)), (intq_full_run (entered (input m)) eq_refl).
  change (is_full (q (entered (input m)))) with (is_full (q (input m))). rewrite Hfull. cbn [mbind res_bind]. rewrite stM_bind_eq. cbn [set_keys smod].
  rewrite stM_bind_eq. unfold on_input. cbn [input keys]. unfold input_putc.
  rewrite (stM_bind_run _ _ _ _ _ (assert_off_run (entered (input m)) eq_refl)), (stM_bind_run _ _ _ _ _ (intq_full_run (entered (input m)) eq_refl)).
  change (is_full (q (entered (input m)))) with (is_full (q (input m))). rewrite Hfull, stM_bind_eq. cbn [negb sassert slift assert].
  destruct (putc_run t Ht ph c (entered (input m)) Hinv' Hfull eq_refl) as (i' & ph' & -> & Hi' & Hput & _). cbn [mbind res_bind].
  eexists _, ph'. split; [reflexivity|]. cbn [keys input]. split; [|by split]. by split_and!.
Qed.

Fixpoint handlers (ports : list (list Z)) : stM machine unit :=
  match ports with [] => mret tt | p :: ports => r ← keyboard_handler p; if (r : bool) then serr EPanic else handlers ports end.

Lemma handlers_app l1 l2 m m' : handlers l1 m = Ok (tt, m') → handlers (l1 ++ l2) m = handlers l2 m'.
Proof.
  revert m. induction l1 as [|p l1 IH]; intros m; cbn [handlers app]; [by intros [= <-]|].
  intros (r & m1 & H1 & H2)%stM_bind_inv. rewrite (stM_bind_run _ _ _ _ _ H1). destruct r; [done|]. by apply IH.
Qed.
Lemma handlers_one p m m' : keyboard_handler p m = Ok (false, m') → handlers [p] m = Ok (tt, m').
Proof. intros Hp. cbn [handlers]. by rewrite (stM_bind_run _ _ _ _ _ Hp). Qed.

(** [c] arrives in the buffer and the modifiers are as before. *)
Definition arrives (f : mods) (c : Z) (l : list (list Z)) : Prop :=
  ∀ m ph, held f (keys m) → inv t ph (input m) → is_full (q (input m)) = false →
  ∃ m' ph', handlers l m = Ok (tt, m') ∧ held f (keys m') ∧ inv t ph' (input m') ∧ put (input m') = put (input m) ++ [c].

Lemma tap_arrives f k c : key_ok (shifted f) (m_ctrl f) (m_alt f) (m_caps f) k c → arrives f c (tap k).
Proof.
  intros Hk m ph Hh Hi Hf. destruct (press_stroke f k c m ph Hk Hh Hi Hf) as (m1 & ph1 & H1 & Hh1 & Hi1 & Hp1).
  exists (mk_machine (keys m1) (entered (input m1))), ph1. split_and!; [|exact Hh1|exact (enter_inv _ _ _ _ _ Hi1)|exact Hp1].
  change (tap k) with ([[k]] ++ [[k + 128]]). rewrite (handlers_app [[k]] _ m m1) by by apply handlers_one. by apply handlers_one, (release_stroke f k c).
Qed.

Lemma holding_arrives scan f c l :
  is_mod scan → set_mod scan false (set_mod scan true f) = f → arrives (set_mod scan true f) c l → arrives f c (holding scan l).
Proof.
  intros Hs Hf Hl m ph Hh Hi Hn. destruct (mod_stroke scan true f m Hs Hh) as (m1 & H1 & Hh1 & Hi1).
  destruct (Hl m1 ph Hh1) as (m2 & ph2 & H2 & Hh2 & Hi2 & Hp2); [rewrite Hi1; by apply enter_inv|by rewrite Hi1|].
  destruct (mod_stroke scan false _ m2 Hs Hh2) as (m3 & H3 & Hh3 & Hi3). rewrite Hf in Hh3. exists m3, ph2. rewrite Hi3.
  split_and!; [|done|by apply enter_inv|cbn [entered put]; by rewrite Hp2, Hi1].
  unfold holding. rewrite (handlers_app [[scan]] _ m m1) by by apply handlers_one. rewrite (handlers_app l _ m1 m2) by done. by apply handlers_one.
Qed.

Lemma char_arrives rs alt caps c :
  32 ≤ c ≤ 126 → arrives (mk_mods false false alt false caps) (if alt then c + 128 else c) (char_strokes caps rs c).
Proof.
  intros Hc. destruct (char_key caps alt c Hc) as ([] & k & Hk & Hok); unfold char_strokes; rewrite Hk; [|by apply tap_arrives].
  destruct rs; (apply holding_arrives; [unfold is_mod; tauto|done|]; by apply tap_arrives).
Qed.

Lemma stroke_run s caps m ph :
  stroke_ok s → held (mk_mods false false false false caps) (keys m) → inv t ph (input m) → (meant s ≠ [] → is_full (q (input m)) = false) →
  ∃ m' ph', handlers (strokes caps s) m = Ok (tt, m') ∧ held (mk_mods false false false false (caps_after caps s)) (keys m') ∧
    inv t ph' (input m') ∧ put (input m') = put (input m) ++ meant s.
Proof.
  intros Hs Hh Hi Hf. destruct s as [rs c|rs c|n|]; cbn [strokes caps_after meant stroke_ok] in *; try specialize (Hf ltac:(done)).
  - by apply (char_arrives rs false caps c Hs m ph).
  - eapply (holding_arrives 56); [unfold is_mod; tauto|done|by apply (char_arrives rs true caps c)|done..].
  - destruct (letter_key caps n Hs) as (k & -> & Hok).
    eapply (holding_arrives 29); [unfold is_mod; tauto|done|by apply tap_arrives|done..].
  - destruct (caps_stroke _ m Hh) as (m1 & H1 & Hh1 & Hi1). exists (mk_machine (keys m1) (entered (input m1))), ph. change (tap 58) with ([[58]] ++ [[186]]). rewrite (handlers_app [[58]] _ m m1) by by apply handlers_one.
    split_and!; [apply handlers_one, caps_release|exact Hh1|cbn [input]; rewrite Hi1; by do 2 apply enter_inv|].
    cbn [input entered put]. by rewrite Hi1, app_nil_r.
Qed.

(** ** Typing and reading *)

(** The typist does something, or the reading thread does. *)
Inductive action := Typist (s : stroke) | Reader (e : event).
Definition action_ok (a : action) : Prop := match a with Typist s => stroke_ok s | Reader e => e = Call t Get ∨ e = Resume t end.
Definition typed (a : list action) : list Z := a ≫= λ a, match a with Typist s => meant s | Reader _ => [] end.

(** [caps] is what the typist sees on the Caps Lock light. *)
Fixpoint perform (caps : bool) (l : list action) : stM machine unit :=
  match l with
  | [] => mret tt
  | Typist s :: l => handlers (strokes caps s);; perform (caps_after caps s) l
  | Reader e :: l => on_input (step e);; perform caps l
  end.

Lemma reader_action e ph s :
  e = Call t Get ∨ e = Resume t → inv t ph s → ∃ s' ph', step e s = Ok (tt, s') ∧ inv t ph' s' ∧ put s' = put s.
Proof. intros [-> | ->] Hs; [by eapply call_run|by eapply resume_run]. Qed.

Lemma room_left ph i n : inv t ph i → (length (put i) + n ≤ 63)%nat → n ≠ 0%nat → is_full (q i) = false.
Proof.
  intros [Hr Hfi _ _ _] Hlen Hn. apply not_true_iff_false. rewrite full_count by done. apply (f_equal length) in Hfi.
  rewrite length_app in Hfi. unfold contents in Hfi. rewrite length_fmap, length_seq in Hfi. lia.
Qed.

Lemma perform_spec l caps m ph :
  Forall action_ok l → held (mk_mods false false false false caps) (keys m) → inv t ph (input m) → (length (put (input m)) + length (typed l) ≤ 63)%nat →
  ∃ m' ph', perform caps l m = Ok (tt, m') ∧ inv t ph' (input m') ∧ put (input m') = put (input m) ++ typed l.
Proof.
  intros Hl. revert caps m ph. induction Hl as [|a l Ha _ IH]; intros caps m ph Hq Hinv Hlen; [exists m, ph; split_and!; [done..|by rewrite app_nil_r]|].
  change (typed (a :: l)) with ((match a with Typist s => meant s | Reader _ => [] end) ++ typed l) in *. rewrite length_app in Hlen.
  destruct a as [s|e]; cbn [perform].
  - destruct (stroke_run s caps m ph Ha Hq Hinv) as (m1 & ph1 & H1 & Hq1 & Hi1 & Hp1); [intros Hm; eapply (room_left ph _ (length (meant s))); [done|lia|]; by destruct (meant s)|].
    rewrite (stM_bind_run _ _ _ _ _ H1).
    destruct (IH _ m1 ph1 Hq1 Hi1) as (m2 & ph2 & H2 & Hi2 & Hp2); [rewrite Hp1, length_app; lia|].
    exists m2, ph2. split_and!; [done..|]. by rewrite Hp2, Hp1, <- app_assoc.
  - destruct (reader_action e ph (input m) Ha Hinv) as (i1 & ph1 & H1 & Hi1 & Hp1).
    rewrite stM_bind_eq. unfold on_input at 1. rewrite H1. cbn [mbind res_bind].
    destruct (IH caps (mk_machine (keys m) i1) ph1 Hq Hi1) as (m2 & ph2 & H2 & Hi2 & Hp2); [cbn [input] in *; rewrite Hp1; cbn [length] in Hlen; lia|].
    exists m2, ph2. split_and!; [done..|]. rewrite Hp2. cbn [input]. by rewrite Hp1.
Qed.
End typing.

Definition start : machine := mk_machine kbd_reset init.

(** C24: What is typed is what is read.  A typist presses the keys that an
    American keyboard, described key by key apart from the driver's tables,
    has for each character: with the left or right Shift key where the
    character needs it and Caps Lock, pressed at any time, does not give it, with Alt, or
    letters with Ctrl.  However the strokes for up to 63 characters and the
    steps of one reading thread are interleaved, the handler accepts
    all; what the thread has read and what is still in the
    buffer is the text that was meant, in order, and if the thread sleeps, it
    has read all of it. *)
Theorem typed_text_is_read t l :
  t ≠ NULL → Forall (action_ok t) l → (length (typed l) ≤ 63)%nat →
  ∃ m, perform false l start = Ok (tt, m) ∧ got (input m) ++ contents (q (input m)) = typed l ∧
    (is_Some (sleepers (input m) !! t) → got (input m) = typed l).
Proof.
  intros Ht Hl Hlen. destruct (perform_spec t Ht l false start Idle Hl) as (m & ph & Hp & Hi & Hput); [done|apply init_inv|simpl; lia|].
  exists m. cbn [start input init put app] in Hput. destruct Hi as [Hr Hfi _ _ Hag]. rewrite Hput in Hfi. split_and!; [done..|].
  intros Hs. rewrite <- Hfi. destruct ph; cbn [agree] in Hag; [destruct Hag as (Hsl & _); rewrite Hsl in Hs; by destruct Hs| |
    destruct Hag as (Hsl & _); rewrite Hsl in Hs; by destruct Hs].
  destruct Hag as (_ & _ & _ & _ & _ & He). apply empty_contents in He; [|done]. by rewrite He, app_nil_r.
Qed.

(** ["Hi!"] with Caps Lock pressed after the first letter, then Ctrl+D; the
    thread waits before the first key. *)
Definition sample_actions : list action :=
  [Reader (Call 4096 Get); Typist (Char true 72); Reader (Resume 4096); Typist Caps; Typist (Char false 105); Typist (Char false 33); Typist (Control 4);
   Reader (Call 4096 Get); Reader (Call 4096 Get); Reader (Call 4096 Get)].
Lemma typed_text_is_read_witness :
  ∃ m, perform false sample_actions start = Ok (tt, m) ∧ got (input m) ++ contents (q (input m)) = [72; 105; 33; 4].
Proof.
  destruct (typed_text_is_read 4096 sample_actions) as (m & H1 & H2 & _).
  - discriminate.
  - repeat (apply Forall_cons; split; [cbn; first [lia|exact I|left; reflexivity|right; reflexivity]|]). apply Forall_nil. exact I.
  - cbn. lia.
  - exists m. split; [exact H1|exact H2].
Defined.
