(* ===== verification/Rtc.v ===== *)
(** * devices/rtc.c: the real-time clock

    [cmos n index] is the byte that the [n]-th read of the clock's registers
    returns when it asks for register [index]. *)

From S2P Require Import Prelude.

Module Rtc.

Definition RTC_REG_SEC : Z := 0.
Definition RTC_REG_MIN : Z := 2.
Definition RTC_REG_HOUR : Z := 4.
Definition RTC_REG_MDAY : Z := 7.
Definition RTC_REG_MON : Z := 8.
Definition RTC_REG_YEAR : Z := 9.

Definition bcd_to_bin (x : Z) : Z := Z.land x 15 + Z.shiftr x 4 * 10.

Definition days_per_month : list Z := [31; 28; 31; 30; 31; 30; 31; 31; 30; 31; 30; 31].

Record time_parts := mk_parts { sec : Z; min : Z; hour : Z; mday : Z; mon : Z; year : Z }.

(** [do ... while (sec != ...)]: seven reads a turn.  A clock that ticks at
    every read would keep it going; the fuel is the number of turns. *)
Fixpoint read_parts (fuel : nat) (cmos : nat → Z → Z) (n : nat) : res time_parts :=
  match fuel with
  | O => Err EFuel
  | S fuel =>
      let reg k index := bcd_to_bin (cmos (n + k)%nat index) in
      let sec := reg 0%nat RTC_REG_SEC in
      let t := mk_parts sec (reg 1%nat RTC_REG_MIN) (reg 2%nat RTC_REG_HOUR) (reg 3%nat RTC_REG_MDAY)
                 (reg 4%nat RTC_REG_MON) (reg 5%nat RTC_REG_YEAR) in
      if negb (sec =? reg 6%nat RTC_REG_SEC) then read_parts fuel cmos (n + 7) else Ok t
  end.

(** [for (i = 1; i <= mon; i++) time += days_per_month[i - 1] * 24 * 60 * 60;] *)
Fixpoint month_loop (n : nat) (i time : Z) : res Z :=
  match n with
  | O => Ok time
  | S n => d ← deref (days_per_month !! Z.to_nat (i - 1)); month_loop n (i + 1) (u32 (time + d * 24 * 60 * 60))
  end.

Definition seconds (t : time_parts) : res Z :=
  let year := (if year t <? 70 then year t + 100 else year t) - 70 in
  let time := u32 (i32 ((year * 365 + Z.quot (year - 1) 4) * 24 * 60 * 60)) in
  time ← month_loop (Z.to_nat (mon t)) 1 time;
  let time := if (2 <? mon t) && (Z.rem year 4 =? 0) then u32 (time + 24 * 60 * 60) else time in
  let time := u32 (time + (mday t - 1) * 24 * 60 * 60) in
  let time := u32 (time + hour t * 60 * 60) in
  let time := u32 (time + min t * 60) in
  Ok (u32 (time + sec t)).

Definition rtc_get_time (fuel : nat) (cmos : nat → Z → Z) : res Z := t ← read_parts fuel cmos 0; seconds t.

(** ** Unix time *)

Definition leap (y : Z) : bool := (y mod 4 =? 0) && (negb (y mod 100 =? 0) || (y mod 400 =? 0)).
Definition year_days (y : Z) : Z := if leap y then 366 else 365.
Definition month_days (y m : Z) : Z := if (m =? 2) && leap y then 29 else nth (Z.to_nat (m - 1)) days_per_month 0.
Definition zsum (l : list Z) : Z := foldr Z.add 0 l.
(** Days from January 1, 1970 to the first of a month. *)
Definition unix_days (y m : Z) : Z := zsum (map year_days (seqZ 1970 (y - 1970))) + zsum (map (month_days y) (seqZ 1 (m - 1))).
Definition unix_time (y m d h mi s : Z) : Z := (unix_days y m + (d - 1)) * 86400 + h * 3600 + mi * 60 + s.

(** The clock's byte for a number. *)
Definition bcd (n : Z) : Z := n / 10 * 16 + n mod 10.
(** A clock that stands at a date of the given year. *)
Definition showing (y m d h mi s : Z) (_ : nat) (index : Z) : Z :=
  bcd (if index =? RTC_REG_SEC then s else if index =? RTC_REG_MIN then mi else if index =? RTC_REG_HOUR then h
       else if index =? RTC_REG_MDAY then d else if index =? RTC_REG_MON then m else y mod 100).

Lemma bcd_round_trip n : 0 ≤ n < 100 → bcd_to_bin (bcd n) = n.
Proof.
  intros Hn. assert (Forall (λ n, bcd_to_bin (bcd n) = n) (seqZ 0 100)) as Hall by (apply (bool_decide_unpack _); vm_compute; exact I).
  eapply Forall_forall in Hall; [done|]. apply elem_of_seqZ. lia.
Qed.

(** What the code counts for a year and a month, and what it should. *)
Definition code_days (y m : Z) : Z :=
  (y - 1970) * 365 + Z.quot (y - 1970 - 1) 4 + zsum (map (λ i, nth (Z.to_nat (i - 1)) days_per_month 0) (seqZ 1 m)) +
  (if (2 <? m) && (Z.rem (y - 1970) 4 =? 0) then 1 else 0).

Definition all_months : list (Z * Z) := y ← seqZ 1970 68; m ← seqZ 1 12; [(y, m)].

Lemma in_months y m : 1970 ≤ y ≤ 2037 → 1 ≤ m ≤ 12 → (y, m) ∈ all_months.
Proof.
  intros Hy Hm. unfold all_months. apply list_elem_of_bind. exists y. split; [|apply elem_of_seqZ; lia].
  apply list_elem_of_bind. exists m. split; [set_solver|apply elem_of_seqZ; lia].
Qed.

Lemma code_days_ahead y m : 1970 ≤ y ≤ 2037 → 1 ≤ m ≤ 12 → 27 ≤ code_days y m - unix_days y m ≤ 32.
Proof.
  intros Hy Hm. assert (Forall (λ '(y, m), 27 ≤ code_days y m - unix_days y m ≤ 32) all_months) as Hall
    by (apply (bool_decide_unpack _); vm_compute; exact I).
  by eapply Forall_forall in Hall; [|by apply in_months].
Qed.

Lemma u32_add a b : u32 (u32 a + b) = u32 (a + b).
Proof. unfold u32. by rewrite Zplus_mod_idemp_l. Qed.

Lemma month_loop_spec n i time :
  1 ≤ i → i + Z.of_nat n ≤ 13 → month_loop n i (u32 time) = Ok (u32 (time + zsum (map (λ i, nth (Z.to_nat (i - 1)) days_per_month 0) (seqZ i (Z.of_nat n))) * 86400)).
Proof.
  revert i time. induction n as [|n IH]; intros i time Hi Hn; cbn [month_loop]; [f_equal; f_equal; simpl; lia|].
  destruct (lookup_lt_is_Some_2 days_per_month (Z.to_nat (i - 1))) as [d Hd]; [simpl; lia|]. rewrite Hd. cbn [deref mbind res_bind].
  rewrite u32_add, IH by lia. rewrite (seqZ_cons i) by lia. cbn [map]. unfold zsum. cbn [foldr].
  rewrite (nth_lookup_Some _ _ 0 _ Hd). replace (Z.pred (Z.of_nat (S n))) with (Z.of_nat n) by lia. replace (Z.succ i) with (i + 1) by lia.
  do 2 f_equal. lia.
Qed.

Lemma seconds_spec y m d h mi s :
  1970 ≤ y ≤ 2037 → 1 ≤ m ≤ 12 →
  seconds (mk_parts s mi h d m (y mod 100)) = Ok (u32 ((code_days y m + (d - 1)) * 86400 + h * 3600 + mi * 60 + s)).
Proof.
  intros Hy Hm. unfold seconds. cbn [year mon mday hour min sec].
  replace ((if y mod 100 <? 70 then y mod 100 + 100 else y mod 100) - 70) with (y - 1970).
  2:{ destruct (Z.ltb_spec (y mod 100) 70); dlia. }
  rewrite i32_small. 2:{ unfold in_i32. assert (-1 ≤ Z.quot (y - 1970 - 1) 4 ≤ 17); [|lia].
    split; [apply Z.quot_le_lower_bound|apply Z.quot_le_upper_bound]; lia. }
  rewrite month_loop_spec by lia. rewrite Z2Nat.id by lia. cbn [mbind res_bind]. unfold code_days.
  generalize (Z.quot (y - 1970 - 1) 4) (zsum (map (λ i, nth (Z.to_nat (i - 1)) days_per_month 0) (seqZ 1 m))). intros Q S.
  destruct ((2 <? m) && (Z.rem (y - 1970) 4 =? 0)); repeat first [rewrite u32_add|rewrite <- Z.add_assoc]; do 2 f_equal; lia.
Qed.

Lemma parts_shown fuel y m d h mi s :
  0 ≤ m < 100 → 0 ≤ d < 100 → 0 ≤ h < 100 → 0 ≤ mi < 100 → 0 ≤ s < 100 →
  read_parts (S fuel) (showing y m d h mi s) 0 = Ok (mk_parts s mi h d m (y mod 100)).
Proof.
  intros. cbn [read_parts]. unfold showing. cbn [RTC_REG_SEC RTC_REG_MIN RTC_REG_HOUR RTC_REG_MDAY RTC_REG_MON RTC_REG_YEAR Z.eqb Pos.eqb].
  rewrite !bcd_round_trip by (lia || apply Z.mod_pos_bound; lia). by rewrite Z.eqb_refl.
Qed.

(** [rtc_get_time] is about a month ahead: for every second from 1970 to
    2037 that the clock shows, it returns the Unix time plus a whole number of
    days, at least 27 and at most 32, because it adds the days of the current
    month as well and counts leap years from 1970. *)
Lemma rtc_ahead fuel y m d h mi s :
  1970 ≤ y ≤ 2037 → 1 ≤ m ≤ 12 → 1 ≤ d ≤ month_days y m → 0 ≤ h < 24 → 0 ≤ mi < 60 → 0 ≤ s < 60 →
  ∃ k, rtc_get_time (S fuel) (showing y m d h mi s) = Ok (unix_time y m d h mi s + k * 86400) ∧ 27 ≤ k ≤ 32.
Proof.
  intros Hy Hm Hd Hh Hmi Hs. pose proof (code_days_ahead y m Hy Hm) as Hk. exists (code_days y m - unix_days y m). split; [|done].
  assert (d ≤ 31) as Hd31.
  { unfold month_days in Hd. case_match; [lia|]. assert (Forall (λ x, x ≤ 31) (0 :: days_per_month)) as Hall by (apply (bool_decide_unpack _); vm_compute; exact I).
    destruct (nth_in_or_default (Z.to_nat (m - 1)) days_per_month 0) as [Hin|Heq]; [|lia]. apply list_elem_of_In in Hin.
    assert (nth (Z.to_nat (m - 1)) days_per_month 0 ≤ 31); [|lia]. eapply Forall_forall in Hall; [done|]. by right. }
  unfold rtc_get_time. rewrite parts_shown by lia. cbn [mbind res_bind]. rewrite seconds_spec by done. f_equal. unfold unix_time.
  assert (0 ≤ code_days y m ≤ 25000).
  { assert (Forall (λ '(y, m), 0 ≤ code_days y m ≤ 25000) all_months) as Hall by (apply (bool_decide_unpack _); vm_compute; exact I).
    eapply Forall_forall in Hall; [|by apply in_months]. done. }
  rewrite u32_small by (unfold in_u32; lia). lia.
Qed.

End Rtc.
