(* ===== verification/Vga.v ===== *)
(** * devices/vga.c: the text display

    The frame buffer is 25 rows of 80 cells of two bytes, character and
    attribute.  The display's controller keeps the cursor in two registers that
    are written and read through an index port.  [vga_putc] runs with
    interrupts off; the speaker's beep does not touch the display. *)

From S2P Require Import Prelude.

Module Vga.

Definition COL_CNT : Z := 80.
Definition ROW_CNT : Z := 25.
Definition GRAY_ON_BLACK : Z := 7.

(** The controller: the selected register, and registers 14 and 15. *)
Record crt := mk_crt { index : Z; cursor_hi : Z; cursor_lo : Z }.
Record vga := mk_vga { inited : bool; cx : Z; cy : Z; fb : list Z; regs : crt }.
Abbreviation vM := (stM vga).

Definition set_cursor (x y : Z) : vM unit := smod (λ s, mk_vga (inited s) x y (fb s) (regs s)).
Definition set_fb (f : list Z) : vM unit := smod (λ s, mk_vga (inited s) (cx s) (cy s) f (regs s)).
Definition set_regs (f : crt → crt) : vM unit := smod (λ s, mk_vga (inited s) (cx s) (cy s) (fb s) (f (regs s))).

(** [outb (0x3d4, i)], [inb (0x3d5)] and [outw (0x3d4, v)], which selects a
    register by its low byte and writes the high byte to it. *)
Definition select (i : Z) : vM unit := set_regs (λ r, mk_crt (u8 i) (cursor_hi r) (cursor_lo r)).
Definition read_reg : vM Z := s ← sget;
  mret (if index (regs s) =? 14 then cursor_hi (regs s) else if index (regs s) =? 15 then cursor_lo (regs s) else 0).
Definition outw (v : Z) : vM unit := set_regs (λ r,
  let i := u8 v in let b := u8 (Z.shiftr v 8) in
  mk_crt i (if i =? 14 then b else cursor_hi r) (if i =? 15 then b else cursor_lo r)).

Definition find_cursor : vM (Z * Z) :=
  select 14;; hi ← read_reg; select 15;; lo ← read_reg;
  let cp := Z.lor (u16 (Z.shiftl hi 8)) lo in
  mret (cp mod COL_CNT, cp / COL_CNT).
Definition move_cursor : vM unit :=
  s ← sget;
  let cp := u16 (cx s + COL_CNT * cy s) in
  outw (Z.lor 14 (Z.land cp 65280));; outw (u16 (Z.lor 15 (Z.shiftl cp 8))).

Definition init : vM unit :=
  s ← sget;
  if inited s then mret tt
  else '(x, y) ← find_cursor; smod (λ s, mk_vga true x y (fb s) (regs s)).

(** [fb[y][x][0] = c; fb[y][x][1] = GRAY_ON_BLACK;] *)
Definition put_cell (y x c : Z) : vM unit :=
  s ← sget;
  let a := Z.to_nat (2 * (COL_CNT * y + x)) in
  if (0 <=? y) && (0 <=? x) && (Nat.ltb (S a) (length (fb s))) then set_fb (splice a [u8 c; GRAY_ON_BLACK] (fb s)) else serr EFault.

Fixpoint clear_loop (n : nat) (y x : Z) : vM unit :=
  match n with O => mret tt | S n => put_cell y x 32;; clear_loop n y (x + 1) end.
Definition clear_row (y : Z) : vM unit := clear_loop (Z.to_nat COL_CNT) y 0.

Fixpoint clear_rows (n : nat) (y : Z) : vM unit :=
  match n with O => mret tt | S n => clear_row y;; clear_rows n (y + 1) end.
Definition cls : vM unit := clear_rows (Z.to_nat ROW_CNT) 0;; set_cursor 0 0;; move_cursor.

(** [memmove] copies the rows as they were. *)
Definition ROW_BYTES : nat := 160.
Definition scroll : vM unit :=
  s ← sget;
  if Nat.leb (25 * ROW_BYTES) (length (fb s)) then set_fb (splice 0 (slice ROW_BYTES (24 * ROW_BYTES) (fb s)) (fb s)) else serr EFault.
Definition newline : vM unit :=
  s ← sget; set_cursor 0 (cy s + 1);;
  s ← sget;
  if ROW_CNT <=? cy s then set_cursor 0 (ROW_CNT - 1);; scroll;; clear_row (ROW_CNT - 1) else mret tt.

Definition vga_putc (c : Z) : vM unit :=
  init;;
  s ← sget;
  (if c =? 10 then newline
   else if c =? 12 then cls
   else if c =? 8 then (if 0 <? cx s then set_cursor (cx s - 1) (cy s) else mret tt)
   else if c =? 13 then set_cursor 0 (cy s)
   else if c =? 9 then
     set_cursor (ROUND_UP (cx s + 1) 8) (cy s);;
     s ← sget; (if COL_CNT <=? cx s then newline else mret tt)
   else if c =? 7 then mret tt
   else
     put_cell (cy s) (cx s) c;;
     set_cursor (cx s + 1) (cy s);;
     s ← sget; (if COL_CNT <=? cx s then newline else mret tt));;
  move_cursor.

Fixpoint write (l : list Z) : vM unit :=
  match l with [] => mret tt | c :: l => vga_putc c;; write l end.

End Vga.
