(* ===== verification/VgaSpec.v ===== *)
(** * The display shows the end of an endless sheet

    The abstract terminal writes on a sheet of paper with as many rows as are
    needed, and never loses one; the display is refined by its last 25 rows. *)

From S2P Require Import Prelude Vga.
Import Vga.

(** ** The sheet *)

(** A row is 80 cells of two bytes. *)
Definition blank : list Z := concat (replicate 80 [32; 7]).
Record sheet := mk_sheet { rows : list (list Z); px : nat; py : nat }.

Definition feed (s : sheet) : sheet :=
  mk_sheet (if decide (S (py s) = length (rows s)) then rows s ++ [blank] else rows s) 0 (S (py s)).
Definition ink (c : Z) (s : sheet) : sheet :=
  mk_sheet (alter (splice (px s * 2) [u8 c; 7]) (py s) (rows s)) (px s) (py s).
Definition move (x : nat) (s : sheet) : sheet := if decide (80 ≤ x)%nat then feed s else mk_sheet (rows s) x (py s).

Definition type (c : Z) (s : sheet) : sheet :=
  if c =? 10 then feed s
  else if c =? 12 then mk_sheet (replicate 25 blank) 0 0
  else if c =? 8 then move (px s - 1) s
  else if c =? 13 then move 0 s
  else if c =? 9 then move (8 * (px s / 8 + 1)) s
  else if c =? 7 then s
  else move (S (px s)) (ink c s).
Definition type_all (l : list Z) (s : sheet) : sheet := fold_left (λ s c, type c s) l s.

(** ** The display refines it *)

Record sheet_ok (s : sheet) : Prop := {
  so_rows : Forall (λ r, length r = ROW_BYTES) (rows s); so_len : (25 ≤ length (rows s))%nat;
  so_x : (px s < 80)%nat; so_y : (length (rows s) - 25 ≤ py s < length (rows s))%nat }.

(** The last 25 rows. *)
Definition window (l : list (list Z)) : list (list Z) := drop (length l - 25) l.

Record shows (v : vga) (s : sheet) : Prop := {
  sh_init : inited v = true; sh_x : cx v = Z.of_nat (px s); sh_y : cy v = Z.of_nat (py s - (length (rows s) - 25));
  sh_fb : fb v = concat (window (rows s)) }.

(** The hardware's cursor is where the next character goes. *)
Definition cursor_shown (v : vga) : Prop := cursor_hi (regs v) * 256 + cursor_lo (regs v) = cx v + 80 * cy v.

Section cells.
Implicit Types (v : vga) (rs : list (list Z)).
Definition rows_ok rs : Prop := Forall (λ r, length r = ROW_BYTES) rs.
Definition with_rows v rs : vga := mk_vga (inited v) (cx v) (cy v) (concat rs) (regs v).

Lemma put_cell_run v rs (y x : nat) c r :
  fb v = concat rs → rows_ok rs → rs !! y = Some r → (x < 80)%nat →
  put_cell (Z.of_nat y) (Z.of_nat x) c v = Ok (tt, with_rows v (<[y := splice (x * 2) [u8 c; 7] r]> rs)).
Proof.
  intros Hfb Hrs Hy Hx. unfold put_cell. rewrite stM_bind_eq. cbn [sget].
  replace (Z.to_nat (2 * (COL_CNT * Z.of_nat y + Z.of_nat x))) with (y * ROW_BYTES + x * 2)%nat by (unfold COL_CNT, ROW_BYTES; lia).
  rewrite Hfb, (length_concat_blocks ROW_BYTES rs Hrs). apply lookup_lt_Some in Hy as Hlt.
  rewrite (proj2 (Z.leb_le 0 (Z.of_nat y))), (proj2 (Z.leb_le 0 (Z.of_nat x))) by lia. cbn [andb].
  rewrite (proj2 (Nat.ltb_lt _ _)) by (unfold ROW_BYTES; nia). unfold with_rows, set_fb. cbn [smod].
  rewrite (splice_concat ROW_BYTES rs y r (x * 2) [u8 c; GRAY_ON_BLACK] Hrs Hy) by (unfold ROW_BYTES; simpl; lia). done.
Qed.

Lemma rows_insert rs y r : rows_ok rs → length r = ROW_BYTES → rows_ok (<[y := r]> rs).
Proof. intros. by apply Forall_insert. Qed.

Lemma with_rows_twice v rs rs' : with_rows (with_rows v rs) rs' = with_rows v rs'.
Proof. done. Qed.

Lemma clear_loop_run n v rs (y x : nat) r :
  fb v = concat rs → rows_ok rs → rs !! y = Some r → (x + n = 80)%nat →
  clear_loop n (Z.of_nat y) (Z.of_nat x) v = Ok (tt, with_rows v (<[y := take (x * 2) r ++ concat (replicate n [32; 7])]> rs)).
Proof.
  revert v rs x r. induction n as [|n IH]; intros v rs x r Hfb Hrs Hy Hx; cbn [clear_loop].
  - assert (length r = ROW_BYTES) by by eapply Forall_lookup_1 in Hrs. cbn [replicate concat]. unfold ROW_BYTES in *.
    rewrite take_ge, app_nil_r, list_insert_id by (done || lia). destruct v. unfold with_rows. cbn in *. by rewrite Hfb.
  - assert (length r = ROW_BYTES) as Hr by by eapply Forall_lookup_1 in Hrs. apply lookup_lt_Some in Hy as Hlt.
    rewrite stM_bind_eq, (put_cell_run v rs y x 32 r) by (done || lia). change (u8 32) with 32. replace (Z.of_nat x + 1) with (Z.of_nat (S x)) by lia.
    set (r1 := splice (x * 2) [32; 7] r). assert (length r1 = ROW_BYTES) by (unfold r1; rewrite length_splice; unfold ROW_BYTES in *; simpl; lia).
    rewrite (IH _ (<[y := r1]> rs) (S x) r1); [|done|by apply rows_insert|by apply list_lookup_insert_eq|lia].
    rewrite list_insert_insert_eq, with_rows_twice. enough (take (S x * 2) r1 = take (x * 2) r ++ [32; 7]) as -> by (by rewrite <- app_assoc).
    replace (S x * 2)%nat with (x * 2 + 2)%nat by lia. unfold r1, splice. rewrite app_assoc.
    rewrite take_app_le by (rewrite length_app, length_take; unfold ROW_BYTES in Hr; simpl; lia).
    by rewrite take_ge by (rewrite length_app, length_take; unfold ROW_BYTES in Hr; simpl; lia).
Qed.

Lemma clear_row_run v rs (y : nat) :
  fb v = concat rs → rows_ok rs → (y < length rs)%nat → clear_row (Z.of_nat y) v = Ok (tt, with_rows v (<[y := blank]> rs)).
Proof.
  intros Hfb Hrs Hy. destruct (lookup_lt_is_Some_2 rs y Hy) as [r Hr]. apply (clear_loop_run 80 v rs y 0 r); done.
Qed.

Lemma blank_length : length blank = ROW_BYTES.
Proof. done. Qed.

Lemma clear_rows_run n v rs (y : nat) :
  fb v = concat rs → rows_ok rs → (y + n = length rs)%nat →
  clear_rows n (Z.of_nat y) v = Ok (tt, with_rows v (take y rs ++ replicate n blank)).
Proof.
  revert v rs y. induction n as [|n IH]; intros v rs y Hfb Hrs Hy; cbn [clear_rows].
  - cbn [replicate]. rewrite app_nil_r, take_ge by lia. destruct v. unfold with_rows. cbn in *. by rewrite Hfb.
  - rewrite stM_bind_eq, (clear_row_run v rs y) by (done || lia). replace (Z.of_nat y + 1) with (Z.of_nat (S y)) by lia.
    rewrite (IH _ (<[y := blank]> rs)); [|done|by apply rows_insert|rewrite length_insert; lia].
    rewrite with_rows_twice. do 3 f_equal. rewrite (take_S_r _ _ blank) by (apply list_lookup_insert_eq; lia).
    rewrite take_insert_ge by lia. by rewrite <- app_assoc.
Qed.

Lemma scroll_rows r l r' :
  rows_ok (r :: l ++ [r']) → length (l ++ [r']) = 24%nat →
  splice 0 (slice ROW_BYTES (24 * ROW_BYTES) (concat (r :: l ++ [r']))) (concat (r :: l ++ [r'])) = concat ((l ++ [r']) ++ [r']).
Proof.
  intros [Hr Hrs']%Forall_cons Hl. pose proof (length_concat_blocks ROW_BYTES _ Hrs') as Hlc. rewrite Hl in Hlc. cbn [concat].
  unfold slice. rewrite drop_app_length' by done. rewrite take_ge by lia. unfold splice. rewrite Nat.add_0_l, Hlc, take_0, app_nil_l.
  apply Forall_app in Hrs' as [Hl' [Hr' _]%Forall_cons]. pose proof (length_concat_blocks ROW_BYTES _ Hl') as Hcl.
  rewrite length_app in Hl. simpl in Hl. rewrite !concat_app. cbn [concat]. rewrite !app_nil_r. f_equal. rewrite app_assoc.
  apply drop_app_length'. rewrite length_app, Hr, Hcl. unfold ROW_BYTES. lia.
Qed.

Lemma scroll_run v r l r' :
  fb v = concat (r :: l ++ [r']) → rows_ok (r :: l ++ [r']) → length (l ++ [r']) = 24%nat →
  scroll v = Ok (tt, with_rows v ((l ++ [r']) ++ [r'])).
Proof.
  intros Hfb Hrs Hl. unfold scroll. rewrite stM_bind_eq. cbn [sget].
  rewrite Hfb, (length_concat_blocks ROW_BYTES _ Hrs). cbn [length]. rewrite Hl, (proj2 (Nat.leb_le _ _)) by (unfold ROW_BYTES; lia).
  by rewrite (scroll_rows r l r' Hrs Hl).
Qed.
End cells.

Section refine.
Implicit Types (v : vga) (s : sheet).

Lemma window_length l : (25 ≤ length l)%nat → length (window l) = 25%nat.
Proof. intros. unfold window. rewrite length_drop. lia. Qed.
Lemma window_ok l : Forall (λ r, length r = ROW_BYTES) l → rows_ok (window l).
Proof. apply Forall_drop. Qed.
Lemma window_snoc l r : (25 ≤ length l)%nat → window (l ++ [r]) = drop 1 (window l) ++ [r].
Proof.
  intros Hl. unfold window. rewrite length_app. simpl. rewrite drop_drop, drop_app_le by lia.
  by replace (length l + 1 - 25)%nat with (length l - 25 + 1)%nat by lia.
Qed.
Lemma window_alter (f : list Z → list Z) l y : (25 ≤ length l)%nat → (length l - 25 ≤ y < length l)%nat → window (alter f y l) = alter f (y - (length l - 25))%nat (window l).
Proof.
  intros Hl Hy. unfold window. rewrite length_alter. apply list_eq. intros i. rewrite lookup_drop. destruct (decide (i = y - (length l - 25))%nat) as [->|].
  - replace (length l - 25 + (y - (length l - 25)))%nat with y by lia. rewrite !list_lookup_alter_eq. rewrite lookup_drop. do 2 f_equal. lia.
  - rewrite !list_lookup_alter_ne by lia. by rewrite lookup_drop.
Qed.

Lemma list_alter_Some (f : list Z → list Z) (l : list (list Z)) i x : l !! i = Some x → alter f i l = <[i := f x]> l.
Proof.
  intros Hi. apply list_eq. intros j. destruct (decide (j = i)) as [->|].
  - rewrite list_lookup_alter_eq, Hi, list_lookup_insert_eq; [done|]. by eapply lookup_lt_Some.
  - by rewrite list_lookup_alter_ne, list_lookup_insert_ne.
Qed.

(** Up to the column. *)
Record shows_rows v s : Prop := {
  sr_init : inited v = true; sr_y : cy v = Z.of_nat (py s - (length (rows s) - 25)); sr_fb : fb v = concat (window (rows s));
  sr_rows : Forall (λ r, length r = ROW_BYTES) (rows s); sr_len : (25 ≤ length (rows s))%nat;
  sr_py : (length (rows s) - 25 ≤ py s < length (rows s))%nat }.
Definition refines v s : Prop := shows v s ∧ sheet_ok s.

Lemma refines_rows v s : refines v s ↔ shows_rows v s ∧ cx v = Z.of_nat (px s) ∧ (px s < 80)%nat.
Proof. split; [intros [[] []]; split; [by split|done]|intros ([] & ? & ?); split; by split]. Qed.

Lemma newline_run v s : shows_rows v s → ∃ v', newline v = Ok (tt, v') ∧ refines v' (feed s).
Proof.
  intros [Hi Hy Hfb Hr Hl Hpy]. unfold newline. rewrite stM_bind_eq. cbn [sget]. rewrite stM_bind_eq. cbn [set_cursor smod]. rewrite stM_bind_eq. cbn [sget cy].
  unfold ROW_CNT. destruct (Z.leb_spec 25 (cy v + 1)).
  - assert (S (py s) = length (rows s)) as Hend by lia. unfold feed. rewrite decide_True by done. rewrite stM_bind_eq. cbn [set_cursor smod]. rewrite stM_bind_eq.
    pose proof (window_length _ Hl) as Hwl. pose proof (window_ok _ Hr) as Hwo.
    destruct (window (rows s)) as [|r w] eqn:Ew; [done|]. destruct (exists_last (l := w)) as (l & r' & ->); [by intros ->|]. injection Hwl as Hwl.
    set (v1 := mk_vga _ _ _ _ _). rewrite (scroll_run v1 r l r' Hfb Hwo Hwl).
    change (25 - 1) with (Z.of_nat 24). rewrite (clear_row_run _ ((l ++ [r']) ++ [r']) 24); [|done| |rewrite length_app, Hwl; simpl; lia].
    2:{ apply Forall_cons in Hwo as [_ Hwo]. apply Forall_app. split; [done|]. apply Forall_app in Hwo as [_ Hwo]. done. }
    rewrite insert_app_r_alt by lia. rewrite Hwl. cbn [Nat.sub list_insert insert]. eexists. split; [done|].
    apply refines_rows. cbn [rows px py]. split; [|by split; [|lia]]. rewrite with_rows_twice.
    assert (rows_ok (rows s ++ [blank])) by (apply Forall_app; split; [done|constructor; [done|constructor]]).
    split; cbn [rows px py with_rows inited cx cy fb v1]; [done|rewrite length_app; simpl; lia| |done|rewrite length_app; simpl; lia..].
    rewrite window_snoc, Ew by done. done.
  - eexists. split; [done|]. unfold feed. rewrite decide_False by lia. apply refines_rows. cbn [rows px py].
    split; [|by split; [|lia]]. split; cbn [rows px py inited cx cy fb]; try done; lia.
Qed.

Lemma cls_rows v s : shows_rows v s → clear_rows 25 0 v = Ok (tt, with_rows v (replicate 25 blank)).
Proof.
  intros [Hi Hy Hfb Hr Hl Hpy]. apply (clear_rows_run 25 v (window (rows s)) 0 Hfb (window_ok _ Hr)). by rewrite window_length.
Qed.

(** Going on at column [x], or on the next line. *)
Lemma move_run v s (x : nat) :
  shows_rows v s → cx v = Z.of_nat x →
  ∃ v', (s ← sget; if COL_CNT <=? cx s then newline else mret tt) v = Ok (tt, v') ∧ refines v' (move x s).
Proof.
  intros Hs Hx. rewrite stM_bind_eq. cbn [sget]. rewrite Hx. unfold move, COL_CNT. destruct (Z.leb_spec 80 (Z.of_nat x)).
  - rewrite decide_True by lia. by apply newline_run.
  - rewrite decide_False by lia. exists v. split; [done|]. apply refines_rows. cbn [rows px py]. split; [by destruct Hs|]. split; [done|lia].
Qed.

Lemma cursor_rows v s x : shows_rows v s → shows_rows (mk_vga (inited v) x (cy v) (fb v) (regs v)) s.
Proof. intros []. by split. Qed.
Lemma move_within v s (x : nat) :
  shows_rows v s → (x < 80)%nat → refines (mk_vga (inited v) (Z.of_nat x) (cy v) (fb v) (regs v)) (move x s).
Proof.
  intros Hs Hx. unfold move. rewrite decide_False by lia. apply refines_rows. cbn [px rows py]. split; [destruct Hs; by split|done].
Qed.

Lemma ink_run v s c :
  refines v s → ∃ v', put_cell (cy v) (cx v) c v = Ok (tt, v') ∧ shows_rows v' (ink c s) ∧ cx v' = cx v ∧ cy v' = cy v.
Proof.
  intros [[Hi Hy Hfb Hr Hl Hpy] [Hx Hpx]]%refines_rows. rewrite Hy, Hx. pose proof (window_length _ Hl) as Hwl.
  destruct (lookup_lt_is_Some_2 (window (rows s)) (py s - (length (rows s) - 25))%nat) as [r Hrow]; [lia|].
  rewrite (put_cell_run v _ _ _ c r Hfb (window_ok _ Hr) Hrow Hpx). eexists. split; [done|]. cbn [with_rows cx cy]. split_and!; [|by rewrite Hx|by rewrite Hy].
  assert (length r = ROW_BYTES) as Hrl by (pose proof (window_ok _ Hr) as Hwo; by eapply Forall_lookup_1 in Hwo).
  split; cbn [ink rows px py with_rows inited cx cy fb]; [done|by rewrite length_alter| | |by rewrite length_alter..].
  - rewrite window_alter by done. f_equal. by rewrite (list_alter_Some _ _ _ _ Hrow).
  - apply Forall_alter; [done|]. intros r0 _ Hr0. rewrite length_splice; [done|]. unfold ROW_BYTES in *. simpl. lia.
Qed.

(** ** The cursor's registers *)

Definition cursor_check (cp : Z) : bool :=
  let v1 := Z.lor 14 (Z.land cp 65280) in let v2 := u16 (Z.lor 15 (Z.shiftl cp 8)) in
  (u8 v1 =? 14) && (u8 v2 =? 15) && (u8 (Z.shiftr v1 8) * 256 + u8 (Z.shiftr v2 8) =? cp).
Lemma cursor_checked cp : 0 ≤ cp < 2000 → cursor_check cp = true.
Proof.
  intros Hc. assert (forallb cursor_check (seqZ 0 2000) = true) as Hall by (vm_compute; reflexivity).
  rewrite forallb_forall in Hall. apply Hall, list_elem_of_In, elem_of_seqZ. lia.
Qed.

Lemma move_cursor_run v s :
  refines v s → ∃ v', move_cursor v = Ok (tt, v') ∧ refines v' s ∧ cursor_shown v'.
Proof.
  intros Hs. pose proof Hs as [[Hi Hy Hfb Hr Hl Hpy] [Hx Hpx]]%refines_rows. unfold move_cursor. rewrite stM_bind_eq. cbn [sget].
  assert (0 ≤ cx v + COL_CNT * cy v < 2000) as Hcp by (unfold COL_CNT; lia).
  assert (u16 (cx v + COL_CNT * cy v) = cx v + COL_CNT * cy v) as -> by (unfold u16; apply Z.mod_small; lia).
  pose proof (cursor_checked _ Hcp) as Hck. unfold cursor_check in Hck. cbn zeta in Hck.
  apply andb_true_iff in Hck as [[H1%Z.eqb_eq H2%Z.eqb_eq]%andb_true_iff H3%Z.eqb_eq].
  rewrite stM_bind_eq. unfold outw at 1, set_regs. cbn [smod]. unfold outw, set_regs. cbn [smod regs]. eexists. split; [done|].
  split; [destruct Hs as [[] Hok]; split; [by split|exact Hok]|]. unfold cursor_shown. cbn [regs cursor_hi cursor_lo cx cy].
  rewrite H1, H2. exact H3.
Qed.

Lemma refines_shows v s : refines v s → shows_rows v s.
Proof. by intros [? _]%refines_rows. Qed.
#[local] Hint Resolve refines_shows : core.

(** ** Characters *)

Lemma putc_body v s c :
  refines v s → ∃ v',
    (if c =? 10 then newline else if c =? 12 then cls
     else if c =? 8 then (if 0 <? cx v then set_cursor (cx v - 1) (cy v) else mret tt)
     else if c =? 13 then set_cursor 0 (cy v)
     else if c =? 9 then set_cursor (ROUND_UP (cx v + 1) 8) (cy v);; s ← sget; (if COL_CNT <=? cx s then newline else mret tt)
     else if c =? 7 then mret tt
     else put_cell (cy v) (cx v) c;; set_cursor (cx v + 1) (cy v);; s ← sget; (if COL_CNT <=? cx s then newline else mret tt)) v = Ok (tt, v') ∧
    refines v' (type c s).
Proof.
  intros Hs. pose proof (refines_shows _ _ Hs) as Hsr. pose proof Hs as [_ [Hx Hpx]]%refines_rows. unfold type.
  destruct (c =? 10); [by apply newline_run|]. destruct (c =? 12).
  { unfold cls. rewrite stM_bind_eq. change (Z.to_nat ROW_CNT) with 25%nat. rewrite (cls_rows v s Hsr), stM_bind_eq. cbn [set_cursor smod].
    match goal with |- context [move_cursor ?w] => destruct (move_cursor_run w (mk_sheet (replicate 25 blank) 0 0)) as (v' & H1 & H2 & _) end; [|by exists v'].
    apply refines_rows. cbn [rows px py]. split; [|by split; [|lia]]. split; cbn [rows px py inited cx cy fb with_rows]; [apply Hsr|by rewrite length_replicate|done| |by rewrite length_replicate|rewrite length_replicate; lia].
    apply Forall_replicate. apply blank_length. }
  destruct (c =? 8).
  { destruct (Z.ltb_spec 0 (cx v)).
    - eexists. split; [done|]. replace (cx v - 1) with (Z.of_nat (px s - 1)) by lia. apply move_within; [done|lia].
    - exists v. split; [done|]. assert (px s = 0%nat) as Hp0 by lia. rewrite Hp0. pose proof (move_within v s 0 Hsr) as Hm.
      change (Z.of_nat 0) with 0 in Hm. replace 0 with (cx v) in Hm at 1 by lia. destruct v. apply Hm. lia. }
  destruct (c =? 13). { eexists. split; [done|]. apply (move_within v s 0 Hsr). lia. }
  destruct (c =? 9).
  { rewrite stM_bind_eq. cbn [set_cursor smod]. apply move_run; [by apply cursor_rows|]. cbn [cx]. unfold ROUND_UP. rewrite Hx, Nat2Z.inj_mul, Nat2Z.inj_add, Nat2Z.inj_div. change (Z.of_nat 8) with 8. change (Z.of_nat 1) with 1. dlia. }
  destruct (c =? 7); [by exists v|].
  destruct (ink_run v s c Hs) as (v1 & H1 & Hs1 & Hx1 & Hy1). rewrite stM_bind_eq, H1, stM_bind_eq. cbn [set_cursor smod].
  apply move_run; [rewrite <- Hy1; by apply cursor_rows|]. cbn [cx]. lia.
Qed.

Lemma vga_putc_run v s c : refines v s → ∃ v', vga_putc c v = Ok (tt, v') ∧ refines v' (type c s) ∧ cursor_shown v'.
Proof.
  intros Hs. assert (init v = Ok (tt, v)) as Hi by (unfold init; rewrite stM_bind_eq; cbn [sget]; by rewrite (sr_init _ _ (refines_shows _ _ Hs))).
  unfold vga_putc. rewrite (stM_bind_run _ _ _ _ _ Hi), stM_bind_eq. cbn [sget].
  destruct (putc_body v s c Hs) as (v1 & H1 & Hs1). rewrite (stM_bind_run _ _ _ _ _ H1). by apply move_cursor_run.
Qed.

Lemma vga_write_run l v s : refines v s → cursor_shown v → ∃ v', write l v = Ok (tt, v') ∧ refines v' (type_all l s) ∧ cursor_shown v'.
Proof.
  revert v s. induction l as [|c l IH]; intros v s Hs Hc; cbn [write]; [by exists v|].
  destruct (vga_putc_run v s c Hs) as (v1 & H1 & Hs1 & Hc1). rewrite (stM_bind_run _ _ _ _ _ H1). by apply IH.
Qed.
End refine.

(** ** From power-up *)

(** What is on the display before the first character: its rows, and the
    cursor of the controller. *)
Definition sheet_of (v : vga) : sheet :=
  let cp := Z.to_nat (cursor_hi (regs v) * 256 + cursor_lo (regs v)) in
  mk_sheet (map (λ i, slice (i * ROW_BYTES) ROW_BYTES (fb v)) (seq 0 25)) (cp mod 80) (cp / 80).

Lemma chunks n k j (l : list Z) : concat (map (λ i, slice (i * k) k l) (seq j n)) = slice (j * k) (n * k) l.
Proof.
  revert j. induction n as [|n IH]; intros j; [done|]. cbn [seq map concat]. rewrite IH. replace (S n * k)%nat with (k + n * k)%nat by lia.
  rewrite slice_add. do 2 f_equal. lia.
Qed.

Lemma lor_bytes hi lo : 0 ≤ lo < 256 → 0 ≤ hi < 256 → Z.lor (u16 (Z.shiftl hi 8)) lo = hi * 256 + lo.
Proof.
  intros Hlo Hhi. rewrite Z.shiftl_mul_pow2 by lia. change (2 ^ 8) with 256. unfold u16. rewrite Z.mod_small by lia.
  rewrite <- Z.add_lor_land. replace (Z.land (hi * 256) lo) with 0; [lia|]. symmetry. apply Z.bits_inj_0. intros n. rewrite Z.land_spec.
  destruct (Z.ltb_spec n 8).
  - change 256 with (2 ^ 8). destruct (Z.ltb_spec n 0); [by rewrite Z.testbit_neg_r|]. by rewrite Z.mul_pow2_bits_low.
  - rewrite (Z.bits_above_log2 lo n), andb_false_r; [done|lia|]. destruct (decide (lo = 0)) as [->|]; [simpl; lia|].
    apply Z.log2_lt_pow2; [lia|]. eapply Z.lt_le_trans; [apply Hlo|]. change 256 with (2 ^ 8). apply Z.pow_le_mono_r; lia.
Qed.

(** C22: The display is a window onto an endless sheet: whatever characters are
    written, from the first [vga_putc] after power-up on, with the controller's
    cursor on the screen, every access stays within the frame buffer, the
    display shows the last 25 rows of the sheet on which the same characters
    were typed, line wrapping, tabs, backspaces and form feeds included, and
    the hardware's cursor is where the next character goes. *)
Theorem vga_shows_sheet v c l :
  inited v = false → length (fb v) = (25 * ROW_BYTES)%nat → in_u8 (cursor_hi (regs v)) → in_u8 (cursor_lo (regs v)) →
  cursor_hi (regs v) * 256 + cursor_lo (regs v) < 2000 →
  ∃ v', write (c :: l) v = Ok (tt, v') ∧ refines v' (type_all (c :: l) (sheet_of v)) ∧ cursor_shown v'.
Proof.
  intros Hi Hfb Hhi Hlo Hcp. unfold in_u8 in *.
  set (cp := cursor_hi (regs v) * 256 + cursor_lo (regs v)) in *.
  set (v0 := mk_vga true (cp mod 80) (cp / 80) (fb v) (mk_crt 15 (cursor_hi (regs v)) (cursor_lo (regs v)))).
  assert (init v = Ok (tt, v0)) as Hinit.
  { unfold init. rewrite stM_bind_eq. cbn [sget]. rewrite Hi. rewrite stM_bind_eq. unfold find_cursor, select, set_regs, read_reg. rewrite !stM_bind_eq.
    cbn [smod regs]. rewrite !stM_bind_eq. cbn [sget mret stM_ret regs index cursor_hi cursor_lo]. change (u8 14) with 14. change (14 =? 14) with true. cbn iota.
    rewrite !stM_bind_eq. cbn [smod sget regs]. rewrite !stM_bind_eq. cbn [sget mret stM_ret regs index cursor_hi cursor_lo].
    change (u8 15) with 15. change (15 =? 14) with false. change (15 =? 15) with true. cbn iota. rewrite lor_bytes by done. reflexivity. }
  assert (refines v0 (sheet_of v)) as Hs.
  { assert (length (map (λ i, slice (i * ROW_BYTES) ROW_BYTES (fb v)) (seq 0 25)) = 25%nat) as Hlen by (by rewrite length_map, length_seq).
    apply refines_rows. unfold sheet_of. fold cp. cbn [px v0 cx]. split.
    - split; cbn [rows px py v0 inited cx cy fb]; [done| | | |rewrite Hlen; lia|].
      + rewrite Hlen, Nat.sub_diag, Nat.sub_0_r, Nat2Z.inj_div, Z2Nat.id by lia. done.
      + unfold window. rewrite Hlen, Nat.sub_diag, drop_0, chunks, slice_full; [done|lia].
      + apply Forall_forall. intros r (i & -> & Hi2)%list_elem_of_fmap. apply elem_of_seq in Hi2. apply length_slice. unfold ROW_BYTES in *. lia.
      + rewrite Hlen. split; [lia|]. apply Nat.Div0.div_lt_upper_bound. lia.
    - rewrite Nat2Z.inj_mod, Z2Nat.id by lia. split; [done|]. apply Nat.mod_upper_bound. lia. }
  destruct (vga_putc_run v0 (sheet_of v) c Hs) as (v1 & H1 & Hs1 & Hc1).
  assert (vga_putc c v = Ok (tt, v1)) as Hp.
  { revert H1. unfold vga_putc. rewrite (stM_bind_run _ _ _ _ _ Hinit). by rewrite (stM_bind_run init _ v0 tt v0). }
  cbn [write]. rewrite (stM_bind_run _ _ _ _ _ Hp). cbn [type_all fold_left]. by apply vga_write_run.
Qed.

(** A cleared screen, and 81 characters that wrap. *)
Definition sample_screen : vga := mk_vga false 0 0 (concat (replicate 25 blank)) (mk_crt 0 0 0).
Lemma vga_shows_sheet_witness :
  ∃ v', write (replicate 81 65) sample_screen = Ok (tt, v') ∧ refines v' (type_all (replicate 81 65) (sheet_of sample_screen)) ∧ cursor_shown v'.
Proof.
  apply (vga_shows_sheet sample_screen 65 (replicate 80 65)).
  - reflexivity.
  - vm_compute. reflexivity.
  - unfold in_u8. cbn. lia.
  - unfold in_u8. cbn. lia.
  - cbn. lia.
Defined.
