(* ===== verification/Random.v ===== *)
(** * lib/random.c

    The RC4 generator: its S-box, its two indices and the [inited] flag. *)

From S2P Require Import Prelude.

Module Random.

Record rng := mk_rng { s : list Z; s_i : Z; s_j : Z; inited : bool }.

Definition swap_byte (a b : Z) (l : list Z) : res (list Z) :=
  t ← deref (l !! Z.to_nat a);
  u ← deref (l !! Z.to_nat b);
  Ok (<[Z.to_nat b := t]> (<[Z.to_nat a := u]> l)).

(** The key-scheduling loop over [i = 256 - n .. 255]. *)
Fixpoint schedule (n : nat) (i j : Z) (seedp l : list Z) : res (list Z) :=
  match n with
  | O => Ok l
  | S n =>
      c ← deref (l !! Z.to_nat i);
      k ← deref (seedp !! Z.to_nat (i mod 4));
      let j := u8 (j + (c + k)) in
      l ← swap_byte i j l;
      schedule n (i + 1) j seedp l
  end.

Definition random_init (seed : Z) : res rng :=
  l ← schedule 256 0 0 (le_bytes 4 seed) (seqZ 0 256);
  Ok (mk_rng l 0 0 true).

(** One byte of output. *)
Definition next_byte (r : rng) : res (Z * rng) :=
  let i := u8 (s_i r + 1) in
  c ← deref (s r !! Z.to_nat i);
  let j := u8 (s_j r + c) in
  l ← swap_byte i j (s r);
  x ← deref (l !! Z.to_nat i);
  y ← deref (l !! Z.to_nat j);
  b ← deref (l !! Z.to_nat (u8 (x + y)));
  Ok (b, mk_rng l i j (inited r)).

Fixpoint gen_bytes (n : nat) (r : rng) : res (list Z * rng) :=
  match n with
  | O => Ok ([], r)
  | S n =>
      '(b, r) ← next_byte r;
      '(bs, r) ← gen_bytes n r;
      Ok (b :: bs, r)
  end.

Definition random_bytes (size : Z) : stM rng (list Z) := λ r,
  r ← (if inited r then Ok r else random_init 0);
  gen_bytes (Z.to_nat size) r.

Definition random_ulong : stM rng Z :=
  b ← random_bytes 4; mret (le_Z b).

(** ** The S-box stays a permutation *)

Definition sbox (l : list Z) : Prop := l ≡ₚ seqZ 0 256.
Definition rng_ok (r : rng) : Prop :=
  inited r = true → sbox (s r) ∧ in_u8 (s_i r) ∧ in_u8 (s_j r).

Lemma sbox_lookup l i : sbox l → in_u8 i → ∃ c, l !! Z.to_nat i = Some c ∧ in_u8 c.
Proof.
  unfold sbox. intros Hl [? ?]. pose proof (Permutation_length Hl) as Hn. rewrite length_seqZ in Hn.
  destruct (lookup_lt_is_Some_2 l (Z.to_nat i)) as [c Hc]; [lia|]. exists c. split; [done|].
  assert (c ∈ seqZ 0 256) as Hin by (rewrite <- Hl; by eapply list_elem_of_lookup_2).
  apply elem_of_seqZ in Hin. unfold in_u8. lia.
Qed.

Lemma swap_byte_ok a b l : sbox l → in_u8 a → in_u8 b → ∃ l', swap_byte a b l = Ok l' ∧ sbox l'.
Proof.
  intros Hl Ha Hb. destruct (sbox_lookup l a) as (x & Hx & _); [done..|].
  destruct (sbox_lookup l b) as (y & Hy & _); [done..|].
  unfold swap_byte. rewrite Hx, Hy. simpl. eexists. split; [done|]. unfold sbox in *.
  rewrite <- Hl. by apply Permutation_insert_swap.
Qed.

Lemma schedule_ok n i j seedp l :
  sbox l → length seedp = 4%nat → 0 ≤ i → i + Z.of_nat n ≤ 256 →
  ∃ l', schedule n i j seedp l = Ok l' ∧ sbox l'.
Proof.
  revert i j l. induction n as [|n IH]; intros i j l Hl Hs Hi Hn; cbn [schedule]; [eauto|].
  destruct (sbox_lookup l i) as (c & -> & _); [done|unfold in_u8; lia|].
  destruct (lookup_lt_is_Some_2 seedp (Z.to_nat (i mod 4))) as [k ->]; [dlia|]. cbn [deref mbind res_bind].
  destruct (swap_byte_ok i (u8 (j + (c + k))) l) as (l' & -> & Hl');
    [done|unfold in_u8; lia|apply u8_range|]. cbn [mbind res_bind]. apply IH; done || lia.
Qed.

Lemma random_init_ok seed : ∃ r, random_init seed = Ok r ∧ rng_ok r ∧ inited r = true.
Proof.
  unfold random_init. destruct (schedule_ok 256 0 0 (le_bytes 4 seed) (seqZ 0 256)) as (l & -> & Hl);
    [unfold sbox; reflexivity|apply length_le_bytes|lia..|].
  eexists. split; [done|]. split; [|done]. intros _. simpl. done.
Qed.

Lemma next_byte_ok r : rng_ok r → inited r = true →
  ∃ b r', next_byte r = Ok (b, r') ∧ in_u8 b ∧ rng_ok r' ∧ inited r' = true.
Proof.
  intros Hr Hi. destruct (Hr Hi) as (Hl & _ & _). unfold next_byte.
  destruct (sbox_lookup (s r) (u8 (s_i r + 1))) as (c & -> & _); [done|apply u8_range|].
  cbn [deref mbind res_bind].
  destruct (swap_byte_ok (u8 (s_i r + 1)) (u8 (s_j r + c)) (s r)) as (l' & -> & Hl');
    [done|apply u8_range..|]. cbn [mbind res_bind].
  destruct (sbox_lookup l' (u8 (s_i r + 1))) as (x & -> & _); [done|apply u8_range|].
  destruct (sbox_lookup l' (u8 (s_j r + c))) as (y & -> & _); [done|apply u8_range|].
  cbn [deref mbind res_bind].
  destruct (sbox_lookup l' (u8 (x + y))) as (b & -> & Hb); [done|apply u8_range|].
  eexists _, _. split; [done|]. split; [done|]. split; [|done]. intros _. simpl.
  split_and!; [done|apply u8_range..].
Qed.

Lemma gen_bytes_ok n r : rng_ok r → inited r = true →
  ∃ bs r', gen_bytes n r = Ok (bs, r') ∧ length bs = n ∧ Forall in_u8 bs ∧ rng_ok r' ∧ inited r' = true.
Proof.
  revert r. induction n as [|n IH]; intros r Hr Hi; cbn [gen_bytes]; [by exists [], r|].
  destruct (next_byte_ok r Hr Hi) as (b & r1 & -> & Hb & Hr1 & Hi1). cbn [mbind res_bind].
  destruct (IH r1 Hr1 Hi1) as (bs & r' & -> & Hl & Hbs & Hr' & Hi'). cbn [mbind res_bind].
  exists (b :: bs), r'. split_and!; try done; [simpl; lia|by apply Forall_cons_2].
Qed.

(** The generator never reads outside its table: from the initial state and
    after any use, [random_bytes] yields exactly the requested number of
    bytes, [random_ulong] a 32-bit number, and the table remains a permutation
    of 0 to 255. *)
Lemma random_total r size :
  rng_ok r → 0 ≤ size →
  (∃ bs r', random_bytes size r = Ok (bs, r') ∧ Z.of_nat (length bs) = size ∧ Forall in_u8 bs ∧ rng_ok r') ∧
  (∃ u r', random_ulong r = Ok (u, r') ∧ in_u32 u ∧ rng_ok r').
Proof.
  intros Hr Hs.
  assert (∃ r0, (if inited r then Ok r else random_init 0) = Ok r0 ∧ rng_ok r0 ∧ inited r0 = true)
    as (r0 & Hr0 & Hok & Hi).
  { destruct (inited r) eqn:E; [by exists r|]. apply random_init_ok. }
  unfold random_ulong, random_bytes. split.
  - rewrite Hr0. cbn [mbind res_bind].
    destruct (gen_bytes_ok (Z.to_nat size) r0 Hok Hi) as (bs & r' & -> & Hl & Hbs & Hr' & _).
    exists bs, r'. split_and!; try done. lia.
  - rewrite stM_bind_eq, Hr0. cbn [mbind res_bind].
    destruct (gen_bytes_ok (Z.to_nat 4) r0 Hok Hi) as (bs & r' & -> & Hl & Hbs & Hr' & _).
    exists (le_Z bs), r'. split; [done|]. split; [|done].
    pose proof (le_Z_range bs Hbs) as Hrg. rewrite Hl in Hrg. unfold in_u32. exact Hrg.
Qed.

End Random.
