(* ===== verification/Shell.v ===== *)
(** * threads/init.c: the interactive shell

    Without a command line the kernel reads commands from the keyboard.  The
    line buffer and the literals lie in the memory that the console prints
    from; [keys] are the characters that [input_getc] will return, and a call
    that finds none left waits for ever.  The array that [cheap_argparse] gets
    from [malloc] is kept as its size and the pointers stored so far. *)

From Stdlib Require Import String Ascii.
From S2P Require Import Prelude CString Stdio StdioSpec.

Module Shell.
Import CString Stdio.

Definition text (s : string) : list Z := map (λ a, Z.of_N (N_of_ascii a)) (list_ascii_of_string s).
(** A format without conversions is printed as it is. *)
Definition say (s : string) : stM console unit := _ ← printf (text s ++ [0]) []; mret tt.

(** Addresses of the buffer and of the literals [" "], ["exit"] and ["whoami"]. *)
Record places := mk_places { input_buff : Z; lit_space : Z; lit_exit : Z; lit_whoami : Z }.
Definition MAX_SIZE : Z := 256.
Definition exit_char : Z := 13.

Definition set_mem (m : mem) (s : console) : console :=
  mk_console (use_console_lock s) (in_intr s) (lock_depth s) (write_cnt s) (char_cnt s) m (out s).
Definition store (a v : Z) : stM console unit := λ s, m ← poke (cmem s) a v; Ok (tt, set_mem m s).

(** ** Reading a line *)

(** The loop: the number of characters read and the keys left, or [None] when
    it waits. *)
Fixpoint read_loop (keys : list Z) (buff i max_size : Z) : stM console (option (Z * list Z)) :=
  match keys with
  | [] => mret None
  | input :: keys =>
      _ ← printf fmt_char [input];
      store (buff + i) input;;
      let i := i + 1 in
      if negb (input =? exit_char) && negb (i =? max_size) then read_loop keys buff i max_size else mret (Some (i, keys))
  end.

Definition read_shell (keys : list Z) (buff max_size : Z) : stM console (option (Z * list Z)) :=
  r ← read_loop keys buff 0 max_size;
  match r with
  | None => mret None
  | Some (i, keys) => _ ← printf [10; 0] []; store (buff + i - 1) 0;; mret (Some (i, keys))
  end.

(** ** Splitting it *)

Fixpoint count_spaces (n : nat) (m : mem) (p count : Z) : res Z :=
  match n with
  | O => Ok count
  | S n => c ← load m p; count_spaces n m (p + 1) (if c =? 32 then count + 1 else count)
  end.

(** An array of [cap] pointers of which the first are stored. *)
Record array := mk_array { cap : Z; cells : list Z }.
Definition store_cell (a : array) (p : Z) : res array :=
  if Z.of_nat (length (cells a)) <? cap a then Ok (mk_array (cap a) (cells a ++ [p])) else Err EFault.

Fixpoint token_loop (fuel : nat) (m : mem) (delims token saveptr space_count : Z) (argv : array) : res (array * mem) :=
  match fuel with
  | O => Err EFuel
  | S fuel =>
      if negb (token =? NULL) && (Z.of_nat (length (cells argv)) <? space_count + 1) then
        argv ← store_cell argv token;
        '(r, m) ← strtok_r m NULL delims saveptr;
        let '(token, saveptr) := (r : Z * Z) in
        token_loop fuel m delims token saveptr space_count argv
      else Ok (argv, m)
  end.

(** [ok] is the outcome of [malloc]; [None] is the null pointer. *)
Definition cheap_argparse (ok : bool) (delims p size : Z) : stM console (option array) :=
  s ← sget;
  space_count ← slift (count_spaces (Z.to_nat size) (cmem s) p 0);
  if negb ok then say ("Failed to allocate memory" ++ String "010" "");; mret None
  else
    '(r, m) ← slift (strtok_r (cmem s) p delims NULL);
    let '(token, saveptr) := (r : Z * Z) in
    '(argv, m) ← slift (token_loop (walk m) m delims token saveptr space_count (mk_array (space_count + 2) []));
    sput (set_mem m s);;
    argv ← slift (store_cell argv NULL);
    mret (Some argv).

(** The walk over [argv] up to the null pointer. *)
Fixpoint check_cells (m : mem) (l : list Z) (check_str : Z) : res bool :=
  match l with
  | [] => Err EFault
  | p :: l => if p =? NULL then Ok false else r ← strcmp m p check_str; if r =? 0 then Ok true else check_cells m l check_str
  end.
Definition check_for (m : mem) (argv : option array) (check_str : Z) : res bool :=
  match argv with None => Err EFault | Some a => check_cells m (cells a) check_str end.

(** ** The shell *)

(** [allocs] are the outcomes of [malloc], which succeeds when they are used
    up.  The result is the keys left when the shell returns, or [None] when it
    waits for a key.  Every turn reads a key, so that their number bounds the
    turns. *)
Fixpoint shell_loop (fuel : nat) (pl : places) (keys : list Z) (allocs : list bool) (max_size : Z) : stM console (option (list Z)) :=
  match fuel with
  | O => serr EFuel
  | S fuel =>
      say "CSE134> ";;
      r ← read_shell keys (input_buff pl) max_size;
      match r with
      | None => mret None
      | Some (max_size, keys) =>
          argv ← cheap_argparse (hd true allocs) (lit_space pl) (input_buff pl) max_size;
          s ← sget;
          exit_found ← slift (check_for (cmem s) argv (lit_exit pl));
          if exit_found : bool then say ("exiting..." ++ String "010" "");; mret (Some keys)
          else
            s ← sget;
            comm_found ← slift (check_for (cmem s) argv (lit_whoami pl));
            say ((if comm_found : bool then "kirby" else "Invalid command") ++ String "010" "");;
            shell_loop fuel pl keys (tl allocs) max_size
      end
  end.
Definition run_inter_shell (pl : places) (keys : list Z) (allocs : list bool) : stM console (option (list Z)) :=
  shell_loop (S (length keys)) pl keys allocs MAX_SIZE.

End Shell.
