(* ===== verification/ShellSpec.v ===== *)
(** * The interactive shell: what a session shows

    The shell is compared with a definition on lists that keeps no memory: a
    line is read up to a limit, which is the length of the line before it, and
    is answered by its words. *)

From Stdlib Require Import String Ascii.
From S2P Require Import Prelude CString Stdio StdioSpec UstarSpec Shell.
Import CString Stdio Shell.

(** ** The reference *)

(** The characters read, the last one included, and the keys left. *)
Fixpoint read_line (limit : nat) (keys : list Z) : option (list Z * list Z) :=
  match keys with
  | [] => None
  | k :: keys =>
      if (k =? 13) || Nat.eqb limit 1 then Some ([k], keys)
      else '(l, rest) ← read_line (pred limit) keys; Some (k :: l, rest)
  end.

(** A C string ends at the first null character. *)
Fixpoint c_string (l : list Z) : list Z :=
  match l with [] => [] | c :: l => if c =? 0 then [] else c :: c_string l end.
Definition words (line : list Z) : list (list Z) := tokens [32] (c_string (take (pred (length line)) line)).

Definition prompt : list Z := text "CSE134> ".
Definition answer (line : list Z) : list Z :=
  if bool_decide (text "whoami" ∈ words line) then text "kirby" ++ [10] else text "Invalid command" ++ [10].

(** What is left of the keys when the shell returns, [None] when it does not,
    and everything it prints.  When an allocation fails the array of words is a
    null pointer, which the shell follows: the session has no result. *)
Fixpoint session (fuel limit : nat) (keys : list Z) (allocs : list bool) : option (option (list Z) * list Z) :=
  match fuel with
  | O => Some (None, [])
  | S fuel =>
      match read_line limit keys with
      | None => Some (None, prompt ++ keys)
      | Some (l, rest) =>
          if negb (hd true allocs) then None
          else if bool_decide (text "exit" ∈ words l) then Some (Some rest, prompt ++ l ++ [10] ++ text "exiting..." ++ [10])
          else '(r, t) ← session fuel (length l) rest (tl allocs); Some (r, prompt ++ l ++ [10] ++ answer l ++ t)
      end
  end.

Lemma read_line_spec limit keys l rest :
  (0 < limit)%nat → read_line limit keys = Some (l, rest) →
  keys = l ++ rest ∧ (0 < length l ≤ limit)%nat ∧ (13 ∈ take (pred (length l)) l → False).
Proof.
  revert limit l. induction keys as [|k keys IH]; intros limit l Hl; [done|]. cbn [read_line].
  destruct (Z.eqb_spec k 13) as [->|Hk]; cbn [orb].
  { intros [= <- <-]. split_and!; [done|simpl; lia|simpl; lia|by intros ?%elem_of_nil]. }
  destruct (Nat.eqb_spec limit 1) as [->|Hlim].
  { intros [= <- <-]. split_and!; [done|simpl; lia|simpl; lia|by intros ?%elem_of_nil]. }
  destruct (read_line (pred limit) keys) as [[l0 r0]|] eqn:E; [|done]. cbn. intros [= <- <-].
  destruct (IH (pred limit) l0) as (-> & Hlen & Hno); [lia|done|]. split_and!; [done|simpl; lia|simpl; lia|].
  destruct l0 as [|c l0]; [simpl in Hlen; lia|]. cbn. intros [Ek|Hin]%elem_of_cons; [congruence|]. by apply Hno.
Qed.

(** ** Output *)

(** [t] has been printed, and the memory is [m]. *)
Definition shown (t : list Z) (m : mem) (s s' : console) : Prop :=
  out s' = reverse t ++ out s ∧ lock_depth s' = lock_depth s ∧ cmem s' = m.

Lemma shown_trans t1 t2 m1 m2 s1 s2 s3 : shown t1 m1 s1 s2 → shown t2 m2 s2 s3 → shown (t1 ++ t2) m2 s1 s3.
Proof. intros (H1 & H2 & _) (H3 & H4 & H5). split_and!; [|congruence|done]. by rewrite H3, H1, reverse_app, app_assoc. Qed.

Lemma bytes_u8 t : Forall in_u8 t → map u8 t = t.
Proof. induction 1; [done|]. cbn. rewrite u8_small by done. by f_equal. Qed.

Lemma printf_shows fmt args t s :
  depth_ok s → Forall in_u8 t → Z.of_nat (length t) < W31 → render (string_arg (cmem s)) fmt args = Ok t →
  ∃ n s', printf fmt args s = Ok (n, s') ∧ shown t (cmem s) s s'.
Proof.
  intros Hd Ht Hl Hr. destruct (printf_writes fmt args t s Hd Hl Hr) as (s' & Hp & Ho & Hdep & _ & _ & Hm & _).
  eexists _, s'. split; [exact Hp|]. split_and!; [|done..]. by rewrite Ho, bytes_u8.
Qed.

Lemma render_char f k : in_u8 k → render f fmt_char [k] = Ok [k].
Proof.
  intros Hk. unfold render, fmt_char. cbn -[u8 u32 has clear string_text].
  rewrite (u32_small k), (u8_small k) by (unfold in_u8, in_u32 in *; lia). reflexivity.
Qed.

Definition sayable (w : string) : bool :=
  bool_decide (Forall (λ c, 0 < c < 256 ∧ c ≠ 37) (text w)) && (Z.of_nat (length (text w)) <? W31).

Lemma char_at_app pre c l : char_at (pre ++ c :: l) (length pre) = Ok c.
Proof. unfold char_at. by rewrite lookup_app_r, Nat.sub_diag by lia. Qed.

Lemma render_plain f nested pre t fuel :
  Forall (λ c, 0 < c < 256 ∧ c ≠ 37) t → (length t < fuel)%nat →
  render_loop nested f fuel (pre ++ t ++ [0]) (length pre) [] = Ok t.
Proof.
  revert pre fuel. induction t as [|c t IH]; intros pre [|fuel] Ht Hf; try (simpl in Hf; lia); cbn [render_loop].
  - by rewrite (char_at_app pre 0 [] : char_at (pre ++ [] ++ [0]) _ = _).
  - apply Forall_cons in Ht as [[Hc Hp] Ht]. change ((c :: t) ++ [0]) with (c :: t ++ [0]) in *. rewrite (char_at_app pre c (t ++ [0])). cbn [mbind res_bind].
    rewrite (proj2 (Z.eqb_neq c 0)), (proj2 (Z.eqb_neq c 37)) by lia. cbn [negb].
    specialize (IH (pre ++ [c]) fuel Ht). rewrite length_app in IH. cbn [length] in IH. rewrite <- app_assoc in IH. cbn [app] in IH.
    rewrite Nat.add_1_r in IH. rewrite IH by (simpl in Hf; lia). done.
Qed.

Lemma say_run w s : sayable w = true → depth_ok s → ∃ s', say w s = Ok (tt, s') ∧ shown (text w) (cmem s) s s'.
Proof.
  intros [Hw%bool_decide_eq_true Hl%Z.ltb_lt]%andb_true_iff Hd.
  destruct (printf_shows (text w ++ [0]) [] (text w) s Hd) as (n & s' & Hp & Hs'); [|done| |].
  - eapply Forall_impl; [exact Hw|]. unfold in_u8. intros x ?. simpl in *. lia.
  - unfold render. apply (render_plain _ _ [] (text w)); [done|]. rewrite length_app. simpl. lia.
  - exists s'. split; [|done]. unfold say. by rewrite (stM_bind_run _ _ _ _ _ Hp).
Qed.

(** ** Reading *)

Lemma store_run a v s :
  (a < length (cmem s))%nat → in_u8 v → store (Z.of_nat a) v s = Ok (tt, set_mem (splice a [v] (cmem s)) s).
Proof.
  intros Ha Hv. unfold store. rewrite poke_of_nat by done. cbn [mbind res_bind]. do 3 f_equal.
  apply list_eq. intros i. destruct (Nat.lt_trichotomy i a) as [?|[->|?]].
  - by rewrite list_lookup_insert_ne, lookup_splice_l by (simpl; lia).
  - rewrite list_lookup_insert_eq by done. rewrite lookup_splice_m by (simpl; lia). by rewrite Nat.sub_diag.
  - rewrite list_lookup_insert_ne, lookup_splice_r by (simpl; lia). done.
Qed.

Lemma shown_store t m a v s s' :
  shown t m s s' → (a < length m)%nat → in_u8 v →
  ∃ s2, store (Z.of_nat a) v s' = Ok (tt, s2) ∧ shown t (splice a [v] m) s s2.
Proof. intros (H1 & H2 & <-) Ha Hv. eexists. split; [by apply store_run|]. by split_and!. Qed.

Lemma depth_shown t m s s' : shown t m s s' → depth_ok s → depth_ok s'.
Proof. intros (_ & H & _) Hd. unfold depth_ok. by rewrite H. Qed.

Lemma read_loop_run keys s (b i limit : nat) :
  depth_ok s → Forall in_u8 keys → (0 < limit)%nat → (b + i + limit ≤ length (cmem s))%nat →
  ∃ s', read_loop keys (Z.of_nat b) (Z.of_nat i) (Z.of_nat (i + limit)) s =
      Ok (match read_line limit keys with None => None | Some (l, rest) => Some (Z.of_nat (i + length l), rest) end, s') ∧
    match read_line limit keys with
    | None => shown keys (cmem s') s s'
    | Some (l, rest) => shown l (splice (b + i) l (cmem s)) s s'
    end.
Proof.
  revert s i limit. induction keys as [|k keys IH]; intros s i limit Hd Hk Hl Hm; cbn [read_loop read_line].
  { exists s. split; [done|]. by split_and!. }
  apply Forall_cons in Hk as [Hk Hks].
  destruct (printf_shows fmt_char [k] [k] s Hd) as (n & s1 & Hp & Hs1); [by constructor|simpl; lia| |].
  { apply render_char. done. }
  rewrite (stM_bind_run _ _ _ _ _ Hp). replace (Z.of_nat b + Z.of_nat i) with (Z.of_nat (b + i)) by lia.
  destruct (shown_store _ _ (b + i) k _ _ Hs1) as (s2 & Hst & Hs2); [lia|done|]. rewrite (stM_bind_run _ _ _ _ _ Hst).
  unfold exit_char.
  assert ((Z.of_nat i + 1 =? Z.of_nat (i + limit)) = Nat.eqb limit 1) as Heq.
  { destruct (Nat.eqb_spec limit 1), (Z.eqb_spec (Z.of_nat i + 1) (Z.of_nat (i + limit))); try done; lia. }
  cbn zeta. rewrite Heq, <- negb_orb. destruct ((k =? 13) || Nat.eqb limit 1) eqn:Hstop; cbn [negb].
  { exists s2. split; [|done]. cbn [length]. by replace (Z.of_nat (i + 1)) with (Z.of_nat i + 1) by lia. }
  apply orb_false_iff in Hstop as [_ Hlim%Nat.eqb_neq].
  destruct (IH s2 (S i) (pred limit)) as (s3 & Hr & Hs3); [by eapply depth_shown|done|lia| |].
  { destruct Hs2 as (_ & _ & ->). rewrite length_splice by (simpl; lia). lia. }
  replace (Z.of_nat (S i + pred limit)) with (Z.of_nat (i + limit)) in Hr by lia.
  replace (Z.of_nat (S i)) with (Z.of_nat i + 1) in Hr by lia. rewrite Hr. exists s3.
  destruct (read_line (pred limit) keys) as [[l rest]|] eqn:E; cbn [mbind option_bind].
  - split; [by replace (i + length (k :: l))%nat with (S i + length l)%nat by (simpl; lia)|]. destruct Hs2 as (H1 & H2 & H3). rewrite H3 in Hs3.
    pose proof (shown_trans _ _ _ _ _ _ _ (conj H1 (conj H2 H3)) Hs3) as Ht. cbn [app] in Ht.
    destruct (read_line_spec (pred limit) keys l rest) as (_ & Hlen & _); [lia|done|].
    rewrite <- (splice_app (b + i) [k] l) by (simpl; lia). cbn [length]. by replace (b + S i)%nat with (b + i + 1)%nat in Ht by lia.
  - split; [done|]. exact (shown_trans _ _ _ _ _ _ _ Hs2 Hs3).
Qed.

(** ** Words *)

Lemma c_string_cut l : ∃ rest, l ++ [0] = c_string l ++ 0 :: rest.
Proof.
  induction l as [|c l [rest IH]]; [by exists []|]. cbn. destruct (Z.eqb_spec c 0) as [->|]; [by eexists|].
  exists rest. by rewrite IH.
Qed.
Lemma c_string_nonzero l : Forall (λ c, c ≠ 0) (c_string l).
Proof. induction l as [|c l IH]; [done|]. cbn. destruct (Z.eqb_spec c 0); [done|]. by constructor. Qed.

Lemma count_spaces_spec n m (p : nat) count :
  (p + n ≤ length m)%nat →
  count_spaces n m (Z.of_nat p) count = Ok (count + Z.of_nat (length (filter (.= 32) (slice p n m)))).
Proof.
  revert p count. induction n as [|n IH]; intros p count Hn; cbn [count_spaces]; [unfold slice; rewrite take_0, filter_nil; cbn [length]; f_equal; lia|].
  destruct (lookup_lt_is_Some_2 m p) as [c Hc]; [lia|]. rewrite (load_of_nat _ _ c Hc). cbn [mbind res_bind].
  replace (Z.of_nat p + 1) with (Z.of_nat (S p)) by lia. rewrite IH by lia. rewrite (slice_cons _ _ _ c) by done.
  rewrite filter_cons. destruct (Z.eqb_spec c 32); [rewrite decide_True by done; cbn [length]|rewrite decide_False by done]; f_equal; lia.
Qed.

Lemma split_on_length ds s : length (split_on ds s) = S (length (filter (.∈ ds) s)).
Proof.
  induction s as [|c s IH]; [done|]. cbn [split_on]. rewrite filter_cons. case_decide as Hc.
  - cbn [length]. by rewrite IH.
  - destruct (split_on ds s); [done|]. simpl in *. lia.
Qed.
Lemma tokens_length ds s : (length (tokens ds s) ≤ S (length (filter (.∈ ds) s)))%nat.
Proof. unfold tokens. rewrite <- split_on_length. apply length_filter. Qed.

Lemma token_loop_spec n fuel m s d save sc argv l m' r m1 :
  tok_all n m s d save = Ok (l, m') → strtok_r m s d save = Ok (r, m1) → (n ≤ fuel)%nat →
  Z.of_nat (length (cells argv) + length l) ≤ sc + 1 → cap argv = sc + 2 →
  token_loop fuel m1 d r.1 r.2 sc argv = Ok (mk_array (sc + 2) (cells argv ++ l), m').
Proof.
  revert fuel m s save argv l r m1. induction n as [|n IH]; intros [|fuel] m s save argv l [token save1] m1; try (done || lia).
  cbn [tok_all token_loop fst snd]. intros Hall Hst Hn Hl Hcap. rewrite Hst in Hall. cbn [mbind res_bind] in Hall.
  destruct (Z.eqb_spec token NULL) as [->|Htok]; cbn [negb andb].
  { injection Hall as <- <-. rewrite app_nil_r, <- Hcap. by destruct argv. }
  destruct (tok_all n m1 NULL d save1) as [[l2 m2]|] eqn:E2; [|done]. cbn [mbind res_bind] in Hall. injection Hall as <- <-.
  cbn [length] in Hl. rewrite (proj2 (Z.ltb_lt _ _)) by lia. unfold store_cell. rewrite (proj2 (Z.ltb_lt _ _)) by lia. cbn [mbind res_bind].
  destruct (strtok_r m1 NULL d save1) as [[[token2 save2] m3]|] eqn:E3; cbn [mbind res_bind].
  2:{ destruct n; [done|]. cbn [tok_all] in E2. by rewrite E3 in E2. }
  pose proof (IH fuel m1 NULL save1 (mk_array (cap argv) (cells argv ++ [token])) l2 (token2, save2) m3 E2 E3) as IH'.
  cbn [fst snd cells cap] in IH'. rewrite IH'; [by rewrite <- app_assoc|lia|rewrite length_app; simpl; lia|done].
Qed.

Lemma check_cells_spec m l ws c t :
  Forall in_u8 m → Forall2 (cstr m) l ws → cstr m c t → check_cells m (l ++ [NULL]) c = Ok (bool_decide (t ∈ ws)).
Proof.
  intros Hm Hl Hc. induction Hl as [|p w l ws Hp Hl IH]; [done|]. cbn [app check_cells].
  rewrite (cstr_valid _ _ _ Hp : (p =? NULL) = false). destruct (strcmp_zero m Hm _ _ _ _ Hp Hc) as (r & -> & Hr). cbn [mbind res_bind]. rewrite Hr.
  case_bool_decide as Hw; [rewrite bool_decide_eq_true_2; [done|by subst; left]|]. rewrite IH. f_equal. apply bool_decide_ext.
  rewrite elem_of_cons. split; [by right|]. intros [->|]; done.
Qed.

(** ** A turn *)

(** The buffer lies apart from the literals. *)
Definition lies (b : nat) (m : mem) (a : Z) (t : list Z) : Prop :=
  cstr m a t ∧ (a + Z.of_nat (length t) < Z.of_nat b ∨ Z.of_nat b + MAX_SIZE ≤ a).
Record ready (pl : places) (b : nat) (m : mem) : Prop := {
  rd_u8 : Forall in_u8 m;
  rd_at : input_buff pl = Z.of_nat b ∧ (0 < b)%nat ∧ (b + 256 ≤ length m)%nat;
  rd_space : lies b m (lit_space pl) [32];
  rd_exit : lies b m (lit_exit pl) (text "exit");
  rd_whoami : lies b m (lit_whoami pl) (text "whoami") }.

Lemma lies_same b m m' lo hi a t :
  same_outside m m' lo hi → Z.of_nat b ≤ lo → hi ≤ Z.of_nat b + MAX_SIZE → lies b m a t → lies b m' a t.
Proof. intros Hso Hlo Hhi [Hc Ha]. split; [|done]. eapply cstr_same; [done..|]. intros i Hi. lia. Qed.

Lemma ready_same pl b m m' lo hi :
  same_outside m m' lo hi → Z.of_nat b ≤ lo → hi ≤ Z.of_nat b + MAX_SIZE → ready pl b m → ready pl b m'.
Proof.
  intros Hso Hlo Hhi [H1 (H2 & H3 & H4) H5 H6 H7]. pose proof Hso as (HL & Hu & _).
  constructor; [done|split_and!; [done..|lia]|by eapply lies_same..].
Qed.

Lemma splice_same m (b : nat) l :
  Forall in_u8 m → Forall in_u8 l → (b + length l ≤ length m)%nat → same_outside m (splice b l m) (Z.of_nat b) (Z.of_nat (b + length l)).
Proof.
  intros Hm Hl Hb. split_and!; [by apply length_splice|by apply Forall_splice|]. intros x Hx. apply load_splice_outside; lia.
Qed.

Lemma splice_over b (s1 t s2 m : list Z) :
  length t = length s2 → (b + length (s1 ++ t) ≤ length m)%nat → splice (b + length s1) s2 (splice b (s1 ++ t) m) = splice b (s1 ++ s2) m.
Proof.
  rewrite length_app. intros Ht Hb. rewrite <- !splice_app by lia. set (m1 := splice b s1 m).
  assert (length m1 = length m) as HL by (apply length_splice; lia). apply list_eq. intros i.
  destruct (decide (i < b + length s1)%nat); [by rewrite !lookup_splice_l by (rewrite ?length_splice; lia)|].
  destruct (decide (i < b + length s1 + length s2)%nat).
  - by rewrite !lookup_splice_m by (rewrite ?length_splice; lia).
  - by rewrite !lookup_splice_r by (rewrite ?length_splice; lia).
Qed.

(** What the buffer holds after a line: the string of its words. *)
Lemma read_shell_run pl b keys s limit :
  depth_ok s → ready pl b (cmem s) → Forall in_u8 keys → (0 < limit ≤ 256)%nat →
  ∃ s', match read_line limit keys with
        | None => read_shell keys (Z.of_nat b) (Z.of_nat limit) s = Ok (None, s') ∧ shown keys (cmem s') s s'
        | Some (l, rest) =>
            read_shell keys (Z.of_nat b) (Z.of_nat limit) s = Ok (Some (Z.of_nat (length l), rest), s') ∧
            shown (l ++ [10]) (cmem s') s s' ∧ ready pl b (cmem s') ∧
            slice b (length l) (cmem s') = take (pred (length l)) l ++ [0]
        end.
Proof.
  intros Hd Hrd Hk Hl. pose proof Hrd as [Hu (Hb & Hb0 & Hbl) _ _ _].
  destruct (read_loop_run keys s b 0 limit Hd Hk) as (s1 & Hr & Hs1); [lia|lia|]. cbn [Nat.add] in Hr. rewrite Nat.add_0_r in Hs1.
  unfold read_shell. rewrite (stM_bind_run _ _ _ _ _ Hr).
  destruct (read_line limit keys) as [[l rest]|] eqn:E; [|exists s1; by split].
  destruct (read_line_spec limit keys l rest) as (-> & Hlen & _); [lia|done|]. apply Forall_app in Hk as [Hl8 _].
  destruct (printf_shows [10; 0] [] [10] s1) as (n & s2 & Hp & Hs2); [by eapply depth_shown|by repeat constructor|simpl; lia|reflexivity|].
  rewrite (stM_bind_run _ _ _ _ _ Hp). pose proof (shown_trans _ _ _ _ _ _ _ Hs1 Hs2) as Hs12.
  assert (cmem s1 = splice b l (cmem s)) as Hm1 by apply Hs1. rewrite Hm1 in Hs12.
  replace (Z.of_nat b + Z.of_nat (length l) - 1) with (Z.of_nat (b + pred (length l))) by lia.
  destruct (shown_store _ _ (b + pred (length l)) 0 _ _ Hs12) as (s3 & Hst & Hs3); [rewrite length_splice; lia|done|].
  rewrite (stM_bind_run _ _ _ _ _ Hst). exists s3. split; [done|]. pose proof Hs3 as (_ & _ & Hm3). rewrite <- Hm3 in Hs3. split; [done|].
  assert (splice (b + pred (length l)) [0] (splice b l (cmem s)) = splice b (take (pred (length l)) l ++ [0]) (cmem s)) as Hm.
  { pose proof (splice_over b (take (pred (length l)) l) (drop (pred (length l)) l) [0] (cmem s)) as Hov.
    rewrite take_drop, length_take, Nat.min_l in Hov by lia. apply Hov; [rewrite length_drop; simpl|]; lia. }
  rewrite Hm3, Hm. split.
  - assert (Forall in_u8 (take (pred (length l)) l ++ [0])) by (apply Forall_app; split; [by apply Forall_take|by repeat constructor]).
    eapply ready_same; [apply splice_same; [done..|]| | |exact Hrd]; rewrite ?length_app, ?length_take; unfold MAX_SIZE; simpl; lia.
  - assert (length (take (pred (length l)) l ++ [0]) = length l) as HL by (rewrite length_app, length_take; simpl; lia).
    rewrite <- HL at 1. apply slice_splice_same. lia.
Qed.

Lemma argparse_run pl b l s :
  ready pl b (cmem s) → (0 < length l ≤ 256)%nat → slice b (length l) (cmem s) = take (pred (length l)) l ++ [0] →
  ∃ argv s', cheap_argparse true (lit_space pl) (Z.of_nat b) (Z.of_nat (length l)) s = Ok (Some argv, s') ∧
    shown [] (cmem s') s s' ∧ ready pl b (cmem s') ∧
    ∃ ps, cells argv = ps ++ [NULL] ∧ Forall2 (cstr (cmem s')) ps (words l).
Proof.
  intros Hrd Hl Hsl. pose proof Hrd as [Hu (Hb & Hb0 & Hbl) [Hsp Hspa] _ _].
  set (line := take (pred (length l)) l) in *. set (str := c_string line).
  destruct (c_string_cut line) as [rest Hcut]. fold str in Hcut.
  assert (length str + 1 + length rest = length l)%nat as Hlen.
  { pose proof (f_equal length Hcut) as HL. rewrite <- Hsl, length_slice, length_app in HL by lia. simpl in HL. lia. }
  assert (cstr (cmem s) (Z.of_nat b) str) as Hstr.
  { apply cstr_intro; [lia|apply c_string_nonzero|]. rewrite Nat2Z.id.
    rewrite <- (slice_take b (S (length str)) (b + length l)) by lia.
    replace (slice b (S (length str)) (take (b + length l) (cmem s))) with (take (S (length str)) (slice b (length l) (cmem s))).
    - rewrite Hsl, Hcut. replace (str ++ 0 :: rest) with ((str ++ [0]) ++ rest) by by rewrite <- app_assoc.
      rewrite take_app_le by (rewrite length_app; simpl; lia). apply take_ge. rewrite length_app. simpl. lia.
    - rewrite slice_take by lia. unfold slice. rewrite take_take. f_equal. lia. }
  unfold cheap_argparse. rewrite stM_bind_eq. cbn [sget]. rewrite stM_bind_eq. unfold slift at 1.
  rewrite Nat2Z.id, count_spaces_spec by lia. cbn [mbind res_bind]. cbn [negb].
  set (sc := 0 + Z.of_nat _).
  assert (Z.of_nat (length (tokens [32] str)) ≤ sc + 1) as Hcnt.
  { pose proof (tokens_length [32] str) as Ht. unfold sc. rewrite Hsl, Hcut, filter_app, length_app.
    rewrite (list_filter_iff (.∈ [32]) (.= 32)) in Ht by (intros x; apply list_elem_of_singleton). lia. }
  destruct (strtok_r_tokens (cmem s) (Z.of_nat b) (lit_space pl) [32] str) as (ps & m' & Hall & Hps & Hso); [done..|unfold MAX_SIZE in Hspa; lia|].
  destruct (strtok_r (cmem s) (Z.of_nat b) (lit_space pl) NULL) as [[[token save] m1]|] eqn:Est.
  2:{ cbn [tok_all] in Hall. by rewrite Est in Hall. }
  rewrite stM_bind_eq. unfold slift at 1. cbn [mbind res_bind].
  pose proof (Forall2_length _ _ _ Hps) as Hpl.
  assert (length m1 = length (cmem s)) as Hm1.
  { destruct (strtok_r_step (cmem s) (Z.of_nat b) NULL (lit_space pl) [32] str Hu Hsp) as
      [[_ (e & He)]|(? & ? & ? & ? & ? & ? & _ & He & _ & _ & _ & _ & _ & _ & _ & _ & _ & HL & _)].
    - by rewrite (cstr_valid _ _ _ Hstr).
    - rewrite (cstr_valid _ _ _ Hstr). unfold MAX_SIZE in Hspa. lia.
    - congruence.
    - congruence. }
  rewrite stM_bind_eq. unfold slift at 1.
  pose proof (token_loop_spec _ (walk m1) _ _ _ _ sc (mk_array (sc + 2) []) _ _ _ _ Hall Est) as Htl. cbn [fst snd cells cap app length] in Htl.
  rewrite Htl; [|unfold walk; lia|lia|done]. cbn [mbind res_bind]. rewrite stM_bind_eq. cbn [sput]. rewrite stM_bind_eq. unfold slift at 1, store_cell.
  cbn [cells cap]. rewrite (proj2 (Z.ltb_lt _ _)) by lia. cbn [mbind res_bind].
  eexists _, _. split; [reflexivity|]. cbn [set_mem cmem cells]. split; [by split_and!|]. split.
  - eapply ready_same; [exact Hso|lia| |done]. unfold MAX_SIZE. lia.
  - exists ps. by split.
Qed.

Lemma text_newline w : text (w ++ String "010" "") = text w ++ [10].
Proof.
  induction w as [|a w IH]; [done|].
  change (Z.of_N (N_of_ascii a) :: text (w ++ String "010" "") = Z.of_N (N_of_ascii a) :: text w ++ [10]). by rewrite IH.
Qed.

(** Without memory [cheap_argparse] says so and gives a null pointer. *)
Lemma argparse_fails pl b (l : list Z) s :
  depth_ok s → ready pl b (cmem s) → (length l ≤ 256)%nat →
  ∃ s', cheap_argparse false (lit_space pl) (Z.of_nat b) (Z.of_nat (length l)) s = Ok (None, s').
Proof.
  intros Hd [_ (_ & _ & Hbl) _ _ _] Hl. unfold cheap_argparse. rewrite stM_bind_eq. cbn [sget]. rewrite stM_bind_eq. unfold slift at 1.
  rewrite Nat2Z.id, count_spaces_spec by lia. cbn [mbind res_bind negb].
  destruct (say_run ("Failed to allocate memory" ++ String "010" "") s) as (s' & Hp & _); [by vm_compute|done|].
  exists s'. by rewrite (stM_bind_run _ _ _ _ _ Hp).
Qed.

(** The shell agrees with the result of a session. *)
Definition agrees_with (x : option (option (list Z) * list Z)) (r : res (option (list Z) * console)) (s : console) : Prop :=
  match x with
  | None => r = Err EFault
  | Some (k, t) => ∃ s', r = Ok (k, s') ∧ shown t (cmem s') s s'
  end.

Lemma shell_loop_run pl b fuel keys allocs s limit :
  depth_ok s → ready pl b (cmem s) → Forall in_u8 keys → (0 < limit ≤ 256)%nat → (length keys < fuel)%nat →
  agrees_with (session fuel limit keys allocs) (shell_loop fuel pl keys allocs (Z.of_nat limit) s) s.
Proof.
  revert keys allocs s limit. induction fuel as [|fuel IH]; intros keys allocs s limit Hd Hrd Hk Hlim Hf; [lia|]. cbn [shell_loop session].
  pose proof Hrd as [_ (Hb & _ & _) _ _ _].
  destruct (say_run "CSE134> " s) as (s1 & Hp & Hs1); [by vm_compute|done|]. rewrite (stM_bind_run _ _ _ _ _ Hp). fold prompt in Hs1.
  assert (cmem s1 = cmem s) as Hm1 by apply Hs1. rewrite <- Hm1 in Hrd, Hs1. pose proof (depth_shown _ _ _ _ Hs1 Hd) as Hd1.
  rewrite Hb. destruct (read_shell_run pl b keys s1 limit Hd1 Hrd Hk Hlim) as (s2 & Hr).
  destruct (read_line limit keys) as [[l rest]|] eqn:E.
  2:{ destruct Hr as [Hr Hs2]. rewrite (stM_bind_run _ _ _ _ _ Hr). exists s2. split; [done|]. by eapply shown_trans. }
  destruct Hr as (Hr & Hs2 & Hrd2 & Hsl). rewrite (stM_bind_run _ _ _ _ _ Hr).
  destruct (read_line_spec limit keys l rest) as (-> & Hlen & _); [lia|done|]. apply Forall_app in Hk as [Hl8 Hrest]. rewrite length_app in Hf.
  destruct (hd true allocs); cbn [negb].
  2:{ destruct (argparse_fails pl b l s2) as (s3 & Ha); [by eapply depth_shown, Hd1|done|lia|]. rewrite (stM_bind_run _ _ _ _ _ Ha). by rewrite stM_bind_eq. }
  destruct (argparse_run pl b l s2 Hrd2) as (argv & s3 & Ha & Hs3 & Hrd3 & ps & Hcells & Hps); [lia|done|].
  rewrite (stM_bind_run _ _ _ _ _ Ha). pose proof (shown_trans _ _ _ _ _ _ _ Hs2 Hs3) as Hs23. rewrite app_nil_r in Hs23.
  pose proof (shown_trans _ _ _ _ _ _ _ Hs1 Hs23) as Hs13. pose proof (depth_shown _ _ _ _ Hs13 Hd) as Hd3.
  assert (∀ c t, lies b (cmem s3) c t → check_for (cmem s3) (Some argv) c = Ok (bool_decide (t ∈ words l))) as Hcheck.
  { intros c t [Hc _]. cbn [check_for]. rewrite Hcells. by apply check_cells_spec; [apply Hrd3|..]. }
  rewrite stM_bind_eq. cbn [sget]. rewrite stM_bind_eq. unfold slift at 1. rewrite (Hcheck _ (text "exit")) by apply Hrd3. cbn [mbind res_bind].
  case_bool_decide as Hx.
  { destruct (say_run ("exiting..." ++ String "010" "") s3) as (s4 & Hp4 & Hs4); [by vm_compute|done|].
    rewrite (stM_bind_run _ _ _ _ _ Hp4), text_newline in *. exists s4. split; [done|].
    pose proof (shown_trans _ _ _ _ _ _ _ Hs13 Hs4) as Hs14. rewrite <- !app_assoc in Hs14.
    assert (cmem s4 = cmem s3) as -> by apply Hs4. done. }
  rewrite stM_bind_eq. cbn [sget]. rewrite stM_bind_eq. unfold slift at 1. rewrite (Hcheck _ (text "whoami")) by apply Hrd3. cbn [mbind res_bind].
  destruct (say_run ((if bool_decide (text "whoami" ∈ words l) then "kirby" else "Invalid command") ++ String "010" "") s3) as (s4 & Hp4 & Hs4);
    [by case_bool_decide; vm_compute|done|]. rewrite (stM_bind_run _ _ _ _ _ Hp4). rewrite text_newline in Hs4.
  assert (text (if bool_decide (text "whoami" ∈ words l) then "kirby" else "Invalid command") ++ [10] = answer l) as Hans
    by (unfold answer; by case_bool_decide). rewrite Hans in Hs4.
  assert (cmem s4 = cmem s3) as Hm4 by apply Hs4. pose proof (shown_trans _ _ _ _ _ _ _ Hs13 Hs4) as Hs14.
  assert (depth_ok s4) as Hd4 by (by eapply depth_shown). assert (ready pl b (cmem s4)) as Hrd4 by (by rewrite Hm4).
  specialize (IH rest (tl allocs) s4 (length l) Hd4 Hrd4 Hrest ltac:(lia) ltac:(lia)).
  destruct (session fuel (length l) rest (tl allocs)) as [[r t]|]; [|exact IH]. destruct IH as (s5 & Hl5 & Hs5). exists s5. split; [exact Hl5|].
  pose proof (shown_trans _ _ _ _ _ _ _ Hs14 Hs5) as Hs. by rewrite <- !app_assoc in Hs.
Qed.

(** C19: The shell does what the reference does, whatever is typed and whichever
    of its allocations fail: its buffer and its argument array never overflow;
    while [malloc] succeeds it ends or waits exactly when the reference session
    does, with the same keys left, and has printed the same text; and at the
    first line for which [malloc] fails it follows the null pointer that
    [cheap_argparse] returns. *)
Theorem shell_session pl b keys allocs s :
  depth_ok s → ready pl b (cmem s) → Forall in_u8 keys →
  match session (S (length keys)) 256 keys allocs with
  | None => run_inter_shell pl keys allocs s = Err EFault
  | Some (rest, t) => ∃ s', run_inter_shell pl keys allocs s = Ok (rest, s') ∧ out s' = reverse t ++ out s
  end.
Proof.
  intros Hd Hrd Hk. pose proof (shell_loop_run pl b (S (length keys)) keys allocs s 256 Hd Hrd Hk ltac:(lia) ltac:(lia)) as Ha.
  destruct (session _ 256 keys allocs) as [[k t]|]; [|exact Ha]. destruct Ha as (s' & Hr & Hs). exists s'. split; [exact Hr|apply Hs].
Qed.

(** A line as short as this has no room for [exit]. *)
Lemma short_words l w : (length l ≤ 4)%nat → w ∈ words l → (length w ≤ 3)%nat.
Proof.
  intros Hl Hw. assert (length (c_string (take (pred (length l)) l)) ≤ 3)%nat as Hs.
  { assert (∀ k, length (c_string k) ≤ length k)%nat as Hc.
    { induction k as [|c k IH]; [done|]. cbn. destruct (c =? 0); simpl; lia. }
    etrans; [apply Hc|]. rewrite length_take. lia. }
  etrans; [|exact Hs]. revert Hw. unfold words. generalize (c_string (take (pred (length l)) l)). clear. intros s Hw.
  apply list_elem_of_filter in Hw as [_ Hw]. revert w Hw. induction s as [|c s IH]; cbn [split_on]; intros w Hw.
  - apply list_elem_of_singleton in Hw as ->. done.
  - case_decide; [apply elem_of_cons in Hw as [->|Hw]; [simpl; lia|]; apply IH in Hw; simpl; lia|].
    destruct (split_on [32] s) as [|v vs] eqn:E.
    + apply list_elem_of_singleton in Hw as ->. simpl. lia.
    + apply elem_of_cons in Hw as [->|Hw].
      * specialize (IH v ltac:(left)). simpl. lia.
      * specialize (IH w ltac:(by right)). simpl. lia.
Qed.

Lemma session_stuck fuel limit keys : (0 < limit ≤ 4)%nat → ∃ t, session fuel limit keys [] = Some (None, t).
Proof.
  revert limit keys. induction fuel as [|fuel IH]; intros limit keys Hl; [by eexists|]. cbn [session hd tl negb].
  destruct (read_line limit keys) as [[l rest]|] eqn:E; [|by eexists].
  destruct (read_line_spec limit keys l rest) as (_ & Hlen & _); [lia|done|].
  rewrite bool_decide_eq_false_2 by (intros H%short_words; [simpl in H; lia|lia]).
  destruct (IH (length l) rest) as [t ->]; [lia|]. by eexists.
Qed.

(** C40: Once a line of at most three characters has been entered, the shell
    can never be left: whatever is typed afterwards, it goes on waiting for
    keys, because the length of that line stays the limit for all later ones. *)
Theorem shell_cannot_exit pl b line keys s :
  depth_ok s → ready pl b (cmem s) → Forall in_u8 (line ++ 13 :: keys) → 13 ∉ line → (length line ≤ 3)%nat →
  ∃ s', run_inter_shell pl (line ++ 13 :: keys) [] s = Ok (None, s').
Proof.
  intros Hd Hrd Hk Hline Hlen. set (ks := line ++ 13 :: keys) in *.
  pose proof (shell_loop_run pl b (S (length ks)) ks [] s 256 Hd Hrd Hk ltac:(lia) ltac:(lia)) as Ha. cbn [session hd tl negb] in Ha.
  assert (∀ limit, (length line < limit)%nat → read_line limit ks = Some (line ++ [13], keys)) as Hread.
  { unfold ks. clear -Hline. induction line as [|c line IH]; intros limit Hl; [done|]. apply not_elem_of_cons in Hline as [Hc Hline].
    cbn [app read_line]. rewrite (proj2 (Z.eqb_neq c 13)), (proj2 (Nat.eqb_neq limit 1)) by (simpl in *; lia || done). cbn [orb].
    by rewrite IH by (done || simpl in *; lia). }
  rewrite (Hread 256%nat) in Ha by lia.
  assert (length (line ++ [13%Z]) ≤ 4)%nat as H4 by (rewrite length_app; simpl; lia).
  rewrite bool_decide_eq_false_2 in Ha by (intros H%short_words; [simpl in H; lia|lia]).
  destruct (session_stuck (length ks) (length (line ++ [13])) keys) as [t Hst]; [rewrite length_app in *; simpl in *; lia|].
  rewrite Hst in Ha. destruct Ha as (s' & Hr & _). by exists s'.
Qed.

(** ** Witnesses *)

(** ["whoami"] at 4, ["exit"] at 11, [" "] at 16, the buffer at 18. *)
Definition sample_memory : mem := replicate 4 0 ++ text "whoami" ++ [0] ++ text "exit" ++ [0; 32; 0] ++ replicate 256 7.
Definition sample_console : console := mk_console true false None 0 0 sample_memory [].
Definition sample_places : places := mk_places 18 16 11 4.

Lemma sample_ready : ready sample_places 18 (cmem sample_console).
Proof.
  constructor.
  - apply (bool_decide_unpack _). vm_compute. exact I.
  - split_and!; [done|lia|vm_compute; lia].
  - split; [apply cstr_intro; [done|by repeat constructor|by vm_compute]|by left].
  - split; [apply cstr_intro; [done|by repeat constructor|by vm_compute]|by left].
  - split; [apply cstr_intro; [done|by repeat constructor|by vm_compute]|by left].
Qed.

(** [whoami], then [exit]; when the second allocation fails the shell faults. *)
Lemma shell_session_witness :
  (∃ s', run_inter_shell sample_places (text "whoami" ++ [13] ++ text "exit" ++ [13]) [true; true] sample_console = Ok (Some [], s')) ∧
  run_inter_shell sample_places (text "whoami" ++ [13] ++ text "exit" ++ [13]) [true; false] sample_console = Err EFault.
Proof.
  assert (depth_ok sample_console) as Hd by (by intros d).
  assert (Forall in_u8 (text "whoami" ++ [13] ++ text "exit" ++ [13])) as Hk by (apply (bool_decide_unpack _); vm_compute; exact I).
  split.
  - destruct (shell_session sample_places 18 (text "whoami" ++ [13] ++ text "exit" ++ [13]) [true; true] sample_console Hd sample_ready Hk) as (s' & Hr & _).
    exists s'. exact Hr.
  - exact (shell_session sample_places 18 (text "whoami" ++ [13] ++ text "exit" ++ [13]) [true; false] sample_console Hd sample_ready Hk).
Defined.

(** [ls], then [exit] a hundred times. *)
Lemma shell_cannot_exit_witness :
  ∃ s', run_inter_shell sample_places (text "ls" ++ 13 :: concat (replicate 100 (text "exit" ++ [13]))) [] sample_console = Ok (None, s').
Proof.
  apply (shell_cannot_exit sample_places 18 (text "ls") (concat (replicate 100 (text "exit" ++ [13]))) sample_console).
  - by intros d.
  - exact sample_ready.
  - apply (bool_decide_unpack _). vm_compute. exact I.
  - apply (bool_decide_unpack _). vm_compute. exact I.
  - vm_compute. lia.
Defined.
