(* ===== verification/Boot.v ===== *)
(** * threads/init.c: the kernel command line

    The loader leaves the number of arguments and the arguments, one string
    after the other, below its end.  The memory is the one the console prints
    from; its addresses are physical, as [ptov] only adds [PHYS_BASE].  [lit]
    gives the address of a string literal.  The options FILESYS and USERPROG of
    the build are on, VM is off. *)

From Stdlib Require Import String Ascii.
From S2P Require Import Prelude CString CStdlib Stdio StdioSpec Random Block Shell.

Module Boot.
Import CString CStdlib Stdio.

Definition text := Shell.text.
Definition say := Shell.say.

(** ** The loader's memory *)

Definition LOADER_END : Z := 32256.
Definition LOADER_SIG_LEN : Z := 2.
Definition LOADER_PARTS_LEN : Z := 64.
Definition LOADER_ARGS_LEN : Z := 128.
Definition LOADER_ARG_CNT_LEN : Z := 4.
Definition LOADER_SIG : Z := LOADER_END - LOADER_SIG_LEN.
Definition LOADER_PARTS : Z := LOADER_SIG - LOADER_PARTS_LEN.
Definition LOADER_ARGS : Z := LOADER_PARTS - LOADER_ARGS_LEN.
Definition LOADER_ARG_CNT : Z := LOADER_ARGS - LOADER_ARG_CNT_LEN.

(** The entries of the static array [argv]. *)
Definition ARGV_CNT : Z := LOADER_ARGS_LEN / 2 + 1.

Definition SHUTDOWN_NONE : Z := 0.
Definition SHUTDOWN_POWER_OFF : Z := 1.
Definition SHUTDOWN_REBOOT : Z := 2.

Section boot.
Context (lit : string → Z).

(** ** read_command_line *)

Definition argc_at (m : mem) : res Z := l ← read_chars 4 m LOADER_ARG_CNT; Ok (i32 (le_Z l)).

Fixpoint arg_loop (n : nat) (m : mem) (p end_ : Z) (argv : list Z) : res (list Z) :=
  match n with
  | O => Ok argv
  | S n =>
      if end_ <=? p then Err EPanic
      else if ARGV_CNT <=? Z.of_nat (length argv) then Err EFault
      else l ← strnlen m p (end_ - p); arg_loop n m (p + l + 1) end_ (argv ++ [p])
  end.

Fixpoint print_loop (argv : list Z) : stM console unit :=
  match argv with
  | [] => mret tt
  | arg :: argv =>
      s ← sget;
      sp ← slift (strchr (cmem s) arg 32);
      (if sp =? NULL then _ ← printf (text " %s" ++ [0]) [arg]; mret tt else _ ← printf (text " '%s'" ++ [0]) [arg]; mret tt);;
      print_loop argv
  end.

(** The pointers and the null pointer behind them. *)
Definition read_command_line : stM console (list Z) :=
  s ← sget;
  argc ← slift (argc_at (cmem s));
  argv ← slift (arg_loop (Z.to_nat argc) (cmem s) LOADER_ARGS (LOADER_ARGS + LOADER_ARGS_LEN) []);
  (if (0 <=? argc) && (argc <? ARGV_CNT) then mret tt else serr EFault);;
  say "Kernel command line:";;
  print_loop argv;;
  say (String "010" "");;
  mret (argv ++ [NULL]).

(** ** parse_options *)

Record options := mk_options {
  how : Z; format_filesys : bool; filesys_bdev_name : Z; scratch_bdev_name : Z; thread_mlfqs : bool; user_page_limit : Z }.
Record boot := mk_boot { con : console; opts : options; rand : Random.rng }.
Abbreviation bM := (stM boot).

Definition on_con {A} (f : stM console A) : bM A := λ s, '(a, c) ← f (con s); Ok (a, mk_boot c (opts s) (rand s)).
Definition on_mem {A} (f : mem → res A) : bM A := λ s, a ← f (cmem (con s)); Ok (a, s).
Definition set_opts (f : options → options) : bM unit := smod (λ s, mk_boot (con s) (f (opts s)) (rand s)).
Definition seed (n : Z) : bM unit := λ s, r ← Random.random_init (u32 n); Ok (tt, mk_boot (con s) (opts s) r).

(** [strtok_r (s, delims, &save_ptr)]: the token and the new [save_ptr]. *)
Definition tok (arg : Z) (delims : string) (save_ptr : Z) : bM (Z * Z) := λ s,
  '(r, m) ← strtok_r (cmem (con s)) arg (lit delims) save_ptr;
  Ok (r, mk_boot (Shell.set_mem m (con s)) (opts s) (rand s)).

Definition usage_text : list string :=
  [""; "Command line syntax: [OPTION...] [ACTION...]"; "Options must precede actions.";
   "Actions are executed in the order specified."; ""; "Available actions:";
   "  run 'PROG [ARG...]' Run PROG and wait for it to complete.";
   "  ls                 List files in the root directory.";
   "  cat FILE           Print FILE to the console.";
   "  rm FILE            Delete FILE.";
   "Use these actions indirectly via `pintos' -g and -p options:";
   "  extract            Untar from scratch device into file system.";
   "  append FILE        Append FILE to tar file on scratch device.";
   ""; "Options:";
   "  -h                 Print this help message and power off.";
   "  -q                 Power off VM after actions or on panic.";
   "  -r                 Reboot after actions.";
   "  -f                 Format file system device during startup.";
   "  -filesys=BDEV      Use BDEV for file system instead of default.";
   "  -scratch=BDEV      Use BDEV for scratch instead of default.";
   "  -rs=SEED           Set random number seed to SEED.";
   "  -mlfqs             Use multi-level feedback queue scheduler.";
   "  -ul=COUNT          Limit user memory to COUNT pages."]%string.
Definition usage : bM unit := on_con (say (String.concat "" (map (λ l, l ++ String "010" "") usage_text)%string)).

Inductive option_name := OHelp | OPowerOff | OReboot | OFormat | OFilesys | OScratch | OSeed | OMlfqs | OLimit.
Definition option_table : list (string * option_name) :=
  [("-h", OHelp); ("-q", OPowerOff); ("-r", OReboot); ("-f", OFormat); ("-filesys", OFilesys); ("-scratch", OScratch);
   ("-rs", OSeed); ("-mlfqs", OMlfqs); ("-ul", OLimit)]%string.

(** The comparisons of the chain of [else if], in order. *)
Fixpoint find_literal {A} (t : list (string * A)) (m : mem) (s : Z) : res (option A) :=
  match t with
  | [] => Ok None
  | (w, a) :: t => r ← strcmp m s (lit w); if r =? 0 then Ok (Some a) else find_literal t m s
  end.

(** False when the machine has been switched off. *)
Definition set_option (o : option_name) (value : Z) : bM bool :=
  match o with
  | OHelp => usage;; mret false
  | OPowerOff => set_opts (λ o, mk_options SHUTDOWN_POWER_OFF (format_filesys o) (filesys_bdev_name o) (scratch_bdev_name o) (thread_mlfqs o) (user_page_limit o));; mret true
  | OReboot => set_opts (λ o, mk_options SHUTDOWN_REBOOT (format_filesys o) (filesys_bdev_name o) (scratch_bdev_name o) (thread_mlfqs o) (user_page_limit o));; mret true
  | OFormat => set_opts (λ o, mk_options (how o) true (filesys_bdev_name o) (scratch_bdev_name o) (thread_mlfqs o) (user_page_limit o));; mret true
  | OFilesys => set_opts (λ o, mk_options (how o) (format_filesys o) value (scratch_bdev_name o) (thread_mlfqs o) (user_page_limit o));; mret true
  | OScratch => set_opts (λ o, mk_options (how o) (format_filesys o) (filesys_bdev_name o) value (thread_mlfqs o) (user_page_limit o));; mret true
  | OSeed => n ← on_mem (λ m, atoi m value); seed n;; mret true
  | OMlfqs => set_opts (λ o, mk_options (how o) (format_filesys o) (filesys_bdev_name o) (scratch_bdev_name o) true (user_page_limit o));; mret true
  | OLimit => n ← on_mem (λ m, atoi m value); set_opts (λ o, mk_options (how o) (format_filesys o) (filesys_bdev_name o) (scratch_bdev_name o) (thread_mlfqs o) (u32 n));; mret true
  end.

(** The pointers from the first one on that is no option, or [None] when the
    machine has been switched off. *)
Fixpoint options_loop (argv : list Z) : bM (option (list Z)) :=
  match argv with
  | [] => serr EFault
  | arg :: rest =>
      if arg =? NULL then mret (Some argv)
      else
        c ← on_mem (λ m, load m arg);
        if negb (c =? 45) then mret (Some argv)
        else
          '(name, save_ptr) ← tok arg "=" NULL;
          '(value, _) ← tok NULL "" save_ptr;
          o ← on_mem (λ m, find_literal option_table m name);
          match o with
          | None => serr EPanic
          | Some o => on ← set_option o value; if (on : bool) then options_loop rest else mret None
          end
  end.
(** [now] is what [rtc_get_time] returns. *)
Definition parse_options (now : Z) (argv : list Z) : bM (option (list Z)) :=
  r ← options_loop argv;
  match r with None => mret None | Some argv => seed now;; mret (Some argv) end.

(** ** run_actions *)

Inductive action := Run | Ls | Cat | Rm | Extract | Append.
(** Each with the number of its arguments, its name included. *)
Definition actions : list (string * (nat * action)) :=
  [("run", (2%nat, Run)); ("ls", (1%nat, Ls)); ("cat", (2%nat, Cat)); ("rm", (2%nat, Rm)); ("extract", (1%nat, Extract)); ("append", (2%nat, Append))]%string.

(** [argv[1]] to [argv[n]] are not null. *)
Fixpoint check_args (n : nat) (argv : list Z) : res unit :=
  match n, argv with
  | O, _ => Ok tt
  | S _, [] => Err EFault
  | S n, p :: argv => if p =? NULL then Err EPanic else check_args n argv
  end.

(** [perform] is the function of an action, called with the rest of [argv].
    Every turn takes an entry off the array, whose length is enough fuel. *)
Fixpoint run_loop (perform : action → list Z → bM unit) (fuel : nat) (argv : list Z) : bM unit :=
  match fuel, argv with
  | O, _ => serr EFuel
  | S _, [] => serr EFault
  | S fuel, arg :: rest =>
      if arg =? NULL then mret tt
      else
        a ← on_mem (λ m, find_literal actions m arg);
        match a with
        | None => serr EPanic
        | Some (argc, a) => slift (check_args (pred argc) rest);; perform a argv;; run_loop perform fuel (drop argc argv)
        end
  end.
Definition run_actions (perform : action → list Z → bM unit) (argv : list Z) : bM unit := run_loop perform (S (length argv)) argv.

(** devices/shutdown.c; what [shutdown_power_off] and [shutdown_reboot] do to the
    machine is a parameter. *)
Definition shutdown (power_off reboot : bM unit) : bM unit :=
  s ← sget;
  if how (opts s) =? SHUTDOWN_POWER_OFF then power_off
  else if how (opts s) =? SHUTDOWN_REBOOT then reboot
  else mret tt.

(** What [pintos_init] does with the command line; [init] is everything that it
    sets up in between, [shell] is the interactive shell, [thread_exit] ends
    the first thread. *)
Definition pintos_init (init shell power_off reboot thread_exit : bM unit) (perform : action → list Z → bM unit) (now : Z) : bM unit :=
  argv ← on_con read_command_line;
  r ← parse_options now argv;
  match r with
  | None => power_off
  | Some argv =>
      init;;
      p ← slift (deref (head argv));
      (if negb (p =? NULL) then run_actions perform argv
       else
         on_con (say ("Pintos: Command line argument not specified, opening interactive shell..." ++ String "010" ""));;
         shell);;
      shutdown power_off reboot;;
      thread_exit
  end.

End boot.
(** ** The block devices *)

Section devices.
Context {D : Type} `{BlockOps D}.
Import Block.

Fixpoint find_type (fuel : nat) (r : registry D) (b : option nat) (role : block_type) : res (option nat) :=
  match fuel, b with
  | _, None => Ok None
  | O, _ => Err EFuel
  | S fuel, Some i => blk ← deref (all_blocks r !! i); if decide (type blk = role) then Ok (Some i) else find_type fuel r (block_next r i) role
  end.

(** The name of the device is null or a string; the message is left out. *)
Definition locate_block_device (r : registry D) (role : block_type) (nm : option (list Z)) : res (registry D) :=
  b ← match nm with
      | Some n => match block_get_by_name r n with None => Err EPanic | Some i => Ok (Some i) end
      | None => find_type (S (length (all_blocks r))) r (block_first r) role
      end;
  match b with None => Ok r | Some i => block_set_role r role i end.

Definition locate_block_devices (r : registry D) (filesys scratch : option (list Z)) : res (registry D) :=
  r ← locate_block_device r BLOCK_FILESYS filesys; locate_block_device r BLOCK_SCRATCH scratch.
End devices.

End Boot.
