(* ===== verification/BootSpec.v ===== *)
(** * The kernel command line: from the loader's bytes to the actions

    The arguments are strings one behind the other; the options among them are
    taken apart in place, the others stay as they are until the actions are
    performed. *)

From Stdlib Require Import String Ascii.
From S2P Require Import Prelude CString CStdlib Stdio StdioSpec Random Block UstarSpec Shell ShellSpec Boot.
Import CString CStdlib Stdio Boot.

(** ** Strings in a row *)

Fixpoint starts (p : Z) (ws : list (list Z)) : list Z :=
  match ws with [] => [] | w :: ws => p :: starts (p + Z.of_nat (length w) + 1) ws end.
Fixpoint row (m : mem) (p : Z) (ws : list (list Z)) : Prop :=
  match ws with [] => True | w :: ws => cstr m p w ∧ row m (p + Z.of_nat (length w) + 1) ws end.
Definition row_size (ws : list (list Z)) : Z := foldr (λ w n, Z.of_nat (length w) + 1 + n) 0 ws.

Lemma row_size_nonneg ws : 0 ≤ row_size ws.
Proof. induction ws; simpl; lia. Qed.
Lemma length_starts p ws : length (starts p ws) = length ws.
Proof. revert p. induction ws as [|w ws IH]; intros p; [done|]. simpl. by rewrite IH. Qed.

Lemma row_size_app ws1 ws2 : row_size (ws1 ++ ws2) = row_size ws1 + row_size ws2.
Proof. induction ws1 as [|w ws IH]; [done|]. simpl. unfold row_size in *. lia. Qed.
Lemma row_app m p ws1 ws2 : row m p (ws1 ++ ws2) → row m (p + row_size ws1) ws2.
Proof.
  revert p. induction ws1 as [|w ws IH]; intros p; cbn [app row row_size foldr]; [by rewrite Z.add_0_r|]. intros [_ Hr]. apply IH in Hr.
  change (foldr _ 0 ws) with (row_size ws). by replace (p + (Z.of_nat (length w) + 1 + row_size ws)) with (p + Z.of_nat (length w) + 1 + row_size ws) by lia.
Qed.

Lemma row_strings m p ws : row m p ws → Forall2 (cstr m) (starts p ws) ws.
Proof. revert p. induction ws as [|w ws IH]; intros p; [constructor|]. intros [Hw Hr]. constructor; [done|]. by apply IH. Qed.

Lemma row_same m m' lo hi p ws :
  same_outside m m' lo hi → hi ≤ p → row m p ws → row m' p ws.
Proof.
  intros Hso. revert p. induction ws as [|w ws IH]; intros p Hp; [done|]. intros [Hw Hr]. split; [|apply IH; [lia|done]].
  eapply cstr_same; [done..|]. intros i Hi. lia.
Qed.

Lemma cstr_strnlen_loop fuel m p w k len max :
  cstr m (p + len) w → k = Z.of_nat (length w) → len + k ≤ max → (length w < fuel)%nat →
  strnlen_loop fuel m p len max = Ok (len + k).
Proof.
  revert w len k. induction fuel as [|fuel IH]; intros w len k Hw -> Hmax Hf; [lia|]. cbn [strnlen_loop]. destruct w as [|c w].
  - rewrite (cstr_nil _ _ Hw). cbn. f_equal. lia.
  - apply cstr_cons in Hw as (-> & Hc & Hw). cbn [mbind res_bind]. rewrite (proj2 (Z.eqb_neq c 0)) by done. cbn [length] in *.
    rewrite (proj2 (Z.ltb_lt len max)) by lia. cbn [negb andb].
    rewrite (IH w (len + 1) (Z.of_nat (length w))); [f_equal; lia|by replace (p + (len + 1)) with (p + len + 1) by lia|done|lia|lia].
Qed.
Lemma cstr_strnlen m p w max : cstr m p w → Z.of_nat (length w) ≤ max → strnlen m p max = Ok (Z.of_nat (length w)).
Proof.
  intros Hw Hmax. unfold strnlen. rewrite (cstr_strnlen_loop _ m p w (Z.of_nat (length w)) 0 max); [done|by rewrite Z.add_0_r|done|lia|].
  apply (cstr_walk _ _ _ Hw).
Qed.

Lemma cstr_chars m p w : cstr m p w → read_chars (length w) m p = Ok w.
Proof.
  revert p. induction w as [|c w IH]; intros p Hw; [done|]. apply cstr_cons in Hw as (Hl & _ & Hw). cbn [length read_chars].
  rewrite Hl. cbn [mbind res_bind]. by rewrite (IH (p + 1) Hw).
Qed.

Lemma string_arg_cstr m p w : cstr m p w → Z.of_nat (length w) < W32 → string_arg m p (-1) = Ok w.
Proof.
  intros Hw Hl. unfold string_arg. rewrite (cstr_valid _ _ _ Hw). change (u32 (-1)) with (W32 - 1). rewrite (cstr_strnlen _ _ _ _ Hw) by lia.
  cbn [mbind res_bind]. rewrite Nat2Z.id. by apply cstr_chars.
Qed.

(** ** Reading *)

Lemma arg_loop_run m end_ ws p argv :
  row m p ws → p + row_size ws ≤ end_ → Z.of_nat (length argv + length ws) ≤ ARGV_CNT →
  arg_loop (length ws) m p end_ argv = Ok (argv ++ starts p ws).
Proof.
  revert p argv. induction ws as [|w ws IH]; intros p argv Hr He Hn; cbn [arg_loop starts length]; [by rewrite app_nil_r|].
  destruct Hr as [Hw Hr]. cbn [row_size foldr] in He. change (foldr _ 0 ws) with (row_size ws) in He. pose proof (row_size_nonneg ws).
  rewrite (proj2 (Z.leb_gt end_ p)) by lia. cbn [length] in Hn. rewrite (proj2 (Z.leb_gt ARGV_CNT _)) by lia.
  rewrite (cstr_strnlen _ _ _ _ Hw) by lia. cbn [mbind res_bind]. rewrite IH; [by rewrite <- app_assoc|done|lia|rewrite length_app; simpl; lia].
Qed.

(** An argument as it is shown: in quotes if it has a space. *)
Definition shown_arg (w : list Z) : list Z := if bool_decide (32 ∈ w) then text " '" ++ w ++ text "'" else text " " ++ w.
Definition shown_line (ws : list (list Z)) : list Z := text "Kernel command line:" ++ concat (map shown_arg ws) ++ [10].

Lemma render_arg f p w :
  in_u32 p → f p (-1) = Ok w → render f (text " %s" ++ [0]) [p] = Ok (32 :: w) ∧ render f (text " '%s'" ++ [0]) [p] = Ok (text " '" ++ w ++ text "'").
Proof.
  intros Hp Hf. change (text " %s" ++ [0]) with [32; 37; 115; 0]. change (text " '%s'" ++ [0]) with [32; 39; 37; 115; 39; 0].
  change (text " '") with [32; 39]. change (text "'") with [39].
  split; unfold render; cbn -[u32 has clear string_text]; rewrite (u32_small p), Hf by done; cbn -[u32 has clear string_text];
    unfold string_text; cbn -[has clear]; rewrite ?(proj2 (Z.ltb_ge (Z.of_nat (length w)) 0)) by lia; cbn; by rewrite ?app_nil_r.
Qed.

Lemma print_loop_run m s ps ws :
  depth_ok s → cmem s = m → Forall in_u8 m → Forall2 (cstr m) ps ws → Forall in_u32 ps → Forall (λ w, Z.of_nat (length w) < W31 - 4) ws →
  ∃ s', print_loop ps s = Ok (tt, s') ∧ shown (concat (map shown_arg ws)) m s s'.
Proof.
  intros Hd Hm Hu Hps. revert s Hd Hm. induction Hps as [|p w ps ws Hp Hps IH]; intros s Hd Hm H32 Hlen; cbn [print_loop map concat].
  { exists s. by split_and!. }
  apply Forall_cons in H32 as [Hp32 H32]. apply Forall_cons in Hlen as [Hl Hlen].
  rewrite stM_bind_eq. cbn [sget]. rewrite stM_bind_eq. unfold slift at 1. rewrite Hm.
  destruct (strchr_mem m p w 32 Hp) as (q & -> & Hq); [done|]. cbn [mbind res_bind].
  pose proof (cstr_u8 m Hu p w Hp) as Hw8. destruct (render_arg (string_arg m) p w Hp32) as [Hr1 Hr2]; [apply string_arg_cstr; [done|lia]|].
  assert (∃ s1, ((if q =? NULL then _ ← printf (text " %s" ++ [0]) [p]; mret tt
       else _ ← printf (text " '%s'" ++ [0]) [p]; mret tt) : stM console unit) s = Ok (tt, s1) ∧ shown (shown_arg w) m s s1) as (s1 & Hs1 & Hsh1).
  { rewrite Hq, orb_false_r. unfold shown_arg. destruct (bool_decide (32 ∈ w)); cbn [negb].
    2:{ destruct (printf_shows (text " %s" ++ [0]) [p] (text " " ++ w) s Hd) as (n & s1 & Hpr & Hs1); [by constructor|simpl; lia|by rewrite Hm|].
      rewrite (stM_bind_run _ _ _ _ _ Hpr). exists s1. split; [done|]. by rewrite Hm in Hs1. }
      destruct (printf_shows (text " '%s'" ++ [0]) [p] (text " '" ++ w ++ text "'") s Hd) as (n & s1 & Hpr & Hs1);
        [apply Forall_app; split; [by repeat constructor|apply Forall_app; split; [done|by repeat constructor]]|rewrite !length_app; simpl; lia|by rewrite Hm|].
      rewrite (stM_bind_run _ _ _ _ _ Hpr). exists s1. split; [done|]. by rewrite Hm in Hs1. }
  rewrite (stM_bind_run _ _ _ _ _ Hs1). destruct (IH s1) as (s2 & -> & Hsh2); [by eapply depth_shown|apply Hsh1|done|done|].
  exists s2. split; [done|]. by eapply shown_trans.
Qed.

(** ** What the loader left *)

Definition literals : list string := ["="; ""]%string ++ map fst option_table ++ map fst actions.

Section command_line.
Context (lit : string → Z).

Definition literal_at (m : mem) (w : string) : Prop :=
  cstr m (lit w) (text w) ∧ (lit w + Z.of_nat (length (text w)) < LOADER_ARGS ∨ LOADER_ARGS + LOADER_ARGS_LEN ≤ lit w).
Record loaded (m : mem) (ws : list (list Z)) : Prop := {
  ld_u8 : Forall in_u8 m;
  ld_lits : Forall (literal_at m) literals;
  ld_argc : argc_at m = Ok (Z.of_nat (length ws));
  ld_count : (length ws ≤ 64)%nat;
  ld_row : row m LOADER_ARGS ws;
  ld_size : row_size ws ≤ LOADER_ARGS_LEN }.

Lemma starts_range p ws : Forall (λ a, p ≤ a < p + row_size ws) (starts p ws).
Proof.
  revert p. induction ws as [|w ws IH]; intros p; cbn [starts row_size foldr]; [done|]. change (foldr _ 0 ws) with (row_size ws).
  pose proof (row_size_nonneg ws). constructor; [lia|]. eapply Forall_impl; [apply IH|]. intros a ?. simpl in *. lia.
Qed.
Lemma word_size w ws : w ∈ ws → Z.of_nat (length w) < row_size ws.
Proof.
  induction ws as [|v ws IH]; [by intros ?%elem_of_nil|]. cbn [row_size foldr]. change (foldr _ 0 ws) with (row_size ws).
  pose proof (row_size_nonneg ws). intros [->|Hw]%elem_of_cons; [lia|]. specialize (IH Hw). lia.
Qed.

Lemma read_command_line_run ws s :
  depth_ok s → loaded (cmem s) ws →
  ∃ s', read_command_line s = Ok (starts LOADER_ARGS ws ++ [NULL], s') ∧ shown (shown_line ws) (cmem s) s s'.
Proof.
  intros Hd [Hu _ Hargc Hcnt Hrow Hsize]. unfold read_command_line. rewrite stM_bind_eq. cbn [sget]. rewrite stM_bind_eq. unfold slift at 1.
  rewrite Hargc. rewrite stM_bind_eq. unfold slift at 1. rewrite Nat2Z.id, arg_loop_run; [|done|lia|simpl; unfold ARGV_CNT, LOADER_ARGS_LEN; dlia].
  rewrite (proj2 (Z.leb_le 0 _)), (proj2 (Z.ltb_lt _ ARGV_CNT)) by (try (unfold ARGV_CNT, LOADER_ARGS_LEN; dlia); lia). cbn [andb app].
  rewrite (stM_bind_run _ _ s tt s) by done.
  destruct (say_run "Kernel command line:" s) as (s1 & Hp1 & Hs1); [by vm_compute|done|]. rewrite (stM_bind_run _ _ _ _ _ Hp1).
  destruct (print_loop_run (cmem s) s1 (starts LOADER_ARGS ws) ws) as (s2 & Hp2 & Hs2); [by eapply depth_shown|apply Hs1|done|by apply row_strings| | |].
  { eapply Forall_impl; [apply starts_range|]. intros a Ha. unfold in_u32, LOADER_ARGS_LEN in *. vm_compute (LOADER_ARGS) in Ha. lia. }
  { apply Forall_forall. intros w Hw. apply word_size in Hw. unfold LOADER_ARGS_LEN in *. lia. }
  rewrite (stM_bind_run _ _ _ _ _ Hp2). pose proof (shown_trans _ _ _ _ _ _ _ Hs1 Hs2) as Hs12.
  destruct (say_run (String "010" "") s2) as (s3 & Hp3 & Hs3); [by vm_compute|by eapply depth_shown|].
  unfold say in *. rewrite (stM_bind_run _ _ _ _ _ Hp3). exists s3. split; [done|].
  assert (cmem s2 = cmem s) as Hm2 by apply Hs2. rewrite Hm2 in Hs3. unfold shown_line. rewrite app_assoc. by eapply shown_trans.
Qed.

(** ** Options *)

Definition opt_name (w : list Z) : list Z := CString.tok [61] w.
Definition opt_value (w : list Z) : option (list Z) :=
  match drop (S (length (opt_name w))) w with [] => None | v => Some v end.

Fixpoint lookup_name {A} (t : list (string * A)) (w : list Z) : option A :=
  match t with [] => None | (n, a) :: t => if bool_decide (w = text n) then Some a else lookup_name t w end.

Record settings := mk_settings {
  st_how : Z; st_format : bool; st_filesys : option (list Z); st_scratch : option (list Z); st_mlfqs : bool; st_limit : Z }.
(** The value of [-rs] and [-ul]. *)
Definition number (v : option (list Z)) : option Z :=
  v ← v; if bool_decide (v ≠ [] ∧ Forall (λ c, isdigit c = true) v) then Some (i32 (dec v)) else None.

Definition apply_option (w : list Z) (st : settings) : option settings :=
  o ← lookup_name option_table (opt_name w);
  match o with
  | OHelp => None
  | OPowerOff => Some (mk_settings SHUTDOWN_POWER_OFF (st_format st) (st_filesys st) (st_scratch st) (st_mlfqs st) (st_limit st))
  | OReboot => Some (mk_settings SHUTDOWN_REBOOT (st_format st) (st_filesys st) (st_scratch st) (st_mlfqs st) (st_limit st))
  | OFormat => Some (mk_settings (st_how st) true (st_filesys st) (st_scratch st) (st_mlfqs st) (st_limit st))
  | OFilesys => Some (mk_settings (st_how st) (st_format st) (opt_value w) (st_scratch st) (st_mlfqs st) (st_limit st))
  | OScratch => Some (mk_settings (st_how st) (st_format st) (st_filesys st) (opt_value w) (st_mlfqs st) (st_limit st))
  | OSeed => n ← number (opt_value w); Some st
  | OMlfqs => Some (mk_settings (st_how st) (st_format st) (st_filesys st) (st_scratch st) true (st_limit st))
  | OLimit => n ← number (opt_value w); Some (mk_settings (st_how st) (st_format st) (st_filesys st) (st_scratch st) (st_mlfqs st) (u32 n))
  end.
Fixpoint apply_options (ws : list (list Z)) (st : settings) : option settings :=
  match ws with [] => Some st | w :: ws => st ← apply_option w st; apply_options ws st end.

(** A pointer to a string that ends before [b]. *)
Definition ptr_is (m : mem) (b p : Z) (v : option (list Z)) : Prop :=
  match v with None => p = NULL | Some v => cstr m p v ∧ p + Z.of_nat (length v) < b end.
Definition agrees (m : mem) (b : Z) (o : options) (st : settings) : Prop :=
  how o = st_how st ∧ format_filesys o = st_format st ∧ ptr_is m b (filesys_bdev_name o) (st_filesys st) ∧
  ptr_is m b (scratch_bdev_name o) (st_scratch st) ∧ thread_mlfqs o = st_mlfqs st ∧ user_page_limit o = st_limit st.

Lemma ptr_is_same m m' b b' p v hi : same_outside m m' b hi → b ≤ b' → ptr_is m b p v → ptr_is m' b' p v.
Proof.
  intros Hso Hb. destruct v as [v|]; [|done]. intros [Hc Hp]. split; [|lia]. eapply cstr_same; [done..|]. intros i Hi. lia.
Qed.
Lemma agrees_same m m' b b' o st hi : same_outside m m' b hi → b ≤ b' → agrees m b o st → agrees m' b' o st.
Proof. intros Hso Hb (H1 & H2 & H3 & H4 & H5 & H6). split_and!; try done; by eapply ptr_is_same. Qed.

Lemma find_literal_run {A} (t : list (string * A)) m p w :
  Forall in_u8 m → cstr m p w → Forall (λ e, literal_at m e.1) t → find_literal lit t m p = Ok (lookup_name t w).
Proof.
  intros Hu Hp. induction t as [|[n a] t IH]; intros Ht; [done|]. apply Forall_cons in Ht as [[Hn _] Ht]. cbn [fst] in Hn. cbn [find_literal lookup_name].
  destruct (strcmp_zero m Hu _ _ _ _ Hp Hn) as (r & -> & Hr). cbn [mbind res_bind]. rewrite Hr. case_bool_decide; [done|]. by apply IH.
Qed.

Lemma tok_delims_nil s : CString.tok [] s = s.
Proof. induction s as [|c s IH]; [done|]. cbn. rewrite decide_False by by intros ?%elem_of_nil. by rewrite IH. Qed.
Lemma lstrip_nil s : lstrip [] s = s.
Proof. destruct s as [|c s]; [done|]. cbn. by rewrite decide_False by by intros ?%elem_of_nil. Qed.

(** Taking an option apart. *)
Lemma option_parts m p w ws :
  Forall in_u8 m → Forall (literal_at m) literals → cstr m p (45 :: w) → LOADER_ARGS ≤ p →
  p + Z.of_nat (length w) + 2 ≤ LOADER_ARGS + LOADER_ARGS_LEN → row m (p + Z.of_nat (length w) + 2) ws →
  ∃ m1 m2 save v save2, strtok_r m p (lit "=") NULL = Ok ((p, save), m1) ∧ strtok_r m1 NULL (lit "") save = Ok ((v, save2), m2) ∧
    same_outside m m2 p (p + Z.of_nat (length w) + 2) ∧ cstr m2 p (opt_name (45 :: w)) ∧
    ptr_is m2 (p + Z.of_nat (length w) + 2) v (opt_value (45 :: w)).
Proof.
  intros Hu Hlits Hp Hlo Hhi Hrow. set (o := 45 :: w) in *. assert (length o = S (length w)) as Ho by done.
  assert (literal_at m "=" ∧ literal_at m "") as [[Heq Heqa] [Hemp Hempa]].
  { rewrite Forall_forall in Hlits. split; apply Hlits; repeat (done || constructor). }
  assert (lstrip [61] o = o) as Hls by done.
  destruct (strtok_r_spec m p NULL (lit "=") (text "=") o o Hu Heq) as (m1 & Hr1 & Hso1 & Hn1 & _ & _);
    [by rewrite (cstr_valid _ _ _ Hp)|done|done|]. rewrite (cstr_valid _ _ _ Hp), Nat.sub_diag, Z.add_0_r in *.
  change (CString.tok (text "=") o) with (opt_name o) in *. set (e := p + Z.of_nat (length (opt_name o))) in *.
  pose proof (tok_split [61] o) as Hsp. fold (opt_name o) in Hsp.
  assert (length (opt_name o) + length (drop (length (opt_name o)) o) = length o)%nat as Hsl by (rewrite <- length_app, <- Hsp; done).
  assert (cstr m1 (lit "") []) as Hemp1.
  { eapply cstr_same; [exact Hso1|exact Hemp|]. intros i Hi. simpl in Hi. cbn [text Shell.text] in Hempa. simpl in Hempa. unfold e. lia. }
  destruct (drop (length (opt_name o)) o) as [|c rest] eqn:Erest; rewrite Ho in Hsl; cbn [length] in Hsl.
  - (* no [=] *)
    assert (cstr m1 e []) as He.
    { split_and!; [destruct Hp; unfold e; lia|done|]. intros [|i] x; [|done]. intros [= <-]. rewrite Z.add_0_r. exact (cstr_end _ _ _ Hn1). }
    destruct (strtok_r_none m1 NULL e (lit "") [] []) as (e2 & Hr2); [apply Hso1|done|done|done|].
    eexists m1, m1, _, _, _. split; [exact Hr1|]. split; [exact Hr2|]. split_and!.
    + destruct Hso1 as (H1 & H2 & H3). split_and!; [done..|]. intros x Hx. apply H3. unfold e. lia.
    + done.
    + unfold opt_value. rewrite drop_ge by lia. done.
  - (* [rest] follows the [=] *)
    assert (drop (S (length (opt_name o))) o = rest) as Hdr.
    { replace (S (length (opt_name o))) with (length (opt_name o) + 1)%nat by lia. by rewrite <- drop_drop, Erest. }
    assert (cstr m (e + 1) rest) as Hrest.
    { rewrite Hsp in Hp. apply cstr_app in Hp. by apply cstr_cons in Hp as (_ & _ & Hp). }
    assert (cstr m1 (e + 1) rest) as Hrest1 by (eapply cstr_same; [done..|]; intros; lia).
    destruct rest as [|c2 rest].
    + destruct (strtok_r_none m1 NULL (e + 1) (lit "") [] []) as (e2 & Hr2); [apply Hso1|done|done|done|].
      eexists m1, m1, _, _, _. split; [exact Hr1|]. split; [exact Hr2|]. split_and!.
      * destruct Hso1 as (H1 & H2 & H3). split_and!; [done..|]. intros x Hx. apply H3. unfold e. lia.
      * done.
      * unfold opt_value. by rewrite Hdr.
    + set (v := c2 :: rest) in *.
      destruct (strtok_r_spec m1 NULL (e + 1) (lit "") [] v v) as (m2 & Hr2 & Hso2 & Hv2 & _ & _); [apply Hso1|done|done|by rewrite lstrip_nil|done|].
      cbn [Z.eqb NULL] in *. rewrite tok_delims_nil, Nat.sub_diag, Z.add_0_r, drop_all in *.
      assert (e + 1 + Z.of_nat (length v) = p + Z.of_nat (length o)) as Hend by (unfold e; rewrite Ho; unfold v in *; cbn [length] in *; lia).
      eexists m1, m2, _, _, _. split; [exact Hr1|]. split; [exact Hr2|]. split_and!.
      * destruct Hso1 as (H1 & H2 & H3), Hso2 as (H4 & H5 & H6). split_and!; [congruence|done|]. intros x Hx. rewrite H6, H3 by (unfold e in *; lia). done.
      * eapply cstr_same; [exact Hso2|done|]. intros i Hi. unfold e in *. lia.
      * unfold opt_value. rewrite Hdr. split; [done|]. rewrite Ho in Hend. change (length (c2 :: rest)) with (length v). lia.
Qed.

(** Setting one. *)
Lemma number_run m b v val n : ptr_is m b v val → number val = Some n → atoi m v = Ok n.
Proof.
  unfold number. destruct val as [d|]; [|done]. cbn. intros [Hv _]. case_bool_decide as Hd; [|done]. intros [= <-]. destruct Hd as [Hne Hd].
  pose proof (atoi_spec m v [] [] d []) as Ha. rewrite app_nil_r in Ha. cbn [app] in Ha. rewrite Ha; try done. by left.
Qed.

Lemma set_option_run b w o v st st' s :
  lookup_name option_table (opt_name w) = Some o → apply_option w st = Some st' →
  agrees (cmem (con s)) b (opts s) st → ptr_is (cmem (con s)) b v (opt_value w) →
  ∃ s', set_option o v s = Ok (true, s') ∧ con s' = con s ∧ agrees (cmem (con s)) b (opts s') st'.
Proof.
  intros Hl Hap Hag Hv. unfold apply_option in Hap. rewrite Hl in Hap. cbn [mbind option_bind] in Hap.
  destruct Hag as (H1 & H2 & H3 & H4 & H5 & H6). destruct o; try done; cbn [set_option].
  1-5, 7: injection Hap as <-; eexists; split; [reflexivity|]; split; [done|]; by split_and!.
  - destruct (number (opt_value w)) as [n|] eqn:Hn; [|done]. injection Hap as <-. rewrite stM_bind_eq. unfold on_mem.
    rewrite (number_run _ _ _ _ _ Hv Hn). cbn [mbind res_bind]. rewrite stM_bind_eq. unfold seed.
    destruct (Random.random_init_ok (u32 n)) as (r & -> & _). cbn [mbind res_bind]. eexists. split; [reflexivity|]. split; [done|]. by split_and!.
  - destruct (number (opt_value w)) as [n|] eqn:Hn; [|done]. injection Hap as <-. rewrite stM_bind_eq. unfold on_mem.
    rewrite (number_run _ _ _ _ _ Hv Hn). cbn [mbind res_bind]. eexists. split; [reflexivity|]. split; [done|]. by split_and!.
Qed.

Definition is_option (w : list Z) : Prop := ∃ v, w = 45 :: v.

Lemma options_loop_run os rest p st st' s :
  Forall in_u8 (cmem (con s)) → Forall (literal_at (cmem (con s))) literals → Forall is_option os →
  (∀ w ws, rest = w :: ws → head w ≠ Some 45) → row (cmem (con s)) p (os ++ rest) → LOADER_ARGS ≤ p →
  p + row_size (os ++ rest) ≤ LOADER_ARGS + LOADER_ARGS_LEN →
  agrees (cmem (con s)) p (opts s) st → apply_options os st = Some st' →
  let p' := p + row_size os in
  ∃ s', options_loop lit (starts p (os ++ rest) ++ [NULL]) s = Ok (Some (starts p' rest ++ [NULL]), s') ∧
    con s' = Shell.set_mem (cmem (con s')) (con s) ∧ same_outside (cmem (con s)) (cmem (con s')) p p' ∧
    agrees (cmem (con s')) p' (opts s') st'.
Proof.
  revert p st s. induction os as [|w os IH]; intros p st s Hu Hlits Hos Hrest Hrow Hlo Hhi Hag Hap p'.
  { injection Hap as <-. cbn [app] in *. unfold p'. cbn [row_size foldr]. rewrite Z.add_0_r. exists s. split.
    - destruct rest as [|w ws]; [done|]. cbn [starts app options_loop]. destruct Hrow as [Hw _].
      rewrite (cstr_valid _ _ _ Hw : (p =? NULL) = false). rewrite stM_bind_eq. unfold on_mem. specialize (Hrest w ws eq_refl).
      destruct w as [|c w].
      + by rewrite (cstr_nil _ _ Hw).
      + apply cstr_cons in Hw as (-> & _ & _). cbn [mbind res_bind]. cbn [head] in Hrest.
        by rewrite (proj2 (Z.eqb_neq c 45)) by congruence.
    - split_and!; try done. by destruct (con s). }
  apply Forall_cons in Hos as [[v ->] Hos]. set (o := 45 :: v) in *. cbn [app starts row_size foldr] in *.
  change (foldr _ 0 (os ++ rest)) with (row_size (os ++ rest)) in Hhi. change (foldr _ 0 os) with (row_size os) in p'.
  assert (Z.of_nat (length o) = Z.of_nat (length v) + 1) as Hol by (unfold o; cbn [length]; lia).
  destruct Hrow as [Hw Hrow]. pose proof (row_size_nonneg (os ++ rest)).
  replace (p + Z.of_nat (length o) + 1) with (p + Z.of_nat (length v) + 2) in * by lia.
  destruct (option_parts (cmem (con s)) p v (os ++ rest)) as (m1 & m2 & save & val & save2 & Hr1 & Hr2 & Hso & Hnm & Hval); [done..|lia|done|].
  cbn [apply_options] in Hap. destruct (apply_option o st) as [st1|] eqn:Ha1; [|done]. cbn [mbind option_bind] in Hap.
  cbn [options_loop]. rewrite (cstr_valid _ _ _ Hw : (p =? NULL) = false). rewrite stM_bind_eq. unfold on_mem at 1.
  pose proof Hw as (Hld & _ & _)%cstr_cons. rewrite Hld. cbn [mbind res_bind]. rewrite Z.eqb_refl. cbn [negb].
  rewrite stM_bind_eq. unfold tok at 1. rewrite Hr1. cbn [mbind res_bind]. rewrite stM_bind_eq. unfold tok at 1. cbn [con Shell.set_mem cmem].
  rewrite Hr2. cbn [mbind res_bind]. rewrite stM_bind_eq. unfold on_mem at 1. cbn [con Shell.set_mem cmem].
  assert (Forall (literal_at m2) literals) as Hlits2.
  { eapply Forall_impl; [exact Hlits|]. intros x [Hx Hxa]. split; [|done]. eapply cstr_same; [exact Hso|exact Hx|]. intros i Hi. lia. }
  rewrite (find_literal_run option_table m2 p (opt_name o)); [|apply Hso|done|].
  2:{ assert (Forall (literal_at m2) (map fst option_table)) as Hl2 by (unfold literals in Hlits2; rewrite !Forall_app in Hlits2; tauto).
      by rewrite Forall_map in Hl2. }
  cbn [mbind res_bind]. destruct (lookup_name option_table (opt_name o)) as [on|] eqn:Hon.
  2:{ unfold apply_option in Ha1. by rewrite Hon in Ha1. }
  set (s2 := mk_boot (Shell.set_mem m2 (con s)) (opts s) (rand s)).
  destruct (set_option_run (p + Z.of_nat (length v) + 2) o on val st st1 s2) as (s3 & Hs3 & Hc3 & Hag3); [done|done| |done|].
  { eapply agrees_same; [exact Hso|lia|done]. }
  rewrite stM_bind_eq. match goal with |- context [set_option on val ?x] => change x with s2 end. rewrite Hs3. cbn [con Shell.set_mem cmem] in Hag3. assert (cmem (con s3) = m2) as Hm3 by (by rewrite Hc3).
  destruct (IH (p + Z.of_nat (length v) + 2) st1 s3) as (s4 & Hl4 & Hc4 & Hso4 & Hag4); rewrite ?Hm3 in *; try done; try lia.
  { apply Hso. }
  { eapply row_same; [exact Hso|lia|done]. }
  assert (p + Z.of_nat (length v) + 2 + row_size os = p') as Hp' by (unfold p'; lia). rewrite Hp' in *.
  exists s4. split; [exact Hl4|]. split; [rewrite Hc4, Hc3; done|]. split; [|done]. pose proof (row_size_nonneg os).
  destruct Hso as (L1 & _ & X1), Hso4 as (L2 & U2 & X2). split_and!; [congruence|done|]. intros x Hx. rewrite X2, X1 by lia. done.
Qed.

(** ** Actions *)

(** What is called, with which words and with which array. *)
Record call := mk_call { c_action : action; c_args : list (list Z); c_argv : list Z }.
Fixpoint plan (fuel : nat) (p : Z) (ws : list (list Z)) : option (list call) :=
  match fuel, ws with
  | _, [] => Some []
  | O, _ => None
  | S fuel, w :: _ =>
      '(argc, a) ← lookup_name actions w;
      if bool_decide (argc ≤ length ws)%nat then
        l ← plan fuel (p + row_size (take argc ws)) (drop argc ws);
        Some (mk_call a (take argc ws) (starts p ws ++ [NULL]) :: l)
      else None
  end.
Fixpoint perform_all (perform : action → list Z → stM boot unit) (l : list call) : stM boot unit :=
  match l with [] => mret tt | c :: l => perform (c_action c) (c_argv c);; perform_all perform l end.

Lemma starts_drop n p ws : drop n (starts p ws) = starts (p + row_size (take n ws)) (drop n ws).
Proof.
  revert p ws. induction n as [|n IH]; intros p [|w ws]; cbn [drop starts take row_size foldr]; rewrite ?Z.add_0_r; try done.
  change (foldr _ 0 (take n ws)) with (row_size (take n ws)). rewrite IH. f_equal. lia.
Qed.
Lemma row_drop m n p ws : row m p ws → row m (p + row_size (take n ws)) (drop n ws).
Proof.
  revert p ws. induction n as [|n IH]; intros p [|w ws] Hr; cbn [drop take row_size foldr]; rewrite ?Z.add_0_r; try done.
  destruct Hr as [_ Hr]. apply IH in Hr. change (foldr _ 0 (take n ws)) with (row_size (take n ws)).
  by replace (p + (Z.of_nat (length w) + 1 + row_size (take n ws))) with (p + Z.of_nat (length w) + 1 + row_size (take n ws)) by lia.
Qed.

Lemma check_args_run n ps : Forall (λ a, a ≠ NULL) ps → (n ≤ length ps)%nat → check_args n (ps ++ [NULL]) = Ok tt.
Proof.
  revert ps. induction n as [|n IH]; intros [|a ps] Hps Hn; try done; [simpl in Hn; lia|]. cbn [app check_args].
  apply Forall_cons in Hps as [Ha Hps]. rewrite (proj2 (Z.eqb_neq a NULL)) by done. apply IH; [done|]. simpl in Hn. lia.
Qed.

Lemma lookup_actions w argc a : lookup_name actions w = Some (argc, a) → (1 ≤ argc ≤ 2)%nat.
Proof. cbn [lookup_name actions]. repeat case_bool_decide; intros [=]; subst; lia. Qed.

Definition keeps_memory (f : stM boot unit) : Prop := ∀ s s', f s = Ok (tt, s') → cmem (con s') = cmem (con s).

Lemma run_loop_run perform m fuel k p ws l s :
  (∀ a argv, keeps_memory (perform a argv)) → Forall in_u8 m → Forall (literal_at m) literals → row m p ws → 0 < p → cmem (con s) = m →
  plan k p ws = Some l → (length ws < fuel)%nat →
  run_loop lit perform fuel (starts p ws ++ [NULL]) s = perform_all perform l s ∧
  Forall (λ c, Forall2 (cstr m) (take (length (c_args c)) (c_argv c)) (c_args c)) l.
Proof.
  intros Hkeep Hu Hlits. revert k p ws l s. induction fuel as [|fuel IH]; intros k p ws l s Hrow Hp Hm Hplan Hf; [lia|].
  destruct ws as [|w ws].
  { assert (l = []) as -> by (destruct k; by injection Hplan as <-). done. }
  destruct k as [|k]; [done|]. set (all := w :: ws) in *. cbn [plan] in Hplan. unfold all in Hplan at 1. fold all in Hplan.
  destruct (lookup_name actions w) as [[argc a]|] eqn:Hl; [|done]. cbn [mbind option_bind] in Hplan. case_bool_decide as Hargc; [|done].
  destruct (plan k _ (drop argc all)) as [l2|] eqn:Hp2; [|done]. cbn [mbind option_bind] in Hplan. injection Hplan as <-.
  pose proof (lookup_actions _ _ _ Hl) as Ha. pose proof Hrow as [Hw _]. pose proof (row_strings _ _ _ Hrow) as Hps.
  assert (starts p all ++ [NULL] = p :: starts (p + Z.of_nat (length w) + 1) ws ++ [NULL]) as Hst by done.
  assert (drop argc (starts p all ++ [NULL]) = starts (p + row_size (take argc all)) (drop argc all) ++ [NULL]) as Hdrop
    by (rewrite drop_app_le by (rewrite length_starts; lia); by rewrite starts_drop).
  pose proof (row_size_nonneg (take argc all)).
  split.
  - cbn [perform_all c_action c_argv]. cbn [run_loop]. rewrite Hst. rewrite (cstr_valid _ _ _ Hw : (p =? NULL) = false).
    rewrite stM_bind_eq. unfold on_mem. rewrite Hm, (find_literal_run actions m p w); [|done|done|].
    2:{ assert (Forall (literal_at m) (map fst actions)) as H2 by (unfold literals in Hlits; rewrite !Forall_app in Hlits; tauto).
        by rewrite Forall_map in H2. }
    cbn [mbind res_bind]. rewrite Hl. rewrite stM_bind_eq. unfold slift. rewrite check_args_run; [|..].
    2:{ inversion Hps as [|? ? ? ? _ Hps2]; subst. clear -Hps2. induction Hps2 as [|x y ? ? Hx _ IH]; [done|]. constructor; [|done].
        destruct Hx as [Hx _]. unfold NULL. lia. }
    2:{ rewrite length_starts. unfold all in Hargc. simpl in Hargc. lia. }
    rewrite <- Hst. rewrite !stM_bind_eq. destruct (perform a (starts p all ++ [NULL]) s) as [[[] s1]|] eqn:Hpf; [|done].
    rewrite Hdrop. eapply IH; [by apply row_drop|lia| |done|].
    + rewrite (Hkeep _ _ _ _ Hpf). done.
    + rewrite length_drop. unfold all in *. simpl in *. lia.
  - constructor.
    + cbn [c_args c_argv]. rewrite <- Hst, take_app_le by (rewrite length_starts, length_take; lia). rewrite length_take, Nat.min_l by lia.
      by apply Forall2_take.
    + eapply (IH k (p + row_size (take argc all)) (drop argc all) l2 s); [by apply row_drop|lia|done|done|].
      rewrite length_drop. unfold all in *. simpl in *. lia.
Qed.

Lemma command_line_run init shell power_off reboot thread_exit perform now os acts st st' l s :
  depth_ok (con s) → loaded (cmem (con s)) (os ++ acts) → Forall is_option os →
  acts ≠ [] → (∀ w ws, acts = w :: ws → head w ≠ Some 45) →
  agrees (cmem (con s)) LOADER_ARGS (opts s) st → apply_options os st = Some st' →
  plan (length acts) (LOADER_ARGS + row_size os) acts = Some l →
  keeps_memory init → (∀ a argv, keeps_memory (perform a argv)) →
  ∃ s1, pintos_init lit init shell power_off reboot thread_exit perform now s = (init;; perform_all perform l;; shutdown power_off reboot;; thread_exit) s1 ∧
    out (con s1) = reverse (shown_line (os ++ acts)) ++ out (con s) ∧
    agrees (cmem (con s1)) (LOADER_ARGS + row_size os) (opts s1) st' ∧
    Random.random_init (u32 now) = Ok (rand s1) ∧
    Forall (λ c, Forall2 (cstr (cmem (con s1))) (take (length (c_args c)) (c_argv c)) (c_args c)) l.
Proof.
  intros Hd Hld Hos Hne Hact Hag Hap Hplan Hinit Hkeep. pose proof Hld as [Hu Hlits _ _ Hrow Hsize].
  destruct (read_command_line_run (os ++ acts) (con s) Hd Hld) as (c1 & Hr & Hs1 & _ & Hm1).
  unfold pintos_init. rewrite stM_bind_eq. unfold on_con at 1. rewrite Hr. cbn [mbind res_bind].
  set (s0 := mk_boot c1 (opts s) (rand s)).
  destruct (options_loop_run os acts LOADER_ARGS st st' s0) as (s2 & Hl2 & Hc2 & Hso & Hag2); cbn [s0 con opts]; rewrite ?Hm1; try done; [lia|].
  rewrite stM_bind_eq. unfold parse_options. rewrite (stM_bind_run _ _ _ _ _ Hl2).
  rewrite stM_bind_eq. unfold seed. destruct (Random.random_init_ok (u32 now)) as (r & Hrng & _). rewrite Hrng. cbn [mbind res_bind mret stM_ret].
  set (s3 := mk_boot (con s2) (opts s2) r). exists s3. cbn [s0 con] in Hso. rewrite Hm1 in Hso.
  assert (Forall (literal_at (cmem (con s2))) literals) as Hlits2.
  { eapply Forall_impl; [exact Hlits|]. intros x [Hx Hxa]. split; [|done]. eapply cstr_same; [exact Hso|exact Hx|].
    rewrite row_size_app in Hsize. pose proof (row_size_nonneg acts). intros i Hi. lia. }
  assert (row (cmem (con s2)) (LOADER_ARGS + row_size os) acts) as Hrow2 by (eapply row_same; [exact Hso|lia|by apply row_app]).
  assert (∀ s, cmem (con s) = cmem (con s2) → run_actions lit perform (starts (LOADER_ARGS + row_size os) acts ++ [NULL]) s = perform_all perform l s ∧
    Forall (λ c, Forall2 (cstr (cmem (con s2))) (take (length (c_args c)) (c_argv c)) (c_args c)) l) as Hrun.
  { intros s4 Hm4. unfold run_actions. pose proof (row_size_nonneg os). eapply run_loop_run; [done|apply Hso|done|done| |done|done|].
    - vm_compute (LOADER_ARGS). lia.
    - rewrite length_app, length_starts. simpl. lia. }
  split_and!; [| | |done|by apply (Hrun s3)].
  - rewrite !stM_bind_eq. destruct (init s3) as [[[] s4]|] eqn:Hi; [|done].
    destruct acts as [|w ws]; [done|]. cbn [starts app head]. rewrite stM_bind_eq. unfold slift at 1. cbn [deref].
    assert ((LOADER_ARGS + row_size os =? NULL) = false) as -> by (apply (cstr_valid (cmem (con s2)) _ w), Hrow2). cbn [negb].
    rewrite !stM_bind_eq. destruct (Hrun s4) as [Hrn _]; [by rewrite (Hinit _ _ Hi)|]. cbn [starts app] in Hrn. by rewrite Hrn.
  - cbn [s3 con]. rewrite Hc2. exact Hs1.
  - exact Hag2.
Qed.


(** C34: The option [-rs] has no effect, against the help text and the comment in
    [parse_options].  Although a command line asks for a seed, the random
    numbers start from the time of day, as they do without the option: whatever
    the other options and the actions are, the state of the generator when the actions
    run is that of [random_init] of the time. *)
Theorem seed_option_lost init shell power_off reboot thread_exit perform now os acts st st' l s digits :
  text "-rs=" ++ digits ∈ os →
  depth_ok (con s) → loaded (cmem (con s)) (os ++ acts) → Forall is_option os →
  acts ≠ [] → (∀ w ws, acts = w :: ws → head w ≠ Some 45) →
  agrees (cmem (con s)) LOADER_ARGS (opts s) st → apply_options os st = Some st' →
  plan (length acts) (LOADER_ARGS + row_size os) acts = Some l →
  keeps_memory init → (∀ a argv, keeps_memory (perform a argv)) →
  ∃ s1, pintos_init lit init shell power_off reboot thread_exit perform now s = (init;; perform_all perform l;; shutdown power_off reboot;; thread_exit) s1 ∧
    Random.random_init (u32 now) = Ok (rand s1).
Proof.
  intros _ H1 H2 H3 H4 H5 H6 H7 H8 H9 H10.
  destruct (command_line_run init shell power_off reboot thread_exit perform now os acts st st' l s H1 H2 H3 H4 H5 H6 H7 H8 H9 H10) as (s1 & ? & _ & _ & ? & _).
  by exists s1.
Qed.

End command_line.

(** ** Witness *)

(** [-q -rs=42 run 'echo x' ls], with the literals behind the loader. *)
Definition sample_words : list (list Z) := map text ["-q"; "-rs=42"; "run"; "echo x"; "ls"]%string.
Definition sample_row (ws : list (list Z)) : list Z := concat (map (λ w, w ++ [0]) ws).
Definition sample_loader : mem :=
  replicate (Z.to_nat LOADER_ARG_CNT) 0 ++ le_bytes 4 5 ++ sample_row sample_words ++
  replicate (128 - length (sample_row sample_words)) 0 ++ replicate 66 0 ++ sample_row (map text literals).
Fixpoint sample_lit_from (p : Z) (l : list string) (w : string) : Z :=
  match l with [] => 0 | x :: l => if String.eqb x w then p else sample_lit_from (p + Z.of_nat (length (text x)) + 1) l w end.
Definition sample_lit (w : string) : Z := sample_lit_from LOADER_END literals w.
Definition sample_boot : boot :=
  mk_boot (mk_console true false None 0 0 sample_loader []) (mk_options 0 false 0 0 false (W32 - 1)) (Random.mk_rng [] 0 0 false).

Lemma sample_cstr a w :
  (0 <? a) && bool_decide (Forall (λ c, c ≠ 0) w) && bool_decide (slice (Z.to_nat a) (S (length w)) sample_loader = w ++ [0]) = true →
  cstr sample_loader a w.
Proof.
  intros [[H1%Z.ltb_lt H2%bool_decide_eq_true]%andb_true_iff H3%bool_decide_eq_true]%andb_true_iff. by apply cstr_intro.
Qed.

Lemma sample_loaded : loaded sample_lit sample_loader sample_words.
Proof.
  constructor.
  - apply (bool_decide_unpack _). vm_compute. exact I.
  - unfold literals. repeat (constructor; [split; [apply sample_cstr; vm_compute; reflexivity|right; vm_compute; discriminate]|]). constructor.
  - vm_compute. reflexivity.
  - vm_compute. lia.
  - repeat (split; [apply sample_cstr; vm_compute; reflexivity|]). exact I.
  - vm_compute. discriminate.
Qed.


(** [-rs=42] at time 7. *)
Lemma seed_option_lost_witness :
  ∃ s1 l, pintos_init sample_lit (mret tt) (mret tt) (serr EPanic) (mret tt) (mret tt) (λ _ _, mret tt) 7 sample_boot =
      (mret tt;; perform_all (λ _ _, mret tt) l;; shutdown (serr EPanic) (mret tt);; mret tt) s1 ∧
    Random.random_init (u32 7) = Ok (rand s1).
Proof.
  destruct (seed_option_lost sample_lit (mret tt) (mret tt) (serr EPanic) (mret tt) (mret tt) (λ _ _, mret tt) 7 (take 2 sample_words) (drop 2 sample_words)
    (mk_settings 0 false None None false (W32 - 1)) (mk_settings 1 false None None false (W32 - 1))
    (default [] (plan 3 (LOADER_ARGS + row_size (take 2 sample_words)) (drop 2 sample_words))) sample_boot (text "42")) as (s1 & Hr & Hseed).
  - right. left.
  - by intros d.
  - rewrite take_drop. exact sample_loaded.
  - repeat (constructor; [by eexists|]). constructor.
  - done.
  - by intros w ws [= <- <-].
  - by split_and!.
  - vm_compute. reflexivity.
  - vm_compute. reflexivity.
  - by intros s s' [= <-].
  - by intros a argv s s' [= <-].
  - eexists s1, _. split; [exact Hr|exact Hseed].
Defined.
