(* ===== verification/KList.v ===== *)
(** * lib/kernel/list.c: doubly linked lists

    A heap maps the address of a [struct list_elem] to its two pointers.  A
    [struct list] at address [l] has its head element at [l] and its tail
    element at [l + 8].  [less] is the comparison a caller passes, as a
    function of the addresses of two elements.  Loops are bounded by the number
    of elements in the heap, which no walk along a well-formed list exceeds. *)

From stdpp Require Import sorting.
From S2P Require Import Prelude.

Module KList.

Record list_elem := mk_elem { prev : Z; next : Z }.
Abbreviation heap := (gmap Z list_elem).

Definition NULL : Z := 0.

(** ** Fields *)

Inductive field := Prev (e : Z) | Next (e : Z).

Definition get (f : field) : stM heap Z := λ h,
  match f with
  | Prev e => n ← deref (h !! e); Ok (prev n, h)
  | Next e => n ← deref (h !! e); Ok (next n, h)
  end.

Definition set (f : field) (v : Z) : stM heap unit := λ h,
  match f with
  | Prev e => n ← deref (h !! e); Ok (tt, <[e := mk_elem v (next n)]> h)
  | Next e => n ← deref (h !! e); Ok (tt, <[e := mk_elem (prev n) v]> h)
  end.

Definition nonnull (e : Z) : bool := negb (e =? NULL).

(** [elem != NULL && elem->prev ... && elem->next ...] *)
Definition kind (p n : bool) (e : Z) : stM heap bool :=
  if nonnull e then
    x ← get (Prev e);
    if negb (eqb (nonnull x) p) then mret false
    else y ← get (Next e); mret (eqb (nonnull y) n)
  else mret false.

Definition is_head : Z → stM heap bool := kind false true.
Definition is_interior : Z → stM heap bool := kind true true.
Definition is_tail : Z → stM heap bool := kind true false.

(** [ASSERT (a || b)] *)
Definition assert_either (a b : stM heap bool) : stM heap unit :=
  x ← a; if (x : bool) then mret tt else y ← b; sassert y.

(** ** Access *)

Definition list_init (l : Z) : stM heap unit :=
  sassert (nonnull l);;
  smod (λ h, <[l := mk_elem NULL (l + 8)]> (<[l + 8 := mk_elem l NULL]> h)).

Definition list_begin (l : Z) : stM heap Z := sassert (nonnull l);; get (Next l).
Definition list_next (e : Z) : stM heap Z := assert_either (is_head e) (is_interior e);; get (Next e).
Definition list_end (l : Z) : stM heap Z := sassert (nonnull l);; mret (l + 8).
Definition list_rbegin (l : Z) : stM heap Z := sassert (nonnull l);; get (Prev (l + 8)).
Definition list_prev (e : Z) : stM heap Z := assert_either (is_interior e) (is_tail e);; get (Prev e).
Definition list_rend (l : Z) : stM heap Z := sassert (nonnull l);; mret l.
Definition list_head (l : Z) : stM heap Z := sassert (nonnull l);; mret l.
Definition list_tail (l : Z) : stM heap Z := sassert (nonnull l);; mret (l + 8).

Definition list_empty (l : Z) : stM heap bool :=
  b ← list_begin l; e ← list_end l; mret (b =? e).
Definition list_front (l : Z) : stM heap Z :=
  e ← list_empty l; sassert (negb e);; get (Next l).
Definition list_back (l : Z) : stM heap Z :=
  e ← list_empty l; sassert (negb e);; get (Prev (l + 8)).

(** ** Insertion and removal *)

Definition list_insert (before e : Z) : stM heap unit :=
  assert_either (is_interior before) (is_tail before);;
  sassert (nonnull e);;
  p ← get (Prev before);
  set (Prev e) p;;
  set (Next e) before;;
  p ← get (Prev before);
  set (Next p) e;;
  set (Prev before) e.

Definition list_splice (before first last : Z) : stM heap unit :=
  assert_either (is_interior before) (is_tail before);;
  if first =? last then mret tt
  else
    last ← list_prev last;
    i ← is_interior first; sassert i;;
    i ← is_interior last; sassert i;;
    p ← get (Prev first); n ← get (Next last);
    set (Next p) n;;
    n ← get (Next last); p ← get (Prev first);
    set (Prev n) p;;
    p ← get (Prev before);
    set (Prev first) p;;
    set (Next last) before;;
    p ← get (Prev before);
    set (Next p) first;;
    set (Prev before) last.

Definition list_push_front (l e : Z) : stM heap unit := b ← list_begin l; list_insert b e.
Definition list_push_back (l e : Z) : stM heap unit := t ← list_end l; list_insert t e.

Definition list_remove (e : Z) : stM heap Z :=
  i ← is_interior e; sassert i;;
  p ← get (Prev e); n ← get (Next e);
  set (Next p) n;;
  n ← get (Next e); p ← get (Prev e);
  set (Prev n) p;;
  get (Next e).

Definition list_pop_front (l : Z) : stM heap Z := e ← list_front l; _ ← list_remove e; mret e.
Definition list_pop_back (l : Z) : stM heap Z := e ← list_back l; _ ← list_remove e; mret e.

(** ** Loops over a list *)

(** The bound of every loop. *)
Definition bound : stM heap nat := sread (λ h, S (size h)).

Fixpoint size_loop (fuel : nat) (e l cnt : Z) : stM heap Z :=
  match fuel with
  | O => serr EFuel
  | S fuel =>
      t ← list_end l;
      if e =? t then mret cnt else e ← list_next e; size_loop fuel e l (u32 (cnt + 1))
  end.
Definition list_size (l : Z) : stM heap Z :=
  fuel ← bound; e ← list_begin l; size_loop fuel e l 0.

Definition swap (a b : field) : stM heap unit :=
  t ← get a; u ← get b; set a u;; set b t.

Fixpoint reverse_loop (fuel : nat) (e l : Z) : stM heap unit :=
  match fuel with
  | O => serr EFuel
  | S fuel =>
      t ← list_end l;
      if e =? t then mret tt
      else swap (Prev e) (Next e);; e ← get (Prev e); reverse_loop fuel e l
  end.

Definition list_reverse (l : Z) : stM heap unit :=
  empty ← list_empty l;
  if (empty : bool) then mret tt
  else
    fuel ← bound;
    e ← list_begin l;
    reverse_loop fuel e l;;
    swap (Next l) (Prev (l + 8));;
    a ← get (Next l); b ← get (Prev (l + 8));
    swap (Prev a) (Next b).

Section ordered.
Variable less : Z → Z → bool.

Fixpoint sorted_loop (fuel : nat) (a b : Z) : stM heap bool :=
  match fuel with
  | O => serr EFuel
  | S fuel =>
      a ← list_next a;
      if a =? b then mret true
      else p ← list_prev a; if less a p then mret false else sorted_loop fuel a b
  end.
Definition is_sorted (a b : Z) : stM heap bool :=
  fuel ← bound; if a =? b then mret true else sorted_loop fuel a b.

Fixpoint run_loop (fuel : nat) (a b : Z) : stM heap Z :=
  match fuel with
  | O => serr EFuel
  | S fuel =>
      a ← list_next a;
      if a =? b then mret a
      else p ← list_prev a; if less a p then mret a else run_loop fuel a b
  end.
Definition find_end_of_run (a b : Z) : stM heap Z :=
  sassert (nonnull a);; sassert (nonnull b);; sassert (negb (a =? b));;
  fuel ← bound; run_loop fuel a b.

Fixpoint merge_loop (fuel : nat) (a0 a1b0 b1 : Z) : stM heap unit :=
  match fuel with
  | O => serr EFuel
  | S fuel =>
      if negb (a0 =? a1b0) && negb (a1b0 =? b1) then
        if negb (less a1b0 a0) then a0 ← list_next a0; merge_loop fuel a0 a1b0 b1
        else
          a1b0 ← list_next a1b0;
          p ← list_prev a1b0;
          list_splice a0 p a1b0;;
          merge_loop fuel a0 a1b0 b1
      else mret tt
  end.
Definition inplace_merge (a0 a1b0 b1 : Z) : stM heap unit :=
  sassert (nonnull a0);; sassert (nonnull a1b0);; sassert (nonnull b1);;
  s ← is_sorted a0 a1b0; sassert s;;
  s ← is_sorted a1b0 b1; sassert s;;
  fuel ← bound; merge_loop fuel a0 a1b0 b1.

(** One pass of the merge sort: the number of runs it put out. *)
Fixpoint pass_loop (fuel : nat) (l a0 cnt : Z) : stM heap Z :=
  match fuel with
  | O => serr EFuel
  | S fuel =>
      t ← list_end l;
      if a0 =? t then mret cnt
      else
        let cnt := u32 (cnt + 1) in
        a1b0 ← find_end_of_run a0 t;
        if a1b0 =? t then mret cnt
        else
          b1 ← find_end_of_run a1b0 t;
          inplace_merge a0 a1b0 b1;;
          pass_loop fuel l b1 cnt
  end.

Fixpoint sort_loop (fuel : nat) (l : Z) : stM heap unit :=
  match fuel with
  | O => serr EFuel
  | S fuel =>
      a0 ← list_begin l;
      n ← bound;
      cnt ← pass_loop n l a0 0;
      if 1 <? cnt then sort_loop fuel l else mret tt
  end.

Definition list_sort (l : Z) : stM heap unit :=
  sassert (nonnull l);;
  fuel ← bound;
  sort_loop fuel l;;
  b ← list_begin l; e ← list_end l; s ← is_sorted b e; sassert s.

Fixpoint place_loop (fuel : nat) (l elem e : Z) : stM heap Z :=
  match fuel with
  | O => serr EFuel
  | S fuel =>
      t ← list_end l;
      if e =? t then mret e
      else if less elem e then mret e else e ← list_next e; place_loop fuel l elem e
  end.
Definition list_insert_ordered (l elem : Z) : stM heap unit :=
  sassert (nonnull l);; sassert (nonnull elem);;
  fuel ← bound; e ← list_begin l; e ← place_loop fuel l elem e; list_insert e elem.

Fixpoint unique_loop (fuel : nat) (l duplicates elem : Z) : stM heap unit :=
  match fuel with
  | O => serr EFuel
  | S fuel =>
      next ← list_next elem;
      t ← list_end l;
      if next =? t then mret tt
      else if negb (less elem next) && negb (less next elem) then
        _ ← list_remove next;
        (if nonnull duplicates then list_push_back duplicates next else mret tt);;
        unique_loop fuel l duplicates elem
      else unique_loop fuel l duplicates next
  end.
Definition list_unique (l duplicates : Z) : stM heap unit :=
  sassert (nonnull l);;
  empty ← list_empty l;
  if (empty : bool) then mret tt
  else fuel ← bound; e ← list_begin l; unique_loop fuel l duplicates e.

(** The common loop of [list_max] and [list_min]; [better m e] says that [e]
    replaces [m]. *)
Fixpoint best_loop (better : Z → Z → bool) (fuel : nat) (l best e : Z) : stM heap Z :=
  match fuel with
  | O => serr EFuel
  | S fuel =>
      t ← list_end l;
      if e =? t then mret best
      else
        let best := if better best e then e else best in
        e ← list_next e; best_loop better fuel l best e
  end.
Definition best_of (better : Z → Z → bool) (l : Z) : stM heap Z :=
  fuel ← bound;
  m ← list_begin l; t ← list_end l;
  if m =? t then mret m else e ← list_next m; best_loop better fuel l m e.
Definition list_max (l : Z) : stM heap Z := best_of less l.
Definition list_min (l : Z) : stM heap Z := best_of (λ m e, less e m) l.

End ordered.

(** ** Well-formed lists

    [seg h p ns q]: the elements [ns] are linked in this order, the first one's
    [prev] is [p] and the last one's [next] is [q]. *)

Fixpoint seg (h : heap) (p : Z) (ns : list Z) (q : Z) : Prop :=
  match ns with
  | [] => True
  | a :: ns => h !! a = Some (mk_elem p (hd q ns)) ∧ seg h a ns q
  end.

Definition lst (p : Z) (ns : list Z) : Z := foldl (λ _ a, a) p ns.

(** The list at [l] holds the elements [xs]. *)
Definition ring (l : Z) (xs : list Z) : list Z := l :: xs ++ [l + 8].
Record is_list (h : heap) (l : Z) (xs : list Z) : Prop := {
  il_seg : seg h NULL (ring l xs) NULL;
  il_nodup : NoDup (ring l xs);
  il_nonnull : Forall (λ a, a ≠ NULL) (ring l xs);
}.

Lemma lst_snoc p ns a : lst p (ns ++ [a]) = a.
Proof. unfold lst. by rewrite foldl_app. Qed.

Lemma hd_app q (xs ys : list Z) : hd q (xs ++ ys) = hd (hd q ys) xs.
Proof. by destruct xs. Qed.

Lemma seg_app h p xs ys q :
  seg h p (xs ++ ys) q ↔ seg h p xs (hd q ys) ∧ seg h (lst p xs) ys q.
Proof.
  revert p. induction xs as [|a xs IH]; intros p; simpl; [tauto|]. rewrite IH, hd_app. tauto.
Qed.

Lemma seg_frame h h' p ns q :
  (∀ a, a ∈ ns → h' !! a = h !! a) → seg h p ns q → seg h' p ns q.
Proof.
  revert p. induction ns as [|a ns IH]; intros p Hf; [done|]. intros [Ha Hs].
  split; [rewrite Hf; [done|by left]|]. apply IH; [|done]. intros b Hb. apply Hf. by right.
Qed.

Lemma seg_insert_ne h a n p ns q : a ∉ ns → seg (<[a := n]> h) p ns q ↔ seg h p ns q.
Proof.
  intros Ha. split; apply seg_frame; intros b Hb; rewrite lookup_insert_ne; try done; by intros ->.
Qed.

Lemma seg_lookup h p xs a ys q :
  seg h p (xs ++ a :: ys) q → h !! a = Some (mk_elem (lst p xs) (hd q ys)).
Proof. rewrite seg_app. by intros [_ [? _]]. Qed.

(** A list, opened between two neighbouring elements. *)
Lemma ring_split l xs ys :
  ∃ P p b Q, ring l (xs ++ ys) = P ++ p :: b :: Q ∧ l :: xs = P ++ [p] ∧ ys ++ [l + 8] = b :: Q.
Proof.
  destruct (exists_last (l := l :: xs)) as (P & p & HP); [done|].
  destruct (ys ++ [l + 8]) as [|b Q] eqn:HQ; [by destruct ys|].
  exists P, p, b, Q. split; [|done]. unfold ring.
  rewrite <- app_assoc, HQ, app_comm_cons, HP, <- app_assoc. done.
Qed.

Lemma eqb_spec_false a b : a ≠ b → (a =? b) = false.
Proof. apply Z.eqb_neq. Qed.

Lemma nonnull_true a : a ≠ NULL → nonnull a = true.
Proof. intros. unfold nonnull. by rewrite (proj2 (Z.eqb_neq _ _)). Qed.

(** ** Running the primitives *)

Lemma get_prev_run h e p n : h !! e = Some (mk_elem p n) → get (Prev e) h = Ok (p, h).
Proof. intros He. simpl. by rewrite He. Qed.
Lemma get_next_run h e p n : h !! e = Some (mk_elem p n) → get (Next e) h = Ok (n, h).
Proof. intros He. simpl. by rewrite He. Qed.
Lemma set_prev_run h e p n v :
  h !! e = Some (mk_elem p n) → set (Prev e) v h = Ok (tt, <[e := mk_elem v n]> h).
Proof. intros He. simpl. by rewrite He. Qed.
Lemma set_next_run h e p n v :
  h !! e = Some (mk_elem p n) → set (Next e) v h = Ok (tt, <[e := mk_elem p v]> h).
Proof. intros He. simpl. by rewrite He. Qed.

Lemma kind_run bp bn h e p n :
  h !! e = Some (mk_elem p n) → e ≠ NULL →
  kind bp bn e h = Ok (eqb (nonnull p) bp && eqb (nonnull n) bn, h).
Proof.
  intros He Hn. unfold kind. rewrite nonnull_true by done.
  erewrite stM_bind_run by by eapply get_prev_run.
  destruct (eqb (nonnull p) bp); [|done]. cbn [negb].
  by erewrite stM_bind_run by by eapply get_next_run.
Qed.

Lemma assert_begin_run h e p n :
  h !! e = Some (mk_elem p n) → e ≠ NULL → n ≠ NULL →
  assert_either (is_head e) (is_interior e) h = Ok (tt, h).
Proof.
  intros He Hn Hnn. unfold assert_either, is_head, is_interior.
  erewrite stM_bind_run by by eapply kind_run. rewrite (nonnull_true n) by done.
  destruct (nonnull p) eqn:Hp; simpl; [|done].
  erewrite stM_bind_run by by eapply kind_run. by rewrite Hp, (nonnull_true n).
Qed.

Lemma assert_inner_run h e p n :
  h !! e = Some (mk_elem p n) → e ≠ NULL → p ≠ NULL →
  assert_either (is_interior e) (is_tail e) h = Ok (tt, h).
Proof.
  intros He Hn Hp. unfold assert_either, is_tail, is_interior.
  erewrite stM_bind_run by by eapply kind_run. rewrite (nonnull_true p) by done.
  destruct (nonnull n) eqn:Hnn; simpl; [done|].
  erewrite stM_bind_run by by eapply kind_run. by rewrite Hnn, (nonnull_true p).
Qed.

Lemma interior_run h e p n :
  h !! e = Some (mk_elem p n) → e ≠ NULL → p ≠ NULL → n ≠ NULL → is_interior e h = Ok (true, h).
Proof.
  intros He Hn Hp Hnn. unfold is_interior. erewrite kind_run by done. by rewrite !nonnull_true.
Qed.

Lemma list_next_run h e p n :
  h !! e = Some (mk_elem p n) → e ≠ NULL → n ≠ NULL → list_next e h = Ok (n, h).
Proof.
  intros. unfold list_next. erewrite stM_bind_run by by eapply assert_begin_run. by eapply get_next_run.
Qed.

Lemma list_prev_run h e p n :
  h !! e = Some (mk_elem p n) → e ≠ NULL → p ≠ NULL → list_prev e h = Ok (p, h).
Proof.
  intros. unfold list_prev. erewrite stM_bind_run by by eapply assert_inner_run. by eapply get_prev_run.
Qed.

Lemma sassert_run {S} b (s : S) : b = true → sassert b s = Ok (tt, s).
Proof. by intros ->. Qed.


(** One step of a run over a heap whose relevant elements are known. *)
Ltac lookups :=
  repeat first [rewrite lookup_insert_eq | rewrite lookup_insert_ne by (first [assumption | apply not_eq_sym; assumption])].
Ltac known := lookups; first [eassumption | reflexivity].
Ltac hstep :=
  first
    [ erewrite stM_bind_run by (eapply get_prev_run; known)
    | erewrite stM_bind_run by (eapply get_next_run; known)
    | erewrite stM_bind_run by (eapply set_prev_run; known)
    | erewrite stM_bind_run by (eapply set_next_run; known)
    | erewrite stM_bind_run by (apply sassert_run; by (rewrite ?nonnull_true, ?eqb_spec_false by done))
    | erewrite stM_bind_run by (eapply interior_run; [known|assumption..])
    | erewrite stM_bind_run by (eapply assert_inner_run; [known|assumption..])
    | erewrite stM_bind_run by (eapply list_next_run; [known|assumption..])
    | erewrite stM_bind_run by (eapply list_prev_run; [known|assumption..]) ]; cbv beta.

Lemma nodup_mid (P Q : list Z) a : NoDup (P ++ a :: Q) → a ∉ P ++ Q ∧ NoDup (P ++ Q).
Proof. rewrite <- Permutation_middle. apply NoDup_cons. Qed.

Lemma nonnull_mid (P Q : list Z) a :
  Forall (λ a, a ≠ NULL) (P ++ a :: Q) → a ≠ NULL ∧ Forall (λ a, a ≠ NULL) (P ++ Q).
Proof. rewrite <- Permutation_middle. by rewrite Forall_cons. Qed.

(** All the inequalities between the named elements of a ring. *)
Ltac distinct Hnd Hnn :=
  repeat (rewrite ?app_assoc in Hnd; apply nodup_mid in Hnd as [? Hnd]);
  repeat (rewrite ?app_assoc in Hnn; apply nonnull_mid in Hnn as [? Hnn]);
  repeat (rewrite ?not_elem_of_app, ?not_elem_of_cons in *; destruct_and?).

(** The links of the heap after some updates. *)
Ltac links :=
  rewrite ?seg_app; cbn [seg hd]; rewrite ?seg_app; cbn [seg hd];
  repeat (rewrite seg_insert_ne by (rewrite ?not_elem_of_app, ?not_elem_of_cons; auto));
  repeat split; lookups; try done.

Ltac frame := intros ?; repeat (rewrite ?not_elem_of_cons, ?not_elem_of_app); intros ?; destruct_and?;
  lookups; done.

Lemma list_insert_ns h P p b Q e :
  seg h NULL (P ++ p :: b :: Q) NULL → NoDup (P ++ p :: b :: Q) →
  Forall (λ a, a ≠ NULL) (P ++ p :: b :: Q) → e ∉ P ++ p :: b :: Q → e ≠ NULL → is_Some (h !! e) →
  ∃ h', list_insert b e h = Ok (tt, h') ∧ seg h' NULL (P ++ p :: e :: b :: Q) NULL ∧
    ∀ a, a ∉ [p; e; b] → h' !! a = h !! a.
Proof.
  rewrite !seg_app. cbn [seg hd]. intros (HP & Hp & Hb & HQ) Hnd Hnn He He0 [[pe ne] Hhe].
  distinct Hnd Hnn. eexists. split; [|split].
  - unfold list_insert. repeat hstep. eapply set_prev_run. known.
  - links.
  - frame.
Qed.

Lemma list_remove_ns h P p e n Q :
  seg h NULL (P ++ p :: e :: n :: Q) NULL → NoDup (P ++ p :: e :: n :: Q) →
  Forall (λ a, a ≠ NULL) (P ++ p :: e :: n :: Q) →
  ∃ h', list_remove e h = Ok (n, h') ∧ seg h' NULL (P ++ p :: n :: Q) NULL ∧
    ∀ a, a ∉ [p; n] → h' !! a = h !! a.
Proof.
  rewrite !seg_app. cbn [seg hd]. intros (HP & Hp & He & Hn & HQ) Hnd Hnn.
  distinct Hnd Hnn. eexists. split; [|split].
  - unfold list_remove. repeat hstep. eapply get_next_run. known.
  - links.
  - frame.
Qed.

Lemma nonnull_ends A f F z B :
  Forall (λ a, a ≠ NULL) (A ++ f :: (F ++ [z]) ++ B) → hd z F ≠ NULL ∧ lst f F ≠ NULL.
Proof.
  rewrite !Forall_app, Forall_cons, !Forall_app. intros (_ & Hf & [HF Hz] & _).
  rewrite Forall_singleton in Hz. split; [by destruct HF|].
  clear Hz. revert f Hf. induction HF as [|x F Hx _ IH]; intros f Hf; [done|]. by apply IH.
Qed.

(** Moving a range towards the front. *)
Lemma list_splice_ns h P p b M f F n Q :
  seg h NULL (P ++ p :: b :: M ++ f :: F ++ n :: Q) NULL →
  NoDup (P ++ p :: b :: M ++ f :: F ++ n :: Q) →
  Forall (λ a, a ≠ NULL) (P ++ p :: b :: M ++ f :: F ++ n :: Q) →
  ∃ h', list_splice b f n h = Ok (tt, h') ∧ seg h' NULL (P ++ p :: f :: F ++ b :: M ++ n :: Q) NULL ∧
    ∀ a, a ∉ p :: b :: M ++ f :: F ++ [n] → h' !! a = h !! a.
Proof.
  intros Hs Hnd Hnn.
  destruct F as [|z F _] using rev_ind;
    [|destruct (nonnull_ends (P ++ p :: b :: M) f F z (n :: Q)) as [Hhd Hlst];
      [by rewrite <- !app_assoc in *|]];
    destruct M as [|x M _] using rev_ind;
    rewrite <- ?app_assoc in *; cbn [app] in *;
    repeat (rewrite ?seg_app, ?hd_app in Hs; cbn [seg hd] in Hs); rewrite ?lst_snoc in Hs; cbn [lst foldl] in Hs;
    destruct_and?; distinct Hnd Hnn; (eexists; split; [|split]).
  all: try (unfold list_splice; repeat (hstep; rewrite ?eqb_spec_false by done); eapply set_prev_run; known).
  all: try (repeat (rewrite ?seg_app, ?hd_app; cbn [seg hd]); rewrite ?lst_snoc; cbn [lst foldl]; links).
  all: frame.
Qed.

(** ** Lists *)

(** Where the elements [ys] at the end of a list begin: its first element, or
    the tail. *)
Definition pos (l : Z) (ys : list Z) : Z := hd (l + 8) ys.

(** Only elements of [A] changed. *)
Definition only (h h' : heap) (A : list Z) : Prop := ∀ a, a ∉ A → h' !! a = h !! a.

Lemma only_trans h1 h2 h3 A B : only h1 h2 A → only h2 h3 B → B ⊆ A → only h1 h3 A.
Proof. intros H1 H2 HB a Ha. rewrite H2, H1; [done|done|]. set_solver. Qed.

Lemma pos_tail l ys b Q : ys ++ [l + 8] = b :: Q → pos l ys = b.
Proof. intros H. unfold pos. by apply (f_equal (hd 0)) in H; rewrite hd_app in H. Qed.

Lemma ring_app l xs ys zs P p : l :: xs = P ++ [p] → ring l (xs ++ zs ++ ys) = P ++ p :: zs ++ ys ++ [l + 8].
Proof. intros H. unfold ring. rewrite <- !app_assoc, app_comm_cons, H, <- app_assoc. done. Qed.

Lemma list_insert_spec h l xs ys e :
  is_list h l (xs ++ ys) → e ∉ ring l (xs ++ ys) → e ≠ NULL → is_Some (h !! e) →
  ∃ h', list_insert (pos l ys) e h = Ok (tt, h') ∧ is_list h' l (xs ++ e :: ys) ∧
    only h h' (ring l (xs ++ e :: ys)).
Proof.
  intros [Hs Hnd Hnn] He He0 Hsome. destruct (ring_split l xs ys) as (P & p & b & Q & E & HP & HQ).
  rewrite E in *. rewrite (pos_tail _ _ _ _ HQ).
  destruct (list_insert_ns h P p b Q e) as (h' & Hr & Hs' & Ho); try done.
  assert (ring l (xs ++ e :: ys) = P ++ p :: e :: b :: Q) as E'.
  { rewrite <- HQ. apply (ring_app l xs ys [e] P p HP). }
  assert (P ++ p :: e :: b :: Q ≡ₚ e :: P ++ p :: b :: Q) as Hperm by solve_Permutation.
  exists h'. split; [done|]. rewrite E'. split; [split; rewrite E'|].
  - done.
  - rewrite Hperm. by apply NoDup_cons.
  - rewrite Hperm. by apply Forall_cons.
  - intros a Ha. apply Ho. set_solver.
Qed.

Lemma list_remove_spec h l xs e ys :
  is_list h l (xs ++ e :: ys) →
  ∃ h', list_remove e h = Ok (pos l ys, h') ∧ is_list h' l (xs ++ ys) ∧ only h h' (ring l (xs ++ ys)).
Proof.
  intros [Hs Hnd Hnn]. destruct (ring_split l xs ys) as (P & p & n & Q & E & HP & HQ).
  assert (ring l (xs ++ e :: ys) = P ++ p :: e :: n :: Q) as E'.
  { rewrite <- HQ. apply (ring_app l xs ys [e] P p HP). }
  rewrite E' in *. rewrite (pos_tail _ _ _ _ HQ).
  destruct (list_remove_ns h P p e n Q) as (h' & Hr & Hs' & Ho); try done.
  assert (P ++ p :: e :: n :: Q ≡ₚ e :: P ++ p :: n :: Q) as Hperm by solve_Permutation.
  rewrite Hperm in Hnd, Hnn. apply NoDup_cons in Hnd as [_ Hnd]. apply Forall_cons in Hnn as [_ Hnn].
  exists h'. split; [done|]. split; [by split; rewrite E|]. rewrite E. intros a Ha. apply Ho. set_solver.
Qed.

Lemma ring_mid l xs y ys : ring l (xs ++ y :: ys) = (l :: xs) ++ y :: ys ++ [l + 8].
Proof. unfold ring. by rewrite <- app_assoc. Qed.

Lemma lst_in a xs : lst a xs ∈ a :: xs.
Proof.
  revert a. induction xs as [|x xs IH]; intros a; [by left|]. simpl. right. apply IH.
Qed.

Lemma ring_nonnull h l xs a : is_list h l xs → a ∈ ring l xs → a ≠ NULL.
Proof. intros [_ _ Hnn]. revert a. by apply Forall_forall. Qed.

Lemma in_ring l xs a : a ∈ ring l xs ↔ a = l ∨ a ∈ xs ∨ a = l + 8.
Proof. unfold ring. set_solver. Qed.

(** What the elements of a list point to. *)
Lemma list_elem_at h l xs y ys :
  is_list h l (xs ++ y :: ys) → h !! y = Some (mk_elem (lst l xs) (pos l ys)).
Proof.
  intros [Hs _ _]. rewrite ring_mid in Hs. apply seg_lookup in Hs. by rewrite hd_app in Hs.
Qed.

Lemma list_head_at h l xs : is_list h l xs → h !! l = Some (mk_elem NULL (pos l xs)).
Proof. intros [[Hs _] _ _]. by rewrite hd_app in Hs. Qed.

Lemma list_tail_at h l xs : is_list h l xs → h !! (l + 8) = Some (mk_elem (lst l xs) NULL).
Proof. intros [Hs _ _]. unfold ring in Hs. rewrite app_comm_cons in Hs. by apply seg_lookup in Hs. Qed.

Lemma pos_in l xs ys : pos l ys ∈ ring l (xs ++ ys).
Proof. rewrite in_ring. destruct ys as [|y ys]; simpl; [auto|]. right. left. set_solver. Qed.

Lemma pos_nonnull h l xs ys : is_list h l (xs ++ ys) → pos l ys ≠ NULL.
Proof. intros Hl. eapply ring_nonnull, pos_in; done. Qed.

Lemma lst_nonnull h l xs ys : is_list h l (xs ++ ys) → lst l xs ≠ NULL.
Proof.
  intros Hl. eapply ring_nonnull; [done|]. pose proof (lst_in l xs) as Hin. rewrite in_ring. set_solver.
Qed.

Lemma is_list_nonnull h l xs : is_list h l xs → l ≠ NULL.
Proof. intros [_ _ Hnn]. by apply Forall_cons in Hnn as [? _]. Qed.

Lemma list_begin_spec h l xs : is_list h l xs → list_begin l h = Ok (pos l xs, h).
Proof.
  intros Hl. unfold list_begin. erewrite stM_bind_run
    by (apply sassert_run, nonnull_true; by eapply is_list_nonnull).
  by eapply get_next_run, list_head_at.
Qed.

Lemma list_end_spec h l xs : is_list h l xs → list_end l h = Ok (l + 8, h).
Proof.
  intros Hl. unfold list_end. by erewrite stM_bind_run
    by (apply sassert_run, nonnull_true; by eapply is_list_nonnull).
Qed.

Lemma list_next_spec h l xs y ys : is_list h l (xs ++ y :: ys) → list_next y h = Ok (pos l ys, h).
Proof.
  intros Hl. eapply list_next_run; [by eapply list_elem_at|..].
  - eapply ring_nonnull; [done|]. apply in_ring. set_solver.
  - apply (pos_nonnull h l (xs ++ [y])). by rewrite <- app_assoc.
Qed.

Lemma list_prev_spec h l xs ys : is_list h l (xs ++ ys) → list_prev (pos l ys) h = Ok (lst l xs, h).
Proof.
  intros Hl. assert (∃ n, h !! pos l ys = Some (mk_elem (lst l xs) n)) as [n Hn].
  { destruct ys as [|y ys]; eexists.
    - rewrite app_nil_r in Hl. by apply list_tail_at.
    - by eapply list_elem_at. }
  eapply list_prev_run; [done|by eapply pos_nonnull|by eapply lst_nonnull].
Qed.

(** Two places in a list are equal just when nothing lies between them. *)
Lemma pos_eqb h l xs ys zs :
  is_list h l (xs ++ ys ++ zs) → (pos l (ys ++ zs) =? pos l zs) = bool_decide (ys = []).
Proof.
  intros Hl. destruct ys as [|y ys]; [by rewrite Z.eqb_refl|].
  rewrite bool_decide_eq_false_2 by done. apply Z.eqb_neq. simpl.
  destruct Hl as [_ Hnd _]. cbn [app] in Hnd. rewrite ring_mid in Hnd. apply nodup_mid in Hnd as [Hy _].
  intros ->. apply Hy. destruct zs as [|z zs]; simpl; set_solver.
Qed.

Lemma tail_eqb h l xs ys : is_list h l (xs ++ ys) → (pos l ys =? l + 8) = bool_decide (ys = []).
Proof. intros Hl. rewrite <- (pos_eqb h l xs ys []) by by rewrite app_nil_r. by rewrite app_nil_r. Qed.

(** The heap holds more elements than any list in it. *)
Lemma list_bound h l xs : is_list h l xs → (length xs < size h)%nat.
Proof.
  intros [Hs Hnd _]. assert (length (ring l xs) ≤ size h)%nat as Hle.
  { rewrite <- size_dom. rewrite <- (size_list_to_set (C := gset Z)) by done.
    apply subseteq_size. intros a. rewrite elem_of_list_to_set. intros Ha.
    apply list_elem_of_split in Ha as (P & Q & E). rewrite E in Hs. apply seg_lookup in Hs.
    apply elem_of_dom. by eexists. }
  revert Hle. unfold ring. simpl. rewrite length_app. simpl. lia.
Qed.


Lemma list_splice_spec h l xs a A b ys :
  is_list h l (xs ++ a :: A ++ b :: ys) →
  ∃ h', list_splice a b (pos l ys) h = Ok (tt, h') ∧ is_list h' l (xs ++ b :: a :: A ++ ys) ∧
    only h h' (ring l (xs ++ a :: A ++ b :: ys)).
Proof.
  intros [Hs Hnd Hnn]. destruct (exists_last (l := l :: xs)) as (P & p & HP); [done|].
  destruct (ys ++ [l + 8]) as [|n Q] eqn:HQ; [by destruct ys|].
  assert (ring l (xs ++ a :: A ++ b :: ys) = P ++ p :: a :: A ++ b :: n :: Q) as E.
  { rewrite <- HQ. pose proof (ring_app l xs ys (a :: A ++ [b]) P p HP) as E.
    cbn [app] in E. rewrite <- !app_assoc in E. exact E. }
  assert (ring l (xs ++ b :: a :: A ++ ys) = P ++ p :: b :: a :: A ++ n :: Q) as E'.
  { rewrite <- HQ. apply (ring_app l xs ys (b :: a :: A) P p HP). }
  rewrite E in *. rewrite (pos_tail _ _ _ _ HQ).
  destruct (list_splice_ns h P p a A b [] n Q) as (h' & Hr & Hs' & Ho); try done.
  assert (P ++ p :: a :: A ++ b :: n :: Q ≡ₚ P ++ p :: b :: a :: A ++ n :: Q) as Hperm
    by solve_Permutation.
  exists h'. split; [done|]. split; [split; rewrite E'|].
  - done.
  - by rewrite <- Hperm.
  - by rewrite <- Hperm.
  - intros x Hx. apply Ho. set_solver.
Qed.

(** ** Sorting *)

Section sorting.
Variable less : Z → Z → bool.

(** [x] may come before [y]. *)
Definition leq (x y : Z) : Prop := less y x = false.
#[local] Instance leq_dec : RelDecision leq.
Proof. intros x y. unfold leq. apply _. Defined.

Fixpoint sortedb (a : Z) (ys : list Z) : bool :=
  match ys with [] => true | y :: ys => negb (less y a) && sortedb y ys end.

Lemma sortedb_spec a ys : sortedb a ys = true ↔ Sorted leq (a :: ys).
Proof.
  revert a. induction ys as [|y ys IH]; intros a; simpl.
  - split; [|done]. by repeat constructor.
  - rewrite andb_true_iff, negb_true_iff, IH. split.
    + intros [Hl Hs]. constructor; [done|by constructor].
    + intros Hs. inversion Hs as [|? ? Hs' Hd]; inversion Hd; by subst.
Qed.

Lemma sorted_loop_spec fuel h l xs a ys zs :
  is_list h l (xs ++ a :: ys ++ zs) → (length ys < fuel)%nat →
  sorted_loop less fuel a (pos l zs) h = Ok (sortedb a ys, h).
Proof.
  revert xs a ys. induction fuel as [|fuel IH]; intros xs a ys Hl Hf; [lia|]. cbn [sorted_loop].
  erewrite stM_bind_run by by eapply list_next_spec.
  assert (is_list h l ((xs ++ [a]) ++ ys ++ zs)) as Hl' by by rewrite <- app_assoc.
  rewrite (pos_eqb _ _ _ _ _ Hl'). destruct ys as [|y ys]; [done|].
  rewrite bool_decide_eq_false_2 by done.
  erewrite stM_bind_run by by eapply list_prev_spec. rewrite lst_snoc. cbn [app pos hd sortedb].
  destruct (less y a); [done|]. apply (IH (xs ++ [a])); [done|simpl in Hf; lia].
Qed.

Lemma is_sorted_spec h l xs ys zs :
  is_list h l (xs ++ ys ++ zs) →
  ∃ b, is_sorted less (pos l (ys ++ zs)) (pos l zs) h = Ok (b, h) ∧ (b = true ↔ Sorted leq ys).
Proof.
  intros Hl. unfold is_sorted. erewrite stM_bind_run by reflexivity. rewrite (pos_eqb _ _ _ _ _ Hl).
  destruct ys as [|a ys]; [by exists true|]. rewrite bool_decide_eq_false_2 by done.
  exists (sortedb a ys). split; [|apply sortedb_spec].
  eapply sorted_loop_spec; [exact Hl|]. apply list_bound in Hl. revert Hl.
  rewrite !length_app. simpl. lia.
Qed.

(** The longest run at the front, and the rest. *)
Fixpoint run (a : Z) (ys : list Z) : list Z * list Z :=
  match ys with
  | [] => ([], [])
  | y :: t => if less y a then ([], ys) else let '(r, s) := run y t in (y :: r, s)
  end.

Lemma run_spec a ys r s : run a ys = (r, s) → ys = r ++ s ∧ Sorted leq (a :: r).
Proof.
  revert a r s. induction ys as [|y ys IH]; intros a r s; simpl.
  - intros [= <- <-]. split; [done|by repeat constructor].
  - destruct (less y a) eqn:Hy; [intros [= <- <-]; split; [done|by repeat constructor]|].
    destruct (run y ys) as [r' s'] eqn:Er. intros [= <- <-]. destruct (IH _ _ _ Er) as [-> Hs].
    split; [done|]. constructor; [done|by constructor].
Qed.

(** A run goes at least as far as any sorted beginning. *)
Lemma run_maximal a ys zs r s : Sorted leq (a :: ys) → run a (ys ++ zs) = (r, s) → s `suffix_of` zs.
Proof.
  revert a r. induction ys as [|y ys IH]; intros a r Hs; simpl.
  - intros [-> _]%run_spec. by exists r.
  - inversion Hs as [|? ? Hs' Hd]; inversion Hd as [|? ? Hl]; subst. rewrite Hl.
    destruct (run y (ys ++ zs)) as [r' s'] eqn:Er. intros [= <- <-]. eauto.
Qed.

Lemma run_loop_spec fuel h l xs a ys r s :
  is_list h l (xs ++ a :: ys) → run a ys = (r, s) → (length ys < fuel)%nat →
  run_loop less fuel a (l + 8) h = Ok (pos l s, h).
Proof.
  revert xs a ys r. induction fuel as [|fuel IH]; intros xs a ys r Hl Hr Hf; [lia|]. cbn [run_loop].
  erewrite stM_bind_run by by eapply list_next_spec.
  assert (is_list h l ((xs ++ [a]) ++ ys)) as Hl' by by rewrite <- app_assoc.
  rewrite (tail_eqb _ _ _ _ Hl'). destruct ys as [|y ys]; [by injection Hr as <- <-|].
  rewrite bool_decide_eq_false_2 by done.
  erewrite stM_bind_run by by eapply list_prev_spec. rewrite lst_snoc. cbn [pos hd].
  simpl in Hr. destruct (less y a); [by injection Hr as <- <-|].
  destruct (run y ys) as [r' s'] eqn:Er. injection Hr as <- <-.
  eapply (IH (xs ++ [a])); [done|done|simpl in Hf; lia].
Qed.

Lemma find_end_of_run_spec h l xs a ys r s :
  is_list h l (xs ++ a :: ys) → run a ys = (r, s) → find_end_of_run less a (l + 8) h = Ok (pos l s, h).
Proof.
  intros Hl Hr. pose proof (tail_eqb h l xs (a :: ys) Hl) as Ht.
  rewrite bool_decide_eq_false_2 in Ht by done. cbn [pos hd] in Ht. unfold find_end_of_run.
  erewrite stM_bind_run by (apply sassert_run, nonnull_true; eapply ring_nonnull; [done|];
    apply in_ring; set_solver).
  erewrite stM_bind_run by (apply sassert_run, nonnull_true; eapply ring_nonnull; [done|];
    apply in_ring; set_solver).
  erewrite stM_bind_run by (apply sassert_run; by rewrite Ht).
  erewrite stM_bind_run by reflexivity. eapply run_loop_spec; [done..|].
  apply list_bound in Hl. revert Hl. rewrite length_app. simpl. lia.
Qed.

Lemma merge_loop_spec fuel h l xs A B C :
  is_list h l (xs ++ A ++ B ++ C) → (length A + length B < fuel)%nat →
  ∃ h', merge_loop less fuel (pos l (A ++ B ++ C)) (pos l (B ++ C)) (pos l C) h = Ok (tt, h') ∧
    is_list h' l (xs ++ list_merge leq A B ++ C) ∧ only h h' (ring l (xs ++ A ++ B ++ C)).
Proof.
  revert h xs A B. induction fuel as [|fuel IH]; intros h xs A B Hl Hf; [lia|]. cbn [merge_loop].
  assert (is_list h l ((xs ++ A) ++ B ++ C)) as Hl' by by rewrite <- app_assoc.
  rewrite (pos_eqb _ _ _ _ _ Hl), (pos_eqb _ _ _ _ _ Hl').
  destruct A as [|a A].
  { exists h. split; [done|]. split; [by destruct B|done]. }
  destruct B as [|b B].
  { exists h. rewrite (bool_decide_eq_false_2 (a :: A = [])) by done. split; [done|]. done. }
  rewrite !bool_decide_eq_false_2 by done. cbn [negb andb app pos hd].
  destruct (less b a) eqn:Hba; cbn [negb].
  - erewrite stM_bind_run by (eapply list_next_spec; rewrite app_assoc in Hl; exact Hl).
    pose proof (list_prev_spec h l ((xs ++ a :: A) ++ [b]) (B ++ C)) as Hpv. rewrite lst_snoc in Hpv.
    erewrite stM_bind_run by (apply Hpv; rewrite <- !app_assoc; exact Hl).
    destruct (list_splice_spec h l xs a A b (B ++ C) Hl) as (h1 & Hr & Hl1 & Ho1).
    erewrite stM_bind_run by exact Hr.
    destruct (IH h1 (xs ++ [b]) (a :: A) B) as (h2 & Hr2 & Hl2 & Ho2);
      [by rewrite <- app_assoc|simpl in *; lia|].
    exists h2. split; [exact Hr2|]. rewrite <- app_assoc in Hl2. cbn [list_merge].
    rewrite (decide_False (P := leq a b)) by (unfold leq; by rewrite Hba). split; [exact Hl2|].
    eapply only_trans; [done|done|]. intros x. rewrite !in_ring. set_solver.
  - erewrite stM_bind_run by by eapply list_next_spec.
    destruct (IH h (xs ++ [a]) A (b :: B)) as (h2 & Hr2 & Hl2 & Ho2);
      [by rewrite <- app_assoc|simpl in *; lia|].
    exists h2. split; [exact Hr2|]. rewrite <- app_assoc in Hl2. cbn [list_merge].
    rewrite (decide_True (P := leq a b)) by done. split; [exact Hl2|].
    by rewrite <- app_assoc in Ho2.
Qed.

Lemma inplace_merge_spec h l xs A B C :
  is_list h l (xs ++ A ++ B ++ C) → Sorted leq A → Sorted leq B →
  ∃ h', inplace_merge less (pos l (A ++ B ++ C)) (pos l (B ++ C)) (pos l C) h = Ok (tt, h') ∧
    is_list h' l (xs ++ list_merge leq A B ++ C) ∧ only h h' (ring l (xs ++ A ++ B ++ C)).
Proof.
  intros Hl HA HB. assert (is_list h l ((xs ++ A) ++ B ++ C)) as Hl' by by rewrite <- app_assoc.
  assert (is_list h l (((xs ++ A) ++ B) ++ C)) as Hl'' by by rewrite <- app_assoc.
  destruct (is_sorted_spec h l xs A (B ++ C) Hl) as (b1 & Hr1 & Hb1).
  destruct (is_sorted_spec h l (xs ++ A) B C Hl') as (b2 & Hr2 & Hb2).
  unfold inplace_merge.
  erewrite stM_bind_run by (apply sassert_run, nonnull_true; by eapply pos_nonnull).
  erewrite stM_bind_run by (apply sassert_run, nonnull_true; by eapply pos_nonnull).
  erewrite stM_bind_run by (apply sassert_run, nonnull_true; by eapply pos_nonnull).
  erewrite stM_bind_run by exact Hr1. erewrite stM_bind_run by (by apply sassert_run, Hb1).
  erewrite stM_bind_run by exact Hr2. erewrite stM_bind_run by (by apply sassert_run, Hb2).
  erewrite stM_bind_run by reflexivity. apply merge_loop_spec; [done|].
  apply list_bound in Hl. revert Hl. rewrite !length_app. lia.
Qed.

Hypothesis less_asym : ∀ a b, less a b = true → less b a = false.
Hypothesis leq_trans : ∀ a b c, leq a b → leq b c → leq a c.

#[local] Instance leq_total : Total leq.
Proof. intros a b. unfold leq. destruct (less b a) eqn:E; [right|by left]. by apply less_asym. Qed.
#[local] Instance leq_transitive : Transitive leq.
Proof. intros a b c. apply leq_trans. Qed.

(** Neither element is less than the other. *)
Definition same (x y : Z) : Prop := leq x y ∧ leq y x.
#[local] Instance same_dec x : ∀ y, Decision (same x y).
Proof. intros y. unfold same. apply _. Defined.

Lemma none_filter x ys : (∀ y, y ∈ ys → ¬ same x y) → filter (same x) ys = [].
Proof.
  induction ys as [|y ys IH]; intros Hn; [done|]. rewrite filter_cons_False by (apply Hn; by left).
  apply IH. intros z Hz. apply Hn. by right.
Qed.

(** Equal elements keep their order. *)
Definition stable (xs ys : list Z) : Prop := ∀ x, filter (same x) ys = filter (same x) xs.

Lemma stable_trans xs ys zs : stable xs ys → stable ys zs → stable xs zs.
Proof. intros H1 H2 x. by rewrite H2, H1. Qed.

Lemma merge_stable A B : Sorted leq A → stable (A ++ B) (list_merge leq A B).
Proof.
  intros HA x. rewrite filter_app. apply Sorted_StronglySorted in HA; [|apply _]. revert B.
  induction HA as [|a A HA IHA Ha]; [by intros []|].
  induction B as [|b B IHB]; [by rewrite app_nil_r|].
  change (list_merge leq (a :: A) (b :: B)) with
    (if decide (leq a b) then a :: list_merge leq A (b :: B) else b :: list_merge leq (a :: A) B).
  destruct (decide (leq a b)) as [Hab|Hab].
  - rewrite !filter_cons, IHA. by case_decide.
  - rewrite filter_cons, IHB, (filter_cons _ b). case_decide as Hb; [|done].
    assert (filter (same x) (a :: A) = []) as ->; [|done].
    apply none_filter. intros y Hy [Hxy Hyx]. apply Hab.
    assert (leq a y) as Hay.
    { apply elem_of_cons in Hy as [->|Hy]; [by destruct (leq_total a a)|]. by eapply Forall_forall in Ha. }
    eapply leq_trans; [exact Hay|]. eapply leq_trans; [exact Hyx|]. apply Hb.
Qed.

(** The list falls into [k] sorted pieces. *)
Definition pieces (ys : list Z) (k : nat) : Prop :=
  ∃ ps, ys = concat ps ∧ length ps = k ∧ Forall (Sorted leq) ps.

Lemma pieces_cons x ys k : pieces (x :: ys) k →
  ∃ p k', Sorted leq (x :: p) ∧ (k' < k)%nat ∧ ∃ ps, ys = p ++ concat ps ∧ length ps = k' ∧ Forall (Sorted leq) ps.
Proof.
  intros (ps & Heq & Hlen & Hall). revert k Heq Hlen.
  induction Hall as [|p ps Hp Hall IH]; intros k Heq Hlen; [done|].
  destruct p as [|y p]; simpl in *.
  - destruct (IH (k - 1)%nat) as (p & k' & ? & ? & ?); [done|lia|]. exists p, k'. split; [done|]. split; [lia|done].
  - injection Heq as <- ->. exists p, (length ps). split; [done|]. split; [lia|]. eauto.
Qed.

Lemma pieces_suffix zs s k : s `suffix_of` zs → pieces zs k → pieces s k.
Proof.
  intros [d ->]. induction d as [|x d IH]; [done|]. simpl. intros Hp. apply IH.
  destruct (pieces_cons _ _ _ Hp) as (p & k' & Hs & Hk & ps & -> & <- & Hps).
  exists (replicate (k - S (length ps)) [] ++ p :: ps). split; [|split].
  - rewrite concat_app. simpl. induction (k - S (length ps))%nat; [done|]. simpl. done.
  - rewrite length_app, length_replicate. simpl. lia.
  - apply Forall_app. split; [apply Forall_replicate; constructor|]. constructor; [|done].
    inversion Hs; done.
Qed.

(** Taking off the longest run takes off a piece. *)
Lemma pieces_run a ys r s k : pieces (a :: ys) k → run a ys = (r, s) → ∃ k', (k' < k)%nat ∧ pieces s k'.
Proof.
  intros (p & k' & Hs & Hk & ps & -> & <- & Hps)%pieces_cons Hr. exists (length ps). split; [done|].
  eapply pieces_suffix; [by eapply run_maximal|]. by exists ps.
Qed.


(** What a pass does to the part of the list it has in front of it: [n] runs
    come out, at most half of the pieces that went in. *)
Record passed (ys zs : list Z) (n : nat) : Prop := {
  pa_perm : zs ≡ₚ ys;
  pa_stable : stable ys zs;
  pa_pieces : pieces zs n;
  pa_half : ∀ k, pieces ys k → (2 * n ≤ k + 1)%nat;
}.

Lemma passed_nil : passed [] [] 0.
Proof. split; [done|done| |lia]. by exists []. Qed.

Lemma passed_one a ys r : run a ys = (r, []) → passed (a :: ys) (a :: ys) 1.
Proof.
  intros Hr. destruct (run_spec _ _ _ _ Hr) as [-> Hs]. rewrite app_nil_r. split; [done|done| |].
  - exists [a :: r]. simpl. rewrite app_nil_r. split; [done|]. split; [done|]. by apply Forall_singleton.
  - intros k (? & k' & _ & ? & _)%pieces_cons. lia.
Qed.

Lemma passed_two a t r b s r2 C zs n :
  run a t = (r, b :: s) → run b s = (r2, C) → passed C zs n →
  passed (a :: t) (list_merge leq (a :: r) (b :: r2) ++ zs) (S n).
Proof.
  intros Hr1 Hr2 [Hp Hst (ps & Hps & Hn & Hall) Hh].
  destruct (run_spec _ _ _ _ Hr1) as [-> Hs1]. destruct (run_spec _ _ _ _ Hr2) as [-> Hs2]. split.
  - rewrite merge_Permutation, Hp. rewrite <- app_assoc. done.
  - intros x. rewrite filter_app, (merge_stable _ _ Hs1 x), (Hst x), <- filter_app.
    rewrite <- app_assoc. done.
  - exists (list_merge leq (a :: r) (b :: r2) :: ps). split; [by rewrite Hps|]. split; [by simpl; rewrite Hn|].
    constructor; [|done]. apply Sorted_list_merge; [apply _|done|done].
  - intros k Hk. destruct (pieces_run _ _ _ _ _ Hk Hr1) as (k1 & ? & Hk1).
    destruct (pieces_run _ _ _ _ _ Hk1 Hr2) as (k2 & ? & Hk2). specialize (Hh k2 Hk2). lia.
Qed.

Lemma pass_loop_spec fuel h l xs ys cnt :
  is_list h l (xs ++ ys) → (length ys < fuel)%nat → 0 ≤ cnt → cnt + Z.of_nat (length ys) < W32 →
  ∃ h' zs n, pass_loop less fuel l (pos l ys) cnt h = Ok (cnt + Z.of_nat n, h') ∧
    is_list h' l (xs ++ zs) ∧ only h h' (ring l (xs ++ ys)) ∧ passed ys zs n.
Proof.
  revert h xs ys cnt. induction fuel as [|fuel IH]; intros h xs ys cnt Hl Hf Hc0 Hc; [lia|].
  cbn [pass_loop]. erewrite stM_bind_run by by eapply list_end_spec. rewrite (tail_eqb _ _ _ _ Hl).
  destruct ys as [|a t].
  { exists h, [], 0%nat. rewrite Z.add_0_r. split; [done|]. split; [done|]. split; [done|apply passed_nil]. }
  rewrite bool_decide_eq_false_2 by done. cbn [pos hd]. simpl in Hc.
  rewrite u32_small by (unfold in_u32; lia).
  destruct (run a t) as [r s] eqn:Hr1. destruct (run_spec _ _ _ _ Hr1) as [-> Hs1].
  erewrite stM_bind_run by by eapply find_end_of_run_spec.
  assert (is_list h l ((xs ++ a :: r) ++ s)) as Hl1 by by rewrite <- app_assoc.
  rewrite (tail_eqb _ _ _ _ Hl1). destruct s as [|b s].
  { exists h, (a :: r ++ []), 1%nat. split; [done|]. split; [done|]. split; [done|by eapply passed_one]. }
  rewrite bool_decide_eq_false_2 by done. cbn [pos hd].
  destruct (run b s) as [r2 C] eqn:Hr2. destruct (run_spec _ _ _ _ Hr2) as [-> Hs2].
  erewrite stM_bind_run by by eapply find_end_of_run_spec.
  destruct (inplace_merge_spec h l xs (a :: r) (b :: r2) C Hl Hs1 Hs2) as (h1 & Hm & Hl2 & Ho1).
  erewrite stM_bind_run by exact Hm.
  destruct (IH h1 (xs ++ list_merge leq (a :: r) (b :: r2)) C (cnt + 1)) as (h2 & zs & n & Hr & Hl3 & Ho2 & Hpa).
  - by rewrite <- app_assoc.
  - simpl in Hf. rewrite length_app in Hf. simpl in Hf. rewrite length_app in Hf. lia.
  - lia.
  - rewrite length_app in Hc. simpl in Hc. rewrite length_app in Hc. lia.
  - exists h2, (list_merge leq (a :: r) (b :: r2) ++ zs), (S n).
    split; [etrans; [exact Hr|]; do 2 f_equal; lia|]. rewrite app_assoc. split; [done|].
    split; [|by eapply passed_two]. eapply only_trans; [exact Ho1|exact Ho2|].
    intros x. rewrite !in_ring. rewrite <- app_assoc, elem_of_app, elem_of_app.
    rewrite (merge_Permutation leq). set_solver.
Qed.

Lemma sort_loop_spec fuel h l xs k :
  is_list h l xs → Z.of_nat (length xs) < W32 → pieces xs k → (k < fuel)%nat →
  ∃ h' ys, sort_loop less fuel l h = Ok (tt, h') ∧ is_list h' l ys ∧ only h h' (ring l xs) ∧
    ys ≡ₚ xs ∧ Sorted leq ys ∧ stable xs ys.
Proof.
  revert h xs k. induction fuel as [|fuel IH]; intros h xs k Hl Hw Hk Hf; [lia|]. cbn [sort_loop].
  erewrite stM_bind_run by by eapply list_begin_spec. erewrite stM_bind_run by reflexivity.
  destruct (pass_loop_spec (S (size h)) h l [] xs 0) as (h1 & zs & n & Hr & Hl1 & Ho1 & [Hp Hst Hpi Hh]);
    [done|apply list_bound in Hl; lia|lia|lia|].
  erewrite stM_bind_run by exact Hr. specialize (Hh k Hk). cbn [app] in *.
  destruct (Z.ltb_spec 1 (0 + Z.of_nat n)).
  - destruct (IH h1 zs n) as (h2 & ys & Hr2 & Hl2 & Ho2 & Hp2 & Hs2 & Hst2);
      [done|by rewrite Hp|done|lia|].
    exists h2, ys. split; [done|]. split; [done|]. split; [|split; [by rewrite Hp2|split; [done|]]].
    + eapply only_trans; [exact Ho1|exact Ho2|]. intros x. rewrite !in_ring, Hp. done.
    + by eapply stable_trans.
  - exists h1, zs. split; [done|]. split; [done|]. split; [done|]. split; [done|]. split; [|done].
    destruct Hpi as ([|p [|]] & -> & Hlen & Hall); simpl in *; [constructor| |lia].
    rewrite app_nil_r. by apply Forall_cons in Hall as [? _].
Qed.

End sorting.

(** C6: [list_sort] sorts for every strict weak order: the list afterwards
    holds the same elements in non-descending order, equal ones in their
    original order; none of its assertions fails, its passes come to an end,
    and no element outside the list is touched. *)
Theorem list_sort_sorts less h l xs :
  (∀ a b, less a b = true → less b a = false) →
  (∀ a b c, less b a = false → less c b = false → less c a = false) →
  is_list h l xs → Z.of_nat (length xs) < W32 →
  ∃ h' ys, list_sort less l h = Ok (tt, h') ∧ is_list h' l ys ∧ ys ≡ₚ xs ∧
    Sorted (leq less) ys ∧ stable less xs ys ∧ only h h' (ring l xs).
Proof.
  intros Hasym Htr Hl Hw. unfold list_sort.
  destruct (sort_loop_spec less Hasym Htr (S (size h)) h l xs (length xs))
    as (h' & ys & Hr & Hl' & Ho & Hp & Hs & Hst); [done|done| |apply list_bound in Hl; lia|].
  { exists ((λ x, [x]) <$> xs). rewrite length_fmap. split; [|split; [done|]].
    - clear. induction xs as [|x xs IH]; [done|]. simpl. f_equal. exact IH.
    - apply Forall_fmap, Forall_true. intros x. by repeat constructor. }
  exists h', ys. split; [|done].
  erewrite stM_bind_run by (apply sassert_run, nonnull_true; by eapply is_list_nonnull).
  erewrite stM_bind_run by reflexivity. erewrite stM_bind_run by exact Hr.
  erewrite stM_bind_run by by apply list_begin_spec. erewrite stM_bind_run by by eapply list_end_spec.
  destruct (is_sorted_spec less h' l [] ys []) as (b & Hb & Hbs); [by rewrite app_nil_r|].
  rewrite app_nil_r in Hb. erewrite stM_bind_run by exact Hb. by apply sassert_run, Hbs.
Qed.

(** ** Reversal *)

Lemma lst_reverse t ys : lst t (reverse ys) = hd t ys.
Proof. destruct ys as [|y ys]; [done|]. by rewrite reverse_cons, lst_snoc. Qed.

Lemma swap_elem_run h e p n :
  h !! e = Some (mk_elem p n) → swap (Prev e) (Next e) h = Ok (tt, <[e := mk_elem n p]> h).
Proof.
  intros He. unfold swap. do 3 hstep. erewrite set_next_run by known. by rewrite insert_insert_eq.
Qed.

Lemma reverse_loop_spec fuel h l p ys :
  l ≠ NULL → seg h p ys (l + 8) → NoDup ys → l + 8 ∉ ys → (length ys < fuel)%nat →
  ∃ h', reverse_loop fuel (pos l ys) l h = Ok (tt, h') ∧ seg h' (l + 8) (reverse ys) p ∧ only h h' ys.
Proof.
  intros Hl. revert h p ys. induction fuel as [|fuel IH]; intros h p ys Hs Hnd Ht Hf; [lia|].
  cbn [reverse_loop].
  erewrite stM_bind_run by (unfold list_end; erewrite stM_bind_run by (by apply sassert_run, nonnull_true);
    reflexivity).
  destruct ys as [|y ys]; cbn [pos hd].
  { rewrite Z.eqb_refl. exists h. done. }
  destruct Hs as [Hy Hs]. apply NoDup_cons in Hnd as [Hyn Hnd]. apply not_elem_of_cons in Ht as [Hyt Ht].
  rewrite eqb_spec_false by done. erewrite stM_bind_run by by apply swap_elem_run. hstep.
  destruct (IH (<[y := mk_elem (hd (l + 8) ys) p]> h) y ys) as (h' & Hr & Hs' & Ho);
    [by apply seg_insert_ne|done|done|simpl in Hf; lia|].
  exists h'. split; [exact Hr|]. split.
  - rewrite reverse_cons. apply seg_app. split; [exact Hs'|]. split; [|done].
    rewrite Ho, lookup_insert_eq by done. by rewrite lst_reverse.
  - intros a [Hay Ha]%not_elem_of_cons. rewrite Ho, lookup_insert_ne by done. done.
Qed.

Lemma list_reverse_spec h l xs :
  is_list h l xs →
  ∃ h', list_reverse l h = Ok (tt, h') ∧ is_list h' l (reverse xs) ∧ only h h' (ring l xs).
Proof.
  intros Hl. pose proof (is_list_nonnull _ _ _ Hl) as Hl0. unfold list_reverse, list_empty.
  rewrite <- (app_nil_l xs) in Hl. pose proof (tail_eqb _ _ _ _ Hl) as Ht. cbn [app] in Hl.
  erewrite stM_bind_run by (erewrite stM_bind_run by (by apply list_begin_spec);
    erewrite stM_bind_run by (by eapply list_end_spec); reflexivity).
  rewrite Ht. case_bool_decide as Hx; [subst xs; by exists h|].
  pose proof (list_bound _ _ _ Hl) as Hb. pose proof (list_head_at _ _ _ Hl) as Hh.
  pose proof (list_tail_at _ _ _ Hl) as Htl.
  assert (ring l (reverse xs) ≡ₚ ring l xs) as Hperm by (unfold ring; by rewrite reverse_Permutation).
  destruct Hl as [Hs Hnd Hnn]. pose proof Hnd as Hnd0.
  apply NoDup_cons in Hnd0 as [Hln (Hndx & Htn & _)%NoDup_app].
  rewrite not_elem_of_app in Hln. destruct Hln as [Hlx Hlt]. rewrite not_elem_of_cons in Hlt.
  assert (l + 8 ∉ xs) as Htx by (intros Hin; apply (Htn _ Hin); by left).
  unfold ring in Hs. cbn [seg] in Hs. destruct Hs as [_ Hs]. apply seg_app in Hs as [Hs _]. cbn [hd] in Hs.
  erewrite stM_bind_run by reflexivity.
  erewrite stM_bind_run by (unfold list_begin; hstep; by eapply get_next_run).
  destruct (reverse_loop_spec (S (size h)) h l l xs) as (h1 & Hr & Hs1 & Ho); try done; [lia|].
  erewrite stM_bind_run by exact Hr.
  assert (h1 !! l = Some (mk_elem NULL (pos l xs))) as Hh1 by by rewrite Ho.
  assert (h1 !! (l + 8) = Some (mk_elem (lst l xs) NULL)) as Ht1 by by rewrite Ho.
  assert (hd l (reverse xs) = lst l xs) as Ehd by by rewrite <- lst_reverse, reverse_involutive.
  assert (lst (l + 8) (reverse xs) = pos l xs) as Elst by apply lst_reverse.
  assert (l ∉ reverse xs ∧ l + 8 ∉ reverse xs) as [Hlr Htr] by by rewrite !elem_of_reverse.
  assert (NoDup (reverse xs)) as Hndr by by rewrite reverse_Permutation.
  cut (∃ h', (swap (Next l) (Prev (l + 8));; a ← get (Next l); b ← get (Prev (l + 8)); swap (Prev a) (Next b)) h1
      = Ok (tt, h') ∧ seg h' NULL (ring l (reverse xs)) NULL ∧ only h1 h' (ring l (reverse xs))).
  { intros (h' & Hr' & Hs' & Ho'). exists h'. split; [exact Hr'|]. split; [split; [done| |]; by rewrite Hperm|].
    intros a Ha. rewrite Ho', Ho; [done| |by rewrite Hperm]. intros Hin. apply Ha, in_ring. auto. }
  assert (reverse xs ≠ []) as Hne.
  { intros E. apply Hx. rewrite <- (reverse_involutive xs), E. done. }
  rewrite <- Ehd in Ht1. rewrite <- Elst in Hh1. revert Hs1 Hh1 Ht1 Hlr Htr Hndr Hne.
  generalize (reverse xs) as zs. clear - Hlt Hl0. intros zs Hs1 Hh1 Ht1 Hlr Htr Hndr Hne.
  destruct Hlt as [Hlt _]. destruct zs as [|f F]; [done|].
  destruct F as [|z F _] using rev_ind.
  - cbn [seg hd lst foldl] in *. destruct Hs1 as [Hf _].
    rewrite not_elem_of_cons in Hlr, Htr. destruct Hlr as [Hlf _], Htr as [Htf _].
    eexists. split; [|split].
    + unfold swap. erewrite stM_bind_run by (do 3 hstep; eapply set_prev_run; known).
      repeat hstep. eapply set_next_run. known.
    + unfold ring. cbn [app seg hd]. repeat split; lookups; done.
    + unfold ring. frame.
  - cbn [seg] in Hs1. destruct Hs1 as [Hf Hs1]. rewrite hd_app in Hf. cbn [hd] in *.
    apply seg_app in Hs1 as [HsF [Hz _]]. cbn [hd] in *.
    change (lst (l + 8) (f :: F ++ [z])) with (lst f (F ++ [z])) in Hh1. rewrite lst_snoc in Hh1.
    apply NoDup_cons in Hndr as [Hfn Hndr]. apply NoDup_app in Hndr as (_ & HFz & _).
    assert (z ∉ F) as HzF by (intros Hin; apply (HFz _ Hin); by left).
    rewrite not_elem_of_cons, not_elem_of_app, list_elem_of_singleton in Hlr, Htr.
    rewrite not_elem_of_app, list_elem_of_singleton in Hfn. destruct_and?.
    eexists. split; [|split].
    + unfold swap. erewrite stM_bind_run by (do 3 hstep; eapply set_prev_run; known).
      repeat hstep. eapply set_next_run. known.
    + unfold ring. cbn [app seg hd]. rewrite <- app_assoc, hd_app. cbn [app hd].
      rewrite seg_app. cbn [seg hd]. repeat (rewrite seg_insert_ne by done).
      repeat split; lookups; done.
    + unfold ring. frame.
Qed.

(** ** The remaining operations *)

Lemma list_empty_spec h l xs : is_list h l xs → list_empty l h = Ok (bool_decide (xs = []), h).
Proof.
  intros Hl. unfold list_empty. erewrite stM_bind_run by by apply list_begin_spec.
  erewrite stM_bind_run by by eapply list_end_spec. by rewrite (tail_eqb h l [] xs).
Qed.

Lemma list_front_spec h l x xs : is_list h l (x :: xs) → list_front l h = Ok (x, h).
Proof.
  intros Hl. unfold list_front. erewrite stM_bind_run by by apply list_empty_spec.
  rewrite bool_decide_eq_false_2 by done. erewrite stM_bind_run by reflexivity.
  by eapply get_next_run, (list_head_at _ _ _ Hl).
Qed.

Lemma list_back_spec h l xs x : is_list h l (xs ++ [x]) → list_back l h = Ok (x, h).
Proof.
  intros Hl. unfold list_back. erewrite stM_bind_run by by apply list_empty_spec.
  rewrite bool_decide_eq_false_2 by by destruct xs. erewrite stM_bind_run by reflexivity.
  pose proof (list_tail_at _ _ _ Hl) as Ht. rewrite lst_snoc in Ht. by eapply get_prev_run.
Qed.

(** An element that can be put on the list. *)
Definition fresh_elem (h : heap) (l : Z) (xs : list Z) (e : Z) : Prop :=
  e ∉ ring l xs ∧ e ≠ NULL ∧ is_Some (h !! e).

Lemma list_push_front_spec h l xs e :
  is_list h l xs → fresh_elem h l xs e →
  ∃ h', list_push_front l e h = Ok (tt, h') ∧ is_list h' l (e :: xs) ∧ only h h' (ring l (e :: xs)).
Proof.
  intros Hl (? & ? & ?). unfold list_push_front. erewrite stM_bind_run by by apply list_begin_spec.
  by apply (list_insert_spec h l [] xs).
Qed.

Lemma list_push_back_spec h l xs e :
  is_list h l xs → fresh_elem h l xs e →
  ∃ h', list_push_back l e h = Ok (tt, h') ∧ is_list h' l (xs ++ [e]) ∧ only h h' (ring l (xs ++ [e])).
Proof.
  intros Hl (? & ? & ?). unfold list_push_back. erewrite stM_bind_run by by eapply list_end_spec.
  apply (list_insert_spec h l xs []); by rewrite ?app_nil_r.
Qed.

Lemma list_pop_front_spec h l x xs :
  is_list h l (x :: xs) →
  ∃ h', list_pop_front l h = Ok (x, h') ∧ is_list h' l xs ∧ only h h' (ring l xs).
Proof.
  intros Hl. unfold list_pop_front. erewrite stM_bind_run by by eapply list_front_spec.
  destruct (list_remove_spec h l [] x xs Hl) as (h' & Hr & Hl' & Ho).
  exists h'. by erewrite stM_bind_run by exact Hr.
Qed.

Lemma list_pop_back_spec h l xs x :
  is_list h l (xs ++ [x]) →
  ∃ h', list_pop_back l h = Ok (x, h') ∧ is_list h' l xs ∧ only h h' (ring l xs).
Proof.
  intros Hl. unfold list_pop_back. erewrite stM_bind_run by by eapply list_back_spec.
  destruct (list_remove_spec h l xs x [] Hl) as (h' & Hr & Hl' & Ho). rewrite app_nil_r in *.
  exists h'. by erewrite stM_bind_run by exact Hr.
Qed.

(** A walk over the rest [ys] of a list: the test for the end and the step. *)
Lemma walk_end h l xs ys :
  is_list h l (xs ++ ys) → list_end l h = Ok (l + 8, h) ∧ (pos l ys =? l + 8) = bool_decide (ys = []).
Proof. intros Hl. split; [by eapply list_end_spec|by eapply tail_eqb]. Qed.

Ltac walk Hl :=
  let He := fresh "He" in let Ht := fresh "Ht" in
  destruct (walk_end _ _ _ _ Hl) as [He Ht];
  erewrite stM_bind_run by exact He; rewrite Ht; clear He Ht.

Lemma is_list_step h l xs y ys : is_list h l (xs ++ y :: ys) → is_list h l ((xs ++ [y]) ++ ys).
Proof. by rewrite <- app_assoc. Qed.

Lemma size_loop_spec fuel h l xs ys cnt :
  is_list h l (xs ++ ys) → (length ys < fuel)%nat → 0 ≤ cnt → cnt + Z.of_nat (length ys) < W32 →
  size_loop fuel (pos l ys) l cnt h = Ok (cnt + Z.of_nat (length ys), h).
Proof.
  revert xs ys cnt. induction fuel as [|fuel IH]; intros xs ys cnt Hl Hf H0 Hw; [lia|].
  cbn [size_loop]. walk Hl. destruct ys as [|y ys]; [by rewrite Z.add_0_r|]. simpl in *.
  erewrite stM_bind_run by by eapply list_next_spec. rewrite u32_small by (unfold in_u32; lia).
  rewrite (IH (xs ++ [y])); [do 2 f_equal; lia|by apply is_list_step|lia|lia|lia].
Qed.

Lemma list_size_spec h l xs :
  is_list h l xs → Z.of_nat (length xs) < W32 → list_size l h = Ok (Z.of_nat (length xs), h).
Proof.
  intros Hl Hw. unfold list_size. erewrite stM_bind_run by reflexivity.
  erewrite stM_bind_run by by apply list_begin_spec. pose proof (list_bound _ _ _ Hl).
  by rewrite (size_loop_spec _ h l [] xs) by (done || lia).
Qed.

Section ordered_ops.
Variable less : Z → Z → bool.

(** Insertion before the first element that is greater. *)
Fixpoint insert_before (e : Z) (ys : list Z) : list Z :=
  match ys with [] => [e] | y :: t => if less e y then e :: ys else y :: insert_before e t end.

Lemma place_loop_spec fuel h l xs ys e :
  is_list h l (xs ++ ys) → (length ys < fuel)%nat →
  ∃ A B, place_loop less fuel l e (pos l ys) h = Ok (pos l B, h) ∧ ys = A ++ B ∧
    insert_before e ys = A ++ e :: B.
Proof.
  revert xs ys. induction fuel as [|fuel IH]; intros xs ys Hl Hf; [lia|]. cbn [place_loop]. walk Hl.
  destruct ys as [|y ys]; [by exists [], []|]. cbn [pos hd insert_before bool_decide]. simpl.
  destruct (less e y) eqn:Hy; [by exists [], (y :: ys)|].
  erewrite stM_bind_run by by eapply list_next_spec.
  destruct (IH (xs ++ [y]) ys) as (A & B & Hr & -> & Hi); [by apply is_list_step|simpl in Hf; lia|].
  exists (y :: A), B. rewrite Hi. done.
Qed.

Lemma list_insert_ordered_spec h l xs e :
  is_list h l xs → fresh_elem h l xs e →
  ∃ h', list_insert_ordered less l e h = Ok (tt, h') ∧ is_list h' l (insert_before e xs) ∧
    only h h' (ring l (insert_before e xs)).
Proof.
  intros Hl (He & He0 & Hs). unfold list_insert_ordered.
  erewrite stM_bind_run by (apply sassert_run, nonnull_true; by eapply is_list_nonnull).
  erewrite stM_bind_run by by apply sassert_run, nonnull_true.
  erewrite stM_bind_run by reflexivity. erewrite stM_bind_run by by apply list_begin_spec.
  destruct (place_loop_spec (S (size h)) h l [] xs e) as (A & B & Hr & -> & ->);
    [done|pose proof (list_bound _ _ _ Hl); lia|].
  erewrite stM_bind_run by exact Hr. by apply list_insert_spec.
Qed.

(** The first of each group of adjacent equal elements. *)
Fixpoint unique (a : Z) (ys : list Z) : list Z :=
  match ys with
  | [] => [a]
  | y :: ys => if negb (less a y) && negb (less y a) then unique a ys else a :: unique y ys
  end.

Lemma unique_loop_spec fuel h l xs a ys :
  is_list h l (xs ++ a :: ys) → (length ys < fuel)%nat →
  ∃ h', unique_loop less fuel l NULL a h = Ok (tt, h') ∧ is_list h' l (xs ++ unique a ys) ∧
    only h h' (ring l (xs ++ a :: ys)).
Proof.
  revert h xs a ys. induction fuel as [|fuel IH]; intros h xs a ys Hl Hf; [lia|]. cbn [unique_loop].
  erewrite stM_bind_run by by eapply list_next_spec. pose proof (is_list_step _ _ _ _ _ Hl) as Hl1.
  walk Hl1. destruct ys as [|y ys]; [by exists h|]. rewrite bool_decide_eq_false_2 by done.
  cbn [pos hd unique]. destruct (negb (less a y) && negb (less y a)).
  - destruct (list_remove_spec h l (xs ++ [a]) y ys Hl1) as (h1 & Hr & Hl2 & Ho).
    erewrite stM_bind_run by exact Hr. erewrite stM_bind_run by reflexivity.
    destruct (IH h1 xs a ys) as (h2 & Hr2 & Hl3 & Ho2);
      [by rewrite <- app_assoc in Hl2|simpl in Hf; lia|].
    exists h2. split; [done|]. split; [done|]. intros b Hb. rewrite in_ring in Hb.
    rewrite Ho2, Ho; [done|..]; rewrite in_ring; set_solver.
  - destruct (IH h (xs ++ [a]) y ys) as (h2 & Hr2 & Hl3 & Ho2); [done|simpl in Hf; lia|].
    rewrite <- app_assoc in Hl3, Ho2. by exists h2.
Qed.

Lemma list_unique_spec h l xs :
  is_list h l xs →
  ∃ h', list_unique less l NULL h = Ok (tt, h') ∧
    is_list h' l (match xs with [] => [] | a :: ys => unique a ys end) ∧ only h h' (ring l xs).
Proof.
  intros Hl. unfold list_unique.
  erewrite stM_bind_run by (apply sassert_run, nonnull_true; by eapply is_list_nonnull).
  erewrite stM_bind_run by by apply list_empty_spec.
  destruct xs as [|a ys]; [by exists h|]. rewrite bool_decide_eq_false_2 by done.
  erewrite stM_bind_run by reflexivity. erewrite stM_bind_run by by apply list_begin_spec.
  apply (unique_loop_spec _ _ _ []); [done|]. pose proof (list_bound _ _ _ Hl). simpl in *. lia.
Qed.

Lemma best_loop_spec better fuel h l xs ys m :
  is_list h l (xs ++ ys) → (length ys < fuel)%nat →
  best_loop better fuel l m (pos l ys) h =
    Ok (fold_left (λ m e, if better m e then e else m) ys m, h).
Proof.
  revert xs ys m. induction fuel as [|fuel IH]; intros xs ys m Hl Hf; [lia|]. cbn [best_loop]. walk Hl.
  destruct ys as [|y ys]; [done|]. simpl. erewrite stM_bind_run by by eapply list_next_spec.
  apply (IH (xs ++ [y])); [by apply is_list_step|simpl in Hf; lia].
Qed.

(** The tail of an empty list, else the best element. *)
Definition best (better : Z → Z → bool) (l : Z) (xs : list Z) : Z :=
  match xs with [] => l + 8 | a :: ys => fold_left (λ m e, if better m e then e else m) ys a end.

Lemma best_of_spec better h l xs : is_list h l xs → best_of better l h = Ok (best better l xs, h).
Proof.
  intros Hl. unfold best_of. erewrite stM_bind_run by reflexivity.
  erewrite stM_bind_run by by apply list_begin_spec. pose proof (list_bound _ _ _ Hl) as Hb.
  walk (Hl : is_list h l ([] ++ xs)). destruct xs as [|a ys]; [done|].
  rewrite bool_decide_eq_false_2 by done. cbn [pos hd].
  erewrite stM_bind_run by by eapply (list_next_spec h l []).
  apply (best_loop_spec _ _ _ _ [a]); [done|]. simpl in Hb. lia.
Qed.

End ordered_ops.

(** ** Sequences of operations *)

(** No operation creates or destroys elements. *)
Definition keeps {A} (m : stM heap A) : Prop := ∀ h a h', m h = Ok (a, h') → dom h' = dom h.

Lemma keeps_bind {A B} (m : stM heap A) (f : A → stM heap B) :
  keeps m → (∀ a, keeps (f a)) → keeps (m ≫= f).
Proof.
  intros Hm Hf h b h2 (a & h1 & H1 & H2)%stM_bind_inv. by rewrite (Hf _ _ _ _ H2), (Hm _ _ _ H1).
Qed.
Lemma keeps_ret {A} (a : A) : keeps (mret a : stM heap A).
Proof. by intros h b h' [= _ <-]. Qed.
Lemma keeps_err {A} e : keeps (serr e : stM heap A).
Proof. by intros h b h'. Qed.
Lemma keeps_assert b : keeps (sassert b : stM heap unit).
Proof. intros h u h'. destruct b; [by intros [= _ <-]|done]. Qed.
Lemma keeps_bound : keeps bound.
Proof. by intros h u h' [= _ <-]. Qed.
Lemma keeps_get f : keeps (get f).
Proof. intros h u h'. destruct f as [e|e]; simpl; destruct (h !! e); simpl; congruence. Qed.
Lemma keeps_set f v : keeps (set f v).
Proof.
  intros h u h'. destruct f as [e|e]; simpl; destruct (h !! e) as [n|] eqn:He; simpl; intros [=]; subst;
    rewrite dom_insert_L; assert (e ∈ dom h) by (apply elem_of_dom; eauto); set_solver.
Qed.

Create HintDb keeps.
#[local] Hint Resolve keeps_ret keeps_err keeps_assert keeps_bound keeps_get keeps_set : keeps.
Ltac keep := repeat first [solve [auto with keeps] | apply keeps_bind; [|intros] | case_match].

Lemma keeps_kind p n e : keeps (kind p n e).
Proof. unfold kind. keep. Qed.
#[local] Hint Resolve keeps_kind : keeps.
Lemma keeps_either a b : keeps a → keeps b → keeps (assert_either a b).
Proof. intros. unfold assert_either. keep. Qed.
Lemma keeps_access l e :
  keeps (list_begin l) ∧ keeps (list_end l) ∧ keeps (list_next e) ∧ keeps (list_prev e).
Proof.
  unfold list_begin, list_end, list_next, list_prev, is_head, is_interior, is_tail.
  split_and!; keep; apply keeps_either; auto with keeps.
Qed.
Lemma keeps_begin l : keeps (list_begin l). Proof. apply (keeps_access l l). Qed.
Lemma keeps_end l : keeps (list_end l). Proof. apply (keeps_access l l). Qed.
Lemma keeps_next l : keeps (list_next l). Proof. apply (keeps_access l l). Qed.
Lemma keeps_prev l : keeps (list_prev l). Proof. apply (keeps_access l l). Qed.
#[local] Hint Resolve keeps_begin keeps_end keeps_next keeps_prev : keeps.
Lemma keeps_empty l : keeps (list_empty l).
Proof. unfold list_empty. keep. Qed.
Lemma keeps_insert b e : keeps (list_insert b e).
Proof.
  unfold list_insert, is_interior, is_tail. apply keeps_bind; [apply keeps_either; auto with keeps|]. intros _. keep.
Qed.
Lemma keeps_remove e : keeps (list_remove e).
Proof. unfold list_remove, is_interior. keep. Qed.
#[local] Hint Resolve keeps_empty keeps_insert keeps_remove : keeps.
Lemma keeps_size fuel e l cnt : keeps (size_loop fuel e l cnt).
Proof.
  revert e cnt. induction fuel as [|fuel IH]; intros; cbn [size_loop]; keep.
Qed.
Lemma keeps_swap a b : keeps (swap a b).
Proof. unfold swap. keep. Qed.
#[local] Hint Resolve keeps_size keeps_swap : keeps.
Lemma keeps_reverse fuel e l : keeps (reverse_loop fuel e l).
Proof. revert e. induction fuel as [|fuel IH]; intros; cbn [reverse_loop]; keep. Qed.
Lemma keeps_place less fuel l e x : keeps (place_loop less fuel l e x).
Proof. revert x. induction fuel as [|fuel IH]; intros; cbn [place_loop]; keep. Qed.
Lemma keeps_unique less fuel l d e : keeps (unique_loop less fuel l d e).
Proof. revert e. unfold list_push_back. induction fuel as [|fuel IH]; intros; cbn [unique_loop]; unfold list_push_back; keep. Qed.
Lemma keeps_splice b f n : keeps (list_splice b f n).
Proof.
  unfold list_splice, is_interior, is_tail. apply keeps_bind; [apply keeps_either; auto with keeps|]. intros _. keep.
Qed.
Lemma keeps_best better fuel l m e : keeps (best_loop better fuel l m e).
Proof. revert m e. induction fuel as [|fuel IH]; intros; cbn [best_loop]; keep. Qed.
#[local] Hint Resolve keeps_reverse keeps_place keeps_unique keeps_best : keeps.

Inductive op :=
| PushFront (e : Z) | PushBack (e : Z) | InsertOrdered (e : Z)
| PopFront | PopBack | Remove (e : Z)
| Size | Empty | Reverse | Unique | Max | Min
| Begin | End | RBegin | REnd | Head | Tail | Front | Back | NextOf (e : Z) | PrevOf (e : Z).

(** What the operation returns, as a word: 0 for [void]. *)
Definition run_op (less : Z → Z → bool) (l : Z) (o : op) : stM heap Z :=
  match o with
  | PushFront e => list_push_front l e;; mret 0
  | PushBack e => list_push_back l e;; mret 0
  | InsertOrdered e => list_insert_ordered less l e;; mret 0
  | PopFront => list_pop_front l
  | PopBack => list_pop_back l
  | Remove e => list_remove e
  | Size => list_size l
  | Empty => b ← list_empty l; mret (Z.b2z b)
  | Reverse => list_reverse l;; mret 0
  | Unique => list_unique less l NULL;; mret 0
  | Max => list_max less l
  | Min => list_min less l
  | Begin => list_begin l
  | End => list_end l
  | RBegin => list_rbegin l
  | REnd => list_rend l
  | Head => list_head l
  | Tail => list_tail l
  | Front => list_front l
  | Back => list_back l
  | NextOf e => list_next e
  | PrevOf e => list_prev e
  end.

Lemma keeps_run_op less l o : keeps (run_op less l o).
Proof.
  destruct o; cbn [run_op]; unfold list_push_front, list_push_back, list_insert_ordered, list_pop_front,
    list_pop_back, list_rbegin, list_rend, list_head, list_tail, list_front, list_back, list_size, list_reverse, list_unique, list_max, list_min, best_of; keep.
Qed.

Lemma keeps_unique_into less l d : keeps (list_unique less l d).
Proof. unfold list_unique. keep. Qed.

Fixpoint del (l e : Z) (xs : list Z) : option (list Z * Z) :=
  match xs with
  | [] => None
  | x :: xs =>
      if decide (x = e) then Some (xs, pos l xs)
      else match del l e xs with Some (r, n) => Some (x :: r, n) | None => None end
  end.

(** The element before [e]; [p] is the one before all of [xs]. *)
Fixpoint before_of (e p : Z) (xs : list Z) : option Z :=
  match xs with [] => None | x :: xs => if decide (x = e) then Some p else before_of e x xs end.

(** The same operation on a mathematical list; [None] where the code's
    documentation calls it undefined. *)
Definition spec_op (less : Z → Z → bool) (l : Z) (o : op) (xs : list Z) : option (list Z * Z) :=
  let fresh e ys := if decide (e ∈ ring l xs ∨ e = NULL) then None else Some (ys, 0) in
  match o with
  | PushFront e => fresh e (e :: xs)
  | PushBack e => fresh e (xs ++ [e])
  | InsertOrdered e => fresh e (insert_before less e xs)
  | PopFront => match xs with [] => None | x :: xs => Some (xs, x) end
  | PopBack => match reverse xs with [] => None | x :: ys => Some (reverse ys, x) end
  | Remove e => del l e xs
  | Size => Some (xs, Z.of_nat (length xs))
  | Empty => Some (xs, Z.b2z (bool_decide (xs = [])))
  | Reverse => Some (reverse xs, 0)
  | Unique => Some (match xs with [] => [] | a :: ys => unique less a ys end, 0)
  | Max => Some (xs, best less l xs)
  | Min => Some (xs, best (λ m e, less e m) l xs)
  | Begin => Some (xs, pos l xs)
  | RBegin => Some (xs, lst l xs)
  | Head | REnd => Some (xs, l)
  | Tail | End => Some (xs, l + 8)
  | Front => match xs with [] => None | x :: _ => Some (xs, x) end
  | Back => match reverse xs with [] => None | x :: _ => Some (xs, x) end
  | NextOf e => if decide (e = l) then Some (xs, pos l xs) else (λ r, (xs, r.2)) <$> del l e xs
  | PrevOf e => if decide (e = l + 8) then Some (xs, lst l xs) else (λ r, (xs, r)) <$> before_of e l xs
  end.

Definition op_elem (o : op) : option Z :=
  match o with PushFront e | PushBack e | InsertOrdered e => Some e | _ => None end.

Lemma del_spec l e xs ys n : del l e xs = Some (ys, n) → ∃ A B, xs = A ++ e :: B ∧ ys = A ++ B ∧ n = pos l B.
Proof.
  revert ys. induction xs as [|x xs IH]; intros ys; simpl; [done|]. case_decide as Hx.
  - intros [= <- <-]. subst. by exists [], xs.
  - destruct (del l e xs) as [[r m]|]; [|done]. intros [= <- <-].
    destruct (IH r eq_refl) as (A & B & -> & -> & ->). by exists (x :: A), B.
Qed.

Lemma insert_before_elems less e xs a : a ∈ insert_before less e xs → a = e ∨ a ∈ xs.
Proof.
  induction xs as [|x xs IH]; simpl; [set_solver|]. case_match; rewrite !elem_of_cons; [tauto|]. intros [->|?%IH]; tauto.
Qed.
Lemma unique_elems less b ys a : a ∈ unique less b ys → a = b ∨ a ∈ ys.
Proof.
  revert b. induction ys as [|y ys IH]; intros b; simpl; [set_solver|]. case_match; rewrite !elem_of_cons.
  - intros [->|?]%IH; tauto.
  - intros [->|[->|?]%IH]; tauto.
Qed.
(** An operation brings at most its argument onto the list. *)
Lemma spec_op_elems less l o xs ys r a :
  spec_op less l o xs = Some (ys, r) → a ∈ ring l ys → a ∉ ring l xs → op_elem o = Some a.
Proof.
  intros Hs Ha Hx. rewrite in_ring in Ha. rewrite in_ring in Hx. assert (a ∈ ys ∧ a ∉ xs) as [Hy Hnx] by tauto. clear Ha Hx.
  destruct o; simpl in Hs |- *; try (case_decide; [done|]); simplify_eq; try done.
  - apply elem_of_cons in Hy as [->|]; [done|tauto].
  - apply elem_of_app in Hy as [Hy|Hy%list_elem_of_singleton]; [tauto|by subst].
  - apply insert_before_elems in Hy as [->|]; [done|tauto].
  - destruct xs; simplify_eq. exfalso. set_solver.
  - destruct (reverse xs) as [|x zs] eqn:E; simplify_eq. exfalso. apply Hnx, elem_of_reverse. rewrite E. right. by apply elem_of_reverse.
  - destruct (del_spec _ _ _ _ _ Hs) as (A & B & -> & -> & _). exfalso. set_solver.
  - exfalso. by apply Hnx, elem_of_reverse.
  - destruct xs; [by apply not_elem_of_nil in Hy|]. apply unique_elems in Hy. exfalso. set_solver.
  - exfalso. by repeat (case_match; simplify_eq).
  - exfalso. by repeat (case_match; simplify_eq).
  - exfalso. case_decide; simplify_option_eq; done.
  - exfalso. case_decide; simplify_option_eq; done.
Qed.

Lemma before_of_spec e p xs r : before_of e p xs = Some r → ∃ A B, xs = A ++ e :: B ∧ r = lst p A.
Proof.
  revert p. induction xs as [|x xs IH]; intros p; simpl; [done|]. case_decide as Hx.
  - intros [= <-]. subst. by exists [], xs.
  - intros (A & B & -> & ->)%IH. by exists (x :: A), B.
Qed.

Lemma only_refl h A : only h h A.
Proof. done. Qed.
Lemma only_l h h' A B : only h h' A → only h h' (A ++ B).
Proof. intros Ho a Ha. apply Ho. set_solver. Qed.
Lemma only_r h h' A B : only h h' B → only h h' (A ++ B).
Proof. intros Ho a Ha. apply Ho. set_solver. Qed.
#[local] Hint Resolve only_refl only_l only_r : core.

(** The operations that give a place in the list. *)
Definition looks (o : op) : bool :=
  match o with Begin | End | RBegin | REnd | Head | Tail | Front | Back | NextOf _ | PrevOf _ => true | _ => false end.
Lemma look_spec less l o h xs ys r :
  looks o = true → is_list h l xs → spec_op less l o xs = Some (ys, r) → run_op less l o h = Ok (r, h) ∧ ys = xs.
Proof.
  intros Ho Hl Hs. assert (ys = xs) as ->.
  { destruct o; try done; simpl in Hs; repeat (case_decide || case_match); by simplify_option_eq. }
  split; [|done]. assert (sassert (nonnull l) h = Ok (tt, h)) as Hn by (apply sassert_run, nonnull_true; by eapply is_list_nonnull).
  destruct o; try done; cbn [run_op]; simpl in Hs.
  - injection Hs as <-. by apply list_begin_spec.
  - injection Hs as <-. by eapply list_end_spec.
  - injection Hs as <-. unfold list_rbegin. erewrite stM_bind_run by exact Hn. by eapply get_prev_run, list_tail_at.
  - injection Hs as <-. unfold list_rend. by erewrite stM_bind_run by exact Hn.
  - injection Hs as <-. unfold list_head. by erewrite stM_bind_run by exact Hn.
  - injection Hs as <-. unfold list_tail. by erewrite stM_bind_run by exact Hn.
  - destruct xs as [|x xs]; simplify_eq. by apply list_front_spec with xs.
  - destruct (reverse xs) as [|x zs] eqn:E; simplify_eq.
    assert (xs = reverse zs ++ [r]) as -> by by rewrite <- reverse_cons, <- E, reverse_involutive. by eapply list_back_spec.
  - case_decide as He; [subst; injection Hs as <-|].
    + eapply list_next_run; [by apply list_head_at|by eapply is_list_nonnull|by apply (pos_nonnull h l [])].
    + apply fmap_Some in Hs as ([ys n] & Hd & [= ->]). destruct (del_spec _ _ _ _ _ Hd) as (A & B & -> & _ & ->).
      by eapply list_next_spec.
  - case_decide as He; [subst; injection Hs as <-|].
    + change (l + 8) with (pos l []). apply list_prev_spec. by rewrite app_nil_r.
    + apply fmap_Some in Hs as (n & Hd & [= ->]). destruct (before_of_spec _ _ _ _ Hd) as (A & B & -> & ->).
      by apply (list_prev_spec h l A (e :: B)).
Qed.

Lemma run_op_spec less l o h xs ys r :
  is_list h l xs → Z.of_nat (length xs) < W32 → (∀ e, op_elem o = Some e → is_Some (h !! e)) →
  spec_op less l o xs = Some (ys, r) →
  ∃ h', run_op less l o h = Ok (r, h') ∧ is_list h' l ys ∧ only h h' (ring l xs ++ ring l ys).
Proof.
  intros Hl Hw Hin Hs. destruct (looks o) eqn:Hlk.
  { destruct (look_spec less l o h xs ys r) as [Hr ->]; [done..|]. exists h. auto. }
  assert (∀ e zs, op_elem o = Some e → (if decide (e ∈ ring l xs ∨ e = NULL) then None else Some (zs, 0)) =
    Some (ys, r) → fresh_elem h l xs e ∧ zs = ys ∧ r = 0) as Hfresh.
  { intros e zs He. case_decide; [done|]. intros [= -> <-]. split; [|done].
    split_and!; [tauto|tauto|by apply Hin]. }
  destruct o; try done; simpl in Hs;
    try (destruct (Hfresh _ _ eq_refl Hs) as (Hf & <- & ->)); cbn [run_op].
  - destruct (list_push_front_spec h l xs e) as (h' & Hr & ? & Ho); [done..|]. exists h'.
    erewrite stM_bind_run by exact Hr. auto.
  - destruct (list_push_back_spec h l xs e) as (h' & Hr & ? & Ho); [done..|]. exists h'.
    erewrite stM_bind_run by exact Hr. auto.
  - destruct (list_insert_ordered_spec less h l xs e) as (h' & Hr & ? & Ho); [done..|]. exists h'.
    erewrite stM_bind_run by exact Hr. auto.
  - destruct xs as [|x xs]; [done|]. injection Hs as <- <-.
    destruct (list_pop_front_spec h l x xs) as (h' & Hr & ? & Ho); [done|]. exists h'. auto.
  - destruct (reverse xs) as [|x zs] eqn:E; [done|]. injection Hs as <- <-.
    assert (xs = reverse zs ++ [x]) as -> by by rewrite <- reverse_cons, <- E, reverse_involutive.
    destruct (list_pop_back_spec h l (reverse zs) x) as (h' & Hr & ? & Ho); [done|]. exists h'. auto.
  - destruct (del_spec _ _ _ _ _ Hs) as (A & B & -> & -> & ->).
    destruct (list_remove_spec h l A e B) as (h' & Hr & ? & Ho); [done|]. exists h'. auto.
  - injection Hs as <- <-. exists h. rewrite (list_size_spec h l xs) by done. auto.
  - injection Hs as <- <-. exists h. erewrite stM_bind_run by by apply list_empty_spec. auto.
  - injection Hs as <- <-. destruct (list_reverse_spec h l xs) as (h' & Hr & ? & Ho); [done|]. exists h'.
    erewrite stM_bind_run by exact Hr. auto.
  - injection Hs as <- <-. destruct (list_unique_spec less h l xs) as (h' & Hr & ? & Ho); [done|]. exists h'.
    erewrite stM_bind_run by exact Hr. auto.
  - injection Hs as <- <-. exists h. split; [by apply best_of_spec|auto].
  - injection Hs as <- <-. exists h. split; [by apply best_of_spec|auto].
Qed.

(** ** A concrete list: elements 3, 1, 2 (by address: 300, 100, 200) at 1000 *)

Definition sample_heap : heap :=
  <[1000 := mk_elem 0 300]> (<[300 := mk_elem 1000 100]> (<[100 := mk_elem 300 200]>
    (<[200 := mk_elem 100 1008]> (<[1008 := mk_elem 200 0]> (<[150 := mk_elem 0 0]> ∅))))).

Lemma sample_list : is_list sample_heap 1000 [300; 100; 200].
Proof.
  split.
  - vm_compute. repeat split.
  - unfold ring. simpl. repeat constructor; set_solver by lia.
  - unfold ring, NULL. simpl. repeat constructor; lia.
Qed.

Lemma list_sort_sorts_witness :
  ∃ h' ys, list_sort Z.ltb 1000 sample_heap = Ok (tt, h') ∧ is_list h' 1000 ys ∧
    ys ≡ₚ [300; 100; 200] ∧ Sorted (leq Z.ltb) ys.
Proof.
  destruct (list_sort_sorts Z.ltb sample_heap 1000 [300; 100; 200]) as (h' & ys & Hr & Hl & Hp & Hs & _).
  - intros a b H. apply Z.ltb_lt in H. apply Z.ltb_ge. lia.
  - intros a b c H1 H2. apply Z.ltb_ge in H1, H2. apply Z.ltb_ge. lia.
  - exact sample_list.
  - simpl. lia.
  - exists h', ys. split; [exact Hr|]. split; [exact Hl|]. split; [exact Hp|exact Hs].
Defined.
End KList.
