(* ===== verification/ListFamily.v ===== *)
(** * Families of kernel lists

    Several lists of [KList] on one heap that share no element: the buckets of
    a hash table, the free lists of the block allocator.  An operation on one
    of them leaves the others alone. *)

From S2P Require Import Prelude KList.
Import KList.

(** ** Families of lists *)

Record lists (h : heap) (M : gmap Z (list Z)) : Prop := {
  ls_is : ∀ l xs, M !! l = Some xs → is_list h l xs;
  ls_disj : ∀ l1 l2 xs1 xs2 a, M !! l1 = Some xs1 → M !! l2 = Some xs2 →
    a ∈ ring l1 xs1 → a ∈ ring l2 xs2 → l1 = l2;
}.

(** On none of the lists. *)
Definition loose (M : gmap Z (list Z)) (e : Z) : Prop := ∀ l xs, M !! l = Some xs → e ∉ ring l xs.

Lemma is_list_frame h h' l xs :
  (∀ a, a ∈ ring l xs → h' !! a = h !! a) → is_list h l xs → is_list h' l xs.
Proof. intros Hf [Hs Hn Hz]. split; [by eapply seg_frame|done..]. Qed.

Lemma ring_in_dom h l xs a : is_list h l xs → a ∈ ring l xs → is_Some (h !! a).
Proof.
  intros [Hs _ _] (P & Q & E)%list_elem_of_split. rewrite E in Hs. apply seg_lookup in Hs. by eexists.
Qed.

Lemma lists_restrict h h' M M' :
  lists h M → M' ⊆ M → (∀ l xs a, M' !! l = Some xs → a ∈ ring l xs → h' !! a = h !! a) → lists h' M'.
Proof.
  intros [Hi Hd] Hsub Hf. split.
  - intros l xs Hl. apply (is_list_frame h); [by eauto|]. eapply Hi, lookup_weaken; done.
  - intros l1 l2 xs1 xs2 a H1 H2. eapply (Hd l1 l2 xs1 xs2 a); by eapply lookup_weaken.
Qed.

(** On none of the lists, the one at [l] perhaps excepted. *)
Definition apart (M : gmap Z (list Z)) (l a : Z) : Prop :=
  ∀ l2 xs2, l ≠ l2 → M !! l2 = Some xs2 → a ∉ ring l2 xs2.

Lemma loose_apart M l e : loose M e → apart M l e.
Proof. intros H l2 xs2 _. apply H. Qed.

Lemma ring_apart h M l xs a : lists h M → M !! l = Some xs → a ∈ ring l xs → apart M l a.
Proof. intros Hm Hl Ha l2 xs2 Hne Hl2 Hx. apply Hne. by eapply (ls_disj _ _ Hm). Qed.

(** A change to one list that leaves the others alone. *)
Lemma lists_update h h' M l ys A :
  lists h M → is_list h' l ys → only h h' A → (∀ a, a ∈ A ∨ a ∈ ring l ys → apart M l a) →
  lists h' (<[l := ys]> M).
Proof.
  intros [Hi Hd] Hl' Ho HA. split.
  - intros l2 xs2 Hl2. destruct (decide (l = l2)) as [<-|Hne].
    + rewrite lookup_insert_eq in Hl2. by simplify_eq.
    + rewrite lookup_insert_ne in Hl2 by done. apply (is_list_frame h); [|by eapply Hi].
      intros a Ha. apply Ho. intros Hx. by eapply (HA a (or_introl Hx)).
  - intros l1 l2 xs1 xs2 a H1 H2 Ha1 Ha2.
    destruct (decide (l = l1)) as [<-|N1], (decide (l = l2)) as [<-|N2];
      rewrite ?lookup_insert_eq, ?lookup_insert_ne in * by done; simplify_eq; try done.
    + by destruct (HA a (or_intror Ha1) l2 xs2).
    + by destruct (HA a (or_intror Ha2) l1 xs1).
    + by eapply (Hd l1 l2).
Qed.

(** An element that was on no list is put on one. *)
Lemma lists_grow h h' M l xs ys e :
  lists h M → M !! l = Some xs → loose M e → is_list h' l ys → only h h' (ring l ys) →
  (∀ a, a ∈ ys → a = e ∨ a ∈ xs) → lists h' (<[l := ys]> M).
Proof.
  intros Hm Hl He Hl' Ho Hys. eapply lists_update; [done..|]. intros a Ha.
  destruct (decide (a = e)) as [->|]; [by apply loose_apart|]. eapply ring_apart; [done..|].
  destruct Ha as [Ha|Ha]; rewrite in_ring in Ha; apply in_ring; naive_solver.
Qed.

Lemma lists_push_front h M l xs e :
  lists h M → M !! l = Some xs → loose M e → e ≠ NULL → is_Some (h !! e) →
  ∃ h', list_push_front l e h = Ok (tt, h') ∧ lists h' (<[l := e :: xs]> M) ∧ dom h' = dom h.
Proof.
  intros Hm Hl He H0 Hs. destruct (list_push_front_spec h l xs e) as (h' & Hr & Hl' & Ho).
  - by eapply ls_is.
  - split_and!; [by eapply He|done..].
  - exists h'. split; [done|]. split; [|by eapply (keeps_run_op Z.ltb l (PushFront e) h 0);
      cbn [run_op]; rewrite stM_bind_eq, Hr].
    eapply lists_grow; [done..|]. set_solver.
Qed.

Lemma lists_push_back h M l xs e :
  lists h M → M !! l = Some xs → loose M e → e ≠ NULL → is_Some (h !! e) →
  ∃ h', list_push_back l e h = Ok (tt, h') ∧ lists h' (<[l := xs ++ [e]]> M) ∧ dom h' = dom h.
Proof.
  intros Hm Hl He H0 Hs. destruct (list_push_back_spec h l xs e) as (h' & Hr & Hl' & Ho).
  - by eapply ls_is.
  - split_and!; [by eapply He|done..].
  - exists h'. split; [done|]. split; [|by eapply (keeps_run_op Z.ltb l (PushBack e) h 0);
      cbn [run_op]; rewrite stM_bind_eq, Hr].
    eapply lists_grow; [done..|]. set_solver.
Qed.

Lemma lists_remove h M l xs e ys :
  lists h M → M !! l = Some (xs ++ e :: ys) →
  ∃ h', list_remove e h = Ok (pos l ys, h') ∧ lists h' (<[l := xs ++ ys]> M) ∧ dom h' = dom h ∧
    loose (<[l := xs ++ ys]> M) e.
Proof.
  intros Hm Hl. destruct (list_remove_spec h l xs e ys) as (h' & Hr & Hl' & Ho); [by eapply ls_is|].
  exists h'. split; [done|]. split_and!; [|by eapply (keeps_run_op Z.ltb l (Remove e) h)|].
  - eapply lists_update; [done..|]. intros a Ha. eapply ring_apart; [done..|].
    destruct Ha as [Ha|Ha]; rewrite in_ring in Ha; apply in_ring; set_solver.
  - intros l2 xs2 Hl2. destruct (decide (l = l2)) as [<-|Hne].
    + rewrite lookup_insert_eq in Hl2. simplify_eq. pose proof (il_nodup _ _ _ (ls_is _ _ Hm _ _ Hl)) as Hn.
      rewrite ring_mid in Hn. apply nodup_mid in Hn as [Hn _]. unfold ring. set_solver.
    + rewrite lookup_insert_ne in Hl2 by done. refine (ring_apart h M l _ e Hm Hl _ l2 xs2 Hne Hl2).
      apply in_ring. set_solver.
Qed.

Lemma lists_init h M l :
  lists h M → l ≠ NULL → l + 8 ≠ NULL → apart M l l → apart M l (l + 8) →
  ∃ h', list_init l h = Ok (tt, h') ∧ lists h' (<[l := []]> M) ∧ dom h' = {[l; l + 8]} ∪ dom h.
Proof.
  intros Hm Hz Hz8 Ha Ha8. eexists. split_and!.
  - unfold list_init. by erewrite stM_bind_run by (apply sassert_run, nonnull_true; done).
  - eapply (lists_update h _ M l [] (ring l [])); [done|split| |].
    + simpl. by rewrite lookup_insert_eq, lookup_insert_ne, lookup_insert_eq by lia.
    + apply NoDup_cons. split; [|apply NoDup_singleton]. simpl. rewrite list_elem_of_singleton. lia.
    + by repeat constructor.
    + intros a Hr. rewrite in_ring in Hr. rewrite !lookup_insert_ne; [done|intros <-; apply Hr; tauto..].
    + intros a Hr. assert (a ∈ ring l []) as Hr' by tauto. apply in_ring in Hr'.
      destruct Hr' as [->|[Hx| ->]]; [done| |done]. by apply not_elem_of_nil in Hx.
  - rewrite !dom_insert_L. set_solver.
Qed.

(** A walk along one list of a family. *)
Lemma lists_begin h M l xs : lists h M → M !! l = Some xs → list_begin l h = Ok (pos l xs, h).
Proof. intros Hm Hl. apply list_begin_spec. by eapply ls_is. Qed.

Lemma lists_pop_front h M l x xs :
  lists h M → M !! l = Some (x :: xs) →
  ∃ h', list_pop_front l h = Ok (x, h') ∧ lists h' (<[l := xs]> M) ∧ dom h' = dom h ∧ loose (<[l := xs]> M) x.
Proof.
  intros Hm Hl. pose proof (ls_is _ _ Hm _ _ Hl) as Hx.
  destruct (lists_remove h M l [] x xs Hm Hl) as (h' & Hr & ? & ? & ?). exists h'. split; [|done].
  unfold list_pop_front. erewrite stM_bind_run by by eapply list_front_spec. by erewrite stM_bind_run by exact Hr.
Qed.

(** Memory that is on no list can change. *)
Lemma lists_insert h M e x : lists h M → loose M e → lists (<[e := x]> h) M.
Proof.
  intros Hm He. eapply lists_restrict; [done..|]. intros l xs a Hl Ha. rewrite lookup_insert_ne; [done|].
  intros ->. by eapply He.
Qed.
Lemma lists_delete h M e : lists h M → loose M e → lists (delete e h) M.
Proof.
  intros Hm He. eapply lists_restrict; [done..|]. intros l xs a Hl Ha. rewrite lookup_delete_ne; [done|].
  intros ->. by eapply He.
Qed.

(** ** Moving a range

    [list_splice] takes the range out of its list and then links it into the
    other, or the same. *)

Definition setn (a v : Z) (h : heap) : heap := alter (λ x, mk_elem (prev x) v) a h.
Definition setp (a v : Z) (h : heap) : heap := alter (λ x, mk_elem v (next x)) a h.

Lemma set_next_alter h e v : is_Some (h !! e) → set (Next e) v h = Ok (tt, setn e v h).
Proof. intros [x He]. simpl. rewrite He. simpl. unfold setn. do 2 f_equal. apply map_eq. intros a.
  destruct (decide (a = e)) as [->|]; [by rewrite lookup_insert_eq, lookup_alter_eq, He|by rewrite lookup_insert_ne, lookup_alter_ne by done].
Qed.
Lemma set_prev_alter h e v : is_Some (h !! e) → set (Prev e) v h = Ok (tt, setp e v h).
Proof. intros [x He]. simpl. rewrite He. simpl. unfold setp. do 2 f_equal. apply map_eq. intros a.
  destruct (decide (a = e)) as [->|]; [by rewrite lookup_insert_eq, lookup_alter_eq, He|by rewrite lookup_insert_ne, lookup_alter_ne by done].
Qed.

Lemma setn_ne h a b v : a ≠ b → setn a v h !! b = h !! b.
Proof. intros. by apply lookup_alter_ne. Qed.
Lemma setp_ne h a b v : a ≠ b → setp a v h !! b = h !! b.
Proof. intros. by apply lookup_alter_ne. Qed.
Lemma setn_some h a b v : is_Some (setn a v h !! b) ↔ is_Some (h !! b).
Proof. unfold setn. rewrite <- !elem_of_dom, dom_alter_L. done. Qed.
Lemma setp_some h a b v : is_Some (setp a v h !! b) ↔ is_Some (h !! b).
Proof. unfold setp. rewrite <- !elem_of_dom, dom_alter_L. done. Qed.

Lemma seg_setn_out h a v p ns q : a ∉ ns → seg h p ns q → seg (setn a v h) p ns q.
Proof. intros Ha. apply seg_frame. intros b Hb. apply setn_ne. by intros ->. Qed.
Lemma seg_setp_out h a v p ns q : a ∉ ns → seg h p ns q → seg (setp a v h) p ns q.
Proof. intros Ha. apply seg_frame. intros b Hb. apply setp_ne. by intros ->. Qed.
(** The last link and the first one of a chain. *)
Lemma seg_setn h a v p ns q : a ∉ ns → seg h p (ns ++ [a]) q → seg (setn a v h) p (ns ++ [a]) v.
Proof.
  intros Ha. rewrite !seg_app. intros [Hs [Hh _]]. split; [by apply seg_setn_out|].
  split; [|done]. unfold setn. by rewrite lookup_alter_eq, Hh.
Qed.
Lemma seg_setp h a v p ns q : a ∉ ns → seg h p (a :: ns) q → seg (setp a v h) v (a :: ns) q.
Proof. intros Ha [Hh Hs]. split; [unfold setp; by rewrite lookup_alter_eq, Hh|by apply seg_setp_out]. Qed.

(** Chains are put together where their ends fit. *)
Lemma seg_join h p A q B r : seg h p (A ++ [q]) (hd r B) → seg h q B r → seg h p (A ++ q :: B) r.
Proof. intros H1 H2. rewrite (app_assoc A [q] B : A ++ q :: B = (A ++ [q]) ++ B). apply seg_app. by rewrite lst_snoc. Qed.
Lemma seg_cut h p A q B r : seg h p (A ++ q :: B) r → seg h p (A ++ [q]) (hd r B) ∧ seg h q B r.
Proof. rewrite (app_assoc A [q] B : A ++ q :: B = (A ++ [q]) ++ B), seg_app, lst_snoc. done. Qed.

Lemma unlink_spec h P p F n Q :
  seg h NULL (P ++ p :: F ++ n :: Q) NULL → NoDup (P ++ p :: F ++ n :: Q) →
  seg (setp n p (setn p n h)) NULL (P ++ p :: n :: Q) NULL ∧ seg (setp n p (setn p n h)) p F n.
Proof.
  intros Hs Hnd. apply seg_cut in Hs as [HP Hs]. apply seg_app in Hs as [HF HQ]. cbn [hd] in HF.
  apply NoDup_app in Hnd as (HndP & Hd1 & [Hp Hnd]%NoDup_cons). apply NoDup_app in Hnd as (HndF & Hd2 & [Hn HndQ]%NoDup_cons).
  assert (p ∉ P ∧ n ∉ P ++ [p] ∧ p ∉ F ∧ n ∉ F ∧ p ∉ n :: Q) as (H1 & H2 & H3 & H4 & H5) by set_solver.
  split.
  - apply seg_join; [apply seg_setp_out; [done|]; by eapply seg_setn|]. eapply seg_setp; [done|]. by apply seg_setn_out.
  - apply seg_setp_out; [done|]. by apply seg_setn_out.
Qed.

Lemma link_spec h P p b Q f F z x y :
  seg h NULL (P ++ p :: b :: Q) NULL → seg h x (f :: F) y → NoDup (P ++ p :: f :: F ++ b :: Q) → f :: F = (removelast (f :: F)) ++ [z] →
  seg (setp b z (setn p f (setn z b (setp f p h)))) NULL (P ++ p :: f :: F ++ b :: Q) NULL.
Proof.
  intros Hs HF Hnd Ez. apply seg_cut in Hs as [HP HQ].
  apply NoDup_app in Hnd as (HndP & Hd1 & [Hp Hnd]%NoDup_cons). rewrite app_comm_cons in Hnd, Hp, Hd1.
  apply NoDup_app in Hnd as (HndF & Hd2 & [Hb HndQ]%NoDup_cons).
  assert (f ∉ F) as HfF by by apply NoDup_cons in HndF as [? _].
  assert (z ∈ f :: F) as HzF by (rewrite Ez; set_solver).
  assert (z ∉ removelast (f :: F)) as HzR by (rewrite Ez in HndF; apply NoDup_app in HndF as (_ & Hx & _); set_solver).
  assert (p ∉ P ∧ f ∉ P ++ [p] ∧ z ∉ P ++ [p] ∧ b ∉ P ++ [p] ∧ p ∉ f :: F ∧ b ∉ f :: F ∧ f ∉ b :: Q ∧ z ∉ b :: Q ∧ p ∉ b :: Q)
    as (H1 & H2 & H3 & H4 & H5 & H6 & H7 & H8 & H9).
  { split_and!; try (set_solver). }
  rewrite app_comm_cons. apply seg_join; cbn [hd app].
  - apply seg_setp_out; [done|]. eapply seg_setn; [done|]. apply seg_setn_out; [done|]. apply seg_setp_out; [done|]. exact HP.
  - rewrite app_comm_cons, Ez, <- app_assoc. cbn [app]. apply seg_join; cbn [hd].
    + rewrite <- Ez. apply seg_setp_out; [done|]. apply seg_setn_out; [done|]. rewrite Ez. eapply seg_setn; [done|].
      rewrite <- Ez. eapply seg_setp; [done|exact HF].
    + eapply seg_setp; [done|]. apply seg_setn_out; [done|]. apply seg_setn_out; [done|]. apply seg_setp_out; [done|]. exact HQ.
Qed.

Lemma lst_last l X P p : l :: X = P ++ [p] → lst l X = p.
Proof. intros E. change (lst l X) with (lst 0 (l :: X)). rewrite E. apply lst_snoc. Qed.

Lemma inner_elem h l xs b : is_list h l xs → b ∈ xs ++ [l + 8] → ∃ p n, h !! b = Some (mk_elem p n) ∧ p ≠ NULL ∧ b ≠ NULL.
Proof.
  intros Hl Hb. assert (b ≠ NULL) as Hz by (eapply ring_nonnull; [done|]; unfold ring; by right).
  apply elem_of_app in Hb as [(A & B & ->)%list_elem_of_split|Hb%list_elem_of_singleton].
  - eexists _, _. split; [by eapply list_elem_at|]. split; [by eapply lst_nonnull|done].
  - subst. eexists _, _. split; [by apply list_tail_at|]. split; [|done]. apply (lst_nonnull h l xs []). by rewrite app_nil_r.
Qed.
Lemma pos_at h l A B : is_list h l (A ++ B) → ∃ n, h !! pos l B = Some (mk_elem (lst l A) n).
Proof.
  intros Hl. destruct B as [|b B]; eexists; [|by eapply list_elem_at]. rewrite app_nil_r in Hl. by apply list_tail_at.
Qed.

(** The range leaves its list. *)
Lemma lists_unlink h M l X F Y :
  lists h M → M !! l = Some (X ++ F ++ Y) →
  let h' := setp (pos l Y) (lst l X) (setn (lst l X) (pos l Y) h) in
  lists h' (<[l := X ++ Y]> M) ∧ seg h' (lst l X) F (pos l Y) ∧ (∀ a, a ∈ F → loose (<[l := X ++ Y]> M) a).
Proof.
  intros Hm Hl. pose proof (ls_is _ _ Hm _ _ Hl) as [Hs Hnd Hnn].
  destruct (ring_split l X Y) as (P & p & n & Q & E & HP & HQ). rewrite (lst_last l X P p HP), (pos_tail _ _ _ _ HQ).
  assert (ring l (X ++ F ++ Y) = P ++ p :: F ++ n :: Q) as EF by (rewrite <- HQ; by apply ring_app).
  assert (P ++ p :: F ++ n :: Q ≡ₚ F ++ P ++ p :: n :: Q) as Hp by solve_Permutation.
  rewrite EF in Hs, Hnd, Hnn. destruct (unlink_spec h P p F n Q Hs Hnd) as [Hs1 HF].
  rewrite Hp in Hnd, Hnn. apply NoDup_app in Hnd as (_ & Hdis & Hnd). apply Forall_app in Hnn as [_ Hnn].
  assert (∀ a, a ∈ F ∨ a ∈ ring l (X ++ Y) → a ∈ ring l (X ++ F ++ Y)) as Hsub.
  { intros a. rewrite EF, E. rewrite !elem_of_app, !elem_of_cons, !elem_of_app, !elem_of_cons. tauto. }
  cbv zeta. split; [|split; [done|]].
  - eapply (lists_update h _ M l (X ++ Y) [p; n]); [done|split; by rewrite E| |].
    + intros a Ha. rewrite setp_ne, setn_ne; [done|set_solver..].
    + intros a Ha. eapply ring_apart; [done..|]. apply Hsub. destruct Ha as [Ha|Ha]; [right|by right].
      rewrite E. set_solver.
  - intros a Ha l2 xs2 Hl2 Hin. destruct (decide (l = l2)) as [<-|Hne].
    + rewrite lookup_insert_eq in Hl2. simplify_eq. rewrite E in Hin. by eapply Hdis.
    + rewrite lookup_insert_ne in Hl2 by done. apply Hne. eapply (ls_disj _ _ Hm); [done..|by apply Hsub; left|done].
Qed.

(** The range enters a list. *)
Lemma lists_link h M l A B f F z x y :
  lists h M → M !! l = Some (A ++ B) → seg h x (f :: F) y → NoDup (f :: F) → Forall (λ a, a ≠ NULL) (f :: F) →
  (∀ a, a ∈ f :: F → loose M a) → f :: F = removelast (f :: F) ++ [z] →
  lists (setp (pos l B) z (setn (lst l A) f (setn z (pos l B) (setp f (lst l A) h)))) (<[l := A ++ (f :: F) ++ B]> M).
Proof.
  intros Hm Hl HF HndF HnnF Hlo Ez. pose proof (ls_is _ _ Hm _ _ Hl) as [Hs Hnd Hnn].
  destruct (ring_split l A B) as (P & p & b & Q & E & HP & HQ). rewrite (lst_last l A P p HP), (pos_tail _ _ _ _ HQ).
  assert (ring l (A ++ (f :: F) ++ B) = P ++ p :: (f :: F) ++ b :: Q) as EF by (rewrite <- HQ; by apply ring_app).
  assert (P ++ p :: (f :: F) ++ b :: Q ≡ₚ (f :: F) ++ P ++ p :: b :: Q) as Hp by solve_Permutation.
  assert (∀ a, a ∈ f :: F → a ∉ P ++ p :: b :: Q) as Hdis.
  { intros a Ha. rewrite <- E. by apply (Hlo a Ha). }
  rewrite E in Hs, Hnd, Hnn.
  assert (NoDup (P ++ p :: (f :: F) ++ b :: Q)) as HndA by (rewrite Hp; by apply NoDup_app).
  assert (z ∈ f :: F) as Hz by (rewrite Ez; set_solver).
  eapply (lists_update h _ M l _ (p :: b :: f :: F)); [done|split; rewrite EF| |].
  - by eapply link_spec.
  - done.
  - rewrite Hp. by apply Forall_app.
  - intros a Ha. rewrite setp_ne, setn_ne, setn_ne, setp_ne; [done|set_solver..].
  - intros a Ha. destruct (decide (a ∈ f :: F)) as [Hin|Hout]; [by apply loose_apart, Hlo|].
    eapply ring_apart; [done..|]. rewrite E. rewrite EF in Ha.
    rewrite !elem_of_app, !elem_of_cons, !elem_of_app, !elem_of_cons in Ha. set_solver.
Qed.

Lemma lists_splice h M l2 X f F Y l A B :
  lists h M → M !! l2 = Some (X ++ (f :: F) ++ Y) → <[l2 := X ++ Y]> M !! l = Some (A ++ B) →
  ∃ h', list_splice (pos l B) f (pos l2 Y) h = Ok (tt, h') ∧ lists h' (<[l := A ++ (f :: F) ++ B]> (<[l2 := X ++ Y]> M)).
Proof.
  intros Hm H2 H1. destruct (lists_unlink h M l2 X (f :: F) Y Hm H2) as (Hm1 & HF & Hlo).
  pose proof (ls_is _ _ Hm _ _ H2) as HL2. pose proof (ls_is _ _ Hm1 _ _ H1) as HL1.
  destruct (exists_last (l := f :: F)) as (R & z & Ez); [done|].
  assert (removelast (f :: F) = R) as ER by (rewrite Ez; apply removelast_last). rewrite <- ER in Ez.
  pose proof HL2 as [_ Hnd Hnn]. unfold ring in Hnd, Hnn. apply NoDup_cons in Hnd as [Hnl Hnd]. rewrite <- app_assoc in Hnd, Hnl.
  apply Forall_cons in Hnn as [_ Hnn]. rewrite !Forall_app in Hnn. destruct Hnn as [[_ [HnnF _]] _].
  apply NoDup_app in Hnd as (_ & HdX & Hnd). rewrite <- app_assoc in Hnd. apply NoDup_app in Hnd as (HndF & HdF & _).
  set (b := pos l B) in *. set (n := pos l2 Y) in *. set (p := lst l2 X) in *. set (q := lst l A) in *.
  assert (n ∈ Y ++ [l2 + 8]) as Hn by (unfold n; destruct Y; set_solver).
  assert (p ∈ l2 :: X) as Hp by apply lst_in.
  assert (f ∈ f :: F ∧ z ∈ f :: F) as [Hff Hfz] by (split; [by left|rewrite Ez; set_solver]).
  assert (p ∉ f :: F) as HpF.
  { intros Hx. apply elem_of_cons in Hp as [Hp|Hp]; [apply Hnl; rewrite <- Hp|eapply HdX; [exact Hp|]]; rewrite !elem_of_app; tauto. }
  assert (n ∉ f :: F) as HnF by (intros Hx; by eapply HdF).
  assert (b ∉ f :: F) as HbF. { intros Hb. eapply (Hlo b Hb); [exact H1|]. apply pos_in. }
  assert (q ∉ f :: F) as HqF.
  { intros Hq. eapply (Hlo q Hq); [exact H1|]. pose proof (lst_in l A) as Hin. fold q in Hin. rewrite in_ring. set_solver. }
  destruct (pos_at _ _ _ _ HL1) as [nb Hb1]. fold b q in Hb1.
  assert (∃ pb nb', h !! b = Some (mk_elem pb nb') ∧ pb ≠ NULL ∧ b ≠ NULL) as (pb & nb' & Hb & Hpb & Hb0).
  { assert (b ∈ (A ++ B) ++ [l + 8]) as Hbin by (unfold b; destruct B; set_solver).
    destruct (decide (l2 = l)) as [<-|Hne]; [rewrite lookup_insert_eq in H1|rewrite lookup_insert_ne in H1 by done].
    - injection H1 as H1. apply (inner_elem h l2 _ b HL2). rewrite <- H1 in Hbin. rewrite !elem_of_app in *. tauto.
    - by eapply inner_elem, Hbin; eapply ls_is. }
  pose proof (list_elem_at h l2 X f (F ++ Y) HL2) as Hf. fold p in Hf.
  assert (is_list h l2 ((X ++ removelast (f :: F)) ++ z :: Y)) as HLz by (by rewrite Ez in HL2; rewrite <- !app_assoc in *).
  pose proof (list_elem_at h l2 _ z Y HLz) as Hz. fold n in Hz.
  assert (f ≠ NULL ∧ z ≠ NULL) as [Hf0 Hz0] by (rewrite Forall_forall in HnnF; split; by apply HnnF).
  assert (is_Some (h !! p) ∧ is_Some (h !! n)) as [Hps Hns].
  { split; eapply ring_in_dom; try exact HL2; unfold ring; set_solver. }
  assert (is_Some (h !! q) ∧ is_Some (h !! b) ∧ is_Some (h !! f) ∧ is_Some (h !! z)) as (Hqs & Hbs & Hfs & Hzs).
  { split_and!; [|by eexists..]. rewrite <- (setn_some h p q n), <- (setp_some _ n q p). eapply ring_in_dom; [exact HL1|].
    pose proof (lst_in l A) as Hin. fold q in Hin. rewrite in_ring. set_solver. }
  eexists. split; [|eapply (lists_link _ _ l A B f F z); [exact Hm1|exact H1|exact HF|done..]].
  unfold list_splice. erewrite stM_bind_run by (by eapply assert_inner_run).
  rewrite eqb_spec_false by (intros ->; set_solver).
  assert (list_prev n h = Ok (z, h)) as Hprev.
  { unfold n. rewrite (list_prev_spec h l2 (X ++ f :: F) Y) by by rewrite <- app_assoc.
    rewrite Ez, app_assoc, lst_snoc. done. }
  erewrite stM_bind_run by exact Hprev.
  erewrite stM_bind_run by (eapply interior_run; [exact Hf|done|by eapply lst_nonnull|]; apply (pos_nonnull h l2 (X ++ [f])); by rewrite <- app_assoc).
  erewrite stM_bind_run by reflexivity.
  erewrite stM_bind_run by (eapply interior_run; [exact Hz|done|by eapply lst_nonnull|]; apply (pos_nonnull h l2 (X ++ f :: F)); by rewrite <- app_assoc).
  erewrite stM_bind_run by reflexivity.
  erewrite stM_bind_run by (by eapply get_prev_run). erewrite stM_bind_run by (by eapply get_next_run).
  erewrite stM_bind_run by (by apply set_next_alter).
  erewrite stM_bind_run by (eapply get_next_run; rewrite setn_ne; [exact Hz|set_solver]).
  erewrite stM_bind_run by (eapply get_prev_run; rewrite setn_ne; [exact Hf|set_solver]).
  erewrite stM_bind_run by (apply set_prev_alter; by rewrite setn_some).
  erewrite stM_bind_run by (eapply get_prev_run; exact Hb1).
  erewrite stM_bind_run by (apply set_prev_alter; by rewrite setp_some, setn_some).
  erewrite stM_bind_run by (apply set_next_alter; by rewrite setp_some, setp_some, setn_some).
  erewrite stM_bind_run by (eapply get_prev_run; rewrite setn_ne, setp_ne; [exact Hb1|set_solver..]).
  erewrite stM_bind_run by (apply set_next_alter; by rewrite setn_some, setp_some, setp_some, setn_some).
  apply set_prev_alter. by rewrite setn_some, setn_some, setp_some, setp_some, setn_some.
Qed.

(** The elements that [list_unique] moves to the other list. *)
Fixpoint dups (less : Z → Z → bool) (a : Z) (ys : list Z) : list Z :=
  match ys with
  | [] => []
  | y :: ys => if negb (less a y) && negb (less y a) then y :: dups less a ys else dups less y ys
  end.

Lemma lists_unique_loop less fuel h M l d xs a ys D :
  lists h M → l ≠ d → M !! l = Some (xs ++ a :: ys) → M !! d = Some D → (length ys < fuel)%nat →
  ∃ h', unique_loop less fuel l d a h = Ok (tt, h') ∧ lists h' (<[d := D ++ dups less a ys]> (<[l := xs ++ unique less a ys]> M)).
Proof.
  intros Hm Hne. revert h M xs a ys D Hm. induction fuel as [|fuel IH]; intros h M xs a ys D Hm Hl Hd Hf; [lia|]. cbn [unique_loop].
  pose proof (ls_is _ _ Hm _ _ Hl) as HL. erewrite stM_bind_run by by eapply list_next_spec.
  pose proof (is_list_step _ _ _ _ _ HL) as HL1. erewrite stM_bind_run by by eapply list_end_spec.
  rewrite (tail_eqb h l (xs ++ [a]) ys HL1).
  destruct ys as [|y ys].
  { exists h. split; [done|]. cbn [dups unique]. rewrite app_nil_r, (insert_id M l), (insert_id M d) by done. done. }
  rewrite bool_decide_eq_false_2 by done. cbn [pos hd unique dups]. destruct (negb (less a y) && negb (less y a)).
  - destruct (lists_remove h M l (xs ++ [a]) y ys) as (h1 & Hr & Hm1 & Hdom & Hlo); [done|by rewrite <- app_assoc|].
    rewrite <- app_assoc in Hm1, Hlo. cbn [app] in Hm1, Hlo. erewrite stM_bind_run by exact Hr.
    pose proof (ls_is _ _ Hm _ _ Hd) as HD. rewrite nonnull_true by by eapply is_list_nonnull.
    destruct (lists_push_back h1 (<[l := xs ++ a :: ys]> M) d D y) as (h2 & Hp & Hm2 & Hdom2); [done|by rewrite lookup_insert_ne|done| | |].
    { eapply ring_nonnull; [exact HL|]. rewrite in_ring. right. left. set_solver. }
    { rewrite <- elem_of_dom, Hdom, elem_of_dom. eapply ring_in_dom; [exact HL|]. rewrite in_ring. right. left. set_solver. }
    erewrite stM_bind_run by exact Hp.
    destruct (IH h2 (<[d := D ++ [y]]> (<[l := xs ++ a :: ys]> M)) xs a ys (D ++ [y]) Hm2) as (h3 & Hr3 & Hm3);
      [by rewrite lookup_insert_ne, lookup_insert_eq by done|by rewrite lookup_insert_eq|simpl in Hf; lia|].
    exists h3. split; [done|].
    rewrite (insert_insert_ne _ l d), insert_insert_eq, insert_insert_eq, <- app_assoc in Hm3 by done. exact Hm3.
  - destruct (IH h M (xs ++ [a]) y ys D Hm) as (h3 & Hr3 & Hm3); [by rewrite <- app_assoc|done|simpl in Hf; lia|].
    exists h3. split; [done|]. by rewrite <- app_assoc in Hm3.
Qed.

Lemma lists_unique_into less h M l d xs D :
  lists h M → l ≠ d → M !! l = Some xs → M !! d = Some D →
  ∃ h', list_unique less l d h = Ok (tt, h') ∧
    lists h' (match xs with [] => M | a :: ys => <[d := D ++ dups less a ys]> (<[l := unique less a ys]> M) end).
Proof.
  intros Hm Hne Hl Hd. pose proof (ls_is _ _ Hm _ _ Hl) as HL. unfold list_unique.
  erewrite stM_bind_run by (apply sassert_run, nonnull_true; by eapply is_list_nonnull).
  erewrite stM_bind_run by by apply list_empty_spec.
  destruct xs as [|a ys]; [by exists h|]. rewrite bool_decide_eq_false_2 by done.
  erewrite stM_bind_run by reflexivity. erewrite stM_bind_run by by apply list_begin_spec.
  apply (lists_unique_loop less _ h M l d [] a ys D); try done. pose proof (list_bound _ _ _ HL). simpl in *. lia.
Qed.

(** ** All operations, on any number of lists *)

Module Family.

Inductive family_op :=
| Init (l : Z) | On (l : Z) (o : op)
| Insert (l before e : Z) | Splice (l before l2 first last : Z) | UniqueInto (l duplicates : Z).

(** [l] and [l2], the lists that elements belong to, are not arguments of the
    code. *)
Definition run_family (less : Z → Z → bool) (o : family_op) : stM heap Z :=
  match o with
  | Init l => list_init l;; mret 0
  | On l o => run_op less l o
  | Insert _ before e => list_insert before e;; mret 0
  | Splice _ before _ first last => list_splice before first last;; mret 0
  | UniqueInto l d => list_unique less l d;; mret 0
  end.

(** A list cut before the element [b] or, for the list at [l], its tail. *)
Fixpoint cut (l b : Z) (xs : list Z) : option (list Z * list Z) :=
  match xs with
  | [] => if decide (b = l + 8) then Some ([], []) else None
  | x :: ys => if decide (b = x) then Some ([], xs) else '(A, B) ← cut l b ys; Some (x :: A, B)
  end.
Definition is_loose (M : gmap Z (list Z)) (e : Z) : bool := bool_decide (map_Forall (λ l xs, e ∉ ring l xs) M).
Definition op_fresh (M : gmap Z (list Z)) (o : op) : bool := match op_elem o with Some e => is_loose M e | None => true end.

(** The same on mathematical lists; [None] where the code's documentation calls
    it undefined. *)
Definition spec_family (less : Z → Z → bool) (o : family_op) (M : gmap Z (list Z)) : option (gmap Z (list Z) * Z) :=
  match o with
  | Init l =>
      if negb (l =? NULL) && negb (l + 8 =? NULL) && is_loose (delete l M) l && is_loose (delete l M) (l + 8)
      then Some (<[l := []]> M, 0) else None
  | On l o =>
      xs ← M !! l;
      if op_fresh M o then '(ys, r) ← spec_op less l o xs; Some (<[l := ys]> M, r) else None
  | Insert l before e =>
      xs ← M !! l;
      if is_loose M e && negb (e =? NULL) then '(A, B) ← cut l before xs; Some (<[l := A ++ e :: B]> M, 0) else None
  | Splice l before l2 first last =>
      if first =? last then xs ← M !! l; _ ← cut l before xs; Some (M, 0)
      else
        xs ← M !! l2;
        '(X, R) ← cut l2 first xs; '(F, Y) ← cut l2 last R;
        ys ← <[l2 := X ++ Y]> M !! l;
        '(A, B) ← cut l before ys;
        Some (<[l := A ++ F ++ B]> (<[l2 := X ++ Y]> M), 0)
  | UniqueInto l d =>
      if l =? d then None
      else
        xs ← M !! l; D ← M !! d;
        Some (match xs with [] => M | a :: ys => <[d := D ++ dups less a ys]> (<[l := unique less a ys]> M) end, 0)
  end.
Fixpoint run_families (less : Z → Z → bool) (os : list family_op) : stM heap (list Z) :=
  match os with
  | [] => mret []
  | o :: os => r ← run_family less o; rs ← run_families less os; mret (r :: rs)
  end.
Fixpoint spec_families (less : Z → Z → bool) (os : list family_op) (M : gmap Z (list Z)) : option (gmap Z (list Z) * list Z) :=
  match os with
  | [] => Some (M, [])
  | o :: os => '(M1, r) ← spec_family less o M; '(M2, rs) ← spec_families less os M1; Some (M2, r :: rs)
  end.

(** The element that an operation puts on a list. *)
Definition family_elem (o : family_op) : option Z :=
  match o with On _ o => op_elem o | Insert _ _ e => Some e | _ => None end.

Lemma cut_spec l b xs A B : cut l b xs = Some (A, B) → xs = A ++ B ∧ b = pos l B.
Proof.
  revert A. induction xs as [|x xs IH]; intros A; simpl; [case_decide; intros; by simplify_eq|].
  case_decide as Hb; [intros [= <- <-]; by subst|]. intros ([A' B'] & Hc & [= <- <-])%bind_Some. destruct (IH A') as [-> ->]; done.
Qed.
Lemma is_loose_true M e : is_loose M e = true → loose M e.
Proof. intros He%bool_decide_eq_true l xs Hl. by apply (He l xs). Qed.
Lemma is_loose_apart M l a : is_loose (delete l M) a = true → apart M l a.
Proof. intros He%is_loose_true l2 xs2 Hne Hl2. apply (He l2 xs2). by rewrite lookup_delete_ne. Qed.

(** One operation: its result, the lists, and the memory they live in. *)
Lemma run_family_spec less o h M M' r :
  lists h M → Z.of_nat (size h) < W32 → (∀ e, family_elem o = Some e → is_Some (h !! e)) → spec_family less o M = Some (M', r) →
  ∃ h', run_family less o h = Ok (r, h') ∧ lists h' M' ∧ dom h ⊆ dom h' ∧ (size h' ≤ size h + 2)%nat.
Proof.
  intros Hm Hw Hin Hs.
  assert (∀ h' : heap, dom h' = dom h → dom h ⊆ dom h' ∧ (size h' ≤ size h + 2)%nat) as Hsame.
  { intros h' E. rewrite <- !size_dom, E. split; [done|lia]. }
  destruct o as [l|l o|l b e|l b l2 f n|l d]; simpl in Hs; cbn [run_family].
  - case_match eqn:Hc; [|done]. rewrite !andb_true_iff, !negb_true_iff, !Z.eqb_neq in Hc. destruct Hc as (((? & ?) & ?%is_loose_apart) & ?%is_loose_apart).
    injection Hs as <- <-. destruct (lists_init h M l) as (h' & Hr & Hm' & Hd); [done..|]. exists h'. erewrite stM_bind_run by exact Hr.
    split_and!; [done|done|set_solver|]. rewrite <- !size_dom, Hd, !size_union_alt.
    pose proof (subseteq_size ({[l + 8]} ∖ {[l]} : gset Z) {[l + 8]} ltac:(set_solver)).
    pose proof (subseteq_size (dom h ∖ {[l; l + 8]}) (dom h) ltac:(set_solver)). rewrite !size_singleton in *. lia.
  - apply bind_Some in Hs as (xs & Hl & Hs). case_match eqn:Hfr; [|done]. apply bind_Some in Hs as ([ys r'] & Hso & [= <- <-]).
    pose proof (ls_is _ _ Hm _ _ Hl) as HL. destruct (run_op_spec less l o h xs ys r') as (h' & Hr & Hl' & Ho); [done| |done|done|].
    { pose proof (list_bound _ _ _ HL). lia. }
    exists h'. pose proof (keeps_run_op _ _ _ _ _ _ Hr) as Hd. split_and!; [done| |by apply Hsame..].
    eapply lists_update; [done..|]. intros a Ha. destruct (decide (op_elem o = Some a)) as [He|Hne].
    { apply loose_apart, is_loose_true. unfold op_fresh in Hfr. by rewrite He in Hfr. }
    eapply ring_apart; [done..|]. rewrite elem_of_app in Ha. destruct (decide (a ∈ ring l xs)) as [|Hx]; [done|].
    assert (a ∈ ring l ys) as Hy by tauto. exfalso. by eapply spec_op_elems in Hso; [|exact Hy|exact Hx].
  - apply bind_Some in Hs as (xs & Hl & Hs). case_match eqn:Hc; [|done]. apply andb_true_iff in Hc as [Hlo%is_loose_true He%negb_true_iff%Z.eqb_neq].
    apply bind_Some in Hs as ([A B] & [-> ->]%cut_spec & [= <- <-]). pose proof (ls_is _ _ Hm _ _ Hl) as HL.
    destruct (list_insert_spec h l A B e) as (h' & Hr & Hl' & Ho); [done|by eapply Hlo|done|by apply Hin|].
    exists h'. erewrite stM_bind_run by exact Hr. split_and!; [done| |by apply Hsame; eapply keeps_insert..].
    eapply lists_grow; [done|done|exact Hlo|done|done|]. set_solver.
  - destruct (Z.eqb_spec f n) as [->|Hne].
    + apply bind_Some in Hs as (xs & Hl & Hs). apply bind_Some in Hs as ([A B] & [-> ->]%cut_spec & [= <- <-]).
      pose proof (ls_is _ _ Hm _ _ Hl) as HL. destruct (inner_elem h l (A ++ B) (pos l B) HL) as (p & nx & Hb & ? & ?).
      { destruct B; set_solver. }
      exists h. unfold list_splice. erewrite stM_bind_run by (erewrite stM_bind_run by (by eapply assert_inner_run); by rewrite Z.eqb_refl).
      split_and!; [done|done|by apply Hsame..].
    + apply bind_Some in Hs as (xs & Hl2 & Hs). apply bind_Some in Hs as ([X R] & [-> Ef]%cut_spec & Hs).
      apply bind_Some in Hs as ([F Y] & [-> ->]%cut_spec & Hs). apply bind_Some in Hs as (ys & Hl & Hs).
      apply bind_Some in Hs as ([A B] & [-> ->]%cut_spec & [= <- <-]).
      destruct F as [|f' F]; [done|]. cbn [app pos hd] in Ef. subst f'.
      destruct (lists_splice h M l2 X f F Y l A B Hm Hl2 Hl) as (h' & Hr & Hm'). exists h'.
      erewrite stM_bind_run by exact Hr. split_and!; [done|done|by apply Hsame; eapply keeps_splice..].
  - destruct (Z.eqb_spec l d) as [|Hne]; [done|]. apply bind_Some in Hs as (xs & Hl & Hs). apply bind_Some in Hs as (D & Hd & [= <- <-]).
    destruct (lists_unique_into less h M l d xs D) as (h' & Hr & Hm'); [done..|]. exists h'.
    erewrite stM_bind_run by exact Hr. split_and!; [done|done|by apply Hsame; eapply keeps_unique_into..].
Qed.

(** C5: the pointer operations implement mathematical lists.  On any number of
    lists that share no element, any sequence of operations (initialisation,
    insertion at the ends, before any element or in order, removal, moving a
    range within a list or to another, reversal, removal of duplicates with or
    without a list for them, all queries) whose preconditions hold runs without a failed
    assertion or a stray access and returns what it returns on
    mathematical lists, and memory then holds the lists that result. *)
Theorem list_ops_refine less os h M M' rs :
  lists h M → Z.of_nat (size h + 2 * length os) < W32 →
  Forall (λ o, ∀ e, family_elem o = Some e → is_Some (h !! e)) os →
  spec_families less os M = Some (M', rs) →
  ∃ h', run_families less os h = Ok (rs, h') ∧ lists h' M'.
Proof.
  revert h M rs. induction os as [|o os IH]; intros h M rs Hm Hw Hin Hs; simpl in Hw, Hs.
  { injection Hs as <- <-. by exists h. }
  apply bind_Some in Hs as ([M1 r] & Ho & Hs). apply bind_Some in Hs as ([M2 rs'] & Hos & [= -> <-]).
  apply Forall_cons in Hin as [Hin Hins].
  destruct (run_family_spec less o h M M1 r) as (h1 & Hr & Hm1 & Hdom & Hsz); [done|lia|done|done|].
  destruct (IH h1 M1 rs') as (h2 & Hr2 & Hm2); [done|lia| |done|].
  { eapply Forall_impl; [exact Hins|]. intros o' Ho' e He. apply elem_of_dom, Hdom, elem_of_dom. by apply Ho'. }
  exists h2. split; [|done]. cbn [run_families]. erewrite stM_bind_run by exact Hr. by erewrite stM_bind_run by exact Hr2.
Qed.

(** Elements 300, 100, 200 on the list at 1000. *)
Lemma sample_family : lists sample_heap {[1000 := [300; 100; 200]]}.
Proof.
  split.
  - intros l xs [<- <-]%lookup_singleton_Some. exact sample_list.
  - intros l1 l2 xs1 xs2 a [<- _]%lookup_singleton_Some [<- _]%lookup_singleton_Some _ _. done.
Qed.

Lemma list_ops_refine_witness :
  ∃ h', run_families (λ a b, a / 100 <? b / 100)
      [Init 2000; Splice 2000 2008 1000 300 200; Insert 2000 100 150; On 2000 Reverse; On 2000 (NextOf 150); Init 3000;
       UniqueInto 2000 3000; On 2000 Size; On 2000 Max] sample_heap =
      Ok ([0; 0; 0; 0; 300; 0; 0; 2; 300], h') ∧ lists h' {[1000 := [200]; 2000 := [100; 300]; 3000 := [150]]}.
Proof.
  apply (list_ops_refine _ _ sample_heap {[1000 := [300; 100; 200]]}).
  - exact sample_family.
  - vm_compute. reflexivity.
  - repeat constructor; intros e [=]; subst; by eexists.
  - vm_compute. reflexivity.
Defined.

End Family.
