(* ===== verification/HashTable.v ===== *)
(** * lib/kernel/hash.c: hash tables with chaining

    The buckets are kernel lists on the heap of [KList]: a [struct list] of
    the bucket array at address [b] stands at [b + 16 * i].  A [struct hash] is
    the record [hash]; an operation that changes it returns the changed record.
    A hash element is the address of its list element.  The allocator is the
    interface [Allocator]: what rehashing relies on of malloc(). *)

From S2P Require Import Prelude KList.
Import KList.

Module HashTable.

(** What threads/malloc.c promises about the address of a block of [n] bytes:
    none for zero bytes, and otherwise memory nobody uses. *)
Class Allocator (malloc : heap → Z → Z) : Prop := {
  malloc_zero h : malloc h 0 = NULL;
  malloc_fresh h n a : malloc h n ≠ NULL → malloc h n ≤ a < malloc h n + n → h !! a = None;
  malloc_pos h n : 0 ≤ malloc h n;
}.

Record hash := mk_hash {
  elem_cnt : Z; bucket_cnt : Z; buckets : Z;
  hash_hash : Z → Z → Z; hash_less : Z → Z → Z → bool; aux : Z;
}.
Record hash_iterator := mk_iter { it_bucket : Z; it_elem : Z }.

Definition set_cnt (n : Z) (h : hash) : hash :=
  mk_hash n (bucket_cnt h) (buckets h) (hash_hash h) (hash_less h) (aux h).
Definition set_buckets (b cnt : Z) (h : hash) : hash :=
  mk_hash (elem_cnt h) cnt b (hash_hash h) (hash_less h) (aux h).

(** [sizeof (struct list)] *)
Definition LIST_SIZE : Z := 16.

(** [&buckets[i]] *)
Definition bucket_at (b i : Z) : Z := b + LIST_SIZE * i.

Definition find_bucket (h : hash) (e : Z) : Z :=
  bucket_at (buckets h) (Z.land (hash_hash h e (aux h)) (u32 (bucket_cnt h - 1))).

Fixpoint find_loop (fuel : nat) (h : hash) (bucket e i : Z) : stM heap Z :=
  match fuel with
  | O => serr EFuel
  | S fuel =>
      t ← list_end bucket;
      if i =? t then mret NULL
      else if negb (hash_less h i e (aux h)) && negb (hash_less h e i (aux h)) then mret i
      else i ← list_next i; find_loop fuel h bucket e i
  end.
Definition find_elem (h : hash) (bucket e : Z) : stM heap Z :=
  fuel ← bound; i ← list_begin bucket; find_loop fuel h bucket e i.

Definition insert_elem (h : hash) (bucket e : Z) : stM heap hash :=
  list_push_front bucket e;; mret (set_cnt (u32 (elem_cnt h + 1)) h).
Definition remove_elem (h : hash) (e : Z) : stM heap hash :=
  _ ← list_remove e; mret (set_cnt (u32 (elem_cnt h - 1)) h).

Definition turn_off_least_1bit (x : Z) : Z := Z.land x (u32 (x - 1)).
Definition is_power_of_2 (x : Z) : bool := negb (x =? 0) && (turn_off_least_1bit x =? 0).

Definition BEST_ELEMS_PER_BUCKET : Z := 2.

(** The loop clears one bit at a time of a 32-bit word. *)
Fixpoint power_loop (fuel : nat) (x : Z) : res Z :=
  match fuel with
  | O => Err EFuel
  | S fuel => if is_power_of_2 x then Ok x else power_loop fuel (turn_off_least_1bit x)
  end.

(** [for (i = 0; i < n; i++) list_init (&b[i])], for [i] from [i] on. *)
Fixpoint init_loop (n : nat) (b i : Z) : stM heap unit :=
  match n with
  | O => mret tt
  | S n => list_init (bucket_at b i);; init_loop n b (i + 1)
  end.

(** Moves the elements of one old bucket. *)
Fixpoint move_loop (fuel : nat) (h : hash) (old_bucket elem : Z) : stM heap unit :=
  match fuel with
  | O => serr EFuel
  | S fuel =>
      t ← list_end old_bucket;
      if elem =? t then mret tt
      else
        next ← list_next elem;
        _ ← list_remove elem;
        list_push_front (find_bucket h elem) elem;;
        move_loop fuel h old_bucket next
  end.
Fixpoint rehash_loop (n : nat) (h : hash) (old_buckets i : Z) : stM heap unit :=
  match n with
  | O => mret tt
  | S n =>
      fuel ← bound;
      e ← list_begin (bucket_at old_buckets i);
      move_loop fuel h (bucket_at old_buckets i) e;;
      rehash_loop n h old_buckets (i + 1)
  end.

(** The addresses of the list elements inside the [n] buckets at [b]. *)
Definition cells (b : Z) (n : nat) : list Z := (λ j : nat, b + 8 * Z.of_nat j) <$> seq 0 (2 * n).

(** [free (b)] of an array of [n] buckets. *)
Definition free_buckets (b n : Z) : stM heap unit :=
  smod (λ h, foldr delete h (cells b (Z.to_nat n))).

Section allocator.
Context (malloc : heap → Z → Z).

Definition rehash (h : hash) : stM heap hash :=
  let old_buckets := buckets h in
  let old_bucket_cnt := bucket_cnt h in
  let n := elem_cnt h `div` BEST_ELEMS_PER_BUCKET in
  new_bucket_cnt ← slift (power_loop 33 (if n <? 4 then 4 else n));
  if new_bucket_cnt =? old_bucket_cnt then mret h
  else
    new_buckets ← sread (λ m, malloc m (u32 (LIST_SIZE * new_bucket_cnt)));
    if new_buckets =? NULL then mret h
    else
      init_loop (Z.to_nat new_bucket_cnt) new_buckets 0;;
      let h := set_buckets new_buckets new_bucket_cnt h in
      rehash_loop (Z.to_nat old_bucket_cnt) h old_buckets 0;;
      free_buckets old_buckets old_bucket_cnt;;
      mret h.

(** Calls the destructor, if any, while it empties a bucket. *)
Fixpoint destroy_loop (fuel : nat) (h : hash) (destructor : Z → Z → stM heap unit) (bucket : Z) : stM heap unit :=
  match fuel with
  | O => serr EFuel
  | S fuel =>
      b ← list_empty bucket;
      if (b : bool) then mret tt
      else e ← list_pop_front bucket; destructor e (aux h);; destroy_loop fuel h destructor bucket
  end.
Fixpoint clear_loop (n : nat) (h : hash) (destructor : option (Z → Z → stM heap unit)) (i : Z) : stM heap unit :=
  match n with
  | O => mret tt
  | S n =>
      match destructor with
      | Some d => fuel ← bound; destroy_loop fuel h d (bucket_at (buckets h) i)
      | None => mret tt
      end;;
      list_init (bucket_at (buckets h) i);;
      clear_loop n h destructor (i + 1)
  end.
Definition hash_clear (h : hash) (destructor : option (Z → Z → stM heap unit)) : stM heap hash :=
  clear_loop (Z.to_nat (bucket_cnt h)) h destructor 0;; mret (set_cnt 0 h).

Definition hash_init (hf : Z → Z → Z) (less : Z → Z → Z → bool) (aux : Z) : stM heap (bool * hash) :=
  b ← sread (λ m, malloc m (u32 (LIST_SIZE * 4)));
  let h := mk_hash 0 4 b hf less aux in
  if b =? NULL then mret (false, h)
  else h ← hash_clear h None; mret (true, h).

Definition hash_destroy (h : hash) (destructor : option (Z → Z → stM heap unit)) : stM heap unit :=
  match destructor with
  | Some _ => _ ← hash_clear h destructor; mret tt
  | None => mret tt
  end;;
  free_buckets (buckets h) (bucket_cnt h).

Definition hash_insert (h : hash) (new : Z) : stM heap (Z * hash) :=
  let bucket := find_bucket h new in
  old ← find_elem h bucket new;
  h ← (if old =? NULL then insert_elem h bucket new else mret h);
  h ← rehash h;
  mret (old, h).

Definition hash_replace (h : hash) (new : Z) : stM heap (Z * hash) :=
  let bucket := find_bucket h new in
  old ← find_elem h bucket new;
  h ← (if old =? NULL then mret h else remove_elem h old);
  h ← insert_elem h bucket new;
  h ← rehash h;
  mret (old, h).

Definition hash_find (h : hash) (e : Z) : stM heap Z := find_elem h (find_bucket h e) e.

Definition hash_delete (h : hash) (e : Z) : stM heap (Z * hash) :=
  found ← find_elem h (find_bucket h e) e;
  if found =? NULL then mret (found, h)
  else h ← remove_elem h found; h ← rehash h; mret (found, h).
End allocator.

Fixpoint apply_bucket (fuel : nat) (h : hash) (action : Z → Z → stM heap unit) (bucket elem : Z) : stM heap unit :=
  match fuel with
  | O => serr EFuel
  | S fuel =>
      t ← list_end bucket;
      if elem =? t then mret tt
      else next ← list_next elem; action elem (aux h);; apply_bucket fuel h action bucket next
  end.
Fixpoint apply_loop (n : nat) (h : hash) (action : Z → Z → stM heap unit) (i : Z) : stM heap unit :=
  match n with
  | O => mret tt
  | S n =>
      fuel ← bound;
      e ← list_begin (bucket_at (buckets h) i);
      apply_bucket fuel h action (bucket_at (buckets h) i) e;;
      apply_loop n h action (i + 1)
  end.
Definition hash_apply (h : hash) (action : Z → Z → stM heap unit) : stM heap unit :=
  apply_loop (Z.to_nat (bucket_cnt h)) h action 0.

Definition hash_first (h : hash) : stM heap hash_iterator :=
  e ← list_head (buckets h); mret (mk_iter (buckets h) e).

(** The loop to the next bucket that is not empty. *)
Fixpoint next_loop (fuel : nat) (h : hash) (i : hash_iterator) : stM heap hash_iterator :=
  match fuel with
  | O => serr EFuel
  | S fuel =>
      t ← list_end (it_bucket i);
      if it_elem i =? t then
        let b := it_bucket i + LIST_SIZE in
        if bucket_at (buckets h) (bucket_cnt h) <=? b then mret (mk_iter b NULL)
        else e ← list_begin b; next_loop fuel h (mk_iter b e)
      else mret i
  end.
Definition hash_next (h : hash) (i : hash_iterator) : stM heap (Z * hash_iterator) :=
  e ← list_next (it_elem i);
  i ← next_loop (S (Z.to_nat (bucket_cnt h))) h (mk_iter (it_bucket i) e);
  mret (it_elem i, i).
Definition hash_cur (i : hash_iterator) : Z := it_elem i.

Definition hash_size (h : hash) : Z := elem_cnt h.
Definition hash_empty (h : hash) : bool := elem_cnt h =? 0.

(** ** Sample hash functions *)

Definition FNV_32_PRIME : Z := 16777619.
Definition FNV_32_BASIS : Z := 2166136261.

Definition hash_bytes (buf : list Z) : Z :=
  fold_left (λ hash b, Z.lxor (u32 (hash * FNV_32_PRIME)) b) buf FNV_32_BASIS.

(** Of the characters before the terminator of the string at the start of [s]. *)
Fixpoint hash_string_loop (s : list Z) (hash : Z) : res Z :=
  match s with
  | [] => Err EFault
  | b :: s => if b =? 0 then Ok hash else hash_string_loop s (Z.lxor (u32 (hash * FNV_32_PRIME)) b)
  end.
Definition hash_string (s : list Z) : res Z := hash_string_loop s FNV_32_BASIS.

Definition hash_int (i : Z) : Z := hash_bytes (le_bytes 4 i).

End HashTable.
