(* ===== verification/HashSpec.v ===== *)
(** * Hash tables implement finite sets modulo an equivalence

    The buckets are a family of disjoint kernel lists ([ListFamily]); the
    invariant of a hash table ([table]), that every operation keeps it and what
    the operation returns, and the refinement: any sequence of operations
    behaves like the same operations on a plain list of elements no two of
    which are equal. *)

From S2P Require Import Prelude KList ListFamily HashTable.
Import KList HashTable.

(** ** The number of buckets *)

Lemma land_pred_divide x t : 0 < x → (2 ^ Z.of_nat t | x) → (2 ^ Z.of_nat (S t) | Z.land x (x - 1)).
Proof.
  intros Hx [y ->]. set (T := Z.of_nat t). assert (0 ≤ T) by lia.
  replace (Z.of_nat (S t)) with (T + 1) by lia.
  apply Z.mod_divide; [apply Z.pow_nonzero; lia|].
  rewrite <- Z.land_ones by lia. apply Z.bits_inj'. intros i Hi. rewrite Z.bits_0, Z.land_spec, Z.land_spec, Z.testbit_ones_nonneg by lia.
  destruct (Z.ltb_spec i (T + 1)); [|apply andb_false_r].
  rewrite andb_true_r. destruct (decide (i < T)).
  { by rewrite Z.mul_pow2_bits_low by lia. }
  assert (i = T) as -> by lia. rewrite Z.mul_pow2_bits by lia. rewrite Z.sub_diag, Z.bit0_odd.
  destruct (Z.odd y) eqn:Hy; [|done]. apply Z.odd_spec in Hy as [q ->]. simpl.
  replace ((2 * q + 1) * 2 ^ T - 1) with (2 ^ T - 1 + q * 2 ^ (T + 1)) by (rewrite Z.pow_add_r by lia; lia).
  pose proof (Z.pow_pos_nonneg 2 T). rewrite <- (Z.mod_pow2_bits_low _ (T + 1)) by lia.
  rewrite Z_mod_plus_full, Z.mod_small by (rewrite Z.pow_add_r by lia; lia).
  rewrite Z.sub_1_r, <- Z.ones_equiv. apply Z.ones_spec_high. lia.
Qed.

Lemma land_pred_power k : 0 ≤ k → Z.land (2 ^ k) (2 ^ k - 1) = 0.
Proof. intros. rewrite Z.sub_1_r, <- Z.ones_equiv, Z.land_ones, Z_mod_same_full by lia. done. Qed.

Lemma land_le x y : 0 ≤ x → Z.land x y ≤ x.
Proof.
  intros Hx. assert (0 ≤ Z.ldiff x (Z.land x y)) as H by (apply Z.ldiff_nonneg; by left).
  rewrite <- Z.sub_nocarry_ldiff in H; [lia|]. apply Z.bits_inj'. intros i _.
  rewrite Z.bits_0, Z.ldiff_spec, Z.land_spec. by destruct (Z.testbit x i), (Z.testbit y i).
Qed.

Lemma land_pred_log x : 0 < x → x ≠ 2 ^ Z.log2 x → 0 < Z.land x (x - 1) ∧ Z.log2 (Z.land x (x - 1)) = Z.log2 x.
Proof.
  intros Hx Hp. pose proof (Z.log2_spec x Hx) as [H1 H2]. pose proof (Z.log2_nonneg x) as H0.
  assert (Z.testbit (x - 1) (Z.log2 x) = true) as Hb.
  { replace (Z.log2 x) with (Z.log2 (x - 1)); [apply Z.bit_log2; lia|].
    apply Z.log2_unique; lia. }
  assert (Z.testbit (Z.land x (x - 1)) (Z.log2 x) = true) as Ht by by rewrite Z.land_spec, Z.bit_log2, Hb.
  assert (0 ≤ Z.land x (x - 1)) as Hn by (apply Z.land_nonneg; lia).
  assert (Z.land x (x - 1) ≠ 0) as Hnz by (intros E; by rewrite E, Z.bits_0 in Ht).
  split; [lia|]. apply Z.le_antisymm; [apply Z.log2_le_mono, land_le; lia|].
  destruct (Z.le_gt_cases (Z.log2 x) (Z.log2 (Z.land x (x - 1)))); [done|].
  rewrite Z.bits_above_log2 in Ht by lia. done.
Qed.

(** Clearing low bits until one is left leaves the highest. *)
Lemma power_loop_spec fuel x t :
  0 < x < W32 → (2 ^ Z.of_nat t | x) → (32 < fuel + t)%nat → power_loop fuel x = Ok (2 ^ Z.log2 x).
Proof.
  revert x t. induction fuel as [|fuel IH]; intros x t Hx Hd Hf.
  { exfalso. apply Z.divide_pos_le in Hd; [|lia]. assert (2 ^ 33 ≤ 2 ^ Z.of_nat t) by (apply Z.pow_le_mono_r; lia). lia. }
  cbn [power_loop]. unfold is_power_of_2, turn_off_least_1bit. rewrite u32_small by (unfold in_u32; lia).
  rewrite (proj2 (Z.eqb_neq x 0)) by lia. cbn [negb andb].
  destruct (decide (x = 2 ^ Z.log2 x)) as [E|Hne].
  - pose proof (Z.log2_nonneg x). rewrite E at 1 2. rewrite land_pred_power by done. simpl. congruence.
  - destruct (land_pred_log x) as [Hp Hl]; [lia|done|]. rewrite (proj2 (Z.eqb_neq _ 0)) by lia. cbn [negb].
    rewrite (IH _ (S t)), Hl; [done| |by apply land_pred_divide; [lia|]|lia].
    split; [done|]. pose proof (land_le x (x - 1)). lia.
Qed.

(** The bucket count [rehash] aims at: a power of two of at least four. *)
Definition ideal (n : Z) : Z := 2 ^ Z.log2 (if n <? 4 then 4 else n).

Lemma ideal_spec n : 0 ≤ n < W32 →
  power_loop 33 (if n <? 4 then 4 else n) = Ok (ideal n) ∧ ∃ k, 2 ≤ k < 32 ∧ ideal n = 2 ^ k.
Proof.
  intros Hn. set (x := if n <? 4 then 4 else n). assert (4 ≤ x < W32) as Hx by (unfold x; destruct (Z.ltb_spec n 4); lia).
  split; [apply (power_loop_spec 33 x 0); [lia|exists x; lia|lia]|].
  exists (Z.log2 x). split; [|done]. split; [change 2 with (Z.log2 4); apply Z.log2_le_mono; lia|].
  apply Z.log2_lt_pow2; [lia|]. change (2 ^ 32) with W32. lia.
Qed.

(** ** The bucket an element belongs in *)

Definition idx (h : hash) (e : Z) : nat :=
  Z.to_nat (Z.land (hash_hash h e (aux h)) (u32 (bucket_cnt h - 1))).

Definition power_cnt (h : hash) : Prop := ∃ k, 2 ≤ k < 32 ∧ bucket_cnt h = 2 ^ k.

Lemma idx_spec h e : power_cnt h →
  (idx h e < Z.to_nat (bucket_cnt h))%nat ∧ find_bucket h e = bucket_at (buckets h) (Z.of_nat (idx h e)).
Proof.
  intros (k & Hk & E). unfold idx, find_bucket. assert (0 < bucket_cnt h < W32) as Hc.
  { rewrite E. split; [apply Z.pow_pos_nonneg; lia|]. change W32 with (2 ^ 32). apply Z.pow_lt_mono_r; lia. }
  rewrite u32_small by (unfold in_u32; lia). rewrite E, Z.sub_1_r, <- Z.ones_equiv, Z.land_ones by lia.
  rewrite E in Hc. pose proof (Z.mod_pos_bound (hash_hash h e (aux h)) (2 ^ k)). rewrite Z2Nat.id by lia.
  split; [|done]. apply Z2Nat.inj_lt; lia.
Qed.

(** The lists [L] are the buckets of the array at [b]. *)
Definition holds (M : gmap Z (list Z)) (b : Z) (L : list (list Z)) : Prop :=
  ∀ i xs, L !! i = Some xs → M !! bucket_at b (Z.of_nat i) = Some xs.

Lemma bucket_at_inj b i j : bucket_at b i = bucket_at b j → i = j.
Proof. unfold bucket_at, LIST_SIZE. lia. Qed.

Lemma holds_insert M b L i ys :
  holds M b L → holds (<[bucket_at b (Z.of_nat i) := ys]> M) b (<[i := ys]> L).
Proof.
  intros Hh j xs Hj. destruct (decide (i = j)) as [<-|Hne].
  - destruct (decide (i < length L)%nat).
    + rewrite list_lookup_insert_eq in Hj by done. simplify_eq. by rewrite lookup_insert_eq.
    + rewrite list_insert_ge in Hj by lia. apply lookup_lt_Some in Hj. lia.
  - rewrite list_lookup_insert_ne in Hj by done. rewrite lookup_insert_ne; [by apply Hh|].
    intros ?%bucket_at_inj. lia.
Qed.

Lemma holds_insert_ne M b L l ys :
  holds M b L → (∀ i, (i < length L)%nat → l ≠ bucket_at b (Z.of_nat i)) → holds (<[l := ys]> M) b L.
Proof. intros Hh Hl j xs Hj. rewrite lookup_insert_ne; [by apply Hh|]. eapply Hl, lookup_lt_Some, Hj. Qed.

Lemma in_cells b n a : a ∈ cells b n ↔ ∃ i, (i < n)%nat ∧ (a = bucket_at b (Z.of_nat i) ∨ a = bucket_at b (Z.of_nat i) + 8).
Proof.
  unfold cells, bucket_at, LIST_SIZE. rewrite list_elem_of_fmap. split.
  - intros (j & -> & Hj%elem_of_seq). exists (j / 2)%nat. pose proof (Nat.div_mod j 2). 
    pose proof (Nat.mod_upper_bound j 2). split; [apply Nat.div_lt_upper_bound; lia|].
    destruct (decide (j mod 2 = 0)%nat); [left|right]; lia.
  - intros (i & Hi & [->| ->]); [exists (2 * i)%nat|exists (2 * i + 1)%nat]; rewrite elem_of_seq; lia.
Qed.

(** Taking one element out of, or putting it into, one of several lists. *)
Lemma concat_insert (L : list (list Z)) i xs ys :
  L !! i = Some xs → ∃ A B, concat L = A ++ xs ++ B ∧ concat (<[i := ys]> L) = A ++ ys ++ B.
Proof.
  intros Hi. pose proof (lookup_lt_Some _ _ _ Hi). apply list_elem_of_split_length in Hi as (l1 & l2 & -> & ->).
  exists (concat l1), (concat l2). replace (length l1) with (length l1 + 0)%nat by lia.
  rewrite insert_app_r. simpl. by rewrite !concat_app.
Qed.

Lemma elem_of_concat (L : list (list Z)) e : e ∈ concat L ↔ ∃ i xs, L !! i = Some xs ∧ e ∈ xs.
Proof.
  rewrite list_elem_of_In, in_concat. setoid_rewrite <- list_elem_of_In. setoid_rewrite (list_elem_of_lookup L).
  naive_solver.
Qed.

(** The family without the lists of freed memory. *)
Lemma loose_spec h M e :
  lists h M → (∀ l xs, M !! l = Some xs → e ∉ xs ∧ e ≠ l ∧ e ≠ l + 8) → loose M e.
Proof. intros _ H l xs Hl Hx. apply in_ring in Hx. destruct (H l xs Hl). tauto. Qed.

(** ** The invariant *)

(** Two elements [find_elem] takes for equal. *)
Definition eqv (h : hash) (x y : Z) : Prop :=
  hash_less h x y (aux h) = false ∧ hash_less h y x (aux h) = false.
#[export] Instance eqv_dec h x y : Decision (eqv h x y).
Proof. unfold eqv. apply _. Defined.

(** What hash.h asks of the two functions: being neither less nor greater is
    an equivalence, and equal elements have equal hash values. *)
Record hash_fns_ok (h : hash) : Prop := {
  eqv_refl x : eqv h x x;
  eqv_trans x y z : eqv h x y → eqv h y z → eqv h x z;
  eqv_hash x y : eqv h x y → hash_hash h x (aux h) = hash_hash h y (aux h);
}.

(** The elements of [E] are the client's: each is on the heap, outside the
    bucket array, and may be in the table. *)
Record table (m : heap) (h : hash) (E : gset Z) (M : gmap Z (list Z)) (L : list (list Z)) : Prop := {
  tb_lists : lists m M;
  tb_holds : holds M (buckets h) L;
  tb_exact l xs : M !! l = Some xs → ∃ i, L !! i = Some xs ∧ l = bucket_at (buckets h) (Z.of_nat i);
  tb_len : length L = Z.to_nat (bucket_cnt h);
  tb_pow : power_cnt h;
  tb_pos : 0 < buckets h;
  tb_cnt : elem_cnt h = Z.of_nat (length (concat L));
  tb_nodup : NoDup (concat L);
  tb_place i xs e : L !! i = Some xs → e ∈ xs → idx h e = i;
  tb_keys x y : x ∈ concat L → y ∈ concat L → eqv h x y → x = y;
  tb_elems e : e ∈ concat L → e ∈ E;
  tb_client e : e ∈ E → e ≠ NULL ∧ is_Some (m !! e) ∧ e ∉ cells (buckets h) (length L);
}.

Lemma table_loose m h E M L e : table m h E M L → e ∈ E → e ∉ concat L → loose M e.
Proof.
  intros Ht He Hn. eapply loose_spec; [by eapply tb_lists|]. intros l xs Hl.
  destruct (tb_exact _ _ _ _ _ Ht l xs Hl) as (i & Hi & ->). pose proof (lookup_lt_Some _ _ _ Hi).
  destruct (tb_client _ _ _ _ _ Ht e He) as (_ & _ & Hc). rewrite in_cells in Hc.
  split; [|split; intros ->; apply Hc; eauto]. intros Hx. apply Hn, elem_of_concat. eauto.
Qed.

(** The bucket of an element is one of the table's lists. *)
Lemma table_bucket m h E M L e :
  table m h E M L → ∃ xs, L !! idx h e = Some xs ∧ M !! find_bucket h e = Some xs ∧
    find_bucket h e = bucket_at (buckets h) (Z.of_nat (idx h e)).
Proof.
  intros Ht. destruct (idx_spec h e (tb_pow _ _ _ _ _ Ht)) as [Hi Hb]. rewrite <- (tb_len _ _ _ _ _ Ht) in Hi.
  apply lookup_lt_is_Some in Hi as [xs Hxs]. exists xs. split; [done|]. split; [|done].
  rewrite Hb. by apply (tb_holds _ _ _ _ _ Ht).
Qed.

(** A change of one bucket and of the count. *)
Lemma table_update m m' h E M L i xs ys n :
  table m h E M L → L !! i = Some xs → dom m' = dom m →
  lists m' (<[bucket_at (buckets h) (Z.of_nat i) := ys]> M) →
  (∀ e, e ∈ ys → idx h e = i ∧ e ∈ E) → n = Z.of_nat (length (concat (<[i := ys]> L))) →
  NoDup (concat (<[i := ys]> L)) →
  (∀ x y, x ∈ concat (<[i := ys]> L) → y ∈ concat (<[i := ys]> L) → eqv h x y → x = y) →
  table m' (set_cnt n h) E (<[bucket_at (buckets h) (Z.of_nat i) := ys]> M) (<[i := ys]> L).
Proof.
  intros Ht Hi Hdom Hl Hys -> Hnd Hkeys. pose proof (lookup_lt_Some _ _ _ Hi) as Hlt.
  assert (∀ j zs e, <[i := ys]> L !! j = Some zs → e ∈ zs → idx h e = j ∧ e ∈ E) as Hin.
  { intros j zs e Hj Hez. destruct (decide (i = j)) as [<-|Hne].
    - rewrite list_lookup_insert_eq in Hj by done. simplify_eq. by apply Hys.
    - rewrite list_lookup_insert_ne in Hj by done. split; [by eapply tb_place|].
      eapply (tb_elems _ _ _ _ _ Ht), elem_of_concat. eauto. }
  split; try done; cbn [set_cnt elem_cnt bucket_cnt buckets].
  - apply holds_insert, Ht.
  - intros l zs Hz. destruct (decide (l = bucket_at (buckets h) (Z.of_nat i))) as [->|Hne].
    + rewrite lookup_insert_eq in Hz. simplify_eq. exists i. by rewrite list_lookup_insert_eq.
    + rewrite lookup_insert_ne in Hz by done. destruct (tb_exact _ _ _ _ _ Ht l zs Hz) as (j & Hj & ->).
      exists j. rewrite list_lookup_insert_ne; [done|congruence].
  - rewrite length_insert. apply Ht.
  - apply Ht.
  - apply Ht.
  - intros j zs e Hj Hez. by eapply Hin.
  - intros e (j & zs & Hj & Hez)%elem_of_concat. by eapply Hin.
  - intros e He. rewrite length_insert. destruct (tb_client _ _ _ _ _ Ht e He) as (? & Hd & ?).
    split_and!; [done| |done]. by rewrite <- elem_of_dom, Hdom, elem_of_dom.
Qed.

(** ** Searching *)

(** The first element of [c] equal to [e], or null. *)
Fixpoint first_eq (h : hash) (e : Z) (c : list Z) : Z :=
  match c with
  | [] => NULL
  | x :: c => if decide (eqv h x e) then x else first_eq h e c
  end.

Lemma first_eq_cases h e c :
  (first_eq h e c ∈ c ∧ eqv h (first_eq h e c) e) ∨ (first_eq h e c = NULL ∧ ∀ x, x ∈ c → ¬ eqv h x e).
Proof.
  induction c as [|x c IH]; simpl; [right; split; [done|]; set_solver|]. case_decide; [left; set_solver|].
  destruct IH as [[]|[? Hn]]; [left; set_solver|right]. split; [done|]. set_solver.
Qed.

(** Where at most one element can be found, it does not matter where one looks. *)
Lemma first_eq_agree h e c1 c2 :
  (∀ x, eqv h x e → x ∈ c1 ↔ x ∈ c2) → (∀ x y, x ∈ c1 → y ∈ c1 → eqv h x e → eqv h y e → x = y) →
  first_eq h e c1 = first_eq h e c2.
Proof.
  intros H12 Hu. destruct (first_eq_cases h e c1) as [[Hi He]|[-> Hn]], (first_eq_cases h e c2) as [[Hi2 He2]|[-> Hn2]].
  - apply Hu; [done| |done|done]. by apply H12.
  - exfalso. eapply Hn2; [|done]. by apply H12.
  - exfalso. eapply Hn; [|done]. by apply H12.
  - done.
Qed.

Lemma find_loop_spec fuel m h l xs ys e :
  is_list m l (xs ++ ys) → (length ys < fuel)%nat → find_loop fuel h l e (pos l ys) m = Ok (first_eq h e ys, m).
Proof.
  revert xs ys. induction fuel as [|fuel IH]; intros xs ys Hl Hf; [lia|].
  cbn [find_loop]. walk Hl. destruct ys as [|y ys]; [done|]. simpl in *.
  destruct (decide (eqv h y e)) as [[H1 H2]|Hne].
  - by rewrite H1, H2.
  - destruct (negb (hash_less h y e (aux h)) && negb (hash_less h e y (aux h))) eqn:E.
    { exfalso. apply Hne. by bool_props. }
    erewrite stM_bind_run by by eapply list_next_spec. apply (IH (xs ++ [y])); [by apply is_list_step|lia].
Qed.

Lemma find_elem_spec m h E M L e :
  table m h E M L → hash_fns_ok h →
  find_elem h (find_bucket h e) e m = Ok (first_eq h e (concat L), m).
Proof.
  intros Ht Hok. destruct (table_bucket _ _ _ _ _ e Ht) as (xs & Hxs & HM & _).
  pose proof (ls_is _ _ (tb_lists _ _ _ _ _ Ht) _ _ HM) as Hl. unfold find_elem.
  erewrite stM_bind_run by reflexivity. erewrite stM_bind_run by by apply list_begin_spec.
  rewrite (find_loop_spec _ m h _ [] xs) by (done || pose proof (list_bound _ _ _ Hl); lia).
  do 2 f_equal. apply first_eq_agree.
  - intros x Hx. rewrite elem_of_concat. split; [by eauto|]. intros (j & ys & Hj & Hin).
    assert (idx h x = idx h e) as Hi by (unfold idx; by rewrite (eqv_hash _ Hok x e)).
    rewrite (tb_place _ _ _ _ _ Ht j ys x) in Hi by done. by simplify_eq.
  - intros x y Hx Hy Ex [Ey1 Ey2].
    apply (tb_keys _ _ _ _ _ Ht); [apply elem_of_concat; by eauto..|]. eapply eqv_trans; [done|done|]. done.
Qed.

(** ** Inserting and removing one element *)

Lemma nodup_size (l : list Z) (E : gset Z) : NoDup l → (∀ x, x ∈ l → x ∈ E) → (length l ≤ size E)%nat.
Proof.
  intros Hn Hin. rewrite <- (size_list_to_set (C := gset Z)) by done. apply subseteq_size.
  intros x. rewrite elem_of_list_to_set. apply Hin.
Qed.

Lemma insert_elem_spec m h E M L e :
  table m h E M L → hash_fns_ok h → Z.of_nat (size E) < W32 → e ∈ E → (∀ x, x ∈ concat L → ¬ eqv h x e) →
  ∃ n m' M' L', insert_elem h (find_bucket h e) e m = Ok (set_cnt n h, m') ∧
    table m' (set_cnt n h) E M' L' ∧ concat L' ≡ₚ e :: concat L.
Proof.
  intros Ht Hok HE He Hne. destruct (table_bucket _ _ _ _ _ e Ht) as (xs & Hxs & HM & Hb).
  assert (e ∉ concat L) as Hn by (intros Hx; apply (Hne e Hx), Hok).
  destruct (tb_client _ _ _ _ _ Ht e He) as (H0 & Hs & _).
  destruct (lists_push_front m M (find_bucket h e) xs e) as (m' & Hr & Hl & Hdom);
    [by eapply tb_lists|done|by eapply table_loose|done|done|].
  destruct (concat_insert L (idx h e) xs (e :: xs) Hxs) as (A & B & E1 & E2).
  assert (concat (<[idx h e := e :: xs]> L) ≡ₚ e :: concat L) as Hp by (rewrite E1, E2; solve_Permutation).
  assert (NoDup (e :: concat L)) as Hnd by (apply NoDup_cons; split; [done|apply Ht]).
  assert (length (e :: concat L) ≤ size E)%nat as Hlen.
  { apply nodup_size; [done|]. intros x [->|Hx]%elem_of_cons; [done|by eapply tb_elems]. }
  simpl in Hlen. exists (u32 (elem_cnt h + 1)), m'. do 2 eexists.
  split; [unfold insert_elem; by erewrite stM_bind_run by exact Hr|]. rewrite Hb in Hl.
  split; [eapply table_update; try done|done].
  - intros x [->|Hx]%elem_of_cons; [done|]. split; [by eapply tb_place|].
    eapply tb_elems; [done|]. apply elem_of_concat. eauto.
  - rewrite Hp, (tb_cnt _ _ _ _ _ Ht). simpl. rewrite u32_small by (unfold in_u32; lia). lia.
  - by rewrite Hp.
  - intros x y. rewrite !Hp, !elem_of_cons. intros [->|Hx] [->|Hy] Hxy; [done|..].
    + destruct (Hne y Hy). by destruct Hxy.
    + by destruct (Hne x Hx).
    + by eapply tb_keys.
Qed.

Lemma remove_elem_spec m h E M L e :
  table m h E M L → Z.of_nat (size E) < W32 → e ∈ concat L →
  ∃ n m' M' L', remove_elem h e m = Ok (set_cnt n h, m') ∧
    table m' (set_cnt n h) E M' L' ∧ concat L ≡ₚ e :: concat L'.
Proof.
  intros Ht HE (i & xs & Hi & (A & B & ->)%list_elem_of_split)%elem_of_concat.
  destruct (lists_remove m M _ A e B (tb_lists _ _ _ _ _ Ht) (tb_holds _ _ _ _ _ Ht _ _ Hi)) as (m' & Hr & Hl & Hdom & _).
  destruct (concat_insert L i _ (A ++ B) Hi) as (P & Q & E1 & E2).
  assert (concat L ≡ₚ e :: concat (<[i := A ++ B]> L)) as Hp by (rewrite E1, E2; solve_Permutation).
  pose proof (nodup_size _ E (tb_nodup _ _ _ _ _ Ht) (tb_elems _ _ _ _ _ Ht)) as Hlen.
  exists (u32 (elem_cnt h - 1)), m'. do 2 eexists.
  split; [unfold remove_elem; by erewrite stM_bind_run by exact Hr|].
  split; [eapply table_update; try done|done].
  - intros x Hx. assert (x ∈ A ++ e :: B) by set_solver. split; [by eapply tb_place|].
    eapply tb_elems; [done|]. apply elem_of_concat. eauto.
  - rewrite (tb_cnt _ _ _ _ _ Ht). rewrite Hp in *. simpl in *. rewrite u32_small by (unfold in_u32; lia). lia.
  - pose proof (tb_nodup _ _ _ _ _ Ht) as Hn. rewrite Hp in Hn. by apply NoDup_cons in Hn as [_ Hn].
  - intros x y Hx Hy. apply (tb_keys _ _ _ _ _ Ht); rewrite Hp; by right.
Qed.

(** ** Rehashing *)

(** The new buckets [L] after the elements [ys] have been moved there. *)
Definition push (h : hash) (L : list (list Z)) (e : Z) : list (list Z) :=
  match L !! idx h e with Some xs => <[idx h e := e :: xs]> L | None => L end.
Definition moved (h : hash) (L : list (list Z)) (ys : list Z) : list (list Z) := foldl (push h) L ys.

Lemma push_spec h L e :
  (idx h e < length L)%nat →
  length (push h L e) = length L ∧ concat (push h L e) ≡ₚ e :: concat L ∧
  (∀ j, (∀ xs x, L !! j = Some xs → x ∈ xs → idx h x = j) →
        ∀ xs x, push h L e !! j = Some xs → x ∈ xs → idx h x = j).
Proof.
  intros [xs Hxs]%lookup_lt_is_Some. unfold push. rewrite Hxs. split; [apply length_insert|]. split.
  - destruct (concat_insert L _ xs (e :: xs) Hxs) as (A & B & -> & ->). solve_Permutation.
  - intros j Hj ys x. destruct (decide (idx h e = j)) as [<-|Hne].
    + rewrite list_lookup_insert_eq by by eapply lookup_lt_Some. intros [= <-] [->|Hx]%elem_of_cons; [done|by eapply Hj].
    + rewrite list_lookup_insert_ne by done. apply Hj.
Qed.

Lemma moved_spec h L ys :
  (∀ e, idx h e < length L)%nat →
  length (moved h L ys) = length L ∧ concat (moved h L ys) ≡ₚ ys ++ concat L ∧
  (∀ j, (∀ xs x, L !! j = Some xs → x ∈ xs → idx h x = j) →
        ∀ xs x, moved h L ys !! j = Some xs → x ∈ xs → idx h x = j).
Proof.
  unfold moved. revert L. induction ys as [|e ys IH]; intros L Hi; simpl; [done|].
  destruct (push_spec h L e (Hi e)) as (Hlen & Hp & Hj).
  destruct (IH (push h L e)) as (Hlen2 & Hp2 & Hj2); [by rewrite Hlen|].
  split; [congruence|]. split; [rewrite Hp2, Hp; solve_Permutation|]. intros j H0. by apply Hj2, Hj.
Qed.

(** Where the buckets of an array stand. *)
Definition addrs (b : Z) (n : nat) : list Z := (λ i, bucket_at b (Z.of_nat i)) <$> seq 0 n.

Lemma in_addrs b n l : l ∈ addrs b n ↔ ∃ i, (i < n)%nat ∧ l = bucket_at b (Z.of_nat i).
Proof. unfold addrs. rewrite list_elem_of_fmap. setoid_rewrite elem_of_seq. naive_solver lia. Qed.

Lemma move_loop_spec fuel m h M ob ys L :
  lists m M → M !! ob = Some ys → holds M (buckets h) L → power_cnt h → length L = Z.to_nat (bucket_cnt h) →
  ob ∉ addrs (buckets h) (length L) → (length ys < fuel)%nat →
  ∃ m' M', move_loop fuel h ob (pos ob ys) m = Ok (tt, m') ∧ lists m' M' ∧ holds M' (buckets h) (moved h L ys) ∧
    dom m' = dom m ∧ ∀ l, l ≠ ob → l ∉ addrs (buckets h) (length L) → M' !! l = M !! l.
Proof.
  revert m M ys L. induction fuel as [|fuel IH]; intros m M ys L Hm Hob Hh Hpow Hlen Hne Hf; [lia|].
  pose proof (ls_is _ _ Hm _ _ Hob) as Hl. cbn [move_loop].
  destruct (walk_end m ob [] ys Hl) as [He Hend]. erewrite stM_bind_run by exact He. rewrite Hend.
  destruct ys as [|e ys]; [by exists m, M|]. simpl.
  erewrite stM_bind_run by by eapply (list_next_spec m ob [] e ys).
  destruct (lists_remove m M ob [] e ys Hm Hob) as (m1 & Hr1 & Hm1 & Hd1 & Hloose). erewrite stM_bind_run by exact Hr1.
  destruct (idx_spec h e Hpow) as [Hi Hb]. rewrite <- Hlen in Hi.
  destruct (proj2 (lookup_lt_is_Some L _) Hi) as [xs Hxs].
  assert (find_bucket h e ≠ ob) as Hbo. { intros E. apply Hne, in_addrs. exists (idx h e). split; [done|congruence]. }
  destruct (lists_push_front m1 (<[ob := ys]> M) (find_bucket h e) xs e) as (m2 & Hr2 & Hm2 & Hd2).
  - done.
  - rewrite lookup_insert_ne by done. rewrite Hb. by apply Hh.
  - done.
  - eapply ring_nonnull; [done|]. apply in_ring. set_solver.
  - apply elem_of_dom. rewrite Hd1. apply elem_of_dom. eapply ring_in_dom; [done|]. apply in_ring. set_solver.
  - erewrite stM_bind_run by exact Hr2.
    assert (push h L e = <[idx h e := e :: xs]> L) as Hpush by (unfold push; by rewrite Hxs).
    destruct (push_spec h L e Hi) as (Hlen' & _).
    destruct (IH m2 _ ys (push h L e) Hm2) as (m' & M' & Hr & Hm' & Hh' & Hd' & Ho).
    + rewrite lookup_insert_ne, lookup_insert_eq by done. done.
    + rewrite Hpush, Hb. apply holds_insert. apply holds_insert_ne; [done|].
      intros i Hil E. apply Hne, in_addrs. eauto.
    + done.
    + by rewrite Hlen'.
    + by rewrite Hlen'.
    + simpl in Hf. lia.
    + exists m', M'. split_and!; [done|done|done|congruence|]. rewrite Hlen' in Ho.
      intros l Hlo Hla. rewrite Ho by done. rewrite !lookup_insert_ne; [done|done|].
      intros <-. apply Hla, in_addrs. eauto.
Qed.

Lemma rehash_loop_spec n m h M ob R L i :
  lists m M → length R = n →
  (∀ k xs, R !! k = Some xs → M !! bucket_at ob (i + Z.of_nat k) = Some xs) →
  holds M (buckets h) L → power_cnt h → length L = Z.to_nat (bucket_cnt h) →
  (∀ k, (k < n)%nat → bucket_at ob (i + Z.of_nat k) ∉ addrs (buckets h) (length L)) →
  ∃ m' M', rehash_loop n h ob i m = Ok (tt, m') ∧ lists m' M' ∧ holds M' (buckets h) (moved h L (concat R)) ∧
    dom m' = dom m.
Proof.
  revert m M R L i. induction n as [|n IH]; intros m M R L i Hm Hn HR Hh Hpow Hlen Hne.
  { apply nil_length_inv in Hn as ->. by exists m, M. }
  destruct R as [|ys R]; [done|]. injection Hn as Hn. cbn [rehash_loop concat].
  pose proof (HR 0%nat ys eq_refl) as H0. pose proof (Hne 0%nat ltac:(lia)) as Hne0. rewrite Z.add_0_r in H0, Hne0.
  pose proof (ls_is _ _ Hm _ _ H0) as Hl. pose proof (list_bound _ _ _ Hl).
  erewrite stM_bind_run by reflexivity. erewrite stM_bind_run by by apply list_begin_spec.
  destruct (move_loop_spec (S (size m)) m h M (bucket_at ob i) ys L) as (m1 & M1 & Hr1 & Hm1 & Hh1 & Hd1 & Ho1);
    [done..|lia|].
  erewrite stM_bind_run by exact Hr1.
  destruct (moved_spec h L ys) as (Hlen1 & _).
  { intros e. rewrite Hlen. by apply idx_spec. }
  destruct (IH m1 M1 R (moved h L ys) (i + 1)) as (m2 & M2 & Hr2 & Hm2 & Hh2 & Hd2); try done.
  - intros k xs Hk. rewrite Ho1.
    + replace (i + 1 + Z.of_nat k) with (i + Z.of_nat (S k)) by lia. by apply HR.
    + intros E%bucket_at_inj. lia.
    + replace (i + 1 + Z.of_nat k) with (i + Z.of_nat (S k)) by lia. apply Hne. apply lookup_lt_Some in Hk. lia.
  - congruence.
  - intros k Hk. rewrite Hlen1. replace (i + 1 + Z.of_nat k) with (i + Z.of_nat (S k)) by lia. apply Hne. lia.
  - exists m2, M2. split_and!; [done|done| |congruence]. unfold moved in *. by rewrite foldl_app.
Qed.

Lemma hash_init_loop_spec n m M b i :
  lists m M → 0 < b → 0 ≤ i →
  (∀ a, bucket_at b i ≤ a < bucket_at b (i + Z.of_nat n) → m !! a = None) →
  ∃ m' M', init_loop n b i m = Ok (tt, m') ∧ lists m' M' ∧
    (∀ k, (k < n)%nat → M' !! bucket_at b (i + Z.of_nat k) = Some []) ∧
    (∀ l, l < bucket_at b i ∨ bucket_at b (i + Z.of_nat n) ≤ l → M' !! l = M !! l) ∧ dom m ⊆ dom m'.
Proof.
  revert m M i. induction n as [|n IH]; intros m M i Hm Hb Hi Hfree.
  { exists m, M. split_and!; [done|done|lia|done|done]. }
  cbn [init_loop]. set (l := bucket_at b i).
  assert (l = b + 16 * i ∧ bucket_at b (i + Z.of_nat (S n)) = l + 16 + 16 * Z.of_nat n ∧ bucket_at b (i + 1) = l + 16) as (El & Een & Ei1)
    by (unfold l, bucket_at, LIST_SIZE; lia).
  fold l in Hfree. assert (∀ a, l ≤ a < l + 16 → apart M l a) as Hap.
  { intros a Ha l2 xs2 _ Hl2 Hx. destruct (ring_in_dom _ _ _ _ (ls_is _ _ Hm _ _ Hl2) Hx) as [x Hx2].
    rewrite Hfree in Hx2 by lia. done. }
  destruct (lists_init m M l) as (m1 & Hr1 & Hm1 & Hd1); [done|unfold NULL; lia..|apply Hap; lia|apply Hap; lia|].
  erewrite stM_bind_run by exact Hr1.
  destruct (IH m1 (<[l := []]> M) (i + 1)) as (m2 & M2 & Hr2 & Hm2 & Hk2 & Ho2 & Hd2); [done|done|lia| |].
  { intros a. rewrite Ei1. replace (i + 1 + Z.of_nat n) with (i + Z.of_nat (S n)) by lia. rewrite Een. intros Ha.
    apply not_elem_of_dom. rewrite Hd1, elem_of_union, !elem_of_union, !elem_of_singleton. 
    intros [[->| ->]|Hx%elem_of_dom]; [lia|lia|]. rewrite Hfree in Hx by lia. by destruct Hx. }
  replace (i + 1 + Z.of_nat n) with (i + Z.of_nat (S n)) in Ho2 by lia. rewrite Ei1 in Ho2.
  exists m2, M2. split_and!; [done|done| | |set_solver].
  - intros [|k] Hk; [rewrite Z.add_0_r; fold l; rewrite Ho2 by lia; by rewrite lookup_insert_eq|].
    rewrite <- (Hk2 k) by lia. do 2 f_equal. lia.
  - intros a Ha. fold l in Ha. rewrite Ho2 by lia. rewrite lookup_insert_ne; [done|]. rewrite Een in Ha. lia.
Qed.

Lemma lookup_free (m : heap) (l : list Z) a : a ∉ l → foldr delete m l !! a = m !! a.
Proof.
  induction l as [|x l IH]; [done|]. intros [Hx Hl]%not_elem_of_cons. simpl. by rewrite lookup_delete_ne, IH by done.
Qed.

(** What rehashing keeps of a table. *)
Record same_table (h h' : hash) : Prop := {
  st_cnt : elem_cnt h' = elem_cnt h;
  st_hash : hash_hash h' = hash_hash h;
  st_less : hash_less h' = hash_less h;
  st_aux : aux h' = aux h;
}.

Lemma same_eqv h h' x y : same_table h h' → eqv h' x y ↔ eqv h x y.
Proof. intros [_ _ Hl Ha]. unfold eqv. by rewrite Hl, Ha. Qed.

Lemma concat_replicate_nil n : concat (replicate n []) = ([] : list Z).
Proof. induction n; [done|]. simpl. done. Qed.

Lemma bucket_in_dom m h E M L i :
  table m h E M L → (i < length L)%nat →
  is_Some (m !! bucket_at (buckets h) (Z.of_nat i)) ∧ is_Some (m !! (bucket_at (buckets h) (Z.of_nat i) + 8)).
Proof.
  intros Ht [xs Hxs]%lookup_lt_is_Some. pose proof (ls_is _ _ (tb_lists _ _ _ _ _ Ht) _ _ (tb_holds _ _ _ _ _ Ht _ _ Hxs)).
  split; (eapply ring_in_dom; [done|]; apply in_ring; tauto).
Qed.

(** The table in its new array, once the old one is freed. *)
Lemma table_moved m m2 h E M L nb n M2 L' :
  let h' := set_buckets nb n h in
  table m h E M L → power_cnt h' → 0 < nb → (∀ a, is_Some (m !! a) → a < nb ∨ nb + LIST_SIZE * n ≤ a) →
  lists m2 M2 → holds M2 nb L' → length L' = Z.to_nat n → concat L' ≡ₚ concat L → dom m ⊆ dom m2 →
  (∀ i xs e, L' !! i = Some xs → e ∈ xs → idx h' e = i) →
  table (foldr delete m2 (cells (buckets h) (length L))) h' E (filter (λ p, p.1 ∈ addrs nb (Z.to_nat n)) M2) L'.
Proof.
  intros h' Ht Hpow Hnb Hout Hm2 Hh2 Hlen Hp Hdom Hpl.
  assert (0 < n) as Hn0. { destruct Hpow as (k & Hk & E1). change (n = 2 ^ k) in E1. rewrite E1. apply Z.pow_pos_nonneg; lia. }
  assert (∀ a i, (i < Z.to_nat n)%nat → a = bucket_at nb (Z.of_nat i) ∨ a = bucket_at nb (Z.of_nat i) + 8 →
    m !! a = None) as Hnone.
  { intros a i Hi Ha. apply eq_None_not_Some. intros Hs%Hout. unfold bucket_at, LIST_SIZE in *. lia. }
  assert (∀ a i, (i < Z.to_nat n)%nat → a = bucket_at nb (Z.of_nat i) ∨ a = bucket_at nb (Z.of_nat i) + 8 →
    a ∉ cells (buckets h) (length L)) as Hcells.
  { intros a i Hi Ha (j & Hj & Hc)%in_cells. pose proof (Hnone a i Hi Ha) as Hx.
    destruct (bucket_in_dom _ _ _ _ _ _ Ht Hj) as [[? H1] [? H2]]. destruct Hc as [->| ->]; congruence. }
  assert (∀ l xs, filter (λ p, p.1 ∈ addrs nb (Z.to_nat n)) M2 !! l = Some xs →
    ∃ i, L' !! i = Some xs ∧ l = bucket_at nb (Z.of_nat i) ∧ (i < Z.to_nat n)%nat) as Hex.
  { intros l xs [Hl (i & Hi & E1)%in_addrs]%map_lookup_filter_Some. simpl in E1. subst l. exists i.
    rewrite <- Hlen in Hi. destruct (proj2 (lookup_lt_is_Some L' i) Hi) as [ys Hys].
    rewrite (Hh2 i ys Hys) in Hl. rewrite Hlen in Hi. by simplify_eq. }
  split; try done; try (by apply Ht).
  - apply (lists_restrict m2 _ M2); [done|apply map_filter_subseteq|].
    intros l xs a Hl Ha. destruct (Hex l xs Hl) as (i & Hi & -> & Hlt). apply lookup_free.
    apply in_ring in Ha as [Ha|[Ha|Ha]]; [by apply (Hcells a i); [|left]| |by apply (Hcells a i); [|right]].
    eapply (tb_client _ _ _ _ _ Ht a), (tb_elems _ _ _ _ _ Ht). rewrite <- Hp. apply elem_of_concat. eauto.
  - intros i xs Hi. apply map_lookup_filter_Some. split; [by apply Hh2|]. apply in_addrs. exists i. split; [|done].
    rewrite <- Hlen. by eapply lookup_lt_Some.
  - intros l xs Hl. destruct (Hex l xs Hl) as (i & ? & ? & _). eauto.
  - rewrite Hp. apply Ht.
  - rewrite Hp. apply Ht.
  - intros x y. rewrite !Hp. apply (tb_keys _ _ _ _ _ Ht).
  - intros e. rewrite Hp. apply (tb_elems _ _ _ _ _ Ht).
  - intros e He. destruct (tb_client _ _ _ _ _ Ht e He) as (H0 & Hs & Hc). split_and!; [done| |].
    + rewrite lookup_free by done. apply elem_of_dom, Hdom. by apply elem_of_dom.
    + intros (i & Hi & Ha)%in_cells. rewrite Hlen in Hi. destruct Hs as [? Hs]. by rewrite (Hnone e i) in Hs.
Qed.

(** Moving all elements into fresh buckets. *)
Lemma rehash_moves m h E M L nb n k :
  table m h E M L → 2 ≤ k < 32 → n = 2 ^ k → 0 < nb → (∀ a, nb ≤ a < nb + LIST_SIZE * n → m !! a = None) →
  let h' := set_buckets nb n h in
  ∃ m' M' L',
    (init_loop (Z.to_nat n) nb 0;; rehash_loop (Z.to_nat (bucket_cnt h)) h' (buckets h) 0;;
     free_buckets (buckets h) (bucket_cnt h);; mret h') m = Ok (h', m') ∧
    table m' h' E M' L' ∧ concat L' ≡ₚ concat L.
Proof.
  intros Ht Hk Hn Hnb Hfree h'. assert (0 < n) as Hn0 by (rewrite Hn; apply Z.pow_pos_nonneg; lia).
  assert (power_cnt h') as Hpow by by exists k.
  assert (∀ a, is_Some (m !! a) → a < nb ∨ nb + LIST_SIZE * n ≤ a) as Hout.
  { intros a Ha. destruct (decide (nb ≤ a < nb + LIST_SIZE * n)) as [Hr|]; [|lia]. rewrite Hfree in Ha by done. by destruct Ha. }
  destruct (hash_init_loop_spec (Z.to_nat n) m M nb 0) as (m1 & M1 & Hr1 & Hm1 & Hnew & Hold & Hd1); [apply Ht|done|done| |].
  { intros a. unfold bucket_at. rewrite Z2Nat.id by lia. intros. apply Hfree. lia. }
  assert (∀ i, (i < length L)%nat → bucket_at (buckets h) (Z.of_nat i) ∉ addrs nb (Z.to_nat n)) as Hdisj.
  { intros i Hi (j & Hj & E1)%in_addrs. destruct (Hout _ (proj1 (bucket_in_dom _ _ _ _ _ _ Ht Hi)));
      rewrite E1 in *; unfold bucket_at, LIST_SIZE in *; lia. }
  set (N := replicate (Z.to_nat n) ([] : list Z)).
  assert (length N = Z.to_nat n) as HN by apply length_replicate.
  destruct (rehash_loop_spec (Z.to_nat (bucket_cnt h)) m1 h' M1 (buckets h) L N 0) as (m2 & M2 & Hr2 & Hm2 & Hh2 & Hd2); try done.
  - apply Ht.
  - intros i xs Hi. rewrite Z.add_0_l, Hold; [by apply (tb_holds _ _ _ _ _ Ht)|].
    unfold bucket_at at 2 4. rewrite Z.mul_0_r, Z.add_0_r, Z.add_0_l, Z2Nat.id by lia.
    apply Hout, (bucket_in_dom _ _ _ _ _ _ Ht). by eapply lookup_lt_Some.
  - intros i xs [-> Hi]%lookup_replicate. by apply (Hnew i).
  - intros i Hi. rewrite Z.add_0_l, HN. apply Hdisj. by rewrite (tb_len _ _ _ _ _ Ht).
  - set (L' := moved h' N (concat L)) in *.
    destruct (moved_spec h' N (concat L)) as (Hlen & Hp & Hpl).
    { intros e. rewrite HN. by apply idx_spec. }
    fold L' in Hlen, Hp, Hpl. unfold N in Hp. rewrite concat_replicate_nil, app_nil_r in Hp.
    exists (foldr delete m2 (cells (buckets h) (Z.to_nat (bucket_cnt h)))),
      (filter (λ p, p.1 ∈ addrs nb (Z.to_nat n)) M2), L'.
    split; [by erewrite stM_bind_run by exact Hr1; erewrite stM_bind_run by exact Hr2|]. split; [|done].
    rewrite <- (tb_len _ _ _ _ _ Ht). rewrite HN in Hlen. eapply (table_moved m m2); try done; [set_solver|].
    intros j xs x Hj. apply Hpl; [|done]. by intros ys y [-> _]%lookup_replicate ?%not_elem_of_nil.
Qed.

Section rehash.
Context (malloc : heap → Z → Z) `{!Allocator malloc}.

(** The size of the new array does not wrap around when there is one. *)
Lemma malloc_size m k :
  2 ≤ k < 32 → malloc m (u32 (LIST_SIZE * 2 ^ k)) ≠ NULL → u32 (LIST_SIZE * 2 ^ k) = LIST_SIZE * 2 ^ k.
Proof.
  intros Hk Hne. destruct (decide (k < 28)).
  - apply u32_small. unfold in_u32, LIST_SIZE. assert (0 < 2 ^ k < 2 ^ 28); [|lia].
    split; [apply Z.pow_pos_nonneg; lia|apply Z.pow_lt_mono_r; lia].
  - exfalso. apply Hne. replace (u32 (LIST_SIZE * 2 ^ k)) with 0; [apply malloc_zero|].
    unfold u32, LIST_SIZE. replace k with (28 + (k - 28)) by lia. rewrite Z.pow_add_r by lia.
    change (2 ^ 28) with 268435456. symmetry. apply Z.mod_divide; [lia|]. exists (2 ^ (k - 28)). lia.
Qed.

Lemma rehash_spec m h E M L :
  table m h E M L → Z.of_nat (size E) < W32 →
  ∃ h' m' M' L', rehash malloc h m = Ok (h', m') ∧ table m' h' E M' L' ∧ same_table h h' ∧ concat L' ≡ₚ concat L.
Proof.
  intros Ht HE. unfold rehash. 
  assert (0 ≤ elem_cnt h `div` BEST_ELEMS_PER_BUCKET < W32) as Hn.
  { pose proof (nodup_size _ E (tb_nodup _ _ _ _ _ Ht) (tb_elems _ _ _ _ _ Ht)).
    rewrite (tb_cnt _ _ _ _ _ Ht). unfold BEST_ELEMS_PER_BUCKET. dlia. }
  destruct (ideal_spec _ Hn) as (Hpl & k & Hk & Hid). set (n := ideal _) in *. rewrite Hpl.
  erewrite stM_bind_run by reflexivity. destruct (Z.eqb_spec n (bucket_cnt h)) as [|Hne]; [by exists h, m, M, L|].
  erewrite stM_bind_run by reflexivity. destruct (Z.eqb_spec (malloc m (u32 (LIST_SIZE * n))) NULL) as [|Hnb]; [by exists h, m, M, L|].
  assert (u32 (LIST_SIZE * n) = LIST_SIZE * n) as Hsz by (rewrite Hid; apply (malloc_size m); [done|by rewrite <- Hid]).
  pose proof (malloc_pos m (u32 (LIST_SIZE * n))). pose proof (malloc_fresh m (u32 (LIST_SIZE * n))) as Hfresh.
  set (nb := malloc m (u32 (LIST_SIZE * n))) in *. rewrite Hsz in Hfresh.
  destruct (rehash_moves m h E M L nb n k) as (m' & M' & L' & Hr & Ht' & Hp); [done..|unfold NULL in *; lia|auto|].
  exists (set_buckets nb n h), m', M', L'. by split_and!.
Qed.

(** ** Each operation *)

Lemma first_eq_perm h E M L m e c :
  table m h E M L → hash_fns_ok h → concat L ≡ₚ c → first_eq h e (concat L) = first_eq h e c.
Proof.
  intros Ht Hok Hp. apply first_eq_agree; [intros; by rewrite Hp|]. intros x y Hx Hy Ex [Ey1 Ey2].
  apply (tb_keys _ _ _ _ _ Ht); [done..|]. eapply eqv_trans; [done|done|]. done.
Qed.

Lemma null_notin m h E M L : table m h E M L → NULL ∉ concat L.
Proof. intros Ht Hx. by destruct (tb_client _ _ _ _ _ Ht NULL (tb_elems _ _ _ _ _ Ht NULL Hx)). Qed.

(** A found element is in the table, a null pointer is not. *)
Lemma found_cases m h E M L e :
  table m h E M L → hash_fns_ok h → let r := first_eq h e (concat L) in
  (r =? NULL) = false ∧ r ∈ concat L ∧ eqv h r e ∨ (r =? NULL) = true ∧ ∀ x, x ∈ concat L → ¬ eqv h x e.
Proof.
  intros Ht Hok r. destruct (first_eq_cases h e (concat L)) as [[Hi He]|[Hn Hno]].
  - left. split_and!; [|done|done]. apply Z.eqb_neq, (tb_client _ _ _ _ _ Ht), (tb_elems _ _ _ _ _ Ht), Hi.
  - right. split; [by apply Z.eqb_eq|done].
Qed.

Lemma same_cnt h n : hash_fns_ok h → hash_fns_ok (set_cnt n h).
Proof. by intros [? ? ?]. Qed.

Lemma filter_ne_perm (r : Z) (c c' : list Z) : NoDup c → c ≡ₚ r :: c' → filter (λ x, x ≠ r) c ≡ₚ c'.
Proof.
  intros Hn Hp. rewrite Hp. rewrite Hp in Hn. apply NoDup_cons in Hn as [Hr _].
  rewrite filter_cons_False by (intros H; by apply H). clear Hp. induction c' as [|x c' IH]; [done|].
  apply not_elem_of_cons in Hr as [? ?]. rewrite filter_cons_True by done. by rewrite IH.
Qed.

(** Functions, comparison and auxiliary data: all an equality test looks at. *)
Definition same_fns (h h' : hash) : Prop :=
  hash_hash h' = hash_hash h ∧ hash_less h' = hash_less h ∧ aux h' = aux h.

Lemma same_ok h h' : same_fns h h' → hash_fns_ok h → hash_fns_ok h'.
Proof. intros (H1 & H2 & H3) [Hr Ht Hh]. destruct h, h'. simplify_eq/=. by split. Qed.

Lemma same_table_fns h n h' : same_table (set_cnt n h) h' → same_fns h h'.
Proof. by intros [_ ? ? ?]. Qed.

(** A hash table that holds the elements [c], in some order. *)
Definition represents (m : heap) (h : hash) (E : gset Z) (c : list Z) : Prop :=
  ∃ M L, table m h E M L ∧ concat L ≡ₚ c.

Lemma insert_rehash m h E M L e c :
  table m h E M L → hash_fns_ok h → Z.of_nat (size E) < W32 → e ∈ E → concat L ≡ₚ c →
  (∀ x, x ∈ concat L → ¬ eqv h x e) →
  ∃ h' m', (insert_elem h (find_bucket h e) e ≫= rehash malloc) m = Ok (h', m') ∧
    represents m' h' E (e :: c) ∧ same_fns h h'.
Proof.
  intros Ht Hok HE He Hc Hne.
  destruct (insert_elem_spec _ _ _ _ _ _ Ht Hok HE He Hne) as (n & m1 & M1 & L1 & Hr1 & Ht1 & Hp1).
  destruct (rehash_spec _ _ _ _ _ Ht1 HE) as (h' & m' & M' & L' & Hr & Ht' & Hs & Hp).
  exists h', m'. rewrite stM_bind_eq, Hr1. split; [done|]. split; [|by eapply same_table_fns].
  exists M', L'. split; [done|]. by rewrite Hp, Hp1, Hc.
Qed.

Inductive hash_op := Insert (e : Z) | Replace (e : Z) | Find (e : Z) | Delete (e : Z) | Count | Clear.

(** What the operation returns, as a word: 0 for [void]. *)
Definition run_hash_op (h : hash) (o : hash_op) : stM heap (Z * hash) :=
  match o with
  | Insert e => hash_insert malloc h e
  | Replace e => hash_replace malloc h e
  | Find e => r ← hash_find h e; mret (r, h)
  | Delete e => hash_delete malloc h e
  | Count => mret (hash_size h, h)
  | Clear => h ← hash_clear h None; mret (0, h)
  end.

(** The same operation on a plain list of elements. *)
Definition spec_hash_op (h : hash) (o : hash_op) (c : list Z) : list Z * Z :=
  match o with
  | Insert e => (if first_eq h e c =? NULL then e :: c else c, first_eq h e c)
  | Replace e => (e :: filter (λ x, x ≠ first_eq h e c) c, first_eq h e c)
  | Find e => (c, first_eq h e c)
  | Delete e => (filter (λ x, x ≠ first_eq h e c) c, first_eq h e c)
  | Count => (c, Z.of_nat (length c))
  | Clear => ([], 0)
  end.

Definition hash_op_elem (o : hash_op) : option Z :=
  match o with Insert e | Replace e => Some e | _ => None end.

(** What an operation has to do. *)
Definition op_correct (m : heap) (h : hash) (E : gset Z) (o : hash_op) (c : list Z) : Prop :=
  ∃ h' m', run_hash_op h o m = Ok ((snd (spec_hash_op h o c), h'), m') ∧
    represents m' h' E (fst (spec_hash_op h o c)) ∧ same_fns h h'.

Lemma filter_ne_notin (r : Z) (c : list Z) : r ∉ c → filter (λ x, x ≠ r) c = c.
Proof.
  induction c as [|x c IH]; [done|]. intros [? ?]%not_elem_of_cons. by rewrite filter_cons_True, IH by done.
Qed.

Lemma insert_correct m h E c e :
  represents m h E c → hash_fns_ok h → Z.of_nat (size E) < W32 → e ∈ E → op_correct m h E (Insert e) c.
Proof.
  intros (M & L & Ht & Hp) Hok HE He. unfold op_correct. cbn [run_hash_op spec_hash_op fst snd]. unfold hash_insert.
  erewrite stM_bind_run by by eapply find_elem_spec. rewrite (first_eq_perm _ _ _ _ _ e c Ht Hok Hp).
  destruct (found_cases _ _ _ _ _ e Ht Hok) as [(Hr & Hi & _)|[Hr Hno]]; rewrite (first_eq_perm _ _ _ _ _ e c Ht Hok Hp) in Hr; rewrite Hr.
  - destruct (rehash_spec _ _ _ _ _ Ht HE) as (h' & m' & M' & L' & Hx & Ht' & Hs & Hp').
    exists h', m'. erewrite stM_bind_run by reflexivity. erewrite stM_bind_run by exact Hx. split; [done|].
    split; [|by destruct Hs]. exists M', L'. by rewrite Hp', Hp.
  - destruct (insert_rehash _ _ _ _ _ e c Ht Hok HE He Hp Hno) as (h' & m' & Hx & Hrep & Hs).
    exists h', m'. rewrite stM_bind_eq in Hx. rewrite stM_bind_eq.
    destruct (insert_elem h (find_bucket h e) e m) as [[h1 m1]|]; [|done].
    erewrite stM_bind_run by exact Hx. done.
Qed.

Lemma delete_correct m h E c e :
  represents m h E c → hash_fns_ok h → Z.of_nat (size E) < W32 → op_correct m h E (Delete e) c.
Proof.
  intros (M & L & Ht & Hp) Hok HE. unfold op_correct. cbn [run_hash_op spec_hash_op fst snd]. unfold hash_delete.
  erewrite stM_bind_run by by eapply find_elem_spec.
  pose proof (first_eq_perm _ _ _ _ _ e c Ht Hok Hp) as E1.
  destruct (found_cases _ _ _ _ _ e Ht Hok) as [(Hr & Hi & _)|[Hr Hno]]; rewrite E1 in *; rewrite Hr.
  - destruct (remove_elem_spec _ _ _ _ _ _ Ht HE Hi) as (n & m1 & M1 & L1 & Hr1 & Ht1 & Hp1).
    destruct (rehash_spec _ _ _ _ _ Ht1 HE) as (h' & m' & M' & L' & Hx & Ht' & Hs & Hp').
    exists h', m'. erewrite stM_bind_run by exact Hr1. erewrite stM_bind_run by exact Hx. split; [done|].
    split; [|by eapply same_table_fns]. exists M', L'. split; [done|]. rewrite Hp'. symmetry. apply filter_ne_perm.
    + rewrite <- Hp. apply Ht.
    + by etrans; [symmetry; exact Hp|].
  - exists h, m. split; [done|]. split; [|done]. exists M, L. split; [done|]. rewrite Hp, filter_ne_notin; [done|].
    apply Z.eqb_eq in Hr. rewrite Hr. intros Hx. rewrite <- Hp in Hx.
    by eapply null_notin.
Qed.

Lemma replace_correct m h E c e :
  represents m h E c → hash_fns_ok h → Z.of_nat (size E) < W32 → e ∈ E → op_correct m h E (Replace e) c.
Proof.
  intros (M & L & Ht & Hp) Hok HE He. unfold op_correct. cbn [run_hash_op spec_hash_op fst snd]. unfold hash_replace.
  erewrite stM_bind_run by by eapply find_elem_spec.
  pose proof (first_eq_perm _ _ _ _ _ e c Ht Hok Hp) as E1.
  assert (∃ n m1 M1 L1, (if first_eq h e c =? NULL then mret h else remove_elem h (first_eq h e c)) m = Ok (set_cnt n h, m1) ∧
    table m1 (set_cnt n h) E M1 L1 ∧ concat L1 ≡ₚ filter (λ x, x ≠ first_eq h e c) c ∧
    ∀ x, x ∈ concat L1 → ¬ eqv h x e) as (n & m1 & M1 & L1 & Hr1 & Ht1 & Hp1 & Hno1).
  { destruct (found_cases _ _ _ _ _ e Ht Hok) as [(Hr & Hi & Heq)|[Hr Hno]]; rewrite E1 in *; rewrite Hr.
    - destruct (remove_elem_spec _ _ _ _ _ _ Ht HE Hi) as (n & m1 & M1 & L1 & Hr1 & Ht1 & Hp1).
      exists n, m1, M1, L1. split; [done|]. split; [done|]. pose proof (tb_nodup _ _ _ _ _ Ht) as Hnd. split.
      + symmetry. apply filter_ne_perm; [by rewrite <- Hp|by etrans; [symmetry; exact Hp|]].
      + intros x Hx Hxe. rewrite Hp1 in Hnd. apply NoDup_cons in Hnd as [Hnr _]. apply Hnr.
        rewrite <- (tb_keys _ _ _ _ _ Ht x (first_eq h e c)); [done|rewrite Hp1; by right|done|].
        destruct Heq. by eapply eqv_trans.
    - exists (elem_cnt h), m, M, L. split; [by destruct h|]. split; [by destruct h|]. split; [|done].
      rewrite Hp, filter_ne_notin; [done|]. apply Z.eqb_eq in Hr. rewrite Hr. intros Hx. rewrite <- Hp in Hx.
      by eapply null_notin. }
  rewrite E1. erewrite stM_bind_run by exact Hr1.
  destruct (insert_rehash _ _ _ _ _ e _ Ht1 (same_cnt _ n Hok) HE He Hp1 Hno1) as (h' & m' & Hx & Hrep & Hs).
  exists h', m'. rewrite stM_bind_eq in Hx. rewrite stM_bind_eq.
  change (find_bucket h e) with (find_bucket (set_cnt n h) e).
  destruct (insert_elem (set_cnt n h) (find_bucket (set_cnt n h) e) e m1) as [[h1 m2]|]; [|done].
  erewrite stM_bind_run by exact Hx. done.
Qed.

(** ** Empty tables *)

Lemma clear_loop_spec n m h M i :
  lists m M → 0 < buckets h → 0 ≤ i →
  (∀ k, i ≤ k < i + Z.of_nat n → ∀ a, a ∈ ring (bucket_at (buckets h) k) [] → apart M (bucket_at (buckets h) k) a) →
  ∃ m' M', clear_loop n h None i m = Ok (tt, m') ∧ lists m' M' ∧ dom m ⊆ dom m' ∧
    (∀ k, i ≤ k < i + Z.of_nat n → M' !! bucket_at (buckets h) k = Some []) ∧
    (∀ l, (∀ k, i ≤ k < i + Z.of_nat n → l ≠ bucket_at (buckets h) k) → M' !! l = M !! l).
Proof.
  revert m M i. induction n as [|n IH]; intros m M i Hm Hb Hi Hap; [exists m, M; split_and!; [done..|lia|done]|].
  cbn [clear_loop]. erewrite stM_bind_run by reflexivity. set (l := bucket_at (buckets h) i).
  assert (0 < l) as Hl by (unfold l, bucket_at, LIST_SIZE; lia).
  destruct (lists_init m M l) as (m1 & Hr1 & Hm1 & Hd1);
    [done|unfold NULL; lia..|apply Hap; [lia|apply in_ring; tauto]|apply Hap; [lia|apply in_ring; tauto]|].
  erewrite stM_bind_run by exact Hr1.
  destruct (IH m1 (<[l := []]> M) (i + 1)) as (m2 & M2 & Hr2 & Hm2 & Hd2 & Hk2 & Ho2); [done|done|lia| |].
  { intros k Hk a Ha l2 xs2 Hne. destruct (decide (l = l2)) as [<-|].
    - rewrite lookup_insert_eq. intros [= <-]. rewrite !in_ring in *. unfold l, bucket_at, LIST_SIZE in *. set_solver by lia.
    - rewrite lookup_insert_ne by done. apply (Hap k); [lia|done|done]. }
  exists m2, M2. split_and!; [done|done|set_solver| |].
  - intros k Hk. destruct (decide (k = i)) as [->|]; [|apply Hk2; lia].
    fold l. rewrite Ho2, lookup_insert_eq; [done|]. intros j Hj E%bucket_at_inj. lia.
  - intros a Ha. rewrite Ho2 by (intros j Hj; apply Ha; lia). rewrite lookup_insert_ne; [done|].
    intros <-. apply (Ha i); [lia|done].
Qed.

Lemma empty_table m h E M :
  lists m M → power_cnt h → 0 < buckets h →
  (∀ k, 0 ≤ k < bucket_cnt h → M !! bucket_at (buckets h) k = Some []) →
  (∀ l xs, M !! l = Some xs → ∃ k, 0 ≤ k < bucket_cnt h ∧ l = bucket_at (buckets h) k) →
  (∀ e, e ∈ E → e ≠ NULL ∧ is_Some (m !! e) ∧ e ∉ cells (buckets h) (Z.to_nat (bucket_cnt h))) →
  table m (set_cnt 0 h) E M (replicate (Z.to_nat (bucket_cnt h)) []).
Proof.
  intros Hm Hpow Hb Hnew Hall HE. assert (0 < bucket_cnt h) as Hc.
  { destruct Hpow as (k & Hk & ->). apply Z.pow_pos_nonneg; lia. }
  split; try done; rewrite ?concat_replicate_nil, ?length_replicate; try done; try (by constructor).
  - intros i xs [-> Hi]%lookup_replicate. apply Hnew. lia.
  - intros l xs Hl. destruct (Hall l xs Hl) as (k & Hk & ->). rewrite Hnew in Hl by done. injection Hl as <-.
    exists (Z.to_nat k). split; [apply lookup_replicate; split; [done|lia]|]. simpl. f_equal. lia.
  - by intros i xs e [-> _]%lookup_replicate ?%not_elem_of_nil.
  - by intros x y ?%not_elem_of_nil.
  - by intros e ?%not_elem_of_nil.
Qed.

Lemma clear_correct m h E c : represents m h E c → op_correct m h E Clear c.
Proof.
  intros (M & L & Ht & _). unfold op_correct. cbn [run_hash_op spec_hash_op fst snd]. unfold hash_clear.
  pose proof (tb_pow _ _ _ _ _ Ht) as Hpow. assert (0 < bucket_cnt h) as Hc.
  { destruct Hpow as (k & Hk & ->). apply Z.pow_pos_nonneg; lia. }
  destruct (clear_loop_spec (Z.to_nat (bucket_cnt h)) m h M 0) as (m' & M' & Hr & Hm' & Hd & Hk & Ho);
    [apply Ht|apply Ht|done| |].
  { intros k Hk a Ha. destruct (proj2 (lookup_lt_is_Some L (Z.to_nat k))) as [xs Hxs];
      [rewrite (tb_len _ _ _ _ _ Ht); lia|].
    pose proof (tb_holds _ _ _ _ _ Ht _ _ Hxs) as Hl. rewrite Z2Nat.id in Hl by lia.
    eapply ring_apart; [apply Ht|done|]. apply in_ring in Ha. apply in_ring. set_solver. }
  rewrite Z2Nat.id in Hk, Ho by lia.
  exists (set_cnt 0 h), m'. rewrite stM_bind_eq. erewrite stM_bind_run by exact Hr. split; [done|]. split; [|done].
  exists M', (replicate (Z.to_nat (bucket_cnt h)) []). split; [|by rewrite concat_replicate_nil].
  apply empty_table; [done|done|apply Ht|intros; apply Hk; lia| |].
  - intros l xs Hl. destruct (decide (l ∈ addrs (buckets h) (Z.to_nat (bucket_cnt h)))) as [(i & Hi & ->)%in_addrs|Hn].
    { exists (Z.of_nat i). split; [lia|done]. }
    rewrite Ho in Hl.
    + destruct (tb_exact _ _ _ _ _ Ht l xs Hl) as (i & Hi & ->). exists (Z.of_nat i). split; [|done].
      apply lookup_lt_Some in Hi. rewrite (tb_len _ _ _ _ _ Ht) in Hi. lia.
    + intros k Hk2 ->. apply Hn, in_addrs. exists (Z.to_nat k). split; [lia|]. f_equal. lia.
  - intros e He. destruct (tb_client _ _ _ _ _ Ht e He) as (? & ? & ?). rewrite <- (tb_len _ _ _ _ _ Ht).
    split_and!; [done| |done]. apply elem_of_dom, Hd. by apply elem_of_dom.
Qed.

Lemma hash_init_spec m E hf less a :
  (∀ e, e ∈ E → e ≠ NULL ∧ is_Some (m !! e)) →
  ∃ ok h m', hash_init malloc hf less a m = Ok ((ok, h), m') ∧ ok = negb (malloc m 64 =? NULL) ∧ same_fns (mk_hash 0 0 0 hf less a) h ∧
    (ok = true → represents m' h E []).
Proof.
  intros HE. unfold hash_init. erewrite stM_bind_run by reflexivity.
  pose proof (malloc_fresh m (u32 (LIST_SIZE * 4))) as Hfree. pose proof (malloc_pos m (u32 (LIST_SIZE * 4))) as Hpos.
  set (b := malloc m (u32 (LIST_SIZE * 4))) in *. change (u32 (LIST_SIZE * 4)) with 64 in *. fold b.
  destruct (Z.eqb_spec b NULL) as [Hb|Hb]; [by exists false, (mk_hash 0 4 b hf less a), m|].
  set (h := mk_hash 0 4 b hf less a). unfold hash_clear.
  destruct (clear_loop_spec 4 m h ∅ 0) as (m' & M' & Hr & Hm' & Hd & Hk & Ho);
    [by split|unfold h, NULL in *; simpl; lia|done|intros k _ x _ l2 xs2 _ Hx; by rewrite lookup_empty in Hx|].
  exists true, (set_cnt 0 h), m'. rewrite stM_bind_eq. erewrite stM_bind_run by exact Hr. do 3 (split; [done|]).
  intros _. exists M', (replicate (Z.to_nat (bucket_cnt h)) []). split; [|done].
  apply empty_table; [done|by exists 2|unfold h, NULL in *; simpl; lia|intros; apply Hk; simpl in *; lia| |].
  - intros l xs Hl. destruct (decide (l ∈ addrs b 4)) as [(i & Hi & ->)%in_addrs|Hn].
    { exists (Z.of_nat i). simpl. split; [lia|done]. }
    rewrite Ho, lookup_empty in Hl; [done|]. intros k Hk2 ->. apply Hn, in_addrs. exists (Z.to_nat k).
    split; [lia|]. simpl. f_equal. lia.
  - intros e He. destruct (HE e He) as [H0 Hs]. split_and!; [done|apply elem_of_dom, Hd; by apply elem_of_dom|].
    intros (i & Hi & Hx)%in_cells. simpl in Hi, Hx. rewrite Hfree in Hs; [by destruct Hs|done|].
    unfold bucket_at, LIST_SIZE in Hx. lia.
Qed.

Lemma op_correct_all m h E c o :
  represents m h E c → hash_fns_ok h → Z.of_nat (size E) < W32 → (∀ e, hash_op_elem o = Some e → e ∈ E) →
  op_correct m h E o c.
Proof.
  intros Hrep Hok HE He. destruct o.
  - by apply insert_correct; [..|apply He].
  - by apply replace_correct; [..|apply He].
  - destruct Hrep as (M & L & Ht & Hp). exists h, m. cbn [run_hash_op spec_hash_op fst snd]. unfold hash_find.
    erewrite stM_bind_run by by eapply find_elem_spec. rewrite (first_eq_perm _ _ _ _ _ _ c Ht Hok Hp).
    split; [done|]. split; [by exists M, L|done].
  - by apply delete_correct.
  - destruct Hrep as (M & L & Ht & Hp). exists h, m. split; [|by split; [exists M, L|]].
    simpl. unfold hash_size. by rewrite (tb_cnt _ _ _ _ _ Ht), Hp.
  - by apply clear_correct.
Qed.

Fixpoint run_hash_ops (h : hash) (os : list hash_op) : stM heap (list Z * hash) :=
  match os with
  | [] => mret ([], h)
  | o :: os => '(r, h) ← run_hash_op h o; '(rs, h) ← run_hash_ops h os; mret (r :: rs, h)
  end.
End rehash.

Fixpoint spec_hash_ops (h : hash) (os : list hash_op) (c : list Z) : list Z * list Z :=
  match os with
  | [] => (c, [])
  | o :: os =>
      let '(c, r) := spec_hash_op h o c in
      let '(c, rs) := spec_hash_ops h os c in (c, r :: rs)
  end.

(** ** Iteration *)

(** The idiom hash.c documents: collect until [hash_next] returns null. *)
Fixpoint iterate (fuel : nat) (h : hash) (i : hash_iterator) : stM heap (list Z) :=
  match fuel with
  | O => serr EFuel
  | S fuel => '(e, i) ← hash_next h i; if e =? NULL then mret [] else es ← iterate fuel h i; mret (e :: es)
  end.
Definition elements (h : hash) : stM heap (list Z) :=
  i ← hash_first h; iterate (S (Z.to_nat (hash_size h))) h i.

(** The iterator [it] has the elements [rest] still to come. *)
Definition iter_at (m : heap) (h : hash) (L : list (list Z)) (it : hash_iterator) (rest : list Z) : Prop :=
  ∃ i xs ys, L !! i = Some (xs ++ ys) ∧ it_bucket it = bucket_at (buckets h) (Z.of_nat i) ∧
    list_next (it_elem it) m = Ok (pos (it_bucket it) ys, m) ∧ rest = ys ++ concat (drop (S i) L).

Lemma next_loop_spec fuel m h E M L i xs ys :
  table m h E M L → L !! i = Some (xs ++ ys) → (length L < fuel + i + 1)%nat →
  ∃ it, next_loop fuel h (mk_iter (bucket_at (buckets h) (Z.of_nat i)) (pos (bucket_at (buckets h) (Z.of_nat i)) ys)) m = Ok (it, m) ∧
    match ys ++ concat (drop (S i) L) with
    | [] => it_elem it = NULL
    | e :: rest => it_elem it = e ∧ iter_at m h L it rest
    end.
Proof.
  intros Ht. assert (0 < bucket_cnt h) as Hc.
  { destruct (tb_pow _ _ _ _ _ Ht) as (k & Hk & ->). apply Z.pow_pos_nonneg; lia. }
  revert i xs ys. induction fuel as [|fuel IH]; intros i xs ys Hi Hf.
  { apply lookup_lt_Some in Hi. lia. }
  pose proof (ls_is _ _ (tb_lists _ _ _ _ _ Ht) _ _ (tb_holds _ _ _ _ _ Ht _ _ Hi)) as Hl.
  pose proof (lookup_lt_Some _ _ _ Hi) as Hlt. rewrite (tb_len _ _ _ _ _ Ht) in Hlt.
  cbn [next_loop it_bucket it_elem]. walk Hl. destruct ys as [|y ys].
  - cbn [app]. rewrite (bool_decide_eq_true_2 _ eq_refl).
    replace (bucket_at (buckets h) (Z.of_nat i) + LIST_SIZE) with (bucket_at (buckets h) (Z.of_nat (S i)))
      by (unfold bucket_at, LIST_SIZE; lia).
    destruct (Z.leb_spec (bucket_at (buckets h) (bucket_cnt h)) (bucket_at (buckets h) (Z.of_nat (S i)))) as [Hle|Hgt].
    + eexists. split; [done|]. rewrite drop_ge; [done|]. rewrite (tb_len _ _ _ _ _ Ht).
      unfold bucket_at, LIST_SIZE in Hle. lia.
    + destruct (proj2 (lookup_lt_is_Some L (S i))) as [zs Hzs].
      { rewrite (tb_len _ _ _ _ _ Ht). unfold bucket_at, LIST_SIZE in Hgt. lia. }
      erewrite stM_bind_run by (eapply lists_begin; [by eapply tb_lists|by apply (tb_holds _ _ _ _ _ Ht)]).
      rewrite (drop_S _ zs) by done. simpl. apply (IH (S i) [] zs); [done|lia].
  - eexists. split; [done|]. cbn [app]. split; [done|]. exists i, (xs ++ [y]), ys.
    split_and!; [by rewrite <- app_assoc|done| |done]. by eapply list_next_spec.
Qed.

Lemma iterate_spec fuel m h E M L it rest :
  table m h E M L → iter_at m h L it rest → (∀ e, e ∈ rest → e ≠ NULL) → (length rest < fuel)%nat →
  iterate fuel h it m = Ok (rest, m).
Proof.
  intros Ht. revert it rest. induction fuel as [|fuel IH]; intros it rest Hat Hnn Hf; [lia|].
  destruct Hat as (i & xs & ys & Hi & Hb & Hn & Hrest). cbn [iterate]. unfold hash_next. rewrite stM_bind_eq.
  erewrite stM_bind_run by exact Hn. rewrite Hb.
  destruct (next_loop_spec (S (Z.to_nat (bucket_cnt h))) m h E M L i xs ys Ht Hi) as (it' & Hr & Hit).
  { pose proof (tb_len _ _ _ _ _ Ht). lia. }
  erewrite stM_bind_run by exact Hr. rewrite <- Hrest in Hit. destruct rest as [|e rest]; cbn.
  - by rewrite Hit.
  - destruct Hit as [He Hat]. rewrite He, (proj2 (Z.eqb_neq e NULL)) by (apply Hnn; by left).
    erewrite stM_bind_run; [done|]. apply IH; [done|intros x Hx; apply Hnn; by right|simpl in Hf; lia].
Qed.

Lemma elements_spec m h E c :
  represents m h E c → ∃ xs, elements h m = Ok (xs, m) ∧ xs ≡ₚ c.
Proof.
  intros (M & L & Ht & Hp). exists (concat L). split; [|done].
  destruct (proj2 (lookup_lt_is_Some L 0%nat)) as [xs H0].
  { rewrite (tb_len _ _ _ _ _ Ht). destruct (tb_pow _ _ _ _ _ Ht) as (k & Hk & ->).
    pose proof (Z.pow_pos_nonneg 2 k). lia. }
  pose proof (tb_holds _ _ _ _ _ Ht _ _ H0) as HM. rewrite Nat2Z.inj_0 in HM.
  unfold bucket_at in HM. rewrite Z.mul_0_r, Z.add_0_r in HM.
  pose proof (ls_is _ _ (tb_lists _ _ _ _ _ Ht) _ _ HM) as Hl.
  unfold elements, hash_first, list_head. rewrite stM_bind_eq.
  erewrite stM_bind_run by (erewrite stM_bind_run by (apply sassert_run, nonnull_true; by eapply is_list_nonnull); reflexivity).
  eapply iterate_spec; [done| | |].
  - exists 0%nat, [], xs. cbn [it_bucket it_elem]. split_and!; [done|unfold bucket_at; lia| |].
    + eapply list_next_run; [by apply list_head_at|by eapply is_list_nonnull|by eapply (pos_nonnull m _ [] xs)].
    + destruct L as [|ys L]; simplify_eq/=. by rewrite drop_0.
  - intros e He ->. by eapply null_notin.
  - unfold hash_size. rewrite (tb_cnt _ _ _ _ _ Ht). lia.
Qed.

(** ** Sequences of operations *)

Lemma same_first_eq h h' e c : same_fns h h' → first_eq h' e c = first_eq h e c.
Proof.
  intros (_ & Hl & Ha). induction c as [|x c IH]; [done|]. cbn [first_eq]. rewrite IH.
  assert (eqv h' x e ↔ eqv h x e) by (unfold eqv; by rewrite Hl, Ha). do 2 case_decide; tauto.
Qed.

Lemma same_spec_ops h h' os c : same_fns h h' → spec_hash_ops h' os c = spec_hash_ops h os c.
Proof.
  intros Hs. revert c. induction os as [|o os IH]; intros c; [done|]. cbn [spec_hash_ops].
  assert (spec_hash_op h' o c = spec_hash_op h o c) as ->; [|destruct (spec_hash_op h o c); by rewrite IH].
  destruct o; cbn [spec_hash_op]; rewrite ?(same_first_eq h h') by done; done.
Qed.

Lemma run_hash_ops_spec malloc `{!Allocator malloc} os m h E c :
  represents m h E c → hash_fns_ok h → Z.of_nat (size E) < W32 →
  Forall (λ o, ∀ e, hash_op_elem o = Some e → e ∈ E) os →
  ∃ h' m', run_hash_ops malloc h os m = Ok ((snd (spec_hash_ops h os c), h'), m') ∧
    represents m' h' E (fst (spec_hash_ops h os c)).
Proof.
  revert m h c. induction os as [|o os IH]; intros m h c Hrep Hok HE Hos; [by exists h, m|].
  apply Forall_cons in Hos as [Ho Hos].
  destruct (op_correct_all malloc m h E c o Hrep Hok HE Ho) as (h1 & m1 & Hr1 & Hrep1 & Hs).
  cbn [run_hash_ops spec_hash_ops]. rewrite stM_bind_eq, Hr1.
  destruct (spec_hash_op h o c) as [c1 r]. simpl in Hrep1 |- *.
  destruct (IH m1 h1 c1 Hrep1) as (h2 & m2 & Hr2 & Hrep2); [by eapply same_ok|done|done|].
  exists h2, m2. rewrite (same_spec_ops h h1) in * by done. rewrite stM_bind_eq, Hr2.
  by destruct (spec_hash_ops h os c1).
Qed.

(** C15: a hash table is a finite set modulo the equality its comparison
    induces: after a successful [hash_init], any sequence of insertions,
    replacements, searches, deletions, counts and clearings, through however
    many rehashings and failed allocations, runs without a failed assertion or
    a stray access and returns what the same sequence returns on a plain list
    of the elements; and an iteration then visits each element exactly once. *)
Theorem hash_refines_set malloc `{!Allocator malloc} m (E : gset Z) hf less a os :
  hash_fns_ok (mk_hash 0 0 0 hf less a) → Z.of_nat (size E) < W32 →
  (∀ e, e ∈ E → e ≠ NULL ∧ is_Some (m !! e)) →
  Forall (λ o, ∀ e, hash_op_elem o = Some e → e ∈ E) os →
  ∃ ok h m1, hash_init malloc hf less a m = Ok ((ok, h), m1) ∧ ok = negb (malloc m 64 =? NULL) ∧
    (ok = true → ∃ h2 m2 es,
      run_hash_ops malloc h os m1 = Ok ((snd (spec_hash_ops h os []), h2), m2) ∧
      elements h2 m2 = Ok (es, m2) ∧ es ≡ₚ fst (spec_hash_ops h os [])).
Proof.
  intros Hok HE Hcl Hos. destruct (hash_init_spec malloc m E hf less a Hcl) as (ok & h & m1 & Hi & Hm & Hs & Hrep).
  exists ok, h, m1. do 2 (split; [done|]). intros E1.
  destruct (run_hash_ops_spec malloc os m1 h E [] (Hrep E1)) as (h2 & m2 & Hr & Hrep2); [by eapply same_ok|done|done|].
  destruct (elements_spec _ _ _ _ Hrep2) as (es & He & Hp). by exists h2, m2, es.
Qed.

(** ** A concrete table *)

(** An allocator that hands out memory above all that is in use. *)
Definition bump (m : heap) (n : Z) : Z :=
  if n <=? 0 then NULL else set_fold Z.max 0 (dom m) + 16.

Lemma le_set_fold (X : gset Z) a : a ∈ X → a ≤ set_fold Z.max 0 X.
Proof.
  revert X. apply (set_fold_ind_L (λ r X, a ∈ X → a ≤ r)); [set_solver|].
  intros x X r _ IH [->%elem_of_singleton|Hx]%elem_of_union; [lia|]. specialize (IH Hx). lia.
Qed.

Lemma set_fold_pos (X : gset Z) : 0 ≤ set_fold Z.max 0 X.
Proof. revert X. apply (set_fold_ind_L (λ r X, 0 ≤ r)); [done|]. intros. lia. Qed.

#[export] Instance bump_allocator : Allocator bump.
Proof.
  split; unfold bump.
  - done.
  - intros m n a Hn Ha. destruct (n <=? 0); [done|]. apply not_elem_of_dom. intros ?%le_set_fold. lia.
  - intros m n. pose proof (set_fold_pos (dom m)). destruct (n <=? 0); [done|lia].
Qed.

(** Elements at the addresses 1 to 40, equal when equal modulo 20. *)
Definition sample_elems : list Z := seqZ 1 40.
Definition sample_mem : heap := list_to_map ((λ e, (e, mk_elem 0 0)) <$> sample_elems).
Definition sample_hash (e aux : Z) : Z := e `mod` 20.
Definition sample_less (x y aux : Z) : bool := x `mod` 20 <? y `mod` 20.

Lemma hash_refines_set_witness :
  ∃ h m1, hash_init bump sample_hash sample_less 0 sample_mem = Ok ((true, h), m1) ∧
    (∃ h2 m2 es,
      run_hash_ops bump h ((Insert <$> seqZ 1 20) ++ [Insert 25; Replace 26; Delete 7; Find 27; Count]) m1 =
        Ok ((replicate 20 0 ++ [5; 6; 7; 0; 19], h2), m2) ∧
      elements h2 m2 = Ok (es, m2) ∧ es ≡ₚ 26 :: [20; 19; 18; 17; 16; 15; 14; 13; 12; 11; 10; 9; 8; 5; 4; 3; 2; 1]).
Proof.
  destruct (hash_refines_set bump sample_mem (list_to_set sample_elems) sample_hash sample_less 0
    ((Insert <$> seqZ 1 20) ++ [Insert 25; Replace 26; Delete 7; Find 27; Count])) as (ok & h & m1 & Hi & Hm & H).
  - split; unfold eqv; simpl; unfold sample_less, sample_hash; intros; lia.
  - vm_compute. reflexivity.
  - intros e He. apply elem_of_list_to_set in He. assert (Forall (λ e, e ≠ NULL ∧ is_Some (sample_mem !! e)) sample_elems) as Hf.
    { vm_compute. repeat constructor; try (by eexists); lia. }
    by eapply Forall_forall in Hf.
  - apply Forall_app. split; [apply Forall_fmap, Forall_forall; intros x Hx|repeat constructor]; intros e [= <-];
      apply elem_of_list_to_set, elem_of_seqZ; [apply elem_of_seqZ in Hx|..]; lia.
  - assert (ok = true) as E by (rewrite Hm; vm_compute; reflexivity). rewrite E in Hi.
    exists h, m1. split; [exact Hi|]. destruct (H E) as (h2 & m2 & es & Hr & He & Hp).
    exists h2, m2, es. clear H. assert (h = mk_hash 0 4 56 sample_hash sample_less 0) as ->.
    { vm_compute in Hi. injection Hi as <- _. reflexivity. }
    vm_compute snd in Hr. vm_compute fst in Hp. by split_and!.
Defined.
