(* ===== verification/Palloc.v ===== *)
(** * threads/vaddr.h and threads/palloc.c: virtual addresses and pages

    Memory is a function from addresses to bytes.  A pool is its bitmap of
    pages in use and its base; the bitmap of a pool is kept as a [bitmap]
    beside the memory, in which init_pool() reserves the pages at the start of
    the pool for it.  [locked] says whether the calling thread holds the
    pool's lock. *)

From S2P Require Import Prelude Bitmap.
Import Bitmap.

Module Palloc.

(** ** Virtual addresses *)

Definition PGBITS : Z := 12.
Definition PGSIZE : Z := 4096.
Definition PGMASK : Z := 4095.
Definition PHYS_BASE : Z := 3221225472.

Definition pg_ofs (va : Z) : Z := Z.land va PGMASK.
Definition pg_no (va : Z) : Z := Z.shiftr va PGBITS.
Definition pg_round_up (va : Z) : Z := Z.land (u32 (va + PGSIZE - 1)) (u32 (Z.lnot PGMASK)).
Definition pg_round_down (va : Z) : Z := Z.land va (u32 (Z.lnot PGMASK)).
Definition is_user_vaddr (va : Z) : bool := va <? PHYS_BASE.
Definition is_kernel_vaddr (va : Z) : bool := PHYS_BASE <=? va.
Definition ptov (pa : Z) : res Z := assert (pa <? PHYS_BASE);; Ok (u32 (pa + PHYS_BASE)).
Definition vtop (va : Z) : res Z := assert (is_kernel_vaddr va);; Ok (va - PHYS_BASE).

(** ** Memory *)

Abbreviation memory := (Z → Z).

Definition mem_set (p v n : Z) (m : memory) : memory := λ a, if decide (p ≤ a < p + n) then v else m a.
Definition mem_copy (dst src n : Z) (m : memory) : memory :=
  λ a, if decide (dst ≤ a < dst + n) then m (src + (a - dst)) else m a.
Definition mem_bytes (p : Z) (n : nat) (m : memory) : list Z := (λ i : nat, m (p + Z.of_nat i)) <$> seq 0 n.
Definition mem_word (p : Z) (m : memory) : Z := le_Z (mem_bytes p 4 m).

(** ** Pools *)

Record pool := mk_pool { locked : bool; used_map : bitmap; base : Z }.
Record palloc := mk_palloc { kernel_pool : pool; user_pool : pool; mem : memory }.

Definition PAL_ASSERT : Z := 1.
Definition PAL_ZERO : Z := 2.
Definition PAL_USER : Z := 4.
Definition flag (flags f : Z) : bool := negb (Z.land flags f =? 0).

Definition get_pool (user : bool) (s : palloc) : pool := if user then user_pool s else kernel_pool s.
Definition set_pool (user : bool) (p : pool) (s : palloc) : palloc :=
  if user then mk_palloc (kernel_pool s) p (mem s) else mk_palloc p (user_pool s) (mem s).
Definition set_mem (f : memory → memory) (s : palloc) : palloc :=
  mk_palloc (kernel_pool s) (user_pool s) (f (mem s)).

Definition lock_acquire (user : bool) : stM palloc unit := λ s,
  let p := get_pool user s in
  if locked p then Err EAssert else Ok (tt, set_pool user (mk_pool true (used_map p) (base p)) s).
Definition lock_release (user : bool) : stM palloc unit := λ s,
  let p := get_pool user s in
  if locked p then Ok (tt, set_pool user (mk_pool false (used_map p) (base p)) s) else Err EAssert.

Definition init_pool (user : bool) (base page_cnt : Z) : stM palloc unit :=
  let bm_pages := u32 (bitmap_buf_size page_cnt + PGSIZE - 1) / PGSIZE in
  if page_cnt <? bm_pages then serr EPanic
  else
    let page_cnt := page_cnt - bm_pages in
    buf ← sread (λ s, (λ i : nat, mem_word (base + 8 + 4 * Z.of_nat i) (mem s)) <$> seq 0 (Z.to_nat (elem_cnt page_cnt)));
    b ← slift (bitmap_create_in_buf page_cnt buf (u32 (bm_pages * PGSIZE)));
    smod (set_pool user (mk_pool false b (u32 (base + bm_pages * PGSIZE)))).

Definition palloc_init (init_ram_pages user_page_limit : Z) : stM palloc unit :=
  free_start ← slift (ptov (1024 * 1024));
  free_end ← slift (ptov (u32 (init_ram_pages * PGSIZE)));
  let free_pages := u32 (free_end - free_start) / PGSIZE in
  let user_pages := free_pages / 2 in
  let user_pages := if user_page_limit <? user_pages then user_page_limit else user_pages in
  let kernel_pages := u32 (free_pages - user_pages) in
  init_pool false free_start kernel_pages;;
  init_pool true (u32 (free_start + kernel_pages * PGSIZE)) user_pages.

Definition palloc_get_multiple (flags page_cnt : Z) : stM palloc Z :=
  let user := flag flags PAL_USER in
  if page_cnt =? 0 then mret 0
  else
    lock_acquire user;;
    p ← sread (get_pool user);
    '(page_idx, b) ← slift (bitmap_scan_and_flip (used_map p) 0 page_cnt false);
    smod (set_pool user (mk_pool (locked p) b (base p)));;
    lock_release user;;
    let pages := if page_idx =? BITMAP_ERROR then 0 else u32 (base p + PGSIZE * page_idx) in
    (if negb (pages =? 0) then
       if flag flags PAL_ZERO then smod (set_mem (mem_set pages 0 (u32 (PGSIZE * page_cnt)))) else mret tt
     else if flag flags PAL_ASSERT then serr EPanic else mret tt);;
    mret pages.

Definition palloc_get_page (flags : Z) : stM palloc Z := palloc_get_multiple flags 1.

Definition page_from_pool (p : pool) (page : Z) : bool :=
  let page_no := pg_no page in
  let start_page := pg_no (base p) in
  let end_page := u32 (start_page + bitmap_size (used_map p)) in
  (start_page <=? page_no) && (page_no <? end_page).

Definition palloc_free_multiple (pages page_cnt : Z) : stM palloc unit :=
  sassert (pg_ofs pages =? 0);;
  if (pages =? 0) || (page_cnt =? 0) then mret tt
  else
    s ← sget;
    user ← (if page_from_pool (kernel_pool s) pages then mret false
            else if page_from_pool (user_pool s) pages then mret true
            else serr EPanic);
    let p := get_pool user s in
    let page_idx := u32 (pg_no pages - pg_no (base p)) in
    smod (set_mem (mem_set pages 204 (u32 (PGSIZE * page_cnt))));;
    all ← slift (bitmap_all (used_map p) page_idx page_cnt);
    sassert all;;
    b ← slift (bitmap_set_multiple (used_map p) page_idx page_cnt false);
    smod (set_pool user (mk_pool (locked p) b (base p))).

Definition palloc_free_page (page : Z) : stM palloc unit := palloc_free_multiple page 1.

(** ** Address arithmetic *)

Lemma pg_ofs_mod va : pg_ofs va = va mod PGSIZE.
Proof. unfold pg_ofs, PGMASK, PGSIZE. change 4095 with (Z.ones 12). by rewrite Z.land_ones. Qed.

Lemma pg_no_div va : pg_no va = va / PGSIZE.
Proof. unfold pg_no, PGBITS, PGSIZE. by rewrite Z.shiftr_div_pow2. Qed.

Lemma pg_round_down_eq va : in_u32 va → pg_round_down va = va - va mod PGSIZE.
Proof.
  intros Hva. unfold pg_round_down, PGMASK, PGSIZE.
  assert (Z.land va (u32 (Z.lnot 4095)) = Z.ldiff va (Z.ones 12)) as ->.
  { apply Z.bits_inj'. intros i Hi. rewrite Z.land_spec, Z.ldiff_spec. change 4095 with (Z.ones 12).
    destruct (decide (i < 32)); [by rewrite u32_lnot_testbit by (done || lia)|].
    by rewrite (bits_in_u32 va i) by (done || lia). }
  rewrite Z.ldiff_ones_r, Z.shiftl_mul_pow2, Z.shiftr_div_pow2 by lia. change (2 ^ 12) with 4096. dlia.
Qed.

Lemma pg_round_down_add a o : in_u32 (a + o) → a mod PGSIZE = 0 → 0 ≤ o < PGSIZE → pg_round_down (a + o) = a.
Proof. intros H Ha Ho. rewrite pg_round_down_eq by done. unfold PGSIZE in *. dlia. Qed.

(** ** The invariant *)

(** A pool of page-aligned memory that ends where addresses do, or before. *)
Record pool_ok (p : pool) : Prop := {
  po_wf : wf (used_map p);
  po_base : 0 < base p;
  po_align : base p mod PGSIZE = 0;
  po_end : base p + PGSIZE * bit_cnt (used_map p) ≤ W32;
  po_lock : locked p = false;
}.

Definition pool_end (p : pool) : Z := base p + PGSIZE * bit_cnt (used_map p).

Record palloc_ok (s : palloc) : Prop := {
  pa_kernel : pool_ok (kernel_pool s);
  pa_user : pool_ok (user_pool s);
  pa_disj : pool_end (kernel_pool s) ≤ base (user_pool s);
}.

Lemma pa_pool s user : palloc_ok s → pool_ok (get_pool user s).
Proof. intros [? ? ?]. by destruct user. Qed.

(** The page at [a] is in use in one of the pools. *)
Definition page_used (p : pool) (a : Z) : bool := bit (used_map p) ((a - base p) / PGSIZE).

(** [n] pages of the pool, from [a] on. *)
Definition in_pool (p : pool) (a n : Z) : Prop :=
  ∃ i, 0 ≤ i ∧ i + n ≤ bit_cnt (used_map p) ∧ a = base p + PGSIZE * i.

(** The pool with the pages from [a] to [a + n] pages in use or free. *)
Definition pool_set (p p' : pool) (a n : Z) (v : bool) : Prop :=
  base p' = base p ∧ bit_cnt (used_map p') = bit_cnt (used_map p) ∧ pool_ok p' ∧
  ∀ i, 0 ≤ i → bit (used_map p') i = if decide (a ≤ base p + PGSIZE * i < a + PGSIZE * n) then v else bit (used_map p) i.

Lemma pool_set_range p b' i n v :
  pool_ok p → 0 ≤ i → set_range (used_map p) b' i n v →
  pool_set p (mk_pool false b' (base p)) (base p + PGSIZE * i) n v.
Proof.
  intros [Hw Hb Ha He Hl] Hi (Hw' & Hc & Hbit). split; [done|]. split; [done|]. split.
  - split; [done|done|done| |done]. cbn [used_map base]. by rewrite Hc.
  - intros j Hj. cbn [used_map]. rewrite Hbit by done. unfold PGSIZE. repeat case_decide; try done; lia.
Qed.

(** Free pages: all of them at once. *)
Definition free_run (p : pool) (a n : Z) : Prop :=
  in_pool p a n ∧ ∀ i, 0 ≤ i → a ≤ base p + PGSIZE * i < a + PGSIZE * n → bit (used_map p) i = false.

Lemma get_set_pool user p s : get_pool user (set_pool user p s) = p.
Proof. by destruct user. Qed.
Lemma set_set_pool user p p' s : set_pool user p (set_pool user p' s) = set_pool user p s.
Proof. by destruct user. Qed.
Lemma set_pool_same user s : set_pool user (get_pool user s) s = s.
Proof. by destruct user, s. Qed.

Lemma free_run_scan p i n :
  pool_ok p → 0 ≤ i → i + n ≤ bit_cnt (used_map p) → run (used_map p) i n false → free_run p (base p + PGSIZE * i) n.
Proof.
  intros Hp Hi Hin Hr. split; [by exists i|]. intros j Hj Hr2. apply Hr. unfold PGSIZE in Hr2. lia.
Qed.

Lemma scan_free_run p a n : free_run p a n → ∃ i, 0 ≤ i ∧ i + n ≤ bit_cnt (used_map p) ∧ a = base p + PGSIZE * i ∧ run (used_map p) i n false.
Proof.
  intros ((i & Hi & Hin & ->) & Hr). exists i. split_and!; [done..|]. intros j Hj. apply Hr; [lia|]. unfold PGSIZE. lia.
Qed.

(** Replacing a pool by one over the same memory. *)
Lemma palloc_ok_set user p' s f :
  palloc_ok s → pool_ok p' → base p' = base (get_pool user s) →
  bit_cnt (used_map p') = bit_cnt (used_map (get_pool user s)) → palloc_ok (set_mem f (set_pool user p' s)).
Proof.
  intros [Hk Hu Hd] Hp' Hb Hc. unfold pool_end in *. destruct user; split; try done; unfold pool_end; simpl in *;
    rewrite ?Hb, ?Hc; done.
Qed.

(** What [palloc_get_multiple] does, on every branch. *)
Lemma palloc_get_multiple_spec flags n s :
  palloc_ok s → in_u32 n → let user := flag flags PAL_USER in let p := get_pool user s in
  (n = 0 ∧ palloc_get_multiple flags n s = Ok (0, s)) ∨
  (n ≠ 0 ∧ (∀ a, ¬ free_run p a n) ∧
   palloc_get_multiple flags n s = if flag flags PAL_ASSERT then Err EPanic else Ok (0, s)) ∨
  (n ≠ 0 ∧ ∃ a p' s', free_run p a n ∧ (∀ a2, free_run p a2 n → a ≤ a2) ∧ pool_set p p' a n true ∧
    palloc_get_multiple flags n s = Ok (a, s') ∧ palloc_ok s' ∧
    s' = set_mem (if flag flags PAL_ZERO then mem_set a 0 (PGSIZE * n) else id) (set_pool user p' s)).
Proof.
  intros Hok Hn user p. destruct (decide (n = 0)) as [->|Hn0]; [by left|right].
  pose proof (pa_pool s user Hok) as Hp. fold p in Hp. pose proof Hp as [Hw Hb Ha He Hl].
  unfold palloc_get_multiple. fold user. rewrite (proj2 (Z.eqb_neq n 0)) by done.
  erewrite stM_bind_run by (unfold lock_acquire; fold p; rewrite Hl; reflexivity).
  erewrite stM_bind_run by reflexivity. rewrite get_set_pool. cbn [used_map base locked].
  destruct (bitmap_scan_and_flip_spec (used_map p) 0 n false) as (r & b' & -> & Hscan & Hr);
    [done|split; [done|apply Hw]|unfold in_u32 in Hn; lia|].
  rewrite stM_bind_eq. cbn [slift]. erewrite stM_bind_run by reflexivity. rewrite set_set_pool.
  erewrite stM_bind_run by (unfold lock_release; rewrite get_set_pool; reflexivity). rewrite set_set_pool.
  cbn [used_map base]. destruct Hr as [[-> ->]|(Hlt & H0 & Hin & Hrun & Hset)].
  - left. split; [done|]. split.
    { intros a (i & Hi & Hin & _ & Hrun)%scan_free_run. destruct Hscan as [[_ Hno]|(? & ? & _)]; [by apply (Hno i)|].
      destruct Hw as (Hw & _). unfold BITMAP_ERROR in *. unfold in_u32 in Hn. lia. }
    rewrite Z.eqb_refl. cbn [negb Z.eqb]. 
    replace (set_pool user (mk_pool false (used_map p) (base p)) s) with s.
    { destruct (flag flags PAL_ASSERT); [by rewrite stM_bind_eq|done]. }
    rewrite <- Hl. rewrite <- (set_pool_same user s) at 1. fold p. by destruct p.
  - right. split; [done|]. pose proof (pool_set_range p b' r n true Hp H0 Hset) as Hps.
    set (p' := mk_pool false b' (base p)) in *.
    exists (base p + PGSIZE * r), p', (set_mem (if flag flags PAL_ZERO then mem_set (base p + PGSIZE * r) 0 (PGSIZE * n) else id) (set_pool user p' s)).
    rewrite (proj2 (Z.eqb_neq r BITMAP_ERROR)) by lia.
    assert (in_u32 (base p + PGSIZE * r) ∧ in_u32 (PGSIZE * n)) as [Hu1 Hu2] by (unfold in_u32, PGSIZE in *; lia).
    rewrite (u32_small (base p + PGSIZE * r)), (u32_small (PGSIZE * n)) by done.
    rewrite (proj2 (Z.eqb_neq (base p + PGSIZE * r) 0)) by (unfold PGSIZE; lia). cbn [negb].
    split_and!; [by apply free_run_scan| |done| | |done].
    + intros a2 (i & Hi & Hin2 & -> & Hrun2)%scan_free_run.
      destruct Hscan as [[? _]|(_ & _ & _ & Hno)]; [lia|].
      destruct (decide (i < r)); [|unfold PGSIZE; lia]. exfalso. by apply (Hno i); [lia|].
    + destruct (flag flags PAL_ZERO); [done|]. rewrite stM_bind_eq. cbn. by destruct (set_pool user p' s).
    + destruct Hps as (Hb2 & Hc2 & Hp2 & _). by apply palloc_ok_set.
Qed.

Lemma page_from_pool_spec p a :
  pool_ok p → 0 ≤ a → a mod PGSIZE = 0 → page_from_pool p a = true ↔ base p ≤ a < pool_end p.
Proof.
  intros [Hw Hb Ha He Hl] H0 Hm. unfold page_from_pool, bitmap_size, pool_end. rewrite !pg_no_div.
  destruct Hw as (Hw & _). rewrite u32_small by (unfold in_u32, PGSIZE in *; dlia).
  rewrite andb_true_iff, Z.leb_le, Z.ltb_lt. unfold PGSIZE in *. dlia.
Qed.

Definition used_run (p : pool) (a n : Z) : Prop :=
  in_pool p a n ∧ ∀ i, 0 ≤ i → a ≤ base p + PGSIZE * i < a + PGSIZE * n → bit (used_map p) i = true.

(** Pages in use are given back and overwritten. *)
Lemma palloc_free_multiple_spec user a n s :
  palloc_ok s → 0 < n → used_run (get_pool user s) a n →
  ∃ p', pool_set (get_pool user s) p' a n false ∧
    let s' := set_mem (mem_set a 204 (PGSIZE * n)) (set_pool user p' s) in
    palloc_free_multiple a n s = Ok (tt, s') ∧ palloc_ok s'.
Proof.
  intros Hok Hn ((i & Hi & Hin & ->) & Hused). pose proof (pa_pool s user Hok) as Hp. set (p := get_pool user s) in *.
  pose proof Hp as [Hw Hb Ha He Hl]. set (a := base p + PGSIZE * i) in *.
  assert (0 < a ∧ a mod PGSIZE = 0 ∧ base p ≤ a < pool_end p) as (H0 & Hal & Hr).
  { unfold a, pool_end, PGSIZE in *. split; [lia|]. split; [dlia|lia]. }
  unfold palloc_free_multiple. rewrite pg_ofs_mod, Hal. erewrite stM_bind_run by reflexivity.
  rewrite (proj2 (Z.eqb_neq a 0)), (proj2 (Z.eqb_neq n 0)) by lia. cbn [orb].
  erewrite stM_bind_run by reflexivity.
  assert ((if page_from_pool (kernel_pool s) a then mret false else
    if page_from_pool (user_pool s) a then mret true else serr EPanic) s = Ok (user, s)) as Hsel.
  { pose proof (page_from_pool_spec (kernel_pool s) a (pa_kernel _ Hok)) as Hk.
    pose proof (page_from_pool_spec (user_pool s) a (pa_user _ Hok)) as Hu. pose proof (pa_disj _ Hok).
    subst p. destruct user; simpl in Hr.
    - destruct (page_from_pool (kernel_pool s) a) eqn:E; [exfalso; destruct Hk as [Hk _]; [lia|done|]; specialize (Hk eq_refl); lia|].
      rewrite (proj2 (Hu ltac:(lia) Hal)) by done. done.
    - by rewrite (proj2 (Hk ltac:(lia) Hal)). }
  erewrite stM_bind_run by exact Hsel. fold p. erewrite stM_bind_run by reflexivity.
  assert (u32 (pg_no a - pg_no (base p)) = i) as ->.
  { rewrite !pg_no_div, u32_small; unfold a, in_u32, PGSIZE in *; dlia. }
  destruct (bitmap_all_spec (used_map p) i n) as (r & -> & Hall); [done|lia..|].
  assert (r = true) as -> by (apply Hall; intros j Hj; apply Hused; unfold a, PGSIZE; lia).
  erewrite stM_bind_run by reflexivity. erewrite stM_bind_run by reflexivity.
  destruct (bitmap_set_multiple_spec (used_map p) i n false) as (b' & -> & Hset); [done|lia..|].
  erewrite stM_bind_run by reflexivity. pose proof (pool_set_range p b' i n false Hp Hi Hset) as Hps. fold a in Hps.
  rewrite Hl. exists (mk_pool false b' (base p)). split; [done|]. cbv zeta.
  rewrite (u32_small (PGSIZE * n)) by (unfold in_u32, PGSIZE in *; lia).
  split; [unfold smod; by destruct user|]. destruct Hps as (? & ? & ? & _). by apply palloc_ok_set.
Qed.

(** ** Initialisation *)

Definition bytes_ok (m : memory) : Prop := ∀ a, in_u8 (m a).

Lemma mem_word_u32 p m : bytes_ok m → in_u32 (mem_word p m).
Proof.
  intros Hm. unfold mem_word, in_u32. change W32 with (W8 ^ Z.of_nat (length (mem_bytes p 4 m))). apply le_Z_range.
  apply Forall_fmap, Forall_forall. intros i _. apply Hm.
Qed.

(** The pages of the pool's bitmap. *)
Definition bm_pages (page_cnt : Z) : Z := (8 + 4 * ((page_cnt + 31) / 32) + 4095) / 4096.

Lemma init_pool_spec user b n s :
  bytes_ok (mem s) → 0 < b → b mod PGSIZE = 0 → 0 < n → b + PGSIZE * n < W32 →
  ∃ p, init_pool user b n s = Ok (tt, set_pool user p s) ∧ pool_ok p ∧ base p = b + PGSIZE * bm_pages n ∧
    bit_cnt (used_map p) = n - bm_pages n ∧ ∀ i, 0 ≤ i < n - bm_pages n → bit (used_map p) i = false.
Proof.
  intros Hm Hb Ha Hn He. unfold PGSIZE in Ha, He. assert (0 < bm_pages n ≤ n) as Hbm by (unfold bm_pages; dlia).
  unfold init_pool. assert (u32 (bitmap_buf_size n + PGSIZE - 1) / PGSIZE = bm_pages n) as ->.
  { unfold bitmap_buf_size, byte_cnt. rewrite elem_cnt_eq by lia. unfold bm_pages, PGSIZE.
    rewrite (u32_small (4 * _)) by (unfold in_u32; dlia). rewrite (u32_small (8 + _)) by (unfold in_u32; dlia).
    rewrite u32_small by (unfold in_u32; dlia). f_equal. lia. }
  rewrite (proj2 (Z.ltb_ge n (bm_pages n))) by lia. erewrite stM_bind_run by reflexivity.
  set (buf := _ <$> _). set (k := n - bm_pages n) in *. unfold bitmap_create_in_buf.
  assert (wf (mk_bitmap k buf)) as Hwf.
  { split; [simpl; lia|]. split; [cbn [bits bit_cnt]; unfold buf; by rewrite length_fmap, length_seq|].
    apply Forall_fmap, Forall_forall. intros i _. by apply mem_word_u32. }
  rewrite assert_true.
  2: { apply Z.leb_le. unfold bitmap_buf_size, byte_cnt. rewrite elem_cnt_eq by lia.
    rewrite (u32_small (4 * _)) by (unfold in_u32; dlia). rewrite (u32_small (8 + _)) by (unfold in_u32; dlia).
    rewrite u32_small by (unfold in_u32, PGSIZE; lia). unfold PGSIZE, k in *. unfold bm_pages in *. dlia. }
  simpl. destruct (bitmap_set_all_spec (mk_bitmap k buf) false Hwf) as (b' & -> & Hw & Hc & Hbit).
  erewrite stM_bind_run by reflexivity. rewrite (u32_small (b + _)) by (unfold in_u32, PGSIZE; lia).
  simpl in Hc, Hbit. eexists. split; [reflexivity|]. simpl. split_and!; [split; simpl|unfold PGSIZE; lia|done|].
  - done.
  - unfold PGSIZE. lia.
  - unfold PGSIZE. dlia.
  - rewrite Hc. unfold k, PGSIZE. lia.
  - done.
  - intros i Hi. rewrite Hbit by lia. rewrite decide_True by lia. done.
Qed.

Lemma palloc_init_spec ram limit s :
  bytes_ok (mem s) → 258 ≤ ram < 262144 → 0 < limit →
  ∃ s', palloc_init ram limit s = Ok (tt, s') ∧ palloc_ok s' ∧ mem s' = mem s ∧
    PHYS_BASE + 1048576 ≤ base (kernel_pool s') ∧ pool_end (user_pool s') = PHYS_BASE + PGSIZE * ram ∧
    ∀ user i, 0 ≤ i < bit_cnt (used_map (get_pool user s')) → bit (used_map (get_pool user s')) i = false.
Proof.
  intros Hm Hram Hlim. unfold palloc_init, ptov.
  rewrite (assert_true (1024 * 1024 <? PHYS_BASE)) by reflexivity. erewrite stM_bind_run by reflexivity.
  rewrite (u32_small (ram * PGSIZE)) by (unfold in_u32, PGSIZE; lia).
  rewrite (assert_true (ram * PGSIZE <? PHYS_BASE)) by (apply Z.ltb_lt; unfold PGSIZE, PHYS_BASE; lia). erewrite stM_bind_run by reflexivity.
  rewrite (u32_small (1024 * 1024 + PHYS_BASE)) by done.
  rewrite (u32_small (ram * PGSIZE + PHYS_BASE)) by (unfold in_u32, PGSIZE, PHYS_BASE; lia).
  rewrite (u32_small (ram * PGSIZE + PHYS_BASE - _)) by (unfold in_u32, PGSIZE, PHYS_BASE; lia).
  replace ((ram * PGSIZE + PHYS_BASE - (1024 * 1024 + PHYS_BASE)) / PGSIZE) with (ram - 256) by (unfold PGSIZE; dlia).
  set (u := if limit <? (ram - 256) / 2 then limit else (ram - 256) / 2). assert (0 < u ≤ (ram - 256) / 2) as Hu.
  { unfold u. destruct (Z.ltb_spec limit ((ram - 256) / 2)); dlia. }
  rewrite (u32_small (ram - 256 - u)) by (unfold in_u32; dlia).
  rewrite (u32_small (1024 * 1024 + PHYS_BASE + _)) by (unfold in_u32, PGSIZE, PHYS_BASE; dlia).
  destruct (init_pool_spec false (1024 * 1024 + PHYS_BASE) (ram - 256 - u) s) as (pk & Hr1 & Hk & Hkb & Hkc & Hkf);
    [done|done|done|dlia|unfold PGSIZE, PHYS_BASE; lia|].
  erewrite stM_bind_run by exact Hr1.
  destruct (init_pool_spec true (1024 * 1024 + PHYS_BASE + (ram - 256 - u) * PGSIZE) u (set_pool false pk s))
    as (pu & Hr2 & Hpu & Hub & Huc & Huf); [done|unfold PGSIZE, PHYS_BASE; dlia|unfold PGSIZE, PHYS_BASE; dlia|lia|unfold PGSIZE, PHYS_BASE; lia|].
  exists (set_pool true pu (set_pool false pk s)). split; [done|].
  assert (0 < bm_pages u ∧ 0 < bm_pages (ram - 256 - u)) as [Hb1 Hb2] by (unfold bm_pages; dlia).
  split; [split; [done|done|]|].
  - unfold pool_end. cbn [set_pool kernel_pool user_pool]. rewrite Hkb, Hkc, Hub. unfold PGSIZE, PHYS_BASE. lia.
  - cbn [set_pool kernel_pool user_pool mem]. split; [done|]. split; [rewrite Hkb; unfold PGSIZE; lia|].
    split; [unfold pool_end; rewrite Hub, Huc; unfold PGSIZE; lia|].
    intros [] i; simpl; rewrite ?Hkc, ?Huc; [apply Huf|apply Hkf].
Qed.

(** ** Runs of pages *)

(** Free pages are not pages in use. *)
Lemma free_apart p a n a2 n2 :
  free_run p a n → used_run p a2 n2 → 0 < n → 0 < n2 → a2 + PGSIZE * n2 ≤ a ∨ a + PGSIZE * n ≤ a2.
Proof.
  intros [(i & Hi & _ & ->) Hf] [(i2 & Hi2 & _ & ->) Hu] Hn Hn2.
  destruct (decide (base p + PGSIZE * i2 + PGSIZE * n2 ≤ base p + PGSIZE * i)); [by left|right].
  destruct (decide (base p + PGSIZE * i + PGSIZE * n ≤ base p + PGSIZE * i2)); [done|exfalso].
  unfold PGSIZE in *. pose proof (Hf (Z.max i i2)) as H1. rewrite Hu in H1 by lia. discriminate H1; lia.
Qed.

Lemma used_run_set p p' a n v a2 n2 :
  pool_set p p' a n v → used_run p a2 n2 → (v = true ∨ a2 + PGSIZE * n2 ≤ a ∨ a + PGSIZE * n ≤ a2) → used_run p' a2 n2.
Proof.
  intros (Hb & Hc & _ & Hbit) [Hin Hu] Hv. split.
  - destruct Hin as (i & ? & ? & ->). exists i. by rewrite Hb, Hc.
  - intros i Hi Hr. rewrite Hb in Hr. rewrite Hbit by done. case_decide; [|by apply Hu].
    destruct Hv as [->|Hv]; [done|]. lia.
Qed.

Lemma used_run_new p p' a n : pool_set p p' a n true → in_pool p a n → used_run p' a n.
Proof.
  intros (Hb & Hc & _ & Hbit) (i & Hi & Hin & ->). split; [exists i; by rewrite Hb, Hc|].
  intros k Hk Hr. rewrite Hb in Hr. rewrite Hbit by done. by rewrite decide_True.
Qed.

(** The pages [palloc_get_multiple] returns were all free and are then all
    in use, they are the first such run of the pool, and giving them back
    restores both pools' maps bit for bit. *)
Lemma palloc_get_free flags n s a s' :
  palloc_ok s → in_u32 n → palloc_get_multiple flags n s = Ok (a, s') → a ≠ 0 →
  let user := flag flags PAL_USER in
  free_run (get_pool user s) a n ∧ (∀ a2, free_run (get_pool user s) a2 n → a ≤ a2) ∧ used_run (get_pool user s') a n ∧
  ∃ s2, palloc_free_multiple a n s' = Ok (tt, s2) ∧
    ∀ u i, 0 ≤ i → bit (used_map (get_pool u s2)) i = bit (used_map (get_pool u s)) i.
Proof.
  intros Hok Hn Hr Ha user.
  destruct (palloc_get_multiple_spec flags n s Hok Hn) as [[_ H]|[(_ & _ & H)|(Hn0 & b & p' & s1 & Hf & Hfirst & Hset & H & Hok' & E)]];
    rewrite Hr in H; [by simplify_eq|destruct (flag flags PAL_ASSERT); by simplify_eq|]. injection H as <- <-. fold user in Hf, Hfirst, Hset, E.
  assert (get_pool user s' = p') as Hp' by (rewrite E; by destruct user).
  pose proof Hset as (Hb & Hc & Hpo & Hbit). assert (used_run p' a n) as Hu.
  { eapply used_run_new; [done|by destruct Hf]. }
  split; [done|]. split; [done|]. split; [by rewrite Hp'|].
  destruct (palloc_free_multiple_spec user a n s' Hok') as (p2 & (Hb2 & Hc2 & _ & Hbit2) & Hr2 & _);
    [unfold in_u32 in Hn; lia|by rewrite Hp'|].
  eexists. split; [exact Hr2|]. intros u i Hi. destruct (decide (u = user)) as [->|Hne].
  - assert (get_pool user (set_mem (mem_set a 204 (PGSIZE * n)) (set_pool user p2 s')) = p2) as -> by by destruct user.
    rewrite Hbit2 by done. rewrite Hp', Hb, Hbit by done. case_decide as Hx; [|done].
    symmetry. by apply (proj2 Hf).
  - assert (get_pool u (set_mem (mem_set a 204 (PGSIZE * n)) (set_pool user p2 s')) = get_pool u s) as ->; [|done].
    rewrite E. by destruct u, user.
Qed.

(** A kernel pool of eight pages, the first three in use, and an empty user pool. *)
Definition sample : palloc :=
  mk_palloc (mk_pool false (mk_bitmap 8 [7]) 1048576) (mk_pool false (mk_bitmap 0 []) 1114112) (λ _, 0).

Lemma sample_ok : palloc_ok sample.
Proof.
  split; [split|split|]; try done.
  - split; [vm_compute; intuition discriminate|]. split; [done|]. repeat constructor; vm_compute; intuition discriminate.
Qed.

End Palloc.
