(* ===== verification/Malloc.v ===== *)
(** * threads/malloc.c: blocks within pages

    The state is the page allocator with its memory ([pal]), the links of the
    free lists as a heap of list elements ([links]), the arena headers at the
    start of pages ([arenas]) and the descriptors.  A free block's first eight
    bytes are its list element: they are in [links] while the block is free and
    among the bytes of the memory otherwise; [to_elem] and [to_bytes] are the
    change of view.  The descriptors stand at [descs_addr], wherever the
    kernel's static data is. *)

From S2P Require Import Prelude Bitmap Palloc KList.
Import Palloc.

Module Malloc.

Record desc := mk_desc { block_size_of : Z; blocks_per_arena : Z; desc_locked : bool }.
Record arena := mk_arena { magic : Z; a_desc : option nat; free_cnt : Z }.
Record mstate := mk_mstate { pal : palloc; links : KList.heap; arenas : gmap Z arena; descs : list desc }.

Definition ARENA_MAGIC : Z := 2589232877.
(** [sizeof (struct arena)] and [sizeof (struct desc)]. *)
Definition ARENA_SIZE : Z := 12.
Definition DESC_SIZE : Z := 48.

Definition set_pal (p : palloc) (s : mstate) : mstate := mk_mstate p (links s) (arenas s) (descs s).
Definition set_links (h : KList.heap) (s : mstate) : mstate := mk_mstate (pal s) h (arenas s) (descs s).
Definition set_arenas (a : gmap Z arena) (s : mstate) : mstate := mk_mstate (pal s) (links s) a (descs s).
Definition set_descs (d : list desc) (s : mstate) : mstate := mk_mstate (pal s) (links s) (arenas s) d.

Definition on_pal {A} (m : stM palloc A) : stM mstate A := λ s,
  match m (pal s) with Ok (a, p) => Ok (a, set_pal p s) | Err e => Err e end.
Definition on_links {A} (m : stM KList.heap A) : stM mstate A := λ s,
  match m (links s) with Ok (a, h) => Ok (a, set_links h s) | Err e => Err e end.
Definition on_mem (f : memory → memory) : stM mstate unit := on_pal (smod (set_mem f)).

(** The eight bytes at [b], seen as a list element, and back. *)
Definition to_elem (b : Z) : stM mstate unit :=
  smod (λ s, set_links (<[b := KList.mk_elem (mem_word b (mem (pal s))) (mem_word (b + 4) (mem (pal s)))]> (links s)) s).
Definition mem_put (p : Z) (l : list Z) (m : memory) : memory :=
  λ a, if decide (p ≤ a) then default (m a) (l !! Z.to_nat (a - p)) else m a.
Definition to_bytes (b : Z) : stM mstate unit :=
  e ← sread (λ s, links s !! b);
  match e with
  | Some e => on_mem (mem_put b (le_bytes 4 (KList.prev e) ++ le_bytes 4 (KList.next e)));;
              smod (λ s, set_links (delete b (links s)) s)
  | None => serr EFault
  end.

Section malloc_c.
Context (descs_addr : Z).

(** [&descs[i].free_list] *)
Definition free_list (i : nat) : Z := descs_addr + DESC_SIZE * Z.of_nat i + 8.

Definition get_desc (i : nat) : stM mstate desc := λ s,
  match descs s !! i with Some d => Ok (d, s) | None => Err EFault end.
Definition get_arena (a : Z) : stM mstate arena := λ s,
  match arenas s !! a with Some ar => Ok (ar, s) | None => Err EFault end.
Definition put_arena (a : Z) (ar : arena) : stM mstate unit := smod (λ s, set_arenas (<[a := ar]> (arenas s)) s).

(** The lock of descriptor [i], by the thread that runs the operation. *)
Definition lock_acquire (i : nat) : stM mstate unit :=
  d ← get_desc i;
  if desc_locked d then serr EAssert
  else smod (λ s, set_descs (<[i := mk_desc (block_size_of d) (blocks_per_arena d) true]> (descs s)) s).
Definition lock_release (i : nat) : stM mstate unit :=
  d ← get_desc i;
  if desc_locked d then smod (λ s, set_descs (<[i := mk_desc (block_size_of d) (blocks_per_arena d) false]> (descs s)) s)
  else serr EAssert.

(** The loop over the block sizes; each iteration doubles the size. *)
Fixpoint init_loop (fuel : nat) (block_size : Z) : stM mstate unit :=
  match fuel with
  | O => serr EFuel
  | S fuel =>
      if block_size <? PGSIZE `div` 2 then
        i ← sread (λ s, length (descs s));
        sassert (Nat.leb (S i) 10);;
        smod (λ s, set_descs (descs s ++ [mk_desc block_size ((PGSIZE - ARENA_SIZE) `div` block_size) false]) s);;
        on_links (KList.list_init (free_list i));;
        init_loop fuel (block_size * 2)
      else mret tt
  end.
Definition malloc_init : stM mstate unit := init_loop 12 16.

Definition block_to_arena (b : Z) : stM mstate Z :=
  let a := pg_round_down b in
  sassert (negb (a =? 0));;
  ar ← get_arena a;
  sassert (magic ar =? ARENA_MAGIC);;
  match a_desc ar with
  | Some i => d ← get_desc i; sassert (u32 (pg_ofs b - ARENA_SIZE) `mod` block_size_of d =? 0)
  | None => sassert (pg_ofs b =? ARENA_SIZE)
  end;;
  mret a.

Definition arena_to_block (a idx : Z) : stM mstate Z :=
  sassert (negb (a =? 0));;
  ar ← get_arena a;
  sassert (magic ar =? ARENA_MAGIC);;
  match a_desc ar with
  | Some i =>
      d ← get_desc i;
      sassert (idx <? blocks_per_arena d);;
      mret (u32 (a + ARENA_SIZE + idx * block_size_of d))
  | None => serr EFault
  end.

(** The first descriptor whose blocks are large enough. *)
Definition find_desc (size : Z) (ds : list desc) : option nat := find_index (λ d, size <=? block_size_of d) ds.

(** Puts the blocks [idx], [idx + 1], ... of a new arena on the free list. *)
Fixpoint carve_loop (n : nat) (i : nat) (a idx : Z) : stM mstate unit :=
  match n with
  | O => mret tt
  | S n =>
      b ← arena_to_block a idx;
      to_elem b;;
      on_links (KList.list_push_back (free_list i) b);;
      carve_loop n i a (idx + 1)
  end.

Definition malloc (size : Z) : stM mstate Z :=
  if size =? 0 then mret 0
  else
    ds ← sread descs;
    match find_desc size ds with
    | None =>
        let page_cnt := u32 (u32 (size + ARENA_SIZE) + PGSIZE - 1) / PGSIZE in
        a ← on_pal (palloc_get_multiple 0 page_cnt);
        if a =? 0 then mret 0
        else put_arena a (mk_arena ARENA_MAGIC None page_cnt);; mret (u32 (a + ARENA_SIZE))
    | Some i =>
        lock_acquire i;;
        d ← get_desc i;
        e ← on_links (KList.list_empty (free_list i));
        ok ← (if (e : bool) then
                a ← on_pal (palloc_get_page 0);
                if a =? 0 then lock_release i;; mret false
                else
                  put_arena a (mk_arena ARENA_MAGIC (Some i) (blocks_per_arena d));;
                  carve_loop (Z.to_nat (blocks_per_arena d)) i a 0;;
                  mret true
              else mret true);
        if (ok : bool) then
          b ← on_links (KList.list_pop_front (free_list i));
          to_bytes b;;
          a ← block_to_arena b;
          ar ← get_arena a;
          put_arena a (mk_arena (magic ar) (a_desc ar) (u32 (free_cnt ar - 1)));;
          lock_release i;;
          mret b
        else mret 0
    end.

Definition calloc (a b : Z) : stM mstate Z :=
  let size := u32 (a * b) in
  if (size <? a) || (size <? b) then mret 0
  else
    p ← malloc size;
    (if p =? 0 then mret tt else on_mem (mem_set p 0 size));;
    mret p.

Definition block_size (block : Z) : stM mstate Z :=
  a ← block_to_arena block;
  ar ← get_arena a;
  match a_desc ar with
  | Some i => d ← get_desc i; mret (block_size_of d)
  | None => mret (u32 (PGSIZE * free_cnt ar - pg_ofs block))
  end.

(** Takes the blocks of an arena off the free list. *)
Fixpoint withdraw_loop (n : nat) (a idx : Z) : stM mstate unit :=
  match n with
  | O => mret tt
  | S n =>
      b ← arena_to_block a idx;
      _ ← on_links (KList.list_remove b);
      to_bytes b;;
      withdraw_loop n a (idx + 1)
  end.

(** The header of an arena is gone with its page. *)
Definition drop_arena (a : Z) : stM mstate unit := smod (λ s, set_arenas (delete a (arenas s)) s).

Definition free (p : Z) : stM mstate unit :=
  if p =? 0 then mret tt
  else
    a ← block_to_arena p;
    ar ← get_arena a;
    match a_desc ar with
    | Some i =>
        d ← get_desc i;
        on_mem (mem_set p 204 (block_size_of d));;
        lock_acquire i;;
        to_elem p;;
        on_links (KList.list_push_front (free_list i) p);;
        let cnt := u32 (free_cnt ar + 1) in
        put_arena a (mk_arena (magic ar) (a_desc ar) cnt);;
        (if blocks_per_arena d <=? cnt then
           sassert (cnt =? blocks_per_arena d);;
           withdraw_loop (Z.to_nat (blocks_per_arena d)) a 0;;
           on_pal (palloc_free_page a);;
           drop_arena a
         else mret tt);;
        lock_release i
    | None => on_pal (palloc_free_multiple a (free_cnt ar));; drop_arena a
    end.

Definition realloc (old_block new_size : Z) : stM mstate Z :=
  if new_size =? 0 then free old_block;; mret 0
  else
    new_block ← malloc new_size;
    (if negb (old_block =? 0) && negb (new_block =? 0) then
       old_size ← block_size old_block;
       let min_size := if new_size <? old_size then new_size else old_size in
       on_mem (mem_copy new_block old_block min_size);;
       free old_block
     else mret tt);;
    mret new_block.
End malloc_c.

End Malloc.
