(* ===== verification/MallocSpec.v ===== *)
(** * The block allocator hands out disjoint blocks

    The invariant of threads/malloc.c relates the arenas, the free lists and
    the pages in use to the map [live] of the blocks that are handed out: their
    addresses and sizes.  Every operation keeps it; blocks that are handed out
    never overlap, and no operation touches the bytes of another live block. *)

From S2P Require Import Prelude Bitmap Palloc KList ListFamily Malloc.
Import Palloc Malloc.

(** ** Blocks of an arena *)

(** The sizes of the seven descriptors' blocks. *)
Definition bs (i : nat) : Z := 16 * 2 ^ Z.of_nat i.
Definition bpa (i : nat) : Z := (PGSIZE - ARENA_SIZE) `div` bs i.
Definition std_descs : list desc := (λ i, mk_desc (bs i) (bpa i) false) <$> seq 0 7.

Definition block (a : Z) (i : nat) (j : Z) : Z := a + ARENA_SIZE + j * bs i.

Lemma below7 (P : nat → Prop) : P 0%nat → P 1%nat → P 2%nat → P 3%nat → P 4%nat → P 5%nat → P 6%nat → ∀ i, (i < 7)%nat → P i.
Proof. intros. do 7 (destruct i as [|i]; [done|]). lia. Qed.

Lemma bs_bounds i : (i < 7)%nat → 16 ≤ bs i ≤ 1024 ∧ 3 ≤ bpa i ≤ 255.
Proof. revert i. apply below7; vm_compute; intuition discriminate. Qed.

Lemma std_lookup i d : std_descs !! i = Some d ↔ (i < 7)%nat ∧ d = mk_desc (bs i) (bpa i) false.
Proof.
  unfold std_descs. rewrite list_lookup_fmap, fmap_Some. setoid_rewrite lookup_seq. split.
  - intros (x & [-> ?] & ->). done.
  - intros [? ->]. exists i. done.
Qed.

Lemma block_fits a i j : (i < 7)%nat → 0 ≤ j < bpa i → a + ARENA_SIZE ≤ block a i j ∧ block a i j + bs i ≤ a + PGSIZE.
Proof.
  intros Hi Hj. destruct (bs_bounds i Hi) as [Hb _]. unfold block, bpa, ARENA_SIZE, PGSIZE in *.
  pose proof (Z.mul_div_le (4096 - 12) (bs i)). nia.
Qed.

Lemma block_inj a i j1 j2 : (i < 7)%nat → block a i j1 = block a i j2 → j1 = j2.
Proof. intros Hi. destruct (bs_bounds i Hi) as [Hb _]. unfold block. nia. Qed.

(** Two blocks of an arena are the same or apart. *)
Lemma block_apart a i j1 j2 : (i < 7)%nat → j1 ≠ j2 → block a i j1 + bs i ≤ block a i j2 ∨ block a i j2 + bs i ≤ block a i j1.
Proof. intros Hi Hne. destruct (bs_bounds i Hi) as [Hb _]. unfold block. nia. Qed.

(** ** The invariant *)

Section allocator.
Context (descs_addr : Z).
Implicit Types s : mstate.

Abbreviation fl := (free_list descs_addr).

Definition pages_of (ar : arena) : Z := match a_desc ar with Some _ => 1 | None => free_cnt ar end.

(** How many of the blocks [xs] lie in the page at [a]. *)
Definition count_in (a : Z) (xs : list Z) : Z := Z.of_nat (length (filter (λ b, a ≤ b < a + PGSIZE) xs)).

Definition arena_ok (M : gmap Z (list Z)) (a : Z) (ar : arena) : Prop :=
  match a_desc ar with
  | Some i => (i < 7)%nat ∧ ∃ xs, M !! fl i = Some xs ∧ free_cnt ar = count_in a xs
  | None => True
  end.

(** The block at [b] of [n] bytes is handed out. *)
Definition block_of (M : gmap Z (list Z)) (a : Z) (ar : arena) (b n : Z) : Prop :=
  match a_desc ar with
  | Some i => ∃ j, 0 ≤ j < bpa i ∧ b = block a i j ∧ n = bs i ∧ ∀ xs, M !! fl i = Some xs → b ∉ xs
  | None => b = a + ARENA_SIZE ∧ n = PGSIZE * free_cnt ar - ARENA_SIZE
  end.
Definition handed_out s (M : gmap Z (list Z)) (b n : Z) : Prop :=
  ∃ a ar, arenas s !! a = Some ar ∧ block_of M a ar b n.

Record inv s (M : gmap Z (list Z)) (live : gmap Z Z) : Prop := {
  i_pal : palloc_ok (pal s);
  i_descs : descs s = std_descs;
  i_static : 0 < descs_addr ∧ descs_addr + 10 * DESC_SIZE ≤ base (kernel_pool (pal s));
  i_family : lists (links s) M;
  i_heads i : (i < 7)%nat → is_Some (M !! fl i);
  i_exact l xs : M !! l = Some xs → ∃ i, (i < 7)%nat ∧ l = fl i;
  i_magic a ar : arenas s !! a = Some ar → magic ar = ARENA_MAGIC ∧ 0 < pages_of ar;
  i_used a ar : arenas s !! a = Some ar → used_run (kernel_pool (pal s)) a (pages_of ar);
  i_arena a ar : arenas s !! a = Some ar → arena_ok M a ar;
  i_disj a1 a2 ar1 ar2 : arenas s !! a1 = Some ar1 → arenas s !! a2 = Some ar2 → a1 < a2 → a1 + PGSIZE * pages_of ar1 ≤ a2;
  i_free i xs b : M !! fl i = Some xs → b ∈ xs →
    ∃ a ar j, arenas s !! a = Some ar ∧ a_desc ar = Some i ∧ 0 ≤ j < bpa i ∧ b = block a i j;
  i_live b n : live !! b = Some n ↔ handed_out s M b n;
}.

(** Small arenas with all their blocks free have been given back. *)
Definition no_idle s : Prop :=
  ∀ a ar i, arenas s !! a = Some ar → a_desc ar = Some i → free_cnt ar < bpa i.

(** ** Where arenas are *)

Lemma arena_range s M live a ar :
  inv s M live → arenas s !! a = Some ar →
  base (kernel_pool (pal s)) ≤ a ∧ a + PGSIZE * pages_of ar ≤ pool_end (kernel_pool (pal s)) ∧ a mod PGSIZE = 0.
Proof.
  intros Hi Ha. destruct (i_used _ _ _ Hi a ar Ha) as [(k & Hk & Hin & ->) _]. unfold pool_end.
  destruct (pa_kernel _ (i_pal _ _ _ Hi)) as [_ _ Hal _ _]. unfold PGSIZE in *. split_and!; [lia|lia|]. dlia.
Qed.

Lemma arena_u32 s M live a ar :
  inv s M live → arenas s !! a = Some ar → 0 < a ∧ a + PGSIZE * pages_of ar ≤ W32 ∧ a + PGSIZE ≤ W32.
Proof.
  intros Hi Ha. destruct (arena_range s M live a ar Hi Ha) as (H1 & H2 & H3).
  destruct (pa_kernel _ (i_pal _ _ _ Hi)) as [_ ? _ He _]. destruct (i_magic _ _ _ Hi a ar Ha) as [_ Hp].
  unfold pool_end, PGSIZE in *. lia.
Qed.

(** Pages of different arenas are different. *)
Lemma same_arena s M live a1 a2 ar1 ar2 x :
  inv s M live → arenas s !! a1 = Some ar1 → arenas s !! a2 = Some ar2 →
  a1 ≤ x < a1 + PGSIZE * pages_of ar1 → a2 ≤ x < a2 + PGSIZE * pages_of ar2 → a1 = a2.
Proof.
  intros Hi H1 H2 Hx1 Hx2. destruct (Z.lt_trichotomy a1 a2) as [Hlt|[?|Hlt]]; [|done|].
  - pose proof (i_disj _ _ _ Hi _ _ _ _ H1 H2 Hlt). lia.
  - pose proof (i_disj _ _ _ Hi _ _ _ _ H2 H1 Hlt). lia.
Qed.

(** A live block lies in its arena, after the header. *)
Lemma block_of_range s M live a ar b n :
  inv s M live → arenas s !! a = Some ar → block_of M a ar b n →
  0 < n ∧ a + ARENA_SIZE ≤ b ∧ b + n ≤ a + PGSIZE * pages_of ar.
Proof.
  intros Hi Ha Hb. pose proof (i_arena _ _ _ Hi a ar Ha) as Hok. destruct (i_magic _ _ _ Hi a ar Ha) as [_ Hp].
  unfold block_of, arena_ok, pages_of in *. destruct (a_desc ar) as [i|].
  - destruct Hb as (j & Hj & -> & -> & _). destruct Hok as [Hi7 _]. destruct (bs_bounds i Hi7).
    pose proof (block_fits a i j Hi7 Hj). lia.
  - destruct Hb as [-> ->]. unfold ARENA_SIZE, PGSIZE in *. lia.
Qed.

(** Live blocks do not overlap. *)
Lemma live_disjoint s M live b1 n1 b2 n2 :
  inv s M live → live !! b1 = Some n1 → live !! b2 = Some n2 → b1 ≠ b2 → b1 + n1 ≤ b2 ∨ b2 + n2 ≤ b1.
Proof.
  intros Hi (a1 & ar1 & Ha1 & H1)%(i_live _ _ _ Hi) (a2 & ar2 & Ha2 & H2)%(i_live _ _ _ Hi) Hne.
  destruct (block_of_range _ _ _ _ _ _ _ Hi Ha1 H1) as (Hn1 & Hl1 & Hr1).
  destruct (block_of_range _ _ _ _ _ _ _ Hi Ha2 H2) as (Hn2 & Hl2 & Hr2).
  destruct (Z.lt_trichotomy a1 a2) as [Hlt|[<-|Hlt]].
  - pose proof (i_disj _ _ _ Hi _ _ _ _ Ha1 Ha2 Hlt). unfold ARENA_SIZE in *. lia.
  - simplify_eq. pose proof (i_arena _ _ _ Hi _ _ Ha1) as Hok. unfold block_of, arena_ok in *.
    destruct (a_desc ar1) as [i|]; [|destruct H1, H2; congruence].
    destruct H1 as (j1 & Hj1 & -> & -> & _), H2 as (j2 & Hj2 & -> & -> & _). destruct Hok as [Hi7 _].
    apply block_apart; [done|]. by intros ->.
  - pose proof (i_disj _ _ _ Hi _ _ _ _ Ha2 Ha1 Hlt). unfold ARENA_SIZE in *. lia.
Qed.

(** ** From a block to its arena *)

Lemma get_desc_run s i : descs s = std_descs → (i < 7)%nat → get_desc i s = Ok (mk_desc (bs i) (bpa i) false, s).
Proof. intros Hd Hi. unfold get_desc. by rewrite Hd, (proj2 (std_lookup i (mk_desc (bs i) (bpa i) false))). Qed.

Lemma block_to_arena_run s a ar b o :
  arenas s !! a = Some ar → magic ar = ARENA_MAGIC → 0 < a → a + PGSIZE ≤ W32 → a mod PGSIZE = 0 →
  b = a + o → 0 ≤ o < PGSIZE →
  match a_desc ar with
  | Some i => ∃ d j, descs s !! i = Some d ∧ block_size_of d = bs i ∧ (i < 7)%nat ∧ 0 ≤ j < bpa i ∧ b = block a i j
  | None => o = ARENA_SIZE
  end → block_to_arena b s = Ok (a, s).
Proof.
  intros Ha Hm Ha0 Hw Hal -> Ho Hb. unfold block_to_arena.
  rewrite pg_round_down_add by (done || unfold in_u32, PGSIZE in *; lia).
  rewrite (proj2 (Z.eqb_neq a 0)) by lia. erewrite stM_bind_run by reflexivity.
  erewrite stM_bind_run by (unfold get_arena; rewrite Ha; reflexivity). rewrite Hm, Z.eqb_refl.
  erewrite stM_bind_run by reflexivity.
  assert (pg_ofs (a + o) = o) as Hofs by (rewrite pg_ofs_mod; unfold PGSIZE in *; dlia). rewrite Hofs.
  destruct (a_desc ar) as [i|].
  - destruct Hb as (d & j & Hd & Hbs & Hi & Hj & E). destruct (block_fits a i j Hi Hj). destruct (bs_bounds i Hi).
    rewrite stM_bind_eq. erewrite stM_bind_run by (unfold get_desc; rewrite Hd; reflexivity). rewrite Hbs.
    assert (o - ARENA_SIZE = j * bs i) as -> by (unfold block in E; lia).
    rewrite u32_small by (unfold in_u32, block, ARENA_SIZE, PGSIZE in *; lia). rewrite Z_mod_mult. done.
  - rewrite Hb, stM_bind_eq. done.
Qed.

(** ** How the invariant changes *)

Lemma fl_inj i j : fl i = fl j → i = j.
Proof. unfold free_list, DESC_SIZE. lia. Qed.

Lemma count_cons a b xs : count_in a (b :: xs) = (if decide (a ≤ b < a + PGSIZE) then 1 else 0) + count_in a xs.
Proof. unfold count_in. rewrite filter_cons. case_decide; simpl; lia. Qed.

Lemma count_perm a xs ys : xs ≡ₚ ys → count_in a xs = count_in a ys.
Proof. intros Hp. unfold count_in. by rewrite Hp. Qed.

(** A block is in the page of its arena and of no other. *)
Lemma block_in_page s M live a ar a2 ar2 i j :
  inv s M live → arenas s !! a = Some ar → arenas s !! a2 = Some ar2 → a_desc ar = Some i → 0 ≤ j < bpa i →
  a2 ≤ block a i j < a2 + PGSIZE → a2 = a.
Proof.
  intros Hi Ha Ha2 Hd Hj Hb. pose proof (i_arena _ _ _ Hi a ar Ha) as Hok. unfold arena_ok in Hok. rewrite Hd in Hok.
  destruct Hok as [Hi7 _]. pose proof (block_fits a i j Hi7 Hj). destruct (bs_bounds i Hi7) as [? _].
  destruct (i_magic _ _ _ Hi a2 ar2 Ha2) as [_ Hp2]. destruct (i_magic _ _ _ Hi a ar Ha) as [_ Hp].
  symmetry. eapply (same_arena s M live a a2 ar ar2 (block a i j)); [done..| |]; unfold PGSIZE, ARENA_SIZE in *; lia.
Qed.

(** The other blocks are handed out as they were. *)
Lemma handed_out_others s s' M a ar i j xs xs' c b n :
  arenas s !! a = Some ar → a_desc ar = Some i → M !! fl i = Some xs →
  arenas s' = <[a := mk_arena (magic ar) (a_desc ar) c]> (arenas s) →
  (∀ b, b ≠ block a i j → b ∈ xs' ↔ b ∈ xs) → b ≠ block a i j →
  handed_out s' (<[fl i := xs']> M) b n ↔ handed_out s M b n.
Proof.
  intros Ha Hd HM Har Hxs Hb.
  assert (∀ k, (∀ ys, <[fl i := xs']> M !! fl k = Some ys → b ∉ ys) ↔ (∀ ys, M !! fl k = Some ys → b ∉ ys)) as HF.
  { intros k. destruct (decide (k = i)) as [->|Hne].
    - rewrite lookup_insert_eq, HM. split; intros H ys [= <-]; [rewrite <- (Hxs b Hb)|rewrite (Hxs b Hb)]; by apply H.
    - by rewrite lookup_insert_ne by (intros ?%fl_inj; congruence). }
  assert (∀ a2 ar2, block_of (<[fl i := xs']> M) a2 ar2 b n ↔ block_of M a2 ar2 b n) as HB.
  { intros a2 ar2. unfold block_of. destruct (a_desc ar2) as [k|]; [|done]. setoid_rewrite HF. done. }
  split; intros (a2 & ar2 & H2 & Hbo).
  - rewrite Har in H2. destruct (decide (a2 = a)) as [->|Hne].
    + rewrite lookup_insert_eq in H2. injection H2 as <-. exists a, ar. split; [done|].
      apply HB in Hbo. unfold block_of in *. simpl in Hbo. by rewrite Hd in *.
    + rewrite lookup_insert_ne in H2 by done. exists a2, ar2. split; [done|]. by apply HB.
  - exists a2. rewrite Har. destruct (decide (a2 = a)) as [->|Hne].
    + rewrite lookup_insert_eq. eexists. split; [done|]. simplify_eq. apply HB.
      unfold block_of in *. simpl. by rewrite Hd in *.
    + rewrite lookup_insert_ne by done. exists ar2. split; [done|]. by apply HB.
Qed.

(** One block of a small arena goes on or off the free list. *)
Lemma inv_block s s' M live live' a ar i j xs xs' c :
  inv s M live → arenas s !! a = Some ar → a_desc ar = Some i → 0 ≤ j < bpa i → M !! fl i = Some xs →
  lists (links s') (<[fl i := xs']> M) → palloc_ok (pal s') → kernel_pool (pal s') = kernel_pool (pal s) →
  descs s' = std_descs → arenas s' = <[a := mk_arena (magic ar) (a_desc ar) c]> (arenas s) →
  (∀ b, b ≠ block a i j → b ∈ xs' ↔ b ∈ xs) → c = count_in a xs' →
  (∀ a2, a2 ≠ a → is_Some (arenas s !! a2) → count_in a2 xs' = count_in a2 xs) →
  (∀ b, b ≠ block a i j → live' !! b = live !! b) →
  live' !! block a i j = (if decide (block a i j ∈ xs') then None else Some (bs i)) →
  inv s' (<[fl i := xs']> M) live'.
Proof.
  intros Hi Ha Hd Hj HM Hl Hpal Hk Hds Har Hxs Hc Hc2 Hlive Hb.
  pose proof (i_arena _ _ _ Hi a ar Ha) as Hok. unfold arena_ok in Hok. rewrite Hd in Hok. destruct Hok as [Hi7 _].
  assert (∀ a2 ar2, arenas s' !! a2 = Some ar2 → ∃ ar0, arenas s !! a2 = Some ar0 ∧ a_desc ar2 = a_desc ar0 ∧
    magic ar2 = magic ar0 ∧ pages_of ar2 = pages_of ar0 ∧ (a2 = a ∧ ar0 = ar ∧ free_cnt ar2 = c ∨ a2 ≠ a ∧ ar2 = ar0)) as Hold.
  { intros a2 ar2. rewrite Har. destruct (decide (a2 = a)) as [->|Hne].
    - rewrite lookup_insert_eq. intros [= <-]. exists ar. unfold pages_of. simpl. rewrite Hd. eauto 10.
    - rewrite lookup_insert_ne by done. intros H2. exists ar2. eauto 10. }
  assert (∀ k ys, <[fl i := xs']> M !! fl k = Some ys → k = i ∧ ys = xs' ∨ k ≠ i ∧ M !! fl k = Some ys) as HM'.
  { intros k ys. destruct (decide (k = i)) as [->|Hne]; [rewrite lookup_insert_eq; intros [= <-]; by left|].
    rewrite lookup_insert_ne by (intros ?%fl_inj; congruence). by right. }
  split; try done; rewrite ?Hk.
  - apply Hi.
  - intros k Hk7. destruct (decide (k = i)) as [->|Hne]; [by rewrite lookup_insert_eq|].
    rewrite lookup_insert_ne by (intros ?%fl_inj; congruence). by apply (i_heads _ _ _ Hi).
  - intros l ys Hly. destruct (decide (l = fl i)) as [->|Hne]; [by exists i|]. rewrite lookup_insert_ne in Hly by done.
    by eapply i_exact.
  - intros a2 ar2 (ar0 & H0 & _ & -> & -> & _)%Hold. by eapply i_magic.
  - intros a2 ar2 (ar0 & H0 & _ & _ & -> & _)%Hold. by eapply i_used.
  - intros a2 ar2 (ar0 & H0 & Hd2 & _ & _ & Hcase)%Hold. pose proof (i_arena _ _ _ Hi _ _ H0) as Hok. unfold arena_ok in *.
    rewrite Hd2. destruct (a_desc ar0) as [k|] eqn:Hdk; [|done]. destruct Hok as (Hk7 & ys & Hys & Hcnt). split; [done|].
    destruct (decide (k = i)) as [->|Hne].
    + exists xs'. rewrite lookup_insert_eq. split; [done|].
      destruct Hcase as [(-> & -> & ->)|[Hne ->]]; [done|]. rewrite Hc2 by eauto. congruence.
    + exists ys. rewrite lookup_insert_ne by (intros ?%fl_inj; congruence). split; [done|].
      destruct Hcase as [(-> & -> & _)|[_ ->]]; [congruence|done].
  - intros a1 a2 ar1 ar2 (ar01 & H1 & _ & _ & -> & _)%Hold (ar02 & H2 & _)%Hold. by eapply i_disj.
  - intros k ys b [[-> ->]|[Hne Hys]]%HM' Hin.
    + destruct (decide (b = block a i j)) as [->|Hnb].
      * exists a, (mk_arena (magic ar) (a_desc ar) c), j. by rewrite Har, lookup_insert_eq.
      * apply Hxs in Hin; [|done]. destruct (i_free _ _ _ Hi i xs b HM Hin) as (a2 & ar2 & j2 & H2 & Hd2 & Hj2 & ->).
        rewrite Har. destruct (decide (a2 = a)) as [->|Hna]; [|exists a2, ar2, j2; by rewrite lookup_insert_ne].
        exists a, (mk_arena (magic ar) (a_desc ar) c), j2. by rewrite lookup_insert_eq.
    + destruct (i_free _ _ _ Hi k ys b Hys Hin) as (a2 & ar2 & j2 & H2 & Hd2 & Hj2 & ->).
      exists a2, ar2, j2. rewrite Har, lookup_insert_ne; [done|]. intros <-. congruence.
  - intros b n. destruct (decide (b = block a i j)) as [->|Hnb].
    + rewrite Hb. split.
      * case_decide as Hin; [done|]. intros [= <-]. exists a, (mk_arena (magic ar) (a_desc ar) c).
        rewrite Har, lookup_insert_eq. split; [done|]. unfold block_of. simpl. rewrite Hd. exists j. do 3 (split; [done|]).
        rewrite lookup_insert_eq. by intros ys [= <-].
      * intros (a2 & ar2 & H2 & Hbo). destruct (Hold _ _ H2) as (ar0 & H0 & Hd2 & _ & _ & Hcase).
        assert (a2 = a) as ->.
        { destruct Hcase as [[-> _]|[Hne ->]]; [done|]. unfold block_of in Hbo.
          pose proof (i_arena _ _ _ Hi _ _ H0) as Hok2. unfold arena_ok in Hok2. destruct (a_desc ar0) as [k|] eqn:Hdk.
          - destruct Hbo as (j2 & Hj2 & E & _). destruct Hok2 as [Hk7 _]. pose proof (block_fits a2 k j2 Hk7 Hj2).
            destruct (bs_bounds k Hk7). eapply (block_in_page s M live a ar a2 ar0 i j); try done. unfold ARENA_SIZE in *. lia.
          - destruct Hbo as [E _]. eapply (block_in_page s M live a ar a2 ar0 i j); try done. unfold ARENA_SIZE, PGSIZE in *. lia. }
        rewrite Har, lookup_insert_eq in H2. injection H2 as <-. unfold block_of in Hbo. simpl in Hbo. rewrite Hd in Hbo.
        destruct Hbo as (j2 & _ & _ & -> & Hnin). rewrite decide_False; [done|]. apply Hnin. by rewrite lookup_insert_eq.
    + rewrite (Hlive b Hnb), (i_live _ _ _ Hi). symmetry. by eapply handed_out_others.
Qed.

(** ** Pages come and go *)

(** What concerns only the arenas and their pages. *)
Definition pages_ok s : Prop :=
  (∀ a ar, arenas s !! a = Some ar → (magic ar = ARENA_MAGIC ∧ 0 < pages_of ar) ∧ used_run (kernel_pool (pal s)) a (pages_of ar)) ∧
  (∀ a1 a2 ar1 ar2, arenas s !! a1 = Some ar1 → arenas s !! a2 = Some ar2 → a1 < a2 → a1 + PGSIZE * pages_of ar1 ≤ a2).

Lemma inv_pages s M live : inv s M live → pages_ok s.
Proof.
  intros Hi. split; [|by intros; eapply i_disj]. intros a ar Ha. split; [by eapply i_magic|by eapply i_used].
Qed.

Lemma pages_new s s' a ar :
  pages_ok s → arenas s' = <[a := ar]> (arenas s) → magic ar = ARENA_MAGIC → 0 < pages_of ar →
  free_run (kernel_pool (pal s)) a (pages_of ar) →
  pool_set (kernel_pool (pal s)) (kernel_pool (pal s')) a (pages_of ar) true → pages_ok s'.
Proof.
  intros [Ho Hd] Har Hm Hp Hf Hset.
  assert (∀ a2 ar2, arenas s !! a2 = Some ar2 → a2 + PGSIZE * pages_of ar2 ≤ a ∨ a + PGSIZE * pages_of ar ≤ a2) as Hap.
  { intros a2 ar2 H2. destruct (Ho _ _ H2) as [[_ ?] ?]. by eapply free_apart. }
  split; rewrite Har.
  - intros a2 ar2. destruct (decide (a = a2)) as [<-|Hne].
    + rewrite lookup_insert_eq. intros [= <-]. split; [done|]. eapply used_run_new; [done|by destruct Hf].
    + rewrite lookup_insert_ne by done. intros H2. destruct (Ho _ _ H2) as [? ?]. split; [done|].
      eapply used_run_set; [done..|]. by left.
  - intros a1 a2 ar1 ar2. unfold PGSIZE in *.
    destruct (decide (a = a1)) as [<-|N1], (decide (a = a2)) as [<-|N2];
      rewrite ?lookup_insert_eq, ?lookup_insert_ne by done; intros H1 H2 Hlt; simplify_eq; [lia|..|by eapply Hd].
    + destruct (Hap _ _ H2); [|done]. destruct (Ho _ _ H2) as [[_ ?] _]. lia.
    + destruct (Hap _ _ H1); [done|]. lia.
Qed.

Lemma pages_drop s s' a ar :
  pages_ok s → arenas s !! a = Some ar → arenas s' = delete a (arenas s) →
  pool_set (kernel_pool (pal s)) (kernel_pool (pal s')) a (pages_of ar) false → pages_ok s'.
Proof.
  intros [Ho Hd] Ha Har Hset. split; rewrite Har.
  - intros a2 ar2 [Hne H2]%lookup_delete_Some. destruct (Ho _ _ H2) as [Hm Hu]. split; [done|].
    eapply used_run_set; [done..|]. right. destruct (Z.lt_trichotomy a a2) as [Hlt|[?|Hlt]]; [|done|].
    + right. by eapply (Hd a a2).
    + left. by eapply (Hd a2 a).
  - intros a1 a2 ar1 ar2 [_ H1]%lookup_delete_Some [_ H2]%lookup_delete_Some. by eapply Hd.
Qed.

(** The pages of a new arena hold no list element and no other arena's block. *)
Lemma new_page_apart s M live a n l xs b :
  inv s M live → free_run (kernel_pool (pal s)) a n → 0 < n → M !! l = Some xs → b ∈ KList.ring l xs →
  b < a ∨ a + PGSIZE * n ≤ b.
Proof.
  intros Hi Hf Hn Hl Hb. destruct (i_exact _ _ _ Hi l xs Hl) as (i & Hi7 & ->).
  pose proof (i_static _ _ _ Hi) as [_ Hst]. destruct Hf as [(k & Hk & Hin & E) Hf].
  apply KList.in_ring in Hb as [->|[Hb| ->]].
  - left. unfold free_list, DESC_SIZE, PGSIZE in *. lia.
  - destruct (i_free _ _ _ Hi i xs b Hl Hb) as (a2 & ar2 & j & Ha2 & Hd2 & Hj & ->).
    pose proof (block_fits a2 i j Hi7 Hj). destruct (bs_bounds i Hi7). destruct (i_magic _ _ _ Hi _ _ Ha2) as [_ Hp].
    pose proof (i_used _ _ _ Hi _ _ Ha2) as Hu.
    destruct (free_apart (kernel_pool (pal s)) a n a2 (pages_of ar2)) as [?|?]; [by split; [exists k|]|done|done|done|..];
      unfold ARENA_SIZE, PGSIZE in *; lia.
  - left. unfold free_list, DESC_SIZE, PGSIZE in *. lia.
Qed.

Lemma inv_new_big s s' M live a n :
  inv s M live → 0 < n → free_run (kernel_pool (pal s)) a n → palloc_ok (pal s') →
  pool_set (kernel_pool (pal s)) (kernel_pool (pal s')) a n true →
  links s' = links s → descs s' = std_descs → arenas s' = <[a := mk_arena ARENA_MAGIC None n]> (arenas s) →
  inv s' M (<[a + ARENA_SIZE := PGSIZE * n - ARENA_SIZE]> live).
Proof.
  intros Hi Hn Hf Hpal Hset Hl Hds Har.
  destruct (pages_new s s' a (mk_arena ARENA_MAGIC None n)) as [Ho Hd]; [by eapply inv_pages|done..|].
  assert (arenas s !! a = None) as Hnone.
  { apply eq_None_not_Some. intros [ar Ha]. destruct (i_magic _ _ _ Hi _ _ Ha) as [_ Hp].
    destruct (free_apart _ _ _ _ _ Hf (i_used _ _ _ Hi _ _ Ha) Hn Hp); unfold PGSIZE in *; lia. }
  split; try done.
  - destruct (i_static _ _ _ Hi) as [? ?]. split; [done|]. destruct Hset as [-> _]. done.
  - rewrite Hl. apply Hi.
  - apply Hi.
  - apply Hi.
  - intros a2 ar2 H2. by destruct (Ho _ _ H2).
  - intros a2 ar2 H2. by destruct (Ho _ _ H2).
  - intros a2 ar2. rewrite Har. destruct (decide (a = a2)) as [<-|Hne].
    + rewrite lookup_insert_eq. by intros [= <-].
    + rewrite lookup_insert_ne by done. apply (i_arena _ _ _ Hi).
  - intros i xs b HM Hb. destruct (i_free _ _ _ Hi i xs b HM Hb) as (a2 & ar2 & j & H2 & ?).
    exists a2, ar2, j. rewrite Har, lookup_insert_ne; [done|congruence].
  - intros b m. split.
    + intros [[<- <-]|[Hne Hb]]%lookup_insert_Some.
      * exists a, (mk_arena ARENA_MAGIC None n). by rewrite Har, lookup_insert_eq.
      * apply (i_live _ _ _ Hi) in Hb as (a2 & ar2 & H2 & Hbo). exists a2, ar2. rewrite Har, lookup_insert_ne; [done|congruence].
    + intros (a2 & ar2 & H2 & Hbo). rewrite Har in H2. apply lookup_insert_Some in H2 as [[<- <-]|[Hne H2]].
      * destruct Hbo as [-> ->]. by rewrite lookup_insert_eq.
      * destruct (block_of_range _ _ _ _ _ _ _ Hi H2 Hbo) as (Hm & Hlo & Hhi). destruct (i_magic _ _ _ Hi _ _ H2) as [_ Hp].
        rewrite lookup_insert_ne; [apply (i_live _ _ _ Hi); by exists a2, ar2|]. intros <-.
        destruct (free_apart _ _ _ _ _ Hf (i_used _ _ _ Hi _ _ H2) Hn Hp); unfold PGSIZE, ARENA_SIZE in *; lia.
Qed.

(** All blocks of a small arena. *)
Definition blocks (a : Z) (i : nat) : list Z := (λ j : nat, block a i (Z.of_nat j)) <$> seq 0 (Z.to_nat (bpa i)).

Lemma in_blocks a i b : (i < 7)%nat → b ∈ blocks a i ↔ ∃ j, 0 ≤ j < bpa i ∧ b = block a i j.
Proof.
  intros Hi. unfold blocks. rewrite list_elem_of_fmap. split.
  - intros (j & -> & Hj%elem_of_seq). exists (Z.of_nat j). split; [lia|done].
  - intros (j & Hj & ->). exists (Z.to_nat j). rewrite Z2Nat.id by lia. split; [done|]. apply elem_of_seq. lia.
Qed.

Lemma nodup_blocks a i : (i < 7)%nat → NoDup (blocks a i).
Proof.
  intros Hi. apply NoDup_fmap_2_strong; [|apply NoDup_seq]. intros j1 j2 _ _ H%block_inj; [lia|done].
Qed.

Lemma length_blocks a i : (i < 7)%nat → Z.of_nat (length (blocks a i)) = bpa i.
Proof. intros Hi. destruct (bs_bounds i Hi). unfold blocks. rewrite length_fmap, length_seq. lia. Qed.

Lemma count_app a xs ys : count_in a (xs ++ ys) = count_in a xs + count_in a ys.
Proof. unfold count_in. rewrite filter_app, length_app. lia. Qed.

Lemma count_all a xs : (∀ b, b ∈ xs → a ≤ b < a + PGSIZE) → count_in a xs = Z.of_nat (length xs).
Proof.
  induction xs as [|b xs IH]; intros H; [done|]. rewrite count_cons, decide_True by (apply H; by left).
  rewrite IH by (intros; apply H; by right). simpl. lia.
Qed.
Lemma count_none a xs : (∀ b, b ∈ xs → ¬ a ≤ b < a + PGSIZE) → count_in a xs = 0.
Proof.
  induction xs as [|b xs IH]; intros H; [done|]. rewrite count_cons, decide_False by (apply H; by left).
  rewrite IH by (intros; apply H; by right). lia.
Qed.

Lemma blocks_page a i b : (i < 7)%nat → b ∈ blocks a i → a + ARENA_SIZE ≤ b ∧ b + bs i ≤ a + PGSIZE.
Proof. intros Hi (j & Hj & ->)%in_blocks; [|done]. by apply block_fits. Qed.

(** A family in which one list is replaced. *)
Lemma family_insert (M : gmap Z (list Z)) i xs' k ys :
  <[fl i := xs']> M !! fl k = Some ys → k = i ∧ ys = xs' ∨ k ≠ i ∧ M !! fl k = Some ys.
Proof.
  destruct (decide (k = i)) as [->|Hne]; [rewrite lookup_insert_eq; intros [= <-]; by left|].
  rewrite lookup_insert_ne by (intros ?%fl_inj; congruence). by right.
Qed.

Lemma inv_new_small s s' M live a i :
  let ar := mk_arena ARENA_MAGIC (Some i) (bpa i) in
  inv s M live → (i < 7)%nat → M !! fl i = Some [] → free_run (kernel_pool (pal s)) a 1 → palloc_ok (pal s') →
  pool_set (kernel_pool (pal s)) (kernel_pool (pal s')) a 1 true →
  lists (links s') (<[fl i := blocks a i]> M) → descs s' = std_descs → arenas s' = <[a := ar]> (arenas s) →
  inv s' (<[fl i := blocks a i]> M) live.
Proof.
  intros ar Hi Hi7 HM Hf Hpal Hset Hl Hds Har. destruct (bs_bounds i Hi7) as [Hbs Hbpa].
  destruct (pages_new s s' a ar) as [Ho Hd]; [by eapply inv_pages|done..|].
  assert (∀ a2 ar2, arenas s !! a2 = Some ar2 → a2 + PGSIZE * pages_of ar2 ≤ a ∨ a + PGSIZE ≤ a2) as Hap.
  { intros a2 ar2 H2. destruct (i_magic _ _ _ Hi _ _ H2) as [_ Hp].
    destruct (free_apart _ _ _ _ _ Hf (i_used _ _ _ Hi _ _ H2) ltac:(lia) Hp); [by left|right]. lia. }
  assert (∀ a2 ar2, arenas s !! a2 = Some ar2 → a2 ≠ a) as Hne.
  { intros a2 ar2 H2 ->. destruct (i_magic _ _ _ Hi _ _ H2) as [_ Hp]. destruct (Hap _ _ H2); unfold PGSIZE in *; lia. }
  split; try done.
  - destruct (i_static _ _ _ Hi) as [? ?]. split; [done|]. destruct Hset as [-> _]. done.
  - intros k Hk. destruct (decide (k = i)) as [->|Hk2]; [by rewrite lookup_insert_eq|].
    rewrite lookup_insert_ne by (intros ?%fl_inj; congruence). by apply (i_heads _ _ _ Hi).
  - intros l ys [[<- _]|[_ Hly]]%lookup_insert_Some; [by exists i|by eapply i_exact].
  - intros a2 ar2 H2. by destruct (Ho _ _ H2).
  - intros a2 ar2 H2. by destruct (Ho _ _ H2).
  - intros a2 ar2. rewrite Har. intros [[<- <-]|[_ H2]]%lookup_insert_Some.
    + split; [done|]. exists (blocks a i). rewrite lookup_insert_eq. split; [done|].
      rewrite count_all, length_blocks; [done|done|]. intros b Hb. apply blocks_page in Hb; [|done]. unfold ARENA_SIZE in *. lia.
    + pose proof (i_arena _ _ _ Hi _ _ H2) as Hok. unfold arena_ok in *. destruct (a_desc ar2) as [k|] eqn:Hdk; [|done].
      destruct Hok as (Hk & ys & Hys & Hc). split; [done|]. destruct (decide (k = i)) as [->|Hki].
      * exists (blocks a i). rewrite lookup_insert_eq. split; [done|]. simplify_eq. rewrite Hc. symmetry. apply count_none.
        intros b Hb Hr. apply blocks_page in Hb; [|done]. pose proof (Hap _ _ H2) as Hx. unfold pages_of in Hx. rewrite Hdk in Hx.
        unfold ARENA_SIZE, PGSIZE in *. lia.
      * exists ys. by rewrite lookup_insert_ne by (intros ?%fl_inj; congruence).
  - intros k ys b [[-> ->]|[Hk Hys]]%family_insert Hb.
    + apply in_blocks in Hb as (j & Hj & ->); [|done]. exists a, ar, j. by rewrite Har, lookup_insert_eq.
    + destruct (i_free _ _ _ Hi k ys b Hys Hb) as (a2 & ar2 & j & H2 & ?). exists a2, ar2, j.
      rewrite Har, lookup_insert_ne by (symmetry; by eapply Hne). done.
  - intros b n. rewrite (i_live _ _ _ Hi). split.
    + intros (a2 & ar2 & H2 & Hbo). exists a2, ar2. rewrite Har, lookup_insert_ne by (symmetry; by eapply Hne). split; [done|].
      destruct (block_of_range _ _ _ _ _ _ _ Hi H2 Hbo) as (Hn & Hlo & Hhi). unfold block_of in *.
      destruct (a_desc ar2) as [k|] eqn:Hdk; [|done]. destruct Hbo as (j & Hj & Hb & Hbn & Hnin). exists j.
      do 3 (split; [done|]). intros ys [[-> ->]|[_ Hys]]%family_insert; [|by apply Hnin].
      intros Hb2%blocks_page; [|done]. destruct (Hap _ _ H2); unfold ARENA_SIZE, PGSIZE in *; lia.
    + intros (a2 & ar2 & H2 & Hbo). rewrite Har in H2. apply lookup_insert_Some in H2 as [[<- <-]|[_ H2]].
      * exfalso. destruct Hbo as (j & Hj & -> & _ & Hnin). eapply Hnin; [by rewrite lookup_insert_eq|].
        apply in_blocks; [done|]. by exists j.
      * exists a2, ar2. split; [done|]. unfold block_of in *. destruct (a_desc ar2) as [k|]; [|done].
        destruct Hbo as (j & Hj & Hb & Hbn & Hnin). exists j. do 3 (split; [done|]). intros ys Hys.
        destruct (decide (k = i)) as [->|Hki]; [simplify_eq; apply not_elem_of_nil|].
        apply Hnin. by rewrite lookup_insert_ne by (intros ?%fl_inj; congruence).
Qed.

(** A small arena all of whose blocks are free is given back. *)
Lemma inv_drop_small s s' M live a ar i xs xs' :
  inv s M live → arenas s !! a = Some ar → a_desc ar = Some i → M !! fl i = Some xs → xs ≡ₚ blocks a i ++ xs' →
  palloc_ok (pal s') → pool_set (kernel_pool (pal s)) (kernel_pool (pal s')) a 1 false →
  lists (links s') (<[fl i := xs']> M) → descs s' = std_descs → arenas s' = delete a (arenas s) →
  inv s' (<[fl i := xs']> M) live.
Proof.
  intros Hi Ha Hd HM Hp Hpal Hset Hl Hds Har.
  pose proof (i_arena _ _ _ Hi _ _ Ha) as Hok. unfold arena_ok in Hok. rewrite Hd in Hok. destruct Hok as [Hi7 _].
  destruct (pages_drop s s' a ar) as [Ho Hdj]; [by eapply inv_pages|done|done|unfold pages_of; by rewrite Hd|].
  pose proof (KList.il_nodup _ _ _ (ls_is _ _ (i_family _ _ _ Hi) _ _ HM)) as Hnd.
  assert (NoDup (blocks a i ++ xs')) as Hnd2.
  { rewrite <- Hp. unfold KList.ring in Hnd. apply NoDup_cons in Hnd as [_ Hnd]. by apply NoDup_app in Hnd as (? & _). }
  apply NoDup_app in Hnd2 as (_ & Hdis & _).
  assert (∀ a2 ar2 b, arenas s !! a2 = Some ar2 → a2 ≠ a → b ∈ blocks a i → ¬ a2 ≤ b < a2 + PGSIZE) as Hout.
  { intros a2 ar2 b H2 Hne (j & Hj & ->)%in_blocks Hr; [|done]. apply Hne. by eapply (block_in_page s M live a ar). }
  split; try done.
  - destruct (i_static _ _ _ Hi) as [? ?]. split; [done|]. destruct Hset as [-> _]. done.
  - intros k Hk. destruct (decide (k = i)) as [->|Hk2]; [by rewrite lookup_insert_eq|].
    rewrite lookup_insert_ne by (intros ?%fl_inj; congruence). by apply (i_heads _ _ _ Hi).
  - intros l ys [[<- _]|[_ Hly]]%lookup_insert_Some; [by exists i|by eapply i_exact].
  - intros a2 ar2 H2. by destruct (Ho _ _ H2).
  - intros a2 ar2 H2. by destruct (Ho _ _ H2).
  - intros a2 ar2. rewrite Har. intros [Hne H2]%lookup_delete_Some. pose proof (i_arena _ _ _ Hi _ _ H2) as Hok.
    unfold arena_ok in *. destruct (a_desc ar2) as [k|] eqn:Hdk; [|done].
    destruct Hok as (Hk & ys & Hys & Hc). split; [done|]. destruct (decide (k = i)) as [->|Hki].
    + exists xs'. rewrite lookup_insert_eq. split; [done|]. simplify_eq.
      rewrite Hc, (count_perm a2 _ _ Hp), count_app, (count_none a2 (blocks a i)); [done|].
      intros b. by apply (Hout a2 ar2).
    + exists ys. by rewrite lookup_insert_ne by (intros ?%fl_inj; congruence).
  - intros k ys b Hys Hb. assert (∃ zs, M !! fl k = Some zs ∧ b ∈ zs ∧ (k = i → b ∈ xs')) as (zs & Hzs & Hbz & Hbx).
    { apply family_insert in Hys as [[-> ->]|[Hki Hys]]; [|by exists ys].
      exists xs. split_and!; [done|rewrite Hp; set_solver|done]. }
    destruct (i_free _ _ _ Hi k zs b Hzs Hbz) as (a2 & ar2 & j & H2 & Hd2 & Hj & ->). exists a2, ar2, j.
    rewrite Har, lookup_delete_ne; [done|]. intros <-. assert (k = i) as -> by congruence.
    apply (Hdis (block a i j)); [apply in_blocks; [done|by exists j]|by apply Hbx].
  - intros b n. rewrite (i_live _ _ _ Hi). split.
    + intros (a2 & ar2 & H2 & Hbo). exists a2, ar2. destruct (decide (a2 = a)) as [->|Hne].
      { exfalso. simplify_eq. unfold block_of in Hbo. rewrite Hd in Hbo. destruct Hbo as (j & Hj & -> & _ & Hnin).
        apply (Hnin xs HM). rewrite Hp, elem_of_app. left. apply in_blocks; [done|by exists j]. }
      rewrite Har, lookup_delete_ne by done. split; [done|]. unfold block_of in *.
      destruct (a_desc ar2) as [k|]; [|done]. destruct Hbo as (j & Hj & Hb & Hbn & Hnin). exists j. do 3 (split; [done|]).
      intros ys [[-> ->]|[_ Hys]]%family_insert; [|by apply Hnin]. intros Hx. apply (Hnin xs HM). rewrite Hp. set_solver.
    + intros (a2 & ar2 & H2 & Hbo). rewrite Har in H2. apply lookup_delete_Some in H2 as [Hne H2]. exists a2, ar2.
      split; [done|]. unfold block_of in *. destruct (a_desc ar2) as [k|] eqn:Hdk; [|done].
      destruct Hbo as (j & Hj & Hb & Hbn & Hnin). exists j. do 3 (split; [done|]). intros ys Hys.
      destruct (decide (k = i)) as [->|Hki]; [|apply Hnin; by rewrite lookup_insert_ne by (intros ?%fl_inj; congruence)].
      simplify_eq. rewrite Hp, elem_of_app. intros [Hx|Hx].
      * eapply (Hout a2 ar2); [done|congruence|done|]. pose proof (block_fits a2 i j Hi7 Hj). destruct (bs_bounds i Hi7).
        unfold ARENA_SIZE in *. lia.
      * eapply Hnin; [by rewrite lookup_insert_eq|done].
Qed.

Lemma inv_drop_big s s' M live a ar :
  inv s M live → arenas s !! a = Some ar → a_desc ar = None → palloc_ok (pal s') →
  pool_set (kernel_pool (pal s)) (kernel_pool (pal s')) a (free_cnt ar) false →
  links s' = links s → descs s' = std_descs → arenas s' = delete a (arenas s) →
  inv s' M (delete (a + ARENA_SIZE) live).
Proof.
  intros Hi Ha Hd Hpal Hset Hl Hds Har.
  destruct (pages_drop s s' a ar) as [Ho Hdj]; [by eapply inv_pages|done|done|unfold pages_of; by rewrite Hd|].
  split; try done.
  - destruct (i_static _ _ _ Hi) as [? ?]. split; [done|]. destruct Hset as [-> _]. done.
  - rewrite Hl. apply Hi.
  - apply Hi.
  - apply Hi.
  - intros a2 ar2 H2. by destruct (Ho _ _ H2).
  - intros a2 ar2 H2. by destruct (Ho _ _ H2).
  - intros a2 ar2. rewrite Har. intros [_ H2]%lookup_delete_Some. by apply (i_arena _ _ _ Hi).
  - intros i xs b HM Hb. destruct (i_free _ _ _ Hi i xs b HM Hb) as (a2 & ar2 & j & H2 & Hd2 & ?).
    exists a2, ar2, j. rewrite Har, lookup_delete_ne; [done|congruence].
  - intros b m. rewrite lookup_delete_Some, (i_live _ _ _ Hi). split.
    + intros [Hne (a2 & ar2 & H2 & Hbo)]. exists a2, ar2. split; [|done]. rewrite Har, lookup_delete_ne; [done|].
      intros <-. simplify_eq. unfold block_of in Hbo. rewrite Hd in Hbo. destruct Hbo as [-> _]. done.
    + intros (a2 & ar2 & H2 & Hbo). rewrite Har in H2. apply lookup_delete_Some in H2 as [Hne H2].
      split; [|by exists a2, ar2]. intros <-. apply Hne.
      destruct (block_of_range _ _ _ _ _ _ _ Hi H2 Hbo) as (Hn & Hlo & Hhi). destruct (i_magic _ _ _ Hi _ _ Ha) as [_ Hp].
      eapply (same_arena s M live a a2 ar ar2 (a + ARENA_SIZE)); [done..| |]; unfold ARENA_SIZE, PGSIZE in *; lia.
Qed.

(** ** The loops over an arena's blocks *)

Lemma arena_to_block_run s a ar i d j :
  arenas s !! a = Some ar → magic ar = ARENA_MAGIC → a_desc ar = Some i → descs s !! i = Some d →
  block_size_of d = bs i → blocks_per_arena d = bpa i → 0 < a → a + PGSIZE ≤ W32 → (i < 7)%nat → 0 ≤ j < bpa i →
  arena_to_block a j s = Ok (block a i j, s).
Proof.
  intros Ha Hm Hd Hdi Hbs Hbp Ha0 Hw Hi Hj. unfold arena_to_block. rewrite (proj2 (Z.eqb_neq a 0)) by lia.
  erewrite stM_bind_run by reflexivity. erewrite stM_bind_run by (unfold get_arena; rewrite Ha; reflexivity).
  rewrite Hm, Z.eqb_refl. erewrite stM_bind_run by reflexivity. rewrite Hd.
  erewrite stM_bind_run by (unfold get_desc; rewrite Hdi; reflexivity). rewrite Hbp, Hbs, (proj2 (Z.ltb_lt j (bpa i))) by lia.
  erewrite stM_bind_run by reflexivity. pose proof (block_fits a i j Hi Hj). destruct (bs_bounds i Hi).
  rewrite u32_small; [done|]. unfold in_u32, block, ARENA_SIZE, PGSIZE in *. lia.
Qed.

Definition seg_blocks (a : Z) (i : nat) (j : Z) (n : nat) : list Z := (λ k : nat, block a i (j + Z.of_nat k)) <$> seq 0 n.

Lemma seg_blocks_S a i j n : seg_blocks a i j (S n) = block a i j :: seg_blocks a i (j + 1) n.
Proof.
  unfold seg_blocks. simpl. rewrite Z.add_0_r. f_equal. rewrite <- fmap_S_seq, <- list_fmap_compose.
  apply list_fmap_ext. intros k x _. simpl. f_equal. lia.
Qed.

Lemma seg_blocks_all a i : seg_blocks a i 0 (Z.to_nat (bpa i)) = blocks a i.
Proof. unfold seg_blocks, blocks. apply list_fmap_ext. intros k x _. by rewrite Z.add_0_l. Qed.

Lemma carve_loop_spec n s M xs a ar i d j :
  arenas s !! a = Some ar → magic ar = ARENA_MAGIC → a_desc ar = Some i → descs s !! i = Some d →
  block_size_of d = bs i → blocks_per_arena d = bpa i → 0 < a → a + PGSIZE ≤ W32 → (i < 7)%nat →
  0 ≤ j → j + Z.of_nat n ≤ bpa i → lists (links s) M → M !! fl i = Some xs →
  (∀ k, j ≤ k < j + Z.of_nat n → loose M (block a i k)) →
  ∃ h, carve_loop descs_addr n i a j s = Ok (tt, set_links h s) ∧ lists h (<[fl i := xs ++ seg_blocks a i j n]> M).
Proof.
  intros Ha Hm Hd Hdi Hbs Hbp Ha0 Hw Hi. revert s M xs j Ha Hdi.
  induction n as [|n IH]; intros s M xs j Ha Hdi Hj Hn Hl HM Hloose.
  { exists (links s). rewrite app_nil_r, insert_id by done. split; [by destruct s|done]. }
  destruct (bs_bounds i Hi) as [Hb _]. assert (0 ≤ j < bpa i) as Hj2 by lia. pose proof (block_fits a i j Hi Hj2) as Hfit.
  cbn [carve_loop]. erewrite stM_bind_run by by eapply arena_to_block_run.
  erewrite stM_bind_run by reflexivity. set (b := block a i j) in *.
  assert (loose M b) as Hlb by (apply Hloose; lia). set (x := KList.mk_elem _ _).
  destruct (lists_push_back (<[b := x]> (links s)) M (fl i) xs b) as (h1 & Hr1 & Hl1 & _);
    [by apply lists_insert|done|done|unfold KList.NULL, ARENA_SIZE in *; lia|by rewrite lookup_insert_eq|].
  erewrite stM_bind_run by (unfold on_links; cbn [links set_links]; rewrite Hr1; reflexivity).
  destruct (IH (set_links h1 s) (<[fl i := xs ++ [b]]> M) (xs ++ [b]) (j + 1)) as (h2 & Hr2 & Hl2);
    [done|done|lia|lia|done|by rewrite lookup_insert_eq| |].
  { intros k Hk l ys [[<- <-]|[_ Hly]]%lookup_insert_Some; [|apply (Hloose k); [lia|done]].
    intros [Hx|[[Hx|Hx%list_elem_of_singleton]%elem_of_app|Hx]]%KList.in_ring.
    - apply (Hloose k ltac:(lia) _ _ HM). apply KList.in_ring. auto.
    - apply (Hloose k ltac:(lia) _ _ HM). apply KList.in_ring. auto.
    - apply block_inj in Hx; [lia|done].
    - apply (Hloose k ltac:(lia) _ _ HM). apply KList.in_ring. auto. }
  exists h2. split; [exact Hr2|]. rewrite insert_insert_eq in Hl2. by rewrite seg_blocks_S, <- (app_assoc xs [b]) in *.
Qed.

(** The list element of a block becomes plain memory. *)
Lemma mem_put_out p l m x : x < p ∨ p + Z.of_nat (length l) ≤ x → mem_put p l m x = m x.
Proof.
  intros Hx. unfold mem_put. case_decide; [|done]. rewrite lookup_ge_None_2; [done|]. lia.
Qed.

Lemma to_bytes_run s b :
  is_Some (links s !! b) → ∃ m, to_bytes b s = Ok (tt, mk_mstate (set_mem (λ _, m) (pal s)) (delete b (links s)) (arenas s) (descs s)) ∧
    ∀ x, x < b ∨ b + 8 ≤ x → m x = mem (pal s) x.
Proof.
  intros [e He]. eexists. split.
  - unfold to_bytes. erewrite stM_bind_run by reflexivity. rewrite He. reflexivity.
  - intros x Hx. apply mem_put_out. rewrite length_app, !length_le_bytes. lia.
Qed.

Lemma withdraw_loop_spec n s M xs a ar i d j :
  arenas s !! a = Some ar → magic ar = ARENA_MAGIC → a_desc ar = Some i → descs s !! i = Some d →
  block_size_of d = bs i → blocks_per_arena d = bpa i → 0 < a → a + PGSIZE ≤ W32 → (i < 7)%nat →
  0 ≤ j → j + Z.of_nat n ≤ bpa i → lists (links s) M → M !! fl i = Some xs →
  (∀ k, j ≤ k < j + Z.of_nat n → block a i k ∈ xs) →
  ∃ h m xs', withdraw_loop n a j s = Ok (tt, mk_mstate (set_mem (λ _, m) (pal s)) h (arenas s) (descs s)) ∧
    lists h (<[fl i := xs']> M) ∧ xs ≡ₚ seg_blocks a i j n ++ xs' ∧
    ∀ x, x < a ∨ a + PGSIZE ≤ x → m x = mem (pal s) x.
Proof.
  intros Ha Hm Hd Hdi Hbs Hbp Ha0 Hw Hi. revert s M xs j Ha Hdi.
  induction n as [|n IH]; intros s M xs j Ha Hdi Hj Hn Hl HM Hin.
  { exists (links s), (mem (pal s)), xs. rewrite insert_id by done. split; [by destruct s as [[]]|done]. }
  destruct (bs_bounds i Hi) as [Hb _]. assert (0 ≤ j < bpa i) as Hj2 by lia. pose proof (block_fits a i j Hi Hj2) as Hfit.
  cbn [withdraw_loop]. erewrite stM_bind_run by by eapply arena_to_block_run.
  destruct (list_elem_of_split _ _ (Hin j ltac:(lia))) as (A & B & E). subst xs.
  destruct (lists_remove (links s) M (fl i) A (block a i j) B Hl HM) as (h1 & Hr1 & Hl1 & Hd1 & Hloose).
  erewrite stM_bind_run by (unfold on_links; rewrite Hr1; reflexivity).
  destruct (to_bytes_run (set_links h1 s) (block a i j)) as (m1 & Hr2 & Hm1).
  { cbn [links set_links]. apply elem_of_dom. rewrite Hd1. apply elem_of_dom.
    eapply ring_in_dom; [by eapply ls_is|]. apply KList.in_ring. set_solver. }
  erewrite stM_bind_run by exact Hr2. cbn [links set_links pal arenas descs].
  match goal with |- context [withdraw_loop n a (j + 1) ?st] => set (s2 := st) end.
  destruct (IH s2 (<[fl i := A ++ B]> M) (A ++ B) (j + 1)) as (h2 & m2 & xs' & Hr3 & Hl3 & Hp & Hm2);
    [done|done|lia|lia|by apply lists_delete|by rewrite lookup_insert_eq| |].
  { intros k Hk. assert (block a i k ∈ A ++ block a i j :: B) as Hx by (apply Hin; lia).
    assert (block a i k ≠ block a i j) by (intros ?%block_inj; [lia|done]). set_solver. }
  exists h2, m2, xs'. rewrite insert_insert_eq in Hl3. split; [exact Hr3|]. split; [done|]. split.
  - rewrite seg_blocks_S. simpl. rewrite <- Hp. solve_Permutation.
  - intros x Hx. rewrite Hm2 by done. apply Hm1. unfold ARENA_SIZE, PGSIZE in *. lia.
Qed.

(** ** Counting free blocks *)

Lemma family_nodup s M live l xs : inv s M live → M !! l = Some xs → NoDup xs.
Proof.
  intros Hi HM. pose proof (KList.il_nodup _ _ _ (ls_is _ _ (i_family _ _ _ Hi) _ _ HM)) as Hnd.
  unfold KList.ring in Hnd. apply NoDup_cons in Hnd as [_ Hnd]. by apply NoDup_app in Hnd as (? & _).
Qed.

(** The free blocks in a small arena's page are blocks of the arena. *)
Lemma page_blocks s M live a ar i xs b :
  inv s M live → arenas s !! a = Some ar → M !! fl i = Some xs → (i < 7)%nat →
  b ∈ xs → a ≤ b < a + PGSIZE → b ∈ blocks a i ∧ a_desc ar = Some i.
Proof.
  intros Hi Ha HM Hi7 Hb Hr. destruct (i_free _ _ _ Hi i xs b HM Hb) as (a2 & ar2 & j & H2 & Hd2 & Hj & ->).
  assert (a = a2) as <- by by eapply (block_in_page s M live a2 ar2 a ar). simplify_eq.
  split; [|done]. apply in_blocks; [done|by exists j].
Qed.

Lemma count_le s M live a ar i xs :
  inv s M live → arenas s !! a = Some ar → M !! fl i = Some xs → (i < 7)%nat →
  count_in a xs ≤ bpa i ∧ (count_in a xs = bpa i → ∀ b, b ∈ blocks a i → b ∈ xs).
Proof.
  intros Hi Ha HM Hi7. set (ys := filter (λ b, a ≤ b < a + PGSIZE) xs).
  assert (ys ⊆+ blocks a i) as Hsub.
  { apply NoDup_submseteq; [apply NoDup_filter; by eapply family_nodup|].
    intros b [Hr Hb]%list_elem_of_filter. by eapply page_blocks. }
  pose proof (submseteq_length _ _ Hsub). pose proof (length_blocks a i Hi7). unfold count_in. fold ys. split; [lia|].
  intros Hc b Hb. assert (ys ≡ₚ blocks a i) as Hp by (apply submseteq_length_Permutation; [done|lia]).
  rewrite <- Hp in Hb. by apply list_elem_of_filter in Hb as [_ ?].
Qed.

(** ** Locking a descriptor *)

Definition locked_descs (i : nat) : list desc := <[i := mk_desc (bs i) (bpa i) true]> std_descs.

Lemma locked_lookup i : (i < 7)%nat → locked_descs i !! i = Some (mk_desc (bs i) (bpa i) true).
Proof. intros Hi. unfold locked_descs. apply list_lookup_insert_eq. done. Qed.

Lemma lock_acquire_run s i : descs s = std_descs → (i < 7)%nat → lock_acquire i s = Ok (tt, set_descs (locked_descs i) s).
Proof.
  intros Hd Hi. unfold lock_acquire. erewrite stM_bind_run by by apply get_desc_run.
  cbn [desc_locked block_size_of blocks_per_arena]. unfold smod, locked_descs. by rewrite Hd.
Qed.

Lemma lock_release_run s i : descs s = locked_descs i → (i < 7)%nat → lock_release i s = Ok (tt, set_descs std_descs s).
Proof.
  intros Hd Hi. unfold lock_release. erewrite stM_bind_run by (unfold get_desc; rewrite Hd, locked_lookup by done; reflexivity).
  cbn [desc_locked block_size_of blocks_per_arena]. unfold smod, locked_descs in *. rewrite Hd, list_insert_insert_eq.
  rewrite list_insert_id; [done|]. by apply std_lookup.
Qed.

(** What a live block's neighbours see of an operation: nothing. *)
Definition untouched (m m' : memory) (live : gmap Z Z) : Prop :=
  ∀ b n x, live !! b = Some n → b ≤ x < b + n → m' x = m x.

(** ** Taking a block off a free list *)

Lemma take_block s M live i b xs :
  inv s M live → (i < 7)%nat → M !! fl i = Some (b :: xs) →
  ∃ s' a, (b ← on_links (KList.list_pop_front (fl i)); to_bytes b;; a ← block_to_arena b; ar ← get_arena a;
         put_arena a (mk_arena (magic ar) (a_desc ar) (u32 (free_cnt ar - 1)));; lock_release i;; mret b)
        (set_descs (locked_descs i) s) = Ok (b, s') ∧
    inv s' (<[fl i := xs]> M) (<[b := bs i]> live) ∧ live !! b = None ∧ b ≠ 0 ∧
    (∀ x, x < b ∨ b + 8 ≤ x → mem (pal s') x = mem (pal s) x) ∧ (a ≤ b < a + PGSIZE ∧ is_Some (arenas s !! a)) ∧
    (∀ a2, a2 ≠ a → arenas s' !! a2 = arenas s !! a2) ∧
    (∀ ar, arenas s' !! a = Some ar → a_desc ar = Some i ∧ free_cnt ar < bpa i).
Proof.
  intros Hi Hi7 HM. destruct (i_free _ _ _ Hi i _ b HM ltac:(by left)) as (a & ar & j & Ha & Hd & Hj & E).
  destruct (lists_pop_front (links s) M (fl i) b xs (i_family _ _ _ Hi) HM) as (h1 & Hr1 & Hl1 & Hd1 & Hloose).
  destruct (i_magic _ _ _ Hi _ _ Ha) as [Hm _]. destruct (arena_range _ _ _ _ _ Hi Ha) as (Hlo & _ & Hal).
  destruct (arena_u32 _ _ _ _ _ Hi Ha) as (Ha0 & _ & Hw). pose proof (block_fits a i j Hi7 Hj) as Hfit. rewrite <- E in Hfit.
  destruct (bs_bounds i Hi7) as [Hbs Hbp].
  pose proof (i_arena _ _ _ Hi _ _ Ha) as Hok. unfold arena_ok in Hok. rewrite Hd in Hok. destruct Hok as (_ & ys & Hys & Hcnt).
  simplify_eq. destruct (count_le s M live a ar i _ Hi Ha HM Hi7) as [Hcle _].
  assert (count_in a (block a i j :: xs) = 1 + count_in a xs) as Hc1.
  { rewrite count_cons, decide_True; [done|]. unfold ARENA_SIZE in *. lia. }
  assert (0 ≤ count_in a xs) as Hc0 by (unfold count_in; lia).
  assert (block a i j ∉ xs) as Hnin.
  { pose proof (family_nodup _ _ _ _ _ Hi HM) as Hnd. by apply NoDup_cons in Hnd as [? _]. }
  destruct (to_bytes_run (set_links h1 (set_descs (locked_descs i) s)) (block a i j)) as (m1 & Hr2 & Hm1).
  { cbn [links set_links]. apply elem_of_dom. rewrite Hd1. apply elem_of_dom.
    eapply ring_in_dom; [eapply ls_is; [apply Hi|done]|]. apply KList.in_ring. set_solver. }
  cbn [links set_links set_descs pal arenas descs] in Hr2, Hm1.
  match type of Hr2 with _ = Ok (_, ?st) => set (s1 := st) in * end.
  set (ar' := mk_arena (magic ar) (a_desc ar) (u32 (free_cnt ar - 1))).
  exists (set_descs std_descs (set_arenas (<[a := ar']> (arenas s)) s1)), a.
  split; [|split_and!].
  - erewrite stM_bind_run by (unfold on_links; cbn [links set_descs]; rewrite Hr1; reflexivity).
    erewrite stM_bind_run by exact Hr2.
    erewrite stM_bind_run; [|eapply (block_to_arena_run s1 a ar (block a i j) (block a i j - a)); try done; [lia|unfold ARENA_SIZE in *; lia|]].
    2: { rewrite Hd. exists (mk_desc (bs i) (bpa i) true), j. split; [by apply locked_lookup|]. done. }
    erewrite stM_bind_run by (unfold get_arena; cbn [s1 arenas]; rewrite Ha; reflexivity).
    erewrite stM_bind_run by reflexivity.
    erewrite stM_bind_run by by (apply lock_release_run; [reflexivity|]). reflexivity.
  - eapply (inv_block s _ M live _ a ar i j (block a i j :: xs) xs (u32 (free_cnt ar - 1))); try done.
    + cbn. by apply lists_delete.
    + cbn. destruct (i_pal _ _ _ Hi). by split.
    + intros b Hb. set_solver.
    + rewrite Hcnt, Hc1. rewrite u32_small by (unfold in_u32; lia). lia.
    + intros a2 Hne [ar2 H2]. rewrite count_cons, decide_False; [done|]. intros Hr. apply Hne.
      by eapply (block_in_page s M live a ar).
    + intros b Hb. by rewrite lookup_insert_ne.
    + by rewrite lookup_insert_eq, decide_False.
  - destruct (live !! block a i j) as [n|] eqn:E; [|done]. exfalso. apply (i_live _ _ _ Hi) in E as (a2 & ar2 & H2 & Hbo).
    destruct (block_of_range _ _ _ _ _ _ _ Hi H2 Hbo) as (Hn & Hlo2 & Hhi2).
    assert (a = a2) as <-.
    { destruct (i_magic _ _ _ Hi _ _ H2) as [_ Hp2]. destruct (i_magic _ _ _ Hi _ _ Ha) as [_ Hp].
      eapply (same_arena s M live a a2 ar ar2 (block a i j)); [done..| |]; unfold ARENA_SIZE, PGSIZE in *; lia. }
    simplify_eq. unfold block_of in Hbo. rewrite Hd in Hbo. destruct Hbo as (j2 & _ & _ & _ & Hn2).
    apply (Hn2 _ HM). by left.
  - unfold ARENA_SIZE in *. lia.
  - intros x Hx. cbn. by apply Hm1.
  - unfold ARENA_SIZE in *. lia.
  - unfold ARENA_SIZE in *. lia.
  - by eexists.
  - intros a2 Hne. cbn. by rewrite lookup_insert_ne.
  - cbn. rewrite lookup_insert_eq. intros ? [= <-]. split; [done|]. cbn. rewrite Hcnt, Hc1.
    rewrite u32_small by (unfold in_u32; lia). lia.
Qed.

(** ** malloc *)

Lemma find_desc_Some size i : find_desc size std_descs = Some i → (i < 7)%nat ∧ size ≤ bs i.
Proof.
  intros (d & Hd & Hs & _)%find_index_Some. apply std_lookup in Hd as [Hi ->]. split; [done|]. by apply Z.leb_le.
Qed.

(** The page allocator as malloc calls it. *)
Lemma get_pages_spec s M live n :
  inv s M live → 0 < n < W32 → 
  (on_pal (palloc_get_multiple 0 n) s = Ok (0, s) ∧ ∀ a, ¬ free_run (kernel_pool (pal s)) a n) ∨
  ∃ a p', on_pal (palloc_get_multiple 0 n) s = Ok (a, set_pal (set_pool false p' (pal s)) s) ∧
    free_run (kernel_pool (pal s)) a n ∧ pool_set (kernel_pool (pal s)) p' a n true ∧
    palloc_ok (set_pool false p' (pal s)) ∧ 0 < a ∧ a + PGSIZE * n ≤ W32.
Proof.
  intros Hi Hn. pose proof (i_pal _ _ _ Hi) as Hpal. unfold on_pal.
  destruct (palloc_get_multiple_spec 0 n (pal s) Hpal) as [[? _]|[(_ & Hno & Hr)|(_ & a & p' & s2 & Hf & _ & Hset & Hr & Hok & E)]];
    [unfold in_u32; lia|lia|left|right]; rewrite Hr.
  - split; [by destruct s|done].
  - change (flag 0 PAL_USER) with false in *. cbn [get_pool] in *. exists a, p'.
    assert (s2 = set_pool false p' (pal s)) as -> by (rewrite E; by destruct (pal s)).
    do 4 (split; [done|]). destruct (pa_kernel _ Hpal) as [_ ? _ He _]. destruct Hf as [(k & ? & ? & ->) _].
    unfold PGSIZE in *. lia.
Qed.

(** What [malloc] promises about its result and the state it leaves. *)
Definition malloc_ok s live size p s' M' : Prop :=
  (p = 0 ∧ s' = s) ∨
  (p ≠ 0 ∧ ∃ n, size ≤ n ∧ live !! p = None ∧ inv s' M' (<[p := n]> live) ∧
    ∀ x, x < p ∨ p + n ≤ x → mem (pal s') x = mem (pal s) x).

Lemma malloc_big s M live size :
  inv s M live → no_idle s → 0 < size → size + ARENA_SIZE + PGSIZE ≤ W32 → find_desc size std_descs = None →
  ∃ p s', malloc descs_addr size s = Ok (p, s') ∧ no_idle s' ∧ malloc_ok s live size p s' M.
Proof.
  intros Hi Hidle Hs0 Hs Hf. unfold malloc. rewrite (proj2 (Z.eqb_neq size 0)) by lia.
  erewrite stM_bind_run by reflexivity. rewrite (i_descs _ _ _ Hi), Hf.
  rewrite (u32_small (size + _)), u32_small by (unfold in_u32, ARENA_SIZE, PGSIZE in *; lia).
  set (n := (size + ARENA_SIZE + PGSIZE - 1) / PGSIZE).
  assert (0 < n < W32 ∧ size + ARENA_SIZE ≤ PGSIZE * n) as [Hn Hsz] by (unfold n, PGSIZE, ARENA_SIZE in *; dlia).
  destruct (get_pages_spec s M live n Hi Hn) as [[Hr _]|(a & p' & Hr & Hfr & Hset & Hok & Ha & Hw)];
    (erewrite stM_bind_run by exact Hr); [exists 0, s; split; [done|]; split; [done|]; by left|].
  rewrite (proj2 (Z.eqb_neq a 0)) by lia. erewrite stM_bind_run by reflexivity.
  rewrite u32_small by (unfold in_u32, ARENA_SIZE, PGSIZE in *; lia).
  eexists _, _. split; [reflexivity|]. split.
  - intros a2 ar i. cbn. intros [[<- <-]|[_ H2]]%lookup_insert_Some; [done|by eapply Hidle].
  - right. split; [unfold ARENA_SIZE; lia|]. exists (PGSIZE * n - ARENA_SIZE). split; [lia|].
    assert (live !! (a + ARENA_SIZE) = None) as Hnone.
    { destruct (live !! (a + ARENA_SIZE)) as [m|] eqn:E; [|done]. apply (i_live _ _ _ Hi) in E as (a2 & ar2 & H2 & Hbo).
      destruct (block_of_range _ _ _ _ _ _ _ Hi H2 Hbo) as (Hm & Hlo & Hhi). destruct (i_magic _ _ _ Hi _ _ H2) as [_ Hp].
      destruct (free_apart _ _ _ _ _ Hfr (i_used _ _ _ Hi _ _ H2) ltac:(lia) Hp); unfold PGSIZE, ARENA_SIZE in *; lia. }
    split; [done|]. split; [|done]. eapply (inv_new_big s _ M live a n); try done; [lia|apply Hi].
Qed.

Lemma malloc_small s M live size i :
  inv s M live → no_idle s → 0 < size → find_desc size std_descs = Some i →
  ∃ p s' M', malloc descs_addr size s = Ok (p, s') ∧ no_idle s' ∧ malloc_ok s live size p s' M'.
Proof.
  intros Hi Hidle Hs0 Hf. destruct (find_desc_Some _ _ Hf) as [Hi7 Hsize]. destruct (bs_bounds i Hi7) as [Hbs Hbp].
  unfold malloc. rewrite (proj2 (Z.eqb_neq size 0)) by lia.
  erewrite stM_bind_run by reflexivity. rewrite (i_descs _ _ _ Hi), Hf.
  erewrite stM_bind_run by (apply lock_acquire_run; [apply Hi|done]).
  erewrite stM_bind_run by (unfold get_desc; cbn [descs set_descs]; rewrite locked_lookup by done; reflexivity).
  destruct (i_heads _ _ _ Hi i Hi7) as [xs HM].
  erewrite stM_bind_run by (unfold on_links; cbn [links set_descs]; erewrite KList.list_empty_spec by (eapply ls_is; [apply Hi|done]); reflexivity).
  change (set_links (links s) (set_descs (locked_descs i) s)) with (set_descs (locked_descs i) s).
  cbn [blocks_per_arena]. destruct xs as [|b xs].
  - rewrite bool_decide_eq_true_2 by done. rewrite stM_bind_eq. unfold palloc_get_page.
    assert (on_pal (palloc_get_multiple 0 1) (set_descs (locked_descs i) s) =
      match on_pal (palloc_get_multiple 0 1) s with Ok (a, s2) => Ok (a, set_descs (locked_descs i) s2) | Err e => Err e end) as Hcomm.
    { unfold on_pal. cbn [pal set_descs]. by destruct (palloc_get_multiple 0 1 (pal s)) as [[]|]. }
    destruct (get_pages_spec s M live 1 Hi ltac:(lia)) as [[Hr _]|(a & p' & Hr & Hfr & Hset & Hok & Ha & Hw)];
      rewrite Hr in Hcomm; (erewrite stM_bind_run by exact Hcomm).
    + cbn [Z.eqb]. erewrite stM_bind_run by (apply lock_release_run; [reflexivity|done]). 
      exists 0, s, M. split; [|split; [done|by left]].
      pose proof (i_descs _ _ _ Hi) as Hd. destruct s. cbn in Hd |- *. by subst.
    + rewrite (proj2 (Z.eqb_neq a 0)) by lia. set (s1 := set_pal (set_pool false p' (pal s)) s) in *.
      set (ar := mk_arena ARENA_MAGIC (Some i) (bpa i)). erewrite stM_bind_run by reflexivity.
      set (s2 := set_arenas (<[a := ar]> (arenas s)) (set_descs (locked_descs i) s1)).
      destruct (carve_loop_spec (Z.to_nat (bpa i)) s2 M [] a ar i (mk_desc (bs i) (bpa i) true) 0) as (h & Hc & Hl);
        try done; [cbn; by rewrite lookup_insert_eq|by apply locked_lookup|lia|apply Hi| |].
      { intros k Hk l ys Hly Hb. pose proof (block_fits a i k Hi7 ltac:(lia)).
        destruct (new_page_apart s M live a 1 l ys _ Hi Hfr ltac:(lia) Hly Hb); unfold ARENA_SIZE, PGSIZE in *; lia. }
      erewrite stM_bind_run by exact Hc. cbn [mret stM_ret]. rewrite seg_blocks_all in Hl. cbn [app] in Hl.
      set (s3 := set_descs std_descs (set_links h s2)).
      assert (inv s3 (<[fl i := blocks a i]> M) live) as Hi3 by (by eapply (inv_new_small s)).
      destruct (blocks a i) as [|b0 bl] eqn:Eb.
      { exfalso. pose proof (length_blocks a i Hi7) as Hlb. rewrite Eb in Hlb. simpl in Hlb. lia. }
      destruct (take_block s3 _ live i b0 bl Hi3 Hi7 ltac:(by rewrite lookup_insert_eq))
        as (s' & a2 & Hrun & Hinv & Hnone & Hb0 & Hmem & [Hra [ar2 Ha2]] & Hoth & Har).
      exists b0, s', (<[fl i := bl]> (<[fl i := b0 :: bl]> M)). split; [exact Hrun|].
      assert (a2 = a) as ->.
      { assert (b0 ∈ blocks a i) as Hb by (rewrite Eb; by left). apply in_blocks in Hb as (j & Hj & ->); [|done].
        eapply (block_in_page s3 _ live a ar a2 ar2 i j Hi3); try done. cbn. by rewrite lookup_insert_eq. }
      split.
      * intros a3 ar3 k H3 Hd3. destruct (decide (a3 = a)) as [->|Hne3].
        { destruct (Har _ H3). by simplify_eq. }
        rewrite Hoth in H3 by done. cbn in H3. rewrite lookup_insert_ne in H3 by done. by eapply Hidle.
      * right. split; [done|]. exists (bs i). do 3 (split; [done|]). intros x Hx. rewrite Hmem by lia. done.
  - rewrite bool_decide_eq_false_2 by done. rewrite stM_bind_eq. cbn [mret stM_ret].
    destruct (take_block s M live i b xs Hi Hi7 HM) as (s' & a & Hrun & Hinv & Hnone & Hb0 & Hmem & Hra & Hoth & Har).
    exists b, s', (<[fl i := xs]> M). split; [exact Hrun|]. split.
    + intros a2 ar2 k H2 Hd2. destruct (decide (a2 = a)) as [->|Hne]; [destruct (Har _ H2); by simplify_eq|].
      rewrite Hoth in H2 by done. by eapply Hidle.
    + right. split; [done|]. exists (bs i). do 3 (split; [done|]). intros x Hx. apply Hmem. lia.
Qed.

(** ** free *)

(** A live block of another arena is outside this arena's pages. *)
Lemma live_elsewhere s M live a ar b n :
  inv s M live → arenas s !! a = Some ar → live !! b = Some n → ¬ block_of M a ar b n →
  b + n ≤ a ∨ a + PGSIZE * pages_of ar ≤ b.
Proof.
  intros Hi Ha (a2 & ar2 & H2 & Hbo)%(i_live _ _ _ Hi) Hnot.
  destruct (block_of_range _ _ _ _ _ _ _ Hi H2 Hbo) as (Hn & Hlo & Hhi).
  destruct (Z.lt_trichotomy a a2) as [Hlt|[<-|Hlt]].
  - right. pose proof (i_disj _ _ _ Hi _ _ _ _ Ha H2 Hlt). unfold ARENA_SIZE in *. lia.
  - by simplify_eq.
  - left. pose proof (i_disj _ _ _ Hi _ _ _ _ H2 Ha Hlt). lia.
Qed.

(** A live block is on no free list. *)
Lemma live_loose s M live a ar i j :
  inv s M live → arenas s !! a = Some ar → a_desc ar = Some i → (i < 7)%nat → 0 ≤ j < bpa i →
  (∀ xs, M !! fl i = Some xs → block a i j ∉ xs) → loose M (block a i j).
Proof.
  intros Hi Ha Hd Hi7 Hj Hnin l xs Hl Hb. destruct (i_exact _ _ _ Hi l xs Hl) as (k & Hk & ->).
  pose proof (i_static _ _ _ Hi) as [_ Hst]. destruct (arena_range _ _ _ _ _ Hi Ha) as (Hlo & _).
  pose proof (block_fits a i j Hi7 Hj) as Hfit. apply KList.in_ring in Hb as [E|[Hb|E]].
  - unfold free_list, DESC_SIZE, ARENA_SIZE in *. lia.
  - destruct (bs_bounds i Hi7). destruct (page_blocks s M live a ar k xs _ Hi Ha Hl Hk Hb) as [_ E]; [unfold ARENA_SIZE in *; lia|].
    assert (k = i) as -> by congruence. by eapply Hnin.
  - unfold free_list, DESC_SIZE, ARENA_SIZE in *. lia.
Qed.

Lemma free_big s M live a ar :
  inv s M live → no_idle s → arenas s !! a = Some ar → a_desc ar = None →
  ∃ s', free descs_addr (a + ARENA_SIZE) s = Ok (tt, s') ∧ inv s' M (delete (a + ARENA_SIZE) live) ∧ no_idle s' ∧
    untouched (mem (pal s)) (mem (pal s')) (delete (a + ARENA_SIZE) live).
Proof.
  intros Hi Hidle Ha Hd. destruct (i_magic _ _ _ Hi _ _ Ha) as [Hm Hp]. destruct (arena_range _ _ _ _ _ Hi Ha) as (_ & _ & Hal).
  destruct (arena_u32 _ _ _ _ _ Hi Ha) as (Ha0 & _ & Hw). pose proof (i_used _ _ _ Hi _ _ Ha) as Hu.
  assert (pages_of ar = free_cnt ar) as Hpg by (unfold pages_of; by rewrite Hd). rewrite Hpg in *.
  unfold free. rewrite (proj2 (Z.eqb_neq (a + ARENA_SIZE) 0)) by (unfold ARENA_SIZE; lia).
  erewrite stM_bind_run by (eapply (block_to_arena_run s a ar _ ARENA_SIZE); try done; by rewrite Hd).
  erewrite stM_bind_run by (unfold get_arena; rewrite Ha; reflexivity). rewrite Hd.
  destruct (palloc_free_multiple_spec false a (free_cnt ar) (pal s) (i_pal _ _ _ Hi) Hp Hu) as (p' & Hset & Hr & Hok).
  erewrite stM_bind_run by (unfold on_pal; rewrite Hr; reflexivity).
  eexists. split; [reflexivity|]. split; [eapply (inv_drop_big s); try done; apply Hi|]. split.
  - intros a2 ar2 i. cbn. intros [_ H2]%lookup_delete_Some. by eapply Hidle.
  - intros b n x [Hne Hb]%lookup_delete_Some Hx. cbn. unfold mem_set. rewrite decide_False; [done|].
    destruct (live_elsewhere s M live a ar b n Hi Ha Hb) as [?|Hge]; [unfold block_of; rewrite Hd; intros []; congruence|lia|].
    rewrite Hpg in Hge. lia.
Qed.

(** Putting a block back on its free list. *)
Lemma put_block s M live a ar i j xs :
  inv s M live → arenas s !! a = Some ar → a_desc ar = Some i → (i < 7)%nat → 0 ≤ j < bpa i → M !! fl i = Some xs →
  block a i j ∉ xs → let p := block a i j in
  ∃ s2, (on_mem (mem_set p 204 (bs i));; lock_acquire i;; to_elem p;; on_links (KList.list_push_front (fl i) p);;
         put_arena a (mk_arena (magic ar) (a_desc ar) (u32 (free_cnt ar + 1)))) s = Ok (tt, set_descs (locked_descs i) s2) ∧
    inv s2 (<[fl i := p :: xs]> M) (delete p live) ∧ pal s2 = set_mem (mem_set p 204 (bs i)) (pal s) ∧
    u32 (free_cnt ar + 1) = count_in a (p :: xs) ∧
    arenas s2 = <[a := mk_arena (magic ar) (a_desc ar) (count_in a (p :: xs))]> (arenas s).
Proof.
  intros Hi Ha Hd Hi7 Hj HM Hnin p. destruct (bs_bounds i Hi7) as [Hbs Hbp].
  destruct (arena_u32 _ _ _ _ _ Hi Ha) as (Ha0 & _ & Hw). pose proof (block_fits a i j Hi7 Hj) as Hfit.
  pose proof (i_arena _ _ _ Hi _ _ Ha) as Hok. unfold arena_ok in Hok. rewrite Hd in Hok. destruct Hok as (_ & ys & Hys & Hcnt).
  simplify_eq. destruct (count_le s M live a ar i xs Hi Ha HM Hi7) as [Hcle _].
  assert (count_in a (p :: xs) = 1 + count_in a xs) as Hc1.
  { unfold p. rewrite count_cons, decide_True; [done|]. unfold ARENA_SIZE in *. lia. }
  assert (0 ≤ count_in a xs) as Hc0 by (unfold count_in; lia).
  assert (u32 (free_cnt ar + 1) = count_in a (p :: xs)) as Hc2.
  { rewrite Hcnt, Hc1, u32_small by (unfold in_u32; lia). lia. }
  set (pal' := set_mem (mem_set p 204 (bs i)) (pal s)).
  set (x := KList.mk_elem (mem_word p (mem pal')) (mem_word (p + 4) (mem pal'))).
  assert (loose M p) as Hloose. { eapply live_loose; [done..|]. intros ys Hys2. by simplify_eq. }
  destruct (lists_push_front (<[p := x]> (links s)) M (fl i) xs p) as (h & Hr & Hl & _);
    [by apply lists_insert; [apply Hi|]|done|done|unfold KList.NULL, ARENA_SIZE, p in *; lia|by rewrite lookup_insert_eq|].
  exists (mk_mstate pal' h (<[a := mk_arena (magic ar) (a_desc ar) (count_in a (p :: xs))]> (arenas s)) (descs s)).
  split; [|split_and!; [|done..]].
  - erewrite stM_bind_run by reflexivity. erewrite stM_bind_run by (apply lock_acquire_run; [apply Hi|done]).
    erewrite stM_bind_run by reflexivity.
    erewrite stM_bind_run by (unfold on_links; cbn [links set_links set_descs set_pal pal]; fold pal'; fold x; rewrite Hr; reflexivity).
    rewrite <- Hc2. reflexivity.
  - eapply (inv_block s _ M live _ a ar i j xs (p :: xs) (count_in a (p :: xs))); try done.
    + destruct (i_pal _ _ _ Hi). by split.
    + apply Hi.
    + intros b Hb. fold p in Hb. set_solver.
    + intros a2 Hne [ar2 H2]. unfold p. rewrite count_cons, decide_False; [done|]. intros Hx. apply Hne.
      by eapply (block_in_page s M live a ar).
    + intros b Hb. fold p in Hb. by rewrite lookup_delete_ne.
    + fold p. rewrite lookup_delete_eq, decide_True by by left. done.
Qed.

(** Giving back the page of an arena that has no block in use any more. *)
Lemma drop_page s M live a ar i xs :
  inv s M live → arenas s !! a = Some ar → a_desc ar = Some i → (i < 7)%nat → M !! fl i = Some xs →
  count_in a xs = bpa i →
  ∃ s' M', (withdraw_loop (Z.to_nat (bpa i)) a 0;; on_pal (palloc_free_page a);; drop_arena a) (set_descs (locked_descs i) s) =
      Ok (tt, set_descs (locked_descs i) s') ∧ inv s' M' live ∧ arenas s' = delete a (arenas s) ∧
    (∀ x, x < a ∨ a + PGSIZE ≤ x → mem (pal s') x = mem (pal s) x).
Proof.
  intros Hi Ha Hd Hi7 HM Hc. destruct (bs_bounds i Hi7) as [Hbs Hbp].
  destruct (i_magic _ _ _ Hi _ _ Ha) as [Hm Hp]. destruct (arena_u32 _ _ _ _ _ Hi Ha) as (Ha0 & _ & Hw).
  destruct (count_le s M live a ar i xs Hi Ha HM Hi7) as [_ Hall].
  destruct (withdraw_loop_spec (Z.to_nat (bpa i)) (set_descs (locked_descs i) s) M xs a ar i (mk_desc (bs i) (bpa i) true) 0)
    as (h & m & xs' & Hr1 & Hl & Hperm & Hmem); try done; [by apply locked_lookup|lia|apply Hi| |].
  { intros k Hk. apply Hall; [done|]. apply in_blocks; [done|]. exists k. split; [lia|done]. }
  rewrite seg_blocks_all in Hperm. erewrite stM_bind_run by exact Hr1. cbn [set_descs pal arenas descs].
  set (s1 := mk_mstate _ _ _ _). pose proof (i_used _ _ _ Hi _ _ Ha) as Hu. unfold pages_of in Hu. rewrite Hd in Hu.
  destruct (palloc_free_multiple_spec false a 1 (pal s1)) as (p' & Hset & Hr2 & Hok); [|lia|done|].
  { destruct (i_pal _ _ _ Hi). by split. }
  erewrite stM_bind_run by (unfold on_pal, palloc_free_page; rewrite Hr2; reflexivity).
  exists (mk_mstate (set_mem (mem_set a 204 (PGSIZE * 1)) (set_pool false p' (pal s1))) h (delete a (arenas s)) std_descs),
    (<[fl i := xs']> M).
  split; [reflexivity|]. split; [by eapply (inv_drop_small s)|]. split; [done|].
  intros x Hx. cbn. unfold mem_set. rewrite decide_False by lia. by apply Hmem.
Qed.

Lemma free_small s M live a ar i j :
  inv s M live → no_idle s → arenas s !! a = Some ar → a_desc ar = Some i → (i < 7)%nat → 0 ≤ j < bpa i →
  (∀ xs, M !! fl i = Some xs → block a i j ∉ xs) → let p := block a i j in
  ∃ s' M', free descs_addr p s = Ok (tt, s') ∧ inv s' M' (delete p live) ∧ no_idle s' ∧
    untouched (mem (pal s)) (mem (pal s')) (delete p live).
Proof.
  intros Hi Hidle Ha Hd Hi7 Hj Hnin p. destruct (bs_bounds i Hi7) as [Hbs Hbp].
  destruct (i_magic _ _ _ Hi _ _ Ha) as [Hm Hp]. destruct (arena_range _ _ _ _ _ Hi Ha) as (_ & _ & Hal).
  destruct (arena_u32 _ _ _ _ _ Hi Ha) as (Ha0 & _ & Hw). pose proof (block_fits a i j Hi7 Hj) as Hfit. fold p in Hfit.
  destruct (i_heads _ _ _ Hi i Hi7) as [xs HM].
  destruct (put_block s M live a ar i j xs Hi Ha Hd Hi7 Hj HM (Hnin xs HM)) as (s2 & Hput & Hi2 & Hpal2 & Hc2 & Har2).
  fold p in Hput, Hi2, Hpal2, Hc2, Har2.
  assert (live !! p = Some (bs i)) as Hlive.
  { apply (i_live _ _ _ Hi). exists a, ar. split; [done|]. unfold block_of. rewrite Hd. by exists j. }
  assert (∀ b n x, delete p live !! b = Some n → b ≤ x < b + n → mem (pal s2) x = mem (pal s) x) as Hmem2.
  { intros b n x [Hne Hb]%lookup_delete_Some Hx. rewrite Hpal2. cbn. unfold mem_set. rewrite decide_False; [done|].
    destruct (live_disjoint s M live b n p (bs i)); [done..|lia|lia]. }
  unfold free. rewrite (proj2 (Z.eqb_neq p 0)) by (unfold ARENA_SIZE in *; lia).
  erewrite stM_bind_run; [|eapply (block_to_arena_run s a ar p (p - a)); try done; [lia|unfold ARENA_SIZE in *; lia|]].
  2: { rewrite Hd. exists (mk_desc (bs i) (bpa i) false), j. split; [|done]. rewrite (i_descs _ _ _ Hi). by apply std_lookup. }
  erewrite stM_bind_run by (unfold get_arena; rewrite Ha; reflexivity). rewrite Hd.
  erewrite stM_bind_run by (apply get_desc_run; [apply Hi|done]). cbn [block_size_of blocks_per_arena].
  rewrite Hd in Hput.
  apply stM_bind_inv in Hput as ([] & t1 & Hq1 & Hput). erewrite stM_bind_run by exact Hq1.
  apply stM_bind_inv in Hput as ([] & t2 & Hq2 & Hput). erewrite stM_bind_run by exact Hq2.
  apply stM_bind_inv in Hput as ([] & t3 & Hq3 & Hput). erewrite stM_bind_run by exact Hq3.
  apply stM_bind_inv in Hput as ([] & t4 & Hq4 & Hput). erewrite stM_bind_run by exact Hq4.
  erewrite stM_bind_run by exact Hput. rewrite Hc2.
  assert (arenas s2 !! a = Some (mk_arena (magic ar) (a_desc ar) (count_in a (p :: xs)))) as Ha2 by by rewrite Har2, lookup_insert_eq.
  destruct (count_le s2 _ _ a _ i (p :: xs) Hi2 Ha2 ltac:(by rewrite lookup_insert_eq) Hi7) as [Hcle Hcall].
  destruct (Z.leb_spec (bpa i) (count_in a (p :: xs))) as [Hfull|Hpart].
  - assert (count_in a (p :: xs) = bpa i) as Hceq by lia. rewrite Hceq, Z.eqb_refl. 
    destruct (drop_page s2 _ _ a _ i (p :: xs) Hi2 Ha2 Hd Hi7 ltac:(by rewrite lookup_insert_eq) Hceq) as (s3 & M3 & Hr3 & Hi3 & Har3 & Hmem3).
    exists (set_descs std_descs s3), M3. split.
    { rewrite !stM_bind_eq. cbn [sassert slift assert].
      rewrite stM_bind_eq in Hr3. rewrite stM_bind_eq. rewrite Hr3. cbn iota.
      rewrite (lock_release_run (set_descs (locked_descs i) s3) i) by done. done. }
    pose proof (i_descs _ _ _ Hi3) as Hd3. assert (set_descs std_descs s3 = s3) as -> by (destruct s3; cbn in Hd3 |- *; by subst).
    split; [done|]. split.
    + intros a2 ar2 k. rewrite Har3. intros [Hne H2]%lookup_delete_Some. rewrite Har2, lookup_insert_ne in H2 by done.
      by eapply Hidle.
    + intros b n x Hb Hx. rewrite Hmem3, (Hmem2 b n x Hb Hx); [done|].
      destruct (live_elsewhere s2 _ _ a _ b n Hi2 Ha2 Hb) as [?|Hge].
      * unfold block_of. cbn [a_desc]. rewrite Hd. intros (j2 & Hj2 & -> & _ & Hno).
        apply (Hno (p :: xs)); [by rewrite lookup_insert_eq|]. apply Hcall; [done|]. apply in_blocks; [done|]. by exists j2.
      * lia.
      * unfold pages_of in Hge. cbn [a_desc] in Hge. rewrite Hd in Hge. lia.
  - exists s2, (<[fl i := p :: xs]> M). split.
    { erewrite stM_bind_run by reflexivity. rewrite (lock_release_run _ i) by done.
      pose proof (i_descs _ _ _ Hi2) as Hd2. destruct s2. cbn in Hd2 |- *. by subst. }
    split; [done|]. split; [|by intros b n x; apply Hmem2].
    intros a2 ar2 k. rewrite Har2. intros [[<- <-]|[_ H2]]%lookup_insert_Some Hk; [|by eapply Hidle].
    cbn in Hk |- *. assert (k = i) as -> by congruence. done.
Qed.

Lemma free_spec s M live p n :
  inv s M live → no_idle s → live !! p = Some n →
  ∃ s' M', free descs_addr p s = Ok (tt, s') ∧ inv s' M' (delete p live) ∧ no_idle s' ∧
    untouched (mem (pal s)) (mem (pal s')) (delete p live).
Proof.
  intros Hi Hidle (a & ar & Ha & Hbo)%(i_live _ _ _ Hi). pose proof (i_arena _ _ _ Hi _ _ Ha) as Hok.
  unfold block_of, arena_ok in *. destruct (a_desc ar) as [i|] eqn:Hd.
  - destruct Hbo as (j & Hj & -> & _ & Hno). destruct Hok as [Hi7 _]. by apply (free_small s M live a ar i j).
  - destruct Hbo as [-> _]. destruct (free_big s M live a ar) as (s' & ?); [done..|]. by exists s', M.
Qed.

(** ** Initialisation *)

Definition empty_lists (n : nat) (M : gmap Z (list Z)) : Prop :=
  ∀ l xs, M !! l = Some xs ↔ ∃ k, (k < n)%nat ∧ l = fl k ∧ xs = [].

Lemma bs_S i : bs i * 2 = bs (S i).
Proof. unfold bs. rewrite Nat2Z.inj_succ, Z.pow_succ_r by lia. lia. Qed.

Lemma malloc_init_loop_spec fuel i s M :
  (i ≤ 7)%nat → (7 < fuel + i)%nat → descs s = take i std_descs → lists (links s) M → 0 < descs_addr → empty_lists i M →
  ∃ s' M', init_loop descs_addr fuel (bs i) s = Ok (tt, s') ∧ pal s' = pal s ∧ arenas s' = arenas s ∧
    descs s' = std_descs ∧ lists (links s') M' ∧ empty_lists 7 M'.
Proof.
  revert i s M. induction fuel as [|fuel IH]; intros i s M Hi Hf Hd Hl Ha HM; [lia|]. cbn [init_loop].
  destruct (decide (i = 7)%nat) as [->|Hne].
  { exists s, M. split; [done|]. rewrite Hd. done. }
  assert (i < 7)%nat as Hi7 by lia. destruct (bs_bounds i Hi7) as [Hbs _].
  rewrite (proj2 (Z.ltb_lt (bs i) (PGSIZE `div` 2))) by (change (PGSIZE `div` 2) with 2048; lia).
  erewrite stM_bind_run by reflexivity. assert (length (descs s) = i) as ->.
  { rewrite Hd, length_take. change (length std_descs) with 7%nat. lia. }
  rewrite (proj2 (Nat.leb_le (S i) 10)) by lia. erewrite stM_bind_run by reflexivity. erewrite stM_bind_run by reflexivity.
  assert (∀ a, a ∈ KList.ring (fl i) [] → apart M (fl i) a) as Hap.
  { intros a Hr l2 xs2 Hn2 (k & Hk & -> & ->)%HM Hx. apply KList.in_ring in Hr, Hx. unfold free_list, DESC_SIZE in *.
    destruct Hr as [->|[Hr| ->]], Hx as [Hx|[Hx|Hx]]; try lia; by apply not_elem_of_nil in Hr || apply not_elem_of_nil in Hx. }
  destruct (lists_init (links s) M (fl i)) as (h & Hr & Hl' & _);
    [done|unfold KList.NULL, free_list, DESC_SIZE; lia..|apply Hap, KList.in_ring; auto|apply Hap, KList.in_ring; auto|].
  erewrite stM_bind_run by (unfold on_links; cbn [links set_descs]; rewrite Hr; reflexivity).
  rewrite bs_S. destruct (IH (S i) (set_links h (set_descs (descs s ++ [mk_desc (bs i) ((PGSIZE - ARENA_SIZE) `div` bs i) false]) s))
    (<[fl i := []]> M)) as (s' & M' & Hr' & H1 & H2 & H3 & H4 & H5); [lia|lia| |done|done| |].
  - cbn [descs set_links set_descs]. rewrite Hd. symmetry. apply take_S_r. by apply std_lookup.
  - intros l xs. split.
    + intros [[<- <-]|[_ (k & Hk & ? & ?)%HM]]%lookup_insert_Some; [exists i|exists k]; (split; [lia|done]).
    + intros (k & Hk & -> & ->). destruct (decide (k = i)) as [->|]; [by rewrite lookup_insert_eq|].
      rewrite lookup_insert_ne by (intros ?%fl_inj; congruence). apply HM. exists k. split; [lia|done].
  - by exists s', M'.
Qed.

(** Before [malloc_init]: no arenas, no descriptors, nothing linked. *)
Definition boot (p : palloc) : mstate := mk_mstate p ∅ ∅ [].

Lemma malloc_init_spec p :
  palloc_ok p → 0 < descs_addr → descs_addr + 10 * DESC_SIZE ≤ base (kernel_pool p) →
  ∃ s M, malloc_init descs_addr (boot p) = Ok (tt, s) ∧ pal s = p ∧ inv s M ∅ ∧ no_idle s.
Proof.
  intros Hp Ha Hst. destruct (malloc_init_loop_spec 12 0 (boot p) ∅) as (s & M & Hr & H1 & H2 & H3 & H4 & H5); [lia|lia|done|by split|done| |].
  { intros l xs. rewrite lookup_empty. split; [done|]. intros (k & ? & _). lia. }
  exists s, M. split; [exact Hr|]. split; [done|]. cbn in H1, H2. split; [|intros a ar i; by rewrite H2, lookup_empty].
  split; rewrite ?H1; try done; try (by intros ? ?; rewrite H2, lookup_empty).
  - intros i Hi. exists []. apply H5. by exists i.
  - intros l xs (k & Hk & -> & _)%H5. by exists k.
  - by intros i xs b (k & _ & _ & ->)%H5 ?%not_elem_of_nil.
  - intros b n. rewrite lookup_empty. split; [done|]. intros (a & ar & Hx & _). by rewrite H2, lookup_empty in Hx.
Qed.

(** ** All of malloc *)

(** The largest request that does not wrap around when the header is added. *)
Definition MAX_REQUEST : Z := W32 - ARENA_SIZE.

Lemma big_desc size : 2048 < size → find_desc size std_descs = None.
Proof. intros Hs. apply find_index_None. intros i d [Hi7 ->]%std_lookup. apply Z.leb_gt. destruct (bs_bounds i Hi7). cbn. unfold PGSIZE in *. lia. Qed.

(** In the last page below that the number of pages wraps around to none. *)
Lemma malloc_no_pages s M live size :
  inv s M live → MAX_REQUEST - PGSIZE < size ≤ MAX_REQUEST → malloc descs_addr size s = Ok (0, s).
Proof.
  intros Hi Hs. unfold MAX_REQUEST, PGSIZE, ARENA_SIZE in *. unfold malloc. rewrite (proj2 (Z.eqb_neq size 0)) by lia.
  erewrite stM_bind_run by reflexivity. rewrite (i_descs _ _ _ Hi), big_desc by lia.
  assert (u32 (u32 (size + 12) + 4096 - 1) / 4096 = 0) as E by (unfold u32; dlia). unfold ARENA_SIZE, PGSIZE. rewrite E.
  rewrite stM_bind_eq. unfold on_pal. cbn. by destruct s.
Qed.

Lemma malloc_spec s M live size :
  inv s M live → no_idle s → 0 ≤ size ≤ MAX_REQUEST →
  ∃ p s' M', malloc descs_addr size s = Ok (p, s') ∧ no_idle s' ∧ malloc_ok s live size p s' M'.
Proof.
  intros Hi Hidle Hs. destruct (decide (size = 0)) as [->|H0]; [exists 0, s, M; split; [done|]; split; [done|by left]|].
  destruct (decide (MAX_REQUEST - PGSIZE < size)) as [Hw|Hw].
  { exists 0, s, M. split; [apply (malloc_no_pages s M live); [done|lia]|]. split; [done|by left]. }
  unfold MAX_REQUEST in *. destruct (find_desc size std_descs) as [i|] eqn:Hf.
  - eapply malloc_small; [done..|lia|done].
  - destruct (malloc_big s M live size) as (p & s' & ?); [done|done|lia|lia|done|]. by exists p, s', M.
Qed.

(** What a new block leaves alone. *)
Lemma malloc_apart s M M' live size p s' :
  inv s M live → malloc_ok s live size p s' M' → p ≠ 0 →
  untouched (mem (pal s)) (mem (pal s')) live ∧ ∀ b n, live !! b = Some n → p + size ≤ b ∨ b + n ≤ p.
Proof.
  intros Hi [[? _]|(_ & n & Hn & Hnone & Hi' & Hm)] Hp; [done|].
  assert (∀ b m, live !! b = Some m → p + n ≤ b ∨ b + m ≤ p) as Hdis.
  { intros b m Hb. eapply (live_disjoint s' M' _ p n b m Hi'); [by rewrite lookup_insert_eq| |congruence].
    rewrite lookup_insert_ne; [done|congruence]. }
  split; [|intros b m Hb; destruct (Hdis b m Hb); [left|right]; lia].
  intros b m x Hb Hx. apply Hm. destruct (Hdis b m Hb); [right|left]; lia.
Qed.

Lemma block_size_run s M live b n : inv s M live → live !! b = Some n → block_size b s = Ok (n, s).
Proof.
  intros Hi (a & ar & Ha & Hbo)%(i_live _ _ _ Hi). destruct (block_of_range _ _ _ _ _ _ _ Hi Ha Hbo) as (Hn & Hlo & Hhi).
  destruct (i_magic _ _ _ Hi _ _ Ha) as [Hm Hp]. destruct (arena_range _ _ _ _ _ Hi Ha) as (_ & _ & Hal).
  destruct (arena_u32 _ _ _ _ _ Hi Ha) as (Ha0 & Hw1 & Hw). pose proof (i_arena _ _ _ Hi _ _ Ha) as Hok.
  assert (b - a < PGSIZE) as Hofs.
  { unfold block_of, arena_ok in *. destruct (a_desc ar) as [i|].
    - destruct Hbo as (j & Hj & -> & _). destruct Hok as [Hi7 _]. pose proof (block_fits a i j Hi7 Hj). destruct (bs_bounds i Hi7). lia.
    - destruct Hbo as [-> _]. unfold ARENA_SIZE, PGSIZE. lia. }
  unfold block_size. erewrite stM_bind_run; [|eapply (block_to_arena_run s a ar b (b - a)); try done; [lia|unfold ARENA_SIZE in *; lia|]].
  2: { unfold block_of, arena_ok in *. destruct (a_desc ar) as [i|].
       - destruct Hbo as (j & Hj & -> & _). destruct Hok as [Hi7 _]. exists (mk_desc (bs i) (bpa i) false), j.
         split; [|done]. rewrite (i_descs _ _ _ Hi). by apply std_lookup.
       - destruct Hbo as [-> _]. lia. }
  erewrite stM_bind_run by (unfold get_arena; rewrite Ha; reflexivity). unfold block_of, arena_ok, pages_of in *.
  destruct (a_desc ar) as [i|].
  - destruct Hbo as (j & _ & _ & -> & _). destruct Hok as [Hi7 _]. by erewrite stM_bind_run by (apply get_desc_run; [apply Hi|done]).
  - destruct Hbo as [-> ->]. rewrite pg_ofs_mod. replace ((a + ARENA_SIZE) mod PGSIZE) with ARENA_SIZE
      by (unfold ARENA_SIZE, PGSIZE in *; dlia). rewrite u32_small; [done|]. unfold in_u32, ARENA_SIZE, PGSIZE in *. lia.
Qed.

Lemma null_not_live s M live : inv s M live → live !! 0 = None.
Proof.
  intros Hi. apply eq_None_not_Some. intros [n Hl]. apply (i_live _ _ _ Hi) in Hl as (a & ar & Ha & Hbo). destruct (arena_u32 _ _ _ _ _ Hi Ha) as (? & _).
  destruct (block_of_range _ _ _ _ _ _ _ Hi Ha Hbo) as (_ & ? & _). unfold ARENA_SIZE in *. lia.
Qed.

(** The contents of memory do not matter to the allocator. *)
Lemma inv_mem s M live f : inv s M live → inv (set_pal (set_mem f (pal s)) s) M live.
Proof. intros []. split; try done. destruct (i_pal0). by split. Qed.

Lemma realloc_spec s M live old n0 size :
  inv s M live → no_idle s → live !! old = Some n0 → 0 < size ≤ MAX_REQUEST →
  ∃ p s' M', realloc descs_addr old size s = Ok (p, s') ∧ no_idle s' ∧
    ((p = 0 ∧ s' = s) ∨
     (p ≠ 0 ∧ ∃ n, size ≤ n ∧ live !! p = None ∧ inv s' M' (<[p := n]> (delete old live)) ∧
       (∀ k, 0 ≤ k < Z.min size n0 → mem (pal s') (p + k) = mem (pal s) (old + k)) ∧
       untouched (mem (pal s)) (mem (pal s')) (delete old live))).
Proof.
  intros Hi Hidle Hold Hs. destruct (malloc_spec s M live size Hi Hidle ltac:(lia)) as (p & s1 & M1 & Hr & Hidle1 & Hok).
  unfold realloc. rewrite (proj2 (Z.eqb_neq size 0)) by lia. erewrite stM_bind_run by exact Hr.
  destruct Hok as [[-> ->]|(Hp & n & Hn & Hnone & Hi1 & Hmem)].
  { exists 0, s, M. rewrite Z.eqb_refl, andb_false_r. split; [done|]. split; [done|]. by left. }
  assert (old ≠ p) as Hne by (intros ->; congruence).
  assert (old ≠ 0) as Hold0 by (intros ->; by rewrite (null_not_live s M live) in Hold).
  rewrite (proj2 (Z.eqb_neq old 0)), (proj2 (Z.eqb_neq p 0)) by done. cbn [negb andb].
  assert ((<[p := n]> live) !! old = Some n0) as Hold1 by by rewrite lookup_insert_ne.
  rewrite stM_bind_eq. erewrite stM_bind_run by by eapply block_size_run.
  set (k := if size <? n0 then size else n0). assert (k = Z.min size n0) as Hk by (unfold k; destruct (Z.ltb_spec size n0); lia).
  erewrite stM_bind_run by reflexivity.
  match goal with |- context [free descs_addr old ?st] => set (s2 := st) end.
  assert (inv s2 M1 (<[p := n]> live)) as Hi2 by by apply inv_mem.
  destruct (free_spec s2 M1 _ old n0 Hi2 Hidle1 Hold1) as (s3 & M3 & Hr3 & Hi3 & Hidle3 & Hunt). rewrite Hr3.
  exists p, s3, M3. split; [done|]. split; [done|]. right. split; [done|]. exists n. split; [done|]. split; [done|].
  rewrite delete_insert_ne in Hi3, Hunt by done. split; [done|].
  destruct (live_disjoint s1 M1 _ p n old n0 Hi1 ltac:(by rewrite lookup_insert_eq) Hold1 ltac:(congruence)) as [Hd|Hd].
  all: split; [intros j Hj; rewrite (Hunt p n (p + j)) by (by rewrite ?lookup_insert_eq || lia)
             |intros b m x Hb Hx; rewrite (Hunt b m x);
                [|rewrite lookup_insert_ne; [done|intros ->; apply lookup_delete_Some in Hb as [_ Hb]; congruence]|done]];
    cbn [s2 pal set_pal set_mem mem]; unfold mem_copy.
  1, 3: rewrite decide_True by lia; replace (p + j - p) with j by lia; apply Hmem; lia.
  all: apply lookup_delete_Some in Hb as [Hbo Hb];
    destruct (live_disjoint s1 M1 _ p n b m Hi1 ltac:(by rewrite lookup_insert_eq)
      ltac:(rewrite lookup_insert_ne; [done|congruence]) ltac:(congruence));
    rewrite decide_False by lia; apply Hmem; lia.
Qed.

(** Every case of [realloc]: [old] is null or a block, [size] may be 0. *)
Definition realloc_ok s live old size p s' M' : Prop :=
  if decide (size = 0) then p = 0 ∧ inv s' M' (delete old live) ∧ untouched (mem (pal s)) (mem (pal s')) (delete old live)
  else
    (p = 0 ∧ s' = s) ∨
    (p ≠ 0 ∧ ∃ n, size ≤ n ∧ live !! p = None ∧ inv s' M' (<[p := n]> (delete old live)) ∧
      (∀ n0 k, live !! old = Some n0 → 0 ≤ k < Z.min size n0 → mem (pal s') (p + k) = mem (pal s) (old + k)) ∧
      untouched (mem (pal s)) (mem (pal s')) (delete old live)).
Lemma realloc_any s M live old size :
  inv s M live → no_idle s → old = 0 ∨ is_Some (live !! old) → 0 ≤ size ≤ MAX_REQUEST →
  ∃ p s' M', realloc descs_addr old size s = Ok (p, s') ∧ no_idle s' ∧ realloc_ok s live old size p s' M'.
Proof.
  intros Hi Hidle Hold Hs. pose proof (null_not_live s M live Hi) as H0. unfold realloc_ok. destruct (decide (size = 0)) as [->|Hne].
  { unfold realloc. cbn [Z.eqb]. destruct Hold as [->|[n Hold]].
    - exists 0, s, M. rewrite delete_id by done. by split_and!.
    - destruct (free_spec s M live old n Hi Hidle Hold) as (s' & M' & Hr & Hi' & Hidle' & Hu). erewrite stM_bind_run by exact Hr.
      exists 0, s', M'. by split_and!. }
  destruct Hold as [->|[n0 Hold]].
  - destruct (malloc_spec s M live size Hi Hidle Hs) as (p & s' & M' & Hr & Hidle' & Hok). exists p, s', M'.
    unfold realloc. rewrite (proj2 (Z.eqb_neq size 0)) by done. erewrite stM_bind_run by exact Hr. cbn [Z.eqb negb andb].
    split; [done|]. split; [done|]. pose proof Hok as [?|(Hp & n & Hn & Hnone & Hi' & _)]; [by left|right]. split; [done|]. exists n.
    rewrite delete_id by done. split_and!; [done..|intros n1 k Hx; by rewrite H0 in Hx|]. by apply (malloc_apart s M M' live size p s').
  - destruct (realloc_spec s M live old n0 size Hi Hidle Hold ltac:(lia)) as (p & s' & M' & Hr & Hidle' & Hok). exists p, s', M'.
    split; [done|]. split; [done|]. destruct Hok as [?|(Hp & n & Hn & Hnone & Hi' & Hk & Hu)]; [by left|right]. split; [done|]. exists n.
    split_and!; [done..| |done]. intros n1 k Hx. rewrite Hold in Hx. injection Hx as <-. apply Hk.
Qed.

(** [calloc] of a product that is not too large. *)
Lemma calloc_spec s M live a b :
  inv s M live → no_idle s → 0 ≤ a < W32 → 0 ≤ b < W32 → a * b ≤ MAX_REQUEST →
  ∃ p s' M', calloc descs_addr a b s = Ok (p, s') ∧ no_idle s' ∧ malloc_ok s live (a * b) p s' M' ∧
    (p ≠ 0 → ∀ x, p ≤ x < p + a * b → mem (pal s') x = 0).
Proof.
  intros Hi Hidle Ha Hb Hab. unfold calloc. assert (0 ≤ a * b) as Hab0 by nia.
  rewrite u32_small by (unfold in_u32, MAX_REQUEST, ARENA_SIZE in *; lia).
  destruct ((a * b <? a) || (a * b <? b)); [exists 0, s, M; split; [done|]; split; [done|]; split; [by left|done]|].
  destruct (malloc_spec s M live (a * b) Hi Hidle ltac:(lia)) as (p & s1 & M1 & Hr & Hidle1 & Hok). erewrite stM_bind_run by exact Hr.
  destruct Hok as [[-> ->]|(Hp & n & Hn & Hnone & Hi1 & Hm)]; [exists 0, s, M; split; [done|]; split; [done|]; split; [by left|done]|].
  rewrite (proj2 (Z.eqb_neq p 0)) by done. erewrite stM_bind_run by reflexivity. eexists p, _, M1. split; [reflexivity|]. split; [done|]. split.
  - right. split; [done|]. exists n. split_and!; [done|done|by apply inv_mem|]. intros x Hx. cbn. unfold mem_set. rewrite decide_False by lia. by apply Hm.
  - intros _ x Hx. cbn. unfold mem_set. by rewrite decide_True by lia.
Qed.

(** ** The life of the allocator *)

(** The states that follow [malloc_init]: the client allocates, clears, frees
    and reallocates, null pointers and empty requests included, and writes into
    what it has.  [live] holds the sizes it asked for. *)
Definition gets (live : gmap Z Z) (p size : Z) : gmap Z Z := if decide (p = 0) then live else <[p := size]> live.
Inductive reach (p0 : palloc) : mstate → gmap Z Z → Prop :=
| reach_init s : malloc_init descs_addr (boot p0) = Ok (tt, s) → reach p0 s ∅
| reach_malloc s live size p s' :
    reach p0 s live → 0 ≤ size ≤ MAX_REQUEST → malloc descs_addr size s = Ok (p, s') → reach p0 s' (gets live p size)
| reach_calloc s live a b p s' :
    reach p0 s live → 0 ≤ a < W32 → 0 ≤ b < W32 → a * b ≤ MAX_REQUEST → calloc descs_addr a b s = Ok (p, s') →
    reach p0 s' (gets live p (a * b))
| reach_free s live p s' :
    reach p0 s live → p = 0 ∨ is_Some (live !! p) → free descs_addr p s = Ok (tt, s') → reach p0 s' (delete p live)
| reach_realloc s live old size p s' :
    reach p0 s live → old = 0 ∨ is_Some (live !! old) → 0 ≤ size ≤ MAX_REQUEST → realloc descs_addr old size s = Ok (p, s') →
    reach p0 s' (if decide (size = 0) then delete old live else if decide (p = 0) then live else <[p := size]> (delete old live))
| reach_write s live p n x v :
    reach p0 s live → live !! p = Some n → p ≤ x < p + n → reach p0 (set_pal (set_mem (mem_set x v 1) (pal s)) s) live.

(** The blocks are at least as large as what was asked for. *)
Definition covers (live big : gmap Z Z) : Prop :=
  (∀ b n, live !! b = Some n → ∃ m, big !! b = Some m ∧ n ≤ m) ∧ (∀ b, is_Some (big !! b) → is_Some (live !! b)).

Lemma covers_insert live big p n m : covers live big → n ≤ m → covers (<[p := n]> live) (<[p := m]> big).
Proof.
  intros [H1 H2] Hn. split.
  - intros b k [[<- <-]|[Hne Hb]]%lookup_insert_Some; [exists m; by rewrite lookup_insert_eq|].
    rewrite lookup_insert_ne by done. by apply H1.
  - intros b. destruct (decide (p = b)) as [<-|]; [intros _; rewrite lookup_insert_eq; by eexists|]. rewrite !lookup_insert_ne by done. apply H2.
Qed.

Lemma covers_delete live big p : covers live big → covers (delete p live) (delete p big).
Proof.
  intros [H1 H2]. split.
  - intros b k [Hne Hb]%lookup_delete_Some. rewrite lookup_delete_ne by done. by apply H1.
  - intros b. destruct (decide (p = b)) as [<-|]; [rewrite lookup_delete_eq; by intros [? ?]|]. rewrite !lookup_delete_ne by done. apply H2.
Qed.

Lemma covers_gets live big s M M' size p s' :
  covers live big → inv s M big → no_idle s' → malloc_ok s big size p s' M' → ∃ M big, inv s' M big ∧ no_idle s' ∧ covers (gets live p size) big.
Proof.
  intros Hc Hi Hidle [[-> ->]|(Hp0 & n & Hn & _ & Hi' & _)]; unfold gets.
  - rewrite decide_True by done. by exists M, big.
  - rewrite decide_False by done. exists M', (<[p := n]> big). split; [done|]. split; [done|]. by apply covers_insert.
Qed.
Lemma covers_ptr live big p : covers live big → p = 0 ∨ is_Some (live !! p) → p = 0 ∨ is_Some (big !! p).
Proof. intros [H1 _] [?|[n Hl]]; [by left|right]. destruct (H1 p n Hl) as (m & Hm & _). by eexists. Qed.

(** [free] of a block or of the null pointer. *)
Lemma free_any s M live p :
  inv s M live → no_idle s → p = 0 ∨ is_Some (live !! p) →
  ∃ s' M', free descs_addr p s = Ok (tt, s') ∧ inv s' M' (delete p live) ∧ no_idle s' ∧ untouched (mem (pal s)) (mem (pal s')) (delete p live).
Proof.
  intros Hi Hidle [->|[n Hl]]; [|by eapply free_spec]. exists s, M. rewrite delete_id by (by eapply null_not_live). by split_and!.
Qed.

Lemma reach_inv p0 s live :
  palloc_ok p0 → 0 < descs_addr → descs_addr + 10 * DESC_SIZE ≤ base (kernel_pool p0) → reach p0 s live →
  ∃ M big, inv s M big ∧ no_idle s ∧ covers live big.
Proof.
  intros Hp Ha Hst. induction 1 as [s Hr|s live size p s' _ IH Hs Hr|s live x y p s' _ IH Hx Hy Hs Hr|s live p s' _ IH Hl Hr|s live old size p s' _ IH Hl Hs Hr|
    s live p n x v _ IH Hl Hx].
  - destruct (malloc_init_spec p0 Hp Ha Hst) as (s' & M & Hr' & _ & Hi & Hidle). rewrite Hr in Hr'. injection Hr' as <-.
    exists M, ∅. split; [done|]. split; [done|]. split; [by intros b n; rewrite lookup_empty|]. intros b. rewrite lookup_empty. by intros [? ?].
  - destruct IH as (M & big & Hi & Hidle & Hc). destruct (malloc_spec s M big size Hi Hidle Hs) as (p2 & s2 & M' & Hr2 & Hidle' & Hok).
    rewrite Hr in Hr2. injection Hr2 as <- <-. by eapply covers_gets.
  - destruct IH as (M & big & Hi & Hidle & Hc). destruct (calloc_spec s M big x y Hi Hidle Hx Hy Hs) as (p2 & s2 & M' & Hr2 & Hidle' & Hok & _).
    rewrite Hr in Hr2. injection Hr2 as <- <-. by eapply covers_gets.
  - destruct IH as (M & big & Hi & Hidle & Hc). destruct (free_any s M big p Hi Hidle) as (s2 & M' & Hr2 & Hi' & Hidle' & _); [by eapply covers_ptr|].
    rewrite Hr in Hr2. injection Hr2 as <-. exists M', (delete p big). split; [done|]. split; [done|]. by apply covers_delete.
  - destruct IH as (M & big & Hi & Hidle & Hc). destruct (realloc_any s M big old size Hi Hidle) as (p2 & s2 & M' & Hr2 & Hidle' & Hok); [by eapply covers_ptr|done|].
    rewrite Hr in Hr2. injection Hr2 as <- <-. unfold realloc_ok in Hok. destruct (decide (size = 0)).
    { destruct Hok as (_ & Hi' & _). exists M', (delete old big). split; [done|]. split; [done|]. by apply covers_delete. }
    destruct Hok as [[-> ->]|(Hp0 & k & Hk & _ & Hi' & _)].
    + rewrite decide_True by done. by exists M, big.
    + rewrite decide_False by done. exists M', (<[p := k]> (delete old big)). split; [done|]. split; [done|].
      by apply covers_insert, Hk; apply covers_delete.
  - destruct IH as (M & big & Hi & Hidle & Hc). exists M, big. split; [by apply inv_mem|]. done.
Qed.

Lemma covers_untouched live big m m' : covers live big → untouched m m' big → untouched m m' live.
Proof. intros [H1 _] Hu b n x Hb Hx. destruct (H1 b n Hb) as (k & Hk & ?). apply (Hu b k x Hk). lia. Qed.
End allocator.

(** With nothing handed out, no arena is left. *)
Lemma no_arena_left descs_addr s M live :
  inv descs_addr s M live → no_idle s → live = ∅ → arenas s = ∅.
Proof.
  intros Hi Hidle ->. apply map_empty. intros a. apply eq_None_not_Some. intros [ar Ha].
  assert (∀ b n, ¬ block_of descs_addr M a ar b n) as Hno.
  { intros b n Hbo. assert ((∅ : gmap Z Z) !! b = Some n) as Hx by (apply (i_live _ _ _ _ Hi); by exists a, ar).
    by rewrite lookup_empty in Hx. }
  pose proof (i_arena _ _ _ _ Hi _ _ Ha) as Hok. unfold arena_ok, block_of in *. destruct (a_desc ar) as [i|] eqn:Hd; [|naive_solver].
  destruct Hok as (Hi7 & xs & Hxs & Hc). pose proof (Hidle a ar i Ha Hd) as Hlt.
  assert (blocks a i ⊆+ filter (λ b, a ≤ b < a + PGSIZE) xs) as Hsub.
  { apply NoDup_submseteq; [by apply nodup_blocks|]. intros b Hb. pose proof (blocks_page a i b Hi7 Hb).
    destruct (bs_bounds i Hi7). apply list_elem_of_filter. split; [unfold ARENA_SIZE in *; lia|].
    apply in_blocks in Hb as (j & Hj & ->); [|done]. destruct (decide (block a i j ∈ xs)) as [|Hn]; [done|].
    exfalso. apply (Hno (block a i j) (bs i)). exists j. do 3 (split; [done|]). intros ys Hys. by simplify_eq. }
  pose proof (submseteq_length _ _ Hsub). pose proof (length_blocks a i Hi7). unfold count_in in Hc. lia.
Qed.

(** A request within twelve bytes of the largest 32-bit size wraps around
    when the arena header is added: unless no page is free, [malloc] returns
    a block of 4084 bytes for it instead of failing. *)
Lemma malloc_wraps descs_addr s M big size :
  inv descs_addr s M big → MAX_REQUEST < size < W32 →
  ∃ p s', malloc descs_addr size s = Ok (p, s') ∧ (p = 0 ∧ s' = s ∧ (∀ a, ¬ free_run (kernel_pool (pal s)) a 1) ∨ p ≠ 0 ∧ block_size p s' = Ok (4084, s')).
Proof.
  intros Hi Hs. unfold malloc. rewrite (proj2 (Z.eqb_neq size 0)) by (unfold MAX_REQUEST, ARENA_SIZE in *; lia).
  erewrite stM_bind_run by reflexivity. rewrite (i_descs _ _ _ _ Hi), big_desc by (unfold MAX_REQUEST, ARENA_SIZE in *; lia).
  assert (u32 (u32 (size + ARENA_SIZE) + PGSIZE - 1) / PGSIZE = 1) as ->.
  { unfold MAX_REQUEST, ARENA_SIZE, PGSIZE in *. assert (u32 (size + 12) = size + 12 - W32) as -> by (unfold u32; dlia).
    rewrite u32_small by (unfold in_u32; lia). dlia. }
  destruct (get_pages_spec descs_addr s M big 1 Hi ltac:(lia)) as [[Hr0 Hno]|(b & p' & Hr1 & Hfr & Hset & Hok & Hb & Hw)].
  { erewrite stM_bind_run by exact Hr0. exists 0, s. split; [done|]. left. by split_and!. }
  erewrite stM_bind_run by exact Hr1. rewrite (proj2 (Z.eqb_neq b 0)) by lia. erewrite stM_bind_run by reflexivity.
  rewrite u32_small by (unfold in_u32, ARENA_SIZE, PGSIZE in *; lia). eexists _, _. split; [reflexivity|]. right.
  split; [unfold ARENA_SIZE; lia|].
  eapply (block_size_run descs_addr _ M (<[b + ARENA_SIZE := PGSIZE * 1 - ARENA_SIZE]> big)).
  - eapply (inv_new_big descs_addr s); try done. apply Hi.
  - by rewrite lookup_insert_eq.
Qed.

(** C14: the block allocator is sound, for every request up to 12 bytes below
    the largest 32-bit number.  However a client uses [malloc], [calloc] (with a
    product up to that limit), [free] and [realloc], null pointers and empty
    requests included, and writes into its blocks: the blocks it holds never
    overlap; an allocation returns null and changes nothing, or returns a block
    of the requested size, for [calloc] of zeros, apart from all that are held
    and leaves the bytes of those alone; freeing succeeds and leaves the other
    blocks' bytes alone; [realloc] returns null and changes nothing, or for size
    0 frees, or returns a block that begins with the old contents as far as both
    go; and once everything is freed every arena has been given back.  A larger
    request is a defect: it wraps around, and gets null or a block of 4084
    bytes. *)
Theorem malloc_sound descs_addr p0 s live :
  palloc_ok p0 → 0 < descs_addr → descs_addr + 10 * DESC_SIZE ≤ base (kernel_pool p0) → reach descs_addr p0 s live →
  (∀ b1 n1 b2 n2, live !! b1 = Some n1 → live !! b2 = Some n2 → b1 ≠ b2 → b1 + n1 ≤ b2 ∨ b2 + n2 ≤ b1) ∧
  (∀ size, 0 ≤ size ≤ W32 - ARENA_SIZE → ∃ p s', malloc descs_addr size s = Ok (p, s') ∧
     (p = 0 ∧ s' = s ∨ p ≠ 0 ∧ untouched (mem (pal s)) (mem (pal s')) live ∧
        ∀ b n, live !! b = Some n → p + size ≤ b ∨ b + n ≤ p)) ∧
  (∀ x y, 0 ≤ x < W32 → 0 ≤ y < W32 → x * y ≤ W32 - ARENA_SIZE → ∃ p s', calloc descs_addr x y s = Ok (p, s') ∧
     (p = 0 ∧ s' = s ∨ p ≠ 0 ∧ untouched (mem (pal s)) (mem (pal s')) live ∧
        (∀ b n, live !! b = Some n → p + x * y ≤ b ∨ b + n ≤ p) ∧ ∀ k, 0 ≤ k < x * y → mem (pal s') (p + k) = 0)) ∧
  (∀ p, p = 0 ∨ is_Some (live !! p) → ∃ s', free descs_addr p s = Ok (tt, s') ∧
     untouched (mem (pal s)) (mem (pal s')) (delete p live)) ∧
  (∀ old size, old = 0 ∨ is_Some (live !! old) → 0 ≤ size ≤ W32 - ARENA_SIZE → ∃ p s', realloc descs_addr old size s = Ok (p, s') ∧
     (size ≠ 0 ∧ p = 0 ∧ s' = s ∨
      untouched (mem (pal s)) (mem (pal s')) (delete old live) ∧
        (size = 0 ∧ p = 0 ∨
         size ≠ 0 ∧ p ≠ 0 ∧ (∀ b n, delete old live !! b = Some n → p + size ≤ b ∨ b + n ≤ p) ∧
           ∀ n k, live !! old = Some n → 0 ≤ k < Z.min size n → mem (pal s') (p + k) = mem (pal s) (old + k)))) ∧
  (live = ∅ → arenas s = ∅) ∧
  (∀ size, W32 - ARENA_SIZE < size < W32 → ∃ p s', malloc descs_addr size s = Ok (p, s') ∧
     (p = 0 ∧ s' = s ∧ (∀ a, ¬ free_run (kernel_pool (pal s)) a 1) ∨ p ≠ 0 ∧ block_size p s' = Ok (4084, s'))).
Proof.
  intros Hp Ha Hst Hr. destruct (reach_inv _ _ _ _ Hp Ha Hst Hr) as (M & big & Hi & Hidle & Hc). pose proof Hc as [Hc1 Hc2].
  assert (∀ p size (m : gmap Z Z) M', (∀ b n, m !! b = Some n → ∃ k, big !! b = Some k ∧ n ≤ k) → ∀ s', malloc_ok descs_addr s big size p s' M' → p ≠ 0 →
    ∀ b n, m !! b = Some n → p + size ≤ b ∨ b + n ≤ p) as Hdis.
  { intros p size m M' Hm s' Hok Hp0 b n (k & Hk & ?)%Hm. destruct (malloc_apart _ _ _ _ _ _ _ _ Hi Hok Hp0) as [_ Hd]. destruct (Hd b k Hk); [left|right]; lia. }
  assert (∀ p size M' s', malloc_ok descs_addr s big size p s' M' → p ≠ 0 → untouched (mem (pal s)) (mem (pal s')) live) as Hunt.
  { intros p size M' s' Hok Hp0. eapply covers_untouched; [exact Hc|]. by eapply malloc_apart. }
  split_and!.
  - intros b1 n1 b2 n2 (m1 & H1 & ?)%Hc1 (m2 & H2 & ?)%Hc1 Hne.
    destruct (live_disjoint _ _ _ _ _ _ _ _ Hi H1 H2 Hne); [left|right]; lia.
  - intros size Hs. destruct (malloc_spec _ _ _ _ _ Hi Hidle Hs) as (p & s' & M' & Hx & _ & Hok). exists p, s'.
    split; [done|]. pose proof Hok as [?|(Hp0 & _)]; [by left|right]. split_and!; [done|by eapply Hunt|by eapply Hdis].
  - intros x y Hx Hy Hs. destruct (calloc_spec _ _ _ _ _ _ Hi Hidle Hx Hy Hs) as (p & s' & M' & Hr' & _ & Hok & Hz). exists p, s'.
    split; [done|]. pose proof Hok as [?|(Hp0 & _)]; [by left|right]. split_and!; [done|by eapply Hunt|by eapply Hdis|].
    intros k Hk. apply Hz; [done|lia].
  - intros p Hl. destruct (free_any _ _ _ _ p Hi Hidle) as (s' & M' & Hx & _ & _ & Hu); [by eapply covers_ptr|]. exists s'. split; [done|].
    eapply covers_untouched; [|exact Hu]. by apply covers_delete.
  - intros old size Hl Hs. destruct (realloc_any _ _ _ _ old size Hi Hidle) as (p & s' & M' & Hx & _ & Hok); [by eapply covers_ptr|done|]. exists p, s'.
    split; [done|]. pose proof (covers_delete _ _ old Hc) as Hcd. unfold realloc_ok in Hok. destruct (decide (size = 0)) as [->|Hs0].
    + destruct Hok as (-> & _ & Hu). right. split; [by eapply covers_untouched|by left].
    + destruct Hok as [[-> ->]|(Hp0 & n & Hn & Hnone & Hi' & Hk & Hu)]; [by left|right]. split; [by eapply covers_untouched|right]. split_and!; [done|done| |].
      * intros b m (k & Hk' & ?)%(proj1 Hcd). assert (p ≠ b) by (intros ->; apply lookup_delete_Some in Hk' as [_ ?]; congruence).
        destruct (live_disjoint _ _ _ _ p n b k Hi'); [by rewrite lookup_insert_eq|by rewrite lookup_insert_ne|done|left; lia|right; lia].
      * intros m k Hm Hk'. destruct (Hc1 old m Hm) as (m' & Hm' & ?). apply (Hk m' k Hm'). lia.
  - intros ->. eapply no_arena_left; [done..|]. apply map_empty. intros b. apply eq_None_not_Some. intros [k Hk]%Hc2.
    by rewrite lookup_empty in Hk.
  - intros size Hs. by eapply malloc_wraps.
Qed.

(** ** A machine with 300 pages of memory *)

Definition blank_pool : pool := mk_pool false (Bitmap.mk_bitmap 0 []) 0.
Definition blank : palloc := mk_palloc blank_pool blank_pool (λ _, 0).
Definition sample_pal : palloc := match palloc_init 300 1000 blank with Ok (_, s) => s | Err _ => blank end.
Definition sample_descs : Z := PHYS_BASE + 65536.

(** After [malloc_init] and after [malloc (100)]. *)
Definition sample_boot : mstate := match malloc_init sample_descs (boot sample_pal) with Ok (_, s) => s | Err _ => boot sample_pal end.
Definition sample_state : mstate := match malloc sample_descs 100 sample_boot with Ok (_, s) => s | Err _ => sample_boot end.
Definition sample_p : Z := match malloc sample_descs 100 sample_boot with Ok (p, _) => p | Err _ => 0 end.

Lemma sample_pal_ok : palloc_ok sample_pal ∧ PHYS_BASE + 1048576 ≤ base (kernel_pool sample_pal).
Proof.
  destruct (palloc_init_spec 300 1000 blank) as (s & Hr & Hok & _ & Hb & _); [done|lia|lia|].
  unfold sample_pal. rewrite Hr. exact (conj Hok Hb).
Qed.

Lemma sample_static : 0 < sample_descs ∧ sample_descs + 10 * DESC_SIZE ≤ base (kernel_pool sample_pal).
Proof. destruct sample_pal_ok as [_ H]. unfold sample_descs, DESC_SIZE, PHYS_BASE in *. lia. Qed.

Lemma sample_boot_inv :
  malloc_init sample_descs (boot sample_pal) = Ok (tt, sample_boot) ∧ ∃ M, inv sample_descs sample_boot M ∅ ∧ no_idle sample_boot.
Proof.
  destruct sample_static as [Ha Hst].
  destruct (malloc_init_spec sample_descs sample_pal (proj1 sample_pal_ok) Ha Hst) as (s & M & Hr & _ & Hi & Hidle).
  unfold sample_boot. rewrite Hr. split; [reflexivity|]. exists M. exact (conj Hi Hidle).
Qed.

Lemma sample_reach : reach sample_descs sample_pal sample_state (<[sample_p := 100]> ∅).
Proof.
  destruct sample_boot_inv as (Hb & M & Hi & Hidle).
  destruct (malloc_spec sample_descs sample_boot M ∅ 100 Hi Hidle) as (p & s & M' & Hr & _); [unfold MAX_REQUEST, ARENA_SIZE; lia|].
  assert (sample_p = 3222278156) as Hp by (vm_compute; reflexivity).
  assert (sample_p = p ∧ sample_state = s) as [Ep Es] by (unfold sample_p, sample_state; rewrite Hr; split; reflexivity).
  pose proof (reach_malloc sample_descs sample_pal sample_boot ∅ 100 p s (reach_init _ _ _ Hb)) as Hreach.
  unfold gets in Hreach. rewrite decide_False in Hreach by (rewrite <- Ep, Hp; lia). rewrite Ep, Es. apply Hreach; [|exact Hr].
  unfold MAX_REQUEST, PGSIZE, ARENA_SIZE. lia.
Qed.

Lemma sample_free_page : free_run (kernel_pool (pal sample_state)) 3222282240 1.
Proof.
  assert (kernel_pool (pal sample_state) = mk_pool false (Bitmap.mk_bitmap 21 [1]) 3222278144) as -> by (vm_compute; reflexivity).
  split; [exists 1; vm_compute; intuition discriminate|]. cbn [base used_map]. unfold PGSIZE. intros i Hi Hr.
  assert (i = 1) as -> by lia. vm_compute. reflexivity.
Qed.

Lemma malloc_sound_witness :
  (∃ s', free sample_descs sample_p sample_state = Ok (tt, s')) ∧
  (∃ p s', malloc sample_descs 5000 sample_state = Ok (p, s') ∧ (p = 0 ∨ p + 5000 ≤ sample_p ∨ sample_p + 100 ≤ p)) ∧
  ∃ p s', malloc sample_descs 4294967295 sample_state = Ok (p, s') ∧ p ≠ 0 ∧ block_size p s' = Ok (4084, s').
Proof.
  destruct (malloc_sound sample_descs sample_pal sample_state (<[sample_p := 100]> ∅)) as (_ & Hm & _ & Hf & _ & _ & Hw).
  - exact (proj1 sample_pal_ok).
  - exact (proj1 sample_static).
  - exact (proj2 sample_static).
  - exact sample_reach.
  - split_and!.
    + destruct (Hf sample_p) as (s' & Hr & _); [right; rewrite lookup_insert_eq; by eexists|]. by exists s'.
    + destruct (Hm 5000) as (p & s' & Hr & Hc); [unfold ARENA_SIZE; lia|]. exists p, s'. split; [exact Hr|].
      destruct Hc as [[-> _]|(_ & _ & Hd)]; [by left|right]. apply (Hd sample_p 100). by rewrite lookup_insert_eq.
    + destruct (Hw 4294967295) as (p & s' & Hr & Hc); [unfold ARENA_SIZE; lia|]. exists p, s'. split; [exact Hr|].
      destruct Hc as [(_ & _ & Hno)|Hc]; [destruct (Hno _ sample_free_page)|exact Hc].
Defined.


