(* ===== verification/Pagedir.v ===== *)
(** * threads/pte.h and userprog/pagedir.c: page tables

    Page directories and page tables are pages of 1024 little-endian words in
    the memory of [Palloc].  The processor's state is the page directory base
    register [cr3] and the translation lookaside buffer [tlb], the entries it
    has cached of the active directory; loading [cr3] empties it.
    [init_page_dir] and [init_ram_pages] are the globals of threads/init.c. *)

From S2P Require Import Prelude Bitmap Palloc.
Import Palloc.

Module Pagedir.

(** ** Page table entries *)

Definition PTSHIFT : Z := 12.
Definition PDSHIFT : Z := 22.
Definition PTMASK : Z := 4190208.
Definition PTE_ADDR : Z := 4294963200.
Definition PTE_P : Z := 1.
Definition PTE_W : Z := 2.
Definition PTE_U : Z := 4.
Definition PTE_A : Z := 32.
Definition PTE_D : Z := 64.

Definition pt_no (va : Z) : Z := Z.shiftr (Z.land va PTMASK) PTSHIFT.
Definition pd_no (va : Z) : Z := Z.shiftr va PDSHIFT.

Definition pde_create (pt : Z) : res Z :=
  assert (pg_ofs pt =? 0);; pa ← vtop pt; Ok (Z.lor (Z.lor (Z.lor pa PTE_U) PTE_P) PTE_W).
Definition pde_get_pt (pde : Z) : res Z :=
  assert (negb (Z.land pde PTE_P =? 0));; ptov (Z.land pde PTE_ADDR).
Definition pte_create_kernel (page : Z) (writable : bool) : res Z :=
  assert (pg_ofs page =? 0);; pa ← vtop page; Ok (Z.lor (Z.lor pa PTE_P) (if writable then PTE_W else 0)).
Definition pte_create_user (page : Z) (writable : bool) : res Z :=
  pte ← pte_create_kernel page writable; Ok (Z.lor pte PTE_U).
Definition pte_get_page (pte : Z) : res Z := ptov (Z.land pte PTE_ADDR).

(** ** Page directories *)

Record mmu := mk_mmu { pal : palloc; cr3 : Z; tlb : gmap Z Z }.

Definition set_pal (p : palloc) (s : mmu) : mmu := mk_mmu p (cr3 s) (tlb s).
Definition on_pal {A} (m : stM palloc A) : stM mmu A := λ s,
  match m (pal s) with Ok (a, p) => Ok (a, set_pal p s) | Err e => Err e end.

(** [*p] and [*p = v] for a pointer [p] to a 32-bit word. *)
Definition load (p : Z) : stM mmu Z := sread (λ s, mem_word p (mem (pal s))).
Definition store_word (p v : Z) (m : memory) : memory :=
  λ a, if decide (p ≤ a < p + 4) then default 0 (le_bytes 4 v !! Z.to_nat (a - p)) else m a.
Definition store (p v : Z) : stM mmu unit := on_pal (smod (set_mem (store_word p v))).

Section pagedir_c.
Context (init_page_dir init_ram_pages : Z).

Definition pagedir_create : stM mmu Z :=
  pd ← on_pal (palloc_get_page 0);
  (if pd =? 0 then mret tt else on_pal (smod (set_mem (mem_copy pd init_page_dir PGSIZE))));;
  mret pd.

(** The page directory's user half has [pd_no (PHYS_BASE)] entries. *)
Fixpoint destroy_ptes (n : nat) (pte : Z) : stM mmu unit :=
  match n with
  | O => mret tt
  | S n =>
      v ← load pte;
      (if Z.land v PTE_P =? 0 then mret tt
       else page ← slift (pte_get_page v); on_pal (palloc_free_page page));;
      destroy_ptes n (pte + 4)
  end.
Fixpoint destroy_pdes (n : nat) (pde : Z) : stM mmu unit :=
  match n with
  | O => mret tt
  | S n =>
      v ← load pde;
      (if Z.land v PTE_P =? 0 then mret tt
       else
         pt ← slift (pde_get_pt v);
         destroy_ptes 1024 pt;;
         on_pal (palloc_free_page pt));;
      destroy_pdes n (pde + 4)
  end.
Definition pagedir_destroy (pd : Z) : stM mmu unit :=
  if pd =? 0 then mret tt
  else
    sassert (negb (pd =? init_page_dir));;
    destroy_pdes (Z.to_nat (pd_no PHYS_BASE)) pd;;
    on_pal (palloc_free_page pd).

Definition lookup_page (pd vaddr : Z) (create : bool) : stM mmu Z :=
  sassert (negb (pd =? 0));;
  sassert (negb create || is_user_vaddr vaddr);;
  let pde := pd + 4 * pd_no vaddr in
  v ← load pde;
  ok ← (if v =? 0 then
          if create then
            pt ← on_pal (palloc_get_page PAL_ZERO);
            if pt =? 0 then mret false
            else e ← slift (pde_create pt); store pde e;; mret true
          else mret false
        else mret true);
  if (ok : bool) then
    v ← load pde;
    pt ← slift (pde_get_pt v);
    mret (pt + 4 * pt_no vaddr)
  else mret 0.

Definition active_pd : stM mmu Z := pd ← sread cr3; slift (ptov pd).

Definition pagedir_activate (pd : Z) : stM mmu unit :=
  let pd := if pd =? 0 then init_page_dir else pd in
  pa ← slift (vtop pd);
  smod (λ s, mk_mmu (pal s) pa ∅).

Definition invalidate_pagedir (pd : Z) : stM mmu unit :=
  a ← active_pd; if a =? pd then pagedir_activate pd else mret tt.

Definition pagedir_set_page (pd upage kpage : Z) (writable : bool) : stM mmu bool :=
  sassert (pg_ofs upage =? 0);;
  sassert (pg_ofs kpage =? 0);;
  sassert (is_user_vaddr upage);;
  pa ← slift (vtop kpage);
  sassert (Z.shiftr pa PTSHIFT <? init_ram_pages);;
  sassert (negb (pd =? init_page_dir));;
  pte ← lookup_page pd upage true;
  if pte =? 0 then mret false
  else
    v ← load pte;
    sassert (Z.land v PTE_P =? 0);;
    e ← slift (pte_create_user kpage writable);
    store pte e;;
    mret true.

Definition pagedir_get_page (pd uaddr : Z) : stM mmu Z :=
  sassert (is_user_vaddr uaddr);;
  pte ← lookup_page pd uaddr false;
  if pte =? 0 then mret 0
  else
    v ← load pte;
    if Z.land v PTE_P =? 0 then mret 0
    else page ← slift (pte_get_page v); mret (page + pg_ofs uaddr).

Definition pagedir_clear_page (pd upage : Z) : stM mmu unit :=
  sassert (pg_ofs upage =? 0);;
  sassert (is_user_vaddr upage);;
  pte ← lookup_page pd upage false;
  if pte =? 0 then mret tt
  else
    v ← load pte;
    if Z.land v PTE_P =? 0 then mret tt
    else store pte (Z.land v (u32 (Z.lnot PTE_P)));; invalidate_pagedir pd.

(** [pte != NULL && ( *pte & flag) != 0] *)
Definition pte_flag (pd vpage f : Z) : stM mmu bool :=
  pte ← lookup_page pd vpage false;
  if pte =? 0 then mret false else v ← load pte; mret (negb (Z.land v f =? 0)).
Definition set_pte_flag (pd vpage f : Z) (b : bool) : stM mmu unit :=
  pte ← lookup_page pd vpage false;
  if pte =? 0 then mret tt
  else
    v ← load pte;
    if b then store pte (Z.lor v f)
    else store pte (Z.land v (u32 (Z.lnot f)));; invalidate_pagedir pd.

Definition pagedir_is_dirty (pd vpage : Z) : stM mmu bool := pte_flag pd vpage PTE_D.
Definition pagedir_set_dirty (pd vpage : Z) (dirty : bool) : stM mmu unit := set_pte_flag pd vpage PTE_D dirty.
Definition pagedir_is_accessed (pd vpage : Z) : stM mmu bool := pte_flag pd vpage PTE_A.
Definition pagedir_set_accessed (pd vpage : Z) (accessed : bool) : stM mmu unit := set_pte_flag pd vpage PTE_A accessed.
End pagedir_c.

End Pagedir.
