(* ===== verification/PagedirSpec.v ===== *)
(** * Page tables map what they were told to map

    The invariant [pd_ok] of a page directory: its user half points to page
    tables in pages of their own.  Against it: what each operation of
    userprog/pagedir.c returns, and how it changes the translation of user
    addresses. *)

From S2P Require Import Prelude Bitmap Palloc Pagedir.
Import Bitmap Palloc Pagedir.

(** ** Words in memory *)

Lemma mem_bytes_ext p n m m' : (∀ x, p ≤ x < p + Z.of_nat n → m' x = m x) → mem_bytes p n m' = mem_bytes p n m.
Proof. intros H. apply list_fmap_ext. intros i x [-> Hx]%lookup_seq. apply H. lia. Qed.

Lemma mem_word_ext p m m' : (∀ x, p ≤ x < p + 4 → m' x = m x) → mem_word p m' = mem_word p m.
Proof. intros H. unfold mem_word. by rewrite (mem_bytes_ext p 4 m m') by done. Qed.

Lemma mem_word_store p v m : in_u32 v → mem_word p (store_word p v m) = v.
Proof.
  intros Hv. unfold mem_word. replace (mem_bytes p 4 (store_word p v m)) with (le_bytes 4 v).
  { rewrite le_Z_bytes. change (W8 ^ Z.of_nat 4) with W32. by apply Z.mod_small. }
  apply list_eq. intros i. unfold mem_bytes. rewrite list_lookup_fmap. destruct (decide (i < 4)%nat) as [Hi|Hi].
  - rewrite (proj2 (lookup_seq 0 4 i i)) by lia. simpl. unfold store_word. rewrite decide_True by lia.
    replace (Z.to_nat (p + Z.of_nat i - p)) with i by lia.
    destruct (lookup_lt_is_Some_2 (le_bytes 4 v) i) as [b Hb]; [by rewrite length_le_bytes|]. by rewrite Hb.
  - rewrite !lookup_ge_None_2; rewrite ?length_le_bytes, ?length_seq; [done|lia..].
Qed.

Lemma mem_word_store_ne p q v m : q + 4 ≤ p ∨ p + 4 ≤ q → mem_word q (store_word p v m) = mem_word q m.
Proof. intros H. apply mem_word_ext. intros x Hx. unfold store_word. by rewrite decide_False by lia. Qed.

Lemma mem_word_zero p m : (∀ x, p ≤ x < p + 4 → m x = 0) → mem_word p m = 0.
Proof. intros H. unfold mem_word, mem_bytes. simpl. by rewrite !H by lia. Qed.

Lemma store_bytes_ok p v m : bytes_ok m → bytes_ok (store_word p v m).
Proof.
  intros Hm a. unfold store_word. case_decide; [|apply Hm].
  destruct (le_bytes 4 v !! Z.to_nat (a - p)) as [b|] eqn:E; simpl; [|done].
  eapply Forall_lookup_1; [apply le_bytes_u8|done].
Qed.

(** ** Fields of addresses and entries *)

Lemma pd_no_div va : pd_no va = va / 4194304.
Proof. unfold pd_no, PDSHIFT. by rewrite Z.shiftr_div_pow2. Qed.

Lemma pt_no_div va : pt_no va = (va / 4096) mod 1024.
Proof.
  unfold pt_no, PTSHIFT. rewrite Z.shiftr_land, Z.shiftr_div_pow2 by lia.
  change (Z.shiftr PTMASK 12) with (Z.ones 10). by rewrite Z.land_ones.
Qed.

(** The two indexes and the offset determine a user address. *)
Lemma va_indexes va : 0 ≤ va < PHYS_BASE → 0 ≤ pd_no va < 768 ∧ 0 ≤ pt_no va < 1024.
Proof. intros H. rewrite pd_no_div, pt_no_div. unfold PHYS_BASE in H. dlia. Qed.

Lemma same_page va vb :
  0 ≤ va → 0 ≤ vb → pd_no va = pd_no vb → pt_no va = pt_no vb → va / PGSIZE = vb / PGSIZE.
Proof. intros Ha Hb. rewrite !pd_no_div, !pt_no_div. unfold PGSIZE. intros. dlia. Qed.

Lemma land_addr v : in_u32 v → Z.land v PTE_ADDR = v - v mod PGSIZE.
Proof. intros H. exact (pg_round_down_eq v H). Qed.

Lemma land_page a f : a mod PGSIZE = 0 → 0 ≤ f < PGSIZE → Z.land a f = 0.
Proof.
  intros Ha Hf. apply Z.bits_inj'. intros i Hi. rewrite Z.bits_0, Z.land_spec. destruct (decide (i < 12)).
  - assert (Z.testbit a i = false) as ->; [|done]. apply Z.mod_divide in Ha as [q ->]; [|done].
    change PGSIZE with (2 ^ 12). by apply Z.mul_pow2_bits_low.
  - rewrite (Z.bits_above_log2 f i), andb_false_r; [done|lia|]. destruct (decide (f = 0)) as [->|]; [simpl; lia|].
    assert (Z.log2 f < 12) by (apply Z.log2_lt_pow2; [lia|]; by destruct Hf). lia.
Qed.

Lemma lor_flags a f : a mod PGSIZE = 0 → 0 ≤ f < PGSIZE → Z.lor a f = a + f.
Proof. intros Ha Hf. by rewrite Z.add_nocarry_lxor, Z.lxor_lor by by apply land_page. Qed.

Lemma present_flag v : (Z.land v PTE_P =? 0) = negb (Z.odd v).
Proof.
  unfold PTE_P. change 1 with (Z.ones 1). rewrite Z.land_ones by lia. change (2 ^ 1) with 2.
  rewrite Zmod_odd. by destruct (Z.odd v).
Qed.

(** An entry with the given page and flags. *)
Lemma entry_fields a f : a mod PGSIZE = 0 → 0 ≤ f < PGSIZE → in_u32 (a + f) →
  Z.land (a + f) PTE_ADDR = a ∧ (Z.land (a + f) PTE_P =? 0) = negb (Z.odd f).
Proof.
  intros Ha Hf Hu. rewrite land_addr, present_flag by done. split; [unfold PGSIZE in *; dlia|].
  f_equal. rewrite Z.odd_add. assert (Z.odd a = false) as ->; [|done].
  apply Z.mod_divide in Ha as [q ->]; [|done]. rewrite Z.odd_mul. apply andb_false_r.
Qed.

(** ** The invariant *)

(** A page that holds a directory or a table. *)
Record table_page (p : pool) (a : Z) : Prop := {
  tp_kernel : PHYS_BASE ≤ a;
  tp_align : a mod PGSIZE = 0;
  tp_end : a + PGSIZE ≤ W32;
  tp_used : used_run p a 1;
}.

Record pd_ok (s : mmu) (pd : Z) (pts : gmap Z Z) : Prop := {
  pd_pal : palloc_ok (pal s);
  pd_bytes : bytes_ok (mem (pal s));
  pd_base : PHYS_BASE ≤ base (kernel_pool (pal s));
  pd_page : table_page (kernel_pool (pal s)) pd;
  pd_pts i pt : pts !! i = Some pt → 0 ≤ i < 768 ∧ table_page (kernel_pool (pal s)) pt ∧ pt ≠ pd;
  pd_inj i j pt : pts !! i = Some pt → pts !! j = Some pt → i = j;
  pd_entry i : 0 ≤ i < 768 → let v := mem_word (pd + 4 * i) (mem (pal s)) in
    match pts !! i with
    | Some pt => (Z.land v PTE_P =? 0) = false ∧ Z.land v PTE_ADDR = pt - PHYS_BASE
    | None => v = 0
    end;
  pd_ptes i pt j : pts !! i = Some pt → 0 ≤ j < 1024 → let v := mem_word (pt + 4 * j) (mem (pal s)) in
    (Z.land v PTE_P =? 0) = false → Z.land v PTE_ADDR + PHYS_BASE < W32;
}.

(** The page table entry of [va]; a missing table has only zero entries. *)
Definition pte_at (s : mmu) (pts : gmap Z Z) (va : Z) : Z :=
  match pts !! pd_no va with Some pt => mem_word (pt + 4 * pt_no va) (mem (pal s)) | None => 0 end.

(** Where [va] is mapped, or null. *)
Definition translate (s : mmu) (pts : gmap Z Z) (va : Z) : Z :=
  let v := pte_at s pts va in
  if Z.land v PTE_P =? 0 then 0 else Z.land v PTE_ADDR + PHYS_BASE + pg_ofs va.

Lemma translate_0 s pts va : translate s pts va = 0 ↔ Z.land (pte_at s pts va) PTE_P = 0.
Proof.
  unfold translate. cbv zeta. destruct (Z.eqb_spec (Z.land (pte_at s pts va) PTE_P) 0) as [->|Hne]; [done|].
  split; [|done]. intros E. exfalso. rewrite pg_ofs_mod in E.
  assert (0 ≤ Z.land (pte_at s pts va) PTE_ADDR) by (apply Z.land_nonneg; by right).
  pose proof (Z.mod_pos_bound va PGSIZE eq_refl). unfold PHYS_BASE in E. lia.
Qed.

Lemma page_words a b i j :
  a mod PGSIZE = 0 → b mod PGSIZE = 0 → 0 ≤ i < 1024 → 0 ≤ j < 1024 → a ≠ b ∨ i ≠ j →
  a + 4 * i + 4 ≤ b + 4 * j ∨ b + 4 * j + 4 ≤ a + 4 * i.
Proof.
  unfold PGSIZE. intros Ha Hb Hi Hj Hne. apply Z.mod_divide in Ha as [qa ->]; [|done].
  apply Z.mod_divide in Hb as [qb ->]; [|done]. destruct (Z.lt_trichotomy qa qb) as [?|[<-|?]]; [left; lia| |right; lia].
  assert (i ≠ j) by (destruct Hne; congruence). lia.
Qed.

Section spec.
Context (init_page_dir init_ram_pages : Z).

(** ** Finding an entry *)

Lemma pde_get_pt_run s pd pts i pt :
  pd_ok s pd pts → pts !! i = Some pt → pde_get_pt (mem_word (pd + 4 * i) (mem (pal s))) = Ok pt.
Proof.
  intros Hok Hpt. destruct (pd_pts _ _ _ Hok i pt Hpt) as (Hi & [Hk Ha He _] & _).
  pose proof (pd_entry _ _ _ Hok i Hi) as He2. rewrite Hpt in He2. destruct He2 as [Hp Hadr].
  unfold pde_get_pt, ptov. rewrite Hp, Hadr. cbn [negb assert]. simpl.
  rewrite assert_true by (apply Z.ltb_lt; unfold PHYS_BASE, PGSIZE in *; lia). simpl.
  rewrite u32_small by (unfold in_u32, PGSIZE, PHYS_BASE in *; lia). f_equal. lia.
Qed.

Lemma lookup_page_read s pd pts va :
  pd_ok s pd pts → 0 ≤ va < PHYS_BASE →
  lookup_page pd va false s = Ok (match pts !! pd_no va with Some pt => pt + 4 * pt_no va | None => 0 end, s).
Proof.
  intros Hok Hva. destruct (va_indexes va Hva) as [Hi Hj]. destruct (pd_page _ _ _ Hok) as [Hk _ _ _].
  unfold lookup_page. rewrite (proj2 (Z.eqb_neq pd 0)) by (unfold PHYS_BASE in Hk; lia).
  erewrite stM_bind_run by reflexivity. erewrite stM_bind_run by reflexivity. erewrite stM_bind_run by reflexivity.
  pose proof (pd_entry _ _ _ Hok _ Hi) as He. cbv zeta in He. destruct (pts !! pd_no va) as [pt|] eqn:Hpt.
  - destruct He as [Hp _]. rewrite (proj2 (Z.eqb_neq (mem_word _ _) 0)).
    2: { intros E. by rewrite E in Hp. }
    erewrite stM_bind_run by reflexivity. cbv iota. erewrite stM_bind_run by reflexivity.
    erewrite stM_bind_run by (unfold slift; erewrite pde_get_pt_run by done; reflexivity). done.
  - rewrite He. by erewrite stM_bind_run by reflexivity.
Qed.

Lemma pte_nonnull s pd pts i pt j : pd_ok s pd pts → pts !! i = Some pt → 0 ≤ j → (pt + 4 * j =? 0) = false.
Proof.
  intros Hok Hpt Hj. destruct (pd_pts _ _ _ Hok i pt Hpt) as (_ & [Hk _ _ _] & _). apply Z.eqb_neq. unfold PHYS_BASE in Hk. lia.
Qed.

Lemma pagedir_get_page_run s pd pts va :
  pd_ok s pd pts → 0 ≤ va < PHYS_BASE → pagedir_get_page pd va s = Ok (translate s pts va, s).
Proof.
  intros Hok Hva. destruct (va_indexes va Hva) as [Hi Hj]. unfold pagedir_get_page, is_user_vaddr.
  rewrite (proj2 (Z.ltb_lt va PHYS_BASE)) by lia. erewrite stM_bind_run by reflexivity.
  erewrite stM_bind_run by by eapply lookup_page_read. unfold translate, pte_at.
  destruct (pts !! pd_no va) as [pt|] eqn:Hpt; [|done]. erewrite pte_nonnull by (done || lia).
  erewrite stM_bind_run by reflexivity. destruct (Z.land _ PTE_P =? 0) eqn:Hp; [done|].
  pose proof (pd_ptes _ _ _ Hok _ pt _ Hpt Hj Hp) as Hb.
  assert (0 ≤ Z.land (mem_word (pt + 4 * pt_no va) (mem (pal s))) PTE_ADDR) as H0 by (apply Z.land_nonneg; by right).
  unfold pte_get_page, ptov. rewrite assert_true by (apply Z.ltb_lt; unfold PHYS_BASE in *; lia).
  erewrite stM_bind_run by reflexivity. rewrite u32_small by (unfold in_u32, PHYS_BASE in *; lia). done.
Qed.

(** ** Changing memory *)

Definition in_page (a x : Z) : Prop := a ≤ x < a + PGSIZE.

(** The memory of the page tables: the directory and its tables. *)
Definition outside (pd : Z) (pts : gmap Z Z) (x : Z) : Prop :=
  ¬ in_page pd x ∧ ∀ i pt, pts !! i = Some pt → ¬ in_page pt x.

Lemma word_in_page a i x : 0 ≤ i < 1024 → a + 4 * i ≤ x < a + 4 * i + 4 → in_page a x.
Proof. unfold in_page, PGSIZE. lia. Qed.

Lemma pages_apart a b x : a mod PGSIZE = 0 → b mod PGSIZE = 0 → a ≠ b → in_page a x → ¬ in_page b x.
Proof.
  unfold in_page, PGSIZE. intros Ha Hb Hne H1 H2. apply Z.mod_divide in Ha as [qa ->]; [|done].
  apply Z.mod_divide in Hb as [qb ->]; [|done]. lia.
Qed.

(** An address keeps its entry when its two words stay. *)
Lemma pte_at_ext s s' pts pts' va :
  pts' !! pd_no va = pts !! pd_no va →
  (∀ pt, pts !! pd_no va = Some pt → mem_word (pt + 4 * pt_no va) (mem (pal s')) = mem_word (pt + 4 * pt_no va) (mem (pal s))) →
  pte_at s' pts' va = pte_at s pts va.
Proof. intros H1 H2. unfold pte_at. rewrite H1. destruct (pts !! pd_no va) as [pt|]; [|done]. by rewrite H2. Qed.

(** The addresses of one page have one entry. *)
Lemma same_indexes va vb : va / PGSIZE = vb / PGSIZE → pd_no va = pd_no vb ∧ pt_no va = pt_no vb.
Proof. rewrite !pd_no_div, !pt_no_div. unfold PGSIZE. intros. dlia. Qed.

Lemma other_indexes va vb :
  0 ≤ va → 0 ≤ vb → va / PGSIZE ≠ vb / PGSIZE → pd_no va ≠ pd_no vb ∨ pt_no va ≠ pt_no vb.
Proof.
  intros Ha Hb Hne. destruct (decide (pd_no va = pd_no vb)) as [E|]; [right|by left].
  intros E2. by apply Hne, same_page.
Qed.

(** ** A new page table *)

Lemma pde_create_run a : PHYS_BASE ≤ a → a mod PGSIZE = 0 → a + PGSIZE ≤ W32 → pde_create a = Ok (a - PHYS_BASE + 7).
Proof.
  intros Hk Ha He. unfold pde_create, vtop, is_kernel_vaddr. rewrite pg_ofs_mod, Ha. cbn [Z.eqb assert]. simpl.
  rewrite assert_true by by apply Z.leb_le. simpl. f_equal. rewrite <- !Z.lor_assoc.
  change (Z.lor PTE_U (Z.lor PTE_P PTE_W)) with 7. apply lor_flags; [|done].
  unfold PHYS_BASE, PGSIZE in *. dlia.
Qed.

Lemma pd_ok_new s pd pts i pt p' :
  pd_ok s pd pts → 0 ≤ i < 768 → pts !! i = None → free_run (kernel_pool (pal s)) pt 1 →
  pool_set (kernel_pool (pal s)) p' pt 1 true → palloc_ok (set_pool false p' (pal s)) →
  let m' := store_word (pd + 4 * i) (pt - PHYS_BASE + 7) (mem_set pt 0 PGSIZE (mem (pal s))) in
  let s' := mk_mmu (set_mem (λ _, m') (set_pool false p' (pal s))) (cr3 s) (tlb s) in
  pd_ok s' pd (<[i := pt]> pts) ∧ (∀ va, 0 ≤ va < PHYS_BASE → pte_at s' (<[i := pt]> pts) va = pte_at s pts va) ∧
  (∀ x, outside pd (<[i := pt]> pts) x → m' x = mem (pal s) x).
Proof.
  intros Hok Hi Hnone Hf Hset Hpal m' s'. pose proof (pd_page _ _ _ Hok) as [Hk Hal He Hu].
  destruct (pa_kernel _ (pd_pal _ _ _ Hok)) as [_ _ Hbal Hbe _]. pose proof (pd_base _ _ _ Hok) as Hbase.
  assert (PHYS_BASE ≤ pt ∧ pt mod PGSIZE = 0 ∧ pt + PGSIZE ≤ W32) as (Hptk & Hpta & Hpte).
  { destruct Hf as [(k & Hk0 & Hin & ->) _]. unfold PGSIZE in *. split_and!; [lia|dlia|lia]. }
  assert (∀ a, table_page (kernel_pool (pal s)) a → pt ≠ a) as Hfresh.
  { intros a [_ _ _ Ha] ->. destruct (free_apart _ _ _ _ _ Hf Ha); unfold PGSIZE in *; lia. }
  assert (∀ a, table_page (kernel_pool (pal s)) a → table_page p' a) as Htp.
  { intros a []. split; try done. eapply used_run_set; [done..|]. by left. }
  assert (∀ a j, a mod PGSIZE = 0 → 0 ≤ j < 1024 → a ≠ pt → a ≠ pd ∨ j ≠ i →
    mem_word (a + 4 * j) m' = mem_word (a + 4 * j) (mem (pal s))) as Hword.
  { intros a j Ha Hj Hne Hne2. unfold m'. rewrite mem_word_store_ne by (apply page_words; [done|done|lia|lia|]; tauto).
    apply mem_word_ext. intros x Hx. unfold mem_set. rewrite decide_False; [done|].
    apply (word_in_page a j x Hj) in Hx. by apply (pages_apart a pt x). }
  assert (∀ j, 0 ≤ j < 1024 → mem_word (pt + 4 * j) m' = 0) as Hzero.
  { intros j Hj. unfold m'. rewrite mem_word_store_ne by (apply page_words; [done|done|lia|lia|left; by apply Hfresh]).
    apply mem_word_zero. intros x Hx. unfold mem_set. rewrite decide_True; [done|]. by apply (word_in_page pt j x Hj). }
  destruct (entry_fields (pt - PHYS_BASE) 7) as [Hf1 Hf2]; [unfold PHYS_BASE, PGSIZE in *; dlia|done|unfold in_u32, PHYS_BASE, PGSIZE in *; lia|].
  split; [split|split]; try done.
  - destruct Hpal. by split.
  - cbn. unfold m'. apply store_bytes_ok. intros x. unfold mem_set. case_decide; [done|]. apply (pd_bytes _ _ _ Hok).
  - cbn. destruct Hset as [-> _]. done.
  - by apply Htp.
  - intros j a [[<- <-]|[Hne Ha]]%lookup_insert_Some.
    + split; [done|]. split; [|by apply Hfresh]. split; try done. eapply used_run_new; [done|by destruct Hf].
    + destruct (pd_pts _ _ _ Hok j a Ha) as (? & ? & ?). split; [done|]. split; [by apply Htp|done].
  - intros j1 j2 a [[<- <-]|[N1 H1]]%lookup_insert_Some [[<- E]|[N2 H2]]%lookup_insert_Some; [done|..|by eapply pd_inj].
    + destruct (pd_pts _ _ _ Hok _ _ H2) as (_ & Ht & _). by destruct (Hfresh _ Ht).
    + subst a. destruct (pd_pts _ _ _ Hok _ _ H1) as (_ & Ht & _). by destruct (Hfresh _ Ht).
  - intros j Hj. cbn [pal s' set_mem mem]. destruct (decide (i = j)) as [<-|Hne].
    + rewrite lookup_insert_eq. unfold m'. rewrite mem_word_store by (unfold in_u32, PHYS_BASE, PGSIZE in *; lia). by rewrite Hf1, Hf2.
    + rewrite lookup_insert_ne by done. rewrite Hword by (done || lia || (by apply not_eq_sym, Hfresh)). by apply (pd_entry _ _ _ Hok).
  - intros j1 a j2 [[<- <-]|[N1 H1]]%lookup_insert_Some Hj; cbn [pal s' set_mem mem].
    + rewrite Hzero by done. done.
    + destruct (pd_pts _ _ _ Hok _ _ H1) as (_ & Ht & Hapd). rewrite Hword; [|apply Ht|done|by apply not_eq_sym, Hfresh|by left].
      by eapply (pd_ptes _ _ _ Hok).
  - intros va Hva. destruct (va_indexes va Hva) as [Hi2 Hj2]. destruct (decide (i = pd_no va)) as [->|Hne].
    + unfold pte_at. rewrite lookup_insert_eq, Hnone. cbn [pal s' set_mem mem]. by rewrite Hzero.
    + apply pte_at_ext; [by rewrite lookup_insert_ne|]. intros a Ha.
      destruct (pd_pts _ _ _ Hok _ _ Ha) as (_ & Ht & Hapd). apply Hword; [apply Ht|done|by apply not_eq_sym, Hfresh|by left].
  - intros x [Hx1 Hx2]. unfold m', store_word, mem_set. rewrite !decide_False; [done| |].
    + apply (Hx2 i). by rewrite lookup_insert_eq.
    + intros Hx. apply Hx1. eapply word_in_page; [|done]. lia.
Qed.

(** The entry for [va], with a new page table if there is none yet. *)
Lemma lookup_page_create s pd pts va :
  pd_ok s pd pts → 0 ≤ va < PHYS_BASE →
  (lookup_page pd va true s = Ok (0, s) ∧ ∀ a, ¬ free_run (kernel_pool (pal s)) a 1) ∨
  ∃ s' pts' pt, lookup_page pd va true s = Ok (pt + 4 * pt_no va, s') ∧ pts' !! pd_no va = Some pt ∧
    pd_ok s' pd pts' ∧ cr3 s' = cr3 s ∧ tlb s' = tlb s ∧ user_pool (pal s') = user_pool (pal s) ∧
    base (kernel_pool (pal s')) = base (kernel_pool (pal s)) ∧
    (∀ a, used_run (kernel_pool (pal s)) a 1 → used_run (kernel_pool (pal s')) a 1) ∧
    (∀ u, 0 ≤ u < PHYS_BASE → pte_at s' pts' u = pte_at s pts u) ∧
    (∀ x, outside pd pts' x → mem (pal s') x = mem (pal s) x).
Proof.
  intros Hok Hva. destruct (va_indexes va Hva) as [Hi Hj]. destruct (pd_page _ _ _ Hok) as [Hk _ _ _].
  pose proof (lookup_page_read s pd pts va Hok Hva) as Hread. unfold lookup_page in *. unfold is_user_vaddr in *.
  rewrite (proj2 (Z.ltb_lt va PHYS_BASE)), orb_true_r in * by lia.
  rewrite (proj2 (Z.eqb_neq pd 0)) in * by (unfold PHYS_BASE in Hk; lia).
  erewrite stM_bind_run by reflexivity. erewrite stM_bind_run by reflexivity. erewrite stM_bind_run by reflexivity.
  pose proof (pd_entry _ _ _ Hok _ Hi) as He. cbv zeta in He. destruct (pts !! pd_no va) as [pt|] eqn:Hpt.
  - right. exists s, pts, pt. split; [|by split_and!].
    erewrite stM_bind_run in Hread by reflexivity. erewrite stM_bind_run in Hread by reflexivity.
    erewrite stM_bind_run in Hread by reflexivity. destruct He as [Hp _].
    rewrite (proj2 (Z.eqb_neq (mem_word _ _) 0)) in * by (intros E; by rewrite E in Hp). exact Hread.
  - clear Hread. rewrite He. cbn [Z.eqb]. rewrite stM_bind_eq. unfold palloc_get_page, on_pal.
    destruct (palloc_get_multiple_spec PAL_ZERO 1 (pal s) (pd_pal _ _ _ Hok)) as
      [[? _]|[(_ & Hno & Hr)|(_ & pt & p' & s2 & Hf & _ & Hset & Hr & Hok2 & E)]]; [done|done| |].
    + left. split; [|done]. change (flag PAL_ZERO PAL_ASSERT) with false in Hr. rewrite stM_bind_eq, Hr. by destruct s.
    + right. change (flag PAL_ZERO PAL_USER) with false in *. change (flag PAL_ZERO PAL_ZERO) with true in E.
      cbn [get_pool] in *. rewrite Z.mul_1_r in E.
      assert (palloc_ok (set_pool false p' (pal s))) as Hpal by (rewrite E in Hok2; destruct Hok2; by split).
      destruct (pd_ok_new s pd pts (pd_no va) pt p' Hok Hi Hpt Hf Hset Hpal) as (Hok' & Htr & Hout).
      match type of Hok' with pd_ok ?st _ _ => set (s' := st) in * end.
      pose proof (pd_pts _ _ _ Hok' (pd_no va) pt ltac:(by rewrite lookup_insert_eq)) as (_ & [Hk2 Ha2 He2 _] & _).
      exists s', (<[pd_no va := pt]> pts), pt. split; [|split_and!; try done; [by rewrite lookup_insert_eq|exact (proj1 Hset)|]; intros a Ha; eapply used_run_set; [exact Hset|done|by left]].
      rewrite stM_bind_eq, Hr. rewrite (proj2 (Z.eqb_neq pt 0)) by (unfold PHYS_BASE in *; lia).
      erewrite stM_bind_run by (unfold slift; rewrite pde_create_run by done; reflexivity).
      erewrite stM_bind_run by reflexivity. cbn [mret stM_ret]. cbv iota.
      erewrite stM_bind_run by reflexivity.
      assert (mk_mmu (set_mem (store_word (pd + 4 * pd_no va) (pt - PHYS_BASE + 7)) s2) (cr3 s) (tlb s) = s') as Es
        by (rewrite E; reflexivity).
      change (set_pal (set_mem (store_word (pd + 4 * pd_no va) (pt - PHYS_BASE + 7)) (pal (set_pal s2 s))) (set_pal s2 s))
        with (mk_mmu (set_mem (store_word (pd + 4 * pd_no va) (pt - PHYS_BASE + 7)) s2) (cr3 s) (tlb s)). rewrite Es.
      erewrite stM_bind_run by (unfold slift; erewrite (pde_get_pt_run s' pd _ (pd_no va) pt) by (done || by rewrite lookup_insert_eq); reflexivity).
      done.
Qed.

(** ** Writing an entry *)

Lemma pd_ok_store s pd pts i pt j v :
  pd_ok s pd pts → pts !! i = Some pt → 0 ≤ j < 1024 → in_u32 v →
  ((Z.land v PTE_P =? 0) = false → Z.land v PTE_ADDR + PHYS_BASE < W32) →
  let s' := set_pal (set_mem (store_word (pt + 4 * j) v) (pal s)) s in
  pd_ok s' pd pts ∧ mem_word (pt + 4 * j) (mem (pal s')) = v ∧
  (∀ va, 0 ≤ va < PHYS_BASE → pd_no va ≠ i ∨ pt_no va ≠ j → pte_at s' pts va = pte_at s pts va) ∧
  (∀ x, outside pd pts x → mem (pal s') x = mem (pal s) x).
Proof.
  intros Hok Hpt Hj Hv Hpage s'. destruct (pd_pts _ _ _ Hok i pt Hpt) as (Hi & Ht & Hne).
  assert (∀ a k, a mod PGSIZE = 0 → 0 ≤ k < 1024 → a ≠ pt ∨ k ≠ j →
    mem_word (a + 4 * k) (mem (pal s')) = mem_word (a + 4 * k) (mem (pal s))) as Hword.
  { intros a k Ha Hk Hn. apply mem_word_store_ne, page_words; [done|apply Ht|done|done|done]. }
  assert (mem_word (pt + 4 * j) (mem (pal s')) = v) as Hnew by by apply mem_word_store.
  split; [split|split_and!]; try done; try apply Hok.
  - destruct (pd_pal _ _ _ Hok). by split.
  - apply store_bytes_ok, Hok.
  - intros k Hk. cbv zeta. rewrite Hword; [by apply (pd_entry _ _ _ Hok)|apply (pd_page _ _ _ Hok)|lia|left; congruence].
  - intros k a l Ha Hl. cbv zeta. destruct (decide (a = pt ∧ l = j)) as [[-> ->]|Hn]; [by rewrite Hnew|].
    destruct (pd_pts _ _ _ Hok k a Ha) as (_ & Ht2 & _). rewrite Hword; [by apply (pd_ptes _ _ _ Hok k)|apply Ht2|done|].
    destruct (decide (a = pt)); [right|by left]. intros ->. by apply Hn.
  - intros va Hva Hn. destruct (va_indexes va Hva) as [_ Hl]. apply pte_at_ext; [done|]. intros a Ha.
    destruct (pd_pts _ _ _ Hok _ a Ha) as (_ & Ht2 & _). apply Hword; [apply Ht2|done|].
    destruct (decide (a = pt)) as [->|]; [|by left]. rewrite (pd_inj _ _ _ Hok _ _ _ Ha Hpt) in Hn. right. tauto.
  - intros x [_ Hx]. cbn. unfold store_word. rewrite decide_False; [done|]. intros Hx2. apply (Hx i pt Hpt).
    by eapply word_in_page.
Qed.

Lemma pte_create_user_run k w :
  PHYS_BASE ≤ k → k mod PGSIZE = 0 → k + PGSIZE ≤ W32 →
  pte_create_user k w = Ok (k - PHYS_BASE + if w then 7 else 5).
Proof.
  intros Hk Ha He. unfold pte_create_user, pte_create_kernel, vtop, is_kernel_vaddr. rewrite pg_ofs_mod, Ha. cbn [Z.eqb assert]. simpl.
  rewrite assert_true by by apply Z.leb_le. simpl. f_equal. rewrite <- !Z.lor_assoc.
  assert (Z.lor PTE_P (Z.lor (if w then PTE_W else 0) PTE_U) = if w then 7 else 5) as -> by by destruct w.
  apply lor_flags; [unfold PHYS_BASE, PGSIZE in *; dlia|by destruct w].
Qed.
(** [pagedir_set_page] of a page that is not mapped: no page for a new table,
    or the page has the new entry and all others are as before. *)
Lemma pagedir_set_page_spec s pd pts upage kpage w :
  pd_ok s pd pts → pd ≠ init_page_dir → 0 ≤ upage < PHYS_BASE → upage mod PGSIZE = 0 → Z.land (pte_at s pts upage) PTE_P = 0 →
  PHYS_BASE ≤ kpage → kpage mod PGSIZE = 0 → kpage + PGSIZE ≤ W32 → (kpage - PHYS_BASE) / PGSIZE < init_ram_pages →
  (pagedir_set_page init_page_dir init_ram_pages pd upage kpage w s = Ok (false, s) ∧
   ∀ a, ¬ free_run (kernel_pool (pal s)) a 1) ∨
  ∃ s' pts', pagedir_set_page init_page_dir init_ram_pages pd upage kpage w s = Ok (true, s') ∧ pd_ok s' pd pts' ∧
    cr3 s' = cr3 s ∧ tlb s' = tlb s ∧ user_pool (pal s') = user_pool (pal s) ∧
    base (kernel_pool (pal s')) = base (kernel_pool (pal s)) ∧
    (∀ a, used_run (kernel_pool (pal s)) a 1 → used_run (kernel_pool (pal s')) a 1) ∧
    (∀ va, 0 ≤ va < PHYS_BASE → pte_at s' pts' va =
       if decide (va / PGSIZE = upage / PGSIZE) then kpage - PHYS_BASE + (if w then 7 else 5) else pte_at s pts va) ∧
    (∀ x, outside pd pts' x → mem (pal s') x = mem (pal s) x).
Proof.
  intros Hok Hpd Hu Hua Hfree Hk Hka Hke Hram. destruct (va_indexes upage Hu) as [Hi Hj].
  assert (pagedir_set_page init_page_dir init_ram_pages pd upage kpage w s =
    (pte ← lookup_page pd upage true;
     if pte =? 0 then mret false
     else v ← load pte; sassert (Z.land v PTE_P =? 0);; e ← slift (pte_create_user kpage w); store pte e;; mret true) s) as ->.
  { unfold pagedir_set_page, is_user_vaddr, vtop, is_kernel_vaddr. rewrite !pg_ofs_mod, Hua, Hka.
    do 2 (erewrite stM_bind_run by reflexivity). rewrite (proj2 (Z.ltb_lt upage PHYS_BASE)) by lia.
    erewrite stM_bind_run by reflexivity. rewrite assert_true by by apply Z.leb_le. erewrite stM_bind_run by reflexivity.
    rewrite Z.shiftr_div_pow2 by done. change (2 ^ PTSHIFT) with PGSIZE. rewrite (proj2 (Z.ltb_lt _ init_ram_pages)) by done.
    erewrite stM_bind_run by reflexivity. rewrite (proj2 (Z.eqb_neq pd init_page_dir)) by done. by erewrite stM_bind_run by reflexivity. }
  destruct (lookup_page_create s pd pts upage Hok Hu)
    as [[Hr Hno]|(s1 & pts' & pt & Hr & Hpt & Hok1 & Hc & Ht & Hup & Hkb & Hus & Htr & Hout)];
    erewrite stM_bind_run by exact Hr; [by left|right].
  rewrite (pte_nonnull s1 pd pts' (pd_no upage) pt) by (done || lia). erewrite stM_bind_run by reflexivity.
  pose proof (Htr upage Hu) as E. unfold pte_at in E at 1. rewrite Hpt in E. rewrite E, Hfree. erewrite stM_bind_run by reflexivity.
  erewrite stM_bind_run by (unfold slift; rewrite pte_create_user_run by done; reflexivity).
  set (f := if w then 7 else 5). assert (0 ≤ f < PGSIZE ∧ Z.odd f = true) as [Hf Hodd] by (unfold f; by destruct w).
  assert ((kpage - PHYS_BASE) mod PGSIZE = 0) as Hal by (unfold PHYS_BASE, PGSIZE in *; dlia).
  assert (in_u32 (kpage - PHYS_BASE + f)) as Hu32 by (unfold in_u32, PHYS_BASE, PGSIZE in *; lia).
  destruct (entry_fields _ f Hal Hf Hu32) as [Hadr Hpr]. rewrite Hodd in Hpr.
  destruct (pd_ok_store s1 pd pts' (pd_no upage) pt (pt_no upage) (kpage - PHYS_BASE + f) Hok1 Hpt Hj Hu32) as (Hok2 & Hw & Htr2 & Hout2).
  { rewrite Hadr. unfold PGSIZE in *. lia. }
  eexists _, pts'. split; [reflexivity|]. split; [exact Hok2|]. split_and!; [done|done|done|done|done| |].
  - intros va Hva. case_decide as Hpage.
    + destruct (same_indexes _ _ Hpage) as [Hx1 Hx2]. unfold pte_at. by rewrite Hx1, Hx2, Hpt.
    + rewrite Htr2, Htr; [done|done|done|]. apply other_indexes; [lia|lia|done].
  - intros x Hx. by rewrite Hout2, Hout.
Qed.
End spec.

(** C31: [pagedir_set_page] of a page that is not mapped either fails, for lack
    of a page for a table, and changes nothing, or maps it: every address of
    the page then translates to the same offset in the frame, every other user
    address translates as before, and no memory outside the page tables
    changes, so other processes' directories are as they were. *)
Theorem pagedir_set_get init_page_dir init_ram_pages s pd pts upage kpage w :
  pd_ok s pd pts → pd ≠ init_page_dir → 0 ≤ upage < PHYS_BASE → upage mod PGSIZE = 0 → translate s pts upage = 0 →
  PHYS_BASE ≤ kpage → kpage mod PGSIZE = 0 → kpage + PGSIZE ≤ W32 → (kpage - PHYS_BASE) / PGSIZE < init_ram_pages →
  ∃ ok s', pagedir_set_page init_page_dir init_ram_pages pd upage kpage w s = Ok (ok, s') ∧
    (ok = false ∧ s' = s ∧ (∀ a, ¬ free_run (kernel_pool (pal s)) a 1) ∨
     ok = true ∧ ∃ pts', pd_ok s' pd pts' ∧
       (∀ va, 0 ≤ va < PHYS_BASE → va / PGSIZE = upage / PGSIZE → pagedir_get_page pd va s' = Ok (kpage + va mod PGSIZE, s')) ∧
       (∀ va r, 0 ≤ va < PHYS_BASE → va / PGSIZE ≠ upage / PGSIZE →
          pagedir_get_page pd va s = Ok (r, s) → pagedir_get_page pd va s' = Ok (r, s')) ∧
       (∀ x, outside pd pts' x → mem (pal s') x = mem (pal s) x)).
Proof.
  intros Hok Hpd Hu Hua Hfree Hk Hka Hke Hram. apply translate_0 in Hfree.
  destruct (pagedir_set_page_spec init_page_dir init_ram_pages s pd pts upage kpage w)
    as [[Hr Hno]|(s' & pts' & Hr & Hok' & _ & _ & _ & _ & _ & Hpte & Hout)]; [done..| |].
  { exists false, s. split; [done|]. by left. }
  exists true, s'. split; [done|]. right. split; [done|]. exists pts'. split; [done|]. split_and!; [| |done].
  - intros va Hva Hpage. erewrite pagedir_get_page_run by done. do 2 f_equal. unfold translate. rewrite Hpte, decide_True by done.
    destruct (entry_fields (kpage - PHYS_BASE) (if w then 7 else 5)) as [-> ->];
      [unfold PHYS_BASE, PGSIZE in *; dlia|by destruct w|destruct w; unfold in_u32, PHYS_BASE, PGSIZE in *; lia|].
    rewrite pg_ofs_mod. destruct w; cbn [Z.odd negb]; lia.
  - intros va r Hva Hne Hget. erewrite pagedir_get_page_run in * by done. injection Hget as <-.
    unfold translate. by rewrite Hpte, decide_False.
Qed.

(** Clearing the present flag leaves no address to translate to. *)
Lemma clear_present v : in_u32 v → in_u32 (Z.land v (u32 (Z.lnot PTE_P))) ∧ (Z.land (Z.land v (u32 (Z.lnot PTE_P))) PTE_P =? 0) = true.
Proof.
  intros Hv. split.
  - assert (0 ≤ Z.land v (u32 (Z.lnot PTE_P))) by (apply Z.land_nonneg; unfold in_u32 in Hv; lia).
    split; [done|]. eapply Z.le_lt_trans; [|apply Hv]. 
    assert (0 ≤ Z.ldiff v (Z.land v (u32 (Z.lnot PTE_P)))) as H2 by (apply Z.ldiff_nonneg; unfold in_u32 in Hv; lia).
    rewrite <- Z.sub_nocarry_ldiff in H2; [lia|]. apply Z.bits_inj'. intros i _.
    rewrite Z.bits_0, Z.ldiff_spec, Z.land_spec. by destruct (Z.testbit v i), (Z.testbit (u32 (Z.lnot PTE_P)) i).
  - rewrite <- Z.land_assoc. change (Z.land (u32 (Z.lnot PTE_P)) PTE_P) with 0. by rewrite Z.land_0_r.
Qed.

(** A page without a present entry is not mapped. *)
Lemma unmapped_page s pd pts upage :
  pd_ok s pd pts → Z.land (pte_at s pts upage) PTE_P = 0 →
  ∀ va, 0 ≤ va < PHYS_BASE → va / PGSIZE = upage / PGSIZE → pagedir_get_page pd va s = Ok (0, s).
Proof.
  intros Hok Hp va Hva [Hx1 Hx2]%same_indexes. erewrite pagedir_get_page_run by done. do 2 f_equal.
  apply translate_0. unfold pte_at in *. by rewrite Hx1, Hx2.
Qed.

(** [invalidate_pagedir] empties the translation cache of the active directory. *)
Lemma invalidate_pagedir_run init_page_dir s pd pts :
  pd_ok s pd pts → 0 ≤ cr3 s < PHYS_BASE → cr3 s + PHYS_BASE < W32 →
  ∃ s', invalidate_pagedir init_page_dir pd s = Ok (tt, s') ∧ pal s' = pal s ∧ cr3 s' = cr3 s ∧
    (cr3 s = pd - PHYS_BASE → tlb s' = ∅).
Proof.
  intros Hok Hc Hc2. destruct (pd_page _ _ _ Hok) as [Hpk _ Hpe _]. unfold invalidate_pagedir, active_pd, ptov.
  rewrite stM_bind_eq. erewrite stM_bind_run by reflexivity. rewrite assert_true by (apply Z.ltb_lt; lia).
  cbn [mbind res_bind slift]. rewrite u32_small by (unfold in_u32, PHYS_BASE in *; lia).
  destruct (Z.eqb_spec (cr3 s + PHYS_BASE) pd) as [E|E].
  - unfold pagedir_activate, vtop, is_kernel_vaddr. rewrite (proj2 (Z.eqb_neq pd 0)) by (unfold PHYS_BASE in *; lia).
    rewrite assert_true by by apply Z.leb_le. erewrite stM_bind_run by reflexivity. eexists. split; [reflexivity|].
    cbn. split_and!; [done|lia|done].
  - exists s. split_and!; [done|done|done|lia].
Qed.

(** The invariant and the entries depend on the page allocator's state only. *)
Lemma pd_ok_pal s s' pd pts : pal s' = pal s → pd_ok s pd pts → pd_ok s' pd pts.
Proof. intros E []. by split; rewrite ?E. Qed.
Lemma pte_at_pal s s' pts va : pal s' = pal s → pte_at s' pts va = pte_at s pts va.
Proof. intros E. unfold pte_at. by rewrite E. Qed.

(** After [pagedir_clear_page] no address of the page is mapped any more,
    every other user address translates as before, no memory outside the page
    tables changes, and the processor has no entry cached of a directory that
    is active and has changed. *)
Lemma pagedir_clear_unmaps init_page_dir s pd pts upage :
  pd_ok s pd pts → 0 ≤ cr3 s < PHYS_BASE → cr3 s + PHYS_BASE < W32 → 0 ≤ upage < PHYS_BASE → upage mod PGSIZE = 0 →
  ∃ s', pagedir_clear_page init_page_dir pd upage s = Ok (tt, s') ∧ pd_ok s' pd pts ∧
    (∀ va, 0 ≤ va < PHYS_BASE → va / PGSIZE = upage / PGSIZE → pagedir_get_page pd va s' = Ok (0, s')) ∧
    (∀ va r, 0 ≤ va < PHYS_BASE → va / PGSIZE ≠ upage / PGSIZE →
       pagedir_get_page pd va s = Ok (r, s) → pagedir_get_page pd va s' = Ok (r, s')) ∧
    (∀ x, outside pd pts x → mem (pal s') x = mem (pal s) x) ∧ cr3 s' = cr3 s ∧
    (cr3 s = pd - PHYS_BASE → s' = s ∨ tlb s' = ∅).
Proof.
  intros Hok Hcr Hcr2 Hu Hua. destruct (va_indexes upage Hu) as [Hi Hj].
  unfold pagedir_clear_page, is_user_vaddr. rewrite pg_ofs_mod, Hua. erewrite stM_bind_run by reflexivity.
  rewrite (proj2 (Z.ltb_lt upage PHYS_BASE)) by lia. erewrite stM_bind_run by reflexivity.
  erewrite stM_bind_run by by eapply lookup_page_read.
  destruct (pts !! pd_no upage) as [pt|] eqn:Hpt.
  2: { exists s. split_and!; try done; [|by left]. eapply unmapped_page; [done|]. unfold pte_at. by rewrite Hpt. }
  rewrite (pte_nonnull s pd pts (pd_no upage) pt) by (done || lia). erewrite stM_bind_run by reflexivity.
  set (v := mem_word (pt + 4 * pt_no upage) (mem (pal s))). destruct (Z.eqb_spec (Z.land v PTE_P) 0) as [Hp|Hp].
  { exists s. split_and!; try done; [|by left]. eapply unmapped_page; [done|]. unfold pte_at. by rewrite Hpt. }
  destruct (clear_present v) as [Hu32 Hcl]; [apply mem_word_u32, (pd_bytes _ _ _ Hok)|].
  destruct (pd_ok_store s pd pts (pd_no upage) pt (pt_no upage) _ Hok Hpt Hj Hu32) as (Hok2 & Hw & Htr & Hout); [by rewrite Hcl|].
  erewrite stM_bind_run by reflexivity. match type of Hok2 with pd_ok ?st _ _ => set (s2 := st) in * end.
  destruct (invalidate_pagedir_run init_page_dir s2 pd pts Hok2) as (s3 & Hr3 & Hpal3 & Hc3 & Htlb); [done..|].
  pose proof (pd_ok_pal _ _ _ _ Hpal3 Hok2) as Hok3. exists s3. split; [exact Hr3|]. split; [done|]. split_and!.
  - eapply unmapped_page; [done|]. erewrite pte_at_pal by done. unfold pte_at. rewrite Hpt, Hw. by apply Z.eqb_eq.
  - intros va r Hva Hne Hget. erewrite pagedir_get_page_run in * by done. injection Hget as <-. unfold translate.
    rewrite (pte_at_pal s2 s3), Htr by (done || (apply other_indexes; [lia|lia|done])). done.
  - intros x Hx. rewrite Hpal3. by apply Hout.
  - done.
  - intros Hact. right. by apply Htlb.
Qed.

(** ** A concrete directory: empty, in the first of eight pages *)

Definition sample_pd : Z := PHYS_BASE + 1048576.
Definition sample_pal : palloc :=
  mk_palloc (mk_pool false (mk_bitmap 8 [1]) sample_pd) (mk_pool false (mk_bitmap 0 []) (sample_pd + 65536)) (λ _, 0).
Definition sample_mmu : mmu := mk_mmu sample_pal (sample_pd - PHYS_BASE) {[ 5 := 7 ]}.

Lemma sample_pd_ok : pd_ok sample_mmu sample_pd ∅.
Proof.
  split; try done; try (intros; by rewrite lookup_empty in *).
  - split; [split|split|]; try done. split; [vm_compute; intuition discriminate|]. split; [done|].
    repeat constructor; vm_compute; intuition discriminate.
  - split; try done. split; [exists 0; vm_compute; intuition discriminate|]. intros i Hi Hr. cbn in Hr. unfold PGSIZE in Hr.
    assert (i = 0) as -> by lia. reflexivity.
Qed.

(** The same with the page at 0x8048000 mapped, by a table in the second page. *)
Definition sample_pt : Z := sample_pd + PGSIZE.
Definition sample_mem : memory :=
  store_word (sample_pd + 4 * 32) (sample_pt - PHYS_BASE + 7) (store_word (sample_pt + 4 * 72) (2097152 + 7) (λ _, 0)).
Definition mapped_mmu : mmu :=
  mk_mmu (mk_palloc (mk_pool false (mk_bitmap 8 [3]) sample_pd) (user_pool sample_pal) sample_mem) (sample_pd - PHYS_BASE) {[ 5 := 7 ]}.

Lemma sample_used a : a = sample_pd ∨ a = sample_pt → table_page (kernel_pool (pal mapped_mmu)) a.
Proof.
  intros [->| ->]; split; try done; split;
    [exists 0; vm_compute; intuition discriminate| |exists 1; vm_compute; intuition discriminate|].
  all: intros i Hi Hr; unfold sample_pt, PGSIZE in Hr; cbn [kernel_pool base pal mapped_mmu] in Hr.
  - assert (i = 0) as -> by (unfold PGSIZE in *; lia). reflexivity.
  - assert (i = 1) as -> by (unfold PGSIZE in *; lia). reflexivity.
Qed.

Lemma mapped_pd_ok : pd_ok mapped_mmu sample_pd {[ 32 := sample_pt ]}.
Proof.
  split.
  - split; [split|split|]; try done. split; [vm_compute; intuition discriminate|]. split; [done|].
    repeat constructor; vm_compute; intuition discriminate.
  - by do 2 apply store_bytes_ok.
  - vm_compute. discriminate.
  - apply sample_used. by left.
  - intros i pt [<- <-]%lookup_singleton_Some. split; [done|]. split; [apply sample_used; by right|done].
  - intros i j pt [<- _]%lookup_singleton_Some [<- _]%lookup_singleton_Some. done.
  - intros i Hi. destruct (decide (i = 32)) as [->|Hne]; [by vm_compute|].
    rewrite lookup_singleton_ne by done. cbn [pal mapped_mmu mem]. unfold sample_mem.
    rewrite !mem_word_store_ne by (unfold sample_pt, PGSIZE; lia). by apply mem_word_zero.
  - intros i pt j [<- <-]%lookup_singleton_Some Hj. destruct (decide (j = 72)) as [->|Hne]; [by vm_compute|].
    cbn [pal mapped_mmu mem]. unfold sample_mem. rewrite !mem_word_store_ne by (unfold sample_pt, PGSIZE; lia).
    rewrite mem_word_zero by done. discriminate.
Qed.

Lemma pagedir_set_get_witness :
  ∃ ok s', pagedir_set_page PHYS_BASE 1000 sample_pd 134512640 (PHYS_BASE + 2097152) true sample_mmu = Ok (ok, s') ∧
    (ok = true → pagedir_get_page sample_pd 134512645 s' = Ok (PHYS_BASE + 2097157, s')).
Proof.
  destruct (pagedir_set_get PHYS_BASE 1000 sample_mmu sample_pd ∅ 134512640 (PHYS_BASE + 2097152) true) as (ok & s' & Hr & Hc).
  - exact sample_pd_ok.
  - vm_compute. discriminate.
  - vm_compute. intuition discriminate.
  - reflexivity.
  - reflexivity.
  - vm_compute. discriminate.
  - reflexivity.
  - vm_compute. discriminate.
  - vm_compute. reflexivity.
  - exists ok, s'. split; [exact Hr|]. intros ->. destruct Hc as [[? _]|(_ & pts' & _ & Hget & _)]; [discriminate|].
    rewrite (Hget 134512645); [reflexivity|vm_compute; intuition discriminate|reflexivity].
Defined.

