(* ===== verification/Paging.v ===== *)
(** * threads/init.c: the kernel's page tables

    [paging_init] makes the page directory that maps all physical memory at
    [PHYS_BASE], with the text of the kernel read-only, and loads it.  The
    addresses of [_start] and [_end_kernel_text] are the linker's. *)

From S2P Require Import Prelude Bitmap Palloc Pagedir PagedirSpec.
Import Palloc Pagedir.

Module Paging.

Section paging.
Context (init_ram_pages _start _end_kernel_text : Z).

Fixpoint page_loop (n : nat) (page pd pt : Z) : stM mmu unit :=
  match n with
  | O => mret tt
  | S n =>
      let paddr := u32 (page * PGSIZE) in
      vaddr ← slift (ptov paddr);
      let pde_idx := pd_no vaddr in
      let pte_idx := pt_no vaddr in
      let in_kernel_text := (_start <=? vaddr) && (vaddr <? _end_kernel_text) in
      v ← load (pd + 4 * pde_idx);
      pt ← (if v =? 0 then
              pt ← on_pal (palloc_get_page (Z.lor PAL_ASSERT PAL_ZERO));
              e ← slift (pde_create pt);
              store (pd + 4 * pde_idx) e;;
              mret pt
            else mret pt);
      e ← slift (pte_create_kernel vaddr (negb in_kernel_text));
      store (pt + 4 * pte_idx) e;;
      page_loop n (page + 1) pd pt
  end.

(** The result is what [init_page_dir] is set to. *)
Definition paging_init : stM mmu Z :=
  pd ← on_pal (palloc_get_page (Z.lor PAL_ASSERT PAL_ZERO));
  page_loop (Z.to_nat init_ram_pages) 0 pd 0;;
  pa ← slift (vtop pd);
  smod (λ s, mk_mmu (pal s) pa ∅);;
  mret pd.

End paging.

(** ** What the processor makes of page tables *)

(** The physical address of [va], whether it may be written, and whether user
    programs may use it. *)
Definition walk (m : memory) (cr3 va : Z) : option (Z * bool * bool) :=
  let pde := mem_word (cr3 + PHYS_BASE + 4 * pd_no va) m in
  if Z.land pde PTE_P =? 0 then None
  else
    let pte := mem_word (Z.land pde PTE_ADDR + PHYS_BASE + 4 * pt_no va) m in
    if Z.land pte PTE_P =? 0 then None
    else Some (Z.land pte PTE_ADDR + pg_ofs va, flag pde PTE_W && flag pte PTE_W, flag pde PTE_U && flag pte PTE_U).

(** ** Free pages *)

(** At least [n] pages of the pool are free. *)
Definition available (p : pool) (n : nat) : Prop := ∃ l, NoDup l ∧ length l = n ∧ Forall (λ a, free_run p a 1) l.

Lemma free_run_kept p p' a b : pool_set p p' a 1 true → free_run p a 1 → free_run p b 1 → a ≠ b → free_run p' b 1.
Proof.
  intros (Hb & Hc & _ & Hbit) [(i & Hi & Hin & ->) _] [(j & Hj & Hjn & ->) Hfree] Hne. split.
  - exists j. rewrite Hb, Hc. by split_and!.
  - intros k Hk Hr. rewrite Hb in Hr. rewrite Hbit by done. rewrite decide_False; [by apply Hfree|]. unfold PGSIZE in *. lia.
Qed.

Lemma available_take p p' a n : pool_set p p' a 1 true → free_run p a 1 → available p (S n) → available p' n.
Proof.
  intros Hset Ha (l & Hnd & Hlen & Hl).
  assert (∃ k, NoDup k ∧ length k = n ∧ k ⊆ l ∧ a ∉ k) as (k & Hk & Hkn & Hsub & Hak).
  { destruct (decide (a ∈ l)) as [Hin|Hin].
    - apply list_elem_of_split in Hin as (l1 & l2 & ->). exists (l1 ++ l2). apply NoDup_app in Hnd as (H1 & H2 & H3).
      apply NoDup_cons in H3 as [H3 H4]. split_and!.
      + apply NoDup_app. split_and!; [done| |done]. intros x Hx Hx2. apply (H2 x Hx). by right.
      + rewrite length_app in *. simpl in Hlen. lia.
      + intros x. rewrite !elem_of_app, elem_of_cons. tauto.
      + rewrite elem_of_app. intros [Hx|Hx]; [apply (H2 a Hx); by left|done].
    - destruct l as [|b l]; [done|]. exists l. apply NoDup_cons in Hnd as [_ Hnd]. apply not_elem_of_cons in Hin as [_ Hin].
      split_and!; [done|simpl in Hlen; lia| |done]. intros x Hx. by right. }
  exists k. split_and!; [done..|]. apply Forall_forall. intros b Hb.
  eapply free_run_kept; [done..| |]; [|intros ->; done]. eapply Forall_forall in Hl; [exact Hl|]. by apply Hsub.
Qed.

(** A zeroed page from the kernel pool. *)
Lemma get_zeroed n s :
  palloc_ok s → PHYS_BASE ≤ base (kernel_pool s) → available (kernel_pool s) (S n) →
  ∃ a p', let s' := set_mem (mem_set a 0 PGSIZE) (set_pool false p' s) in
    palloc_get_page (Z.lor PAL_ASSERT PAL_ZERO) s = Ok (a, s') ∧ palloc_ok s' ∧ free_run (kernel_pool s) a 1 ∧
    pool_set (kernel_pool s) p' a 1 true ∧ available p' n ∧ table_page p' a.
Proof.
  intros Hok Hb Hav. destruct (palloc_get_multiple_spec (Z.lor PAL_ASSERT PAL_ZERO) 1 s Hok) as
    [[? _]|[(_ & Hno & _)|(_ & a & p' & s' & Hf & _ & Hset & Hr & Hok' & ->)]]; [done|done| |].
  { destruct Hav as ([|a l] & _ & Hl & Hfree); [done|]. apply Forall_cons in Hfree as [Ha _]. by destruct (Hno a). }
  change (flag _ PAL_USER) with false in *. change (flag _ PAL_ZERO) with true in *. cbn [get_pool] in *.
  rewrite Z.mul_1_r in *. exists a, p'. split_and!; [done..|by eapply available_take|].
  destruct (pa_kernel _ Hok) as [_ _ Hal He _]. pose proof Hf as [(i & Hi & Hin & ->) _].
  split; [unfold PGSIZE; lia|unfold PGSIZE in *; dlia|unfold PGSIZE in *; lia|]. eapply used_run_new; [done|]. by exists i.
Qed.

(** ** The tables while they are made *)

Section spec.
Context (_start _end_kernel_text : Z).

Definition in_text (page : Z) : bool := (_start <=? PHYS_BASE + page * PGSIZE) && (PHYS_BASE + page * PGSIZE <? _end_kernel_text).
Definition entry (page : Z) : Z := page * PGSIZE + (if in_text page then 1 else 3).

(** The directory [pd] with its tables, after [k] pages. *)
Record mapped (s : mmu) (pd : Z) (pts : list Z) (k : Z) : Prop := {
  mp_pal : palloc_ok (pal s);
  mp_base : PHYS_BASE ≤ base (kernel_pool (pal s));
  mp_pd : table_page (kernel_pool (pal s)) pd;
  mp_pts : Forall (table_page (kernel_pool (pal s))) pts;
  mp_nodup : NoDup (pd :: pts);
  mp_len : Z.of_nat (length pts) = (k + 1023) / 1024;
  mp_pdes i : 0 ≤ i < 1024 → mem_word (pd + 4 * i) (mem (pal s)) =
    if i <? 768 then 0 else match pts !! Z.to_nat (i - 768) with Some pt => pt - PHYS_BASE + 7 | None => 0 end;
  mp_ptes (j : nat) pt i : pts !! j = Some pt → 0 ≤ i < 1024 → mem_word (pt + 4 * i) (mem (pal s)) =
    if 1024 * Z.of_nat j + i <? k then entry (1024 * Z.of_nat j + i) else 0;
}.

Lemma page_indexes k : 0 ≤ k < 262144 → pd_no (PHYS_BASE + k * PGSIZE) = 768 + k / 1024 ∧ pt_no (PHYS_BASE + k * PGSIZE) = k mod 1024.
Proof. intros Hk. rewrite pd_no_div, pt_no_div. unfold PHYS_BASE, PGSIZE. dlia. Qed.

Lemma pte_kernel_run k :
  0 ≤ k < 262144 → pte_create_kernel (PHYS_BASE + k * PGSIZE) (negb (in_text k)) = Ok (entry k).
Proof.
  intros Hk. unfold pte_create_kernel, vtop, is_kernel_vaddr. rewrite pg_ofs_mod.
  replace ((PHYS_BASE + k * PGSIZE) mod PGSIZE) with 0 by (unfold PHYS_BASE, PGSIZE; dlia). cbn [Z.eqb assert mbind res_bind].
  rewrite (proj2 (Z.leb_le _ _)) by (unfold PHYS_BASE, PGSIZE; lia). cbn [assert mbind res_bind]. f_equal.
  rewrite <- Z.lor_assoc. replace (PHYS_BASE + k * PGSIZE - PHYS_BASE) with (k * PGSIZE) by lia. unfold entry.
  destruct (in_text k); cbn [negb]; (rewrite lor_flags; [reflexivity|unfold PGSIZE; dlia|done]).
Qed.

Lemma entry_u32 k : 0 ≤ k < 262144 → in_u32 (entry k).
Proof. intros Hk. unfold in_u32, entry, PGSIZE. destruct (in_text k); lia. Qed.

(** Writing a word of one table leaves the words of the others. *)
Lemma other_word (pool : pool) m a b i j v :
  table_page pool a → table_page pool b → 0 ≤ i < 1024 → 0 ≤ j < 1024 → a ≠ b ∨ i ≠ j →
  mem_word (a + 4 * i) (store_word (b + 4 * j) v m) = mem_word (a + 4 * i) m.
Proof. intros [] [] Hi Hj Hne. apply mem_word_store_ne. by apply page_words. Qed.

(** A further table for the page [k]. *)
Lemma mapped_table s pd pts k n :
  mapped s pd pts k → 0 ≤ k < 262144 → k mod 1024 = 0 → available (kernel_pool (pal s)) (S n) →
  ∃ pt s', (pt ← on_pal (palloc_get_page (Z.lor PAL_ASSERT PAL_ZERO)); e ← slift (pde_create pt);
            store (pd + 4 * (768 + k / 1024)) e;; mret pt) s = Ok (pt, s') ∧
    palloc_ok (pal s') ∧ PHYS_BASE ≤ base (kernel_pool (pal s')) ∧ available (kernel_pool (pal s')) n ∧
    Forall (table_page (kernel_pool (pal s'))) (pd :: pts ++ [pt]) ∧ NoDup (pd :: pts ++ [pt]) ∧
    (∀ i, 0 ≤ i < 1024 → mem_word (pd + 4 * i) (mem (pal s')) =
      if i <? 768 then 0 else match (pts ++ [pt]) !! Z.to_nat (i - 768) with Some pt => pt - PHYS_BASE + 7 | None => 0 end) ∧
    (∀ (j : nat) a i, (pts ++ [pt]) !! j = Some a → 0 ≤ i < 1024 → mem_word (a + 4 * i) (mem (pal s')) =
      if 1024 * Z.of_nat j + i <? k then entry (1024 * Z.of_nat j + i) else 0).
Proof.
  intros [Hok Hb Hpd Hpts Hnd Hlen Hpdes Hptes] Hk Hk0 Hav.
  destruct (get_zeroed n (pal s) Hok Hb Hav) as (pt & p' & Hr & Hok' & Hf & Hset & Hav' & Htp). cbn zeta in *.
  set (m1 := mem_set pt 0 PGSIZE (mem (pal s))). set (i0 := 768 + k / 1024). pose proof Htp as [Hk2 Ha2 He2 _].
  assert (Z.of_nat (length pts) = k / 1024) as Hlk by dlia.
  assert (0 ≤ i0 < 1024) as Hi0 by (unfold i0; dlia).
  assert (∀ a, table_page (kernel_pool (pal s)) a → table_page p' a ∧ pt ≠ a) as Hkeep.
  { intros a [? ? ? Hu]. split; [split; try done; eapply used_run_set; [done..|by left]|].
    intros ->. destruct (free_apart _ _ _ _ _ Hf Hu); unfold PGSIZE in *; lia. }
  assert (∀ a i, table_page p' a → a ≠ pt → 0 ≤ i < 1024 → mem_word (a + 4 * i) m1 = mem_word (a + 4 * i) (mem (pal s))) as Hother.
  { intros a i Ha Hne Hi. apply mem_word_ext. intros x Hx. unfold m1, mem_set. rewrite decide_False; [done|].
    apply (word_in_page a i x Hi) in Hx. by apply (pages_apart a pt x); [apply Ha|..]. }
  assert (Forall (table_page p') (pd :: pts ++ [pt])) as Htps.
  { constructor; [by apply Hkeep|]. apply Forall_app. split; [|by constructor]. eapply Forall_impl; [exact Hpts|]. intros a Ha. by apply Hkeep. }
  assert (pt ∉ pd :: pts) as Hfresh.
  { rewrite elem_of_cons. intros [->|Hin]; [by destruct (Hkeep pd Hpd)|]. eapply Forall_forall in Hpts; [|exact Hin]. by destruct (Hkeep pt Hpts). }
  eexists pt, _. split.
  { rewrite stM_bind_eq. unfold on_pal at 1. rewrite Hr. rewrite stM_bind_eq. unfold slift. rewrite pde_create_run by done.
    rewrite stM_bind_eq. unfold store, on_pal, smod. reflexivity. }
  cbn [pal set_pal set_mem set_pool mem kernel_pool]. fold m1.
  split_and!; [by destruct Hok'; split|by rewrite (proj1 Hset)|done|done| |..].
  - change (pd :: pts ++ [pt]) with ((pd :: pts) ++ [pt]). apply NoDup_app. split_and!; [done| |apply NoDup_singleton].
    intros x Hx ->%list_elem_of_singleton. done.
  - intros i Hi. apply Forall_cons in Htps as [Hpd' _]. assert (pd ≠ pt) by (intros ->; apply Hfresh; by left).
    destruct (decide (i = i0)) as [->|Hne].
    + rewrite mem_word_store by (unfold in_u32, PHYS_BASE, PGSIZE in *; lia). unfold i0. rewrite (proj2 (Z.ltb_ge _ _)) by dlia.
      rewrite lookup_app_r by lia. replace (Z.to_nat (768 + k / 1024 - 768) - length pts)%nat with 0%nat by lia. done.
    + rewrite (other_word p') by (done || tauto). rewrite Hother, Hpdes by done. destruct (Z.ltb_spec i 768); [done|].
      destruct (decide (i < i0)) as [Hlt|Hge].
      * rewrite lookup_app_l by (unfold i0 in *; lia). done.
      * rewrite !lookup_ge_None_2 by (rewrite ?length_app; unfold i0 in *; simpl; lia). done.
  - intros j a i Hj Hi. apply Forall_cons in Htps as [Hpd' Htps]. assert (table_page p' a) as Ha by (eapply Forall_lookup in Htps; [exact Htps|done]).
    assert (a ≠ pd) as Hne.
    { intros ->. apply lookup_app_Some in Hj as [Hj|[_ Hj]].
      - apply NoDup_cons in Hnd as [Hnd _]. by apply list_elem_of_lookup_2 in Hj.
      - apply list_elem_of_lookup_2, list_elem_of_singleton in Hj as ->. apply Hfresh. by left. }
    rewrite (other_word p') by (done || tauto). apply lookup_app_Some in Hj as [Hj|[Hge Hj]].
    + rewrite Hother by (done || (intros ->; apply Hfresh; right; by apply list_elem_of_lookup_2 in Hj)). by apply Hptes.
    + assert (j = length pts) as -> by (apply lookup_lt_Some in Hj; simpl in Hj; lia). rewrite Nat.sub_diag in Hj. injection Hj as <-.
      rewrite (proj2 (Z.ltb_ge _ _)) by dlia. apply mem_word_zero. intros x Hx. unfold m1, mem_set. rewrite decide_True; [done|].
      by apply (word_in_page pt i x Hi).
Qed.

(** Mapping the page [k]: the table is there, or is made. *)
Lemma mapped_page s pd pts pt k :
  palloc_ok (pal s) → PHYS_BASE ≤ base (kernel_pool (pal s)) →
  Forall (table_page (kernel_pool (pal s))) (pd :: pts) → NoDup (pd :: pts) → 0 ≤ k < 262144 →
  Z.of_nat (length pts) = k / 1024 + 1 → pts !! Z.to_nat (k / 1024) = Some pt →
  (∀ i, 0 ≤ i < 1024 → mem_word (pd + 4 * i) (mem (pal s)) =
    if i <? 768 then 0 else match pts !! Z.to_nat (i - 768) with Some pt => pt - PHYS_BASE + 7 | None => 0 end) →
  (∀ (j : nat) a i, pts !! j = Some a → 0 ≤ i < 1024 → mem_word (a + 4 * i) (mem (pal s)) =
    if 1024 * Z.of_nat j + i <? k then entry (1024 * Z.of_nat j + i) else 0) →
  ∃ s', store (pt + 4 * (k mod 1024)) (entry k) s = Ok (tt, s') ∧ mapped s' pd pts (k + 1) ∧ kernel_pool (pal s') = kernel_pool (pal s).
Proof.
  intros Hok Hb Htps Hnd Hk Hlen Hpt Hpdes Hptes. eexists. split; [reflexivity|]. cbn [pal set_pal set_mem kernel_pool mem].
  apply Forall_cons in Htps as [Hpd Htps]. pose proof Htps as Hptp. eapply Forall_lookup in Hptp; [|exact Hpt].
  apply NoDup_cons in Hnd as [Hpdn Hnd]. assert (pd ≠ pt) as Hne by (intros ->; apply Hpdn; by apply list_elem_of_lookup_2 in Hpt).
  pose proof (Z.mod_pos_bound k 1024 ltac:(lia)) as Hmod. split; [|done]. split; cbn [pal set_pal set_mem kernel_pool mem]; try done.
  - destruct Hok. by split.
  - by apply NoDup_cons.
  - dlia.
  - intros i Hi. rewrite (other_word (kernel_pool (pal s))) by (done || by left). by apply Hpdes.
  - intros j a i Hj Hi. pose proof Htps as Ha. eapply Forall_lookup in Ha; [|exact Hj].
    destruct (decide (a = pt ∧ i = k mod 1024)) as [[-> ->]|Hother].
    + assert (j = Z.to_nat (k / 1024)) as -> by (by eapply NoDup_lookup). rewrite mem_word_store by by apply entry_u32.
      replace (1024 * Z.of_nat (Z.to_nat (k / 1024)) + k mod 1024) with k by dlia. by rewrite (proj2 (Z.ltb_lt _ _)) by lia.
    + rewrite (other_word (kernel_pool (pal s))); [|done..|by apply not_and_l]. rewrite (Hptes j a i) by done.
      assert (1024 * Z.of_nat j + i ≠ k).
      { intros Heq. assert (j = Z.to_nat (k / 1024)) as -> by dlia. assert (a = pt) as -> by congruence. apply Hother. split; [done|dlia]. }
      destruct (Z.ltb_spec (1024 * Z.of_nat j + i) k), (Z.ltb_spec (1024 * Z.of_nat j + i) (k + 1)); done || lia.
Qed.

Lemma page_loop_run n s pd pts pt k :
  mapped s pd pts k → 0 ≤ k → k + Z.of_nat n ≤ 262144 → (k mod 1024 ≠ 0 → pts !! Z.to_nat (k / 1024) = Some pt) →
  available (kernel_pool (pal s)) (Z.to_nat ((k + Z.of_nat n + 1023) / 1024 - (k + 1023) / 1024)) →
  ∃ s' pts', page_loop _start _end_kernel_text n k pd pt s = Ok (tt, s') ∧ mapped s' pd pts' (k + Z.of_nat n).
Proof.
  revert s pts pt k. induction n as [|n IH]; intros s pts pt k Hm Hk Hkn Hpt Hav; cbn [page_loop].
  { exists s, pts. by rewrite Z.add_0_r. }
  assert (0 ≤ k < 262144) as Hk2 by lia. destruct (page_indexes k Hk2) as [Hpdi Hpti].
  assert (ptov (u32 (k * PGSIZE)) = Ok (PHYS_BASE + k * PGSIZE)) as Hv.
  { unfold ptov. rewrite (u32_small (k * PGSIZE)) by (unfold in_u32, PGSIZE; lia). rewrite (proj2 (Z.ltb_lt _ _)) by (unfold PGSIZE, PHYS_BASE; lia).
    cbn [assert mbind res_bind]. rewrite u32_small by (unfold in_u32, PGSIZE, PHYS_BASE; lia). f_equal. lia. }
  cbn zeta. rewrite stM_bind_eq. unfold slift at 1. rewrite Hv. rewrite Hpdi, Hpti. rewrite stM_bind_eq. unfold load, sread at 1.
  rewrite (mp_pdes _ _ _ _ Hm) by dlia. rewrite (proj2 (Z.ltb_ge (768 + k / 1024) 768)) by dlia.
  replace (Z.to_nat (768 + k / 1024 - 768)) with (Z.to_nat (k / 1024)) by lia. pose proof (mp_len _ _ _ _ Hm) as Hlen.
  assert (∀ s1 pts1 pt1, palloc_ok (pal s1) → PHYS_BASE ≤ base (kernel_pool (pal s1)) →
    Forall (table_page (kernel_pool (pal s1))) (pd :: pts1) → NoDup (pd :: pts1) →
    Z.of_nat (length pts1) = k / 1024 + 1 → pts1 !! Z.to_nat (k / 1024) = Some pt1 →
    (∀ i, 0 ≤ i < 1024 → mem_word (pd + 4 * i) (mem (pal s1)) =
      if i <? 768 then 0 else match pts1 !! Z.to_nat (i - 768) with Some pt => pt - PHYS_BASE + 7 | None => 0 end) →
    (∀ (j : nat) a i, pts1 !! j = Some a → 0 ≤ i < 1024 → mem_word (a + 4 * i) (mem (pal s1)) =
      if 1024 * Z.of_nat j + i <? k then entry (1024 * Z.of_nat j + i) else 0) →
    available (kernel_pool (pal s1)) (Z.to_nat ((k + 1 + Z.of_nat n + 1023) / 1024 - (k + 1 + 1023) / 1024)) →
    ∃ s' pts', (e ← slift (pte_create_kernel (PHYS_BASE + k * PGSIZE) (negb (in_text k)));
      store (pt1 + 4 * (k mod 1024)) e;; page_loop _start _end_kernel_text n (k + 1) pd pt1) s1 = Ok (tt, s') ∧
      mapped s' pd pts' (k + Z.of_nat (S n))) as Hrest.
  { intros s1 pts1 pt1 H1 H2 H3 H4 H5 H6 H7 H8 H9. rewrite stM_bind_eq. unfold slift at 1. rewrite pte_kernel_run by done.
    destruct (mapped_page s1 pd pts1 pt1 k) as (s2 & Hst & Hm2 & Hpool); [done..|]. rewrite (stM_bind_run _ _ _ _ _ Hst).
    replace (k + Z.of_nat (S n)) with (k + 1 + Z.of_nat n) by lia. apply (IH s2 pts1 pt1 (k + 1)); [done|lia|lia| |by rewrite Hpool].
    intros Hmod. by replace ((k + 1) / 1024) with (k / 1024) by dlia. }
  destruct (decide (k mod 1024 = 0)) as [Hk0|Hk0].
  - rewrite lookup_ge_None_2 by dlia. cbn [Z.eqb].
    replace (Z.to_nat ((k + Z.of_nat (S n) + 1023) / 1024 - (k + 1023) / 1024))
      with (S (Z.to_nat ((k + 1 + Z.of_nat n + 1023) / 1024 - (k + 1 + 1023) / 1024))) in Hav by dlia.
    destruct (mapped_table s pd pts k _ Hm Hk2 Hk0 Hav) as (pt1 & s1 & Hr & H1 & H2 & H3 & H4 & H5 & H6 & H7).
    rewrite (stM_bind_run _ _ _ _ _ Hr). apply (Hrest s1 (pts ++ [pt1]) pt1); try done.
    + rewrite length_app. simpl. dlia.
    + rewrite lookup_app_r by dlia. replace (Z.to_nat (k / 1024) - length pts)%nat with 0%nat by dlia. done.
  - rewrite (Hpt Hk0). pose proof (mp_pts _ _ _ _ Hm) as Htps. eapply Forall_lookup in Htps; [|exact (Hpt Hk0)]. destruct Htps as [Hb2 _ _ _].
    rewrite (proj2 (Z.eqb_neq _ 0)) by lia. rewrite stM_bind_eq. cbn [mret stM_ret].
    destruct Hm as [H1 H2 H3 H4 H5 H6 H7 H8]. apply (Hrest s pts pt); try done; [by constructor|dlia|by apply Hpt|].
    by replace ((k + 1 + Z.of_nat n + 1023) / 1024 - (k + 1 + 1023) / 1024) with ((k + Z.of_nat (S n) + 1023) / 1024 - (k + 1023) / 1024) by dlia.
Qed.
End spec.

(** ** The mapping *)

Lemma low_flags a f w : a mod PGSIZE = 0 → 0 ≤ f < PGSIZE → 0 ≤ w < PGSIZE → Z.land (a + f) w = Z.land f w.
Proof.
  intros Ha Hf Hw. rewrite <- lor_flags, Z.land_lor_distr_l by done. by rewrite (land_page a w).
Qed.

Lemma walk_mapped _start _end s pd pts k va :
  mapped _start _end s pd pts k → 0 ≤ k ≤ 262144 → in_u32 va →
  walk (mem (pal s)) (pd - PHYS_BASE) va =
    if decide (PHYS_BASE ≤ va < PHYS_BASE + k * PGSIZE)
    then Some (va - PHYS_BASE, negb (in_text _start _end ((va - PHYS_BASE) / PGSIZE)), false) else None.
Proof.
  intros [_ _ _ Hpts _ Hlen Hpdes Hptes] Hk Hva. unfold in_u32 in Hva. unfold walk. replace (pd - PHYS_BASE + PHYS_BASE) with pd by lia.
  assert (0 ≤ pd_no va < 1024) as Hi by (rewrite pd_no_div; dlia). assert (0 ≤ pt_no va < 1024) as Hj by (rewrite pt_no_div; dlia).
  rewrite Hpdes by done. destruct (Z.ltb_spec (pd_no va) 768) as [Hlt|Hge].
  { rewrite decide_False; [done|]. rewrite pd_no_div in Hlt. unfold PHYS_BASE. dlia. }
  set (j := Z.to_nat (pd_no va - 768)). set (page := (va - PHYS_BASE) / PGSIZE).
  assert (1024 * Z.of_nat j + pt_no va = page) as Hpage.
  { unfold j, page. rewrite pt_no_div in *. rewrite pd_no_div in *. unfold PHYS_BASE, PGSIZE in *. dlia. }
  assert (PHYS_BASE ≤ va) as Hb by (rewrite pd_no_div in Hge; unfold PHYS_BASE; dlia).
  destruct (pts !! j) as [pt|] eqn:Hpt.
  2:{ apply lookup_ge_None in Hpt. rewrite decide_False; [done|]. assert (k ≤ page) as Hkp by (clear -Hpt Hlen Hpage Hj; dlia).
      clear -Hkp Hb. unfold page, PHYS_BASE, PGSIZE in *. dlia. }
  eapply Forall_lookup in Hpts as Ht; [|exact Hpt]. destruct Ht as [Hb2 Hal He _].
  assert ((pt - PHYS_BASE) mod PGSIZE = 0) as Hpa by (unfold PHYS_BASE, PGSIZE in *; dlia).
  destruct (entry_fields (pt - PHYS_BASE) 7) as [-> ->]; [done|done|unfold in_u32, PHYS_BASE, PGSIZE in *; lia|]. cbn [Z.odd negb].
  replace (pt - PHYS_BASE + PHYS_BASE) with pt by lia. rewrite (Hptes j pt) by done. rewrite Hpage.
  unfold flag. rewrite !(low_flags (pt - PHYS_BASE) 7) by done.
  destruct (Z.ltb_spec page k) as [Hin|Hin].
  - rewrite decide_True by (unfold page, PHYS_BASE, PGSIZE in *; dlia). unfold entry.
    assert (page * PGSIZE mod PGSIZE = 0) as Hpm by (unfold PGSIZE; dlia).
    assert (in_u32 (page * PGSIZE + (if in_text _start _end page then 1 else 3))) as Hu by (unfold in_u32, page, PHYS_BASE, PGSIZE in *; case_match; dlia).
    destruct (entry_fields (page * PGSIZE) (if in_text _start _end page then 1 else 3)) as [-> ->]; [done|case_match; unfold PGSIZE; lia|done|].
    rewrite !(low_flags (page * PGSIZE)) by (done || (case_match; unfold PGSIZE; lia)). rewrite pg_ofs_mod.
    replace (page * PGSIZE + va mod PGSIZE) with (va - PHYS_BASE) by (unfold page, PHYS_BASE, PGSIZE in *; dlia).
    by destruct (in_text _start _end page).
  - rewrite decide_False; [done|]. unfold page, PHYS_BASE, PGSIZE in *. dlia.
Qed.

(** A directory made for a process is a copy. *)
Lemma create_walk _start _end s pd pts k :
  mapped _start _end s pd pts k → 0 ≤ k ≤ 262144 →
  ∃ npd s', pagedir_create pd s = Ok (npd, s') ∧
    (npd = 0 ∨ ∀ va, in_u32 va → walk (mem (pal s')) (npd - PHYS_BASE) va = walk (mem (pal s)) (pd - PHYS_BASE) va).
Proof.
  intros Hm Hk. pose proof Hm as [Hok Hb Hpd Hpts Hnd Hlen Hpdes Hptes]. unfold pagedir_create. rewrite stM_bind_eq. unfold on_pal at 1, palloc_get_page.
  destruct (palloc_get_multiple_spec 0 1 (pal s) Hok) as [[? _]|[(_ & _ & ->)|(_ & a & p' & s1 & Hf & _ & Hset & -> & Hok' & ->)]]; [done|done| |].
  { eexists 0, _. split; [reflexivity|by left]. }
  change (flag 0 PAL_USER) with false in *. change (flag 0 PAL_ZERO) with false. cbn [get_pool] in *.
  assert (∀ x, table_page (kernel_pool (pal s)) x → x ≠ a) as Hfresh.
  { intros x [_ _ _ Hx] ->. destruct (free_apart _ _ _ _ _ Hf Hx); unfold PGSIZE in *; lia. }
  destruct (pa_kernel _ Hok) as [_ _ Hbal Hbe _].
  assert (PHYS_BASE ≤ a ∧ a mod PGSIZE = 0) as [Hak Haa].
  { destruct Hf as [(i & Hi & Hin & ->) _]. unfold PGSIZE in *. split; [lia|dlia]. }
  rewrite (proj2 (Z.eqb_neq a 0)) by (unfold PHYS_BASE in *; lia). eexists a, _. split; [reflexivity|]. right. intros va Hva.
  cbn [pal set_pal set_mem set_pool mem id]. set (m' := mem_copy a pd PGSIZE (mem (pal s))). unfold in_u32 in Hva.
  assert (0 ≤ pd_no va < 1024) as Hi by (rewrite pd_no_div; dlia). assert (0 ≤ pt_no va < 1024) as Hj by (rewrite pt_no_div; dlia).
  unfold walk. replace (a - PHYS_BASE + PHYS_BASE) with a by lia. replace (pd - PHYS_BASE + PHYS_BASE) with pd by lia.
  assert (mem_word (a + 4 * pd_no va) m' = mem_word (pd + 4 * pd_no va) (mem (pal s))) as ->.
  { unfold mem_word, mem_bytes. f_equal. apply list_fmap_ext. intros x y Hxy. apply lookup_seq in Hxy as [-> Hx]. cbn. unfold m', mem_copy.
    rewrite decide_True by (unfold PGSIZE; lia). f_equal. lia. }
  rewrite Hpdes by done. destruct (Z.ltb_spec (pd_no va) 768); [done|].
  destruct (pts !! Z.to_nat (pd_no va - 768)) as [pt|] eqn:Hpt; [|done].
  eapply Forall_lookup in Hpts as Ht; [|exact Hpt]. pose proof Ht as [Hb2 Hal He _].
  destruct (entry_fields (pt - PHYS_BASE) 7) as [-> _]; [unfold PHYS_BASE, PGSIZE in *; dlia|done|unfold in_u32, PHYS_BASE, PGSIZE in *; lia|].
  replace (pt - PHYS_BASE + PHYS_BASE) with pt by lia.
  assert (mem_word (pt + 4 * pt_no va) m' = mem_word (pt + 4 * pt_no va) (mem (pal s))) as ->; [|done].
  apply mem_word_ext. intros x Hx. unfold m', mem_copy. rewrite decide_False; [done|]. apply (word_in_page pt _ x Hj) in Hx.
  by apply (pages_apart pt a x); [done|done|apply Hfresh|].
Qed.

(** C16: [paging_init] maps the memory: given free pages for a directory and one
    table per 4 MB, it succeeds and makes the directory the active one; the
    processor then finds every address of the [init_ram_pages] pages above
    [PHYS_BASE] at its physical address, writable exactly when its page is not
    one of the kernel's text, never for user programs, and finds nothing at any
    other address.  A directory that [pagedir_create] makes later translates
    every address in the same way. *)
Theorem paging_init_maps ram _start _end s :
  palloc_ok (pal s) → PHYS_BASE ≤ base (kernel_pool (pal s)) → 0 < ram ≤ 262144 →
  available (kernel_pool (pal s)) (S (Z.to_nat ((ram + 1023) / 1024))) →
  ∃ pd s', paging_init ram _start _end s = Ok (pd, s') ∧ cr3 s' = pd - PHYS_BASE ∧ tlb s' = ∅ ∧
    (∀ va, in_u32 va → walk (mem (pal s')) (cr3 s') va =
      if decide (PHYS_BASE ≤ va < PHYS_BASE + ram * PGSIZE)
      then Some (va - PHYS_BASE, negb (in_text _start _end ((va - PHYS_BASE) / PGSIZE)), false) else None) ∧
    ∃ npd s2, pagedir_create pd s' = Ok (npd, s2) ∧
      (npd = 0 ∨ ∀ va, in_u32 va → walk (mem (pal s2)) (npd - PHYS_BASE) va = walk (mem (pal s')) (cr3 s') va).
Proof.
  intros Hok Hb Hram Hav. destruct (get_zeroed _ (pal s) Hok Hb Hav) as (pd & p' & Hr & Hok' & Hf & Hset & Hav' & Htp). cbn zeta in *.
  unfold paging_init. rewrite stM_bind_eq. unfold on_pal at 1. rewrite Hr.
  assert (mapped _start _end (set_pal (set_mem (mem_set pd 0 PGSIZE) (set_pool false p' (pal s))) s) pd [] 0) as Hm0.
  { split; try done.
    - cbn. by rewrite (proj1 Hset).
    - apply NoDup_singleton.
    - intros i Hi. rewrite lookup_nil. transitivity 0; [|by case_match]. apply mem_word_zero. intros x Hx. cbn. unfold mem_set.
      rewrite decide_True; [done|]. by apply (word_in_page pd i x Hi). }
  destruct (page_loop_run _start _end (Z.to_nat ram) _ pd [] 0 0 Hm0) as (s1 & pts & Hl & Hm); [lia|lia|done| |].
  { cbn. by replace (0 + Z.of_nat (Z.to_nat ram) + 1023) with (ram + 1023) by lia; rewrite ?Z.sub_0_r. }
  rewrite (stM_bind_run _ _ _ _ _ Hl). replace (0 + Z.of_nat (Z.to_nat ram)) with ram in Hm by lia.
  rewrite stM_bind_eq. unfold slift, vtop, is_kernel_vaddr. destruct (mp_pd _ _ _ _ _ _ Hm) as [Hk _ _ _].
  rewrite (proj2 (Z.leb_le _ _)) by done. cbn [assert mbind res_bind]. rewrite stM_bind_eq. cbn [smod].
  eexists pd, _. split; [reflexivity|]. cbn [cr3 tlb pal]. split_and!; [done..| |].
  - intros va Hva. eapply walk_mapped; [done|lia|done].
  - assert (mapped _start _end (mk_mmu (pal s1) (pd - PHYS_BASE) ∅) pd pts ram) as Hm' by (destruct Hm; by split).
    destruct (create_walk _ _ _ _ _ _ Hm') as (npd & s2 & Hc & Hw); [lia|]. by exists npd, s2.
Qed.

(** ** Witness *)

Lemma sample_free i : i = 1 ∨ i = 2 ∨ i = 3 → free_run (kernel_pool (pal sample_mmu)) (sample_pd + PGSIZE * i) 1.
Proof.
  intros Hi. split.
  - exists i. cbn. split_and!; [lia|lia|done].
  - intros j Hj Hr. cbn in Hr. unfold PGSIZE in Hr. assert (j = i) as -> by lia. by destruct Hi as [->|[->| ->]].
Qed.

(** 8 MB, with the text from 0x20000 to 0x30000. *)
Lemma paging_init_maps_witness :
  ∃ pd s', paging_init 2048 (PHYS_BASE + 131072) (PHYS_BASE + 196608) sample_mmu = Ok (pd, s') ∧
    walk (mem (pal s')) (cr3 s') (PHYS_BASE + 131076) = Some (131076, false, false) ∧
    walk (mem (pal s')) (cr3 s') (PHYS_BASE + 8388604) = Some (8388604, true, false) ∧
    walk (mem (pal s')) (cr3 s') 134512640 = None.
Proof.
  destruct (paging_init_maps 2048 (PHYS_BASE + 131072) (PHYS_BASE + 196608) sample_mmu) as (pd & s' & Hr & _ & _ & Hw & _).
  - apply sample_pd_ok.
  - vm_compute. discriminate.
  - lia.
  - exists (map (λ i, sample_pd + PGSIZE * i) [1; 2; 3]). split_and!.
    + apply (bool_decide_unpack _). vm_compute. exact I.
    + reflexivity.
    + repeat constructor; apply sample_free; lia.
  - exists pd, s'. rewrite !Hw by (vm_compute; intuition discriminate). by split_and!.
Defined.

End Paging.
