(* ===== verification/Descriptors.v ===== *)
(** * threads/interrupt.c and userprog/gdt.c, tss.c: descriptor tables

    The processor finds the kernel by the interrupt descriptor table and the
    segments by the global descriptor table, both arrays of packed 64-bit
    words.  [stub] gives the addresses of the assembly stubs, a handler is known
    by its address.  [lidt], [lgdt] and [ltr] load what is made here. *)

From Stdlib Require Import String.
From S2P Require Import Prelude Palloc.
Import Palloc.

Module Descriptors.

Definition SEL_NULL : Z := 0.
Definition SEL_KCSEG : Z := 8.
Definition SEL_KDSEG : Z := 16.
Definition SEL_UCSEG : Z := 27.
Definition SEL_UDSEG : Z := 35.
Definition SEL_TSS : Z := 40.
Definition SEL_CNT : nat := 6.
Definition NULL : Z := 0.

(** ** Segments *)

Inductive seg_class := CLS_SYSTEM | CLS_CODE_DATA.
Inductive seg_granularity := GRAN_BYTE | GRAN_PAGE.
Definition class_no (c : seg_class) : Z := match c with CLS_SYSTEM => 0 | CLS_CODE_DATA => 1 end.
Definition gran_no (g : seg_granularity) : Z := match g with GRAN_BYTE => 0 | GRAN_PAGE => 1 end.

Definition pair (e0 e1 : Z) : Z := Z.lor e0 (u64 (Z.shiftl e1 32)).

Definition make_seg_desc (base limit : Z) (class : seg_class) (type dpl : Z) (granularity : seg_granularity) : res Z :=
  assert (limit <=? 1048575);;
  assert ((0 <=? type) && (type <=? 15));;
  assert ((0 <=? dpl) && (dpl <=? 3));;
  let e0 := Z.lor (Z.land limit 65535) (u32 (Z.shiftl base 16)) in
  let e1 :=
    Z.lor (Z.lor (Z.lor (Z.lor (Z.lor (Z.lor (Z.lor (Z.lor
      (Z.land (Z.shiftr base 16) 255) (Z.shiftl type 8)) (Z.shiftl (class_no class) 12)) (Z.shiftl dpl 13)) (Z.shiftl 1 15))
      (Z.land limit 983040)) (Z.shiftl 1 22)) (Z.shiftl (gran_no granularity) 23)) (Z.land base 4278190080) in
  Ok (pair e0 e1).

Definition make_code_desc (dpl : Z) : res Z := make_seg_desc 0 1048575 CLS_CODE_DATA 10 dpl GRAN_PAGE.
Definition make_data_desc (dpl : Z) : res Z := make_seg_desc 0 1048575 CLS_CODE_DATA 2 dpl GRAN_PAGE.
Definition make_tss_desc (laddr : Z) : res Z := make_seg_desc laddr 103 CLS_SYSTEM 9 0 GRAN_BYTE.
Definition make_gdtr_operand (limit base : Z) : Z := Z.lor limit (u64 (Z.shiftl base 16)).

(** The table, [gdt[sel / 8]] written in order, and the operand of [lgdt]. *)
Definition gdt_init (gdt_addr tss : Z) : res (list Z * Z) :=
  let put sel (v : Z) (l : list Z) := <[Z.to_nat (sel / 8) := v]> l in
  kc ← make_code_desc 0; kd ← make_data_desc 0; uc ← make_code_desc 3; ud ← make_data_desc 3;
  assert (negb (tss =? NULL));; t ← make_tss_desc tss;
  let gdt := put SEL_TSS t (put SEL_UDSEG ud (put SEL_UCSEG uc (put SEL_KDSEG kd (put SEL_KCSEG kc (put SEL_NULL 0 (replicate SEL_CNT 0)))))) in
  Ok (gdt, make_gdtr_operand (8 * Z.of_nat SEL_CNT - 1) gdt_addr).

(** ** Interrupt gates *)

Definition make_gate (function dpl type : Z) : res Z :=
  assert (negb (function =? NULL));;
  assert ((0 <=? dpl) && (dpl <=? 3));;
  assert ((0 <=? type) && (type <=? 15));;
  let e0 := Z.lor (Z.land function 65535) (Z.shiftl SEL_KCSEG 16) in
  let e1 := Z.lor (Z.lor (Z.lor (Z.lor (Z.land function 4294901760) (Z.shiftl 1 15)) (Z.shiftl dpl 13)) (Z.shiftl 0 12)) (Z.shiftl type 8) in
  Ok (pair e0 e1).
Definition make_intr_gate (function dpl : Z) : res Z := make_gate function dpl 14.
Definition make_trap_gate (function dpl : Z) : res Z := make_gate function dpl 15.
Definition make_idtr_operand (limit base : Z) : Z := Z.lor limit (u64 (Z.shiftl base 16)).

Definition INTR_CNT : nat := 256.
Record intr := mk_intr { idt : list Z; intr_handlers : list Z; intr_names : list string; unexpected_cnt : list Z }.
Abbreviation iM := (stM intr).

Section idt.
Context (stub : nat → Z).

(** [for (i = 0; i < INTR_CNT; i++) idt[i] = make_intr_gate (intr_stubs[i], 0);] *)
Fixpoint gate_loop (n i : nat) (l : list Z) : res (list Z) :=
  match n with O => Ok l | S n => g ← make_intr_gate (stub i) 0; gate_loop n (S i) (<[i := g]> l) end.

Definition exception_names : list (nat * string) :=
  [(0, "#DE Divide Error"); (1, "#DB Debug Exception"); (2, "NMI Interrupt"); (3, "#BP Breakpoint Exception");
   (4, "#OF Overflow Exception"); (5, "#BR BOUND Range Exceeded Exception"); (6, "#UD Invalid Opcode Exception");
   (7, "#NM Device Not Available Exception"); (8, "#DF Double Fault Exception"); (9, "Coprocessor Segment Overrun");
   (10, "#TS Invalid TSS Exception"); (11, "#NP Segment Not Present"); (12, "#SS Stack Fault Exception");
   (13, "#GP General Protection Exception"); (14, "#PF Page-Fault Exception"); (16, "#MF x87 FPU Floating-Point Error");
   (17, "#AC Alignment Check Exception"); (18, "#MC Machine-Check Exception"); (19, "#XF SIMD Floating-Point Exception")]%nat%string.

(** The bytes that [pic_init] writes to the ports of the interrupt
    controllers, in order. *)
Definition pic_init : list (Z * Z) :=
  [(33, 255); (161, 255); (32, 17); (33, 32); (33, 4); (33, 1); (160, 17); (161, 40); (161, 2); (161, 1); (33, 0); (161, 0)].
Definition pic_end_of_interrupt (irq : Z) : res (list (Z * Z)) :=
  assert ((32 <=? irq) && (irq <? 48));; Ok ((32, 32) :: if 40 <=? irq then [(160, 32)] else []).

(** The ports written, and the operand of [lidt]. *)
Definition intr_init (idt_addr : Z) : iM (list (Z * Z) * Z) := λ s,
  l ← gate_loop INTR_CNT 0 (idt s);
  let names := foldl (λ l '(i, n), <[i := n]> l) (replicate INTR_CNT "unknown"%string) exception_names in
  Ok ((pic_init, make_idtr_operand (8 * Z.of_nat INTR_CNT - 1) idt_addr), mk_intr l (intr_handlers s) names (unexpected_cnt s)).

(** [vec_no] is a [uint8_t]; [on] is the level INTR_ON. *)
Definition register_handler (vec_no : nat) (dpl : Z) (on : bool) (handler : Z) (name : string) : iM unit := λ s,
  h ← deref (intr_handlers s !! vec_no);
  assert (h =? NULL);;
  g ← (if on then make_trap_gate (stub vec_no) dpl else make_intr_gate (stub vec_no) dpl);
  Ok (tt, mk_intr (<[vec_no := g]> (idt s)) (<[vec_no := handler]> (intr_handlers s)) (<[vec_no := name]> (intr_names s)) (unexpected_cnt s)).

Definition intr_register_ext (vec_no : nat) (handler : Z) (name : string) : iM unit :=
  sassert (Nat.leb 32 vec_no && Nat.leb vec_no 47);; register_handler vec_no 0 false handler name.
Definition intr_register_int (vec_no : nat) (dpl : Z) (on : bool) (handler : Z) (name : string) : iM unit :=
  sassert (Nat.ltb vec_no 32 || Nat.ltb 47 vec_no);; register_handler vec_no dpl on handler name.

(** ** What the kernel registers at its start *)

Section handlers.
Context (timer_interrupt keyboard_interrupt kill page_fault syscall_handler serial_interrupt interrupt_handler : Z).

Definition timer_init : iM unit := intr_register_ext 32 timer_interrupt "8254 Timer".
Definition kbd_init : iM unit := intr_register_ext 33 keyboard_interrupt "8042 Keyboard".

Definition exception_init : iM unit :=
  intr_register_int 3 3 true kill "#BP Breakpoint Exception";;
  intr_register_int 4 3 true kill "#OF Overflow Exception";;
  intr_register_int 5 3 true kill "#BR BOUND Range Exceeded Exception";;
  intr_register_int 0 0 true kill "#DE Divide Error";;
  intr_register_int 1 0 true kill "#DB Debug Exception";;
  intr_register_int 6 0 true kill "#UD Invalid Opcode Exception";;
  intr_register_int 7 0 true kill "#NM Device Not Available Exception";;
  intr_register_int 11 0 true kill "#NP Segment Not Present";;
  intr_register_int 12 0 true kill "#SS Stack Fault Exception";;
  intr_register_int 13 0 true kill "#GP General Protection Exception";;
  intr_register_int 16 0 true kill "#MF x87 FPU Floating-Point Error";;
  intr_register_int 19 0 true kill "#XF SIMD Floating-Point Exception";;
  intr_register_int 14 0 false page_fault "#PF Page-Fault Exception".

Definition syscall_init : iM unit := intr_register_int 48 3 true syscall_handler "syscall".

(** What [serial_init_queue] registers, and [ide_init] for the two channels;
    the rest of these functions is in Serial.v and Ide.v. *)
Definition serial_register : iM unit := intr_register_ext (32 + 4) serial_interrupt "serial".
Definition ide_register : iM unit :=
  intr_register_ext (14 + 32) interrupt_handler "ide0";; intr_register_ext (15 + 32) interrupt_handler "ide1".

(** The calls of [pintos_init], in their order; those between them register
    nothing. *)
Definition interrupts_start (idt_addr : Z) : iM (list (Z * Z) * Z) :=
  r ← intr_init idt_addr; timer_init;; kbd_init;; exception_init;; syscall_init;; serial_register;; ide_register;; mret r.
End handlers.
End idt.

(** The static arrays. *)
Definition intr_zero : intr := mk_intr (replicate INTR_CNT 0) (replicate INTR_CNT NULL) (replicate INTR_CNT ""%string) (replicate INTR_CNT 0).

(** ** Dispatch without a handler *)

(** Whether a message is printed, at the [n]-th interrupt. *)
Definition unexpected_interrupt (vec_no : nat) : iM bool := λ s,
  c ← deref (unexpected_cnt s !! vec_no);
  let n := u32 (c + 1) in
  Ok (Z.land n (u32 (n - 1)) =? 0, mk_intr (idt s) (intr_handlers s) (intr_names s) (<[vec_no := n]> (unexpected_cnt s))).

Definition intr_name (vec : nat) (s : intr) : res string := deref (intr_names s !! vec).

(** ** The task state segment *)

Record tss := mk_tss { esp0 : Z; ss0 : Z; bitmap : Z }.
(** [thread_current ()] is the page of the running thread. *)
Definition tss_update (cur : Z) (t : option tss) : res tss :=
  match t with None => Err EAssert | Some t => Ok (mk_tss (u32 (cur + PGSIZE)) (ss0 t) (bitmap t)) end.
Definition tss_init (cur : Z) : res tss := tss_update cur (Some (mk_tss 0 SEL_KDSEG 57343)).

(** ** What the processor reads *)

Definition bits (v ofs n : Z) : Z := Z.shiftr v ofs mod 2 ^ n.

Record segment := mk_segment { sg_base : Z; sg_limit : Z; sg_class : Z; sg_type : Z; sg_dpl : Z; sg_present : Z; sg_big : Z; sg_gran : Z }.
Definition read_segment (d : Z) : segment :=
  mk_segment (bits d 16 16 + bits d 32 8 * 65536 + bits d 56 8 * 16777216) (bits d 0 16 + bits d 48 4 * 65536)
    (bits d 44 1) (bits d 40 4) (bits d 45 2) (bits d 47 1) (bits d 54 1) (bits d 55 1).

Record gate := mk_gate { gt_offset : Z; gt_selector : Z; gt_type : Z; gt_class : Z; gt_dpl : Z; gt_present : Z }.
Definition read_gate (d : Z) : gate :=
  mk_gate (bits d 0 16 + bits d 48 16 * 65536) (bits d 16 16) (bits d 40 4) (bits d 44 1) (bits d 45 2) (bits d 47 1).

End Descriptors.
