(* ===== verification/DescriptorsSpec.v ===== *)
(** * Descriptor tables: what the processor finds in them

    The packed words read back as the fields they were made from, and after
    the kernel's start every interrupt has a well-formed gate, with the few
    that user programs may call. *)

From Stdlib Require Import String.
From S2P Require Import Prelude Palloc Descriptors.
Import Palloc Descriptors.

(** ** Packing *)

Lemma lor_add a b k : 0 ≤ k → 0 ≤ a < 2 ^ k → b mod 2 ^ k = 0 → Z.lor a b = a + b.
Proof.
  intros Hk Ha Hb. assert (Z.land a b = 0) as Hl; [|by rewrite Z.add_nocarry_lxor, Z.lxor_lor].
  apply Z.bits_inj'. intros n Hn. rewrite Z.bits_0, Z.land_spec. destruct (decide (n < k)).
  - apply Z.mod_divide in Hb as [q ->]; [|lia]. rewrite Z.mul_pow2_bits_low by done. apply andb_false_r.
  - destruct (decide (a = 0)) as [->|]; [by rewrite Z.bits_0|]. rewrite Z.bits_above_log2; [done|lia|].
    assert (Z.log2 a < k) by (apply Z.log2_lt_pow2; lia). lia.
Qed.
Lemma lor_add_r a b k : 0 ≤ k → a mod 2 ^ k = 0 → 0 ≤ b < 2 ^ k → Z.lor a b = a + b.
Proof. intros. rewrite Z.lor_comm, (lor_add b a k) by done. lia. Qed.

Lemma land_field x n k : 0 ≤ n → 0 ≤ k → Z.land x (Z.shiftl (Z.ones n) k) = (x / 2 ^ k) mod 2 ^ n * 2 ^ k.
Proof.
  intros Hn Hk. rewrite <- Z.shiftl_mul_pow2, <- Z.shiftr_div_pow2, <- Z.land_ones by done.
  apply Z.bits_inj'. intros i Hi. rewrite Z.land_spec, !Z.shiftl_spec by done. destruct (decide (i < k)).
  - rewrite !(Z.testbit_neg_r _ (i - k)) by lia. apply andb_false_r.
  - rewrite Z.land_spec, Z.shiftr_spec by lia. by replace (i - k + k) with i by lia.
Qed.

Lemma bits_eq v ofs n : 0 ≤ ofs → bits v ofs n = (v / 2 ^ ofs) mod 2 ^ n.
Proof. intros. unfold bits. by rewrite Z.shiftr_div_pow2. Qed.

Ltac fields := rewrite !bits_eq by done; cbn [Z.pow Z.pow_pos Pos.iter Z.mul Pos.mul]; f_equal; dlia.

Lemma pair_eq e0 e1 : in_u32 e0 → in_u32 e1 → pair e0 e1 = e0 + e1 * W32.
Proof.
  unfold in_u32. intros H0 H1. unfold pair. rewrite Z.shiftl_mul_pow2 by done. change (2 ^ 32) with W32. rewrite u64_small by (unfold in_u64; lia).
  apply (lor_add _ _ 32); [done|done|]. change (2 ^ 32) with W32. dlia.
Qed.

(** The word of a segment descriptor, field by field. *)
Lemma seg_desc_eq b0 b1 b2 l0 l1 class type dpl g :
  0 ≤ b0 < 65536 → 0 ≤ b1 < 256 → 0 ≤ b2 < 256 → 0 ≤ l0 < 65536 → 0 ≤ l1 < 16 → 0 ≤ type < 16 → 0 ≤ dpl < 4 →
  make_seg_desc (b0 + b1 * 65536 + b2 * 16777216) (l0 + l1 * 65536) class type dpl g =
    Ok (l0 + b0 * 65536 + (b1 + type * 256 + class_no class * 4096 + dpl * 8192 + 32768 + l1 * 65536 + 4194304 + gran_no g * 8388608 + b2 * 16777216) * W32).
Proof.
  intros Hb0 Hb1 Hb2 Hl0 Hl1 Ht Hd. set (base := b0 + b1 * 65536 + b2 * 16777216). set (limit := l0 + l1 * 65536).
  unfold make_seg_desc. rewrite !(proj2 (Z.leb_le _ _)) by (unfold limit; lia). cbn [assert andb mbind res_bind]. f_equal.
  assert (0 ≤ class_no class < 2) by (by destruct class). assert (0 ≤ gran_no g < 2) by (by destruct g).
  assert (Z.land limit 65535 = l0) as ->.
  { change 65535 with (Z.shiftl (Z.ones 16) 0). rewrite land_field by done. change (2 ^ 0) with 1. change (2 ^ 16) with 65536. unfold limit. dlia. }
  assert (Z.land limit 983040 = l1 * 65536) as ->.
  { change 983040 with (Z.shiftl (Z.ones 4) 16). rewrite land_field by done. change (2 ^ 4) with 16. change (2 ^ 16) with 65536. unfold limit. dlia. }
  assert (Z.land (Z.shiftr base 16) 255 = b1) as ->.
  { change 255 with (Z.ones 8). rewrite Z.land_ones, Z.shiftr_div_pow2 by done. change (2 ^ 8) with 256. change (2 ^ 16) with 65536. unfold base. dlia. }
  assert (Z.land base 4278190080 = b2 * 16777216) as ->.
  { change 4278190080 with (Z.shiftl (Z.ones 8) 24). rewrite land_field by done. change (2 ^ 24) with 16777216. change (2 ^ 8) with 256. unfold base. dlia. }
  rewrite !Z.shiftl_mul_pow2 by done.
  change (2 ^ 8) with 256. change (2 ^ 12) with 4096. change (2 ^ 13) with 8192. change (1 * 2 ^ 15) with 32768. change (1 * 2 ^ 22) with 4194304.
  change (2 ^ 23) with 8388608. change (2 ^ 16) with 65536.
  assert (u32 (base * 65536) = b0 * 65536) as -> by (unfold u32, base; dlia).
  rewrite (lor_add l0 (b0 * 65536) 16) by (done || (change (2 ^ 16) with 65536; dlia)).
  rewrite (lor_add b1 _ 8) by (done || (change (2 ^ 8) with 256; dlia)).
  rewrite (lor_add _ (class_no class * 4096) 12) by (done || (change (2 ^ 12) with 4096; dlia)).
  rewrite (lor_add _ (dpl * 8192) 13) by (done || (change (2 ^ 13) with 8192; dlia)).
  rewrite (lor_add _ 32768 15) by (done || (change (2 ^ 15) with 32768; dlia)).
  rewrite (lor_add _ (l1 * 65536) 16) by (done || (change (2 ^ 16) with 65536; dlia)).
  rewrite (lor_add _ 4194304 22) by (done || (change (2 ^ 22) with 4194304; dlia)).
  rewrite (lor_add _ (gran_no g * 8388608) 23) by (done || (change (2 ^ 23) with 8388608; dlia)).
  rewrite (lor_add _ (b2 * 16777216) 24) by (done || (change (2 ^ 24) with 16777216; dlia)).
  apply pair_eq; unfold in_u32; lia.
Qed.

Lemma seg_word_reads b0 b1 b2 l0 l1 cn type dpl gn :
  0 ≤ b0 < 65536 → 0 ≤ b1 < 256 → 0 ≤ b2 < 256 → 0 ≤ l0 < 65536 → 0 ≤ l1 < 16 → 0 ≤ cn < 2 → 0 ≤ type < 16 → 0 ≤ dpl < 4 → 0 ≤ gn < 2 →
  read_segment (l0 + b0 * 65536 + (b1 + type * 256 + cn * 4096 + dpl * 8192 + 32768 + l1 * 65536 + 4194304 + gn * 8388608 + b2 * 16777216) * W32) =
    mk_segment (b0 + b1 * 65536 + b2 * 16777216) (l0 + l1 * 65536) cn type dpl 1 1 gn.
Proof.
  intros. unfold read_segment. rewrite !bits_eq by done.
  change (2 ^ 16) with 65536. change (2 ^ 32) with W32. change (2 ^ 8) with 256. change (2 ^ 56) with 72057594037927936.
  change (2 ^ 0) with 1. change (2 ^ 48) with 281474976710656. change (2 ^ 4) with 16. change (2 ^ 44) with 17592186044416. change (2 ^ 1) with 2.
  change (2 ^ 40) with 1099511627776. change (2 ^ 45) with 35184372088832. change (2 ^ 2) with 4. change (2 ^ 47) with 140737488355328.
  change (2 ^ 54) with 18014398509481984. change (2 ^ 55) with 36028797018963968.
  f_equal; dlia.
Qed.

Lemma seg_desc_reads base limit class type dpl g :
  in_u32 base → 0 ≤ limit < 1048576 → 0 ≤ type < 16 → 0 ≤ dpl < 4 →
  ∃ d, make_seg_desc base limit class type dpl g = Ok d ∧
    read_segment d = mk_segment base limit (class_no class) type dpl 1 1 (gran_no g).
Proof.
  unfold in_u32. intros Hb Hl Ht Hd.
  assert (0 ≤ class_no class < 2) by (by destruct class). assert (0 ≤ gran_no g < 2) by (by destruct g).
  pose proof (seg_desc_eq (base mod 65536) (base / 65536 mod 256) (base / 16777216) (limit mod 65536) (limit / 65536) class type dpl g) as He.
  pose proof (seg_word_reads (base mod 65536) (base / 65536 mod 256) (base / 16777216) (limit mod 65536) (limit / 65536) (class_no class) type dpl (gran_no g)) as Hr.
  replace (base mod 65536 + base / 65536 mod 256 * 65536 + base / 16777216 * 16777216) with base in * by dlia.
  replace (limit mod 65536 + limit / 65536 * 65536) with limit in * by dlia.
  eexists. split; [apply He|apply Hr]; (done || dlia).
Qed.

Lemma gate_word_reads f0 f1 type dpl :
  0 ≤ f0 < 65536 → 0 ≤ f1 < 65536 → 0 ≤ type < 16 → 0 ≤ dpl < 4 →
  read_gate (f0 + SEL_KCSEG * 65536 + (f1 * 65536 + 32768 + dpl * 8192 + type * 256) * W32) = mk_gate (f0 + f1 * 65536) SEL_KCSEG type 0 dpl 1.
Proof.
  unfold SEL_KCSEG. intros. unfold read_gate. rewrite !bits_eq by done.
  change (2 ^ 16) with 65536. change (2 ^ 0) with 1. change (2 ^ 48) with 281474976710656. change (2 ^ 4) with 16. change (2 ^ 44) with 17592186044416.
  change (2 ^ 1) with 2. change (2 ^ 40) with 1099511627776. change (2 ^ 45) with 35184372088832. change (2 ^ 2) with 4. change (2 ^ 47) with 140737488355328.
  f_equal; dlia.
Qed.

Lemma gate_eq f0 f1 type dpl :
  0 ≤ f0 < 65536 → 0 ≤ f1 < 65536 → f0 + f1 * 65536 ≠ 0 → 0 ≤ type < 16 → 0 ≤ dpl < 4 →
  make_gate (f0 + f1 * 65536) dpl type = Ok (f0 + SEL_KCSEG * 65536 + (f1 * 65536 + 32768 + dpl * 8192 + type * 256) * W32).
Proof.
  intros Hf0 Hf1 Hn Ht Hd. set (f := f0 + f1 * 65536) in *. unfold make_gate, NULL.
  rewrite (proj2 (Z.eqb_neq _ _)), !(proj2 (Z.leb_le _ _)) by lia. cbn [assert negb andb mbind res_bind]. f_equal.
  assert (Z.land f 65535 = f0) as ->.
  { change 65535 with (Z.shiftl (Z.ones 16) 0). rewrite land_field by done. change (2 ^ 0) with 1. change (2 ^ 16) with 65536. unfold f. dlia. }
  assert (Z.land f 4294901760 = f1 * 65536) as ->.
  { change 4294901760 with (Z.shiftl (Z.ones 16) 16). rewrite land_field by done. change (2 ^ 16) with 65536. unfold f. dlia. }
  rewrite !Z.shiftl_mul_pow2 by done. unfold SEL_KCSEG.
  change (2 ^ 8) with 256. change (0 * 2 ^ 12) with 0. change (2 ^ 13) with 8192. change (1 * 2 ^ 15) with 32768. change (2 ^ 16) with 65536.
  rewrite (lor_add f0 (8 * 65536) 16) by done.
  rewrite (lor_add_r _ 32768 16) by (done || (change (2 ^ 16) with 65536; dlia)).
  rewrite (lor_add_r _ (dpl * 8192) 15) by (done || (change (2 ^ 15) with 32768; dlia)).
  rewrite Z.lor_0_r. rewrite (lor_add_r _ (type * 256) 13) by (done || (change (2 ^ 13) with 8192; dlia)).
  apply pair_eq; unfold in_u32; lia.
Qed.

Lemma gate_reads f type dpl :
  0 < f < W32 → 0 ≤ type < 16 → 0 ≤ dpl < 4 →
  ∃ g, make_gate f dpl type = Ok g ∧ in_u64 g ∧ read_gate g = mk_gate f SEL_KCSEG type 0 dpl 1.
Proof.
  intros Hf Ht Hd.
  pose proof (gate_eq (f mod 65536) (f / 65536) type dpl) as He. pose proof (gate_word_reads (f mod 65536) (f / 65536) type dpl) as Hr.
  replace (f mod 65536 + f / 65536 * 65536) with f in * by dlia.
  eexists. split_and!; [apply He|unfold in_u64, SEL_KCSEG|apply Hr]; (done || dlia).
Qed.

(** ** The tables as they are registered *)

Record entry := mk_entry { en_dpl : Z; en_on : bool; en_handler : Z }.
(** What an interrupt without a registration has: an interrupt gate for the
    kernel only, and no handler. *)
Definition unregistered : entry := mk_entry 0 false NULL.
Definition gate_type (on : bool) : Z := if on then 15 else 14.

Section table.
Context (stub : nat → Z).
Hypothesis stub_ok : ∀ v, (v < INTR_CNT)%nat → 0 < stub v < W32.

(** The vector [v] is as [e] says. *)
Definition vector_is (s : intr) (v : nat) (e : entry) : Prop :=
  intr_handlers s !! v = Some (en_handler e) ∧
  ∃ g, idt s !! v = Some g ∧ in_u64 g ∧ read_gate g = mk_gate (stub v) SEL_KCSEG (gate_type (en_on e)) 0 (en_dpl e) 1.

Definition table (s : intr) (m : gmap nat entry) : Prop :=
  ∀ v, (v < INTR_CNT)%nat → vector_is s v (default unregistered (m !! v)).

Lemma gate_loop_spec n i l :
  (i + n ≤ INTR_CNT)%nat → length l = INTR_CNT →
  ∃ l', gate_loop stub n i l = Ok l' ∧ length l' = INTR_CNT ∧
    (∀ v, (v < i)%nat → l' !! v = l !! v) ∧
    (∀ v, (i ≤ v < i + n)%nat → ∃ g, l' !! v = Some g ∧ in_u64 g ∧ read_gate g = mk_gate (stub v) SEL_KCSEG 14 0 0 1).
Proof.
  revert i l. induction n as [|n IH]; intros i l Hi Hl; cbn [gate_loop].
  { eexists. split_and!; [done|done|done|lia]. }
  destruct (gate_reads (stub i) 14 0) as (g & Hg & Hu & Hr); [apply stub_ok; lia|lia..|].
  unfold make_intr_gate. rewrite Hg. cbn [mbind res_bind].
  destruct (IH (S i) (<[i:=g]> l)) as (l' & -> & Hl' & Hlo & Hhi); [lia|by rewrite length_insert|].
  exists l'. split_and!; [done|done| |].
  - intros v Hv. rewrite Hlo by lia. by rewrite list_lookup_insert_ne by lia.
  - intros v Hv. destruct (decide (v = i)) as [->|]; [|apply Hhi; lia].
    rewrite Hlo by lia. rewrite list_lookup_insert_eq by lia. eauto.
Qed.

Lemma intr_init_table addr :
  ∃ r s, intr_init stub addr intr_zero = Ok (r, s) ∧ r = (pic_init, make_idtr_operand 2047 addr) ∧ length (idt s) = INTR_CNT ∧ table s ∅.
Proof.
  destruct (gate_loop_spec INTR_CNT 0 (idt intr_zero)) as (l & Hl & Hlen & _ & Hg); [lia|unfold intr_zero; cbn [idt]; apply length_replicate|].
  unfold intr_init. rewrite Hl. cbn [mbind res_bind].
  eexists _, _. split_and!; [done|done|done|]. intros v Hv. rewrite lookup_empty. split; cbn [idt intr_handlers default].
  - unfold intr_zero. cbn [intr_handlers]. by rewrite lookup_replicate_2.
  - apply Hg. lia.
Qed.

Lemma register_handler_table v dpl on h name s m :
  (v < INTR_CNT)%nat → 0 ≤ dpl < 4 → table s m → m !! v = None → length (idt s) = INTR_CNT →
  ∃ s', register_handler stub v dpl on h name s = Ok (tt, s') ∧ length (idt s') = INTR_CNT ∧ table s' (<[v := mk_entry dpl on h]> m).
Proof.
  intros Hv Hd Ht Hm Hl. destruct (Ht v Hv) as [Hh (g0 & Hg0 & _)]. rewrite Hm in Hh. cbn [default unregistered en_handler] in Hh.
  destruct (gate_reads (stub v) (gate_type on) dpl) as (g & Hg & Hu & Hr); [by apply stub_ok|by destruct on|done|].
  unfold register_handler. rewrite Hh. cbn [deref mbind res_bind assert]. unfold make_trap_gate, make_intr_gate.
  replace (if on then make_gate (stub v) dpl 15 else make_gate (stub v) dpl 14) with (Ok g) by (rewrite <- Hg; by destruct on).
  eexists. split_and!; [done|by cbn [idt]; rewrite length_insert|].
  intros w Hw. unfold vector_is. cbn [idt intr_handlers]. destruct (decide (w = v)) as [->|Hn].
  - rewrite lookup_insert_eq. cbn [default en_handler en_dpl en_on].
    rewrite !list_lookup_insert_eq by (eauto using lookup_lt_Some). eauto.
  - rewrite lookup_insert_ne, !list_lookup_insert_ne by done. by apply Ht.
Qed.

(** Registration from the outside: as it is composed in the kernel's start. *)
Definition registers (m : iM unit) (v : nat) (e : entry) : Prop :=
  ∀ s t, table s t → t !! v = None → length (idt s) = INTR_CNT →
    ∃ s', m s = Ok (tt, s') ∧ length (idt s') = INTR_CNT ∧ table s' (<[v := e]> t).

Lemma intr_register_int_table v dpl on h name :
  (v < 32 ∨ 47 < v < INTR_CNT)%nat → 0 ≤ dpl < 4 → registers (intr_register_int stub v dpl on h name) v (mk_entry dpl on h).
Proof.
  intros Hv Hd s t Ht Hm Hl. unfold intr_register_int, INTR_CNT in *.
  replace (Nat.ltb v 32 || Nat.ltb 47 v) with true by (symmetry; apply orb_true_iff; rewrite !Nat.ltb_lt; lia).
  apply register_handler_table; unfold INTR_CNT; auto; lia.
Qed.
Lemma intr_register_ext_table v h name :
  (32 ≤ v ≤ 47)%nat → registers (intr_register_ext stub v h name) v (mk_entry 0 false h).
Proof.
  intros Hv s t Ht Hm Hl. unfold intr_register_ext, INTR_CNT in *.
  rewrite !(proj2 (Nat.leb_le _ _)) by lia.
  apply register_handler_table; unfold INTR_CNT; auto; lia.
Qed.

Lemma registers_then (m : iM unit) v e {B} (k : iM B) s t (P : res (B * intr) → Prop) :
  registers m v e → table s t → t !! v = None → length (idt s) = INTR_CNT →
  (∀ s', length (idt s') = INTR_CNT → table s' (<[v := e]> t) → P (k s')) → P ((m;; k) s).
Proof.
  intros Hm Ht Hv Hl Hk. destruct (Hm s t Ht Hv Hl) as (s' & Hs & Hl' & Ht'). rewrite (stM_bind_run _ _ _ _ _ Hs). by apply Hk.
Qed.
End table.

(** What the kernel registers, by vector. *)
Definition kernel_entries (timer_interrupt keyboard_interrupt kill page_fault syscall_handler serial_interrupt interrupt_handler : Z) : gmap nat entry :=
  let fault h := mk_entry 0 true h in let user h := mk_entry 3 true h in let off h := mk_entry 0 false h in
  list_to_map
    [(0, fault kill); (1, fault kill); (3, user kill); (4, user kill); (5, user kill); (6, fault kill); (7, fault kill);
     (11, fault kill); (12, fault kill); (13, fault kill); (14, off page_fault); (16, fault kill); (19, fault kill);
     (32, off timer_interrupt); (33, off keyboard_interrupt); (36, off serial_interrupt); (46, off interrupt_handler); (47, off interrupt_handler);
     (48, user syscall_handler)]%nat.

Lemma stM_assoc {S A B C} (m : stM S A) (f : A → stM S B) (k : B → stM S C) s : ((m ≫= f) ≫= k) s = (m ≫= λ a, f a ≫= k) s.
Proof. rewrite !stM_bind_eq. by destruct (m s) as [[]|]. Qed.

Ltac register_next :=
  rewrite ?stM_assoc; cbv beta; eapply registers_then; [first [apply intr_register_int_table; [assumption|unfold INTR_CNT; lia|lia]|apply intr_register_ext_table; [assumption|lia]]|eassumption|reflexivity|assumption|];
  let s := fresh "s" in let H := fresh "H" in let H' := fresh "H" in intros s H H'.

Lemma interrupts_start_table stub timer_interrupt keyboard_interrupt kill page_fault syscall_handler serial_interrupt interrupt_handler addr :
  (∀ v, (v < INTR_CNT)%nat → 0 < stub v < W32) →
  ∃ r s, interrupts_start stub timer_interrupt keyboard_interrupt kill page_fault syscall_handler serial_interrupt interrupt_handler addr intr_zero = Ok (r, s) ∧
    r = (pic_init, make_idtr_operand 2047 addr) ∧ length (idt s) = INTR_CNT ∧
    table stub s (kernel_entries timer_interrupt keyboard_interrupt kill page_fault syscall_handler serial_interrupt interrupt_handler).
Proof.
  intros Hs. destruct (intr_init_table stub Hs addr) as (r & s & Hr & He & Hl & Ht).
  unfold interrupts_start. rewrite (stM_bind_run _ _ _ _ _ Hr).
  set (P := λ x : res ((list (Z * Z) * Z) * intr), ∃ r' s', x = Ok (r', s') ∧ r' = (pic_init, make_idtr_operand 2047 addr) ∧ length (idt s') = INTR_CNT ∧
    table stub s' (kernel_entries timer_interrupt keyboard_interrupt kill page_fault syscall_handler serial_interrupt interrupt_handler)).
  change (P ((timer_init stub timer_interrupt;; kbd_init stub keyboard_interrupt;; exception_init stub kill page_fault;; syscall_init stub syscall_handler;; serial_register stub serial_interrupt;; ide_register stub interrupt_handler;; mret r) s)).
  unfold timer_init, kbd_init, syscall_init, serial_register, ide_register.
  do 2 register_next. unfold exception_init. do 17 register_next.
  eexists r, _. split_and!; [done|done|done|].
  match goal with H : table _ ?s ?m |- table _ ?s ?m' => replace m' with m by reflexivity end. assumption.
Qed.

Lemma operand_eq limit base : 0 ≤ limit < 65536 → in_u32 base → Z.lor limit (u64 (Z.shiftl base 16)) = limit + base * 65536.
Proof.
  unfold in_u32. intros Hl Hb. rewrite Z.shiftl_mul_pow2 by done. change (2 ^ 16) with 65536. rewrite u64_small by (unfold in_u64; lia).
  apply (lor_add _ _ 16); [done|done|]. change (2 ^ 16) with 65536. dlia.
Qed.

(** ** The segments *)

(** All of memory, with the type and the privilege given. *)
Definition flat (type dpl : Z) : segment := mk_segment 0 1048575 1 type dpl 1 1 1.

Lemma gdt_init_segments gdt_addr tss :
  0 < tss < W32 → in_u32 gdt_addr →
  ∃ gdt, gdt_init gdt_addr tss = Ok (0 :: gdt, 47 + gdt_addr * 65536) ∧
    map read_segment gdt = [flat 10 0; flat 2 0; flat 10 3; flat 2 3; mk_segment tss 103 0 9 0 1 1 0].
Proof.
  intros Ht Ha.
  assert (∀ type dpl, 0 ≤ type < 16 → 0 ≤ dpl < 4 →
    ∃ d, make_seg_desc 0 1048575 CLS_CODE_DATA type dpl GRAN_PAGE = Ok d ∧ read_segment d = flat type dpl) as Hf.
  { intros. apply (seg_desc_reads 0 1048575 CLS_CODE_DATA type dpl GRAN_PAGE); [done|lia..]. }
  destruct (seg_desc_reads tss 103 CLS_SYSTEM 9 0 GRAN_BYTE) as (t & Hd & Hr); [unfold in_u32; lia|lia..|].
  destruct (Hf 10 0) as (kc & Hkc & <-); [lia..|]. destruct (Hf 2 0) as (kd & Hkd & <-); [lia..|].
  destruct (Hf 10 3) as (uc & Huc & <-); [lia..|]. destruct (Hf 2 3) as (ud & Hud & <-); [lia..|].
  unfold gdt_init, make_tss_desc, make_code_desc, make_data_desc, make_gdtr_operand, NULL.
  rewrite Hd, Hkc, Hkd, Huc, Hud, (proj2 (Z.eqb_neq tss 0)), operand_eq by (done || lia).
  exists [kc; kd; uc; ud; t]. split; [reflexivity|]. cbn [map]. by rewrite Hr.
Qed.

(** The entry of the table a selector names. *)
Definition selects (gdt : list Z) (sel : Z) : option segment := read_segment <$> gdt !! Z.to_nat (sel / 8).

Definition user_calls (v : nat) : bool := bool_decide (v ∈ [3; 4; 5; 48]%nat).

Lemma kernel_entries_user h0 h1 h2 h3 h4 h5 h6 v :
  let e := default unregistered (kernel_entries h0 h1 h2 h3 h4 h5 h6 !! v) in
  en_dpl e = (if user_calls v then 3 else 0) ∧ ((32 ≤ v < 48)%nat → en_on e = false).
Proof.
  destruct (decide (v < 49)%nat) as [Hv|Hv].
  - do 49 (destruct v as [|v]; [split; [reflexivity|intros; reflexivity || lia]|]). lia.
  - unfold kernel_entries. rewrite not_elem_of_list_to_map_1.
    + unfold user_calls. rewrite bool_decide_false; [done|]. set_unfold. lia.
    + cbn. set_unfold. lia.
Qed.

(** C18: When [pintos_init] has registered all of the kernel's handlers (those of
    the timer, the keyboard, the exceptions, system calls, the serial port and the
    two disk channels), every one of the 256
    vectors has a well-formed present gate: its offset is the address of that
    vector's stub, its selector names the ring 0 code segment over all of
    memory in the table that [gdt_init] makes, its privilege lets user programs
    call the vectors 3, 4, 5 and 0x30 and no other, every vector of an external
    interrupt is entered with interrupts off, and the handler is the one
    registered.  The operands loaded into the processor's registers cover both
    tables. *)
Theorem idt_entry_points stub timer_interrupt keyboard_interrupt kill page_fault syscall_handler serial_interrupt interrupt_handler idt_addr gdt_addr tss
  (Hstub : ∀ v, (v < INTR_CNT)%nat → 0 < stub v < W32) (Hidt : in_u32 idt_addr) (Hgdt : in_u32 gdt_addr) (Htss : 0 < tss < W32) :
  ∃ ports s gdt,
    interrupts_start stub timer_interrupt keyboard_interrupt kill page_fault syscall_handler serial_interrupt interrupt_handler idt_addr intr_zero =
      Ok ((ports, (8 * Z.of_nat (length (idt s)) - 1) + idt_addr * 65536), s) ∧
    gdt_init gdt_addr tss = Ok (gdt, (8 * Z.of_nat (length gdt) - 1) + gdt_addr * 65536) ∧
    length (idt s) = INTR_CNT ∧
    ∀ v, (v < INTR_CNT)%nat →
      ∃ d g h on, idt s !! v = Some d ∧ read_gate d = g ∧ in_u64 d ∧
        gt_present g = 1 ∧ gt_class g = 0 ∧ gt_offset g = stub v ∧ selects gdt (gt_selector g) = Some (flat 10 0) ∧
        gt_type g = (if on : bool then 15 else 14) ∧ gt_dpl g = (if user_calls v then 3 else 0) ∧
        ((32 ≤ v < 48)%nat → on = false) ∧
        intr_handlers s !! v = Some h ∧
        mk_entry (gt_dpl g) on h = default unregistered (kernel_entries timer_interrupt keyboard_interrupt kill page_fault syscall_handler serial_interrupt interrupt_handler !! v).
Proof.
  destruct (interrupts_start_table stub timer_interrupt keyboard_interrupt kill page_fault syscall_handler serial_interrupt interrupt_handler idt_addr Hstub) as (r & s & Hs & -> & Hl & Ht).
  destruct (gdt_init_segments gdt_addr tss Htss Hgdt) as (gdt & Hg & Hr).
  assert (length gdt = 5%nat) as Hlg by (by rewrite <- (length_map read_segment), Hr).
  unfold make_idtr_operand in Hs. rewrite operand_eq in Hs by done.
  exists pic_init, s, (0 :: gdt). rewrite Hl. cbn [length]. rewrite Hlg. split_and!; [done|done|done|].
  intros v Hv. destruct (Ht v Hv) as [Hh (g & Hd & Hu & Hgr)].
  destruct (kernel_entries_user timer_interrupt keyboard_interrupt kill page_fault syscall_handler serial_interrupt interrupt_handler v) as [Hdpl Hext].
  destruct (default unregistered _) as [dpl on h]. cbn [en_dpl en_on en_handler] in *.
  exists g, (read_gate g), h, on. rewrite Hgr. cbn [gt_present gt_class gt_offset gt_selector gt_type gt_dpl].
  split_and!; try done. destruct gdt as [|d0 gdt]; [done|]. apply (f_equal head) in Hr. exact Hr.
Qed.

(** The stubs 16 bytes apart above 0xc0021000, and the tables after them. *)
Lemma idt_entry_points_witness :
  (∀ v, (v < INTR_CNT)%nat → 0 < 3221360640 + 16 * Z.of_nat v < W32) ∧
  ∃ ports s gdt,
    interrupts_start (λ v, 3221360640 + 16 * Z.of_nat v) 1 2 3 4 5 6 7 3221372928 intr_zero = Ok ((ports, 2047 + 3221372928 * 65536), s) ∧
    gdt_init 3221377024 3221381120 = Ok (gdt, 47 + 3221377024 * 65536) ∧ intr_handlers s !! 48%nat = Some 5.
Proof.
  assert (∀ v, (v < INTR_CNT)%nat → 0 < 3221360640 + 16 * Z.of_nat v < W32) as Hs by (unfold INTR_CNT; intros; lia). split; [exact Hs|].
  destruct (idt_entry_points (λ v, 3221360640 + 16 * Z.of_nat v) 1 2 3 4 5 6 7 3221372928 3221377024 3221381120) as (p & s & gdt & H1 & H2 & H3 & H4);
    [exact Hs|unfold in_u32; lia|unfold in_u32; lia|lia|].
  exists p, s, gdt. rewrite H3 in H1. split; [exact H1|]. split; [rewrite H2; do 2 f_equal; vm_compute in H2; injection H2 as <- _; reflexivity|].
  destruct (H4 48%nat) as (d & g & h & on & _ & _ & _ & _ & _ & _ & _ & _ & _ & _ & Hh & He); [unfold INTR_CNT; lia|].
  apply (f_equal en_handler) in He. change (h = en_handler (default unregistered (kernel_entries 1 2 3 4 5 6 7 !! 48%nat))) in He.
  rewrite Hh, He. reflexivity.
Defined.
