(* ===== verification/Ide.v ===== *)
(** * devices/ide.c: the ATA disk driver

    The hardware behind the ports is a parameter [H] with the operations of
    threads/io.h.  [line] tells whether an interrupt is requested, and
    [idle_until] lets time pass until it is, if ever.  The driver runs with
    interrupts on: a request is taken after the port access or the sleep during
    which it is made, or while the thread waits.  [pass] is a sleep of so many
    nanoseconds.  Printed messages are kept in a log. *)

From Stdlib Require Import String Ascii.
From S2P Require Import Prelude CStdlib Block.

Module Ide.

Class Ports (H : Type) := {
  outb : Z → Z → H → H;
  inb : Z → H → Z * H;
  inw : Z → H → Z * H;
  outw : Z → Z → H → H;
  pass : Z → H → H;
  line : Z → H → bool;
  idle_until : Z → H → option H;
}.

Definition STA_BSY : Z := 128.
Definition STA_DRDY : Z := 64.
Definition STA_DRQ : Z := 8.
Definition CTL_SRST : Z := 4.
Definition DEV_MBS : Z := 160.
Definition DEV_LBA : Z := 64.
Definition DEV_DEV : Z := 16.
Definition CMD_IDENTIFY_DEVICE : Z := 236.
Definition CMD_READ_SECTOR_RETRY : Z := 32.
Definition CMD_WRITE_SECTOR_RETRY : Z := 48.
Definition CHANNEL_CNT : nat := 2.

Record ata_disk := mk_disk { d_name : string; dev_no : Z; is_ata : bool }.
(** [lock] is the lock's holder, [completion_wait] the semaphore's value. *)
Record channel := mk_channel {
  c_name : string; reg_base : Z; irq : Z; lock : bool; expecting_interrupt : bool; completion_wait : Z; devices : list ata_disk }.

Definition reg_data (c : channel) : Z := reg_base c + 0.
Definition reg_error (c : channel) : Z := reg_base c + 1.
Definition reg_nsect (c : channel) : Z := reg_base c + 2.
Definition reg_lbal (c : channel) : Z := reg_base c + 3.
Definition reg_lbam (c : channel) : Z := reg_base c + 4.
Definition reg_lbah (c : channel) : Z := reg_base c + 5.
Definition reg_device (c : channel) : Z := reg_base c + 6.
Definition reg_status (c : channel) : Z := reg_base c + 7.
Definition reg_command (c : channel) : Z := reg_status c.
Definition reg_ctl (c : channel) : Z := reg_base c + 518.
Definition reg_alt_status (c : channel) : Z := reg_ctl c.

Section ide.
Context {H : Type} `{Ports H}.

Record ide := mk_ide { hw : H; channels : list channel; intr_on : bool; log : list string }.
Abbreviation M := (stM ide).

Definition set_hw (h : H) : M unit := smod (λ s, mk_ide h (channels s) (intr_on s) (log s)).
Definition say (w : string) : M unit := smod (λ s, mk_ide (hw s) (channels s) (intr_on s) (log s ++ [w])).
Definition get_channel (i : nat) : M channel := λ s, c ← deref (channels s !! i); Ok (c, s).
Definition set_channel (i : nat) (c : channel) : M unit := smod (λ s, mk_ide (hw s) (<[i := c]> (channels s)) (intr_on s) (log s)).
Definition get_disk (i d : nat) : M ata_disk := c ← get_channel i; slift (deref (devices c !! d)).
Definition set_is_ata (i d : nat) (b : bool) : M unit :=
  c ← get_channel i; x ← get_disk i d;
  set_channel i (mk_channel (c_name c) (reg_base c) (irq c) (lock c) (expecting_interrupt c) (completion_wait c) (<[d := mk_disk (d_name x) (dev_no x) b]> (devices c))).
Definition set_sync (i : nat) (held expecting : bool) (value : Z) : M unit :=
  c ← get_channel i; set_channel i (mk_channel (c_name c) (reg_base c) (irq c) held expecting value (devices c)).

(** ** Interrupts *)

Definition interrupt_handler (vec_no : Z) : M unit := λ s,
  match list_find (λ c, vec_no = irq c) (channels s) with
  | None => Err EPanic
  | Some (i, c) =>
      (if expecting_interrupt c then
         set_hw (inb (reg_status c) (hw s)).2;; set_sync i (lock c) (expecting_interrupt c) (completion_wait c + 1)
       else say (c_name c ++ ": unexpected interrupt")) s
  end.

(** The requests of the channels' vectors are taken. *)
Fixpoint deliver_to (vecs : list Z) : M unit :=
  match vecs with
  | [] => mret tt
  | v :: vecs => s ← sget; (if line v (hw s) then interrupt_handler v else mret tt);; deliver_to vecs
  end.
Definition deliver : M unit := s ← sget; deliver_to (map irq (channels s)).

Definition out_port (p v : Z) : M unit := s ← sget; set_hw (outb p (u8 v) (hw s));; deliver.
Definition in_port (p : Z) : M Z := s ← sget; set_hw (inb p (hw s)).2;; deliver;; mret (inb p (hw s)).1.
Definition out_word (p v : Z) : M unit := s ← sget; set_hw (outw p v (hw s));; deliver.
Definition in_word (p : Z) : M Z := s ← sget; set_hw (inw p (hw s)).2;; deliver;; mret (inw p (hw s)).1.
Definition timer_nsleep (ns : Z) : M unit := s ← sget; set_hw (pass ns (hw s));; deliver.
Definition timer_usleep (us : Z) : M unit := timer_nsleep (us * 1000).
Definition timer_msleep (ms : Z) : M unit := timer_nsleep (ms * 1000000).

(** [sema_down (&c->completion_wait)]: a thread that finds the value 0 waits
    for the interrupt. *)
Definition completion_down (i : nat) : M unit :=
  c ← get_channel i;
  (if 0 <? completion_wait c then mret tt
   else s ← sget; match idle_until (irq c) (hw s) with None => serr EFuel | Some h => set_hw h;; interrupt_handler (irq c) end);;
  c ← get_channel i;
  if 0 <? completion_wait c then set_sync i (lock c) (expecting_interrupt c) (completion_wait c - 1) else serr EFuel.

Definition lock_acquire (i : nat) : M unit :=
  c ← get_channel i; sassert (negb (lock c));; set_sync i true (expecting_interrupt c) (completion_wait c).
Definition lock_release (i : nat) : M unit :=
  c ← get_channel i; sassert (lock c);; set_sync i false (expecting_interrupt c) (completion_wait c).

(** ** Low-level primitives *)

Fixpoint idle_loop (n : nat) (i d : nat) : M unit :=
  match n with
  | O => x ← get_disk i d; say (d_name x ++ ": idle timeout")
  | S n =>
      c ← get_channel i; v ← in_port (reg_status c);
      if Z.land v (Z.lor STA_BSY STA_DRQ) =? 0 then mret tt else timer_usleep 10;; idle_loop n i d
  end.
Definition wait_until_idle (i d : nat) : M unit := idle_loop 1000 i d.

Fixpoint busy_loop (n : nat) (k : Z) (i d : nat) : M bool :=
  match n with
  | O => say "failed";; mret false
  | S n =>
      c ← get_channel i; x ← get_disk i d;
      (if k =? 700 then say (d_name x ++ ": busy, waiting...") else mret tt);;
      v ← in_port (reg_alt_status c);
      if Z.land v STA_BSY =? 0 then
        (if 700 <=? k then say "ok" else mret tt);;
        v ← in_port (reg_alt_status c); mret (negb (Z.land v STA_DRQ =? 0))
      else timer_msleep 10;; busy_loop n (k + 1) i d
  end.
Definition wait_while_busy (i d : nat) : M bool := busy_loop 3000 0 i d.

Definition select_device (i d : nat) : M unit :=
  c ← get_channel i; x ← get_disk i d;
  let dev := if dev_no x =? 1 then Z.lor DEV_MBS DEV_DEV else DEV_MBS in
  out_port (reg_device c) dev;;
  _ ← in_port (reg_alt_status c);
  timer_nsleep 400.

Definition select_device_wait (i d : nat) : M unit := wait_until_idle i d;; select_device i d;; wait_until_idle i d.

Definition select_sector (i d : nat) (sec_no : Z) : M unit :=
  sassert (sec_no <? Z.shiftl 1 28);;
  c ← get_channel i; x ← get_disk i d;
  select_device_wait i d;;
  out_port (reg_nsect c) 1;;
  out_port (reg_lbal c) sec_no;;
  out_port (reg_lbam c) (Z.shiftr sec_no 8);;
  out_port (reg_lbah c) (Z.shiftr sec_no 16);;
  out_port (reg_device c) (Z.lor (Z.lor (Z.lor DEV_MBS DEV_LBA) (if dev_no x =? 1 then DEV_DEV else 0)) (Z.shiftr sec_no 24)).

Definition issue_pio_command (i : nat) (command : Z) : M unit :=
  s ← sget; sassert (intr_on s);;
  c ← get_channel i; set_sync i (lock c) true (completion_wait c);;
  out_port (reg_command c) command.

(** [rep insw] and [rep outsw] *)
Fixpoint insw (port : Z) (cnt : nat) : M (list Z) :=
  match cnt with
  | O => mret []
  | S cnt => w ← in_word port; l ← insw port cnt; mret (Z.land w 255 :: Z.shiftr w 8 :: l)
  end.
Fixpoint outsw (port : Z) (cnt : nat) (l : list Z) : M unit :=
  match cnt with
  | O => mret tt
  | S cnt => match l with b0 :: b1 :: l => out_word port (b0 + 256 * b1);; outsw port cnt l | _ => serr EFault end
  end.
Definition input_sector (i : nat) : M (list Z) := c ← get_channel i; insw (reg_data c) 256.
Definition output_sector (i : nat) (sector : list Z) : M unit := c ← get_channel i; outsw (reg_data c) 256 sector.

(** ** Transfer *)

Definition ide_read (i d : nat) (sec_no : Z) : M (list Z) :=
  lock_acquire i;;
  select_sector i d sec_no;;
  issue_pio_command i CMD_READ_SECTOR_RETRY;;
  completion_down i;;
  ok ← wait_while_busy i d;
  (if (ok : bool) then mret tt else serr EPanic);;
  buffer ← input_sector i;
  lock_release i;;
  mret buffer.

Definition ide_write (i d : nat) (sec_no : Z) (buffer : list Z) : M unit :=
  lock_acquire i;;
  select_sector i d sec_no;;
  issue_pio_command i CMD_WRITE_SECTOR_RETRY;;
  ok ← wait_while_busy i d;
  (if (ok : bool) then mret tt else serr EPanic);;
  output_sector i buffer;;
  completion_down i;;
  lock_release i.

(** ** Detection *)

Definition probe_device (i d : nat) : M bool :=
  c ← get_channel i;
  select_device i d;;
  out_port (reg_nsect c) 85;; out_port (reg_lbal c) 170;;
  out_port (reg_nsect c) 170;; out_port (reg_lbal c) 85;;
  out_port (reg_nsect c) 85;; out_port (reg_lbal c) 170;;
  v ← in_port (reg_nsect c);
  if v =? 85 then v ← in_port (reg_lbal c); mret (v =? 170) else mret false.

Fixpoint slave_loop (n i : nat) : M unit :=
  match n with
  | O => mret tt
  | S n =>
      c ← get_channel i;
      v ← in_port (reg_nsect c);
      ok ← (if v =? 1 then v ← in_port (reg_lbal c); mret (v =? 1) else mret false);
      if (ok : bool) then mret tt else timer_msleep 10;; slave_loop n i
  end.

Definition reset_channel (i : nat) : M unit :=
  c ← get_channel i;
  present0 ← probe_device i 0; present1 ← probe_device i 1;
  out_port (reg_ctl c) 0;; timer_usleep 10;;
  out_port (reg_ctl c) CTL_SRST;; timer_usleep 10;;
  out_port (reg_ctl c) 0;;
  timer_msleep 150;;
  (if (present0 : bool) then select_device i 0;; _ ← wait_while_busy i 0; mret tt else mret tt);;
  (if (present1 : bool) then select_device i 1;; slave_loop 3000 i;; _ ← wait_while_busy i 1; mret tt else mret tt).

Definition check_device_type (i d : nat) : M bool :=
  c ← get_channel i; x ← get_disk i d;
  select_device i d;;
  error ← in_port (reg_error c); lbam ← in_port (reg_lbam c); lbah ← in_port (reg_lbah c); status ← in_port (reg_status c);
  if (negb (error =? 1) && (negb (error =? 129) || (dev_no x =? 1))) || (Z.land status STA_DRDY =? 0) || negb (Z.land status STA_BSY =? 0)
  then set_is_ata i d false;; mret (negb (error =? 129))
  else set_is_ata i d (((lbam =? 0) && (lbah =? 0)) || ((lbam =? 60) && (lbah =? 195)));; mret true.
End ide.

(** [descramble_ata_string], on the [size] bytes at [string]; the result is
    the string up to its end. *)
Fixpoint swap_pairs (l : list Z) : list Z := match l with a :: b :: l => b :: a :: swap_pairs l | _ => l end.
Fixpoint last_char (n : nat) (l : list Z) : nat :=
  match n with
  | O => O
  | S m => match l !! m with Some c => if negb (c =? 0) && negb (CStdlib.isspace c) then n else last_char m l | None => n end
  end.
Definition descramble_ata_string (l : list Z) : list Z :=
  let l := swap_pairs l in take (last_char (length l - 1) l) l.

Section detect.
Context {H : Type} `{Ports H}.
Abbreviation M := (stM (ide (H:=H))).

(** [block_register] of the disk and [partition_scan] of the new device. *)
Context (register : nat → nat → string → Z → list Z → M unit).

(** [model <quote>%s<quote>, serial <quote>%s<quote>] cut to the array *)
Definition extra_info (model serial : list Z) : list Z :=
  take 127 ([109; 111; 100; 101; 108; 32; 34] ++ model ++ [34; 44; 32; 115; 101; 114; 105; 97; 108; 32; 34] ++ serial ++ [34]).

Definition identify_ata_device (i d : nat) : M unit :=
  x ← get_disk i d;
  sassert (is_ata x);;
  select_device_wait i d;;
  issue_pio_command i CMD_IDENTIFY_DEVICE;;
  completion_down i;;
  ok ← wait_while_busy i d;
  if negb ok then set_is_ata i d false
  else
    id ← input_sector i;
    let capacity := le_Z (slice 120 4 id) in
    let model := descramble_ata_string (slice 20 20 id) in
    let serial := descramble_ata_string (slice 54 40 id) in
    if 1024 * 1024 * 1024 / BLOCK_SECTOR_SIZE <=? capacity then
      say (d_name x ++ ": ignoring disk for safety");; set_is_ata i d false
    else register i d (d_name x) capacity (extra_info model serial).

(** [hd%c] with ['a' + chan_no * 2 + dev_no] *)
Definition disk_name (chan_no d : nat) : string := String "h" (String "d" (String (ascii_of_nat (97 + chan_no * 2 + d)) "")).
Definition new_channel (chan_no : nat) : channel :=
  mk_channel (String "i" (String "d" (String "e" (String (ascii_of_nat (48 + chan_no)) "")))) (match chan_no with O => 496 | _ => 368 end)
    (match chan_no with O => 14 + 32 | _ => 15 + 32 end) false false 0 [mk_disk (disk_name chan_no 0) 0 false; mk_disk (disk_name chan_no 1) 1 false].

Definition identify_if (i d : nat) : M unit := x ← get_disk i d; if is_ata x then identify_ata_device i d else mret tt.
Definition init_channel (chan_no : nat) : M unit :=
  set_channel chan_no (new_channel chan_no);;
  reset_channel chan_no;;
  more ← check_device_type chan_no 0;
  (if (more : bool) then _ ← check_device_type chan_no 1; mret tt else mret tt);;
  identify_if chan_no 0;; identify_if chan_no 1.
Definition ide_init : M unit := init_channel 0;; init_channel 1.
End detect.

End Ide.
