(* ===== verification/IdeSpec.v ===== *)
(** * The ATA disk driver over a disk that obeys the ATA protocol

    What the driver relies on of a controller, as the PIO part of the ATA
    standard has it, and that with such a controller the driver reads and writes
    the sectors of the two disks of a channel. *)

From Stdlib Require Import String.
From S2P Require Import Prelude Block Ide.
Import Ide.

(** ** The controller *)

(** What a controller does: wait for a command; fetch a sector for a read,
    request an interrupt and give its bytes; take the bytes of a write, after a
    time in which it is busy, store them and request an interrupt. *)
Inductive phase :=
| Idle | Fetching | Fetched (l : list Z) | Giving (l : list Z) | Taking (busy : nat) (l : list Z) | Storing (l : list Z) | Stored (l : list Z).
Definition requests (p : phase) : bool := match p with Fetched _ | Stored _ => true | _ => false end.

Definition contents : Type := bool → Z → list Z.
Record ata := mk_ata { r_nsect : Z; r_lbal : Z; r_lbam : Z; r_lbah : Z; r_device : Z; ph : phase; disks : contents }.
Definition in_phase (p : phase) (a : ata) : ata := mk_ata (r_nsect a) (r_lbal a) (r_lbam a) (r_lbah a) (r_device a) p (disks a).
Definition with_disks (d : contents) (a : ata) : ata := mk_ata (r_nsect a) (r_lbal a) (r_lbam a) (r_lbah a) (r_device a) (ph a) d.
(** The disk and the sector that the registers select. *)
Definition slave (a : ata) : bool := Z.testbit (r_device a) 4.
Definition lba (a : ata) : Z := r_lbal a + r_lbam a * 256 + r_lbah a * 65536 + r_device a mod 16 * 16777216.
Definition store_at (d : bool) (sec : Z) (l : list Z) (x : contents) : contents :=
  λ d' sec', if bool_decide (d' = d ∧ sec' = sec) then l else x d' sec'.
Definition sector_ok (l : list Z) : Prop := length l = SECTOR_BYTES ∧ Forall in_u8 l.

(** The controller with its registers at [base] and the interrupt [vec], after
    [ATA-3]: [shows h a] if the hardware [h] is in the state [a]. *)
Class AtaLaws (H : Type) `{Ports H} (base vec : Z) := {
  shows : H → ata → Prop;
  shows_sectors h a d sec : shows h a → sector_ok (disks a d sec);
  (** INTRQ is asserted only when a transfer is due or done. *)
  quiet h a v : shows h a → requests (ph a) = false → line v h = false;
  (** An idle controller: BSY and DRQ are clear, and its registers can be set. *)
  idle_status h a : shows h a → ph a = Idle → Z.land (inb (base + 7) h).1 136 = 0 ∧ shows (inb (base + 7) h).2 a;
  idle_alt h a : shows h a → ph a = Idle → shows (inb (base + 518) h).2 a;
  idle_pass h a t : shows h a → ph a = Idle → shows (pass t h) a;
  set_nsect h a v : shows h a → ph a = Idle → shows (outb (base + 2) v h) (mk_ata v (r_lbal a) (r_lbam a) (r_lbah a) (r_device a) Idle (disks a));
  set_lbal h a v : shows h a → ph a = Idle → shows (outb (base + 3) v h) (mk_ata (r_nsect a) v (r_lbam a) (r_lbah a) (r_device a) Idle (disks a));
  set_lbam h a v : shows h a → ph a = Idle → shows (outb (base + 4) v h) (mk_ata (r_nsect a) (r_lbal a) v (r_lbah a) (r_device a) Idle (disks a));
  set_lbah h a v : shows h a → ph a = Idle → shows (outb (base + 5) v h) (mk_ata (r_nsect a) (r_lbal a) (r_lbam a) v (r_device a) Idle (disks a));
  set_device h a v : shows h a → ph a = Idle → shows (outb (base + 6) v h) (mk_ata (r_nsect a) (r_lbal a) (r_lbam a) (r_lbah a) v Idle (disks a));
  (** READ SECTOR of one sector with LBA: the interrupt says that the data is
      there, reading the status clears it. *)
  read_command h a : shows h a → ph a = Idle → r_nsect a = 1 → Z.testbit (r_device a) 6 = true →
    shows (outb (base + 7) CMD_READ_SECTOR_RETRY h) (in_phase Fetching a);
  fetch h a : shows h a → ph a = Fetching → ∃ h', idle_until vec h = Some h' ∧ shows h' (in_phase (Fetched (disks a (slave a) (lba a))) a);
  fetched h a l : shows h a → ph a = Fetched l → shows (inb (base + 7) h).2 (in_phase (Giving l) a);
  giving_alt h a l : shows h a → ph a = Giving l →
    Z.land (inb (base + 518) h).1 STA_BSY = 0 ∧ Z.land (inb (base + 518) h).1 STA_DRQ ≠ 0 ∧ shows (inb (base + 518) h).2 a;
  give h a b0 b1 l : shows h a → ph a = Giving (b0 :: b1 :: l) →
    (inw (base + 0) h).1 = b0 + 256 * b1 ∧ shows (inw (base + 0) h).2 (in_phase (match l with [] => Idle | _ => Giving l end) a);
  (** WRITE SECTOR: BSY for at most 30 seconds, then DRQ, the data, and the
      interrupt when they are stored. *)
  write_command h a : shows h a → ph a = Idle → r_nsect a = 1 → Z.testbit (r_device a) 6 = true →
    ∃ k, (k < 3000)%nat ∧ shows (outb (base + 7) CMD_WRITE_SECTOR_RETRY h) (in_phase (Taking k []) a);
  busy_alt h a k l : shows h a → ph a = Taking (S k) l → Z.land (inb (base + 518) h).1 STA_BSY ≠ 0 ∧ shows (inb (base + 518) h).2 a;
  busy_pass h a k l : shows h a → ph a = Taking (S k) l → shows (pass 10000000 h) (in_phase (Taking k l) a);
  taking_alt h a l : shows h a → ph a = Taking 0 l →
    Z.land (inb (base + 518) h).1 STA_BSY = 0 ∧ Z.land (inb (base + 518) h).1 STA_DRQ ≠ 0 ∧ shows (inb (base + 518) h).2 a;
  take_word h a b0 b1 l : shows h a → ph a = Taking 0 l → in_u8 b0 → in_u8 b1 →
    shows (outw (base + 0) (b0 + 256 * b1) h)
      (in_phase (if bool_decide (length (l ++ [b0; b1]) = SECTOR_BYTES) then Storing (l ++ [b0; b1]) else Taking 0 (l ++ [b0; b1])) a);
  storing h a l : shows h a → ph a = Storing l → ∃ h', idle_until vec h = Some h' ∧ shows h' (in_phase (Stored l) a);
  stored h a l : shows h a → ph a = Stored l →
    shows (inb (base + 7) h).2 (in_phase Idle (with_disks (store_at (slave a) (lba a) l (disks a)) a));
}.

Section spec.
Context {H : Type} {base vec : Z} `{AtaLaws H base vec}.

(** The channel number [i] of the driver, the other channel having another
    interrupt. *)
Context (i : nat) (chs : list channel) (Hi : (i < length chs)%nat) (Hother : ∀ j c, j ≠ i → chs !! j = Some c → irq c ≠ vec).

Definition st (h : H) (c : channel) (lg : list string) : ide := mk_ide h (<[i := c]> chs) true lg.
Definition channel_ok (c : channel) : Prop :=
  reg_base c = base ∧ irq c = vec ∧ ∀ d, (d < 2)%nat → ∃ nm b, devices c !! d = Some (mk_disk nm (Z.of_nat d) b).
Definition sync (held expecting : bool) (v : Z) (c : channel) : channel :=
  mk_channel (c_name c) (reg_base c) (irq c) held expecting v (devices c).

Lemma get_channel_run h c lg : get_channel i (st h c lg) = Ok (c, st h c lg).
Proof. unfold get_channel, st. cbn [channels]. by rewrite list_lookup_insert_eq. Qed.
Lemma set_sync_run h c lg held ex v : set_sync i held ex v (st h c lg) = Ok (tt, st h (sync held ex v c) lg).
Proof. unfold set_sync. rewrite (stM_bind_run _ _ _ _ _ (get_channel_run h c lg)). unfold set_channel, smod, st. cbn [channels hw intr_on log]. by rewrite list_insert_insert_eq. Qed.
Lemma get_disk_run h c lg d : channel_ok c → (d < 2)%nat → ∃ nm b, get_disk i d (st h c lg) = Ok (mk_disk nm (Z.of_nat d) b, st h c lg).
Proof.
  intros (_ & _ & Hd) Hlt. destruct (Hd d Hlt) as (nm & b & E). exists nm, b. unfold get_disk. rewrite (stM_bind_run _ _ _ _ _ (get_channel_run h c lg)).
  unfold slift. by rewrite E.
Qed.

Lemma deliver_run h a c lg : shows h a → requests (ph a) = false → deliver (st h c lg) = Ok (tt, st h c lg).
Proof.
  intros Hs Hq. unfold deliver. rewrite stM_bind_eq. cbn [sget]. generalize (map irq (channels (st h c lg))). induction l as [|v l IH]; [done|].
  cbn [deliver_to]. rewrite stM_bind_eq. cbn [sget]. rewrite stM_bind_eq. cbn [st hw]. rewrite (quiet h a v Hs Hq). exact IH.
Qed.

Lemma out_port_run p v h a c lg : shows (outb p (u8 v) h) a → requests (ph a) = false → out_port p v (st h c lg) = Ok (tt, st (outb p (u8 v) h) c lg).
Proof. intros Hs Hq. unfold out_port. rewrite stM_bind_eq. cbn [sget]. rewrite stM_bind_eq. exact (deliver_run _ _ c lg Hs Hq). Qed.
Lemma in_port_run p h a c lg : shows (inb p h).2 a → requests (ph a) = false → in_port p (st h c lg) = Ok ((inb p h).1, st (inb p h).2 c lg).
Proof.
  intros Hs Hq. unfold in_port. rewrite stM_bind_eq. cbn [sget]. rewrite stM_bind_eq. cbn [set_hw smod].
  rewrite (stM_bind_run _ _ _ _ _ (deliver_run _ _ c lg Hs Hq)). done.
Qed.
Lemma out_word_run p v h a c lg : shows (outw p v h) a → requests (ph a) = false → out_word p v (st h c lg) = Ok (tt, st (outw p v h) c lg).
Proof. intros Hs Hq. unfold out_word. rewrite stM_bind_eq. cbn [sget]. rewrite stM_bind_eq. exact (deliver_run _ _ c lg Hs Hq). Qed.
Lemma in_word_run p h a c lg : shows (inw p h).2 a → requests (ph a) = false → in_word p (st h c lg) = Ok ((inw p h).1, st (inw p h).2 c lg).
Proof.
  intros Hs Hq. unfold in_word. rewrite stM_bind_eq. cbn [sget]. rewrite stM_bind_eq. cbn [set_hw smod].
  rewrite (stM_bind_run _ _ _ _ _ (deliver_run _ _ c lg Hs Hq)). done.
Qed.
Lemma sleep_run t h a c lg : shows (pass t h) a → requests (ph a) = false → timer_nsleep t (st h c lg) = Ok (tt, st (pass t h) c lg).
Proof. intros Hs Hq. unfold timer_nsleep. rewrite stM_bind_eq. cbn [sget]. rewrite stM_bind_eq. exact (deliver_run _ _ c lg Hs Hq). Qed.

(** ** Selecting a sector *)

Lemma wait_until_idle_run d h a c lg :
  channel_ok c → shows h a → ph a = Idle → ∃ h', wait_until_idle i d (st h c lg) = Ok (tt, st h' c lg) ∧ shows h' a.
Proof.
  intros (Hb & _) Hs Hp. destruct (idle_status h a Hs Hp) as [Hv Hs']. unfold wait_until_idle. change 1000%nat with (S 999). cbn [idle_loop].
  rewrite (stM_bind_run _ _ _ _ _ (get_channel_run h c lg)). unfold reg_status. rewrite Hb.
  rewrite (stM_bind_run _ _ _ _ _ (in_port_run _ h a c lg Hs' ltac:(by rewrite Hp))). change (Z.lor STA_BSY STA_DRQ) with 136. rewrite Hv. eauto.
Qed.

(** A register is written. *)
Lemma reg_run p v h c lg a' : shows (outb p (u8 v) h) a' → ph a' = Idle → out_port p v (st h c lg) = Ok (tt, st (outb p (u8 v) h) c lg).
Proof. intros Hs Hp. eapply out_port_run; [done|]. by rewrite Hp. Qed.

Lemma select_device_run d h a c lg :
  channel_ok c → (d < 2)%nat → shows h a → ph a = Idle →
  ∃ h' v, select_device i d (st h c lg) = Ok (tt, st h' c lg) ∧ shows h' (mk_ata (r_nsect a) (r_lbal a) (r_lbam a) (r_lbah a) v Idle (disks a)).
Proof.
  intros Hc Hd Hs Hp. destruct (get_disk_run h c lg d Hc Hd) as (nm & b & Hx). unfold select_device.
  rewrite (stM_bind_run _ _ _ _ _ (get_channel_run h c lg)), (stM_bind_run _ _ _ _ _ Hx). cbn [dev_no]. destruct Hc as (Hb & _).
  set (v := if Z.of_nat d =? 1 then _ else _). unfold reg_device, reg_alt_status, reg_ctl. rewrite Hb.
  pose proof (set_device h a (u8 v) Hs Hp) as Hs1. rewrite (stM_bind_run _ _ _ _ _ (reg_run _ v h c lg _ Hs1 eq_refl)).
  pose proof (idle_alt _ _ Hs1 eq_refl) as Hs2. rewrite (stM_bind_run _ _ _ _ _ (in_port_run _ _ _ c lg Hs2 eq_refl)).
  pose proof (idle_pass _ _ 400 Hs2 eq_refl) as Hs3. rewrite (sleep_run _ _ _ c lg Hs3 eq_refl). eauto.
Qed.

Lemma select_device_wait_run d h a c lg :
  channel_ok c → (d < 2)%nat → shows h a → ph a = Idle →
  ∃ h' a', select_device_wait i d (st h c lg) = Ok (tt, st h' c lg) ∧ shows h' a' ∧ ph a' = Idle ∧ disks a' = disks a.
Proof.
  intros Hc Hd Hs Hp. unfold select_device_wait. destruct (wait_until_idle_run d h a c lg Hc Hs Hp) as (h1 & Hr1 & Hs1). rewrite (stM_bind_run _ _ _ _ _ Hr1).
  destruct (select_device_run d h1 a c lg Hc Hd Hs1 Hp) as (h2 & v & Hr & Hs2). rewrite (stM_bind_run _ _ _ _ _ Hr).
  destruct (wait_until_idle_run d h2 _ c lg Hc Hs2 eq_refl) as (h3 & Hr3 & Hs3). rewrite Hr3. eauto 6.
Qed.

(** The bits of the device register. *)
Lemma device_bits (sl : bool) x : 0 ≤ x < 16 →
  let v := u8 (Z.lor (Z.lor (Z.lor DEV_MBS DEV_LBA) (if sl then DEV_DEV else 0)) x) in
  v mod 16 = x ∧ Z.testbit v 4 = sl ∧ Z.testbit v 6 = true.
Proof.
  intros Hx. assert (x ∈ [0;1;2;3;4;5;6;7;8;9;10;11;12;13;14;15]) as Hin by (set_unfold; lia).
  destruct sl; set_unfold in Hin; repeat destruct Hin as [->|Hin]; try (vm_compute; tauto); lia.
Qed.

Lemma select_sector_run d sec h a c lg :
  channel_ok c → (d < 2)%nat → shows h a → ph a = Idle → 0 ≤ sec < 268435456 →
  ∃ h' a', select_sector i d sec (st h c lg) = Ok (tt, st h' c lg) ∧ shows h' a' ∧ ph a' = Idle ∧ disks a' = disks a ∧
    r_nsect a' = 1 ∧ Z.testbit (r_device a') 6 = true ∧ slave a' = bool_decide (d = 1%nat) ∧ lba a' = sec.
Proof.
  intros Hc Hd Hs Hp Hsec. unfold select_sector. change (Z.shiftl 1 28) with 268435456. rewrite (proj2 (Z.ltb_lt _ _)) by lia.
  rewrite stM_bind_eq. cbn [sassert slift assert]. destruct (get_disk_run h c lg d Hc Hd) as (nm & b & Hx).
  rewrite (stM_bind_run _ _ _ _ _ (get_channel_run h c lg)), (stM_bind_run _ _ _ _ _ Hx). cbn [dev_no].
  destruct (select_device_wait_run d h a c lg Hc Hd Hs Hp) as (h1 & a1 & Hr & Hs1 & Hp1 & Hd1). rewrite (stM_bind_run _ _ _ _ _ Hr).
  destruct Hc as (Hb & _). unfold reg_nsect, reg_lbal, reg_lbam, reg_lbah, reg_device. rewrite Hb.
  pose proof (set_nsect _ _ (u8 1) Hs1 Hp1) as Hs2. rewrite (stM_bind_run _ _ _ _ _ (reg_run _ 1 _ c lg _ Hs2 eq_refl)).
  pose proof (set_lbal _ _ (u8 sec) Hs2 eq_refl) as Hs3. rewrite (stM_bind_run _ _ _ _ _ (reg_run _ sec _ c lg _ Hs3 eq_refl)).
  pose proof (set_lbam _ _ (u8 (Z.shiftr sec 8)) Hs3 eq_refl) as Hs4. rewrite (stM_bind_run _ _ _ _ _ (reg_run _ (Z.shiftr sec 8) _ c lg _ Hs4 eq_refl)).
  pose proof (set_lbah _ _ (u8 (Z.shiftr sec 16)) Hs4 eq_refl) as Hs5. rewrite (stM_bind_run _ _ _ _ _ (reg_run _ (Z.shiftr sec 16) _ c lg _ Hs5 eq_refl)).
  set (v := Z.lor _ (Z.shiftr sec 24)). pose proof (set_device _ _ (u8 v) Hs5 eq_refl) as Hs6. rewrite (reg_run _ v _ c lg _ Hs6 eq_refl).
  eexists _, _. split; [done|]. split; [exact Hs6|]. cbn [ph disks r_nsect r_device].
  destruct (device_bits (bool_decide (d = 1%nat)) (Z.shiftr sec 24)) as (Hm & H4 & H6); [rewrite Z.shiftr_div_pow2 by done; change (2 ^ 24) with 16777216; dlia|].
  replace (if bool_decide (d = 1%nat) then DEV_DEV else 0) with (if Z.of_nat d =? 1 then DEV_DEV else 0) in *
    by (destruct (Z.eqb_spec (Z.of_nat d) 1); [by rewrite bool_decide_eq_true_2 by lia|by rewrite bool_decide_eq_false_2 by lia]).
  change (u8 v mod 16 = Z.shiftr sec 24) in Hm. split_and!; [done|done|done|exact H6|exact H4|].
  unfold lba. cbn [r_lbal r_lbam r_lbah r_device]. rewrite Hm. unfold u8. rewrite !Z.shiftr_div_pow2 by done.
  change (2 ^ 8) with 256. change (2 ^ 16) with 65536. change (2 ^ 24) with 16777216. dlia.
Qed.

(** ** The transfer *)

Lemma issue_run cmd h a c lg :
  channel_ok c → shows (outb (base + 7) (u8 cmd) h) a → requests (ph a) = false →
  issue_pio_command i cmd (st h c lg) = Ok (tt, st (outb (base + 7) (u8 cmd) h) (sync (lock c) true (completion_wait c) c) lg).
Proof.
  intros (Hb & _) Hs Hq. unfold issue_pio_command. rewrite stM_bind_eq. cbn [sget]. rewrite stM_bind_eq. cbn [sassert slift assert st intr_on].
  rewrite (stM_bind_run _ _ _ _ _ (get_channel_run h c lg)), (stM_bind_run _ _ _ _ _ (set_sync_run h c lg _ _ _)).
  unfold reg_command, reg_status. rewrite Hb. by eapply out_port_run.
Qed.

Lemma find_channel h c lg : channel_ok c → list_find (λ c, vec = irq c) (channels (st h c lg)) = Some (i, c).
Proof.
  intros (_ & Hv & _). apply list_find_Some. cbn [st channels]. split_and!; [by rewrite list_lookup_insert_eq|done|].
  intros j y Hj Hlt Hy. rewrite list_lookup_insert_ne in Hj by lia. by apply (Hother j y); [lia|done|].
Qed.

(** The thread waits for the interrupt, whose handler reads the status. *)
Lemma completion_run h h1 c lg :
  channel_ok c → completion_wait c = 0 → expecting_interrupt c = true → idle_until vec h = Some h1 →
  completion_down i (st h c lg) = Ok (tt, st (inb (base + 7) h1).2 (sync (lock c) true 0 c) lg).
Proof.
  intros Hc H0' He Hu. unfold completion_down. rewrite (stM_bind_run _ _ _ _ _ (get_channel_run h c lg)). rewrite H0'. cbn [Z.ltb Z.compare].
  pose proof Hc as (Hb & Hv & _). rewrite Hv.
  assert ((s ← sget; match idle_until vec (hw s) with None => serr EFuel | Some h => set_hw h;; interrupt_handler vec end) (st h c lg) =
    Ok (tt, st (inb (base + 7) h1).2 (sync (lock c) true 1 c) lg)) as Hh.
  { rewrite stM_bind_eq. cbn [sget]. cbn [st hw]. rewrite Hu. rewrite stM_bind_eq. cbn [set_hw smod].
    change (interrupt_handler vec (st h1 c lg) = Ok (tt, st (inb (base + 7) h1).2 (sync (lock c) true 1 c) lg)).
    unfold interrupt_handler. rewrite (find_channel h1 c lg Hc), He. rewrite stM_bind_eq. cbn [set_hw smod]. unfold reg_status. rewrite Hb, H0'.
    exact (set_sync_run (inb (base + 7) h1).2 c lg (lock c) true 1). }
  rewrite (stM_bind_run _ _ _ _ _ Hh), (stM_bind_run _ _ _ _ _ (get_channel_run _ _ lg)). cbn [sync completion_wait Z.ltb Z.compare lock expecting_interrupt].
  exact (set_sync_run _ _ lg _ _ _).
Qed.

(** [p] is a phase in which DRQ is set. *)
Lemma busy_end_run n k d h a c lg :
  channel_ok c → (d < 2)%nat → shows h a → (∃ l, ph a = Giving l) ∨ (∃ l, ph a = Taking 0 l) →
  ∃ h' lg', busy_loop (S n) k i d (st h c lg) = Ok (true, st h' c lg') ∧ shows h' a.
Proof.
  intros Hc Hd Hs Hp.
  assert (requests (ph a) = false) as Hq by (by destruct Hp as [[l ->]|[l ->]]).
  assert (∀ h, shows h a → Z.land (inb (base + 518) h).1 STA_BSY = 0 ∧ Z.land (inb (base + 518) h).1 STA_DRQ ≠ 0 ∧ shows (inb (base + 518) h).2 a) as Halt
    by (intros h' Hs'; destruct Hp as [[l Hp]|[l Hp]]; [by eapply giving_alt|by eapply taking_alt]).
  destruct (get_disk_run h c lg d Hc Hd) as (nm & b & Hx). cbn [busy_loop].
  rewrite (stM_bind_run _ _ _ _ _ (get_channel_run h c lg)), (stM_bind_run _ _ _ _ _ Hx).
  assert (∃ lg1, (if k =? 700 then say (d_name (mk_disk nm (Z.of_nat d) b) ++ ": busy, waiting...") else mret tt) (st h c lg) = Ok (tt, st h c lg1)) as [lg1 Hl1]
    by (destruct (k =? 700); by eexists). rewrite (stM_bind_run _ _ _ _ _ Hl1).
  destruct Hc as (Hb & _). unfold reg_alt_status, reg_ctl. rewrite Hb.
  destruct (Halt h Hs) as (E1 & _ & Hs1). rewrite (stM_bind_run _ _ _ _ _ (in_port_run _ h a c lg1 Hs1 Hq)), E1. cbn [Z.eqb].
  assert (∃ lg2, (if 700 <=? k then say "ok" else mret tt) (st (inb (base + 518) h).2 c lg1) = Ok (tt, st (inb (base + 518) h).2 c lg2)) as [lg2 Hl2]
    by (destruct (700 <=? k); by eexists). rewrite (stM_bind_run _ _ _ _ _ Hl2).
  destruct (Halt _ Hs1) as (_ & E2 & Hs2). rewrite (stM_bind_run _ _ _ _ _ (in_port_run _ _ a c lg2 Hs2 Hq)).
  rewrite (proj2 (Z.eqb_neq _ _)) by done. eexists _, lg2. split; [reflexivity|done].
Qed.

Lemma busy_taking_run b n k d h a c lg l :
  channel_ok c → (d < 2)%nat → shows h a → ph a = Taking b l → (b < n)%nat →
  ∃ h' lg', busy_loop n k i d (st h c lg) = Ok (true, st h' c lg') ∧ shows h' (in_phase (Taking 0 l) a).
Proof.
  intros Hc Hd. revert n k h a lg. induction b as [|b IH]; intros [|n] k h a lg Hs Hp Hlt; try lia.
  { destruct (busy_end_run n k d h a c lg Hc Hd Hs) as (h' & lg' & Hr & Hs'); [eauto|]. exists h', lg'. split; [done|].
    replace (in_phase (Taking 0 l) a) with a; [done|]. destruct a. cbn in *. by subst. }
  destruct (get_disk_run h c lg d Hc Hd) as (nm & bb & Hx). cbn [busy_loop].
  rewrite (stM_bind_run _ _ _ _ _ (get_channel_run h c lg)), (stM_bind_run _ _ _ _ _ Hx).
  assert (∃ lg1, (if k =? 700 then say (d_name (mk_disk nm (Z.of_nat d) bb) ++ ": busy, waiting...") else mret tt) (st h c lg) = Ok (tt, st h c lg1)) as [lg1 Hl1]
    by (destruct (k =? 700); by eexists). rewrite (stM_bind_run _ _ _ _ _ Hl1).
  pose proof Hc as (Hb & _). unfold reg_alt_status, reg_ctl. rewrite Hb. destruct (busy_alt h a b l Hs Hp) as [E1 Hs1].
  rewrite (stM_bind_run _ _ _ _ _ (in_port_run _ h a c lg1 Hs1 ltac:(by rewrite Hp))), (proj2 (Z.eqb_neq _ _)) by done.
  pose proof (busy_pass _ a b l Hs1 Hp) as Hs2. unfold timer_msleep. change (10 * 1000000) with 10000000.
  rewrite (stM_bind_run _ _ _ _ _ (sleep_run _ _ _ c lg1 Hs2 eq_refl)).
  destruct (IH n (k + 1) _ _ lg1 Hs2 eq_refl ltac:(lia)) as (h' & lg' & Hr & Hs'). exists h', lg'. by split.
Qed.

Lemma insw_run cnt h a c lg l :
  shows h a → ph a = (match l with [] => Idle | _ => Giving l end) → length l = (2 * cnt)%nat → Forall in_u8 l →
  ∃ h', insw (base + 0) cnt (st h c lg) = Ok (l, st h' c lg) ∧ shows h' (in_phase Idle a).
Proof.
  revert h a l. induction cnt as [|cnt IH]; intros h a l Hs Hp Hl Hu.
  { destruct l; [|simpl in Hl; lia]. exists h. split; [done|]. replace (in_phase Idle a) with a; [done|]. destruct a. cbn in *. by subst. }
  destruct l as [|b0 [|b1 l]]; try (simpl in Hl; lia). apply Forall_cons in Hu as [Hb0 Hu]. apply Forall_cons in Hu as [Hb1 Hu].
  destruct (give h a b0 b1 l Hs Hp) as [Hw Hs1]. cbn [insw].
  rewrite (stM_bind_run _ _ _ _ _ (in_word_run _ h _ c lg Hs1 ltac:(by destruct l))), Hw.
  destruct (IH _ _ l Hs1) as (h' & Hr & Hs'); [by destruct l|simpl in Hl; lia|done|]. rewrite (stM_bind_run _ _ _ _ _ Hr).
  exists h'. split; [|by destruct l]. unfold in_u8 in *. change (Z.land (b0 + 256 * b1) 255) with (Z.land (b0 + 256 * b1) (Z.ones 8)).
  rewrite Z.land_ones, Z.shiftr_div_pow2 by done. change (2 ^ 8) with 256.
  replace ((b0 + 256 * b1) mod 256) with b0 by dlia. by replace ((b0 + 256 * b1) / 256) with b1 by dlia.
Qed.

Lemma outsw_run cnt h a c lg l acc :
  shows h a → ph a = (if bool_decide (length acc = SECTOR_BYTES) then Storing acc else Taking 0 acc) →
  length l = (2 * cnt)%nat → (length acc + length l)%nat = SECTOR_BYTES → Forall in_u8 l →
  ∃ h', outsw (base + 0) cnt l (st h c lg) = Ok (tt, st h' c lg) ∧ shows h' (in_phase (Storing (acc ++ l)) a).
Proof.
  revert h a l acc. induction cnt as [|cnt IH]; intros h a l acc Hs Hp Hl Hsum Hu.
  { destruct l; [|simpl in Hl; lia]. rewrite bool_decide_eq_true_2 in Hp by (simpl in Hsum; lia). exists h. split; [done|].
    rewrite app_nil_r. replace (in_phase (Storing acc) a) with a; [done|]. destruct a. cbn in *. by subst. }
  destruct l as [|b0 [|b1 l]]; try (simpl in Hl; lia). apply Forall_cons in Hu as [Hb0 Hu]. apply Forall_cons in Hu as [Hb1 Hu].
  cbn [length] in *. rewrite bool_decide_eq_false_2 in Hp by lia. pose proof (take_word h a b0 b1 acc Hs Hp Hb0 Hb1) as Hs1. cbn [outsw].
  rewrite (stM_bind_run _ _ _ _ _ (out_word_run _ _ h _ c lg Hs1 ltac:(cbn [in_phase ph]; by case_bool_decide))).
  destruct (IH _ _ l (acc ++ [b0; b1]) Hs1) as (h' & Hr & Hs'); [done|lia|rewrite length_app; simpl; lia|done|].
  exists h'. split; [exact Hr|]. by rewrite <- app_assoc in Hs'.
Qed.

(** ** Reading and writing *)

(** Between two requests: nobody holds the lock, no interrupt is counted. *)
Record at_rest (s : ide (H:=H)) (x : contents) : Prop := mk_rest {
  ar_state : ∃ h c lg a, s = st h c lg ∧ channel_ok c ∧ lock c = false ∧ completion_wait c = 0 ∧ shows h a ∧ ph a = Idle ∧ disks a = x }.

Lemma channel_sync c l e v : channel_ok c → channel_ok (sync l e v c).
Proof. done. Qed.
#[local] Hint Resolve channel_sync : core.

Lemma acquire_run h c lg : lock c = false → lock_acquire i (st h c lg) = Ok (tt, st h (sync true (expecting_interrupt c) (completion_wait c) c) lg).
Proof.
  intros Hl. unfold lock_acquire. rewrite (stM_bind_run _ _ _ _ _ (get_channel_run h c lg)), Hl. rewrite stM_bind_eq. exact (set_sync_run _ _ _ _ _ _).
Qed.
Lemma release_run h c lg : lock c = true → lock_release i (st h c lg) = Ok (tt, st h (sync false (expecting_interrupt c) (completion_wait c) c) lg).
Proof.
  intros Hl. unfold lock_release. rewrite (stM_bind_run _ _ _ _ _ (get_channel_run h c lg)), Hl. rewrite stM_bind_eq. exact (set_sync_run _ _ _ _ _ _).
Qed.

Lemma ide_read_run s x d sec :
  at_rest s x → (d < 2)%nat → 0 ≤ sec < 268435456 →
  ∃ s', ide_read i d sec s = Ok (x (bool_decide (d = 1%nat)) sec, s') ∧ at_rest s' x.
Proof.
  intros [(h & c & lg & a & -> & Hc & Hl & H0' & Hs & Hp & Hx)] Hd Hsec. unfold ide_read.
  rewrite (stM_bind_run _ _ _ _ _ (acquire_run h c lg Hl)). set (c1 := sync _ _ _ c). assert (channel_ok c1) as Hc1 by done.
  destruct (select_sector_run d sec h a c1 lg Hc1 Hd Hs Hp Hsec) as (h1 & a1 & Hr1 & Hs1 & Hp1 & Hd1 & Hn1 & Hl1 & Hsl & Hlba).
  rewrite (stM_bind_run _ _ _ _ _ Hr1). pose proof (read_command h1 a1 Hs1 Hp1 Hn1 Hl1) as Hs2.
  rewrite (stM_bind_run _ _ _ _ _ (issue_run CMD_READ_SECTOR_RETRY h1 _ c1 lg Hc1 Hs2 eq_refl)). set (c2 := sync _ _ _ c1). assert (channel_ok c2) as Hc2 by done.
  destruct (fetch _ _ Hs2 eq_refl) as (h3 & Hu & Hs3). rewrite (stM_bind_run _ _ _ _ _ (completion_run _ h3 c2 lg Hc2 H0' eq_refl Hu)).
  set (c3 := sync _ _ _ c2). assert (channel_ok c3) as Hc3 by done. pose proof (fetched _ _ _ Hs3 eq_refl) as Hs4.
  destruct (busy_end_run 2999 0 d _ _ c3 lg Hc3 Hd Hs4) as (h5 & lg5 & Hr5 & Hs5); [left; by eexists|]. unfold wait_while_busy.
  change 3000%nat with (S 2999). rewrite (stM_bind_run _ _ _ _ _ Hr5). rewrite stM_bind_eq. cbn [mret stM_ret].
  pose proof (shows_sectors _ _ (slave a1) (lba a1) Hs1) as [Hlen Hu8].
  destruct (insw_run 256 h5 _ c3 lg5 (disks a1 (slave a1) (lba a1)) Hs5) as (h6 & Hr6 & Hs6); [revert Hlen; change (disks (in_phase Fetching a1) (slave (in_phase Fetching a1)) (lba (in_phase Fetching a1))) with (disks a1 (slave a1) (lba a1));
      by destruct (disks a1 (slave a1) (lba a1))|done|done|].
  unfold input_sector. rewrite stM_bind_eq. rewrite (stM_bind_run _ _ _ _ _ (get_channel_run h5 c3 lg5)). unfold reg_data. destruct Hc3 as (Hb3 & _). rewrite Hb3.
  rewrite Hr6. rewrite (stM_bind_run _ _ _ _ _ (release_run h6 c3 lg5 eq_refl)). rewrite Hd1, Hsl, Hlba, Hx.
  eexists. split; [reflexivity|]. split. eexists _, _, _, _. split_and!; [reflexivity|done|done|done|exact Hs6|done|]. cbn. by rewrite Hd1.
Qed.

Lemma ide_write_run s x d sec l :
  at_rest s x → (d < 2)%nat → 0 ≤ sec < 268435456 → sector_ok l →
  ∃ s', ide_write i d sec l s = Ok (tt, s') ∧ at_rest s' (store_at (bool_decide (d = 1%nat)) sec l x).
Proof.
  intros [(h & c & lg & a & -> & Hc & Hl & H0' & Hs & Hp & Hx)] Hd Hsec [Hlen Hu8]. unfold ide_write.
  rewrite (stM_bind_run _ _ _ _ _ (acquire_run h c lg Hl)). set (c1 := sync _ _ _ c). assert (channel_ok c1) as Hc1 by done.
  destruct (select_sector_run d sec h a c1 lg Hc1 Hd Hs Hp Hsec) as (h1 & a1 & Hr1 & Hs1 & Hp1 & Hd1 & Hn1 & Hl1 & Hsl & Hlba).
  rewrite (stM_bind_run _ _ _ _ _ Hr1). destruct (write_command h1 a1 Hs1 Hp1 Hn1 Hl1) as (k & Hk & Hs2).
  rewrite (stM_bind_run _ _ _ _ _ (issue_run CMD_WRITE_SECTOR_RETRY h1 _ c1 lg Hc1 Hs2 eq_refl)). set (c2 := sync _ _ _ c1). assert (channel_ok c2) as Hc2 by done.
  destruct (busy_taking_run k 3000 0 d _ _ c2 lg [] Hc2 Hd Hs2 eq_refl Hk) as (h3 & lg3 & Hr3 & Hs3). unfold wait_while_busy.
  rewrite (stM_bind_run _ _ _ _ _ Hr3). rewrite stM_bind_eq. cbn [mret stM_ret].
  destruct (outsw_run 256 h3 _ c2 lg3 l [] Hs3) as (h4 & Hr4 & Hs4); [done|done|by rewrite Hlen|done|].
  unfold output_sector. rewrite stM_bind_eq. rewrite (stM_bind_run _ _ _ _ _ (get_channel_run h3 c2 lg3)). unfold reg_data. pose proof Hc2 as (Hb2 & _). rewrite Hb2.
  rewrite Hr4. destruct (storing _ _ _ Hs4 eq_refl) as (h5 & Hu & Hs5).
  rewrite (stM_bind_run _ _ _ _ _ (completion_run _ h5 c2 lg3 Hc2 H0' eq_refl Hu)). set (c3 := sync _ _ _ c2).
  pose proof (stored _ _ _ Hs5 eq_refl) as Hs6. rewrite (release_run _ c3 lg3 eq_refl).
  eexists. split; [reflexivity|]. split. eexists _, _, _, _. split_and!; [reflexivity|done|done|done|exact Hs6|done|]. 
  change (store_at (slave a1) (lba a1) l (disks a1) = store_at (bool_decide (d = 1%nat)) sec l x). by rewrite Hd1, Hsl, Hlba, Hx.
Qed.

(** ** A sequence of requests *)

Inductive request := Read (d : nat) (sec : Z) | Write (d : nat) (sec : Z) (l : list Z).
Definition request_ok (r : request) : Prop :=
  match r with
  | Read d sec => (d < 2)%nat ∧ 0 ≤ sec < 268435456
  | Write d sec l => (d < 2)%nat ∧ 0 ≤ sec < 268435456 ∧ sector_ok l
  end.
(** The driver's answers, and those of two arrays of sectors. *)
Fixpoint drive (rs : list request) : stM (ide (H:=H)) (list (list Z)) :=
  match rs with
  | [] => mret []
  | Read d sec :: rs => b ← ide_read i d sec; l ← drive rs; mret (b :: l)
  | Write d sec b :: rs => ide_write i d sec b;; drive rs
  end.
Fixpoint ideal (rs : list request) (x : contents) : list (list Z) * contents :=
  match rs with
  | [] => ([], x)
  | Read d sec :: rs => let '(l, y) := ideal rs x in (x (bool_decide (d = 1%nat)) sec :: l, y)
  | Write d sec b :: rs => ideal rs (store_at (bool_decide (d = 1%nat)) sec b x)
  end.

Lemma drive_run rs s x :
  at_rest s x → Forall request_ok rs → ∃ s', drive rs s = Ok ((ideal rs x).1, s') ∧ at_rest s' (ideal rs x).2.
Proof.
  intros Hs Hrs. revert s x Hs. induction Hrs as [|r rs Hr _ IH]; intros s x Hs; [by exists s|]. destruct r as [d sec|d sec b]; cbn [drive ideal].
  - destruct Hr as [Hd Hsec]. destruct (ide_read_run s x d sec Hs Hd Hsec) as (s1 & Hr & Hs1). rewrite (stM_bind_run _ _ _ _ _ Hr).
    destruct (IH s1 x Hs1) as (s2 & Hr2 & Hs2). rewrite (stM_bind_run _ _ _ _ _ Hr2). destruct (ideal rs x) as [l y]. by exists s2.
  - destruct Hr as (Hd & Hsec & Hl). destruct (ide_write_run s x d sec b Hs Hd Hsec Hl) as (s1 & Hr & Hs1). rewrite (stM_bind_run _ _ _ _ _ Hr). by apply IH.
Qed.
End spec.

(** ** The strings of a disk *)

(** A string is cut before its last byte, blank or not. *)
Lemma last_char_le n l : (last_char n l ≤ n)%nat.
Proof. induction n as [|n IH]; [done|]. cbn [last_char]. destruct (l !! n) as [c|]; [|done]. destruct (_ && _); lia. Qed.
Lemma length_swap_pairs n l : (length l ≤ n)%nat → length (swap_pairs l) = length l.
Proof. revert l. induction n as [|n IH]; intros [|a [|b l]] Hl; try done; [simpl in Hl; lia..|]. cbn. rewrite IH; [done|]. simpl in Hl. lia. Qed.
Lemma descramble_cuts l : l ≠ [] → (length (descramble_ata_string l) < length l)%nat.
Proof.
  intros Hl. unfold descramble_ata_string. rewrite length_take. pose proof (last_char_le (length (swap_pairs l) - 1) (swap_pairs l)) as Hc.
  rewrite (length_swap_pairs (length l)) in * by done. destruct l; [done|]. cbn [length] in *. lia.
Qed.

(** C3: The driver makes two arrays of sectors of a channel with its two disks.
    With a controller that follows the ATA protocol, and at rest, any sequence
    of [ide_read] and [ide_write] on either disk, with sector numbers below
    2^28, ends without a panic or a wait without end, whatever time up to 30
    seconds the controller is busy; every read returns what the same sequence
    of operations on the arrays does, and the driver and the controller are at
    rest again with the arrays' contents. *)
Theorem ide_refines_disk {H base vec} `{AtaLaws H base vec} (i : nat) chs s x rs :
  (i < length chs)%nat → (∀ j c, j ≠ i → chs !! j = Some c → irq c ≠ vec) →
  at_rest i chs s x → Forall request_ok rs →
  ∃ s', drive i rs s = Ok ((ideal rs x).1, s') ∧ at_rest i chs s' (ideal rs x).2.
Proof. intros Hi Ho Hs Hrs. by apply drive_run. Qed.

(** ** A controller *)

Definition SIM_BASE : Z := 496.
Definition SIM_VEC : Z := 46.

#[local] Instance sim : Ports ata := {|
  outb p v a :=
    if p =? 498 then mk_ata v (r_lbal a) (r_lbam a) (r_lbah a) (r_device a) (ph a) (disks a)
    else if p =? 499 then mk_ata (r_nsect a) v (r_lbam a) (r_lbah a) (r_device a) (ph a) (disks a)
    else if p =? 500 then mk_ata (r_nsect a) (r_lbal a) v (r_lbah a) (r_device a) (ph a) (disks a)
    else if p =? 501 then mk_ata (r_nsect a) (r_lbal a) (r_lbam a) v (r_device a) (ph a) (disks a)
    else if p =? 502 then mk_ata (r_nsect a) (r_lbal a) (r_lbam a) (r_lbah a) v (ph a) (disks a)
    else if p =? 503 then
      if v =? CMD_READ_SECTOR_RETRY then in_phase Fetching a else if v =? CMD_WRITE_SECTOR_RETRY then in_phase (Taking 2 []) a else a
    else a;
  inb p a :=
    if p =? 503 then
      match ph a with
      | Fetched l => (88, in_phase (Giving l) a)
      | Stored l => (64, in_phase Idle (with_disks (store_at (slave a) (lba a) l (disks a)) a))
      | Idle => (64, a)
      | _ => (128, a)
      end
    else if p =? 1014 then (match ph a with Giving _ | Taking 0 _ => 88 | Idle => 64 | _ => 128 end, a)
    else (0, a);
  inw p a := match ph a with Giving (b0 :: b1 :: l) => (b0 + 256 * b1, in_phase (match l with [] => Idle | _ => Giving l end) a) | _ => (0, a) end;
  outw p w a :=
    match ph a with
    | Taking 0 l => let l' := l ++ [w mod 256; w / 256] in in_phase (if bool_decide (length l' = SECTOR_BYTES) then Storing l' else Taking 0 l') a
    | _ => a
    end;
  pass t a := match ph a with Taking (S k) l => in_phase (Taking k l) a | _ => a end;
  line v a := requests (ph a) && (v =? SIM_VEC);
  idle_until v a :=
    match ph a with Fetching => Some (in_phase (Fetched (disks a (slave a) (lba a))) a) | Storing l => Some (in_phase (Stored l) a) | _ => None end |}.

Definition phase_ok (p : phase) : Prop := match p with Taking _ l => Forall in_u8 l | Storing l | Stored l => sector_ok l | _ => True end.
Definition sim_ok (a : ata) : Prop := (∀ d sec, sector_ok (disks a d sec)) ∧ phase_ok (ph a).

#[local] Program Instance sim_laws : AtaLaws ata SIM_BASE SIM_VEC := {| shows h a := h = a ∧ sim_ok a |}.
Next Obligation. by intros h a d sec [_ [Hd _]]. Qed.
Next Obligation. intros h a v [-> _] Hr. cbn. by rewrite Hr. Qed.
Next Obligation. intros h a [-> Hok] Hp. cbn. by rewrite Hp. Qed.
Next Obligation. intros h a [-> Hok] Hp. by cbn. Qed.
Next Obligation. intros h a t [-> Hok] Hp. cbn. by rewrite Hp. Qed.
Next Obligation. intros h a v [-> [Hd _]] Hp. cbn. by rewrite Hp. Qed.
Next Obligation. intros h a v [-> [Hd _]] Hp. cbn. by rewrite Hp. Qed.
Next Obligation. intros h a v [-> [Hd _]] Hp. cbn. by rewrite Hp. Qed.
Next Obligation. intros h a v [-> [Hd _]] Hp. cbn. by rewrite Hp. Qed.
Next Obligation. intros h a v [-> [Hd _]] Hp. cbn. by rewrite Hp. Qed.
Next Obligation. intros h a [-> [Hd _]] Hp _ _. by cbn. Qed.
Next Obligation. intros h a [-> [Hd _]] Hp. cbn. rewrite Hp. eexists. by split. Qed.
Next Obligation. intros h a l [-> [Hd _]] Hp. cbn. by rewrite Hp. Qed.
Next Obligation. intros h a l [-> Hok] Hp. cbn. by rewrite Hp. Qed.
Next Obligation. intros h a b0 b1 l [-> [Hd _]] Hp. cbn. rewrite Hp. by destruct l. Qed.
Next Obligation. intros h a [-> [Hd _]] Hp _ _. exists 2%nat. cbn. split; [lia|]. split; [done|]. split; [done|constructor]. Qed.
Next Obligation. intros h a k l [-> Hok] Hp. cbn. by rewrite Hp. Qed.
Next Obligation. intros h a k l [-> [Hd Hok]] Hp. cbn. rewrite Hp in *. by split. Qed.
Next Obligation. intros h a l [-> Hok] Hp. cbn. by rewrite Hp. Qed.
Next Obligation.
  intros h a b0 b1 l [-> [Hd Hok]] Hp Hb0 Hb1. cbn. rewrite Hp in *. unfold in_u8 in Hb0, Hb1.
  replace ((b0 + 256 * b1) mod 256) with b0 by dlia. replace ((b0 + 256 * b1) / 256) with b1 by dlia. split; [done|]. split; [done|]. cbn [in_phase ph].
  assert (Forall in_u8 (l ++ [b0; b1])) by (apply Forall_app; split; [done|by do 2 (apply Forall_cons; split; [done|])]). by case_bool_decide.
Qed.
Next Obligation. intros h a l [-> [Hd Hok]] Hp. cbn. rewrite Hp in *. eexists. by split. Qed.
Next Obligation.
  intros h a l [-> [Hd Hok]] Hp. cbn. rewrite Hp in *. split; [done|]. split; [|done]. intros d sec. cbn. unfold store_at. by case_bool_decide.
Qed.

Definition blank : contents := λ _ _, replicate SECTOR_BYTES 0.
Definition sim_channels : list channel := [new_channel 0; new_channel 1].
Definition sim_start : ide (H:=ata) := mk_ide (mk_ata 0 0 0 0 0 Idle blank) sim_channels true [].

Lemma ide_refines_disk_witness :
  ∃ s', drive 0 [Write 1 7 (replicate SECTOR_BYTES 9); Read 1 7; Read 0 7] sim_start = Ok ([replicate SECTOR_BYTES 9; replicate SECTOR_BYTES 0], s').
Proof.
  destruct (ide_refines_disk (H:=ata) (base:=SIM_BASE) (vec:=SIM_VEC) 0 sim_channels sim_start blank
    [Write 1 7 (replicate SECTOR_BYTES 9); Read 1 7; Read 0 7]) as (s' & Hr & _).
  - cbn. lia.
  - intros [|[|j]] c Hj E; [done| |done]. injection E as <-. done.
  - split. exists (mk_ata 0 0 0 0 0 Idle blank), (new_channel 0), [], (mk_ata 0 0 0 0 0 Idle blank).
    assert (sector_ok (replicate SECTOR_BYTES 0)) by (split; [done|apply Forall_replicate; unfold in_u8; lia]).
    split_and!; [reflexivity| |reflexivity|reflexivity|split; [reflexivity|split; [done|exact I]]|reflexivity|reflexivity].
    split; [reflexivity|]. split; [reflexivity|]. intros [|[|d]] Hd; [eexists _, _; reflexivity|eexists _, _; reflexivity|lia].
  - repeat constructor; try lia; try done.
  - exists s'. exact Hr.
Defined.
