(* ===== verification/Process.v ===== *)
(** * userprog/process.c: loading a program

    [start_process]'s parsing of the command line, [load] with its segments
    and [setup_stack], over the page allocator, the page tables and a file
    system.  The file system is used through the interface [Files], which
    ProcessFiles.v implements with the file system of this development.

    The kernel writes the arguments through the user addresses of the new
    process, so the processor's translation of an address is modelled too:
    [walk] looks the address up in the translation cache and then in the
    active page directory, and keeps what it finds.  The accessed and dirty
    bits that the processor sets in entries are left out: nothing in the
    sources reads them.

    [malloc n] is the block that the allocator returns for [n] bytes, null
    when it has none; the two arrays of pointers that are kept in such blocks
    are lists here, with the size of the block as a bound. *)

From S2P Require Import Prelude Bitmap Palloc Pagedir CString.
Import Palloc Pagedir.

Module Process.

Definition MAX_ARGS_LEN : Z := 4096.

(** ** Access to memory through the active page directory *)

(** The entry of a user address: the cached one, or the one in memory. *)
Definition walk (va : Z) : stM mmu Z :=
  s ← sget;
  match tlb s !! pg_no va with
  | Some e => mret e
  | None =>
      pd ← active_pd;
      pde ← Pagedir.load (pd + 4 * pd_no va);
      if Z.land pde PTE_P =? 0 then serr EFault
      else
        pt ← slift (ptov (Z.land pde PTE_ADDR));
        pte ← Pagedir.load (pt + 4 * pt_no va);
        if Z.land pte PTE_P =? 0 then serr EFault
        else smod (λ s, mk_mmu (pal s) (cr3 s) (<[pg_no va := pte]> (tlb s)));; mret pte
  end.

(** Where a user address is in the kernel's view of memory.  The kernel runs
    with write protection on (CR0_WP in threads/start.S). *)
Definition user_addr (write : bool) (va : Z) : stM mmu Z :=
  pte ← walk va;
  if write && (Z.land pte PTE_W =? 0) then serr EFault
  else p ← slift (pte_get_page pte); mret (p + pg_ofs va).

Definition set_byte (a b : Z) (m : memory) : memory := λ x, if decide (x = a) then b else m x.

Definition user_load (va : Z) : stM mmu Z := a ← user_addr false va; sread (λ s, mem (pal s) a).
Definition user_store (va b : Z) : stM mmu unit :=
  a ← user_addr true va; on_pal (smod (set_mem (set_byte a b))).

(** [memcpy] to a user address. *)
Fixpoint copy_out (va : Z) (bs : list Z) : stM mmu unit :=
  match bs with
  | [] => mret tt
  | b :: bs => user_store va b;; copy_out (va + 1) bs
  end.

(** Bytes stored at a kernel address. *)
Definition mem_write (p : Z) (bs : list Z) (m : memory) : memory :=
  λ a, if decide (p ≤ a < p + Z.of_nat (length bs)) then default 0 (bs !! Z.to_nat (a - p)) else m a.

(** ** The file system, as [load] sees it *)

Class Files (F : Type) := {
  filesys_open : list Z → stM F (option Z);
  file_read : Z → Z → stM F (Z * list Z);
  file_length : Z → stM F Z;
  file_seek : Z → Z → stM F unit;
  file_close : option Z → stM F unit;
}.

Record machine (F : Type) := mk_machine { cpu : mmu; fsys : F }.
Arguments mk_machine {F} _ _.
Arguments cpu {F} _.
Arguments fsys {F} _.

(** ** ELF *)

Record Elf32_Ehdr := mk_ehdr {
  e_ident : list Z; e_type : Z; e_machine : Z; e_version : Z; e_entry : Z; e_phoff : Z; e_shoff : Z; e_flags : Z;
  e_ehsize : Z; e_phentsize : Z; e_phnum : Z; e_shentsize : Z; e_shnum : Z; e_shstrndx : Z;
}.
Record Elf32_Phdr := mk_phdr {
  p_type : Z; p_offset : Z; p_vaddr : Z; p_paddr : Z; p_filesz : Z; p_memsz : Z; p_flags : Z; p_align : Z;
}.
Definition EHDR_SIZE : Z := 52.
Definition PHDR_SIZE : Z := 32.

Definition half (o : nat) (b : list Z) : Z := le_Z (slice o 2 b).
Definition word (o : nat) (b : list Z) : Z := le_Z (slice o 4 b).
Definition decode_ehdr (b : list Z) : Elf32_Ehdr :=
  mk_ehdr (slice 0 16 b) (half 16 b) (half 18 b) (word 20 b) (word 24 b) (word 28 b) (word 32 b) (word 36 b)
    (half 40 b) (half 42 b) (half 44 b) (half 46 b) (half 48 b) (half 50 b).
Definition decode_phdr (b : list Z) : Elf32_Phdr :=
  mk_phdr (word 0 b) (word 4 b) (word 8 b) (word 12 b) (word 16 b) (word 20 b) (word 24 b) (word 28 b).

Definition PT_LOAD : Z := 1.
Definition PT_DYNAMIC : Z := 2.
Definition PT_INTERP : Z := 3.
Definition PT_SHLIB : Z := 5.
Definition PF_W : Z := 2.

Definition ELF_MAGIC : list Z := [127; 69; 76; 70; 1; 1; 1].

(** The conditions on the header once it has been read. *)
Definition ehdr_ok (h : Elf32_Ehdr) : bool :=
  bool_decide (take 7 (e_ident h) = ELF_MAGIC) && (e_type h =? 2) && (e_machine h =? 3) && (e_version h =? 1)
  && (e_phentsize h =? PHDR_SIZE) && (e_phnum h <=? 1024).

(** [length] is what [file_length] returned. *)
Definition validate_segment (phdr : Elf32_Phdr) (length : Z) : bool :=
  (Z.land (p_offset phdr) PGMASK =? Z.land (p_vaddr phdr) PGMASK)
  && negb (u32 length <? p_offset phdr)
  && negb (p_memsz phdr <? p_filesz phdr)
  && negb (p_memsz phdr =? 0)
  && is_user_vaddr (p_vaddr phdr)
  && is_user_vaddr (u32 (p_vaddr phdr + p_memsz phdr))
  && negb (u32 (p_vaddr phdr + p_memsz phdr) <? p_vaddr phdr)
  && negb (p_vaddr phdr <? PGSIZE).

Section process_c.
Context {F : Type} `{Files F}.
Context (init_page_dir init_ram_pages : Z) (malloc : Z → Z).

Definition on_cpu {A} (m : stM mmu A) : stM (machine F) A := λ s,
  match m (cpu s) with Ok (a, c) => Ok (a, mk_machine c (fsys s)) | Err e => Err e end.
Definition on_fs {A} (m : stM F A) : stM (machine F) A := λ s,
  match m (fsys s) with Ok (a, f) => Ok (a, mk_machine (cpu s) f) | Err e => Err e end.

(** ** Pages *)

(** [t->pagedir] is [pd]. *)
Definition install_page (pd upage kpage : Z) (writable : bool) : stM mmu bool :=
  p ← pagedir_get_page pd upage;
  if p =? 0 then pagedir_set_page init_page_dir init_ram_pages pd upage kpage writable else mret false.

Fixpoint segment_loop (fuel : nat) (pd file upage read_bytes zero_bytes : Z) (writable : bool) : stM (machine F) bool :=
  if (0 <? read_bytes) || (0 <? zero_bytes) then
    match fuel with
    | O => serr EFuel
    | S fuel =>
        let page_read_bytes := if read_bytes <? PGSIZE then read_bytes else PGSIZE in
        let page_zero_bytes := PGSIZE - page_read_bytes in
        kpage ← on_cpu (on_pal (palloc_get_page PAL_USER));
        if kpage =? 0 then mret false
        else
          '(n, b) ← on_fs (file_read file page_read_bytes);
          on_cpu (on_pal (smod (set_mem (mem_write kpage b))));;
          if negb (n =? page_read_bytes) then on_cpu (on_pal (palloc_free_page kpage));; mret false
          else
            on_cpu (on_pal (smod (set_mem (mem_set (kpage + page_read_bytes) 0 page_zero_bytes))));;
            ok ← on_cpu (install_page pd upage kpage writable);
            if negb ok then on_cpu (on_pal (palloc_free_page kpage));; mret false
            else
              segment_loop fuel pd file (u32 (upage + PGSIZE)) (u32 (read_bytes - page_read_bytes))
                (u32 (zero_bytes - page_zero_bytes)) writable
    end
  else mret true.

(** Every pass handles a page; there are 2^20 of them. *)
Definition load_segment (pd file ofs upage read_bytes zero_bytes : Z) (writable : bool) : stM (machine F) bool :=
  sassert (u32 (read_bytes + zero_bytes) mod PGSIZE =? 0);;
  sassert (pg_ofs upage =? 0);;
  sassert (Z.rem ofs PGSIZE =? 0);;
  on_fs (file_seek file ofs);;
  segment_loop (Z.to_nat ((read_bytes + zero_bytes) / PGSIZE + 1)) pd file upage read_bytes zero_bytes writable.

(** ** The stack *)

(** Pushes the last of the strings first; returns the pointers in order. *)
Fixpoint push_strings (esp : Z) (rargs : list (list Z)) (argv : list Z) : stM mmu (Z * list Z) :=
  match rargs with
  | [] => mret (esp, argv)
  | s :: rargs =>
      let esp := u32 (esp - (Z.of_nat (length s) + 1)) in
      copy_out esp (s ++ [0]);; push_strings esp rargs (esp :: argv)
  end.

Definition push_word (esp w : Z) : stM mmu Z :=
  let esp := u32 (esp - 4) in copy_out esp (le_bytes 4 w);; mret esp.
Fixpoint push_words (esp : Z) (ws : list Z) : stM mmu Z :=
  match ws with
  | [] => mret esp
  | w :: ws => esp ← push_word esp w; push_words esp ws
  end.

(** Returns whether it succeeded and what it left in [*esp]. *)
Definition setup_stack (pd : Z) (user_args : list (list Z)) : stM mmu (bool * Z) :=
  let arg_count := Z.of_nat (length user_args) in
  kpage ← on_pal (palloc_get_page (Z.lor PAL_USER PAL_ZERO));
  if kpage =? 0 then mret (false, 0)
  else
    ok ← install_page pd (PHYS_BASE - PGSIZE) kpage true;
    if negb ok then on_pal (palloc_free_page kpage);; mret (false, 0)
    else if malloc ((arg_count + 1) * 4) =? 0 then on_pal (palloc_free_page kpage);; mret (false, PHYS_BASE)
    else
      '(esp, argv) ← push_strings PHYS_BASE (reverse user_args) [];
      let esp := u32 (esp - esp mod 4) in
      esp ← push_word esp 0;
      esp ← push_words esp (reverse argv);
      let argv_start := esp in
      esp ← push_word esp argv_start;
      esp ← push_word esp arg_count;
      esp ← push_word esp 0;
      mret (true, esp).

(** ** The executable *)

(** A segment of type [PT_LOAD] that has been validated. *)
Definition load_phdr (pd file : Z) (phdr : Elf32_Phdr) : stM (machine F) bool :=
  let writable := negb (Z.land (p_flags phdr) PF_W =? 0) in
  let file_page := Z.land (p_offset phdr) (u32 (Z.lnot PGMASK)) in
  let mem_page := Z.land (p_vaddr phdr) (u32 (Z.lnot PGMASK)) in
  let page_offset := Z.land (p_vaddr phdr) PGMASK in
  let total := u32 (u32 (u32 (page_offset + p_memsz phdr) + PGSIZE - 1) / PGSIZE * PGSIZE) in
  if 0 <? p_filesz phdr then
    let read_bytes := u32 (page_offset + p_filesz phdr) in
    load_segment pd file (i32 file_page) mem_page read_bytes (u32 (total - read_bytes)) writable
  else load_segment pd file (i32 file_page) mem_page 0 total writable.

Fixpoint phdr_loop (n : nat) (pd file file_ofs : Z) : stM (machine F) bool :=
  match n with
  | O => mret true
  | S n =>
      len ← on_fs (file_length file);
      if (file_ofs <? 0) || (len <? file_ofs) then mret false
      else
        on_fs (file_seek file file_ofs);;
        '(k, b) ← on_fs (file_read file PHDR_SIZE);
        if negb (k =? PHDR_SIZE) then mret false
        else
          let phdr := decode_phdr b in
          ok ← (if p_type phdr =? PT_LOAD then
                  len ← on_fs (file_length file);
                  if validate_segment phdr len then load_phdr pd file phdr else mret false
                else mret (negb ((p_type phdr =? PT_DYNAMIC) || (p_type phdr =? PT_INTERP) || (p_type phdr =? PT_SHLIB))));
          if (ok : bool) then phdr_loop n pd file (i32 (file_ofs + PHDR_SIZE)) else mret false
  end.

(** From the open file to the entry point and the stack pointer. *)
Definition load_file (pd file : Z) (user_args : list (list Z)) : stM (machine F) (bool * Z * Z) :=
  '(n, b) ← on_fs (file_read file EHDR_SIZE);
  if negb (n =? EHDR_SIZE) || negb (ehdr_ok (decode_ehdr b)) then mret (false, 0, 0)
  else
    let ehdr := decode_ehdr b in
    ok ← phdr_loop (Z.to_nat (e_phnum ehdr)) pd file (i32 (e_phoff ehdr));
    if negb ok then mret (false, 0, 0)
    else
      '(ok, esp) ← on_cpu (setup_stack pd user_args);
      if negb ok then mret (false, 0, esp) else mret (true, e_entry ehdr, esp).

(** Also returns the new [t->pagedir], which stays set when loading fails. *)
Definition load (file_name : list Z) (user_args : list (list Z)) : stM (machine F) (Z * (bool * Z * Z)) :=
  pd ← on_cpu (pagedir_create init_page_dir);
  if pd =? 0 then mret (0, (false, 0, 0))
  else
    on_cpu (pagedir_activate init_page_dir pd);;
    f ← on_fs (filesys_open file_name);
    match f with
    | None => mret (pd, (false, 0, 0))
    | Some file =>
        r ← load_file pd file user_args;
        (if (r : bool * Z * Z).1.1 then mret tt else on_fs (file_close (Some file)));;
        mret (pd, r)
    end.

(** ** The command line *)

(** The page with the command line at [FN], the delimiter at [SP]. *)
Definition SP : Z := 1.
Definition FN : Z := 4.
Definition fn_copy (file_name page : list Z) : res CString.mem :=
  let m := [0; 32; 0; 0] ++ page ++ file_name ++ [0] in
  '(_, m) ← CString.strlcpy m FN (FN + PGSIZE) PGSIZE; Ok m.

(** [user_args] has room for [size] bytes of pointers. *)
Fixpoint args_loop (n : nat) (m : CString.mem) (save_ptr arg_size size : Z) (user_args : list Z) : res (list Z * CString.mem) :=
  match n with
  | O => Err EFuel
  | S n =>
      '(r, m) ← CString.strtok_r m CString.NULL SP save_ptr;
      let '(token, save_ptr) := (r : Z * Z) in
      if token =? CString.NULL then Ok (user_args, m)
      else
        len ← CString.strlen m token;
        let arg_size := u32 (arg_size + len + 1) in
        if MAX_ARGS_LEN <? arg_size then Ok (user_args, m)
        else if size <? 4 * (Z.of_nat (length user_args) + 1) then Err EFault
        else args_loop n m save_ptr arg_size size (user_args ++ [token])
  end.

(** The string at an address. *)
Fixpoint string_at (fuel : nat) (m : CString.mem) (a : Z) : res (list Z) :=
  match fuel with
  | O => Err EFuel
  | S fuel => c ← CString.load m a; if c =? 0 then Ok [] else s ← string_at fuel m (a + 1); Ok (c :: s)
  end.
Fixpoint strings_at (m : CString.mem) (ps : list Z) : res (list (list Z)) :=
  match ps with
  | [] => Ok []
  | p :: ps => s ← string_at (CString.walk m) m p; l ← strings_at m ps; Ok (s :: l)
  end.

(** What [process_execute] copies and [start_process] makes of it: [None] when
    there is no word in it, or the name to open and the arguments. *)
Definition parse_command (file_name page : list Z) : res (option (list Z * list (list Z))) :=
  m ← fn_copy file_name page;
  '(r, m) ← CString.strtok_r m FN SP CString.NULL;
  let '(user_prog, save_ptr) := (r : Z * Z) in
  if user_prog =? CString.NULL then Ok None
  else
    len ← CString.strlen m user_prog;
    let size := MAX_ARGS_LEN + len + 1 in
    if malloc size =? 0 then Err EFault
    else
      '(ps, m) ← args_loop (length m) m save_ptr 0 size [user_prog];
      if size <? 4 * (Z.of_nat (length ps) + 1) then Err EFault
      else
        name ← string_at (CString.walk m) m FN;
        args ← strings_at m ps;
        Ok (Some (name, args)).

End process_c.
End Process.
