(* ===== verification/UserMemory.v ===== *)
(** * Address spaces

    What userprog/process.c builds, abstractly: a finite map from user page
    numbers to frames of the user pool, each writable or not.  [as_ok] ties it
    to the page tables in memory and to the translation cache; the lemmas say
    what access through the processor and the page operations of process.c do
    to it. *)

From S2P Require Import Prelude Bitmap Palloc Pagedir PagedirSpec CString Process.
Import Bitmap Palloc Pagedir Process.

Abbreviation space := (gmap Z (Z * bool)).

(** The flags of an entry: present, user and perhaps writable. *)
Definition flags (w : bool) : Z := if w then 7 else 5.
Definition entry (f : Z * bool) : Z := f.1 - PHYS_BASE + flags f.2.

(** The byte a program sees at [va]. *)
Definition ubyte (c : mmu) (sp : space) (va : Z) : option Z :=
  match sp !! (va / PGSIZE) with Some f => Some (mem (pal c) (f.1 + va mod PGSIZE)) | None => None end.

Section space.
Context (init_page_dir init_ram_pages : Z).

Record as_ok (c : mmu) (pd : Z) (pts : gmap Z Z) (sp : space) : Prop := {
  as_pd : pd_ok c pd pts;
  as_cr3 : cr3 c = pd - PHYS_BASE;
  as_ram : pool_end (user_pool (pal c)) ≤ PHYS_BASE + PGSIZE * init_ram_pages;
  as_pte va : 0 ≤ va < PHYS_BASE →
    match sp !! (va / PGSIZE) with
    | Some f => pte_at c pts va = entry f
    | None => Z.land (pte_at c pts va) PTE_P = 0
    end;
  as_frame v f : sp !! v = Some f → 0 ≤ v < PHYS_BASE / PGSIZE ∧ used_run (user_pool (pal c)) f.1 1;
  as_inj v v' f f' : sp !! v = Some f → sp !! v' = Some f' → f.1 = f'.1 → v = v';
  as_tlb v e : tlb c !! v = Some e → ∃ f, sp !! v = Some f ∧ e = entry f;
}.

(** A frame is an aligned page of the user pool. *)
Lemma frame_range c pd pts sp k :
  as_ok c pd pts sp → in_pool (user_pool (pal c)) k 1 →
  PHYS_BASE ≤ k ∧ k mod PGSIZE = 0 ∧ k + PGSIZE ≤ W32 ∧ pool_end (kernel_pool (pal c)) ≤ k ∧
  (k - PHYS_BASE) / PGSIZE < init_ram_pages.
Proof.
  intros Hok (i & Hi & Hin & ->). pose proof (as_pd _ _ _ _ Hok) as Hpd. destruct (pa_user _ (pd_pal _ _ _ Hpd)) as [Hw Hb Ha He _].
  destruct (pa_kernel _ (pd_pal _ _ _ Hpd)) as [Hkw _ _ _ _]. destruct Hkw as (Hkw & _).
  pose proof (pa_disj _ (pd_pal _ _ _ Hpd)) as Hd. pose proof (pd_base _ _ _ Hpd). pose proof (as_ram _ _ _ _ Hok) as Hram.
  unfold pool_end in *. unfold PGSIZE, PHYS_BASE in *. split_and!; [lia|dlia|lia|lia|dlia].
Qed.

Lemma entry_parts c pd pts sp f :
  as_ok c pd pts sp → in_pool (user_pool (pal c)) f.1 1 →
  Z.land (entry f) PTE_ADDR = f.1 - PHYS_BASE ∧ (Z.land (entry f) PTE_P =? 0) = false ∧
  (Z.land (entry f) PTE_W =? 0) = negb f.2 ∧ in_u32 (entry f) ∧ pte_get_page (entry f) = Ok f.1.
Proof.
  intros Hok Hin. destruct (frame_range _ _ _ _ _ Hok Hin) as (Hk & Ha & He & _ & _). destruct f as [k w]. cbn [fst snd] in *.
  unfold entry, flags. cbn [fst snd].
  assert (in_u32 (k - PHYS_BASE + if w then 7 else 5)) as Hu by (destruct w; unfold in_u32, PHYS_BASE, PGSIZE in *; lia).
  assert ((k - PHYS_BASE) mod PGSIZE = 0) as Hal by (unfold PHYS_BASE, PGSIZE in *; dlia).
  destruct (entry_fields (k - PHYS_BASE) (if w then 7 else 5)) as [H1 H2]; [done|by destruct w|done|].
  split_and!; [done|by rewrite H2; destruct w| |done|].
  - rewrite <- (lor_flags (k - PHYS_BASE)) by (done || by destruct w). rewrite Z.land_lor_distr_l.
    assert (Z.land (k - PHYS_BASE) PTE_W = 0) as ->; [|by destruct w].
    apply Z.bits_inj'. intros i Hi. rewrite Z.land_spec, Z.bits_0. unfold PTE_W. destruct (decide (i < 12)).
    + apply Z.mod_divide in Hal as [q ->]; [|done]. change PGSIZE with (2 ^ 12). by rewrite Z.mul_pow2_bits_low.
    + rewrite (Z.bits_above_log2 2 i), andb_false_r; [done|lia|simpl; lia].
  - unfold pte_get_page, ptov. rewrite H1. rewrite assert_true by (apply Z.ltb_lt; unfold PHYS_BASE, PGSIZE in *; lia). simpl.
    rewrite u32_small by (unfold in_u32, PHYS_BASE, PGSIZE in *; lia). f_equal. lia.
Qed.

(** The pages of the page tables are apart from those of the user pool. *)
Lemma user_outside c pd pts sp k x :
  as_ok c pd pts sp → in_pool (user_pool (pal c)) k 1 → in_page k x → outside pd pts x.
Proof.
  intros Hok Hin Hx. destruct (frame_range _ _ _ _ _ Hok Hin) as (_ & _ & _ & Hk & _). pose proof (as_pd _ _ _ _ Hok) as Hpd.
  assert (∀ a, table_page (kernel_pool (pal c)) a → ¬ in_page a x) as Hno.
  { intros a [_ _ _ [(i & Hi & Hin2 & ->) _]]. unfold in_page, pool_end, PGSIZE in *. lia. }
  split; [apply Hno, Hpd|]. intros i pt Hpt. apply Hno. by apply (pd_pts _ _ _ Hpd i).
Qed.

(** ** Changes of the state that keep an address space *)

(** The page tables in other memory. *)
Lemma pd_ok_mem c p' cr t pd pts :
  pd_ok c pd pts → palloc_ok p' → base (kernel_pool p') = base (kernel_pool (pal c)) → bytes_ok (mem p') →
  (∀ a, used_run (kernel_pool (pal c)) a 1 → used_run (kernel_pool p') a 1) →
  (∀ x, ¬ outside pd pts x → mem p' x = mem (pal c) x) →
  pd_ok (mk_mmu p' cr t) pd pts ∧ ∀ va, 0 ≤ va < PHYS_BASE → pte_at (mk_mmu p' cr t) pts va = pte_at c pts va.
Proof.
  intros Hpd Hp' Hb Hm Hu Hsame.
  assert (∀ a, table_page (kernel_pool (pal c)) a → table_page (kernel_pool p') a) as Htp.
  { intros a [? ? ? ?]. split; [done..|]. by apply Hu. }
  assert (∀ i, 0 ≤ i < 768 → mem_word (pd + 4 * i) (mem p') = mem_word (pd + 4 * i) (mem (pal c))) as Hw1.
  { intros i Hi. apply mem_word_ext. intros x Hx. apply Hsame. intros [Ho _]. apply Ho.
    eapply word_in_page; [|exact Hx]. lia. }
  assert (∀ k pt i, pts !! k = Some pt → 0 ≤ i < 1024 → mem_word (pt + 4 * i) (mem p') = mem_word (pt + 4 * i) (mem (pal c))) as Hw2.
  { intros k pt i Hpt Hi. apply mem_word_ext. intros x Hx. apply Hsame. intros [_ Ho]. apply (Ho k pt Hpt).
    eapply word_in_page; [|exact Hx]. lia. }
  split.
  - split; cbn [pal]; try done.
    + rewrite Hb. apply Hpd.
    + apply Htp, Hpd.
    + intros i pt Hpt. destruct (pd_pts _ _ _ Hpd i pt Hpt) as (? & ? & ?). split_and!; [lia..| |done]. by apply Htp.
    + apply Hpd.
    + intros i Hi. rewrite Hw1 by done. by apply Hpd.
    + intros i pt j Hpt Hj. erewrite Hw2 by done. by eapply Hpd.
  - intros va Hva. destruct (va_indexes va Hva) as [_ Hj]. apply pte_at_ext; [done|]. intros pt Hpt. by eapply Hw2.
Qed.

(** Memory written outside the page tables, pages taken from or given back to
    the user pool as long as the frames stay in use. *)
Lemma as_ok_mem c pd pts sp p' :
  as_ok c pd pts sp → palloc_ok p' → kernel_pool p' = kernel_pool (pal c) → bytes_ok (mem p') →
  pool_end (user_pool p') = pool_end (user_pool (pal c)) →
  (∀ v f, sp !! v = Some f → used_run (user_pool p') f.1 1) →
  (∀ x, ¬ outside pd pts x → mem p' x = mem (pal c) x) → as_ok (set_pal p' c) pd pts sp.
Proof.
  intros Hok Hp' Hk Hm He Hu Hsame.
  destruct (pd_ok_mem c p' (cr3 c) (tlb c) pd pts (as_pd _ _ _ _ Hok)) as [Hpd Hpte]; try done; [by rewrite Hk..|].
  split; cbn [set_pal pal cr3 tlb]; [done|by apply Hok|rewrite He; by apply Hok| | |by eapply Hok|by eapply Hok].
  - intros va Hva. unfold set_pal. rewrite Hpte by done. by apply (as_pte _ _ _ _ Hok).
  - intros v f Hf. split; [by eapply (as_frame _ _ _ _ Hok)|by eapply Hu].
Qed.

(** ** Access through the processor *)

Lemma set_byte_ok a b m : in_u8 b → bytes_ok m → bytes_ok (set_byte a b m).
Proof. intros Hb Hm x. unfold set_byte. case_decide; [done|apply Hm]. Qed.

(** What the processor does on a miss in the cache. *)
Lemma walk_run c pd pts sp va :
  as_ok c pd pts sp → 0 ≤ va < PHYS_BASE → tlb c !! (va / PGSIZE) = None →
  walk va c = if Z.land (pte_at c pts va) PTE_P =? 0 then Err EFault
              else Ok (pte_at c pts va, mk_mmu (pal c) (cr3 c) (<[va / PGSIZE := pte_at c pts va]> (tlb c))).
Proof.
  intros Hok Hva Ht. pose proof (as_pd _ _ _ _ Hok) as Hpd. pose proof (as_cr3 _ _ _ _ Hok) as Hcr.
  destruct (pd_page _ _ _ Hpd) as [Hpk _ Hpe _]. destruct (va_indexes va Hva) as [Hi Hj].
  unfold walk. erewrite stM_bind_run by reflexivity. rewrite pg_no_div, Ht.
  unfold active_pd, ptov. rewrite stM_bind_eq. erewrite stM_bind_run by reflexivity. rewrite Hcr.
  rewrite assert_true by (apply Z.ltb_lt; unfold PHYS_BASE, PGSIZE in *; lia). cbn [mbind res_bind slift].
  replace (u32 (pd - PHYS_BASE + PHYS_BASE)) with pd by (rewrite u32_small; [lia|unfold in_u32, PHYS_BASE, PGSIZE in *; lia]).
  erewrite stM_bind_run by reflexivity. unfold pte_at.
  pose proof (pd_entry _ _ _ Hpd _ Hi) as He. cbv zeta in He. destruct (pts !! pd_no va) as [pt|] eqn:Hpt; [|by rewrite He].
  destruct He as [He1 He2]. rewrite He1, He2. destruct (pd_pts _ _ _ Hpd _ _ Hpt) as (_ & [Hk2 _ He3 _] & _).
  rewrite assert_true by (apply Z.ltb_lt; unfold PHYS_BASE, PGSIZE in *; lia). erewrite stM_bind_run by reflexivity.
  replace (u32 (pt - PHYS_BASE + PHYS_BASE)) with pt by (rewrite u32_small; [lia|unfold in_u32, PHYS_BASE, PGSIZE in *; lia]).
  erewrite stM_bind_run by reflexivity. rewrite <- Hcr.
  by destruct (Z.land (mem_word (pt + 4 * pt_no va) (mem (pal c))) PTE_P =? 0).
Qed.

Lemma walk_spec c pd pts sp va f :
  as_ok c pd pts sp → 0 ≤ va < PHYS_BASE → sp !! (va / PGSIZE) = Some f →
  ∃ c', walk va c = Ok (entry f, c') ∧ pal c' = pal c ∧ as_ok c' pd pts sp.
Proof.
  intros Hok Hva Hf. destruct (as_frame _ _ _ _ Hok _ _ Hf) as [_ [Hin _]]. destruct (entry_parts _ _ _ _ f Hok Hin) as (_ & Hp & _).
  pose proof (as_pte _ _ _ _ Hok va Hva) as Hpte. rewrite Hf in Hpte. destruct (tlb c !! (va / PGSIZE)) as [e|] eqn:Ht.
  { destruct (as_tlb _ _ _ _ Hok _ _ Ht) as (f' & Hf' & ->). simplify_eq. exists c. split; [|done].
    unfold walk. erewrite stM_bind_run by reflexivity. by rewrite pg_no_div, Ht. }
  rewrite (walk_run c pd pts sp va Hok Hva Ht), Hpte, Hp. eexists. split; [reflexivity|]. split; [done|].
  destruct Hok as [H1 H2 H3 H4 H5 H6 H7]. split; try done.
  - eapply (pd_ok_pal c); [done|exact H1].
  - intros v e. cbn [tlb]. intros [[<- <-]|[_ Hv]]%lookup_insert_Some; [by exists f|by apply H7].
Qed.

(** A page that is not mapped faults. *)
Lemma walk_unmapped c pd pts sp va :
  as_ok c pd pts sp → 0 ≤ va < PHYS_BASE → sp !! (va / PGSIZE) = None → walk va c = Err EFault.
Proof.
  intros Hok Hva Hf. pose proof (as_pte _ _ _ _ Hok va Hva) as Hpte. rewrite Hf in Hpte.
  rewrite (walk_run c pd pts sp va), Hpte; [done|done|done|]. destruct (tlb c !! (va / PGSIZE)) eqn:Ht; [|done].
  destruct (as_tlb _ _ _ _ Hok _ _ Ht) as (f' & Hf' & _). congruence.
Qed.

(** A user address the kernel cannot write. *)
Definition unwritable (sp : space) (va : Z) : Prop := ∀ f, sp !! (va / PGSIZE) = Some f → f.2 = false.

Lemma user_store_faults c pd pts sp va b :
  as_ok c pd pts sp → 0 ≤ va < PHYS_BASE → unwritable sp va → user_store va b c = Err EFault.
Proof.
  intros Hok Hva Hu. unfold user_store, user_addr. destruct (sp !! (va / PGSIZE)) as [f|] eqn:Hf.
  - destruct (as_frame _ _ _ _ Hok _ _ Hf) as [_ [Hin _]]. destruct (entry_parts _ _ _ _ f Hok Hin) as (_ & _ & Hew & _).
    destruct (walk_spec c pd pts sp va f) as (c' & Hr & _); [done..|]. rewrite !stM_bind_eq, Hr. cbn [andb]. by rewrite Hew, (Hu f Hf).
  - rewrite !stM_bind_eq. by rewrite (walk_unmapped c pd pts sp va).
Qed.

Lemma user_addr_spec c pd pts sp va f wr :
  as_ok c pd pts sp → 0 ≤ va < PHYS_BASE → sp !! (va / PGSIZE) = Some f → (wr = true → f.2 = true) →
  ∃ c', user_addr wr va c = Ok (f.1 + va mod PGSIZE, c') ∧ pal c' = pal c ∧ as_ok c' pd pts sp.
Proof.
  intros Hok Hva Hf Hw. destruct (as_frame _ _ _ _ Hok _ _ Hf) as [_ [Hin _]].
  destruct (entry_parts _ _ _ _ f Hok Hin) as (_ & _ & Hew & _ & Hpg).
  destruct (walk_spec c pd pts sp va f) as (c' & Hr & Hp & Hok'); [done..|]. exists c'. split; [|done].
  unfold user_addr. erewrite stM_bind_run by exact Hr. rewrite Hew.
  replace (wr && negb f.2) with false by (destruct wr; [by rewrite Hw|done]).
  erewrite stM_bind_run by (unfold slift; rewrite Hpg; reflexivity). by rewrite pg_ofs_mod.
Qed.

(** A program reads what [ubyte] says. *)
Lemma user_load_spec c pd pts sp va b :
  as_ok c pd pts sp → 0 ≤ va < PHYS_BASE → ubyte c sp va = Some b →
  ∃ c', user_load va c = Ok (b, c') ∧ pal c' = pal c ∧ as_ok c' pd pts sp.
Proof.
  intros Hok Hva Hb. unfold ubyte in Hb. destruct (sp !! (va / PGSIZE)) as [f|] eqn:Hf; [|done]. injection Hb as <-.
  destruct (user_addr_spec c pd pts sp va f false) as (c' & Hr & Hp & Hok'); [done..|]. exists c'.
  split; [|done]. unfold user_load. erewrite stM_bind_run by exact Hr. unfold sread. by rewrite Hp.
Qed.

(** Two user addresses with one place in memory are one address. *)
Lemma frame_addr_inj c pd pts sp va vb f g :
  as_ok c pd pts sp → sp !! (va / PGSIZE) = Some f → sp !! (vb / PGSIZE) = Some g →
  f.1 + va mod PGSIZE = g.1 + vb mod PGSIZE → va = vb.
Proof.
  intros Hok Hf Hg E. destruct (as_frame _ _ _ _ Hok _ _ Hf) as [_ [Hin _]]. destruct (as_frame _ _ _ _ Hok _ _ Hg) as [_ [Hin2 _]].
  destruct (frame_range _ _ _ _ _ Hok Hin) as (_ & Ha & _). destruct (frame_range _ _ _ _ _ Hok Hin2) as (_ & Ha2 & _).
  assert (f.1 = g.1) as E2 by (unfold PGSIZE in *; dlia). pose proof (as_inj _ _ _ _ Hok _ _ _ _ Hf Hg E2).
  unfold PGSIZE in *. dlia.
Qed.

(** The state after writes to memory that a program can see: same pools, same
    address space, memory outside its frames untouched. *)
Record same_space (c c' : mmu) (sp : space) : Prop := {
  ss_kernel : kernel_pool (pal c') = kernel_pool (pal c);
  ss_user : user_pool (pal c') = user_pool (pal c);
  ss_mem x : (∀ v f, sp !! v = Some f → ¬ in_page f.1 x) → mem (pal c') x = mem (pal c) x;
}.

Lemma same_space_refl c sp : same_space c c sp.
Proof. by split. Qed.
Lemma same_space_trans c1 c2 c3 sp : same_space c1 c2 sp → same_space c2 c3 sp → same_space c1 c3 sp.
Proof. intros [H1 H2 H3] [H4 H5 H6]. split; [congruence..|]. intros x Hx. by rewrite H6, H3. Qed.

Lemma user_store_spec c pd pts sp va b f :
  as_ok c pd pts sp → 0 ≤ va < PHYS_BASE → in_u8 b → sp !! (va / PGSIZE) = Some f → f.2 = true →
  ∃ c', user_store va b c = Ok (tt, c') ∧ as_ok c' pd pts sp ∧ same_space c c' sp ∧
    ∀ x, ubyte c' sp x = if decide (x = va) then Some b else ubyte c sp x.
Proof.
  intros Hok Hva Hb Hf Hw. destruct (user_addr_spec c pd pts sp va f true) as (c1 & Hr & Hp & Hok1); [done..|].
  destruct (as_frame _ _ _ _ Hok _ _ Hf) as [_ [Hin _]].
  assert (in_page f.1 (f.1 + va mod PGSIZE)) as Hpg by (pose proof (Z.mod_pos_bound va PGSIZE eq_refl); unfold in_page; lia).
  exists (set_pal (set_mem (set_byte (f.1 + va mod PGSIZE) b) (pal c1)) c1). split; [|split; [|split]].
  - unfold user_store. by erewrite stM_bind_run by exact Hr.
  - pose proof (as_pd _ _ _ _ Hok1) as Hpd. apply as_ok_mem; try done.
    + destruct (pd_pal _ _ _ Hpd). by split.
    + apply set_byte_ok; [done|apply Hpd].
    + intros v g Hg. by apply (as_frame _ _ _ _ Hok1 v).
    + intros x Hx. cbn. unfold set_byte. rewrite decide_False; [done|]. intros ->. apply Hx.
      by eapply (user_outside c pd pts sp f.1).
  - split; cbn; rewrite Hp; try done. intros x Hx. unfold set_byte. rewrite decide_False; [done|]. intros ->.
    by eapply Hx.
  - intros x. unfold ubyte. destruct (sp !! (x / PGSIZE)) as [g|] eqn:Hg.
    + cbn. unfold set_byte. rewrite Hp. destruct (decide (x = va)) as [->|Hne]; [simplify_eq; by rewrite decide_True|].
      rewrite decide_False; [done|]. intros E. apply Hne. by eapply (frame_addr_inj c pd pts sp).
    + rewrite decide_False; [done|]. congruence.
Qed.

Lemma copy_out_spec bs c pd pts sp va :
  as_ok c pd pts sp → 0 ≤ va → va + Z.of_nat (length bs) ≤ PHYS_BASE → Forall in_u8 bs →
  (∀ i, (i < length bs)%nat → ∃ f, sp !! ((va + Z.of_nat i) / PGSIZE) = Some f ∧ f.2 = true) →
  ∃ c', copy_out va bs c = Ok (tt, c') ∧ as_ok c' pd pts sp ∧ same_space c c' sp ∧
    ∀ x, ubyte c' sp x = if decide (va ≤ x < va + Z.of_nat (length bs)) then bs !! Z.to_nat (x - va) else ubyte c sp x.
Proof.
  revert c va. induction bs as [|b bs IH]; intros c va Hok H0 He Hb Hmap.
  { exists c. split; [done|]. split; [done|]. split; [apply same_space_refl|]. intros x. cbn [length]. by rewrite decide_False by lia. }
  cbn [length] in *. apply Forall_cons in Hb as [Hb Hbs].
  destruct (Hmap 0%nat) as (f & Hf & Hw); [lia|]. rewrite Z.add_0_r in Hf.
  destruct (user_store_spec c pd pts sp va b f) as (c1 & Hr & Hok1 & Hs1 & Hub); [done|lia|done..|].
  destruct (IH c1 (va + 1)) as (c2 & Hr2 & Hok2 & Hs2 & Hub2); [done|lia|lia|done| |].
  { intros i Hi. destruct (Hmap (S i)) as (g & Hg & Hgw); [lia|]. exists g. split; [|done].
    by replace (va + 1 + Z.of_nat i) with (va + Z.of_nat (S i)) by lia. }
  exists c2. split; [cbn [copy_out]; by erewrite stM_bind_run by exact Hr|]. split; [done|].
  split; [by eapply same_space_trans|]. intros x. rewrite Hub2, Hub. repeat case_decide; try lia; try done.
  - replace (Z.to_nat (x - va)) with (S (Z.to_nat (x - (va + 1)))) by lia. done.
  - subst x. by rewrite Z.sub_diag.
Qed.

(** ** Growing *)

(** Frames of distinct pages do not overlap. *)
Lemma frame_apart c pd pts sp k f v x :
  as_ok c pd pts sp → in_pool (user_pool (pal c)) k 1 → sp !! v = Some f → f.1 ≠ k → in_page f.1 x → ¬ in_page k x.
Proof.
  intros Hok Hk Hv Hne. destruct (as_frame _ _ _ _ Hok v f Hv) as [_ [Hin _]].
  destruct (frame_range _ _ _ _ _ Hok Hin) as (_ & Ha & _). destruct (frame_range _ _ _ _ _ Hok Hk) as (_ & Ha2 & _).
  by apply pages_apart.
Qed.

(** The address space has grown and keeps what was in it. *)
Definition grows (c : mmu) (sp : space) (c' : mmu) (sp' : space) : Prop :=
  ∀ v f, sp !! v = Some f → sp' !! v = Some f ∧ ∀ x, in_page f.1 x → mem (pal c') x = mem (pal c) x.

Lemma grows_refl c sp : grows c sp c sp.
Proof. by intros v f Hf. Qed.
Lemma grows_trans c1 s1 c2 s2 c3 s3 : grows c1 s1 c2 s2 → grows c2 s2 c3 s3 → grows c1 s1 c3 s3.
Proof.
  intros H12 H23 v f Hf. destruct (H12 v f Hf) as [H2 E2]. destruct (H23 v f H2) as [H3 E3]. split; [done|].
  intros x Hx. by rewrite E3, E2.
Qed.
Lemma grows_ubyte c sp c' sp' va b : grows c sp c' sp' → ubyte c sp va = Some b → ubyte c' sp' va = Some b.
Proof.
  intros Hg. unfold ubyte. destruct (sp !! (va / PGSIZE)) as [f|] eqn:Hf; [|done]. intros [= <-].
  destruct (Hg _ _ Hf) as [-> E]. f_equal. apply E. pose proof (Z.mod_pos_bound va PGSIZE eq_refl). unfold in_page. lia.
Qed.

(** Memory that no frame holds may change. *)
Lemma grows_same c c' pd pts sp k :
  as_ok c pd pts sp → in_pool (user_pool (pal c)) k 1 → (∀ v f, sp !! v = Some f → f.1 ≠ k) →
  (∀ x, ¬ in_page k x → mem (pal c') x = mem (pal c) x) → grows c sp c' sp.
Proof.
  intros Hok Hk Hno Hm v f Hf. split; [done|]. intros x Hx. apply Hm. eapply frame_apart; [done..|by eapply Hno|done].
Qed.

(** ** Pages *)

(** Taking a frame from the user pool. *)
Lemma get_frame_spec c pd pts sp fl :
  as_ok c pd pts sp → flag fl PAL_USER = true → flag fl PAL_ASSERT = false →
  on_pal (palloc_get_page fl) c = Ok (0, c) ∨
  ∃ k c', on_pal (palloc_get_page fl) c = Ok (k, c') ∧ k ≠ 0 ∧ as_ok c' pd pts sp ∧ used_run (user_pool (pal c')) k 1 ∧
    (∀ v f, sp !! v = Some f → f.1 ≠ k) ∧ grows c sp c' sp ∧
    (flag fl PAL_ZERO = true → ∀ x, in_page k x → mem (pal c') x = 0).
Proof.
  intros Hok Hfu Hfa. pose proof (as_pd _ _ _ _ Hok) as Hpd. unfold palloc_get_page, on_pal.
  destruct (palloc_get_multiple_spec fl 1 (pal c) (pd_pal _ _ _ Hpd)) as
    [[? _]|[(_ & _ & Hr)|(_ & k & p' & s' & Hf & _ & Hset & Hr & Hok2 & E)]]; [done|done| |].
  { left. rewrite Hfa in Hr. rewrite Hr. by destruct c. }
  right. rewrite Hfu in *. cbn [get_pool] in *. exists k, (set_pal s' c). rewrite Hr.
  assert (user_pool s' = p' ∧ kernel_pool s' = kernel_pool (pal c)) as [Eu Ek] by (by rewrite E).
  pose proof Hset as (Hb & Hc & _ & _).
  assert (∀ x, ¬ in_page k x → mem s' x = mem (pal c) x) as Hmem.
  { intros x Hx. rewrite E. cbn [set_mem mem set_pool]. destruct (flag fl PAL_ZERO); [|done]. unfold mem_set. rewrite decide_False; [done|].
    unfold in_page in Hx. by rewrite Z.mul_1_r. }
  destruct (frame_range _ _ _ _ _ Hok (proj1 Hf)) as (Hk & _).
  assert (∀ x, flag fl PAL_ZERO = true → in_page k x → mem s' x = 0) as Hz.
  { intros x Hz Hx. rewrite E, Hz. cbn [set_mem mem]. unfold mem_set. by rewrite Z.mul_1_r, decide_True. }
  split; [done|]. split; [unfold PHYS_BASE in Hk; lia|]. split; [|split_and!].
  - apply as_ok_mem; try done.
    + intros x. destruct (decide (in_page k x)) as [Hx|Hx]; [|rewrite Hmem by done; apply Hpd].
      destruct (flag fl PAL_ZERO) eqn:Hz0; [by rewrite Hz by done|]. rewrite E. cbn [set_mem mem]. apply Hpd.
    + rewrite Eu. unfold pool_end. by rewrite Hb, Hc.
    + intros v f Hv. rewrite Eu. eapply used_run_set; [done|by apply (as_frame _ _ _ _ Hok v)|by left].
    + intros x Hx. apply Hmem. intros Hp. apply Hx. eapply user_outside; [done|apply Hf|done].
  - cbn. rewrite Eu. eapply used_run_new; [done|apply Hf].
  - intros v f Hv <-. destruct (as_frame _ _ _ _ Hok v f Hv) as [_ Hu].
    destruct (free_apart _ _ _ _ _ Hf Hu); unfold PGSIZE in *; lia.
  - eapply grows_same; [done|apply Hf| |done]. intros v f Hv <-. destruct (as_frame _ _ _ _ Hok v f Hv) as [_ Hu].
    destruct (free_apart _ _ _ _ _ Hf Hu); unfold PGSIZE in *; lia.
  - intros Hz0 x Hx. by apply Hz.
Qed.

(** Giving back a frame that is not mapped. *)
Lemma free_frame_spec c pd pts sp k :
  as_ok c pd pts sp → used_run (user_pool (pal c)) k 1 → (∀ v f, sp !! v = Some f → f.1 ≠ k) →
  ∃ c', on_pal (palloc_free_page k) c = Ok (tt, c') ∧ as_ok c' pd pts sp ∧ grows c sp c' sp.
Proof.
  intros Hok Hu Hno. pose proof (as_pd _ _ _ _ Hok) as Hpd.
  destruct (palloc_free_multiple_spec true k 1 (pal c) (pd_pal _ _ _ Hpd)) as (p' & Hset & Hr & Hok'); [done|done|].
  cbv zeta in Hr, Hok'. cbn [get_pool] in *. pose proof Hset as (Hb & Hc & _ & _).
  unfold palloc_free_page, on_pal. rewrite Hr. eexists. split; [reflexivity|].
  destruct (frame_range _ _ _ _ _ Hok (proj1 Hu)) as (_ & Hka & _).
  assert (∀ x, ¬ in_page k x → mem_set k 204 (PGSIZE * 1) (mem (pal c)) x = mem (pal c) x) as Hmem.
  { intros x Hx. unfold mem_set. rewrite decide_False; [done|]. unfold in_page in Hx. by rewrite Z.mul_1_r. }
  split; [|by eapply grows_same; [done|apply Hu|done|]].
  - apply as_ok_mem; try done.
    + intros x. cbn. unfold mem_set. case_decide; [done|]. apply Hpd.
    + cbn. unfold pool_end. by rewrite Hb, Hc.
    + intros v f Hv. cbn. eapply used_run_set; [done|by apply (as_frame _ _ _ _ Hok v)|]. right.
      destruct (as_frame _ _ _ _ Hok v f Hv) as [_ [Hin _]]. destruct (frame_range _ _ _ _ _ Hok Hin) as (_ & Ha & _).
      pose proof (Hno v f Hv). unfold PGSIZE in *. dlia.
    + intros x Hx. apply Hmem. intros Hp. apply Hx. eapply user_outside; [done|apply Hu|done].
Qed.

(** Writing to a frame that is not mapped. *)
Lemma write_frame_spec c pd pts sp k g :
  as_ok c pd pts sp → used_run (user_pool (pal c)) k 1 → (∀ v f, sp !! v = Some f → f.1 ≠ k) →
  bytes_ok (g (mem (pal c))) → (∀ x, ¬ in_page k x → g (mem (pal c)) x = mem (pal c) x) →
  let c' := set_pal (set_mem g (pal c)) c in
  on_pal (smod (set_mem g)) c = Ok (tt, c') ∧ as_ok c' pd pts sp ∧ grows c sp c' sp.
Proof.
  intros Hok Hu Hno Hb Hg c'. split; [done|]. split; [|by eapply grows_same; [done|apply Hu|done|]].
  apply as_ok_mem; try done.
  - destruct (pd_pal _ _ _ (as_pd _ _ _ _ Hok)). by split.
  - intros v f Hv. by apply (as_frame _ _ _ _ Hok v).
  - intros x Hx. apply Hg. intros Hp. apply Hx. eapply user_outside; [done|apply Hu|done].
Qed.

(** The invariant says which pages are mapped. *)
Lemma as_get_page c pd pts sp va :
  as_ok c pd pts sp → 0 ≤ va < PHYS_BASE →
  ∃ r, pagedir_get_page pd va c = Ok (r, c) ∧ (r = 0 ↔ sp !! (va / PGSIZE) = None) ∧
    ∀ f, sp !! (va / PGSIZE) = Some f → r = f.1 + va mod PGSIZE.
Proof.
  intros Hok Hva. exists (translate c pts va). split; [by apply pagedir_get_page_run, Hva; apply Hok|].
  pose proof (as_pte _ _ _ _ Hok va Hva) as Hpte. rewrite translate_0. destruct (sp !! (va / PGSIZE)) as [f|] eqn:Hf; [|done].
  destruct (as_frame _ _ _ _ Hok _ _ Hf) as [_ [Hin _]]. destruct (entry_parts _ _ _ _ f Hok Hin) as (Ha & Hp & _).
  split.
  - rewrite Hpte. apply Z.eqb_neq in Hp. split; [done|by intros ?].
  - intros g [= <-]. unfold translate. rewrite Hpte, Hp, Ha, pg_ofs_mod. lia.
Qed.

Lemma install_page_spec c pd pts sp upage k w :
  as_ok c pd pts sp → pd ≠ init_page_dir → 0 ≤ upage < PHYS_BASE → upage mod PGSIZE = 0 →
  used_run (user_pool (pal c)) k 1 → (∀ v f, sp !! v = Some f → f.1 ≠ k) →
  install_page init_page_dir init_ram_pages pd upage k w c = Ok (false, c) ∨
  ∃ c' pts', install_page init_page_dir init_ram_pages pd upage k w c = Ok (true, c') ∧ sp !! (upage / PGSIZE) = None ∧
    as_ok c' pd pts' (<[upage / PGSIZE := (k, w)]> sp) ∧ user_pool (pal c') = user_pool (pal c) ∧
    (∀ x, in_pool (user_pool (pal c)) (x - x mod PGSIZE) 1 → mem (pal c') x = mem (pal c) x).
Proof.
  intros Hok Hpd Hu Hua Hused Hno. destruct (as_get_page c pd pts sp upage Hok Hu) as (r & Hr & Hr0 & _).
  unfold install_page. erewrite stM_bind_run by exact Hr. destruct (Z.eqb_spec r 0) as [->|]; [|by left].
  assert (sp !! (upage / PGSIZE) = None) as Hnone by by apply Hr0.
  pose proof (as_pte _ _ _ _ Hok upage Hu) as Hpte. rewrite Hnone in Hpte.
  destruct (frame_range _ _ _ _ _ Hok (proj1 Hused)) as (Hk & Hka & Hke & _ & Hram).
  destruct (pagedir_set_page_spec init_page_dir init_ram_pages c pd pts upage k w)
    as [[Hs _]|(c' & pts' & Hs & Hok' & Hc & Ht & Hup & Hkb & Hku & Hp' & Hout)]; try done; [by apply Hok|by left|right].
  exists c', pts'. split; [done|]. split; [done|]. split; [|split; [done|]].
  - split; [done|rewrite Hc; by apply Hok|rewrite Hup; by apply Hok|..].
    + intros va Hva. rewrite Hp' by done. destruct (decide (va / PGSIZE = upage / PGSIZE)) as [->|Hne].
      * by rewrite lookup_insert_eq.
      * rewrite lookup_insert_ne by done. by apply Hok.
    + intros v f [[<- <-]|[_ Hf]]%lookup_insert_Some; rewrite Hup; [|by apply Hok].
      split; [unfold PHYS_BASE, PGSIZE in *; dlia|done].
    + intros v v' f f' [[<- <-]|[Hv Hf]]%lookup_insert_Some [[<- <-]|[Hv' Hf']]%lookup_insert_Some E; [done|..|by eapply (as_inj _ _ _ _ Hok)].
      * by destruct (Hno _ _ Hf').
      * by destruct (Hno _ _ Hf).
    + intros v e. rewrite Ht. intros Hv. destruct (as_tlb _ _ _ _ Hok v e Hv) as (f & Hf & ->).
      exists f. rewrite lookup_insert_ne; [done|]. congruence.
  - intros x Hx. apply Hout. rewrite <- Hup in Hx.
    assert (pool_end (kernel_pool (pal c')) ≤ x - x mod PGSIZE) as Hkx.
    { destruct Hx as (i & Hi & Hin & E). pose proof (pa_disj _ (pd_pal _ _ _ Hok')). unfold PGSIZE in *. lia. }
    assert (∀ a, table_page (kernel_pool (pal c')) a → ¬ in_page a x) as Ho.
    { intros a [_ _ _ [(i & Hi & Hin & ->) _]]. unfold in_page, pool_end, PGSIZE in *. dlia. }
    split; [apply Ho, Hok'|]. intros i pt Hpt. apply Ho. by apply (pd_pts _ _ _ Hok' i).
Qed.

(** What a program sees depends on its frames only. *)
Lemma ubyte_ext c c' sp va :
  (∀ f, sp !! (va / PGSIZE) = Some f → ∀ x, in_page f.1 x → mem (pal c') x = mem (pal c) x) →
  ubyte c' sp va = ubyte c sp va.
Proof.
  intros H. unfold ubyte. destruct (sp !! (va / PGSIZE)) as [f|]; [|done]. f_equal. apply (H f); [done|].
  pose proof (Z.mod_pos_bound va PGSIZE eq_refl). unfold in_page. lia.
Qed.

(** The page that [install_page] maps shows the frame's bytes. *)
Lemma install_grows c pd pts sp upage k w :
  as_ok c pd pts sp → pd ≠ init_page_dir → 0 ≤ upage < PHYS_BASE → upage mod PGSIZE = 0 →
  used_run (user_pool (pal c)) k 1 → (∀ v f, sp !! v = Some f → f.1 ≠ k) →
  install_page init_page_dir init_ram_pages pd upage k w c = Ok (false, c) ∨
  ∃ c' pts', install_page init_page_dir init_ram_pages pd upage k w c = Ok (true, c') ∧
    let sp' := <[upage / PGSIZE := (k, w)]> sp in
    sp !! (upage / PGSIZE) = None ∧ as_ok c' pd pts' sp' ∧ grows c sp c' sp' ∧
    ∀ o, 0 ≤ o < PGSIZE → ubyte c' sp' (upage + o) = Some (mem (pal c) (k + o)).
Proof.
  intros Hok Hpd Hu Hua Hused Hno. destruct (install_page_spec c pd pts sp upage k w)
    as [?|(c' & pts' & Hr & Hnone & Hok' & Hup & Hm)]; [done..|by left|right]. exists c', pts'. split; [done|].
  assert (∀ f x, in_pool (user_pool (pal c)) f 1 → in_page f x → mem (pal c') x = mem (pal c) x) as Hm2.
  { intros f x Hin Hx. apply Hm. destruct (frame_range _ _ _ _ _ Hok Hin) as (_ & Ha & _).
    replace (x - x mod PGSIZE) with f; [done|]. unfold in_page, PGSIZE in *. dlia. }
  split; [done|]. split; [done|]. split.
  - intros v f Hf. rewrite lookup_insert_ne by congruence. split; [done|]. intros x Hx.
    eapply Hm2; [by apply (as_frame _ _ _ _ Hok v f)|done].
  - intros o Ho. unfold ubyte. replace ((upage + o) / PGSIZE) with (upage / PGSIZE) by (unfold PGSIZE in *; dlia).
    rewrite lookup_insert_eq. cbn [fst]. f_equal. replace ((upage + o) mod PGSIZE) with o by (unfold PGSIZE in *; dlia).
    eapply Hm2; [apply Hused|unfold in_page; lia].
Qed.

End space.
