(* ===== verification/StackSpec.v ===== *)
(** * The arguments of a new process

    [setup_stack] of userprog/process.c leaves on the stack page what the C
    calling convention asks of [main (argc, argv)]: a return address, the
    count, the pointer to the vector, the vector with a null pointer at its
    end, and the strings. *)

From S2P Require Import Prelude Bitmap Palloc Pagedir PagedirSpec CString Process UserMemory.
Import Bitmap Palloc Pagedir Process.

(** The lowest address of the stack page. *)
Definition STACK : Z := PHYS_BASE - PGSIZE.

(** What a program finds at an address. *)
Definition ubytes (c : mmu) (sp : space) (a : Z) (bs : list Z) : Prop :=
  ∀ i b, bs !! i = Some b → ubyte c sp (a + Z.of_nat i) = Some b.
Definition uword (c : mmu) (sp : space) (a w : Z) : Prop := ubytes c sp a (le_bytes 4 w).

Record args_at (c : mmu) (sp : space) (esp : Z) (args : list (list Z)) : Prop := {
  aa_align : esp mod 4 = 0;
  aa_range : STACK ≤ esp < PHYS_BASE;
  aa_ret : uword c sp esp 0;
  aa_argc : uword c sp (esp + 4) (Z.of_nat (length args));
  aa_argv : uword c sp (esp + 8) (esp + 12);
  aa_null : uword c sp (esp + 12 + 4 * Z.of_nat (length args)) 0;
  aa_arg i s : args !! i = Some s → ∃ p, esp ≤ p < PHYS_BASE ∧
    uword c sp (esp + 12 + 4 * Z.of_nat i) p ∧ ubytes c sp p (s ++ [0]);
}.

(** Room for the strings, the vector, three words and the alignment. *)
Definition args_size (args : list (list Z)) : Z := foldr (λ s n, Z.of_nat (length s) + 1 + n) 0 args.
Definition fits (args : list (list Z)) : Prop := args_size args + 3 + 4 * (Z.of_nat (length args) + 4) ≤ PGSIZE.

Lemma args_size_nonneg args : 0 ≤ args_size args.
Proof. induction args; simpl; lia. Qed.
Lemma args_size_app a b : args_size (a ++ b) = args_size a + args_size b.
Proof. induction a; simpl; lia. Qed.
Lemma args_size_reverse a : args_size (reverse a) = args_size a.
Proof. induction a; [done|]. rewrite reverse_cons, args_size_app, IHa. simpl. lia. Qed.

Section stack.
Context (init_ram_pages : Z).
Context (pd : Z) (pts : gmap Z Z) (sp : space).
Context (k : Z) (Hstack : sp !! (STACK / PGSIZE) = Some (k, true)).

(** Everything but the stack below [esp] is as before. *)
Record pushed (esp : Z) (c c' : mmu) : Prop := {
  pu_ok : as_ok init_ram_pages c' pd pts sp;
  pu_same : same_space c c' sp;
  pu_keep x : x < STACK ∨ esp ≤ x → ubyte c' sp x = ubyte c sp x;
}.

Lemma pushed_trans e1 e2 c1 c2 c3 : e2 ≤ e1 → pushed e1 c1 c2 → pushed e2 c2 c3 → pushed e1 c1 c3.
Proof.
  intros He [H1 H2 H3] [H4 H5 H6]. split; [done|by eapply same_space_trans|].
  intros x Hx. rewrite H6 by lia. by apply H3.
Qed.

Lemma ubytes_kept esp c c' a bs : pushed esp c c' → esp ≤ a → ubytes c sp a bs → ubytes c' sp a bs.
Proof. intros Hp Ha Hb i b Hi. rewrite (pu_keep _ _ _ Hp) by lia. by apply Hb. Qed.

Lemma stack_page x : STACK ≤ x < PHYS_BASE → sp !! (x / PGSIZE) = Some (k, true).
Proof. intros Hx. rewrite <- Hstack. f_equal. unfold STACK, PHYS_BASE, PGSIZE in *. dlia. Qed.

Lemma copy_spec c esp bs :
  as_ok init_ram_pages c pd pts sp → esp ≤ PHYS_BASE → STACK ≤ esp - Z.of_nat (length bs) → Forall in_u8 bs →
  ∃ c', copy_out (u32 (esp - Z.of_nat (length bs))) bs c = Ok (tt, c') ∧ pushed esp c c' ∧
    ubytes c' sp (esp - Z.of_nat (length bs)) bs.
Proof.
  intros Hok He Hl Hb. rewrite u32_small by (unfold in_u32, STACK, PHYS_BASE, PGSIZE in *; lia).
  set (a := esp - Z.of_nat (length bs)) in *.
  destruct (copy_out_spec init_ram_pages bs c pd pts sp a) as (c' & Hr & Hok' & Hs & Hu); [done| |lia|done| |].
  { unfold STACK, PHYS_BASE, PGSIZE in Hl. lia. }
  { intros i Hi. exists (k, true). split; [apply stack_page; lia|done]. }
  exists c'. split; [done|]. split; [split; [done|done|]|].
  - intros x Hx. rewrite Hu, decide_False by lia. done.
  - intros i b Hi. pose proof (lookup_lt_Some _ _ _ Hi). rewrite Hu, decide_True by lia.
    by replace (Z.to_nat (a + Z.of_nat i - a)) with i by lia.
Qed.

Lemma push_word_spec c esp w :
  as_ok init_ram_pages c pd pts sp → esp ≤ PHYS_BASE → STACK ≤ esp - 4 →
  ∃ c', push_word esp w c = Ok (esp - 4, c') ∧ pushed esp c c' ∧ uword c' sp (esp - 4) w.
Proof.
  intros Hok He Hl. destruct (copy_spec c esp (le_bytes 4 w) Hok He) as (c' & Hr & Hp & Hb);
    rewrite ?length_le_bytes in *; [done|apply le_bytes_u8|].
  exists c'. split; [|done]. unfold push_word. erewrite stM_bind_run by exact Hr.
  by rewrite u32_small by (unfold in_u32, STACK, PHYS_BASE, PGSIZE in *; lia).
Qed.

Lemma push_words_spec ws c esp :
  as_ok init_ram_pages c pd pts sp → esp ≤ PHYS_BASE → STACK ≤ esp - 4 * Z.of_nat (length ws) →
  ∃ c', push_words esp ws c = Ok (esp - 4 * Z.of_nat (length ws), c') ∧ pushed esp c c' ∧
    ∀ i w, ws !! i = Some w → uword c' sp (esp - 4 * (Z.of_nat i + 1)) w.
Proof.
  revert c esp. induction ws as [|w ws IH]; intros c esp Hok He Hl; cbn [length push_words] in *.
  { exists c. rewrite Z.mul_0_r, Z.sub_0_r. split; [done|]. split; [|done]. split; [done|apply same_space_refl|done]. }
  destruct (push_word_spec c esp w) as (c1 & Hr1 & Hp1 & Hw1); [done|done|lia|].
  destruct (IH c1 (esp - 4)) as (c2 & Hr2 & Hp2 & Hw2); [apply Hp1|lia|lia|].
  exists c2. erewrite stM_bind_run by exact Hr1. rewrite Hr2. split; [do 2 f_equal; lia|].
  split; [eapply pushed_trans; [|done|done]; lia|]. intros [|i] v Hv; cbn in Hv.
  - injection Hv as ->. replace (esp - 4 * (Z.of_nat 0 + 1)) with (esp - 4) by lia.
    eapply ubytes_kept; [exact Hp2|lia|done].
  - replace (esp - 4 * (Z.of_nat (S i) + 1)) with (esp - 4 - 4 * (Z.of_nat i + 1)) by lia. by apply Hw2.
Qed.

(** A string the program finds at [p], at or above [esp]. *)
Definition ustr (c : mmu) (esp p : Z) (s : list Z) : Prop := esp ≤ p < PHYS_BASE ∧ ubytes c sp p (s ++ [0]).

Lemma ustr_kept e e' c c' ps ss : e' ≤ e → pushed e c c' → Forall2 (ustr c e) ps ss → Forall2 (ustr c' e') ps ss.
Proof.
  intros He Hp Hs. eapply Forall2_impl; [exact Hs|]. intros p s [Hr Hb]. split; [lia|]. eapply ubytes_kept; [done|lia|done].
Qed.

Lemma push_strings_spec rargs c esp argv done_args :
  as_ok init_ram_pages c pd pts sp → esp ≤ PHYS_BASE → STACK ≤ esp - args_size rargs → Forall (Forall in_u8) rargs →
  Forall2 (ustr c esp) argv done_args →
  ∃ c' argv', push_strings esp rargs argv c = Ok ((esp - args_size rargs, argv'), c') ∧ pushed esp c c' ∧
    Forall2 (ustr c' (esp - args_size rargs)) argv' (reverse rargs ++ done_args).
Proof.
  revert c esp argv done_args. induction rargs as [|s rargs IH]; intros c esp argv dn Hok He Hl Hb Hd; cbn [push_strings args_size foldr] in *.
  { exists c, argv. rewrite Z.sub_0_r. split; [done|]. split; [|done]. split; [done|apply same_space_refl|done]. }
  apply Forall_cons in Hb as [Hb Hbs]. change (foldr _ 0 rargs) with (args_size rargs) in *. pose proof (args_size_nonneg rargs).
  destruct (copy_spec c esp (s ++ [0])) as (c1 & Hr1 & Hp1 & Hu1); rewrite ?length_app in *; cbn [length] in *; [done|done|lia| |].
  { apply Forall_app. split; [done|]. by repeat constructor. }
  replace (Z.of_nat (length s + 1)) with (Z.of_nat (length s) + 1) in * by lia. erewrite stM_bind_run by exact Hr1.
  rewrite u32_small by (unfold in_u32, STACK, PHYS_BASE, PGSIZE in *; lia). set (e1 := esp - (Z.of_nat (length s) + 1)) in *.
  destruct (IH c1 e1 (e1 :: argv) (s :: dn)) as (c2 & argv' & Hr2 & Hp2 & Hf2); [apply Hp1|lia|lia|done| |].
  { constructor; [split; [lia|done]|]. eapply ustr_kept; [|done|done]. lia. }
  exists c2, argv'. rewrite Hr2. split; [do 3 f_equal; lia|]. split; [eapply pushed_trans; [|done|done]; lia|].
  rewrite reverse_cons, <- app_assoc. cbn [app]. eapply Forall2_impl; [exact Hf2|]. intros p t [Hr Ht]. split; [lia|done].
Qed.

(** The stack below the strings. *)
Lemma push_vector_spec c e argv args :
  as_ok init_ram_pages c pd pts sp → STACK ≤ e - 4 * (Z.of_nat (length args) + 4) → e ≤ PHYS_BASE → e mod 4 = 0 →
  Forall2 (ustr c e) argv args →
  ∃ c' esp, (esp ← push_word e 0; esp ← push_words esp (reverse argv); esp' ← push_word esp esp;
             esp ← push_word esp' (Z.of_nat (length args)); push_word esp 0) c = Ok (esp, c') ∧
    pushed e c c' ∧ args_at c' sp esp args.
Proof.
  intros Hok Hl He Hal Hs. pose proof (Forall2_length _ _ _ Hs) as Hlen. set (n := Z.of_nat (length args)) in *.
  destruct (push_word_spec c e 0) as (c1 & Hr1 & Hp1 & Hw1); [done|done|lia|].
  destruct (push_words_spec (reverse argv) c1 (e - 4)) as (c2 & Hr2 & Hp2 & Hw2);
    [apply Hp1|lia|rewrite length_reverse, Hlen; lia|].
  rewrite length_reverse, Hlen in Hr2. fold n in Hr2. set (v := e - 4 - 4 * n) in *.
  destruct (push_word_spec c2 v v) as (c3 & Hr3 & Hp3 & Hw3); [apply Hp2|lia|lia|].
  destruct (push_word_spec c3 (v - 4) n) as (c4 & Hr4 & Hp4 & Hw4); [apply Hp3|lia|lia|].
  destruct (push_word_spec c4 (v - 4 - 4) 0) as (c5 & Hr5 & Hp5 & Hw5); [apply Hp4|lia|lia|].
  assert (pushed (v - 4) c3 c5) as H35 by (eapply pushed_trans; [|done|done]; lia).
  assert (pushed v c2 c5) as H25 by (eapply pushed_trans; [|done|done]; lia).
  assert (pushed (e - 4) c1 c5) as H15 by (eapply pushed_trans; [|done|done]; lia).
  assert (pushed e c c5) as H05 by (eapply pushed_trans; [|done|done]; lia).
  exists c5, (v - 4 - 4 - 4). split.
  { erewrite stM_bind_run by exact Hr1. erewrite stM_bind_run by exact Hr2. erewrite stM_bind_run by exact Hr3.
    by erewrite stM_bind_run by exact Hr4. }
  split; [done|]. split; fold n.
  - unfold v. dlia.
  - lia.
  - done.
  - replace (v - 4 - 4 - 4 + 4) with (v - 4 - 4) by lia. eapply ubytes_kept; [exact Hp5|lia|done].
  - replace (v - 4 - 4 - 4 + 8) with (v - 4) by lia. replace (v - 4 - 4 - 4 + 12) with v by lia.
    eapply ubytes_kept; [exact H35|lia|done].
  - replace (v - 4 - 4 - 4 + 12 + 4 * n) with (e - 4) by lia. eapply ubytes_kept; [exact H15|lia|done].
  - intros i s Hi. destruct (Forall2_lookup_r _ _ _ _ _ Hs Hi) as (p & Hp & [Hpr Hpb]). exists p. split; [lia|]. split.
    + pose proof (lookup_lt_Some _ _ _ Hp) as Hlt.
      replace (v - 4 - 4 - 4 + 12 + 4 * Z.of_nat i) with (e - 4 - 4 * (Z.of_nat (length argv - S i) + 1)) by lia.
      eapply ubytes_kept; [exact H25|lia|]. apply Hw2. rewrite reverse_lookup by lia. by replace (length argv - S (length argv - S i))%nat with i by lia.
    + eapply ubytes_kept; [exact H05|lia|done].
Qed.

(** Pages other than the stack's keep their bytes. *)
Lemma pushed_grows e c c' sp0 :
  pushed e c c' → sp0 !! (STACK / PGSIZE) = None → (∀ v f, sp0 !! v = Some f → sp !! v = Some f) → grows c sp0 c' sp.
Proof.
  intros Hp Hnone Hsub v f Hf. pose proof (Hsub v f Hf) as Hf2. split; [done|]. intros x Hx.
  destruct (as_frame _ _ _ _ _ (pu_ok _ _ _ Hp) v f Hf2) as [Hv _].
  assert (v ≠ STACK / PGSIZE) as Hne by congruence. unfold in_page in Hx.
  pose proof (pu_keep _ _ _ Hp (v * PGSIZE + (x - f.1))) as Hk. unfold ubyte in Hk.
  replace ((v * PGSIZE + (x - f.1)) / PGSIZE) with v in Hk by (unfold PGSIZE in *; dlia).
  replace ((v * PGSIZE + (x - f.1)) mod PGSIZE) with (x - f.1) in Hk by (unfold PGSIZE in *; dlia).
  rewrite Hf2 in Hk. replace (f.1 + (x - f.1)) with x in Hk by lia. injection Hk; [done|]. left.
  unfold STACK, PHYS_BASE, PGSIZE in *. change ((3221225472 - 4096) / 4096) with 786431 in Hne.
  change (3221225472 / 4096) with 786432 in Hv. lia.
Qed.
End stack.

(** A page mapped for the stack, with the arguments on it, or none. *)
Lemma setup_stack_spec init_page_dir init_ram_pages malloc c pd pts sp args :
  as_ok init_ram_pages c pd pts sp → pd ≠ init_page_dir → fits args → Forall (Forall in_u8) args →
  malloc ((Z.of_nat (length args) + 1) * 4) ≠ 0 →
  ∃ ok esp c' pts' sp', setup_stack init_page_dir init_ram_pages malloc pd args c = Ok ((ok, esp), c') ∧
    as_ok init_ram_pages c' pd pts' sp' ∧ grows c sp c' sp' ∧
    (ok = false → sp' = sp) ∧
    (ok = true → args_at c' sp' esp args ∧ ∃ k, sp' = <[STACK / PGSIZE := (k, true)]> sp).
Proof.
  intros Hok Hpd Hfit Hu8 Hmal. unfold setup_stack.
  destruct (get_frame_spec init_ram_pages c pd pts sp (Z.lor PAL_USER PAL_ZERO))
    as [Hr|(k & c1 & Hr & Hk0 & Hok1 & Hused & Hno & Hg1 & _)]; [done|done|done|..];
    erewrite stM_bind_run by exact Hr.
  { exists false, 0, c, pts, sp. split; [done|]. split; [done|]. split; [apply grows_refl|]. by split. }
  rewrite (proj2 (Z.eqb_neq k 0)) by done.
  destruct (install_grows init_page_dir init_ram_pages c1 pd pts sp (PHYS_BASE - PGSIZE) k true)
    as [Hi|(c2 & pts2 & Hi & Hnone & Hok2 & Hg2 & _)]; [done|done|done|done|done|done|..];
    erewrite stM_bind_run by exact Hi; cbn [negb].
  { destruct (free_frame_spec init_ram_pages c1 pd pts sp k) as (c3 & Hf & Hok3 & Hg3); [done..|].
    exists false, 0, c3, pts, sp. erewrite stM_bind_run by exact Hf. split; [done|]. split; [done|].
    split; [by eapply grows_trans|]. by split. }
  cbv zeta in *. change ((PHYS_BASE - PGSIZE) / PGSIZE) with (STACK / PGSIZE) in *. set (sp2 := <[STACK / PGSIZE := (k, true)]> sp) in *.
  assert (sp2 !! (STACK / PGSIZE) = Some (k, true)) as Hst by apply lookup_insert_eq.
  rewrite (proj2 (Z.eqb_neq (malloc _) 0)) by done. unfold fits in Hfit. pose proof (args_size_nonneg args).
  destruct (push_strings_spec init_ram_pages pd pts2 sp2 k Hst (reverse args) c2 PHYS_BASE [] []) as (c3 & argv & Hr3 & Hp3 & Hs3);
    rewrite ?args_size_reverse, ?reverse_involutive, ?app_nil_r in *; [done|done|unfold STACK; lia|by apply Forall_reverse|done|].
  erewrite stM_bind_run by exact Hr3. cbn beta iota zeta. set (e := PHYS_BASE - args_size args) in *.
  replace (u32 (e - e mod 4)) with (e - e mod 4) by (rewrite u32_small; unfold in_u32, e, PHYS_BASE, PGSIZE in *; dlia).
  destruct (push_vector_spec init_ram_pages pd pts2 sp2 k Hst c3 (e - e mod 4) argv args) as (c4 & esp & Hr4 & Hp4 & Ha).
  { apply Hp3. }
  { unfold STACK, e in *. dlia. }
  { unfold e. dlia. }
  { dlia. }
  { eapply Forall2_impl; [exact Hs3|]. intros p s [? ?]. split; [dlia|done]. }
  exists true, esp, c4, pts2, sp2. split_and!.
  - do 4 (apply stM_bind_inv in Hr4 as (? & ? & ?H & Hr4); erewrite stM_bind_run by eassumption).
    by erewrite stM_bind_run by exact Hr4.
  - apply Hp4.
  - eapply grows_trans; [exact Hg1|]. intros v f Hf. destruct (Hg2 v f Hf) as [Hf2 E2]. split; [done|]. intros x Hx.
    rewrite <- E2 by done. eapply (pushed_grows init_ram_pages pd pts2 sp2 _ c2 c4 sp); [|done| |exact Hf|done].
    + eapply pushed_trans; [|exact Hp3|exact Hp4]. unfold e. dlia.
    + intros v' f' Hf'. by apply (Hg2 v' f').
  - done.
  - intros _. split; [done|by exists k].
Qed.
