(* ===== verification/LoadSpec.v ===== *)
(** * Loading an executable

    Whatever bytes the file holds, [load] of userprog/process.c returns: it
    refuses the file, or builds an address space with every loadable segment
    in place and the arguments on the stack.  The file system enters through
    the laws [FilesLaws]. *)

From S2P Require Import Prelude Bitmap Palloc Pagedir PagedirSpec CString Process UserMemory StackSpec.
Import Bitmap Palloc Pagedir Process.

(** A file open for reading: its bytes and the position in it. *)
Class FilesLaws (F : Type) `{Files F} := {
  is_file : F → Z → list Z → Z → Prop;
  is_file_bytes f h bs pos : is_file f h bs pos → Forall in_u8 bs ∧ Z.of_nat (length bs) < W31 ∧ 0 ≤ pos ≤ Z.of_nat (length bs);
  file_read_law f h bs pos n : is_file f h bs pos → 0 ≤ n ≤ PGSIZE →
    let r := slice (Z.to_nat pos) (Z.to_nat n) bs in
    ∃ f', file_read h n f = Ok ((Z.of_nat (length r), r), f') ∧ is_file f' h bs (pos + Z.of_nat (length r));
  file_length_law f h bs pos : is_file f h bs pos → file_length h f = Ok (Z.of_nat (length bs), f);
  file_seek_law f h bs pos ofs : is_file f h bs pos → 0 ≤ ofs ≤ Z.of_nat (length bs) →
    ∃ f', file_seek h ofs f = Ok (tt, f') ∧ is_file f' h bs ofs;
  file_close_law f h bs pos : is_file f h bs pos → ∃ f', file_close (Some h) f = Ok (tt, f');
}.

Section load.
Context {F : Type} `{FilesLaws F}.
Context (init_page_dir init_ram_pages : Z) (malloc : Z → Z).

Lemma on_cpu_run {A} (m : stM mmu A) (s : machine F) a c :
  m (cpu s) = Ok (a, c) → on_cpu m s = Ok (a, mk_machine c (fsys s)).
Proof. intros E. unfold on_cpu. by rewrite E. Qed.
Lemma on_fs_run {A} (m : stM F A) (s : machine F) a f :
  m (fsys s) = Ok (a, f) → on_fs m s = Ok (a, mk_machine (cpu s) f).
Proof. intros E. unfold on_fs. by rewrite E. Qed.

Section file.
Context (pd file : Z) (bs : list Z) (Hpd : pd ≠ init_page_dir).

(** A process under construction, with the executable open. *)
Record loading (s : machine F) (pts : gmap Z Z) (sp : space) (pos : Z) : Prop := {
  ld_as : as_ok init_ram_pages (cpu s) pd pts sp;
  ld_file : is_file (fsys s) file bs pos;
}.

(** What the bytes of a loaded page are: [rb] of the file, then zeroes. *)
Definition seg_byte (pos rb o : Z) : Z := if o <? rb then default 0 (bs !! Z.to_nat (pos + o)) else 0.

(** One page of a segment in a frame that is not mapped yet. *)
Lemma fill_page_spec s pts sp pos k rb :
  loading s pts sp pos → used_run (user_pool (pal (cpu s))) k 1 → (∀ v f, sp !! v = Some f → f.1 ≠ k) → 0 ≤ rb ≤ PGSIZE →
  ∃ n b s1 pos', on_fs (file_read file rb) s = Ok ((n, b), s1) ∧ cpu s1 = cpu s ∧
    let c1 := set_pal (set_mem (mem_write k b) (pal (cpu s))) (cpu s) in
    on_cpu (on_pal (smod (set_mem (mem_write k b)))) s1 = Ok (tt, mk_machine c1 (fsys s1)) ∧
    loading (mk_machine c1 (fsys s1)) pts sp pos' ∧ grows (cpu s) sp c1 sp ∧ 0 ≤ n ≤ rb ∧
    (n = rb → pos' = pos + rb ∧ pos + rb ≤ Z.of_nat (length bs) ∧
      let c2 := set_pal (set_mem (mem_set (k + rb) 0 (PGSIZE - rb)) (pal c1)) c1 in
      on_cpu (on_pal (smod (set_mem (mem_set (k + rb) 0 (PGSIZE - rb))))) (mk_machine c1 (fsys s1)) = Ok (tt, mk_machine c2 (fsys s1)) ∧
      loading (mk_machine c2 (fsys s1)) pts sp pos' ∧ grows (cpu s) sp c2 sp ∧
      ∀ o, 0 ≤ o < PGSIZE → mem (pal c2) (k + o) = seg_byte pos rb o).
Proof.
  intros [Has Hf] Hu Hno Hrb. destruct (is_file_bytes _ _ _ _ Hf) as (Hu8 & Hlen & Hpos).
  destruct (file_read_law _ _ _ _ rb Hf) as (f' & Hr & Hf'); [done|]. cbv zeta in *.
  set (r := slice (Z.to_nat pos) (Z.to_nat rb) bs) in *.
  assert (Z.of_nat (length r) = Z.min rb (Z.of_nat (length bs) - pos)) as Hlr by (unfold r, slice; rewrite length_take, length_drop; lia).
  assert (Forall in_u8 r) as Hr8 by by apply Forall_slice.
  eexists _, r, _, _. split; [by apply on_fs_run|]. split; [done|]. cbv zeta.
  destruct (write_frame_spec init_ram_pages (cpu s) pd pts sp k (mem_write k r)) as (Hw & Has1 & Hg1); [done..| | |].
  { intros x. unfold mem_write. case_decide as Hx; [|apply (pd_bytes _ _ _ (as_pd _ _ _ _ _ Has))].
    destruct (r !! Z.to_nat (x - k)) as [b|] eqn:E; [|done]. eapply Forall_lookup_1 in Hr8; done. }
  { intros x Hx. unfold mem_write. rewrite decide_False; [done|]. unfold in_page, PGSIZE in *. lia. }
  cbv zeta in *. set (c1 := set_pal (set_mem (mem_write k r) (pal (cpu s))) (cpu s)) in *.
  split; [by apply on_cpu_run|]. split; [by split|]. split; [done|]. split; [lia|]. intros En.
  split; [lia|]. split; [lia|].
  destruct (write_frame_spec init_ram_pages c1 pd pts sp k (mem_set (k + rb) 0 (PGSIZE - rb))) as (Hw2 & Has2 & Hg2); [done..| | |].
  { intros x. unfold mem_set. case_decide as Hx; [done|]. apply (pd_bytes _ _ _ (as_pd _ _ _ _ _ Has1)). }
  { intros x Hx. unfold mem_set. rewrite decide_False; [done|]. unfold in_page in *. lia. }
  cbv zeta in *. split; [exact (on_cpu_run _ (mk_machine c1 f') _ _ Hw2)|]. split; [by split|]. split; [by eapply grows_trans|].
  intros o Ho. cbn. unfold mem_set, seg_byte. destruct (Z.ltb_spec o rb); [rewrite decide_False by lia|by rewrite decide_True by lia].
  unfold mem_write. rewrite decide_True by lia. replace (Z.to_nat (k + o - k)) with (Z.to_nat o) by lia. f_equal.
  unfold r. rewrite lookup_slice by lia. f_equal. lia.
Qed.

(** Pages mapped between two addresses only. *)
Definition only_new (sp sp' : space) (a b : Z) : Prop :=
  ∀ v, is_Some (sp' !! v) → is_Some (sp !! v) ∨ a / PGSIZE ≤ v < b / PGSIZE.

(** The segment's pages, with their bytes and their protection. *)
Definition seg_image (c : mmu) (sp : space) (upage pos rb n : Z) (w : bool) : Prop :=
  ∀ o, 0 ≤ o < n → (∃ f, sp !! ((upage + o) / PGSIZE) = Some f ∧ f.2 = w) ∧
    ubyte c sp (upage + o) = Some (seg_byte pos rb o).

Lemma seg_image_grows c sp c' sp' upage pos rb n w :
  grows c sp c' sp' → seg_image c sp upage pos rb n w → seg_image c' sp' upage pos rb n w.
Proof.
  intros Hg Hi o Ho. destruct (Hi o Ho) as [(f & Hf & Hw) Hb]. split; [|by eapply grows_ubyte].
  exists f. split; [|done]. by apply (Hg _ f Hf).
Qed.

(** A page, and the rest of the segment after it. *)
Lemma seg_image_cons c sp upage pos rb n w :
  0 ≤ rb → let r := Z.min rb PGSIZE in
  seg_image c sp upage pos r PGSIZE w → seg_image c sp (upage + PGSIZE) (pos + r) (rb - r) (n - PGSIZE) w →
  seg_image c sp upage pos rb n w.
Proof.
  intros Hrb r H1 H2 o Ho. destruct (decide (o < PGSIZE)) as [Hlt|Hge].
  - destruct (H1 o) as [Hm Hb]; [lia|]. split; [done|]. rewrite Hb. unfold seg_byte, r.
    destruct (Z.ltb_spec o (Z.min rb PGSIZE)), (Z.ltb_spec o rb); done || lia.
  - destruct (H2 (o - PGSIZE)) as [Hm Hb]; [lia|]. replace (upage + PGSIZE + (o - PGSIZE)) with (upage + o) in * by lia.
    split; [done|]. rewrite Hb. unfold seg_byte, r. f_equal.
    destruct (Z.ltb_spec (o - PGSIZE) (rb - Z.min rb PGSIZE)), (Z.ltb_spec o rb); try done; [|lia|lia].
    do 3 f_equal. lia.
Qed.

Lemma segment_loop_spec w fuel s pts sp pos upage rb zb :
  loading s pts sp pos → 0 ≤ rb → 0 ≤ zb → (rb + zb) mod PGSIZE = 0 → upage mod PGSIZE = 0 → 0 ≤ upage →
  upage + (rb + zb) ≤ PHYS_BASE → (rb + zb) / PGSIZE < Z.of_nat fuel →
  ∃ ok s' pts' sp' pos', segment_loop init_page_dir init_ram_pages fuel pd file upage rb zb w s = Ok (ok, s') ∧
    loading s' pts' sp' pos' ∧ grows (cpu s) sp (cpu s') sp' ∧ only_new sp sp' upage (upage + (rb + zb)) ∧
    (ok = true → pos + rb ≤ Z.of_nat (length bs) ∧ seg_image (cpu s') sp' upage pos rb (rb + zb) w).
Proof.
  revert s pts sp pos upage rb zb. induction fuel as [|fuel IH]; intros s pts sp pos upage rb zb Hld Hrb Hzb Hmod Hua Hu0 Hue Hfuel.
  { exfalso. unfold PGSIZE in *. dlia. }
  cbn [segment_loop]. destruct ((0 <? rb) || (0 <? zb)) eqn:Hcond.
  2: { apply orb_false_iff in Hcond as [?%Z.ltb_ge ?%Z.ltb_ge]. assert (rb = 0 ∧ zb = 0) as [-> ->] by lia.
    exists true, s, pts, sp, pos. split; [done|]. split; [done|]. split; [apply grows_refl|]. split; [by left|]. intros _.
    destruct (is_file_bytes _ _ _ _ (ld_file _ _ _ _ Hld)) as (_ & _ & ?). split; [lia|]. intros o Ho. lia. }
  apply orb_true_iff in Hcond. rewrite !Z.ltb_lt in Hcond. assert (PGSIZE ≤ rb + zb) as Hpg by (unfold PGSIZE in *; dlia).
  replace (if rb <? PGSIZE then rb else PGSIZE) with (Z.min rb PGSIZE) by (destruct (Z.ltb_spec rb PGSIZE); lia).
  set (r := Z.min rb PGSIZE). assert (0 ≤ r ≤ PGSIZE ∧ r ≤ rb ∧ PGSIZE - r ≤ zb) as (Hr & Hrr & Hrz) by (unfold r, PGSIZE in *; lia).
  assert (only_new sp sp upage (upage + (rb + zb))) as Hsame by by left.
  destruct (get_frame_spec init_ram_pages (cpu s) pd pts sp PAL_USER) as [Hg|(k & c1 & Hg & Hk0 & Has1 & Hused & Hno & Hg1 & _)];
    [apply Hld|done|done|..]; erewrite stM_bind_run by (apply on_cpu_run; exact Hg).
  { exists false, (mk_machine (cpu s) (fsys s)), pts, sp, pos. split; [done|]. split; [destruct s; done|]. split; [apply grows_refl|]. by split. }
  rewrite (proj2 (Z.eqb_neq k 0)) by done.
  assert (loading (mk_machine c1 (fsys s)) pts sp pos) as Hld1 by (split; [done|by apply Hld]).
  destruct (fill_page_spec (mk_machine c1 (fsys s)) pts sp pos k r Hld1)
    as (n & b & s2 & pos2 & Hread & Hc2 & Hw2 & Hld2 & Hg2 & Hn & Hfull); [done|done|done|].
  cbn [cpu] in Hw2, Hld2, Hg2, Hfull. erewrite stM_bind_run by exact Hread. cbv beta iota. erewrite stM_bind_run by exact Hw2.
  match type of Hld2 with loading (mk_machine ?c _) _ _ _ => set (c2 := c) in * end.
  destruct (Z.eqb_spec n r) as [En|En]; cbn [negb].
  2: { destruct (free_frame_spec init_ram_pages c2 pd pts sp k) as (c3 & Hf & Has3 & Hg3); [apply Hld2|done..|].
    erewrite stM_bind_run by (apply on_cpu_run; exact Hf). eexists false, _, pts, sp, pos2. split; [done|].
    split; [split; [done|by apply Hld2]|]. split; [|by split]. eapply grows_trans; [|exact Hg3]. by eapply grows_trans. }
  destruct (Hfull En) as (-> & Hlen & Hw3 & Hld3 & Hg3 & Hbytes). erewrite stM_bind_run by exact Hw3.
  match type of Hld3 with loading (mk_machine ?c _) _ _ _ => set (c3 := c) in * end.
  destruct (install_grows init_page_dir init_ram_pages c3 pd pts sp upage k w)
    as [Hi|(c4 & pts4 & Hi & Hnone & Has4 & Hg4 & Hub)]; [apply Hld3|done|unfold PGSIZE in *; lia|done|done|done|..];
    erewrite stM_bind_run by (apply on_cpu_run; exact Hi); cbn [negb fsys].
  { destruct (free_frame_spec init_ram_pages c3 pd pts sp k) as (c4 & Hf & Has4 & Hg4); [apply Hld3|done..|].
    erewrite stM_bind_run by (apply on_cpu_run; exact Hf). eexists false, _, pts, sp, (pos + r). split; [done|].
    split; [split; [done|by apply Hld3]|]. split; [|by split]. eapply grows_trans; [|exact Hg4]. by eapply grows_trans. }
  rewrite !u32_small by (unfold in_u32, PHYS_BASE, PGSIZE in *; lia). cbv zeta in *.
  destruct (IH (mk_machine c4 (fsys s2)) pts4 (<[upage / PGSIZE := (k, w)]> sp) (pos + r) (upage + PGSIZE) (rb - r) (zb - (PGSIZE - r)))
    as (ok & s5 & pts5 & sp5 & pos5 & Hrun & Hld5 & Hg5 & Hnew & Himg);
    [split; [done|by apply Hld3]|lia|lia|unfold PGSIZE in *; dlia|unfold PGSIZE in *; dlia|unfold PGSIZE in *; lia|lia|unfold PGSIZE in *; dlia|].
  cbn [cpu fsys] in *. replace (rb - r + (zb - (PGSIZE - r))) with (rb + zb - PGSIZE) in * by lia.
  exists ok, s5, pts5, sp5, pos5. split; [exact Hrun|]. split; [done|]. split; [|split].
  - eapply grows_trans; [exact Hg1|]. eapply grows_trans; [exact Hg3|]. by eapply grows_trans.
  - intros v Hv. destruct (Hnew v Hv) as [Hv2|Hv2].
    + destruct (decide (upage / PGSIZE = v)) as [<-|Hne]; [right; unfold PGSIZE in *; dlia|].
      rewrite lookup_insert_ne in Hv2 by done. by left.
    + right. unfold PGSIZE in *. dlia.
  - intros Hok. destruct (Himg Hok) as [Hl Hi5]. split; [lia|]. apply seg_image_cons; [done| |done].
    eapply seg_image_grows; [exact Hg5|]. intros o Ho. split.
    + exists (k, w). replace ((upage + o) / PGSIZE) with (upage / PGSIZE) by (unfold PGSIZE in *; dlia). by rewrite lookup_insert_eq.
    + rewrite Hub by done. by rewrite Hbytes.
Qed.

(** ** Program headers *)

Definition writable (ph : Elf32_Phdr) : bool := negb (Z.land (p_flags ph) PF_W =? 0).

(** The segment is in memory as its header says. *)
Definition phdr_loaded (c : mmu) (sp : space) (ph : Elf32_Phdr) : Prop :=
  ∀ i, 0 ≤ i < p_memsz ph →
    (∃ f, sp !! ((p_vaddr ph + i) / PGSIZE) = Some f ∧ f.2 = writable ph) ∧
    ubyte c sp (p_vaddr ph + i) = Some (if i <? p_filesz ph then default 0 (bs !! Z.to_nat (p_offset ph + i)) else 0).

Lemma phdr_loaded_grows c sp c' sp' ph : grows c sp c' sp' → phdr_loaded c sp ph → phdr_loaded c' sp' ph.
Proof.
  intros Hg Hl i Hi. destruct (Hl i Hi) as [(f & Hf & Hw) Hb]. split; [|by eapply grows_ubyte].
  exists f. split; [|done]. by apply (Hg _ f Hf).
Qed.

(** Page 0 stays unmapped. *)
Definition no_null (sp sp' : space) : Prop := ∀ v, is_Some (sp' !! v) → is_Some (sp !! v) ∨ 1 ≤ v.

Record phdr_u32 (ph : Elf32_Phdr) : Prop := {
  pu_offset : in_u32 (p_offset ph);
  pu_vaddr : in_u32 (p_vaddr ph);
  pu_filesz : in_u32 (p_filesz ph);
  pu_memsz : in_u32 (p_memsz ph);
}.

Lemma word_u32 o b : Forall in_u8 b → (o + 4 ≤ length b)%nat → in_u32 (word o b).
Proof.
  intros Hb Ho. unfold word, in_u32. pose proof (le_Z_range (slice o 4 b)) as H4. rewrite length_slice in H4 by done.
  apply H4. by apply Forall_slice.
Qed.

Lemma decode_phdr_u32 b : Forall in_u8 b → length b = 32%nat → phdr_u32 (decode_phdr b).
Proof. intros Hb Hl. split; apply word_u32; try done; rewrite Hl; lia. Qed.

(** What a header that passes [validate_segment] guarantees. *)
Lemma validate_segment_spec ph n :
  phdr_u32 ph → 0 ≤ n < W31 → validate_segment ph n = true →
  p_offset ph mod PGSIZE = p_vaddr ph mod PGSIZE ∧ p_offset ph ≤ n ∧ p_filesz ph ≤ p_memsz ph ∧ 0 < p_memsz ph ∧
  PGSIZE ≤ p_vaddr ph ∧ p_vaddr ph + p_memsz ph < PHYS_BASE.
Proof.
  intros [H1 H2 H3 H4] Hn. unfold validate_segment, is_user_vaddr. rewrite !andb_true_iff, !negb_true_iff, !Z.eqb_neq, !Z.ltb_ge, !Z.ltb_lt, Z.eqb_eq.
  rewrite (u32_small n) by (unfold in_u32; lia). change PGMASK with (Z.ones 12). rewrite !Z.land_ones by done. change (2 ^ 12) with PGSIZE.
  intros (((((((Ho & Hl) & Hf) & Hm) & Hv) & He) & Hwrap) & Hp). unfold in_u32 in *.
  assert (p_vaddr ph + p_memsz ph < W32) as Hs.
  { destruct (decide (p_vaddr ph + p_memsz ph < W32)); [done|]. unfold u32 in Hwrap. dlia. }
  rewrite u32_small in He by (unfold in_u32; lia). split_and!; try done; lia.
Qed.

(** The page arithmetic of [load] for a valid segment. *)
Lemma load_segment_spec s pts sp pos ofs upage rb zb w :
  loading s pts sp pos → 0 ≤ rb → 0 ≤ zb → (rb + zb) mod PGSIZE = 0 → upage mod PGSIZE = 0 → 0 ≤ upage →
  upage + (rb + zb) ≤ PHYS_BASE → ofs mod PGSIZE = 0 → 0 ≤ ofs ≤ Z.of_nat (length bs) →
  ∃ ok s' pts' sp' pos', load_segment init_page_dir init_ram_pages pd file ofs upage rb zb w s = Ok (ok, s') ∧
    loading s' pts' sp' pos' ∧ grows (cpu s) sp (cpu s') sp' ∧ only_new sp sp' upage (upage + (rb + zb)) ∧
    (ok = true → seg_image (cpu s') sp' upage ofs rb (rb + zb) w).
Proof.
  intros [Has Hf] Hrb Hzb Hmod Hua Hu0 Hue Hoa Ho. destruct (file_seek_law _ _ _ _ ofs Hf Ho) as (f1 & Hseek & Hf1).
  destruct (segment_loop_spec w (Z.to_nat ((rb + zb) / PGSIZE + 1)) (mk_machine (cpu s) f1) pts sp ofs upage rb zb)
    as (ok & s' & pts' & sp' & pos' & Hr & Hld & Hg & Hnew & Himg); [by split|done..| |].
  { unfold PGSIZE. dlia. }
  exists ok, s', pts', sp', pos'. split; [|split_and!; try done; intros Hok; by apply Himg].
  unfold load_segment. rewrite u32_small by (unfold in_u32, PHYS_BASE in *; lia). rewrite Hmod, pg_ofs_mod, Hua.
  rewrite Z.rem_mod_nonneg by (unfold PGSIZE; lia). rewrite Hoa. do 3 (erewrite stM_bind_run by reflexivity).
  by erewrite stM_bind_run by (apply on_fs_run; exact Hseek).
Qed.

Lemma load_phdr_spec s pts sp pos ph :
  loading s pts sp pos → phdr_u32 ph → validate_segment ph (Z.of_nat (length bs)) = true →
  ∃ ok s' pts' sp' pos', load_phdr init_page_dir init_ram_pages pd file ph s = Ok (ok, s') ∧
    loading s' pts' sp' pos' ∧ grows (cpu s) sp (cpu s') sp' ∧ no_null sp sp' ∧
    (ok = true → phdr_loaded (cpu s') sp' ph).
Proof.
  intros Hld Hu Hv. destruct (is_file_bytes _ _ _ _ (ld_file _ _ _ _ Hld)) as (_ & Hlen & _).
  destruct (validate_segment_spec ph (Z.of_nat (length bs)) Hu) as (Hofs & Hol & Hfm & Hm & Hp & He); [lia|done|]. destruct Hu as [Hu1 Hu2 Hu3 Hu4].
  unfold load_phdr. change (Z.land ?x (u32 (Z.lnot PGMASK))) with (pg_round_down x). rewrite !pg_round_down_eq by done.
  change (Z.land (p_vaddr ph) PGMASK) with (pg_ofs (p_vaddr ph)). rewrite pg_ofs_mod.
  set (po := p_vaddr ph mod PGSIZE) in *. assert (0 ≤ po < PGSIZE) as Hpo by by apply Z.mod_pos_bound.
  set (total := (po + p_memsz ph + PGSIZE - 1) / PGSIZE * PGSIZE).
  assert (po + p_memsz ph ≤ total ∧ total mod PGSIZE = 0 ∧ p_vaddr ph - po + total ≤ PHYS_BASE) as (Ht1 & Ht2 & Ht3).
  { unfold total, po, PHYS_BASE, PGSIZE in *. split_and!; dlia. }
  replace (u32 (u32 (u32 (po + p_memsz ph) + PGSIZE - 1) / PGSIZE * PGSIZE)) with total.
  2: { unfold in_u32, PHYS_BASE, PGSIZE in *. rewrite (u32_small (po + _)) by (unfold in_u32; lia).
    rewrite (u32_small (po + _ + _ - 1)) by (unfold in_u32; lia). rewrite u32_small; [done|]. unfold in_u32. unfold total in *. lia. }
  rewrite Hofs. set (fp := p_offset ph - po). rewrite (i32_small fp) by (unfold in_i32, fp, in_u32, PGSIZE in *; lia).
  assert (fp mod PGSIZE = 0 ∧ 0 ≤ fp) as [Hfa Hf0] by (unfold fp, in_u32, PGSIZE in *; dlia).
  set (rb := if 0 <? p_filesz ph then po + p_filesz ph else 0).
  destruct (load_segment_spec s pts sp pos fp (p_vaddr ph - po) rb (total - rb) (writable ph))
    as (ok & s' & pts' & sp' & pos' & Hr & Hld' & Hg & Hnew & Himg); [done|..].
  1-8: unfold rb; destruct (Z.ltb_spec 0 (p_filesz ph)); unfold in_u32, fp, po, PHYS_BASE, PGSIZE in *; try lia; dlia.
  replace (rb + (total - rb)) with total in * by lia.
  exists ok, s', pts', sp', pos'. split_and!; try done.
  - unfold rb in Hr. destruct (Z.ltb_spec 0 (p_filesz ph)).
    + rewrite (u32_small (po + p_filesz ph)) by (unfold in_u32, PHYS_BASE, PGSIZE in *; lia).
      rewrite u32_small by (unfold in_u32, PHYS_BASE, PGSIZE in *; lia). exact Hr.
    + by rewrite Z.sub_0_r in Hr.
  - intros v Hv'. destruct (Hnew v Hv') as [?|Hr2]; [by left|right]. unfold po, PGSIZE in *. dlia.
  - intros Hok i Hi. destruct (Himg Hok (po + i)) as [Hmap Hb]; [lia|].
    replace (p_vaddr ph - po + (po + i)) with (p_vaddr ph + i) in * by lia. split; [done|]. rewrite Hb. f_equal.
    unfold seg_byte, rb. destruct (Z.ltb_spec 0 (p_filesz ph)).
    + destruct (Z.ltb_spec (po + i) (po + p_filesz ph)), (Z.ltb_spec i (p_filesz ph)); try lia. do 3 f_equal. unfold fp. lia.
    + destruct (Z.ltb_spec (po + i) 0), (Z.ltb_spec i (p_filesz ph)); lia.
Qed.

Lemma no_null_refl sp : no_null sp sp.
Proof. by left. Qed.
Lemma no_null_trans s1 s2 s3 : no_null s1 s2 → no_null s2 s3 → no_null s1 s3.
Proof. intros H1 H2 v Hv. destruct (H2 v Hv) as [Hv2|]; [by apply H1|by right]. Qed.

(** The program header at an offset of the file. *)
Definition phdr_at (ofs : Z) : Elf32_Phdr := decode_phdr (slice (Z.to_nat ofs) 32 bs).

(** The kinds of segment that [load] accepts. *)
Definition accepted (c : mmu) (sp : space) (ph : Elf32_Phdr) : Prop :=
  p_type ph ≠ PT_DYNAMIC ∧ p_type ph ≠ PT_INTERP ∧ p_type ph ≠ PT_SHLIB ∧ (p_type ph = PT_LOAD → phdr_loaded c sp ph).

Lemma accepted_grows c sp c' sp' ph : grows c sp c' sp' → accepted c sp ph → accepted c' sp' ph.
Proof. intros Hg (H1 & H2 & H3 & H4). split_and!; try done. intros Ht. by eapply phdr_loaded_grows, H4. Qed.

(** One header. *)
Lemma phdr_step_spec s pts sp pos ph :
  loading s pts sp pos → phdr_u32 ph →
  ∃ ok s' pts' sp' pos',
    (if p_type ph =? PT_LOAD then
       len ← on_fs (file_length file);
       if validate_segment ph len then load_phdr init_page_dir init_ram_pages pd file ph else mret false
     else mret (negb ((p_type ph =? PT_DYNAMIC) || (p_type ph =? PT_INTERP) || (p_type ph =? PT_SHLIB)))) s = Ok (ok, s') ∧
    loading s' pts' sp' pos' ∧ grows (cpu s) sp (cpu s') sp' ∧ no_null sp sp' ∧ (ok = true → accepted (cpu s') sp' ph).
Proof.
  intros Hld Hu. destruct (Z.eqb_spec (p_type ph) PT_LOAD) as [Et|Et].
  - erewrite stM_bind_run by (apply on_fs_run, (file_length_law _ _ _ _ (ld_file _ _ _ _ Hld))).
    replace (mk_machine (cpu s) (fsys s)) with s by by destruct s.
    destruct (validate_segment ph (Z.of_nat (length bs))) eqn:Hv.
    + destruct (load_phdr_spec s pts sp pos ph Hld Hu Hv) as (ok & s' & pts' & sp' & pos' & Hr & Hld' & Hg & Hn & Hl).
      exists ok, s', pts', sp', pos'. split_and!; try done. intros Hok. by split_and!; [rewrite Et..|auto].
    + exists false, s, pts, sp, pos. split_and!; [done|done|apply grows_refl|apply no_null_refl|done].
  - exists (negb ((p_type ph =? PT_DYNAMIC) || (p_type ph =? PT_INTERP) || (p_type ph =? PT_SHLIB))), s, pts, sp, pos.
    split_and!; [done|done|apply grows_refl|apply no_null_refl|].
    rewrite negb_true_iff, !orb_false_iff, !Z.eqb_neq. intros [[? ?] ?]. by split_and!.
Qed.

Lemma phdr_loop_spec n s pts sp pos ofs :
  loading s pts sp pos → in_i32 ofs →
  ∃ ok s' pts' sp' pos', phdr_loop init_page_dir init_ram_pages n pd file ofs s = Ok (ok, s') ∧
    loading s' pts' sp' pos' ∧ grows (cpu s) sp (cpu s') sp' ∧ no_null sp sp' ∧
    (ok = true → ∀ i, (i < n)%nat → accepted (cpu s') sp' (phdr_at (ofs + PHDR_SIZE * Z.of_nat i))).
Proof.
  revert s pts sp pos ofs. induction n as [|n IH]; intros s pts sp pos ofs Hld Hofs; cbn [phdr_loop].
  { exists true, s, pts, sp, pos. split_and!; [done|done|apply grows_refl|apply no_null_refl|]. intros _ i Hi. lia. }
  assert (∀ f pos, is_file f file bs pos → ∃ ok s' pts' sp' pos',
    mret (M := stM (machine F)) false (mk_machine (cpu s) f) = Ok (ok, s') ∧ loading s' pts' sp' pos' ∧
    grows (cpu s) sp (cpu s') sp' ∧ no_null sp sp' ∧ (ok = true → ∀ i, (i < S n)%nat → accepted (cpu s') sp' (phdr_at (ofs + PHDR_SIZE * Z.of_nat i)))) as Hfail.
  { intros f p Hf. exists false, (mk_machine (cpu s) f), pts, sp, p.
    split_and!; [done|split; [apply Hld|done]|apply grows_refl|apply no_null_refl|done]. }
  pose proof Hld as [Has Hf]. destruct (is_file_bytes _ _ _ _ Hf) as (Hu8 & Hlen & _).
  erewrite stM_bind_run by (apply on_fs_run, (file_length_law _ _ _ _ Hf)).
  destruct ((ofs <? 0) || (Z.of_nat (length bs) <? ofs)) eqn:Hrange; [by eapply Hfail|].
  apply orb_false_iff in Hrange as [Hge%Z.ltb_ge Hle%Z.ltb_ge].
  destruct (file_seek_law _ _ _ _ ofs Hf) as (f1 & Hseek & Hf1); [lia|]. erewrite stM_bind_run by (apply on_fs_run; exact Hseek).
  destruct (file_read_law _ _ _ _ PHDR_SIZE Hf1) as (f2 & Hread & Hf2); [done|]. cbv zeta in *.
  erewrite stM_bind_run by (apply on_fs_run; exact Hread). cbv beta iota. change (Z.to_nat PHDR_SIZE) with 32%nat in *.
  set (r := slice (Z.to_nat ofs) 32 bs) in *. destruct (Z.eqb_spec (Z.of_nat (length r)) PHDR_SIZE) as [El|El]; cbn [negb]; [|by eapply Hfail].
  unfold PHDR_SIZE in El. assert (ofs + 32 ≤ Z.of_nat (length bs)) as Hin.
  { unfold r, slice in El. rewrite length_take, length_drop in El. lia. }
  destruct (phdr_step_spec (mk_machine (cpu s) f2) pts sp (ofs + Z.of_nat (length r)) (decode_phdr r))
    as (ok & s1 & pts1 & sp1 & pos1 & Hr1 & Hld1 & Hg1 & Hn1 & Ha1); [by split|apply decode_phdr_u32; [by apply Forall_slice|lia]|].
  erewrite stM_bind_run by exact Hr1. cbn [cpu] in Hg1. destruct ok.
  2: { exists false, s1, pts1, sp1, pos1. by split_and!. }
  rewrite i32_small by (unfold in_i32, PHDR_SIZE; lia).
  destruct (IH s1 pts1 sp1 pos1 (ofs + PHDR_SIZE)) as (ok & s2 & pts2 & sp2 & pos2 & Hr2 & Hld2 & Hg2 & Hn2 & Ha2);
    [done|unfold in_i32, PHDR_SIZE; lia|].
  exists ok, s2, pts2, sp2, pos2. split_and!; [done|done|by eapply grows_trans|by eapply no_null_trans|].
  intros Hok [|i] Hi.
  - rewrite Z.mul_0_r, Z.add_0_r. eapply accepted_grows; [done|]. by apply Ha1.
  - replace (ofs + PHDR_SIZE * Z.of_nat (S i)) with (ofs + PHDR_SIZE + PHDR_SIZE * Z.of_nat i) by lia. apply Ha2; [done|lia].
Qed.

(** ** The whole file *)

(** The address space that a successful [load] leaves. *)
Record loaded (c : mmu) (pts : gmap Z Z) (sp : space) (args : list (list Z)) (eip esp : Z) : Prop := {
  lo_as : as_ok init_ram_pages c pd pts sp;
  lo_ehdr : ehdr_ok (decode_ehdr (slice 0 52 bs)) = true;
  lo_entry : eip = e_entry (decode_ehdr (slice 0 52 bs));
  lo_segments i : 0 ≤ i < e_phnum (decode_ehdr (slice 0 52 bs)) →
    accepted c sp (phdr_at (i32 (e_phoff (decode_ehdr (slice 0 52 bs))) + PHDR_SIZE * i));
  lo_args : args_at c sp esp args;
  lo_null va : va < PGSIZE → ubyte c sp va = None;
}.

Lemma null_unmapped c sp va : no_null ∅ sp → va < PGSIZE → ubyte c sp va = None.
Proof.
  intros Hn Hva. unfold ubyte. destruct (sp !! (va / PGSIZE)) as [f|] eqn:E; [|done]. exfalso.
  destruct (Hn (va / PGSIZE)) as [[? []%lookup_empty_Some]|Hv]; [by rewrite E|]. unfold PGSIZE in *. dlia.
Qed.

Lemma load_file_spec s pts args :
  loading s pts ∅ 0 → fits args → Forall (Forall in_u8) args → malloc ((Z.of_nat (length args) + 1) * 4) ≠ 0 →
  ∃ ok eip esp s' pos', load_file init_page_dir init_ram_pages malloc pd file args s = Ok ((ok, eip, esp), s') ∧
    is_file (fsys s') file bs pos' ∧ (ok = true → ∃ pts' sp', loaded (cpu s') pts' sp' args eip esp).
Proof.
  intros [Has Hf] Hfit Hu8 Hmal. destruct (is_file_bytes _ _ _ _ Hf) as (Hb8 & Hlen & _). unfold load_file.
  destruct (file_read_law _ _ _ _ EHDR_SIZE Hf) as (f1 & Hread & Hf1); [done|]. cbv zeta in *.
  erewrite stM_bind_run by (apply on_fs_run; exact Hread). cbv beta iota.
  change (slice (Z.to_nat 0) (Z.to_nat EHDR_SIZE) bs) with (slice 0 52 bs) in *. set (r := slice 0 52 bs) in *.
  destruct (negb (Z.of_nat (length r) =? EHDR_SIZE) || negb (ehdr_ok (decode_ehdr r))) eqn:Hbad.
  { eexists false, 0, 0, _, _. split; [done|]. by split. }
  apply orb_false_iff in Hbad as [Hl%negb_false_iff%Z.eqb_eq He%negb_false_iff]. cbv zeta.
  destruct (phdr_loop_spec (Z.to_nat (e_phnum (decode_ehdr r))) (mk_machine (cpu s) f1) pts ∅ (0 + Z.of_nat (length r)) (i32 (e_phoff (decode_ehdr r))))
    as (ok & s2 & pts2 & sp2 & pos2 & Hr2 & Hld2 & Hg2 & Hn2 & Ha2); [by split|apply i32_range|].
  erewrite stM_bind_run by exact Hr2. destruct ok; cbn [negb].
  2: { eexists false, 0, 0, _, _. split; [done|]. split; [apply Hld2|done]. }
  destruct (setup_stack_spec init_page_dir init_ram_pages malloc (cpu s2) pd pts2 sp2 args)
    as (ok & esp & c3 & pts3 & sp3 & Hr3 & Has3 & Hg3 & _ & Hst); [apply Hld2|done..|].
  erewrite stM_bind_run by (apply on_cpu_run; exact Hr3). cbv beta iota. destruct ok; cbn [negb].
  2: { eexists false, 0, esp, _, _. split; [done|]. split; [apply Hld2|done]. }
  eexists true, _, esp, _, pos2. split; [done|]. split; [apply Hld2|]. intros _. exists pts3, sp3.
  destruct (Hst eq_refl) as [Hargs (k & ->)]. split; try done.
  - intros i Hi. eapply accepted_grows; [exact Hg3|]. rewrite <- (Z2Nat.id i) by lia. apply Ha2; [done|]. fold r in Hi. lia.
  - intros va Hva. eapply null_unmapped; [|done]. eapply no_null_trans; [exact Hn2|].
    intros v Hv. destruct (decide (STACK / PGSIZE = v)) as [<-|Hne]; [right; vm_compute; discriminate|].
    rewrite lookup_insert_ne in Hv by done. by left.
Qed.
End file.
End load.

(** ** A new page directory *)

(** The kernel before a program is loaded: the base directory has no user
    entries, and the user pool is memory that exists. *)
Record kernel_ok (init_page_dir init_ram_pages : Z) (c : mmu) : Prop := {
  ko_pal : palloc_ok (pal c);
  ko_bytes : bytes_ok (mem (pal c));
  ko_base : PHYS_BASE ≤ base (kernel_pool (pal c));
  ko_ram : pool_end (user_pool (pal c)) ≤ PHYS_BASE + PGSIZE * init_ram_pages;
  ko_init : used_run (kernel_pool (pal c)) init_page_dir 1;
  ko_words i : 0 ≤ i < 768 → mem_word (init_page_dir + 4 * i) (mem (pal c)) = 0;
}.

Lemma mem_word_copy p q i n m : 0 ≤ i → 4 * i + 4 ≤ n → mem_word (p + 4 * i) (mem_copy p q n m) = mem_word (q + 4 * i) m.
Proof.
  intros Hi Hn. unfold mem_word, mem_bytes. f_equal. apply list_fmap_ext. intros j x [-> Hj]%lookup_seq.
  unfold mem_copy. rewrite decide_True by lia. f_equal. lia.
Qed.

Lemma pagedir_create_spec init_page_dir init_ram_pages c :
  kernel_ok init_page_dir init_ram_pages c →
  pagedir_create init_page_dir c = Ok (0, c) ∨
  ∃ pd c', pagedir_create init_page_dir c = Ok (pd, c') ∧ pd ≠ 0 ∧ pd ≠ init_page_dir ∧
    ∃ c2, pagedir_activate init_page_dir pd c' = Ok (tt, c2) ∧ as_ok init_ram_pages c2 pd ∅ ∅.
Proof.
  intros [Hpal Hm Hb Hram Hinit Hw]. unfold pagedir_create, palloc_get_page. rewrite stM_bind_eq. unfold on_pal at 1 3.
  destruct (palloc_get_multiple_spec 0 1 (pal c) Hpal) as [[? _]|[(_ & _ & Hr)|(_ & pd & p' & s' & Hf & _ & Hset & Hr & Hok2 & E)]];
    [done|done|rewrite Hr; left; by destruct c|right].
  rewrite Hr. change (flag 0 PAL_USER) with false in *. change (flag 0 PAL_ZERO) with false in E. cbn [get_pool] in *.
  pose proof Hset as (Hkb & Hkc & Hpo & _). pose proof Hf as [(j & Hj & Hin & Epd) _].
  destruct (pa_kernel _ Hpal) as [_ Hkb0 Hka Hke _]. assert (PHYS_BASE ≤ pd ∧ pd mod PGSIZE = 0 ∧ pd + PGSIZE ≤ W32) as (Hk & Ha & He).
  { unfold PGSIZE in *. split_and!; [lia|rewrite Epd; dlia|lia]. }
  assert (pd ≠ init_page_dir) as Hne.
  { intros ->. destruct (free_apart _ _ _ _ _ Hf Hinit); unfold PGSIZE in *; lia. }
  exists pd. rewrite (proj2 (Z.eqb_neq pd 0)) by (unfold PHYS_BASE in Hk; lia). erewrite stM_bind_run by reflexivity.
  eexists. split; [reflexivity|]. split; [unfold PHYS_BASE in Hk; lia|]. split; [done|].
  unfold pagedir_activate, vtop, is_kernel_vaddr. rewrite (proj2 (Z.eqb_neq pd 0)) by (unfold PHYS_BASE in Hk; lia).
  rewrite assert_true by by apply Z.leb_le. erewrite stM_bind_run by reflexivity. eexists. split; [reflexivity|].
  subst s'. cbn [set_pal pal set_mem set_pool mem kernel_pool user_pool].
  split; cbn [pal cr3 tlb kernel_pool user_pool mem]; try done.
  split; cbn [pal kernel_pool user_pool mem set_mem id]; try done; try (by intros; rewrite lookup_empty in *).
  - destruct Hok2. by split.
  - intros x. unfold mem_copy. case_decide; apply Hm.
  - by rewrite Hkb.
  - split; [done..|]. eapply used_run_new; [done|apply Hf].
  - intros i Hi. rewrite lookup_empty, mem_word_copy by (unfold PGSIZE; lia). by apply Hw.
Qed.

(** C12: Whatever bytes the executable holds, [load] ends without a fault or a
    failed assertion, for arguments that fit the stack page.  When it reports
    success, the header was valid, the entry point is the header's, every
    loadable segment is in the new address space byte for byte and with its
    protection, followed by zeroes up to its size in memory, the stack holds
    the arguments as the C calling convention has them, and no address in page
    0 is mapped. *)
Theorem load_program {F} `{FilesLaws F} init_page_dir init_ram_pages malloc name args bs s r f1 :
  kernel_ok init_page_dir init_ram_pages (cpu s) →
  filesys_open name (fsys s) = Ok (r, f1) → (∀ h, r = Some h → is_file f1 h bs 0) →
  fits args → Forall (Forall in_u8) args → malloc ((Z.of_nat (length args) + 1) * 4) ≠ 0 →
  ∃ pd ok eip esp s', load init_page_dir init_ram_pages malloc name args s = Ok ((pd, (ok, eip, esp)), s') ∧
    (ok = true → ∃ pts sp, loaded init_ram_pages pd bs (cpu s') pts sp args eip esp).
Proof.
  intros Hk Hopen Hfile Hfit Hu8 Hmal. unfold load.
  destruct (pagedir_create_spec _ _ _ Hk) as [Hr|(pd & c1 & Hr & Hpd0 & Hpd & c2 & Hr2 & Has)];
    erewrite stM_bind_run by (apply on_cpu_run; exact Hr).
  { by eexists 0, false, 0, 0, _. }
  rewrite (proj2 (Z.eqb_neq pd 0)) by done. erewrite stM_bind_run by (apply on_cpu_run; exact Hr2).
  erewrite stM_bind_run by (apply on_fs_run; exact Hopen). destruct r as [h|]; [|by eexists pd, false, 0, 0, _].
  destruct (load_file_spec init_page_dir init_ram_pages malloc pd h bs Hpd (mk_machine c2 f1) ∅ args)
    as (ok & eip & esp & s' & pos' & Hr3 & Hf3 & Hl); [split; [done|by apply Hfile]|done..|].
  erewrite stM_bind_run by exact Hr3. cbn [fst]. destruct ok.
  - eexists pd, true, eip, esp, s'. split; [done|]. intros _. by apply Hl.
  - destruct (file_close_law _ _ _ _ Hf3) as (f4 & Hc). erewrite stM_bind_run by (apply on_fs_run; exact Hc).
    by eexists pd, false, eip, esp, _.
Qed.

(** ** A concrete load: a file in memory *)

Record memfile := mk_memfile { mf_bytes : list Z; mf_pos : Z }.

#[export] Instance memfile_files : Files memfile := {|
  filesys_open _ := mret (Some 1);
  file_read _ n := λ f, let r := slice (Z.to_nat (mf_pos f)) (Z.to_nat n) (mf_bytes f) in
    Ok ((Z.of_nat (length r), r), mk_memfile (mf_bytes f) (mf_pos f + Z.of_nat (length r)));
  file_length _ := λ f, Ok (Z.of_nat (length (mf_bytes f)), f);
  file_seek _ ofs := λ f, Ok (tt, mk_memfile (mf_bytes f) ofs);
  file_close _ := mret tt;
|}.

#[export] Program Instance memfile_laws : FilesLaws memfile := {|
  is_file f h bs pos := f = mk_memfile bs pos ∧ Forall in_u8 bs ∧ Z.of_nat (length bs) < W31 ∧ 0 ≤ pos ≤ Z.of_nat (length bs);
|}.
Next Obligation. intros f h bs pos (_ & ?). done. Qed.
Next Obligation.
  intros f h bs pos n (-> & H1 & H2 & H3) Hn. cbv zeta. eexists. split; [done|]. cbn [mf_bytes mf_pos]. split_and!; try done; [lia|].
  unfold slice. rewrite length_take, length_drop. lia.
Qed.
Next Obligation. intros f h bs pos (-> & _). done. Qed.
Next Obligation. intros f h bs pos ofs (-> & H1 & H2 & H3) Ho. by exists (mk_memfile bs ofs). Qed.
Next Obligation. intros f h bs pos _. by eexists. Qed.

(** An executable with one writable segment: its first four bytes are the
    magic number, at 0x8048000, and the twelve bytes after the file's are
    zero; the entry point is 0x8048054. *)
Definition sample_elf : list Z :=
  [127; 69; 76; 70; 1; 1; 1; 0; 0; 0; 0; 0; 0; 0; 0; 0] ++ [2; 0; 3; 0] ++ le_bytes 4 1 ++ le_bytes 4 134512724 ++
  le_bytes 4 52 ++ le_bytes 4 0 ++ le_bytes 4 0 ++ [52; 0; 32; 0; 1; 0; 0; 0; 0; 0; 0; 0] ++
  le_bytes 4 1 ++ le_bytes 4 0 ++ le_bytes 4 134512640 ++ le_bytes 4 134512640 ++ le_bytes 4 88 ++ le_bytes 4 100 ++
  le_bytes 4 7 ++ le_bytes 4 4096 ++ [144; 144; 235; 254].

Definition sample_kernel : mmu :=
  mk_mmu (mk_palloc (mk_pool false (mk_bitmap 8 [1]) sample_pd) (mk_pool false (mk_bitmap 8 [0]) (sample_pd + 65536)) (λ _, 0))
    (sample_pd - PHYS_BASE) ∅.

Lemma sample_kernel_ok : kernel_ok sample_pd 1000 sample_kernel.
Proof.
  split.
  - split; [split|split|]; try done.
    + split; [vm_compute; intuition discriminate|]. split; [done|]. repeat constructor; vm_compute; intuition discriminate.
    + split; [vm_compute; intuition discriminate|]. split; [done|]. repeat constructor; vm_compute; intuition discriminate.
  - done.
  - vm_compute. discriminate.
  - vm_compute. discriminate.
  - split; [exists 0; vm_compute; intuition discriminate|]. intros i Hi Hr. cbn [kernel_pool base pal sample_kernel used_map] in *.
    unfold PGSIZE in Hr. assert (i = 0) as -> by lia. reflexivity.
  - intros i Hi. by apply mem_word_zero.
Qed.

Lemma load_program_witness :
  ∃ pd eip esp s', load sample_pd 1000 (λ _, 4096) [108; 115] [[108; 115]; [45; 108]] (mk_machine sample_kernel (mk_memfile sample_elf 0))
    = Ok ((pd, (true, eip, esp)), s') ∧
    ∃ sp, ubyte (cpu s') sp 134512641 = Some 69 ∧ ubyte (cpu s') sp 134512739 = Some 0 ∧
      uword (cpu s') sp (esp + 4) 2 ∧ ubyte (cpu s') sp 0 = None.
Proof.
  destruct (load_program sample_pd 1000 (λ _, 4096) [108; 115] [[108; 115]; [45; 108]] sample_elf
    (mk_machine sample_kernel (mk_memfile sample_elf 0)) (Some 1) (mk_memfile sample_elf 0)) as (pd & ok & eip & esp & s' & Hr & Hl).
  - exact sample_kernel_ok.
  - reflexivity.
  - intros h _. split; [reflexivity|]. split; [|vm_compute; intuition discriminate].
    unfold sample_elf. repeat (apply Forall_app; split); try apply le_bytes_u8; repeat (constructor; [unfold in_u8; lia|]); constructor.
  - vm_compute. discriminate.
  - repeat (constructor; [repeat (constructor; [unfold in_u8; lia|]); constructor|]). constructor.
  - vm_compute. discriminate.
  - assert (match load sample_pd 1000 (λ _, 4096) [108; 115] [[108; 115]; [45; 108]] (mk_machine sample_kernel (mk_memfile sample_elf 0))
      with Ok ((_, (b, _, _)), _) => b | Err _ => false end = true) as Hok by (vm_compute; reflexivity).
    rewrite Hr in Hok. subst ok. exists pd, eip, esp, s'. split; [exact Hr|]. destruct (Hl eq_refl) as (pts & sp & [_ _ _ Hseg Hargs Hnull]).
    exists sp. split; [|split; [|split]].
    + destruct (Hseg 0) as (_ & _ & _ & H1); [vm_compute; intuition discriminate|].
      exact (proj2 (H1 eq_refl 1 ltac:(vm_compute; intuition discriminate))).
    + destruct (Hseg 0) as (_ & _ & _ & H1); [vm_compute; intuition discriminate|].
      exact (proj2 (H1 eq_refl 99 ltac:(vm_compute; intuition discriminate))).
    + exact (aa_argc _ _ _ _ Hargs).
    + apply Hnull. vm_compute. reflexivity.
Defined.
