(* ===== verification/CommandLine.v ===== *)
(** * The command line of a new process

    [process_execute] copies the command line into a page and [start_process]
    cuts it into words with [strtok_r]; the words are the arguments that
    [setup_stack] puts on the stack. *)

From S2P Require Import Prelude Bitmap Palloc Pagedir PagedirSpec CString Process UserMemory StackSpec.
Import Palloc Process CString.

Lemma string_at_spec fuel m a s : cstr m a s → (length s < fuel)%nat → string_at fuel m a = Ok s.
Proof.
  revert a s. induction fuel as [|fuel IH]; intros a s Hs Hf; [lia|]. cbn [string_at]. destruct s as [|c s].
  - rewrite (cstr_nil _ _ Hs). done.
  - apply cstr_cons in Hs as (-> & Hc & Hs). cbn [mbind res_bind]. rewrite (proj2 (Z.eqb_neq c 0)) by done.
    cbn [length] in Hf. by rewrite (IH (a + 1) s) by (done || lia).
Qed.

Lemma strings_at_spec m ps ss : Forall2 (cstr m) ps ss → strings_at m ps = Ok ss.
Proof.
  induction 1 as [|p s ps ss Hs _ IH]; [done|]. cbn [strings_at].
  rewrite (string_at_spec _ _ _ _ Hs) by apply (cstr_walk _ _ _ Hs). cbn [mbind res_bind]. by rewrite IH.
Qed.

(** A word that lies before the part still to be cut. *)
Definition behind (m : mem) (save : Z) (str : list Z) (p : Z) (s : list Z) : Prop :=
  cstr m p s ∧ (p + Z.of_nat (length s) = save ∧ str = [] ∨ p + Z.of_nat (length s) < save).

Lemma behind_kept m m' save str save' str' p s :
  same_outside m m' save (save + Z.of_nat (length str)) → save ≤ save' → (str = [] → str' = []) →
  (str' = [] ∨ save < save') → behind m save str p s → behind m' save' str' p s.
Proof.
  intros Hso Hle Hnil Hlt [Hs Hb]. split.
  - eapply cstr_same; [done..|]. intros i Hi. destruct Hb as [[<- ->]|?]; simpl; lia.
  - destruct Hb as [[E Hst]|?]; [|right; lia]. destruct Hlt as [->|]; [|right; lia].
    destruct (decide (save = save')) as [<-|]; [by left|right; lia].
Qed.

Section command_line.
Context (malloc : Z → Z).

Lemma args_loop_spec n m save arg_size size str ps dn :
  Forall in_u8 m → cstr m SP [32] → cstr m save str → SP + 1 < save → (length str < n)%nat →
  Forall2 (behind m save str) ps dn → 0 ≤ arg_size → arg_size + args_size (tokens [32] str) ≤ MAX_ARGS_LEN →
  4 * (Z.of_nat (length ps) + Z.of_nat (length (tokens [32] str))) ≤ size →
  ∃ ps' m', args_loop n m save arg_size size ps = Ok (ps', m') ∧ Forall2 (cstr m') ps' (dn ++ tokens [32] str) ∧
    same_outside m m' save (save + Z.of_nat (length str)).
Proof.
  revert m save arg_size str ps dn. induction n as [|n IH]; intros m save arg_size str ps dn Hm Hsp Hs Hsv Hn Hd Ha0 Ha Hsz; [lia|].
  cbn [args_loop]. destruct (strtok_r_step m NULL save SP [32] str) as
    [[-> (e & ->)]|(t & ts & a & save' & str' & m1 & Et & -> & Ht & Hsp1 & Hs' & Htok & Hpa & Hsv' & Hlen & Hlt & _ & Hso)];
    [done|done|done|simpl; lia| |].
  { cbn [mbind res_bind]. rewrite Z.eqb_refl. exists ps, m. split; [done|]. rewrite app_nil_r. split; [|by split_and!].
    eapply Forall2_impl; [exact Hd|]. by intros p s [? _]. }
  cbn [Z.eqb NULL] in Hpa, Hlen. rewrite Et in *. cbn [args_size foldr length] in Ha, Hsz.
  change (foldr _ 0 ts) with (args_size ts) in Ha. pose proof (args_size_nonneg ts). unfold MAX_ARGS_LEN in *.
  cbn [mbind res_bind]. rewrite (cstr_valid _ _ _ Ht), (strlen_spec _ _ _ Ht). cbn [mbind res_bind].
  rewrite u32_small by (unfold in_u32; lia). rewrite (proj2 (Z.ltb_ge 4096 _)) by lia. rewrite (proj2 (Z.ltb_ge size _)) by lia.
  assert (same_outside m m1 save (save + Z.of_nat (length str))) as Hso1.
  { destruct Hso as (H1 & H2 & Hx). split_and!; [done|done|]. intros x Hx2. apply Hx. destruct Hsv' as [[<- ->]|?]; simpl in *; lia. }
  destruct (IH m1 save' (arg_size + Z.of_nat (length t) + 1) str' (ps ++ [a]) (dn ++ [t])) as (ps' & m2 & -> & Hl & Hso2);
    [apply Hso|done|done|lia|lia| |lia|rewrite Htok; lia|rewrite length_app, Htok; simpl; lia|].
  { apply Forall2_app.
    - eapply Forall2_impl; [exact Hd|]. intros p s. apply behind_kept; [done|lia|by destruct str|].
      destruct Hsv' as [[_ ->]|?]; [by left|right; lia].
    - by apply Forall2_cons. }
  exists ps', m2. split; [done|]. rewrite <- app_assoc, Htok in Hl. split; [done|].
  destruct Hso1 as (HL1 & _ & Hx1), Hso2 as (HL2 & Hm2 & Hx2). split_and!; [congruence|done|].
  intros x Hx. rewrite Hx2, Hx1; [done|lia|]. destruct Hsv' as [[<- ->]|?]; simpl in *; lia.
Qed.

(** The page with the copy, cut to a page less one byte. *)
Lemma fn_copy_spec cmd page :
  Forall in_u8 cmd → Forall (λ c, c ≠ 0) cmd → Forall in_u8 page → length page = 4096%nat →
  ∃ m, fn_copy cmd page = Ok m ∧ Forall in_u8 m ∧ cstr m SP [32] ∧ cstr m FN (take 4095 cmd) ∧
    length m = (4 + (4096 + (length cmd + 1)))%nat.
Proof.
  intros Hc Hnz Hp Hl. set (m := [0; 32; 0; 0] ++ page ++ cmd ++ [0]).
  assert (length m = 4 + (4096 + (length cmd + 1)))%nat as Hml by (unfold m; rewrite !length_app, Hl; simpl; lia).
  assert (Forall in_u8 m) as Hm8.
  { unfold m. repeat (apply Forall_app; split); try done; repeat (constructor; [done|]); constructor. }
  assert (cstr m (Z.of_nat 4100) cmd) as Hsrc.
  { apply cstr_intro; [lia|done|]. rewrite Nat2Z.id. unfold slice, m. rewrite app_assoc.
    replace 4100%nat with (length ([0; 32; 0; 0] ++ page)) by (rewrite length_app, Hl; done). rewrite drop_app_length.
    apply take_ge. rewrite length_app. simpl. lia. }
  set (s := take 4095 cmd). assert (length s ≤ 4095)%nat as Hsl by (unfold s; rewrite length_take; lia).
  assert (Forall (λ c, c ≠ 0) s) as Hsnz by by apply Forall_take.
  unfold fn_copy. fold m. change FN with (Z.of_nat 4). change (Z.of_nat 4 + PGSIZE) with (Z.of_nat 4100).
  rewrite (strlcpy_spec m 4 4100 cmd PGSIZE) by (done || lia || (unfold PGSIZE; lia)).
  change (0 <? PGSIZE) with true. cbn [mbind res_bind]. change (Z.to_nat PGSIZE - 1)%nat with 4095%nat. fold s.
  eexists. split; [done|]. split_and!.
  - apply Forall_splice; [|done]. apply Forall_app. split; [by apply Forall_take|]. by repeat constructor.
  - apply cstr_intro; [done|by repeat constructor|]. rewrite slice_splice_disjoint; [reflexivity| |left; simpl; lia].
    rewrite Hml, length_app. simpl. lia.
  - apply cstr_splice; [lia|done|]. rewrite Hml. lia.
  - rewrite length_splice; [done|]. rewrite Hml, length_app. simpl. lia.
Qed.

(** The arguments of a new process are the words of its command line, cut
    to one page, in order; the file that is opened is named by the first word
    together with any spaces before it. *)
Lemma command_words cmd page w ws :
  Forall in_u8 cmd → Forall (λ c, c ≠ 0) cmd → Forall in_u8 page → length page = 4096%nat →
  let line := take 4095 cmd in
  tokens [32] line = w :: ws → args_size ws ≤ MAX_ARGS_LEN →
  4 * (Z.of_nat (length ws) + 2) ≤ MAX_ARGS_LEN + Z.of_nat (length w) + 1 → (∀ n, malloc n ≠ 0) →
  parse_command malloc cmd page =
    Ok (Some (take (length line - length (lstrip [32] line) + length w) line, w :: ws)).
Proof.
  intros Hc Hnz Hp Hl line Etok Hsz Hcnt Hmal. unfold parse_command.
  destruct (fn_copy_spec cmd page) as (m & -> & Hm & Hsp & Hfn & Hml); [done..|]. fold line in Hfn. cbn [mbind res_bind].
  destruct (strtok_r_step m FN NULL SP [32] line) as
    [[E _]|(t & ts & a & save' & str' & m1 & E & -> & Ht & Hsp1 & Hs' & Htok & Hpa & Hsv & Hlen & Hlt & Ea & Hso)];
    [done|done|done|simpl; unfold SP, FN; lia|congruence|].
  rewrite Etok in E. injection E as <- <-. change (if FN =? NULL then NULL else FN) with FN in Hpa, Hlen, Ea. unfold FN in Hpa.
  cbn [mbind res_bind]. rewrite (cstr_valid _ _ _ Ht), (strlen_spec _ _ _ Ht). cbn [mbind res_bind].
  rewrite (proj2 (Z.eqb_neq (malloc _) 0)) by done. unfold MAX_ARGS_LEN in *.
  assert (length m1 = length m) as Hml1 by apply Hso.
  destruct (args_loop_spec (length m1) m1 save' 0 (4096 + Z.of_nat (length w) + 1) str' [a] [w]) as (ps & m2 & -> & Hps & Hso2);
    [apply Hso|done|done|unfold SP; destruct Hsv; lia| | |lia|rewrite Htok; unfold MAX_ARGS_LEN; lia|rewrite Htok; simpl; lia|].
  { rewrite Hml1, Hml. unfold line in Hlt. rewrite length_take in Hlt. lia. }
  { by apply Forall2_cons. }
  cbn [mbind res_bind]. rewrite Htok in Hps. cbn [app] in Hps. rewrite (Forall2_length _ _ _ Hps). cbn [length].
  rewrite (proj2 (Z.ltb_ge _ _)) by lia. rewrite (strings_at_spec m2 ps (w :: ws)) by done.
  set (nm := take (length line - length (lstrip [32] line) + length w) line).
  destruct (lstrip_suffix [32] line) as [q Hq]. assert (length line = length q + length (lstrip [32%Z] line))%nat as Hlq by (rewrite Hq at 1; by rewrite length_app).
  assert (a + Z.of_nat (length w) ≤ FN + Z.of_nat (length line)) as Haw by (destruct Hsv as [[? ->]|?]; simpl in *; lia).
  assert (length nm = length line - length (lstrip [32%Z] line) + length w)%nat as Hnl.
  { unfold nm. rewrite length_take. unfold FN in *. lia. }
  assert (FN + Z.of_nat (length nm) = a + Z.of_nat (length w)) as Hend by lia.
  assert (cstr m2 FN nm) as Hnm.
  { assert (same_outside m m1 (a + Z.of_nat (length w)) save') as Hso' by done.
    assert (cstr m1 FN nm) as H1.
    { destruct Hfn as (_ & Hf & Hld). split_and!; [done|by apply Forall_take|]. intros i c Hi.
      destruct (decide (i < length nm)%nat) as [Hin|Hin].
      - rewrite lookup_app_l in Hi by done. destruct Hso as (_ & _ & Hx). rewrite Hx by lia. apply Hld.
        unfold nm in Hi. rewrite lookup_take_Some in Hi. destruct Hi as [Hi _]. rewrite lookup_app_l; [done|by eapply lookup_lt_Some].
      - rewrite lookup_app_r in Hi by lia. destruct (i - length nm)%nat eqn:Ei; [|done]. injection Hi as <-.
        replace (FN + Z.of_nat i) with (a + Z.of_nat (length w)) by lia. exact (cstr_end _ _ _ Ht). }
    eapply cstr_same; [exact Hso2|done|]. intros i Hi. destruct Hsv as [[? ->]|?]; simpl; lia. }
  rewrite (string_at_spec _ _ _ _ Hnm) by apply (cstr_walk _ _ _ Hnm). done.
Qed.
End command_line.

