(* ===== verification/Inode.v ===== *)
(** * filesys/inode.c, free-map.c and file.c

    The three files call each other: growing a file allocates sectors from the
    free map, allocating a sector writes the free map to its own file, and
    writing a file is [inode_write_at].  They are modelled together over one
    state [fs]: the sector store (the buffer cache, through its interface),
    the free map, and the kernel heap's [struct inode], [struct file] and
    [struct dir] objects by address, so that two openers of one inode share
    it.

    [malloc_ok k] tells whether the [k]-th heap request succeeds; theorems
    that need memory say so.  The recursion through the free map's own file is
    bounded by [FS_FUEL]; the free map's file never grows after its creation,
    so the recursion never goes deeper than two calls. *)

From S2P Require Import Prelude Bitmap Block Cache.
Import Bitmap.

Definition INODE_MAGIC : Z := 1229867844.  (* 0x494e4f44 *)
Definition DIRECT_COUNT : Z := 123.
Definition INDIRECT_COUNT : Z := 128.
Definition FREE_MAP_SECTOR : Z := 0.
Definition ROOT_DIR_SECTOR : Z := 1.
Definition NO_BLOCK : Z := W32 - 1.  (* (block_sector_t) -1 *)

(** The on-disk inode; [padding] is the hole after the [bool]. *)
Record inode_disk := mk_inode_disk {
  dlen : Z;
  magic : Z;
  directory : Z;
  padding : list Z;
  direct_blocks : list Z;
  indirect_block : Z;
  double_indirect_block : Z;
}.

Definition set_dlen (v : Z) (d : inode_disk) : inode_disk :=
  mk_inode_disk v (magic d) (directory d) (padding d) (direct_blocks d) (indirect_block d)
    (double_indirect_block d).
Definition set_direct (v : list Z) (d : inode_disk) : inode_disk :=
  mk_inode_disk (dlen d) (magic d) (directory d) (padding d) v (indirect_block d)
    (double_indirect_block d).
Definition set_indirect (v : Z) (d : inode_disk) : inode_disk :=
  mk_inode_disk (dlen d) (magic d) (directory d) (padding d) (direct_blocks d) v
    (double_indirect_block d).
Definition set_double_indirect (v : Z) (d : inode_disk) : inode_disk :=
  mk_inode_disk (dlen d) (magic d) (directory d) (padding d) (direct_blocks d)
    (indirect_block d) v.

(** The struct as the 512 bytes that are written to its sector, and back. *)
Definition encode_inode_disk (d : inode_disk) : list Z :=
  le_bytes 4 (dlen d) ++ le_bytes 4 (magic d) ++ [directory d] ++ padding d ++
  bits_bytes (direct_blocks d) ++ le_bytes 4 (indirect_block d) ++
  le_bytes 4 (double_indirect_block d).

Definition decode_inode_disk (b : list Z) : inode_disk :=
  mk_inode_disk (i32 (le_Z (slice 0 4 b))) (le_Z (slice 4 4 b)) (nth 8 b 0) (slice 9 3 b)
    (bytes_words 123 (slice 12 492 b)) (le_Z (slice 504 4 b)) (le_Z (slice 508 4 b)).

Record inode := mk_inode {
  isector : Z;
  open_cnt : Z;
  removed : bool;
  deny_write_cnt : Z;
  data : inode_disk;
}.

Definition set_open_cnt (v : Z) (i : inode) : inode :=
  mk_inode (isector i) v (removed i) (deny_write_cnt i) (data i).
Definition set_removed (v : bool) (i : inode) : inode :=
  mk_inode (isector i) (open_cnt i) v (deny_write_cnt i) (data i).
Definition set_deny (v : Z) (i : inode) : inode :=
  mk_inode (isector i) (open_cnt i) (removed i) v (data i).
Definition set_data (v : inode_disk) (i : inode) : inode :=
  mk_inode (isector i) (open_cnt i) (removed i) (deny_write_cnt i) v.

Record file := mk_file { f_inode : Z; f_pos : Z; deny_write : bool }.
Record dir := mk_dir { d_inode : Z; d_pos : Z }.

Definition bytes_to_sectors (size : Z) : Z :=
  u32 (Z.quot (i32 (size + BLOCK_SECTOR_SIZE - 1)) BLOCK_SECTOR_SIZE).

Section inode.
Context {S : Type} `{SectorStore S}.

Record fs := mk_fs {
  store : S;
  free_map : bitmap;
  free_map_file : option Z;
  inodes : gmap Z inode;
  open_inodes : list Z;
  files : gmap Z file;
  dirs : gmap Z dir;
  next_ptr : Z;
  nallocs : nat;
}.

Definition set_store (v : S) (st : fs) : fs :=
  mk_fs v (free_map st) (free_map_file st) (inodes st) (open_inodes st) (files st) (dirs st)
    (next_ptr st) (nallocs st).
Definition set_free_map (v : bitmap) (st : fs) : fs :=
  mk_fs (store st) v (free_map_file st) (inodes st) (open_inodes st) (files st) (dirs st)
    (next_ptr st) (nallocs st).
Definition set_free_map_file (v : option Z) (st : fs) : fs :=
  mk_fs (store st) (free_map st) v (inodes st) (open_inodes st) (files st) (dirs st)
    (next_ptr st) (nallocs st).
Definition set_inodes (v : gmap Z inode) (st : fs) : fs :=
  mk_fs (store st) (free_map st) (free_map_file st) v (open_inodes st) (files st) (dirs st)
    (next_ptr st) (nallocs st).
Definition set_open_inodes (v : list Z) (st : fs) : fs :=
  mk_fs (store st) (free_map st) (free_map_file st) (inodes st) v (files st) (dirs st)
    (next_ptr st) (nallocs st).
Definition set_files (v : gmap Z file) (st : fs) : fs :=
  mk_fs (store st) (free_map st) (free_map_file st) (inodes st) (open_inodes st) v (dirs st)
    (next_ptr st) (nallocs st).
Definition set_dirs (v : gmap Z dir) (st : fs) : fs :=
  mk_fs (store st) (free_map st) (free_map_file st) (inodes st) (open_inodes st) (files st) v
    (next_ptr st) (nallocs st).

(** ** The kernel heap and the sector store *)

Variable malloc_ok : nat → bool.

(** One request to [malloc] or [calloc]: a fresh address or a null pointer. *)
Definition malloc : stM fs (option Z) := λ st,
  let st' p := mk_fs (store st) (free_map st) (free_map_file st) (inodes st) (open_inodes st)
                 (files st) (dirs st) p (nallocs st + 1) in
  if malloc_ok (nallocs st) then Ok (Some (next_ptr st), st' (next_ptr st + 1))
  else Ok (None, st' (next_ptr st)).

Definition on_store {A} (m : stM S A) : stM fs A := λ st,
  match m (store st) with
  | Ok (a, s') => Ok (a, set_store s' st)
  | Err e => Err e
  end.

Definition get_inode (p : Z) : stM fs inode := λ st,
  match inodes st !! p with Some i => Ok (i, st) | None => Err EFault end.
Definition mod_inode (p : Z) (f : inode → inode) : stM fs unit :=
  smod (λ st, set_inodes (alter f p (inodes st)) st).
Definition get_file (p : Z) : stM fs file := λ st,
  match files st !! p with Some f => Ok (f, st) | None => Err EFault end.
Definition mod_file (p : Z) (f : file → file) : stM fs unit :=
  smod (λ st, set_files (alter f p (files st)) st).

(** Sector contents as an array of [INDIRECT_COUNT] sector numbers. *)
Definition read_blocks (sec : Z) : stM fs (list Z) :=
  b ← on_store (buffer_cache_read sec 0 BLOCK_SECTOR_SIZE);
  mret (bytes_words (Z.to_nat INDIRECT_COUNT) b).
Definition write_blocks (sec : Z) (ws : list Z) : stM fs unit :=
  on_store (buffer_cache_write sec (bits_bytes ws) 0 BLOCK_SECTOR_SIZE).
Definition zero : list Z := replicate SECTOR_BYTES 0.
Definition write_zero (sec : Z) : stM fs unit :=
  on_store (buffer_cache_write sec zero 0 BLOCK_SECTOR_SIZE).

(** ** Mapping a byte of a file to its sector *)

(** The doubly indirect case reads a whole sector into the 4-byte local
    [indirect_block]: an overflow of the stack. *)
Definition get_index_sector (d : inode_disk) (index : Z) : stM fs Z :=
  if index <? DIRECT_COUNT then
    slift (if index <? 0 then Err EFault else deref (direct_blocks d !! Z.to_nat index))
  else
    let index := index - DIRECT_COUNT in
    if index <? INDIRECT_COUNT then
      ws ← read_blocks (indirect_block d);
      slift (deref (ws !! Z.to_nat index))
    else
      let index := index - INDIRECT_COUNT in
      if index <? INDIRECT_COUNT * INDIRECT_COUNT then
        ws ← read_blocks (double_indirect_block d);
        w ← slift (deref (ws !! Z.to_nat (index / INDIRECT_COUNT)));
        _ ← on_store (buffer_cache_read w 0 BLOCK_SECTOR_SIZE);
        serr EFault
      else mret NO_BLOCK.

Definition byte_to_sector (ino : inode) (pos : Z) : stM fs Z :=
  if pos <? dlen (data ino)
  then get_index_sector (data ino) (Z.quot pos BLOCK_SECTOR_SIZE)
  else mret NO_BLOCK.

(** The bytes of this pass through the loop of [inode_read_at] and
    [inode_write_at]. *)
Definition chunk_size (ino : inode) (size offset : Z) : Z :=
  let sector_ofs := Z.rem offset BLOCK_SECTOR_SIZE in
  let inode_left := i32 (dlen (data ino) - offset) in
  let sector_left := BLOCK_SECTOR_SIZE - sector_ofs in
  let min_left := if inode_left <? sector_left then inode_left else sector_left in
  if size <? min_left then size else min_left.

Fixpoint read_loop (fuel : nat) (p size offset : Z) (acc : list Z) : stM fs (list Z) :=
  if 0 <? size then
    match fuel with
    | O => serr EFuel
    | Datatypes.S fuel =>
        ino ← get_inode p;
        sector_idx ← byte_to_sector ino offset;
        let sector_ofs := Z.rem offset BLOCK_SECTOR_SIZE in
        let chunk := chunk_size ino size offset in
        if chunk <=? 0 then mret acc
        else
          b ← on_store (buffer_cache_read sector_idx sector_ofs chunk);
          read_loop fuel p (size - chunk) (offset + chunk) (acc ++ b)
    end
  else mret acc.

(** Returns [bytes_read] and the bytes stored in the caller's buffer. *)
Definition inode_read_at (p size offset : Z) : stM fs (Z * list Z) :=
  b ← read_loop (Z.to_nat size) p size offset [];
  mret (Z.of_nat (length b), b).

(** Returns [bytes_written] and the final [offset]. *)
Fixpoint write_loop (fuel : nat) (p : Z) (buffer : list Z) (size offset bytes_written : Z)
    : stM fs (Z * Z) :=
  if 0 <? size then
    match fuel with
    | O => serr EFuel
    | Datatypes.S fuel =>
        ino ← get_inode p;
        sector_idx ← byte_to_sector ino offset;
        let sector_ofs := Z.rem offset BLOCK_SECTOR_SIZE in
        let chunk := chunk_size ino size offset in
        if chunk <=? 0 then mret (bytes_written, offset)
        else
          on_store (buffer_cache_write sector_idx (drop (Z.to_nat bytes_written) buffer)
                      sector_ofs chunk);;
          write_loop fuel p buffer (size - chunk) (offset + chunk) (bytes_written + chunk)
    end
  else mret (bytes_written, offset).

(** ** Allocation, over a given [inode_write_at] for the free map's file *)

Section allocate.
Variable iwa : Z → list Z → Z → Z → stM fs Z.

(** [bitmap_write (free_map, free_map_file)]. *)
Definition free_map_write_with : stM fs bool := λ st,
  (fp ← slift (deref (free_map_file st));
   f ← get_file fp;
   bitmap_write (λ buf size ofs, iwa (f_inode f) buf size ofs) (free_map st)) st.

(** [free_map_allocate]: the allocated sector, [None] for failure. *)
Definition free_map_allocate_with (cnt : Z) : stM fs (option Z) :=
  st ← sget;
  '(sector, fm) ← slift (bitmap_scan_and_flip (free_map st) 0 cnt false);
  smod (set_free_map fm);;
  if sector =? BITMAP_ERROR then mret None
  else if bool_decide (free_map_file st = None) then mret (Some sector)
  else
    ok ← free_map_write_with;
    if (ok : bool) then mret (Some sector)
    else
      st ← sget;
      fm ← slift (bitmap_set_multiple (free_map st) sector cnt false);
      smod (set_free_map fm);;
      mret None.

(** Fills the zero entries of an array of sector numbers below [n], from
    index [i] on; returns the array so far and whether all were allocated. *)
Fixpoint alloc_blocks (n : nat) (i : nat) (ws : list Z) : stM fs (bool * list Z) :=
  match n with
  | O => mret (true, ws)
  | Datatypes.S n =>
      w ← slift (deref (ws !! i));
      if w =? 0 then
        r ← free_map_allocate_with 1;
        match r with
        | None => mret (false, ws)
        | Some sec =>
            write_zero sec;;
            alloc_blocks n (Datatypes.S i) (<[i := sec]> ws)
        end
      else alloc_blocks n (Datatypes.S i) ws
  end.

(** The indirect part of [inode_allocate], for the block [blk] that holds the
    array: allocates it if needed, then its first [cnt] entries. *)
Definition alloc_indirect (blk : Z) (cnt : Z) : stM fs (bool * Z) :=
  r ← (if blk =? 0 then
         r ← free_map_allocate_with 1;
         match r with
         | None => mret None
         | Some sec => write_zero sec;; mret (Some sec)
         end
       else mret (Some blk));
  match r with
  | None => mret (false, blk)
  | Some blk =>
      ws ← read_blocks blk;
      '(ok, ws) ← alloc_blocks (Z.to_nat cnt) 0 ws;
      if (ok : bool) then write_blocks blk ws;; mret (true, blk)
      else mret (false, blk)
  end.

(** How many direct, indirect and doubly indirect sectors a file of [length]
    bytes takes; [None] is the early [return false]. *)
Definition allocate_counts (len : Z) : option (Z * Z * Z) :=
  let sector_ct := bytes_to_sectors len in
  if DIRECT_COUNT <? sector_ct then
    let sector_ct := sector_ct - DIRECT_COUNT in
    if INDIRECT_COUNT <? sector_ct then
      let sector_ct := sector_ct - INDIRECT_COUNT in
      if 0 <? sector_ct then None
      else Some (DIRECT_COUNT, INDIRECT_COUNT, sector_ct)
    else Some (DIRECT_COUNT, sector_ct, 0)
  else Some (sector_ct, 0, 0).

(** [inode_allocate]: the result and the struct after its assignments. *)
Definition inode_allocate_with (d : inode_disk) (len : Z) : stM fs (bool * inode_disk) :=
  match allocate_counts len with
  | None => mret (false, d)
  | Some ((direct_ct, indirect_ct), dbl_indirect_ct) =>
      '(ok, ws) ← alloc_blocks (Z.to_nat direct_ct) 0 (direct_blocks d);
      let d := set_direct ws d in
      if negb ok then mret (false, d)
      else
        '(ok, d) ← (if 0 <? indirect_ct then
                      '(ok, blk) ← alloc_indirect (indirect_block d) indirect_ct;
                      mret (ok, set_indirect blk d)
                    else mret (true, d));
        if negb ok then mret (false, d)
        else if 0 <? dbl_indirect_ct then
          '(ok, blk) ← alloc_indirect (double_indirect_block d) dbl_indirect_ct;
          mret (ok, set_double_indirect blk d)
        else mret (true, d)
  end.

(** The extension at the start of [inode_write_at]: the result of
    [inode_allocate] is dropped. *)
Definition extend_with (p : Z) (ino : inode) (new_length : Z) : stM fs unit :=
  '(_, d) ← inode_allocate_with (data ino) new_length;
  mod_inode p (set_data (set_dlen new_length d));;
  on_store (buffer_cache_write (isector ino)
              (encode_inode_disk (set_dlen new_length d)) 0 BLOCK_SECTOR_SIZE).

(** [inode_write_at] over the allocator. *)
Definition inode_write_at_with (p : Z) (buffer : list Z) (size offset : Z) : stM fs Z :=
  ino ← get_inode p;
  if negb (deny_write_cnt ino =? 0) then mret 0
  else
    let new_length := i32 (offset + size) in
    (if dlen (data ino) <? new_length then extend_with p ino new_length else mret tt);;
    '(bytes_written, offset) ← write_loop (Z.to_nat size) p buffer size offset 0;
    ino ← get_inode p;
    (if dlen (data ino) <? offset then
       mod_inode p (set_data (set_dlen offset (data ino)));;
       on_store (buffer_cache_write (isector ino)
                   (encode_inode_disk (set_dlen offset (data ino))) 0 BLOCK_SECTOR_SIZE)
     else mret tt);;
    mret bytes_written.

End allocate.

Fixpoint inode_write_at_fuel (fuel : nat) (p : Z) (buffer : list Z) (size offset : Z) : stM fs Z :=
  match fuel with
  | O => serr EFuel
  | Datatypes.S fuel => inode_write_at_with (inode_write_at_fuel fuel) p buffer size offset
  end.

Definition FS_FUEL : nat := 3%nat.
Definition inode_write_at : Z → list Z → Z → Z → stM fs Z := inode_write_at_fuel FS_FUEL.
Definition free_map_allocate : Z → stM fs (option Z) := free_map_allocate_with inode_write_at.
Definition inode_allocate : inode_disk → Z → stM fs (bool * inode_disk) :=
  inode_allocate_with inode_write_at.

Definition free_map_release (sector cnt : Z) : stM fs unit :=
  st ← sget;
  all ← slift (bitmap_all (free_map st) sector cnt);
  sassert all;;
  fm ← slift (bitmap_set_multiple (free_map st) sector cnt false);
  smod (set_free_map fm);;
  _ ← free_map_write_with inode_write_at;
  mret tt.

Fixpoint release_all (ws : list Z) : stM fs unit :=
  match ws with
  | [] => mret tt
  | w :: ws => free_map_release w 1;; release_all ws
  end.

(** The doubly indirect part reads a sector into a 4-byte local, as in
    [get_index_sector]. *)
Definition inode_deallocate (d : inode_disk) (len : Z) : stM fs bool :=
  let sector_ct := bytes_to_sectors len in
  let direct_ct := if DIRECT_COUNT <? sector_ct then DIRECT_COUNT else sector_ct in
  let sector_ct := sector_ct - direct_ct in
  let indirect_ct := if INDIRECT_COUNT <? sector_ct then INDIRECT_COUNT else sector_ct in
  let sector_ct := sector_ct - indirect_ct in
  let dbl_indirect_ct := bytes_to_sectors sector_ct in
  release_all (take (Z.to_nat direct_ct) (direct_blocks d));;
  (if 0 <? indirect_ct then
     ws ← read_blocks (indirect_block d);
     release_all (take (Z.to_nat indirect_ct) ws);;
     free_map_release (indirect_block d) 1
   else mret tt);;
  (if 0 <? dbl_indirect_ct then
     ws ← read_blocks (double_indirect_block d);
     w ← slift (deref (ws !! 0%nat));
     _ ← on_store (buffer_cache_read w 0 BLOCK_SECTOR_SIZE);
     serr EFault
   else mret tt);;
  mret true.

(** ** Creating, opening and closing inodes *)

Definition inode_init (st : fs) : fs := set_open_inodes [] st.

Definition fresh_inode_disk (len is_dir : Z) : inode_disk :=
  mk_inode_disk len INODE_MAGIC (if is_dir =? 0 then 0 else 1) [0; 0; 0]
    (replicate (Z.to_nat DIRECT_COUNT) 0) 0 0.

Definition inode_create (sector len is_dir : Z) : stM fs bool :=
  sassert (0 <=? len);;
  r ← malloc;
  match r with
  | None => mret false
  | Some _ =>
      '(ok, d) ← inode_allocate (fresh_inode_disk len is_dir) len;
      if (ok : bool) then
        on_store (buffer_cache_write sector (encode_inode_disk d) 0 BLOCK_SECTOR_SIZE);;
        mret true
      else mret false
  end.

Definition inode_reopen (p : option Z) : stM fs (option Z) :=
  match p with
  | None => mret None
  | Some p =>
      ino ← get_inode p;
      mod_inode p (set_open_cnt (open_cnt ino + 1));;
      mret (Some p)
  end.

(** The search of the list of open inodes. *)
Fixpoint find_open (l : list Z) (sector : Z) : stM fs (option Z) :=
  match l with
  | [] => mret None
  | p :: l =>
      ino ← get_inode p;
      if isector ino =? sector then mret (Some p) else find_open l sector
  end.

Definition inode_open (sector : Z) : stM fs (option Z) :=
  st ← sget;
  found ← find_open (open_inodes st) sector;
  match found with
  | Some p => inode_reopen (Some p)
  | None =>
      r ← malloc;
      match r with
      | None => mret None
      | Some p =>
          smod (λ st, set_open_inodes (p :: open_inodes st) st);;
          b ← on_store (buffer_cache_read sector 0 BLOCK_SECTOR_SIZE);
          smod (λ st, set_inodes
                  (<[p := mk_inode sector 1 false 0 (decode_inode_disk b)]> (inodes st)) st);;
          mret (Some p)
      end
  end.

Definition inode_get_inumber (p : Z) : stM fs Z :=
  ino ← get_inode p; mret (isector ino).

Definition inode_close (p : option Z) : stM fs unit :=
  match p with
  | None => mret tt
  | Some p =>
      ino ← get_inode p;
      mod_inode p (set_open_cnt (open_cnt ino - 1));;
      if open_cnt ino - 1 =? 0 then
        smod (λ st, set_open_inodes (filter (λ q, q ≠ p) (open_inodes st)) st);;
        (if removed ino then
           free_map_release (isector ino) 1;;
           inode_deallocate (data ino) (dlen (data ino));;
           mret tt
         else mret tt);;
        smod (λ st, set_inodes (delete p (inodes st)) st)
      else mret tt
  end.

Definition inode_remove (p : Z) : stM fs unit :=
  _ ← get_inode p; mod_inode p (set_removed true).

Definition inode_deny_write (p : Z) : stM fs unit :=
  ino ← get_inode p;
  mod_inode p (set_deny (deny_write_cnt ino + 1));;
  sassert (deny_write_cnt ino + 1 <=? open_cnt ino).

Definition inode_allow_write (p : Z) : stM fs unit :=
  ino ← get_inode p;
  sassert (0 <? deny_write_cnt ino);;
  sassert (deny_write_cnt ino <=? open_cnt ino);;
  mod_inode p (set_deny (deny_write_cnt ino - 1)).

Definition inode_length (p : Z) : stM fs Z :=
  ino ← get_inode p; mret (dlen (data ino)).

Definition inode_is_dir (p : option Z) : stM fs bool :=
  match p with
  | None => mret false
  | Some p => ino ← get_inode p; mret (negb (directory (data ino) =? 0))
  end.

Definition inode_is_removed (p : Z) : stM fs bool :=
  ino ← get_inode p; mret (removed ino).

(** ** file.c *)

Definition file_open (p : option Z) : stM fs (option Z) :=
  r ← malloc;
  match p, r with
  | Some ip, Some fp =>
      smod (λ st, set_files (<[fp := mk_file ip 0 false]> (files st)) st);;
      mret (Some fp)
  | _, _ => inode_close p;; mret None
  end.

Definition file_reopen (fp : Z) : stM fs (option Z) :=
  f ← get_file fp;
  p ← inode_reopen (Some (f_inode f));
  file_open p.

Definition file_allow_write (fp : Z) : stM fs unit :=
  f ← get_file fp;
  if deny_write f then
    mod_file fp (λ f, mk_file (f_inode f) (f_pos f) false);;
    inode_allow_write (f_inode f)
  else mret tt.

Definition file_deny_write (fp : Z) : stM fs unit :=
  f ← get_file fp;
  if negb (deny_write f) then
    mod_file fp (λ f, mk_file (f_inode f) (f_pos f) true);;
    inode_deny_write (f_inode f)
  else mret tt.

Definition file_close (fp : option Z) : stM fs unit :=
  match fp with
  | None => mret tt
  | Some fp =>
      file_allow_write fp;;
      f ← get_file fp;
      inode_close (Some (f_inode f));;
      smod (λ st, set_files (delete fp (files st)) st)
  end.

Definition file_get_inode (fp : Z) : stM fs Z := f ← get_file fp; mret (f_inode f).

Definition file_read_at (fp size file_ofs : Z) : stM fs (Z * list Z) :=
  f ← get_file fp; inode_read_at (f_inode f) size file_ofs.

Definition file_read (fp size : Z) : stM fs (Z * list Z) :=
  f ← get_file fp;
  '(n, b) ← inode_read_at (f_inode f) size (f_pos f);
  mod_file fp (λ f, mk_file (f_inode f) (f_pos f + n) (deny_write f));;
  mret (n, b).

Definition file_write_at (fp : Z) (buffer : list Z) (size file_ofs : Z) : stM fs Z :=
  f ← get_file fp; inode_write_at (f_inode f) buffer size file_ofs.

Definition file_write (fp : Z) (buffer : list Z) (size : Z) : stM fs Z :=
  f ← get_file fp;
  n ← inode_write_at (f_inode f) buffer size (f_pos f);
  mod_file fp (λ f, mk_file (f_inode f) (f_pos f + n) (deny_write f));;
  mret n.

Definition file_length (fp : Z) : stM fs Z :=
  f ← get_file fp; inode_length (f_inode f).

Definition file_seek (fp new_pos : Z) : stM fs unit :=
  _ ← get_file fp;
  sassert (0 <=? new_pos);;
  mod_file fp (λ f, mk_file (f_inode f) new_pos (deny_write f)).

Definition file_tell (fp : Z) : stM fs Z := f ← get_file fp; mret (f_pos f).

(** ** free-map.c: creating, opening and closing the free map *)

(** [storage] is the uninitialised array [bitmap_create] obtains, [None] if one
    of its two allocations fails: it returns null then in either case. *)
Definition free_map_init (storage : option (list Z)) : stM fs unit :=
  st ← sget;
  r ← slift (bitmap_create true storage (dev_size (store st)));
  match r with
  | None => serr EPanic
  | Some b =>
      b ← slift (bitmap_mark b FREE_MAP_SECTOR);
      b ← slift (bitmap_mark b ROOT_DIR_SECTOR);
      smod (set_free_map b)
  end.

Definition free_map_open : stM fs unit :=
  p ← inode_open FREE_MAP_SECTOR;
  fp ← file_open p;
  smod (set_free_map_file fp);;
  match fp with
  | None => serr EPanic
  | Some fp =>
      st ← sget;
      '(ok, fm) ← bitmap_read (λ size ofs, file_read_at fp size ofs) (free_map st);
      smod (set_free_map fm);;
      if (ok : bool) then mret tt else serr EPanic
  end.

(** The pointer [free_map_file] is not reset. *)
Definition free_map_close : stM fs unit :=
  st ← sget; file_close (free_map_file st).

Definition free_map_create : stM fs unit :=
  st ← sget;
  ok ← inode_create FREE_MAP_SECTOR (bitmap_file_size (free_map st)) 0;
  if negb ok then serr EPanic
  else
    p ← inode_open FREE_MAP_SECTOR;
    fp ← file_open p;
    smod (set_free_map_file fp);;
    match fp with
    | None => serr EPanic
    | Some _ =>
        ok ← free_map_write_with inode_write_at;
        if (ok : bool) then mret tt else serr EPanic
    end.

End inode.
Arguments fs S : clear implicits.
