(* ===== verification/InodeSpec.v ===== *)
(** * What the inode layer computes

    The bytes of a file as its inode describes them ([content]), and the
    correctness of reading and writing against that description. *)

From S2P Require Import Prelude Bitmap Block Cache Inode.
Import Bitmap.

(** ** The on-disk inode as a record and as a sector *)

Definition wf_inode_disk (d : inode_disk) : Prop :=
  in_i32 (dlen d) ∧ in_u32 (magic d) ∧ length (padding d) = 3%nat ∧
  length (direct_blocks d) = 123%nat ∧ Forall in_u32 (direct_blocks d) ∧
  in_u32 (indirect_block d) ∧ in_u32 (double_indirect_block d).

Lemma length_bytes_words n l : length (bytes_words n l) = n.
Proof. revert l. induction n; intros; simpl; auto. Qed.

Lemma length_encode d :
  length (padding d) = 3%nat → length (direct_blocks d) = 123%nat →
  length (encode_inode_disk d) = SECTOR_BYTES.
Proof.
  intros Hp Hd. unfold encode_inode_disk.
  rewrite !length_app, length_bits_bytes, !length_le_bytes, Hp, Hd. done.
Qed.

(** Peels the field in front of an encoded record off a slice. *)
Lemma slice_skip {A} (o n : nat) (l1 l2 : list A) :
  (length l1 ≤ o)%nat → slice o n (l1 ++ l2) = slice (o - length l1) n l2.
Proof. intros. unfold slice. by rewrite drop_app_ge. Qed.
Lemma slice_head {A} (n : nat) (l1 l2 : list A) :
  length l1 = n → slice 0 n (l1 ++ l2) = l1.
Proof. intros. unfold slice. rewrite drop_0. by apply take_app_length'. Qed.

Lemma le_Z_bytes_u32 z : in_u32 z → le_Z (le_bytes 4 z) = z.
Proof. intros. rewrite le_Z_bytes. by apply u32_small. Qed.
Lemma le_Z_bytes_i32 z : in_i32 z → i32 (le_Z (le_bytes 4 z)) = z.
Proof. intros. rewrite le_Z_bytes. unfold in_i32, i32 in *. simpl. dlia. Qed.

Lemma decode_encode d : wf_inode_disk d → decode_inode_disk (encode_inode_disk d) = d.
Proof.
  intros (Hl & Hm & Hp & Hd & Hw & Hi & Hdi). destruct d as [len mg dr pd db ib dib]; simpl in *.
  unfold decode_inode_disk, encode_inode_disk; cbn [dlen magic directory padding direct_blocks
    indirect_block double_indirect_block].
  set (l4 := le_bytes 4).
  assert (∀ z, length (l4 z) = 4%nat) as H4 by (intros; apply length_le_bytes).
  assert (length (bits_bytes db) = 492%nat) as Hb by (rewrite length_bits_bytes, Hd; done).
  f_equal.
  - rewrite slice_head by done. by apply le_Z_bytes_i32.
  - rewrite slice_skip by (rewrite H4; lia). rewrite H4, slice_head by done.
    by apply le_Z_bytes_u32.
  - do 3 (rewrite slice_skip by (rewrite ?H4; simpl; lia)). rewrite !H4.
    by rewrite slice_head.
  - do 4 (rewrite slice_skip by (rewrite ?H4; simpl; lia)). rewrite !H4, Hp.
    rewrite slice_head by done. rewrite <- Hd at 1. by apply bytes_words_bits.
  - do 5 (rewrite slice_skip by (rewrite ?H4, ?Hb, ?Hp; simpl; lia)). rewrite !H4, Hp, Hb.
    rewrite slice_head by done. by apply le_Z_bytes_u32.
  - do 6 (rewrite slice_skip by (rewrite ?H4, ?Hb, ?Hp; simpl; lia)). rewrite !H4, Hp, Hb.
    unfold slice. change (508 - 4 - 4 - length [dr] - 3 - 492 - 4)%nat with 0%nat. rewrite drop_0. rewrite take_ge by (rewrite H4; lia). by apply le_Z_bytes_u32.
Qed.

Section spec.
Context {S : Type} `{SectorStoreLaws S}.
Implicit Types (s : S) (d : inode_disk) (st : fs S).

(** ** The sectors and the bytes of a file *)

Definition MAX_FILE : Z := 251 * BLOCK_SECTOR_SIZE.
Definition nsec d : nat := Z.to_nat (bytes_to_sectors (dlen d)).
Definition index_blocks s d : list Z :=
  direct_blocks d ++ bytes_words 128 (disk s (indirect_block d)).
Definition data_sectors s d : list Z := take (nsec d) (index_blocks s d).
Definition raw s d : list Z := concat (disk s <$> data_sectors s d).
Definition content s d : list Z := take (Z.to_nat (dlen d)) (raw s d).

(** The inode's length is at most what its blocks can index, its data sectors
    are distinct sectors of the device, and the indirect block, if it is
    used, is another one. *)
Record wf_disk s d : Prop := {
  wd_len : 0 ≤ dlen d ≤ MAX_FILE;
  wd_direct : length (direct_blocks d) = 123%nat;
  wd_sectors : Forall (on_disk s) (data_sectors s d);
  wd_nodup : NoDup (data_sectors s d);
  wd_ind : (123 < nsec d)%nat → on_disk s (indirect_block d) ∧ indirect_block d ∉ data_sectors s d;
}.

Lemma bytes_to_sectors_eq n :
  0 ≤ n ≤ MAX_FILE → bytes_to_sectors n = (n + 511) / 512 ∧ 0 ≤ bytes_to_sectors n ≤ 251.
Proof.
  unfold MAX_FILE, bytes_to_sectors, BLOCK_SECTOR_SIZE. intros.
  rewrite i32_small by (unfold in_i32; lia).
  rewrite Z.quot_div_nonneg by lia.
  replace (n + 512 - 1) with (n + 511) by lia.
  rewrite u32_small by (unfold in_u32; dlia). split; [done|dlia].
Qed.

Lemma length_index_blocks s d :
  length (direct_blocks d) = 123%nat → length (index_blocks s d) = 251%nat.
Proof. intros Hd. unfold index_blocks. by rewrite length_app, length_bytes_words, Hd. Qed.

Lemma nsec_spec s d : wf_disk s d →
  Z.of_nat (nsec d) = (dlen d + 511) / 512 ∧ (nsec d ≤ 251)%nat ∧
  length (data_sectors s d) = nsec d.
Proof.
  intros [Hl Hd _ _ _]. unfold data_sectors. rewrite length_take, length_index_blocks by done.
  destruct (bytes_to_sectors_eq (dlen d)) as [He ?]; [done|].
  unfold nsec. rewrite <- He. split_and!; lia.
Qed.

Lemma on_disk_eq s s' x : dev_size s' = dev_size s → on_disk s' x ↔ on_disk s x.
Proof. unfold on_disk. intros ->. done. Qed.

(** A store that agrees on the sectors an inode refers to describes the same
    file. *)
Lemma data_sectors_frame s s' d :
  ((123 < nsec d)%nat → disk s' (indirect_block d) = disk s (indirect_block d)) →
  length (direct_blocks d) = 123%nat → data_sectors s' d = data_sectors s d.
Proof.
  intros Hi Hd. unfold data_sectors, index_blocks.
  destruct (decide (123 < nsec d)%nat); [by rewrite Hi|].
  rewrite !take_app_le by lia. done.
Qed.

Definition agrees s s' d : Prop :=
  store_ok s' ∧ dev_size s' = dev_size s ∧
  (∀ x, x ∈ data_sectors s d → disk s' x = disk s x) ∧
  ((123 < nsec d)%nat → disk s' (indirect_block d) = disk s (indirect_block d)).

Lemma wf_disk_frame s s' d :
  wf_disk s d → dev_size s' = dev_size s →
  ((123 < nsec d)%nat → disk s' (indirect_block d) = disk s (indirect_block d)) →
  wf_disk s' d ∧ data_sectors s' d = data_sectors s d.
Proof.
  intros [Hl Hd Hs Hn Hi] He Hf.
  assert (data_sectors s' d = data_sectors s d) as E by by apply data_sectors_frame.
  split; [|done]. split; rewrite ?E; try done.
  - eapply Forall_impl; [exact Hs|]. intros x. by apply on_disk_eq.
  - intros Hc. by rewrite on_disk_eq by done; auto.
Qed.

Lemma raw_frame s s' d : wf_disk s d → agrees s s' d → raw s' d = raw s d.
Proof.
  intros Hwf (Hok & He & Hx & Hi).
  destruct (wf_disk_frame s s' d) as [Hwf' E]; [done..|].
  unfold raw. rewrite E. f_equal.
  apply list_fmap_ext. intros k x Hk. apply Hx. by eapply list_elem_of_lookup_2.
Qed.

Lemma content_frame s s' d :
  wf_disk s d → agrees s s' d → wf_disk s' d ∧ content s' d = content s d.
Proof.
  intros Hwf Ha. split; [|unfold content; by rewrite (raw_frame s)].
  destruct Ha as (? & ? & _ & ?). by apply (wf_disk_frame s s' d).
Qed.

Lemma disk_eq_agrees s s' d : wf_disk s d → disk_eq s s' → agrees s s' d.
Proof.
  intros [_ _ Hs _ Hi] (Hok & He & Hx). split_and!; [done..| |].
  - intros x Hx'. apply Hx. by eapply Forall_forall in Hs.
  - intros Hc. apply Hx. by apply Hi.
Qed.

Lemma length_content s d : store_ok s → wf_disk s d → length (content s d) = Z.to_nat (dlen d).
Proof.
  intros Hok Hwf. destruct (nsec_spec s d Hwf) as (Hn & ? & Hl). pose proof (wd_len _ _ Hwf).
  unfold content, raw. rewrite length_take.
  rewrite (length_concat_blocks SECTOR_BYTES); [|apply Forall_fmap, Forall_forall; intros;
    by apply disk_length].
  rewrite length_fmap, Hl. unfold SECTOR_BYTES. change (Z.to_nat BLOCK_SECTOR_SIZE) with 512%nat.
  apply Nat.min_l. dlia.
Qed.

Lemma disk_eq_refl s : store_ok s → disk_eq s s.
Proof. by split. Qed.
Lemma disk_eq_trans s1 s2 s3 : disk_eq s1 s2 → disk_eq s2 s3 → disk_eq s1 s3.
Proof.
  intros (? & E & Ha) (? & ? & Hb). split_and!; [done|congruence|].
  intros x Hx. rewrite Hb by (by apply (on_disk_eq s1 s2 x E)). by apply Ha.
Qed.

(** ** Running store operations inside the file system *)

Lemma set_store_store st : set_store (store st) st = st.
Proof. by destruct st. Qed.

Lemma set_store_twice s1 s2 st : set_store s2 (set_store s1 st) = set_store s2 st.
Proof. done. Qed.

Lemma on_store_read st sec ofs n :
  store_ok (store st) → on_disk (store st) sec → 0 ≤ ofs → 0 ≤ n → ofs + n ≤ BLOCK_SECTOR_SIZE →
  ∃ s', on_store (buffer_cache_read sec ofs n) st =
          Ok (slice (Z.to_nat ofs) (Z.to_nat n) (disk (store st) sec), set_store s' st) ∧
        disk_eq (store st) s'.
Proof.
  intros. unfold on_store.
  destruct (store_read (store st) sec ofs n) as (s' & -> & ?); [done..|]. eauto.
Qed.

Lemma on_store_write st sec src ofs n :
  store_ok (store st) → on_disk (store st) sec → 0 ≤ ofs → 0 ≤ n → ofs + n ≤ BLOCK_SECTOR_SIZE →
  n ≤ Z.of_nat (length src) →
  ∃ s', on_store (buffer_cache_write sec src ofs n) st = Ok (tt, set_store s' st) ∧
        disk_upd (store st) s' sec
          (splice (Z.to_nat ofs) (take (Z.to_nat n) src) (disk (store st) sec)).
Proof.
  intros. unfold on_store.
  destruct (store_write (store st) sec src ofs n) as (s' & -> & ?); [done..|]. eauto.
Qed.

Lemma read_blocks_spec st sec :
  store_ok (store st) → on_disk (store st) sec →
  ∃ s', read_blocks sec st = Ok (bytes_words 128 (disk (store st) sec), set_store s' st) ∧
        disk_eq (store st) s'.
Proof.
  intros Hok Hs. unfold read_blocks.
  destruct (on_store_read st sec 0 BLOCK_SECTOR_SIZE) as (s' & Hr & ?); [done..|].
  exists s'. split; [|done]. erewrite stM_bind_run by exact Hr.
  rewrite slice_full by by rewrite disk_length. done.
Qed.

Lemma get_index_sector_spec st d idx :
  store_ok (store st) → wf_disk (store st) d → 0 ≤ idx < Z.of_nat (nsec d) →
  ∃ w s', get_index_sector d idx st = Ok (w, set_store s' st) ∧
    data_sectors (store st) d !! Z.to_nat idx = Some w ∧ disk_eq (store st) s'.
Proof.
  intros Hok Hwf Hi. destruct (nsec_spec _ _ Hwf) as (Hn & Hle & Hl).
  pose proof (wd_direct _ _ Hwf) as Hd. unfold get_index_sector, DIRECT_COUNT, INDIRECT_COUNT.
  destruct (lookup_lt_is_Some_2 (data_sectors (store st) d) (Z.to_nat idx)) as [w Hw]; [lia|].
  exists w. pose proof Hw as Hw'. unfold data_sectors, index_blocks in Hw'.
  rewrite lookup_take_lt in Hw' by lia.
  destruct (Z.ltb_spec idx 123).
  - exists (store st). rewrite set_store_store. split_and!; [|done|by apply disk_eq_refl].
    rewrite lookup_app_l in Hw' by lia.
    destruct (Z.ltb_spec idx 0); [lia|]. by rewrite Hw'.
  - destruct (wd_ind _ _ Hwf) as [Hod _]; [lia|].
    destruct (Z.ltb_spec (idx - 123) 128); [|lia].
    destruct (read_blocks_spec st (indirect_block d)) as (s' & Hr & ?); [done..|].
    exists s'. split_and!; [|done..]. erewrite stM_bind_run by exact Hr.
    rewrite lookup_app_r in Hw' by lia.
    replace (Z.to_nat (idx - 123)) with (Z.to_nat idx - length (direct_blocks d))%nat by lia.
    by rewrite Hw'.
Qed.

(** ** Reading *)

Lemma get_inode_run st p ino : inodes st !! p = Some ino → get_inode p st = Ok (ino, st).
Proof. unfold get_inode. by intros ->. Qed.

Lemma byte_to_sector_spec st ino pos :
  store_ok (store st) → wf_disk (store st) (data ino) → 0 ≤ pos < dlen (data ino) →
  ∃ w s', byte_to_sector ino pos st = Ok (w, set_store s' st) ∧
    data_sectors (store st) (data ino) !! Z.to_nat (pos / 512) = Some w ∧ disk_eq (store st) s'.
Proof.
  intros Hok Hwf Hp. unfold byte_to_sector. destruct (Z.ltb_spec pos (dlen (data ino))); [|lia].
  rewrite Z.quot_div_nonneg by (unfold BLOCK_SECTOR_SIZE; lia).
  destruct (nsec_spec _ _ Hwf) as (Hn & _).
  apply get_index_sector_spec; [done..|]. unfold BLOCK_SECTOR_SIZE. dlia.
Qed.

(** The chunk stays inside the sector and inside the file, and is positive
    while there is something left. *)
Lemma chunk_size_spec ino size offset :
  in_i32 (dlen (data ino)) → 0 ≤ offset < W31 → 0 < size → 0 ≤ dlen (data ino) →
  (offset < dlen (data ino) →
     0 < chunk_size ino size offset ≤ size ∧ offset + chunk_size ino size offset ≤ dlen (data ino) ∧
     offset mod 512 + chunk_size ino size offset ≤ 512) ∧
  (dlen (data ino) ≤ offset → chunk_size ino size offset ≤ 0).
Proof.
  unfold chunk_size, in_i32, BLOCK_SECTOR_SIZE. intros Hl Ho Hs Hp.
  rewrite Z.rem_mod_nonneg by lia.
  rewrite i32_small by (unfold in_i32; lia).
  pose proof (Z.mod_pos_bound offset 512).
  repeat case_match; bool_props; split; intros; lia.
Qed.

Lemma content_chunk s d k w o m :
  store_ok s → wf_disk s d → data_sectors s d !! k = Some w → (o + m ≤ SECTOR_BYTES)%nat →
  (k * SECTOR_BYTES + o + m ≤ Z.to_nat (dlen d))%nat →
  slice (k * SECTOR_BYTES + o) m (content s d) = slice o m (disk s w).
Proof.
  intros Hok Hwf Hk Hm Hl. unfold content, raw. rewrite slice_take by done.
  apply slice_concat; [|by rewrite list_lookup_fmap, Hk|done].
  apply Forall_fmap, Forall_forall. intros. by apply disk_length.
Qed.

(** The position of byte [offset] in its sector. *)
Lemma split_offset offset :
  0 ≤ offset →
  Z.to_nat offset = (Z.to_nat (offset / 512) * SECTOR_BYTES + Z.to_nat (offset mod 512))%nat.
Proof. intros. unfold SECTOR_BYTES. change (Z.to_nat BLOCK_SECTOR_SIZE) with 512%nat. dlia. Qed.

Lemma read_loop_spec fuel st p ino size offset acc :
  store_ok (store st) → inodes st !! p = Some ino → wf_disk (store st) (data ino) →
  0 ≤ offset → offset + size < W31 → size ≤ Z.of_nat fuel →
  ∃ s', read_loop fuel p size offset acc st =
          Ok (acc ++ slice (Z.to_nat offset) (Z.to_nat size) (content (store st) (data ino)),
              set_store s' st) ∧ disk_eq (store st) s'.
Proof.
  revert st size offset acc. induction fuel as [|fuel IH];
    intros st size offset acc Hok Hp Hwf Ho Hos Hf; cbn [read_loop];
    destruct (Z.ltb_spec 0 size) as [Hs|Hs]; try lia.
  1,3: exists (store st); rewrite set_store_store; split; [|by apply disk_eq_refl];
    replace (Z.to_nat size) with 0%nat by lia; by rewrite app_nil_r.
  erewrite stM_bind_run by (by apply get_inode_run).
  pose proof (wd_len _ _ Hwf) as Hl. unfold MAX_FILE, BLOCK_SECTOR_SIZE in Hl.
  destruct (chunk_size_spec ino size offset) as [Hin Hout]; [unfold in_i32; lia|lia..|].
  destruct (decide (offset < dlen (data ino))) as [Hlt|Hge].
  - destruct (Hin Hlt) as (Hc & Hcl & Hcs). clear Hin Hout.
    set (c := chunk_size ino size offset) in *.
    destruct (byte_to_sector_spec st ino offset) as (w & s1 & Hb & Hw & He1); [done|done|lia|].
    erewrite stM_bind_run by exact Hb.
    destruct (Z.leb_spec c 0); [lia|].
    assert (on_disk (store st) w) as Hod.
    { pose proof (wd_sectors _ _ Hwf) as Hall. by eapply Forall_lookup_1 in Hall. }
    assert (disk s1 w = disk (store st) w) as Hdw by by apply He1.
    rewrite Z.rem_mod_nonneg by (unfold BLOCK_SECTOR_SIZE; lia).
    pose proof (Z.mod_pos_bound offset 512).
    destruct (on_store_read (set_store s1 st) w (offset mod BLOCK_SECTOR_SIZE) c)
      as (s2 & Hr & He2); unfold BLOCK_SECTOR_SIZE in *; simpl in *.
    { apply He1. } { apply (on_disk_eq (store st)); [apply He1|done]. } { lia. } { lia. } { lia. }
    erewrite stM_bind_run by exact Hr.
    destruct (content_frame _ _ _ Hwf (disk_eq_agrees _ _ _ Hwf (disk_eq_trans _ _ _ He1 He2)))
      as [Hwf2 Hc2].
    destruct (IH (set_store s2 st) (size - c) (offset + c) (acc ++
      slice (Z.to_nat (offset mod 512)) (Z.to_nat c) (disk s1 w))) as (s3 & Hrun & He3);
      try done; simpl; try lia.
    { apply He2. }
    exists s3. split; [|by eapply disk_eq_trans; [|eapply disk_eq_trans]].
    rewrite set_store_twice, Hrun, set_store_twice. simpl. rewrite Hc2, Hdw. do 2 f_equal.
    rewrite <- app_assoc. f_equal.
    replace (Z.to_nat size) with (Z.to_nat c + Z.to_nat (size - c))%nat by lia.
    rewrite slice_add. f_equal; [|f_equal; lia].
    rewrite (split_offset offset) by lia.
    symmetry. apply content_chunk; try done; unfold SECTOR_BYTES, BLOCK_SECTOR_SIZE; dlia.
  - specialize (Hout ltac:(lia)). exists (store st). rewrite set_store_store.
    split; [|by apply disk_eq_refl].
    unfold byte_to_sector. destruct (Z.ltb_spec offset (dlen (data ino))); [lia|].
    erewrite stM_bind_run by reflexivity.
    destruct (Z.leb_spec (chunk_size ino size offset) 0); [|lia].
    unfold slice. rewrite drop_ge, take_nil, app_nil_r; [done|].
    rewrite length_content by done. lia.
Qed.

Lemma inode_read_at_spec st p ino size offset :
  store_ok (store st) → inodes st !! p = Some ino → wf_disk (store st) (data ino) →
  0 ≤ offset → 0 ≤ size → offset + size < W31 →
  ∃ s', inode_read_at p size offset st =
          Ok ((Z.max 0 (Z.min size (dlen (data ino) - offset)),
               slice (Z.to_nat offset) (Z.to_nat size) (content (store st) (data ino))),
              set_store s' st) ∧ disk_eq (store st) s'.
Proof.
  intros Hok Hp Hwf Ho Hs Hlt. unfold inode_read_at.
  destruct (read_loop_spec (Z.to_nat size) st p ino size offset []) as (s' & Hr & He);
    try done; try lia.
  exists s'. split; [|done]. erewrite stM_bind_run by exact Hr. simpl.
  unfold mret, stM_ret. do 3 f_equal.
  unfold slice. rewrite length_take, length_drop, length_content by done. lia.
Qed.

(** ** Writing inside a file *)

(** From [s] to [s'] only the data sectors of [d] changed, and the file's
    bytes are now [c]. *)
Record file_upd s s' d (c : list Z) : Prop := {
  fu_ok : store_ok s';
  fu_size : dev_size s' = dev_size s;
  fu_wf : wf_disk s' d;
  fu_sectors : data_sectors s' d = data_sectors s d;
  fu_content : content s' d = c;
  fu_slack : drop (Z.to_nat (dlen d)) (raw s' d) = drop (Z.to_nat (dlen d)) (raw s d);
  fu_frame : ∀ x, on_disk s x → x ∉ data_sectors s d → disk s' x = disk s x;
}.

Lemma file_upd_eq s s' d : wf_disk s d → disk_eq s s' → file_upd s s' d (content s d).
Proof.
  intros Hwf He. pose proof (disk_eq_agrees _ _ _ Hwf He) as Ha.
  destruct (content_frame _ _ _ Hwf Ha) as [Hwf' Hc]. pose proof Ha as (? & ? & _ & Hi).
  split; try done; [| |intros; by apply He].
  - apply data_sectors_frame; [done|]. by apply (wd_direct s).
  - by rewrite (raw_frame s s').
Qed.

Lemma file_upd_trans s1 s2 s3 d c1 c2 :
  file_upd s1 s2 d c1 → file_upd s2 s3 d c2 → file_upd s1 s3 d c2.
Proof.
  intros [? He ? Hd ? ? Hf] [? ? ? Hd2 ? ? Hf2]. split; try done; try congruence.
  intros x Hx Hn. rewrite Hf2; [by apply Hf|by apply (on_disk_eq s1 s2 x He)|by rewrite Hd].
Qed.

(** One chunk: [src] written at [o] in the [k]-th sector of the file. *)
Lemma file_upd_chunk s s' d k w o src :
  store_ok s → wf_disk s d → data_sectors s d !! k = Some w →
  (o + length src ≤ SECTOR_BYTES)%nat →
  (k * SECTOR_BYTES + o + length src ≤ Z.to_nat (dlen d))%nat →
  disk_upd s s' w (splice o src (disk s w)) →
  file_upd s s' d (splice (k * SECTOR_BYTES + o) src (content s d)).
Proof.
  intros Hok Hwf Hk Ho Hl (Hok' & He & Hw & Hx).
  pose proof Hwf as [Hlen Hd Hs Hnd Hi].
  assert (w ∈ data_sectors s d) as Hwin by by eapply list_elem_of_lookup_2.
  assert ((123 < nsec d)%nat → disk s' (indirect_block d) = disk s (indirect_block d)) as Hind.
  { intros Hc. destruct (Hi Hc). apply Hx; [done|]. intros E. rewrite E in *. done. }
  destruct (wf_disk_frame s s' d) as [Hwf' Hds]; [done..|].
  assert (raw s' d = splice (k * SECTOR_BYTES + o) src (raw s d)) as Hraw.
  { unfold raw. rewrite Hds, (splice_concat SECTOR_BYTES _ _ (disk s w)); [|
      by apply Forall_fmap, Forall_forall; intros; apply disk_length|
      by rewrite list_lookup_fmap, Hk|done].
    f_equal. apply list_eq. intros j. rewrite list_lookup_fmap.
    destruct (decide (j = k)) as [->|Hne].
    - rewrite Hk, list_lookup_insert_eq; [by simpl; f_equal|].
      rewrite length_fmap. by eapply lookup_lt_Some.
    - rewrite list_lookup_insert_ne, list_lookup_fmap by done.
      destruct (data_sectors s d !! j) as [x|] eqn:Hj; [|done]. simpl. f_equal.
      apply Hx; [by eapply Forall_lookup_1 in Hs|]. intros ->.
      apply Hne. by eapply NoDup_lookup. }
  assert (Z.to_nat (dlen d) ≤ length (raw s d))%nat as Hrl.
  { pose proof (length_content s d Hok Hwf) as Hlc. unfold content in Hlc.
    rewrite length_take in Hlc. lia. }
  split; try done; [| |intros x ? Hn; apply Hx; [done|by intros ->]].
  - unfold content. rewrite Hraw. by rewrite splice_take by lia.
  - rewrite Hraw. unfold splice. rewrite !drop_app, (drop_ge (take _ _)), (drop_ge src), drop_drop;
      rewrite ?length_take; try lia. simpl. f_equal. lia.
Qed.

Lemma write_loop_spec fuel st p ino buffer size offset bw :
  store_ok (store st) → inodes st !! p = Some ino → wf_disk (store st) (data ino) →
  0 ≤ offset → 0 ≤ size → offset + size ≤ dlen (data ino) → size ≤ Z.of_nat fuel →
  0 ≤ bw → bw + size ≤ Z.of_nat (length buffer) →
  ∃ s', write_loop fuel p buffer size offset bw st = Ok ((bw + size, offset + size), set_store s' st) ∧
    file_upd (store st) s' (data ino)
      (splice (Z.to_nat offset) (slice (Z.to_nat bw) (Z.to_nat size) buffer)
         (content (store st) (data ino))).
Proof.
  revert st size offset bw. induction fuel as [|fuel IH];
    intros st size offset bw Hok Hp Hwf Ho Hs0 Hos Hf Hbw Hbl; cbn [write_loop];
    destruct (Z.ltb_spec 0 size) as [Hs|Hs]; try lia.
  1,3: exists (store st); rewrite set_store_store; replace size with 0 by lia; rewrite !Z.add_0_r;
    split; [done|]; unfold splice; simpl; rewrite Nat.add_0_r, take_drop;
    apply file_upd_eq; [done|by apply disk_eq_refl].
  erewrite stM_bind_run by (by apply get_inode_run).
  pose proof (wd_len _ _ Hwf) as Hl. unfold MAX_FILE, BLOCK_SECTOR_SIZE in Hl.
  destruct (chunk_size_spec ino size offset) as [Hin _]; [unfold in_i32; lia|lia..|].
  destruct Hin as (Hc & Hcl & Hcs); [lia|].
  set (c := chunk_size ino size offset) in *.
  destruct (byte_to_sector_spec st ino offset) as (w & s1 & Hb & Hw & He1); [done|done|lia|].
  erewrite stM_bind_run by exact Hb. destruct (Z.leb_spec c 0); [lia|].
  pose proof (file_upd_eq _ _ _ Hwf He1) as U1.
  assert (on_disk s1 w) as Hod.
  { apply (on_disk_eq (store st)); [apply He1|]. pose proof (wd_sectors _ _ Hwf) as Hall.
    by eapply Forall_lookup_1 in Hall. }
  rewrite Z.rem_mod_nonneg by (unfold BLOCK_SECTOR_SIZE; lia).
  pose proof (Z.mod_pos_bound offset 512).
  destruct (on_store_write (set_store s1 st) w (drop (Z.to_nat bw) buffer)
    (offset mod BLOCK_SECTOR_SIZE) c) as (s2 & Hr & Hu2);
    unfold BLOCK_SECTOR_SIZE in *; simpl in *; rewrite ?length_drop; try lia; [apply He1|done|].
  erewrite stM_bind_run by exact Hr. rewrite set_store_twice.
  change (take (Z.to_nat c) (drop (Z.to_nat bw) buffer))
    with (slice (Z.to_nat bw) (Z.to_nat c) buffer) in Hu2.
  assert (length (slice (Z.to_nat bw) (Z.to_nat c) buffer) = Z.to_nat c) as Hls
    by (apply length_slice; lia).
  apply (file_upd_chunk s1 s2 (data ino) (Z.to_nat (offset / 512))) in Hu2;
    [|apply He1|apply U1|by rewrite (fu_sectors _ _ _ _ U1)|
     rewrite Hls; unfold SECTOR_BYTES, BLOCK_SECTOR_SIZE; dlia..].
  rewrite <- split_offset, (fu_content _ _ _ _ U1) in Hu2 by lia.
  destruct (IH (set_store s2 st) (size - c) (offset + c) (bw + c)) as (s3 & Hrun & U3);
    try done; simpl; try lia; [apply Hu2|apply Hu2|].
  exists s3. rewrite Hrun, set_store_twice. split; [do 3 f_equal; lia|].
  eapply file_upd_trans; [exact U1|]. eapply file_upd_trans; [exact Hu2|].
  simpl in U3. rewrite (fu_content _ _ _ _ Hu2) in U3.
  replace (Z.to_nat (offset + c)) with
    (Z.to_nat offset + length (slice (Z.to_nat bw) (Z.to_nat c) buffer))%nat in U3 by lia.
  replace (Z.to_nat size) with (Z.to_nat c + Z.to_nat (size - c))%nat by lia.
  rewrite splice_app in U3 by (rewrite Hls, length_slice, length_content by (done || lia); lia).
  rewrite slice_add. replace (Z.to_nat bw + Z.to_nat c)%nat with (Z.to_nat (bw + c)) by lia.
  exact U3.
Qed.

End spec.
