(* ===== verification/Growth.v ===== *)
(** * Growing a file

    Allocation of sectors from the free map, with the map written through to
    its own file, and the extension of a file by [inode_write_at]. *)

From S2P Require Import Prelude Bitmap Block Cache Inode InodeSpec.
Import Bitmap.

Section growth.
Context {S : Type} `{SectorStoreLaws S}.
Implicit Types (s : S) (d : inode_disk) (st : fs S).

(** [inode_write_at] inside the file, whatever allocator it is given. *)
Lemma inode_write_at_inplace iwa st p ino buffer size offset :
  store_ok (store st) → inodes st !! p = Some ino → wf_disk (store st) (data ino) →
  deny_write_cnt ino = 0 →
  0 ≤ offset → 0 ≤ size → offset + size ≤ dlen (data ino) → size ≤ Z.of_nat (length buffer) →
  ∃ s', inode_write_at_with iwa p buffer size offset st = Ok (size, set_store s' st) ∧
    file_upd (store st) s' (data ino)
      (splice (Z.to_nat offset) (take (Z.to_nat size) buffer) (content (store st) (data ino))).
Proof.
  intros Hok Hp Hwf Hd Ho Hs Hos Hb. pose proof (wd_len _ _ Hwf) as Hl.
  unfold MAX_FILE, BLOCK_SECTOR_SIZE in Hl. unfold inode_write_at_with.
  erewrite stM_bind_run by (by apply get_inode_run). rewrite Hd. cbn [negb Z.eqb].
  rewrite i32_small by (unfold in_i32; lia).
  destruct (Z.ltb_spec (dlen (data ino)) (offset + size)); [lia|].
  erewrite stM_bind_run by reflexivity.
  destruct (write_loop_spec (Z.to_nat size) st p ino buffer size offset 0) as (s' & Hr & Hu);
    try done; try lia.
  exists s'. erewrite stM_bind_run by exact Hr. simpl.
  erewrite stM_bind_run by (by apply get_inode_run).
  destruct (Z.ltb_spec (dlen (data ino)) (offset + size)); [lia|].
  erewrite stM_bind_run by reflexivity. split; [done|exact Hu].
Qed.

(** ** The free map and its file *)

Record fm_ok st (fi : inode) : Prop := {
  fo_store : store_ok (store st);
  fo_wf : wf (free_map st);
  fo_cnt : bit_cnt (free_map st) = dev_size (store st);
  fo_zero : bit (free_map st) FREE_MAP_SECTOR = true;
  fo_file : ∃ fp f, free_map_file st = Some fp ∧ files st !! fp = Some f ∧
                    inodes st !! f_inode f = Some fi;
  fo_deny : deny_write_cnt fi = 0;
  fo_disk : wf_disk (store st) (data fi);
  fo_len : dlen (data fi) = byte_cnt (bit_cnt (free_map st));
  fo_used : Forall (λ x, bit (free_map st) x = true) (data_sectors (store st) (data fi));
  fo_ind : (123 < nsec (data fi))%nat → bit (free_map st) (indirect_block (data fi)) = true;
}.

(** The map's file holds the map. *)
Definition fm_saved st (fi : inode) : Prop :=
  content (store st) (data fi) = bits_bytes (bits (free_map st)).

Lemma set_free_map_same st : set_free_map (free_map st) st = st.
Proof. by destruct st. Qed.

Lemma free_map_write_spec n st fi :
  fm_ok st fi →
  ∃ s', free_map_write_with (inode_write_at_fuel (Datatypes.S n)) st = Ok (true, set_store s' st) ∧
    file_upd (store st) s' (data fi) (bits_bytes (bits (free_map st))).
Proof.
  intros [Hok Hwf Hc _ (fp & f & Hff & Hf & Hi) Hd Hwd Hl _ _].
  pose proof (wd_len _ _ Hwd) as Hlen. unfold MAX_FILE, BLOCK_SECTOR_SIZE in Hlen.
  pose proof (wf_byte_cnt _ Hwf) as Hb.
  unfold free_map_write_with. rewrite Hff. erewrite stM_bind_run by reflexivity.
  unfold get_file. rewrite stM_bind_eq, Hf. unfold bitmap_write.
  rewrite i32_small by (unfold in_i32; lia).
  destruct (inode_write_at_inplace (inode_write_at_fuel n) st (f_inode f) fi
    (bits_bytes (bits (free_map st))) (byte_cnt (bit_cnt (free_map st))) 0)
    as (s' & Hr & Hu); try done; try lia.
  exists s'. erewrite stM_bind_run by exact Hr. rewrite Z.eqb_refl. split; [done|].
  rewrite take_ge in Hu by lia. rewrite splice_full in Hu; [done|].
  rewrite length_content by done. lia.
Qed.

(** The number of free sectors. *)
Definition nfree (b : bitmap) : nat :=
  length (filter (λ i, bit b i = false) (seqZ 0 (bit_cnt b))).

(** From [st] to [st'] the sectors [g] were taken from the free map, zeroed,
    and the map's file brought up to date; nothing else changed. *)
Record fs_grow st st' (fi : inode) (g : list Z) : Prop := {
  fg_shape : ∃ s' fm', st' = set_store s' (set_free_map fm' st);
  fg_ok : fm_ok st' fi;
  fg_size : dev_size (store st') = dev_size (store st);
  fg_sectors : data_sectors (store st') (data fi) = data_sectors (store st) (data fi);
  fg_nodup : NoDup g;
  fg_fresh : Forall (λ x, on_disk (store st) x ∧ bit (free_map st) x = false) g;
  fg_bits : ∀ x, 0 ≤ x → bit (free_map st') x = bit (free_map st) x || bool_decide (x ∈ g);
  fg_zero : ∀ x, x ∈ g → disk (store st') x = zero;
  fg_frame : ∀ x, on_disk (store st) x → x ∉ g → x ∉ data_sectors (store st) (data fi) →
    disk (store st') x = disk (store st) x;
  fg_saved : g ≠ [] ∨ fm_saved st fi → fm_saved st' fi;
}.

Lemma fs_grow_refl st fi : fm_ok st fi → fs_grow st st fi [].
Proof.
  intros Hfm. split; try done.
  - exists (store st), (free_map st). by rewrite set_free_map_same, set_store_store.
  - constructor.
  - intros. by rewrite bool_decide_eq_false_2, orb_false_r by set_solver.
  - set_solver.
  - tauto.
Qed.

Lemma fs_grow_trans st1 st2 st3 fi g1 g2 :
  fm_ok st1 fi → fs_grow st1 st2 fi g1 → fs_grow st2 st3 fi g2 → fs_grow st1 st3 fi (g1 ++ g2).
Proof.
  intros Hfm1 [(s2 & b2 & E2) Hfm2 Hsz2 Hds2 Hnd2 Hfr2 Hb2 Hz2 Hx2 Hsv2]
    [(s3 & b3 & E3) Hfm3 Hsz3 Hds3 Hnd3 Hfr3 Hb3 Hz3 Hx3 Hsv3].
  assert (∀ x, x ∈ g2 → on_disk (store st1) x ∧ bit (free_map st1) x = false ∧ x ∉ g1) as Hg2.
  { intros x Hx. eapply Forall_forall in Hfr3 as [Hod Hbx]; [|exact Hx].
    rewrite Hb2 in Hbx by apply Hod. apply orb_false_iff in Hbx as [? ?%bool_decide_eq_false].
    split_and!; [by apply (on_disk_eq (store st1) (store st2))|done..]. }
  split; try done; try congruence.
  - exists s3, b3. by subst.
  - apply NoDup_app. split_and!; [done| |done]. intros x ? Hx%Hg2. naive_solver.
  - apply Forall_app. split; [done|]. apply Forall_forall. intros x Hx%Hg2. naive_solver.
  - intros x Hx. rewrite Hb3, Hb2, <- orb_assoc by done. f_equal.
    rewrite <- bool_decide_or. apply bool_decide_ext. set_solver.
  - intros x [Hx|Hx]%elem_of_app; [|by apply Hz3].
    eapply Forall_forall in Hfr2 as [Hod Hbx]; [|exact Hx].
    rewrite Hx3; [by apply Hz2|by apply (on_disk_eq (store st1) (store st2))| |].
    + intros ?%Hg2. naive_solver.
    + rewrite Hds2. intros Hin. pose proof (fo_used _ _ Hfm1) as Hu.
      eapply Forall_forall in Hu; [|exact Hin]. congruence.
  - intros x Hx Hn Hd. apply not_elem_of_app in Hn as [].
    rewrite Hx3; [by apply Hx2|by apply (on_disk_eq (store st1) (store st2))|done|].
    by rewrite Hds2.
  - intros Hc. apply Hsv3. destruct (decide (g2 = [])) as [->|]; [|by left].
    right. apply Hsv2. rewrite app_nil_r in Hc. done.
Qed.

Lemma fs_grow_nfree st st' fi g :
  fm_ok st fi → fs_grow st st' fi g →
  nfree (free_map st) = (length g + nfree (free_map st'))%nat.
Proof.
  intros Hfm Hg. unfold nfree. rewrite <- length_app. apply Permutation_length.
  assert (bit_cnt (free_map st') = bit_cnt (free_map st)) as Hc.
  { rewrite (fo_cnt _ _ Hfm), (fo_cnt _ _ (fg_ok _ _ _ _ Hg)). apply Hg. }
  pose proof (fg_fresh _ _ _ _ Hg) as Hfr. rewrite Forall_forall in Hfr.
  unfold on_disk in Hfr. rewrite <- (fo_cnt _ _ Hfm) in Hfr.
  apply NoDup_Permutation.
  - apply NoDup_filter, NoDup_seqZ.
  - apply NoDup_app. split_and!; [apply Hg| |apply NoDup_filter, NoDup_seqZ].
    intros x Hx. rewrite list_elem_of_filter. intros [Hb _].
    rewrite (fg_bits _ _ _ _ Hg), bool_decide_eq_true_2, orb_true_r in Hb by
      (done || apply Hfr in Hx; lia). done.
  - intros x. rewrite elem_of_app, !list_elem_of_filter, !elem_of_seqZ, Hc. split.
    + intros [Hb Hx]. destruct (decide (x ∈ g)) as [|Hn]; [by left|right]. split; [|lia].
      rewrite (fg_bits _ _ _ _ Hg), Hb, bool_decide_eq_false_2 by (done || lia). done.
    + intros [Hx|[Hb Hx]].
      * destruct (Hfr _ Hx) as [? ?]. split; [done|lia].
      * rewrite (fg_bits _ _ _ _ Hg) in Hb by lia. apply orb_false_iff in Hb as []. split; [done|lia].
Qed.

Lemma fm_ok_store st fi s' :
  fm_ok st fi → store_ok s' → dev_size s' = dev_size (store st) →
  ((123 < nsec (data fi))%nat →
     disk s' (indirect_block (data fi)) = disk (store st) (indirect_block (data fi))) →
  fm_ok (set_store s' st) fi ∧ data_sectors s' (data fi) = data_sectors (store st) (data fi).
Proof.
  intros [Hok Hwf Hc Hz Hf Hd Hwd Hl Hu Hi] Hok' Hs Hind.
  destruct (wf_disk_frame _ s' _ Hwd Hs Hind) as [Hwd' E].
  split; [|done]. split; simpl; rewrite ?E; try done. congruence.
Qed.

Lemma fm_ok_free_map st fi b' :
  fm_ok st fi → wf b' → bit_cnt b' = bit_cnt (free_map st) →
  (∀ x, 0 ≤ x → bit (free_map st) x = true → bit b' x = true) →
  fm_ok (set_free_map b' st) fi.
Proof.
  intros [Hok Hwf Hc Hz Hf Hd Hwd Hl Hu Hi] Hwf' Hc' Hb. split; simpl; try done; try congruence.
  - by apply Hb.
  - pose proof (wd_sectors _ _ Hwd) as Hs. rewrite Forall_forall in Hu, Hs |- *.
    intros x Hx. apply Hb; [apply (Hs x Hx)|by apply Hu].
  - intros Hn. apply Hb; [|by apply Hi]. by destruct (wd_ind _ _ Hwd Hn) as [[] _].
Qed.

(** Reading through the cache changes nothing. *)
Lemma fs_grow_eq st fi s1 :
  fm_ok st fi → disk_eq (store st) s1 → fs_grow st (set_store s1 st) fi [].
Proof.
  intros Hfm He. pose proof (fo_disk _ _ Hfm) as Hwd.
  assert ((123 < nsec (data fi))%nat → disk s1 (indirect_block (data fi)) =
    disk (store st) (indirect_block (data fi))) as Hi.
  { intros Hc. apply He. by apply (wd_ind _ _ Hwd). }
  destruct (fm_ok_store st fi s1) as [Hfm1 Hds]; [done|apply He|apply He|done|].
  split; try done.
  - exists s1, (free_map st). by rewrite set_free_map_same.
  - apply He.
  - constructor.
  - intros x _. rewrite bool_decide_eq_false_2, orb_false_r by set_solver. done.
  - set_solver.
  - intros. by apply He.
  - intros [?|Hsv]; [done|]. unfold fm_saved in *. simpl. rewrite <- Hsv.
    by apply content_frame, disk_eq_agrees.
Qed.

(** A sector that is free is none of the free map's file. *)
Lemma free_not_fm st fi x :
  fm_ok st fi → bit (free_map st) x = false →
  x ∉ data_sectors (store st) (data fi) ∧
  ((123 < nsec (data fi))%nat → x ≠ indirect_block (data fi)).
Proof.
  intros Hfm Hb. split.
  - intros Hx. pose proof (fo_used _ _ Hfm) as Hu. eapply Forall_forall in Hu; [|exact Hx].
    congruence.
  - intros Hn ->. rewrite (fo_ind _ _ Hfm Hn) in Hb. done.
Qed.

Lemma nfree_pos b : (0 < nfree b)%nat → ∃ i, 0 ≤ i < bit_cnt b ∧ bit b i = false.
Proof.
  unfold nfree. destruct (filter _ _) as [|i l] eqn:E; simpl; [lia|]. intros _.
  assert (i ∈ filter (λ i, bit b i = false) (seqZ 0 (bit_cnt b))) as Hi by (rewrite E; set_solver).
  apply list_elem_of_filter in Hi as [Hb Hi%elem_of_seqZ]. exists i. split; [lia|done].
Qed.

(** [free_map_allocate (1, &sector)] when a sector is free: it takes the
    first free one and the map's file is up to date. *)
Lemma free_map_allocate_run n st fi :
  fm_ok st fi → (0 < nfree (free_map st))%nat →
  ∃ sec s' b', free_map_allocate_with (inode_write_at_fuel (Datatypes.S n)) 1 st =
      Ok (Some sec, set_store s' (set_free_map b' st)) ∧
    0 ≤ sec < bit_cnt (free_map st) ∧ bit (free_map st) sec = false ∧
    (∀ i, 0 ≤ i < sec → bit (free_map st) i = true) ∧
    set_range (free_map st) b' sec 1 true ∧ fm_ok (set_free_map b' st) fi ∧
    file_upd (store st) s' (data fi) (bits_bytes (bits b')).
Proof.
  intros Hfm Hn. pose proof (fo_wf _ _ Hfm) as Hwf.
  destruct (nfree_pos _ Hn) as (i & Hi & Hbi).
  destruct (bitmap_scan_and_flip_spec (free_map st) 0 1 false) as (sec & b' & Hr & Hres & Hc);
    [done|split; lia|lia|].
  unfold free_map_allocate_with. erewrite stM_bind_run by reflexivity.
  erewrite stM_bind_run by (unfold slift; by rewrite Hr).
  destruct Hc as [[-> ->]|(Hlt & Hs & Hsb & Hrun & Hset)].
  { destruct Hres as [[_ Hno]|(? & ? & _)]; [|unfold BITMAP_ERROR in *; destruct Hwf; lia].
    destruct (Hno i); [lia..|]. intros j Hj. by replace j with i by lia. }
  assert (bit (free_map st) sec = false) as Hbs by (apply Hrun; lia).
  assert (fm_ok (set_free_map b' st) fi) as Hfm'.
  { destruct Hset as (? & ? & Hb'). apply fm_ok_free_map; try done.
    intros x Hx Hbx. rewrite Hb' by done. by case_decide. }
  erewrite stM_bind_run by reflexivity.
  destruct (Z.eqb_spec sec BITMAP_ERROR); [lia|].
  destruct (fo_file _ _ Hfm) as (fp & _ & Hff & _). rewrite Hff, bool_decide_eq_false_2 by done.
  destruct (free_map_write_spec n _ fi Hfm') as (s' & Hw & Hu).
  erewrite stM_bind_run by exact Hw.
  exists sec, s', b'. split_and!; try done; try lia.
  intros j Hj. destruct Hres as [[-> _]|(_ & _ & _ & Hno)]; [done|].
  destruct (bit (free_map st) j) eqn:E; [done|]. destruct (Hno j); [lia|].
  intros k Hk. by replace k with j by lia.
Qed.

(** Allocating a sector and zeroing it. *)
Lemma allocate_zeroed n st fi :
  fm_ok st fi → (0 < nfree (free_map st))%nat →
  ∃ sec st1 st2, free_map_allocate_with (inode_write_at_fuel (Datatypes.S n)) 1 st = Ok (Some sec, st1) ∧
    write_zero sec st1 = Ok (tt, st2) ∧ sec ≠ 0 ∧ fs_grow st st2 fi [sec].
Proof.
  intros Hfm Hn.
  destruct (free_map_allocate_run n st fi Hfm Hn)
    as (sec & s1 & b' & Hr & Hsec & Hbs & _ & (Hwf' & Hc' & Hb') & Hfm' & Hu).
  exists sec. eexists. rewrite (fo_cnt _ _ Hfm) in Hsec.
  destruct (free_not_fm _ _ _ Hfm Hbs) as [Hnd Hni].
  destruct (on_store_write (set_store s1 (set_free_map b' st)) sec zero 0 BLOCK_SECTOR_SIZE)
    as (s2 & Hw & Hok2 & Hs2 & Hz2 & Hx2); try done; simpl in *.
  { apply Hu. } { apply (on_disk_eq (store st)); [apply Hu|done]. }
  exists (set_store s2 (set_free_map b' st)). rewrite <- (set_store_twice s1).
  split; [exact Hr|]. split; [exact Hw|].
  split. { intros ->. pose proof (fo_zero _ _ Hfm). unfold FREE_MAP_SECTOR in *. congruence. }
  rewrite set_store_twice.
  assert (∀ x, on_disk (store st) x → on_disk s1 x) as Hod.
  { intros x. apply (on_disk_eq (store st)), Hu. }
  assert (∀ x, x ∈ data_sectors (store st) (data fi) → disk s2 x = disk s1 x) as Hds.
  { intros x Hx. apply Hx2; [|by intros ->]. apply Hod.
    pose proof (wd_sectors _ _ (fo_disk _ _ Hfm)) as Hall. by eapply Forall_forall in Hall. }
  assert ((123 < nsec (data fi))%nat → disk s2 (indirect_block (data fi)) =
            disk s1 (indirect_block (data fi))) as Hind.
  { intros Hc. destruct (wd_ind _ _ (fo_disk _ _ Hfm) Hc) as [? _].
    apply Hx2; [by apply Hod|]. intros E. by apply (Hni Hc). }
  assert ((123 < nsec (data fi))%nat → disk s2 (indirect_block (data fi)) =
            disk (store st) (indirect_block (data fi))) as Hind'.
  { intros Hc. rewrite (Hind Hc). destruct (wd_ind _ _ (fo_disk _ _ Hfm) Hc) as [? ?].
    by apply Hu. }
  destruct (fm_ok_store _ _ s2 Hfm') as [Hfm2 Hds2]; simpl; try done.
  { rewrite Hs2. apply Hu. }
  split; simpl; try done.
  - by exists s2, b'.
  - rewrite Hs2. apply Hu.
  - apply NoDup_singleton.
  - by apply Forall_singleton.
  - intros x Hx. rewrite Hb' by done. case_decide as Hd.
    + rewrite bool_decide_eq_true_2, orb_true_r by (apply list_elem_of_singleton; lia). done.
    + rewrite bool_decide_eq_false_2, orb_false_r; [done|]. rewrite list_elem_of_singleton. lia.
  - intros x ->%list_elem_of_singleton. rewrite Hz2, splice_full; [done|].
    rewrite disk_length; [done|apply Hu].
  - intros x Hx Hn1 Hn2. rewrite Hx2; [by apply Hu|by apply Hod|set_solver].
  - intros _. unfold fm_saved. simpl. rewrite <- (fu_content _ _ _ _ Hu).
    apply (content_frame s1 s2); [apply Hu|]. split_and!; try done.
    rewrite (fu_sectors _ _ _ _ Hu). done.
Qed.

(** [alloc_blocks] on an array whose entries are allocated up to some point
    and zero from there on extends the allocated part. *)
Lemma alloc_blocks_spec n cnt i st fi pre m :
  fm_ok st fi → Forall (λ w, w ≠ 0) pre → (i ≤ length pre)%nat → (i + cnt ≤ length pre + m)%nat →
  (i + cnt - length pre ≤ nfree (free_map st))%nat →
  ∃ st' g, alloc_blocks (inode_write_at_fuel (Datatypes.S n)) cnt i (pre ++ replicate m 0) st =
      Ok ((true, pre ++ g ++ replicate (m - length g) 0), st') ∧
    length g = (i + cnt - length pre)%nat ∧ Forall (λ w, w ≠ 0) g ∧ fs_grow st st' fi g.
Proof.
  revert i st pre m. induction cnt as [|cnt IH]; intros i st pre m Hfm Hpre Hi Him Hfree;
    cbn [alloc_blocks].
  { exists st, []. simpl. rewrite Nat.sub_0_r. split_and!; [done|lia|done|by apply fs_grow_refl]. }
  destruct (decide (i < length pre)%nat) as [Hlt|Hge].
  - destruct (lookup_lt_is_Some_2 pre i Hlt) as [w Hw].
    rewrite lookup_app_l, Hw by done. erewrite stM_bind_run by reflexivity.
    destruct (Z.eqb_spec w 0) as [->|_].
    { by eapply Forall_lookup_1 in Hpre. }
    destruct (IH (Datatypes.S i) st pre m) as (st' & g & Hr & Hl & Hnz & Hg); [done|done|lia..|].
    exists st', g. split_and!; [done|lia|done..].
  - assert (i = length pre) as -> by lia. destruct m as [|m]; [lia|].
    rewrite lookup_app_r, Nat.sub_diag by lia. erewrite stM_bind_run by reflexivity.
    simpl (0 =? 0). cbv iota.
    destruct (allocate_zeroed n st fi) as (sec & st1 & st2 & Ha & Hz & Hne & Hg1); [done|lia|].
    erewrite stM_bind_run by exact Ha. cbv beta iota. erewrite stM_bind_run by exact Hz.
    rewrite insert_app_r_alt, Nat.sub_diag by lia. cbn [replicate insert list_insert].
    rewrite cons_middle, app_assoc.
    pose proof (fs_grow_nfree _ _ _ _ Hfm Hg1) as Hnf. simpl in Hnf.
    destruct (IH (Datatypes.S (length pre)) st2 (pre ++ [sec]) m) as (st' & g & Hr & Hl & Hnz & Hg);
      rewrite ?length_app in *; simpl in *; try lia.
    { apply Hg1. } { apply Forall_app. split; [done|]. by apply Forall_singleton. }
    exists st', (sec :: g). rewrite Hr. simpl. rewrite <- app_assoc. split_and!; [done|lia| |].
    + by apply Forall_cons_2.
    + by apply (fs_grow_trans st st2 st' fi [sec] g).
Qed.

(** The sector [x] is allocated and is neither the free map's inode nor part of
    the free map's file. *)
Definition owned st (fi : inode) (x : Z) : Prop :=
  on_disk (store st) x ∧ bit (free_map st) x = true ∧ x ≠ 0 ∧
  x ∉ data_sectors (store st) (data fi) ∧
  ((123 < nsec (data fi))%nat → x ≠ indirect_block (data fi)).

Lemma owned_grow st st' fi g x : fs_grow st st' fi g → owned st fi x → owned st' fi x.
Proof.
  intros Hg (Hod & Hb & Hz & Hn & Hi). split_and!; try done.
  - apply (on_disk_eq (store st)); [apply Hg|done].
  - rewrite (fg_bits _ _ _ _ Hg), Hb by apply Hod. done.
  - by rewrite (fg_sectors _ _ _ _ Hg).
Qed.

Lemma owned_fresh st st' fi g x :
  fm_ok st fi → fs_grow st st' fi g → x ∈ g → owned st' fi x.
Proof.
  intros Hfm Hg Hx. pose proof (fg_fresh _ _ _ _ Hg) as Hfr.
  eapply Forall_forall in Hfr as [Hod Hb]; [|exact Hx].
  destruct (free_not_fm _ _ _ Hfm Hb). split_and!; try done.
  - apply (on_disk_eq (store st)); [apply Hg|done].
  - rewrite (fg_bits _ _ _ _ Hg), bool_decide_eq_true_2, orb_true_r by (done || apply Hod). done.
  - intros ->. pose proof (fo_zero _ _ Hfm). unfold FREE_MAP_SECTOR in *. congruence.
  - by rewrite (fg_sectors _ _ _ _ Hg).
Qed.

(** An owned sector is left alone by an allocation. *)
Lemma owned_frame st st' fi g x :
  fs_grow st st' fi g → owned st fi x → disk (store st') x = disk (store st) x.
Proof.
  intros Hg (Hod & Hb & Hz & Hn & _). apply (fg_frame _ _ _ _ Hg); [done| |done].
  intros Hx. pose proof (fg_fresh _ _ _ _ Hg) as Hfr.
  eapply Forall_forall in Hfr as [_ ?]; [|exact Hx]. congruence.
Qed.

Lemma bytes_words_zero n : bytes_words n (replicate (4 * n) 0) = replicate n 0.
Proof.
  induction n as [|n IH]; [done|].
  replace (4 * Datatypes.S n)%nat with (4 + 4 * n)%nat by lia.
  set (k := (4 * n)%nat) in *. rewrite replicate_add. simpl. by rewrite drop_0, IH.
Qed.

Lemma alloc_indirect_spec (n : nat) (cnt : Z) st fi blk pre m :
  fm_ok st fi → Forall (λ w, w ≠ 0 ∧ on_disk (store st) w) pre → (length pre + m = 128)%nat →
  (length pre ≤ Z.to_nat cnt ≤ 128)%nat →
  (blk = 0 ∧ pre = [] ∨
   owned st fi blk ∧ bytes_words 128 (disk (store st) blk) = pre ++ replicate m 0) →
  (Z.to_nat cnt - length pre + 1 ≤ nfree (free_map st) + (if decide (blk = 0%Z) then 0 else 1))%nat →
  ∃ blk' st1 s' g0 g, let ws := pre ++ g ++ replicate (m - length g) 0 in
    alloc_indirect (inode_write_at_fuel (Datatypes.S n)) blk cnt st =
      Ok ((true, blk'), set_store s' st1) ∧
    g0 = (if decide (blk = 0) then [blk'] else []) ∧ (blk ≠ 0 → blk' = blk) ∧
    length g = (Z.to_nat cnt - length pre)%nat ∧ Forall (λ w, w ≠ 0) g ∧
    fs_grow st st1 fi (g0 ++ g) ∧ owned st1 fi blk' ∧
    disk_upd (store st1) s' blk' (bits_bytes ws).
Proof.
  intros Hfm Hpre Hm Hcnt Hblk Hfree. unfold alloc_indirect.
  assert (∃ blk' st0 g0, (if blk =? 0
      then r ← free_map_allocate_with (inode_write_at_fuel (Datatypes.S n)) 1;
           match r with Some sec => write_zero sec;; mret (Some sec) | None => mret None end
      else mret (Some blk)) st = Ok (Some blk', st0) ∧
    g0 = (if decide (blk = 0) then [blk'] else []) ∧ (blk ≠ 0 → blk' = blk) ∧
    fs_grow st st0 fi g0 ∧ owned st0 fi blk' ∧
    bytes_words 128 (disk (store st0) blk') = pre ++ replicate m 0)
    as (blk' & st0 & g0 & Hr & Eg0 & Eb & Hg0 & Hown & Hws).
  { destruct Hblk as [[-> ->]|[Hown Hws]].
    - destruct (allocate_zeroed n st fi) as (sec & st1 & st2 & Ha & Hz & Hne & Hg1);
        [done|simpl in *; lia|].
      exists sec, st2, [sec]. simpl. split_and!; try done.
      + erewrite stM_bind_run by exact Ha. cbv beta iota. by erewrite stM_bind_run by exact Hz.
      + eapply owned_fresh; [done..|set_solver].
      + rewrite (fg_zero _ _ _ _ Hg1) by set_solver. simpl in Hm. subst m.
        apply (bytes_words_zero 128).
    - pose proof Hown as (_ & _ & Hne & _). exists blk, st, []. rewrite decide_False by done.
      rewrite (proj2 (Z.eqb_neq blk 0)) by done. split_and!; try done. by apply fs_grow_refl. }
  erewrite stM_bind_run by exact Hr. cbv beta iota.
  destruct (read_blocks_spec st0 blk') as (s1 & Hrd & He1); [apply Hg0|apply Hown|].
  erewrite stM_bind_run by exact Hrd. rewrite Hws.
  assert (fs_grow st0 (set_store s1 st0) fi []) as Hg1
    by (apply fs_grow_eq; [apply Hg0|done]).
  pose proof (fs_grow_nfree _ _ _ _ Hfm Hg0) as Hnf.
  destruct (alloc_blocks_spec n (Z.to_nat cnt) 0 (set_store s1 st0) fi pre m)
    as (st2 & g & Ha & Hl & Hnz & Hg2); simpl; try lia.
  { apply Hg1. } { eapply Forall_impl; [exact Hpre|]. naive_solver. }
  { rewrite Eg0 in Hnf. case_decide; simpl in *; lia. }
  erewrite stM_bind_run by exact Ha. cbv beta iota.
  assert (fs_grow st st2 fi (g0 ++ g)) as Hg.
  { eapply fs_grow_trans; [done|done|].
    apply (fs_grow_trans st0 (set_store s1 st0) st2 fi [] g); [apply Hg0|done..]. }
  assert (owned st2 fi blk') as Hown2 by exact (owned_grow _ _ _ _ _ Hg2 (owned_grow _ _ _ _ _ Hg1 Hown)).
  unfold write_blocks. destruct (on_store_write st2 blk' (bits_bytes (pre ++ g ++ replicate (m - length g) 0)) 0
    BLOCK_SECTOR_SIZE) as (s' & Hw & Hu); try done.
  { apply Hg2. } { apply Hown2. }
  { rewrite length_bits_bytes, !length_app, length_replicate. unfold BLOCK_SECTOR_SIZE. lia. }
  exists blk', st2, s', g0, g. cbv zeta. erewrite stM_bind_run by exact Hw.
  split; [done|]. do 6 (split; [done || lia|]).
  rewrite take_ge, splice_full in Hu; [done| |];
    rewrite length_bits_bytes, !length_app, length_replicate;
    rewrite ?disk_length by apply Hg2; unfold SECTOR_BYTES, BLOCK_SECTOR_SIZE; lia.
Qed.

(** ** The inode as a growing sequence of sectors *)

(** What [inode_allocate] relies on: the entries up to the file's length are
    allocated, those after it are zero, and so are the bytes of the last
    sector after the end of the file. *)
Record growable st (fi : inode) d : Prop := {
  gr_wf : wf_disk (store st) d;
  gr_owned : Forall (owned st fi) (data_sectors (store st) d);
  gr_ind : (123 < nsec d)%nat → owned st fi (indirect_block d);
  gr_noind : (nsec d ≤ 123)%nat → indirect_block d = 0;
  gr_direct : drop (nsec d) (direct_blocks d) = replicate (123 - nsec d) 0;
  gr_indirect : (123 < nsec d)%nat →
    drop (nsec d - 123) (bytes_words 128 (disk (store st) (indirect_block d))) =
    replicate (251 - nsec d) 0;
  gr_slack : raw (store st) d = content (store st) d ++
    replicate (nsec d * SECTOR_BYTES - Z.to_nat (dlen d)) 0;
}.

(** From [st] to [st'] the inode [d] grew to [e] by the sectors [g]. *)
Record ino_grow st st' (fi : inode) d e (g : list Z) : Prop := {
  ig_shape : ∃ s' fm', st' = set_store s' (set_free_map fm' st);
  ig_fm : fm_ok st' fi;
  ig_size : dev_size (store st') = dev_size (store st);
  ig_new : growable st' fi e;
  ig_data : data_sectors (store st') e = data_sectors (store st) d ++ g;
  ig_fresh : Forall (λ x, bit (free_map st) x = false) g;
  ig_fresh_ind : (123 < nsec e)%nat →
    indirect_block e = indirect_block d ∧ (123 < nsec d)%nat ∨
    bit (free_map st) (indirect_block e) = false;
  ig_content : content (store st') e =
    content (store st) d ++ replicate (Z.to_nat (dlen e - dlen d)) 0;
  ig_owned : ∀ x, owned st fi x → owned st' fi x;
  ig_frame : ∀ x, owned st fi x → ((123 < nsec d)%nat → x ≠ indirect_block d) →
    disk (store st') x = disk (store st) x;
  ig_saved : fm_saved st fi → fm_saved st' fi;
}.

Lemma concat_zero (n k : nat) (l : list (list Z)) :
  Forall (eq (replicate k 0)) l → length l = n → concat l = replicate (n * k) 0.
Proof.
  intros Hl <-. induction Hl as [|x l <- _ IH]; [done|]. simpl. by rewrite IH, replicate_add.
Qed.

Section intro.
Context (st st1 : fs S) (s' : S) (fi : inode) (d e : inode_disk) (G g : list Z).
Hypothesis (Hfm : fm_ok st fi) (Hd : growable st fi d) (HG : fs_grow st st1 fi G).
Hypothesis (Hok : store_ok s') (Hsize : dev_size s' = dev_size (store st1)).
Hypothesis (Hdisk : ∀ x, on_disk (store st1) x → ((123 < nsec e)%nat → x ≠ indirect_block e) →
  disk s' x = disk (store st1) x).
Hypothesis (Hlen : dlen d ≤ dlen e ≤ MAX_FILE) (Hdir : length (direct_blocks e) = 123%nat).
Hypothesis (Hdata : data_sectors s' e = data_sectors (store st) d ++ g).
Hypothesis (Hg : ∀ x, x ∈ g → x ∈ G) (Hgnd : NoDup g).
Hypothesis (Hind : (123 < nsec e)%nat → owned st1 fi (indirect_block e) ∧ indirect_block e ∉ g ∧
  (indirect_block e = indirect_block d ∧ (123 < nsec d)%nat ∨ indirect_block e ∈ G)).

Lemma intro_fresh x : x ∈ G → bit (free_map st) x = false.
Proof.
  intros Hx. pose proof (fg_fresh _ _ _ _ HG) as Hf. eapply Forall_forall in Hf; [|done].
  by destruct Hf.
Qed.

Lemma intro_old x : x ∈ data_sectors (store st) d → owned st fi x.
Proof. intros Hx. pose proof (gr_owned _ _ _ Hd) as Ho. by eapply Forall_forall in Ho. Qed.

Lemma intro_owned x : owned st1 fi x → owned (set_store s' st1) fi x.
Proof.
  intros (Ho & Hb & Hz & Hn & Hi). split_and!; simpl; try done.
  - by apply (on_disk_eq (store st1)).
  - rewrite (data_sectors_frame (store st1)); [done| |apply (fo_disk _ _ Hfm)].
    intros Hc. apply Hdisk.
    + apply (wd_ind _ _ (fo_disk _ _ (fg_ok _ _ _ _ HG))). done.
    + intros Hc2. apply not_eq_sym. by apply Hind.
Qed.

Lemma intro_ind : (123 < nsec e)%nat →
  owned st1 fi (indirect_block e) ∧ indirect_block e ∉ data_sectors (store st) d ++ g.
Proof.
  intros Hc. destruct (Hind Hc) as (Ho & Hn & Hor). split; [done|].
  apply not_elem_of_app. split; [|done]. destruct Hor as [[-> Hc2]|Hin].
  - by apply (wd_ind _ _ (gr_wf _ _ _ Hd)).
  - intros Hx%intro_old. apply intro_fresh in Hin. destruct Hx as (_ & ? & _). congruence.
Qed.

Lemma intro_new x : x ∈ data_sectors (store st) d ++ g → owned st1 fi x.
Proof.
  intros [Hx|Hx]%elem_of_app.
  - by apply (owned_grow _ _ _ _ _ HG), intro_old.
  - apply (owned_fresh st st1 fi G); auto.
Qed.

Lemma intro_same x : owned st1 fi x → ((123 < nsec e)%nat → x ≠ indirect_block e) →
  disk s' x = disk (store st1) x.
Proof. intros Ho Hx. apply Hdisk; [apply Ho|done]. Qed.

Lemma intro_raw :
  raw s' e = content (store st) d ++
    replicate (nsec d * SECTOR_BYTES - Z.to_nat (dlen d) + length g * SECTOR_BYTES) 0.
Proof.
  unfold raw. rewrite Hdata, fmap_app, concat_app, replicate_add, app_assoc.
  assert (∀ x, x ∈ data_sectors (store st) d ++ g → (123 < nsec e)%nat → x ≠ indirect_block e)
    as Hne. { intros x Hx Hc ->. by apply (intro_ind Hc). }
  f_equal.
  - rewrite <- (gr_slack _ _ _ Hd). unfold raw. f_equal. apply list_fmap_ext.
    intros k x Hk%list_elem_of_lookup_2.
    assert (x ∈ data_sectors (store st) d ++ g) by set_solver.
    rewrite intro_same; [|by apply intro_new|by apply Hne].
    by apply (owned_frame _ _ _ _ _ HG), intro_old.
  - apply concat_zero; [|by rewrite length_fmap]. apply Forall_fmap, Forall_forall.
    intros x Hx. assert (x ∈ data_sectors (store st) d ++ g) by set_solver. simpl.
    rewrite intro_same; [|by apply intro_new|by apply Hne].
    symmetry. apply (fg_zero _ _ _ _ HG). by apply Hg.
Qed.

Lemma intro_wf : wf_disk s' e.
Proof.
  pose proof (wd_len _ _ (gr_wf _ _ _ Hd)) as Hl.
  assert (∀ x, owned st1 fi x → on_disk s' x) as Hod.
  { intros x Ho. apply (on_disk_eq (store st1)); [done|apply Ho]. }
  split; try done; [lia|rewrite Hdata..|].
  - apply Forall_forall. intros x Hx%intro_new. auto.
  - apply NoDup_app. split_and!; [apply (gr_wf _ _ _ Hd)| |done].
    intros x Hx%intro_old Hx2. apply Hg, intro_fresh in Hx2. destruct Hx as (_ & ? & _). congruence.
  - intros Hc. rewrite Hdata. destruct (intro_ind Hc). auto.
Qed.

Lemma intro_lengths :
  (nsec d * SECTOR_BYTES - Z.to_nat (dlen d) + length g * SECTOR_BYTES)%nat =
  (nsec e * SECTOR_BYTES - Z.to_nat (dlen d))%nat ∧
  (Z.to_nat (dlen d) ≤ Z.to_nat (dlen e) ≤ nsec e * SECTOR_BYTES)%nat.
Proof.
  pose proof (wd_len _ _ (gr_wf _ _ _ Hd)) as Hl.
  destruct (nsec_spec _ _ (gr_wf _ _ _ Hd)) as (Hn & _ & Hld).
  destruct (nsec_spec _ _ intro_wf) as (Hn' & _ & Hle).
  rewrite Hdata, length_app, Hld in Hle. rewrite <- Hle in *.
  unfold SECTOR_BYTES in *. change (Z.to_nat BLOCK_SECTOR_SIZE) with 512%nat. split; [|split]; dlia.
Qed.

Lemma intro_content : content s' e =
  content (store st) d ++ replicate (Z.to_nat (dlen e - dlen d)) 0.
Proof.
  destruct intro_lengths as [El Hle]. pose proof (wd_len _ _ (gr_wf _ _ _ Hd)) as Hl.
  assert (length (content (store st) d) = Z.to_nat (dlen d)) as Hc
    by (apply length_content; [apply Hfm|apply Hd]).
  change (content s' e) with (take (Z.to_nat (dlen e)) (raw s' e)).
  rewrite intro_raw, El, take_app_ge, take_replicate, Hc by lia.
  do 2 f_equal. lia.
Qed.

Lemma ino_grow_intro :
  drop (nsec e) (direct_blocks e) = replicate (123 - nsec e) 0 →
  ((123 < nsec e)%nat → drop (nsec e - 123) (bytes_words 128 (disk s' (indirect_block e))) =
     replicate (251 - nsec e) 0) →
  ((nsec e ≤ 123)%nat → indirect_block e = 0) →
  (G ≠ [] ∨ fm_saved st fi → fm_saved st1 fi) →
  ino_grow st (set_store s' st1) fi d e g.
Proof.
  intros Htd Hti Hni Hsv. pose proof (fg_ok _ _ _ _ HG) as Hfm1.
  assert ((123 < nsec (data fi))%nat → disk s' (indirect_block (data fi)) =
    disk (store st1) (indirect_block (data fi))) as Hfi.
  { intros Hc. apply Hdisk; [by apply (wd_ind _ _ (fo_disk _ _ Hfm1))|].
    intros Hc2. apply not_eq_sym. by apply Hind. }
  destruct (fm_ok_store st1 fi s' Hfm1) as [Hfm' Hds]; [done..|].
  destruct (fg_shape _ _ _ _ HG) as (s1 & fm1 & E1).
  split; simpl; try done.
  - exists s', fm1. by rewrite E1.
  - rewrite Hsize. apply HG.
  - split; simpl; try done.
    + apply intro_wf.
    + rewrite Hdata. apply Forall_forall. intros x Hx. by apply intro_owned, intro_new.
    + intros Hc. by apply intro_owned, Hind.
    + rewrite intro_content, intro_raw. destruct intro_lengths as [-> ?].
      rewrite <- app_assoc, <- replicate_add. do 2 f_equal.
      pose proof (wd_len _ _ (gr_wf _ _ _ Hd)) as Hl. lia.
  - apply Forall_forall. intros x Hx. by apply intro_fresh, Hg.
  - intros Hc. destruct (Hind Hc) as (_ & _ & [?|?]); [by left|right]. by apply intro_fresh.
  - apply intro_content.
  - intros x Hx. by apply intro_owned, (owned_grow _ _ _ _ _ HG).
  - intros x Hx Hne. rewrite intro_same; [by apply (owned_frame _ _ _ _ _ HG)|
      by apply (owned_grow _ _ _ _ _ HG)|].
    intros Hc ->. destruct (Hind Hc) as (_ & _ & [[E Hc2]|Hin]); [by apply Hne|].
    apply intro_fresh in Hin. destruct Hx as (_ & ? & _). congruence.
  - intros Hs. unfold fm_saved in *. simpl. rewrite <- Hsv by by right.
    apply content_frame; [apply Hfm1|]. split_and!; try done.
    intros x Hx. pose proof (wd_sectors _ _ (fo_disk _ _ Hfm1)) as Hall.
    eapply Forall_forall in Hall; [|exact Hx]. apply Hdisk; [done|].
    intros Hc ->. destruct (Hind Hc) as ((_ & _ & _ & ? & _) & _). done.
Qed.

End intro.

(** ** [inode_allocate] *)

Lemma allocate_counts_spec len :
  0 ≤ len ≤ MAX_FILE →
  allocate_counts len = Some (if 123 <? bytes_to_sectors len
    then (DIRECT_COUNT, bytes_to_sectors len - 123, 0) else (bytes_to_sectors len, 0, 0)).
Proof.
  intros Hl. destruct (bytes_to_sectors_eq len Hl) as [_ Hb]. unfold allocate_counts, DIRECT_COUNT, INDIRECT_COUNT.
  destruct (Z.ltb_spec 123 (bytes_to_sectors len)); [|done].
  destruct (Z.ltb_spec 128 (bytes_to_sectors len - 123)); [lia|]. done.
Qed.

(** How many sectors the growth from [d] to [len] bytes takes: the data, and
    the indirect block the first time it is needed. *)
Definition need d (len : Z) : nat :=
  let b := Z.to_nat (bytes_to_sectors len) in
  (b - nsec d + if decide (nsec d ≤ 123 < b) then 1 else 0)%nat.

Lemma growable_direct st fi d : growable st fi d →
  direct_blocks d = take (nsec d) (direct_blocks d) ++ replicate (123 - nsec d) 0.
Proof. intros Hd. rewrite <- (gr_direct _ _ _ Hd). by rewrite take_drop. Qed.

Lemma data_sectors_direct s d : length (direct_blocks d) = 123%nat →
  take (nsec d) (direct_blocks d) = take 123 (data_sectors s d).
Proof.
  intros Hl. unfold data_sectors, index_blocks. rewrite take_take.
  destruct (decide (nsec d ≤ 123)%nat).
  - rewrite Nat.min_r, take_app_le by lia. done.
  - rewrite Nat.min_l, take_app_le, !take_ge by lia. done.
Qed.

Lemma nonzero_direct st fi d : growable st fi d →
  Forall (λ w, w ≠ 0) (take (nsec d) (direct_blocks d)).
Proof.
  intros Hd. rewrite (data_sectors_direct (store st)) by apply Hd.
  apply Forall_take. eapply Forall_impl; [apply (gr_owned _ _ _ Hd)|].
  intros x (_ & _ & ? & _). done.
Qed.

Section allocate.
Context (n : nat) (st : fs S) (fi : inode) (d : inode_disk) (len : Z).
Hypothesis (Hfm : fm_ok st fi) (Hd : growable st fi d).
Hypothesis (Hlen : dlen d ≤ len ≤ MAX_FILE).
Local Notation b := (Z.to_nat (bytes_to_sectors len)).
Local Notation iwa := (inode_write_at_fuel (Datatypes.S n)).

Lemma sector_order : (nsec d ≤ b ≤ 251)%nat ∧ 0 ≤ len ≤ MAX_FILE.
Proof.
  pose proof (wd_len _ _ (gr_wf _ _ _ Hd)) as Hl.
  destruct (nsec_spec _ _ (gr_wf _ _ _ Hd)) as (Hn & _ & _).
  destruct (bytes_to_sectors_eq len) as [Hb ?]; [lia|]. split; [|lia].
  split; [|lia]. apply Nat2Z.inj_le. rewrite Hn, Z2Nat.id by lia. rewrite Hb.
  apply Z.div_le_mono; lia.
Qed.

(** The direct blocks. *)
Lemma allocate_direct_run :
  (Nat.min b 123 - nsec d ≤ nfree (free_map st))%nat →
  ∃ st1 g1, alloc_blocks iwa (Nat.min b 123) 0 (direct_blocks d) st =
      Ok ((true, take (nsec d) (direct_blocks d) ++ g1 ++ replicate (123 - nsec d - length g1) 0), st1) ∧
    length g1 = (Nat.min b 123 - nsec d)%nat ∧ fs_grow st st1 fi g1.
Proof.
  intros Hfree. pose proof sector_order as [Hb _].
  pose proof (wd_direct _ _ (gr_wf _ _ _ Hd)) as Hdl.
  assert (length (take (nsec d) (direct_blocks d)) = Nat.min (nsec d) 123) as Htl
    by (rewrite length_take; lia).
  destruct (alloc_blocks_spec n (Nat.min b 123) 0 st fi (take (nsec d) (direct_blocks d))
    (123 - nsec d)) as (st1 & g1 & Hr & Hl1 & _ & Hg); rewrite ?Htl; try lia; try done.
  { by eapply nonzero_direct. }
  rewrite <- (growable_direct _ _ _ Hd) in Hr. rewrite Htl in Hl1.
  exists st1, g1. split_and!; [done|lia|done].
Qed.

Lemma inode_allocate_direct :
  (b ≤ 123)%nat → (need d len ≤ nfree (free_map st))%nat →
  ∃ st' d' g, inode_allocate_with iwa d len st = Ok ((true, d'), st') ∧
    (∃ ws blk, d' = set_indirect blk (set_direct ws d)) ∧
    ino_grow st st' fi d (set_dlen len d') g ∧ length g = (b - nsec d)%nat.
Proof.
  intros Hb Hfree. pose proof sector_order as [Ho Hl]. unfold need in Hfree.
  pose proof (wd_direct _ _ (gr_wf _ _ _ Hd)) as Hdl.
  unfold inode_allocate_with. rewrite allocate_counts_spec by done.
  destruct (Z.ltb_spec 123 (bytes_to_sectors len)); [lia|].
  destruct allocate_direct_run as (st1 & g1 & Hr & Hl1 & Hg); [lia|].
  replace (Nat.min b 123) with b in Hr, Hl1 by lia.
  erewrite stM_bind_run by exact Hr. cbv beta iota zeta. cbn [negb].
  erewrite stM_bind_run by reflexivity. cbv beta iota. cbn [negb].
  set (ws := take (nsec d) (direct_blocks d) ++ _).
  exists st1, (set_direct ws d), g1. split_and!; [done|by exists ws, (indirect_block d)| |done].
  assert (nsec (set_dlen len (set_direct ws d)) = b) as He by done.
  assert (ws = (take (nsec d) (direct_blocks d) ++ g1) ++ replicate (123 - b) 0) as Hws.
  { unfold ws. rewrite <- app_assoc. do 3 f_equal. lia. }
  assert (length (take (nsec d) (direct_blocks d) ++ g1) = b) as Hwl
    by (rewrite length_app, length_take; lia).
  assert (length ws = 123%nat) as Hwsl by (rewrite Hws, length_app, Hwl, length_replicate; lia).
  rewrite <- (set_store_store st1).
  eapply (ino_grow_intro st st1 (store st1) fi d _ g1 g1); rewrite ?He; try done; try lia.
  - apply (fo_store _ _ (fg_ok _ _ _ _ Hg)).
  - unfold data_sectors, index_blocks; simpl. rewrite He.
    rewrite !take_app_le by lia. rewrite Hws, take_app_length' by done. done.
  - apply Hg.
  - simpl. rewrite Hws, drop_app_length' by done. done.
  - intros _. simpl. apply (gr_noind _ _ _ Hd). lia.
  - apply Hg.
Qed.

(** The words of the indirect block that are in use. *)
Local Notation used_words := (drop 123 (data_sectors (store st) d)).

Lemma used_words_spec :
  length used_words = (nsec d - 123)%nat ∧
  Forall (λ w, w ≠ 0 ∧ on_disk (store st) w) used_words ∧
  ((123 < nsec d)%nat → bytes_words 128 (disk (store st) (indirect_block d)) =
     used_words ++ replicate (251 - nsec d) 0).
Proof.
  destruct (nsec_spec _ _ (gr_wf _ _ _ Hd)) as (_ & _ & Hl).
  pose proof (wd_direct _ _ (gr_wf _ _ _ Hd)) as Hdl. split_and!.
  - rewrite length_drop. lia.
  - apply Forall_drop. eapply Forall_impl; [apply (gr_owned _ _ _ Hd)|].
    intros x (? & _ & ? & _). done.
  - intros Hc. rewrite <- (gr_indirect _ _ _ Hd) by done.
    unfold data_sectors, index_blocks. rewrite take_app_ge, drop_app_length' by lia.
    rewrite Hdl. by rewrite take_drop.
Qed.

(** The indirect block after it was written back. *)
Lemma words_in_u32 (l : list Z) st1 :
  fm_ok st1 fi → Forall (on_disk (store st1)) l → Forall in_u32 l.
Proof.
  intros Hf Hl. eapply Forall_impl; [exact Hl|]. intros x [??].
  pose proof (store_size _ (fo_store _ _ Hf)). unfold in_u32. lia.
Qed.

Lemma inode_allocate_indirect :
  (123 < b)%nat → (need d len ≤ nfree (free_map st))%nat →
  ∃ st' d' g, inode_allocate_with iwa d len st = Ok ((true, d'), st') ∧
    (∃ ws blk, d' = set_indirect blk (set_direct ws d)) ∧
    ino_grow st st' fi d (set_dlen len d') g ∧ length g = (b - nsec d)%nat.
Proof.
  intros Hb Hfree. pose proof sector_order as [Ho Hl]. unfold need in Hfree.
  pose proof (wd_direct _ _ (gr_wf _ _ _ Hd)) as Hdl.
  destruct (nsec_spec _ _ (gr_wf _ _ _ Hd)) as (_ & _ & Hdsl).
  destruct used_words_spec as (Hul & Huf & Huw).
  unfold inode_allocate_with. rewrite allocate_counts_spec by done.
  destruct (Z.ltb_spec 123 (bytes_to_sectors len)); [|lia].
  destruct allocate_direct_run as (st1 & g1 & Hr & Hl1 & Hg); [case_decide; lia|].
  replace (Nat.min b 123) with 123%nat in Hr, Hl1 by lia.
  erewrite stM_bind_run by exact Hr. cbv beta iota zeta. cbn [negb].
  destruct (Z.ltb_spec 0 (bytes_to_sectors len - 123)); [|lia].
  set (ws := take (nsec d) (direct_blocks d) ++ _).
  assert (ws = take (nsec d) (direct_blocks d) ++ g1) as Hws.
  { unfold ws. replace (123 - nsec d - length g1)%nat with 0%nat by lia.
    by rewrite app_nil_r. }
  assert (length ws = 123%nat) as Hwsl by (rewrite Hws, length_app, length_take; lia).
  pose proof (fs_grow_nfree _ _ _ _ Hfm Hg) as Hnf.
  destruct (alloc_indirect_spec n (bytes_to_sectors len - 123) st1 fi (indirect_block d)
    used_words (251 - Nat.max 123 (nsec d)))
    as (blk & st2 & s' & g0 & g2 & Hr2 & Eg0 & Eb & Hl2 & Hnz & Hg2 & Hown & Hu).
  { apply Hg. }
  { eapply Forall_impl; [exact Huf|]. intros x [? ?]. split; [done|].
    apply (on_disk_eq (store st)); [apply Hg|done]. }
  { lia. } { lia. }
  { destruct (decide (123 < nsec d)%nat) as [Hc|Hc]; [right|left].
    - split; [by apply (owned_grow _ _ _ _ _ Hg), Hd|].
      rewrite (owned_frame _ _ _ _ _ Hg) by by apply Hd.
      rewrite Huw by done. do 2 f_equal. lia.
    - split; [apply (gr_noind _ _ _ Hd); lia|]. apply nil_length_inv. lia. }
  { destruct (decide (123 < nsec d)%nat) as [Hc|Hc].
    - destruct (gr_ind _ _ _ Hd Hc) as (_ & _ & ? & _). rewrite decide_False by done.
      case_decide; lia.
    - rewrite (gr_noind _ _ _ Hd) by lia. rewrite decide_True by done. case_decide; lia. }
  cbn [indirect_block set_direct] in *.
  erewrite stM_bind_run by (erewrite stM_bind_run by exact Hr2; reflexivity).
  cbv beta iota. cbn [negb Z.ltb Z.compare].
  set (W := used_words ++ g2 ++ _) in *.
  set (d' := set_indirect blk (set_direct ws d)).
  exists (set_store s' st2), d', (g1 ++ g2).
  split; [done|]. split; [by exists ws, blk|].
  split; [|rewrite length_app; lia].
  assert (nsec (set_dlen len d') = b) as He by done.
  assert (indirect_block (set_dlen len d') = blk) as Hib by done.
  assert (direct_blocks (set_dlen len d') = ws) as Hdb by done.
  pose proof (fs_grow_trans _ _ _ _ _ _ Hfm Hg Hg2) as HG.
  assert (W = (used_words ++ g2) ++ replicate (251 - b) 0) as HW.
  { unfold W. rewrite <- app_assoc. do 3 f_equal. lia. }
  assert (length (used_words ++ g2) = (b - 123)%nat) as Hwl by (rewrite length_app; lia).
  assert (bytes_words 128 (disk s' blk) = W) as Hrd.
  { destruct Hu as (_ & _ & -> & _).
    assert (length W = 128%nat) as <- by (rewrite HW, length_app, Hwl, length_replicate; lia).
    apply bytes_words_bits. rewrite HW. apply Forall_app. split.
    - apply (words_in_u32 _ st2); [apply Hg2|]. apply Forall_app. split.
      + eapply Forall_impl; [exact Huf|]. intros x [_ ?].
        apply (on_disk_eq (store st)); [apply HG|done].
      + apply Forall_forall. intros x Hx.
        apply (owned_fresh st1 st2 fi (g0 ++ g2)); [apply Hg|done|].
        apply elem_of_app. by right.
    - apply Forall_replicate. unfold in_u32. lia. }
  assert (NoDup (g1 ++ g0 ++ g2)) as Hnd by apply HG.
  assert (g0 = [] ∧ blk = indirect_block d ∧ (123 < nsec d)%nat ∨ g0 = [blk]) as Hblk.
  { case_decide as Hz; [by right|left]. split_and!; [done|by apply Eb|].
    destruct (decide (123 < nsec d)%nat); [done|]. destruct Hz. apply (gr_noind _ _ _ Hd). lia. }
  eapply (ino_grow_intro st st2 s' fi d _ (g1 ++ g0 ++ g2)); rewrite ?He, ?Hib, ?Hdb; try done; try lia.
  - apply Hu.
  - apply Hu.
  - intros x Hx Hne. apply Hu; [done|]. by apply Hne.
  - unfold data_sectors, index_blocks at 1. rewrite He, Hib, Hdb.
    rewrite Hrd, take_app_ge, Hwsl, HW, take_app_length' by lia.
    rewrite Hws, <- (take_drop 123 (take (nsec d) (index_blocks (store st) d))).
    change (take (nsec d) (index_blocks (store st) d)) with (data_sectors (store st) d).
    rewrite (data_sectors_direct (store st)) by done.
    destruct (decide (123 < nsec d)%nat).
    + assert (g1 = []) as -> by (apply nil_length_inv; lia). by rewrite app_nil_r, <- !app_assoc.
    + assert (used_words = []) as -> by (apply nil_length_inv; lia).
      by rewrite app_nil_r, <- !app_assoc.
  - intros x. rewrite !elem_of_app. tauto.
  - rewrite (Permutation_app_comm g0 g2), app_assoc in Hnd. by apply NoDup_app in Hnd as [? _].
  - intros _. split; [done|]. split.
    + destruct Hblk as [(-> & -> & Hc)| ->].
      * intros Hx. pose proof (fg_fresh _ _ _ _ HG) as Hfr.
        eapply Forall_forall in Hfr as [_ Hb0]; [|exact Hx].
        destruct (gr_ind _ _ _ Hd Hc) as (_ & Hb1 & _). congruence.
      * rewrite (Permutation_app_comm g1) in Hnd. apply NoDup_cons in Hnd as [Hn _].
        rewrite elem_of_app in Hn |- *. tauto.
    + destruct Hblk as [(-> & -> & Hc)| ->]; [by left|right].
      apply elem_of_app. right. apply elem_of_app. left. by apply list_elem_of_singleton.
  - rewrite drop_ge by lia. by replace (123 - b)%nat with 0%nat by lia.
  - intros _. rewrite Hrd, HW, drop_app_length' by lia. done.
  - apply HG.
Qed.

End allocate.

Lemma inode_allocate_spec n st fi d len :
  fm_ok st fi → growable st fi d → dlen d ≤ len ≤ MAX_FILE →
  (need d len ≤ nfree (free_map st))%nat →
  ∃ st' d' g, inode_allocate_with (inode_write_at_fuel (Datatypes.S n)) d len st =
      Ok ((true, d'), st') ∧
    (∃ ws blk, d' = set_indirect blk (set_direct ws d)) ∧
    ino_grow st st' fi d (set_dlen len d') g ∧
    length g = (Z.to_nat (bytes_to_sectors len) - nsec d)%nat.
Proof.
  intros. destruct (decide (Z.to_nat (bytes_to_sectors len) ≤ 123)%nat).
  - by apply inode_allocate_direct.
  - apply inode_allocate_indirect; [done..|lia|done].
Qed.

(** ** Updates of sectors that belong to files *)

(** A change confined to owned sectors leaves the free map and its file
    alone. *)
Lemma fm_outside st fi s' :
  fm_ok st fi → store_ok s' → dev_size s' = dev_size (store st) →
  (∀ x, on_disk (store st) x → ¬ owned st fi x → disk s' x = disk (store st) x) →
  fm_ok (set_store s' st) fi ∧ (∀ x, owned st fi x → owned (set_store s' st) fi x) ∧
  (fm_saved st fi → fm_saved (set_store s' st) fi).
Proof.
  intros Hfm Hok Hs Hx. pose proof (fo_disk _ _ Hfm) as Hwd.
  assert ((123 < nsec (data fi))%nat → disk s' (indirect_block (data fi)) =
    disk (store st) (indirect_block (data fi))) as Hi.
  { intros Hc. apply Hx; [by apply (wd_ind _ _ Hwd)|]. intros (_ & _ & _ & _ & Hne). by apply Hne. }
  destruct (fm_ok_store st fi s' Hfm) as [Hfm' Hds]; [done..|]. split_and!; [done| |].
  - intros x (Ho & Hb & Hz & Hn & Hni). split_and!; simpl; try done.
    + by apply (on_disk_eq (store st)).
    + by rewrite Hds.
  - intros Hsv. unfold fm_saved in *. simpl. rewrite <- Hsv.
    apply content_frame; [done|]. split_and!; try done.
    intros x Hin. pose proof (wd_sectors _ _ Hwd) as Hall. eapply Forall_forall in Hall; [|done].
    apply Hx; [done|]. intros (_ & _ & _ & Hne & _). done.
Qed.

Lemma growable_agrees st st' fi d :
  growable st fi d → agrees (store st) (store st') d →
  (∀ x, owned st fi x → owned st' fi x) → growable st' fi d.
Proof.
  intros [Hwf Ho Hi Hni Hd Hin Hs] Ha Hown.
  pose proof Ha as (Hok & He & Hx & Hxi).
  destruct (content_frame _ _ _ Hwf Ha) as [Hwf' Hc].
  destruct (wf_disk_frame _ (store st') _ Hwf) as [_ E]; [done..|].
  split; rewrite ?E; auto.
  - eapply Forall_impl; [exact Ho|]. done.
  - intros Hcc. rewrite Hxi by done. auto.
  - by rewrite (raw_frame _ _ _ Hwf Ha), Hc.
Qed.

Lemma growable_upd st s' fi d c :
  store_ok (store st) → growable st fi d → file_upd (store st) s' d c →
  (∀ x, owned st fi x → owned (set_store s' st) fi x) → growable (set_store s' st) fi d.
Proof.
  intros Hok0 [Hwf Ho Hi Hni Hd Hin Hs] [Hok He Hwf' E Hc Hsl Hx] Hown.
  split; simpl; rewrite ?E; auto.
  - eapply Forall_impl; [exact Ho|]. done.
  - intros Hcc. destruct (wd_ind _ _ Hwf Hcc). rewrite Hx by done. auto.
  - rewrite <- (take_drop (Z.to_nat (dlen d)) (raw s' d)), Hsl. f_equal.
    rewrite Hs. apply drop_app_length'. by rewrite length_content.
Qed.

(** The free map's inode is not the one at [p]. *)
Definition not_fm_inode st (p : Z) : Prop :=
  ∀ fp f, free_map_file st = Some fp → files st !! fp = Some f → f_inode f ≠ p.

Lemma fm_ok_set_inodes st fi p i :
  fm_ok st fi → not_fm_inode st p → fm_ok (set_inodes (<[p := i]> (inodes st)) st) fi.
Proof.
  intros [? ? ? ? (fp & f & Hfp & Hf & Hi) ? ? ? ? ?] Hn. split; try done.
  exists fp, f. split_and!; try done. simpl. rewrite lookup_insert_ne; [done|].
  apply not_eq_sym. by eapply Hn.
Qed.

(** The state of an open inode that may be written: its sectors and the one
    that holds the inode itself belong to it, and the inode on disk is the
    one in memory. *)
Record writable st (fi : inode) (p : Z) (ino : inode) : Prop := {
  wr_fm : fm_ok st fi;
  wr_inode : inodes st !! p = Some ino;
  wr_other : not_fm_inode st p;
  wr_grow : growable st fi (data ino);
  wr_sector : owned st fi (isector ino);
  wr_data : isector ino ∉ data_sectors (store st) (data ino);
  wr_ind : (123 < nsec (data ino))%nat → isector ino ≠ indirect_block (data ino);
  wr_deny : deny_write_cnt ino = 0;
  wr_pad : length (padding (data ino)) = 3%nat;
  wr_disk : disk (store st) (isector ino) = encode_inode_disk (data ino);
}.

(** Every sector of the file: its inode, its indirect block and its data. *)
Definition sectors_of s (ino : inode) : list Z :=
  isector ino :: (if decide (123 < nsec (data ino))%nat then [indirect_block (data ino)] else []) ++
  data_sectors s (data ino).

Lemma elem_of_sectors s ino x :
  x ∈ sectors_of s ino ↔ x = isector ino ∨
    ((123 < nsec (data ino))%nat ∧ x = indirect_block (data ino)) ∨ x ∈ data_sectors s (data ino).
Proof.
  unfold sectors_of. rewrite elem_of_cons, elem_of_app. case_decide; [rewrite list_elem_of_singleton|];
    rewrite ?elem_of_nil; tauto.
Qed.

(** The inode at [p] went from [ino] to the on-disk inode [e]: what the file
    consists of is what it consisted of and sectors that were free, and the
    rest of the disk is unchanged. *)
Record extended st st' (fi : inode) (p : Z) (ino : inode) e : Prop := {
  ex_writable : writable st' fi p (set_data e ino);
  ex_inodes : inodes st' = <[p := set_data e ino]> (inodes st);
  ex_sectors : ∀ x, x ∈ sectors_of (store st') (set_data e ino) →
    x ∈ sectors_of (store st) ino ∨ bit (free_map st) x = false;
  ex_owned : ∀ x, owned st fi x → owned st' fi x;
  ex_frame : ∀ x, owned st fi x → x ∉ sectors_of (store st) ino →
    disk (store st') x = disk (store st) x;
  ex_saved : fm_saved st fi → fm_saved st' fi;
  ex_size : dev_size (store st') = dev_size (store st);
  ex_same : free_map_file st' = free_map_file st ∧ files st' = files st ∧ dirs st' = dirs st ∧
    open_inodes st' = open_inodes st ∧ next_ptr st' = next_ptr st;
}.

Lemma extend_spec n st fi p ino len :
  writable st fi p ino → dlen (data ino) ≤ len ≤ MAX_FILE →
  (need (data ino) len ≤ nfree (free_map st))%nat →
  ∃ st' e, extend_with (inode_write_at_fuel (Datatypes.S n)) p ino len st = Ok (tt, st') ∧
    dlen e = len ∧ extended st st' fi p ino e ∧
    (∃ g, data_sectors (store st') e = data_sectors (store st) (data ino) ++ g ∧
          Forall (λ x, bit (free_map st) x = false) g) ∧
    content (store st') e =
      content (store st) (data ino) ++ replicate (Z.to_nat (len - dlen (data ino))) 0.
Proof.
  intros [Hfm Hp Hoth Hgr Hsec Hsd Hsi Hdeny Hpad _] Hlen Hneed. unfold extend_with.
  destruct (inode_allocate_spec n st fi (data ino) len) as (st1 & d' & g & Hr & (ws & blk & Ed) & Hg & Hgl);
    [done..|]. set (e := set_dlen len d') in *.
  erewrite stM_bind_run by exact Hr. cbv beta iota.
  erewrite stM_bind_run by reflexivity.
  destruct (ig_shape _ _ _ _ _ _ Hg) as (s1 & b1 & Est1).
  assert (alter (set_data e) p (inodes st1) = <[p := set_data e ino]> (inodes st)) as Ea.
  { rewrite Est1. by apply alter_insert_Some. }
  fold e. rewrite Ea.
  set (st2 := set_inodes (<[p := set_data e ino]> (inodes st)) st1).
  assert (length (encode_inode_disk e) = SECTOR_BYTES) as Hel.
  { apply length_encode; [by rewrite <- Hpad; subst d'|apply (ig_new _ _ _ _ _ _ Hg)]. }
  assert (fm_ok st2 fi) as Hfm2.
  { unfold st2. replace (inodes st) with (inodes st1) by by rewrite Est1.
    apply fm_ok_set_inodes; [apply Hg|]. rewrite Est1. done. }
  assert (owned st2 fi (isector ino)) as Hsec2 by exact (ig_owned _ _ _ _ _ _ Hg _ Hsec).
  destruct (on_store_write st2 (isector ino) (encode_inode_disk e) 0 BLOCK_SECTOR_SIZE)
    as (s3 & Hw & Hu); try done; [apply Hfm2|apply Hsec2|by rewrite Hel|].
  rewrite take_ge, splice_full in Hu by
    (rewrite Hel, ?disk_length by apply Hfm2; done). destruct Hu as (Hok3 & Hs3 & Hd3 & Hx3).
  exists (set_store s3 st2), e. split; [exact Hw|]. split; [done|].
  destruct (fm_outside st2 fi s3 Hfm2 Hok3 Hs3) as (Hfm3 & Hown3 & Hsv3).
  { intros x Hx Hn. apply Hx3; [done|]. by intros ->. }
  pose proof (ig_new _ _ _ _ _ _ Hg) as Hgr1.
  assert (isector ino ∉ data_sectors (store st1) e) as Hsd1.
  { rewrite (ig_data _ _ _ _ _ _ Hg). apply not_elem_of_app. split; [done|]. intros Hin.
    pose proof (ig_fresh _ _ _ _ _ _ Hg) as Hfr. eapply Forall_forall in Hfr; [|done].
    destruct Hsec as (_ & ? & _). congruence. }
  assert ((123 < nsec e)%nat → isector ino ≠ indirect_block e) as Hsi1.
  { intros Hc. destruct (ig_fresh_ind _ _ _ _ _ _ Hg Hc) as [[-> ?]|Hfr]; [by apply Hsi|].
    intros E. rewrite <- E in Hfr. destruct Hsec as (_ & ? & _). congruence. }
  assert (agrees (store st2) s3 e) as Hag.
  { split_and!; try done.
    - intros x Hx. apply Hx3; [|by intros ->]. pose proof (wd_sectors _ _ (gr_wf _ _ _ Hgr1)) as Hall.
      by eapply Forall_forall in Hall.
    - intros Hc. apply Hx3; [by apply (wd_ind _ _ (gr_wf _ _ _ Hgr1))|]. apply not_eq_sym. by apply Hsi1. }
  assert (growable (set_store s3 st2) fi e) as Hgr3.
  { apply (growable_agrees st2); [|done..]. destruct Hgr1. by split. }
  assert (data_sectors s3 e = data_sectors (store st1) e) as Hds.
  { apply data_sectors_frame; [apply Hag|apply Hgr1]. }
  split_and!.
  - split.
    + split; try done.
      * unfold st2. simpl. by rewrite lookup_insert_eq.
      * intros fp f. unfold st2. simpl. rewrite Est1. simpl. apply Hoth.
      * by apply Hown3.
      * simpl. by rewrite Hds.
      * by rewrite <- Hpad; subst d'.
    + done.
    + intros x. rewrite !elem_of_sectors. cbn [isector data set_data store set_store].
      rewrite Hds, (ig_data _ _ _ _ _ _ Hg), elem_of_app.
      intros [?|[[Hc ->]|[?|Hx]]]; auto.
      * destruct (ig_fresh_ind _ _ _ _ _ _ Hg Hc) as [[-> ?]|?]; auto.
      * right. pose proof (ig_fresh _ _ _ _ _ _ Hg) as Hfr. by eapply Forall_forall in Hfr.
    + intros x Hx. apply Hown3. exact (ig_owned _ _ _ _ _ _ Hg _ Hx).
    + intros x Hx Hns. rewrite elem_of_sectors in Hns. simpl. rewrite Hx3.
      * apply (ig_frame _ _ _ _ _ _ Hg); [done|]. tauto.
      * apply (ig_owned _ _ _ _ _ _ Hg _ Hx).
      * tauto.
    + intros Hs. apply Hsv3. exact (ig_saved _ _ _ _ _ _ Hg Hs).
    + cbn [store set_store]. rewrite Hs3. apply Hg.
    + unfold st2. simpl. by rewrite Est1.
  - exists g. simpl. rewrite Hds. split; apply Hg.
  - transitivity (content (store st1) e); [|exact (ig_content _ _ _ _ _ _ Hg)]. simpl.
    apply (content_frame (store st2)); [apply (gr_wf _ _ _ Hgr1)|done].
Qed.

(** Writing inside the file that [extend_spec] made long enough. *)
Lemma extended_write st st1 s2 fi p ino e c :
  extended st st1 fi p ino e →
  (∃ g, data_sectors (store st1) e = data_sectors (store st) (data ino) ++ g ∧
        Forall (λ x, bit (free_map st) x = false) g) →
  file_upd (store st1) s2 e c →
  extended st (set_store s2 st1) fi p ino e.
Proof.
  intros [[Hfm Hp Hoth Hgr Hsec Hsd Hsi Hdeny Hpad Hdk] Hin Hes Hown Hfr Hsv Hsz Hsm] (g & Eg & Hgf) Hu.
  cbn [isector data set_data] in *.
  assert (∀ x, x ∈ data_sectors (store st1) e → owned st1 fi x) as Hall.
  { pose proof (gr_owned _ _ _ Hgr) as Ho. by rewrite Forall_forall in Ho. }
  destruct (fm_outside st1 fi s2 Hfm) as (Hfm2 & Hown2 & Hsv2); [apply Hu|apply Hu| |].
  { intros x Hx Hn. apply Hu; [done|]. by intros ?%Hall. }
  split; auto.
  - split; auto; cbn [isector data set_data store set_store].
    + eapply growable_upd; [apply Hfm|done..].
    + by rewrite (fu_sectors _ _ _ _ Hu).
    + rewrite <- Hdk. apply Hu; [apply Hsec|done].
  - intros x Hx. apply Hes. revert Hx. rewrite !elem_of_sectors. cbn [data set_data store set_store].
    by rewrite (fu_sectors _ _ _ _ Hu).
  - intros x Hx Hns. rewrite <- Hfr by done. apply Hu; [apply Hown; done|].
    rewrite Eg. apply not_elem_of_app. rewrite elem_of_sectors in Hns. split; [tauto|]. intros Hg.
    eapply Forall_forall in Hgf; [|done]. destruct Hx as (_ & ? & _). congruence.
  - cbn [store set_store]. rewrite <- Hsz. apply Hu.
Qed.

Lemma inode_write_at_grow st fi p ino buffer size offset :
  writable st fi p ino → 0 ≤ offset → 0 ≤ size → size ≤ Z.of_nat (length buffer) →
  dlen (data ino) < offset + size ≤ MAX_FILE →
  (need (data ino) (offset + size) ≤ nfree (free_map st))%nat →
  ∃ st' e, inode_write_at p buffer size offset st = Ok (size, st') ∧ dlen e = offset + size ∧
    extended st st' fi p ino e ∧
    content (store st') e = splice (Z.to_nat offset) (take (Z.to_nat size) buffer)
      (content (store st) (data ino) ++ replicate (Z.to_nat (offset + size - dlen (data ino))) 0).
Proof.
  intros Hw Ho Hs Hb Hlen Hneed. pose proof Hlen as [_ Hmax]. unfold MAX_FILE, BLOCK_SECTOR_SIZE in Hmax.
  unfold inode_write_at, FS_FUEL. cbn [inode_write_at_fuel]. unfold inode_write_at_with at 1.
  erewrite stM_bind_run by (apply get_inode_run, Hw). rewrite (wr_deny _ _ _ _ Hw). cbn [negb Z.eqb].
  rewrite i32_small by (unfold in_i32; pose proof (wd_len _ _ (gr_wf _ _ _ (wr_grow _ _ _ _ Hw))); lia).
  destruct (Z.ltb_spec (dlen (data ino)) (offset + size)); [|lia].
  destruct (extend_spec 1 st fi p ino (offset + size)) as (st1 & e & Hr & Hl & Hx & Hg & Hc);
    [done|lia|done|].
  erewrite stM_bind_run by exact Hr.
  destruct (write_loop_spec (Z.to_nat size) st1 p (set_data e ino) buffer size offset 0)
    as (s2 & Hwl & Hu); simpl; try done; try lia.
  { apply (wr_fm _ _ _ _ (ex_writable _ _ _ _ _ _ Hx)). }
  { apply (wr_inode _ _ _ _ (ex_writable _ _ _ _ _ _ Hx)). }
  { apply (gr_wf _ _ _ (wr_grow _ _ _ _ (ex_writable _ _ _ _ _ _ Hx))). }
  erewrite stM_bind_run by exact Hwl. cbv beta iota.
  pose proof (extended_write _ _ _ _ _ _ _ _ Hx Hg Hu) as Hx2.
  erewrite stM_bind_run by (apply get_inode_run, (ex_writable _ _ _ _ _ _ Hx2)).
  cbn [data set_data]. rewrite Hl. destruct (Z.ltb_spec (offset + size) (offset + size)); [lia|].
  erewrite stM_bind_run by reflexivity.
  exists (set_store s2 st1), e. split; [done|]. split; [done|]. split; [done|].
  pose proof (fu_content _ _ _ _ Hu) as Hcu. simpl in *. by rewrite Hcu, Hc.
Qed.

(** ** Writing anywhere in a file *)

(** What writing [b] at [o] means for a file that holds [c]: a hole is filled
    with zeros. *)
Definition write_spec (o : nat) (b c : list Z) : list Z :=
  splice o b (c ++ replicate (o + length b - length c) 0).

Lemma inode_write_at_spec st fi p ino buffer size offset :
  writable st fi p ino → 0 ≤ offset → 0 ≤ size → size ≤ Z.of_nat (length buffer) →
  offset + size ≤ MAX_FILE →
  (need (data ino) (Z.max (dlen (data ino)) (offset + size)) ≤ nfree (free_map st))%nat →
  ∃ st' e, inode_write_at p buffer size offset st = Ok (size, st') ∧
    dlen e = Z.max (dlen (data ino)) (offset + size) ∧ extended st st' fi p ino e ∧
    content (store st') e =
      write_spec (Z.to_nat offset) (take (Z.to_nat size) buffer) (content (store st) (data ino)).
Proof.
  intros Hw Ho Hs Hb Hmax Hneed. pose proof (wr_grow _ _ _ _ Hw) as Hgr.
  pose proof (gr_wf _ _ _ Hgr) as Hwf. pose proof (wd_len _ _ Hwf).
  pose proof (fo_store _ _ (wr_fm _ _ _ _ Hw)) as Hok.
  unfold write_spec. rewrite length_content, length_take, Nat.min_l by (done || lia).
  destruct (Z.ltb_spec (dlen (data ino)) (offset + size)).
  - rewrite Z.max_r in * by lia.
    destruct (inode_write_at_grow st fi p ino buffer size offset) as (st' & e & Hr & Hl & Hx & Hc);
      try done.
    exists st', e. rewrite Hc. split_and!; try done. do 3 f_equal. lia.
  - rewrite Z.max_l by lia.
    destruct (inode_write_at_inplace (inode_write_at_fuel 2) st p ino buffer size offset)
      as (s' & Hr & Hu); try done; try apply Hw; try lia.
    exists (set_store s' st), (data ino). split; [exact Hr|]. split; [done|]. split.
    + eapply (extended_write st st s'); [|exists []; by rewrite app_nil_r|exact Hu].
      replace (set_data (data ino) ino) with ino by by destruct ino.
      split; auto; replace (set_data (data ino) ino) with ino by (by destruct ino); try done; auto.
      symmetry. apply insert_id, Hw.
    + simpl. rewrite (fu_content _ _ _ _ Hu). f_equal.
      replace (_ - _)%nat with 0%nat by lia. by rewrite app_nil_r.
Qed.

(** Reading through the cache leaves a file writable. *)
Lemma writable_eq st fi p ino s' :
  writable st fi p ino → disk_eq (store st) s' → writable (set_store s' st) fi p ino.
Proof.
  intros [Hfm Hp Hoth Hgr Hsec Hsd Hsi Hdeny Hpad Hdk] He.
  pose proof (fs_grow_eq st fi s' Hfm He) as Hg.
  assert (agrees (store st) s' (data ino)) as Hag by (apply disk_eq_agrees; [apply Hgr|done]).
  assert (data_sectors s' (data ino) = data_sectors (store st) (data ino)) as Hds
    by (apply data_sectors_frame; [apply Hag|apply Hgr]).
  split; try done.
  - apply Hg.
  - apply (growable_agrees st); [done..|]. intros x. apply (owned_grow _ _ _ _ _ Hg).
  - by apply (owned_grow _ _ _ _ _ Hg).
  - cbn [store set_store]. by rewrite Hds.
  - cbn [store set_store]. rewrite <- Hdk. apply He, Hsec.
Qed.

(** Two open inodes that share no sector. *)
Definition separate st (i1 i2 : inode) : Prop :=
  ∀ x, x ∈ sectors_of (store st) i1 → x ∉ sectors_of (store st) i2.

Lemma writable_owned st fi p ino x :
  writable st fi p ino → x ∈ sectors_of (store st) ino → owned st fi x.
Proof.
  intros Hw [->|[[Hc ->]|Hx]]%elem_of_sectors; [apply Hw|by apply (wr_grow _ _ _ _ Hw)|].
  pose proof (gr_owned _ _ _ (wr_grow _ _ _ _ Hw)) as Ho. by eapply Forall_forall in Ho.
Qed.

(** A file that shares no sector with the one that was written is unchanged. *)
Lemma extended_other st st' fi p ino e q iq :
  extended st st' fi p ino e → writable st fi q iq → q ≠ p → separate st ino iq →
  writable st' fi q iq ∧ separate st' (set_data e ino) iq ∧
  content (store st') (data iq) = content (store st) (data iq) ∧
  sectors_of (store st') iq = sectors_of (store st) iq.
Proof.
  intros Hx Hq Hne Hsep. pose proof (wr_grow _ _ _ _ Hq) as Hgr.
  assert (∀ x, x ∈ sectors_of (store st) iq → disk (store st') x = disk (store st) x) as Hsame.
  { intros x Hin. apply (ex_frame _ _ _ _ _ _ Hx); [by eapply writable_owned|].
    intros Hin'. by apply (Hsep x). }
  assert (agrees (store st) (store st') (data iq)) as Hag.
  { split_and!; [apply (wr_fm _ _ _ _ (ex_writable _ _ _ _ _ _ Hx))|apply Hx| |];
      intros; apply Hsame, elem_of_sectors; tauto. }
  assert (data_sectors (store st') (data iq) = data_sectors (store st) (data iq)) as Hds.
  { apply data_sectors_frame; [apply Hag|apply Hgr]. }
  assert (sectors_of (store st') iq = sectors_of (store st) iq) as Hso.
  { unfold sectors_of. by rewrite Hds. }
  split_and!; [|intros x Hin; rewrite Hso| |done].
  - destruct Hq as [Hfm Hp Hoth _ Hsec Hsd Hsi Hdeny Hpad Hdk].
    split; rewrite ?Hds; try done.
    + apply (ex_writable _ _ _ _ _ _ Hx).
    + rewrite (ex_inodes _ _ _ _ _ _ Hx), lookup_insert_ne by done. done.
    + destruct (ex_same _ _ _ _ _ _ Hx) as (E1 & E2 & _). intros fp f. rewrite E1, E2. apply Hoth.
    + eapply growable_agrees; [done..|]. apply Hx.
    + by apply Hx.
    + rewrite <- Hdk. apply Hsame, elem_of_sectors. by left.
  - apply (ex_sectors _ _ _ _ _ _ Hx) in Hin as [Hin|Hfree]; [by apply Hsep|].
    intros (_ & Hb & _)%(writable_owned _ _ _ _ _ Hq). congruence.
  - apply content_frame; [apply Hgr|done].
Qed.

End growth.
