(* ===== verification/FileContents.v ===== *)
(** * Files as byte sequences

    The theorems about whole operations of the inode layer: a write is what a
    later read sees, files do not interfere, a created inode opens as zeros,
    and what happens when the disk is full. *)

From S2P Require Import Prelude Bitmap Block Cache Inode InodeSpec Growth.
Import Bitmap.

Section theorems.
Context {S : Type} `{SectorStoreLaws S}.
Implicit Types (s : S) (d : inode_disk) (st : fs S).

(** C1: for an open inode whose sectors are its own, a write of [size] bytes at
    [offset] that fits the indexable 251 sectors and the free space writes them
    all, and any later read returns the bytes of the old file overwritten at
    [offset], holes read as zeros, cut at the end of the file; the inode stays
    writable and its on-disk copy and the free map's file stay current. *)
Theorem inode_write_then_read st fi p ino buffer size offset :
  writable st fi p ino → 0 ≤ offset → 0 ≤ size → size ≤ Z.of_nat (length buffer) →
  offset + size ≤ MAX_FILE →
  (need (data ino) (Z.max (dlen (data ino)) (offset + size)) ≤ nfree (free_map st))%nat →
  ∃ st' e, inode_write_at p buffer size offset st = Ok (size, st') ∧
    writable st' fi p (set_data e ino) ∧ (fm_saved st fi → fm_saved st' fi) ∧
    dlen e = Z.max (dlen (data ino)) (offset + size) ∧
    ∀ o n, 0 ≤ o → 0 ≤ n → o + n < W31 →
      ∃ s', inode_read_at p n o st' =
        Ok ((Z.max 0 (Z.min n (dlen e - o)),
             slice (Z.to_nat o) (Z.to_nat n)
               (write_spec (Z.to_nat offset) (take (Z.to_nat size) buffer)
                  (content (store st) (data ino)))), set_store s' st') ∧
        disk_eq (store st') s'.
Proof.
  intros Hw Ho Hs Hb Hmax Hneed.
  destruct (inode_write_at_spec st fi p ino buffer size offset) as (st' & e & Hr & Hl & Hx & Hc);
    [done..|].
  exists st', e. pose proof (ex_writable _ _ _ _ _ _ Hx) as Hw'.
  split_and!; [done|done|apply Hx|done|]. intros o n ? ? ?. rewrite <- Hc.
  apply (inode_read_at_spec st' p (set_data e ino)); try done; [apply Hw'..|].
  apply (gr_wf _ _ _ (wr_grow _ _ _ _ Hw')).
Qed.

(** C27: writing one file leaves every other file alone: an inode that shares no
    sector with the written one still shares none, is as it was, and reads the
    same bytes. *)
Theorem inode_write_isolated st fi p ino q iq buffer size offset :
  writable st fi p ino → writable st fi q iq → q ≠ p → separate st ino iq →
  0 ≤ offset → 0 ≤ size → size ≤ Z.of_nat (length buffer) → offset + size ≤ MAX_FILE →
  (need (data ino) (Z.max (dlen (data ino)) (offset + size)) ≤ nfree (free_map st))%nat →
  ∃ st' e, inode_write_at p buffer size offset st = Ok (size, st') ∧
    writable st' fi q iq ∧ separate st' (set_data e ino) iq ∧
    ∀ o n, 0 ≤ o → 0 ≤ n → o + n < W31 →
      ∃ s', inode_read_at q n o st' =
        Ok ((Z.max 0 (Z.min n (dlen (data iq) - o)),
             slice (Z.to_nat o) (Z.to_nat n) (content (store st) (data iq))), set_store s' st').
Proof.
  intros Hw Hq Hne Hsep Ho Hs Hb Hmax Hneed.
  destruct (inode_write_at_spec st fi p ino buffer size offset) as (st' & e & Hr & Hl & Hx & _);
    [done..|].
  destruct (extended_other _ _ _ _ _ _ _ _ Hx Hq Hne Hsep) as (Hq' & Hsep' & Hc & _).
  exists st', e. split_and!; [done..|]. intros o n ? ? ?. rewrite <- Hc.
  destruct (inode_read_at_spec st' q iq n o) as (s' & ? & _); try done; [apply Hq'..| |eauto].
  apply (gr_wf _ _ _ (wr_grow _ _ _ _ Hq')).
Qed.

(** ** A full disk *)

Lemma nfree_0_run b : wf b → nfree b = 0%nat → ∀ i, 0 ≤ i < bit_cnt b → bit b i = true.
Proof.
  unfold nfree. intros Hwf Hn%nil_length_inv i Hi. destruct (bit b i) eqn:E; [done|].
  assert (i ∈ filter (λ i, bit b i = false) (seqZ 0 (bit_cnt b))) as Hin.
  { apply list_elem_of_filter. split; [done|]. apply elem_of_seqZ. lia. }
  rewrite Hn in Hin. by apply elem_of_nil in Hin.
Qed.

Lemma free_map_allocate_full iwa st fi :
  fm_ok st fi → nfree (free_map st) = 0%nat → free_map_allocate_with iwa 1 st = Ok (None, st).
Proof.
  intros Hfm Hn. pose proof (fo_wf _ _ Hfm) as Hwf. pose proof (nfree_0_run _ Hwf Hn) as Hall.
  destruct (bitmap_scan_and_flip_spec (free_map st) 0 1 false) as (sec & b' & Hr & Hres & Hc);
    [done|destruct Hwf; lia|lia|].
  unfold free_map_allocate_with. erewrite stM_bind_run by reflexivity.
  erewrite stM_bind_run by (unfold slift; by rewrite Hr).
  destruct Hc as [[-> ->]|(_ & ? & ? & Hrun & _)].
  - erewrite stM_bind_run by reflexivity. by rewrite set_free_map_same.
  - specialize (Hrun sec). rewrite Hall in Hrun by lia. naive_solver lia.
Qed.

Lemma inode_allocate_full iwa st fi d len :
  fm_ok st fi → nfree (free_map st) = 0%nat → 0 < len ≤ BLOCK_SECTOR_SIZE →
  direct_blocks d !! 0%nat = Some 0 → inode_allocate_with iwa d len st = Ok ((false, d), st).
Proof.
  intros Hfm Hn Hl Hd0. unfold inode_allocate_with.
  assert (bytes_to_sectors len = 1) as Hb.
  { unfold BLOCK_SECTOR_SIZE in Hl.
    destruct (bytes_to_sectors_eq len) as [-> _]; [unfold MAX_FILE, BLOCK_SECTOR_SIZE; lia|]. dlia. }
  unfold allocate_counts. rewrite Hb. simpl.
  rewrite Hd0, !stM_bind_eq. simpl. rewrite !stM_bind_eq, (free_map_allocate_full _ _ fi) by done.
  simpl. unfold mret, stM_ret. destruct d. done.
Qed.

(** C35: on a full disk a write to an empty file claims success and overwrites
    sector 0, which holds the free map's inode: [inode_write_at] ignores the
    failure of [inode_allocate] and the unallocated entry 0 is taken for a
    sector number. *)
Theorem inode_write_full_disk st fi p ino buffer size :
  writable st fi p ino → dlen (data ino) = 0 → nfree (free_map st) = 0%nat →
  0 < size ≤ BLOCK_SECTOR_SIZE → size ≤ Z.of_nat (length buffer) →
  isector ino ≠ 0 →
  ∃ st', inode_write_at p buffer size 0 st = Ok (size, st') ∧
    disk (store st') FREE_MAP_SECTOR =
      splice 0 (take (Z.to_nat size) buffer) (disk (store st) FREE_MAP_SECTOR).
Proof.
  intros Hw Hd0 Hn Hs Hb Hsec. pose proof (wr_fm _ _ _ _ Hw) as Hfm.
  pose proof (wr_grow _ _ _ _ Hw) as Hgr. unfold BLOCK_SECTOR_SIZE in Hs.
  pose proof (wd_direct _ _ (gr_wf _ _ _ Hgr)) as Hdl.
  assert (nsec (data ino) = 0%nat) as Hn0 by (unfold nsec; by rewrite Hd0).
  assert (direct_blocks (data ino) = replicate 123 0) as Hdb.
  { pose proof (gr_direct _ _ _ Hgr) as Hd. by rewrite Hn0, drop_0 in Hd. }
  unfold inode_write_at, FS_FUEL. cbn [inode_write_at_fuel]. unfold inode_write_at_with at 1.
  erewrite stM_bind_run by (apply get_inode_run, Hw). rewrite (wr_deny _ _ _ _ Hw). cbn [negb Z.eqb].
  rewrite i32_small, Z.add_0_l, Hd0 by (unfold in_i32; lia).
  destruct (Z.ltb_spec 0 size); [|lia].
  set (d := set_dlen size (data ino)).
  set (st1 := set_inodes (<[p := set_data d ino]> (inodes st)) st).
  assert (length (encode_inode_disk d) = SECTOR_BYTES) as Hel by (apply length_encode; apply Hw || done).
  destruct (on_store_write st1 (isector ino) (encode_inode_disk d) 0 BLOCK_SECTOR_SIZE)
    as (s2 & Hw2 & Hok2 & Hs2 & _ & Hx2); try done; [apply Hfm|apply (wr_sector _ _ _ _ Hw)|by rewrite Hel|].
  erewrite stM_bind_run; [|unfold extend_with; erewrite stM_bind_run by
    (eapply inode_allocate_full; [done|done|by unfold BLOCK_SECTOR_SIZE|by rewrite Hdb]);
    cbv beta iota; erewrite stM_bind_run by reflexivity; rewrite (alter_insert_Some _ _ ino) by apply Hw;
    exact Hw2].
  set (st2 := set_store s2 st1). set (ino' := set_data d ino).
  assert (inodes st2 !! p = Some ino') as Hp2 by (unfold st2, st1; simpl; by rewrite lookup_insert_eq).
  assert (on_disk s2 0) as H0d.
  { destruct (wr_sector _ _ _ _ Hw) as ([??] & _). unfold on_disk. rewrite Hs2. simpl. lia. }
  destruct (on_store_write st2 0 buffer 0 size) as (s3 & Hw3 & _ & _ & Hd3 & _);
    try done; try (unfold BLOCK_SECTOR_SIZE; lia).
  destruct (Z.to_nat size) as [|k] eqn:Ek; [lia|]. cbn [write_loop].
  destruct (Z.ltb_spec 0 size); [|lia].
  assert (chunk_size ino' size 0 = size) as Hch.
  { unfold chunk_size, BLOCK_SECTOR_SIZE. change (dlen (data ino')) with size. simpl.
    rewrite Z.sub_0_r, i32_small by (unfold in_i32; lia).
    change (Z.rem 0 512) with 0; repeat case_match; bool_props; lia. }
  erewrite stM_bind_run; cycle 1.
  { erewrite stM_bind_run by (apply get_inode_run, Hp2). cbv beta.
    assert (byte_to_sector ino' 0 st2 = Ok (0, st2)) as Hbt.
    { unfold byte_to_sector, get_index_sector, ino'; simpl. destruct (Z.ltb_spec 0 size); [|lia].
      simpl. by rewrite Hdb. }
    erewrite stM_bind_run by exact Hbt. cbv beta zeta. rewrite Hch.
    destruct (Z.leb_spec size 0); [lia|]. erewrite stM_bind_run by exact Hw3. cbv beta.
    rewrite Z.sub_diag. destruct k; cbn [write_loop Z.ltb Z.compare]; reflexivity. }
  cbv beta iota. erewrite stM_bind_run by (apply get_inode_run; exact Hp2). cbv beta.
  rewrite Z.add_0_l. change (dlen (data ino')) with size. rewrite Z.ltb_irrefl.
  erewrite stM_bind_run by reflexivity.
  eexists. split; [reflexivity|]. cbn [store set_store]. change FREE_MAP_SECTOR with 0.
  rewrite Hd3. f_equal. apply Hx2; [|done]. by apply (on_disk_eq s2).
Qed.

End theorems.

(** ** A concrete file system

    Eight sectors: the free map's inode (0) and file (2), the root directory
    (1), an empty file's inode (3), and another file's inode (4) and data (5);
    sectors 6 and 7 are free in [sample_fs 63 c] and taken in [sample_fs 255 c].
    The other file holds the bytes [c], three plain bytes or one directory
    entry that names the first file "a". *)

Definition sample_abc : list Z := [1; 2; 3].
Definition sample_entry : list Z := [3; 0; 0; 0; 97] ++ replicate 14 0 ++ [1].
Definition sample_args (w : Z) (c : list Z) : Prop :=
  (w = 63 ∨ w = 255) ∧ (c = sample_abc ∨ c = sample_entry).

Definition sample_fi : inode :=
  mk_inode 0 1 false 0 (set_direct (2 :: replicate 122 0) (fresh_inode_disk 4 0)).
Definition sample_ino : inode := mk_inode 3 1 false 0 (fresh_inode_disk 0 0).
Definition sample_q (c : list Z) : inode :=
  mk_inode 4 1 false 0 (set_direct (5 :: replicate 122 0) (fresh_inode_disk (Z.of_nat (length c)) 0)).
Definition sample_disk (w : Z) (c : list Z) : sectors :=
  [encode_inode_disk (data sample_fi); zero_sector; le_bytes 4 w ++ replicate 508 0;
   encode_inode_disk (data sample_ino); encode_inode_disk (data (sample_q c));
   c ++ replicate (512 - length c) 0; zero_sector; zero_sector].
Definition sample_fs (w : Z) (c : list Z) : fs sectors :=
  mk_fs (sample_disk w c) (mk_bitmap 8 [w]) (Some 20)
    (<[10 := sample_fi]> (<[11 := sample_ino]> (<[12 := sample_q c]> ∅))) [12; 11; 10]
    (<[20 := mk_file 10 0 false]> ∅) ∅ 30 0.

Ltac cases_of H := destruct H as [[-> | ->] [-> | ->]].

Lemma sample_fm w c : sample_args w c → fm_ok (sample_fs w c) sample_fi.
Proof.
  intros Hw. split.
  - split; [done|]. repeat constructor; cases_of Hw; reflexivity.
  - unfold wf; simpl. split; [lia|]. split; [done|]. constructor; [|done]. cases_of Hw; unfold in_u32; lia.
  - done.
  - by cases_of Hw.
  - exists 20, (mk_file 10 0 false). done.
  - done.
  - split.
    + unfold MAX_FILE, BLOCK_SECTOR_SIZE; simpl; lia.
    + done.
    + change (data_sectors _ _) with [2]. constructor; [|done]. unfold on_disk; simpl; lia.
    + change (data_sectors _ _) with [2]. apply NoDup_singleton.
    + vm_compute. lia.
  - done.
  - change (data_sectors _ _) with [2]. constructor; [|done]. by cases_of Hw.
  - vm_compute. lia.
Qed.

Lemma sample_owned w c x : sample_args w c → x ∈ [3; 4; 5] → owned (sample_fs w c) sample_fi x.
Proof.
  intros Hw Hx. assert (x = 3 ∨ x = 4 ∨ x = 5) as Hx' by set_solver.
  split_and!.
  - unfold on_disk; simpl; lia.
  - by cases_of Hw; destruct Hx' as [->|[-> | ->]].
  - lia.
  - change (data_sectors _ _) with [2]. set_solver by lia.
  - vm_compute. lia.
Qed.

Lemma sample_growable w c d l :
  sample_args w c → d = data sample_ino ∧ l = [] ∨ d = data (sample_q c) ∧ l = [5] →
  data_sectors (store (sample_fs w c)) d = l ∧ growable (sample_fs w c) sample_fi d.
Proof.
  intros Hw Hd.
  assert (nsec d = length l) as Hn by (cases_of Hw; destruct Hd as [[-> ->]|[-> ->]]; reflexivity).
  assert (nsec d ≤ 1)%nat by (cases_of Hw; destruct Hd as [[-> ->]|[-> ->]]; vm_compute; lia).
  assert (data_sectors (store (sample_fs w c)) d = l) as Hl
    by (cases_of Hw; destruct Hd as [[-> ->]|[-> ->]]; reflexivity).
  split; [done|]. split; rewrite ?Hl; try (intros; lia).
  - split; rewrite ?Hl; try (intros; lia).
    + unfold MAX_FILE, BLOCK_SECTOR_SIZE. cases_of Hw; destruct Hd as [[-> ->]|[-> ->]]; simpl; lia.
    + by cases_of Hw; destruct Hd as [[-> ->]|[-> ->]].
    + cases_of Hw; destruct Hd as [[-> ->]|[-> ->]]; repeat constructor; simpl; lia.
    + destruct Hd as [[-> ->]|[-> ->]]; [constructor|apply NoDup_singleton].
  - apply Forall_forall. intros x Hx. apply sample_owned; [done|].
    destruct Hd as [[-> ->]|[-> ->]]; set_solver.
  - intros _. by cases_of Hw; destruct Hd as [[-> ->]|[-> ->]].
  - by cases_of Hw; destruct Hd as [[-> ->]|[-> ->]].
  - cases_of Hw; destruct Hd as [[-> ->]|[-> ->]]; vm_compute; reflexivity.
Qed.

Lemma sample_writable w c p ino :
  sample_args w c → p = 11 ∧ ino = sample_ino ∨ p = 12 ∧ ino = sample_q c →
  writable (sample_fs w c) sample_fi p ino.
Proof.
  intros Hw Hp. assert (∃ l, data_sectors (store (sample_fs w c)) (data ino) = l ∧ (l = [] ∨ l = [5]) ∧
    growable (sample_fs w c) sample_fi (data ino) ∧ (nsec (data ino) ≤ 1)%nat) as (l & Hl & Hor & Hgr & Hn).
  { pose proof (sample_growable w c (data ino)) as Hg.
    destruct Hp as [[_ ->]|[_ ->]]; [destruct (Hg []) as [? ?]|destruct (Hg [5]) as [? ?]]; eauto;
      eexists; (split; [done|]); (split; [auto|]); (split; [done|]); cases_of Hw; vm_compute; lia. }
  split; rewrite ?Hl; try (intros; lia); try done.
  - by apply sample_fm.
  - by cases_of Hw; destruct Hp as [[-> ->]|[-> ->]].
  - intros fp f. simpl. intros [= <-]. rewrite lookup_insert_eq. intros [= <-]. simpl.
    destruct Hp as [[-> _]|[-> _]]; lia.
  - apply sample_owned; [done|]. destruct Hp as [[-> ->]|[-> ->]]; set_solver.
  - cases_of Hw; destruct Hp as [[-> ->]|[-> ->]], Hor as [-> | ->]; simpl; set_solver by lia.
  - by cases_of Hw; destruct Hp as [[-> ->]|[-> ->]].
  - by cases_of Hw; destruct Hp as [[-> ->]|[-> ->]].
  - by cases_of Hw; destruct Hp as [[-> ->]|[-> ->]].
Qed.

Lemma sample_separate w c : sample_args w c → separate (sample_fs w c) sample_ino (sample_q c).
Proof.
  intros Hw x. assert (nsec (data (sample_q c)) = 1%nat) as Hn by by cases_of Hw. rewrite !elem_of_sectors.
  change (data_sectors (store (sample_fs w c)) (data sample_ino)) with (@nil Z).
  rewrite Hn. replace (data_sectors (store (sample_fs w c)) (data (sample_q c))) with [5] by by cases_of Hw.
  intros [->|[[Hc _]|Hx]]; [|vm_compute in Hc; lia|by apply elem_of_nil in Hx].
  intros [Hx|[[Hc _]|Hx]]; [done|lia|set_solver by lia].
Qed.

(** Five bytes written at offset 3 of the empty file, then read from 0. *)
Lemma inode_write_then_read_witness :
  writable (sample_fs 63 sample_abc) sample_fi 11 sample_ino ∧
  ∃ st' s', inode_write_at 11 [7; 8; 9; 10; 11] 5 3 (sample_fs 63 sample_abc) = Ok (5, st') ∧
    inode_read_at 11 100 0 st' = Ok ((8, [0; 0; 0; 7; 8; 9; 10; 11]), s').
Proof.
  assert (writable (sample_fs 63 sample_abc) sample_fi 11 sample_ino) as Hw by (apply sample_writable; unfold sample_args; auto).
  split; [done|].
  destruct (inode_write_then_read (sample_fs 63 sample_abc) sample_fi 11 sample_ino [7; 8; 9; 10; 11] 5 3)
    as (st' & e & Hr & _ & _ & He & Hread).
  - exact Hw.
  - lia.
  - lia.
  - simpl. lia.
  - unfold MAX_FILE, BLOCK_SECTOR_SIZE. lia.
  - vm_compute. lia.
  - destruct (Hread 0 100) as (s' & Hrd & _); [lia..|].
    exists st', (set_store s' st'). split; [exact Hr|].
    rewrite He in Hrd. exact Hrd.
Defined.

Lemma inode_write_isolated_witness :
  separate (sample_fs 63 sample_abc) sample_ino (sample_q sample_abc) ∧
  ∃ st' s', inode_write_at 11 [7; 8; 9] 3 0 (sample_fs 63 sample_abc) = Ok (3, st') ∧
    inode_read_at 12 512 0 st' = Ok ((3, [1; 2; 3]), s').
Proof.
  assert (separate (sample_fs 63 sample_abc) sample_ino (sample_q sample_abc)) as Hsep by (apply sample_separate; unfold sample_args; auto).
  split; [done|].
  destruct (inode_write_isolated (sample_fs 63 sample_abc) sample_fi 11 sample_ino 12 (sample_q sample_abc) [7; 8; 9] 3 0)
    as (st' & e & Hr & _ & _ & Hread).
  - apply sample_writable; unfold sample_args; auto.
  - apply sample_writable; unfold sample_args; auto.
  - lia.
  - exact Hsep.
  - lia.
  - lia.
  - simpl. lia.
  - unfold MAX_FILE, BLOCK_SECTOR_SIZE. lia.
  - vm_compute. lia.
  - destruct (Hread 0 512) as (s' & Hrd); [lia..|].
    exists st', (set_store s' st'). split; [exact Hr|]. exact Hrd.
Defined.

(** Three bytes written to the empty file replace the first bytes of the free
    map's inode (a length of 4). *)
Lemma inode_write_full_disk_witness :
  nfree (free_map (sample_fs 255 sample_abc)) = 0%nat ∧
  ∃ st', inode_write_at 11 [7; 8; 9] 3 0 (sample_fs 255 sample_abc) = Ok (3, st') ∧
    take 4 (disk (store (sample_fs 255 sample_abc)) 0) = [4; 0; 0; 0] ∧ take 4 (disk (store st') 0) = [7; 8; 9; 0].
Proof.
  split; [reflexivity|].
  destruct (inode_write_full_disk (sample_fs 255 sample_abc) sample_fi 11 sample_ino [7; 8; 9] 3)
    as (st' & Hr & Hd).
  - apply sample_writable; unfold sample_args; auto.
  - reflexivity.
  - reflexivity.
  - unfold BLOCK_SECTOR_SIZE. lia.
  - simpl. lia.
  - simpl. lia.
  - exists st'. split; [exact Hr|]. split; [reflexivity|].
    change (disk (store st') 0) with (disk (store st') FREE_MAP_SECTOR). rewrite Hd. reflexivity.
Defined.
