(* ===== verification/CreateOpen.v ===== *)
(** * Creating and opening an inode

    [inode_create] followed by [inode_open]: a new file of the requested
    length that reads as zeros. *)

From S2P Require Import Prelude Bitmap Block Cache Inode InodeSpec Growth FileContents.
Import Bitmap.

Section create.
Context {S : Type} `{SectorStoreLaws S} (malloc_ok : nat → bool).
Implicit Types (s : S) (d : inode_disk) (st : fs S).

(** [inode_allocate] does not look at the length field. *)
Lemma inode_allocate_dlen iwa x d len st :
  inode_allocate_with iwa (set_dlen x d) len st =
  match inode_allocate_with iwa d len st with
  | Ok ((ok, d'), st') => Ok ((ok, set_dlen x d'), st')
  | Err e => Err e
  end.
Proof.
  unfold inode_allocate_with. destruct (allocate_counts len) as [[[dc ic] xc]|]; [|done].
  rewrite !stM_bind_eq. cbn [direct_blocks set_dlen].
  destruct (alloc_blocks _ _ _ _ _) as [[[[] ws] st1]|e]; cbn [negb]; [|done|done].
  destruct (0 <? ic), (0 <? xc);
    repeat (rewrite ?stM_bind_eq; unfold mret, stM_ret;
      cbn [negb indirect_block double_indirect_block set_direct set_dlen set_indirect];
      try destruct (alloc_indirect _ _ _ _) as [[[[] ?] ?]|]); done.
Qed.

Lemma growable_fresh st fi is_dir :
  growable st fi (fresh_inode_disk 0 is_dir) ∧
  data_sectors (store st) (fresh_inode_disk 0 is_dir) = [] ∧
  content (store st) (fresh_inode_disk 0 is_dir) = [].
Proof.
  assert (nsec (fresh_inode_disk 0 is_dir) = 0%nat) as Hn by done.
  assert (data_sectors (store st) (fresh_inode_disk 0 is_dir) = []) as Hl by done.
  split; [|split; [done|done]]. split; rewrite ?Hl, ?Hn; try done; try (intros; lia).
  split; rewrite ?Hl, ?Hn; try done; [constructor|lia].
Qed.

Lemma growable_wf_disk st fi e :
  fm_ok st fi → growable st fi e → in_u32 (magic e) → length (padding e) = 3%nat →
  in_u32 (double_indirect_block e) → wf_inode_disk e.
Proof.
  intros Hfm Hgr Hm Hp Hd. pose proof (wd_len _ _ (gr_wf _ _ _ Hgr)) as Hl.
  assert (∀ x, on_disk (store st) x → in_u32 x) as Hod.
  { intros x [??]. pose proof (store_size _ (fo_store _ _ Hfm)). unfold in_u32. lia. }
  split; [unfold in_i32, MAX_FILE, BLOCK_SECTOR_SIZE in *; lia|].
  split; [done|]. split; [done|]. split; [apply Hgr|]. split; [|split; [|done]].
  - rewrite (growable_direct _ _ _ Hgr). apply Forall_app. split.
    + rewrite (data_sectors_direct (store st)) by apply Hgr. apply Forall_take.
      eapply Forall_impl; [apply (gr_owned _ _ _ Hgr)|]. intros x [Hx _]. auto.
    + apply Forall_replicate. done.
  - destruct (decide (123 < nsec e)%nat) as [Hc|].
    + apply Hod, (gr_ind _ _ _ Hgr Hc).
    + rewrite (gr_noind _ _ _ Hgr) by lia. done.
Qed.

(** The inode is written to a sector of its own. *)
Lemma write_inode_sector st fi e sec :
  fm_ok st fi → growable st fi e → owned st fi sec → length (padding e) = 3%nat →
  sec ∉ data_sectors (store st) e → ((123 < nsec e)%nat → sec ≠ indirect_block e) →
  ∃ s', on_store (buffer_cache_write sec (encode_inode_disk e) 0 BLOCK_SECTOR_SIZE) st =
      Ok (tt, set_store s' st) ∧ fm_ok (set_store s' st) fi ∧ growable (set_store s' st) fi e ∧
    owned (set_store s' st) fi sec ∧ data_sectors s' e = data_sectors (store st) e ∧
    disk s' sec = encode_inode_disk e ∧ content s' e = content (store st) e.
Proof.
  intros Hfm Hgr Hsec Hpad Hsd Hsi.
  assert (length (encode_inode_disk e) = SECTOR_BYTES) as Hel by (apply length_encode; [done|apply Hgr]).
  destruct (on_store_write st sec (encode_inode_disk e) 0 BLOCK_SECTOR_SIZE)
    as (s' & Hw & Hu); try done; [apply Hfm|apply Hsec|by rewrite Hel|].
  rewrite take_ge, splice_full in Hu by
    (rewrite Hel, ?disk_length by apply Hfm; done). destruct Hu as (Hok3 & Hs3 & Hd3 & Hx3).
  destruct (fm_outside st fi s' Hfm Hok3 Hs3) as (Hfm3 & Hown3 & _).
  { intros x Hx Hn. apply Hx3; [done|]. by intros ->. }
  assert (agrees (store st) s' e) as Hag.
  { split_and!; try done.
    - intros x Hx. apply Hx3; [|by intros ->]. pose proof (wd_sectors _ _ (gr_wf _ _ _ Hgr)) as Hall.
      by eapply Forall_forall in Hall.
    - intros Hc. apply Hx3; [by apply (wd_ind _ _ (gr_wf _ _ _ Hgr))|]. apply not_eq_sym. by apply Hsi. }
  exists s'. split_and!; try done.
  - by apply (growable_agrees st).
  - by apply Hown3.
  - apply data_sectors_frame; [apply Hag|apply Hgr].
  - apply content_frame; [apply Hgr|done].
Qed.

Lemma find_open_none st l sector :
  Forall (λ p, ∃ i, inodes st !! p = Some i ∧ isector i ≠ sector) l →
  find_open l sector st = Ok (None, st).
Proof.
  induction 1 as [|p l (i & Hi & Hne) _ IH]; [done|]. cbn [find_open].
  erewrite stM_bind_run by by apply get_inode_run.
  by rewrite (proj2 (Z.eqb_neq _ _)).
Qed.

(** The in-memory copy of an inode that was read from its sector. *)
Lemma opened_writable st st2 fi p sector e :
  fm_ok st fi → growable st fi e → owned st fi sector → disk (store st) sector = encode_inode_disk e →
  sector ∉ data_sectors (store st) e → ((123 < nsec e)%nat → sector ≠ indirect_block e) →
  length (padding e) = 3%nat → not_fm_inode st p →
  disk_eq (store st) (store st2) → free_map st2 = free_map st → free_map_file st2 = free_map_file st →
  files st2 = files st → inodes st2 = <[p := mk_inode sector 1 false 0 e]> (inodes st) →
  writable st2 fi p (mk_inode sector 1 false 0 e).
Proof.
  intros Hfm Hgr Hsec Hdk Hsd Hsi Hpad Hn He Efm Eff Ef Ei.
  pose proof (fs_grow_eq st fi (store st2) Hfm He) as Hg.
  assert (fm_ok (set_inodes (inodes st2) (set_store (store st2) st)) fi) as Hfm'.
  { rewrite Ei. apply (fm_ok_set_inodes (set_store (store st2) st)); [apply Hg|done]. }
  assert (∀ x, owned st fi x → owned st2 fi x) as Hown.
  { intros x Hx. pose proof (owned_grow _ _ _ _ _ Hg Hx) as Ho. unfold owned in *.
    rewrite Efm. exact Ho. }
  assert (agrees (store st) (store st2) e) as Hag by (apply disk_eq_agrees; [apply Hgr|done]).
  split; try done.
  - destruct Hfm'. simpl in *. rewrite <- Efm in *. split; try done. by rewrite Eff, Ef.
  - rewrite Ei. by rewrite lookup_insert_eq.
  - intros fp f. rewrite Eff, Ef. apply Hn.
  - by apply (growable_agrees st).
  - by apply Hown.
  - cbn [isector data]. rewrite (data_sectors_frame (store st)); [done|apply Hag|apply Hgr].
  - cbn [isector data]. rewrite <- Hdk. apply He, Hsec.
Qed.

(** Opening an inode that is not open, from the sector that holds it. *)
Definition opened st s3 sector e : fs S :=
  mk_fs s3 (free_map st) (free_map_file st) (<[next_ptr st := mk_inode sector 1 false 0 e]> (inodes st)) (next_ptr st :: open_inodes st)
    (files st) (dirs st) (next_ptr st + 1) (nallocs st + 1).
Lemma inode_open_first st sector e :
  (∀ k, malloc_ok k = true) → store_ok (store st) → on_disk (store st) sector →
  disk (store st) sector = encode_inode_disk e → wf_inode_disk e →
  Forall (λ p, ∃ i, inodes st !! p = Some i ∧ isector i ≠ sector) (open_inodes st) →
  ∃ s3, inode_open malloc_ok sector st = Ok (Some (next_ptr st), opened st s3 sector e) ∧ disk_eq (store st) s3.
Proof.
  intros Hmal Hok Hsec Hdk Hwfe Hopen.
  destruct (on_store_read (mk_fs (store st) (free_map st) (free_map_file st) (inodes st)
    (next_ptr st :: open_inodes st) (files st) (dirs st) (next_ptr st + 1) (nallocs st + 1)) sector 0 BLOCK_SECTOR_SIZE)
    as (s3 & Hrd & He3); try done.
  rewrite slice_full in Hrd by (by rewrite disk_length). cbn [store] in *. rewrite Hdk in Hrd.
  exists s3. split; [|done]. unfold inode_open. erewrite stM_bind_run by reflexivity.
  erewrite stM_bind_run by (apply find_open_none; exact Hopen). cbv beta iota.
  erewrite stM_bind_run by (unfold malloc; rewrite Hmal; reflexivity). cbv beta iota.
  erewrite stM_bind_run by reflexivity. cbv beta.
  erewrite stM_bind_run by exact Hrd. cbv beta. rewrite decode_encode by done. reflexivity.
Qed.

(** [inode_create] is its allocation, from an inode without bytes, and one
    write. *)
Definition after_malloc st : fs S :=
  mk_fs (store st) (free_map st) (free_map_file st) (inodes st) (open_inodes st) (files st) (dirs st) (next_ptr st + 1) (nallocs st + 1).
Lemma inode_create_run st sector len is_dir d' st1 st2 :
  (∀ k, malloc_ok k = true) → 0 ≤ len →
  inode_allocate_with (inode_write_at_fuel FS_FUEL) (fresh_inode_disk 0 is_dir) len (after_malloc st) = Ok ((true, d'), st1) →
  on_store (buffer_cache_write sector (encode_inode_disk (set_dlen len d')) 0 BLOCK_SECTOR_SIZE) st1 = Ok (tt, st2) →
  inode_create malloc_ok sector len is_dir st = Ok (true, st2).
Proof.
  intros Hmal Hlen Hr Hw. unfold inode_create. rewrite (proj2 (Z.leb_le 0 len)) by lia.
  erewrite stM_bind_run by reflexivity.
  erewrite stM_bind_run by (unfold malloc; rewrite Hmal; reflexivity). cbv beta iota.
  erewrite stM_bind_run; [|unfold inode_allocate, inode_write_at;
    exact (eq_trans (inode_allocate_dlen _ len (fresh_inode_disk 0 is_dir) len (after_malloc st)) ltac:(rewrite Hr; reflexivity))].
  cbv beta iota. erewrite stM_bind_run by exact Hw. reflexivity.
Qed.

(** C29: creating an inode of [len] bytes in an allocated sector and opening it
    gives, when memory and space suffice, an inode with that length and
    directory flag whose bytes are all zero, open once and writable. *)
Theorem inode_create_open st fi sector len is_dir :
  (∀ k, malloc_ok k = true) →
  fm_ok st fi → owned st fi sector → 0 ≤ len ≤ MAX_FILE →
  (need (fresh_inode_disk 0 is_dir) len ≤ nfree (free_map st))%nat →
  Forall (λ p, ∃ i, inodes st !! p = Some i ∧ isector i ≠ sector) (open_inodes st) →
  (∀ q i, inodes st !! q = Some i → q < next_ptr st) →
  ∃ st1 st2 p ino, inode_create malloc_ok sector len is_dir st = Ok (true, st1) ∧
    inode_open malloc_ok sector st1 = Ok (Some p, st2) ∧
    writable st2 fi p ino ∧ isector ino = sector ∧ open_cnt ino = 1 ∧ removed ino = false ∧
    directory (data ino) = (if is_dir =? 0 then 0 else 1) ∧ dlen (data ino) = len ∧
    content (store st2) (data ino) = replicate (Z.to_nat len) 0.
Proof.
  intros Hmal Hfm Hsec Hlen Hneed Hopen Hfresh.
  assert (fm_ok (after_malloc st) fi) as Hfmm by (destruct Hfm; by split).
  destruct (growable_fresh (after_malloc st) fi is_dir) as (Hgr0 & Hds0 & Hc0).
  destruct (inode_allocate_spec 2 (after_malloc st) fi (fresh_inode_disk 0 is_dir) len)
    as (st1 & d' & g & Hr & (ws & blk & Ed) & Hg & _); try done.
  set (e := set_dlen len d') in *.
  pose proof (ig_fresh _ _ _ _ _ _ Hg) as Hfr. rewrite Forall_forall in Hfr.
  assert (bit (free_map st) sector = true) as Hbs by apply Hsec.
  assert (sector ∉ data_sectors (store st1) e) as Hnd.
  { rewrite (ig_data _ _ _ _ _ _ Hg), Hds0. intros Hx%Hfr. simpl in Hx. congruence. }
  assert ((123 < nsec e)%nat → sector ≠ indirect_block e) as Hni.
  { intros Hc. destruct (ig_fresh_ind _ _ _ _ _ _ Hg Hc) as [[_ Hc2]|Hx].
    - vm_compute in Hc2. lia.
    - intros E. rewrite <- E in Hx. simpl in Hx. congruence. }
  destruct (write_inode_sector st1 fi e sector) as
    (s2 & Hw & Hfm2 & Hgr2 & Hsec2 & Hds2 & Hdk2 & Hc2).
  { apply Hg. } { apply Hg. } { by apply (ig_owned _ _ _ _ _ _ Hg). } { by subst d'. } { done. } { done. }
  destruct (ig_shape _ _ _ _ _ _ Hg) as (s1 & b1 & Est1).
  assert (wf_inode_disk e) as Hwfe by (eapply growable_wf_disk; [apply Hfm2|done|by subst d'..]).
  destruct (inode_open_first (set_store s2 st1) sector e) as (s3 & Ho & He3); try done; [apply Hfm2|apply Hsec2|by rewrite Est1|].
  exists (set_store s2 st1), (opened (set_store s2 st1) s3 sector e), (next_ptr st1), (mk_inode sector 1 false 0 e).
  split; [|split; [exact Ho|split]].
  - by eapply inode_create_run; [done|lia| |exact Hw].
  - apply (opened_writable (set_store s2 st1) _ fi (next_ptr st1)); try done.
    + cbn [store set_store]. by rewrite Hds2.
    + by subst d'.
    + intros fp f Hfp Hf. destruct (fo_file _ _ Hfm) as (fp' & f' & Hfp' & Hf' & Hi').
      cbn [free_map_file files set_store] in Hfp, Hf. rewrite Est1 in Hfp, Hf |- *. simpl in Hfp, Hf |- *.
      simplify_eq. apply Hfresh in Hi'. lia.
  - split_and!; try done; [by subst d'|].
    transitivity (content s2 e); [|rewrite Hc2, (ig_content _ _ _ _ _ _ Hg), Hc0; change (dlen e) with len; simpl; by rewrite Z.sub_0_r].
    apply content_frame; [apply Hgr2|]. apply disk_eq_agrees; [apply Hgr2|done].
Qed.

End create.

(** A directory inode of 16 bytes created in the root directory's sector. *)
Lemma inode_create_open_witness :
  ∃ st1 st2 p ino, inode_create (λ _, true) 1 16 1 (sample_fs 63 sample_abc) = Ok (true, st1) ∧
    inode_open (λ _, true) 1 st1 = Ok (Some p, st2) ∧ directory (data ino) = 1 ∧
    writable st2 sample_fi p ino ∧ content (store st2) (data ino) = replicate 16 0.
Proof.
  destruct (inode_create_open (λ _, true) (sample_fs 63 sample_abc) sample_fi 1 16 1)
    as (st1 & st2 & p & ino & Hc & Ho & Hw & _ & _ & _ & Hdir & _ & Hcont).
  - reflexivity.
  - apply sample_fm. unfold sample_args. auto.
  - split_and!.
    + unfold on_disk; simpl; lia.
    + reflexivity.
    + lia.
    + change (data_sectors _ _) with [2]. set_solver by lia.
    + vm_compute. lia.
  - unfold MAX_FILE, BLOCK_SECTOR_SIZE. lia.
  - vm_compute. lia.
  - repeat (constructor; [eexists; split; [reflexivity|]; simpl; lia|]). constructor.
  - intros q i Hq. simpl in *. apply lookup_insert_Some in Hq as [[<- _]|[_ Hq]]; [lia|].
    apply lookup_insert_Some in Hq as [[<- _]|[_ Hq]]; [lia|].
    apply lookup_insert_Some in Hq as [[<- _]|[_ Hq]]; [lia|]. done.
  - exists st1, st2, p, ino. auto.
Defined.
