(* ===== verification/Directory.v ===== *)
(** * filesys/directory.c and filesys/filesys.c

    Directories are files of 20-byte entries; names and paths are the bytes of
    C strings without the terminator.  [junk] is what the uninitialised local
    structs of [dir_add] hold; [cwd] is [thread_current ()->cwd].  A path is
    broken into [CString.tokens], what the loop over [strtok_r] yields. *)

From S2P Require Import Prelude Bitmap Block Cache CString Inode.
Import Bitmap.

Definition NAME_MAX : Z := 14.
Definition ENTRY_SIZE : Z := 20.

Record dir_entry := mk_dir_entry { inode_sector : Z; name : list Z; in_use : Z }.

Definition decode_entry (b : list Z) : dir_entry :=
  mk_dir_entry (le_Z (slice 0 4 b)) (slice 4 15 b) (nth 19 b 0).
Definition encode_entry (e : dir_entry) : list Z :=
  le_bytes 4 (inode_sector e) ++ name e ++ [in_use e].

(** [!strcmp (s, buf)] for a string [s] and a byte array [buf]. *)
Fixpoint str_eq (s buf : list Z) : res bool :=
  match s, buf with
  | _, [] => Err EFault
  | [], c :: _ => Ok (c =? 0)
  | x :: s, c :: buf => if x =? c then str_eq s buf else Ok false
  end.

Definition dot : list Z := [46].
Definition dotdot : list Z := [46; 46].

(** The entry that [dir_add] fills in: [in_use], then [strlcpy] of the name,
    then the sector, over whatever the buffer held. *)
Definition fill_entry (e s : list Z) (sector : Z) : list Z :=
  splice 0 (le_bytes 4 sector) (splice 4 (s ++ [0]) (splice 19 [1] e)).

Section directory.
Context {S : Type} `{SectorStore S}.
Variable malloc_ok : nat → bool.
Variable junk : nat → list Z.

Definition get_dir (dp : Z) : stM (fs S) dir := λ st,
  match dirs st !! dp with Some d => Ok (d, st) | None => Err EFault end.

Definition dir_open (p : option Z) : stM (fs S) (option Z) :=
  r ← malloc malloc_ok;
  match p, r with
  | Some ip, Some dp => smod (λ st, set_dirs (<[dp := mk_dir ip 0]> (dirs st)) st);; mret (Some dp)
  | _, _ => inode_close p;; mret None
  end.

Definition dir_open_root : stM (fs S) (option Z) :=
  p ← inode_open malloc_ok ROOT_DIR_SECTOR; dir_open p.

Definition dir_reopen (dp : Z) : stM (fs S) (option Z) :=
  d ← get_dir dp; p ← inode_reopen (Some (d_inode d)); dir_open p.

Definition dir_close (dp : option Z) : stM (fs S) unit :=
  match dp with
  | None => mret tt
  | Some dp =>
      d ← get_dir dp;
      inode_close (Some (d_inode d));;
      smod (λ st, set_dirs (delete dp (dirs st)) st)
  end.

Definition dir_get_inode (dp : Z) : stM (fs S) Z := d ← get_dir dp; mret (d_inode d).

(** [inode_read_at (dir->inode, &e, sizeof e, ofs)]: [None] unless all of the
    entry was read. *)
Definition read_entry (ip ofs : Z) : stM (fs S) (Z * list Z) := inode_read_at ip ENTRY_SIZE ofs.

(** As many entries as the loops over a directory can meet. *)
Definition entry_fuel (ip : Z) : stM (fs S) nat :=
  len ← inode_length ip; mret (Datatypes.S (Z.to_nat (len / ENTRY_SIZE))).

Fixpoint lookup_loop (fuel : nat) (ip : Z) (s : list Z) (ofs : Z) : stM (fs S) (option (list Z * Z)) :=
  match fuel with
  | O => serr EFuel
  | Datatypes.S fuel =>
      '(n, b) ← read_entry ip ofs;
      if n =? ENTRY_SIZE then
        eq ← (if negb (in_use (decode_entry b) =? 0) then slift (str_eq s (name (decode_entry b)))
              else mret false);
        if (eq : bool) then mret (Some (b, ofs)) else lookup_loop fuel ip s (ofs + ENTRY_SIZE)
      else mret None
  end.

Definition lookup (dp : Z) (s : list Z) : stM (fs S) (option (list Z * Z)) :=
  d ← get_dir dp;
  fuel ← entry_fuel (d_inode d);
  lookup_loop fuel (d_inode d) s 0.

Definition dir_lookup (dp : Z) (s : list Z) : stM (fs S) (option Z) :=
  r ← lookup dp s;
  match r with
  | Some (e, _) => inode_open malloc_ok (inode_sector (decode_entry e))
  | None => mret None
  end.

(** The search for a free slot: the buffer [e] and the offset at its end. *)
Fixpoint slot_loop (fuel : nat) (ip : Z) (e : list Z) (ofs : Z) : stM (fs S) (list Z * Z) :=
  match fuel with
  | O => serr EFuel
  | Datatypes.S fuel =>
      '(n, b) ← read_entry ip ofs;
      let e := splice 0 b e in
      if n =? ENTRY_SIZE then
        if in_use (decode_entry e) =? 0 then mret (e, ofs)
        else slot_loop fuel ip e (ofs + ENTRY_SIZE)
      else mret (e, ofs)
  end.

Definition write_entry (ip : Z) (e : list Z) (ofs : Z) : stM (fs S) bool :=
  n ← inode_write_at ip e ENTRY_SIZE ofs; mret (n =? ENTRY_SIZE).

(** The "." and ".." entries of a new sub-directory. *)
Definition add_dots (ip sector : Z) : stM (fs S) bool :=
  p ← inode_open malloc_ok sector;
  sub ← dir_open p;
  match sub with
  | None => mret false
  | Some sub =>
      d ← get_dir sub;
      ok ← write_entry (d_inode d) (fill_entry (junk 1%nat) dot sector) 0;
      if negb ok then dir_close (Some sub);; mret false
      else
        parent ← inode_get_inumber ip;
        ok ← write_entry (d_inode d) (fill_entry (junk 2%nat) dotdot parent) ENTRY_SIZE;
        dir_close (Some sub);;
        mret ok
  end.

Definition dir_add (dp : Z) (s : list Z) (sector is_dir : Z) : stM (fs S) bool :=
  d ← get_dir dp;
  if bool_decide (s = []) || (NAME_MAX <? Z.of_nat (length s)) then mret false
  else
    found ← lookup dp s;
    match found with
    | Some _ => mret false
    | None =>
        fuel ← entry_fuel (d_inode d);
        '(e, ofs) ← slot_loop fuel (d_inode d) (junk 0%nat) 0;
        ok ← write_entry (d_inode d) (fill_entry e s sector) ofs;
        if negb ok then mret false
        else if negb (is_dir =? 0) then add_dots (d_inode d) sector
        else mret true
    end.

(** The in-use entry is neither "." nor "..". *)
Definition proper_entry (b : list Z) : res bool :=
  if in_use (decode_entry b) =? 0 then Ok false
  else
    e1 ← str_eq dot (name (decode_entry b));
    if (e1 : bool) then Ok false
    else e2 ← str_eq dotdot (name (decode_entry b)); Ok (negb e2).

Fixpoint empty_loop (fuel : nat) (ip ofs : Z) : stM (fs S) bool :=
  match fuel with
  | O => serr EFuel
  | Datatypes.S fuel =>
      '(n, b) ← read_entry ip ofs;
      if n =? ENTRY_SIZE then
        pe ← slift (proper_entry b);
        if (pe : bool) then mret false else empty_loop fuel ip (ofs + ENTRY_SIZE)
      else mret true
  end.

Definition dir_is_empty (dp : option Z) : stM (fs S) bool :=
  match dp with
  | None => serr EAssert
  | Some dp =>
      d ← get_dir dp;
      fuel ← entry_fuel (d_inode d);
      empty_loop fuel (d_inode d) 0
  end.

(** The check that a directory to be removed is empty: closing [sub_dir] also
    closes the inode, which the caller goes on to use. *)
Definition check_empty (p : Z) : stM (fs S) bool :=
  is_d ← inode_is_dir (Some p);
  if (is_d : bool) then
    sub ← dir_open (Some p);
    empty ← dir_is_empty sub;
    if negb empty then dir_close sub;; inode_close (Some p);; mret false
    else dir_close sub;; mret true
  else mret true.

Definition dir_remove (dp : Z) (s : list Z) : stM (fs S) bool :=
  d ← get_dir dp;
  found ← lookup dp s;
  match found with
  | None => mret false
  | Some (e, ofs) =>
      r ← inode_open malloc_ok (inode_sector (decode_entry e));
      match r with
      | None => mret false
      | Some p =>
          ok ← check_empty p;
          if negb ok then mret false
          else
            ok ← write_entry (d_inode d) (splice 19 [0] e) ofs;
            if negb ok then inode_close (Some p);; mret false
            else
              inode_remove p;;
              inode_close (Some p);;
              on_store buffer_cache_close;;
              mret true
      end
  end.

Fixpoint readdir_loop (fuel : nat) (dp : Z) : stM (fs S) (option (list Z)) :=
  match fuel with
  | O => serr EFuel
  | Datatypes.S fuel =>
      d ← get_dir dp;
      '(n, b) ← read_entry (d_inode d) (d_pos d);
      if n =? ENTRY_SIZE then
        smod (λ st, set_dirs (<[dp := mk_dir (d_inode d) (d_pos d + ENTRY_SIZE)]> (dirs st)) st);;
        pe ← slift (proper_entry b);
        if (pe : bool) then mret (Some (name (decode_entry b))) else readdir_loop fuel dp
      else mret None
  end.

(** Returns the name field that is copied to the caller. *)
Definition dir_readdir (dp : Z) : stM (fs S) (option (list Z)) :=
  d ← get_dir dp;
  fuel ← entry_fuel (d_inode d);
  readdir_loop fuel dp.

(** An entry initialised by a designated initialiser: zero elsewhere. *)
Definition zero_entry : list Z := replicate (Z.to_nat ENTRY_SIZE) 0.

Definition dir_create (sector entry_cnt : Z) : stM (fs S) bool :=
  created ← inode_create malloc_ok sector (i32 (entry_cnt * ENTRY_SIZE)) 1;
  if negb created then mret false
  else
    p ← inode_open malloc_ok sector;
    dp ← dir_open p;
    match dp with
    | None => mret false
    | Some dp =>
        d ← get_dir dp;
        _ ← inode_write_at (d_inode d) (fill_entry zero_entry dot sector) ENTRY_SIZE 0;
        parent ← inode_get_inumber (d_inode d);
        _ ← inode_write_at (d_inode d) (fill_entry zero_entry dotdot parent) ENTRY_SIZE ENTRY_SIZE;
        dir_close (Some dp);;
        on_store buffer_cache_close;;
        mret true
    end.

(** ** filesys.c *)

(** The position of the last slash. *)
Definition last_slash (path : list Z) : option nat :=
  (λ i, length path - 1 - i)%nat <$> find_index (λ c, c =? 47) (reverse path).

(** Returns the directory part and the base name. *)
Definition split_path (path : list Z) : option (list Z * list Z) :=
  if bool_decide (path = []) then None
  else
    match last_slash path with
    | None => Some ([], take (Z.to_nat NAME_MAX) path)
    | Some i =>
        if NAME_MAX <? Z.of_nat i then None
        else Some (take i path, take (Z.to_nat NAME_MAX) (drop (i + 1) path))
    end.

Fixpoint walk_path (curr : Z) (toks : list (list Z)) : stM (fs S) (option Z) :=
  match toks with
  | [] =>
      ip ← dir_get_inode curr;
      gone ← inode_is_removed ip;
      if (gone : bool) then dir_close (Some curr);; mret None else mret (Some curr)
  | t :: toks =>
      r ← dir_lookup curr t;
      match r with
      | None => dir_close (Some curr);; mret None
      | Some ip =>
          next ← dir_open (Some ip);
          dir_close (Some curr);;
          match next with
          | None => mret None
          | Some next => walk_path next toks
          end
      end
  end.

Definition dir_open_path (cwd : option Z) (path : list Z) : stM (fs S) (option Z) :=
  curr ← (if bool_decide (head path = Some 47) then dir_open_root
          else match cwd with Some c => dir_reopen c | None => dir_open_root end);
  match curr with
  | None => mret None
  | Some curr => walk_path curr (CString.tokens [47] path)
  end.

(** The two buffers every entry point allocates and does not check, and
    [split_path] into them: writing through a null pointer is a fault. *)
Definition split_buffers (path : list Z) : stM (fs S) (option (list Z * list Z)) :=
  a ← malloc malloc_ok;
  b ← malloc malloc_ok;
  match split_path path, a, b with
  | None, _, _ => mret None
  | Some r, Some _, Some _ => mret (Some r)
  | _, _, _ => serr EFault
  end.

(** [inode_create] and [dir_add] after a sector was allocated; a failure gives
    the sector back. *)
Definition create_in (dp : Z) (base : list Z) (initial_size is_dir : Z) : stM (fs S) bool :=
  r ← free_map_allocate 1;
  match r with
  | None => mret false
  | Some sector =>
      ok ← inode_create malloc_ok sector initial_size is_dir;
      ok ← (if (ok : bool) then dir_add dp base sector is_dir else mret false);
      (if negb ok && negb (sector =? 0) then free_map_release sector 1 else mret tt);;
      mret ok
  end.

Definition filesys_create (cwd : option Z) (path : list Z) (initial_size is_dir : Z) : stM (fs S) bool :=
  parts ← split_buffers path;
  match parts with
  | None => mret false
  | Some (dir_name, base) =>
      dp ← dir_open_path cwd dir_name;
      match dp with
      | None => mret false
      | Some dp =>
          ok ← create_in dp base initial_size is_dir;
          dir_close (Some dp);;
          mret ok
      end
  end.

Definition filesys_open (cwd : option Z) (path : list Z) : stM (fs S) (option Z) :=
  parts ← split_buffers path;
  match parts with
  | None => mret None
  | Some (dir_name, base) =>
      dp ← dir_open_path cwd dir_name;
      p ← (match dp with
           | None => mret None
           | Some dp => p ← dir_lookup dp base; dir_close (Some dp);; mret p
           end);
      file_open malloc_ok p
  end.

Definition filesys_remove (cwd : option Z) (path : list Z) : stM (fs S) bool :=
  parts ← split_buffers path;
  match parts with
  | None => mret false
  | Some (dir_name, base) =>
      dp ← dir_open_path cwd dir_name;
      ok ← (match dp with
            | None => mret false
            | Some dp => ok ← dir_remove dp base; dir_close (Some dp);; mret ok
            end);
      (if (ok : bool) then on_store buffer_cache_close else mret tt);;
      mret ok
  end.

Definition do_format : stM (fs S) unit :=
  free_map_create malloc_ok;;
  ok ← dir_create ROOT_DIR_SECTOR 16;
  if negb ok then serr EPanic else free_map_close.

(** [cache_init] is what [buffer_cache_init] does to the store that the file
    system runs on, nothing for a plain device ([Cache.buffer_cache_init] makes
    the cache itself); [storage] is what [bitmap_create] gets from [malloc],
    [None] if it fails.  The device with the file-system role is there. *)
Definition filesys_init (cache_init : stM S unit) (storage : option (list Z)) (format : bool)
    : stM (fs S) unit :=
  smod inode_init;;
  free_map_init storage;;
  on_store cache_init;;
  (if format then do_format else mret tt);;
  free_map_open malloc_ok.

(** The line meant to flush the cache declares a function instead of calling
    it. *)
Definition filesys_done : stM (fs S) unit := free_map_close.

(** Returns the part and the rest of the path, [None] when only slashes are
    left. *)
Definition get_next_part (src : list Z) : option (list Z * list Z) :=
  match CString.lstrip [47] src with
  | [] => None
  | src =>
      let part := CString.tok [47] src in
      Some (take (Z.to_nat NAME_MAX) part, drop (length part) src)
  end.

End directory.
