(* ===== verification/DirectorySpec.v ===== *)
(** * A directory as a map from names to sectors

    [lookup], [dir_add], [dir_remove] and [dir_readdir] against the list of
    20-byte entries a directory file holds, and against the partial map from
    names to inode sectors it stands for. *)

From S2P Require Import Prelude Bitmap Block Cache CString Inode InodeSpec Growth FileContents Directory.
Import Bitmap.

(** ** Entries *)

Definition ENTRY : nat := 20%nat.
Definition n_entries (c : list Z) : nat := (length c / ENTRY)%nat.
Definition entry (c : list Z) (k : nat) : list Z := slice (ENTRY * k) ENTRY c.
Definition entries (c : list Z) : list (list Z) := entry c <$> seq 0 (n_entries c).

Lemma length_entries c : length (entries c) = n_entries c.
Proof. unfold entries. by rewrite length_fmap, length_seq. Qed.

Lemma lookup_entries c k : (k < n_entries c)%nat → entries c !! k = Some (entry c k).
Proof. intros Hk. unfold entries. rewrite list_lookup_fmap, lookup_seq_lt by done. done. Qed.

Lemma n_entries_bound c k : (k < n_entries c)%nat ↔ (ENTRY * k + ENTRY ≤ length c)%nat.
Proof.
  unfold n_entries, ENTRY. pose proof (Nat.div_mod (length c) 20 ltac:(lia)).
  pose proof (Nat.mod_upper_bound (length c) 20 ltac:(lia)). nia.
Qed.

(** Overwriting a slot, or the one after the last. *)
Lemma entries_write c k e :
  length e = ENTRY → (k ≤ n_entries c)%nat →
  entries (write_spec (ENTRY * k) e c) =
    if decide (k < n_entries c)%nat then <[k := e]> (entries c) else entries c ++ [e].
Proof.
  intros He Hk. unfold write_spec.
  set (c' := c ++ replicate (ENTRY * k + length e - length c) 0).
  assert (length c' = Nat.max (length c) (ENTRY * k + ENTRY)) as Hc'.
  { unfold c'. rewrite length_app, length_replicate, He. lia. }
  set (w := splice (ENTRY * k) e c').
  assert (length w = length c') as Hw by (apply length_splice; rewrite He, Hc'; lia).
  assert (∀ j, j ≠ k → (j < n_entries c)%nat → entry w j = entry c j) as Hj.
  { intros j Hne Hlt. apply n_entries_bound in Hlt. unfold entry, w.
    rewrite slice_splice_disjoint by (rewrite ?He, ?Hc'; unfold ENTRY in *; lia).
    unfold c'. rewrite slice_app_l by lia. done. }
  assert (entry w k = e) as Hk'.
  { unfold entry, w. rewrite <- He at 2. apply slice_splice_same. rewrite He, Hc'. lia. }
  assert (n_entries w = Nat.max (n_entries c) (S k)) as Hn.
  { destruct (decide (k < n_entries c)%nat) as [Hlt|Hge].
    - pose proof Hlt as Hb%n_entries_bound. unfold n_entries in *. rewrite Hw, Hc', Nat.max_l by lia.
      unfold ENTRY in *. lia.
    - assert (k = n_entries c) as -> by lia. rewrite Nat.max_r by lia.
      unfold n_entries in *. rewrite Hw, Hc'. unfold ENTRY in *.
      pose proof (Nat.div_mod (length c) 20 ltac:(lia)).
      pose proof (Nat.mod_upper_bound (length c) 20 ltac:(lia)).
      rewrite Nat.max_r by lia. symmetry. apply (Nat.div_unique _ 20 _ 0); lia. }
  apply list_eq. intros j. case_decide as Hlt.
  - destruct (decide (j = k)) as [->|Hne].
    + rewrite list_lookup_insert_eq by by rewrite length_entries.
      rewrite lookup_entries by lia. by rewrite Hk'.
    + rewrite list_lookup_insert_ne by done. destruct (decide (j < n_entries c)%nat).
      * rewrite !lookup_entries by lia. by rewrite Hj.
      * rewrite !lookup_ge_None_2 by (rewrite length_entries; lia). done.
  - assert (k = n_entries c) as -> by lia. destruct (decide (j < n_entries c)%nat).
    + rewrite lookup_app_l by (rewrite length_entries; lia). rewrite !lookup_entries by lia.
      rewrite Hj by lia. done.
    + rewrite lookup_app_r by (rewrite length_entries; lia). rewrite length_entries.
      destruct (decide (j = n_entries c)) as [->|].
      * rewrite lookup_entries, Nat.sub_diag by lia. by rewrite Hk'.
      * rewrite lookup_ge_None_2 by (rewrite length_entries; lia).
        destruct (j - n_entries c)%nat eqn:E; [lia|done].
Qed.

(** ** Names *)

(** The string in a name field. *)
Fixpoint c_str (buf : list Z) : list Z :=
  match buf with [] => [] | c :: buf => if c =? 0 then [] else c :: c_str buf end.

Lemma str_eq_spec s buf :
  Forall (λ c, c ≠ 0) s → 0 ∈ buf → str_eq s buf = Ok (bool_decide (s = c_str buf)).
Proof.
  revert s. induction buf as [|c buf IH]; intros s Hs Hb; [by apply elem_of_nil in Hb|].
  destruct s as [|x s]; cbn [str_eq c_str].
  - destruct (Z.eqb_spec c 0); [by rewrite bool_decide_eq_true_2|by rewrite bool_decide_eq_false_2].
  - apply Forall_cons in Hs as [Hx Hs]. destruct (Z.eqb_spec x c) as [->|Hne].
    + rewrite (proj2 (Z.eqb_neq c 0)), IH; [|done|set_solver|done]. f_equal.
      apply bool_decide_ext. naive_solver.
    + rewrite bool_decide_eq_false_2; [done|]. case_match; naive_solver.
Qed.

Definition live (e : list Z) : bool := negb (in_use (decode_entry e) =? 0).
Definition ename (e : list Z) : list Z := c_str (name (decode_entry e)).
Definition esector (e : list Z) : Z := inode_sector (decode_entry e).
Definition matches (s e : list Z) : bool := live e && bool_decide (s = ename e).

(** Every entry in use has a terminated name, and no two have the same. *)
Definition wf_entries (es : list (list Z)) : Prop :=
  Forall (λ e, live e = true → 0 ∈ name (decode_entry e)) es ∧
  ∀ i j e f, es !! i = Some e → es !! j = Some f → live e = true → live f = true →
    ename e = ename f → i = j.

(** The directory as a partial map. *)
Definition dmap (es : list (list Z)) (s : list Z) : option Z :=
  esector <$> (find_index (matches s) es ≫= λ i, es !! i).

Definition good_name (s : list Z) : Prop :=
  s ≠ [] ∧ Z.of_nat (length s) ≤ NAME_MAX ∧ Forall (λ c, c ≠ 0) s.

Lemma c_str_app s r : Forall (λ c, c ≠ 0) s → c_str (s ++ 0 :: r) = s.
Proof.
  induction 1 as [|c s Hc Hs IH]; [done|]. simpl. rewrite (proj2 (Z.eqb_neq c 0)) by done. by rewrite IH.
Qed.

Lemma fill_entry_spec e s sector :
  length e = ENTRY → good_name s → in_u32 sector →
  length (fill_entry e s sector) = ENTRY ∧ live (fill_entry e s sector) = true ∧
  ename (fill_entry e s sector) = s ∧ esector (fill_entry e s sector) = sector ∧
  0 ∈ name (decode_entry (fill_entry e s sector)).
Proof.
  intros He (_ & Hl & Hs) Hsec. unfold ENTRY, NAME_MAX in *. unfold fill_entry.
  set (e1 := splice 19 [1] e). assert (length e1 = 20%nat) as H1 by (unfold e1; rewrite length_splice; simpl; lia).
  set (e2 := splice 4 (s ++ [0]) e1).
  assert (length (s ++ [0]) = S (length s)) as Hsl by (rewrite length_app; simpl; lia).
  assert (length e2 = 20%nat) as H2 by (unfold e2; rewrite length_splice; lia).
  set (e3 := splice 0 (le_bytes 4 sector) e2).
  assert (length e3 = 20%nat) as H3 by (unfold e3; rewrite length_splice; rewrite ?length_le_bytes; lia).
  assert (slice 4 (S (length s)) e3 = s ++ [0]) as Hn.
  { unfold e3. rewrite slice_splice_disjoint by (rewrite ?length_le_bytes; lia).
    rewrite <- Hsl. unfold e2. apply slice_splice_same. lia. }
  assert (slice 4 15 e3 = s ++ 0 :: slice (4 + S (length s)) (14 - length s) e3) as Hname.
  { replace 15%nat with (S (length s) + (14 - length s))%nat by lia. rewrite slice_add, Hn, <- app_assoc. done. }
  split; [done|]. unfold live, ename, esector, decode_entry. cbn [in_use name inode_sector].
  split_and!.
  - assert (e3 !! 19%nat = Some 1) as Hu.
    { unfold e3. rewrite lookup_splice_r by (rewrite ?length_le_bytes; lia). unfold e2.
      rewrite lookup_splice_r by lia. unfold e1. rewrite lookup_splice_m by (simpl; lia). done. }
    by rewrite nth_lookup, Hu.
  - rewrite Hname. by apply c_str_app.
  - unfold e3. rewrite <- (length_le_bytes 4 sector) at 1. rewrite slice_splice_same by (rewrite length_le_bytes; lia).
    by apply le_Z_bytes_u32.
  - rewrite Hname. set_solver.
Qed.

Lemma matches_true s e : matches s e = true ↔ live e = true ∧ ename e = s.
Proof.
  unfold matches. rewrite andb_true_iff, bool_decide_eq_true. naive_solver.
Qed.

Lemma find_index_is_Some {A} (f : A → bool) l i x :
  l !! i = Some x → f x = true → ∃ j, find_index f l = Some j.
Proof.
  intros Hi Hf. destruct (find_index f l) as [j|] eqn:E; [eauto|].
  rewrite find_index_None in E. rewrite (E _ _ Hi) in Hf. done.
Qed.

(** With unique names the map does not depend on the order of entries. *)
Lemma dmap_Some es s x : wf_entries es →
  dmap es s = Some x ↔ ∃ i e, es !! i = Some e ∧ live e = true ∧ ename e = s ∧ esector e = x.
Proof.
  intros [_ Hu]. unfold dmap. split.
  - intros (e & (i & Hi & He)%bind_Some & ->)%fmap_Some.
    apply find_index_Some in Hi as (e' & He' & [Hl Hn]%matches_true & _).
    simplify_eq. eauto 10.
  - intros (i & e & Hi & Hl & Hn & Hx).
    destruct (find_index_is_Some (matches s) es i e) as [j Hj]; [done|by apply matches_true|].
    rewrite Hj. simpl. apply find_index_Some in Hj as (f & Hf & [Hlf Hnf]%matches_true & _).
    rewrite Hf. simpl. assert (i = j) as -> by (eapply Hu; try done; congruence). simplify_eq. done.
Qed.

Lemma dmap_None es s : wf_entries es →
  dmap es s = None ↔ ∀ i e, es !! i = Some e → live e = true → ename e ≠ s.
Proof.
  intros Hwf. split.
  - intros Hn i e Hi Hl He. assert (dmap es s = Some (esector e)) as Hs by (apply dmap_Some; eauto 10).
    congruence.
  - intros Hall. destruct (dmap es s) as [x|] eqn:E; [|done].
    apply dmap_Some in E as (i & e & Hi & Hl & Hn & _); [|done]. by destruct (Hall i e).
Qed.

(** The list of entries after a slot was filled. *)
Definition filled (es es' : list (list Z)) (k : nat) (e : list Z) : Prop :=
  (∀ e0, es !! k = Some e0 → live e0 = false) ∧
  ∀ j f, es' !! j = Some f ↔ (j = k ∧ f = e) ∨ (j ≠ k ∧ es !! j = Some f).

Lemma filled_insert es k e0 e :
  es !! k = Some e0 → live e0 = false → filled es (<[k := e]> es) k e.
Proof.
  intros Hk Hl. split; [intros; by simplify_eq|]. intros j f. destruct (decide (j = k)) as [->|].
  - rewrite list_lookup_insert_eq by by eapply lookup_lt_Some. naive_solver.
  - rewrite list_lookup_insert_ne by done. naive_solver.
Qed.

Lemma filled_app es e : filled es (es ++ [e]) (length es) e.
Proof.
  split. { intros e0 He0%lookup_lt_Some. lia. }
  intros j f. destruct (decide (j = length es)) as [->|].
  - rewrite lookup_app_r, Nat.sub_diag by lia. naive_solver.
  - destruct (decide (j < length es)%nat).
    + rewrite lookup_app_l by done. naive_solver.
    + rewrite !lookup_ge_None_2 by (rewrite ?length_app; simpl; lia). naive_solver.
Qed.

(** Filling a slot with a new name extends the map. *)
Lemma dmap_filled es es' k e s x :
  wf_entries es → filled es es' k e → dmap es s = None →
  live e = true → ename e = s → esector e = x → 0 ∈ name (decode_entry e) →
  wf_entries es' ∧ ∀ t, dmap es' t = if decide (t = s) then Some x else dmap es t.
Proof.
  intros Hwf [Hk Hf] Hn Hl Hs Hx H0. pose proof Hwf as [Hn0 Hu].
  pose proof (proj1 (dmap_None es s Hwf) Hn) as Hnew.
  assert (wf_entries es') as Hwf'.
  { split.
    - apply Forall_lookup. intros j f [[-> ->]|[_ Hj]]%Hf; [done|].
      rewrite Forall_lookup in Hn0. by apply (Hn0 j).
    - intros i j f g Hfi Hgj Hlf Hlg He. apply Hf in Hfi, Hgj.
      destruct Hfi as [[-> ->]|[? Hfi]], Hgj as [[-> ->]|[? Hgj]]; [done| | |by eapply Hu].
      + by destruct (Hnew j g); [..|congruence].
      + by destruct (Hnew i f); [..|congruence]. }
  split; [done|]. intros t. apply option_eq. intros y. rewrite dmap_Some by done. case_decide as Ht.
  - subst t. split.
    + intros (i & f & [[-> ->]|[_ Hi]]%Hf & Hlf & Hnf & <-); [congruence|]. by destruct (Hnew i f).
    + intros [= <-]. exists k, e. split_and!; try done. apply Hf. by left.
  - rewrite dmap_Some by done. split.
    + intros (i & f & [[-> ->]|[_ Hi]]%Hf & Hlf & Hnf & <-); [congruence|]. eauto 10.
    + intros (i & f & Hi & Hlf & Hnf & <-). exists i, f. split_and!; try done. apply Hf. right.
      split; [|done]. intros ->. apply Hk in Hi. congruence.
Qed.

(** Clearing the entry of a name removes it from the map. *)
Lemma dmap_cleared es k e e' s :
  wf_entries es → es !! k = Some e → live e = true → ename e = s → live e' = false →
  wf_entries (<[k := e']> es) ∧
  ∀ t, dmap (<[k := e']> es) t = if decide (t = s) then None else dmap es t.
Proof.
  intros Hwf Hk Hl Hs Hl'. pose proof Hwf as [Hn0 Hu].
  assert (∀ j f, <[k := e']> es !! j = Some f → live f = true → j ≠ k ∧ es !! j = Some f) as Hf.
  { intros j f Hj Hlf. apply list_lookup_insert_Some in Hj as [(<- & <- & _)|[? ?]]; [congruence|done]. }
  assert (wf_entries (<[k := e']> es)) as Hwf'.
  { split.
    - apply Forall_lookup. intros j f Hj Hlf. destruct (Hf j f) as [_ Hj']; [done..|].
      rewrite Forall_lookup in Hn0. by apply (Hn0 j).
    - intros i j f g Hfi Hgj Hlf Hlg He. apply Hf in Hfi as [_ Hfi]; [|done].
      apply Hf in Hgj as [_ Hgj]; [|done]. by eapply Hu. }
  split; [done|]. intros t. apply option_eq. intros y. rewrite dmap_Some by done. case_decide as Ht.
  - subst t. split; [|done]. intros (i & f & Hi & Hlf & Hnf & _).
    apply Hf in Hi as [Hne Hi]; [|done]. destruct Hne. eapply Hu; try done. congruence.
  - rewrite dmap_Some by done. split.
    + intros (i & f & Hi & Hlf & Hnf & <-). apply Hf in Hi as [_ Hi]; [|done]. eauto 10.
    + intros (i & f & Hi & Hlf & Hnf & <-). exists i, f. split_and!; try done.
      rewrite list_lookup_insert_ne; [done|]. intros <-. congruence.
Qed.

Section spec.
Context {S : Type} `{SectorStoreLaws S} (malloc_ok : nat → bool) (junk : nat → list Z).
Implicit Types (st : fs S) (ino : inode).

Local Notation dents st ino := (entries (content (store st) (data ino))).

(** ** Scanning a directory *)

Lemma length_dir_content st ino :
  store_ok (store st) → wf_disk (store st) (data ino) →
  Z.of_nat (length (content (store st) (data ino))) = dlen (data ino).
Proof.
  intros Hok Hwf. rewrite length_content by done. pose proof (wd_len _ _ Hwf). lia.
Qed.

Lemma read_entry_spec st ip ino k :
  store_ok (store st) → inodes st !! ip = Some ino → wf_disk (store st) (data ino) →
  (k ≤ length (dents st ino))%nat →
  ∃ n b s', read_entry ip (ENTRY_SIZE * Z.of_nat k) st = Ok ((n, b), set_store s' st) ∧
    disk_eq (store st) s' ∧
    (n =? ENTRY_SIZE) = bool_decide (k < length (dents st ino))%nat ∧ (length b ≤ ENTRY)%nat ∧
    ((k < length (dents st ino))%nat → dents st ino !! k = Some b).
Proof.
  intros Hok Hp Hwf Hk. pose proof (wd_len _ _ Hwf) as Hl. unfold MAX_FILE, BLOCK_SECTOR_SIZE in Hl.
  pose proof (length_dir_content st ino Hok Hwf) as Hlc. unfold read_entry, ENTRY_SIZE.
  rewrite length_entries in *. set (c := content (store st) (data ino)) in *.
  assert (20 * Z.of_nat k ≤ dlen (data ino) + 20) as Hk2.
  { destruct k as [|k']; [lia|]. assert (k' < n_entries c)%nat as Hb%n_entries_bound by lia.
    unfold ENTRY in *. lia. }
  destruct (inode_read_at_spec st ip ino 20 (20 * Z.of_nat k)) as (s' & Hr & He); try done; try lia.
  exists (Z.max 0 (Z.min 20 (dlen (data ino) - 20 * Z.of_nat k))).
  exists (slice (ENTRY * k) ENTRY c), s'. split; [|split; [done|split; [|split]]].
  - rewrite Hr. replace (Z.to_nat (20 * Z.of_nat k)) with (ENTRY * k)%nat by (unfold ENTRY; lia). done.
  - destruct (decide (k < n_entries c)%nat) as [Hlt|Hge].
    + rewrite bool_decide_eq_true_2 by done. apply n_entries_bound in Hlt. unfold ENTRY in *. lia.
    + rewrite bool_decide_eq_false_2 by done. rewrite n_entries_bound in Hge. unfold ENTRY in *. lia.
  - unfold slice. rewrite length_take. lia.
  - intros Hlt. rewrite lookup_entries by done. done.
Qed.

Lemma wf_disk_store st s' ino :
  wf_disk (store st) (data ino) → disk_eq (store st) s' →
  wf_disk s' (data ino) ∧ entries (content s' (data ino)) = dents st ino.
Proof.
  intros Hwf He. destruct (content_frame _ _ _ Hwf (disk_eq_agrees _ _ _ Hwf He)) as [? ->]. done.
Qed.

Lemma lookup_loop_spec fuel st ip ino s k :
  store_ok (store st) → inodes st !! ip = Some ino → wf_disk (store st) (data ino) →
  wf_entries (dents st ino) → Forall (λ c, c ≠ 0) s →
  (k ≤ length (dents st ino))%nat → (length (dents st ino) - k < fuel)%nat →
  ∃ s', lookup_loop fuel ip s (ENTRY_SIZE * Z.of_nat k) st =
      Ok (match find_index (matches s) (drop k (dents st ino)) with
          | Some i => match dents st ino !! (k + i)%nat with
                      | Some e => Some (e, ENTRY_SIZE * Z.of_nat (k + i)) | None => None end
          | None => None
          end, set_store s' st) ∧ disk_eq (store st) s'.
Proof.
  revert st k. induction fuel as [|fuel IH]; intros st k Hok Hp Hwf Hwe Hs Hk Hf; [lia|].
  cbn [lookup_loop].
  destruct (read_entry_spec st ip ino k) as (n & b & s1 & Hr & He1 & Hn & _ & Hb); [done..|].
  erewrite stM_bind_run by exact Hr. cbv beta iota. rewrite Hn.
  case_bool_decide as Hlt; last first.
  { exists s1. rewrite drop_ge by lia. done. }
  specialize (Hb Hlt). rewrite (drop_S _ b k) by done. cbn [find_index].
  assert ((if negb (in_use (decode_entry b) =? 0)
      then slift (str_eq s (name (decode_entry b))) else mret false) (set_store s1 st) =
    Ok (matches s b, set_store s1 st)) as Hm.
  { unfold matches, live. destruct (negb _) eqn:El; [|done]. unfold slift.
    destruct Hwe as [Hn0 _]. rewrite str_eq_spec; [done|done|].
    apply (Forall_lookup_1 _ _ _ _ Hn0 Hb). done. }
  erewrite stM_bind_run by exact Hm. destruct (matches s b) eqn:Em.
  - exists s1. rewrite Nat.add_0_r, Hb. done.
  - destruct (wf_disk_store st s1 ino Hwf He1) as [Hwf1 Hd1].
    destruct (IH (set_store s1 st) (Datatypes.S k)) as (s2 & Hr2 & He2); simpl; rewrite ?Hd1; try done; try lia.
    { apply He1. }
    exists s2. split; [|by eapply disk_eq_trans].
    replace (ENTRY_SIZE * Z.of_nat k + ENTRY_SIZE) with (ENTRY_SIZE * Z.of_nat (Datatypes.S k)) by lia.
    rewrite Hr2, set_store_twice. simpl. rewrite Hd1.
    destruct (find_index (matches s) (drop (Datatypes.S k) (dents st ino))) as [i|]; [|reflexivity].
    cbn [fmap option_fmap option_map]. by rewrite Nat.add_succ_r.
Qed.

Lemma entry_fuel_spec st ip ino :
  store_ok (store st) → inodes st !! ip = Some ino → wf_disk (store st) (data ino) →
  entry_fuel ip st = Ok (Datatypes.S (length (dents st ino)), st).
Proof.
  intros Hok Hp Hwf. unfold entry_fuel, inode_length.
  erewrite stM_bind_run by (erewrite stM_bind_run by (by apply get_inode_run); reflexivity).
  unfold mret, stM_ret. do 3 f_equal. rewrite length_entries. unfold n_entries.
  rewrite <- (length_dir_content st ino) by done. unfold ENTRY_SIZE, ENTRY.
  apply Nat2Z.inj. rewrite Nat2Z.inj_div. rewrite Z2Nat.id; [done|]. apply Z.div_pos; lia.
Qed.

(** [dp] is an open directory over the inode [ino] at [ip]. *)
Record dir_ok st (dp ip : Z) ino : Prop := {
  do_dir : ∃ pos, dirs st !! dp = Some (mk_dir ip pos);
  do_inode : inodes st !! ip = Some ino;
  do_store : store_ok (store st);
  do_disk : wf_disk (store st) (data ino);
  do_entries : wf_entries (dents st ino);
}.

Lemma dir_ok_store st s' dp ip ino :
  dir_ok st dp ip ino → disk_eq (store st) s' →
  dir_ok (set_store s' st) dp ip ino ∧ entries (content s' (data ino)) = dents st ino.
Proof.
  intros [Hd Hi Hok Hwf He] Heq. destruct (wf_disk_store st s' ino Hwf Heq) as [Hwf' Ed].
  split; [|done]. split; simpl; try done; [apply Heq|by rewrite Ed].
Qed.

Lemma get_dir_run st dp ip ino : dir_ok st dp ip ino → ∃ pos, get_dir dp st = Ok (mk_dir ip pos, st).
Proof. intros [[pos Hd] _ _ _ _]. exists pos. unfold get_dir. by rewrite Hd. Qed.

(** What [lookup] finds. *)
Definition found st ino s : option (list Z * Z) :=
  i ← find_index (matches s) (dents st ino);
  e ← dents st ino !! i; Some (e, ENTRY_SIZE * Z.of_nat i).

Lemma lookup_spec st dp ip ino s :
  dir_ok st dp ip ino → Forall (λ c, c ≠ 0) s →
  ∃ s', lookup dp s st = Ok (found st ino s, set_store s' st) ∧ disk_eq (store st) s'.
Proof.
  intros Hd Hs. destruct (get_dir_run _ _ _ _ Hd) as [pos Hg]. destruct Hd as [_ Hi Hok Hwf He].
  unfold lookup. erewrite stM_bind_run by exact Hg. cbn [d_inode].
  erewrite stM_bind_run by by apply entry_fuel_spec.
  destruct (lookup_loop_spec (Datatypes.S (length (dents st ino))) st ip ino s 0) as (s' & Hr & He');
    try done; try lia.
  exists s'. split; [|done]. change (ENTRY_SIZE * Z.of_nat 0) with 0 in Hr. rewrite Hr. unfold found.
  rewrite drop_0. destruct (find_index _ _) as [i|]; [|done]. simpl.
  by destruct (dents st ino !! i).
Qed.

Lemma found_dmap st ino s : (λ r, esector r.1) <$> found st ino s = dmap (dents st ino) s.
Proof.
  unfold found, dmap. destruct (find_index _ _) as [i|]; simpl; [|done].
  by destruct (dents st ino !! i).
Qed.

(** ** Adding an entry *)

Lemma slot_loop_spec fuel st ip ino e k :
  store_ok (store st) → inodes st !! ip = Some ino → wf_disk (store st) (data ino) →
  length e = ENTRY → (k ≤ length (dents st ino))%nat → (length (dents st ino) - k < fuel)%nat →
  ∃ e' j s', slot_loop fuel ip e (ENTRY_SIZE * Z.of_nat k) st =
      Ok ((e', ENTRY_SIZE * Z.of_nat j), set_store s' st) ∧ disk_eq (store st) s' ∧
    length e' = ENTRY ∧ (j ≤ length (dents st ino))%nat ∧
    ∀ e0, dents st ino !! j = Some e0 → live e0 = false.
Proof.
  revert st e k. induction fuel as [|fuel IH]; intros st e k Hok Hp Hwf He Hk Hf; [lia|].
  cbn [slot_loop].
  destruct (read_entry_spec st ip ino k) as (n & b & s1 & Hr & He1 & Hn & Hbl & Hb); [done..|].
  erewrite stM_bind_run by exact Hr. cbv beta iota zeta. rewrite Hn.
  assert (length (splice 0 b e) = ENTRY) as Hse by (rewrite length_splice; lia).
  case_bool_decide as Hlt; last first.
  { exists (splice 0 b e), k, s1. split_and!; try done. intros e0 ?%lookup_lt_Some. lia. }
  specialize (Hb Hlt).
  assert (length b = ENTRY) as Hb20.
  { rewrite lookup_entries in Hb by by rewrite length_entries in Hlt. injection Hb as <-.
    apply length_slice. rewrite length_entries in Hlt. by apply n_entries_bound in Hlt. }
  rewrite splice_full by lia.
  destruct (Z.eqb_spec (in_use (decode_entry b)) 0) as [Hz|Hnz].
  - exists b, k, s1. split_and!; try done. intros e0 He0. simplify_eq. unfold live. by rewrite Hz.
  - destruct (wf_disk_store st s1 ino Hwf He1) as [Hwf1 Hd1].
    destruct (IH (set_store s1 st) b (Datatypes.S k)) as (e' & j & s2 & Hr2 & He2 & Hl & Hj & Hlive);
      simpl; rewrite ?Hd1; try done; try lia; [apply He1|].
    exists e', j, s2. simpl in *. rewrite Hd1 in *.
    replace (ENTRY_SIZE * Z.of_nat k + ENTRY_SIZE) with (ENTRY_SIZE * Z.of_nat (Datatypes.S k)) by lia.
    rewrite Hr2, set_store_twice. split_and!; try done. by eapply disk_eq_trans.
Qed.

(** Growing a file by one entry takes at most two sectors. *)
Lemma need_entry s d len :
  wf_disk s d → dlen d ≤ len ≤ dlen d + ENTRY_SIZE → len ≤ MAX_FILE → (need d len ≤ 2)%nat.
Proof.
  intros Hwf Hl Hm. pose proof (wd_len _ _ Hwf). destruct (nsec_spec _ _ Hwf) as (Hn & _).
  destruct (bytes_to_sectors_eq len) as [Hb Hb2]; [lia|]. unfold need, ENTRY_SIZE in *.
  assert (Z.to_nat (bytes_to_sectors len) ≤ nsec d + 1)%nat.
  { apply Nat2Z.inj_le. rewrite Z2Nat.id by lia. rewrite Hb, Nat2Z.inj_add, Hn. dlia. }
  case_decide; lia.
Qed.

Lemma write_entry_spec st fi ip ino e k :
  writable st fi ip ino → length e = ENTRY → (k ≤ length (dents st ino))%nat →
  dlen (data ino) + ENTRY_SIZE ≤ MAX_FILE → (2 ≤ nfree (free_map st))%nat →
  ∃ st' d, write_entry ip e (ENTRY_SIZE * Z.of_nat k) st = Ok (true, st') ∧
    extended st st' fi ip ino d ∧
    dents st' (set_data d ino) =
      if decide (k < length (dents st ino))%nat then <[k := e]> (dents st ino) else dents st ino ++ [e].
Proof.
  intros Hw He Hk Hmax Hfree. pose proof (gr_wf _ _ _ (wr_grow _ _ _ _ Hw)) as Hwf.
  pose proof (fo_store _ _ (wr_fm _ _ _ _ Hw)) as Hok. pose proof (wd_len _ _ Hwf) as Hl.
  pose proof (length_dir_content st ino Hok Hwf) as Hlc. rewrite length_entries in *.
  set (c := content (store st) (data ino)) in *.
  assert (ENTRY_SIZE * Z.of_nat k ≤ dlen (data ino)) as Hofs.
  { destruct k as [|k']; [unfold ENTRY_SIZE; lia|].
    assert (k' < n_entries c)%nat as Hb%n_entries_bound by lia. unfold ENTRY, ENTRY_SIZE in *. lia. }
  unfold ENTRY_SIZE, ENTRY in *.
  destruct (inode_write_at_spec st fi ip ino e 20 (20 * Z.of_nat k)) as (st' & d & Hr & Hd & Hx & Hc);
    try done; try lia.
  { etrans; [|exact Hfree]. eapply need_entry; [done|unfold ENTRY_SIZE|]; lia. }
  exists st', d. split; [|split; [done|]].
  - unfold write_entry, ENTRY_SIZE. erewrite stM_bind_run by exact Hr. done.
  - simpl. rewrite Hc. fold c. rewrite take_ge by lia.
    replace (Z.to_nat (20 * Z.of_nat k)) with (ENTRY * k)%nat by (unfold ENTRY; lia).
    by apply entries_write.
Qed.

(** C26: adding a file under a new, valid name to a directory with room makes
    exactly that name resolve, to the given sector; every other name resolves
    as before, whatever the uninitialised buffer held. *)
Theorem dir_add_lookup st fi dp ip ino s sector :
  writable st fi ip ino → dir_ok st dp ip ino → good_name s → in_u32 sector →
  length (junk 0) = ENTRY → dmap (dents st ino) s = None →
  dlen (data ino) + ENTRY_SIZE ≤ MAX_FILE → (2 ≤ nfree (free_map st))%nat →
  ∃ st' d, dir_add malloc_ok junk dp s sector 0 st = Ok (true, st') ∧
    writable st' fi ip (set_data d ino) ∧ dir_ok st' dp ip (set_data d ino) ∧
    ∀ t, Forall (λ c, c ≠ 0) t →
      ∃ r s', lookup dp t st' = Ok (r, set_store s' st') ∧
        (λ r, esector r.1) <$> r = if decide (t = s) then Some sector else dmap (dents st ino) t.
Proof.
  intros Hw Hd Hs Hsec Hj Hnone Hmax Hfree. pose proof Hs as (Hs0 & Hs14 & Hsz).
  destruct (get_dir_run _ _ _ _ Hd) as [pos Hg].
  destruct (lookup_spec st dp ip ino s Hd Hsz) as (s1 & Hlk & He1).
  assert (found st ino s = None) as Hf.
  { pose proof (found_dmap st ino s) as E. rewrite Hnone in E. by apply fmap_None in E. }
  rewrite Hf in Hlk. destruct (dir_ok_store st s1 dp ip ino Hd He1) as [Hd1 Ed1].
  pose proof (do_inode _ _ _ _ Hd1) as Hi1.
  destruct (slot_loop_spec (Datatypes.S (length (dents (set_store s1 st) ino))) (set_store s1 st) ip ino (junk 0) 0)
    as (e & k & s2 & Hsl & He2 & Hel & Hk & Hlive); try done; try apply Hd1; try lia.
  change (ENTRY_SIZE * Z.of_nat 0) with 0 in Hsl. rewrite set_store_twice in Hsl.
  cbn [store set_store] in *. pose proof (disk_eq_trans _ _ _ He1 He2) as He12.
  destruct (dir_ok_store st s2 dp ip ino Hd He12) as [Hd2 Ed2]. rewrite Ed1 in Hk, Hlive.
  destruct (fill_entry_spec e s sector) as (Hfl & Hflive & Hfn & Hfs & Hf0); [done..|].
  destruct (write_entry_spec (set_store s2 st) fi ip ino (fill_entry e s sector) k)
    as (st' & d & Hwr & Hx & Hents); cbn [store set_store] in *; rewrite ?Ed2; try done.
  { by apply writable_eq. }
  rewrite Ed2 in Hents.
  destruct (dmap_filled (dents st ino) (dents st' (set_data d ino)) k (fill_entry e s sector) s sector)
    as [Hwe' Hmap]; try done; [apply Hd| |].
  { rewrite Hents. case_decide as Hlt.
    - destruct (lookup_lt_is_Some_2 _ _ Hlt) as [e0 He0]. eapply filled_insert; [done|by apply Hlive].
    - assert (k = length (dents st ino)) as -> by lia. apply filled_app. }
  exists st', d. pose proof (ex_writable _ _ _ _ _ _ Hx) as Hw'.
  assert (dir_ok st' dp ip (set_data d ino)) as Hd'.
  { destruct (ex_same _ _ _ _ _ _ Hx) as (_ & _ & Edir & _). split; [|apply Hw'|apply Hw'| |done].
    - rewrite Edir. apply Hd.
    - apply (wr_grow _ _ _ _ Hw'). }
  split; [|split; [done|split; [done|]]].
  - unfold dir_add. erewrite stM_bind_run by exact Hg.
    rewrite bool_decide_eq_false_2, (proj2 (Z.ltb_ge _ _)) by done. cbn [orb].
    erewrite stM_bind_run by exact Hlk. cbv beta iota. cbn [d_inode].
    erewrite stM_bind_run by (apply entry_fuel_spec; apply Hd1). cbv beta.
    erewrite stM_bind_run by exact Hsl. cbv beta iota.
    erewrite stM_bind_run by exact Hwr. done.
  - intros t Ht. destruct (lookup_spec st' dp ip (set_data d ino) t Hd' Ht) as (s' & Hr & _).
    exists (found st' (set_data d ino) t), s'. split; [done|]. by rewrite found_dmap, Hmap.
Qed.

(** ** Removing an entry *)

(** Another opener count or the [removed] mark changes nothing about a file's
    sectors. *)
Lemma writable_other st fi p ino q i :
  writable st fi p ino → q ≠ p → not_fm_inode st q →
  writable (set_inodes (<[q := i]> (inodes st)) st) fi p ino.
Proof.
  intros [Hfm Hp Hoth Hgr Hsec Hsd Hsi Hdeny Hpad Hdk] Hne Hn. split; try done.
  - by apply fm_ok_set_inodes.
  - simpl. by rewrite lookup_insert_ne.
  - destruct Hgr. by split.
Qed.

Lemma writable_self st fi p ino i :
  writable st fi p ino → isector i = isector ino → data i = data ino →
  deny_write_cnt i = deny_write_cnt ino →
  writable (set_inodes (<[p := i]> (inodes st)) st) fi p i.
Proof.
  intros [Hfm Hp Hoth Hgr Hsec Hsd Hsi Hdeny Hpad Hdk] Es Ed En.
  split; rewrite ?Es, ?Ed, ?En; try done.
  - by apply fm_ok_set_inodes.
  - simpl. by rewrite lookup_insert_eq.
  - destruct Hgr. by split.
Qed.

Lemma find_open_some st l1 q l2 iq sector :
  Forall (λ p, ∃ i, inodes st !! p = Some i ∧ isector i ≠ sector) l1 →
  inodes st !! q = Some iq → isector iq = sector →
  find_open (l1 ++ q :: l2) sector st = Ok (Some q, st).
Proof.
  intros Hl Hq Hs. induction Hl as [|p l (i & Hi & Hne) _ IH]; cbn [app find_open].
  - erewrite stM_bind_run by by apply get_inode_run. by rewrite Hs, Z.eqb_refl.
  - erewrite stM_bind_run by by apply get_inode_run. by rewrite (proj2 (Z.eqb_neq _ _)).
Qed.

Lemma live_cleared e : length e = ENTRY → live (splice 19 [0] e) = false.
Proof.
  intros He. unfold ENTRY in He. unfold live, decode_entry. cbn [in_use].
  rewrite nth_lookup, lookup_splice_m by (simpl; lia). done.
Qed.

Lemma found_entry st ino s e ofs :
  found st ino s = Some (e, ofs) →
  ∃ k, ofs = ENTRY_SIZE * Z.of_nat k ∧ dents st ino !! k = Some e ∧ live e = true ∧ ename e = s.
Proof.
  unfold found. intros (k & Hk & He)%bind_Some. apply bind_Some in He as (e' & He' & [= -> <-]).
  apply find_index_Some in Hk as (x & Hx & [? ?]%matches_true & _). simplify_eq. eauto.
Qed.

(** [inode_open] of an inode that is already open. *)
Lemma inode_open_again st l1 q l2 iq sector :
  open_inodes st = l1 ++ q :: l2 →
  Forall (λ p, ∃ i, inodes st !! p = Some i ∧ isector i ≠ sector) l1 →
  inodes st !! q = Some iq → isector iq = sector →
  inode_open malloc_ok sector st =
    Ok (Some q, set_inodes (<[q := set_open_cnt (open_cnt iq + 1) iq]> (inodes st)) st).
Proof.
  intros Ho Hl Hq Hs. unfold inode_open. erewrite stM_bind_run by reflexivity. rewrite Ho.
  erewrite stM_bind_run by by eapply find_open_some. cbv beta iota. unfold inode_reopen.
  erewrite stM_bind_run by by apply get_inode_run. cbv beta.
  unfold mod_inode. rewrite stM_bind_eq. simpl. by rewrite (alter_insert_Some _ _ iq).
Qed.

Lemma data_sectors_eq st s' fi p ino :
  writable st fi p ino → disk_eq (store st) s' →
  data_sectors s' (data ino) = data_sectors (store st) (data ino).
Proof.
  intros Hw He. pose proof (wr_grow _ _ _ _ Hw) as Hgr. apply data_sectors_frame; [|apply Hgr].
  intros Hc. apply He. by apply (wd_ind _ _ (gr_wf _ _ _ Hgr)).
Qed.

(** Caching moves nothing: sectors and bytes of a file are what they were. *)
Lemma separate_store st s' fi p1 i1 p2 i2 :
  writable st fi p1 i1 → writable st fi p2 i2 → disk_eq (store st) s' → separate st i1 i2 → separate (set_store s' st) i1 i2.
Proof.
  intros H1 H2 He Hsep x Hx1 Hx2. apply (Hsep x).
  - revert Hx1. unfold sectors_of. simpl. by rewrite (data_sectors_eq st s' fi p1 i1).
  - revert Hx2. unfold sectors_of. simpl. by rewrite (data_sectors_eq st s' fi p2 i2).
Qed.
Lemma content_store st s' fi p ino :
  writable st fi p ino → disk_eq (store st) s' → content s' (data ino) = content (store st) (data ino).
Proof.
  intros Hw He. pose proof (gr_wf _ _ _ (wr_grow _ _ _ _ Hw)) as Hwf. apply content_frame; [done|]. by apply disk_eq_agrees.
Qed.

(** The entry that resolves a name: where it is, and its length. *)
Lemma found_at st ino s sec :
  dmap (dents st ino) s = Some sec →
  ∃ k e, found st ino s = Some (e, ENTRY_SIZE * Z.of_nat k) ∧ dents st ino !! k = Some e ∧ live e = true ∧ ename e = s ∧
    length e = ENTRY ∧ esector e = sec.
Proof.
  intros Hm. pose proof (found_dmap st ino s) as Hfd. rewrite Hm in Hfd. apply fmap_Some in Hfd as ([e ofs] & Hf & Hsec).
  destruct (found_entry _ _ _ _ _ Hf) as (k & -> & Hk & Hl & Hn). exists k, e. split_and!; try done.
  pose proof Hk as Hk2%lookup_lt_Some. rewrite length_entries in Hk2.
  rewrite lookup_entries in Hk by done. injection Hk as <-. apply length_slice. by apply n_entries_bound in Hk2.
Qed.

(** The steps of [dir_remove] behind the lookup, for a file. *)
Lemma check_empty_file st q i : inodes st !! q = Some i → directory (data i) = 0 → check_empty malloc_ok q st = Ok (true, st).
Proof.
  intros Hq Hd. unfold check_empty, inode_is_dir.
  erewrite stM_bind_run by (erewrite stM_bind_run by (by apply get_inode_run); reflexivity). simpl. by rewrite Hd.
Qed.
Lemma inode_remove_run st q i : inodes st !! q = Some i → inode_remove q st = Ok (tt, set_inodes (<[q := set_removed true i]> (inodes st)) st).
Proof.
  intros Hq. unfold inode_remove. erewrite stM_bind_run by (by apply get_inode_run).
  unfold mod_inode, smod. by rewrite (alter_insert_Some _ _ i).
Qed.
Lemma inode_close_shared st q i :
  inodes st !! q = Some i → open_cnt i ≠ 1 →
  inode_close (Some q) st = Ok (tt, set_inodes (<[q := set_open_cnt (open_cnt i - 1) i]> (inodes st)) st).
Proof.
  intros Hq Hc. unfold inode_close. erewrite stM_bind_run by (by apply get_inode_run).
  unfold mod_inode. rewrite stM_bind_eq. cbv beta iota zeta. unfold smod.
  rewrite (alter_insert_Some _ _ i) by done. by rewrite (proj2 (Z.eqb_neq _ _)) by lia.
Qed.
Lemma dir_remove_run st dp pos ip s s1 e ofs q st2 st3 i s6 :
  get_dir dp st = Ok (mk_dir ip pos, st) → lookup dp s st = Ok (Some (e, ofs), set_store s1 st) →
  inode_open malloc_ok (esector e) (set_store s1 st) = Ok (Some q, st2) →
  check_empty malloc_ok q st2 = Ok (true, st2) →
  write_entry ip (splice 19 [0] e) ofs st2 = Ok (true, st3) →
  inodes st3 !! q = Some i → open_cnt i ≠ 1 → buffer_cache_close (store st3) = Ok (tt, s6) →
  dir_remove malloc_ok dp s st = Ok (true, set_store s6 (set_inodes (<[q := set_open_cnt (open_cnt i - 1) (set_removed true i)]> (inodes st3)) st3)).
Proof.
  intros Hg Hlk Hop Hce Hwr Hi Hn Hcl. unfold dir_remove. erewrite stM_bind_run by exact Hg.
  erewrite stM_bind_run by exact Hlk. cbv beta iota. erewrite stM_bind_run by exact Hop. cbv beta iota.
  erewrite stM_bind_run by exact Hce. cbn [negb d_inode]. erewrite stM_bind_run by exact Hwr. cbn [negb].
  erewrite stM_bind_run by (by apply inode_remove_run).
  erewrite stM_bind_run by (apply (inode_close_shared _ q (set_removed true i)); [simpl; by rewrite lookup_insert_eq|done]).
  cbn [inodes set_inodes]. rewrite insert_insert_eq.
  erewrite stM_bind_run by (unfold on_store; simpl; by rewrite Hcl). done.
Qed.

(** After its entries were written, a directory is sound whatever happens to
    another inode in memory. *)
Lemma written_dir_ok st st' s' fi dp ip ino d q i :
  dir_ok st dp ip ino → q ≠ ip → extended st st' fi ip ino d → wf_entries (dents st' (set_data d ino)) → disk_eq (store st') s' →
  dir_ok (set_store s' (set_inodes (<[q := i]> (inodes st')) st')) dp ip (set_data d ino).
Proof.
  intros Hd Hne Hx Hwe He. pose proof (ex_writable _ _ _ _ _ _ Hx) as Hw. destruct (ex_same _ _ _ _ _ _ Hx) as (_ & _ & Edir & _).
  apply (dir_ok_store (set_inodes (<[q := i]> (inodes st')) st')); [|done]. split; [| | | |done].
  - simpl. rewrite Edir. apply Hd.
  - simpl. rewrite lookup_insert_ne by done. apply Hw.
  - apply (wr_fm _ _ _ _ Hw).
  - apply (wr_grow _ _ _ _ Hw).
Qed.

(** C28: removing the name of a file somebody has open makes exactly that name
    stop resolving; the file itself is only marked, keeps its opener count and
    reads the same bytes as before. *)
Theorem dir_remove_open_file st fi dp ip ino s q iq l1 l2 :
  writable st fi ip ino → dir_ok st dp ip ino → Forall (λ c, c ≠ 0) s →
  dlen (data ino) + ENTRY_SIZE ≤ MAX_FILE → (2 ≤ nfree (free_map st))%nat →
  dmap (dents st ino) s = Some (isector iq) →
  open_inodes st = l1 ++ q :: l2 →
  Forall (λ p, ∃ i, inodes st !! p = Some i ∧ isector i ≠ isector iq) l1 →
  writable st fi q iq → q ≠ ip → separate st ino iq → directory (data iq) = 0 → 0 < open_cnt iq →
  ∃ st' d, dir_remove malloc_ok dp s st = Ok (true, st') ∧
    dir_ok st' dp ip (set_data d ino) ∧ inodes st' !! q = Some (set_removed true iq) ∧
    content (store st') (data iq) = content (store st) (data iq) ∧
    ∀ t, Forall (λ c, c ≠ 0) t →
      ∃ r s', lookup dp t st' = Ok (r, set_store s' st') ∧
        (λ r, esector r.1) <$> r = if decide (t = s) then None else dmap (dents st ino) t.
Proof.
  intros Hw Hd Hs Hmax Hfree Hmap Hopen Hl1 Hq Hne Hsep Hdir Hcnt.
  destruct (get_dir_run _ _ _ _ Hd) as [pos Hg].
  destruct (lookup_spec st dp ip ino s Hd Hs) as (s1 & Hlk & He1).
  destruct (found_at st ino s _ Hmap) as (k & e & Hf & Hk & Hel & Hen & Hel20 & Hsec). rewrite Hf in Hlk.
  set (iq1 := set_open_cnt (open_cnt iq + 1) iq).
  set (st2 := set_inodes (<[q := iq1]> (inodes (set_store s1 st))) (set_store s1 st)).
  assert (inode_open malloc_ok (esector e) (set_store s1 st) = Ok (Some q, st2)) as Hop.
  { eapply inode_open_again; [exact Hopen| |apply Hq|done]. by rewrite Hsec. }
  assert (writable st2 fi ip ino) as Hw2 by (apply writable_other; [by apply writable_eq|done|apply Hq]).
  assert (writable st2 fi q iq1) as Hq2 by (eapply writable_self; [by apply writable_eq|done..]).
  destruct (dir_ok_store st s1 dp ip ino Hd He1) as [_ Ed1].
  assert (dents st2 ino = dents st ino) as Ed2 by exact Ed1.
  assert (k < length (dents st ino))%nat as Hkl by by eapply lookup_lt_Some.
  destruct (write_entry_spec st2 fi ip ino (splice 19 [0] e) k) as (st3 & d & Hwr & Hx & Hents);
    rewrite ?Ed2; try done; [rewrite length_splice; unfold ENTRY in *; simpl; lia|lia|].
  rewrite Ed2, decide_True in Hents by done.
  assert (separate st2 ino iq1) as Hsep2 by (by apply (separate_store st s1 fi ip ino q iq)).
  destruct (extended_other _ _ _ _ _ _ _ _ Hx Hq2 Hne Hsep2) as (Hq3 & _ & Hc3 & _).
  destruct (store_close (store st3)) as (s6 & Hcl & He6); [apply (wr_fm _ _ _ _ Hq3)|].
  assert (dmap (dents st ino) s ≠ None) as Hsome by by rewrite Hmap.
  destruct (dmap_cleared (dents st ino) k e (splice 19 [0] e) s) as [Hwe' Hmap']; try done;
    [apply Hd|by apply live_cleared|].
  rewrite <- Hents in Hwe', Hmap'.
  eexists _, d. split; [eapply dir_remove_run; [exact Hg|exact Hlk|exact Hop| |exact Hwr|apply Hq3| |exact Hcl]|].
  { eapply check_empty_file; [apply Hq2|exact Hdir]. } { simpl. lia. }
  match goal with |- dir_ok (set_store s6 ?s5) _ _ _ ∧ _ => set (st5 := s5) end.
  assert (dir_ok st2 dp ip ino) as Hd2.
  { destruct (dir_ok_store st s1 dp ip ino Hd He1) as [Hd1 _]. destruct Hd1. split; [done|apply Hw2|done..]. }
  assert (dir_ok (set_store s6 st5) dp ip (set_data d ino)) as Hd' by (eapply (written_dir_ok st2); done).
  split_and!; [done|..].
  - simpl. rewrite lookup_insert_eq. f_equal. unfold iq1. destruct iq. unfold set_removed, set_open_cnt.
    simpl. f_equal. lia.
  - transitivity (content (store st3) (data iq1)); [by apply (content_store st3 s6 fi q iq1)|].
    rewrite Hc3. by apply (content_store st s1 fi q iq).
  - intros t Ht. destruct (lookup_spec (set_store s6 st5) dp ip (set_data d ino) t Hd' Ht) as (s' & Hr & _).
    eexists _, s'. split; [exact Hr|]. rewrite found_dmap. cbn [store set_store].
    destruct (wf_disk_store st3 s6 (set_data d ino)) as [_ ->];
      [apply (wr_grow _ _ _ _ (ex_writable _ _ _ _ _ _ Hx))|done|]. by rewrite Hmap'.
Qed.

(** ** Reading a directory *)

Definition proper (e : list Z) : bool :=
  live e && negb (bool_decide (ename e = dot)) && negb (bool_decide (ename e = dotdot)).

Lemma proper_entry_spec e :
  (live e = true → 0 ∈ name (decode_entry e)) → proper_entry e = Ok (proper e).
Proof.
  intros He. unfold proper_entry, proper, live in *.
  destruct (in_use (decode_entry e) =? 0); [done|]. cbn [negb andb].
  assert (Forall (λ c, c ≠ 0) dot ∧ Forall (λ c, c ≠ 0) dotdot) as [Hd Hdd]
    by (split; repeat constructor; lia).
  rewrite (str_eq_spec dot) by auto. cbn [mbind res_bind]. unfold ename.
  rewrite (bool_decide_ext (dot = _) (c_str (name (decode_entry e)) = dot)) by naive_solver.
  case_bool_decide; [done|].
  rewrite (str_eq_spec dotdot) by auto. cbn [mbind res_bind].
  rewrite (bool_decide_ext (dotdot = _) (c_str (name (decode_entry e)) = dotdot)) by naive_solver.
  done.
Qed.

(** The entry a scan from the [k]th finds, and where it leaves the position. *)
Definition next_proper (es : list (list Z)) (k : nat) : option (list Z) * nat :=
  match find_index proper (drop k es) with
  | Some i => ((λ e, name (decode_entry e)) <$> es !! (k + i)%nat, k + i + 1)%nat
  | None => (None, length es)
  end.

Lemma readdir_loop_spec fuel st dp ip ino k :
  dir_ok st dp ip ino → dirs st !! dp = Some (mk_dir ip (ENTRY_SIZE * Z.of_nat k)) →
  (k ≤ length (dents st ino))%nat → (length (dents st ino) - k < fuel)%nat →
  ∃ s', readdir_loop fuel dp st =
    Ok ((next_proper (dents st ino) k).1,
        set_dirs (<[dp := mk_dir ip (ENTRY_SIZE * Z.of_nat (next_proper (dents st ino) k).2)]> (dirs st))
          (set_store s' st)) ∧ disk_eq (store st) s'.
Proof.
  revert st k. induction fuel as [|fuel IH]; intros st k Hd Hdir Hk Hf; [lia|].
  cbn [readdir_loop]. unfold get_dir at 1.
  erewrite stM_bind_run by (rewrite Hdir; reflexivity). cbn [d_inode d_pos].
  destruct (read_entry_spec st ip ino k) as (n & b & s1 & Hr & He1 & Hn & _ & Hb); [apply Hd..|done|].
  erewrite stM_bind_run by exact Hr. cbv beta iota. rewrite Hn. unfold next_proper.
  case_bool_decide as Hlt; last first.
  { exists s1. rewrite drop_ge by lia. cbn [find_index fst snd].
    replace (length (dents st ino)) with k by lia. rewrite insert_id by done. by destruct st. }
  specialize (Hb Hlt). rewrite (drop_S _ b k) by done. cbn [find_index].
  erewrite stM_bind_run by reflexivity. unfold slift.
  rewrite proper_entry_spec by apply (Forall_lookup_1 _ _ _ _ (proj1 (do_entries _ _ _ _ Hd)) Hb).
  erewrite stM_bind_run by reflexivity. destruct (proper b) eqn:Ep.
  - exists s1. rewrite Nat.add_0_r, Hb. cbn [fst snd fmap option_fmap option_map].
    replace (ENTRY_SIZE * Z.of_nat k + ENTRY_SIZE) with (ENTRY_SIZE * Z.of_nat (k + 1)) by lia. done.
  - set (st1 := set_dirs _ _). destruct (dir_ok_store st s1 dp ip ino Hd He1) as [Hd1 Ed1].
    destruct (IH st1 (Datatypes.S k)) as (s2 & Hr2 & He2); unfold st1; cbn [store set_store set_dirs dirs];
      rewrite ?Ed1; try done; try lia.
    { split; [|apply Hd1..]. simpl. rewrite lookup_insert_eq. eauto. }
    { rewrite lookup_insert_eq. do 2 f_equal. lia. }
    exists s2. split; [|by eapply disk_eq_trans].
    etrans; [exact Hr2|]. unfold st1, next_proper. cbn [store set_store set_dirs dirs]. rewrite Ed1, insert_insert_eq.
    destruct (find_index proper (drop (Datatypes.S k) (dents st ino))) as [i|]; [|by destruct st].
    cbn [fst snd fmap option_fmap option_map]. replace (k + Datatypes.S i)%nat with (Datatypes.S k + i)%nat by lia. by destruct st.
Qed.

(** [dir_readdir] returns the name field of the first entry at or after
    its position that is in use and neither "." nor "..", and moves the
    position past it; once there is none it returns false and stays at the
    end.  Calls from position 0 therefore enumerate the directory in order. *)
Lemma dir_readdir_next st dp ip ino k :
  dir_ok st dp ip ino → dirs st !! dp = Some (mk_dir ip (ENTRY_SIZE * Z.of_nat k)) →
  (k ≤ length (dents st ino))%nat →
  ∃ s', dir_readdir dp st =
    Ok ((next_proper (dents st ino) k).1,
        set_dirs (<[dp := mk_dir ip (ENTRY_SIZE * Z.of_nat (next_proper (dents st ino) k).2)]> (dirs st))
          (set_store s' st)) ∧ disk_eq (store st) s'.
Proof.
  intros Hd Hdir Hk. destruct (readdir_loop_spec (Datatypes.S (length (dents st ino))) st dp ip ino k)
    as (s' & Hr & He); try done; [lia|].
  exists s'. split; [|done]. unfold dir_readdir. destruct (get_dir_run _ _ _ _ Hd) as [pos Hg].
  erewrite stM_bind_run by exact Hg. cbn [d_inode].
  erewrite stM_bind_run by (apply entry_fuel_spec; apply Hd). exact Hr.
Qed.
End spec.

(** ** A concrete directory

    The second file of [sample_fs] as the directory at 21: one entry, "a". *)

Definition sample_dir_fs : fs sectors :=
  set_dirs (<[21 := mk_dir 12 0]> ∅) (sample_fs 63 sample_entry).

Lemma sample_dir_writable p ino :
  p = 11 ∧ ino = sample_ino ∨ p = 12 ∧ ino = sample_q sample_entry →
  writable sample_dir_fs sample_fi p ino.
Proof.
  intros Hp. destruct (sample_writable 63 sample_entry p ino) as [Hfm Hi Ho Hg Hs Hd Hn Hde Hpad Hdk];
    [unfold sample_args; auto|done|].
  split; try done; [by destruct Hfm|by destruct Hg].
Qed.

Lemma sample_dir_entries :
  entries (content (store sample_dir_fs) (data (sample_q sample_entry))) = [sample_entry].
Proof. vm_compute. reflexivity. Qed.

Lemma sample_dir_ok : dir_ok sample_dir_fs 21 12 (sample_q sample_entry).
Proof.
  pose proof (sample_dir_writable 12 (sample_q sample_entry) ltac:(auto)) as Hw. split.
  - eexists. reflexivity.
  - reflexivity.
  - apply Hw.
  - apply (wr_grow _ _ _ _ Hw).
  - rewrite sample_dir_entries. split.
    + constructor; [|constructor]. intros _. vm_compute. set_solver.
    + intros [|i] [|j] e f; simpl; rewrite ?lookup_nil; naive_solver.
Qed.

Definition any_alloc : nat → bool := λ _, true.
Definition sample_junk : nat → list Z := λ _, replicate 20 170.

Lemma dir_add_lookup_witness :
  ∃ st', dir_add any_alloc sample_junk 21 [98; 99] 6 0 sample_dir_fs = Ok (true, st') ∧
    ∃ r s', lookup 21 [98; 99] st' = Ok (r, set_store s' st') ∧ (λ r, esector r.1) <$> r = Some 6.
Proof.
  destruct (dir_add_lookup any_alloc sample_junk sample_dir_fs sample_fi 21 12 (sample_q sample_entry) [98; 99] 6)
    as (st' & d & Hr & _ & _ & Hlk).
  - apply sample_dir_writable. auto.
  - exact sample_dir_ok.
  - split; [done|]. split; [unfold NAME_MAX; simpl; lia|]. repeat constructor; lia.
  - unfold in_u32. lia.
  - reflexivity.
  - rewrite sample_dir_entries. reflexivity.
  - vm_compute. discriminate.
  - vm_compute. lia.
  - exists st'. split; [exact Hr|]. destruct (Hlk [98; 99]) as (r & s' & Hl & Hs).
    + repeat constructor; lia.
    + exists r, s'. split; [exact Hl|exact Hs].
Defined.

Lemma dir_remove_open_file_witness :
  ∃ st' d, dir_remove any_alloc 21 [97] sample_dir_fs = Ok (true, st') ∧
    inodes st' !! 11 = Some (set_removed true sample_ino) ∧
    dir_ok st' 21 12 (set_data d (sample_q sample_entry)) ∧
    ∃ r s', lookup 21 [97] st' = Ok (r, set_store s' st') ∧ (λ r, esector r.1) <$> r = None.
Proof.
  destruct (dir_remove_open_file any_alloc sample_dir_fs sample_fi 21 12 (sample_q sample_entry) [97]
              11 sample_ino [12] [10]) as (st' & d & Hr & Hd & Hi & _ & Hlk).
  - apply sample_dir_writable. auto.
  - exact sample_dir_ok.
  - repeat constructor; lia.
  - vm_compute. discriminate.
  - vm_compute. lia.
  - rewrite sample_dir_entries. reflexivity.
  - reflexivity.
  - constructor; [|constructor]. exists (sample_q sample_entry). done.
  - apply sample_dir_writable. auto.
  - lia.
  - intros x Hx Hq. apply (sample_separate 63 sample_entry ltac:(unfold sample_args; auto) x Hq Hx).
  - reflexivity.
  - simpl. lia.
  - exists st', d. split; [exact Hr|]. split; [exact Hi|]. split; [exact Hd|].
    destruct (Hlk [97]) as (r & s' & Hl & Hs).
    + repeat constructor; lia.
    + exists r, s'. split; [exact Hl|exact Hs].
Defined.

(** ** From formatting to files

    [filesys_init] with the format flag on a blank device, over the array of
    sectors (the buffer cache refines it). *)

Definition blank (n : nat) : fs sectors :=
  mk_fs (replicate n zero_sector) (mk_bitmap 0 []) None ∅ [] ∅ ∅ 1 0.
Definition boot : stM (fs sectors) unit := filesys_init any_alloc (mret tt) (Some [0]) true.

(** A run of the whole: on a freshly formatted device of 24 sectors, the file
    "ab" is created in the root directory, opened, written with seven bytes and
    closed, and is found again by name with those bytes. *)
Lemma format_create_write_read :
  ∃ st, (boot;;
    c ← filesys_create any_alloc sample_junk None [97; 98] 0 0;
    f ← filesys_open any_alloc None [97; 98];
    match f with
    | None => serr EFault
    | Some f =>
        n ← file_write f [1; 2; 3; 4; 5; 6; 7] 7;
        file_close (Some f);;
        g ← filesys_open any_alloc None [97; 98];
        match g with
        | None => serr EFault
        | Some g => r ← file_read g 100; mret (c, n, r)
        end
    end) (blank 24) = Ok ((true, 7, (7, [1; 2; 3; 4; 5; 6; 7])), st).
Proof. eexists. vm_compute. reflexivity. Qed.

(** Removing an empty directory faults.  [dir_remove] closes [sub_dir],
    which closes and frees the inode it was opened on, and then removes and
    closes that inode again. *)
Lemma rmdir_use_after_free :
  (boot;;
   c ← filesys_create any_alloc sample_junk None [97] 0 1;
   r ← filesys_remove any_alloc None [97];
   mret (c, r)) (blank 24) = Err EFault.
Proof. vm_compute. reflexivity. Qed.
