(* ===== verification/ProcessFiles.v ===== *)
(** * The loader over the file system

    The file system of Inode.v and Directory.v implements the interface that
    [load] uses, and obeys its laws: an open file is its inode's bytes on the
    disk, whatever the buffer cache has of it. *)

From S2P Require Import Prelude Bitmap Block Cache Inode InodeSpec Directory Palloc Pagedir PagedirSpec CString Process UserMemory StackSpec LoadSpec.
Import Palloc Process.

Section files.
Context {S : Type} `{SectorStoreLaws S} (malloc_ok : nat → bool) (cwd : option Z).

#[local] Instance fs_files : Files (fs S) := {|
  Process.filesys_open := Directory.filesys_open malloc_ok cwd;
  Process.file_read := Inode.file_read;
  Process.file_length := Inode.file_length;
  Process.file_seek := Inode.file_seek;
  Process.file_close := Inode.file_close;
|}.

(** The file object [h], its inode and what is on the disk. *)
Record fs_is_file (st : fs S) (h : Z) (bs : list Z) (pos : Z) : Prop := {
  ff_store : store_ok (store st);
  ff_ino : ∃ f ino, files st !! h = Some f ∧ inodes st !! f_inode f = Some ino ∧ f_pos f = pos ∧ deny_write f = false ∧
    removed ino = false ∧ wf_disk (store st) (data ino) ∧ content (store st) (data ino) = bs;
  ff_bytes : Forall in_u8 bs;
  ff_pos : 0 ≤ pos ≤ Z.of_nat (length bs);
}.

Lemma fs_is_file_bytes st h bs pos :
  fs_is_file st h bs pos → Forall in_u8 bs ∧ Z.of_nat (length bs) < W31 ∧ 0 ≤ pos ≤ Z.of_nat (length bs).
Proof.
  intros [Hok (f & ino & _ & _ & _ & _ & _ & Hwf & <-) Hb Hp]. split_and!; [done| |lia..].
  rewrite length_content by done. pose proof (wd_len _ _ Hwf). unfold MAX_FILE, BLOCK_SECTOR_SIZE in *. lia.
Qed.

Lemma fs_seek_ok st h bs pos ofs s' :
  fs_is_file st h bs pos → disk_eq (store st) s' → 0 ≤ ofs ≤ Z.of_nat (length bs) →
  fs_is_file (set_files (alter (λ f, mk_file (f_inode f) ofs (deny_write f)) h (files st)) (set_store s' st)) h bs ofs.
Proof.
  intros [Hok (f & ino & Hf & Hi & Hp & Hd & Hr & Hwf & Hc) Hb Hpos] He Ho.
  destruct (content_frame _ _ _ Hwf (disk_eq_agrees _ _ _ Hwf He)) as [Hwf' Hc']. split; [by apply He| |done|done].
  eexists _, ino. cbn [files set_files inodes set_store store]. rewrite (lookup_alter_eq _ _ h), Hf. split; [done|].
  cbn [f_inode f_pos deny_write]. split_and!; try done. by rewrite Hc'.
Qed.

#[local] Program Instance fs_files_laws : FilesLaws (fs S) := {| is_file := fs_is_file |}.
Next Obligation. exact fs_is_file_bytes. Qed.
Next Obligation.
  intros st h bs pos n Hf Hn r. pose proof (fs_is_file_bytes _ _ _ _ Hf) as (_ & Hl & Hp).
  pose proof Hf as [Hok (f & ino & Hfile & Hi & Hpos & _ & _ & Hwf & Hc) _ _].
  destruct (inode_read_at_spec st (f_inode f) ino n pos) as (s' & Hr & He); [done|done|done|lia|lia|unfold PGSIZE in Hn|].
  { pose proof (length_content _ _ Hok Hwf) as Hlc. pose proof (wd_len _ _ Hwf). rewrite Hc in Hlc. unfold MAX_FILE, BLOCK_SECTOR_SIZE in *. lia. }
  rewrite Hc in Hr. fold r in Hr.
  replace (Z.max 0 (Z.min n (dlen (data ino) - pos))) with (Z.of_nat (length r)) in Hr.
  2: { pose proof (length_content _ _ Hok Hwf) as Hlc. rewrite Hc in Hlc. pose proof (wd_len _ _ Hwf).
    unfold r, slice. rewrite length_take, length_drop. lia. }
  eexists. split.
  - cbn [Process.file_read fs_files]. unfold Inode.file_read. erewrite stM_bind_run by (unfold get_file; rewrite Hfile; reflexivity).
    rewrite Hpos. erewrite stM_bind_run by exact Hr. cbv beta iota. by erewrite stM_bind_run by reflexivity.
  - assert (pos + Z.of_nat (length r) ≤ Z.of_nat (length bs)) as Hin by (unfold r, slice; rewrite length_take, length_drop; lia).
    pose proof (fs_seek_ok _ _ _ _ (pos + Z.of_nat (length r)) s' Hf He ltac:(lia)) as Hnew.
    erewrite alter_ext; [exact Hnew|]. cbn [files set_store]. intros x E. rewrite Hfile in E. injection E as <-. by rewrite Hpos.
Qed.
Next Obligation.
  intros st h bs pos Hf. destruct Hf as [Hok (f & ino & Hfile & Hi & _ & _ & _ & Hwf & <-) _ _].
  cbn [Process.file_length fs_files]. unfold Inode.file_length. erewrite stM_bind_run by (unfold get_file; rewrite Hfile; reflexivity).
  unfold inode_length. erewrite stM_bind_run by by apply get_inode_run. rewrite length_content by done.
  pose proof (wd_len _ _ Hwf). by rewrite Z2Nat.id by lia.
Qed.
Next Obligation.
  intros st h bs pos ofs Hf Ho. pose proof Hf as [Hok (f & ino & Hfile & _) _ _].
  eexists. split.
  - cbn [Process.file_seek fs_files]. unfold Inode.file_seek. erewrite stM_bind_run by (unfold get_file; rewrite Hfile; reflexivity).
    rewrite (proj2 (Z.leb_le 0 ofs)) by lia. by erewrite stM_bind_run by reflexivity.
  - pose proof (fs_seek_ok _ _ _ _ ofs (store st) Hf) as Hnew. destruct st. apply Hnew; [by split_and!|done].
Qed.
Next Obligation.
  intros st h bs pos [Hok (f & ino & Hfile & Hi & _ & Hd & Hr & _) _ _].
  cbn [Process.file_close fs_files]. unfold Inode.file_close, file_allow_write.
  assert (∀ st' : fs S, files st' = files st → get_file h st' = Ok (f, st')) as Hget by (intros st' E; unfold get_file; by rewrite E, Hfile).
  erewrite stM_bind_run by ((erewrite stM_bind_run by (by apply Hget)); rewrite Hd; reflexivity).
  erewrite stM_bind_run by by apply Hget. unfold inode_close. rewrite stM_bind_eq.
  erewrite stM_bind_run by by apply get_inode_run. erewrite stM_bind_run by reflexivity.
  destruct (open_cnt ino - 1 =? 0); [|by eexists]. erewrite stM_bind_run by reflexivity. rewrite Hr.
  erewrite stM_bind_run by reflexivity. by eexists.
Qed.

(** A file that [filesys_open] has opened is what its inode has on the disk,
    from the start. *)
Lemma opened_is_file st h ip ino :
  store_ok (store st) → files st !! h = Some (mk_file ip 0 false) → inodes st !! ip = Some ino → removed ino = false →
  wf_disk (store st) (data ino) → Forall in_u8 (content (store st) (data ino)) →
  is_file st h (content (store st) (data ino)) 0.
Proof. intros. split; [done| |done|lia]. by eexists _, ino. Qed.

End files.
