(* ===== verification/Syscall.v ===== *)
(** * userprog/syscall.c: the system calls

    The state of the running process is its memory behind the page tables, the
    file system, its table of open files, its working directory and the
    console.  A system call reads its arguments through the user's addresses.

    A call that does not return to the program says why: it ends the process,
    switches the machine off, goes on in process.c with a new process or with
    waiting for one, or accesses an address that is not mapped, upon which the
    page fault handler (userprog/exception.c) ends the process: [Faults].  The
    state that comes with it is the one the process leaves behind.
    [file_lock] says whether the process holds the lock of that name; waiting
    for another process to release it is not visible here, and neither is
    [process_lock], which [exec] takes.  An error of the file system's own, a
    failed assertion or a null pointer, is an [Err].

    [Syscall.write] reads the whole buffer before it writes, and the calls that
    take a path read all of it before they use it; the code reads the buffer
    sector by sector, so that the part before a fault is written. *)

From S2P Require Import Prelude Bitmap Block Cache CString Inode Directory Palloc Pagedir Process Stdio.

Module Syscall.
Import Palloc Pagedir.

Definition SYS_HALT : Z := 0.
Definition SYS_EXIT : Z := 1.
Definition SYS_EXEC : Z := 2.
Definition SYS_WAIT : Z := 3.
Definition SYS_CREATE : Z := 4.
Definition SYS_REMOVE : Z := 5.
Definition SYS_OPEN : Z := 6.
Definition SYS_FILESIZE : Z := 7.
Definition SYS_READ : Z := 8.
Definition SYS_WRITE : Z := 9.
Definition SYS_SEEK : Z := 10.
Definition SYS_TELL : Z := 11.
Definition SYS_CLOSE : Z := 12.
Definition SYS_CHDIR : Z := 15.
Definition SYS_MKDIR : Z := 16.
Definition SYS_READDIR : Z := 17.
Definition SYS_ISDIR : Z := 18.
Definition SYS_INUMBER : Z := 19.
Definition STDIN_FILENO : Z := 0.
Definition STDOUT_FILENO : Z := 1.

Record file_inst := mk_file_inst { fd : Z; file_p : Z }.

Inductive stop := Exits (status : Z) | PowersOff | Execs (cmd_line : list Z) | Waits (pid : Z) | Faults.

Section syscall.
Context {S : Type} `{SectorStore S} (malloc_ok : nat → bool) (junk : nat → list Z) (init_ram_pages : Z).

Record process := mk_process {
  cpu : mmu;
  fsys : fs S;
  pagedir : Z;
  list_files : list file_inst;
  fd_ct : Z;
  cwd : option Z;
  con : Stdio.console;
  keys : list Z;
  file_lock : bool;
}.

Definition set_cpu c p := mk_process c (fsys p) (pagedir p) (list_files p) (fd_ct p) (cwd p) (con p) (keys p) (file_lock p).
Definition set_fsys f p := mk_process (cpu p) f (pagedir p) (list_files p) (fd_ct p) (cwd p) (con p) (keys p) (file_lock p).
Definition set_fds l n p := mk_process (cpu p) (fsys p) (pagedir p) l n (cwd p) (con p) (keys p) (file_lock p).
Definition set_cwd d p := mk_process (cpu p) (fsys p) (pagedir p) (list_files p) (fd_ct p) d (con p) (keys p) (file_lock p).
Definition set_con c p := mk_process (cpu p) (fsys p) (pagedir p) (list_files p) (fd_ct p) (cwd p) c (keys p) (file_lock p).
Definition set_keys l p := mk_process (cpu p) (fsys p) (pagedir p) (list_files p) (fd_ct p) (cwd p) (con p) l (file_lock p).
Definition set_file_lock b p := mk_process (cpu p) (fsys p) (pagedir p) (list_files p) (fd_ct p) (cwd p) (con p) (keys p) b.

(** ** A call returns a value or stops *)

Definition sysM (A : Type) : Type := process → res ((stop + A) * process).
#[export] Instance sysM_ret : MRet sysM := λ A a p, Ok (inr a, p).
#[export] Instance sysM_bind : MBind sysM := λ A B f m p,
  match m p with
  | Ok (inr a, p) => f a p
  | Ok (inl e, p) => Ok (inl e, p)
  | Err e => Err e
  end.
Definition stops {A} (e : stop) : sysM A := λ p, Ok (inl e, p).

Definition on_cpu {A} (m : stM mmu A) : sysM A := λ p,
  match m (cpu p) with
  | Ok (a, c) => Ok (inr a, set_cpu c p)
  | Err EFault => Ok (inl Faults, p)
  | Err e => Err e
  end.
Definition on_fs {A} (m : stM (fs S) A) : sysM A := λ p,
  match m (fsys p) with Ok (a, f) => Ok (inr a, set_fsys f p) | Err e => Err e end.
Definition on_con {A} (m : stM Stdio.console A) : sysM A := λ p,
  match m (con p) with Ok (a, c) => Ok (inr a, set_con c p) | Err e => Err e end.
Definition reads {A} (f : process → A) : sysM A := λ p, Ok (inr (f p), p).
Definition mods (f : process → process) : sysM unit := λ p, Ok (inr tt, f p).
Definition fails {A} (e : err) : sysM A := λ _, Err e.

(** ** User memory *)

Definition uload (va : Z) : sysM Z := on_cpu (Process.user_load (u32 va)).
Fixpoint copy_in (n : nat) (va : Z) : sysM (list Z) :=
  match n with
  | O => mret []
  | Datatypes.S n => b ← uload va; bs ← copy_in n (va + 1); mret (b :: bs)
  end.
Fixpoint copy_out (va : Z) (bs : list Z) : sysM unit :=
  match bs with
  | [] => mret tt
  | b :: bs => on_cpu (Process.user_store (u32 va) b);; copy_out (va + 1) bs
  end.
(** [*(stack_p + i)] *)
Definition word (va : Z) : sysM Z := bs ← copy_in 4 va; mret (le_Z bs).

(** The string at a user address, as [strlen] and [strlcpy] see it. *)
Definition string_step (x : Z * list Z) : sysM (Z * list Z + list Z) :=
  let '(va, acc) := x in
  c ← uload va;
  if c =? 0 then mret (inr (reverse acc)) else mret (inl (va + 1, c :: acc)).

(** At most [2 ^ n] rounds of a loop. *)
Fixpoint rounds {A B} (step : A → sysM (A + B)) (n : nat) (a : A) : sysM (A + B) :=
  match n with
  | O => step a
  | Datatypes.S n => r ← rounds step n a; match r with inl a => rounds step n a | inr b => mret (inr b) end
  end.
Definition loops {A B} (step : A → sysM (A + B)) (a : A) : sysM B :=
  r ← rounds step 32 a; match r with inl _ => fails EFuel | inr b => mret b end.
Definition ustring (va : Z) : sysM (list Z) := loops string_step (va, []).

(** [strlen] of a kernel address: memory ends with the machine's. *)
Definition kstrlen_step (x : Z * Z) : sysM (Z * Z + Z) :=
  let '(a, n) := x in
  if PHYS_BASE + init_ram_pages * PGSIZE <=? a then stops Faults
  else c ← reads (λ p, mem (pal (cpu p)) a); if c =? 0 then mret (inr n) else mret (inl (a + 1, n + 1)).
Definition kstrlen (a : Z) : sysM Z := loops kstrlen_step (a, 0).

Definition get_page (va : Z) : sysM Z := pd ← reads pagedir; on_cpu (pagedir_get_page pd va).

Definition valid_addr (vaddr : Z) : sysM bool :=
  if vaddr =? 0 then mret false
  else if negb (is_user_vaddr vaddr) || (3221225468 <=? vaddr) then mret false
  else p ← get_page vaddr; mret (negb (p =? 0)).

Definition valid_str (str : Z) : sysM bool :=
  if negb (is_user_vaddr str) then mret false
  else
    page_str ← get_page str;
    if page_str =? 0 then mret false
    else
      n ← kstrlen page_str;
      let end_str := u32 (str + n + 1) in
      if negb (is_user_vaddr end_str) then mret false
      else p ← get_page end_str; mret (negb (p =? 0)).

(** ** The calls *)

Definition lock_acquire : sysM unit :=
  held ← reads file_lock; if (held : bool) then fails EAssert else mods (set_file_lock true).
Definition lock_release : sysM unit :=
  held ← reads file_lock; if (held : bool) then mods (set_file_lock false) else fails EAssert.
Definition locking {A} (m : sysM A) : sysM A := lock_acquire;; a ← m; lock_release;; mret a.
Definition locked {A} (m : stM (fs S) A) : sysM A := locking (on_fs m).

Definition halt {A} : sysM A := stops PowersOff.
Definition exit {A} (status : Z) : sysM A := stops (Exits (i32 status)).
Definition exec {A} (cmd_line : Z) : sysM A := c ← ustring cmd_line; stops (Execs c).
Definition wait {A} (pid : Z) : sysM A := stops (Waits (i32 pid)).

(** A [bool] that is given [-1] is true. *)
Definition create (file initial_size : Z) : sysM bool :=
  if file =? 0 then mret true
  else
    locking (path ← ustring file; d ← reads cwd; on_fs (filesys_create malloc_ok junk d path (i32 initial_size) 0)).
Definition remove (file : Z) : sysM bool :=
  if file =? 0 then mret true
  else locking (path ← ustring file; d ← reads cwd; on_fs (filesys_remove malloc_ok d path)).

Definition locate_file (n : Z) (p : process) : option file_inst := list_find (λ e, fd e = n) (list_files p) ≫= λ x, Some x.2.

Definition open (file : Z) : sysM Z :=
  r ← locking (path ← ustring file; d ← reads cwd; on_fs (filesys_open malloc_ok d path));
  match r with
  | None => mret (-1)
  | Some fp =>
      e ← on_fs (malloc malloc_ok);
      match e with
      | None => on_fs (file_close (Some fp));; mret (-1)
      | Some _ =>
          mods (λ p, set_fds (list_files p) (i32 (fd_ct p + 1)) p);;
          n ← reads fd_ct;
          mods (λ p, set_fds (mk_file_inst n fp :: list_files p) (fd_ct p) p);;
          mret n
      end
  end.

(** The keyboard's characters in the order they are typed. *)
Definition input_getc : sysM Z :=
  l ← reads keys; match l with c :: l => mods (set_keys l);; mret c | [] => fails EFuel end.
(** [n] rounds of the loop that is to read the keyboard. *)
Fixpoint read_keys (n : nat) (buffer cur_len : Z) : sysM Z :=
  match n with
  | O => mret cur_len
  | Datatypes.S n =>
      c ← input_getc; on_cpu (Process.user_store (u32 (buffer + cur_len)) c);; read_keys n buffer (cur_len + 1)
  end.

Definition read (n buffer size : Z) : sysM Z :=
  if n =? 0 then read_keys (Z.to_nat STDIN_FILENO) buffer 0
  else
    e ← reads (locate_file n);
    match e with
    | None => exit (-1)
    | Some e =>
        locking ('(result, bytes) ← on_fs (file_read (file_p e) (i32 size));
                 copy_out buffer bytes;; mret result)
    end.

Fixpoint putbuf_loop (n : nat) (buffer : Z) : sysM unit :=
  match n with
  | O => mret tt
  | Datatypes.S n => c ← uload buffer; on_con (Stdio.putchar_have_lock c);; putbuf_loop n (buffer + 1)
  end.
Definition putbuf (buffer size : Z) : sysM unit :=
  on_con Stdio.acquire_console;; putbuf_loop (Z.to_nat size) buffer;; on_con Stdio.release_console.

Definition write (n buffer size : Z) : sysM Z :=
  if n =? STDOUT_FILENO then putbuf buffer size;; mret size
  else
    e ← reads (locate_file n);
    match e with
    | None => mret (-1)
    | Some e =>
        locking (bytes ← copy_in (Z.to_nat (i32 size)) buffer;
                 on_fs (file_write (file_p e) bytes (i32 size)))
    end.

(** The open file [n], or the end of the process. *)
Definition fd_file (n : Z) : sysM file_inst :=
  e ← reads (locate_file n); match e with Some e => mret e | None => exit (-1) end.

Definition seek (n position : Z) : sysM unit := e ← fd_file n; locked (file_seek (file_p e) (i32 position)).
Definition filesize (n : Z) : sysM Z := e ← fd_file n; locked (file_length (file_p e)).
Definition tell (n : Z) : sysM Z := e ← fd_file n; locked (file_tell (file_p e)).

Definition close (n : Z) : sysM unit :=
  if (n =? STDIN_FILENO) || (n =? STDOUT_FILENO) then mret tt
  else
    e ← fd_file n;
    locked (file_close (Some (file_p e)));;
    mods (λ p, set_fds (match list_find (λ x, fd x = n) (list_files p) with
                        | Some (i, _) => delete i (list_files p)
                        | None => list_files p
                        end) (fd_ct p) p).

Definition mkdir (dir : Z) : sysM bool :=
  locking (path ← ustring dir; d ← reads cwd; on_fs (filesys_create malloc_ok junk d path 0 1)).

(** [file_inst->file_p] of a null pointer is a fault. *)
Definition fd_file_p (n : Z) : sysM Z :=
  e ← reads (locate_file n); match e with Some e => mret (file_p e) | None => stops Faults end.

(** A [struct file] seen as a [struct dir], whose members are its first two. *)
Definition as_dir {A} (fp : Z) (m : stM (fs S) A) : stM (fs S) A :=
  f ← get_file fp;
  smod (λ st, set_dirs (<[fp := mk_dir (f_inode f) (f_pos f)]> (dirs st)) st);;
  a ← m;
  d ← get_dir fp;
  smod (λ st, set_files (<[fp := mk_file (d_inode d) (d_pos d) (deny_write f)]> (files st))
                (set_dirs (delete fp (dirs st)) st));;
  mret a.

(** [strlcpy (name, e.name, NAME_MAX + 1)] *)
Fixpoint until0 (l : list Z) : list Z := match l with [] => [] | c :: l => if c =? 0 then [] else c :: until0 l end.
Definition name_bytes (name : list Z) : list Z :=
  take (Z.to_nat NAME_MAX) (until0 name) ++ [0].

Definition readdir (n name : Z) : sysM bool :=
  fp ← fd_file_p n;
  f ← on_fs (get_file fp);
  is_dir ← on_fs (inode_is_dir (Some (f_inode f)));
  if negb is_dir then mret false
  else
    r ← on_fs (as_dir fp (dir_readdir fp));
    match r with
    | None => mret false
    | Some nm => copy_out name (name_bytes nm);; mret true
    end.
Definition isdir (n : Z) : sysM bool :=
  fp ← fd_file_p n; i ← on_fs (file_get_inode fp); on_fs (inode_is_dir (Some i)).
Definition inumber (n : Z) : sysM Z :=
  fp ← fd_file_p n; i ← on_fs (file_get_inode fp); on_fs (inode_get_inumber i).

Definition chdir (dir : Z) : sysM bool :=
  path ← ustring dir; d ← reads cwd;
  r ← on_fs (dir_open_path malloc_ok d path);
  match r with
  | None => mret false
  | Some new_dir => on_fs (dir_close d);; mods (set_cwd (Some new_dir));; mret true
  end.

(** ** [syscall_handler] *)

Definition b2z (b : bool) : Z := if b then 1 else 0.
(** [if (!a || ...) exit (-1);] *)
Definition check (m : sysM bool) : sysM unit := ok ← m; if (ok : bool) then mret tt else exit (-1).
Definition eax (m : sysM Z) : sysM (option Z) := v ← m; mret (Some (u32 v)).

(** The new value of [f->eax], if it gets one. *)
Definition syscall_handler (esp : Z) : sysM (option Z) :=
  let arg i := u32 (esp + 4 * i) in
  check (valid_addr esp);;
  n ← word esp;
  if n =? SYS_HALT then halt
  else if n =? SYS_EXIT then s ← word (arg 1); exit s
  else if n =? SYS_EXEC then
    check (valid_addr (arg 1));; c ← word (arg 1); check (valid_str c);; exec c
  else if n =? SYS_WAIT then check (valid_addr (arg 1));; p ← word (arg 1); wait p
  else if n =? SYS_CREATE then
    check (valid_addr (arg 1));; check (valid_addr (arg 2));; f ← word (arg 1); check (valid_addr f);;
    sz ← word (arg 2); eax (b ← create f sz; mret (b2z b))
  else if n =? SYS_REMOVE then f ← word (arg 1); eax (b ← remove f; mret (b2z b))
  else if n =? SYS_OPEN then
    a ← valid_addr (arg 1); f ← word (arg 1); b ← valid_addr f;
    if negb a || negb b then exit (-1) else eax (open f)
  else if n =? SYS_FILESIZE then f ← word (arg 1); eax (filesize (i32 f))
  else if n =? SYS_READ then
    check (valid_addr (arg 1));; check (valid_addr (arg 2));; check (valid_addr (arg 3));;
    f ← word (arg 1); buf ← word (arg 2); sz ← word (arg 3);
    check (valid_str buf);; eax (read (i32 f) buf sz)
  else if n =? SYS_WRITE then
    check (valid_addr (arg 1));; check (valid_addr (arg 2));; check (valid_addr (arg 3));;
    buf ← word (arg 2); check (valid_addr buf);;
    f ← word (arg 1); sz ← word (arg 3); eax (write (i32 f) buf sz)
  else if n =? SYS_SEEK then
    check (valid_addr (arg 2));; check (valid_addr (arg 2));;
    f ← word (arg 1); pos ← word (arg 2); seek (i32 f) pos;; mret None
  else if n =? SYS_TELL then f ← word (arg 1); _ ← tell (i32 f); mret None
  else if n =? SYS_CLOSE then check (valid_addr (arg 1));; f ← word (arg 1); close (i32 f);; mret None
  else if n =? SYS_MKDIR then
    check (valid_addr (arg 1));; d ← word (arg 1); check (valid_str d);; eax (b ← mkdir d; mret (b2z b))
  else if n =? SYS_CHDIR then
    check (valid_addr (arg 1));; d ← word (arg 1); check (valid_str d);; eax (b ← chdir d; mret (b2z b))
  else if n =? SYS_READDIR then
    check (valid_addr (arg 1));; check (valid_addr (arg 2));; nm ← word (arg 2); check (valid_addr nm);;
    f ← word (arg 1); eax (b ← readdir (i32 f) nm; mret (b2z b))
  else if n =? SYS_ISDIR then
    check (valid_addr (arg 1));; f ← word (arg 1); eax (b ← isdir (i32 f); mret (b2z b))
  else if n =? SYS_INUMBER then
    check (valid_addr (arg 1));; f ← word (arg 1); eax (inumber (i32 f))
  else exit (-1).

End syscall.
End Syscall.
