(* ===== verification/SyscallSpec.v ===== *)
(** * What the system calls do

    The table of open files keeps its invariant whatever a program asks for;
    data written through a descriptor comes back through it, from user memory
    to the disk and back; bad pointers end the process. *)

From S2P Require Import Prelude Bitmap Block Cache CString Inode InodeSpec Growth Directory Palloc Pagedir PagedirSpec Process UserMemory StackSpec Stdio Syscall FileContents.
Import Bitmap Palloc Pagedir Syscall.

Section spec.
Context {S : Type} `{SectorStoreLaws S} (malloc_ok : nat → bool) (junk : nat → list Z) (init_ram_pages : Z).
Implicit Types (p : process (S := S)).

Lemma sysM_bind_eq {A B} (m : sysM (S := S) A) (f : A → sysM B) p :
  (m ≫= f) p = match m p with Ok (inr a, p) => f a p | Ok (inl e, p) => Ok (inl e, p) | Err e => Err e end.
Proof. done. Qed.
Lemma sysM_bind_run {A B} (m : sysM (S := S) A) (f : A → sysM B) p a p' :
  m p = Ok (inr a, p') → (m ≫= f) p = f a p'.
Proof. intros Hm. by rewrite sysM_bind_eq, Hm. Qed.

(** ** What leaves the table of open files alone *)

Definition frame (p p' : process (S := S)) : Prop :=
  list_files p' = list_files p ∧ fd_ct p' = fd_ct p ∧ file_lock p' = file_lock p.
Definition framed {A} (m : sysM (S := S) A) : Prop := ∀ p r p', m p = Ok (r, p') → frame p p'.

#[export] Instance frame_preorder : PreOrder frame.
Proof. split; [by intros p|]. intros p1 p2 p3 (?&?&?) (?&?&?). split_and!; congruence. Qed.

Lemma framed_bind {A B} (m : sysM (S := S) A) (f : A → sysM B) : framed m → (∀ a, framed (f a)) → framed (m ≫= f).
Proof.
  intros Hm Hf p r p'. rewrite sysM_bind_eq. destruct (m p) as [[[e|a] p1]|] eqn:E; [| |done].
  - intros [= _ <-]. by eapply Hm.
  - intros Hr. transitivity p1; [by eapply Hm|by eapply Hf].
Qed.
Lemma framed_ret {A} (a : A) : framed (mret a).
Proof. by intros p r p' [= _ <-]. Qed.
Lemma framed_stops {A} e : framed (stops (A := A) e).
Proof. by intros p r p' [= _ <-]. Qed.
Lemma framed_fails {A} e : framed (fails (A := A) e).
Proof. by intros p r p'. Qed.
Lemma framed_reads {A} (f : process → A) : framed (reads f).
Proof. by intros p r p' [= _ <-]. Qed.
Lemma framed_mods f : (∀ p, frame p (f p)) → framed (mods f).
Proof. by intros Hf p r p' [= _ <-]. Qed.
Lemma framed_on_cpu {A} (m : stM mmu A) : framed (on_cpu m).
Proof. intros p r p'. unfold on_cpu. destruct (m (cpu p)) as [[]|[]]; try done; by intros [= _ <-]. Qed.
Lemma framed_on_fs {A} (m : stM (fs S) A) : framed (on_fs m).
Proof. intros p r p'. unfold on_fs. destruct (m (fsys p)) as [[]|]; [|done]. by intros [= _ <-]. Qed.
Lemma framed_on_con {A} (m : stM Stdio.console A) : framed (on_con m).
Proof. intros p r p'. unfold on_con. destruct (m (con p)) as [[]|]; [|done]. by intros [= _ <-]. Qed.

Create HintDb syscall.
#[local] Hint Resolve framed_bind framed_ret framed_stops framed_fails framed_reads framed_on_cpu framed_on_fs framed_on_con : syscall.
Ltac framed := repeat first [progress auto with syscall | apply framed_bind; [|intros ?] | case_match].

(** What stops only with a page fault. *)
Definition may_fault {A} (m : sysM (S := S) A) : Prop := ∀ p e p', m p = Ok (inl e, p') → e = Faults.
Lemma may_fault_bind {A B} (m : sysM (S := S) A) (f : A → sysM B) : may_fault m → (∀ a, may_fault (f a)) → may_fault (m ≫= f).
Proof.
  intros Hm Hf p e p'. rewrite sysM_bind_eq. destruct (m p) as [[[e'|a] p1]|] eqn:E; [|apply Hf|done]. intros [= <- _]. by eapply Hm.
Qed.
Lemma may_fault_ret {A} (a : A) : may_fault (mret a).
Proof. by intros p e p'. Qed.
Lemma may_fault_fails {A} e : may_fault (fails (A := A) e).
Proof. by intros p e' p'. Qed.
Lemma may_fault_reads {A} (f : process → A) : may_fault (reads f).
Proof. by intros p e p'. Qed.
Lemma may_fault_on_cpu {A} (m : stM mmu A) : may_fault (on_cpu m).
Proof. intros p e p'. unfold on_cpu. destruct (m (cpu p)) as [[]|[]]; try done. by intros [= <- _]. Qed.
Lemma may_fault_on_fs {A} (m : stM (fs S) A) : may_fault (on_fs m).
Proof. intros p e p'. unfold on_fs. by destruct (m (fsys p)) as [[]|]. Qed.
#[local] Hint Resolve may_fault_bind may_fault_ret may_fault_fails may_fault_reads may_fault_on_cpu may_fault_on_fs : syscall.
Ltac may_fault := repeat first [progress auto with syscall | apply may_fault_bind; [|intros ?] | case_match].

(** ** What leaves the table alone, and the lock too unless it faults *)

Definition quiet {A} (m : sysM (S := S) A) : Prop :=
  ∀ p r p', m p = Ok (r, p') →
    list_files p' = list_files p ∧ fd_ct p' = fd_ct p ∧ (file_lock p' = file_lock p ∨ r = inl Faults).
Lemma quiet_framed {A} (m : sysM (S := S) A) : framed m → quiet m.
Proof. intros Hm p r p' (? & ? & ?)%Hm. split_and!; [done..|by left]. Qed.
Lemma quiet_bind {A B} (m : sysM (S := S) A) (f : A → sysM B) : quiet m → (∀ a, quiet (f a)) → quiet (m ≫= f).
Proof.
  intros Hm Hf p r p'. rewrite sysM_bind_eq. destruct (m p) as [[[e|a] p1]|] eqn:E; [| |done].
  - intros [= <- <-]. apply Hm in E as (? & ? & [?|[= ->]]); split_and!; auto.
  - intros Hr. apply Hm in E as (E1 & E2 & [E3|?]); [|done]. apply Hf in Hr as (H1 & H2 & H3). rewrite H1, H2, E1, E2, <- E3. by split_and!.
Qed.

(** What happens while the lock is held: a fault there leaves it held. *)
Lemma quiet_locking {A} (m : sysM (S := S) A) : framed m → may_fault m → quiet (locking m).
Proof.
  intros Hm Hr p r p'. unfold locking, lock_acquire, lock_release. rewrite !sysM_bind_eq. cbn [reads].
  destruct (file_lock p) eqn:Hl; [done|]. cbn [mods]. rewrite sysM_bind_eq.
  destruct (m (set_file_lock true p)) as [[[e|a] p1]|] eqn:E; [| |done].
  - pose proof E as ->%Hr. apply Hm in E as (H1 & H2 & _). intros [= <- <-]. split_and!; [done..|by right].
  - apply Hm in E as (H1 & H2 & H3). rewrite !sysM_bind_eq. cbn [reads]. rewrite H3. cbn [file_lock set_file_lock mods].
    intros [= _ <-]. split_and!; [done..|by left].
Qed.
Lemma quiet_locked {A} (m : stM (fs S) A) : quiet (locked m).
Proof. apply quiet_locking; auto with syscall. Qed.
#[local] Hint Resolve quiet_bind quiet_locked : syscall.
#[local] Hint Extern 2 (quiet _) => apply quiet_framed : syscall.
Ltac quiet := repeat first [progress auto with syscall | apply quiet_bind; [|intros ?] | case_match | apply quiet_framed; framed; fail].

Lemma framed_uload va : framed (uload (S := S) va).
Proof. apply framed_on_cpu. Qed.
Lemma may_fault_uload va : may_fault (uload (S := S) va).
Proof. apply may_fault_on_cpu. Qed.
#[local] Hint Resolve framed_uload may_fault_uload : syscall.
Lemma framed_copy_in n va : framed (copy_in (S := S) n va).
Proof. revert va. induction n; intros va; cbn [copy_in]; framed. Qed.
Lemma may_fault_copy_in n va : may_fault (copy_in (S := S) n va).
Proof. revert va. induction n; intros va; cbn [copy_in]; auto 10 with syscall. Qed.
Lemma framed_copy_out va bs : framed (copy_out (S := S) va bs).
Proof. revert va. induction bs; intros va; cbn [copy_out]; framed. Qed.
Lemma may_fault_copy_out va bs : may_fault (copy_out (S := S) va bs).
Proof. revert va. induction bs; intros va; cbn [copy_out]; auto 10 with syscall. Qed.
#[local] Hint Resolve framed_copy_in may_fault_copy_in framed_copy_out may_fault_copy_out : syscall.
Lemma framed_word va : framed (word (S := S) va).
Proof. unfold word. framed. Qed.
Lemma may_fault_rounds {A B} (step : A → sysM (S := S) (A + B)) n a : (∀ a, may_fault (step a)) → may_fault (rounds step n a).
Proof. intros Hs. revert a. induction n; intros a; cbn [rounds]; may_fault. Qed.
Lemma may_fault_loops {A B} (step : A → sysM (S := S) (A + B)) a : (∀ a, may_fault (step a)) → may_fault (loops step a).
Proof. intros Hs. unfold loops. apply may_fault_bind; [by apply may_fault_rounds|]. intros r. may_fault. Qed.
Lemma framed_rounds {A B} (step : A → sysM (S := S) (A + B)) n a : (∀ a, framed (step a)) → framed (rounds step n a).
Proof. intros Hs. revert a. induction n; intros a; cbn [rounds]; framed. Qed.
Lemma framed_loops {A B} (step : A → sysM (S := S) (A + B)) a : (∀ a, framed (step a)) → framed (loops step a).
Proof. intros Hs. unfold loops. apply framed_bind; [by apply framed_rounds|]. intros r. framed. Qed.
Lemma framed_ustring va : framed (ustring (S := S) va).
Proof. apply framed_loops. intros [a acc]. unfold string_step. framed. Qed.
Lemma may_fault_ustring va : may_fault (ustring (S := S) va).
Proof. apply may_fault_loops. intros [a acc]. unfold string_step. may_fault. Qed.
Lemma framed_kstrlen a : framed (kstrlen (S := S) init_ram_pages a).
Proof. apply framed_loops. intros [x n]. unfold kstrlen_step. framed. Qed.
Lemma framed_get_page va : framed (get_page (S := S) va).
Proof. unfold get_page. framed. Qed.
#[local] Hint Resolve may_fault_ustring framed_word framed_ustring framed_kstrlen framed_get_page : syscall.
Lemma framed_valid_addr va : framed (valid_addr (S := S) va).
Proof. unfold valid_addr. framed. Qed.
Lemma framed_valid_str va : framed (valid_str (S := S) init_ram_pages va).
Proof. unfold valid_str. framed. Qed.
Lemma framed_check m : framed m → framed (check (S := S) m).
Proof. intros Hm. unfold check, exit. framed. Qed.
Lemma framed_eax m : framed m → framed (eax (S := S) m).
Proof. intros Hm. unfold eax. framed. Qed.
#[local] Hint Resolve framed_valid_addr framed_valid_str framed_check framed_eax : syscall.

(** Every call but [open] and [close]. *)
Lemma quiet_read n buffer size : quiet (read (S := S) n buffer size).
Proof.
  unfold read, exit. case_match; [apply quiet_framed, framed_ret|]. apply quiet_bind; [quiet|]. intros e. case_match; [|quiet].
  apply quiet_locking; [framed|]. apply may_fault_bind; [auto with syscall|]. intros []. auto with syscall.
Qed.
Lemma framed_putbuf buffer size : framed (putbuf (S := S) buffer size).
Proof.
  unfold putbuf. apply framed_bind; [framed|]. intros _. apply framed_bind; [|framed].
  generalize (Z.to_nat size) as n. intros n. revert buffer. induction n; intros buffer; cbn [putbuf_loop]; framed.
Qed.
Lemma quiet_write n buffer size : quiet (write (S := S) n buffer size).
Proof.
  unfold write. case_match; [apply quiet_framed, framed_bind; [apply framed_putbuf|framed]|]. apply quiet_bind; [quiet|]. intros e.
  case_match; [|quiet]. apply quiet_locking; [framed|auto with syscall].
Qed.
Lemma framed_fd_file n : framed (fd_file (S := S) n).
Proof. unfold fd_file, exit. framed. Qed.
Lemma framed_fd_file_p n : framed (fd_file_p (S := S) n).
Proof. unfold fd_file_p. framed. Qed.
#[local] Hint Resolve quiet_read quiet_write framed_fd_file framed_fd_file_p : syscall.
Lemma framed_readdir n name : framed (readdir (S := S) n name).
Proof. unfold readdir. framed. Qed.
Lemma framed_chdir d : framed (chdir (S := S) malloc_ok d).
Proof. unfold chdir. framed. apply framed_mods. by intros p. Qed.
Lemma quiet_eax m : quiet m → quiet (eax (S := S) m).
Proof. intros Hm. unfold eax. quiet. Qed.
(** The calls that read a path with the lock held. *)
Lemma quiet_path {A} f (m : option Z → list Z → stM (fs S) A) :
  quiet (locking (path ← ustring f; d ← reads cwd; on_fs (m d path))).
Proof. apply quiet_locking; [framed|may_fault]. Qed.
#[local] Hint Resolve framed_readdir framed_chdir quiet_eax : syscall.
Lemma quiet_create f size : quiet (create (S := S) malloc_ok junk f size).
Proof. unfold create. case_match; [quiet|]. apply (quiet_path f (λ d path, _)). Qed.
Lemma quiet_remove f : quiet (remove (S := S) malloc_ok f).
Proof. unfold remove. case_match; [quiet|]. apply (quiet_path f (λ d path, _)). Qed.
Lemma quiet_mkdir f : quiet (mkdir (S := S) malloc_ok junk f).
Proof. unfold mkdir. apply (quiet_path f (λ d path, _)). Qed.
#[local] Hint Resolve quiet_create quiet_remove quiet_mkdir : syscall.

(** ** The table of open files *)

Record fds_ok p : Prop := {
  fo_nodup : NoDup (fd <$> list_files p);
  fo_range : Forall (λ e, 2 ≤ fd e ≤ fd_ct p) (list_files p);
  fo_ct : 1 ≤ fd_ct p;
}.

Lemma fds_ok_same p p' : list_files p' = list_files p → fd_ct p' = fd_ct p → fds_ok p → fds_ok p'.
Proof. intros H1 H2 [? ? ?]. split; rewrite ?H1, ?H2; done. Qed.

(** What a call may do to the table: nothing, add a new descriptor or take one
    out. *)
Inductive table_step (p p' : process (S := S)) : Prop :=
| ts_same : list_files p' = list_files p → fd_ct p' = fd_ct p → table_step p p'
| ts_open fp : list_files p' = mk_file_inst (i32 (fd_ct p + 1)) fp :: list_files p → fd_ct p' = i32 (fd_ct p + 1) → table_step p p'
| ts_close i : list_files p' = delete i (list_files p) → fd_ct p' = fd_ct p → table_step p p'.

Lemma table_step_ok p p' : table_step p p' → fds_ok p → fd_ct p < W31 - 1 → fds_ok p'.
Proof.
  intros Hs [Hn Hr Hc] Hlt. destruct Hs as [H1 H2|fp H1 H2|i H1 H2].
  - by eapply fds_ok_same.
  - rewrite i32_small in H1, H2 by (unfold in_i32; lia). split; rewrite ?H1, ?H2; [| |lia].
    + rewrite fmap_cons. apply NoDup_cons. split; [|done]. intros (e & He & Hin)%list_elem_of_fmap.
      eapply Forall_forall in Hr; [|done]. cbn in He. lia.
    + constructor; [cbn; lia|]. eapply Forall_impl; [done|]. cbn. lia.
  - split; rewrite ?H1, ?H2; [| |done].
    + eapply sublist_NoDup; [done|]. apply fmap_sublist, sublist_delete.
    + by apply Forall_delete.
Qed.

Definition steps {A} (m : sysM (S := S) A) : Prop :=
  ∀ p r p', m p = Ok (r, p') → table_step p p' ∧ (file_lock p' = file_lock p ∨ r = inl Faults).
Lemma steps_quiet {A} (m : sysM (S := S) A) : quiet m → steps m.
Proof. intros Hm p r p' (? & ? & ?)%Hm. split; [by apply ts_same|done]. Qed.
Lemma table_step_frame_l p p1 p' : list_files p1 = list_files p → fd_ct p1 = fd_ct p → table_step p1 p' → table_step p p'.
Proof. intros E1 E2 [H1 H2|fp H1 H2|i H1 H2]; [apply ts_same|eapply (ts_open _ _ fp)|eapply (ts_close _ _ i)]; congruence. Qed.
Lemma table_step_frame_r p p1 p' : table_step p p1 → list_files p' = list_files p1 → fd_ct p' = fd_ct p1 → table_step p p'.
Proof. intros [H1 H2|fp H1 H2|i H1 H2] E1 E2; [apply ts_same|eapply (ts_open _ _ fp)|eapply (ts_close _ _ i)]; congruence. Qed.
Lemma steps_bind {A B} (m : sysM (S := S) A) (f : A → sysM B) : quiet m → (∀ a, steps (f a)) → steps (m ≫= f).
Proof.
  intros Hm Hf p r p'. rewrite sysM_bind_eq. destruct (m p) as [[[e|a] p1]|] eqn:E; [| |done]; apply Hm in E as (E1 & E2 & E3).
  - intros [= <- <-]. split; [by apply ts_same|]. destruct E3 as [?|[= ->]]; auto.
  - destruct E3 as [E3|]; [|done]. intros [Hs Hl]%Hf. rewrite <- E3. split; [by eapply table_step_frame_l|done].
Qed.
Lemma steps_then {A B} (m : sysM (S := S) A) (f : A → sysM B) : steps m → (∀ a, quiet (f a)) → steps (m ≫= f).
Proof.
  intros Hm Hf p r p'. rewrite sysM_bind_eq. destruct (m p) as [[[e|a] p1]|] eqn:E; [| |done]; apply Hm in E as (E1 & E3).
  - intros [= <- <-]. split; [done|]. destruct E3 as [?|[= ->]]; auto.
  - destruct E3 as [E3|]; [|done]. intros (H1 & H2 & Hl)%Hf. rewrite <- E3. split; [by eapply table_step_frame_r|done].
Qed.

Lemma steps_open f : steps (open (S := S) malloc_ok f).
Proof.
  unfold open. apply steps_bind; [apply (quiet_path f (λ d path, _))|]. intros r. case_match; [|apply steps_quiet; quiet].
  apply steps_bind; [quiet|]. intros e. case_match; [|apply steps_quiet; quiet].
  intros p r' p'. unfold mods, reads. rewrite !sysM_bind_eq. intros [= _ <-]. split; [by eapply ts_open|by left].
Qed.
Lemma steps_close n : steps (close (S := S) n).
Proof.
  unfold close. case_match; [apply steps_quiet; quiet|]. apply steps_bind; [quiet|]. intros e.
  apply steps_bind; [quiet|]. intros _ p r p' [= _ <-]. split; [|by left]. destruct (list_find _ _) as [[i x]|] eqn:E.
  - by eapply (ts_close _ _ i).
  - by apply ts_same.
Qed.

Lemma steps_handler esp : steps (syscall_handler malloc_ok junk init_ram_pages (S := S) esp).
Proof.
  unfold syscall_handler. apply steps_bind; [quiet|]. intros _. apply steps_bind; [quiet|]. intros n.
  repeat (match goal with |- steps (if ?b then _ else _) => destruct b end;
    [try (apply steps_quiet; unfold halt, exit, exec, wait, seek, filesize, tell, isdir, inumber; quiet; fail)|]).
  - do 3 (apply steps_bind; [quiet|]; intros ?). destruct (negb _ || negb _); [apply steps_quiet, quiet_framed, framed_stops|].
    unfold eax. apply steps_then; [apply steps_open|]. intros ?. quiet.
  - do 2 (apply steps_bind; [quiet|]; intros ?). apply steps_then; [apply steps_close|]. intros ?. quiet.
  - apply steps_quiet, quiet_framed, framed_stops.
Qed.

(** A descriptor stands for the one entry that has its number. *)
Lemma locate_file_elem n p e : fds_ok p → locate_file n p = Some e ↔ e ∈ list_files p ∧ fd e = n.
Proof.
  intros [Hn _ _]. unfold locate_file. destruct (list_find _ _) as [[i x]|] eqn:E; cbn.
  - apply list_find_Some in E as (Hx & Hfd & _). split.
    + intros [= <-]. split; [|done]. by eapply list_elem_of_lookup_2.
    + intros ([j Hj]%list_elem_of_lookup_1 & Hfd'). f_equal. assert (i = j) as <-; [|congruence].
      eapply (NoDup_lookup (fd <$> list_files p) i j n); [done|rewrite list_lookup_fmap, Hx; cbn; congruence|].
      rewrite list_lookup_fmap, Hj. cbn. congruence.
  - apply list_find_None in E. split; [done|]. intros [Hin Hfd]. by eapply Forall_forall in E.
Qed.

Lemma table_step_locate p p' n e :
  table_step p p' → fds_ok p → fd_ct p < W31 - 1 → locate_file n p' = Some e → locate_file n p = Some e ∨ fd_ct p < n.
Proof.
  intros Hs Hok Hlt He. pose proof (table_step_ok _ _ Hs Hok Hlt) as Hok'.
  apply locate_file_elem in He as [Hin Hfd]; [|done]. destruct Hs as [H1 _|fp H1 H2|i H1 H2]; rewrite H1 in Hin.
  - left. by apply locate_file_elem.
  - apply elem_of_cons in Hin as [->|Hin]; [|left; by apply locate_file_elem]. right. cbn in Hfd. subst n.
    pose proof (fo_ct _ Hok). rewrite i32_small by (unfold in_i32; lia). lia.
  - left. apply locate_file_elem; [done|]. split; [|done]. eapply elem_of_submseteq; [done|]. apply sublist_submseteq, sublist_delete.
Qed.

(** C11: Whatever a program passes to a system call, as long as it has opened
    fewer than [2 ^ 31 - 2] files and no assertion of the file system fails:
    when the call ends, returning to the program or ending it, a page fault
    included, the table of open files is sound, with one entry for each
    descriptor and none for the console's two; every descriptor in use
    afterwards stood for the same file before, or is a new one beyond all that
    were ever given out; and the file lock is free, unless a page fault ended
    the process. *)
Theorem syscall_fd_table esp p r p' :
  fds_ok p → file_lock p = false → fd_ct p < W31 - 1 →
  syscall_handler malloc_ok junk init_ram_pages esp p = Ok (r, p') →
  fds_ok p' ∧ (file_lock p' = false ∨ r = inl Faults) ∧ fd_ct p ≤ fd_ct p' ≤ fd_ct p + 1 ∧
  ∀ n e, locate_file n p' = Some e → locate_file n p = Some e ∨ fd_ct p < n.
Proof.
  intros Hok Hl Hlt Hr. apply steps_handler in Hr as [Hs Hr]. rewrite Hl in Hr. split; [by eapply table_step_ok|]. split; [done|]. split.
  - pose proof (fo_ct _ Hok). destruct Hs as [_ ->|? _ ->|? _ ->]; rewrite ?i32_small by (unfold in_i32; lia); lia.
  - intros n e. by eapply table_step_locate.
Qed.

(** ** Bytes through descriptors *)

Lemma locking_run {A} (m : sysM (S := S) A) p a p1 :
  file_lock p = false → m (set_file_lock true p) = Ok (inr a, p1) → file_lock p1 = true →
  locking m p = Ok (inr a, set_file_lock false p1).
Proof.
  intros Hl Hm H1. unfold locking, lock_acquire, lock_release. rewrite !sysM_bind_eq. cbn [reads]. rewrite Hl. cbn [mods].
  rewrite sysM_bind_eq, Hm, !sysM_bind_eq. cbn [reads]. by rewrite H1.
Qed.

Lemma ubyte_range c pd pts sp va b : as_ok init_ram_pages c pd pts sp → ubyte c sp va = Some b → 0 ≤ va < PHYS_BASE ∧ in_u8 b.
Proof.
  intros Hok Hb. unfold ubyte in Hb. destruct (sp !! _) as [f|] eqn:Hf; [|done]. injection Hb as <-. split.
  - destruct (as_frame _ _ _ _ _ Hok _ _ Hf) as [Hr _]. unfold PHYS_BASE, PGSIZE in *. dlia.
  - apply (pd_bytes _ _ _ (as_pd _ _ _ _ _ Hok)).
Qed.

Lemma copy_in_spec bs va p pd pts sp :
  as_ok init_ram_pages (cpu p) pd pts sp → ubytes (cpu p) sp va bs →
  ∃ c', copy_in (length bs) va p = Ok (inr bs, set_cpu c' p) ∧ pal c' = pal (cpu p) ∧ as_ok init_ram_pages c' pd pts sp.
Proof.
  revert va p. induction bs as [|b bs IH]; intros va p Hok Hb.
  { exists (cpu p). split_and!; [|done..]. by destruct p. }
  assert (ubyte (cpu p) sp va = Some b) as Hva by (rewrite <- (Z.add_0_r va); by apply (Hb 0%nat)).
  destruct (ubyte_range _ _ _ _ _ _ Hok Hva) as [Hr _].
  destruct (user_load_spec init_ram_pages (cpu p) pd pts sp va b) as (c1 & Hl & Hp1 & Hok1); [done..|].
  destruct (IH (va + 1) (set_cpu c1 p)) as (c2 & H2 & Hp2 & Hok2); [done| |].
  { intros i x Hx. cbn [cpu set_cpu]. replace (va + 1 + Z.of_nat i) with (va + Z.of_nat (Datatypes.S i)) by lia.
    rewrite <- (Hb (Datatypes.S i) x Hx). unfold ubyte. by rewrite Hp1. }
  exists c2. split_and!; [|by rewrite Hp2|done].
  cbn [length copy_in]. unfold uload. rewrite u32_small by (unfold in_u32, PHYS_BASE in *; lia).
  erewrite sysM_bind_run by (unfold on_cpu; by rewrite Hl). erewrite sysM_bind_run by exact H2. done.
Qed.

Lemma copy_out_run bs va p pd pts sp :
  as_ok init_ram_pages (cpu p) pd pts sp → Forall in_u8 bs → 0 ≤ va → va + Z.of_nat (length bs) ≤ PHYS_BASE →
  (∀ i, (i < length bs)%nat → ∃ f, sp !! ((va + Z.of_nat i) / PGSIZE) = Some f ∧ f.2 = true) →
  ∃ c', copy_out va bs p = Ok (inr tt, set_cpu c' p) ∧ as_ok init_ram_pages c' pd pts sp ∧
    ∀ x, ubyte c' sp x = if decide (va ≤ x < va + Z.of_nat (length bs)) then bs !! Z.to_nat (x - va) else ubyte (cpu p) sp x.
Proof.
  intros Hok Hbs Hva0 He Hmap.
  destruct (UserMemory.copy_out_spec init_ram_pages bs (cpu p) pd pts sp va) as (c' & Hr & Hok' & _ & Hub); [done..|].
  exists c'. split_and!; [|done..]. clear Hub Hok' Hok Hmap Hbs. revert va p Hva0 He Hr.
  induction bs as [|b bs IH]; intros va p Hva0 He Hr; cbn [copy_out length] in *.
  { injection Hr as <-. by destruct p. }
  apply stM_bind_inv in Hr as ([] & c1 & H1 & H2). rewrite u32_small by (unfold in_u32, PHYS_BASE in *; lia).
  erewrite sysM_bind_run by (unfold on_cpu; by rewrite H1).
  rewrite (IH (va + 1) (set_cpu c1 p)) by (done || lia). done.
Qed.

(** The process, its descriptor [n] and the open file behind it. *)
Record fd_open p (n fp ip pos : Z) (dw : bool) : Prop := {
  od_fd : 2 ≤ n;
  od_entry : locate_file n p = Some (mk_file_inst n fp);
  od_file : files (fsys p) !! fp = Some (mk_file ip pos dw);
  od_pos : 0 ≤ pos;
  od_lock : file_lock p = false;
}.

Lemma write_spec_slice o b (c : list Z) : slice o (length b) (write_spec o b c) = b.
Proof. unfold write_spec. apply slice_splice_same. rewrite length_app, length_replicate. lia. Qed.

(** Which files are open where does not matter to an inode, as long as the free
    map's file is. *)
Lemma writable_set_files (st : fs S) fi ip ino F :
  (∀ x, free_map_file st = Some x → f_inode <$> F !! x = f_inode <$> files st !! x) →
  writable st fi ip ino → writable (set_files F st) fi ip ino.
Proof.
  intros HF [Hfm Hi Ho Hgr Hs Hd Hin Hdn Hpad Hdisk]. split; try done.
  - destruct Hfm as [H1 H2 H3 H4 (x & f & Hx & Hfx & Hif) H6 H7 H8 H9 H10]. split; try done.
    specialize (HF x Hx). rewrite Hfx in HF. apply fmap_Some in HF as (f' & Hf' & E).
    exists x, f'. cbn [free_map_file files set_files inodes]. by rewrite <- E.
  - intros x f Hx Hfx. specialize (HF x Hx). cbn [files set_files] in Hfx. rewrite Hfx in HF.
    symmetry in HF. apply fmap_Some in HF as (f' & Hf' & ->). by eapply Ho.
  - by destruct Hgr; split.
Qed.

Lemma write_run p pd pts sp fi ip ino n fp pos dw src bs :
  as_ok init_ram_pages (cpu p) pd pts sp → writable (fsys p) fi ip ino → fd_open p n fp ip pos dw → ubytes (cpu p) sp src bs →
  pos + Z.of_nat (length bs) ≤ MAX_FILE →
  (need (data ino) (Z.max (dlen (data ino)) (pos + Z.of_nat (length bs))) ≤ nfree (free_map (fsys p)))%nat →
  ∃ p' e, write n src (Z.of_nat (length bs)) p = Ok (inr (Z.of_nat (length bs)), p') ∧
    as_ok init_ram_pages (cpu p') pd pts sp ∧ pal (cpu p') = pal (cpu p) ∧ frame p p' ∧
    writable (fsys p') fi ip (set_data e ino) ∧ fd_open p' n fp ip (pos + Z.of_nat (length bs)) dw ∧
    dlen e = Z.max (dlen (data ino)) (pos + Z.of_nat (length bs)) ∧
    content (Inode.store (fsys p')) e = write_spec (Z.to_nat pos) bs (content (Inode.store (fsys p)) (data ino)).
Proof.
  intros Hok Hw [Hn He Hf Hpos Hl] Hsrc Hmax Hneed. unfold MAX_FILE, BLOCK_SECTOR_SIZE in Hmax.
  destruct (copy_in_spec bs src (set_file_lock true p) pd pts sp) as (c' & Hci & Hpal & Hok'); [done..|].
  destruct (inode_write_at_spec (fsys p) fi ip ino bs (Z.of_nat (length bs)) pos) as (st' & e & Hr & Hlen & Hx & Hc);
    [done|done|lia|lia|unfold MAX_FILE, BLOCK_SECTOR_SIZE; lia|done|].
  rewrite Nat2Z.id, firstn_all in Hc.
  set (st2 := set_files (alter (λ f, mk_file (f_inode f) (f_pos f + Z.of_nat (length bs)) (deny_write f)) fp (files st')) st').
  assert (file_write fp bs (Z.of_nat (length bs)) (fsys p) = Ok (Z.of_nat (length bs), st2)) as Hfw.
  { unfold file_write, get_file. erewrite stM_bind_run by (by rewrite Hf). cbn [f_inode f_pos].
    by erewrite stM_bind_run by exact Hr. }
  eexists _, e. split.
  - unfold write. rewrite (proj2 (Z.eqb_neq n _)) by (unfold STDOUT_FILENO; lia).
    erewrite sysM_bind_run by reflexivity. rewrite He. cbv beta iota. eapply locking_run; [done| |].
    + rewrite i32_small by (unfold in_i32; lia). rewrite Nat2Z.id. erewrite sysM_bind_run by exact Hci.
      unfold on_fs. cbn [fsys set_cpu set_file_lock file_p]. by rewrite Hfw.
    + done.
  - cbn [cpu fsys set_file_lock set_fsys set_cpu Inode.store st2 set_files]. destruct (ex_same _ _ _ _ _ _ Hx) as (Hfm & Hfs & _).
    split_and!; try done.
    + apply writable_set_files; [|apply Hx]. intros x _. destruct (decide (x = fp)) as [->|]; [rewrite lookup_alter_eq|by rewrite lookup_alter_ne].
      by destruct (files st' !! fp).
    + split; try done; [|lia]. cbn. rewrite Hfs, lookup_alter_eq, Hf. done.
Qed.

Lemma seek_run p n fp ip pos dw pos' :
  fd_open p n fp ip pos dw → 0 ≤ pos' < W31 →
  ∃ p', seek n pos' p = Ok (inr tt, p') ∧ cpu p' = cpu p ∧ frame p p' ∧ fd_open p' n fp ip pos' dw ∧
    fsys p' = set_files (alter (λ f, mk_file (f_inode f) pos' (deny_write f)) fp (files (fsys p))) (fsys p).
Proof.
  intros [Hn He Hf Hpos Hl] Hp'. unfold seek, fd_file. eexists. split.
  - erewrite sysM_bind_run by (erewrite sysM_bind_run by reflexivity; by rewrite He). eapply locking_run; [done| |].
    + unfold on_fs, file_seek, get_file. cbn [fsys set_file_lock file_p]. erewrite stM_bind_run by (by rewrite Hf).
      rewrite i32_small by (unfold in_i32; lia). rewrite (proj2 (Z.leb_le 0 pos')) by lia. by erewrite stM_bind_run by reflexivity.
    + done.
  - split_and!; try done. split; try done; [|lia]. cbn. by rewrite lookup_alter_eq, Hf.
Qed.

Lemma read_run p pd pts sp ip ino n fp pos dw dst size r :
  as_ok init_ram_pages (cpu p) pd pts sp → store_ok (Inode.store (fsys p)) → inodes (fsys p) !! ip = Some ino →
  wf_disk (Inode.store (fsys p)) (data ino) → fd_open p n fp ip pos dw → 0 ≤ size → pos + size < W31 →
  r = slice (Z.to_nat pos) (Z.to_nat size) (content (Inode.store (fsys p)) (data ino)) → Forall in_u8 r →
  0 ≤ dst → dst + Z.of_nat (length r) ≤ PHYS_BASE →
  (∀ i, (i < length r)%nat → ∃ f, sp !! ((dst + Z.of_nat i) / PGSIZE) = Some f ∧ f.2 = true) →
  ∃ p', read n dst size p = Ok (inr (Z.max 0 (Z.min size (dlen (data ino) - pos))), p') ∧
    as_ok init_ram_pages (cpu p') pd pts sp ∧ frame p p' ∧
    ∀ x, ubyte (cpu p') sp x = if decide (dst ≤ x < dst + Z.of_nat (length r)) then r !! Z.to_nat (x - dst) else ubyte (cpu p) sp x.
Proof.
  intros Hok Hst Hi Hwf [Hn He Hf Hpos Hl] Hs Hlt Hr Hr8 Hd He2 Hmap.
  destruct (inode_read_at_spec (fsys p) ip ino size pos) as (s' & Hra & _); [done..|]. rewrite <- Hr in Hra.
  set (cnt := Z.max 0 (Z.min size (dlen (data ino) - pos))) in *.
  set (st2 := set_files (alter (λ f, mk_file (f_inode f) (f_pos f + cnt) (deny_write f)) fp (files (fsys p))) (set_store s' (fsys p))).
  assert (file_read fp size (fsys p) = Ok ((cnt, r), st2)) as Hfr.
  { unfold file_read, get_file. erewrite stM_bind_run by (by rewrite Hf). cbn [f_inode f_pos].
    erewrite stM_bind_run by exact Hra. cbv beta iota. by erewrite stM_bind_run by reflexivity. }
  destruct (copy_out_run r dst (set_fsys st2 (set_file_lock true p)) pd pts sp) as (c' & Hco & Hok' & Hub); [done..|].
  eexists. split.
  - unfold read. rewrite (proj2 (Z.eqb_neq n 0)) by lia. erewrite sysM_bind_run by reflexivity. rewrite He. cbv beta iota.
    eapply locking_run; [done| |].
    + rewrite i32_small by (unfold in_i32; lia). erewrite sysM_bind_run by (unfold on_fs; cbn [fsys set_file_lock file_p]; by rewrite Hfr).
      cbv beta iota. by erewrite sysM_bind_run by exact Hco.
    + done.
  - by split_and!.
Qed.

(** C10: What a program writes through a descriptor is what it reads back.  The
    descriptor stands for an open file at position [pos]; the bytes [bs] are
    at [src] in the program's memory, and the pages at [dst] are writable.
    Then [write], [seek] back and [read] each return as asked for, the bytes
    at [dst] are [bs], every other byte of the program's memory is as it was,
    and the file is its old contents overwritten at [pos].  On the way the
    bytes pass the page tables, the inode, its growth, the free map and the
    sectors. *)
Theorem write_seek_read p pd pts sp fi ip ino n fp pos dw src dst bs :
  as_ok init_ram_pages (cpu p) pd pts sp → writable (fsys p) fi ip ino → fd_open p n fp ip pos dw →
  ubytes (cpu p) sp src bs → pos + Z.of_nat (length bs) ≤ MAX_FILE →
  (need (data ino) (Z.max (dlen (data ino)) (pos + Z.of_nat (length bs))) ≤ nfree (free_map (fsys p)))%nat →
  0 ≤ dst → dst + Z.of_nat (length bs) ≤ PHYS_BASE →
  (∀ i, (i < length bs)%nat → ∃ f, sp !! ((dst + Z.of_nat i) / PGSIZE) = Some f ∧ f.2 = true) →
  ∃ p1 p2 p3 e, let size := Z.of_nat (length bs) in
    write n src size p = Ok (inr size, p1) ∧ seek n pos p1 = Ok (inr tt, p2) ∧ read n dst size p2 = Ok (inr size, p3) ∧
    (∀ x, ubyte (cpu p3) sp x = if decide (dst ≤ x < dst + size) then bs !! Z.to_nat (x - dst) else ubyte (cpu p) sp x) ∧
    content (Inode.store (fsys p1)) e = write_spec (Z.to_nat pos) bs (content (Inode.store (fsys p)) (data ino)) ∧
    inodes (fsys p1) !! ip = Some (set_data e ino) ∧ frame p p3.
Proof.
  intros Hok Hw Hfd Hsrc Hmax Hneed Hd Hde Hmap. pose proof (od_pos _ _ _ _ _ _ Hfd) as Hpos.
  assert (Forall in_u8 bs) as Hbs.
  { apply Forall_lookup. intros i b Hib. by destruct (ubyte_range _ _ _ _ _ _ Hok (Hsrc i b Hib)). }
  destruct (write_run p pd pts sp fi ip ino n fp pos dw src bs) as (p1 & e & Hwr & Hok1 & Hpal & Hfr1 & Hw1 & Hfd1 & Hlen & Hc); [done..|].
  assert (pos < W31) as Hp31 by (unfold MAX_FILE, BLOCK_SECTOR_SIZE in Hmax; lia).
  destruct (seek_run p1 n fp ip _ dw pos Hfd1) as (p2 & Hsk & Hcpu & Hfr2 & Hfd2 & Hfs); [lia|].
  assert (slice (Z.to_nat pos) (Z.to_nat (Z.of_nat (length bs))) (content (Inode.store (fsys p2)) e) = bs) as Hsl.
  { rewrite Hfs. cbn [Inode.store set_files]. rewrite Hc, Nat2Z.id. apply write_spec_slice. }
  destruct (read_run p2 pd pts sp ip (set_data e ino) n fp pos dw dst (Z.of_nat (length bs)) bs) as (p3 & Hrd & _ & Hfr3 & Hub);
    try done; rewrite ?Hfs, ?Hcpu; cbn [Inode.store inodes set_files]; try done; try apply Hw1; try lia.
  { unfold MAX_FILE, BLOCK_SECTOR_SIZE in Hmax. lia. }
  exists p1, p2, p3, e. cbv zeta. split_and!; [done..| | |done|apply Hw1|].
  - rewrite Hrd. do 3 f_equal. cbn [data set_data]. lia.
  - intros x. rewrite Hub, Hcpu. case_decide; [done|]. unfold ubyte. by rewrite Hpal.
  - by etrans; [|etrans].
Qed.

(** ** Page faults with the lock held *)

Lemma copy_out_faults bs va p pd pts sp i :
  as_ok init_ram_pages (cpu p) pd pts sp → Forall in_u8 bs → 0 ≤ va → va + Z.of_nat (length bs) ≤ PHYS_BASE →
  (i < length bs)%nat → unwritable sp (va + Z.of_nat i) → ∃ c', copy_out va bs p = Ok (inl Faults, set_cpu c' p).
Proof.
  revert va p i. induction bs as [|b bs IH]; intros va p i Hok Hbs Hva0 He Hi Hu; cbn [length] in *; [lia|]. cbn [copy_out].
  rewrite u32_small by (unfold in_u32, PHYS_BASE in *; lia). apply Forall_cons in Hbs as [Hb Hbs].
  assert (unwritable sp va ∨ ∃ f, sp !! (va / PGSIZE) = Some f ∧ f.2 = true) as [Hv|(f & Hf & Hw)].
  { destruct (sp !! (va / PGSIZE)) as [[k []]|] eqn:Hf; [right; by eexists| |]; left; intros f; rewrite Hf; by intros [= <-]. }
  - exists (cpu p). rewrite sysM_bind_eq. unfold on_cpu.
    rewrite (user_store_faults init_ram_pages (cpu p) pd pts sp va b) by (done || lia). by destruct p.
  - destruct i as [|i]; [rewrite Z.add_0_r in Hu; specialize (Hu f Hf); congruence|].
    destruct (user_store_spec init_ram_pages (cpu p) pd pts sp va b f) as (c1 & Hs & Hok1 & _); [done|lia|done..|].
    erewrite sysM_bind_run by (unfold on_cpu; by rewrite Hs).
    destruct (IH (va + 1) (set_cpu c1 p) i) as (c' & Hr); [done|done|lia|lia|lia| |by exists c'].
    by replace (va + 1 + Z.of_nat i) with (va + Z.of_nat (Datatypes.S i)) by lia.
Qed.

(** C33: A program that reads a file into a buffer with a page that is not
    mapped or not writable takes the file lock with it: [file_read] faults
    while [read] holds the lock, the process ends, and nothing releases the
    lock, which every other process's file operation waits for. *)
Theorem fault_keeps_file_lock p pd pts sp ip ino n fp pos dw dst size i :
  as_ok init_ram_pages (cpu p) pd pts sp → store_ok (Inode.store (fsys p)) → inodes (fsys p) !! ip = Some ino →
  wf_disk (Inode.store (fsys p)) (data ino) → Forall in_u8 (content (Inode.store (fsys p)) (data ino)) →
  fd_open p n fp ip pos dw → pos + size < W31 →
  0 ≤ dst → dst + size ≤ PHYS_BASE →
  0 ≤ i < Z.min size (dlen (data ino) - pos) → unwritable sp (dst + i) →
  ∃ p', read n dst size p = Ok (inl Faults, p') ∧ file_lock p' = true ∧ list_files p' = list_files p.
Proof.
  intros Hok Hst Hi Hwf H8 [Hn He Hf Hpos Hl] Hlt Hd He2 Hi2 Hu.
  destruct (inode_read_at_spec (fsys p) ip ino size pos) as (s' & Hra & _); [done..|lia|lia|lia|].
  set (r := slice _ _ _) in Hra. set (cnt := Z.max 0 _) in Hra.
  set (st2 := set_files (alter (λ f, mk_file (f_inode f) (f_pos f + cnt) (deny_write f)) fp (files (fsys p))) (set_store s' (fsys p))).
  assert (file_read fp size (fsys p) = Ok ((cnt, r), st2)) as Hfr.
  { unfold file_read, get_file. erewrite stM_bind_run by (by rewrite Hf). cbn [f_inode f_pos].
    erewrite stM_bind_run by exact Hra. cbv beta iota. by erewrite stM_bind_run by reflexivity. }
  assert (length r = Z.to_nat (Z.min size (dlen (data ino) - pos))) as Hlr.
  { unfold r, slice. rewrite length_take, length_drop, length_content by done. lia. }
  destruct (copy_out_faults r dst (set_fsys st2 (set_file_lock true p)) pd pts sp (Z.to_nat i)) as (c' & Hco).
  - done.
  - by apply Forall_take, Forall_drop.
  - done.
  - rewrite Hlr. lia.
  - rewrite Hlr. lia.
  - by rewrite Z2Nat.id by lia.
  - exists (set_cpu c' (set_fsys st2 (set_file_lock true p))). split; [|done].
    unfold read. rewrite (proj2 (Z.eqb_neq n 0)) by lia. erewrite sysM_bind_run by reflexivity. rewrite He. cbv beta iota.
    unfold locking, lock_acquire. rewrite sysM_bind_eq. erewrite sysM_bind_run by reflexivity. rewrite Hl. cbn [mods].
    rewrite !sysM_bind_eq. rewrite i32_small by (unfold in_i32; lia). unfold on_fs. cbn [fsys set_file_lock file_p]. rewrite Hfr.
    cbv beta iota. by rewrite sysM_bind_eq, Hco.
Qed.

(** ** Arguments that are refused, and one that is not *)

(** [valid_addr] asks for a mapped page below the last word of user memory. *)
Lemma valid_addr_run p pts sp va :
  as_ok init_ram_pages (cpu p) (pagedir p) pts sp → 0 ≤ va →
  valid_addr va p = Ok (inr (bool_decide (va ≠ 0 ∧ va < 3221225468 ∧ is_Some (sp !! (va / PGSIZE)))), p).
Proof.
  intros Hok Hva. unfold valid_addr. destruct (Z.eqb_spec va 0) as [->|Hne].
  { by rewrite bool_decide_eq_false_2 by tauto. }
  destruct (Z.leb_spec 3221225468 va) as [Hge|Hlt].
  { rewrite orb_true_r. by rewrite bool_decide_eq_false_2 by lia. }
  assert (is_user_vaddr va = true) as -> by (apply Z.ltb_lt; unfold PHYS_BASE; lia). cbn [negb orb].
  destruct (as_get_page _ _ _ _ _ va Hok) as (r & Hr & H0' & _); [unfold PHYS_BASE; lia|].
  unfold get_page. erewrite sysM_bind_run
    by (erewrite sysM_bind_run by reflexivity; unfold on_cpu; rewrite Hr; reflexivity).
  assert (set_cpu (cpu p) p = p) as -> by (by destruct p). unfold mret, sysM_ret. do 3 f_equal.
  destruct (Z.eqb_spec r 0) as [E|E]; cbn [negb].
  - rewrite bool_decide_eq_false_2; [done|]. rewrite (proj1 H0' E). intros (_ & _ & [? ?]). done.
  - rewrite bool_decide_eq_true_2; [done|]. split_and!; [done..|]. destruct (sp !! (va / PGSIZE)) eqn:Es; [done|]. tauto.
Qed.

(** A system call with a stack pointer that is null, is not below the last
    word of user memory, or lies in a page that is not mapped ends the process
    with status [-1] and changes nothing: not the memory, not the file system,
    not the console, not the table of open files. *)
Lemma syscall_bad_stack p pts sp esp :
  as_ok init_ram_pages (cpu p) (pagedir p) pts sp → in_u32 esp →
  esp = 0 ∨ 3221225468 ≤ esp ∨ sp !! (esp / PGSIZE) = None →
  syscall_handler malloc_ok junk init_ram_pages esp p = Ok (inl (Exits (-1)), p).
Proof.
  intros Hok He Hbad. unfold syscall_handler, check. rewrite !sysM_bind_eq.
  rewrite (valid_addr_run p pts sp esp Hok) by apply He. rewrite bool_decide_eq_false_2; [done|].
  intros (Hne & Hlt & [f Hf]). destruct Hbad as [?|[?|?]]; [done|lia|congruence].
Qed.

(** The position passed to [seek] is not checked: one of [2 ^ 31] or more
    becomes a negative offset and fails the assertion in [file_seek], so that
    any program with an open file can stop the kernel. *)
Lemma seek_panics p n fp ip pos dw position :
  fd_open p n fp ip pos dw → W31 ≤ position < W32 → seek n position p = Err EAssert.
Proof.
  intros [Hn He Hf Hpos Hl] Hp. unfold seek, fd_file.
  erewrite sysM_bind_run by (erewrite sysM_bind_run by reflexivity; by rewrite He).
  unfold locked, locking, lock_acquire. rewrite !sysM_bind_eq. cbn [reads]. rewrite Hl. cbn [mods]. rewrite sysM_bind_eq.
  unfold on_fs, file_seek, get_file. cbn [fsys set_file_lock file_p]. erewrite stM_bind_run by (by rewrite Hf).
  assert (i32 position = position - W32) as -> by (unfold i32; dlia).
  by rewrite (proj2 (Z.leb_gt 0 (position - W32))) by lia.
Qed.

End spec.

(** ** A concrete process

    One page at 0x8048000 with the bytes "ABCDE" at its start, over the file
    system of FileContents.v, whose empty file is open as descriptor 2. *)

Definition sample_frame : Z := sample_pd + 65536.
Definition user_mem : memory :=
  store_word (sample_pd + 4 * 32) (sample_pt - PHYS_BASE + 7)
    (store_word (sample_pt + 4 * 72) (sample_frame - PHYS_BASE + 7)
       (λ a, if decide (sample_frame ≤ a < sample_frame + 5) then 65 + (a - sample_frame) else 0)).
Definition user_mmu : mmu :=
  mk_mmu (mk_palloc (mk_pool false (mk_bitmap 8 [3]) sample_pd) (mk_pool false (mk_bitmap 8 [1]) sample_frame) user_mem)
    (sample_pd - PHYS_BASE) ∅.
Definition user_space : space := {[ 32840 := (sample_frame, true) ]}.

Lemma user_pd_ok : pd_ok user_mmu sample_pd {[ 32 := sample_pt ]}.
Proof.
  split.
  - split; [split|split|]; try done.
    + split; [vm_compute; intuition discriminate|]. split; [done|]. repeat constructor; vm_compute; intuition discriminate.
    + split; [vm_compute; intuition discriminate|]. split; [done|]. repeat constructor; vm_compute; intuition discriminate.
  - do 2 apply store_bytes_ok. intros x. cbv beta. case_decide; unfold in_u8; lia.
  - vm_compute. discriminate.
  - apply sample_used. by left.
  - intros i pt [<- <-]%lookup_singleton_Some. split; [done|]. split; [apply sample_used; by right|done].
  - intros i j pt [<- _]%lookup_singleton_Some [<- _]%lookup_singleton_Some. done.
  - intros i Hi. destruct (decide (i = 32)) as [->|Hne]; [by vm_compute|].
    rewrite lookup_singleton_ne by done. cbn [pal user_mmu mem]. unfold user_mem.
    rewrite !mem_word_store_ne by (unfold sample_pt, PGSIZE; lia). apply mem_word_zero.
    intros x Hx. rewrite decide_False; [done|]. unfold sample_frame. lia.
  - intros i pt j [<- <-]%lookup_singleton_Some Hj. destruct (decide (j = 72)) as [->|Hne]; [by vm_compute|].
    cbn [pal user_mmu mem]. unfold user_mem. rewrite !mem_word_store_ne by (unfold sample_pt, PGSIZE; lia).
    rewrite mem_word_zero; [discriminate|]. intros x Hx. rewrite decide_False; [done|]. unfold sample_frame, sample_pt, PGSIZE in *. lia.
Qed.

Lemma user_as_ok : as_ok 1000 user_mmu sample_pd {[ 32 := sample_pt ]} user_space.
Proof.
  split.
  - exact user_pd_ok.
  - done.
  - vm_compute. discriminate.
  - intros va Hva. unfold user_space, pte_at. rewrite pd_no_div, pt_no_div. destruct (decide (va / PGSIZE = 32840)) as [E|Hne].
    + rewrite E, lookup_singleton_eq. unfold PGSIZE in E. replace (va / 4194304) with 32 by dlia. rewrite E.
      rewrite lookup_singleton_eq. by vm_compute.
    + rewrite (lookup_singleton_ne 32840) by done. destruct (decide (va / 4194304 = 32)) as [E|Hne2].
      * rewrite E, lookup_singleton_eq. cbn [pal user_mmu mem]. unfold user_mem.
        assert ((va / 4096) mod 1024 ≠ 72) by (unfold PGSIZE in Hne; dlia).
        pose proof (Z.mod_pos_bound (va / 4096) 1024 eq_refl).
        rewrite !mem_word_store_ne by (unfold sample_pt, PGSIZE; lia). rewrite mem_word_zero; [done|].
        intros x Hx. rewrite decide_False; [done|]. unfold sample_frame, sample_pt, PGSIZE in *. lia.
      * by rewrite lookup_singleton_ne by done.
  - unfold user_space. intros v f [<- <-]%lookup_singleton_Some. split; [vm_compute; intuition discriminate|].
    split; [exists 0; vm_compute; intuition discriminate|]. intros i Hi Hr. cbn [user_pool base pal user_mmu used_map fst] in *.
    unfold PGSIZE in Hr. assert (i = 0) as -> by lia. reflexivity.
  - unfold user_space. intros v v' f f' [<- _]%lookup_singleton_Some [<- _]%lookup_singleton_Some _. done.
  - intros v e Hv. change (tlb user_mmu) with (∅ : gmap Z Z) in Hv. by rewrite lookup_empty in Hv.
Qed.

Definition sample_process : process :=
  mk_process user_mmu (set_files (<[21 := mk_file 11 3 false]> (files (sample_fs 63 sample_abc))) (sample_fs 63 sample_abc))
    sample_pd [mk_file_inst 2 21] 2 None (Stdio.mk_console true false None 0 0 [] []) [] false.

Lemma sample_process_writable : writable (fsys sample_process) sample_fi 11 sample_ino.
Proof.
  apply writable_set_files; [|apply sample_writable; unfold sample_args; auto].
  intros x [= <-]. by rewrite lookup_insert_ne.
Qed.

(** "ABCDE" written at position 3 and read to the middle of the page. *)
Lemma write_seek_read_witness :
  ∃ p1 p2 p3, write 2 134512640 5 sample_process = Ok (inr 5, p1) ∧ seek 2 3 p1 = Ok (inr tt, p2) ∧
    read 2 134514688 5 p2 = Ok (inr 5, p3) ∧ ubyte (cpu p3) user_space 134514689 = Some 66.
Proof.
  destruct (write_seek_read 1000 sample_process sample_pd {[ 32 := sample_pt ]} user_space sample_fi 11 sample_ino 2 21 3 false
    134512640 134514688 [65; 66; 67; 68; 69]) as (p1 & p2 & p3 & e & H1 & H2 & H3 & Hub & _).
  - exact user_as_ok.
  - exact sample_process_writable.
  - split; [lia|reflexivity|reflexivity|lia|reflexivity].
  - intros i b Hi. do 5 (destruct i as [|i]; [injection Hi as <-; vm_compute; reflexivity|]). discriminate.
  - vm_compute. discriminate.
  - vm_compute. lia.
  - lia.
  - vm_compute. discriminate.
  - intros i Hi. exists (sample_frame, true). split; [|reflexivity]. cbn [length] in Hi.
    replace ((134514688 + Z.of_nat i) / PGSIZE) with 32840 by (unfold PGSIZE; dlia). reflexivity.
  - exists p1, p2, p3. split; [exact H1|]. split; [exact H2|]. split; [exact H3|]. rewrite Hub. reflexivity.
Defined.

(** The same process with the three bytes of another file open, reading them
    to the last two bytes of its page. *)
Definition sample_reader : process :=
  set_fsys (set_files (<[21 := mk_file 12 0 false]> (files (sample_fs 63 sample_abc))) (sample_fs 63 sample_abc)) sample_process.

Lemma fault_keeps_file_lock_witness :
  ∃ p', read 2 134516734 3 sample_reader = Ok (inl Faults, p') ∧ file_lock p' = true.
Proof.
  assert (writable (sample_fs 63 sample_abc) sample_fi 12 (sample_q sample_abc)) as Hw by (apply sample_writable; unfold sample_args; auto).
  destruct (fault_keeps_file_lock 1000 sample_reader sample_pd {[ 32 := sample_pt ]} user_space 12 (sample_q sample_abc) 2 21 0 false
    134516734 3 2) as (p' & H1 & H2 & _).
  - exact user_as_ok.
  - exact (fo_store _ _ (wr_fm _ _ _ _ Hw)).
  - reflexivity.
  - exact (gr_wf _ _ _ (wr_grow _ _ _ _ Hw)).
  - vm_compute. repeat constructor; discriminate.
  - split; [lia|reflexivity|reflexivity|lia|reflexivity].
  - lia.
  - lia.
  - vm_compute. discriminate.
  - cbn. lia.
  - intros f. vm_compute. discriminate.
  - exists p'. split; [exact H1|exact H2].
Defined.

(** System calls of that process, their arguments in the middle of its page. *)
Definition sample_call (args : list Z) : process :=
  let push m := fold_right (λ '(i, a) m, store_word (sample_frame + 2048 + 4 * Z.of_nat i) a m) m (imap pair args) in
  set_cpu (set_pal (set_mem push (pal user_mmu)) user_mmu) sample_reader.
Definition sample_run (args : list Z) : res ((stop + option Z) * process) :=
  syscall_handler (λ _, true) (λ _, []) 1000 134514688 (sample_call args).

(** Descriptor 2 is closed; and the read that faults, as a system call. *)
Lemma syscall_fd_table_witness :
  (∃ p', sample_run [SYS_CLOSE; 2] = Ok (inr None, p') ∧ fds_ok p' ∧ file_lock p' = false ∧ list_files p' = []) ∧
  (∃ p', sample_run [SYS_READ; 2; 134516734; 3] = Ok (inl Faults, p') ∧ fds_ok p' ∧ file_lock p' = true).
Proof.
  assert (∀ args, fds_ok (sample_call args)) as Hok by (intros args; split; [apply NoDup_singleton|repeat constructor; cbn; lia|cbn; lia]).
  split.
  - assert (match sample_run [SYS_CLOSE; 2] with Ok (inr None, p') => list_files p' = [] | _ => False end) as Hc by (vm_compute; reflexivity).
    destruct (sample_run [SYS_CLOSE; 2]) as [[[e|[v|]] p']|] eqn:E; try (exfalso; exact Hc).
    exists p'. split; [reflexivity|].
    destruct (syscall_fd_table (λ _, true) (λ _, []) 1000 134514688 (sample_call [SYS_CLOSE; 2]) (inr None) p') as (H1 & [H2|H2] & _);
      [apply Hok|reflexivity|cbn; lia|exact E| |discriminate]. split; [exact H1|]. split; [exact H2|exact Hc].
  - assert (match sample_run [SYS_READ; 2; 134516734; 3] with Ok (inl Faults, p') => file_lock p' = true | _ => False end) as Hc
      by (vm_compute; reflexivity).
    destruct (sample_run [SYS_READ; 2; 134516734; 3]) as [[[[]|v] p']|] eqn:E; try (exfalso; exact Hc).
    exists p'. split; [reflexivity|].
    destruct (syscall_fd_table (λ _, true) (λ _, []) 1000 134514688 (sample_call [SYS_READ; 2; 134516734; 3]) (inl Faults) p') as (H1 & _);
      [apply Hok|reflexivity|cbn; lia|exact E|]. split; [exact H1|exact Hc].
Defined.
