(* ===== verification/FsUtil.v ===== *)
(** * filesys/fsutil.c: files and archives from the kernel command line

    The memory is the one the console prints from; [buffer], [header] and
    [data] are the blocks that [malloc] or [palloc_get_page] returned, NULL for
    none, and [argv1] is the address of the file's name.  The file system is an
    interface; the one of Directory.v implements it.  The scratch device is a
    block device with any driver. *)

From Stdlib Require Import String Ascii.
From S2P Require Import Prelude CString Stdio Block Ustar Shell Palloc Process Cache Inode Directory Syscall ProcessFiles.

Module FsUtil.
Import CString Stdio Ustar.

Definition newline : string := String "010" "".

(** What fsutil.c calls of filesys.c, file.c and directory.c, beside what the
    loader does. *)
Class FileStore (F : Type) := {
  #[global] store_files :: Process.Files F;
  filesys_create : list Z → Z → Z → stM F bool;
  filesys_remove : list Z → stM F bool;
  file_write : Z → list Z → Z → stM F Z;
  file_tell : Z → stM F Z;
  dir_open_root : stM F (option Z);
  dir_readdir : Z → stM F (option (list Z));
  dir_close : option Z → stM F unit;
}.

(** The C string at an address, for calls that take a name. *)
Definition name_at (m : mem) (p : Z) : res (list Z) := n ← strlen m p; read_chars (Z.to_nat n) m p.
Fixpoint store_bytes (m : mem) (a : Z) (bs : list Z) : res mem :=
  match bs with [] => Ok m | c :: bs => m ← poke m a c; store_bytes m (a + 1) bs end.

Section fsutil.
Context {F : Type} `{FileStore F} {D : Type} `{BlockOps D} (ro : rodata).

(** [extract_sector] and [append_sector] are the static variables of the two
    functions; [scratch] is the device with the role BLOCK_SCRATCH. *)
Record util := mk_util { con : console; fsys : F; scratch : option (Block.block D); extract_sector : Z; append_sector : Z }.
Abbreviation uM := (stM util).

Definition on_con {A} (m : stM console A) : uM A := λ s,
  '(a, c) ← m (con s); Ok (a, mk_util c (fsys s) (scratch s) (extract_sector s) (append_sector s)).
Definition on_fs {A} (m : stM F A) : uM A := λ s,
  '(a, f) ← m (fsys s); Ok (a, mk_util (con s) f (scratch s) (extract_sector s) (append_sector s)).
Definition on_scratch {A} (m : Block.block D → res (A * Block.block D)) : uM A := λ s,
  b ← deref (scratch s); '(a, b) ← m b; Ok (a, mk_util (con s) (fsys s) (Some b) (extract_sector s) (append_sector s)).
Definition set_extract (n : Z) : uM unit := smod (λ s, mk_util (con s) (fsys s) (scratch s) n (append_sector s)).
Definition set_append (n : Z) : uM unit := smod (λ s, mk_util (con s) (fsys s) (scratch s) (extract_sector s) n).

Definition say (w : string) : uM unit := on_con (Shell.say w).
Definition print_name (w : string) (p : Z) : uM unit := on_con (_ ← printf (Shell.text w ++ [0]) [p]; mret tt).
Definition reads {A} (f : mem → res A) : uM A := on_con (query f).
Definition writes {A} (f : mem → res (A * mem)) : uM A := on_con (on_mem f).
Definition stores (a : Z) (bs : list Z) : uM unit := writes (λ m, m ← store_bytes m a bs; Ok (tt, m)).
Definition panic_if (b : bool) : uM unit := if b then serr EPanic else mret tt.

(** [block_read (scratch, sector, a)] and [block_write (scratch, sector, a)] *)
Definition block_read (sector a : Z) : uM unit :=
  l ← on_scratch (λ b, Block.block_read b sector); stores a l.
Definition block_write (sector a : Z) : uM unit :=
  l ← reads (λ m, read_chars SECTOR_BYTES m a);
  on_scratch (λ b, b ← Block.block_write b sector l; Ok (tt, b)).

(** ** ls, cat, rm *)

Fixpoint ls_loop (fuel : nat) (dir name : Z) : uM unit :=
  match fuel with
  | O => serr EFuel
  | S fuel =>
      r ← on_fs (dir_readdir dir);
      match r with
      | None => mret tt
      | Some nm => stores name (Syscall.name_bytes nm);; print_name ("%s" ++ newline) name;; ls_loop fuel dir name
      end
  end.
Definition fsutil_ls (fuel : nat) (name : Z) : uM unit :=
  say ("Files in the root directory:" ++ newline);;
  dir ← on_fs dir_open_root;
  match dir with
  | None => serr EPanic
  | Some dir => ls_loop fuel dir name;; on_fs (dir_close (Some dir));; say ("End of listing." ++ newline)
  end.

Fixpoint cat_loop (fuel : nat) (file buffer : Z) : uM unit :=
  match fuel with
  | O => serr EFuel
  | S fuel =>
      pos ← on_fs (file_tell file);
      '(n, bs) ← on_fs (Process.file_read file Palloc.PGSIZE);
      stores buffer bs;;
      if n =? 0 then mret tt else on_con (hex_dump pos buffer n true);; cat_loop fuel file buffer
  end.
Definition fsutil_cat (fuel : nat) (argv1 buffer : Z) : uM unit :=
  print_name ("Printing '%s' to the console..." ++ newline) argv1;;
  nm ← reads (λ m, name_at m argv1);
  file ← on_fs (Process.filesys_open nm);
  match file with
  | None => serr EPanic
  | Some file =>
      panic_if (buffer =? NULL);;
      cat_loop fuel file buffer;;
      on_fs (Process.file_close (Some file))
  end.

Definition fsutil_rm (argv1 : Z) : uM unit :=
  print_name ("Deleting '%s'..." ++ newline) argv1;;
  nm ← reads (λ m, name_at m argv1);
  ok ← on_fs (filesys_remove nm);
  panic_if (negb ok).

(** ** extract *)

Definition chunk_of (size : Z) : Z := if BLOCK_SECTOR_SIZE <? size then BLOCK_SECTOR_SIZE else size.
(** Enough turns of a loop that takes a chunk from [size] in each. *)
Definition turns (size : Z) : nat := S (Z.to_nat (size / BLOCK_SECTOR_SIZE)).

(** [block_read (src, sector++, a)] *)
Definition read_next (a : Z) : uM unit :=
  n ← sread extract_sector; set_extract (u32 (n + 1));; block_read n a.

Fixpoint extract_copy (n : nat) (dst data size : Z) : uM unit :=
  if 0 <? size then
    match n with
    | O => serr EFuel
    | S n =>
        let chunk_size := chunk_of size in
        read_next data;;
        bs ← reads (λ m, read_chars (Z.to_nat chunk_size) m data);
        w ← on_fs (file_write dst bs chunk_size);
        panic_if (negb (w =? chunk_size));;
        extract_copy n dst data (size - chunk_size)
    end
  else mret tt.

Definition extract_file (file_name size data : Z) : uM unit :=
  print_name ("Putting '%s' into the file system..." ++ newline) file_name;;
  nm ← reads (λ m, name_at m file_name);
  ok ← on_fs (filesys_create nm size 0);
  panic_if (negb ok);;
  dst ← on_fs (Process.filesys_open nm);
  match dst with
  | None => serr EPanic
  | Some dst => extract_copy (turns size) dst data size;; on_fs (Process.file_close (Some dst))
  end.

(** A turn moves at least one sector on. *)
Fixpoint extract_loop (fuel : nat) (header data : Z) : uM unit :=
  match fuel with
  | O => serr EFuel
  | S fuel =>
      read_next header;;
      r ← reads (λ m, ustar_parse_header ro m header);
      match r with
      | Bad _ => serr EPanic
      | Good file_name USTAR_EOF _ => mret tt
      | Good file_name USTAR_DIRECTORY _ => print_name ("ignoring directory %s" ++ newline) file_name;; extract_loop fuel header data
      | Good file_name USTAR_REGULAR size => extract_file file_name size data;; extract_loop fuel header data
      end
  end.

Definition fsutil_extract (header data : Z) : uM unit :=
  panic_if ((header =? NULL) || (data =? NULL));;
  src ← sread scratch;
  match src with
  | None => serr EPanic
  | Some b =>
      say ("Extracting ustar archive from scratch device into file system..." ++ newline);;
      extract_loop (S (Z.to_nat (Block.block_size b))) header data;;
      say ("Erasing ustar archive..." ++ newline);;
      _ ← writes (λ m, memset m header 0 BLOCK_SECTOR_SIZE);
      block_write 0 header;;
      block_write 1 header
  end.

(** ** append *)

(** [block_write (dst, sector++, a)] *)
Definition write_next (a : Z) : uM unit :=
  n ← sread append_sector; set_append (u32 (n + 1));; block_write n a.

Fixpoint append_copy (n : nat) (src buffer size : Z) : uM unit :=
  if 0 <? size then
    match n with
    | O => serr EFuel
    | S n =>
        let chunk_size := chunk_of size in
        sector ← sread append_sector;
        limit ← on_scratch (λ b, Ok (Block.block_size b, b));
        panic_if (limit <=? sector);;
        '(k, bs) ← on_fs (Process.file_read src chunk_size);
        stores buffer bs;;
        panic_if (negb (k =? chunk_size));;
        _ ← writes (λ m, memset m (buffer + chunk_size) 0 (BLOCK_SECTOR_SIZE - chunk_size));
        write_next buffer;;
        append_copy n src buffer (size - chunk_size)
    end
  else mret tt.

Definition fsutil_append (argv1 buffer : Z) : uM unit :=
  print_name ("Appending '%s' to ustar archive on scratch device..." ++ newline) argv1;;
  panic_if (buffer =? NULL);;
  nm ← reads (λ m, name_at m argv1);
  src ← on_fs (Process.filesys_open nm);
  match src with
  | None => serr EPanic
  | Some src =>
      size ← on_fs (Process.file_length src);
      dst ← sread scratch;
      panic_if (match dst with None => true | Some _ => false end);;
      ok ← on_con (ustar_make_header ro argv1 USTAR_REGULAR size buffer);
      panic_if (negb ok);;
      write_next buffer;;
      append_copy (turns size) src buffer size;;
      _ ← writes (λ m, memset m buffer 0 BLOCK_SECTOR_SIZE);
      sector ← sread append_sector;
      block_write sector buffer;;
      block_write sector (buffer + 1);;
      on_fs (Process.file_close (Some src))
  end.
End fsutil.

(** The file system of Directory.v, as the kernel starts with it: no working
    directory. *)
Definition fs_store {S : Type} `{SectorStore S} (malloc_ok : nat → bool) (junk : nat → list Z) (cwd : option Z) : FileStore (fs S) := {|
  store_files := fs_files malloc_ok cwd;
  filesys_create := Directory.filesys_create malloc_ok junk cwd;
  filesys_remove := Directory.filesys_remove malloc_ok cwd;
  file_write := Inode.file_write;
  file_tell := Inode.file_tell;
  dir_open_root := Directory.dir_open_root malloc_ok;
  dir_readdir := Directory.dir_readdir;
  dir_close := Directory.dir_close;
|}.

End FsUtil.
