(* ===== verification/FsUtilSpec.v ===== *)
(** * Archives on the scratch device

    Appending a file to the archive and extracting it again: the sectors that
    are written, and what the extraction does with them, as operations of the
    file system. *)

From Stdlib Require Import String Ascii.
From S2P Require Import Prelude CString Stdio StdioSpec Block Ustar UstarSpec Shell ShellSpec BootSpec Palloc Process LoadSpec FsUtil.
Import CString Stdio Ustar FsUtil.

(** ** Memory *)

Lemma read_chars_slice n m (a : nat) : (a + n ≤ length m)%nat → read_chars n m (Z.of_nat a) = Ok (slice a n m).
Proof.
  revert a. induction n as [|n IH]; intros a Ha; cbn [read_chars]; [done|].
  destruct (lookup_lt_is_Some_2 m a) as [c Hc]; [lia|]. rewrite (load_of_nat _ _ _ Hc). cbn [mbind res_bind].
  replace (Z.of_nat a + 1) with (Z.of_nat (S a)) by lia. rewrite IH by lia. cbn [mbind res_bind]. by rewrite (slice_cons m a n c).
Qed.

Lemma store_bytes_splice m (a : nat) bs : (a + length bs ≤ length m)%nat → Forall in_u8 bs → store_bytes m (Z.of_nat a) bs = Ok (splice a bs m).
Proof.
  revert m a. induction bs as [|c bs IH]; intros m a Ha Hb; cbn [store_bytes]; [by rewrite splice_nil|].
  apply Forall_cons in Hb as [Hc Hb]. cbn [length] in Ha. rewrite poke_of_nat by (done || lia). cbn [mbind res_bind].
  replace (Z.of_nat a + 1) with (Z.of_nat (S a)) by lia. rewrite IH by (rewrite ?length_insert; done || lia).
  by rewrite insert_splice_front by lia.
Qed.

Lemma name_at_cstr m p nm : cstr m p nm → name_at m p = Ok nm.
Proof. intros Hn. unfold name_at. rewrite (strlen_spec _ _ _ Hn). cbn [mbind res_bind]. rewrite Nat2Z.id. by apply cstr_chars. Qed.

Definition set_mem (m : mem) (c : console) : console :=
  mk_console (use_console_lock c) (in_intr c) (lock_depth c) (write_cnt c) (char_cnt c) m (out c).

(** Formats with one name. *)
Ltac render_concrete :=
  intros Hp Hf;
  repeat match goal with |- context [Shell.text ?w] => let v := eval vm_compute in (Shell.text w) in change (Shell.text w) with v end;
  unfold render; cbn -[u32 has clear string_text]; rewrite (u32_small _ Hp), Hf; cbn -[u32 has clear string_text];
  unfold string_text; cbn -[has clear]; rewrite ?(proj2 (Z.ltb_ge (Z.of_nat (length _)) 0)) by lia; cbn; by rewrite ?app_nil_r.

Definition putting : string := "Putting '%s' into the file system..." ++ newline.
Definition appending : string := "Appending '%s' to ustar archive on scratch device..." ++ newline.

Lemma render_putting f p w :
  in_u32 p → f p (-1) = Ok w → render f (Shell.text putting ++ [0]) [p] = Ok (Shell.text "Putting '" ++ w ++ Shell.text ("' into the file system..." ++ newline)).
Proof. render_concrete. Qed.
Lemma render_appending f p w :
  in_u32 p → f p (-1) = Ok w →
  render f (Shell.text appending ++ [0]) [p] = Ok (Shell.text "Appending '" ++ w ++ Shell.text ("' to ustar archive on scratch device..." ++ newline)).
Proof. render_concrete. Qed.

(** ** What an archive holds *)

Abbreviation HB := HEADER_BYTES.
Fixpoint pieces (n : nat) (bs : list Z) : list (list Z) :=
  match n, bs with S n, _ :: _ => take SECTOR_BYTES bs :: pieces n (drop SECTOR_BYTES bs) | _, _ => [] end.
(** The contents of a file in sectors, the last one cut. *)
Definition sectors_of (bs : list Z) : list (list Z) := pieces (turns (Z.of_nat (length bs))) bs.
Definition padded (x : list Z) : list Z := x ++ replicate (SECTOR_BYTES - length x) 0.

Lemma pieces_step n bs : bs ≠ [] → pieces (S n) bs = take SECTOR_BYTES bs :: pieces n (drop SECTOR_BYTES bs).
Proof. by destruct bs. Qed.
Lemma pieces_nil n : pieces n [] = [].
Proof. by destruct n. Qed.

Lemma concat_pieces n bs : (length bs ≤ n * SECTOR_BYTES)%nat → concat (pieces n bs) = bs.
Proof.
  revert bs. induction n as [|n IH]; intros [|c bs] Hl; [done|simpl in Hl; lia|done|]. rewrite pieces_step by done. cbn [concat].
  rewrite IH by (rewrite length_drop; lia). apply take_drop.
Qed.
Lemma pieces_short n bs x : x ∈ pieces n bs → (length x ≤ SECTOR_BYTES)%nat.
Proof.
  revert bs. induction n as [|n IH]; intros [|c bs] Hx; try (by apply elem_of_nil in Hx). rewrite pieces_step in Hx by done.
  apply elem_of_cons in Hx as [->|Hx]; [rewrite length_take; lia|by eapply IH].
Qed.
Lemma turns_enough (bs : list Z) : (length bs ≤ turns (Z.of_nat (length bs)) * SECTOR_BYTES)%nat.
Proof. unfold turns, BLOCK_SECTOR_SIZE, SECTOR_BYTES. dlia. Qed.

Lemma padded_ok x : (length x ≤ SECTOR_BYTES)%nat → Forall in_u8 x → header_ok (padded x).
Proof.
  intros Hl Hx. unfold header_ok, padded. rewrite length_app, length_replicate. split; [unfold HEADER_BYTES, SECTOR_BYTES in *; lia|].
  apply Forall_app. split; [done|]. apply Forall_replicate. unfold in_u8. lia.
Qed.

Section spec.
Context {F : Type} `{FileStore F} {D : Type} `{BlockLaws D} (ro : rodata).
Implicit Types (c : console) (f : F) (b : Block.block D) (m : mem).

Definition stored (A : D) (e : Z) (l : list (list Z)) : Prop := ∀ i x, l !! i = Some x → op_read A (e + Z.of_nat i) = x.
Definition dev_is b (A : D) (n : Z) : Prop := Block.aux b = A ∧ Block.size b = n ∧ Block.type b ≠ Block.BLOCK_FOREIGN.

(** ** The steps *)

Lemma on_con_run {A} (m : stM console A) c f d e k a c' :
  m c = Ok (a, c') → on_con m (mk_util c f d e k) = Ok (a, mk_util (D:=D) c' f d e k).
Proof. intros Hm. unfold on_con. cbn [con]. by rewrite Hm. Qed.
Lemma on_files_run {A} (m : stM F A) c f d e k a f' :
  m f = Ok (a, f') → on_fs m (mk_util c f d e k) = Ok (a, mk_util (D:=D) c f' d e k).
Proof. intros Hm. unfold on_fs. cbn [fsys]. by rewrite Hm. Qed.

(** Printing keeps what the rest depends on. *)
Definition alike c c' : Prop := cmem c' = cmem c ∧ depth_ok c'.

Lemma say_util_run w c f d e k :
  sayable w = true → depth_ok c → ∃ c', say w (mk_util c f d e k) = Ok (tt, mk_util (D:=D) c' f d e k) ∧ alike c c'.
Proof.
  intros Hw Hd. destruct (ShellSpec.say_run w c Hw Hd) as (c' & Hc & Hs). exists c'. split; [by apply on_con_run|].
  split; [apply Hs|by eapply depth_shown].
Qed.
Lemma print_name_run w p t c f d e k :
  depth_ok c → Forall in_u8 t → Z.of_nat (length t) < W31 → render (string_arg (cmem c)) (Shell.text w ++ [0]) [p] = Ok t →
  ∃ c', print_name w p (mk_util c f d e k) = Ok (tt, mk_util (D:=D) c' f d e k) ∧ alike c c'.
Proof.
  intros Hd Ht Hl Hr. destruct (printf_shows _ _ t c Hd Ht Hl Hr) as (n & c' & Hp & Hs). exists c'. split.
  - apply on_con_run. by rewrite (stM_bind_run _ _ _ _ _ Hp).
  - split; [apply Hs|by eapply depth_shown].
Qed.

Lemma reads_run {A} (g : mem → res A) c f d e k a :
  g (cmem c) = Ok a → reads g (mk_util c f d e k) = Ok (a, mk_util (D:=D) c f d e k).
Proof. intros Hg. apply on_con_run. unfold query. by rewrite Hg. Qed.
Lemma writes_run {A} (g : mem → res (A * mem)) c f d e k a m :
  g (cmem c) = Ok (a, m) → writes g (mk_util c f d e k) = Ok (a, mk_util (D:=D) (set_mem m c) f d e k).
Proof. intros Hg. apply on_con_run. unfold on_mem. by rewrite Hg. Qed.

Lemma stores_run (a : nat) bs c f d e k :
  (a + length bs ≤ length (cmem c))%nat → Forall in_u8 bs →
  stores (Z.of_nat a) bs (mk_util c f d e k) = Ok (tt, mk_util (D:=D) (set_mem (splice a bs (cmem c)) c) f d e k).
Proof. intros Ha Hb. unfold stores. apply writes_run. by rewrite store_bytes_splice. Qed.

Lemma block_read_run sec (a : nat) c f b e k A n :
  dev_is b A n → 0 ≤ sec < n → (a + HB ≤ length (cmem c))%nat → Forall in_u8 (op_read A sec) →
  ∃ b', block_read sec (Z.of_nat a) (mk_util c f (Some b) e k) =
      Ok (tt, mk_util (set_mem (put (cmem c) a (op_read A sec)) c) f (Some b') e k) ∧ dev_is b' A n.
Proof.
  intros (<- & <- & Ht) Hs Ha Hu. eexists. unfold block_read. rewrite stM_bind_eq. unfold on_scratch. cbn [scratch deref mbind res_bind].
  rewrite Block.block_read_ok by done. cbn [mbind res_bind con fsys extract_sector append_sector]. split.
  - unfold stores. apply writes_run. rewrite store_bytes_splice; [done| |done]. rewrite op_read_length. done.
  - done.
Qed.

Lemma block_write_run sec (a : nat) c f b e k A n :
  dev_is b A n → 0 ≤ sec < n → (a + HB ≤ length (cmem c))%nat →
  ∃ b', block_write sec (Z.of_nat a) (mk_util c f (Some b) e k) = Ok (tt, mk_util c f (Some b') e k) ∧
    dev_is b' (op_write A sec (slice a HB (cmem c))) n.
Proof.
  intros (<- & <- & Ht) Hs Ha. eexists. unfold block_write.
  rewrite (stM_bind_run _ _ _ _ _ (reads_run _ c f (Some b) e k _ (read_chars_slice SECTOR_BYTES (cmem c) a Ha))).
  unfold on_scratch. cbn [scratch deref mbind res_bind]. rewrite Block.block_write_ok by done. cbn [mbind res_bind con fsys extract_sector append_sector]. done.
Qed.

(** [r] does what [m] does on the file system [f], error for error. *)
Definition follows {A} (m : stM F A) f (r : res (A * util (F:=F) (D:=D))) (P : A → F → util (F:=F) (D:=D) → Prop) : Prop :=
  match m f with Err x => r = Err x | Ok (a, f') => ∃ u, r = Ok (a, u) ∧ P a f' u end.

Lemma follows_bind {A B} (m : stM F A) (g : A → stM F B) f p (q : A → stM (util (F:=F) (D:=D)) B) u P Q :
  follows m f (p u) P → (∀ a f' u', P a f' u' → follows (g a) f' (q a u') Q) → follows (m ≫= g) f ((p ≫= q) u) Q.
Proof.
  unfold follows. intros Hm Hg. rewrite !stM_bind_eq. destruct (m f) as [[a f']|x]; [|by rewrite Hm].
  destruct Hm as (u' & -> & HP). by apply Hg.
Qed.
Lemma follows_fs {A} (m : stM F A) c f d e k : follows m f (on_fs m (mk_util c f d e k)) (λ _ f' u, u = mk_util c f' d e k).
Proof. unfold follows, on_fs. cbn [fsys]. destruct (m f) as [[a f']|x]; [|done]. by eexists. Qed.
Definition fail_if (bb : bool) : stM F unit := if bb then serr EPanic else mret tt.
Lemma follows_panic bb f u :
  follows (fail_if bb) f (panic_if bb u) (λ _ f' u', f' = f ∧ u' = u).
Proof. unfold follows, fail_if, panic_if. destruct bb; [done|]. by eexists. Qed.


Lemma fits_print nm pre post : Forall in_u8 nm → Z.of_nat (length nm) < 65536 → Forall in_u8 pre → Forall in_u8 post → Z.of_nat (length pre + length post) < 1000 →
  Forall in_u8 (pre ++ nm ++ post) ∧ Z.of_nat (length (pre ++ nm ++ post)) < W31.
Proof. intros. split; [by repeat (apply Forall_app; split)|]. rewrite !length_app. lia. Qed.

(** A file with its contents, as the extraction makes it. *)
Fixpoint write_pieces (d : Z) (l : list (list Z)) : stM F unit :=
  match l with
  | [] => mret tt
  | x :: l => w ← file_write d x (Z.of_nat (length x)); fail_if (negb (w =? Z.of_nat (length x)));; write_pieces d l
  end.
Definition put_file (nm bs : list Z) : stM F unit :=
  ok ← filesys_create nm (Z.of_nat (length bs)) 0;
  fail_if (negb ok);;
  d ← Process.filesys_open nm;
  match d with None => serr EPanic | Some d => write_pieces d (sectors_of bs);; Process.file_close (Some d) end.

Lemma put_length' m a x : (a + HB ≤ length m)%nat → header_ok x → length (put m a x) = length m.
Proof. intros Ha [Hl _]. unfold put. rewrite length_splice; [done|]. rewrite Hl. done. Qed.
Lemma put_u8' m a x : Forall in_u8 m → header_ok x → Forall in_u8 (put m a x).
Proof. intros Hm [_ Hx]. by apply Forall_splice. Qed.

Section extract.
Context (header data : nat) (n : Z) (Hn : n < W32).

Record mem_ok m : Prop := {
  mo_u8 : Forall in_u8 m; mo_header : (0 < header)%nat ∧ (header + HB ≤ length m)%nat; mo_data : (0 < data)%nat ∧ (data + HB ≤ length m)%nat;
  mo_apart : (header + HB ≤ data ∨ data + HB ≤ header)%nat; mo_size : Z.of_nat (length m) < W32;
  mo_roh : rodata_ok m header ro; mo_rod : rodata_ok m data ro }.

Lemma literal_put' m a h x p s : (0 < a)%nat → (a + HB ≤ length m)%nat → header_ok x → literal m a p s → literal m h p s → literal (put m a x) h p s.
Proof. intros Ha0 Ha Hx [Hc Ho] [_ Ho']. split; [by apply cstr_put|done]. Qed.
Lemma rodata_put' m a h x : (0 < a)%nat → (a + HB ≤ length m)%nat → header_ok x → rodata_ok m a ro → rodata_ok m h ro → rodata_ok (put m a x) h ro.
Proof. intros Ha0 Ha Hx [] []. split; by apply literal_put'. Qed.

Lemma mem_ok_put m a x : mem_ok m → a = header ∨ a = data → header_ok x → mem_ok (put m a x).
Proof.
  intros [Hu [Hh0 Hh] [Hd0 Hd] Hap Hsz Hroh Hrod] Ha Hx.
  assert (a + HB ≤ length m)%nat as Hal by (destruct Ha as [-> | ->]; done).
  split; try done; rewrite ?put_length' by done; [by apply put_u8'|done|done|done|apply rodata_put'..]; destruct Ha as [-> | ->]; done.
Qed.

(** The state between two steps of the extraction. *)
Definition ext_ok c b (A : D) : Prop := mem_ok (cmem c) ∧ depth_ok c ∧ dev_is b A n.

Lemma read_next_run (a : nat) c f b e k A x :
  ext_ok c b A → a = header ∨ a = data → 0 ≤ e < n → op_read A e = x → Forall in_u8 x →
  ∃ b', read_next (Z.of_nat a) (mk_util c f (Some b) e k) = Ok (tt, mk_util (set_mem (put (cmem c) a x) c) f (Some b') (e + 1) k) ∧
    ext_ok (set_mem (put (cmem c) a x) c) b' A.
Proof.
  intros (Hm & Hd & Hb) Ha He <- Hx. unfold read_next. rewrite stM_bind_eq. cbn [sread extract_sector]. rewrite stM_bind_eq.
  cbn [set_extract smod con fsys scratch append_sector]. rewrite u32_small by (unfold in_u32; lia).
  destruct (block_read_run e a c f b (e + 1) k A n Hb He) as (b' & -> & Hb'); [destruct Ha as [-> | ->]; apply Hm|done|].
  exists b'. split; [done|]. split_and!; [|done|done]. cbn [set_mem cmem]. apply mem_ok_put; [done|done|]. split; [|done].
  rewrite op_read_length. done.
Qed.

Lemma piece_slice m (a : nat) x :
  (0 < a)%nat → (a + HB ≤ length m)%nat → (length x ≤ SECTOR_BYTES)%nat → Forall in_u8 x → slice a (length x) (put m a (padded x)) = x.
Proof.
  intros Ha0 Ha Hl Hx. pose proof (slice_put m a Ha0 Ha (padded x) 0 (length x) (padded_ok x Hl Hx) Hl) as Hs.
  rewrite Nat.add_0_r in Hs. rewrite Hs. unfold padded. rewrite slice_app_l by lia. by apply slice_full.
Qed.

Lemma extract_copy_spec nn bs c f b e k d A :
  ext_ok c b A → (length bs ≤ nn * SECTOR_BYTES)%nat → Forall in_u8 bs → 0 ≤ e → e + Z.of_nat (length (pieces nn bs)) ≤ n →
  stored A e (map padded (pieces nn bs)) →
  follows (write_pieces d (pieces nn bs)) f (extract_copy nn d (Z.of_nat data) (Z.of_nat (length bs)) (mk_util c f (Some b) e k))
    (λ _ f' u, ∃ c' b', u = mk_util c' f' (Some b') (e + Z.of_nat (length (pieces nn bs))) k ∧ ext_ok c' b' A).
Proof.
  revert bs c f b e. induction nn as [|nn IH]; intros bs c f b e Hok Hl Hu He Hroom Hst.
  { destruct bs; [|simpl in Hl; lia]. cbn. rewrite Z.add_0_r. eauto 6. }
  destruct (decide (bs = [])) as [->|Hne]. { cbn. rewrite Z.add_0_r. eauto 6. }
  rewrite pieces_step in * by done. set (x := take SECTOR_BYTES bs) in *. set (r := drop SECTOR_BYTES bs) in *.
  assert (Z.of_nat (length x) = chunk_of (Z.of_nat (length bs))) as Hx.
  { unfold x, chunk_of. rewrite length_take. unfold BLOCK_SECTOR_SIZE, SECTOR_BYTES. destruct (Z.ltb_spec 512 (Z.of_nat (length bs))); lia. }
  assert (Z.of_nat (length r) = Z.of_nat (length bs) - chunk_of (Z.of_nat (length bs))) as Hr.
  { rewrite <- Hx. unfold x, r. rewrite length_take, length_drop. lia. }
  assert (length x ≤ SECTOR_BYTES)%nat as Hxl by (unfold x; rewrite length_take; lia).
  assert (Forall in_u8 x) as Hxu by (by apply Forall_take). assert (Forall in_u8 r) as Hru by (by apply Forall_drop).
  cbn [extract_copy write_pieces]. assert (0 < length bs)%nat by (destruct bs; [done|simpl; lia]). rewrite (proj2 (Z.ltb_lt 0 _)) by lia.
  cbn [length] in Hroom.
  destruct (read_next_run data c f b e k A (padded x) Hok) as (b1 & Hrd & Hok1); [by right|lia| |apply padded_ok; done|].
  { specialize (Hst 0%nat (padded x) eq_refl). by rewrite Z.add_0_r in Hst. }
  rewrite (stM_bind_run _ _ _ _ _ Hrd). pose proof Hok as (Hm & _ & _). pose proof (mo_data _ Hm) as [Hd0 Hd].
  rewrite <- Hx, Nat2Z.id.
  assert (read_chars (length x) (cmem (set_mem (put (cmem c) data (padded x)) c)) (Z.of_nat data) = Ok x) as Hrc.
  { cbn [set_mem cmem]. pose proof (padded_ok x Hxl Hxu). rewrite read_chars_slice; [by rewrite piece_slice|].
    rewrite put_length' by done. unfold HEADER_BYTES, SECTOR_BYTES in *. lia. }
  rewrite (stM_bind_run _ _ _ _ _ (reads_run (λ m, read_chars (length x) m (Z.of_nat data)) _ f (Some b1) (e + 1) k x Hrc)).
  eapply follows_bind; [apply follows_fs|]. cbv beta. intros w f1 u ->.
  eapply follows_bind; [apply follows_panic|]. cbv beta. intros [] f' u' [-> ->].
  rewrite Hx, <- Hr. replace (e + Z.of_nat (length (x :: pieces nn r))) with (e + 1 + Z.of_nat (length (pieces nn r))) by (cbn [length]; lia).
  apply IH; [done|unfold r; rewrite length_drop; lia|done|lia|lia|].
  intros i y Hi. specialize (Hst (S i) y Hi). rewrite <- Hst. f_equal. lia.
Qed.

Lemma extract_file_spec p nm bs c f b e k A :
  ext_ok c b A → cstr (cmem c) p nm → (length nm ≤ 99)%nat → Forall in_u8 bs → 0 ≤ e → e + Z.of_nat (length (sectors_of bs)) ≤ n →
  stored A e (map padded (sectors_of bs)) →
  follows (put_file nm bs) f (extract_file p (Z.of_nat (length bs)) (Z.of_nat data) (mk_util c f (Some b) e k))
    (λ _ f' u, ∃ c' b', u = mk_util c' f' (Some b') (e + Z.of_nat (length (sectors_of bs))) k ∧ ext_ok c' b' A).
Proof.
  intros Hok Hp Hnl Hu He Hroom Hst. pose proof Hok as (Hm & Hd & Hb). pose proof (mo_u8 _ Hm) as Hm8.
  pose proof (cstr_u8 _ Hm8 _ _ Hp) as Hn8. pose proof (cstr_walk _ _ _ Hp) as [_ Hpw]. pose proof Hp as (Hp0 & _). pose proof (mo_size _ Hm).
  assert (in_u32 p) as Hp32 by (unfold in_u32; lia).
  destruct (fits_print nm (Shell.text "Putting '") (Shell.text ("' into the file system..." ++ newline))) as [Ht8 Htl]; [done|lia|by vm_compute; repeat constructor|by vm_compute; repeat constructor|by vm_compute|].
  unfold extract_file, put_file.
  destruct (print_name_run putting p _ c f (Some b) e k Hd Ht8 Htl) as (c1 & Hc1 & Hm1 & Hd1); [apply render_putting; [done|apply string_arg_cstr; [done|lia]]|].
  fold putting. rewrite (stM_bind_run _ _ _ _ _ Hc1).
  rewrite (stM_bind_run _ _ _ _ _ (reads_run (λ m, name_at m p) c1 f (Some b) e k nm ltac:(rewrite Hm1; by apply name_at_cstr))).
  eapply follows_bind; [apply follows_fs|]. cbv beta. intros ok f1 u ->.
  eapply follows_bind; [apply follows_panic|]. cbv beta. intros [] f' u' [-> ->].
  eapply follows_bind; [apply follows_fs|]. cbv beta. intros [dst|] f2 u ->; [|done].
  eapply follows_bind; [apply (extract_copy_spec _ _ _ _ _ _ _ dst A)|]; [|apply turns_enough|done|done|done|done|].
  { split_and!; [by rewrite Hm1|done|done]. }
  cbv beta. intros [] f3 u (c' & b' & -> & Hok').
  unfold follows, on_fs. cbn [fsys]. destruct (Process.file_close (Some dst) f3) as [[[] f4]|]; [|done].
  eexists. split; [done|]. eauto.
Qed.

(** An archive at sector [e]: the names and contents of its files. *)
Fixpoint archive_at (A : D) (e : Z) (es : list (list Z * list Z)) : Prop :=
  match es with
  | [] => True
  | (nm, bs) :: es =>
      describes (op_read A e) nm USTAR_REGULAR (Z.of_nat (length bs)) ∧ stored A (e + 1) (map padded (sectors_of bs)) ∧
      archive_at A (e + 1 + Z.of_nat (length (sectors_of bs))) es
  end.
Definition archive_size (es : list (list Z * list Z)) : Z := foldr (λ x z, 1 + Z.of_nat (length (sectors_of x.2)) + z) 0 es.
Definition fits_archive (x : list Z * list Z) : Prop := (length x.1 ≤ 99)%nat ∧ Forall in_u8 x.2.

Fixpoint put_files (es : list (list Z * list Z)) : stM F unit :=
  match es with [] => mret tt | (nm, bs) :: es => put_file nm bs;; put_files es end.

Lemma archive_size_nonneg es : Z.of_nat (length es) ≤ archive_size es.
Proof. induction es; cbn [archive_size foldr length]; [done|]. fold (archive_size es). lia. Qed.

(** The sector behind the files: zeros end the archive, and anything else
    without the magic number is an error. *)
Lemma extract_mark_spec fuel c f b e k A :
  ext_ok c b A → 0 ≤ e < n → header_ok (op_read A e) → slice 257 6 (op_read A e) ≠ [117; 115; 116; 97; 114; 0] →
  follows (fail_if (negb (bool_decide (op_read A e = replicate HB 0)))) f
    (extract_loop ro (S fuel) (Z.of_nat header) (Z.of_nat data) (mk_util c f (Some b) e k))
    (λ _ f' u, ∃ c' b', u = mk_util c' f' (Some b') (e + 1) k ∧ ext_ok c' b' A).
Proof.
  intros Hok He Hx Hmag. cbn [extract_loop]. destruct (read_next_run header c f b e k A (op_read A e) Hok) as (b1 & Hrd & Hok1); [by left|done|done|apply Hx|].
  rewrite (stM_bind_run _ _ _ _ _ Hrd). set (x := op_read A e) in *. pose proof Hok as (Hm & _ & _). pose proof (mo_header _ Hm) as [Hh0 Hh].
  pose proof (slice_put (cmem c) header Hh0 Hh x 0 HB Hx ltac:(done)) as Hsl. rewrite Nat.add_0_r, (slice_full x) in Hsl by (symmetry; apply Hx).
  assert (∃ r, ustar_parse_header ro (put (cmem c) header x) (Z.of_nat header) = Ok r ∧
    if bool_decide (x = replicate HB 0) then r = Good NULL USTAR_EOF 0 else r = Bad NotUstar) as (r & Hr & Hres).
  { clearbody x. unfold ustar_parse_header. rewrite is_all_zeros_spec by (rewrite put_length' by done; done). rewrite Hsl. cbn [mbind res_bind].
    destruct (bool_decide (x = replicate HB 0)); [eauto|].
    destruct (magic_spec (cmem c) header ro Hh0 Hh (mo_roh _ Hm) x Hx) as (r & Hmc & Hr). rewrite Hmc. cbn [mbind res_bind].
    rewrite (proj2 (Z.eqb_neq r 0)) by (intros Hz; by apply Hmag, Hr). cbn [negb]. eauto. }
  rewrite (stM_bind_run _ _ _ _ _ (reads_run (λ m, ustar_parse_header ro m (Z.of_nat header)) (set_mem (put (cmem c) header x) c) f (Some b1) (e + 1) k r Hr)).
  destruct (bool_decide (x = replicate HB 0)); subst r; cbn [negb]; unfold follows, fail_if; [|done]. cbn. eauto 6.
Qed.

Lemma extract_loop_spec es fuel c f b e k A :
  ext_ok c b A → 0 ≤ e → Forall fits_archive es → archive_at A e es → e + archive_size es < n → (length es < fuel)%nat →
  let mark := op_read A (e + archive_size es) in
  header_ok mark → slice 257 6 mark ≠ [117; 115; 116; 97; 114; 0] →
  follows (put_files es;; fail_if (negb (bool_decide (mark = replicate HB 0)))) f
    (extract_loop ro fuel (Z.of_nat header) (Z.of_nat data) (mk_util c f (Some b) e k))
    (λ _ f' u, ∃ c' b', u = mk_util c' f' (Some b') (e + archive_size es + 1) k ∧ ext_ok c' b' A).
Proof.
  revert fuel c f b e. induction es as [|[nm bs] es IH]; intros [|fuel] c f b e Hok He Hfit Har Hroom Hfuel mark Hmk Hmag; try (simpl in Hfuel; lia).
  { unfold mark in *. cbn [archive_size foldr] in *. rewrite Z.add_0_r in *. by apply extract_mark_spec. }
  cbn [archive_at] in Har. destruct Har as (Hdesc & Hst & Har). apply Forall_cons in Hfit as [[Hnl Hbu] Hfit]. cbn [fst snd] in *.
  assert (archive_size ((nm, bs) :: es) = 1 + Z.of_nat (length (sectors_of bs)) + archive_size es) as Hsz by done.
  pose proof (archive_size_nonneg es). pose proof Hdesc as [Hx Hparse]. cbn [extract_loop put_files length] in *.
  destruct (read_next_run header c f b e k A (op_read A e) Hok) as (b1 & Hrd & Hok1); [by left|lia|done|apply Hx|].
  rewrite (stM_bind_run _ _ _ _ _ Hrd). pose proof Hok as (Hm & _ & _). pose proof (mo_header _ Hm) as [Hh0 Hh].
  destruct (Hparse ro (cmem c) header (mo_u8 _ Hm) Hh0 Hh (mo_roh _ Hm)) as (p & Hp & Hpn). rewrite decide_True in Hp by done.
  rewrite (stM_bind_run _ _ _ _ _ (reads_run (λ m, ustar_parse_header ro m (Z.of_nat header)) (set_mem (put (cmem c) header (op_read A e)) c) f (Some b1) (e + 1) k _ Hp)). cbv beta iota.
  assert (∀ g h : stM F unit, ((put_file nm bs;; g);; h) f = (put_file nm bs;; (g;; h)) f) as Has
    by (intros; rewrite !stM_bind_eq; destruct (put_file nm bs f) as [[]|]; [by rewrite stM_bind_eq|done]).
  unfold follows. rewrite Has. eapply follows_bind; [apply (extract_file_spec p nm bs _ _ _ _ k A Hok1)|]; [done|done|done|lia|lia|done|].
  cbv beta. intros [] f' u (c' & b' & -> & Hok').
  replace (e + archive_size ((nm, bs) :: es) + 1) with (e + 1 + Z.of_nat (length (sectors_of bs)) + archive_size es + 1) by lia.
  assert (mark = op_read A (e + 1 + Z.of_nat (length (sectors_of bs)) + archive_size es)) as -> by (unfold mark; f_equal; lia).
  apply IH; (done || lia).
Qed.

Lemma erase_run c f b e k A :
  ext_ok c b A → 2 ≤ n →
  ∃ c' b', ((_ ← writes (λ m, memset m (Z.of_nat header) 0 BLOCK_SECTOR_SIZE); block_write 0 (Z.of_nat header);; block_write 1 (Z.of_nat header)) (mk_util c f (Some b) e k)) =
      Ok (tt, mk_util c' f (Some b') e k) ∧ ext_ok c' b' (op_write (op_write A 0 (replicate HB 0)) 1 (replicate HB 0)).
Proof.
  intros (Hm & Hd & Hb) Hn2. pose proof (mo_header _ Hm) as [Hh0 Hh].
  pose proof (clear_header (cmem c) header Hh0 Hh) as Hcl. change USTAR_HEADER_SIZE with BLOCK_SECTOR_SIZE in Hcl.
  rewrite (stM_bind_run _ _ _ _ _ (writes_run (λ m, memset m (Z.of_nat header) 0 BLOCK_SECTOR_SIZE) c f (Some b) e k _ _ Hcl)).
  set (c1 := set_mem _ c). assert (mem_ok (cmem c1)) as Hm1 by (apply mem_ok_put; [done|by left|apply zero_ok]).
  pose proof (mo_header _ Hm1) as [_ Hh1].
  assert (slice header HB (cmem c1) = replicate HB 0) as Hz.
  { pose proof (slice_put (cmem c) header Hh0 Hh _ 0 HB zero_ok ltac:(done)) as Hsl. rewrite Nat.add_0_r in Hsl. unfold c1. cbn [set_mem cmem]. rewrite Hsl.
    apply slice_full. by rewrite length_replicate. }
  destruct (block_write_run 0 header c1 f b e k A n Hb ltac:(lia) Hh1) as (b1 & Hw1 & Hb1). rewrite Hz in Hb1. rewrite (stM_bind_run _ _ _ _ _ Hw1).
  destruct (block_write_run 1 header c1 f b1 e k _ n Hb1 ltac:(lia) Hh1) as (b2 & Hw2 & Hb2). rewrite Hz in Hb2. rewrite Hw2.
  exists c1, b2. split; [done|]. by split_and!.
Qed.

Definition erased (A : D) : D := op_write (op_write A 0 (replicate HB 0)) 1 (replicate HB 0).

Lemma fsutil_extract_spec es c f b e k A :
  ext_ok c b A → 0 ≤ e → Forall fits_archive es → archive_at A e es → e + archive_size es < n → 2 ≤ n →
  let mark := op_read A (e + archive_size es) in
  header_ok mark → slice 257 6 mark ≠ [117; 115; 116; 97; 114; 0] →
  follows (put_files es;; fail_if (negb (bool_decide (mark = replicate HB 0)))) f
    (fsutil_extract ro (Z.of_nat header) (Z.of_nat data) (mk_util c f (Some b) e k))
    (λ _ f' u, ∃ c' b', u = mk_util c' f' (Some b') (e + archive_size es + 1) k ∧ ext_ok c' b' (erased A)).
Proof.
  intros Hok He Hfit Har Hroom Hn2 mark Hmk Hmag. pose proof Hok as (Hm & Hd & Hb & Hs & _).
  pose proof (mo_header _ Hm) as [Hh0 _]. pose proof (mo_data _ Hm) as [Hd0 _]. unfold fsutil_extract, NULL.
  rewrite (proj2 (Z.eqb_neq (Z.of_nat header) 0)), (proj2 (Z.eqb_neq (Z.of_nat data) 0)) by lia. rewrite stM_bind_eq. cbn [orb panic_if mret stM_ret].
  rewrite stM_bind_eq. cbn [sread scratch].
  destruct (say_util_run ("Extracting ustar archive from scratch device into file system..." ++ newline) c f (Some b) e k) as (c1 & Hc1 & Hm1 & Hd1);
    [by vm_compute|done|]. rewrite (stM_bind_run _ _ _ _ _ Hc1).
  assert (ext_ok c1 b A) as Hok1 by (split_and!; [by rewrite Hm1|done|apply Hok..]).
  pose proof (extract_loop_spec es (S (Z.to_nat (Block.block_size b))) c1 f b e k A Hok1 He Hfit Har Hroom) as Hloop.
  pose proof (archive_size_nonneg es). unfold Block.block_size in *. specialize (Hloop ltac:(lia) Hmk Hmag). fold mark in Hloop.
  unfold follows in *. destruct ((put_files es;; fail_if (negb (bool_decide (mark = replicate HB 0)))) f) as [[[] f']|x].
  2: { rewrite stM_bind_eq. by rewrite Hloop. }
  destruct Hloop as (u & Hu & c2 & b2 & -> & Hok2). rewrite (stM_bind_run _ _ _ _ _ Hu).
  pose proof Hok2 as (Hm2 & Hd2 & Hb2).
  destruct (say_util_run ("Erasing ustar archive..." ++ newline) c2 f' (Some b2) (e + archive_size es + 1) k) as (c3 & Hc3 & Hm3 & Hd3); [by vm_compute|done|].
  rewrite (stM_bind_run _ _ _ _ _ Hc3).
  destruct (erase_run c3 f' b2 (e + archive_size es + 1) k A) as (c4 & b4 & Hr & Hok4); [split_and!; [by rewrite Hm3|done|apply Hb2..]|done|].
  rewrite Hr. eauto 8.
Qed.
End extract.

(** ** Appending *)

Fixpoint write_list (A : D) (k : Z) (l : list (list Z)) : D :=
  match l with [] => A | x :: l => write_list (op_write A k x) (k + 1) l end.

Lemma write_list_other l A k s : s < k ∨ k + Z.of_nat (length l) ≤ s → op_read (write_list A k l) s = op_read A s.
Proof.
  revert A k. induction l as [|x l IH]; intros A k Hs; [done|]. cbn [write_list length] in *. rewrite IH by lia. apply op_read_write_ne. lia.
Qed.
Lemma write_list_stored l A k : Forall (λ x, length x = SECTOR_BYTES) l → stored (write_list A k l) k l.
Proof.
  revert A k. induction l as [|x l IH]; intros A k Hl [|i] y Hi; try done; cbn [write_list].
  - injection Hi as <-. rewrite Z.add_0_r, write_list_other by lia. apply op_read_write. by apply Forall_cons in Hl as [? _].
  - apply Forall_cons in Hl as [_ Hl]. specialize (IH (op_write A k x) (k + 1) Hl i y Hi). rewrite <- IH. f_equal. lia.
Qed.
Lemma stored_ext A A' e l : (∀ s, e ≤ s < e + Z.of_nat (length l) → op_read A' s = op_read A s) → stored A e l → stored A' e l.
Proof. intros Hs Hl i x Hi. rewrite Hs; [by apply Hl|]. apply lookup_lt_Some in Hi. lia. Qed.
Lemma archive_at_ext es A A' e : (∀ s, e ≤ s < e + archive_size es → op_read A' s = op_read A s) → archive_at A e es → archive_at A' e es.
Proof.
  revert e. induction es as [|[nm bs] es IH]; intros e Hs Har; [done|]. destruct Har as (Hd & Hst & Har).
  assert (archive_size ((nm, bs) :: es) = 1 + Z.of_nat (length (sectors_of bs)) + archive_size es) as Hsz by done.
  pose proof (archive_size_nonneg es). split_and!.
  - rewrite Hs by lia. done.
  - eapply stored_ext; [|exact Hst]. rewrite length_map. intros s ?. apply Hs. lia.
  - apply IH; [|done]. intros s ?. apply Hs. lia.
Qed.
Lemma archive_at_snoc es A e nm bs :
  archive_at A e (es ++ [(nm, bs)]) ↔ archive_at A e es ∧ archive_at A (e + archive_size es) [(nm, bs)].
Proof.
  revert e. induction es as [|[nm' bs'] es IH]; intros e.
  { cbn [app archive_size foldr]. rewrite Z.add_0_r. cbn. tauto. }
  cbn [app archive_at]. rewrite IH. cbn [archive_at].
  replace (e + archive_size ((nm', bs') :: es)) with (e + 1 + Z.of_nat (length (sectors_of bs')) + archive_size es); [tauto|].
  cbn [archive_size foldr snd]. fold (archive_size es). lia.
Qed.
Lemma archive_size_snoc es nm bs : archive_size (es ++ [(nm, bs)]) = archive_size es + 1 + Z.of_nat (length (sectors_of bs)).
Proof. induction es as [|x es IH]; cbn [app archive_size foldr snd] in *; [lia|]. fold (archive_size es) (archive_size (es ++ [(nm, bs)])) in *. lia. Qed.

Section append.
Context `{!FilesLaws F} (buffer : nat) (n next : Z) (Hn : n < W32).

(** The state between two steps; [next] is the byte behind the buffer. *)
Record app_ok c b (A : D) : Prop := {
  ao_u8 : Forall in_u8 (cmem c); ao_buffer : (0 < buffer)%nat; ao_next : cmem c !! (buffer + HB)%nat = Some next;
  ao_depth : depth_ok c; ao_dev : dev_is b A n }.

Lemma ao_room c b A : app_ok c b A → (buffer + HB < length (cmem c))%nat.
Proof. intros Hok. by apply (lookup_lt_Some _ _ next), (ao_next _ _ _ Hok). Qed.
Lemma app_ok_put c b A x : app_ok c b A → header_ok x → app_ok (set_mem (put (cmem c) buffer x) c) b A.
Proof.
  intros Hok Hx. pose proof (ao_room _ _ _ Hok). pose proof Hok as [Hu Hb Hnx Hd Hdev]. split; cbn [set_mem cmem]; try done.
  - by apply put_u8'.
  - unfold put. destruct Hx as [Hl _]. rewrite lookup_splice_r by (rewrite ?Hl; lia). done.
Qed.
Lemma app_ok_write c b A x b' sec : app_ok c b A → dev_is b' (op_write A sec x) n → app_ok c b' (op_write A sec x).
Proof. by intros [] ?. Qed.

Lemma slice_buffer m x : (0 < buffer)%nat → (buffer + HB ≤ length m)%nat → header_ok x → slice buffer HB (put m buffer x) = x.
Proof.
  intros H0' Hl Hx. pose proof (slice_put m buffer H0' Hl x 0 HB Hx ltac:(done)) as Hs. rewrite Nat.add_0_r in Hs. rewrite Hs.
  apply slice_full. symmetry. apply Hx.
Qed.

Lemma write_next_run c f b e k A x :
  app_ok c b A → 0 ≤ k < n → slice buffer HB (cmem c) = x →
  ∃ b', write_next (Z.of_nat buffer) (mk_util c f (Some b) e k) = Ok (tt, mk_util c f (Some b') e (k + 1)) ∧ app_ok c b' (op_write A k x).
Proof.
  intros Hok Hk <-. pose proof (ao_room _ _ _ Hok). unfold write_next. rewrite stM_bind_eq. cbn [sread append_sector]. rewrite stM_bind_eq.
  cbn [set_append smod con fsys scratch extract_sector]. rewrite u32_small by (unfold in_u32; lia).
  destruct (block_write_run k buffer c f b e (k + 1) A n (ao_dev _ _ _ Hok) Hk) as (b' & -> & Hb'); [lia|].
  exists b'. split; [done|]. by eapply app_ok_write.
Qed.

(** A chunk and zeros in the buffer. *)
Lemma fill_buffer_run m x :
  (0 < buffer)%nat → (buffer + HB ≤ length m)%nat → (length x ≤ SECTOR_BYTES)%nat →
  memset (splice buffer x m) (Z.of_nat buffer + Z.of_nat (length x)) 0 (BLOCK_SECTOR_SIZE - Z.of_nat (length x)) =
    Ok (Z.of_nat (buffer + length x), put m buffer (padded x)).
Proof.
  intros H0' Hl Hx. rewrite <- Nat2Z.inj_add. unfold memset, valid, NULL. rewrite (proj2 (Z.eqb_neq _ 0)) by lia. cbn [negb orb assert mbind res_bind].
  unfold HEADER_BYTES, SECTOR_BYTES, BLOCK_SECTOR_SIZE in *.
  replace (Z.to_nat (512 - Z.of_nat (length x))) with (512 - length x)%nat by lia.
  rewrite (set_loop_spec m buffer H0' Hl) by (rewrite length_splice; lia). cbn [mbind res_bind]. change (u8 0) with 0. do 2 f_equal.
  unfold put, padded, SECTOR_BYTES. rewrite splice_app by (rewrite length_replicate; lia). done.
Qed.

Lemma take_length_take (l : list Z) i : take (length (take i l)) l = take i l.
Proof. rewrite length_take. destruct (Nat.min_spec i (length l)) as [[_ ->]|[? ->]]; [done|]. rewrite !take_ge by lia. done. Qed.

Lemma append_copy_spec nn h bs (pos : nat) c f b e k A :
  app_ok c b A → is_file f h bs (Z.of_nat pos) → (length bs - pos ≤ nn * SECTOR_BYTES)%nat → 0 ≤ k →
  k + Z.of_nat (length (pieces nn (drop pos bs))) ≤ n →
  ∃ c' f' b', append_copy nn h (Z.of_nat buffer) (Z.of_nat (length bs - pos)) (mk_util c f (Some b) e k) =
      Ok (tt, mk_util c' f' (Some b') e (k + Z.of_nat (length (pieces nn (drop pos bs))))) ∧
    (∃ p, is_file f' h bs p) ∧ app_ok c' b' (write_list A k (map padded (pieces nn (drop pos bs)))).
Proof.
  revert pos c f b k A. induction nn as [|nn IH]; intros pos c f b k A Hok Hf Hl Hk Hroom.
  { assert (length bs - pos = 0)%nat as Hz by lia. rewrite Hz. cbn. rewrite Z.add_0_r. exists c, f, b. split_and!; [done|eauto|done]. }
  destruct (decide (drop pos bs = [])) as [Hnil|Hne].
  { pose proof (f_equal length Hnil) as Hz. rewrite length_drop in Hz. cbn in Hz. rewrite Hz, Hnil. cbn [pieces map write_list length]. change (Z.of_nat 0) with 0. rewrite Z.add_0_r. exists c, f, b. split_and!; [reflexivity|eauto|exact Hok]. }
  rewrite pieces_step in * by done. rewrite drop_drop in *. set (x := take SECTOR_BYTES (drop pos bs)) in *.
  assert (0 < length bs - pos)%nat as Hpos by (rewrite <- length_drop; destruct (drop pos bs); [done|simpl; lia]).
  assert (Z.of_nat (length x) = chunk_of (Z.of_nat (length bs - pos))) as Hx.
  { unfold x, chunk_of. rewrite length_take, length_drop. unfold BLOCK_SECTOR_SIZE, SECTOR_BYTES. destruct (Z.ltb_spec 512 (Z.of_nat (length bs - pos))); lia. }
  assert (length x ≤ SECTOR_BYTES)%nat as Hxl by (unfold x; rewrite length_take; lia).
  assert (drop (pos + SECTOR_BYTES) bs = drop (pos + length x) bs) as Hdrop.
  { unfold x. rewrite length_take, length_drop. destruct (decide (SECTOR_BYTES ≤ length bs - pos)%nat); [f_equal; lia|]. rewrite !drop_ge by lia. done. }
  destruct (is_file_bytes _ _ _ _ Hf) as (Hb8 & _ & _). assert (Forall in_u8 x) as Hxu by (by apply Forall_take, Forall_drop).
  cbn [append_copy map write_list length] in *. rewrite (proj2 (Z.ltb_lt 0 _)) by lia. rewrite stM_bind_eq. cbn [sread append_sector].
  destruct (ao_dev _ _ _ Hok) as (HA & Hs & Ht). rewrite stM_bind_eq. unfold on_scratch at 1. cbn [scratch deref mbind res_bind con fsys extract_sector append_sector].
  unfold Block.block_size. rewrite Hs, (proj2 (Z.leb_gt n k)) by lia. rewrite stM_bind_eq. cbn [panic_if mret stM_ret]. rewrite <- Hx.
  destruct (file_read_law f h bs (Z.of_nat pos) (Z.of_nat (length x)) Hf) as (f1 & Hrd & Hf1); [unfold SECTOR_BYTES, Palloc.PGSIZE in *; lia|].
  cbn zeta in *. rewrite !Nat2Z.id in *. assert (slice pos (length x) bs = x) as Hsl by apply take_length_take.
  rewrite Hsl in *. rewrite (stM_bind_run _ _ _ _ _ (on_files_run _ c f (Some b) e k _ _ Hrd)). cbv beta iota.
  pose proof (ao_room _ _ _ Hok) as Hrm. pose proof (ao_buffer _ _ _ Hok) as Hb0.
  rewrite (stM_bind_run _ _ _ _ _ (stores_run buffer x c f1 (Some b) e k ltac:(unfold HEADER_BYTES, SECTOR_BYTES in *; lia) Hxu)).
  rewrite Z.eqb_refl. rewrite stM_bind_eq. cbn [negb panic_if mret stM_ret].
  rewrite (stM_bind_run _ _ _ _ _ (writes_run (λ m, memset m (Z.of_nat buffer + Z.of_nat (length x)) 0 (BLOCK_SECTOR_SIZE - Z.of_nat (length x)))
    (set_mem (splice buffer x (cmem c)) c) f1 (Some b) e k _ _ (fill_buffer_run (cmem c) x Hb0 ltac:(lia) Hxl))).
  set (c1 := set_mem _ _). pose proof (app_ok_put c b A (padded x) Hok (padded_ok x Hxl Hxu)) as Hok1.
  change (set_mem (put (cmem c) buffer (padded x)) c) with c1 in Hok1.
  destruct (write_next_run c1 f1 b e k A (padded x) Hok1) as (b2 & Hw & Hok2); [lia|apply slice_buffer; [done|lia|by apply padded_ok]|].
  rewrite (stM_bind_run _ _ _ _ _ Hw).
  replace (Z.of_nat (length bs - pos) - Z.of_nat (length x)) with (Z.of_nat (length bs - (pos + length x)))
    by (unfold x; rewrite length_take, length_drop; lia).
  rewrite <- Nat2Z.inj_add in Hf1. destruct (IH (pos + length x)%nat c1 f1 b2 (k + 1) _ Hok2 Hf1) as (c' & f' & b' & Hr & Hf' & Hok'); rewrite <- ?Hdrop; [|lia|lia|].
  { unfold x, SECTOR_BYTES in *. rewrite length_take, length_drop. lia. }
  rewrite <- Hdrop in Hr, Hok'. exists c', f', b'. split_and!; [|done|done]. rewrite Hr. do 3 f_equal. lia.
Qed.

(** What the second write of the end marker leaves. *)
Definition end_mark : list Z := replicate 511 0 ++ [next].

Lemma end_mark_slice m : (0 < buffer)%nat → (buffer + HB < length m)%nat → m !! (buffer + HB)%nat = Some next →
  slice (buffer + 1) HB (put m buffer (replicate HB 0)) = end_mark.
Proof.
  intros H0' Hl Hnx. change HB with (511 + 1)%nat at 1. rewrite slice_add. unfold end_mark. f_equal.
  - rewrite (slice_put m buffer H0' ltac:(lia) _ 1 511 zero_ok) by (unfold HEADER_BYTES; lia). apply slice_replicate. done.
  - replace (buffer + 1 + 511)%nat with (buffer + HB)%nat by (unfold HEADER_BYTES; lia).
    rewrite (slice_cons _ _ 0 next); [done|]. unfold put. rewrite lookup_splice_r; [done|lia|]. rewrite length_replicate. done.
Qed.

(** The end of the archive: sector [k] is written twice, from the buffer and
    from one byte behind its start. *)
Lemma end_archive_run {B} c f b e k A (g : stM (util (F:=F) (D:=D)) B) :
  app_ok c b A → 0 ≤ k < n →
  ∃ c' b', ((_ ← writes (λ m, memset m (Z.of_nat buffer) 0 BLOCK_SECTOR_SIZE);
      sector ← sread append_sector; block_write sector (Z.of_nat buffer);; block_write sector (Z.of_nat buffer + 1);; g) (mk_util c f (Some b) e k)) =
      g (mk_util c' f (Some b') e k) ∧ app_ok c' b' (op_write (op_write A k (replicate HB 0)) k end_mark).
Proof.
  intros Hok Hk. pose proof (ao_room _ _ _ Hok) as Hrm. pose proof (ao_buffer _ _ _ Hok) as Hb0.
  pose proof (clear_header (cmem c) buffer Hb0 ltac:(lia)) as Hcl. change USTAR_HEADER_SIZE with BLOCK_SECTOR_SIZE in Hcl.
  rewrite (stM_bind_run _ _ _ _ _ (writes_run (λ m, memset m (Z.of_nat buffer) 0 BLOCK_SECTOR_SIZE) c f (Some b) e k _ _ Hcl)).
  rewrite stM_bind_eq. cbn [sread append_sector].
  pose proof (app_ok_put c b A _ Hok zero_ok) as Hok1. set (c1 := set_mem _ c) in *.
  pose proof (ao_room _ _ _ Hok1) as Hrm1.
  destruct (block_write_run k buffer c1 f b e k A n (ao_dev _ _ _ Hok1) Hk) as (b1 & Hw1 & Hb1); [lia|].
  assert (slice buffer HB (cmem c1) = replicate HB 0) as Hz by (apply slice_buffer; [done|lia|apply zero_ok]). rewrite Hz in Hb1. rewrite (stM_bind_run _ _ _ _ _ Hw1).
  replace (Z.of_nat buffer + 1) with (Z.of_nat (buffer + 1)) by lia.
  destruct (block_write_run k (buffer + 1) c1 f b1 e k _ n Hb1 Hk) as (b2 & Hw2 & Hb2); [lia|]. rewrite (stM_bind_run _ _ _ _ _ Hw2).
  exists c1, b2. split; [done|]. assert (slice (buffer + 1) HB (cmem c1) = end_mark) as Hz' by (apply end_mark_slice; [done|lia|apply Hok]). rewrite Hz' in Hb2.
  by apply (app_ok_write c1 b1 _ _ b2 k (app_ok_write c1 b A _ b1 k Hok1 Hb1)).
Qed.

Lemma fsutil_append_spec argv name h bs c f f1 b e k A :
  app_ok c b A → rodata_ok (cmem c) buffer ro → literal (cmem c) buffer argv name → Z.of_nat (length (cmem c)) < W32 →
  Z.of_nat (length name) < 65536 → (length (safe_name name) ≤ 99)%nat →
  Process.filesys_open name f = Ok (Some h, f1) → is_file f1 h bs 0 → 0 ≤ k → k + 1 + Z.of_nat (length (sectors_of bs)) < n →
  ∃ hdr c' f' b', describes hdr (safe_name name) USTAR_REGULAR (Z.of_nat (length bs)) ∧
    fsutil_append ro argv (Z.of_nat buffer) (mk_util c f (Some b) e k) =
      Ok (tt, mk_util c' f' (Some b') e (k + 1 + Z.of_nat (length (sectors_of bs)))) ∧
    app_ok c' b' (let k' := k + 1 + Z.of_nat (length (sectors_of bs)) in
      op_write (op_write (write_list A k (hdr :: map padded (sectors_of bs))) k' (replicate HB 0)) k' end_mark).
Proof.
  intros Hok Hro Hlit Hsz Hnl Hsafe Hopen Hf Hk Hroom. pose proof (ao_u8 _ _ _ Hok) as Hm8. pose proof (ao_buffer _ _ _ Hok) as Hb0.
  pose proof (ao_room _ _ _ Hok) as Hrm. pose proof Hlit as [Hnm _]. pose proof (cstr_u8 _ Hm8 _ _ Hnm) as Hn8.
  pose proof (cstr_walk _ _ _ Hnm) as [_ Hpw]. pose proof Hnm as (Hp0 & _). assert (in_u32 argv) as Hp32 by (unfold in_u32; lia).
  unfold fsutil_append. fold appending.
  destruct (fits_print name (Shell.text "Appending '") (Shell.text ("' to ustar archive on scratch device..." ++ newline))) as [Ht8 Htl];
    [done|done|by vm_compute; repeat constructor|by vm_compute; repeat constructor|by vm_compute|].
  destruct (print_name_run appending argv _ c f (Some b) e k (ao_depth _ _ _ Hok) Ht8 Htl) as (c1 & Hc1 & Hm1 & Hd1);
    [apply render_appending; [done|apply string_arg_cstr; [done|lia]]|].
  rewrite (stM_bind_run _ _ _ _ _ Hc1). rewrite stM_bind_eq. unfold NULL at 1. rewrite (proj2 (Z.eqb_neq (Z.of_nat buffer) 0)) by lia. cbn [panic_if mret stM_ret].
  rewrite (stM_bind_run _ _ _ _ _ (reads_run (λ m, name_at m argv) c1 f (Some b) e k name ltac:(rewrite Hm1; by apply name_at_cstr))).
  rewrite (stM_bind_run _ _ _ _ _ (on_files_run _ c1 f (Some b) e k _ _ Hopen)).
  rewrite (stM_bind_run _ _ _ _ _ (on_files_run _ c1 f1 (Some b) e k _ _ (file_length_law _ _ _ _ Hf))).
  rewrite stM_bind_eq. cbn [sread scratch]. rewrite stM_bind_eq. cbn [panic_if mret stM_ret].
  assert (app_ok c1 b A) as Hok1 by (destruct Hok; split; rewrite ?Hm1; done).
  destruct (is_file_bytes _ _ _ _ Hf) as (_ & Hbl & _).
  destruct (make_header_spec ro c1 buffer argv name USTAR_REGULAR (Z.of_nat (length bs))) as (hdr & Hdesc & Hmk); rewrite ?Hm1; [done|done|lia|done..|lia|].
  rewrite Hm1 in Hmk. change (mk_console _ _ _ _ _ _ _) with (set_mem (put (cmem c) buffer hdr) c1) in Hmk.
  rewrite (stM_bind_run _ _ _ _ _ (on_con_run _ c1 f1 (Some b) e k _ _ Hmk)). rewrite stM_bind_eq. cbn [negb panic_if mret stM_ret].
  pose proof Hdesc as [Hhok _]. pose proof (app_ok_put c1 b A hdr Hok1 Hhok) as Hok2. rewrite Hm1 in Hok2.
  set (c2 := set_mem _ c1) in *.
  destruct (write_next_run c2 f1 b e k A hdr Hok2) as (b3 & Hw3 & Hok3); [lia|apply slice_buffer; [done|lia|done]|].
  rewrite (stM_bind_run _ _ _ _ _ Hw3).
  destruct (append_copy_spec (turns (Z.of_nat (length bs))) h bs 0 c2 f1 b3 e (k + 1) _ Hok3 Hf) as (c4 & f4 & b4 & Hr4 & (p & Hf4) & Hok4);
    [rewrite Nat.sub_0_r; apply turns_enough|lia|rewrite drop_0; unfold sectors_of in Hroom; lia|].
  rewrite Nat.sub_0_r, drop_0 in *. rewrite (stM_bind_run _ _ _ _ _ Hr4).
  destruct (end_archive_run c4 f4 b4 e (k + 1 + Z.of_nat (length (sectors_of bs))) _ (on_fs (Process.file_close (Some h))) Hok4) as (c5 & b5 & Hr5 & Hok5); [lia|].
  fold (sectors_of bs) in *. rewrite Hr5. destruct (file_close_law _ _ _ _ Hf4) as (f5 & Hcl).
  rewrite (on_files_run _ c5 f4 (Some b5) e _ _ _ Hcl). exists hdr, c5, f5, b5. by split_and!.
Qed.
End append.

(** ** Appending, then extracting *)

Lemma put_files_then es f : (put_files es;; fail_if false) f = put_files es f.
Proof. rewrite stM_bind_eq. unfold fail_if. by destruct (put_files es f) as [[[] ?]|]. Qed.

Lemma end_mark_ok next : in_u8 next → header_ok (end_mark next) ∧ slice 257 6 (end_mark next) ≠ [117; 115; 116; 97; 114; 0] ∧
  (end_mark next = replicate HB 0 ↔ next = 0).
Proof.
  intros Hn. unfold end_mark. split_and!.
  - split; [done|]. apply Forall_app. split; [apply Forall_replicate; unfold in_u8; lia|by constructor].
  - rewrite slice_app_l by (rewrite length_replicate; lia). discriminate.
  - change HB with (511 + 1)%nat. rewrite replicate_add. split; [|by intros ->]. intros He. apply app_inj_1 in He as [_ He]; [|done]. by injection He.
Qed.

Section both.
Context `{!FilesLaws F} (n : Z) (Hn : n < W32).

(** The archive [es] of the device, from sector [e], becomes [es ++ [x]]. *)
Lemma append_extends buffer next argv name h bs c f f1 b e es A :
  app_ok buffer n next c b A → rodata_ok (cmem c) buffer ro → literal (cmem c) buffer argv name → Z.of_nat (length (cmem c)) < W32 →
  Z.of_nat (length name) < 65536 → (length (safe_name name) ≤ 99)%nat →
  Process.filesys_open name f = Ok (Some h, f1) → is_file f1 h bs 0 → 0 ≤ e → archive_at A e es →
  let es' := es ++ [(safe_name name, bs)] in e + archive_size es' < n →
  ∃ c' f' b' A', fsutil_append ro argv (Z.of_nat buffer) (mk_util c f (Some b) e (e + archive_size es)) =
      Ok (tt, mk_util c' f' (Some b') e (e + archive_size es')) ∧
    dev_is b' A' n ∧ archive_at A' e es' ∧ op_read A' (e + archive_size es') = end_mark next ∧
    ∀ s, s < e + archive_size es ∨ e + archive_size es' < s → op_read A' s = op_read A s.
Proof.
  intros Hok Hro Hlit Hsz Hnl Hsafe Hopen Hf He Har es' Hroom. unfold es' in *. rewrite archive_size_snoc in *.
  pose proof (archive_size_nonneg es). set (k := e + archive_size es) in *. set (np := length (sectors_of bs)) in *.
  destruct (fsutil_append_spec buffer n next Hn argv name h bs c f f1 b e k A) as (hdr & c' & f' & b' & Hdesc & Happ & Hok'); [done..|lia|fold np; lia|].
  cbn zeta in Hok'. fold np in Happ, Hok'. destruct (is_file_bytes _ _ _ _ Hf) as (Hb8 & _ & _).
  exists c', f', b'. eexists. replace (e + (archive_size es + 1 + Z.of_nat np)) with (k + 1 + Z.of_nat np) in * by lia.
  split_and!; [exact Happ|apply Hok'| | |].
  all: set (L := hdr :: map padded (sectors_of bs)) in *; assert (length L = S np) as HL by (unfold L; cbn [length]; by rewrite length_map).
  all: assert (∀ s, s ≠ k + 1 + Z.of_nat np →
    op_read (op_write (op_write (write_list A k L) (k + 1 + Z.of_nat np) (replicate HB 0)) (k + 1 + Z.of_nat np) (end_mark next)) s = op_read (write_list A k L) s) as Hother
    by (intros; by rewrite !op_read_write_ne by done).
  - assert (stored (write_list A k L) k L) as Hst.
    { apply write_list_stored. constructor; [apply Hdesc|]. apply Forall_map, Forall_forall. intros x Hx.
      assert (length x ≤ SECTOR_BYTES)%nat as Hxl by (by eapply pieces_short). unfold padded. simpl. rewrite length_app, length_replicate. lia. }
    apply archive_at_snoc. split.
    + eapply archive_at_ext; [|exact Har]. intros s ?. rewrite Hother by lia. apply write_list_other. lia.
    + fold k. split_and!; [| |done].
      * rewrite Hother by lia. pose proof (Hst 0%nat hdr eq_refl) as Hh. rewrite Z.add_0_r in Hh. by rewrite Hh.
      * eapply stored_ext; [|intros i x Hi; specialize (Hst (S i) x Hi); rewrite <- Hst; f_equal; lia].
        rewrite length_map. fold np. intros s ?. apply Hother. lia.
  - apply op_read_write. destruct (end_mark_ok next) as ([Hl _] & _); [|exact Hl].
    destruct Hok as [Hu _ Hnx _ _]. by apply (Forall_lookup_1 _ _ _ _ Hu Hnx).
  - intros s Hs. rewrite Hother by lia. apply write_list_other. rewrite HL. lia.
Qed.

Lemma extract_marked header data next c f b e k A es :
  ext_ok header data n c b A → 0 ≤ e → Forall fits_archive es → archive_at A e es → e + archive_size es < n → 2 ≤ n → in_u8 next →
  op_read A (e + archive_size es) = end_mark next →
  follows (put_files es;; fail_if (negb (next =? 0))) f (fsutil_extract ro (Z.of_nat header) (Z.of_nat data) (mk_util c f (Some b) e k))
    (λ _ f' u, fsys u = f' ∧ ∃ b', scratch u = Some b' ∧ dev_is b' (erased A) n).
Proof.
  intros Hok He Hfit Har Hroom Hn2 Hnx Hmark. destruct (end_mark_ok next Hnx) as (Hmo & Hmag & Hz).
  pose proof (fsutil_extract_spec header data n Hn es c f b e k A Hok He Hfit Har Hroom Hn2) as Hf. cbn zeta in Hf. rewrite Hmark in Hf.
  specialize (Hf Hmo Hmag). assert (bool_decide (end_mark next = replicate HB 0) = (next =? 0)) as Hbd.
  { destruct (Z.eqb_spec next 0); [by apply bool_decide_eq_true_2, Hz|]. apply bool_decide_eq_false_2. by rewrite Hz. }
  rewrite Hbd in Hf. unfold follows in *. destruct ((put_files es;; _) f) as [[a f']|]; [|done].
  destruct Hf as (u & Hu & c' & b' & -> & (_ & _ & Hd)). eexists. split; [exact Hu|]. cbn. eauto.
Qed.
End both.
End spec.

Section claims.
Context {F : Type} `{FileStore F, !FilesLaws F} {D : Type} `{BlockLaws D} (ro : rodata).

(** [fsutil_append] of the file [bs] called [name], with the archive [es] on
    the device from sector [e]. *)
Record appending_file (buffer : nat) (n next argv : Z) (name bs : list Z) (h : Z) (f f1 : F)
    (c : console) (b : Block.block D) (A : D) (e : Z) (es : list (list Z * list Z)) : Prop := {
  af_size : n < W32 ∧ 2 ≤ n ∧ 0 ≤ e ∧ e + archive_size (es ++ [(safe_name name, bs)]) < n;
  af_state : app_ok buffer n next c b A; af_literals : rodata_ok (cmem c) buffer ro; af_memory : Z.of_nat (length (cmem c)) < W32;
  af_name : literal (cmem c) buffer argv name ∧ Z.of_nat (length name) < 65536 ∧ (length (safe_name name) ≤ 99)%nat;
  af_file : Process.filesys_open name f = Ok (Some h, f1) ∧ is_file f1 h bs 0;
  af_archive : archive_at A e es ∧ Forall fits_archive es }.

(** C21: What [fsutil_append] adds to the archive on the scratch device,
    [fsutil_extract] takes out again.  When the byte behind the allocated
    buffer is zero, appending a file succeeds, writes only the sectors from the
    old end of the archive on, and a later extraction of the device, with any
    file system and buffers, makes exactly the file system calls of creating
    each file of the archive with its size, opening it, writing its contents
    and closing it, in order; it ends as these calls end, and erases the first
    two sectors. *)
Theorem archive_round_trip buffer n argv name bs h (f f1 : F) c (b : Block.block D) A e es :
  appending_file buffer n 0 argv name bs h f f1 c b A e es →
  let es' := es ++ [(safe_name name, bs)] in
  ∃ c' f' b' A',
    fsutil_append ro argv (Z.of_nat buffer) (mk_util c f (Some b) e (e + archive_size es)) =
      Ok (tt, mk_util c' f' (Some b') e (e + archive_size es')) ∧ dev_is b' A' n ∧
    (∀ s, s < e + archive_size es ∨ e + archive_size es' < s → op_read A' s = op_read A s) ∧
    ∀ header data c2 f2 b2 k, ext_ok ro header data n c2 b2 A' →
      follows (put_files es') f2 (fsutil_extract ro (Z.of_nat header) (Z.of_nat data) (mk_util c2 f2 (Some b2) e k))
        (λ _ f3 u, fsys u = f3 ∧ ∃ b3, scratch u = Some b3 ∧ dev_is b3 (erased A') n).
Proof.
  intros [(Hn & Hn2 & He & Hroom) Hok Hro Hmem (Hlit & Hnl & Hsafe) (Hopen & Hf) (Har & Hfit)] es'.
  destruct (append_extends ro n Hn buffer 0 argv name h bs c f f1 b e es A) as (c' & f' & b' & A' & Happ & Hd & Har' & Hmark & Hrest); [done..|].
  exists c', f', b', A'. split_and!; [done..|]. intros header data c2 f2 b2 k Hext. destruct (is_file_bytes _ _ _ _ Hf) as (Hb8 & _ & _).
  pose proof (extract_marked ro n Hn header data 0 c2 f2 b2 e k A' es' Hext He) as Hx. cbn [Z.eqb negb] in Hx.
  unfold follows in *. rewrite put_files_then in Hx. apply Hx; [by apply Forall_app_2; [|constructor]|done|done|done|unfold in_u8; lia|done].
Qed.

(** C39: The end-of-archive marker of [fsutil_append] depends on a byte that is
    not part of its buffer: it writes the last sector a second time from
    [buffer + 1].  When the byte behind the allocated block is not zero,
    appending still succeeds, but every later extraction whose file system
    calls all succeed panics at the end with a bad header. *)
Theorem archive_end_overrun buffer n next argv name bs h (f f1 : F) c (b : Block.block D) A e es :
  appending_file buffer n next argv name bs h f f1 c b A e es → next ≠ 0 →
  ∃ c' f' b' A',
    fsutil_append ro argv (Z.of_nat buffer) (mk_util c f (Some b) e (e + archive_size es)) =
      Ok (tt, mk_util c' f' (Some b') e (e + archive_size (es ++ [(safe_name name, bs)]))) ∧ dev_is b' A' n ∧
    ∀ header data c2 f2 f3 b2 k, ext_ok ro header data n c2 b2 A' →
      put_files (es ++ [(safe_name name, bs)]) f2 = Ok (tt, f3) →
      fsutil_extract ro (Z.of_nat header) (Z.of_nat data) (mk_util c2 f2 (Some b2) e k) = Err EPanic.
Proof.
  intros [(Hn & Hn2 & He & Hroom) Hok Hro Hmem (Hlit & Hnl & Hsafe) (Hopen & Hf) (Har & Hfit)] Hnext.
  destruct (append_extends ro n Hn buffer next argv name h bs c f f1 b e es A) as (c' & f' & b' & A' & Happ & Hd & Har' & Hmark & Hrest); [done..|].
  exists c', f', b', A'. split_and!; [done..|]. intros header data c2 f2 f3 b2 k Hext Hput. destruct (is_file_bytes _ _ _ _ Hf) as (Hb8 & _ & _).
  assert (in_u8 next) as Hn8 by (destruct Hok as [Hu _ Hnx _ _]; by apply (Forall_lookup_1 _ _ _ _ Hu Hnx)).
  pose proof (extract_marked ro n Hn header data next c2 f2 b2 e k A' (es ++ [(safe_name name, bs)]) Hext He) as Hx. rewrite (proj2 (Z.eqb_neq next 0)) in Hx by done. cbn [negb] in Hx.
  unfold follows in Hx. rewrite (stM_bind_run _ _ _ _ _ Hput) in Hx. apply Hx; [by apply Forall_app_2; [|constructor]|done..].
Qed.
End claims.

(** ** A run *)

(** A file system in memory: files by name, and open files with positions. *)
Record memfs := mk_memfs { mf_files : gmap (list Z) (list Z); mf_open : gmap Z (list Z * Z); mf_next : Z }.
Definition mf_look (h : Z) (s : memfs) : res (list Z * Z * list Z) :=
  '(nm, pos) ← deref (mf_open s !! h); bs ← deref (mf_files s !! nm); Ok (nm, pos, bs).

#[local] Instance memfs_files : Process.Files memfs := {|
  Process.filesys_open nm s := match mf_files s !! nm with None => Ok (None, s) | Some _ =>
    Ok (Some (mf_next s), mk_memfs (mf_files s) (<[mf_next s := (nm, 0)]> (mf_open s)) (mf_next s + 1)) end;
  Process.file_read h n s := '(nm, pos, bs) ← mf_look h s; let r := slice (Z.to_nat pos) (Z.to_nat n) bs in
    Ok ((Z.of_nat (length r), r), mk_memfs (mf_files s) (<[h := (nm, pos + Z.of_nat (length r))]> (mf_open s)) (mf_next s));
  Process.file_length h s := '(nm, pos, bs) ← mf_look h s; Ok (Z.of_nat (length bs), s);
  Process.file_seek h p s := '(nm, pos, bs) ← mf_look h s; Ok (tt, mk_memfs (mf_files s) (<[h := (nm, p)]> (mf_open s)) (mf_next s));
  Process.file_close h s := Ok (tt, s) |}.
#[local] Instance memfs_store : FileStore memfs := {|
  filesys_create nm n _ s := Ok (true, mk_memfs (<[nm := replicate (Z.to_nat n) 0]> (mf_files s)) (mf_open s) (mf_next s));
  filesys_remove nm s := Ok (true, mk_memfs (delete nm (mf_files s)) (mf_open s) (mf_next s));
  file_write h x n s := '(nm, pos, bs) ← mf_look h s;
    Ok (n, mk_memfs (<[nm := splice (Z.to_nat pos) x bs]> (mf_files s)) (<[h := (nm, pos + n)]> (mf_open s)) (mf_next s));
  file_tell h s := '(nm, pos, bs) ← mf_look h s; Ok (pos, s);
  dir_open_root s := Ok (None, s); dir_readdir _ s := Ok (None, s); dir_close _ s := Ok (tt, s) |}.

Record memfs_is (s : memfs) (h : Z) (bs : list Z) (pos : Z) : Prop := {
  mi_open : ∃ nm, mf_open s !! h = Some (nm, pos) ∧ mf_files s !! nm = Some bs;
  mi_bytes : Forall in_u8 bs ∧ Z.of_nat (length bs) < W31 ∧ 0 ≤ pos ≤ Z.of_nat (length bs) }.
#[local] Program Instance memfs_laws : FilesLaws memfs := {| is_file := memfs_is |}.
Next Obligation. by intros ???? []. Qed.
Next Obligation.
  intros s h bs pos n [(nm & Ho & Hf) (Hu & Hl & Hp)] Hn r. cbn. unfold mf_look. rewrite Ho. cbn [deref mbind res_bind]. rewrite Hf. cbn [deref mbind res_bind].
  eexists. split; [done|]. split; [exists nm; cbn; by rewrite lookup_insert_eq|]. split_and!; try done; unfold r, slice; rewrite length_take, length_drop; lia.
Qed.
Next Obligation. intros s h bs pos [(nm & Ho & Hf) _]. cbn. unfold mf_look. rewrite Ho. cbn. by rewrite Hf. Qed.
Next Obligation.
  intros s h bs pos p [(nm & Ho & Hf) (Hu & Hl & Hp)] Hp'. cbn. unfold mf_look. rewrite Ho. cbn [deref mbind res_bind]. rewrite Hf. cbn [deref mbind res_bind].
  eexists. split; [done|]. split; [exists nm; cbn; by rewrite lookup_insert_eq|done].
Qed.
Next Obligation. intros. by eexists. Qed.

(** Literals and the name "ab", two buffers of 512 bytes, and a byte. *)
Definition run_memory (next : Z) : mem   := UstarSpec.sample_memory ++ replicate 512 9 ++ [next].
Definition run_console (next : Z) : console := mk_console true false None 0 0 (run_memory next) [].
Definition run_device : Block.block ramdisk := Block.mk_block [] Block.BLOCK_SCRATCH 10 ∅ 0 0.
Definition run_files : memfs := mk_memfs {[ [46; 46; 47; 47; 97; 98] := [1; 2; 3] ]} ∅ 5.
Definition run_files1 : memfs := mk_memfs {[ [46; 46; 47; 47; 97; 98] := [1; 2; 3] ]} {[ 5 := ([46; 46; 47; 47; 97; 98], 0) ]} 6.

Lemma run_literal next h a s : literal UstarSpec.sample_memory 40 a s → a + Z.of_nat (length s) < Z.of_nat h → literal (run_memory next) h a s.
Proof. intros [Hc _] Ho. split; [|by left]. destruct Hc as (Ha & Hs & Hc). split_and!; [done..|]. intros i x Hi. specialize (Hc i x Hi).
  apply load_ok in Hc as [? Hx]. apply load_ok. split; [done|]. by apply lookup_app_l_Some. Qed.
Lemma run_rodata next h : (40 ≤ h)%nat → rodata_ok (run_memory next) h sample_rodata.
Proof. intros Hh. destruct sample_rodata_ok. split; (apply run_literal; [done|cbn; lia]). Qed.
Lemma run_u8 next : in_u8 next → Forall in_u8 (run_memory next).
Proof.
  intros Hn. apply Forall_app. split; [apply UstarSpec.sample_memory_u8|]. apply Forall_app. split; [apply Forall_replicate; unfold in_u8; lia|by constructor].
Qed.

Lemma run_appending next : in_u8 next →
  appending_file sample_rodata 552 10 next 32 [46; 46; 47; 47; 97; 98] [1; 2; 3] 5 run_files run_files1 (run_console next) run_device ∅ 0 [].
Proof.
  intros Hn. split.
  - split_and!; [lia|lia|lia|vm_compute; reflexivity].
  - split; [by apply run_u8|lia|done|by intros d|]. by split_and!.
  - apply run_rodata. lia.
  - done.
  - split_and!; [|done|vm_compute; lia]. apply run_literal; [|cbn; lia]. split; [find_cstr|left; simpl; lia].
  - split; [vm_compute; reflexivity|]. split; [by eexists|]. split_and!; [by repeat (apply Forall_cons; split; [unfold in_u8; lia|])|done|done|done].
  - done.
Qed.

Lemma run_extracting next (b : Block.block ramdisk) A :
  in_u8 next → dev_is b A 10 → ext_ok sample_rodata 40 552 10 (run_console next) b A.
Proof.
  intros Hn Hb. split_and!; [|by intros d|apply Hb..]. assert (length (run_memory next) = 1065%nat) as Hl by reflexivity.
  split; cbn [run_console cmem]; rewrite ?Hl; unfold HEADER_BYTES; [by apply run_u8|lia|lia|lia|lia|apply run_rodata; lia..].
Qed.

Lemma archive_round_trip_witness :
  put_files [([97; 98], [1; 2; 3])] run_files =
    Ok (tt, mk_memfs (<[ [97; 98] := [1; 2; 3] ]> (mf_files run_files)) {[ 5 := ([97; 98], 3) ]} 6) ∧
  ∃ u b A, fsutil_append sample_rodata 32 552 (mk_util (run_console 0) run_files (Some run_device) 0 0) = Ok (tt, u) ∧ scratch u = Some b ∧ dev_is b A 10 ∧
    ∃ u', fsutil_extract sample_rodata 40 552 (mk_util (run_console 0) run_files (Some b) 0 0) = Ok (tt, u') ∧
      mf_files (fsys u') !! [97; 98] = Some [1; 2; 3].
Proof.
  assert (put_files [([97; 98], [1; 2; 3])] run_files =
    Ok (tt, mk_memfs (<[ [97; 98] := [1; 2; 3] ]> (mf_files run_files)) {[ 5 := ([97; 98], 3) ]} 6)) as Hput by (vm_compute; reflexivity).
  split; [exact Hput|].
  destruct (archive_round_trip sample_rodata 552 10 32 [46; 46; 47; 47; 97; 98] [1; 2; 3] 5 run_files run_files1 (run_console 0) run_device ∅ 0 [])
    as (c' & f' & b' & A' & Happ & Hd & _ & Hext); [apply run_appending; unfold in_u8; lia|].
  eexists _, b', A'. split; [exact Happ|]. split; [reflexivity|]. split; [exact Hd|].
  specialize (Hext 40%nat 552%nat (run_console 0) run_files b' 0 (run_extracting 0 b' A' ltac:(unfold in_u8; lia) Hd)).
  unfold follows in Hext. change ([] ++ [(safe_name [46; 46; 47; 47; 97; 98], [1; 2; 3])]) with [([97; 98], [1; 2; 3])] in Hext.
  rewrite Hput in Hext. destruct Hext as (u' & Hu & Hf & _).
  exists u'. split; [exact Hu|]. rewrite Hf. reflexivity.
Defined.

Lemma archive_end_overrun_witness :
  ∃ u b A, fsutil_append sample_rodata 32 552 (mk_util (run_console 7) run_files (Some run_device) 0 0) = Ok (tt, u) ∧ scratch u = Some b ∧ dev_is b A 10 ∧
    fsutil_extract sample_rodata 40 552 (mk_util (run_console 0) run_files (Some b) 0 0) = Err EPanic.
Proof.
  destruct (archive_end_overrun sample_rodata 552 10 7 32 [46; 46; 47; 47; 97; 98] [1; 2; 3] 5 run_files run_files1 (run_console 7) run_device ∅ 0 [])
    as (c' & f' & b' & A' & Happ & Hd & Hext); [apply run_appending; unfold in_u8; lia|lia|].
  eexists _, b', A'. split; [exact Happ|]. split; [reflexivity|]. split; [exact Hd|].
  apply (Hext 40%nat 552%nat (run_console 0) run_files (mk_memfs (<[ [97; 98] := [1; 2; 3] ]> (mf_files run_files)) {[ 5 := ([97; 98], 3) ]} 6) b' 0);
    [apply run_extracting; [unfold in_u8; lia|exact Hd]|vm_compute; reflexivity].
Defined.
