(* ===== verification/Threads.v ===== *)
(** * threads/thread.c, threads/synch.c, devices/timer.c and the interrupt level

    The kernel as one processor runs it: the thread table, the run queue, the
    sleeping threads, semaphores, locks and condition variables.  A list of
    threads is the mathematical list that [ListFamily.Family.list_ops_refine] shows the
    pointer operations to implement.

    A thread that has been switched away from continues later from its own
    stack.  That stack is modelled by [stack], a list of frames: each frame says
    what is left of a function that called [schedule], or that has another
    critical section still to run.  Everything between two frames runs with
    interrupts off, or touches only the running thread's own data, so that a
    timer interrupt can be taken between any two steps that leave interrupts on
    ([exec]).  The sources are those of the build with USERPROG; what
    [process_exit] and [process_activate] do to page directories is in
    Pagedir.v. *)

From S2P Require Import Prelude.

Module Threads.

Inductive thread_status := THREAD_RUNNING | THREAD_READY | THREAD_BLOCKED | THREAD_DYING.
#[export] Instance thread_status_eq_dec : EqDecision thread_status.
Proof. solve_decision. Defined.

Definition PRI_MIN : Z := 0.
Definition PRI_DEFAULT : Z := 31.
Definition PRI_MAX : Z := 63.
Definition THREAD_MAGIC : Z := 3446325067.
Definition TIME_SLICE : Z := 4.
Definition TIMER_FREQ : Z := 100.
Definition NULL : Z := 0.

(** Thread functions: the idle thread's, with its argument, or any other. *)
Inductive thread_func := TUser | TIdle (idle_started : Z).

(** The interrupt level is [true] for INTR_ON. *)
Inductive frame :=
| FUser                            (** the thread function's own code *)
| FStart (function : thread_func)  (** [kernel_thread] *)
| FIret                            (** return from an interrupt *)
| FYield (old_level : bool)        (** [thread_yield] after [schedule] *)
| FDown (sema : Z) (old_level : bool) (** the loop of [sema_down] *)
| FUp (sema : Z)                   (** a call of [sema_up] *)
| FLock (lock : Z)                 (** [lock_acquire] after [sema_down] *)
| FCondDown (waiter lock : Z)      (** [cond_wait] after [lock_release] *)
| FCondLock (lock : Z)             (** [cond_wait] after [sema_down] *)
| FBroadcast (cond lock : Z)       (** the loop of [cond_broadcast] *)
| FSleeping                        (** [timer_sleep] from [intr_disable] *)
| FSleep (old_level : bool)        (** [timer_sleep] after [thread_block] *)
| FIdle                            (** the loop of [idle] *)
| FHalt                            (** [idle] after [thread_block] *)
| FTid (t : Z)                     (** [thread_create] in [allocate_tid] *)
| FCreated (t tid : Z)             (** [thread_create] after [allocate_tid] *)
| FStarted (idle_started : Z)      (** [thread_start] after [thread_create] *)
| FExec                            (** [process_execute] after [thread_create] *)
| FLoaded                          (** [process_execute] after [sema_down] *)
| FWait (child : Z)                (** [process_wait] at the test of [child_done] *)
| FWaited (child : Z)              (** [process_wait] after it *)
| FExitRet (status : Z)            (** [exit] at [c_t->child_ret = status] *)
| FExitDone                        (** [exit] at [c_t->child_done = 1] *)
| FExitUp                          (** [exit] at the test of [child_waiting] *)
| FExitEnd                         (** [exit] at [thread_exit] *)
| FReturn (eax : Z).               (** a system call that returns [eax] *)
#[export] Instance thread_func_eq_dec : EqDecision thread_func.
Proof. solve_decision. Defined.
#[export] Instance frame_eq_dec : EqDecision frame.
Proof. solve_decision. Defined.

Record child := mk_child { c_tid : Z; child_done : Z; child_ret : Z }.

Record thread := mk_thread {
  tid : Z; status : thread_status; name : list Z; stack : list frame; priority : Z;
  ticks_to_sleep : Z; exit_status : Z; fd_ct : Z; parent : Z; child_list : list child;
  child_loaded : Z; child_waiting : Z; magic : Z }.

Record semaphore := mk_sema { value : Z; waiters : list Z }.

(** Locks and condition variables by address: a lock's [holder] is at the
    lock's address and its semaphore four bytes further. *)
Record kernel := mk_kernel {
  threads : gmap Z thread; cur : Z; ready_list : list Z; all_list : list Z;
  idle_thread : Z; initial_thread : Z; next_tid : Z;
  idle_ticks : Z; kernel_ticks : Z; thread_ticks : Z;
  intr_on : bool; in_external_intr : bool; yield_on_return : bool;
  ticks : Z; list_threads : list Z;
  semas : gmap Z semaphore; holders : gmap Z Z; conds : gmap Z (list Z) }.

Definition tid_lock : Z := 16.
Definition lock_sema (l : Z) : Z := l + 4.

(** [offsetof (struct thread, sem_child_load)] and [sem_child_wait]. *)
Definition SEM_CHILD_LOAD : Z := 88.
Definition SEM_CHILD_WAIT : Z := 108.

(** ** Field updates *)

Definition set_status (v : thread_status) (t : thread) : thread :=
  mk_thread (tid t) v (name t) (stack t) (priority t) (ticks_to_sleep t) (exit_status t) (fd_ct t)
    (parent t) (child_list t) (child_loaded t) (child_waiting t) (magic t).
Definition set_stack (v : list frame) (t : thread) : thread :=
  mk_thread (tid t) (status t) (name t) v (priority t) (ticks_to_sleep t) (exit_status t) (fd_ct t)
    (parent t) (child_list t) (child_loaded t) (child_waiting t) (magic t).
Definition set_sleep (v : Z) (t : thread) : thread :=
  mk_thread (tid t) (status t) (name t) (stack t) (priority t) v (exit_status t) (fd_ct t)
    (parent t) (child_list t) (child_loaded t) (child_waiting t) (magic t).
Definition set_priority (v : Z) (t : thread) : thread :=
  mk_thread (tid t) (status t) (name t) (stack t) v (ticks_to_sleep t) (exit_status t) (fd_ct t)
    (parent t) (child_list t) (child_loaded t) (child_waiting t) (magic t).
Definition set_tid (v : Z) (t : thread) : thread :=
  mk_thread v (status t) (name t) (stack t) (priority t) (ticks_to_sleep t) (exit_status t) (fd_ct t)
    (parent t) (child_list t) (child_loaded t) (child_waiting t) (magic t).
(** [thread_create]'s record of who created the thread. *)
Definition set_created (p : Z) (t : thread) : thread :=
  mk_thread (tid t) (status t) (name t) (stack t) (priority t) (ticks_to_sleep t) (-1) 1
    p (child_list t) (child_loaded t) (child_waiting t) (magic t).
Definition set_children (l : list child) (loaded : Z) (t : thread) : thread :=
  mk_thread (tid t) (status t) (name t) (stack t) (priority t) (ticks_to_sleep t) (exit_status t) (fd_ct t)
    (parent t) l loaded (child_waiting t) (magic t).

Definition set_waiting (v : Z) (t : thread) : thread :=
  mk_thread (tid t) (status t) (name t) (stack t) (priority t) (ticks_to_sleep t) (exit_status t) (fd_ct t)
    (parent t) (child_list t) (child_loaded t) v (magic t).
Definition set_exit_status (v : Z) (t : thread) : thread :=
  mk_thread (tid t) (status t) (name t) (stack t) (priority t) (ticks_to_sleep t) v (fd_ct t)
    (parent t) (child_list t) (child_loaded t) (child_waiting t) (magic t).

Definition upd_threads (f : gmap Z thread → gmap Z thread) (k : kernel) : kernel :=
  mk_kernel (f (threads k)) (cur k) (ready_list k) (all_list k) (idle_thread k) (initial_thread k)
    (next_tid k) (idle_ticks k) (kernel_ticks k) (thread_ticks k) (intr_on k) (in_external_intr k)
    (yield_on_return k) (ticks k) (list_threads k) (semas k) (holders k) (conds k).
Definition upd_cur (f : Z → Z) (k : kernel) : kernel :=
  mk_kernel (threads k) (f (cur k)) (ready_list k) (all_list k) (idle_thread k) (initial_thread k)
    (next_tid k) (idle_ticks k) (kernel_ticks k) (thread_ticks k) (intr_on k) (in_external_intr k)
    (yield_on_return k) (ticks k) (list_threads k) (semas k) (holders k) (conds k).
Definition upd_ready (f : list Z → list Z) (k : kernel) : kernel :=
  mk_kernel (threads k) (cur k) (f (ready_list k)) (all_list k) (idle_thread k) (initial_thread k)
    (next_tid k) (idle_ticks k) (kernel_ticks k) (thread_ticks k) (intr_on k) (in_external_intr k)
    (yield_on_return k) (ticks k) (list_threads k) (semas k) (holders k) (conds k).
Definition upd_all (f : list Z → list Z) (k : kernel) : kernel :=
  mk_kernel (threads k) (cur k) (ready_list k) (f (all_list k)) (idle_thread k) (initial_thread k)
    (next_tid k) (idle_ticks k) (kernel_ticks k) (thread_ticks k) (intr_on k) (in_external_intr k)
    (yield_on_return k) (ticks k) (list_threads k) (semas k) (holders k) (conds k).
Definition upd_idle (v : Z) (k : kernel) : kernel :=
  mk_kernel (threads k) (cur k) (ready_list k) (all_list k) v (initial_thread k)
    (next_tid k) (idle_ticks k) (kernel_ticks k) (thread_ticks k) (intr_on k) (in_external_intr k)
    (yield_on_return k) (ticks k) (list_threads k) (semas k) (holders k) (conds k).
Definition upd_next_tid (v : Z) (k : kernel) : kernel :=
  mk_kernel (threads k) (cur k) (ready_list k) (all_list k) (idle_thread k) (initial_thread k)
    v (idle_ticks k) (kernel_ticks k) (thread_ticks k) (intr_on k) (in_external_intr k)
    (yield_on_return k) (ticks k) (list_threads k) (semas k) (holders k) (conds k).
Definition upd_stats (i n : Z) (k : kernel) : kernel :=
  mk_kernel (threads k) (cur k) (ready_list k) (all_list k) (idle_thread k) (initial_thread k)
    (next_tid k) i n (thread_ticks k) (intr_on k) (in_external_intr k)
    (yield_on_return k) (ticks k) (list_threads k) (semas k) (holders k) (conds k).
Definition upd_slice (v : Z) (k : kernel) : kernel :=
  mk_kernel (threads k) (cur k) (ready_list k) (all_list k) (idle_thread k) (initial_thread k)
    (next_tid k) (idle_ticks k) (kernel_ticks k) v (intr_on k) (in_external_intr k)
    (yield_on_return k) (ticks k) (list_threads k) (semas k) (holders k) (conds k).
Definition upd_intr (v : bool) (k : kernel) : kernel :=
  mk_kernel (threads k) (cur k) (ready_list k) (all_list k) (idle_thread k) (initial_thread k)
    (next_tid k) (idle_ticks k) (kernel_ticks k) (thread_ticks k) v (in_external_intr k)
    (yield_on_return k) (ticks k) (list_threads k) (semas k) (holders k) (conds k).
Definition upd_external (e y : bool) (k : kernel) : kernel :=
  mk_kernel (threads k) (cur k) (ready_list k) (all_list k) (idle_thread k) (initial_thread k)
    (next_tid k) (idle_ticks k) (kernel_ticks k) (thread_ticks k) (intr_on k) e
    y (ticks k) (list_threads k) (semas k) (holders k) (conds k).
Definition upd_ticks (v : Z) (k : kernel) : kernel :=
  mk_kernel (threads k) (cur k) (ready_list k) (all_list k) (idle_thread k) (initial_thread k)
    (next_tid k) (idle_ticks k) (kernel_ticks k) (thread_ticks k) (intr_on k) (in_external_intr k)
    (yield_on_return k) v (list_threads k) (semas k) (holders k) (conds k).
Definition upd_sleepers (f : list Z → list Z) (k : kernel) : kernel :=
  mk_kernel (threads k) (cur k) (ready_list k) (all_list k) (idle_thread k) (initial_thread k)
    (next_tid k) (idle_ticks k) (kernel_ticks k) (thread_ticks k) (intr_on k) (in_external_intr k)
    (yield_on_return k) (ticks k) (f (list_threads k)) (semas k) (holders k) (conds k).
Definition upd_semas (f : gmap Z semaphore → gmap Z semaphore) (k : kernel) : kernel :=
  mk_kernel (threads k) (cur k) (ready_list k) (all_list k) (idle_thread k) (initial_thread k)
    (next_tid k) (idle_ticks k) (kernel_ticks k) (thread_ticks k) (intr_on k) (in_external_intr k)
    (yield_on_return k) (ticks k) (list_threads k) (f (semas k)) (holders k) (conds k).
Definition upd_holders (f : gmap Z Z → gmap Z Z) (k : kernel) : kernel :=
  mk_kernel (threads k) (cur k) (ready_list k) (all_list k) (idle_thread k) (initial_thread k)
    (next_tid k) (idle_ticks k) (kernel_ticks k) (thread_ticks k) (intr_on k) (in_external_intr k)
    (yield_on_return k) (ticks k) (list_threads k) (semas k) (f (holders k)) (conds k).
Definition upd_conds (f : gmap Z (list Z) → gmap Z (list Z)) (k : kernel) : kernel :=
  mk_kernel (threads k) (cur k) (ready_list k) (all_list k) (idle_thread k) (initial_thread k)
    (next_tid k) (idle_ticks k) (kernel_ticks k) (thread_ticks k) (intr_on k) (in_external_intr k)
    (yield_on_return k) (ticks k) (list_threads k) (semas k) (holders k) (f (conds k)).

Abbreviation kM := (stM kernel).

(** Access to a [struct thread], semaphore, lock or condition variable. *)
Definition get_thread (t : Z) : kM thread := λ k, th ← deref (threads k !! t); Ok (th, k).
Definition mod_thread (t : Z) (f : thread → thread) : kM unit := λ k,
  th ← deref (threads k !! t); Ok (tt, upd_threads <[t := f th]> k).
Definition get_sema (s : Z) : kM semaphore := λ k, q ← deref (semas k !! s); Ok (q, k).
Definition set_sema (s : Z) (q : semaphore) : kM unit := smod (upd_semas <[s := q]>).
Definition get_holder (l : Z) : kM Z := λ k, h ← deref (holders k !! l); Ok (h, k).
Definition set_holder (l t : Z) : kM unit := smod (upd_holders <[l := t]>).
Definition get_cond (c : Z) : kM (list Z) := λ k, w ← deref (conds k !! c); Ok (w, k).
Definition set_cond (c : Z) (w : list Z) : kM unit := smod (upd_conds <[c := w]>).

(** ** interrupt.c *)

Definition intr_get_level : kM bool := sread intr_on.
Definition intr_context : kM bool := sread in_external_intr.
Definition intr_enable : kM bool :=
  old ← intr_get_level; c ← intr_context; sassert (negb c);; smod (upd_intr true);; mret old.
Definition intr_disable : kM bool := old ← intr_get_level; smod (upd_intr false);; mret old.
Definition intr_set_level (level : bool) : kM bool := if level then intr_enable else intr_disable.
Definition intr_yield_on_return : kM unit :=
  c ← intr_context; sassert c;; smod (λ k, upd_external (in_external_intr k) true k).

(** ** thread.c *)

Definition running_thread : kM Z := sread cur.

(** [is_thread (t)]: reading [magic] through a wild pointer is a fault. *)
Definition is_thread (t : Z) : kM bool :=
  if t =? NULL then mret false else th ← get_thread t; mret (magic th =? THREAD_MAGIC).

Definition thread_current : kM Z :=
  t ← running_thread;
  ok ← is_thread t; sassert ok;;
  th ← get_thread t; sassert (bool_decide (status th = THREAD_RUNNING));;
  mret t.

(** The return point that a call leaves on the running thread's stack. *)
Definition push_frame (f : frame) : kM unit :=
  t ← running_thread; th ← get_thread t; mod_thread t (set_stack (f :: stack th)).

Definition thread_unblock (t : Z) : kM unit :=
  ok ← is_thread t; sassert ok;;
  old ← intr_disable;
  th ← get_thread t; sassert (bool_decide (status th = THREAD_BLOCKED));;
  smod (upd_ready (λ l, l ++ [t]));;
  mod_thread t (set_status THREAD_READY);;
  _ ← intr_set_level old; mret tt.

Definition next_thread_to_run : kM Z := λ k,
  match ready_list k with
  | [] => Ok (idle_thread k, k)
  | t :: l => Ok (t, upd_ready (λ _, l) k)
  end.

(** [palloc_free_page (prev)] ends the life of everything in the page. *)
Definition free_thread (t : Z) : kM unit :=
  smod (λ k, upd_semas (λ m, delete (t + SEM_CHILD_LOAD) (delete (t + SEM_CHILD_WAIT) m))
               (upd_threads (delete t) k)).

Definition thread_schedule_tail (prev : option Z) : kM unit :=
  c ← running_thread;
  lvl ← intr_get_level; sassert (negb lvl);;
  mod_thread c (set_status THREAD_RUNNING);;
  smod (upd_slice 0);;
  match prev with
  | None => mret tt
  | Some p =>
      th ← get_thread p;
      init ← sread initial_thread;
      if bool_decide (status th = THREAD_DYING) && negb (p =? init) then
        sassert (negb (p =? c));; free_thread p
      else mret tt
  end.

Definition schedule : kM unit :=
  c ← running_thread;
  next ← next_thread_to_run;
  lvl ← intr_get_level; sassert (negb lvl);;
  th ← get_thread c; sassert (negb (bool_decide (status th = THREAD_RUNNING)));;
  ok ← is_thread next; sassert ok;;
  if c =? next then thread_schedule_tail None
  else smod (upd_cur (λ _, next));; thread_schedule_tail (Some c).

Definition thread_block : kM unit :=
  c ← intr_context; sassert (negb c);;
  lvl ← intr_get_level; sassert (negb lvl);;
  t ← thread_current;
  mod_thread t (set_status THREAD_BLOCKED);;
  schedule.

Definition thread_yield : kM unit :=
  t ← thread_current;
  c ← intr_context; sassert (negb c);;
  old ← intr_disable;
  idle ← sread idle_thread;
  (if t =? idle then mret tt else smod (upd_ready (λ l, l ++ [t])));;
  push_frame (FYield old);;
  mod_thread t (set_status THREAD_READY);;
  schedule.

Definition list_remove_elem (t : Z) (l : list Z) : list Z := filter (λ x, x ≠ t) l.

(** [process_exit], as far as the records of the children go.  The second
    [list_remove] of an element that was popped writes the links its neighbours
    have already; the message it prints, and the page directory, are left out. *)
Definition process_exit : kM unit :=
  t ← thread_current; mod_thread t (λ th, set_children [] (child_loaded th) th).

Definition thread_exit : kM unit :=
  c ← intr_context; sassert (negb c);;
  process_exit;;
  _ ← intr_disable;
  t ← thread_current;
  smod (upd_all (list_remove_elem t));;
  t ← thread_current;
  mod_thread t (set_status THREAD_DYING);;
  schedule.

(** [kernel_ticks] counts the ticks of all threads but the idle one: the code
    counts those of threads with a page directory apart, in [user_ticks], and
    uses neither except to print them. *)
Definition thread_tick : kM unit :=
  t ← thread_current;
  smod (λ k, if t =? idle_thread k then upd_stats (i64 (idle_ticks k + 1)) (kernel_ticks k) k
             else upd_stats (idle_ticks k) (i64 (kernel_ticks k + 1)) k);;
  smod (λ k, upd_slice (u32 (thread_ticks k + 1)) k);;
  n ← sread thread_ticks;
  if TIME_SLICE <=? n then intr_yield_on_return else mret tt.

Definition thread_tid : kM Z := t ← thread_current; th ← get_thread t; mret (tid th).
Definition thread_name : kM (list Z) := t ← thread_current; th ← get_thread t; mret (name th).
Definition thread_set_priority (p : Z) : kM unit := t ← thread_current; mod_thread t (set_priority p).
Definition thread_get_priority : kM Z := t ← thread_current; th ← get_thread t; mret (priority th).
Definition thread_set_nice (nice : Z) : kM unit := mret tt.
Definition thread_get_nice : kM Z := mret 0.
Definition thread_get_load_avg : kM Z := mret 0.
Definition thread_get_recent_cpu : kM Z := mret 0.

Fixpoint foreach (func : Z → kM unit) (l : list Z) : kM unit :=
  match l with [] => mret tt | t :: l => func t;; foreach func l end.
Definition thread_foreach (func : Z → kM unit) : kM unit :=
  lvl ← intr_get_level; sassert (negb lvl);; l ← sread all_list; foreach func l.

Fixpoint find_child (t : Z) (l : list child) : option child :=
  match l with [] => None | c :: l => if c_tid c =? t then Some c else find_child t l end.

(** ** synch.c *)

Definition sema_init (s v : Z) : kM unit :=
  sassert (negb (s =? NULL));; set_sema s (mk_sema v []).

(** The loop of [sema_down], from the test on. *)
Definition sema_down_loop (s : Z) (old : bool) : kM unit :=
  q ← get_sema s;
  if value q =? 0 then
    t ← thread_current;
    set_sema s (mk_sema (value q) (waiters q ++ [t]));;
    push_frame (FDown s old);;
    thread_block
  else
    set_sema s (mk_sema (u32 (value q - 1)) (waiters q));;
    _ ← intr_set_level old; mret tt.

Definition sema_down (s : Z) : kM unit :=
  sassert (negb (s =? NULL));;
  c ← intr_context; sassert (negb c);;
  old ← intr_disable;
  sema_down_loop s old.

Definition sema_try_down (s : Z) : kM bool :=
  sassert (negb (s =? NULL));;
  old ← intr_disable;
  q ← get_sema s;
  (if 0 <? value q then set_sema s (mk_sema (u32 (value q - 1)) (waiters q)) else mret tt);;
  _ ← intr_set_level old;
  mret (0 <? value q).

Definition sema_up (s : Z) : kM unit :=
  sassert (negb (s =? NULL));;
  old ← intr_disable;
  q ← get_sema s;
  match waiters q with
  | [] => mret tt
  | t :: l => set_sema s (mk_sema (value q) l);; thread_unblock t
  end;;
  q ← get_sema s;
  set_sema s (mk_sema (u32 (value q + 1)) (waiters q));;
  _ ← intr_set_level old; mret tt.

Definition lock_init (l : Z) : kM unit :=
  sassert (negb (l =? NULL));; set_holder l NULL;; sema_init (lock_sema l) 1.

Definition lock_held_by_current_thread (l : Z) : kM bool :=
  sassert (negb (l =? NULL));;
  h ← get_holder l; t ← thread_current; mret (h =? t).

Definition lock_acquire (l : Z) : kM unit :=
  sassert (negb (l =? NULL));;
  c ← intr_context; sassert (negb c);;
  h ← lock_held_by_current_thread l; sassert (negb h);;
  push_frame (FLock l);;
  sema_down (lock_sema l).

Definition lock_try_acquire (l : Z) : kM bool :=
  sassert (negb (l =? NULL));;
  h ← lock_held_by_current_thread l; sassert (negb h);;
  ok ← sema_try_down (lock_sema l);
  (if (ok : bool) then push_frame (FLock l) else mret tt);;
  mret ok.

Definition lock_release (l : Z) : kM unit :=
  sassert (negb (l =? NULL));;
  h ← lock_held_by_current_thread l; sassert h;;
  set_holder l NULL;;
  push_frame (FUp (lock_sema l)).

Definition cond_init (c : Z) : kM unit := sassert (negb (c =? NULL));; set_cond c [].

(** [waiter] is the address of the semaphore in the caller's frame. *)
Definition cond_wait (c l waiter : Z) : kM unit :=
  sassert (negb (c =? NULL));; sassert (negb (l =? NULL));;
  i ← intr_context; sassert (negb i);;
  h ← lock_held_by_current_thread l; sassert h;;
  sema_init waiter 0;;
  w ← get_cond c; set_cond c (w ++ [waiter]);;
  push_frame (FCondDown waiter l);;
  lock_release l.

Definition cond_signal (c l : Z) : kM unit :=
  sassert (negb (c =? NULL));; sassert (negb (l =? NULL));;
  i ← intr_context; sassert (negb i);;
  h ← lock_held_by_current_thread l; sassert h;;
  w ← get_cond c;
  match w with [] => mret tt | s :: w => set_cond c w;; push_frame (FUp s) end.

(** One turn of [cond_broadcast]'s loop. *)
Definition cond_broadcast (c l : Z) : kM unit :=
  sassert (negb (c =? NULL));; sassert (negb (l =? NULL));;
  w ← get_cond c;
  match w with [] => mret tt | _ => push_frame (FBroadcast c l);; cond_signal c l end.

(** ** thread creation and start *)

Definition new_thread (nm : list Z) (p : Z) (f : thread_func) : thread :=
  mk_thread 0 THREAD_BLOCKED nm [FStart f] p 0 0 0 NULL [] 0 0 THREAD_MAGIC.

(** The name is what [strlcpy] leaves in [t->name]. *)
Definition init_thread (t : Z) (nm : list Z) (p : Z) (f : thread_func) : kM unit :=
  sassert (negb (t =? NULL));;
  sassert ((PRI_MIN <=? p) && (p <=? PRI_MAX));;
  smod (upd_threads <[t := new_thread (take 15 nm) p f]>);;
  sema_init (t + SEM_CHILD_LOAD) 0;;
  sema_init (t + SEM_CHILD_WAIT) 0;;
  old ← intr_disable;
  smod (upd_all (λ l, l ++ [t]));;
  _ ← intr_set_level old; mret tt.

(** [t] is what [palloc_get_page] returned. *)
Definition thread_create (t : Z) (nm : list Z) (p : Z) (f : thread_func) : kM unit :=
  if t =? NULL then mret tt
  else
    init_thread t nm p f;;
    push_frame (FTid t);;
    lock_acquire tid_lock.

(** [allocate_tid] with [tid_lock] held. *)
Definition allocate_tid (t : Z) : kM unit :=
  n ← sread next_tid;
  smod (upd_next_tid (i32 (n + 1)));;
  push_frame (FCreated t n);;
  lock_release tid_lock.

(** The rest of [thread_create], if the [malloc] of the child's record
    succeeds; the code does not test it.  It leaves [child_ret] as [malloc]
    left it, which is 0 here. *)
Definition thread_created (t n : Z) : kM unit :=
  mod_thread t (set_tid n);;
  p ← thread_current;
  mod_thread t (set_created p);;
  th ← get_thread p;
  mod_thread p (set_children (child_list th ++ [mk_child n 0 0]) 0);;
  thread_unblock t.

Definition thread_start (t idle_started : Z) : kM unit :=
  sema_init idle_started 0;;
  push_frame (FStarted idle_started);;
  thread_create t [105; 100; 108; 101] PRI_MIN (TIdle idle_started).

Definition kernel_thread (f : thread_func) : kM unit :=
  _ ← intr_enable;
  match f with
  | TUser => push_frame FUser
  | TIdle s =>
      t ← thread_current; smod (upd_idle t);; push_frame FIdle;; sema_up s
  end.

(** One turn of the idle loop. *)
Definition idle : kM unit := _ ← intr_disable; push_frame FHalt;; thread_block.

(** The state in which [thread_init] leaves the running code at [main]. *)
Definition thread_init (main : Z) : kernel :=
  mk_kernel {[main := mk_thread 1 THREAD_RUNNING [109; 97; 105; 110] [FUser] PRI_DEFAULT 0 0 0 NULL [] 0 0 THREAD_MAGIC]}
    main [] [main] NULL main 2 0 0 0 false false false 0 []
    (<[lock_sema tid_lock := mk_sema 1 []]> (<[main + SEM_CHILD_LOAD := mk_sema 0 []]>
      (<[main + SEM_CHILD_WAIT := mk_sema 0 []]> ∅))) {[tid_lock := NULL]} ∅.

(** ** timer.c *)

Definition timer_ticks : kM Z :=
  old ← intr_disable; t ← sread ticks; _ ← intr_set_level old; mret t.
Definition timer_elapsed (t0 : Z) : kM Z := t ← timer_ticks; mret (i64 (t - t0)).

(** [list_insert_ordered (&list_threads, &t->elem, is_less_than, NULL)] *)
Definition is_less_than (m : gmap Z thread) (x y : Z) : bool :=
  match m !! x, m !! y with
  | Some a, Some b => ticks_to_sleep a <? ticks_to_sleep b
  | _, _ => false
  end.
Fixpoint insert_sleeper (m : gmap Z thread) (t : Z) (l : list Z) : list Z :=
  match l with
  | [] => [t]
  | y :: l' => if is_less_than m t y then t :: l else y :: insert_sleeper m t l'
  end.

Definition timer_sleep (n : Z) : kM unit :=
  lvl ← intr_get_level; sassert lvl;;
  t ← thread_current;
  now ← timer_ticks;
  mod_thread t (set_sleep (i64 (now + n)));;
  push_frame FSleeping.

(** The rest of [timer_sleep], from [intr_disable] on. *)
Definition timer_sleep_block : kM unit :=
  t ← thread_current;
  old ← intr_disable;
  smod (λ k, upd_sleepers (insert_sleeper (threads k) t) k);;
  push_frame (FSleep old);;
  thread_block.

(** The loop of [timer_interrupt]; the bound is the number of sleepers. *)
Fixpoint wake_loop (fuel : nat) : kM unit :=
  l ← sread list_threads;
  match l with
  | [] => mret tt
  | t :: l =>
      match fuel with
      | O => serr EFuel
      | S fuel =>
          th ← get_thread t;
          now ← timer_ticks;
          if now <? ticks_to_sleep th then mret tt
          else smod (upd_sleepers (λ _, l));; thread_unblock t;; wake_loop fuel
      end
  end.

Definition timer_interrupt : kM unit :=
  smod (λ k, upd_ticks (i64 (ticks k + 1)) k);;
  thread_tick;;
  l ← sread list_threads;
  wake_loop (length l).

(** The assertion; the loop is [Pit.real_time_delay_loops]. *)
Definition real_time_delay (num denom : Z) : kM unit := sassert (Z.rem denom 1000 =? 0).

Definition real_time_sleep (num denom : Z) : kM unit :=
  let n := Z.quot (i64 (num * TIMER_FREQ)) denom in
  lvl ← intr_get_level; sassert lvl;;
  if 0 <? n then timer_sleep n else real_time_delay num denom.
Definition timer_msleep (ms : Z) : kM unit := real_time_sleep ms 1000.
Definition timer_usleep (us : Z) : kM unit := real_time_sleep us 1000000.
Definition timer_nsleep (ns : Z) : kM unit := real_time_sleep ns 1000000000.

(** ** process.c, syscall.c and exception.c: processes

    The steps of a process that another one can see: a child and its parent
    share the child's record in the parent's list, the parent's [child_loaded]
    and [child_waiting], and its two semaphores.  A timer interrupt can come
    between any two accesses to them. *)

Definition TID_ERROR : Z := -1.

Fixpoint upd_child (n : Z) (f : child → child) (l : list child) : list child :=
  match l with [] => [] | c :: l => if c_tid c =? n then f c :: l else c :: upd_child n f l end.
Fixpoint remove_child (n : Z) (l : list child) : list child :=
  match l with [] => [] | c :: l => if c_tid c =? n then l else c :: remove_child n l end.
Definition with_children (f : list child → list child) (th : thread) : thread :=
  set_children (f (child_list th)) (child_loaded th) th.

(** [fn_copy] and [t] are what [palloc_get_page] returned here and in
    [thread_create]. *)
Definition process_execute (fn_copy t : Z) (file_name : list Z) : kM unit :=
  if (fn_copy =? NULL) || (t =? NULL) then push_frame (FReturn TID_ERROR)
  else push_frame FExec;; thread_create t file_name PRI_DEFAULT TUser.
Definition process_execute_wait : kM unit :=
  t ← thread_current; push_frame FLoaded;; sema_down (t + SEM_CHILD_LOAD).
(** [find_child (tid, ...)] of the new child: the last in the list, to which
    only its owner appends. *)
Definition process_execute_end : kM unit :=
  t ← thread_current; th ← get_thread t;
  match last (child_list th) with
  | None => serr EFault
  | Some c =>
      if child_loaded th =? -1 then
        mod_thread t (with_children (remove_child (c_tid c)));; push_frame (FReturn TID_ERROR)
      else push_frame (FReturn (c_tid c))
  end.

(** [start_process] when [load] has returned. *)
Definition start_process (success : bool) : kM unit :=
  t ← thread_current; th ← get_thread t;
  if success then push_frame (FUp (parent th + SEM_CHILD_LOAD))
  else
    mod_thread t (set_exit_status (-1));;
    mod_thread (parent th) (λ p, set_children (child_list p) (-1) p);;
    push_frame FExitEnd;;
    push_frame (FUp (parent th + SEM_CHILD_LOAD)).

Definition process_wait (child_tid : Z) : kM unit :=
  t ← thread_current; th ← get_thread t;
  if bool_decide (child_list th = []) then push_frame (FReturn (-1))
  else if child_loaded th =? -1 then push_frame (FReturn (-1))
  else
    match find_child child_tid (child_list th) with
    | None => push_frame (FReturn (-1))
    | Some _ => mod_thread t (set_waiting child_tid);; push_frame (FWait child_tid)
    end.
Definition process_wait_down (child_tid : Z) : kM unit :=
  t ← thread_current; th ← get_thread t;
  c ← slift (deref (find_child child_tid (child_list th)));
  push_frame (FWaited child_tid);;
  if child_done c =? 0 then sema_down (t + SEM_CHILD_WAIT) else mret tt.
Definition process_wait_end (child_tid : Z) : kM unit :=
  t ← thread_current; th ← get_thread t;
  c ← slift (deref (find_child child_tid (child_list th)));
  mod_thread t (with_children (remove_child child_tid));;
  push_frame (FReturn (child_ret c)).

(** [exit (status)]; [page_fault] does the same with 0 for the parent. *)
Definition exit (status : Z) : kM unit :=
  t ← thread_current; mod_thread t (set_exit_status status);; push_frame (FExitRet status).
Definition page_fault : kM unit :=
  t ← thread_current; mod_thread t (set_exit_status (-1));; push_frame (FExitRet 0).
Definition exit_ret (status : Z) : kM unit :=
  t ← thread_current; th ← get_thread t; p ← get_thread (parent th);
  match find_child (tid th) (child_list p) with
  | Some _ =>
      mod_thread (parent th) (with_children (upd_child (tid th) (λ c, mk_child (c_tid c) (child_done c) status)));;
      push_frame FExitDone
  | None => push_frame FExitUp
  end.
(** [c_t] is the record found before: if it is gone, this writes to freed memory. *)
Definition exit_done : kM unit :=
  t ← thread_current; th ← get_thread t; p ← get_thread (parent th);
  _ ← slift (deref (find_child (tid th) (child_list p)));
  mod_thread (parent th) (with_children (upd_child (tid th) (λ c, mk_child (c_tid c) 1 (child_ret c))));;
  push_frame FExitUp.
Definition exit_up : kM unit :=
  t ← thread_current; th ← get_thread t; p ← get_thread (parent th);
  push_frame FExitEnd;;
  if child_waiting p =? tid th then push_frame (FUp (parent th + SEM_CHILD_WAIT)) else mret tt.

(** ** The machine *)

(** The timer interrupt, as [intr_handler] delivers it: the interrupt gate
    clears the flag, the return restores it. *)
Definition intr_handler : kM unit :=
  lvl ← intr_get_level;
  if negb lvl then mret tt   (* the processor holds the interrupt back *)
  else
    push_frame FIret;;
    smod (upd_intr false);;
    lvl ← intr_get_level; sassert (negb lvl);;
    c ← intr_context; sassert (negb c);;
    smod (upd_external true false);;
    timer_interrupt;;
    lvl ← intr_get_level; sassert (negb lvl);;
    c ← intr_context; sassert c;;
    smod (λ k, upd_external false (yield_on_return k) k);;
    y ← sread yield_on_return;
    if (y : bool) then thread_yield else mret tt.

(** Continue with what the running thread's topmost frame says. *)
Definition resume (f : frame) : kM unit :=
  match f with
  | FUser => push_frame FUser
  | FStart fn => kernel_thread fn
  | FIret => smod (upd_intr true)
  | FYield old => _ ← intr_set_level old; mret tt
  | FDown s old => sema_down_loop s old
  | FUp s => sema_up s
  | FLock l => t ← thread_current; set_holder l t
  | FCondDown w l => push_frame (FCondLock l);; sema_down w
  | FCondLock l => lock_acquire l
  | FBroadcast c l => cond_broadcast c l
  | FSleeping => timer_sleep_block
  | FSleep old => _ ← intr_set_level old; mret tt
  | FIdle => push_frame FIdle;; idle
  | FHalt => smod (upd_intr true)
  | FTid t => allocate_tid t
  | FCreated t n => thread_created t n
  | FStarted s => _ ← intr_enable; sema_down s
  | FExec => process_execute_wait
  | FLoaded => process_execute_end
  | FWait c => process_wait_down c
  | FWaited c => process_wait_end c
  | FExitRet st => exit_ret st
  | FExitDone => exit_done
  | FExitUp => exit_up
  | FExitEnd => thread_exit
  | FReturn _ => mret tt
  end.

(** What a thread function can ask for. *)
Inductive request :=
| RSemaInit (s v : Z) | RSemaDown (s : Z) | RSemaTryDown (s : Z) | RSemaUp (s : Z)
| RLockInit (l : Z) | RAcquire (l : Z) | RTryAcquire (l : Z) | RRelease (l : Z)
| RCondInit (c : Z) | RCondWait (c l w : Z) | RCondSignal (c l : Z) | RCondBroadcast (c l : Z)
| RYield | RSleep (n : Z) | RCreate (t : Z) (nm : list Z) (p : Z) | RExit
| RSetPriority (p : Z) | RStart (t s : Z)
| RExec (fn_copy t : Z) (nm : list Z) | RLoaded (success : bool) | RWait (child : Z) | RTerminate (status : Z) | RFault.

Definition run_request (r : request) : kM unit :=
  match r with
  | RSemaInit s v => sema_init s v
  | RSemaDown s => sema_down s
  | RSemaTryDown s => _ ← sema_try_down s; mret tt
  | RSemaUp s => sema_up s
  | RLockInit l => lock_init l
  | RAcquire l => lock_acquire l
  | RTryAcquire l => _ ← lock_try_acquire l; mret tt
  | RRelease l => lock_release l
  | RCondInit c => cond_init c
  | RCondWait c l w => cond_wait c l w
  | RCondSignal c l => cond_signal c l
  | RCondBroadcast c l => cond_broadcast c l
  | RYield => thread_yield
  | RSleep n => timer_sleep n
  | RCreate t nm p => thread_create t nm p TUser
  | RExit => thread_exit
  | RSetPriority p => thread_set_priority p
  | RStart t s => thread_start t s
  | RExec fn t nm => process_execute fn t nm
  | RLoaded success => start_process success
  | RWait c => process_wait c
  | RTerminate st => exit st
  | RFault => page_fault
  end.

Inductive event := Tick | Continue | Request (r : request).

Definition pop_frame : kM (option frame) :=
  t ← running_thread; th ← get_thread t;
  match stack th with
  | [] => mret None
  | f :: l => mod_thread t (set_stack l);; mret (Some f)
  end.

(** One step of the processor.  [Continue] runs the topmost frame; a request
    is made by a thread whose own code is running; [RExit] is also what a thread
    function does when it returns to [kernel_thread]. *)
Definition exec (e : event) : kM unit :=
  match e with
  | Tick => intr_handler
  | Continue =>
      f ← pop_frame;
      match f with None => serr EFault | Some f => resume f end
  | Request r =>
      t ← running_thread; th ← get_thread t;
      match stack th with
      | FUser :: _ => run_request r
      | _ => mret tt
      end
  end.

End Threads.
