(* ===== verification/Pit.v ===== *)
(** * devices/pit.c, devices/speaker.c and the calibration of devices/timer.c

    Writes to ports, in order, as a list; the gate of the speaker is read once
    and its value is an argument.  Interrupts are off throughout. *)

From S2P Require Import Prelude Threads.

Module Pit.

Definition PIT_PORT_CONTROL : Z := 67.
Definition PIT_PORT_COUNTER (channel : Z) : Z := 64 + channel.
Definition PIT_HZ : Z := 1193180.
Definition SPEAKER_PORT_GATE : Z := 97.
Definition SPEAKER_GATE_ENABLE : Z := 3.

Definition pit_count (frequency : Z) : Z :=
  if frequency <? 19 then 0 else if PIT_HZ <? frequency then 2 else u16 (Z.quot (PIT_HZ + Z.quot frequency 2) frequency).

Definition pit_configure_channel (channel mode frequency : Z) : res (list (Z * Z)) :=
  assert ((channel =? 0) || (channel =? 2));;
  assert ((mode =? 2) || (mode =? 3));;
  let count := pit_count frequency in
  Ok [(PIT_PORT_CONTROL, u8 (Z.lor (Z.lor (Z.shiftl channel 6) 48) (Z.shiftl mode 1)));
      (PIT_PORT_COUNTER channel, u8 count); (PIT_PORT_COUNTER channel, u8 (Z.shiftr count 8))].

Definition speaker_off (gate : Z) : list (Z * Z) := [(SPEAKER_PORT_GATE, u8 (Z.land gate (Z.lnot SPEAKER_GATE_ENABLE)))].
Definition speaker_on (gate frequency : Z) : res (list (Z * Z)) :=
  if (20 <=? frequency) && (frequency <=? 20000) then
    l ← pit_configure_channel 2 3 frequency; Ok (l ++ [(SPEAKER_PORT_GATE, u8 (Z.lor gate SPEAKER_GATE_ENABLE))])
  else Ok (speaker_off gate).

(** The number of cycles that the timer makes of its two bytes: 0 is 65536. *)
Definition cycles (lo hi : Z) : Z := let c := lo + 256 * hi in if c =? 0 then 65536 else c.

(** For a frequency in range the timer gets the number of cycles that is
    nearest to the period: the error is at most half a cycle. *)
Lemma pit_nearest channel mode frequency :
  channel = 0 ∨ channel = 2 → mode = 2 ∨ mode = 3 → 19 ≤ frequency ≤ PIT_HZ →
  ∃ c lo hi, pit_configure_channel channel mode frequency = Ok [(PIT_PORT_CONTROL, c); (PIT_PORT_COUNTER channel, lo); (PIT_PORT_COUNTER channel, hi)] ∧
    in_u8 lo ∧ in_u8 hi ∧ 2 * Z.abs (frequency * cycles lo hi - PIT_HZ) ≤ frequency.
Proof.
  intros Hc Hm Hf. unfold pit_configure_channel, pit_count. eexists _, _, _. split.
  { destruct Hc as [-> | ->], Hm as [-> | ->]; reflexivity. }
  rewrite (proj2 (Z.ltb_ge frequency 19)), (proj2 (Z.ltb_ge PIT_HZ frequency)) by lia. unfold PIT_HZ in *.
  rewrite (Z.quot_div_nonneg frequency 2), Z.quot_div_nonneg by dlia. set (c := (1193180 + frequency / 2) / frequency).
  assert (2 * Z.abs (frequency * c - 1193180) ≤ frequency) as Hr.
  { pose proof (Z.div_mod (1193180 + frequency / 2) frequency ltac:(lia)). pose proof (Z.mod_pos_bound (1193180 + frequency / 2) frequency ltac:(lia)).
    pose proof (Z.div_mod frequency 2 ltac:(lia)). pose proof (Z.mod_pos_bound frequency 2 ltac:(lia)). fold c in H. lia. }
  assert (1 ≤ c < 65536) as Hcb by nia.
  assert (u16 c = c) as -> by (unfold u16; apply Z.mod_small; lia).
  split; [apply u8_range|]. split; [apply u8_range|]. rewrite Z.shiftr_div_pow2 by done. change (2 ^ 8) with 256. unfold cycles, u8.
  replace (c mod 256 + 256 * ((c / 256) mod 256)) with c by dlia. by rewrite (proj2 (Z.eqb_neq c 0)) by lia.
Qed.

(** A frequency above two thirds of the clock's gives the count 1, which mode 2
    does not have. *)
Lemma pit_count_one frequency : 795454 ≤ frequency ≤ PIT_HZ → pit_count frequency = 1.
Proof.
  unfold PIT_HZ. intros Hf. unfold pit_count, PIT_HZ. rewrite (proj2 (Z.ltb_ge frequency 19)), (proj2 (Z.ltb_ge 1193180 frequency)) by lia.
  rewrite (Z.quot_div_nonneg frequency 2), Z.quot_div_nonneg by dlia.
  replace ((1193180 + frequency / 2) / frequency) with 1; [done|]. apply Z.div_unique with (1193180 + frequency / 2 - frequency); dlia.
Qed.

End Pit.

(** ** The delay loop of devices/timer.c *)

Module Calibrate.

(** The timer interrupts [TIMER_FREQ] times a second. *)
Definition timer_init_pit : res (list (Z * Z)) := Pit.pit_configure_channel 0 2 Threads.TIMER_FREQ.

(** [busy_wait] has no effect but the time it takes: the number of turns. *)
Definition busy_wait (loops : Z) : Z := Z.max 0 loops.

(** [ticks] is the machine: [ticks n] is the value of the variable of that name
    after [n] turns of the delay loop, counted from the start of a tick. *)
Section calibrate.
Context (ticks : Z → Z).

Definition too_many_loops (loops : Z) : bool :=
  let start := ticks 0 in negb (start =? ticks (busy_wait loops)).

(** [loops_per_tick <<= 1] until it is too much; the value is 0 after at most
    22 turns, which the assertion forbids. *)
Fixpoint double_loop (n : nat) (loops_per_tick : Z) : res Z :=
  match n with
  | O => Err EFuel
  | S n =>
      if too_many_loops (u32 (Z.shiftl loops_per_tick 1)) then Ok loops_per_tick
      else let l := u32 (Z.shiftl loops_per_tick 1) in assert (negb (l =? 0));; double_loop n l
  end.
Fixpoint refine_loop (n : nat) (high_bit test_bit loops_per_tick : Z) : res Z :=
  if test_bit =? Z.shiftr high_bit 10 then Ok loops_per_tick
  else
    match n with
    | O => Err EFuel
    | S n => refine_loop n high_bit (Z.shiftr test_bit 1)
        (if too_many_loops (Z.lor high_bit test_bit) then loops_per_tick else Z.lor loops_per_tick test_bit)
    end.
Definition timer_calibrate (intr_on : bool) : res Z :=
  assert intr_on;;
  l ← double_loop 23 (u32 (Z.shiftl 1 10)); refine_loop 9 l (Z.shiftr l 1) l.
End calibrate.

(** The turns that [real_time_delay] waits. *)
Definition real_time_delay_loops (loops_per_tick num denom : Z) : res Z :=
  assert (Z.rem denom 1000 =? 0);;
  Ok (busy_wait (Z.quot (i64 (Z.quot (i64 (loops_per_tick * num)) 1000 * Threads.TIMER_FREQ)) (Z.quot denom 1000))).
Definition timer_mdelay (loops_per_tick ms : Z) : res Z := real_time_delay_loops loops_per_tick ms 1000.
Definition timer_udelay (loops_per_tick us : Z) : res Z := real_time_delay_loops loops_per_tick us 1000000.
Definition timer_ndelay (loops_per_tick ns : Z) : res Z := real_time_delay_loops loops_per_tick ns 1000000000.

(** A machine that makes [period] turns in every tick. *)
Definition even (period n : Z) : Z := n / period.

Lemma too_many_even period l : 0 < period → 0 ≤ l → too_many_loops (even period) l = (period <=? l).
Proof.
  intros Hp Hl. unfold too_many_loops, even, busy_wait. rewrite Z.max_r, Z.div_0_l by lia.
  destruct (Z.leb_spec period l).
  - pose proof (Z.div_le_lower_bound l period 1 Hp ltac:(lia)). by rewrite (proj2 (Z.eqb_neq 0 _)) by lia.
  - by rewrite Z.div_small by lia.
Qed.

(** The first loop ends with the largest power of two that is less than a
    tick. *)
Lemma double_loop_spec period n k :
  (10 ≤ k ≤ 31)%nat → (31 - k < n)%nat → 2 ^ Z.of_nat k < period ≤ W31 →
  ∃ j, (k ≤ j < 31)%nat ∧ double_loop (even period) n (2 ^ Z.of_nat k) = Ok (2 ^ Z.of_nat j) ∧ 2 ^ Z.of_nat j < period ≤ 2 ^ (Z.of_nat j + 1).
Proof.
  revert k. induction n as [|n IH]; intros k Hk Hn Hl; [lia|]. cbn [double_loop].
  assert (k < 31)%nat as Hk31. { destruct (decide (k = 31%nat)) as [->|]; [|lia]. change (2 ^ Z.of_nat 31) with W31 in Hl. lia. }
  rewrite Z.shiftl_mul_pow2 by done. replace (2 ^ Z.of_nat k * 2 ^ 1) with (2 ^ Z.of_nat (S k)) by (rewrite <- Z.pow_add_r by lia; f_equal; lia).
  assert (0 < 2 ^ Z.of_nat k) by (by apply Z.pow_pos_nonneg; lia).
  assert (0 < 2 ^ Z.of_nat (S k) ≤ W31) as Hb.
  { split; [by apply Z.pow_pos_nonneg; lia|]. change W31 with (2 ^ Z.of_nat 31). apply Z.pow_le_mono_r; lia. }
  rewrite u32_small by (unfold in_u32; lia). rewrite too_many_even by lia. destruct (Z.leb_spec period (2 ^ Z.of_nat (S k))).
  - exists k. replace (Z.of_nat k + 1) with (Z.of_nat (S k)) by lia. split_and!; [lia|lia|done|lia|done].
  - rewrite (proj2 (Z.eqb_neq _ 0)) by lia. cbn [negb assert mbind res_bind].
    destruct (IH (S k)) as (j & Hj & Hr & Hlim); [lia|lia|lia|]. exists j. split_and!; [lia|lia|done|apply Hlim|apply Hlim].
Qed.

(** A delay makes the turns that [num / denom] seconds take, rounded down, and
    misses at most those of a thousandth of a unit besides. *)
Lemma delay_turns l num denom n :
  0 ≤ l → 0 ≤ num → l * num < W63 / 100 → 0 < denom →
  real_time_delay_loops l num denom = Ok n →
  n * denom ≤ l * num * Threads.TIMER_FREQ < (n + 1) * denom + 1000 * Threads.TIMER_FREQ.
Proof.
  intros Hl Hn Hb Hd. unfold real_time_delay_loops. destruct (Z.eqb_spec (Z.rem denom 1000) 0) as [Hr|]; [|done].
  rewrite Z.rem_mod_nonneg in Hr by lia. change (W63 / 100) with 92233720368547758 in Hb. unfold Threads.TIMER_FREQ. cbn [assert mbind res_bind].
  assert (0 ≤ l * num) as Hp by nia. set (x := l * num) in *. clearbody x.
  rewrite (i64_small x) by (unfold in_i64; change W63 with 9223372036854775808; lia). rewrite (Z.quot_div_nonneg x 1000) by lia.
  rewrite i64_small by (unfold in_i64; change W63 with 9223372036854775808; dlia). rewrite (Z.quot_div_nonneg denom 1000) by lia.
  assert (denom = 1000 * (denom / 1000)) as Hden by dlia. set (d := denom / 1000) in *. clearbody d. subst denom.
  rewrite Z.quot_div_nonneg by dlia. pose proof (Z.div_mod x 1000 ltac:(lia)). pose proof (Z.mod_pos_bound x 1000 ltac:(lia)).
  pose proof (Z.div_mod (x / 1000 * 100) d ltac:(lia)). pose proof (Z.mod_pos_bound (x / 1000 * 100) d ltac:(lia)).
  assert (0 ≤ x / 1000 * 100 / d) by (apply Z.div_pos; dlia). unfold busy_wait. rewrite Z.max_r by done. intros [= <-].
  set (y := x / 1000 * 100 / d) in *. clearbody y. nia.
Qed.

(** At 100 interrupts a second a tick is 11932 cycles of the chip. *)
Lemma timer_init_pit_spec : timer_init_pit = Ok [(67, 52); (64, 156); (64, 46)] ∧ Pit.cycles 156 46 = 11932.
Proof. done. Qed.

(** The refinement tests every bit by itself and not with the bits that were
    kept before: at 1537 turns in a tick it arrives at 2046. *)
Lemma calibrate_overshoots : timer_calibrate (even 1537) true = Ok 2046.
Proof. vm_compute. reflexivity. Qed.
(** It is right when a tick is hardly longer than a power of two. *)
Lemma calibrate_power : timer_calibrate (even 65537) true = Ok 65536.
Proof. vm_compute. reflexivity. Qed.

End Calibrate.
