(* ===== verification/ThreadInv.v ===== *)
(** * The invariant of the thread system

    A thread's [elem] is on at most one list at any time: the run queue when it
    is ready, a semaphore's waiters or the timer's sleepers when it is blocked.
    The invariant is kept by every step of the processor ([exec]). *)

From stdpp Require Import sorting.
From S2P Require Import Prelude Threads.
Import Threads.

(** ** Threads on lists *)

(** Thread [t] has status [st] and its topmost frame satisfies [P]. *)
Definition parked (m : gmap Z thread) (st : thread_status) (P : list frame → Prop) (t : Z) : Prop :=
  ∃ th, m !! t = Some th ∧ status th = st ∧ P (stack th).

Definition on_down (s : Z) (l : list frame) : Prop := ∃ old rest, l = FDown s old :: rest.
Definition on_sleep (l : list frame) : Prop := ∃ old rest, l = FSleep old :: rest.
Definition anything (l : list frame) : Prop := True.

Definition deadline (m : gmap Z thread) (t : Z) : Z := default 0 (ticks_to_sleep <$> m !! t).
Definition earlier (m : gmap Z thread) (x y : Z) : Prop := deadline m x ≤ deadline m y.

Record lists (m : gmap Z thread) (rdy slp : list Z) (sm : gmap Z semaphore) : Prop := {
  li_ready : NoDup rdy ∧ Forall (parked m THREAD_READY anything) rdy;
  li_wait : map_Forall (λ s q, NoDup (waiters q) ∧ Forall (parked m THREAD_BLOCKED (on_down s)) (waiters q)) sm;
  li_sleep : NoDup slp ∧ Forall (parked m THREAD_BLOCKED on_sleep) slp;
  li_sorted : StronglySorted (earlier m) slp;
}.

(** [t] is on no list. *)
Record unlisted (rdy slp : list Z) (sm : gmap Z semaphore) (t : Z) : Prop := {
  un_ready : t ∉ rdy;
  un_wait : map_Forall (λ _ q, t ∉ waiters q) sm;
  un_sleep : t ∉ slp;
}.

Section lists.
Implicit Types (m : gmap Z thread) (sm : gmap Z semaphore) (th : thread).

Lemma parked_insert_ne m st P t u th : t ≠ u → parked m st P t → parked (<[u := th]> m) st P t.
Proof. intros Hne (x & Hx & ?). exists x. by rewrite lookup_insert_ne. Qed.

Lemma parked_all_insert m st P l u th :
  u ∉ l → Forall (parked m st P) l → Forall (parked (<[u := th]> m) st P) l.
Proof.
  intros Hu Hl. apply Forall_forall. intros t Ht. apply parked_insert_ne; [by intros ->|].
  by apply (proj1 (Forall_forall _ _) Hl).
Qed.

Lemma earlier_insert m l u th :
  u ∉ l → StronglySorted (earlier m) l → StronglySorted (earlier (<[u := th]> m)) l.
Proof.
  intros Hu Hs. induction Hs as [|x l Hs IH Hx]; constructor; [apply IH; set_solver|].
  apply Forall_forall. intros y Hy. unfold earlier, deadline. rewrite !lookup_insert_ne by set_solver.
  by apply (proj1 (Forall_forall _ _) Hx).
Qed.

(** A thread on no list can change in any way. *)
Lemma queues_insert m rdy slp sm t th :
  lists m rdy slp sm → unlisted rdy slp sm t → lists (<[t := th]> m) rdy slp sm.
Proof.
  intros [[Hr Hr2] Hw [Hs Hs2] Hso] [Ur Uw Us]. split.
  - split; [done|by apply parked_all_insert].
  - intros s q Hq. destruct (Hw s q Hq) as [? ?]. split; [done|].
    apply parked_all_insert; [|done]. by apply (Uw s q).
  - split; [done|by apply parked_all_insert].
  - by apply earlier_insert.
Qed.

Lemma queues_delete m rdy slp sm t :
  lists m rdy slp sm → unlisted rdy slp sm t → lists (delete t m) rdy slp sm.
Proof.
  assert (∀ st P l, t ∉ l → Forall (parked m st P) l → Forall (parked (delete t m) st P) l) as Hd.
  { intros st P l Ht Hl. apply Forall_forall. intros x Hx.
    destruct (proj1 (Forall_forall _ _) Hl x Hx) as (y & Hy & ?). exists y.
    rewrite lookup_delete_ne; [done|]. by intros ->. }
  intros [[Hr Hr2] Hw [Hs Hs2] Hso] [Ur Uw Us]. split.
  - split; [done|by apply Hd].
  - intros s q Hq. destruct (Hw s q Hq) as [? ?]. split; [done|]. apply Hd; [|done]. by apply (Uw s q).
  - split; [done|by apply Hd].
  - clear Hs Hs2 Hr Hr2 Hw Uw Ur. induction Hso as [|x l Hs IH Hx]; constructor; [apply IH; set_solver|].
    apply Forall_forall. intros y Hy. unfold earlier, deadline. rewrite !lookup_delete_ne by set_solver.
    by apply (proj1 (Forall_forall _ _) Hx).
Qed.

Lemma lists_sema m rdy slp sm s q :
  lists m rdy slp sm → NoDup (waiters q) → Forall (parked m THREAD_BLOCKED (on_down s)) (waiters q) →
  lists m rdy slp (<[s := q]> sm).
Proof.
  intros [Hr Hw Hs Hso] Hnd Hp. split; [done| |done|done].
  intros s' q' Hq. destruct (decide (s = s')) as [<-|Hne].
  - rewrite lookup_insert_eq in Hq. by injection Hq as <-.
  - rewrite lookup_insert_ne in Hq by done. by apply Hw.
Qed.

Lemma lists_sema_delete m rdy slp sm s : lists m rdy slp sm → lists m rdy slp (delete s sm).
Proof. intros [Hr Hw Hs Hso]. split; [done| |done|done]. by apply map_Forall_delete. Qed.

(** The state of a thread tells which list it can be on. *)
Lemma listed_status m rdy slp sm t th :
  lists m rdy slp sm → m !! t = Some th →
  status th ≠ THREAD_READY → status th ≠ THREAD_BLOCKED → unlisted rdy slp sm t.
Proof.
  intros [[_ Hr] Hw [_ Hs] _] Ht Hnr Hnb. split.
  - intros Hin. destruct (proj1 (Forall_forall _ _) Hr t Hin) as (x & ? & ? & _). simplify_eq; congruence.
  - intros s q Hq Hin. destruct (Hw s q Hq) as [_ Hp].
    destruct (proj1 (Forall_forall _ _) Hp t Hin) as (x & ? & ? & _). simplify_eq; congruence.
  - intros Hin. destruct (proj1 (Forall_forall _ _) Hs t Hin) as (x & ? & ? & _). simplify_eq; congruence.
Qed.

Lemma listed_fresh m rdy slp sm t : lists m rdy slp sm → m !! t = None → unlisted rdy slp sm t.
Proof.
  intros [[_ Hr] Hw [_ Hs] _] Ht. split.
  - intros Hin. destruct (proj1 (Forall_forall _ _) Hr t Hin) as (x & ? & _). simplify_eq; congruence.
  - intros s q Hq Hin. destruct (Hw s q Hq) as [_ Hp].
    destruct (proj1 (Forall_forall _ _) Hp t Hin) as (x & ? & _). simplify_eq; congruence.
  - intros Hin. destruct (proj1 (Forall_forall _ _) Hs t Hin) as (x & ? & _). simplify_eq; congruence.
Qed.

Lemma waiting_elsewhere m rdy slp sm s q t :
  lists m rdy slp sm → sm !! s = Some q → t ∈ waiters q →
  t ∉ rdy ∧ t ∉ slp ∧ ∀ s' q', sm !! s' = Some q' → t ∈ waiters q' → s' = s.
Proof.
  intros [[_ Hr] Hw [_ Hs] _] Hq Hin. destruct (Hw s q Hq) as [_ Hp].
  destruct (proj1 (Forall_forall _ _) Hp t Hin) as (th & Hth & Hst & old & rest & Hk). split_and!.
  - intros Hin2. destruct (proj1 (Forall_forall _ _) Hr t Hin2) as (x & ? & ? & _). simplify_eq; congruence.
  - intros Hin2. destruct (proj1 (Forall_forall _ _) Hs t Hin2) as (x & ? & ? & ? & ? & ?). simplify_eq; congruence.
  - intros s' q' Hq' Hin2. destruct (Hw s' q' Hq') as [_ Hp'].
    destruct (proj1 (Forall_forall _ _) Hp' t Hin2) as (x & ? & ? & ? & ? & ?). simplify_eq; congruence.
Qed.

Lemma sleeping_elsewhere m rdy slp sm t :
  lists m rdy slp sm → t ∈ slp → t ∉ rdy ∧ map_Forall (λ _ q, t ∉ waiters q) sm.
Proof.
  intros [[_ Hr] Hw [_ Hs] _] Hin.
  destruct (proj1 (Forall_forall _ _) Hs t Hin) as (th & Hth & Hst & old & rest & Hk). split.
  - intros Hin2. destruct (proj1 (Forall_forall _ _) Hr t Hin2) as (x & ? & ? & _). simplify_eq; congruence.
  - intros s q Hq Hin2. destruct (Hw s q Hq) as [_ Hp].
    destruct (proj1 (Forall_forall _ _) Hp t Hin2) as (x & ? & ? & ? & ? & ?). simplify_eq; congruence.
Qed.

(** ** Moves between lists *)

(** Appending to the run queue. *)
Lemma lists_enqueue m rdy slp sm t :
  lists m rdy slp sm → t ∉ rdy → parked m THREAD_READY anything t → lists m (rdy ++ [t]) slp sm.
Proof.
  intros [[Hr Hr2] Hw Hs Hso] Ht Hp. split; [|done|done|done]. split.
  - apply NoDup_app. split; [done|]. split; [|apply NoDup_singleton].
    intros x Hx Hx2. apply list_elem_of_singleton in Hx2 as ->. done.
  - apply Forall_app. split; [done|]. by apply Forall_singleton.
Qed.

Lemma lists_dequeue m t rdy slp sm :
  lists m (t :: rdy) slp sm → lists m rdy slp sm ∧ unlisted rdy slp sm t.
Proof.
  intros [[Hr Hr2] Hw [Hs Hs2] Hso]. apply NoDup_cons in Hr as [Ht Hr].
  apply Forall_cons in Hr2 as [(th & Hth & Hst & _) Hr2]. split; [by split|]. split; [done| |].
  - intros s q Hq Hin. destruct (Hw s q Hq) as [_ Hp].
    destruct (proj1 (Forall_forall _ _) Hp t Hin) as (x & ? & ? & _). simplify_eq; congruence.
  - intros Hin. destruct (proj1 (Forall_forall _ _) Hs2 t Hin) as (x & ? & ? & _). simplify_eq; congruence.
Qed.

(** The first waiter leaves its semaphore. *)
Lemma lists_wake m rdy slp sm s v t l :
  lists m rdy slp sm → sm !! s = Some (mk_sema v (t :: l)) →
  lists m rdy slp (<[s := mk_sema v l]> sm) ∧ unlisted rdy slp (<[s := mk_sema v l]> sm) t ∧
  parked m THREAD_BLOCKED (on_down s) t.
Proof.
  intros Hl Hq. destruct (waiting_elsewhere _ _ _ _ _ _ t Hl Hq ltac:(by left)) as (Hr & Hs & Hu).
  destruct (li_wait _ _ _ _ Hl s _ Hq) as [Hnd Hp]. simpl in *.
  apply NoDup_cons in Hnd as [Htl Hnd]. apply Forall_cons in Hp as [Hpt Hp].
  split; [by apply lists_sema|]. split; [|done]. split; [done| |done].
  intros s' q'. destruct (decide (s = s')) as [<-|Hne].
  - rewrite lookup_insert_eq. by intros [= <-].
  - rewrite lookup_insert_ne by done. intros Hq' Hin. by apply Hne, eq_sym, (Hu s' q').
Qed.

(** The first sleeper is taken off. *)
Lemma lists_unsleep m rdy t slp sm :
  lists m rdy (t :: slp) sm →
  lists m rdy slp sm ∧ unlisted rdy slp sm t ∧ parked m THREAD_BLOCKED on_sleep t.
Proof.
  intros Hl. destruct (sleeping_elsewhere _ _ _ _ t Hl ltac:(by left)) as [Hr Hw'].
  destruct Hl as [Hr0 Hw [Hs Hs2] Hso]. apply NoDup_cons in Hs as [Ht Hs].
  apply Forall_cons in Hs2 as [Hpt Hs2]. inversion Hso. split; [by split|]. split; [by split|done].
Qed.

(** A blocked thread that is on no list becomes ready. *)
Lemma lists_ready m rdy slp sm t th :
  lists m rdy slp sm → unlisted rdy slp sm t → m !! t = Some th →
  lists (<[t := set_status THREAD_READY th]> m) (rdy ++ [t]) slp sm.
Proof.
  intros Hl Hu Ht. apply lists_enqueue; [by apply queues_insert|apply Hu|].
  eexists. by rewrite lookup_insert_eq.
Qed.

(** A thread that is on no list starts to wait. *)
Lemma lists_block m rdy slp sm s q t th :
  lists m rdy slp sm → unlisted rdy slp sm t → sm !! s = Some q →
  status th = THREAD_BLOCKED → on_down s (stack th) →
  lists (<[t := th]> m) rdy slp (<[s := mk_sema (value q) (waiters q ++ [t])]> sm).
Proof.
  intros Hl Hu Hq Hst Hk. destruct (li_wait _ _ _ _ Hl s _ Hq) as [Hnd Hp].
  apply lists_sema; [by apply queues_insert|simpl|simpl].
  - apply NoDup_app. split; [done|]. split; [|apply NoDup_singleton].
    intros x Hx Hx2. apply list_elem_of_singleton in Hx2 as ->. by apply (un_wait _ _ _ _ Hu s q).
  - apply Forall_app. split; [apply parked_all_insert; [by apply (un_wait _ _ _ _ Hu s q)|done]|].
    apply Forall_singleton. exists th. by rewrite lookup_insert_eq.
Qed.

Lemma insert_sleeper_perm m t l : insert_sleeper m t l ≡ₚ t :: l.
Proof.
  induction l as [|y l IH]; simpl; [done|]. case_match; [done|]. rewrite IH. apply Permutation_swap.
Qed.

Lemma insert_sleeper_sorted m t l :
  is_Some (m !! t) → Forall (λ x, is_Some (m !! x)) l →
  StronglySorted (earlier m) l → StronglySorted (earlier m) (insert_sleeper m t l).
Proof.
  intros [th Ht] Hl Hs. induction Hs as [|y l Hs IH Hy]; simpl; [by repeat constructor|].
  apply Forall_cons in Hl as [[ty Hty] Hl].
  assert (is_less_than m t y = (deadline m t <? deadline m y)) as ->.
  { unfold is_less_than, deadline. by rewrite Ht, Hty. }
  destruct (Z.ltb_spec (deadline m t) (deadline m y)) as [Hlt|Hge].
  - constructor; [by constructor|]. constructor; [unfold earlier; lia|].
    eapply Forall_impl; [exact Hy|]. unfold earlier. intros; lia.
  - constructor; [by apply IH|]. rewrite insert_sleeper_perm. constructor; [unfold earlier; lia|done].
Qed.

(** A thread that is on no list goes to sleep. *)
Lemma lists_snooze m rdy slp sm t th :
  lists m rdy slp sm → unlisted rdy slp sm t → status th = THREAD_BLOCKED → on_sleep (stack th) →
  lists (<[t := th]> m) rdy (insert_sleeper (<[t := th]> m) t slp) sm.
Proof.
  intros Hl Hu Hst Hk. pose proof (queues_insert _ _ _ _ t th Hl Hu) as [Hr Hw [Hs Hs2] Hso].
  split; [done|done| |].
  - rewrite insert_sleeper_perm. split; [apply NoDup_cons; split; [apply Hu|done]|].
    constructor; [exists th; by rewrite lookup_insert_eq|done].
  - apply insert_sleeper_sorted; [by rewrite lookup_insert_eq| |done].
    eapply Forall_impl; [exact Hs2|]. intros x (y & -> & _). done.
Qed.

End lists.

(** ** The invariant *)

(** Frames left by a function that called [schedule], or by [thread_create]:
    a thread is switched to with such a frame on top, and interrupts off. *)
Definition at_switch (f : frame) : bool :=
  match f with FStart _ | FYield _ | FDown _ _ | FSleep _ | FHalt => true | _ => false end.

Definition top_switch (l : list frame) : bool := match l with f :: _ => at_switch f | [] => false end.

Definition stack_ok (l : list frame) : Prop :=
  Forall (λ f, at_switch f = false) (tail l) ∧ (∀ f r, l = FStart f :: r → r = []).

(** What the idle thread ever does. *)
Definition idle_frame (f : frame) : Prop :=
  match f with FIret | FYield _ | FHalt | FIdle => True | _ => False end.

(** ** Threads that are being created

    [thread_create] goes on with a new thread after it has waited for the lock
    on thread identifiers: until then the new thread is blocked, on no list and
    known to its creator only. *)

Definition target (f : frame) : option Z :=
  match f with FTid t => Some t | FCreated t _ => Some t | _ => None end.
Definition pending (l : list frame) : list Z := omap target l.
Definition newborn (l : list frame) : Prop := ∃ f, l = [FStart f].

Record born (m : gmap Z thread) : Prop := {
  bo_new : map_Forall (λ _ th, NoDup (pending (stack th)) ∧
    Forall (parked m THREAD_BLOCKED newborn) (pending (stack th))) m;
  bo_one : ∀ c1 c2 th1 th2 t, m !! c1 = Some th1 → m !! c2 = Some th2 →
    t ∈ pending (stack th1) → t ∈ pending (stack th2) → c1 = c2;
}.

(** Nobody is creating [t]. *)
Definition untargeted (m : gmap Z thread) (t : Z) : Prop := map_Forall (λ _ th, t ∉ pending (stack th)) m.

Section born.
Implicit Types (m : gmap Z thread) (th : thread).

Lemma grown_untargeted m t th :
  born m → m !! t = Some th → ¬ (status th = THREAD_BLOCKED ∧ newborn (stack th)) → untargeted m t.
Proof.
  intros [Hn _] Ht Hg c x Hx Hin. destruct (Hn c x Hx) as [_ Hp].
  destruct (proj1 (Forall_forall _ _) Hp t Hin) as (y & Hy & Hst & Hnb). simplify_eq. by apply Hg.
Qed.

Lemma fresh_untargeted m t : born m → m !! t = None → untargeted m t.
Proof.
  intros [Hn _] Ht c x Hx Hin. destruct (Hn c x Hx) as [_ Hp].
  destruct (proj1 (Forall_forall _ _) Hp t Hin) as (y & Hy & _). congruence.
Qed.

(** A thread that nobody is creating changes; new creations are its own. *)
Lemma born_insert m c th' :
  born m → untargeted m c → NoDup (pending (stack th')) →
  Forall (λ t, (∃ th, m !! c = Some th ∧ t ∈ pending (stack th)) ∨
    (parked m THREAD_BLOCKED newborn t ∧ untargeted m t ∧ t ≠ c)) (pending (stack th')) →
  born (<[c := th']> m).
Proof.
  intros [Hn Ho] Hu Hnd Hall. rewrite Forall_forall in Hall.
  assert (∀ t, t ∈ pending (stack th') → parked m THREAD_BLOCKED newborn t ∧ t ≠ c) as Hnew.
  { intros t Ht. destruct (Hall t Ht) as [(th & Hth & Hin)|(? & ? & ?)]; [|done].
    destruct (Hn c th Hth) as [_ Hp]. rewrite Forall_forall in Hp. split; [by apply Hp|].
    intros ->. by apply (Hu c th Hth). }
  split.
  - intros u x. destruct (decide (c = u)) as [<-|Hne].
    + rewrite lookup_insert_eq. intros [= <-]. split; [done|]. apply Forall_forall. intros t Ht.
      destruct (Hnew t Ht). by apply parked_insert_ne.
    + rewrite lookup_insert_ne by done. intros Hx. destruct (Hn u x Hx) as [? Hp]. split; [done|].
      apply parked_all_insert; [|done]. by apply (Hu u x).
  - assert (∀ u x t, c ≠ u → m !! u = Some x → t ∈ pending (stack x) → t ∈ pending (stack th') → False) as Hx.
    { intros u x t Hne Hux Hin Hin'. destruct (Hall t Hin') as [(th & Hth & Hin2)|(_ & Hut & _)].
      - by apply Hne, (Ho c u th x t).
      - by apply (Hut u x Hux). }
    intros c1 c2 th1 th2 t. destruct (decide (c = c1)) as [<-|H1], (decide (c = c2)) as [<-|H2];
      rewrite ?lookup_insert_eq, ?lookup_insert_ne by done; try done.
    + intros [= <-] Hc2 Hi1 Hi2. destruct (Hx c2 th2 t); done.
    + intros Hc1 [= <-] Hi1 Hi2. destruct (Hx c1 th1 t); done.
    + intros. by eapply Ho.
Qed.

Lemma born_same m c th th' :
  born m → m !! c = Some th → untargeted m c → pending (stack th') = pending (stack th) → born (<[c := th']> m).
Proof.
  intros Hb Hc Hu Hp. destruct (bo_new _ Hb c th Hc) as [? ?]. apply born_insert; rewrite ?Hp; try done.
  apply Forall_forall. intros t Ht. left. eauto.
Qed.

Lemma born_delete m c : born m → untargeted m c → born (delete c m).
Proof.
  intros [Hn Ho] Hu. split.
  - intros u x [Hne Hx]%lookup_delete_Some. destruct (Hn u x Hx) as [? Hp]. split; [done|].
    apply Forall_forall. intros t Ht. destruct (proj1 (Forall_forall _ _) Hp t Ht) as (y & Hy & ?).
    exists y. rewrite lookup_delete_ne; [done|]. intros ->. by apply (Hu u x Hx).
  - intros c1 c2 th1 th2 t [_ H1]%lookup_delete_Some [_ H2]%lookup_delete_Some. by eapply Ho.
Qed.

End born.

Record wf (m : gmap Z thread) (rdy slp : list Z) (sm : gmap Z semaphore) (idl : Z) (run : option Z) : Prop := {
  w_lists : lists m rdy slp sm;
  w_threads : map_Forall (λ t th, t ≠ NULL ∧ magic th = THREAD_MAGIC ∧
    (status th = THREAD_RUNNING ↔ run = Some t) ∧ stack_ok (stack th)) m;
  w_run : ∀ t, run = Some t → is_Some (m !! t);
  w_born : born m;
  w_idle : idl ≠ NULL → idl ∉ rdy ∧
    ∃ th, m !! idl = Some th ∧ status th ≠ THREAD_DYING ∧ Forall idle_frame (stack th);
}.

Abbreviation wfk k run := (wf (threads k) (ready_list k) (list_threads k) (semas k) (idle_thread k) run).

Record inv (k : kernel) : Prop := {
  inv_wf : wfk k (Some (cur k));
  inv_context : in_external_intr k = false;
  inv_level : ∀ th, threads k !! cur k = Some th → top_switch (stack th) = true → intr_on k = false;
}.

(** ** Inverting runs *)

Section runs.
Implicit Types (k : kernel) (th : thread).

Lemma get_thread_inv t k th k' : get_thread t k = Ok (th, k') → threads k !! t = Some th ∧ k' = k.
Proof. unfold get_thread. destruct (threads k !! t); simpl; [|done]. by intros [= -> ->]. Qed.
Lemma mod_thread_inv t f k u k' :
  mod_thread t f k = Ok (u, k') → ∃ th, threads k !! t = Some th ∧ k' = upd_threads <[t := f th]> k.
Proof. unfold mod_thread. destruct (threads k !! t); simpl; [|done]. intros [= _ <-]. eauto. Qed.
Lemma get_sema_inv s k q k' : get_sema s k = Ok (q, k') → semas k !! s = Some q ∧ k' = k.
Proof. unfold get_sema. destruct (semas k !! s); simpl; [|done]. by intros [= -> ->]. Qed.
Lemma get_holder_inv l k h k' : get_holder l k = Ok (h, k') → holders k !! l = Some h ∧ k' = k.
Proof. unfold get_holder. destruct (holders k !! l); simpl; [|done]. by intros [= -> ->]. Qed.
Lemma get_cond_inv c k w k' : get_cond c k = Ok (w, k') → conds k !! c = Some w ∧ k' = k.
Proof. unfold get_cond. destruct (conds k !! c); simpl; [|done]. by intros [= -> ->]. Qed.
Lemma sassert_inv b k u k' : sassert b k = Ok (u, k') → b = true ∧ k' = k.
Proof. destruct b; [by intros [= _ <-]|done]. Qed.
Lemma sread_inv {A} (f : kernel → A) k a k' : sread f k = Ok (a, k') → a = f k ∧ k' = k.
Proof. by intros [= <- <-]. Qed.
Lemma smod_inv f k (u : unit) k' : smod f k = Ok (u, k') → k' = f k.
Proof. by intros [= _ <-]. Qed.
Lemma mret_inv {A} (a b : A) k k' : (mret a : kM A) k = Ok (b, k') → b = a ∧ k' = k.
Proof. by intros [= <- <-]. Qed.
Lemma is_thread_inv t k b k' :
  is_thread t k = Ok (b, k') →
  k' = k ∧ (b = true → t ≠ NULL ∧ ∃ th, threads k !! t = Some th ∧ magic th = THREAD_MAGIC).
Proof.
  unfold is_thread. destruct (Z.eqb_spec t NULL); [by intros [= <- <-]|].
  intros (th & k1 & [Ht ->]%get_thread_inv & [= <- <-])%stM_bind_inv. split; [done|].
  intros Hm%Z.eqb_eq. eauto.
Qed.
End runs.

(** Take a run apart into the runs of its parts. *)
Ltac munfold :=
  repeat match goal with
  | H : (_ ≫= _) _ = Ok _ |- _ => apply stM_bind_inv in H as (? & ? & ? & H); cbv beta in H
  | H : sread _ _ = Ok _ |- _ => apply sread_inv in H as [? ?]; subst
  | H : smod _ _ = Ok _ |- _ => apply smod_inv in H; subst
  | H : sassert _ _ = Ok _ |- _ => apply sassert_inv in H as [? ?]; subst
  | H : mret _ _ = Ok _ |- _ => apply mret_inv in H as [? ?]; subst
  | H : get_thread _ _ = Ok _ |- _ => apply get_thread_inv in H as [? ?]; subst
  | H : mod_thread _ _ _ = Ok _ |- _ => apply mod_thread_inv in H as (? & ? & ?); subst
  | H : get_sema _ _ = Ok _ |- _ => apply get_sema_inv in H as [? ?]; subst
  | H : get_holder _ _ = Ok _ |- _ => apply get_holder_inv in H as [? ?]; subst
  | H : get_cond _ _ = Ok _ |- _ => apply get_cond_inv in H as [? ?]; subst
  | H : is_thread _ _ = Ok _ |- _ => apply is_thread_inv in H as [? ?]; subst
  end.

Section effects.
Implicit Types (k : kernel) (th : thread).

Lemma intr_set_level_inv lvl k old k' :
  intr_set_level lvl k = Ok (old, k') → old = intr_on k ∧ k' = upd_intr lvl k.
Proof.
  destruct lvl; simpl; unfold intr_enable, intr_disable, intr_get_level, intr_context; intros; munfold; done.
Qed.
Lemma intr_disable_inv k old k' : intr_disable k = Ok (old, k') → old = intr_on k ∧ k' = upd_intr false k.
Proof. apply (intr_set_level_inv false). Qed.
Lemma intr_enable_inv k old k' : intr_enable k = Ok (old, k') → old = intr_on k ∧ k' = upd_intr true k.
Proof. apply (intr_set_level_inv true). Qed.
Lemma push_frame_inv f k u k' :
  push_frame f k = Ok (u, k') →
  ∃ th, threads k !! cur k = Some th ∧ k' = upd_threads <[cur k := set_stack (f :: stack th) th]> k.
Proof. unfold push_frame, running_thread. intros. munfold. simplify_eq. eauto. Qed.
Lemma thread_current_inv k t k' :
  thread_current k = Ok (t, k') →
  k' = k ∧ t = cur k ∧ ∃ th, threads k !! cur k = Some th ∧ status th = THREAD_RUNNING.
Proof.
  unfold thread_current, running_thread. intros. munfold.
  repeat match goal with H : bool_decide _ = true |- _ => apply bool_decide_eq_true in H end.
  split; [done|]. split; [done|]. eauto.
Qed.

End effects.

Ltac krun :=
  repeat (munfold; match goal with
  | H : intr_get_level _ = Ok _ |- _ => unfold intr_get_level in H
  | H : intr_context _ = Ok _ |- _ => unfold intr_context in H
  | H : running_thread _ = Ok _ |- _ => unfold running_thread in H
  | H : set_sema _ _ _ = Ok _ |- _ => unfold set_sema in H
  | H : set_holder _ _ _ = Ok _ |- _ => unfold set_holder in H
  | H : set_cond _ _ _ = Ok _ |- _ => unfold set_cond in H
  | H : intr_disable _ = Ok _ |- _ => apply intr_disable_inv in H as [? ?]; subst
  | H : intr_enable _ = Ok _ |- _ => apply intr_enable_inv in H as [? ?]; subst
  | H : intr_set_level _ _ = Ok _ |- _ => apply intr_set_level_inv in H as [? ?]; subst
  | H : push_frame _ _ = Ok _ |- _ => apply push_frame_inv in H as (? & ? & ?); subst
  | H : thread_current _ = Ok _ |- _ => apply thread_current_inv in H as (? & ? & ? & ? & ?); subst
  | H : bool_decide _ = true |- _ => apply bool_decide_eq_true in H
  | H : negb _ = true |- _ => apply negb_true_iff in H
  | H : unit |- _ => destruct H
  | H : bool_decide _ = false |- _ => apply bool_decide_eq_false in H
  end); munfold.

(** Everything about the kernel that a thread switch leaves alone. *)
Record switched (k k' : kernel) : Prop := {
  sw_sleepers : list_threads k' = list_threads k;
  sw_ticks : ticks k' = ticks k;
  sw_idle : idle_thread k' = idle_thread k;
  sw_external : in_external_intr k' = in_external_intr k;
  sw_intr : intr_on k' = intr_on k;
  sw_slice : thread_ticks k' = 0;
  sw_next : ready_list k = cur k' :: ready_list k' ∨ ready_list k = [] ∧ ready_list k' = [] ∧ cur k' = idle_thread k;
}.

Section schedule.
Implicit Types (k : kernel) (th : thread) (m : gmap Z thread).

Lemma wf_enter m rdy slp sm idl t th :
  wf m rdy slp sm idl None → unlisted rdy slp sm t → m !! t = Some th →
  status th ≠ THREAD_DYING → ¬ (status th = THREAD_BLOCKED ∧ newborn (stack th)) →
  wf (<[t := set_status THREAD_RUNNING th]> m) rdy slp sm idl (Some t).
Proof.
  intros [Hl Ht Hr Hb Hi] Hu Hm Hd Hg. split.
  - by apply queues_insert.
  - intros u x. destruct (decide (t = u)) as [<-|Hne].
    + rewrite lookup_insert_eq. intros [= <-]. destruct (Ht t th Hm) as (? & ? & _ & ?). simpl. naive_solver.
    + rewrite lookup_insert_ne by done. intros Hx. destruct (Ht u x Hx) as (? & ? & Hst & ?).
      split_and!; try done. rewrite Hst. naive_solver.
  - intros u [= <-]. by rewrite lookup_insert_eq.
  - eapply born_same; [done|done|by eapply grown_untargeted|done].
  - intros Hidl. destruct (Hi Hidl) as (Hin & x & Hx & Hs & Hf). split; [done|].
    destruct (decide (t = idl)) as [<-|Hne].
    + rewrite lookup_insert_eq. eexists. split; [done|]. simplify_eq. done.
    + rewrite lookup_insert_ne by done. eauto.
Qed.

(** A dead thread's page goes. *)
Lemma wf_free m rdy slp sm idl run t th s1 s2 :
  wf m rdy slp sm idl run → m !! t = Some th → status th = THREAD_DYING →
  wf (delete t m) rdy slp (delete s1 (delete s2 sm)) idl run.
Proof.
  intros [Hl Ht Hr Hb Hi] Hm Hd. split.
  - apply lists_sema_delete, lists_sema_delete, queues_delete; [done|].
    eapply listed_status; [done|done|by rewrite Hd|by rewrite Hd].
  - by apply map_Forall_delete.
  - intros u Hu. destruct (Hr u Hu) as [x Hx]. rewrite lookup_delete_ne; [done|]. intros <-. simplify_eq.
    destruct (Ht t th Hm) as (_ & _ & Hst & _). rewrite Hd in Hst. naive_solver.
  - apply born_delete; [done|]. eapply grown_untargeted; [done|done|]. rewrite Hd. by intros [? _].
  - intros Hidl. destruct (Hi Hidl) as (Hin & x & Hx & Hs & Hf). split; [done|].
    rewrite lookup_delete_ne; [by eauto|]. intros <-. simplify_eq.
Qed.

Lemma idle_unlisted m rdy slp sm idl run :
  wf m rdy slp sm idl run → idl ≠ NULL → unlisted rdy slp sm idl.
Proof.
  intros [[_ Hw [_ Hs] _] _ _ _ Hi] Hidl. destruct (Hi Hidl) as (Hin & th & Hth & _ & Hf). split; [done| |].
  - intros s q Hq Hin2. destruct (Hw s q Hq) as [_ Hp].
    destruct (proj1 (Forall_forall _ _) Hp _ Hin2) as (x & ? & ? & ? & ? & E). simplify_eq.
    rewrite E in Hf. by apply Forall_cons in Hf as [[] _].
  - intros Hin2. destruct (proj1 (Forall_forall _ _) Hs _ Hin2) as (x & ? & ? & ? & ? & E). simplify_eq.
    rewrite E in Hf. by apply Forall_cons in Hf as [[] _].
Qed.

(** The next thread, taken off the run queue. *)
Lemma next_thread_spec k t k' :
  wfk k None → next_thread_to_run k = Ok (t, k') → t ≠ NULL →
  ∃ l, k' = upd_ready (λ _, l) k ∧ wfk k' None ∧ unlisted l (list_threads k) (semas k) t ∧
    (∃ th, threads k !! t = Some th ∧ status th ≠ THREAD_DYING ∧
      ¬ (status th = THREAD_BLOCKED ∧ newborn (stack th))) ∧
    (ready_list k = t :: l ∨ ready_list k = [] ∧ l = [] ∧ t = idle_thread k).
Proof.
  intros Hwf Hn Ht. unfold next_thread_to_run in Hn. destruct (ready_list k) as [|x l] eqn:Er.
  - injection Hn as <- <-. exists []. split; [destruct k; simpl in *; by subst|].
    split; [by rewrite Er|]. split; [by eapply idle_unlisted|].
    destruct (w_idle _ _ _ _ _ _ Hwf Ht) as (_ & th & ? & ? & Hf). split; [|auto].
    exists th. split; [done|]. split; [done|]. intros [_ [f E]]. rewrite E in Hf.
    by apply Forall_cons in Hf as [? _].
  - injection Hn as <- <-. exists l. split; [done|].
    destruct Hwf as [Hl Hth Hr Hb Hi]. destruct (li_ready _ _ _ _ Hl) as [_ Hrd].
    apply Forall_cons in Hrd as [(th & Hth' & Hst & _) _].
    destruct (lists_dequeue _ _ _ _ _ Hl) as [Hl' Hu]. split.
    { split; [done|done|done|done|]. intros Hidl. destruct (Hi Hidl) as [Hin ?]. split; [|done].
      simpl. set_solver. }
    split; [done|]. split; [|auto]. exists th. split; [done|]. rewrite Hst. split; [done|]. by intros [? _].
Qed.

Lemma schedule_spec k k' :
  wfk k None → schedule k = Ok (tt, k') → wfk k' (Some (cur k')) ∧ switched k k'.
Proof.
  intros Hwf Hs. unfold schedule in Hs. krun.
  match goal with H : next_thread_to_run _ = _ |- _ => rename H into Hn end.
  match type of Hn with _ = Ok (?t, _) => rename t into nx end.
  match goal with H : _ = true → _ ≠ NULL ∧ _ |- _ => destruct (H eq_refl) as (Hnn & Hx); clear H end.
  destruct (next_thread_spec _ _ _ Hwf Hn Hnn) as (l & -> & Hwf1 & Hu & (th & Hth & Hd & Hg) & Hq).
  simpl in *. pose proof (wf_enter _ _ _ _ _ _ _ Hwf1 Hu Hth Hd Hg) as Hwf2. simpl in Hwf2.
  destruct (Z.eqb_spec (cur k) nx) as [<-|Hne].
  - unfold thread_schedule_tail in *. krun. simpl in *. simplify_eq. split; [done|]. by split.
  - unfold thread_schedule_tail in *. krun. simpl in *. rewrite lookup_insert_ne in * by done. simplify_eq.
    destruct (bool_decide _ && _) eqn:Hdy; krun; [|split; [done|by split]].
    apply andb_prop in Hdy as [Hdy%bool_decide_eq_true _]. unfold free_thread in *. krun. simpl.
    split; [|by split]. eapply wf_free; [exact Hwf2|by rewrite lookup_insert_ne|done].
Qed.

(** The running thread gives up the processor: it is now [th'], and on the
    lists that its status calls for. *)
Lemma wf_leave m rdy slp sm idl c th th' rdy' slp' sm' :
  wf m rdy slp sm idl (Some c) → m !! c = Some th → lists (<[c := th']> m) rdy' slp' sm' →
  magic th' = magic th → status th' ≠ THREAD_RUNNING → stack_ok (stack th') →
  pending (stack th') = pending (stack th) →
  (idl ≠ NULL → idl ∉ rdy → idl ∉ rdy') →
  (idl = c → idl ≠ NULL → status th' ≠ THREAD_DYING ∧ Forall idle_frame (stack th')) →
  wf (<[c := th']> m) rdy' slp' sm' idl None.
Proof.
  intros [Hl Ht Hr Hb Hi] Hc Hl' Hmag Hst Hso Hpe Hidl Hidle.
  destruct (Ht c th Hc) as (_ & _ & [_ Hrun] & _). split; [done| |done| |].
  - intros u x. destruct (decide (c = u)) as [<-|Hne].
    + rewrite lookup_insert_eq. intros [= <-]. destruct (Ht c th Hc) as (? & ? & _ & _).
      rewrite Hmag. naive_solver.
    + rewrite lookup_insert_ne by done. intros Hx. destruct (Ht u x Hx) as (? & ? & Hs & ?).
      split_and!; try done. rewrite Hs. naive_solver.
  - eapply born_same; [done|done| |done]. eapply grown_untargeted; [done|done|]. rewrite Hrun by done. by intros [? _].
  - intros Hi0. destruct (Hi Hi0) as (Hin & x & Hx & Hs & Hf). split; [by apply Hidl|].
    destruct (decide (c = idl)) as [<-|Hne].
    + rewrite lookup_insert_eq. eexists. split; [done|]. by apply Hidle.
    + rewrite lookup_insert_ne by done. eauto.
Qed.

(** The running thread changes its own record and goes on running. *)
Lemma wf_self m rdy slp sm idl c th th' :
  wf m rdy slp sm idl (Some c) → m !! c = Some th →
  magic th' = magic th → status th' = THREAD_RUNNING → stack_ok (stack th') →
  NoDup (pending (stack th')) →
  Forall (λ t, t ∈ pending (stack th) ∨ parked m THREAD_BLOCKED newborn t ∧ untargeted m t) (pending (stack th')) →
  (idl = c → idl ≠ NULL → Forall idle_frame (stack th')) →
  wf (<[c := th']> m) rdy slp sm idl (Some c).
Proof.
  intros [Hl Ht Hr Hb Hi] Hc Hmag Hst Hso Hnd Hpe Hidle.
  destruct (Ht c th Hc) as (Hc0 & Hcm & [_ Hrun] & _). specialize (Hrun eq_refl). split.
  - apply queues_insert; [done|]. eapply listed_status; [done|done|by rewrite Hrun|by rewrite Hrun].
  - intros u x. destruct (decide (c = u)) as [<-|Hne].
    + rewrite lookup_insert_eq. intros [= <-]. rewrite Hmag. done.
    + rewrite lookup_insert_ne by done. apply Ht.
  - intros u [= <-]. by rewrite lookup_insert_eq.
  - apply born_insert; [done| |done|].
    + eapply grown_untargeted; [done|done|]. rewrite Hrun. by intros [? _].
    + eapply Forall_impl; [exact Hpe|]. intros t [Hin|[Hp Hu]]; [left; eauto|]. right. split_and!; try done.
      intros ->. destruct Hp as (x & Hx & Hx2 & _). simplify_eq. congruence.
  - intros Hi0. destruct (Hi Hi0) as (Hin & x & Hx & Hs & Hf). split; [done|].
    destruct (decide (c = idl)) as [<-|Hne].
    + rewrite lookup_insert_eq. eexists. split; [done|]. split; [by rewrite Hst|by apply Hidle].
    + rewrite lookup_insert_ne by done. eauto.
Qed.

Lemma wf_self_same m rdy slp sm idl c th th' :
  wf m rdy slp sm idl (Some c) → m !! c = Some th →
  magic th' = magic th → status th' = THREAD_RUNNING → stack_ok (stack th') →
  pending (stack th') = pending (stack th) →
  (idl = c → idl ≠ NULL → Forall idle_frame (stack th')) →
  wf (<[c := th']> m) rdy slp sm idl (Some c).
Proof.
  intros Hwf Hc Hm Hst Hso Hp Hi. destruct (bo_new _ (w_born _ _ _ _ _ _ Hwf) c th Hc) as [? ?].
  apply (wf_self _ _ _ _ _ _ th); rewrite ?Hp; try done. apply Forall_forall. auto.
Qed.

(** A semaphore changes without losing or gaining waiters. *)
Lemma wf_sema m rdy slp sm idl run s v w :
  wf m rdy slp sm idl run → w = [] ∨ (∃ v0, sm !! s = Some (mk_sema v0 w)) →
  wf m rdy slp (<[s := mk_sema v w]> sm) idl run.
Proof.
  intros [Hl Ht Hr Hb Hi] Hw. split; try done. apply lists_sema; [done|simpl|simpl].
  - destruct Hw as [->|[v0 Hs]]; [apply NoDup_nil_2|]. by destruct (li_wait _ _ _ _ Hl s _ Hs).
  - destruct Hw as [->|[v0 Hs]]; [constructor|]. by destruct (li_wait _ _ _ _ Hl s _ Hs).
Qed.

(** The blocked thread [t], on no list any more, becomes ready. *)
Lemma wf_ready m rdy slp sm idl run t th :
  wf m rdy slp sm idl run → unlisted rdy slp sm t → m !! t = Some th → status th = THREAD_BLOCKED →
  t ≠ idl → untargeted m t → wf (<[t := set_status THREAD_READY th]> m) (rdy ++ [t]) slp sm idl run.
Proof.
  intros [Hl Ht Hr Hb Hi] Hu Hm Hst Hne Hut. split.
  - by apply lists_ready.
  - intros u x. destruct (decide (t = u)) as [<-|Hne2].
    + rewrite lookup_insert_eq. intros [= <-]. destruct (Ht t th Hm) as (? & ? & Hs & ?). simpl.
      rewrite Hst in Hs. split_and!; try done. naive_solver.
    + rewrite lookup_insert_ne by done. apply Ht.
  - intros u Hu2. destruct (decide (t = u)) as [<-|Hne2]; [by rewrite lookup_insert_eq|].
    rewrite lookup_insert_ne by done. by apply Hr.
  - by eapply born_same.
  - intros Hi0. destruct (Hi Hi0) as (Hin & x & Hx & Hs & Hf).
    rewrite lookup_insert_ne by done. split; [|eauto]. set_solver.
Qed.

(** A waiting thread is not being created. *)
Lemma parked_untargeted m rdy slp sm idl run t P :
  wf m rdy slp sm idl run → parked m THREAD_BLOCKED P t → (∀ f, ¬ P [FStart f]) → untargeted m t.
Proof.
  intros Hwf (th & Hth & Hst & HP) Hn. eapply grown_untargeted; [apply Hwf|done|].
  intros [_ [f E]]. rewrite E in HP. by apply (Hn f).
Qed.

(** The idle thread does not wait. *)
Lemma parked_not_idle m rdy slp sm idl run t st P :
  wf m rdy slp sm idl run → parked m st P t → (∀ l, P l → ∃ f r, l = f :: r ∧ ¬ idle_frame f) → t ≠ idl.
Proof.
  intros [_ Ht _ _ Hi] (th & Hth & _ & HP) Hf ->. destruct (Ht _ _ Hth) as [Hn _].
  destruct (Hi Hn) as (_ & x & Hx & _ & Hfr). simplify_eq. destruct (Hf _ HP) as (f & r & E & Hnf).
  rewrite E in Hfr. by apply Forall_cons in Hfr as [? _].
Qed.

End schedule.

(** ** What the kernel's functions do to the invariant *)

(** No function that was switched away from is still to be finished. *)
Definition calm (k : kernel) : Prop :=
  ∀ th, threads k !! cur k = Some th → top_switch (stack th) = false.

(** The running thread went on: threads may have been made ready. *)
Record stay (k k' : kernel) : Prop := {
  st_wf : wfk k' (Some (cur k'));
  st_calm : calm k';
  st_cur : cur k' = cur k;
  st_idle : idle_thread k' = idle_thread k;
  st_external : in_external_intr k' = in_external_intr k;
  st_ticks : ticks k' = ticks k;
  st_slice : thread_ticks k' = thread_ticks k;
  st_ready : ∃ woken, ready_list k' = ready_list k ++ woken;
}.

(** Another thread runs: the first of the run queue, or the idle thread. *)
Record gone (k k' : kernel) : Prop := {
  go_wf : wfk k' (Some (cur k'));
  go_intr : intr_on k' = false;
  go_idle : idle_thread k' = idle_thread k;
  go_external : in_external_intr k' = in_external_intr k;
  go_ticks : ticks k' = ticks k;
  go_slice : thread_ticks k' = 0;
  go_ready : (∃ woken, ready_list k ++ woken = cur k' :: ready_list k') ∨
    ready_list k = [] ∧ ready_list k' = [] ∧ cur k' = idle_thread k;
}.

Definition post (k k' : kernel) : Prop := stay k k' ∨ gone k k'.

Definition pre (k : kernel) : Prop := wfk k (Some (cur k)) ∧ calm k.

Section functions.
Implicit Types (k : kernel) (th : thread).

Lemma stay_refl k : pre k → stay k k.
Proof. intros [? ?]. split; try done. exists []. by rewrite app_nil_r. Qed.

Lemma stay_pre k k' : stay k k' → pre k'.
Proof. intros []. by split. Qed.

Lemma stay_trans k1 k2 k3 : stay k1 k2 → stay k2 k3 → stay k1 k3.
Proof.
  intros [] []. split; try congruence; try done. destruct st_ready0 as [w1 E1], st_ready1 as [w2 E2].
  exists (w1 ++ w2). by rewrite E2, E1, app_assoc.
Qed.

Lemma stay_gone k1 k2 k3 : stay k1 k2 → gone k2 k3 → gone k1 k3.
Proof.
  intros [] []. split; try congruence; try done. destruct st_ready0 as [w1 E1].
  destruct go_ready0 as [[w2 E2]|(E2 & E3 & E4)].
  - left. exists (w1 ++ w2). by rewrite app_assoc, <- E1.
  - right. rewrite E1 in E2. apply app_nil in E2 as [-> _]. split_and!; congruence.
Qed.

Lemma stay_post k1 k2 k3 : stay k1 k2 → post k2 k3 → post k1 k3.
Proof. intros H1 [H2|H2]; [left; by eapply stay_trans|right; by eapply stay_gone]. Qed.

Lemma cur_thread k : wfk k (Some (cur k)) → ∃ th, threads k !! cur k = Some th ∧ status th = THREAD_RUNNING ∧
  cur k ≠ NULL ∧ stack_ok (stack th) ∧ unlisted (ready_list k) (list_threads k) (semas k) (cur k).
Proof.
  intros Hwf. destruct (w_run _ _ _ _ _ _ Hwf _ eq_refl) as [th Hth].
  destruct (w_threads _ _ _ _ _ _ Hwf _ _ Hth) as (? & ? & [_ Hst] & ?). exists th. split_and!; try done; [auto|].
  eapply listed_status; [apply Hwf|done|by rewrite Hst|by rewrite Hst].
Qed.

(** Pushing a frame that is not a switch. *)
Lemma push_stay f k th :
  pre k → threads k !! cur k = Some th → at_switch f = false → target f = None →
  (idle_thread k = cur k → idle_frame f) →
  stay k (upd_threads <[cur k := set_stack (f :: stack th) th]> k).
Proof.
  intros [Hwf Hc] Hth Hf Htg Hi.
  destruct (cur_thread _ Hwf) as (th' & Hth' & Hst & Hc0 & [Hso1 Hso2] & Hu). simplify_eq.
  split; try done; simpl; [| |exists []; by rewrite app_nil_r].
  - eapply wf_self_same; [done|done|done|done| |by unfold pending; simpl; rewrite Htg|].
    + simpl. split; [|intros g r [= -> _]; done]. simpl. specialize (Hc _ Hth).
      destruct (stack th) as [|g l]; [done|]. constructor; [done|]. apply Hso1.
    + intros E Hn. simpl. constructor; [by apply Hi|].
      destruct (w_idle _ _ _ _ _ _ Hwf Hn) as (_ & x & Hx & _ & Hfr). rewrite E in Hx. by simplify_eq.
  - intros x. simpl. rewrite lookup_insert_eq. by intros [= <-].
Qed.

(** A change of the running thread's record that keeps its stack. *)
Lemma mod_cur_stay g k th :
  pre k → threads k !! cur k = Some th →
  (∀ th, magic (g th) = magic th ∧ status (g th) = status th ∧ stack (g th) = stack th) →
  stay k (upd_threads <[cur k := g th]> k).
Proof.
  intros [Hwf Hc] Hth Hg. destruct (Hg th) as (Hm & Hst & Hk).
  destruct (cur_thread _ Hwf) as (th' & Hth' & Hst' & Hc0 & Hso & Hu). simplify_eq.
  split; try done; simpl; [| |exists []; by rewrite app_nil_r].
  - eapply wf_self_same; [done|done|done|by rewrite Hst|by rewrite Hk|by rewrite Hk|].
    intros E Hn. rewrite Hk. destruct (w_idle _ _ _ _ _ _ Hwf Hn) as (_ & x & Hx & _ & Hfr).
    rewrite E in Hx. by simplify_eq.
  - intros x. simpl. rewrite lookup_insert_eq. intros [= <-]. rewrite Hk. by apply Hc.
Qed.

(** Giving up the processor. *)
Lemma leave_gone k k1 k' :
  wfk k1 None → schedule k1 = Ok (tt, k') → intr_on k1 = false → idle_thread k1 = idle_thread k →
  in_external_intr k1 = in_external_intr k → ticks k1 = ticks k →
  (∃ woken, ready_list k1 = ready_list k ++ woken) → gone k k'.
Proof.
  intros Hwf Hs Hi Hid He Ht [w Hr]. destruct (schedule_spec _ _ Hwf Hs) as [Hwf' []].
  split; try congruence; try done. rewrite Hr in sw_next0.
  destruct sw_next0 as [E|(E1 & E2 & E3)]; [eauto|]. right. apply app_nil in E1 as [-> _]. split_and!; congruence.
Qed.

Lemma thread_yield_gone k k' :
  pre k → thread_yield k = Ok (tt, k') → gone k k'.
Proof.
  intros [Hwf Hc] Hy. destruct (cur_thread _ Hwf) as (th & Hth & Hst & Hc0 & [Hso1 Hso2] & Hu).
  unfold thread_yield in Hy. krun. simpl in *.
  assert (stack_ok (FYield (intr_on k) :: stack th)) as Hso.
  { split; [|by intros ? ? [=]]. simpl. specialize (Hc _ Hth). destruct (stack th); [done|].
    constructor; [done|]. apply Hso1. }
  destruct (Z.eqb_spec (cur k) (idle_thread k)) as [Hid|Hid]; krun; simpl in *;
    rewrite ?lookup_insert_eq in *; simplify_eq.
  - eapply leave_gone; [|exact Hy|done..|exists []; by rewrite app_nil_r]. simpl.
    rewrite insert_insert_eq. eapply wf_leave; [done|done|..]; try done.
    + apply queues_insert; [apply Hwf|done].
    + intros _ Hn. simpl. split; [done|]. constructor; [done|].
      destruct (w_idle _ _ _ _ _ _ Hwf Hn) as (_ & x & Hx & _ & Hfr). rewrite <- Hid in Hx. by simplify_eq.
  - eapply leave_gone; [|exact Hy|done..|by eexists]. simpl.
    rewrite insert_insert_eq. eapply wf_leave; [done|done|..]; try done.
    + apply lists_enqueue; [apply queues_insert; [apply Hwf|done]|apply Hu|].
      eexists. by rewrite lookup_insert_eq.
    + intros _ Hin. rewrite elem_of_app, list_elem_of_singleton. naive_solver.
Qed.

Lemma thread_exit_gone k k' :
  pre k → cur k ≠ idle_thread k → thread_exit k = Ok (tt, k') → gone k k'.
Proof.
  intros [Hwf Hc] Hid Hy. destruct (cur_thread _ Hwf) as (th & Hth & Hst & Hc0 & Hso & Hu).
  unfold thread_exit, process_exit in Hy. krun. simpl in *. simplify_eq.
  match goal with E : <[_ := _]> _ !! _ = Some _ |- _ => rewrite lookup_insert_eq in E; injection E as <- end.
  eapply leave_gone; [|exact Hy|done..|exists []; by rewrite app_nil_r]. simpl. rewrite insert_insert_eq.
  eapply wf_leave; [done|done|..]; try done. apply queues_insert; [apply Hwf|done].
Qed.


Lemma thread_unblock_inv t k k' :
  thread_unblock t k = Ok (tt, k') →
  ∃ th, threads k !! t = Some th ∧ status th = THREAD_BLOCKED ∧
    k' = upd_intr (intr_on k) (upd_threads <[t := set_status THREAD_READY th]>
           (upd_ready (λ l, l ++ [t]) (upd_intr false k))).
Proof.
  unfold thread_unblock. intros H. krun. simpl in *. simplify_eq. eauto.
Qed.

(** A thread that was the first of a semaphore's waiters, or of the sleepers,
    is made ready. *)
Lemma thread_unblock_stay t k k' :
  wfk k (Some (cur k)) → calm k → unlisted (ready_list k) (list_threads k) (semas k) t →
  t ≠ idle_thread k → untargeted (threads k) t → thread_unblock t k = Ok (tt, k') → stay k k'.
Proof.
  intros Hwf Hc Hu Hid Hut (th & Hth & Hst & ->)%thread_unblock_inv.
  destruct (cur_thread _ Hwf) as (tc & Htc & Hstc & _).
  assert (t ≠ cur k) as Hne by (intros ->; congruence).
  split; try done; simpl; [by apply wf_ready| |by eexists].
  intros x. simpl. rewrite lookup_insert_ne by done. apply Hc.
Qed.

Lemma down_frames s l : on_down s l → ∃ f r, l = f :: r ∧ ¬ idle_frame f.
Proof. intros (old & rest & ->). eexists _, _. split; [done|]. by intros []. Qed.
Lemma sleep_frames l : on_sleep l → ∃ f r, l = f :: r ∧ ¬ idle_frame f.
Proof. intros (old & rest & ->). eexists _, _. split; [done|]. by intros []. Qed.

(** Only the semaphores, the interrupt level or the locks changed. *)
Lemma sema_stay k s v w :
  pre k → w = [] ∨ (∃ v0, semas k !! s = Some (mk_sema v0 w)) →
  stay k (upd_semas <[s := mk_sema v w]> k).
Proof.
  intros [Hwf Hc] Hw. split; try done; [by apply wf_sema|]. exists []. by rewrite app_nil_r.
Qed.
Lemma intr_stay k b : pre k → stay k (upd_intr b k).
Proof. intros [Hwf Hc]. split; try done. exists []. by rewrite app_nil_r. Qed.
Lemma holders_stay k f : pre k → stay k (upd_holders f k).
Proof. intros [Hwf Hc]. split; try done. exists []. by rewrite app_nil_r. Qed.
Lemma conds_stay k f : pre k → stay k (upd_conds f k).
Proof. intros [Hwf Hc]. split; try done. exists []. by rewrite app_nil_r. Qed.
Lemma next_tid_stay k v : pre k → stay k (upd_next_tid v k).
Proof. intros [Hwf Hc]. split; try done. exists []. by rewrite app_nil_r. Qed.
Lemma all_stay k f : pre k → stay k (upd_all f k).
Proof. intros [Hwf Hc]. split; try done. exists []. by rewrite app_nil_r. Qed.

Lemma sema_up_stay s k k' : pre k → sema_up s k = Ok (tt, k') → stay k k'.
Proof.
  intros Hpre Hs. unfold sema_up in Hs. krun. simpl in *.
  match goal with H : semas k !! s = Some ?q |- _ => destruct q as [v w]; rename H into Hq end. simpl in *.
  pose proof (intr_stay k false Hpre) as Hst1. destruct w as [|t l].
  - krun. simpl in *. simplify_eq. simpl. eapply stay_trans; [exact Hst1|].
    eapply stay_trans; [apply (sema_stay _ s (u32 (v + 1)) []); [by eapply stay_pre|by left]|].
    apply intr_stay. eapply stay_pre, sema_stay; [by eapply stay_pre|by left].
  - krun. simpl in *.
    match goal with H : thread_unblock t _ = _ |- _ => rename H into Hub end.
    match type of Hub with _ = Ok (_, ?kk) => rename kk into k2 end.
    destruct Hpre as [Hwf Hc]. destruct (lists_wake _ _ _ _ _ _ _ _ (w_lists _ _ _ _ _ _ Hwf) Hq) as (Hl & Hu & Hpk).
    assert (stay k (upd_semas <[s := mk_sema v l]> (upd_intr false k))) as Hst2.
    { split; try done; [|exists []; by rewrite app_nil_r]. destruct Hwf. by split. }
    eapply stay_trans; [exact Hst2|].
    destruct Hst2 as [Hwf2 Hc2 _ _ _ _ _ _].
    assert (stay (upd_semas <[s := mk_sema v l]> (upd_intr false k)) k2) as Hst3.
    { eapply thread_unblock_stay; [done|done|exact Hu| | |exact Hub].
      - eapply parked_not_idle; [exact Hwf|exact Hpk|apply down_frames].
      - eapply parked_untargeted; [exact Hwf|exact Hpk|]. by intros f (? & ? & [=]). }
    eapply stay_trans; [exact Hst3|].
    destruct (thread_unblock_inv _ _ _ Hub) as (th & _ & _ & E).
    assert (semas k2 !! s = Some (mk_sema v l)) as Hq0 by (subst k2; simpl; by rewrite lookup_insert_eq).
    simplify_eq. simpl.
    eapply stay_trans; [apply (sema_stay _ s (u32 (v + 1)) l); [by eapply stay_pre|eauto]|].
    apply intr_stay. eapply stay_pre, sema_stay; [by eapply stay_pre|eauto].
Qed.

Lemma thread_block_inv k k' :
  thread_block k = Ok (tt, k') →
  ∃ th, threads k !! cur k = Some th ∧ intr_on k = false ∧
    schedule (upd_threads <[cur k := set_status THREAD_BLOCKED th]> k) = Ok (tt, k').
Proof. unfold thread_block. intros H. krun. simplify_eq. eauto. Qed.

(** Pushing a switch frame on the running thread's stack. *)
Lemma stack_ok_push f l : stack_ok l → top_switch l = false → (∀ g, f ≠ FStart g) → stack_ok (f :: l).
Proof.
  intros [Hs _] Ht Hf. split; [|intros g r [= E _]; by destruct (Hf g)]. simpl.
  destruct l as [|g l]; [done|]. by constructor.
Qed.

Lemma sema_down_loop_post s old k k' :
  pre k → cur k ≠ idle_thread k → sema_down_loop s old k = Ok (tt, k') → post k k'.
Proof.
  intros [Hwf Hc] Hid Hd. unfold sema_down_loop in Hd. krun.
  match goal with H : semas k !! s = Some ?q |- _ => destruct q as [v w]; rename H into Hq end. simpl in *.
  destruct (Z.eqb_spec v 0) as [->|Hv]; krun; simpl in *.
  - right. destruct (cur_thread _ Hwf) as (th & Hth & Hst & Hc0 & Hso & Hu).
    destruct (thread_block_inv _ _ Hd) as (th1 & Hth1 & Hi & Hs). simpl in *.
    rewrite lookup_insert_eq in Hth1. simplify_eq.
    eapply leave_gone; [|exact Hs|done..|exists []; by rewrite app_nil_r]. simpl.
    rewrite insert_insert_eq. eapply wf_leave; [done|done|..]; try done.
    + by eapply (lists_block _ _ _ _ _ (mk_sema 0 w)); [apply Hwf|done|done|done|eexists _, _].
    + apply stack_ok_push; [done|by apply Hc|done].
  - left. eapply stay_trans; [apply (sema_stay k s (u32 (v - 1)) w); [done|eauto]|].
    apply intr_stay. eapply stay_pre, sema_stay; [done|eauto].
Qed.

Lemma sema_down_post s k k' :
  pre k → cur k ≠ idle_thread k → sema_down s k = Ok (tt, k') → post k k'.
Proof.
  intros Hpre Hid Hd. unfold sema_down in Hd. krun.
  eapply stay_post; [by apply (intr_stay k false)|].
  eapply sema_down_loop_post; [by eapply stay_pre, intr_stay|done|exact Hd].
Qed.

Lemma sema_init_stay s v k k' : pre k → sema_init s v k = Ok (tt, k') → stay k k'.
Proof. intros Hpre Hd. unfold sema_init in Hd. krun. apply sema_stay; auto. Qed.

Lemma sema_try_down_stay s k b k' : pre k → sema_try_down s k = Ok (b, k') → stay k k'.
Proof.
  intros Hpre Hd. unfold sema_try_down in Hd. krun. simpl in *.
  match goal with H : semas k !! s = Some ?q |- _ => destruct q as [v w]; rename H into Hq end. simpl in *.
  eapply stay_trans; [by apply (intr_stay k false)|].
  pose proof (stay_pre _ _ (intr_stay k false Hpre)) as Hpre1.
  destruct (0 <? v); krun; [|by apply intr_stay].
  eapply stay_trans; [apply (sema_stay _ s (u32 (v - 1)) w); [done|eauto]|].
  apply intr_stay. eapply stay_pre, sema_stay; [done|eauto].
Qed.

(** Functions that leave the running thread running, and functions that may
    switch, when called by a thread other than the idle thread. *)
Definition stays {A} (f : kM A) : Prop :=
  ∀ k a k', pre k → cur k ≠ idle_thread k → f k = Ok (a, k') → stay k k'.
Definition posts (f : kM unit) : Prop :=
  ∀ k k', pre k → cur k ≠ idle_thread k → f k = Ok (tt, k') → post k k'.

Lemma stays_bind {A B} (f : kM A) (g : A → kM B) : stays f → (∀ a, stays (g a)) → stays (f ≫= g).
Proof.
  intros Hf Hg k b k2 Hp Hid (a & k1 & H1 & H2)%stM_bind_inv.
  pose proof (Hf _ _ _ Hp Hid H1) as Hs. eapply stay_trans; [exact Hs|].
  eapply Hg; [by eapply stay_pre| |exact H2]. by rewrite (st_cur _ _ Hs), (st_idle _ _ Hs).
Qed.
Lemma posts_bind {A} (f : kM A) (g : A → kM unit) : stays f → (∀ a, posts (g a)) → posts (f ≫= g).
Proof.
  intros Hf Hg k k2 Hp Hid (a & k1 & H1 & H2)%stM_bind_inv.
  pose proof (Hf _ _ _ Hp Hid H1) as Hs. eapply stay_post; [exact Hs|].
  eapply Hg; [by eapply stay_pre| |exact H2]. by rewrite (st_cur _ _ Hs), (st_idle _ _ Hs).
Qed.
Lemma posts_stays (f : kM unit) : stays f → posts f.
Proof. intros Hf k k' Hp Hid H. left. by eapply Hf. Qed.

(** A function that reads only. *)
Lemma stays_read {A} (f : kM A) : (∀ k a k', f k = Ok (a, k') → k' = k) → stays f.
Proof. intros Hf k a k' Hp _ H. apply Hf in H as ->. by apply stay_refl. Qed.

Lemma stays_ret {A} (a : A) : stays (mret a).
Proof. apply stays_read. by intros k b k' [= _ <-]. Qed.
Lemma stays_err {A} e : stays (serr e : kM A).
Proof. by intros k a k' _ _. Qed.
Lemma stays_assert b : stays (sassert b).
Proof. apply stays_read. by intros k a k' [_ ->]%sassert_inv. Qed.
Lemma stays_sread {A} (f : kernel → A) : stays (sread f).
Proof. apply stays_read. by intros k a k' [= _ <-]. Qed.
Lemma stays_get_holder l : stays (get_holder l).
Proof. apply stays_read. by intros k a k' [_ ->]%get_holder_inv. Qed.
Lemma stays_get_cond l : stays (get_cond l).
Proof. apply stays_read. by intros k a k' [_ ->]%get_cond_inv. Qed.
Lemma stays_get_thread l : stays (get_thread l).
Proof. apply stays_read. by intros k a k' [_ ->]%get_thread_inv. Qed.
Lemma stays_current : stays thread_current.
Proof. apply stays_read. by intros k a k' [-> _]%thread_current_inv. Qed.
Lemma stays_set_holder l t : stays (set_holder l t).
Proof. intros k a k' Hp _ ->%smod_inv. by apply holders_stay. Qed.
Lemma stays_set_cond l t : stays (set_cond l t).
Proof. intros k a k' Hp _ ->%smod_inv. by apply conds_stay. Qed.
Lemma stays_set_level lvl : stays (intr_set_level lvl).
Proof. intros k a k' Hp _ [_ ->]%intr_set_level_inv. by apply intr_stay. Qed.
Lemma stays_disable : stays intr_disable.
Proof. apply (stays_set_level false). Qed.
Lemma stays_enable : stays intr_enable.
Proof. apply (stays_set_level true). Qed.
Lemma stays_push f : at_switch f = false → target f = None → stays (push_frame f).
Proof. intros Hf Htg k a k' Hp Hid (th & Hth & ->)%push_frame_inv. apply push_stay; done. Qed.
Lemma stays_sema_init s v : stays (sema_init s v).
Proof. intros k [] k' Hp _. by apply sema_init_stay. Qed.
Lemma stays_sema_up s : stays (sema_up s).
Proof. intros k [] k' Hp _. by apply sema_up_stay. Qed.
Lemma stays_try_down s : stays (sema_try_down s).
Proof. intros k b k' Hp _. by apply sema_try_down_stay. Qed.
Lemma posts_down s : posts (sema_down s).
Proof. intros k k'. apply sema_down_post. Qed.
Lemma posts_yield : posts thread_yield.
Proof. intros k k' Hp _ H. right. by apply thread_yield_gone. Qed.
Lemma posts_exit : posts thread_exit.
Proof. intros k k' Hp ? H. right. by apply thread_exit_gone. Qed.

Create HintDb kernel.
#[local] Hint Resolve stays_ret stays_err stays_assert stays_sread stays_get_holder stays_get_cond stays_get_thread
  stays_current stays_set_holder stays_set_cond stays_set_level stays_disable stays_enable stays_sema_init
  stays_sema_up stays_try_down posts_down posts_yield posts_exit : kernel.
#[local] Hint Extern 1 (stays (push_frame _)) => apply stays_push; reflexivity : kernel.
#[local] Hint Extern 5 (posts _) => apply posts_stays : kernel.
#[local] Hint Extern 1 (stays intr_get_level) => apply stays_sread : kernel.
#[local] Hint Extern 1 (stays intr_context) => apply stays_sread : kernel.
#[local] Hint Extern 1 (stays running_thread) => apply stays_sread : kernel.
Ltac kstep := repeat first [solve [auto with kernel] | apply posts_bind; [|intros] | apply stays_bind; [|intros] | case_match].

Lemma stays_held l : stays (lock_held_by_current_thread l).
Proof. unfold lock_held_by_current_thread. kstep. Qed.
#[local] Hint Resolve stays_held : kernel.
Lemma posts_acquire l : posts (lock_acquire l).
Proof. unfold lock_acquire. kstep. Qed.
Lemma stays_try_acquire l : stays (lock_try_acquire l).
Proof. unfold lock_try_acquire. kstep. Qed.
Lemma stays_release l : stays (lock_release l).
Proof. unfold lock_release. kstep. Qed.
Lemma stays_lock_init l : stays (lock_init l).
Proof. unfold lock_init. kstep. Qed.
#[local] Hint Resolve posts_acquire stays_try_acquire stays_release stays_lock_init : kernel.
Lemma stays_cond_init c : stays (cond_init c).
Proof. unfold cond_init. kstep. Qed.
Lemma stays_cond_wait c l w : stays (cond_wait c l w).
Proof. unfold cond_wait. kstep. Qed.
Lemma stays_cond_signal c l : stays (cond_signal c l).
Proof. unfold cond_signal. kstep. Qed.
#[local] Hint Resolve stays_cond_init stays_cond_wait stays_cond_signal : kernel.
Lemma stays_cond_broadcast c l : stays (cond_broadcast c l).
Proof. unfold cond_broadcast. kstep. Qed.
#[local] Hint Resolve stays_cond_broadcast : kernel.


(** *** Sleeping *)

Lemma timer_ticks_inv k a k' :
  timer_ticks k = Ok (a, k') → a = ticks k ∧ k' = upd_intr (intr_on k) (upd_intr false k).
Proof. unfold timer_ticks. intros H. krun. done. Qed.

Lemma intr_twice k a b : upd_intr a (upd_intr b k) = upd_intr a k.
Proof. done. Qed.
Lemma intr_same k : upd_intr (intr_on k) k = k.
Proof. by destruct k. Qed.

Lemma stays_timer_sleep n : stays (timer_sleep n).
Proof.
  intros k [] k' Hp Hid H. unfold timer_sleep in H. krun.
  match goal with H : timer_ticks _ = Ok _ |- _ => apply timer_ticks_inv in H as [? ?]; subst end.
  rewrite intr_twice, intr_same in *. simpl in *. rewrite lookup_insert_eq in *. simplify_eq.
  eapply stay_trans; [by apply (mod_cur_stay (set_sleep (i64 (ticks k + n))))|].
  match goal with |- stay ?a _ => apply (push_stay FSleeping a) end; try done.
  - by eapply stay_pre, (mod_cur_stay (set_sleep (i64 (ticks k + n)))).
  - simpl. by rewrite lookup_insert_eq.
Qed.

Lemma posts_sleep_block : posts timer_sleep_block.
Proof.
  intros k k' [Hwf Hc] Hid H. right. unfold timer_sleep_block in H. krun. simpl in *.
  destruct (cur_thread _ Hwf) as (th & Hth & Hst & Hc0 & Hso & Hu).
  destruct (thread_block_inv _ _ H) as (th1 & Hth1 & Hi & Hs). simpl in *.
  rewrite lookup_insert_eq in Hth1. injection Hth1 as <-.
  repeat match goal with H : threads k !! cur k = Some ?x |- _ =>
    tryif constr_eq x th then fail else (assert (x = th) by congruence; subst x) end.
  eapply leave_gone; [|exact Hs|done..|exists []; by rewrite app_nil_r]. simpl.
  rewrite insert_insert_eq. set (th1 := set_status THREAD_BLOCKED (set_stack (FSleep (intr_on k) :: stack th) th)).
  assert (insert_sleeper (threads k) (cur k) (list_threads k) =
    insert_sleeper (<[cur k := th1]> (threads k)) (cur k) (list_threads k)) as ->.
  { assert (∀ l, cur k ∉ l → insert_sleeper (threads k) (cur k) l =
      insert_sleeper (<[cur k := th1]> (threads k)) (cur k) l) as Heq; [|by apply Heq, Hu].
    intros l. induction l as [|y l IH]; [done|]. intros [Hne Hl]%not_elem_of_cons. simpl.
    unfold is_less_than. rewrite lookup_insert_eq, lookup_insert_ne, Hth by done. simpl.
    by rewrite IH. }
  eapply wf_leave; [done|done|..]; try done.
  + apply lists_snooze; [apply Hwf|done|done|by eexists _, _].
  + apply stack_ok_push; [done|by apply Hc|done].
Qed.

(** *** Changing another thread's bookkeeping *)

Lemma stays_mod t g :
  (∀ th, magic (g th) = magic th ∧ status (g th) = status th ∧ stack (g th) = stack th ∧
    ticks_to_sleep (g th) = ticks_to_sleep th) → stays (mod_thread t g).
Proof.
  intros Hg k [] k' [Hwf Hc] Hid (th & Hth & ->)%mod_thread_inv. destruct (Hg th) as (Hm & Hst & Hk & Htk).
  assert (∀ st P u, parked (threads k) st P u → parked (<[t := g th]> (threads k)) st P u) as Hpk.
  { intros st P u (x & Hx & ? & ?). destruct (decide (t = u)) as [<-|Hne].
    - simplify_eq. exists (g th). rewrite lookup_insert_eq, Hst, Hk. done.
    - exists x. by rewrite lookup_insert_ne. }
  assert (∀ u, deadline (<[t := g th]> (threads k)) u = deadline (threads k) u) as Hdl.
  { intros u. unfold deadline. destruct (decide (t = u)) as [<-|Hne].
    - rewrite lookup_insert_eq, Hth. simpl. by rewrite Htk.
    - by rewrite lookup_insert_ne. }
  split; try done; simpl; [| |exists []; by rewrite app_nil_r].
  - destruct Hwf as [[[Hr Hr2] Hw [Hs Hs2] Hso] Ht Hrun Hb Hi]. split.
    + split.
      * split; [done|]. eapply Forall_impl; [done|]. intros u. apply Hpk.
      * intros s q Hq. destruct (Hw s q Hq). split; [done|]. eapply Forall_impl; [done|]. intros u. apply Hpk.
      * split; [done|]. eapply Forall_impl; [done|]. intros u. apply Hpk.
      * clear -Hso Hdl. induction Hso as [|x l _ IH Hx]; constructor; [done|].
        eapply Forall_impl; [exact Hx|]. unfold earlier. intros y. by rewrite !Hdl.
    + intros u x. destruct (decide (t = u)) as [<-|Hne].
      * rewrite lookup_insert_eq. intros [= <-]. rewrite Hm, Hst, Hk. by apply Ht.
      * rewrite lookup_insert_ne by done. apply Ht.
    + intros u Hu. destruct (Hrun u Hu) as [x Hx]. destruct (decide (t = u)) as [<-|Hne];
        [by rewrite lookup_insert_eq|by rewrite lookup_insert_ne].
    + destruct Hb as [Hn Ho].
      assert (∀ u x, <[t := g th]> (threads k) !! u = Some x →
        ∃ y, threads k !! u = Some y ∧ stack x = stack y) as Hback.
      { intros u x. destruct (decide (t = u)) as [<-|Hne].
        - rewrite lookup_insert_eq. intros [= <-]. eauto.
        - rewrite lookup_insert_ne by done. eauto. }
      split.
      * intros u x (y & Hy & E)%Hback. rewrite E. destruct (Hn u y Hy). split; [done|].
        eapply Forall_impl; [done|]. intros w. apply Hpk.
      * intros c1 c2 th1 th2 w (y1 & Hy1 & E1)%Hback (y2 & Hy2 & E2)%Hback. rewrite E1, E2. by apply Ho.
    + intros Hi0. destruct (Hi Hi0) as (Hin & x & Hx & Hs0 & Hf). split; [done|].
      destruct (decide (t = idle_thread k)) as [->|Hne].
      * rewrite lookup_insert_eq. eexists. split; [done|]. simplify_eq. by rewrite Hst, Hk.
      * rewrite lookup_insert_ne by done. eauto.
  - intros x. simpl. destruct (decide (t = cur k)) as [->|Hne].
    + rewrite lookup_insert_eq. intros [= <-]. rewrite Hk. by apply Hc.
    + rewrite lookup_insert_ne by done. apply Hc.
Qed.


(** *** Processes *)

Lemma stays_slift {A} (m : res A) : stays (slift m).
Proof. apply stays_read. intros k a k'. unfold slift. destruct m; [|done]. by intros [= _ <-]. Qed.
#[local] Hint Resolve stays_slift : kernel.
#[local] Hint Extern 1 (stays (mod_thread _ _)) => apply stays_mod; intros ?; split_and!; reflexivity : kernel.
Lemma posts_execute_wait : posts process_execute_wait.
Proof. unfold process_execute_wait. kstep. Qed.
Lemma stays_execute_end : stays process_execute_end.
Proof. unfold process_execute_end. kstep. Qed.
Lemma stays_start_process b : stays (start_process b).
Proof. unfold start_process. kstep. Qed.
Lemma stays_process_wait c : stays (process_wait c).
Proof. unfold process_wait. kstep. Qed.
Lemma posts_wait_down c : posts (process_wait_down c).
Proof. unfold process_wait_down. kstep. Qed.
Lemma stays_wait_end c : stays (process_wait_end c).
Proof. unfold process_wait_end. kstep. Qed.
Lemma stays_exit st : stays (exit st).
Proof. unfold exit. kstep. Qed.
Lemma stays_page_fault : stays page_fault.
Proof. unfold page_fault. kstep. Qed.
Lemma stays_exit_ret st : stays (exit_ret st).
Proof. unfold exit_ret. kstep. Qed.
Lemma stays_exit_done : stays exit_done.
Proof. unfold exit_done. kstep. Qed.
Lemma stays_exit_up : stays exit_up.
Proof. unfold exit_up. kstep. Qed.
#[local] Hint Resolve posts_execute_wait stays_execute_end stays_start_process stays_process_wait posts_wait_down stays_wait_end
  stays_exit stays_page_fault stays_exit_ret stays_exit_done stays_exit_up : kernel.

(** *** Making a known thread ready, and scheduling, never fail *)

Lemma is_thread_run k t th run :
  wfk k run → threads k !! t = Some th → is_thread t k = Ok (true, k).
Proof.
  intros Hwf Ht. destruct (w_threads _ _ _ _ _ _ Hwf t th Ht) as (Hn & Hm & _).
  unfold is_thread. rewrite (proj2 (Z.eqb_neq _ _)) by done. unfold get_thread.
  erewrite stM_bind_run by (rewrite Ht; reflexivity). by rewrite Hm, Z.eqb_refl.
Qed.

Lemma thread_current_run k : wfk k (Some (cur k)) → thread_current k = Ok (cur k, k).
Proof.
  intros Hwf. destruct (cur_thread _ Hwf) as (th & Hth & Hst & _). unfold thread_current, running_thread.
  erewrite stM_bind_run by reflexivity. erewrite stM_bind_run by by eapply is_thread_run.
  erewrite stM_bind_run by reflexivity. unfold get_thread. erewrite stM_bind_run by (rewrite Hth; reflexivity).
  by erewrite stM_bind_run by (rewrite bool_decide_eq_true_2 by done; reflexivity).
Qed.

Lemma mod_thread_run k t th g :
  threads k !! t = Some th → mod_thread t g k = Ok (tt, upd_threads <[t := g th]> k).
Proof. intros Ht. unfold mod_thread. by rewrite Ht. Qed.
Lemma get_thread_run k t th : threads k !! t = Some th → get_thread t k = Ok (th, k).
Proof. intros Ht. unfold get_thread. by rewrite Ht. Qed.
Lemma push_frame_run k th f :
  threads k !! cur k = Some th →
  push_frame f k = Ok (tt, upd_threads <[cur k := set_stack (f :: stack th) th]> k).
Proof.
  intros Ht. unfold push_frame, running_thread. erewrite stM_bind_run by reflexivity.
  erewrite stM_bind_run by by apply get_thread_run. by apply mod_thread_run.
Qed.

(** With interrupts off. *)
Lemma thread_unblock_run k t th run :
  wfk k run → threads k !! t = Some th → status th = THREAD_BLOCKED → intr_on k = false →
  thread_unblock t k =
    Ok (tt, upd_threads <[t := set_status THREAD_READY th]> (upd_ready (λ l, l ++ [t]) k)).
Proof.
  intros Hwf Ht Hst Hi. unfold thread_unblock. erewrite stM_bind_run by by eapply is_thread_run.
  erewrite stM_bind_run by reflexivity. unfold intr_disable, intr_get_level.
  erewrite stM_bind_run by (erewrite stM_bind_run by reflexivity; reflexivity).
  assert (upd_intr false k = k) as -> by (rewrite <- Hi; apply intr_same).
  erewrite stM_bind_run by by apply get_thread_run.
  erewrite stM_bind_run by (rewrite bool_decide_eq_true_2 by done; reflexivity).
  erewrite stM_bind_run by reflexivity.
  erewrite stM_bind_run by (by apply mod_thread_run). rewrite Hi. unfold intr_set_level, intr_disable, intr_get_level.
  erewrite stM_bind_run by (erewrite stM_bind_run by reflexivity; reflexivity).
  unfold mret, stM_ret. do 2 f_equal. destruct k. simpl in *. by subst.
Qed.

Lemma schedule_run k th :
  wfk k None → intr_on k = false → threads k !! cur k = Some th → status th ≠ THREAD_RUNNING →
  ready_list k ≠ [] ∨ idle_thread k ≠ NULL → ∃ k', schedule k = Ok (tt, k').
Proof.
  intros Hwf Hi Hth Hst Hr.
  assert (∃ nx l tn, next_thread_to_run k = Ok (nx, upd_ready (λ _, l) k) ∧ threads k !! nx = Some tn)
    as (nx & l & tn & Hn & Htn).
  { unfold next_thread_to_run. destruct (ready_list k) as [|x l] eqn:Er.
    - destruct Hr as [?|Hid]; [done|]. destruct (w_idle _ _ _ _ _ _ Hwf Hid) as (_ & y & Hy & _).
      exists (idle_thread k), [], y. split; [|done]. do 2 f_equal. destruct k. simpl in *. by subst.
    - destruct (li_ready _ _ _ _ (w_lists _ _ _ _ _ _ Hwf)) as [_ Hp].
      apply Forall_cons in Hp as [(y & Hy & _) _]. eauto. }
  assert (is_thread nx (upd_ready (λ _, l) k) = Ok (true, upd_ready (λ _, l) k)) as His.
  { destruct (w_threads _ _ _ _ _ _ Hwf nx tn Htn) as (Hn0 & Hm & _).
    unfold is_thread. rewrite (proj2 (Z.eqb_neq _ _)) by done.
    erewrite stM_bind_run by (by apply get_thread_run). by rewrite Hm, Z.eqb_refl. }
  unfold schedule, running_thread, intr_get_level. erewrite stM_bind_run by reflexivity.
  erewrite stM_bind_run by exact Hn. erewrite stM_bind_run by reflexivity. simpl. rewrite Hi.
  erewrite stM_bind_run by reflexivity. erewrite stM_bind_run by (by apply get_thread_run).
  erewrite stM_bind_run by (rewrite bool_decide_eq_false_2 by done; reflexivity).
  erewrite stM_bind_run by exact His. erewrite stM_bind_run by reflexivity.
  unfold thread_schedule_tail, running_thread, intr_get_level.
  destruct (Z.eqb_spec (cur k) nx) as [<-|Hne].
  - erewrite stM_bind_run by reflexivity. erewrite stM_bind_run by reflexivity. simpl. rewrite Hi.
    erewrite stM_bind_run by reflexivity. erewrite stM_bind_run by (by apply mod_thread_run).
    erewrite stM_bind_run by reflexivity. by eexists.
  - erewrite stM_bind_run by reflexivity. erewrite stM_bind_run by reflexivity.
    erewrite stM_bind_run by reflexivity. simpl. rewrite Hi.
    erewrite stM_bind_run by reflexivity. erewrite stM_bind_run by (by apply mod_thread_run).
    erewrite stM_bind_run by reflexivity.
    erewrite stM_bind_run by (apply get_thread_run; simpl; by rewrite lookup_insert_ne).
    erewrite stM_bind_run by reflexivity. case_match; [|by eexists].
    rewrite (proj2 (Z.eqb_neq _ _)) by done. erewrite stM_bind_run by reflexivity. by eexists.
Qed.

Lemma thread_yield_run k : pre k → in_external_intr k = false → ∃ k', thread_yield k = Ok (tt, k').
Proof.
  intros [Hwf Hc] Hx. destruct (cur_thread _ Hwf) as (th & Hth & Hst & Hc0 & Hso & Hu).
  unfold thread_yield. erewrite stM_bind_run by by apply thread_current_run.
  unfold intr_context. erewrite stM_bind_run by reflexivity. rewrite Hx. erewrite stM_bind_run by reflexivity.
  unfold intr_disable, intr_get_level. erewrite stM_bind_run by (erewrite stM_bind_run by reflexivity; reflexivity).
  erewrite stM_bind_run by reflexivity. simpl.
  set (th' := set_status THREAD_READY (set_stack (FYield (intr_on k) :: stack th) th)).
  assert (stack_ok (stack th')) as Hso' by (apply stack_ok_push; [done|by apply Hc|done]).
  destruct (Z.eqb_spec (cur k) (idle_thread k)) as [Hid|Hid]; erewrite stM_bind_run by reflexivity;
    erewrite stM_bind_run by (by apply push_frame_run);
    erewrite stM_bind_run by (apply mod_thread_run; simpl; by rewrite lookup_insert_eq); simpl.
  - eapply (schedule_run _ th'); simpl; rewrite ?insert_insert_eq; try done; [|by rewrite lookup_insert_eq|].
    + eapply wf_leave; [done|done|..]; try done.
      * apply queues_insert; [apply Hwf|done].
      * intros _ Hn. simpl. split; [done|]. constructor; [done|].
        destruct (w_idle _ _ _ _ _ _ Hwf Hn) as (_ & x & Hxx & _ & Hfr). rewrite <- Hid in Hxx. by simplify_eq.
    + right. by rewrite <- Hid.
  - eapply (schedule_run _ th'); simpl; rewrite ?insert_insert_eq; try done; [|by rewrite lookup_insert_eq|].
    + eapply wf_leave; [done|done|..]; try done.
      * apply lists_enqueue; [apply queues_insert; [apply Hwf|done]|apply Hu|].
        eexists. by rewrite lookup_insert_eq.
      * intros _ Hin. rewrite elem_of_app, list_elem_of_singleton. naive_solver.
    + left. by destruct (ready_list k).
Qed.

(** *** Waking sleepers *)

(** Only the status of threads changed. *)
Definition same_frames (m m' : gmap Z thread) : Prop :=
  ∀ t, (λ th, (stack th, ticks_to_sleep th)) <$> m' !! t = (λ th, (stack th, ticks_to_sleep th)) <$> m !! t.

Lemma same_frames_deadline m m' t : same_frames m m' → deadline m' t = deadline m t.
Proof.
  intros H. specialize (H t). unfold deadline. destruct (m' !! t), (m !! t); simpl in *; congruence.
Qed.

Lemma wake_loop_spec n k :
  pre k → intr_on k = false → (length (list_threads k) ≤ n)%nat →
  ∃ A B k', wake_loop n k = Ok (tt, k') ∧ stay k k' ∧ list_threads k = A ++ B ∧ list_threads k' = B ∧
    ready_list k' = ready_list k ++ A ∧ Forall (λ t, deadline (threads k) t ≤ ticks k) A ∧
    Forall (λ t, ticks k < deadline (threads k) t) B ∧ intr_on k' = false ∧
    same_frames (threads k) (threads k') ∧ semas k' = semas k ∧ yield_on_return k' = yield_on_return k.
Proof.
  revert k. induction n as [|n IH]; intros k Hp Hi Hn.
  { destruct (list_threads k) as [|t l] eqn:El; [|simpl in Hn; lia].
    exists [], [], k. cbn [wake_loop]. erewrite stM_bind_run by reflexivity. rewrite El.
    split; [done|]. split; [by apply stay_refl|]. split_and!; try done; by rewrite ?app_nil_r. }
  cbn [wake_loop]. erewrite stM_bind_run by reflexivity. destruct (list_threads k) as [|t l] eqn:El.
  { exists [], [], k. split; [done|]. split; [by apply stay_refl|]. split_and!; try done; by rewrite ?app_nil_r. }
  destruct Hp as [Hwf Hc]. pose proof Hwf as Hwf0. rewrite El in Hwf.
  destruct (lists_unsleep _ _ _ _ _ (w_lists _ _ _ _ _ _ Hwf)) as (Hl & Hu & Hpk).
  pose proof (li_sorted _ _ _ _ (w_lists _ _ _ _ _ _ Hwf)) as Hso. apply StronglySorted_cons in Hso as [Hmin _].
  pose proof Hpk as (th & Hth & Hst & Hfr).
  erewrite stM_bind_run by by apply get_thread_run. unfold timer_ticks, intr_disable, intr_get_level.
  erewrite stM_bind_run by (erewrite stM_bind_run by (erewrite stM_bind_run by reflexivity; reflexivity);
    erewrite stM_bind_run by reflexivity; rewrite Hi; simpl; unfold intr_disable, intr_get_level;
    erewrite stM_bind_run by (erewrite stM_bind_run by reflexivity; reflexivity); reflexivity).
  simpl. rewrite intr_twice. assert (upd_intr false k = k) as -> by (rewrite <- Hi; apply intr_same).
  assert (deadline (threads k) t = ticks_to_sleep th) as Hdl by (unfold deadline; by rewrite Hth).
  destruct (Z.ltb_spec (ticks k) (ticks_to_sleep th)) as [Hlt|Hge].
  { exists [], (t :: l), k. split; [done|]. split; [by apply stay_refl|]. split_and!; try done; [by rewrite app_nil_r|]. constructor; [lia|]. eapply Forall_impl; [exact Hmin|].
    unfold earlier. intros x. lia. }
  erewrite stM_bind_run by reflexivity. set (k1 := upd_sleepers (λ _, l) k).
  assert (pre k1) as Hp1.
  { split; [|exact Hc]. destruct Hwf as [_ ? ? ? ?]. by split. }
  assert (stay k k1) as Hs1.
  { destruct Hp1. split; try done. exists []. by rewrite app_nil_r. }
  pose proof (thread_unblock_run k1 t th _ (proj1 Hp1) Hth Hst Hi) as Hub.
  assert (stay k1 (upd_threads <[t := set_status THREAD_READY th]> (upd_ready (λ l, l ++ [t]) k1))) as Hs2.
  { eapply thread_unblock_stay; [apply Hp1|apply Hp1|exact Hu| | |exact Hub].
    - eapply parked_not_idle; [exact Hwf0|exact Hpk|apply sleep_frames].
    - eapply parked_untargeted; [exact Hwf0|exact Hpk|]. by intros f (? & ? & [=]). }
  erewrite stM_bind_run by exact Hub.
  destruct (IH (upd_threads <[t := set_status THREAD_READY th]> (upd_ready (λ l, l ++ [t]) k1)))
    as (A & B & k' & Hr & Hs3 & Hl2 & Hl3 & Hrd & HA & HB & Hi' & Hsf & Hse & Hy);
    [by eapply stay_pre|done|simpl in *; lia|].
  assert (same_frames (threads k) (<[t := set_status THREAD_READY th]> (threads k))) as Hsf1.
  { intros u. destruct (decide (t = u)) as [<-|Hne]; [by rewrite lookup_insert_eq, Hth|by rewrite lookup_insert_ne]. }
  simpl in *. exists (t :: A), B, k'. split; [exact Hr|].
  split; [eapply stay_trans; [exact Hs1|]; eapply stay_trans; [exact Hs2|exact Hs3]|].
  split; [by rewrite Hl2|]. split; [done|]. split; [by rewrite Hrd, <- app_assoc|].
  assert (∀ P l', Forall (λ x, P (deadline (<[t := set_status THREAD_READY th]> (threads k)) x)) l' →
    Forall (λ x, P (deadline (threads k) x)) l') as Hconv.
  { intros P l' HP. eapply Forall_impl; [exact HP|]. intros x. simpl.
    by rewrite (same_frames_deadline _ _ x Hsf1). }
  split; [constructor; [lia|by apply (Hconv (λ z, z ≤ ticks k))]|].
  split; [by apply (Hconv (λ z, ticks k < z))|]. split; [done|]. split; [|done].
  intros u. rewrite Hsf. apply Hsf1.
Qed.


Lemma schedule_sleepers k k' : schedule k = Ok (tt, k') → list_threads k' = list_threads k.
Proof.
  unfold schedule, next_thread_to_run, thread_schedule_tail. intros H. krun.
  repeat match goal with
  | H : match ready_list k with _ => _ end = _ |- _ => destruct (ready_list k); simplify_eq
  | H : (if ?b then _ else _) _ = _ |- _ => destruct b; krun
  end; unfold free_thread in *; krun; done.
Qed.
Lemma thread_yield_sleepers k k' : thread_yield k = Ok (tt, k') → list_threads k' = list_threads k.
Proof.
  unfold thread_yield. intros H. krun.
  match goal with H : (if ?b then _ else _) _ = _ |- _ => destruct b; krun end;
    apply schedule_sleepers in H; done.
Qed.

(** *** The timer interrupt *)

(** What the statistics and the time slice look like after [thread_tick]. *)
Lemma thread_tick_run k :
  wfk k (Some (cur k)) → in_external_intr k = true → yield_on_return k = false →
  ∃ k', thread_tick k = Ok (tt, k') ∧ wfk k' (Some (cur k')) ∧
    threads k' = threads k ∧ cur k' = cur k ∧ ready_list k' = ready_list k ∧
    list_threads k' = list_threads k ∧ semas k' = semas k ∧ idle_thread k' = idle_thread k ∧
    ticks k' = ticks k ∧ intr_on k' = intr_on k ∧ in_external_intr k' = true ∧
    thread_ticks k' = u32 (thread_ticks k + 1) ∧
    yield_on_return k' = (TIME_SLICE <=? u32 (thread_ticks k + 1)).
Proof.
  intros Hwf Hx Hy. unfold thread_tick. erewrite stM_bind_run by by apply thread_current_run.
  erewrite stM_bind_run by reflexivity. erewrite stM_bind_run by reflexivity.
  erewrite stM_bind_run by reflexivity. unfold intr_yield_on_return, intr_context.
  destruct (cur k =? idle_thread k); simpl; (destruct (TIME_SLICE <=? u32 (thread_ticks k + 1)) eqn:E;
    [erewrite stM_bind_run by reflexivity; simpl; rewrite Hx; erewrite stM_bind_run by reflexivity|]);
    (eexists; split; [reflexivity|]; simpl; rewrite ?Hx, ?Hy, ?E; by split_and!).
Qed.

Record ticked (k k' : kernel) (A B : list Z) : Prop := {
  ti_wf : wfk k' (Some (cur k'));
  ti_context : in_external_intr k' = false;
  ti_ticks : ticks k' = i64 (ticks k + 1);
  ti_split : list_threads k = A ++ B;
  ti_sleep : list_threads k' = B;
  ti_due : Forall (λ t, deadline (threads k) t ≤ i64 (ticks k + 1)) A;
  ti_later : Forall (λ t, i64 (ticks k + 1) < deadline (threads k) t) B;
  ti_next :
    if TIME_SLICE <=? u32 (thread_ticks k + 1) then
      intr_on k' = false ∧ thread_ticks k' = 0 ∧
      ((∃ w, ready_list k ++ A ++ w = cur k' :: ready_list k') ∨
       ready_list k = [] ∧ A = [] ∧ ready_list k' = [] ∧ cur k' = idle_thread k)
    else
      calm k' ∧ cur k' = cur k ∧ thread_ticks k' = u32 (thread_ticks k + 1) ∧ ready_list k' = ready_list k ++ A;
}.

Lemma tick_spec k :
  inv k → intr_on k = true → ∃ k' A B, exec Tick k = Ok (tt, k') ∧ ticked k k' A B.
Proof.
  intros [Hwf Hx Hlv] Hon. destruct (cur_thread _ Hwf) as (th & Hth & Hst & Hc0 & Hso & Hu).
  assert (pre k) as Hp.
  { split; [done|]. intros x Hxx. destruct (top_switch (stack x)) eqn:E; [|done].
    rewrite (Hlv x Hxx E) in Hon. done. }
  unfold exec, intr_handler, intr_get_level, intr_context. erewrite stM_bind_run by reflexivity. rewrite Hon. cbn [negb].
  set (k1 := upd_threads <[cur k := set_stack (FIret :: stack th) th]> k).
  assert (stay k k1) as Hs1 by (apply push_stay; done).
  erewrite stM_bind_run by (by apply push_frame_run). erewrite stM_bind_run by reflexivity.
  erewrite stM_bind_run by reflexivity. cbn [intr_on upd_intr negb]. erewrite stM_bind_run by reflexivity.
  erewrite stM_bind_run by reflexivity. fold k1. cbn [in_external_intr upd_intr upd_threads k1]. rewrite Hx.
  erewrite stM_bind_run by reflexivity. erewrite stM_bind_run by reflexivity.
  set (k2 := upd_external true false (upd_intr false k1)).
  unfold timer_interrupt at 1.
  set (k3 := upd_ticks (i64 (ticks k2 + 1)) k2).
  destruct (thread_tick_run k3) as (k4 & Hr4 & Hwf4 & Et & Ec & Er & El & Es & Ei & Etk & Eo & Ex & Esl & Ey);
    [apply (st_wf _ _ Hs1)|done|done|].
  assert (pre k4) as Hp4.
  { split; [done|]. intros x. rewrite Et, Ec. apply (st_calm _ _ Hs1). }
  destruct (wake_loop_spec (length (list_threads k4)) k4 Hp4) as (A & B & k5 & Hr5 & Hs5 & Hl5 & Hl5' & Hrd5 & HA & HB & Hi5 & Hsf & Hse & Hy5);
    [by rewrite Eo|done|].
  erewrite stM_bind_run by (erewrite stM_bind_run by reflexivity; fold k3;
    erewrite stM_bind_run by exact Hr4; erewrite stM_bind_run by reflexivity; exact Hr5).
  erewrite stM_bind_run by reflexivity. rewrite Hi5. erewrite stM_bind_run by reflexivity.
  erewrite stM_bind_run by reflexivity. rewrite (st_external _ _ Hs5), Ex. erewrite stM_bind_run by reflexivity.
  erewrite stM_bind_run by reflexivity. erewrite stM_bind_run by reflexivity.
  set (k6 := upd_external false (yield_on_return k5) k5).
  assert (pre k6) as Hp6 by (pose proof (stay_pre _ _ Hs5); done).
  assert (same_frames (threads k4) (threads k1)) as Hsf0 by (intros u; by rewrite Et).
  assert (∀ t, t ∈ list_threads k → deadline (threads k4) t = deadline (threads k) t) as Hdl.
  { intros t Ht. unfold deadline. rewrite Et. simpl. rewrite lookup_insert_ne; [done|].
    intros <-. by apply (un_sleep _ _ _ _ Hu). }
  assert (list_threads k = A ++ B) as HAB by (rewrite <- Hl5, El; done).
  assert (ticks k4 = i64 (ticks k + 1)) as Htk by (rewrite Etk; done).
  assert (Forall (λ t, deadline (threads k) t ≤ i64 (ticks k + 1)) A) as HA'.
  { apply Forall_forall. intros t Ht. rewrite <- Hdl, <- Htk by (rewrite HAB; set_solver).
    by apply (proj1 (Forall_forall _ _) HA). }
  assert (Forall (λ t, i64 (ticks k + 1) < deadline (threads k) t) B) as HB'.
  { apply Forall_forall. intros t Ht. rewrite <- Hdl, <- Htk by (rewrite HAB; set_solver).
    by apply (proj1 (Forall_forall _ _) HB). }
  assert (ready_list k4 = ready_list k) as Hrk by (rewrite Er; done).
  assert (yield_on_return k6 = (TIME_SLICE <=? u32 (thread_ticks k + 1))) as Hyk
    by (simpl; rewrite Hy5, Ey; done).
  change (yield_on_return (upd_external false (yield_on_return k5) k5)) with (yield_on_return k6). rewrite Hyk.
  destruct (TIME_SLICE <=? u32 (thread_ticks k + 1)) eqn:Esl2.
  - destruct (thread_yield_run k6 Hp6 eq_refl) as [k7 Hy7]. exists k7, A, B. split; [exact Hy7|].
    assert (list_threads k7 = list_threads k6) as Hlt7 by by apply thread_yield_sleepers.
    destruct (thread_yield_gone _ _ Hp6 Hy7) as [Hwf7 Hi7 Hid7 Hx7 Ht7 Hsl7 Hrd7].
    split; try done; [by rewrite Ht7, <- Htk, <- (st_ticks _ _ Hs5)|by rewrite Hlt7|]. rewrite Esl2.
    split; [done|]. split; [done|].
    change (ready_list k6) with (ready_list k5) in Hrd7. rewrite Hrd5, Hrk in Hrd7.
    destruct Hrd7 as [[w Hw]|(E1 & E2 & E3)]; [left; exists w; by rewrite app_assoc|].
    right. apply app_nil in E1 as [-> ->]. split_and!; try done. rewrite E3.
    change (idle_thread k6) with (idle_thread k5). rewrite (st_idle _ _ Hs5), Ei. done.
  - exists k6, A, B. split; [done|]. split; try done; [apply Hp6|by simpl; rewrite (st_ticks _ _ Hs5)|].
    rewrite Esl2. split; [apply Hp6|]. split; [simpl; rewrite (st_cur _ _ Hs5), Ec; done|].
    split; [simpl; rewrite (st_slice _ _ Hs5), Esl; done|]. simpl. by rewrite Hrd5, Hrk.
Qed.

(** *** Thread creation *)

Lemma wf_new m rdy slp sm idl run t th :
  wf m rdy slp sm idl run → m !! t = None → t ≠ NULL → magic th = THREAD_MAGIC →
  status th = THREAD_BLOCKED → newborn (stack th) → wf (<[t := th]> m) rdy slp sm idl run.
Proof.
  intros [Hl Ht Hr Hb Hi] Hn Ht0 Hm Hst [f Hk]. split.
  - apply queues_insert; [done|by eapply listed_fresh].
  - intros u x. destruct (decide (t = u)) as [<-|Hne].
    + rewrite lookup_insert_eq. intros [= <-]. rewrite Hst, Hk. split_and!; try done.
      * split; [done|]. intros ->. destruct (Hr t eq_refl). congruence.
      * split; [constructor|]. by intros g r [= _ <-].
    + rewrite lookup_insert_ne by done. apply Ht.
  - intros u Hu. destruct (Hr u Hu) as [x Hx]. rewrite lookup_insert_ne; [done|]. intros <-. congruence.
  - apply born_insert; [done|by eapply fresh_untargeted|rewrite Hk; constructor|rewrite Hk; constructor].
  - intros Hi0. destruct (Hi Hi0) as (Hin & x & Hx & ?). split; [done|].
    rewrite lookup_insert_ne; [eauto|]. intros <-. congruence.
Qed.

(** The new thread: blocked, at the start of its function, wanted by nobody. *)
Definition fresh_thread (k : kernel) (t : Z) : Prop :=
  parked (threads k) THREAD_BLOCKED newborn t ∧ untargeted (threads k) t.

Lemma init_thread_stay t nm p f k k' :
  pre k → threads k !! t = None → init_thread t nm p f k = Ok (tt, k') → stay k k' ∧ fresh_thread k' t.
Proof.
  intros [Hwf Hc] Hn H. unfold init_thread, sema_init in H. krun. simpl in *.
  match goal with H : (t =? NULL) = false |- _ => apply Z.eqb_neq in H end.
  destruct (cur_thread _ Hwf) as (tc & Htc & _).
  assert (t ≠ cur k) as Hne by (intros ->; congruence).
  set (k1 := upd_threads <[t := new_thread (take 15 nm) p f]> k).
  assert (stay k k1) as Hs1.
  { split; try done; [| |exists []; by rewrite app_nil_r].
    - apply wf_new; try done. by exists f.
    - intros x. simpl. rewrite lookup_insert_ne by done. apply Hc. }
  split.
  - eapply stay_trans; [exact Hs1|].
    eapply stay_trans; [apply (sema_stay _ (t + SEM_CHILD_LOAD) 0 []); [by eapply stay_pre|by left]|].
    assert (pre (upd_semas <[t + SEM_CHILD_LOAD := mk_sema 0 []]> k1)) as Hp2
      by (eapply stay_pre, sema_stay; [by eapply stay_pre|by left]).
    eapply stay_trans; [apply (sema_stay _ (t + SEM_CHILD_WAIT) 0 []); [done|by left]|].
    pose proof (stay_pre _ _ (sema_stay _ (t + SEM_CHILD_WAIT) 0 [] Hp2 ltac:(by left))) as Hp3.
    eapply stay_trans; [by apply (intr_stay _ false)|]. pose proof (stay_pre _ _ (intr_stay _ false Hp3)) as Hp4.
    eapply stay_trans; [by apply (all_stay _ (λ l, l ++ [t]))|].
    apply intr_stay. by eapply stay_pre, all_stay.
  - split; simpl.
    + eexists. rewrite lookup_insert_eq. split; [done|]. split; [done|]. by exists f.
    + intros c x. destruct (decide (t = c)) as [<-|Hnc].
      * rewrite lookup_insert_eq. intros [= <-]. simpl. apply not_elem_of_nil.
      * rewrite lookup_insert_ne by done. by apply (fresh_untargeted _ _ (w_born _ _ _ _ _ _ Hwf) Hn).
Qed.

Lemma push_target_stay f t k k' :
  pre k → cur k ≠ idle_thread k → fresh_thread k t → target f = Some t → at_switch f = false →
  push_frame f k = Ok (tt, k') → stay k k'.
Proof.
  intros [Hwf Hc] Hid [Hpk Hut] Hf Hsw (th & Hth & ->)%push_frame_inv.
  destruct (cur_thread _ Hwf) as (th' & Hth' & Hst & Hc0 & Hso & Hu). simplify_eq.
  split; try done; simpl; [| |exists []; by rewrite app_nil_r].
  - destruct (bo_new _ (w_born _ _ _ _ _ _ Hwf) _ _ Hth) as [Hnd _].
    eapply wf_self; [done|done|done|done|..].
    + apply stack_ok_push; [done|by apply Hc|]. by intros g ->.
    + unfold pending. simpl. rewrite Hf. apply NoDup_cons. split; [|done]. by apply (Hut _ _ Hth).
    + unfold pending. simpl. rewrite Hf. constructor; [by right|]. apply Forall_forall. auto.
    + congruence.
  - intros x. simpl. rewrite lookup_insert_eq. intros [= <-]. done.
Qed.

Lemma thread_create_post t nm p f k k' :
  pre k → cur k ≠ idle_thread k → t = NULL ∨ threads k !! t = None →
  thread_create t nm p f k = Ok (tt, k') → post k k'.
Proof.
  intros Hp Hid Ht H. unfold thread_create in H. destruct (Z.eqb_spec t NULL) as [->|Ht0].
  { krun. left. by apply stay_refl. }
  destruct Ht as [?|Ht]; [done|].
  apply stM_bind_inv in H as ([] & k1 & Hi & H). destruct (init_thread_stay _ _ _ _ _ _ Hp Ht Hi) as [Hs1 Hf1].
  apply stM_bind_inv in H as ([] & k2 & Hpu & H).
  assert (cur k1 ≠ idle_thread k1) as Hid1 by by rewrite (st_cur _ _ Hs1), (st_idle _ _ Hs1).
  pose proof (push_target_stay (FTid t) t _ _ (stay_pre _ _ Hs1) Hid1 Hf1 eq_refl eq_refl Hpu) as Hs2.
  pose proof (stay_trans _ _ _ Hs1 Hs2) as Hs. eapply stay_post; [exact Hs|].
  eapply posts_acquire; [by eapply stay_pre| |exact H]. by rewrite (st_cur _ _ Hs), (st_idle _ _ Hs).
Qed.

Lemma allocate_tid_stay t k k' :
  pre k → cur k ≠ idle_thread k → fresh_thread k t → allocate_tid t k = Ok (tt, k') → stay k k'.
Proof.
  intros Hp Hid Hf H. unfold allocate_tid in H.
  apply stM_bind_inv in H as (n & k1 & [-> ->]%sread_inv & H).
  apply stM_bind_inv in H as ([] & k2 & ->%smod_inv & H).
  apply stM_bind_inv in H as ([] & k3 & Hpu & H).
  set (k1 := upd_next_tid (i32 (next_tid k + 1)) k) in *.
  assert (stay k k1) as Hs1 by by apply next_tid_stay.
  assert (stay k1 k3) as Hs2 by (eapply (push_target_stay (FCreated t (next_tid k)) t); try done; by eapply stay_pre).
  pose proof (stay_trans _ _ _ Hs1 Hs2) as Hs. eapply stay_trans; [exact Hs|].
  eapply stays_release; [by eapply stay_pre| |exact H]. by rewrite (st_cur _ _ Hs), (st_idle _ _ Hs).
Qed.

Lemma thread_created_stay t n k k' :
  pre k → cur k ≠ idle_thread k → fresh_thread k t → thread_created t n k = Ok (tt, k') → stay k k'.
Proof.
  intros Hp Hid Hf H. unfold thread_created in H.
  apply stM_bind_inv in H as (u1 & k1 & H1 & H). apply stM_bind_inv in H as (p & k2 & Hcu & H).
  apply stM_bind_inv in H as (u2 & k3 & H2 & H). apply stM_bind_inv in H as (th & k4 & Hg & H).
  apply stM_bind_inv in H as (u3 & k5 & H3 & H).
  apply thread_current_inv in Hcu as (-> & -> & _). apply get_thread_inv in Hg as [_ ->].
  assert (∀ g, (∀ th, magic (g th) = magic th ∧ status (g th) = status th ∧ stack (g th) = stack th ∧
    ticks_to_sleep (g th) = ticks_to_sleep th) → ∀ u k a k', mod_thread u g k = Ok (a, k') →
    fresh_thread k t → fresh_thread k' t) as Hfr.
  { intros g Hg u k0 a k0' (x & Hx & ->)%mod_thread_inv [(y & Hy & Hst & Hnb) Hut].
    destruct (Hg x) as (_ & Est & Esk & _). split; simpl.
    - destruct (decide (u = t)) as [->|Hne].
      + exists (g x). rewrite lookup_insert_eq, Est, Esk. simplify_eq. done.
      + exists y. by rewrite lookup_insert_ne.
    - intros c z. destruct (decide (u = c)) as [<-|Hne].
      + rewrite lookup_insert_eq. intros [= <-]. rewrite Esk. by apply (Hut u x).
      + rewrite lookup_insert_ne by done. apply Hut. }
  pose proof (stays_mod t (set_tid n) ltac:(done) _ _ _ Hp Hid H1) as Hs1.
  assert (cur k1 ≠ idle_thread k1) as Hid1 by by rewrite (st_cur _ _ Hs1), (st_idle _ _ Hs1).
  pose proof (stays_mod t (set_created (cur k1)) ltac:(done) _ _ _ (stay_pre _ _ Hs1) Hid1 H2) as Hs2.
  assert (cur k3 ≠ idle_thread k3) as Hid3 by by rewrite (st_cur _ _ Hs2), (st_idle _ _ Hs2).
  pose proof (stays_mod _ (set_children (child_list th ++ [mk_child n 0 0]) 0) ltac:(done) _ _ _ (stay_pre _ _ Hs2) Hid3 H3) as Hs3.
  assert (fresh_thread k5 t) as [Hpk Hut].
  { eapply (Hfr (set_children _ 0)); [done|exact H3|]. eapply (Hfr (set_created (cur k1))); [done|exact H2|].
    eapply (Hfr (set_tid n)); [done|exact H1|done]. }
  eapply stay_trans; [exact Hs1|]. eapply stay_trans; [exact Hs2|]. eapply stay_trans; [exact Hs3|].
  destruct (stay_pre _ _ Hs3) as [Hwf5 Hc5]. destruct Hpk as (x & Hx & Hst & f & Hk).
  eapply thread_unblock_stay; [done|done| |  |done|exact H].
  - destruct (w_lists _ _ _ _ _ _ Hwf5) as [[_ Hr] Hw [_ Hsl] _]. split.
    + intros Hin. destruct (proj1 (Forall_forall _ _) Hr t Hin) as (y & ? & ? & _). simplify_eq; congruence.
    + intros s q Hq Hin. destruct (Hw s q Hq) as [_ Hpp].
      destruct (proj1 (Forall_forall _ _) Hpp t Hin) as (y & ? & ? & ? & ? & ?). simplify_eq; congruence.
    + intros Hin. destruct (proj1 (Forall_forall _ _) Hsl t Hin) as (y & ? & ? & ? & ? & ?). simplify_eq; congruence.
  - intros ->. destruct (w_threads _ _ _ _ _ _ Hwf5 _ _ Hx) as [Hn0 _].
    destruct (w_idle _ _ _ _ _ _ Hwf5 Hn0) as (_ & y & Hy & _ & Hfr5). simplify_eq. rewrite Hk in Hfr5.
    by apply Forall_cons in Hfr5 as [? _].
Qed.


Lemma thread_start_post t s k k' :
  pre k → cur k ≠ idle_thread k → t = NULL ∨ threads k !! t = None →
  thread_start t s k = Ok (tt, k') → post k k'.
Proof.
  intros Hp Hid Ht H. unfold thread_start in H. apply stM_bind_inv in H as ([] & k1 & H1 & H).
  apply stM_bind_inv in H as ([] & k2 & H2 & H).
  pose proof (sema_init_stay _ _ _ _ Hp H1) as Hs1.
  assert (cur k1 ≠ idle_thread k1) as Hid1 by by rewrite (st_cur _ _ Hs1), (st_idle _ _ Hs1).
  pose proof (stays_push (FStarted s) eq_refl eq_refl _ _ _ (stay_pre _ _ Hs1) Hid1 H2) as Hs2.
  pose proof (stay_trans _ _ _ Hs1 Hs2) as Hs. eapply stay_post; [exact Hs|].
  eapply thread_create_post; [by eapply stay_pre|by rewrite (st_cur _ _ Hs), (st_idle _ _ Hs)| |exact H].
  destruct Ht as [?|Ht]; [by left|right]. destruct Hp as [Hwf _]. destruct (cur_thread _ Hwf) as (th & Hth & _).
  unfold sema_init in H1. krun. simpl in *. rewrite lookup_insert_ne; [done|]. congruence.
Qed.

(** *** The idle thread *)

Lemma idle_gone k k' : pre k → idle k = Ok (tt, k') → gone k k'.
Proof.
  intros [Hwf Hc] H. unfold idle in H. krun. simpl in *.
  destruct (cur_thread _ Hwf) as (th & Hth & Hst & Hc0 & Hso & Hu).
  destruct (thread_block_inv _ _ H) as (th1 & Hth1 & Hi & Hs). simpl in *.
  rewrite lookup_insert_eq in Hth1. injection Hth1 as <-. simplify_eq.
  eapply leave_gone; [|exact Hs|done..|exists []; by rewrite app_nil_r]. simpl.
  rewrite insert_insert_eq. eapply wf_leave; [done|done|..]; try done.
  - apply queues_insert; [apply Hwf|done].
  - apply stack_ok_push; [done|by apply Hc|done].
  - intros E Hn. simpl. split; [done|]. constructor; [done|].
    destruct (w_idle _ _ _ _ _ _ Hwf Hn) as (_ & y & Hy & _ & Hf). rewrite E in Hy. by simplify_eq.
Qed.

Lemma wf_set_idle k th :
  wfk k (Some (cur k)) → threads k !! cur k = Some th → stack th = [] →
  wfk (upd_idle (cur k) k) (Some (cur k)).
Proof.
  intros Hwf Hth Hk. destruct (cur_thread _ Hwf) as (th' & Hth' & Hst & Hc0 & _ & Hu). simplify_eq.
  destruct Hwf as [Hl Ht Hr Hb Hi]. split; try done. simpl. intros _. split; [apply Hu|].
  exists th. split; [done|]. rewrite Hst, Hk. done.
Qed.

(** ** The steps of the processor *)

(** What a step does to the invariant and to the run queue. *)
Record step_ok (k k' : kernel) : Prop := {
  so_inv : inv k';
  so_queue : ready_list k ≠ [] →
    (∃ w, ready_list k' = ready_list k ++ w ∧ thread_ticks k' = thread_ticks k) ∨
    (∃ w, ready_list k ++ w = cur k' :: ready_list k' ∧ thread_ticks k' = 0);
  so_slice : thread_ticks k' = thread_ticks k ∨ thread_ticks k' = 0;
}.

Lemma post_step k k' : in_external_intr k = false → post k k' → step_ok k k'.
Proof.
  intros Hx [[]|[]]; split.
  - split; [done|congruence|]. intros th Hth. by rewrite (st_calm0 th Hth).
  - intros _. left. destruct st_ready0 as [w ->]. eauto.
  - by left.
  - split; [done|congruence|done].
  - intros Hne. right. destruct go_ready0 as [[w E]|(E & _)]; [eauto|done].
  - by right.
Qed.

(** The new pages that [palloc_get_page] hands out hold no thread. *)
Definition event_ok (k : kernel) (e : event) : Prop :=
  match e with
  | Request (RCreate t _ _) | Request (RStart t _) | Request (RExec _ t _) => t = NULL ∨ threads k !! t = None
  | _ => True
  end.

Lemma process_execute_post fn t nm k k' :
  pre k → cur k ≠ idle_thread k → t = NULL ∨ threads k !! t = None → process_execute fn t nm k = Ok (tt, k') → post k k'.
Proof.
  intros Hp Hid Ht. unfold process_execute. destruct ((fn =? NULL) || (t =? NULL)).
  { intros H. left. eapply (stays_push (FReturn TID_ERROR)); done. }
  intros ([] & k1 & H1 & H)%stM_bind_inv. destruct (push_frame_inv _ _ _ _ H1) as (th & Hth & ->).
  assert (stay k (upd_threads <[cur k := set_stack (FExec :: stack th) th]> k)) as Hs by (by apply push_stay).
  eapply stay_post; [exact Hs|]. eapply thread_create_post; [by eapply stay_pre|..|exact H].
  - done.
  - destruct Ht as [->|Ht]; [by left|right]. simpl. rewrite lookup_insert_ne; [done|]. congruence.
Qed.

Lemma request_post r k k' :
  pre k → cur k ≠ idle_thread k → event_ok k (Request r) → run_request r k = Ok (tt, k') → post k k'.
Proof.
  intros Hp Hid He. destruct r; cbn [run_request event_ok] in *; intros H.
  all: try (by eapply thread_create_post); try (by eapply thread_start_post); try (by eapply process_execute_post).
  all: try (left; eapply stays_timer_sleep; done).
  all: match goal with H : ?f ?a = Ok (tt, ?b) |- post ?a ?b => assert (posts f) as Hf; [|by apply Hf] end.
  all: try solve [kstep].
Qed.

(** Taking the topmost frame off the running thread's stack. *)
Lemma pop_frame_spec k f l th :
  inv k → threads k !! cur k = Some th → stack th = f :: l →
  let k1 := upd_threads <[cur k := set_stack l th]> k in
  pop_frame k = Ok (Some f, k1) ∧ pre k1 ∧ (¬ idle_frame f → cur k1 ≠ idle_thread k1) ∧
  (∀ t, target f = Some t → fresh_thread k1 t) ∧ (∀ g, f = FStart g → l = []).
Proof.
  intros [Hwf Hx Hlv] Hth Hk k1. destruct (cur_thread _ Hwf) as (th' & Hth' & Hst & Hc0 & [Hso1 Hso2] & Hu).
  simplify_eq. rewrite Hk in *.
  destruct (bo_new _ (w_born _ _ _ _ _ _ Hwf) _ _ Hth) as [Hnd Hpk]. rewrite Hk in Hnd, Hpk.
  assert (∀ t, t ∈ pending l → t ∈ pending (f :: l)) as Hsub.
  { intros t. unfold pending. simpl. destruct (target f); [by right|done]. }
  split; [|split; [split|split; [|split]]].
  - unfold pop_frame, running_thread. erewrite stM_bind_run by reflexivity.
    erewrite stM_bind_run by by apply get_thread_run. rewrite Hk.
    by erewrite stM_bind_run by by apply mod_thread_run.
  - simpl. eapply wf_self; [done|done|done|done|..]; simpl.
    + split; [simpl in Hso1; destruct l; [constructor|by apply Forall_cons in Hso1 as [_ ?]]|].
      intros g r ->. simpl in Hso1. apply Forall_cons in Hso1 as [Hg _]. done.
    + unfold pending in *. simpl in Hnd. destruct (target f); [by apply NoDup_cons in Hnd as [_ ?]|done].
    + apply Forall_forall. intros t Ht. left. rewrite Hk. auto.
    + intros E Hn. destruct (w_idle _ _ _ _ _ _ Hwf Hn) as (_ & y & Hy & _ & Hf). rewrite E in Hy. simplify_eq.
      rewrite Hk in Hf. by apply Forall_cons in Hf as [_ ?].
  - intros x. simpl. rewrite lookup_insert_eq. intros [= <-]. simpl. simpl in Hso1. destruct l; [done|].
    by apply Forall_cons in Hso1 as [? _].
  - intros Hnf E. apply Hnf. simpl in E.
    assert (idle_thread k ≠ NULL) as Hn by congruence.
    destruct (w_idle _ _ _ _ _ _ Hwf Hn) as (_ & y & Hy & _ & Hf). rewrite <- E in Hy. simplify_eq.
    rewrite Hk in Hf. by apply Forall_cons in Hf as [? _].
  - intros t Ht. assert (t ∈ pending (f :: l)) as Hin by (unfold pending; simpl; rewrite Ht; by left).
    pose proof (proj1 (Forall_forall _ _) Hpk t Hin) as Hpt. split.
    + apply parked_insert_ne; [|done]. intros ->. destruct Hpt as (y & Hy & Hy2 & _). simplify_eq. congruence.
    + intros c x. destruct (decide (cur k = c)) as [<-|Hne].
      * simpl. rewrite lookup_insert_eq. intros [= <-]. simpl. unfold pending in Hnd. simpl in Hnd. rewrite Ht in Hnd.
        by apply NoDup_cons in Hnd as [? _].
      * simpl. rewrite lookup_insert_ne by done. intros Hx2 Hin2. apply Hne.
        eapply (bo_one _ (w_born _ _ _ _ _ _ Hwf)); [exact Hth|exact Hx2|by rewrite Hk|done].
  - intros g ->. by apply (Hso2 g l).
Qed.

Lemma intr_of_run lvl k k' :
  (_ ← intr_set_level lvl; mret tt) k = Ok (tt, k') → k' = upd_intr lvl k.
Proof. intros H. krun. done. Qed.

Lemma resume_step f k k' :
  pre k → in_external_intr k = false → (¬ idle_frame f → cur k ≠ idle_thread k) →
  (∀ t, target f = Some t → fresh_thread k t) →
  (∀ g, f = FStart g → ∃ th, threads k !! cur k = Some th ∧ stack th = []) →
  resume f k = Ok (tt, k') → step_ok k k'.
Proof.
  intros Hp Hx Hni Htg Hst H.
  assert (post k k' → step_ok k k') as Hpost by by apply post_step.
  destruct f; cbn [resume] in H.
  - apply Hpost. left. eapply (stays_push FUser); try done. apply Hni; by intros [].
  - destruct (Hst _ eq_refl) as (th & Hth & Hk). unfold kernel_thread in H.
    assert (cur k ≠ idle_thread k) as Hid by (apply Hni; by intros []).
    apply stM_bind_inv in H as (b & k1 & H1 & H). apply intr_enable_inv in H1 as [_ ->].
    pose proof (intr_stay k true Hp) as Hs1.
    destruct function as [|s].
    + apply Hpost. left. eapply stay_trans; [exact Hs1|]. eapply (stays_push FUser); done.
    + apply stM_bind_inv in H as (c & k2 & H2 & H). apply thread_current_inv in H2 as (-> & -> & _).
      apply stM_bind_inv in H as ([] & k2 & ->%smod_inv & H).
      apply stM_bind_inv in H as ([] & k3 & H3 & H). cbn [cur upd_intr] in *.
      set (k2 := upd_idle (cur k) (upd_intr true k)) in *.
      assert (pre k2) as Hp2.
      { split; [|apply Hp]. by apply (wf_set_idle (upd_intr true k) th); [apply Hp|..]. }
      destruct (push_frame_inv _ _ _ _ H3) as (th3 & Hth3 & ->).
      pose proof (push_stay FIdle k2 th3 Hp2 Hth3 eq_refl eq_refl ltac:(done)) as Hs3.
      pose proof (sema_up_stay _ _ _ (stay_pre _ _ Hs3) H) as Hs4. pose proof (stay_trans _ _ _ Hs3 Hs4) as Hs.
      destruct (post_step k2 k' Hx (or_introl Hs)) as [Hinv Hq Hsl]. by split.
  - apply smod_inv in H as ->. apply Hpost. left. by apply intr_stay.
  - apply intr_of_run in H as ->. apply Hpost. left. by apply intr_stay.
  - apply Hpost. eapply sema_down_loop_post; [done|apply Hni; by intros []|done].
  - apply Hpost. left. by eapply sema_up_stay.
  - apply Hpost. revert H. apply (posts_bind thread_current); [apply stays_current| |done|apply Hni; by intros []].
    intros t. apply posts_stays, stays_set_holder.
  - apply Hpost. revert H. apply (posts_bind (push_frame (FCondLock lock))); [by apply stays_push| |done|apply Hni; by intros []].
    intros _. apply posts_down.
  - apply Hpost. eapply posts_acquire; [done|apply Hni; by intros []|done].
  - apply Hpost. left. eapply stays_cond_broadcast; [done|apply Hni; by intros []|done].
  - apply Hpost. eapply posts_sleep_block; [done|apply Hni; by intros []|done].
  - apply intr_of_run in H as ->. apply Hpost. left. by apply intr_stay.
  - apply stM_bind_inv in H as ([] & k1 & H1 & H). destruct (push_frame_inv _ _ _ _ H1) as (th & Hth & ->).
    pose proof (push_stay FIdle k th Hp Hth eq_refl eq_refl ltac:(done)) as Hs1.
    apply Hpost. right. eapply stay_gone; [exact Hs1|]. eapply idle_gone; [by eapply stay_pre|done].
  - apply smod_inv in H as ->. apply Hpost. left. by apply intr_stay.
  - apply Hpost. left. eapply allocate_tid_stay; [done|apply Hni; by intros []|by apply Htg|done].
  - apply Hpost. left. eapply thread_created_stay; [done|apply Hni; by intros []|by apply Htg|done].
  - apply Hpost. revert H. apply (posts_bind intr_enable); [apply stays_enable| |done|apply Hni; by intros []].
    intros _. apply posts_down.
  - apply Hpost. eapply posts_execute_wait; [done|apply Hni; by intros []|done].
  - apply Hpost. left. eapply stays_execute_end; [done|apply Hni; by intros []|done].
  - apply Hpost. eapply posts_wait_down; [done|apply Hni; by intros []|done].
  - apply Hpost. left. eapply stays_wait_end; [done|apply Hni; by intros []|done].
  - apply Hpost. left. eapply stays_exit_ret; [done|apply Hni; by intros []|done].
  - apply Hpost. left. eapply stays_exit_done; [done|apply Hni; by intros []|done].
  - apply Hpost. left. eapply stays_exit_up; [done|apply Hni; by intros []|done].
  - apply Hpost. eapply posts_exit; [done|apply Hni; by intros []|done].
  - injection H as <-. apply Hpost. left. by apply stay_refl.
Qed.

Lemma exec_step e k k' :
  inv k → event_ok k e → exec e k = Ok (tt, k') →
  inv k' ∧ match e with Tick => True | _ => step_ok k k' end.
Proof.
  intros Hinv He H. destruct e as [| |r].
  - split; [|done]. destruct (intr_on k) eqn:Hon.
    + destruct (tick_spec k Hinv Hon) as (k2 & A & B & H2 & [Hwf Hx _ _ _ _ _ Hn]). rewrite H in H2.
      injection H2 as <-. split; [done|done|]. intros th Hth Hsw.
      destruct (TIME_SLICE <=? _); [apply Hn|]. destruct Hn as [Hc _]. by rewrite (Hc th Hth) in Hsw.
    + unfold exec, intr_handler, intr_get_level in H. apply stM_bind_inv in H as (? & ? & [-> ->]%sread_inv & H).
      rewrite Hon in H. by injection H as <-.
  - cut (step_ok k k'); [intros Hs; split; [apply Hs|done]|]. cbn [exec] in H.
    destruct (cur_thread _ (inv_wf _ Hinv)) as (th & Hth & _).
    destruct (stack th) as [|f l] eqn:Hk.
    { unfold pop_frame, running_thread in H.
      apply stM_bind_inv in H as (o & k1 & H1 & H).
      erewrite stM_bind_run in H1 by reflexivity. erewrite stM_bind_run in H1 by by apply get_thread_run.
      rewrite Hk in H1. injection H1 as <- <-. done. }
    destruct (pop_frame_spec k f l th Hinv Hth Hk) as (Hpop & Hp & Hni & Htg & Hst).
    erewrite stM_bind_run in H by exact Hpop. cbv beta iota in H.
    destruct (resume_step f _ k' Hp (inv_context _ Hinv) Hni Htg) as [Hi Hq Hsl]; [|exact H|by split].
    intros g Hg. eexists. simpl. rewrite lookup_insert_eq. split; [done|]. simpl. by eapply Hst.
  - cut (step_ok k k'); [intros Hs; split; [apply Hs|done]|]. cbn [exec] in H.
    destruct (cur_thread _ (inv_wf _ Hinv)) as (th & Hth & Hst & Hc0 & _). unfold running_thread in H.
    erewrite stM_bind_run in H by reflexivity. erewrite stM_bind_run in H by by apply get_thread_run.
    destruct Hinv as [Hwf Hx Hlv].
    destruct (stack th) as [|[] l] eqn:Hk; try (injection H as <-; split; [by split| |by left]; left; exists []; by rewrite app_nil_r).
    apply post_step; [done|]. eapply request_post; [|  |exact He|exact H].
    + split; [done|]. intros x Hxx. simplify_eq. by rewrite Hk.
    + intros E. assert (idle_thread k ≠ NULL) as Hn by congruence.
      destruct (w_idle _ _ _ _ _ _ Hwf Hn) as (_ & y & Hy & _ & Hf). rewrite <- E in Hy. simplify_eq.
      rewrite Hk in Hf. by apply Forall_cons in Hf as [? _].
Qed.

End functions.
