(* ===== verification/Scheduling.v ===== *)
(** * What the thread system promises

    The mutual exclusion of the lists that use a thread's [elem], the wake-up
    of sleeping threads, and the fairness of the round-robin scheduler, for
    every state that the processor can reach after [thread_init]. *)

From stdpp Require Import sorting.
From S2P Require Import Prelude Threads ThreadInv.
Import Threads.

Inductive reachable (main : Z) : kernel → Prop :=
| reach_init : reachable main (thread_init main)
| reach_step e k k' : reachable main k → event_ok k e → exec e k = Ok (tt, k') → reachable main k'.

Lemma inv_init main : main ≠ NULL → inv (thread_init main).
Proof.
  intros Hm. split; [|done|].
  - simpl. split.
    + split; [split; constructor| |split; constructor|constructor].
      intros s q. rewrite !lookup_insert_Some. intros Hq.
      assert (waiters q = []) as ->; [|by split; constructor].
      destruct Hq as [[_ <-]|[_ [[_ <-]|[_ [[_ <-]|[_ Hq]]]]]]; [done..|]. by rewrite lookup_empty in Hq.
    + intros t th [<- <-]%lookup_singleton_Some. split_and!; try done.
    + intros t [= <-]. by rewrite lookup_singleton_eq.
    + split.
      * intros t th [<- <-]%lookup_singleton_Some. split; constructor.
      * intros c1 c2 th1 th2 t [<- <-]%lookup_singleton_Some _ Hin. by apply elem_of_nil in Hin.
    + done.
  - simpl. by rewrite lookup_singleton_eq.
Qed.

Lemma reachable_inv main k : main ≠ NULL → reachable main k → inv k ∧ 0 ≤ thread_ticks k < TIME_SLICE.
Proof.
  intros Hm. induction 1 as [|e k k' _ [IH IHs] He Hx]; [split; [by apply inv_init|done]|].
  destruct (exec_step e k k' IH He Hx) as [Hi Hs]. split; [done|]. destruct e as [| |r].
  - destruct (intr_on k) eqn:Hon.
    + destruct (tick_spec k IH Hon) as (k2 & A & B & H2 & Ht). rewrite Hx in H2. injection H2 as <-.
      pose proof (ti_next _ _ _ _ Ht) as Hn. unfold TIME_SLICE in *.
      rewrite u32_small in Hn by (unfold in_u32; lia). destruct (Z.leb_spec 4 (thread_ticks k + 1)); lia.
    + unfold exec, intr_handler, intr_get_level in Hx. apply stM_bind_inv in Hx as (? & ? & [-> ->]%sread_inv & Hx).
      rewrite Hon in Hx. by injection Hx as <-.
  - destruct (so_slice _ _ Hs) as [-> | ->]; unfold TIME_SLICE in *; lia.
  - destruct (so_slice _ _ Hs) as [-> | ->]; unfold TIME_SLICE in *; lia.
Qed.

(** ** One list per thread *)

(** Every list that links threads through [elem]. *)
Definition all_waiters (sm : gmap Z semaphore) : list Z := map_to_list sm ≫= λ p, waiters p.2.
Definition elem_lists (k : kernel) : list Z := ready_list k ++ list_threads k ++ all_waiters (semas k).

Lemma NoDup_bind_waiters (l : list (Z * semaphore)) :
  NoDup l.*1 → (∀ s q, (s, q) ∈ l → NoDup (waiters q)) →
  (∀ s1 q1 s2 q2 t, (s1, q1) ∈ l → (s2, q2) ∈ l → t ∈ waiters q1 → t ∈ waiters q2 → s1 = s2) →
  NoDup (l ≫= λ p, waiters p.2).
Proof.
  induction l as [|[s q] l IH]; intros Hnd Hw Ho; simpl; [constructor|].
  apply NoDup_cons in Hnd as [Hs Hnd]. apply NoDup_app. split; [by apply (Hw s q); left|]. split.
  - intros t Ht (p & Hp & Hin)%list_elem_of_bind. destruct p as [s2 q2]. simpl in *.
    assert (s = s2) as <- by (eapply (Ho s q s2 q2 t); [by left|by right|done|done]).
    apply Hs. apply list_elem_of_fmap. by exists (s, q2).
  - apply IH; [done| |].
    + intros s2 q2 Hin. apply (Hw s2 q2). by right.
    + intros s1 q1 s2 q2 t H1 H2. apply Ho; by right.
Qed.

Lemma elem_lists_nodup k : inv k → NoDup (elem_lists k).
Proof.
  intros [Hwf _ _]. pose proof (w_lists _ _ _ _ _ _ Hwf) as Hl.
  destruct (li_ready _ _ _ _ Hl) as [Hr Hr2]. destruct (li_sleep _ _ _ _ Hl) as [Hs Hs2].
  assert (∀ t, t ∈ all_waiters (semas k) → ∃ s q, semas k !! s = Some q ∧ t ∈ waiters q) as Hin.
  { intros t ([s q] & Hin & Ht)%list_elem_of_bind. apply elem_of_map_to_list in Ht. eauto. }
  apply NoDup_app. split; [done|]. split; [|apply NoDup_app; split; [done|split]].
  - intros t Ht [Ht2|Ht2]%elem_of_app.
    + by destruct (sleeping_elsewhere _ _ _ _ t Hl Ht2) as [? _].
    + destruct (Hin t Ht2) as (s & q & Hq & Hw). by destruct (waiting_elsewhere _ _ _ _ _ _ t Hl Hq Hw) as [? _].
  - intros t Ht Ht2. destruct (Hin t Ht2) as (s & q & Hq & Hw).
    by destruct (waiting_elsewhere _ _ _ _ _ _ t Hl Hq Hw) as (_ & ? & _).
  - apply NoDup_bind_waiters.
    + apply NoDup_fst_map_to_list.
    + intros s q Hq%elem_of_map_to_list. by destruct (li_wait _ _ _ _ Hl s q Hq).
    + intros s1 q1 s2 q2 t H1%elem_of_map_to_list H2%elem_of_map_to_list Ht1 Ht2.
      by eapply (waiting_elsewhere _ _ _ _ s2 q2 t Hl).
Qed.

(** C7: whatever the threads do, a thread's [elem] is on at most one list: the
    run queue, the sleepers and all semaphores' waiters together hold no thread
    twice, those on the run queue are ready and the others blocked, and exactly
    the current thread is running. *)
Theorem elem_on_one_list main k :
  main ≠ NULL → reachable main k →
  NoDup (elem_lists k) ∧
  (∀ t, t ∈ ready_list k → status <$> threads k !! t = Some THREAD_READY) ∧
  (∀ t, t ∈ list_threads k ++ all_waiters (semas k) → status <$> threads k !! t = Some THREAD_BLOCKED) ∧
  (∀ t, status <$> threads k !! t = Some THREAD_RUNNING ↔ t = cur k).
Proof.
  intros Hm Hr. destruct (reachable_inv main k Hm Hr) as [Hinv _]. split; [by apply elem_lists_nodup|].
  destruct Hinv as [Hwf _ _]. pose proof (w_lists _ _ _ _ _ _ Hwf) as Hl. split_and!.
  - intros t Ht. destruct (li_ready _ _ _ _ Hl) as [_ Hp].
    destruct (proj1 (Forall_forall _ _) Hp t Ht) as (th & -> & Hst & _). simpl. by rewrite Hst.
  - intros t [Ht|Ht]%elem_of_app.
    + destruct (li_sleep _ _ _ _ Hl) as [_ Hp].
      destruct (proj1 (Forall_forall _ _) Hp t Ht) as (th & -> & Hst & _). simpl. by rewrite Hst.
    + apply list_elem_of_bind in Ht as ([s q] & Hin & Hq%elem_of_map_to_list).
      destruct (li_wait _ _ _ _ Hl s q Hq) as [_ Hp].
      destruct (proj1 (Forall_forall _ _) Hp t Hin) as (th & -> & Hst & _). simpl. by rewrite Hst.
  - intros t. split.
    + intros (th & Ht & Hst)%fmap_Some. destruct (w_threads _ _ _ _ _ _ Hwf t th Ht) as (_ & _ & [Hx _] & _).
      specialize (Hx (eq_sym Hst)). by injection Hx.
    + intros ->. destruct (cur_thread _ Hwf) as (th & -> & Hst & _). simpl. by rewrite Hst.
Qed.

(** ** Sleeping threads *)

(** C8: a timer interrupt is handled without a failed assertion in every
    reachable state; it wakes exactly the sleepers whose time has come, so that
    nobody sleeps on past the deadline and nobody is woken before it, and every
    thread it wakes is then ready or already running. *)
Theorem timer_wakes_on_time main k :
  main ≠ NULL → reachable main k → intr_on k = true →
  ∃ k', exec Tick k = Ok (tt, k') ∧ ticks k' = i64 (ticks k + 1) ∧
    list_threads k' = filter (λ t, i64 (ticks k + 1) < deadline (threads k) t) (list_threads k) ∧
    (∀ t, t ∈ list_threads k → deadline (threads k) t ≤ i64 (ticks k + 1) → t ∈ ready_list k' ∨ t = cur k').
Proof.
  intros Hm Hr Hon. destruct (reachable_inv main k Hm Hr) as [Hinv _].
  destruct (tick_spec k Hinv Hon) as (k' & A & B & Hx & [Hwf _ Ht Hsp Hsl Hdue Hlat Hn]).
  exists k'. split; [done|]. split; [done|]. split.
  - rewrite Hsl, Hsp, filter_app.
    assert (filter (λ t, i64 (ticks k + 1) < deadline (threads k) t) A = []) as ->.
    { clear -Hdue. induction Hdue as [|t l Ht _ IH]; [done|]. rewrite filter_cons_False; [done|]. lia. }
    clear -Hlat. induction Hlat as [|t l Ht _ IH]; [done|]. rewrite filter_cons_True by done. simpl in *. by f_equal.
  - intros t Hin Hd. rewrite Hsp in Hin. apply elem_of_app in Hin as [Hin|Hin]; last first.
    { pose proof (proj1 (Forall_forall _ _) Hlat t Hin) as Hx2. simpl in Hx2. lia. }
    destruct (TIME_SLICE <=? _).
    + destruct Hn as (_ & _ & [[w E]|(_ & -> & _)]); [|by apply elem_of_nil in Hin].
      assert (t ∈ cur k' :: ready_list k') as Hin2 by (rewrite <- E; set_solver).
      apply elem_of_cons in Hin2. tauto.
    + destruct Hn as (_ & _ & _ & ->). left. set_solver.
Qed.

(** ** Fairness *)

(** A run of the processor: its events and the states it goes through. *)
Inductive runs : kernel → list (event * kernel) → Prop :=
| runs_nil k : runs k []
| runs_cons k e k' tr : event_ok k e → exec e k = Ok (tt, k') → runs k' tr → runs k ((e, k') :: tr).

(** The timer interrupt is taken: interrupts are on. *)
Definition taken (k : kernel) (e : event) : Z :=
  match e with Tick => if intr_on k then 1 else 0 | _ => 0 end.
Fixpoint interrupts (k : kernel) (tr : list (event * kernel)) : Z :=
  match tr with [] => 0 | (e, k') :: tr => taken k e + interrupts k' tr end.

(** How many interrupts can be taken before the thread with [n] others in
    front of it has the processor. *)
Definition distance (k : kernel) (n : nat) : Z :=
  TIME_SLICE * Z.of_nat n + (TIME_SLICE - thread_ticks k).

Lemma queue_stays k k' L t R w d :
  ready_list k = L ++ t :: R → ready_list k' = ready_list k ++ w → thread_ticks k' = thread_ticks k + d →
  ∃ L' R', ready_list k' = L' ++ t :: R' ∧ distance k' (length L') + d ≤ distance k (length L).
Proof.
  intros HL Hw Hd. exists L, (R ++ w). rewrite Hw, HL, <- app_assoc. split; [done|]. unfold distance. lia.
Qed.

Lemma queue_moves k k' L t R w :
  ready_list k = L ++ t :: R → ready_list k ++ w = cur k' :: ready_list k' → thread_ticks k' = 0 →
  thread_ticks k < TIME_SLICE →
  cur k' = t ∨ ∃ L' R', ready_list k' = L' ++ t :: R' ∧ distance k' (length L') + 1 ≤ distance k (length L).
Proof.
  intros HL Hw H0 Hs. rewrite HL in Hw. destruct L as [|x L]; simpl in Hw; injection Hw as Hc Hw; [by left|].
  right. exists L, (R ++ w). rewrite <- Hw, <- app_assoc. split; [done|].
  unfold distance, TIME_SLICE in *. rewrite H0. simpl length. lia.
Qed.

Lemma step_position e k k' L t R :
  inv k → 0 ≤ thread_ticks k < TIME_SLICE → event_ok k e → exec e k = Ok (tt, k') →
  ready_list k = L ++ t :: R →
  cur k' = t ∨ ∃ L' R', ready_list k' = L' ++ t :: R' ∧ distance k' (length L') + taken k e ≤ distance k (length L).
Proof.
  intros Hinv Hs He Hx HL. destruct (exec_step e k k' Hinv He Hx) as [_ Hst].
  assert (ready_list k ≠ []) as Hne by (rewrite HL; by destruct L).
  assert (step_ok k k' → taken k e = 0 → cur k' = t ∨ ∃ L' R', ready_list k' = L' ++ t :: R' ∧
    distance k' (length L') + taken k e ≤ distance k (length L)) as Hgen.
  { intros Hok ->. destruct (so_queue _ _ Hok Hne) as [(w & Hw & Ht)|(w & Hw & Ht)].
    - right. apply (queue_stays k k' L t R w 0); [done|done|lia].
    - destruct (queue_moves k k' L t R w) as [?|(L' & R' & ? & ?)]; try done; [lia|by left|].
      right. exists L', R'. split; [done|lia]. }
  destruct e as [| |r]; [|by apply Hgen..]. unfold taken. destruct (intr_on k) eqn:Hon.
  - destruct (tick_spec k Hinv Hon) as (k2 & A & B & H2 & [_ _ _ _ _ _ _ Hn]). rewrite Hx in H2. injection H2 as <-.
    unfold TIME_SLICE in Hs. rewrite u32_small in Hn by (unfold in_u32; lia).
    destruct (TIME_SLICE <=? thread_ticks k + 1).
    + destruct Hn as (_ & Ht & [[w Hw]|(E & _)]); [|done]. eapply queue_moves; try done. unfold TIME_SLICE. lia.
    + destruct Hn as (_ & _ & Ht & Hr). right. by eapply queue_stays.
  - right. unfold exec, intr_handler, intr_get_level in Hx.
    apply stM_bind_inv in Hx as (? & ? & [-> ->]%sread_inv & Hx). rewrite Hon in Hx. injection Hx as <-.
    eapply (queue_stays k k L t R []); [done|by rewrite app_nil_r|lia].
Qed.

(** C9: the scheduler is fair: whatever the threads do, a ready thread with
    [n] threads in front of it gets the processor before [4 * (n + 1)] timer
    interrupts have been taken. *)
Theorem ready_thread_runs main k L t R tr :
  main ≠ NULL → reachable main k → ready_list k = L ++ t :: R → runs k tr →
  TIME_SLICE * (Z.of_nat (length L) + 1) ≤ interrupts k tr →
  ∃ e k', (e, k') ∈ tr ∧ cur k' = t.
Proof.
  intros Hm Hr HL Hruns Hi.
  assert (distance k (length L) ≤ TIME_SLICE * (Z.of_nat (length L) + 1)) as Hd.
  { destruct (reachable_inv main k Hm Hr) as [_ Hs]. unfold distance. lia. }
  assert (distance k (length L) ≤ interrupts k tr) as Hlt by lia. clear Hi Hd.
  revert L R HL Hr Hlt. induction Hruns as [k|k e k' tr He Hx Hruns IH]; intros L R HL Hr Hlt.
  - destruct (reachable_inv main k Hm Hr) as [_ Hs]. simpl in Hlt. unfold distance, TIME_SLICE in *. lia.
  - destruct (reachable_inv main k Hm Hr) as [Hinv Hs].
    destruct (step_position e k k' L t R) as [Hc|(L' & R' & HL' & Hd)]; try done.
    + exists e, k'. split; [by left|done].
    + simpl in Hlt. destruct (IH L' R') as (e2 & k2 & Hin & Hc); [done|by eapply reach_step|lia|].
      exists e2, k2. split; [by right|done].
Qed.

(** ** Concrete runs *)

Definition event_okb (k : kernel) (e : event) : bool :=
  match e with
  | Request (RCreate t _ _) | Request (RStart t _) | Request (RExec _ t _) =>
      bool_decide (t = NULL) || bool_decide (threads k !! t = None)
  | _ => true
  end.
Fixpoint play (es : list event) (k : kernel) : option (list (event * kernel)) :=
  match es with
  | [] => Some []
  | e :: es =>
      if event_okb k e then
        match exec e k with
        | Ok (_, k') => tr ← play es k'; Some ((e, k') :: tr)
        | Err _ => None
        end
      else None
  end.
Definition final (k : kernel) (tr : list (event * kernel)) : kernel := default k (snd <$> last tr).

Lemma play_runs es k tr : play es k = Some tr → runs k tr.
Proof.
  revert k tr. induction es as [|e es IH]; intros k tr; simpl; [intros [= <-]; constructor|].
  destruct (event_okb k e) eqn:He; [|done]. destruct (exec e k) as [[[] k']|] eqn:Hx; [|done].
  intros (tr' & Htr & [= <-])%bind_Some. constructor; [|done|by apply IH].
  destruct e as [| |[]]; try done; apply orb_true_iff in He; rewrite !bool_decide_eq_true in He; exact He.
Qed.

Lemma runs_reachable main k tr : reachable main k → runs k tr → reachable main (final k tr).
Proof.
  intros Hr Hruns. revert Hr. induction Hruns as [k|k e k' tr He Hx Hruns IH]; intros Hr; [done|].
  assert (reachable main k') as Hr' by by eapply reach_step. specialize (IH Hr'). revert IH. unfold final.
  destruct tr as [|x tr]; [done|]. rewrite last_cons_cons.
  destruct (last (x :: tr)) eqn:E; [done|]. by apply last_None in E.
Qed.

(** The main thread starts the idle thread, creates two more and goes to sleep
    for two ticks; the first of the new threads yields to the second. *)
Definition sample_events : list event :=
  [Request (RStart 8192 300)] ++ replicate 8 Continue ++
  [Request (RCreate 12288 [97] 31)] ++ replicate 4 Continue ++
  [Request (RCreate 16384 [98] 31)] ++ replicate 4 Continue ++
  [Request (RSleep 2); Continue; Continue; Request RYield; Continue].
Definition sample_trace : list (event * kernel) := default [] (play sample_events (thread_init 4096)).
Definition sample_kernel : kernel := final (thread_init 4096) sample_trace.

Lemma sample_reachable : reachable 4096 sample_kernel.
Proof.
  apply runs_reachable; [constructor|]. apply (play_runs sample_events). vm_compute. reflexivity.
Qed.

Lemma elem_on_one_list_witness :
  elem_lists sample_kernel = [12288; 4096] ∧ NoDup (elem_lists sample_kernel).
Proof.
  split; [vm_compute; reflexivity|]. apply (elem_on_one_list 4096 sample_kernel).
  - discriminate.
  - exact sample_reachable.
Defined.

(** One tick later nobody is due; two ticks later the main thread is. *)
Lemma timer_wakes_on_time_witness :
  ∃ k', exec Tick sample_kernel = Ok (tt, k') ∧ list_threads k' = [4096].
Proof.
  destruct (timer_wakes_on_time 4096 sample_kernel) as (k' & Hx & _ & Hl & _).
  - discriminate.
  - exact sample_reachable.
  - vm_compute. reflexivity.
  - exists k'. split; [exact Hx|]. rewrite Hl. vm_compute. reflexivity.
Defined.

Lemma ready_thread_runs_witness :
  ∃ tr, play (concat (replicate 4 [Tick; Continue])) sample_kernel = Some tr ∧
    ∃ e k', (e, k') ∈ tr ∧ cur k' = 12288.
Proof.
  destruct (play (concat (replicate 4 [Tick; Continue])) sample_kernel) as [tr|] eqn:E.
  - exists tr. split; [reflexivity|].
    apply (ready_thread_runs 4096 sample_kernel [] 12288 [] tr).
    + discriminate.
    + exact sample_reachable.
    + vm_compute. reflexivity.
    + exact (play_runs _ _ _ E).
    + revert E. vm_compute. intros [= <-]. discriminate.
  - exfalso. revert E. vm_compute. discriminate.
Defined.
