(* ===== verification/Lifecycle.v ===== *)
(** * Processes that end and processes that wait

    What the hand-shake between [process_wait] and [exit] does: a parent that
    waits gets the status its child ended with when nothing comes between, and
    a run in which it does not. *)

From S2P Require Import Prelude Descriptors Threads ThreadInv Scheduling.
Import Threads.

(** Several steps of the processor. *)
Fixpoint execs (es : list event) : kM unit :=
  match es with [] => mret tt | e :: es => exec e;; execs es end.

Lemma execs_cons e es k k' : exec e k = Ok (tt, k') → execs (e :: es) k = execs es k'.
Proof. intros H. cbn [execs]. by erewrite stM_bind_run by exact H. Qed.

(** [k] with [th] as the thread at [t]. *)
Definition with_thread (t : Z) (th : thread) (k : kernel) : kernel := upd_threads <[t := th]> k.

Lemma with_twice t a b k : with_thread t a (with_thread t b k) = with_thread t a k.
Proof. unfold with_thread, upd_threads. simpl. by rewrite insert_insert_eq. Qed.
Lemma with_swap t u a b k : t ≠ u → with_thread t a (with_thread u b k) = with_thread u b (with_thread t a k).
Proof. intros Hne. unfold with_thread, upd_threads. simpl. by rewrite (insert_insert_ne _ t u). Qed.
Lemma with_under t u a b c k : t ≠ u → with_thread t a (with_thread u b (with_thread t c k)) = with_thread t a (with_thread u b k).
Proof.
  intros Hne. unfold with_thread, upd_threads. simpl. by rewrite (insert_insert_ne _ u t), insert_insert_eq by done.
Qed.
Lemma with_lookup t th k : threads (with_thread t th k) !! t = Some th.
Proof. apply lookup_insert_eq. Qed.
Lemma with_lookup_ne t u th k : t ≠ u → threads (with_thread t th k) !! u = threads k !! u.
Proof. apply lookup_insert_ne. Qed.

(** A thread that can run. *)
Definition sound (th : thread) : Prop := magic th = THREAD_MAGIC ∧ status th = THREAD_RUNNING.

Lemma current_run k th : cur k ≠ NULL → threads k !! cur k = Some th → sound th → thread_current k = Ok (cur k, k).
Proof.
  intros Hn Hth [Hm Hs]. unfold thread_current, running_thread. erewrite stM_bind_run by reflexivity.
  unfold is_thread. rewrite (proj2 (Z.eqb_neq _ _)) by done.
  erewrite stM_bind_run by (erewrite stM_bind_run by (by apply get_thread_run); by rewrite Hm, Z.eqb_refl).
  erewrite stM_bind_run by reflexivity. erewrite stM_bind_run by (by apply get_thread_run).
  by erewrite stM_bind_run by (rewrite bool_decide_eq_true_2 by done; reflexivity).
Qed.

Lemma continue_run k th f l :
  threads k !! cur k = Some th → stack th = f :: l → exec Continue k = resume f (with_thread (cur k) (set_stack l th) k).
Proof.
  intros Hth Hs. cbn [exec]. unfold pop_frame, running_thread.
  erewrite stM_bind_run by (erewrite stM_bind_run by reflexivity; erewrite stM_bind_run by (by apply get_thread_run); rewrite Hs;
    by erewrite stM_bind_run by (by apply mod_thread_run)). done.
Qed.

Lemma unblock_run k t th :
  t ≠ NULL → threads k !! t = Some th → magic th = THREAD_MAGIC → status th = THREAD_BLOCKED → intr_on k = false →
  thread_unblock t k = Ok (tt, with_thread t (set_status THREAD_READY th) (upd_ready (λ l, l ++ [t]) k)).
Proof.
  intros Hn Ht Hm Hst Hi. unfold thread_unblock, is_thread. rewrite (proj2 (Z.eqb_neq _ _)) by done.
  erewrite stM_bind_run by (erewrite stM_bind_run by (by apply get_thread_run); by rewrite Hm, Z.eqb_refl).
  erewrite stM_bind_run by reflexivity. unfold intr_disable, intr_get_level.
  erewrite stM_bind_run by (by erewrite stM_bind_run by reflexivity).
  assert (upd_intr false k = k) as -> by (rewrite <- Hi; apply intr_same).
  erewrite stM_bind_run by (by apply get_thread_run).
  erewrite stM_bind_run by (rewrite bool_decide_eq_true_2 by done; reflexivity).
  erewrite stM_bind_run by reflexivity. erewrite stM_bind_run by (by apply mod_thread_run). rewrite Hi.
  unfold intr_set_level, intr_disable, intr_get_level. erewrite stM_bind_run by (by erewrite stM_bind_run by reflexivity).
  unfold mret, stM_ret. do 2 f_equal. destruct k. simpl in *. by subst.
Qed.

Section exit.
Context (k : kernel) (C P : Z) (thC thP : thread) (r : list frame) (st : Z) (rec : child).
Context (HC : cur k = C) (HthC : threads k !! C = Some thC) (HthP : threads k !! P = Some thP) (Hne : C ≠ P).
Context (HnC : C ≠ NULL) (HnP : P ≠ NULL) (HsC : sound thC) (HmP : magic thP = THREAD_MAGIC).
Context (Hstack : stack thC = FUser :: r) (Hpar : parent thC = P).
Context (Hrec : find_child (tid thC) (child_list thP) = Some rec).

(** The child with the frames [l]. *)
Definition ending (l : list frame) : thread := set_stack l (set_exit_status st thC).

Lemma terminate_run : exec (Request (RTerminate st)) k = Ok (tt, with_thread C (ending (FExitRet st :: FUser :: r)) k).
Proof.
  cbn [exec]. unfold running_thread. erewrite stM_bind_run by reflexivity. rewrite HC.
  erewrite stM_bind_run by (by apply get_thread_run). rewrite Hstack. cbn [run_request]. unfold exit.
  erewrite stM_bind_run by (eapply current_run; [by rewrite HC|by rewrite HC|done]). rewrite HC.
  erewrite stM_bind_run by (by apply mod_thread_run).
  erewrite push_frame_run by (cbn [cur upd_threads]; rewrite HC; apply lookup_insert_eq).
  cbn [cur upd_threads]. rewrite HC. do 2 f_equal. etransitivity; [apply with_twice|]. unfold ending. cbn [stack set_exit_status].
  by rewrite Hstack.
Qed.

(** The child between its steps, [th] being the parent. *)
Definition at_step (l : list frame) (th : thread) : kernel := with_thread C (ending l) (with_thread P th k).

Lemma step_cur l th : cur (at_step l th) = C.
Proof. exact HC. Qed.
Lemma step_child l th : threads (at_step l th) !! cur (at_step l th) = Some (ending l).
Proof. rewrite step_cur. apply with_lookup. Qed.
Lemma step_parent l th : threads (at_step l th) !! P = Some th.
Proof. unfold at_step. by rewrite with_lookup_ne, with_lookup. Qed.
Lemma step_current l th : thread_current (at_step l th) = Ok (C, at_step l th).
Proof. pose proof (current_run (at_step l th) (ending l)) as E. rewrite step_cur in E. apply E; [done|apply with_lookup|done]. Qed.
Lemma step_pop f l th : exec Continue (at_step (f :: l) th) = resume f (at_step l th).
Proof.
  erewrite continue_run; [|apply step_child|reflexivity]. f_equal. rewrite step_cur. unfold at_step. by rewrite with_twice.
Qed.
Lemma step_push f l th : push_frame f (at_step l th) = Ok (tt, at_step (f :: l) th).
Proof.
  erewrite push_frame_run by apply step_child. do 2 f_equal. rewrite step_cur. etransitivity; [apply with_twice|done].
Qed.
Lemma step_mod_parent g l th : mod_thread P g (at_step l th) = Ok (tt, at_step l (g th)).
Proof.
  erewrite mod_thread_run by apply step_parent. do 2 f_equal. unfold at_step.
  etransitivity; [by apply (with_swap P C)|]. by rewrite with_twice.
Qed.

(** [c_t->child_ret = status], then [c_t->child_done = 1]. *)
Definition recorded (f : child → child) (th : thread) : thread := with_children (upd_child (tid thC) f) th.
Definition ret_of (c : child) : child := mk_child (c_tid c) (child_done c) st.
Definition done_of (c : child) : child := mk_child (c_tid c) 1 (child_ret c).

Lemma exit_ret_run l : resume (FExitRet st) (at_step l thP) = Ok (tt, at_step (FExitDone :: l) (recorded ret_of thP)).
Proof.
  cbn [resume]. unfold exit_ret. erewrite stM_bind_run by apply step_current.
  erewrite stM_bind_run by (apply get_thread_run, with_lookup).
  cbn [parent ending set_stack set_exit_status tid]. rewrite Hpar. erewrite stM_bind_run by (apply get_thread_run, step_parent).
  rewrite Hrec. erewrite stM_bind_run by apply step_mod_parent. apply step_push.
Qed.

Lemma find_upd n f (l : list child) c :
  (∀ x, c_tid (f x) = c_tid x) → find_child n l = Some c → find_child n (upd_child n f l) = Some (f c).
Proof.
  intros Hf. induction l as [|x l IH]; [done|]. cbn [find_child upd_child]. destruct (c_tid x =? n) eqn:E.
  - intros [= ->]. cbn [find_child]. by rewrite Hf, E.
  - cbn [find_child]. rewrite E. apply IH.
Qed.
Lemma find_recorded f th c :
  (∀ x, c_tid (f x) = c_tid x) → find_child (tid thC) (child_list th) = Some c →
  find_child (tid thC) (child_list (recorded f th)) = Some (f c).
Proof. intros Hf. apply find_upd, Hf. Qed.

Lemma exit_done_run l : resume FExitDone (at_step l (recorded ret_of thP)) = Ok (tt, at_step (FExitUp :: l) (recorded done_of (recorded ret_of thP))).
Proof.
  cbn [resume]. unfold exit_done. erewrite stM_bind_run by apply step_current.
  erewrite stM_bind_run by (apply get_thread_run, with_lookup).
  cbn [parent ending set_stack set_exit_status tid]. rewrite Hpar. erewrite stM_bind_run by (apply get_thread_run, step_parent).
  erewrite stM_bind_run by (by rewrite (find_recorded ret_of thP rec)).
  erewrite stM_bind_run by apply step_mod_parent. apply step_push.
Qed.

Lemma exit_up_run l th :
  child_waiting th = tid thC → resume FExitUp (at_step l th) = Ok (tt, at_step (FUp (P + SEM_CHILD_WAIT) :: FExitEnd :: l) th).
Proof.
  intros Hw. cbn [resume]. unfold exit_up. erewrite stM_bind_run by apply step_current.
  erewrite stM_bind_run by (apply get_thread_run, with_lookup).
  cbn [parent ending set_stack set_exit_status tid]. rewrite Hpar. erewrite stM_bind_run by (apply get_thread_run, step_parent).
  erewrite stM_bind_run by apply step_push. rewrite Hw, Z.eqb_refl. apply step_push.
Qed.

(** [sema_up] for a parent that is blocked on its semaphore. *)
Lemma up_run l th :
  status th = THREAD_BLOCKED → magic th = THREAD_MAGIC → intr_on k = true → in_external_intr k = false →
  semas k !! (P + SEM_CHILD_WAIT) = Some (mk_sema 0 [P]) → P + SEM_CHILD_WAIT ≠ NULL →
  ∃ k', resume (FUp (P + SEM_CHILD_WAIT)) (at_step l th) = Ok (tt, k') ∧ cur k' = C ∧
    threads k' = threads (at_step l (set_status THREAD_READY th)) ∧ ready_list k' = ready_list k ++ [P] ∧
    semas k' = <[P + SEM_CHILD_WAIT := mk_sema 1 []]> (semas k) ∧ intr_on k' = true ∧ in_external_intr k' = false.
Proof.
  intros Hst Hm Hi Hx Hsem Hnz. cbn [resume]. unfold sema_up.
  rewrite (proj2 (Z.eqb_neq _ NULL)) by done. erewrite stM_bind_run by reflexivity.
  unfold intr_disable, intr_get_level. erewrite stM_bind_run by (erewrite stM_bind_run by reflexivity; by erewrite stM_bind_run by reflexivity).
  unfold get_sema. erewrite stM_bind_run by (cbn [semas upd_intr at_step with_thread upd_threads]; by rewrite Hsem).
  cbn [waiters value]. unfold set_sema. set (k1 := upd_semas <[P + SEM_CHILD_WAIT := mk_sema 0 []]> (upd_intr false (at_step l th))).
  erewrite stM_bind_run; cycle 1.
  { rewrite (stM_bind_run _ _ _ tt k1) by reflexivity. apply (unblock_run k1 P th); try done. apply step_parent. }
  erewrite stM_bind_run by (cbn; by rewrite lookup_insert_eq). erewrite stM_bind_run by reflexivity.
  assert (intr_on (at_step l th) = true) as -> by exact Hi. unfold intr_set_level, intr_enable, intr_get_level, intr_context.
  erewrite stM_bind_run; cycle 1.
  { erewrite stM_bind_run by reflexivity. erewrite stM_bind_run by reflexivity. cbn. rewrite Hx. by erewrite stM_bind_run by reflexivity. }
  eexists. split; [reflexivity|]. cbn. split_and!; try done.
  - rewrite (insert_insert_ne _ P C) by done. by rewrite insert_insert_eq.
  - by rewrite insert_insert_eq.
Qed.
End exit.

(** ** The parent goes on *)

Lemma down_run k s old q :
  semas k !! s = Some q → value q ≠ 0 → in_external_intr k = false →
  ∃ k', resume (FDown s old) k = Ok (tt, k') ∧ threads k' = threads k ∧ cur k' = cur k ∧
    semas k' = <[s := mk_sema (u32 (value q - 1)) (waiters q)]> (semas k).
Proof.
  intros Hq Hv Hx. cbn [resume]. unfold sema_down_loop, get_sema. erewrite stM_bind_run by (by rewrite Hq).
  rewrite (proj2 (Z.eqb_neq _ _)) by done. unfold set_sema. erewrite stM_bind_run by reflexivity.
  unfold intr_set_level, intr_enable, intr_disable, intr_get_level, intr_context. destruct old.
  - erewrite stM_bind_run.
    2:{ erewrite stM_bind_run by reflexivity. erewrite stM_bind_run by reflexivity. cbn. rewrite Hx. by erewrite stM_bind_run by reflexivity. }
    by eexists.
  - erewrite stM_bind_run by (by erewrite stM_bind_run by reflexivity). by eexists.
Qed.

Lemma wait_end_run k th c rec l :
  cur k ≠ NULL → threads k !! cur k = Some th → sound th → stack th = FWaited c :: l →
  find_child c (child_list th) = Some rec →
  exec Continue k = Ok (tt, with_thread (cur k) (set_stack (FReturn (child_ret rec) :: l) (with_children (remove_child c) th)) k).
Proof.
  intros Hn Hth Hs Hst Hrec. erewrite continue_run by done. cbn [resume]. unfold process_wait_end.
  set (k1 := with_thread (cur k) (set_stack l th) k).
  assert (threads k1 !! cur k1 = Some (set_stack l th)) as H1 by apply with_lookup.
  erewrite stM_bind_run by (by eapply current_run). erewrite stM_bind_run by (by apply get_thread_run).
  erewrite stM_bind_run by (unfold slift; cbn [child_list set_stack]; by rewrite Hrec).
  erewrite stM_bind_run by (by apply mod_thread_run). erewrite push_frame_run by apply with_lookup. do 2 f_equal.
  etransitivity; [apply with_twice|]. etransitivity; [apply with_twice|]. done.
Qed.

Lemma upd_child_tids n f (l : list child) : (∀ x, c_tid (f x) = c_tid x) → c_tid <$> upd_child n f l = c_tid <$> l.
Proof.
  intros Hf. induction l as [|x l IH]; [done|]. cbn [upd_child]. destruct (c_tid x =? n); rewrite !fmap_cons; [by rewrite Hf|by rewrite IH].
Qed.
Lemma find_removed c (l : list child) : NoDup (c_tid <$> l) → find_child c (remove_child c l) = None.
Proof.
  assert (∀ l, c ∉ (c_tid <$> l) → find_child c l = None) as Hno.
  { induction l0 as [|x l0 IH]; [done|]. rewrite fmap_cons, not_elem_of_cons. intros [Hx Hl]. cbn [find_child].
    rewrite (proj2 (Z.eqb_neq _ _)) by congruence. by apply IH. }
  induction l as [|x l IH]; [done|]. rewrite fmap_cons. intros [Hx Hl]%NoDup_cons. cbn [remove_child].
  destruct (Z.eqb_spec (c_tid x) c) as [<-|Hne]; [by apply Hno|]. cbn [find_child]. rewrite (proj2 (Z.eqb_neq _ _)) by done. by apply IH.
Qed.

(** The parent at [P] is blocked in [process_wait] for the running process at
    [cur k], whose own code is running. *)
Record waited_for (k : kernel) (P c : Z) (rest : list frame) : Prop := {
  wf_child : ∃ th r, threads k !! cur k = Some th ∧ stack th = FUser :: r ∧ parent th = P ∧ tid th = c;
  wf_parent : ∃ th old, threads k !! P = Some th ∧ status th = THREAD_BLOCKED ∧
    stack th = FDown (P + SEM_CHILD_WAIT) old :: FWaited c :: rest ∧ child_waiting th = c ∧
    NoDup (c_tid <$> child_list th) ∧ is_Some (find_child c (child_list th));
  wf_sema : semas k !! (P + SEM_CHILD_WAIT) = Some (mk_sema 0 [P]);
  wf_addr : 0 < P;
}.

(** The hand-shake of [exit] and [process_wait], in every reachable state:
    when a process calls [exit] while its parent is blocked waiting for it,
    the steps up to its [thread_exit], taken without an interrupt, leave the
    parent at the end of the run queue; and if the parent's record and
    semaphore are still the same when it is switched to, its [process_wait]
    returns the status passed to [exit], with the child's record gone and the
    semaphore back at zero. *)
Lemma wait_gets_status main k P c rest st :
  main ≠ NULL → reachable main k → intr_on k = true → waited_for k P c rest →
  ∃ k1, execs [Request (RTerminate st); Continue; Continue; Continue; Continue] k = Ok (tt, k1) ∧
    ready_list k1 = ready_list k ++ [P] ∧
    ∀ k2, cur k2 = P → threads k2 !! P = set_status THREAD_RUNNING <$> threads k1 !! P →
      semas k2 !! (P + SEM_CHILD_WAIT) = semas k1 !! (P + SEM_CHILD_WAIT) → in_external_intr k2 = false →
      ∃ k3 th, execs [Continue; Continue] k2 = Ok (tt, k3) ∧ threads k3 !! P = Some th ∧ stack th = FReturn st :: rest ∧
        find_child c (child_list th) = None ∧ semas k3 !! (P + SEM_CHILD_WAIT) = Some (mk_sema 0 []).
Proof.
  intros Hmain Hr Hi [(thC & r & HthC & HsC & Hpar & Htid) (thP & old & HthP & HstP & HkP & Hw & Hnd & [rec Hrec]) Hsem HP].
  destruct (reachable_inv _ _ Hmain Hr) as [[Hwf Hx _] _].
  destruct (w_threads _ _ _ _ _ _ Hwf _ _ HthC) as (HnC & HmC & Hrun & _). destruct (w_threads _ _ _ _ _ _ Hwf _ _ HthP) as (HnP & HmP & _).
  assert (status thC = THREAD_RUNNING) as HsrC by (by apply Hrun).
  assert (cur k ≠ P) as Hne by congruence. subst c. assert (sound thC) as Hsound by done.
  set (thP2 := recorded thC done_of (recorded thC (ret_of st) thP)).
  destruct (up_run k (cur k) P thC st eq_refl Hne HnP (FExitEnd :: FUser :: r) thP2) as (k1 & Hup & Hc1 & Ht1 & Hrl & Hsm & _ & _);
    try done; [unfold SEM_CHILD_WAIT, NULL; lia|].
  exists k1. split; [|split; [done|]].
  - rewrite (execs_cons _ _ _ _ (terminate_run k (cur k) thC r st eq_refl HthC HnC Hsound HsC)).
    assert (with_thread (cur k) (ending thC st (FExitRet st :: FUser :: r)) k = at_step k (cur k) P thC st (FExitRet st :: FUser :: r) thP) as ->.
    { unfold at_step. f_equal. unfold with_thread, upd_threads. destruct k. simpl in *. by rewrite insert_id. }
    erewrite execs_cons by (rewrite step_pop by done; exact (exit_ret_run k (cur k) P thC thP st rec eq_refl Hne HnC Hsound Hpar Hrec _)).
    erewrite execs_cons by (rewrite step_pop by done; exact (exit_done_run k (cur k) P thC thP st rec eq_refl Hne HnC Hsound Hpar Hrec _)).
    erewrite execs_cons by (rewrite step_pop by done; exact (exit_up_run k (cur k) P thC st eq_refl Hne HnC Hsound Hpar _ thP2 Hw)).
    erewrite execs_cons by (rewrite step_pop by done; exact Hup). done.
  - intros k2 Hc2 Ht2 Hs2 Hx2. rewrite Ht1 in Ht2. rewrite step_parent in Ht2 by done. cbn [fmap option_fmap option_map] in Ht2.
    rewrite Hsm, lookup_insert_eq in Hs2. set (th2 := set_status THREAD_RUNNING (set_status THREAD_READY thP2)) in *.
    assert (stack th2 = FDown (P + SEM_CHILD_WAIT) old :: FWaited (tid thC) :: rest) as Hst2 by exact HkP.
    set (k2' := with_thread P (set_stack (FWaited (tid thC) :: rest) th2) k2).
    destruct (down_run k2' (P + SEM_CHILD_WAIT) old (mk_sema 1 [])) as (k3 & Hd & Ht3 & Hc3 & Hs3); [done|done|done|].
    assert (cur k3 = P) as Hc3' by (rewrite Hc3; exact Hc2).
    set (th3 := set_stack (FWaited (tid thC) :: rest) th2) in *.
    assert (find_child (tid thC) (child_list th3) = Some (done_of (ret_of st rec))) as Hrec3.
    { apply (find_recorded thC done_of); [done|]. by apply (find_recorded thC (ret_of st)). }
    eexists _, _. split; [|split; [|split; [|split]]].
    + erewrite execs_cons; cycle 1.
      { erewrite continue_run; [|rewrite Hc2; exact Ht2|exact Hst2]. rewrite Hc2. exact Hd. }
      erewrite execs_cons; [reflexivity|]. eapply (wait_end_run k3 th3); [by rewrite Hc3'| |done|done|done].
      rewrite Ht3, Hc3'. apply with_lookup.
    + rewrite Hc3'. apply with_lookup.
    + done.
    + cbn [child_list set_stack with_children set_children]. apply find_removed.
      cbn [child_list th3 th2 set_stack set_status thP2 recorded with_children set_children]. by rewrite !upd_child_tids.
    + cbn [semas with_thread upd_threads]. rewrite Hs3. apply lookup_insert_eq.
Qed.

(** ** Concrete runs *)

(** The main thread starts the idle thread and then two processes, 3 and 4,
    which load their programs and yield. *)
Definition two_processes : list event :=
  [Request (RStart 8192 300)] ++ replicate 8 Continue ++
  [Request (RExec 1 12288 [97])] ++ replicate 6 Continue ++
  [Request (RLoaded true); Continue; Request RYield; Continue; Continue; Continue] ++
  [Request (RExec 1 16384 [98])] ++ replicate 6 Continue ++
  [Request RYield; Continue; Request (RLoaded true); Continue; Request RYield; Continue; Request RYield] ++
  replicate 3 Continue.
Definition played (es : list event) : kernel :=
  final (thread_init 4096) (default [] (play es (thread_init 4096))).

Lemma played_reachable es :
  match play es (thread_init 4096) with Some _ => true | None => false end = true → reachable 4096 (played es).
Proof.
  unfold played. destruct (play es (thread_init 4096)) as [tr|] eqn:Htr; [|done]. intros _. apply runs_reachable; [constructor|]. by apply (play_runs es).
Qed.

(** The main thread waits for process 3, which runs. *)
Definition blocked_in_wait : list event := two_processes ++ [Request (RWait 3); Continue; Continue; Request RYield; Continue].

(** [kill], the handler of exceptions other than page faults, for the code
    segment [cs] of the interrupted code. *)
Definition kill (cs : Z) : kM unit :=
  if cs =? Descriptors.SEL_UCSEG then thread_exit
  else if cs =? Descriptors.SEL_KCSEG then serr EPanic
  else thread_exit.

(** A process that dies of an exception tells nobody: the thread is gone, the
    record that the parent has of it is not done, the semaphore is still zero and the
    parent still among its waiters. *)
Lemma kill_leaves_parent_waiting :
  ∃ k thP, (kill Descriptors.SEL_UCSEG;; execs (replicate 4 Continue)) (played blocked_in_wait) = Ok (tt, k) ∧
    threads k !! 12288 = None ∧ threads k !! 4096 = Some thP ∧ status thP = THREAD_BLOCKED ∧
    child_waiting thP = 3 ∧ (child_done <$> find_child 3 (child_list thP)) = Some 0 ∧
    semas k !! (4096 + SEM_CHILD_WAIT) = Some (mk_sema 0 [4096]).
Proof. eexists _, _. split; [vm_compute; reflexivity|]. split; [vm_compute; reflexivity|]. split; [vm_compute; reflexivity|]. vm_compute. done. Qed.

(** The timer interrupts the main thread in [process_wait] between setting
    [child_waiting] and the test of [child_done]; process 3 ends meanwhile. *)
Definition interrupted_wait : list event :=
  two_processes ++ [Request (RWait 3); Tick; Continue; Tick; Continue; Tick; Continue; Tick] ++
  [Continue; Request RYield; Continue; Request (RTerminate 5)] ++ replicate 10 Continue ++
  [Request (RWait 4); Continue; Continue].

(** C36: The hand-shake can go wrong.  There is a run in which the main thread's
    first wait finds its child done without taking the signal that the child
    left in the semaphore; its second wait, for process 4, then takes that old
    signal and returns 0 while process 4 is alive, ready to go on with its own
    code. *)
Theorem wait_returns_early :
  ∃ k parent child, reachable 4096 k ∧ threads k !! 4096 = Some parent ∧ threads k !! 16384 = Some child ∧
    tid child = 4 ∧ child_waiting parent = 4 ∧ stack parent = [FReturn 0; FUser] ∧ find_child 4 (child_list parent) = None ∧
    status child = THREAD_READY ∧ stack child = [FYield true; FUser].
Proof.
  exists (played interrupted_wait). eexists _, _. split; [apply played_reachable; vm_compute; reflexivity|].
  split; [vm_compute; reflexivity|]. split; [vm_compute; reflexivity|]. by split_and!.
Qed.
